(* ===== verification/_CoqProject ===== *)
-Q . S2P
Prelude.v
AuditRing.v
Cnsl.v
Pmm.v
Vmm.v
Kmalloc.v
ChaCha20.v
Poly1305.v
Aead.v
Sha256.v
Sha512.v
Blake3.v
Blake3Spec.v
X25519.v
Capability.v
Proc.v
Sync.v
Ipc.v
Futex.v
Shm.v
Net.v
Arp.v
Ip.v
Udp.v
Tcp.v
TcpWire.v
TcpTable.v
TcpProto.v
Socket.v
SocketInv.v
Fim.v
Vfs.v
BlockDev.v
Journal.v
ExfsFile.v
ExfsVolume.v
ExfsData.v
ExfsIo.v
ExfsDir.v
ExfsUnlink.v
ExfsMount.v
Elf.v
ElfMap.v
ElfLoad.v
Ssh.v
SshKex.v
Fork.v
ForkSpace.v
ForkProc.v
