(* ===== verification/Prelude.v ===== *)
(** * Exploidus: a verification library for the Exploidus kernel

    Exploidus is a 64-bit operating system kernel written in C (src/kernel) with
    user-space programs on top (src/userspace).  This library translates the
    parts of the kernel that carry its own logic, and the packet layer of the SSH
    server, into Rocq functions and proves what makes them correct.  Definitions
    keep the names of the C functions and types; the comment at the top of a file
    says which sources it models, below src/kernel if not said otherwise.

    ** How C becomes Rocq

    An unsigned integer of width [w] is a [Z] below [2^w]; every operation that
    can leave the range is followed by the truncation ([u8], [u16], [u32],
    [u64]) the C type performs.  An array is a list read and written by index
    ([a.[i]], [a.[i <- x]]); what the code does out of range is stated by the
    component.  A struct is a record, an enum an inductive type.  Static
    variables of a file form one state record that the functions take and
    return; code that can leave early threads the state through the monad [M],
    where [None] is the error return, or, in BlockDev and the ExFS files, the
    machine that stops, and in Vfs and Ip an access outside allocated memory.
    Loops are structural on a bound that the code itself gives; the bounds are
    listed below.

    ** Parts, files and their sources

    Memory.  Pmm.v (mm/pmm.c): the frame database with three zones; Vmm.v
    (mm/vmm.c): page tables over any [FrameSource], of which the frame allocator
    is an instance; Kmalloc.v (mm/kmalloc.c): the kernel heap.

    Programs.  Elf.v (elf/elf.c): validation, segments, relocations and the
    initial stack of a program, over the page tables; ElfMap.v and ElfLoad.v hold
    the proofs about the address space it builds.  Fork.v (proc/fork_exec.c):
    copying and releasing address spaces over any [FramePool], of which the frame
    allocator is an instance, fork, waitpid and exec over any [Files]; ForkSpace.v
    (address spaces) and ForkProc.v (processes) hold the proofs and examples.

    Security.  AuditRing.v (audit/audit.c): the event ring; Capability.v
    (cap/capability.c, cap/broker.c): tokens, delegation and revocation over any
    [Allocator], of which the heap is an instance; Cnsl.v (cnsl/cnsl.c): the rule
    engine and its block list, on the audit ring; Fim.v (cnsl/fim.c): the watch
    table of the file integrity monitor.

    Cryptography.  ChaCha20.v, Poly1305.v, Aead.v, Sha256.v, Sha512.v, Blake3.v,
    X25519.v (crypto/): the routines at machine width; Blake3Spec.v holds a
    specification of BLAKE3 and the proof that Blake3.v meets it on one chunk.

    Processes.  Proc.v (proc/process.c, proc/scheduler.c): process table, ready
    queues and the scheduler; Sync.v (sync/sync.c): mutexes and semaphores;
    Ipc.v (ipc/ipc.c): inboxes; Futex.v (sync/futex.c); Shm.v (shm/shm.c): shared
    regions, on the frame allocator, the page tables and the process table.

    Network.  Net.v (net/net.c): packet buffers and the Internet checksum; Arp.v,
    Ip.v, Udp.v (net/arp, net/ip, net/udp, net/icmp): a received packet goes from
    Ip to the protocol handlers, a sent one through Ip, Arp and the driver, which
    is a parameter.  Tcp.v (net/tcp/tcp.c): the connections over any [IpLayer], of
    which the IPv4 model is an instance; TcpWire.v (receive ring and segment
    format), TcpTable.v (table and accept queues) and TcpProto.v (two hosts) hold
    the proofs about it.  Socket.v (net/socket/socket.c): the sockets over TCP and
    UDP, with the proofs in SocketInv.v.  Ssh.v and SshKex.v
    (src/userspace/bin/sshd_packet.c): the SSH packets in the clear and under
    ChaCha20-Poly1305 over any [Wire], and the negotiation of algorithms.

    Files.  Vfs.v (fs/vfs/vfs.c): mounts, path resolution, descriptors and
    permissions over any [FileSystem]; BlockDev.v (drivers/blockdev.c, ramdisk.c):
    the class [Device] of what a file system relies on, the RAM disk, which is an
    instance, and the device table.  ExFS (fs/exfs/exfs.c) is in several files:
    Journal.v (block I/O, cache and journal with its crash points), ExfsFile.v
    (bitmap, inodes, file blocks, hash, provenance, reading and writing),
    ExfsDir.v (directory operations, mount and format); ExfsVolume.v, ExfsData.v,
    ExfsIo.v, ExfsUnlink.v and ExfsMount.v hold no code of their own but the
    invariants and proofs about it.

    ** What is proved

    Refinement of a simpler object: the audit ring is the tail of an unbounded
    log; the ready queues are FIFO lists; the inboxes are bounded FIFO queues; the
    block list is a map from addresses to expiry times; the memory of a loaded
    program is the one the ELF format defines, relocated, with its stack.

    Equality with a specification: ChaCha20 as an xor with its keystream,
    Poly1305 with the RFC 8439 polynomial, SHA-256 with FIPS 180-4 and BLAKE3 of
    up to 1024 bytes with its paper, both written without the code's tables and
    rounds, SHA-512 with the padding and the 80-word schedule of FIPS 180-4, X25519
    with RFC 7748, the Internet checksum with one's-complement addition, a cloned
    address space with the kernel half of the old one; the code's side is always at
    machine width.

    Invariants of all reachable states: frame counters and frame database, the
    tiling of the heap, mutual exclusion and no lost wake-up, revoked tokens stay
    invalid, no use of a freed node by the VFS, well-formed ExFS volumes, accept
    queues without sharing or cycles, no connection recycled under its socket.

    Address spaces: the loader reads inside the image whatever it holds, puts the
    program in free frames and leaves every page in use that is not a page table as
    it was; the child of a fork reads what the parent reads in frames of its own,
    and releasing it returns every frame.

    Behaviour on every branch: allocation and mapping, capability checks,
    scheduling, sending and receiving, reassembly, opening and closing files.

    Crash safety: a journal transaction of ExFS, and removing a file, are atomic
    wherever the machine stops and however often recovery is interrupted; what is
    written to a file is read back and leaves every other file as it was; a
    formatted volume mounts, and mounts again with what it held.

    TCP between two hosts: the handshake, data transfer, and that a receiver
    delivers a prefix of the stream under loss, duplication and reordering; the
    socket calls that wait for the network return when the clock has reached their
    deadline and give up no earlier.  Scheduling: a sleeper gets the CPU back when
    its deadline comes.

    SSH: the packets of 1 to 34988 bytes one end sends are the packets the other
    end returns, in the clear and after the switch to encryption; what an encrypted
    receiver returns carries a valid tag under its key and sequence number; a
    client's KEXINIT message is read inside its bounds unless a list length wraps
    the 32-bit position, and a well-formed one is accepted exactly when its lists
    hold the algorithms of the server.

    Where the code does not do what a comment says, the theorem or example states
    what it does; such lemmas are named in the comments of their files.

    ** Bounds of the loops

    The frame scan makes one turn through a zone; page walks have four levels;
    the heap walk and the coalescing pass visit each block of the heap once; the
    carry chains of the field arithmetic run twice ([CARRY_FUEL]); hash loops
    follow the message; path resolution takes one step per byte of the path and
    follows at most [SYMLINK_HOPS] links; the idle loop of the scheduler takes the
    number of timer interrupts as an argument; ExFS transfers take a round per block of the request
    ([io_rounds]) and directory scans at most [EXFS_MAX_DIR_BLOCKS] blocks; an
    accept queue has at most 32 connections, [tcp_connect] tries 16384 ports, the
    option and send loops consume a byte per round, and the socket calls that wait
    take the list of their passes, with what happens in each, as an argument ([None]:
    still waiting).  The loader
    follows the program headers and the pages of each segment, with four frames
    per page enough ([supplies]), a fork the 512 entries of each table, with one
    frame per frame of the parent enough, and the SSH transfers the bytes left.  In
    each case the bound is the one of the C loop, or a theorem or lemma shows
    that the loop has ended before it is reached.

    ** Not modelled

    Hardware access (drivers, interrupt controllers, USB, boot code) has no data
    logic of its own; the Lua interpreter is third-party code; the system call
    table, DNS, Ed25519, the C library and the other user-space programs are not
    modelled.  Locks that only disable interrupts are modelled by treating the
    section as one step. *)

From stdpp Require Export base numbers list gmap.
From Stdlib Require Export ZArith Lia.

#[global] Open Scope Z_scope.
#[global] Set Default Goal Selector "!".

(** ** Machine integers

    A C unsigned integer of width [w] is a [Z] in [[0, 2^w)]; every C operation
    that can leave that range is followed by the matching truncation. *)

Definition u8 (x : Z) : Z := x mod 2 ^ 8.
Definition u16 (x : Z) : Z := x mod 2 ^ 16.
Definition u32 (x : Z) : Z := x mod 2 ^ 32.
Definition u64 (x : Z) : Z := x mod 2 ^ 64.

(** [~x] on a [w]-bit unsigned operand. *)
Definition not32 (x : Z) : Z := 2 ^ 32 - 1 - x.
Definition not64 (x : Z) : Z := 2 ^ 64 - 1 - x.

(** ** C arrays with [Z] indices *)

Definition zget `{Inhabited A} (l : list A) (i : Z) : A := l !!! Z.to_nat i.
Definition zset {A} (l : list A) (i : Z) (x : A) : list A := <[Z.to_nat i := x]> l.
Definition zlen {A} (l : list A) : Z := Z.of_nat (length l).

Declare Scope exk_scope.
Delimit Scope exk_scope with exk.
Notation "a .[ i ]" := (zget a i) (at level 1, left associativity, format "a .[ i ]") : exk_scope.
Notation "a .[ i <- x ]" := (zset a i x) (at level 1, left associativity, format "a .[ i  <-  x ]") : exk_scope.
#[global] Open Scope exk_scope.

(** [memcpy(dst + pos, src, n)] and [memset(dst + pos, x, n)] inside [dst]. *)
Definition memcpy {A} (dst : list A) (pos : Z) (src : list A) : list A :=
  take (Z.to_nat pos) dst ++ src ++ drop (Z.to_nat pos + length src) dst.
Definition memset {A} (dst : list A) (pos : Z) (x : A) (n : Z) : list A :=
  memcpy dst pos (replicate (Z.to_nat n) x).

(** ** [for (i = lo; i < lo + n; i++)] *)

Fixpoint for_loop {S} (n : nat) (i : Z) (f : Z -> S -> S) (s : S) : S :=
  match n with
  | O => s
  | Datatypes.S n' => for_loop n' (i + 1) f (f i s)
  end.

(** [for (k = i; ...; k++) if (f(a[k])) return k; return -1]. *)
Fixpoint find_from {A} (f : A -> bool) (l : list A) (i : Z) : Z :=
  match l with
  | [] => -1
  | x :: l' => if f x then i else find_from f l' (i + 1)
  end.

(** ** Fallible stateful code

    [M S A] is code that reads and writes a state [S] and either returns an [A]
    or takes an early error return; the writes made before an error return
    persist, as they do in the kernel. *)

Definition M (S A : Type) : Type := S -> option A * S.

Definition mret {S A} (a : A) : M S A := fun s => (Some a, s).
Definition mfail {S A} : M S A := fun s => (None, s).
Definition mbind {S A B} (m : M S A) (k : A -> M S B) : M S B :=
  fun s => match m s with
           | (Some a, s') => k a s'
           | (None, s') => (None, s')
           end.

Notation "x <-- m ;; k" := (mbind m (fun x => k))
  (at level 100, m at next level, k at level 200, right associativity) : exk_scope.

(** ** Little-endian byte strings *)

Fixpoint le_bytes (n : nat) (x : Z) : list Z :=
  match n with
  | O => []
  | Datatypes.S n' => x mod 256 :: le_bytes n' (x / 256)
  end.

Fixpoint le_val (l : list Z) : Z :=
  match l with
  | [] => 0
  | b :: l' => b + 256 * le_val l'
  end.

(** [byte b]: [b] is a value of [uint8_t]. *)
Definition byte (b : Z) : Prop := 0 <= b < 256.

(** ** Lemmas *)

Create HintDb exk.
Create Rewrite HintDb exk.

Lemma u8_range x : 0 <= u8 x < 2 ^ 8.
Proof. apply Z.mod_pos_bound; lia. Qed.
Lemma u16_range x : 0 <= u16 x < 2 ^ 16.
Proof. apply Z.mod_pos_bound; lia. Qed.
Lemma u32_range x : 0 <= u32 x < 2 ^ 32.
Proof. apply Z.mod_pos_bound; lia. Qed.
Lemma u64_range x : 0 <= u64 x < 2 ^ 64.
Proof. apply Z.mod_pos_bound; lia. Qed.
#[export] Hint Resolve u8_range u16_range u32_range u64_range : exk.

Lemma u8_small x : 0 <= x < 2 ^ 8 -> u8 x = x.
Proof. apply Z.mod_small. Qed.
Lemma u16_small x : 0 <= x < 2 ^ 16 -> u16 x = x.
Proof. apply Z.mod_small. Qed.
Lemma u32_small x : 0 <= x < 2 ^ 32 -> u32 x = x.
Proof. apply Z.mod_small. Qed.
Lemma u64_small x : 0 <= x < 2 ^ 64 -> u64 x = x.
Proof. apply Z.mod_small. Qed.

(** [ulia] is [lia] with the truncations unfolded to Euclidean division. *)
Ltac ulia := unfold u8, u16, u32, u64 in *; Z.div_mod_to_equations; lia.

Lemma land_low n x : 0 <= n -> Z.land x (2 ^ n - 1) = x mod 2 ^ n.
Proof.
  intros Hn. replace (2 ^ n - 1) with (Z.ones n) by (rewrite Z.ones_equiv; lia).
  by apply Z.land_ones.
Qed.

Lemma shiftr_div n x : 0 <= n -> Z.shiftr x n = x / 2 ^ n.
Proof. apply Z.shiftr_div_pow2. Qed.
Lemma shiftl_mul n x : 0 <= n -> Z.shiftl x n = x * 2 ^ n.
Proof. apply Z.shiftl_mul_pow2. Qed.

(** Disjoint bit ranges: [or] is addition. *)
Lemma lor_add_disjoint n a b :
  0 <= n -> 0 <= a < 2 ^ n -> Z.lor a (b * 2 ^ n) = a + b * 2 ^ n.
Proof.
  intros Hn Ha. assert (E : Z.land a (b * 2 ^ n) = 0).
  { apply Z.bits_inj'; intros i Hi. rewrite Z.land_spec, Z.bits_0.
    destruct (decide (i < n)).
    - rewrite Z.mul_pow2_bits_low by lia. apply andb_false_r.
    - rewrite <- (Z.mod_small a (2 ^ n)), Z.mod_pow2_bits_high by lia. done. }
  by rewrite Z.add_nocarry_lxor, Z.lxor_lor.
Qed.

Lemma for_loop_ind {S} (P : Z -> S -> Prop) n i f s :
  P i s ->
  (forall j s, i <= j < i + Z.of_nat n -> P j s -> P (j + 1) (f j s)) ->
  P (i + Z.of_nat n) (for_loop n i f s).
Proof.
  revert i s; induction n as [|n IH]; intros i s H0 Hstep.
  - change (Z.of_nat 0) with 0. by rewrite Z.add_0_r.
  - replace (i + Z.of_nat (Datatypes.S n)) with (i + 1 + Z.of_nat n) by lia.
    cbn [for_loop]. apply IH.
    + apply Hstep; [lia|done].
    + intros j s2 Hj HP. apply Hstep; [lia|done].
Qed.

Lemma zset_length {A} (l : list A) i x : length (zset l i x) = length l.
Proof. apply length_insert. Qed.

Lemma zget_zset_eq `{Inhabited A} (l : list A) i x :
  0 <= i < zlen l -> zget (zset l i x) i = x.
Proof.
  unfold zget, zset, zlen. intros Hi. apply list_lookup_total_insert_eq. lia.
Qed.

Lemma zget_zset_ne `{Inhabited A} (l : list A) i j x :
  0 <= i -> 0 <= j -> i <> j -> zget (zset l i x) j = zget l j.
Proof.
  unfold zget, zset. intros Hi Hj Hij. apply list_lookup_total_insert_ne. lia.
Qed.

Lemma zlen_zset {A} (l : list A) i x : zlen (zset l i x) = zlen l.
Proof. unfold zlen. by rewrite zset_length. Qed.
#[export] Hint Rewrite @zlen_zset @zset_length : exk.

Lemma zget_lookup `{Inhabited A} (l : list A) i :
  0 <= i < zlen l -> l !! Z.to_nat i = Some (zget l i).
Proof.
  unfold zget, zlen. intros Hi. apply list_lookup_lookup_total_lt. lia.
Qed.

Lemma length_le_bytes n x : length (le_bytes n x) = n.
Proof. revert x; induction n; intros; simpl; auto. Qed.

Lemma le_bytes_byte n x : Forall byte (le_bytes n x).
Proof.
  revert x; induction n as [|n IH]; intros x; constructor; [|apply IH].
  unfold byte. apply Z.mod_pos_bound; lia.
Qed.

Lemma le_val_range l : Forall byte l -> 0 <= le_val l < 256 ^ zlen l.
Proof.
  unfold zlen. induction 1 as [|b l Hb Hl IH]; [simpl; lia|].
  cbn [le_val length]. rewrite Nat2Z.inj_succ, Z.pow_succ_r by lia.
  unfold byte in Hb. lia.
Qed.

Lemma le_val_bytes n x : le_val (le_bytes n x) = x mod 256 ^ Z.of_nat n.
Proof.
  revert x; induction n as [|n IH]; intros x; [by rewrite Z.mod_1_r|].
  cbn [le_bytes le_val]. rewrite IH, Nat2Z.inj_succ, Z.pow_succ_r by lia.
  rewrite (Z.rem_mul_r x 256) by lia. lia.
Qed.

Lemma le_bytes_val l : Forall byte l -> le_bytes (length l) (le_val l) = l.
Proof.
  induction 1 as [|b l Hb Hl IH]; [done|].
  cbn [le_val le_bytes length]. unfold byte in Hb.
  replace ((b + 256 * le_val l) mod 256) with b by ulia.
  replace ((b + 256 * le_val l) / 256) with (le_val l) by ulia.
  by rewrite IH.
Qed.

Lemma le_bytes_inj n x y :
  0 <= x < 256 ^ Z.of_nat n -> 0 <= y < 256 ^ Z.of_nat n ->
  le_bytes n x = le_bytes n y -> x = y.
Proof.
  intros Hx Hy E. apply (f_equal le_val) in E.
  rewrite !le_val_bytes, !Z.mod_small in E by lia. done.
Qed.

Lemma le_val_app l1 l2 : le_val (l1 ++ l2) = le_val l1 + 256 ^ zlen l1 * le_val l2.
Proof.
  unfold zlen. induction l1 as [|b l1 IH]; [simpl; lia|].
  cbn [app le_val length]. rewrite IH, Nat2Z.inj_succ, Z.pow_succ_r by lia. lia.
Qed.

Lemma le_bytes_add n m x : le_bytes (n + m) x = le_bytes n x ++ le_bytes m (x / 256 ^ Z.of_nat n).
Proof.
  revert x; induction n as [|n IH]; intros x; [cbn; by rewrite Z.div_1_r|].
  cbn [Nat.add le_bytes app]. rewrite IH, Nat2Z.inj_succ, Z.pow_succ_r, Z.div_div by lia. done.
Qed.

Lemma le_bytes_mod n x y :
  x mod 256 ^ Z.of_nat n = y mod 256 ^ Z.of_nat n -> le_bytes n x = le_bytes n y.
Proof.
  intros E. rewrite <- (le_bytes_val (le_bytes n x)), <- (le_bytes_val (le_bytes n y)) by apply le_bytes_byte.
  by rewrite !length_le_bytes, !le_val_bytes, E.
Qed.

(** A Hoare rule for the error-state monad: what the first half establishes on
    success is what the second half starts from; a failure keeps [Q None]. *)
Lemma mbind_spec {S A B} (m : M S A) (k : A -> M S B) s (R : option A -> S -> Prop)
    (Q : option B -> S -> Prop) :
  R (m s).1 (m s).2 ->
  (forall a s', R (Some a) s' -> Q (k a s').1 (k a s').2) ->
  (forall s', R None s' -> Q None s') ->
  Q (mbind m k s).1 (mbind m k s).2.
Proof.
  intros HR Hk HN. unfold mbind. destruct (m s) as [[a|] s']; simpl in *; auto.
Qed.

(** ** Counting and searching in arrays *)

Fixpoint countb {A} (p : A -> bool) (l : list A) : Z :=
  match l with
  | [] => 0
  | x :: l' => Z.b2z (p x) + countb p l'
  end.

Lemma countb_range {A} (p : A -> bool) l : 0 <= countb p l <= zlen l.
Proof.
  unfold zlen. induction l as [|x l IH]; [simpl; lia|].
  cbn [countb length]. destruct (p x); simpl Z.b2z; lia.
Qed.

Lemma countb_negb {A} (p : A -> bool) l : countb p l + countb (fun x => negb (p x)) l = zlen l.
Proof.
  unfold zlen. induction l as [|x l IH]; [done|]. cbn [countb length]. destruct (p x); cbn [negb Z.b2z]; lia.
Qed.

Lemma countb_app {A} (p : A -> bool) l1 l2 : countb p (l1 ++ l2) = countb p l1 + countb p l2.
Proof. induction l1 as [|x l IH]; simpl; lia. Qed.

Lemma countb_insert {A} (p : A -> bool) l i x y :
  l !! i = Some x -> countb p (<[i := y]> l) = countb p l - Z.b2z (p x) + Z.b2z (p y).
Proof.
  revert i. induction l as [|z l IH]; intros [|i] H; simplify_eq/=; [lia|].
  rewrite (IH i) by done. lia.
Qed.

Lemma countb_zset `{Inhabited A} (p : A -> bool) l i y :
  0 <= i < zlen l ->
  countb p (zset l i y) = countb p l - Z.b2z (p (zget l i)) + Z.b2z (p y).
Proof. intros Hi. apply countb_insert. by apply zget_lookup. Qed.

Lemma countb_pos `{Inhabited A} (p : A -> bool) l :
  0 < countb p l -> exists i, 0 <= i < zlen l /\ p (zget l i) = true.
Proof.
  unfold zlen. induction l as [|x l IH]; simpl; [lia|]. intros Hc.
  destruct (p x) eqn:E; [exists 0; split; [lia|done]|].
  simpl in Hc. destruct (IH ltac:(lia)) as (i & Hi & Hp).
  exists (i + 1). split; [lia|]. unfold zget in *.
  replace (Z.to_nat (i + 1)) with (S (Z.to_nat i)) by lia. done.
Qed.

Lemma countb_zero `{Inhabited A} (p : A -> bool) l i :
  countb p l = 0 -> 0 <= i < zlen l -> p (zget l i) = false.
Proof.
  intros Hc Hi. destruct (p (zget l i)) eqn:E; [|done]. exfalso.
  assert (Hl := countb_zset p l i (zget l i) Hi).
  assert (Hd : exists a b, l = a ++ zget l i :: b).
  { exists (take (Z.to_nat i) l), (drop (S (Z.to_nat i)) l).
    symmetry. apply take_drop_middle. by apply zget_lookup. }
  destruct Hd as (a & b & Hab). rewrite Hab, countb_app in Hc. cbn [countb] in Hc.
  rewrite E in Hc. simpl in Hc.
  pose proof (countb_range p a). pose proof (countb_range p b). lia.
Qed.

(** The first index of a range at which a test holds, if there is one. *)
Lemma first_in_range (p : Z -> bool) lo n :
  (forall i, lo <= i < lo + Z.of_nat n -> p i = false) \/
  (exists j, lo <= j < lo + Z.of_nat n /\ p j = true /\ forall i, lo <= i < j -> p i = false).
Proof.
  revert lo. induction n as [|n IH]; intros lo; [left; lia|].
  destruct (p lo) eqn:E; [right; exists lo; repeat split; [lia|lia|done|lia]|].
  destruct (IH (lo + 1)) as [H|(j & Hj & Hp & H)].
  - left. intros i Hi. destruct (decide (i = lo)) as [->|]; [done|]. apply H. lia.
  - right. exists j. split; [lia|]. split; [done|]. intros i Hi.
    destruct (decide (i = lo)) as [->|]; [done|]. apply H. lia.
Qed.

(** ** Reading concatenations *)

Lemma zlen_app {A} (l1 l2 : list A) : zlen (l1 ++ l2) = zlen l1 + zlen l2.
Proof. unfold zlen. rewrite length_app. lia. Qed.
Lemma zlen_replicate {A} n (x : A) : 0 <= n -> zlen (replicate (Z.to_nat n) x) = n.
Proof. unfold zlen. rewrite length_replicate. lia. Qed.
Lemma zlen_nonneg {A} (l : list A) : 0 <= zlen l.
Proof. unfold zlen. lia. Qed.

Lemma zget_app `{Inhabited A} (l1 l2 : list A) i :
  0 <= i -> zget (l1 ++ l2) i = if i <? zlen l1 then zget l1 i else zget l2 (i - zlen l1).
Proof.
  intros Hi. unfold zget, zlen. destruct (Z.ltb_spec i (Z.of_nat (length l1))).
  - apply lookup_total_app_l. lia.
  - rewrite lookup_total_app_r by lia. f_equal. lia.
Qed.

Lemma zget_replicate `{Inhabited A} n (x : A) i :
  0 <= i < n -> zget (replicate (Z.to_nat n) x) i = x.
Proof. intros Hi. apply lookup_total_replicate_2. lia. Qed.

Lemma list_eq_zget `{Inhabited A} (l1 l2 : list A) :
  zlen l1 = zlen l2 -> (forall i, 0 <= i < zlen l1 -> zget l1 i = zget l2 i) -> l1 = l2.
Proof.
  unfold zlen. intros Hl He. apply list_eq_same_length with (n := length l1); [lia|done|].
  intros i x y Hi Hx Hy. specialize (He (Z.of_nat i) ltac:(lia)). unfold zget in He.
  rewrite Nat2Z.id in He. apply list_lookup_total_correct in Hx, Hy. congruence.
Qed.

Lemma countb_replicate {A} (p : A -> bool) n x :
  0 <= n -> countb p (replicate (Z.to_nat n) x) = if p x then n else 0.
Proof.
  intros Hn. transitivity (if p x then Z.of_nat (Z.to_nat n) else 0); [|destruct (p x); lia].
  induction (Z.to_nat n) as [|k IH]; [by destruct (p x)|].
  cbn [replicate countb]. rewrite IH. destruct (p x); simpl Z.b2z; lia.
Qed.

(** ** Bits of masks and bounded values *)

Lemma shifted_ones_bits k n i :
  0 <= k -> 0 <= n -> 0 <= i ->
  Z.testbit (Z.shiftl (Z.ones n) k) i = bool_decide (k <= i < k + n).
Proof.
  intros Hk Hn Hi. rewrite Z.shiftl_spec by done. case_bool_decide.
  - apply Z.ones_spec_low. lia.
  - destruct (decide (i < k)); [apply Z.testbit_neg_r; lia|]. apply Z.ones_spec_high. lia.
Qed.

Lemma small_bits x k i : 0 <= x < 2 ^ k -> 0 <= k <= i -> Z.testbit x i = false.
Proof.
  intros Hx Hk. rewrite <- (Z.mod_small x (2 ^ k)) by done. apply Z.mod_pow2_bits_high. lia.
Qed.

Lemma aligned_bits x k i : x mod 2 ^ k = 0 -> 0 <= i < k -> Z.testbit x i = false.
Proof.
  intros Hx Hi. rewrite <- (Z.mod_pow2_bits_low x k i) by lia. by rewrite Hx, Z.bits_0.
Qed.

(** [x & ~(2^k - 1)] on [uint64_t]. *)
Lemma land_high k x :
  0 <= k <= 64 -> 0 <= x < 2 ^ 64 -> Z.land x (not64 (2 ^ k - 1)) = x / 2 ^ k * 2 ^ k.
Proof.
  intros Hk Hx. replace (not64 (2 ^ k - 1)) with (Z.shiftl (Z.ones (64 - k)) k).
  - apply Z.bits_inj'. intros i Hi. rewrite Z.land_spec, shifted_ones_bits by lia.
    destruct (decide (i < k)).
    + rewrite Z.mul_pow2_bits_low, bool_decide_false by lia. apply andb_false_r.
    + rewrite Z.mul_pow2_bits, Z.div_pow2_bits by lia. replace (i - k + k) with i by lia.
      case_bool_decide; [apply andb_true_r|]. rewrite (small_bits x 64) by lia. done.
  - rewrite shiftl_mul, Z.ones_equiv, <- Z.sub_1_r, Z.mul_sub_distr_r, <- Z.pow_add_r by lia.
    unfold not64. replace (64 - k + k) with 64 by lia. lia.
Qed.

(** ** Little-endian loads *)

Lemma byte_zget l i : Forall byte l -> 0 <= i < zlen l -> byte l.[i].
Proof.
  intros Hl Hi. rewrite Forall_lookup in Hl. apply (Hl (Z.to_nat i)). by apply zget_lookup.
Qed.

Lemma le32_lor b0 b1 b2 b3 :
  byte b0 -> byte b1 -> byte b2 -> byte b3 ->
  Z.lor (Z.lor (Z.lor b0 (Z.shiftl b1 8)) (Z.shiftl b2 16)) (Z.shiftl b3 24) =
  le_val [b0; b1; b2; b3].
Proof.
  unfold byte. intros H0 H1 H2 H3. rewrite !shiftl_mul by lia.
  rewrite (lor_add_disjoint 8), (lor_add_disjoint 16), (lor_add_disjoint 24) by lia.
  cbn [le_val]. lia.
Qed.

Lemma take_drop_cons `{Inhabited A} (l : list A) n i :
  0 <= i < zlen l -> take (S n) (drop (Z.to_nat i) l) = l.[i] :: take n (drop (Z.to_nat (i + 1)) l).
Proof.
  intros Hi. rewrite (drop_S _ _ _ (zget_lookup l i Hi)).
  cbn [take]. do 3 f_equal. lia.
Qed.

(** [le_at n l i]: the value of the [n] bytes of [l] from index [i] on. *)
Definition le_at (n : nat) (l : list Z) (i : Z) : Z := le_val (take n (drop (Z.to_nat i) l)).

Lemma le_at_add n m l i :
  0 <= i -> i + Z.of_nat n <= zlen l ->
  le_at (n + m) l i = le_at n l i + 256 ^ Z.of_nat n * le_at m l (i + Z.of_nat n).
Proof.
  unfold le_at, zlen. intros Hi Hl.
  rewrite <- (take_drop n (take (n + m) (drop (Z.to_nat i) l))), le_val_app.
  rewrite take_take, Nat.min_l by lia. f_equal.
  unfold zlen. rewrite length_take, length_drop.
  replace (Z.of_nat (n `min` (length l - Z.to_nat i))) with (Z.of_nat n) by lia. f_equal.
  rewrite <- take_drop_commute, drop_drop. do 3 f_equal. lia.
Qed.

Lemma le_at_range n l i :
  Forall byte l -> 0 <= i -> i + Z.of_nat n <= zlen l -> 0 <= le_at n l i < 256 ^ Z.of_nat n.
Proof.
  intros Hl Hi Hn. unfold le_at. unfold zlen in Hn.
  pose proof (le_val_range (take n (drop (Z.to_nat i) l))) as R.
  unfold zlen in R. rewrite length_take, length_drop in R.
  replace (Z.of_nat (n `min` (length l - Z.to_nat i))) with (Z.of_nat n) in R by lia.
  apply R. by apply Forall_take, Forall_drop.
Qed.

Lemma le32_at l i :
  Forall byte l -> 0 <= i -> i + 4 <= zlen l ->
  Z.lor (Z.lor (Z.lor l.[i] (Z.shiftl l.[i + 1] 8)) (Z.shiftl l.[i + 2] 16)) (Z.shiftl l.[i + 3] 24) =
  le_at 4 l i.
Proof.
  intros Hl Hi Hn. rewrite le32_lor by (apply byte_zget; [done|lia]). unfold le_at.
  rewrite !take_drop_cons by lia. replace (i + 1 + 1 + 1) with (i + 3) by lia.
  by replace (i + 1 + 1) with (i + 2) by lia.
Qed.

(** [and] one digit at a time. *)
Lemma land_split k a b :
  0 <= k -> Z.land a b = Z.land (a mod 2 ^ k) (b mod 2 ^ k) + 2 ^ k * Z.land (a / 2 ^ k) (b / 2 ^ k).
Proof.
  intros Hk. assert (Hlo : 0 <= Z.land (a mod 2 ^ k) (b mod 2 ^ k) < 2 ^ k).
  { rewrite <- !Z.land_ones by done.
    replace (Z.land (Z.land a (Z.ones k)) (Z.land b (Z.ones k))) with (Z.land (Z.land a b) (Z.ones k)).
    - rewrite Z.land_ones by done. apply Z.mod_pos_bound. lia.
    - apply Z.bits_inj'. intros i Hi. rewrite !Z.land_spec.
      destruct (Z.testbit a i), (Z.testbit b i), (Z.testbit (Z.ones k) i); done. }
  rewrite (Z.mul_comm (2 ^ k)), <- lor_add_disjoint by done.
  apply Z.bits_inj'. intros i Hi. rewrite Z.lor_spec, !Z.land_spec.
  destruct (decide (i < k)).
  - rewrite Z.mul_pow2_bits_low, !Z.mod_pow2_bits_low by lia. by rewrite orb_false_r.
  - rewrite !Z.mod_pow2_bits_high, Z.mul_pow2_bits, Z.land_spec, !Z.div_pow2_bits by lia.
    by replace (i - k + k) with i by lia.
Qed.

(** ** Block copies and fill loops *)

Lemma zlen_memcpy {A} (dst : list A) pos src :
  0 <= pos -> pos + zlen src <= zlen dst -> zlen (memcpy dst pos src) = zlen dst.
Proof.
  unfold memcpy, zlen. intros Hp Hl. rewrite !length_app, length_take, length_drop. lia.
Qed.

Lemma zget_memcpy `{Inhabited A} (dst : list A) pos src k :
  0 <= pos -> pos + zlen src <= zlen dst -> 0 <= k ->
  (memcpy dst pos src).[k] = if (pos <=? k) && (k <? pos + zlen src) then src.[k - pos] else dst.[k].
Proof.
  intros Hp Hl Hk. pose proof (zlen_nonneg src). unfold memcpy.
  assert (Lt : zlen (take (Z.to_nat pos) dst) = pos) by (unfold zlen in *; rewrite length_take; lia).
  rewrite zget_app, Lt by lia.
  destruct (Z.ltb_spec k pos), (Z.leb_spec pos k); try lia; cbn [andb].
  - unfold zget. rewrite lookup_total_take, decide_True by lia. done.
  - destruct (Z.ltb_spec (k - pos) (zlen src)), (Z.ltb_spec k (pos + zlen src)); try lia.
    { rewrite zget_app by lia. by destruct (Z.ltb_spec (k - pos) (zlen src)); [|lia]. }
    rewrite zget_app by lia. destruct (Z.ltb_spec (k - pos) (zlen src)); [lia|].
    unfold zget, zlen in *. rewrite lookup_total_drop. f_equal. lia.
Qed.

Lemma take_memcpy {A} (buf : list A) pos src :
  0 <= pos -> pos + zlen src <= zlen buf ->
  take (Z.to_nat (pos + zlen src)) (memcpy buf pos src) = take (Z.to_nat pos) buf ++ src.
Proof.
  intros Hp Hl. unfold memcpy, zlen in *.
  rewrite app_assoc, take_app_le by (rewrite length_app, length_take; lia).
  apply take_ge. rewrite length_app, length_take. lia.
Qed.

Lemma zlen_seqZ m n : 0 <= n -> zlen (seqZ m n) = n.
Proof. intros Hn. unfold zlen. rewrite length_seqZ. lia. Qed.

Lemma zlen_fmap {A B} (f : A -> B) l : zlen (f <$> l) = zlen l.
Proof. unfold zlen. by rewrite length_fmap. Qed.

Lemma zget_fmap_seqZ `{Inhabited A} (f : Z -> A) m n i :
  0 <= i < n -> (f <$> seqZ m n).[i] = f (m + i).
Proof.
  intros Hi. unfold zget. apply list_lookup_total_correct. rewrite list_lookup_fmap.
  rewrite lookup_seqZ_lt by lia. cbn [fmap option_fmap option_map]. do 2 f_equal. lia.
Qed.

(** [for (i = 0; i < n; i++) buf[pos + i] = f(i)] is a block copy. *)
Lemma fill_loop `{Inhabited A} (f : Z -> A) n pos buf :
  0 <= pos -> pos + Z.of_nat n <= zlen buf ->
  for_loop n 0 (fun i b => b.[pos + i <- f i]) buf = memcpy buf pos (f <$> seqZ 0 (Z.of_nat n)).
Proof.
  intros Hp Hl.
  pose proof (for_loop_ind (fun i b => zlen b = zlen buf /\ forall k, 0 <= k < zlen buf ->
    b.[k] = if (pos <=? k) && (k <? pos + i) then f (k - pos) else buf.[k])
    n 0 (fun i b => b.[pos + i <- f i]) buf) as I. rewrite Z.add_0_l in I.
  destruct I as [I1 I2].
  - split; [done|]. intros k Hk. destruct (Z.leb_spec pos k), (Z.ltb_spec k (pos + 0)); done || lia.
  - intros j b Hj [L Hk]. rewrite zlen_zset. split; [done|]. intros k Hk'.
    destruct (decide (k = pos + j)) as [->|].
    + rewrite zget_zset_eq by lia. replace (pos + j - pos) with j by lia.
      destruct (Z.leb_spec pos (pos + j)), (Z.ltb_spec (pos + j) (pos + (j + 1))); done || lia.
    + rewrite zget_zset_ne, Hk by lia.
      destruct (Z.leb_spec pos k), (Z.ltb_spec k (pos + j)), (Z.ltb_spec k (pos + (j + 1))); done || lia.
  - assert (Ls : zlen (f <$> seqZ 0 (Z.of_nat n)) = Z.of_nat n) by (rewrite zlen_fmap, zlen_seqZ; lia).
    apply list_eq_zget; [rewrite zlen_memcpy; lia|]. intros k Hk. rewrite I2, zget_memcpy, Ls by lia.
    destruct (Z.leb_spec pos k), (Z.ltb_spec k (pos + Z.of_nat n)); try done. cbn [andb].
    rewrite zget_fmap_seqZ by lia. done.
Qed.

Lemma zlen_le_bytes n x : zlen (le_bytes n x) = Z.of_nat n.
Proof. unfold zlen. by rewrite length_le_bytes. Qed.

Lemma lookup_le_bytes (k n : nat) x :
  (k < n)%nat -> le_bytes n x !! k = Some (x / 256 ^ Z.of_nat k mod 256).
Proof.
  revert k x. induction n as [|n IH]; intros [|k] x Hk; [lia|lia|by rewrite Z.div_1_r|].
  cbn [le_bytes lookup list_lookup]. rewrite IH, Nat2Z.inj_succ, Z.pow_succ_r, Z.div_div by lia. done.
Qed.

Lemma le_bytes_shift n x : le_bytes n x = (fun i => u8 (Z.shiftr x (8 * i))) <$> seqZ 0 (Z.of_nat n).
Proof.
  apply list_eq_zget; [by rewrite zlen_le_bytes, zlen_fmap, zlen_seqZ by lia|].
  rewrite zlen_le_bytes. intros i Hi. rewrite zget_fmap_seqZ, shiftr_div, Z.pow_mul_r by lia.
  unfold zget. apply list_lookup_total_correct. rewrite lookup_le_bytes by lia.
  by rewrite Z2Nat.id by lia.
Qed.

(** Big-endian byte strings. *)
Definition be_bytes (n : nat) (x : Z) : list Z := rev (le_bytes n x).

Lemma zlen_be_bytes n x : zlen (be_bytes n x) = Z.of_nat n.
Proof. unfold zlen, be_bytes. by rewrite length_rev, length_le_bytes. Qed.

(** ** Iterated block functions

    [fold_blocks bs f k m s]: the state [s] after [f] has absorbed the first
    [k] blocks of [bs] items of [m]. *)
Fixpoint fold_blocks {St A} (bs : nat) (f : St -> list A -> St) (k : nat) (m : list A) (s : St) : St :=
  match k with
  | O => s
  | S k' => fold_blocks bs f k' (drop bs m) (f s (take bs m))
  end.

Lemma fold_blocks_app {St A} bs (f : St -> list A -> St) k j p r s :
  length p = (bs * k)%nat ->
  fold_blocks bs f (k + j) (p ++ r) s = fold_blocks bs f j r (fold_blocks bs f k p s).
Proof.
  revert p s. induction k as [|k IH]; intros p s Hl.
  - destruct p; [done|simpl in Hl; lia].
  - cbn [Nat.add fold_blocks]. rewrite drop_app_le, take_app_le by lia. apply IH. rewrite length_drop. lia.
Qed.

Lemma fold_blocks_snoc {St A} bs (f : St -> list A -> St) k p b s :
  length p = (bs * k)%nat -> length b = bs ->
  fold_blocks bs f (S k) (p ++ b) s = f (fold_blocks bs f k p s) b.
Proof.
  intros Hp Hb. rewrite <- Nat.add_1_r, fold_blocks_app by done. cbn [fold_blocks]. by rewrite take_ge by lia.
Qed.

(** Writing a whole buffer in two or three adjacent pieces. *)
Lemma memcpy_end {A} (buf pre src : list A) pos :
  take (Z.to_nat pos) buf = pre -> 0 <= pos -> pos + zlen src = zlen buf -> memcpy buf pos src = pre ++ src.
Proof.
  intros <- Hp Hl. unfold memcpy, zlen in *. rewrite drop_ge by lia. by rewrite app_nil_r.
Qed.

(** [for (i = lo; i < lo + n; i++) buf[i] = f(i)]. *)
Lemma fill_loop_from `{Inhabited A} (f : Z -> A) n lo buf :
  0 <= lo -> lo + Z.of_nat n <= zlen buf ->
  for_loop n lo (fun i b => b.[i <- f i]) buf = memcpy buf lo (f <$> seqZ lo (Z.of_nat n)).
Proof.
  intros Hp Hl.
  assert (E : forall k i b, for_loop k (lo + i) (fun i b => b.[i <- f i]) b =
              for_loop k i (fun i b => b.[lo + i <- f (lo + i)]) b).
  { induction k as [|k IH]; intros i b; [done|]. cbn [for_loop]. by rewrite <- IH, Z.add_assoc. }
  specialize (E n 0 buf). rewrite Z.add_0_r in E. rewrite E, (fill_loop (fun i => f (lo + i))) by lia. f_equal.
  apply list_eq_zget; [by rewrite !zlen_fmap, !zlen_seqZ by lia|].
  rewrite zlen_fmap, zlen_seqZ by lia. intros i Hi. by rewrite !zget_fmap_seqZ by lia.
Qed.

Lemma fmap_const_seqZ {A} (x : A) lo n : (fun _ => x) <$> seqZ lo n = replicate (Z.to_nat n) x.
Proof.
  rewrite <- (length_seqZ lo n). induction (seqZ lo n) as [|i l IH]; [done|]. cbn. by rewrite IH.
Qed.

Lemma zset_memcpy {A} (l : list A) i x : 0 <= i < zlen l -> zset l i x = memcpy l i [x].
Proof.
  intros Hi. unfold zset, memcpy, zlen in *. rewrite insert_take_drop by lia.
  cbn [app length]. by rewrite Nat.add_1_r.
Qed.

(** Appending behind a known prefix of a buffer. *)
Lemma push_buf {A} (buf pre src : list A) pos :
  take (Z.to_nat pos) buf = pre -> 0 <= pos -> pos + zlen src <= zlen buf ->
  take (Z.to_nat (pos + zlen src)) (memcpy buf pos src) = pre ++ src /\
  zlen (memcpy buf pos src) = zlen buf.
Proof. intros <- Hp Hl. split; [by apply take_memcpy|by apply zlen_memcpy]. Qed.

Lemma take_drop_take {A} (l : list A) a b c :
  (a + b <= c)%nat -> take b (drop a (take c l)) = take b (drop a l).
Proof. intros Hc. rewrite !take_drop_commute, take_take. by rewrite Nat.min_l by lia. Qed.

Lemma fold_blocks_S {St A} bs (f : St -> list A -> St) k m s :
  fold_blocks bs f (S k) m s = fold_blocks bs f k (drop bs m) (f s (take bs m)).
Proof. done. Qed.

Lemma fold_blocks_take {St A} bs (f : St -> list A -> St) k n m s :
  n = (bs * k)%nat -> fold_blocks bs f k (take n m) s = fold_blocks bs f k m s.
Proof.
  intros ->. revert m s. induction k as [|k IH]; intros m s; [done|].
  rewrite !fold_blocks_S. replace (bs * S k)%nat with (bs + bs * k)%nat by lia.
  rewrite take_take, Nat.min_l by lia. rewrite <- take_drop_commute. apply IH.
Qed.

Lemma Forall_memcpy {A} (P : A -> Prop) dst pos src :
  Forall P dst -> Forall P src -> Forall P (memcpy dst pos src).
Proof.
  intros Hd Hs. unfold memcpy. apply Forall_app. split; [by apply Forall_take|].
  apply Forall_app. split; [done|by apply Forall_drop].
Qed.

(** The linear search returns the first match or reports that there is none. *)
Lemma find_from_spec `{Inhabited A} (f : A -> bool) l i :
  0 <= i ->
  (find_from f l i = -1 /\ forall k, 0 <= k < zlen l -> f l.[k] = false) \/
  (exists k, 0 <= k < zlen l /\ find_from f l i = i + k /\ f l.[k] = true /\ forall j, 0 <= j < k -> f l.[j] = false).
Proof.
  assert (G : forall (p : A) l i, 0 < i -> (p :: l).[i] = l.[i - 1]).
  { intros p l' j Hj. unfold zget. by replace (Z.to_nat j) with (S (Z.to_nat (j - 1))) by lia. }
  revert i. induction l as [|p l IH]; intros i Hi; cbn [find_from].
  - left. split; [done|]. unfold zlen. simpl. lia.
  - assert (Z1 : zlen (p :: l) = zlen l + 1) by (unfold zlen; cbn [length]; lia). pose proof (zlen_nonneg l).
    destruct (f p) eqn:E.
    + right. exists 0. split; [lia|]. split; [lia|]. split; [done|lia].
    + destruct (IH (i + 1) ltac:(lia)) as [[A1 B]|(k & A1 & B & C & D)].
      * left. split; [done|]. intros k Hk. destruct (decide (k = 0)) as [->|]; [done|]. rewrite G by lia. apply B. lia.
      * right. exists (k + 1). split; [lia|]. split; [lia|]. rewrite G by lia. replace (k + 1 - 1) with k by lia.
        split; [done|]. intros j Hj. destruct (decide (j = 0)) as [->|]; [done|]. rewrite G by lia. apply D. lia.
Qed.
