(* ===== verification/AuditRing.v ===== *)
(** * Audit ring (kernel/audit/audit.c, kernel/audit/audit.h)

    The kernel keeps the most recent [AUDIT_RING_SIZE] security events in a
    ring.  The ring is proved to refine an unbounded append-only log: at any
    time it holds exactly the newest 4096 events (all of them before the ring
    has filled), each in the slot of its sequence number. *)

From S2P Require Import Prelude.

(** ** Data *)

Inductive audit_event :=
  | AUDIT_CAP_CREATE | AUDIT_CAP_DENIED | AUDIT_CAP_FORGERY | AUDIT_CAP_REVOKE
  | AUDIT_CAP_DELEGATE | AUDIT_SYSCALL | AUDIT_PROC_FORK | AUDIT_PROC_EXEC
  | AUDIT_PROC_EXIT | AUDIT_MEM_ALLOC | AUDIT_MEM_FREE | AUDIT_FILE_OPEN
  | AUDIT_FILE_WRITE | AUDIT_NET_SEND | AUDIT_NET_RECV | AUDIT_CNSL_BLOCK
  | AUDIT_CNSL_UNBLOCK.

#[export] Instance audit_event_eq_dec : EqDecision audit_event.
Proof. solve_decision. Defined.

Record audit_entry := mk_audit_entry {
  timestamp : Z;
  ae_pid : Z;
  ae_event : audit_event;
  arg0 : Z;
  arg1 : Z
}.

#[export] Instance audit_entry_inhabited : Inhabited audit_entry :=
  populate (mk_audit_entry 0 0 AUDIT_CAP_CREATE 0 0).

Definition AUDIT_RING_SIZE : Z := 4096.

Record audit_state := mk_audit {
  g_ring : list audit_entry;
  g_head : Z;   (* uint32_t: next write position *)
  g_total : Z;  (* uint64_t: total events ever recorded *)
  g_tick : Z    (* uint64_t: monotonic tick counter *)
}.

(** ** Operations *)

(** [memset(g_ring, 0, ...)] writes the all-zero entry, whose event is the
    enumerator of value 0. *)
Definition audit_init : audit_state :=
  mk_audit (replicate (Z.to_nat AUDIT_RING_SIZE) (mk_audit_entry 0 0 AUDIT_CAP_CREATE 0 0)) 0 0 0.

Definition audit_record (ev : audit_event) (pid a0 a1 : Z) (st : audit_state) : audit_state :=
  let idx := Z.land (g_head st) (AUDIT_RING_SIZE - 1) in
  mk_audit (g_ring st).[idx <- mk_audit_entry (g_tick st) pid ev a0 a1]
           (u32 (g_head st + 1)) (u64 (g_total st + 1)) (u64 (g_tick st + 1)).

(** The count stored through [count_out] and the ring the pointer designates. *)
Definition audit_read (st : audit_state) : Z * list audit_entry :=
  let filled := if g_total st <? AUDIT_RING_SIZE then u32 (g_total st) else AUDIT_RING_SIZE in
  (filled, g_ring st).

Definition audit_total (st : audit_state) : Z := g_total st.

(** ** Abstract specification: an append-only log *)

(** A call [audit_record(ev, pid, a0, a1)]. *)
Definition audit_call : Type := (audit_event * Z * Z * Z)%type.

Definition audit_do (c : audit_call) (st : audit_state) : audit_state :=
  let '(ev, pid, a0, a1) := c in audit_record ev pid a0 a1 st.

Definition audit_run (cs : list audit_call) (st : audit_state) : audit_state :=
  fold_left (fun st c => audit_do c st) cs st.

(** The [k]-th call leaves the entry stamped [k]. *)
Definition log_entry (k : nat) (c : audit_call) : audit_entry :=
  let '(ev, pid, a0, a1) := c in mk_audit_entry (Z.of_nat k) pid ev a0 a1.

Definition audit_log (cs : list audit_call) : list audit_entry := imap log_entry cs.

(** The ring [st] represents the log of the calls [cs]. *)
Record audit_rep (st : audit_state) (cs : list audit_call) : Prop := {
  ar_len : zlen (g_ring st) = AUDIT_RING_SIZE;
  ar_head : g_head st = u32 (zlen cs);
  ar_total : g_total st = u64 (zlen cs);
  ar_tick : g_tick st = u64 (zlen cs);
  ar_slots : forall k, 0 <= k < zlen cs -> zlen cs <= k + AUDIT_RING_SIZE ->
    Some ((g_ring st).[k mod AUDIT_RING_SIZE]) = audit_log cs !! Z.to_nat k
}.

(** ** Lemmas *)

Lemma audit_idx st (cs : list audit_call) :
  g_head st = u32 (zlen cs) -> Z.land (g_head st) (AUDIT_RING_SIZE - 1) = zlen cs mod AUDIT_RING_SIZE.
Proof.
  intros ->. change (AUDIT_RING_SIZE - 1) with (2 ^ 12 - 1). rewrite land_low by lia.
  change AUDIT_RING_SIZE with (2 ^ 12). unfold u32.
  rewrite Z.mod_mod_divide; [done|by exists (2 ^ 20)].
Qed.

Lemma audit_log_snoc (cs : list audit_call) c : audit_log (cs ++ [c]) = audit_log cs ++ [log_entry (length cs) c].
Proof. unfold audit_log. rewrite imap_app. simpl. by rewrite Nat.add_0_r. Qed.

Lemma audit_init_rep : audit_rep audit_init [].
Proof.
  constructor; try done. unfold zlen; simpl; lia.
Qed.

Lemma audit_record_rep st cs c :
  zlen cs < 2 ^ 64 -> audit_rep st cs -> audit_rep (audit_do c st) (cs ++ [c]).
Proof.
  intros Hbig [Hlen Hhead Htot Htick Hslots].
  assert (Hz : zlen (cs ++ [c]) = zlen cs + 1).
  { unfold zlen. rewrite length_app. simpl. lia. }
  destruct c as [[[ev pid] a0] a1]. unfold audit_do, audit_record.
  assert (H0 : 0 <= zlen cs) by (unfold zlen; lia).
  rewrite (audit_idx st cs) by done.
  assert (Hm := Z.mod_pos_bound (zlen cs) AUDIT_RING_SIZE ltac:(done)).
  constructor; cbn [g_ring g_head g_total g_tick].
  - by rewrite zlen_zset.
  - rewrite Hhead, Hz. unfold u32. by rewrite Zplus_mod_idemp_l.
  - rewrite Htot, Hz. unfold u64. by rewrite Zplus_mod_idemp_l.
  - rewrite Htick, Hz. unfold u64. by rewrite Zplus_mod_idemp_l.
  - rewrite Hz, audit_log_snoc. intros k Hk Hw.
    assert (Hl : length (audit_log cs) = length cs) by apply length_imap.
    destruct (decide (k = zlen cs)) as [->|Hne].
    + rewrite zget_zset_eq by lia. rewrite Htick, u64_small by lia.
      unfold zlen. rewrite Nat2Z.id, lookup_app_r, Hl, Nat.sub_diag by lia. done.
    + assert (k mod AUDIT_RING_SIZE <> zlen cs mod AUDIT_RING_SIZE).
      { unfold AUDIT_RING_SIZE in *. Z.div_mod_to_equations; lia. }
      assert (Hk' := Z.mod_pos_bound k AUDIT_RING_SIZE ltac:(done)).
      rewrite zget_zset_ne by lia.
      rewrite lookup_app_l by (rewrite Hl; unfold zlen in *; lia).
      apply Hslots; lia.
Qed.

Lemma audit_run_rep cs cs0 st :
  zlen (cs0 ++ cs) <= 2 ^ 64 -> audit_rep st cs0 -> audit_rep (audit_run cs st) (cs0 ++ cs).
Proof.
  revert cs0 st. induction cs as [|c cs IH]; intros cs0 st Hb Hr; [by rewrite app_nil_r|].
  cbn [audit_run fold_left]. replace (cs0 ++ c :: cs) with ((cs0 ++ [c]) ++ cs) in *
    by (by rewrite <- app_assoc).
  apply IH; [done|]. apply audit_record_rep; [|done].
  unfold zlen in *. rewrite !length_app in Hb. simpl in Hb. lia.
Qed.

(** C1: the audit ring refines the append-only log.  After any sequence of
    fewer than 2^64 calls of [audit_record] from boot, [audit_total] is their
    number, [audit_read] reports [min(total, 4096)] filled slots, and for every
    one of the newest 4096 calls, number [k], slot [k mod 4096] of the returned
    ring holds exactly that call's event, pid and arguments with time stamp [k]. *)
Theorem audit_ring_refines_log (cs : list audit_call) :
  zlen cs < 2 ^ 64 ->
  let st := audit_run cs audit_init in
  audit_total st = zlen cs /\
  fst (audit_read st) = Z.min (zlen cs) AUDIT_RING_SIZE /\
  (forall k, 0 <= k < zlen cs -> zlen cs <= k + AUDIT_RING_SIZE ->
     Some ((snd (audit_read st)).[k mod AUDIT_RING_SIZE]) = audit_log cs !! Z.to_nat k).
Proof.
  intros Hb st. assert (Hr : audit_rep st ([] ++ cs)).
  { apply audit_run_rep; [simpl; lia|apply audit_init_rep]. }
  destruct Hr as [_ _ Htot _ Hslots]; simpl in *.
  assert (0 <= zlen cs) by (unfold zlen; lia).
  unfold audit_total, audit_read. rewrite Htot, u64_small by lia.
  split; [done|]. split; [|done]. simpl. unfold AUDIT_RING_SIZE in *.
  destruct (Z.ltb_spec (zlen cs) 4096); [rewrite u32_small|]; lia.
Qed.

Lemma audit_ring_refines_log_witness :
  let cs := [(AUDIT_PROC_FORK, 1, 0, 3); (AUDIT_CAP_DENIED, 2, 7, 9)] in
  zlen cs < 2 ^ 64 /\
  Some ((snd (audit_read (audit_run cs audit_init))).[1]) = Some (mk_audit_entry 1 2 AUDIT_CAP_DENIED 7 9).
Proof.
  intros cs. split; [reflexivity|].
  destruct (audit_ring_refines_log cs) as (_ & _ & H); [reflexivity|].
  apply (H 1); unfold zlen, AUDIT_RING_SIZE; simpl; lia.
Defined.
