(* ===== verification/Cnsl.v ===== *)
(** * Security policy engine (kernel/cnsl/cnsl.c)

    Events reported for an address go to a ring of 64 per address; six rules
    look for suspicious combinations and put the address on a block list whose
    entries expire.  The block list is shown to implement a partial map from
    addresses to expiry times.  The cool-down of the rules is armed by every
    evaluation, fired or not; what that does to detection is stated below. *)

From S2P Require Import Prelude AuditRing.

(** ** Data *)

Definition CNSL_MAX_IPS : Z := 256.
Definition CNSL_EVENT_BUF : Z := 64.
Definition CNSL_BLOCK_TABLE : Z := 64.
Definition CNSL_WINDOW_SHORT : Z := 180.
Definition CNSL_WINDOW_MEDIUM : Z := 300.
Definition CNSL_WINDOW_LONG : Z := 600.
Definition CNSL_WINDOW_RECON : Z := 1800.
Definition CNSL_COOLDOWN : Z := 120.
Definition CNSL_NUM_RULES : Z := 6.
Definition CNSL_BLOCK_DURATION : Z := 1800.

Definition CNSL_KIND_SSH_FAIL : Z := 0.
Definition CNSL_KIND_SSH_SUCCESS : Z := 1.
Definition CNSL_KIND_DB_AUTH_FAIL : Z := 2.
Definition CNSL_KIND_WEB_SCAN : Z := 3.
Definition CNSL_KIND_WEB_EXPLOIT : Z := 4.
Definition CNSL_KIND_WEB_AUTH_FAIL : Z := 5.
Definition CNSL_KIND_FW_HONEYPOT_PORT : Z := 6.
Definition CNSL_KIND_SUDO_FAIL : Z := 7.
Definition CNSL_KIND_SU_FAIL : Z := 8.
Definition CNSL_KIND_COUNT : Z := 9.

Record cnsl_event := mk_ev { ev_ts : Z; ev_kind : Z }.
#[export] Instance cnsl_event_inhabited : Inhabited cnsl_event := populate (mk_ev 0 0).

Record ip_buf := mk_buf {
  ib_ip : Z;
  ib_events : list cnsl_event;
  ib_head : Z;
  ib_count : Z;
  ib_last_alert_ts : list Z
}.

Definition buf_zero : ip_buf :=
  mk_buf 0 (replicate (Z.to_nat CNSL_EVENT_BUF) (mk_ev 0 0)) 0 0 (replicate (Z.to_nat CNSL_NUM_RULES) 0).
#[export] Instance ip_buf_inhabited : Inhabited ip_buf := populate buf_zero.

Record block_entry := mk_block { be_ip : Z; be_active : bool; be_unblock_at : Z }.
#[export] Instance block_entry_inhabited : Inhabited block_entry := populate (mk_block 0 false 0).

(** The globals of the file, the tick counter and the audit ring it writes. *)
Record cnsl := mk_cnsl {
  g_ip_table : list ip_buf;
  g_block_table : list block_entry;
  g_ip_count : Z;
  g_block_count : Z;
  c_uptime : Z;
  c_audit : audit_state
}.

Definition NOW (s : cnsl) : Z := c_uptime s / 100.

Definition with_blocks (t : list block_entry) (n : Z) (a : audit_state) (s : cnsl) : cnsl :=
  mk_cnsl (g_ip_table s) t (g_ip_count s) n (c_uptime s) a.
Definition with_bufs (t : list ip_buf) (n : Z) (s : cnsl) : cnsl :=
  mk_cnsl t (g_block_table s) n (g_block_count s) (c_uptime s) (c_audit s).
Definition with_uptime (t : Z) (s : cnsl) : cnsl :=
  mk_cnsl (g_ip_table s) (g_block_table s) (g_ip_count s) (g_block_count s) t (c_audit s).

Definition cnsl_init (s : cnsl) : cnsl :=
  mk_cnsl (replicate (Z.to_nat CNSL_MAX_IPS) buf_zero) (replicate (Z.to_nat CNSL_BLOCK_TABLE) (mk_block 0 false 0))
    0 0 (c_uptime s) (c_audit s).

(** ** Helpers *)

(** The index of the buffer, or -1 for [NULL]. *)
Definition find_or_create_buf (ip : Z) (s : cnsl) : Z * cnsl :=
  let i := find_from (fun b => ib_ip b =? ip) (take (Z.to_nat (g_ip_count s)) (g_ip_table s)) 0 in
  if 0 <=? i then (i, s) else
  if CNSL_MAX_IPS <=? g_ip_count s then (-1, s) else
  let i := g_ip_count s in
  (i, with_bufs (g_ip_table s).[i <- mk_buf ip (ib_events buf_zero) 0 0 (ib_last_alert_ts buf_zero)] (u16 (i + 1)) s).

Definition event_in_window (now ts window_sec : Z) : bool :=
  if now <? ts then false else now - ts <=? window_sec.

(** [for (i = 0; i < buf->count; i++)] over the events. *)
Definition buf_events (b : ip_buf) : list cnsl_event := take (Z.to_nat (ib_count b)) (ib_events b).

Definition count_kind (now : Z) (b : ip_buf) (kind window_sec : Z) : Z :=
  fold_left (fun n ev => if event_in_window now (ev_ts ev) window_sec && (ev_kind ev =? kind) then u8 (n + 1) else n)
    (buf_events b) 0.

(** The source group of an event kind. *)
Definition kind_group (kind : Z) : Z :=
  if (kind =? CNSL_KIND_SSH_FAIL) || (kind =? CNSL_KIND_SSH_SUCCESS) then 1
  else if (kind =? CNSL_KIND_WEB_SCAN) || (kind =? CNSL_KIND_WEB_EXPLOIT) || (kind =? CNSL_KIND_WEB_AUTH_FAIL) then 2
  else 4.

(** Total, [unique_kinds_mask] and [unique_groups_mask]. *)
Definition count_window_stats (now : Z) (b : ip_buf) (window_sec : Z) : Z * Z * Z :=
  fold_left (fun '(total, kinds, groups) ev =>
      if negb (event_in_window now (ev_ts ev) window_sec) then (total, kinds, groups)
      else (u8 (total + 1), Z.lor kinds (u16 (Z.shiftl 1 (ev_kind ev))), Z.lor groups (kind_group (ev_kind ev))))
    (buf_events b) (0, 0, 0).

(** [while (v) { n += v & 1; v >>= 1; }]; 16 rounds empty a 16-bit word. *)
Fixpoint popcount_loop (fuel : nat) (v n : Z) : Z :=
  match fuel with
  | O => n
  | S fuel' => if v =? 0 then n else popcount_loop fuel' (Z.shiftr v 1) (u8 (n + Z.land v 1))
  end.
Definition popcount16 (v : Z) : Z := popcount_loop 16 v 0.

Definition find_block (ip : Z) (s : cnsl) : Z :=
  find_from (fun b => (be_ip b =? ip) && be_active b) (take (Z.to_nat (g_block_count s)) (g_block_table s)) 0.

Definition do_block (ip : Z) (s : cnsl) : cnsl :=
  if 0 <=? find_block ip s then s else
  let slot := find_from (fun b => negb (be_active b)) (take (Z.to_nat (g_block_count s)) (g_block_table s)) 0 in
  if (slot <? 0) && (CNSL_BLOCK_TABLE <=? g_block_count s) then s else
  let '(slot, n) := if slot <? 0 then (g_block_count s, u16 (g_block_count s + 1)) else (slot, g_block_count s) in
  with_blocks (g_block_table s).[slot <- mk_block ip true (u64 (NOW s + CNSL_BLOCK_DURATION))] n
    (audit_record AUDIT_CNSL_BLOCK 0 ip 0 (c_audit s)) s.

(** [buf->last_alert_ts[rule_idx]] is set on every call that returns [true]. *)
Definition check_cooldown (i rule_idx : Z) (s : cnsl) : bool * cnsl :=
  let b := (g_ip_table s).[i] in
  let now := NOW s in
  let last := (ib_last_alert_ts b).[rule_idx] in
  if negb (last =? 0) && (last <=? now) && (now - last <? CNSL_COOLDOWN) then (false, s)
  else (true, with_bufs (g_ip_table s).[i <- mk_buf (ib_ip b) (ib_events b) (ib_head b) (ib_count b)
                                               (ib_last_alert_ts b).[rule_idx <- now]] (g_ip_count s) s).

(** ** Rules *)

(** What the six rules have in common: cool-down, condition, block. *)
Definition rule (idx : Z) (cond : Z -> ip_buf -> bool) (i ip : Z) (s : cnsl) : bool * cnsl :=
  let '(ok, s) := check_cooldown i idx s in
  if negb ok then (false, s) else
  if cond (NOW s) (g_ip_table s).[i] then (true, do_block ip s) else (false, s).

Definition cond_honeypot_ssh (now : Z) (b : ip_buf) : bool :=
  (1 <=? count_kind now b CNSL_KIND_FW_HONEYPOT_PORT CNSL_WINDOW_SHORT) &&
                     (1 <=? count_kind now b CNSL_KIND_SSH_FAIL CNSL_WINDOW_SHORT).
Definition rule_honeypot_ssh : Z -> Z -> cnsl -> bool * cnsl := rule 0 cond_honeypot_ssh.

Definition cond_credential_spray (now : Z) (b : ip_buf) : bool :=
  (3 <=? count_kind now b CNSL_KIND_SSH_FAIL CNSL_WINDOW_MEDIUM) &&
                     (2 <=? count_kind now b CNSL_KIND_DB_AUTH_FAIL CNSL_WINDOW_MEDIUM).
Definition rule_credential_spray : Z -> Z -> cnsl -> bool * cnsl := rule 1 cond_credential_spray.

Definition cond_web_recon_ssh (now : Z) (b : ip_buf) : bool :=
  let web := u8 (count_kind now b CNSL_KIND_WEB_SCAN CNSL_WINDOW_LONG +
                 count_kind now b CNSL_KIND_WEB_EXPLOIT CNSL_WINDOW_LONG) in
  let ssh := count_kind now b CNSL_KIND_SSH_FAIL CNSL_WINDOW_LONG in
  (5 <=? web) && (3 <=? ssh).
Definition rule_web_recon_ssh : Z -> Z -> cnsl -> bool * cnsl := rule 2 cond_web_recon_ssh.

Definition cond_privesc (now : Z) (b : ip_buf) : bool :=
  let ssh_ok := count_kind now b CNSL_KIND_SSH_SUCCESS CNSL_WINDOW_MEDIUM in
  let priv := u8 (count_kind now b CNSL_KIND_SUDO_FAIL CNSL_WINDOW_MEDIUM +
                  count_kind now b CNSL_KIND_SU_FAIL CNSL_WINDOW_MEDIUM) in
  (1 <=? ssh_ok) && (2 <=? priv).
Definition rule_privesc : Z -> Z -> cnsl -> bool * cnsl := rule 3 cond_privesc.

Definition cond_web_auth_flood (now : Z) (b : ip_buf) : bool :=
  15 <=? count_kind now b CNSL_KIND_WEB_AUTH_FAIL 120.
Definition rule_web_auth_flood : Z -> Z -> cnsl -> bool * cnsl := rule 4 cond_web_auth_flood.

Definition cond_anomaly_scan_window (now : Z) (b : ip_buf) : bool :=
  let '(total, kinds_mask, groups_mask) := count_window_stats now b CNSL_WINDOW_RECON in
  (20 <=? total) && (4 <=? popcount16 kinds_mask) && (3 <=? popcount16 groups_mask).
Definition rule_anomaly_scan_window : Z -> Z -> cnsl -> bool * cnsl := rule 5 cond_anomaly_scan_window.

(** The rules in the order [cnsl_ingest] tries them. *)
Definition RULES : list (Z -> Z -> cnsl -> bool * cnsl) :=
  [rule_honeypot_ssh; rule_credential_spray; rule_web_recon_ssh; rule_privesc; rule_web_auth_flood;
   rule_anomaly_scan_window].

Fixpoint try_rules (rs : list (Z -> Z -> cnsl -> bool * cnsl)) (i ip : Z) (s : cnsl) : bool * cnsl :=
  match rs with
  | [] => (false, s)
  | r :: rs' => let '(hit, s) := r i ip s in if hit then (true, s) else try_rules rs' i ip s
  end.

(** ** Public operations *)

Definition cnsl_is_blocked (ip : Z) (s : cnsl) : bool := 0 <=? find_block ip s.

Definition cnsl_unblock (ip : Z) (s : cnsl) : bool * cnsl :=
  let i := find_block ip s in
  if i <? 0 then (false, s) else
  let b := (g_block_table s).[i] in
  (true, with_blocks (g_block_table s).[i <- mk_block (be_ip b) false (be_unblock_at b)] (g_block_count s)
           (audit_record AUDIT_CNSL_UNBLOCK 0 ip 0 (c_audit s)) s).

Definition cnsl_get_block_ttl (ip : Z) (s : cnsl) : Z :=
  let i := find_block ip s in
  if i <? 0 then 0 else
  let b := (g_block_table s).[i] in
  if NOW s <? be_unblock_at b then be_unblock_at b - NOW s else 0.

Definition cnsl_tick (s : cnsl) : cnsl :=
  let now := NOW s in
  for_loop (Z.to_nat (g_block_count s)) 0 (fun i s =>
    let b := (g_block_table s).[i] in
    if be_active b && (be_unblock_at b <=? now) then
      with_blocks (g_block_table s).[i <- mk_block (be_ip b) false (be_unblock_at b)] (g_block_count s)
        (audit_record AUDIT_CNSL_UNBLOCK 0 (be_ip b) 0 (c_audit s)) s
    else s) s.

(** The entries written to [out], at most [max] of them. *)
Definition cnsl_list (max : Z) (s : cnsl) : list (Z * Z) :=
  take (Z.to_nat max)
    ((fun b => (be_ip b, cnsl_get_block_ttl (be_ip b) s)) <$>
       filter (fun b => be_active b = true) (take (Z.to_nat (g_block_count s)) (g_block_table s))).

Definition push_event (i kind : Z) (s : cnsl) : cnsl :=
  let b := (g_ip_table s).[i] in
  with_bufs (g_ip_table s).[i <- mk_buf (ib_ip b) (ib_events b).[ib_head b <- mk_ev (NOW s) kind]
      (u8 ((ib_head b + 1) mod CNSL_EVENT_BUF)) (if ib_count b <? CNSL_EVENT_BUF then u8 (ib_count b + 1) else ib_count b)
      (ib_last_alert_ts b)] (g_ip_count s) s.

Definition cnsl_ingest (src_ip kind : Z) (s : cnsl) : bool * cnsl :=
  if CNSL_KIND_COUNT <=? kind then (false, s) else
  let s := cnsl_tick s in
  if cnsl_is_blocked src_ip s then (true, s) else
  let '(i, s) := find_or_create_buf src_ip s in
  if i <? 0 then (false, s) else
  try_rules RULES i src_ip (push_event i kind s).

(** ** The block list as a partial map *)

(** The expiry time of the block on [ip], if there is one. *)
Definition blocked_until (s : cnsl) (ip : Z) : option Z :=
  let i := find_block ip s in if i <? 0 then None else Some (be_unblock_at (g_block_table s).[i]).

(** Entry [i] is in use and blocks [ip] until [e]. *)
Definition blocks_at (s : cnsl) (i ip e : Z) : Prop :=
  0 <= i < g_block_count s /\ (g_block_table s).[i] = mk_block ip true e.

Record blocks_ok (s : cnsl) : Prop := {
  bo_len : zlen (g_block_table s) = CNSL_BLOCK_TABLE;
  bo_count : 0 <= g_block_count s <= CNSL_BLOCK_TABLE;
  bo_time : 0 <= c_uptime s < 2 ^ 64;
  bo_unique : forall i j ip e e', blocks_at s i ip e -> blocks_at s j ip e' -> i = j
}.

Lemma zget_take `{Inhabited A} (l : list A) n i : 0 <= i < n -> (take (Z.to_nat n) l).[i] = l.[i].
Proof. intros Hi. unfold zget. rewrite lookup_total_take. by rewrite decide_True by lia. Qed.

Lemma zlen_take {A} (l : list A) n : 0 <= n <= zlen l -> zlen (take (Z.to_nat n) l) = n.
Proof. unfold zlen. rewrite length_take. lia. Qed.

Lemma find_block_spec s ip :
  blocks_ok s ->
  (find_block ip s = -1 /\ forall i e, ~ blocks_at s i ip e) \/
  (exists i e, find_block ip s = i /\ blocks_at s i ip e).
Proof.
  intros [L C _ _]. unfold find_block.
  destruct (find_from_spec (fun b => (be_ip b =? ip) && be_active b) (take (Z.to_nat (g_block_count s)) (g_block_table s)) 0
    ltac:(lia)) as [[E F]|(k & Hk & E & F & _)]; rewrite zlen_take in * by lia.
  - left. split; [done|]. intros i e [Hi Hb]. specialize (F i Hi). rewrite zget_take, Hb in F by lia.
    cbn in F. by rewrite Z.eqb_refl in F.
  - right. rewrite zget_take in F by lia. apply andb_prop in F as [F1 F2]. apply Z.eqb_eq in F1.
    exists k, (be_unblock_at (g_block_table s).[k]). split; [lia|]. split; [lia|].
    destruct ((g_block_table s).[k]) as [a b c]. cbn in *. by subst.
Qed.

(** The map as a relation on the table. *)
Lemma blocked_until_some s ip e : blocks_ok s -> blocked_until s ip = Some e <-> exists i, blocks_at s i ip e.
Proof.
  intros H. unfold blocked_until. destruct (find_block_spec s ip H) as [[E F]|(i & e' & E & B)]; rewrite E.
  - cbn. split; [done|]. intros [i B]. by apply F in B.
  - pose proof B as [Hi Hb]. destruct (Z.ltb_spec i 0); [lia|]. rewrite Hb. cbn [be_unblock_at]. split.
    + intros [= <-]. by exists i.
    + intros [j Bj]. pose proof (bo_unique s H _ _ _ _ _ B Bj) as <-. destruct Bj as [_ Hj]. rewrite Hb in Hj. congruence.
Qed.

Lemma blocked_until_ext s s' ip e :
  blocks_ok s -> blocks_ok s' -> blocked_until s ip = e ->
  (forall e, (exists i, blocks_at s' i ip e) <-> exists i, blocks_at s i ip e) -> blocked_until s' ip = e.
Proof.
  intros H H' <- Hi. destruct (blocked_until s ip) as [x|] eqn:E.
  - apply blocked_until_some, Hi, blocked_until_some; done.
  - destruct (blocked_until s' ip) as [x|] eqn:E'; [|done]. apply blocked_until_some in E'; [|done].
    apply Hi in E'. apply blocked_until_some in E'; [|done]. congruence.
Qed.

Lemma is_blocked_until s ip : blocks_ok s -> cnsl_is_blocked ip s = bool_decide (is_Some (blocked_until s ip)).
Proof.
  intros H. unfold cnsl_is_blocked, blocked_until. destruct (find_block_spec s ip H) as [[E F]|(i & e' & E & [Hi B])]; rewrite E.
  - done.
  - destruct (Z.ltb_spec i 0); [lia|]. rewrite bool_decide_true by done. by apply Z.leb_le.
Qed.

(** Writing an entry over a slot that blocks nothing. *)
Lemma blocks_at_set s i b n a j ip e :
  blocks_ok s -> 0 <= i < n -> g_block_count s <= n <= CNSL_BLOCK_TABLE -> (n = g_block_count s \/ i = g_block_count s /\ n = i + 1) ->
  blocks_at (with_blocks (g_block_table s).[i <- b] n a s) j ip e <->
  (j = i /\ b = mk_block ip true e) \/ (j <> i /\ blocks_at s j ip e).
Proof.
  intros [L C _ _] Hi Hn Hc. unfold blocks_at. cbn [g_block_table g_block_count with_blocks].
  destruct (decide (j = i)) as [->|].
  - rewrite zget_zset_eq by lia. intuition.
  - split; [intros [Hj E]; rewrite zget_zset_ne in E by lia; right; split; [done|]; split; [lia|done]|].
    intros [[? _]|[_ [Hj E]]]; [done|]. split; [lia|]. by rewrite zget_zset_ne by lia.
Qed.

Lemma blocks_ok_set s i b n a :
  blocks_ok s -> 0 <= i < n -> g_block_count s <= n <= CNSL_BLOCK_TABLE -> (n = g_block_count s \/ i = g_block_count s /\ n = i + 1) ->
  (be_active b = true -> forall j e, j <> i -> ~ blocks_at s j (be_ip b) e) ->
  blocks_ok (with_blocks (g_block_table s).[i <- b] n a s).
Proof.
  intros H Hi Hn Hc Hb. constructor; [cbn; rewrite zlen_zset; apply H|cbn; lia|apply H|].
  intros j k ip e e' Bj Bk. apply blocks_at_set in Bj, Bk; [|done..].
  destruct Bj as [[-> ->]|[Nj Bj]], Bk as [[-> Ek]|[Nk Bk]]; [done| | |].
  - exfalso. by apply (Hb eq_refl k e' Nk).
  - subst b. exfalso. by apply (Hb eq_refl j e Nj).
  - by apply (bo_unique s H _ _ _ _ _ Bj Bk).
Qed.

(** The number of blocks in force. *)
Definition active_blocks (s : cnsl) : Z := countb be_active (take (Z.to_nat (g_block_count s)) (g_block_table s)).

(** [do_block] adds the address for [CNSL_BLOCK_DURATION] seconds unless it is
    blocked already or every slot holds an active block. *)
Lemma do_block_spec ip s :
  blocks_ok s ->
  let s' := do_block ip s in
  blocks_ok s' /\ g_ip_table s' = g_ip_table s /\ g_ip_count s' = g_ip_count s /\ c_uptime s' = c_uptime s /\
  (forall ip', ip' <> ip -> blocked_until s' ip' = blocked_until s ip') /\
  (blocked_until s ip <> None -> s' = s) /\
  (blocked_until s ip = None ->
     (s' = s /\ active_blocks s = CNSL_BLOCK_TABLE) \/
     (active_blocks s < CNSL_BLOCK_TABLE /\ blocked_until s' ip = Some (NOW s + CNSL_BLOCK_DURATION) /\
      c_audit s' = audit_record AUDIT_CNSL_BLOCK 0 ip 0 (c_audit s))).
Proof.
  intros H. pose proof H as [L C T U]. cbn zeta. unfold do_block.
  assert (Ht : u64 (NOW s + CNSL_BLOCK_DURATION) = NOW s + CNSL_BLOCK_DURATION).
  { apply u64_small. unfold NOW, CNSL_BLOCK_DURATION. change (2 ^ 64) with 18446744073709551616 in *. Z.div_mod_to_equations; lia. }
  rewrite Ht. clear Ht.
  destruct (find_block_spec s ip H) as [[E F]|(i & e & E & B)]; rewrite E.
  2: { destruct (Z.leb_spec 0 i); [|destruct B; lia]. split; [done|]. do 4 (split; [done|]). split; [done|].
       intros N. exfalso. assert (X : blocked_until s ip = Some e) by (apply blocked_until_some; [done|by exists i]). congruence. }
  change (0 <=? -1) with false. cbv iota.
  assert (N : blocked_until s ip = None).
  { destruct (blocked_until s ip) as [x|] eqn:Ex; [|done]. apply blocked_until_some in Ex as [i Bi]; [|done]. by apply F in Bi. }
  rewrite N. set (e := NOW s + CNSL_BLOCK_DURATION).
  assert (W : forall i n, 0 <= i < n -> g_block_count s <= n <= CNSL_BLOCK_TABLE -> (n = g_block_count s \/ i = g_block_count s /\ n = i + 1) ->
    (forall ip' e, ~ blocks_at s i ip' e) ->
    let s' := with_blocks (g_block_table s).[i <- mk_block ip true e] n (audit_record AUDIT_CNSL_BLOCK 0 ip 0 (c_audit s)) s in
    blocks_ok s' /\ (forall ip', ip' <> ip -> blocked_until s' ip' = blocked_until s ip') /\ blocked_until s' ip = Some e).
  { intros i n Hi Hn Hc Hf s'. assert (O : blocks_ok s').
    { apply blocks_ok_set; done. }
    split; [done|]. split.
    - intros ip' Hne. apply (blocked_until_ext s); [done|done|done|]. intros e'. split.
      + intros [j Bj]. apply blocks_at_set in Bj; [|done..]. destruct Bj as [[_ Eb]|[_ Bj]]; [congruence|by exists j].
      + intros [j Bj]. exists j. apply blocks_at_set; [done..|]. right. split; [|done]. intros ->. by apply Hf in Bj.
    - apply blocked_until_some; [done|]. exists i. apply blocks_at_set; [done..|]. by left. }
  unfold CNSL_BLOCK_TABLE in *.
  destruct (find_from_spec (fun b => negb (be_active b)) (take (Z.to_nat (g_block_count s)) (g_block_table s)) 0 ltac:(lia))
    as [[E2 F2]|(k & Hk & E2 & F2 & _)]; rewrite zlen_take in * by lia; rewrite E2.
  - change (-1 <? 0) with true. cbn [andb]. destruct (Z.leb_spec 64 (g_block_count s)).
    + split; [done|]. do 4 (split; [done|]). split; [done|]. intros _. left. split; [done|].
      unfold active_blocks. pose proof (countb_negb be_active (take (Z.to_nat (g_block_count s)) (g_block_table s))) as X.
      rewrite zlen_take in X by lia. pose proof (countb_range (fun b => negb (be_active b)) (take (Z.to_nat (g_block_count s)) (g_block_table s))).
      destruct (decide (0 < countb (fun b => negb (be_active b)) (take (Z.to_nat (g_block_count s)) (g_block_table s)))) as [P|P]; [|lia].
      apply countb_pos in P as (i & Hi & Pi). rewrite zlen_take in Hi by lia. specialize (F2 i Hi). congruence.
    + rewrite u16_small by lia. destruct (W (g_block_count s) (g_block_count s + 1)) as (W1 & W2 & W3); [lia|lia|right; lia| |].
      { intros ip' e' [Hi _]. lia. }
      split; [done|]. do 3 (split; [done|]). split; [done|]. split; [done|]. intros _. right. split; [|done].
      pose proof (countb_range be_active (take (Z.to_nat (g_block_count s)) (g_block_table s))) as X.
      rewrite zlen_take in X by lia. unfold active_blocks. lia.
  - rewrite zget_take in F2 by lia. destruct (Z.ltb_spec (0 + k) 0); [lia|]. cbn [andb]. rewrite Z.add_0_l.
    destruct (W k (g_block_count s)) as (W1 & W2 & W3); [lia|lia|by left| |].
    { intros ip' e' [_ B]. by rewrite B in F2. }
    split; [done|]. do 3 (split; [done|]). split; [done|]. split; [done|]. intros _. right. split; [|done].
    unfold active_blocks. pose proof (countb_negb be_active (take (Z.to_nat (g_block_count s)) (g_block_table s))) as X.
    rewrite zlen_take in X by lia.
    pose proof (countb_range (fun b => negb (be_active b)) (take (Z.to_nat (g_block_count s)) (g_block_table s))) as Y.
    destruct (decide (countb (fun b => negb (be_active b)) (take (Z.to_nat (g_block_count s)) (g_block_table s)) = 0)) as [Z0|]; [|lia].
    apply (countb_zero _ _ k) in Z0; [|rewrite zlen_take; lia]. rewrite zget_take in Z0 by lia. congruence.
Qed.

Lemma blocked_until_none s ip : blocks_ok s -> blocked_until s ip = None <-> forall i e, ~ blocks_at s i ip e.
Proof.
  intros H. split.
  - intros E i e B. assert (X : blocked_until s ip = Some e) by (apply blocked_until_some; [done|by exists i]). congruence.
  - intros F. destruct (blocked_until s ip) as [e|] eqn:E; [|done].
    apply blocked_until_some in E as [i B]; [|done]. by apply F in B.
Qed.

(** Clearing the active flag of an entry removes exactly its block. *)
Lemma deactivate_spec s i ip e a :
  blocks_ok s -> blocks_at s i ip e ->
  let s' := with_blocks (g_block_table s).[i <- mk_block ip false e] (g_block_count s) a s in
  blocks_ok s' /\ forall j ip' e', blocks_at s' j ip' e' <-> j <> i /\ blocks_at s j ip' e'.
Proof.
  intros H [Hi B] s'. pose proof (bo_count s H) as C. split; [by apply blocks_ok_set; [done|lia|lia|by left|]|].
  intros j ip' e'. unfold s'. rewrite blocks_at_set by (done || lia || by left). split; [|by right].
  intros [[_ [=]]|Hb]. done.
Qed.

Lemma cnsl_unblock_spec ip s :
  blocks_ok s ->
  let '(r, s') := cnsl_unblock ip s in
  blocks_ok s' /\ r = bool_decide (is_Some (blocked_until s ip)) /\ blocked_until s' ip = None /\
  (forall ip', ip' <> ip -> blocked_until s' ip' = blocked_until s ip') /\
  c_audit s' = if r then audit_record AUDIT_CNSL_UNBLOCK 0 ip 0 (c_audit s) else c_audit s.
Proof.
  intros H. unfold cnsl_unblock. destruct (find_block_spec s ip H) as [[E F]|(i & e & E & B)]; rewrite E.
  - change (-1 <? 0) with true. cbv iota. assert (N : blocked_until s ip = None) by (by apply blocked_until_none).
    rewrite N. done.
  - pose proof B as [Hi Hb]. destruct (Z.ltb_spec i 0); [lia|]. rewrite Hb. cbn [be_ip be_unblock_at].
    destruct (deactivate_spec s i ip e (audit_record AUDIT_CNSL_UNBLOCK 0 ip 0 (c_audit s)) H B) as [O A].
    set (s' := with_blocks _ _ _ _) in *. split; [done|].
    assert (S : blocked_until s ip = Some e) by (apply blocked_until_some; [done|by exists i]).
    split; [by rewrite S|]. split; [|split; [|done]].
    + apply blocked_until_none; [done|]. intros j e' Bj. apply A in Bj as [Nj Bj].
      by apply Nj, (bo_unique s H _ _ _ _ _ Bj B).
    + intros ip' Hne. apply (blocked_until_ext s); [done..|]. intros e'. split; intros [j Bj].
      * apply A in Bj as [_ Bj]. by exists j.
      * exists j. apply A. split; [|done]. intros ->. destruct Bj as [_ Bj]. congruence.
Qed.

Lemma cnsl_tick_spec s :
  blocks_ok s ->
  let s' := cnsl_tick s in
  blocks_ok s' /\ g_ip_table s' = g_ip_table s /\ g_ip_count s' = g_ip_count s /\ c_uptime s' = c_uptime s /\
  forall ip, blocked_until s' ip = match blocked_until s ip with Some e => if NOW s <? e then Some e else None | None => None end.
Proof.
  intros H. cbn zeta. unfold cnsl_tick.
  pose proof (for_loop_ind (fun i s1 => blocks_ok s1 /\ g_ip_table s1 = g_ip_table s /\ g_ip_count s1 = g_ip_count s /\
    c_uptime s1 = c_uptime s /\ g_block_count s1 = g_block_count s /\
    forall j ip e, blocks_at s1 j ip e <-> blocks_at s j ip e /\ (j < i -> NOW s < e)) (Z.to_nat (g_block_count s)) 0
    (fun i s1 => let b := (g_block_table s1).[i] in
      if be_active b && (be_unblock_at b <=? NOW s) then
        with_blocks (g_block_table s1).[i <- mk_block (be_ip b) false (be_unblock_at b)] (g_block_count s1)
          (audit_record AUDIT_CNSL_UNBLOCK 0 (be_ip b) 0 (c_audit s1)) s1
      else s1) s) as I.
  set (s' := for_loop _ _ _ _) in *. destruct I as (O & E1 & E2 & E3 & E4 & A).
  - split; [done|]. do 4 (split; [done|]). intros j ip e. split; [|by intros [? _]]. intros B. split; [done|]. intros Hj. destruct B. lia.
  - clear s'. intros i s1 Hi (O & E1 & E2 & E3 & E4 & A). cbn zeta.
    rewrite Z.add_0_l, Z2Nat.id in Hi by apply H.
    destruct ((g_block_table s1).[i]) as [ip act e] eqn:Eb. cbn [be_active be_ip be_unblock_at]. destruct act; cbn [andb].
    + assert (B : blocks_at s1 i ip e) by (split; [lia|done]).
      destruct (Z.leb_spec e (NOW s)).
      * destruct (deactivate_spec s1 i ip e (audit_record AUDIT_CNSL_UNBLOCK 0 ip 0 (c_audit s1)) O B) as [O' A'].
        split; [exact O'|]. do 4 (split; [done|]). intros j ip' e'. rewrite A', A. split.
        -- intros (Nj & Bj & L). split; [done|]. intros Hj. apply L. lia.
        -- intros [Bj L]. split; [|split; [done|intros; apply L; lia]]. intros ->.
           assert (B1 : blocks_at s i ip e) by (apply A in B; tauto). destruct Bj as [_ Bj], B1 as [_ B1]. rewrite Bj in B1.
           injection B1 as -> ->. specialize (L ltac:(lia)). lia.
      * split; [done|]. do 4 (split; [done|]). intros j ip' e'. rewrite A. split; intros [Bj L]; (split; [done|]).
        -- intros Hj. destruct (decide (j = i)) as [->|]; [|apply L; lia].
           assert (B1 : blocks_at s i ip e) by (apply A in B; tauto). destruct Bj as [_ Bj], B1 as [_ B1]. rewrite Bj in B1.
           injection B1 as -> ->. lia.
        -- intros Hj. apply L. lia.
    + split; [done|]. do 4 (split; [done|]). intros j ip' e'. rewrite A. split; intros [Bj L]; (split; [done|]).
      * intros Hj. destruct (decide (j = i)) as [->|]; [|apply L; lia].
        assert (B1 : blocks_at s1 i ip' e') by (apply A; split; [done|lia]). destruct B1 as [_ B1]. congruence.
      * intros Hj. apply L. lia.
  - split; [done|]. do 3 (split; [done|]). rewrite Z.add_0_l, Z2Nat.id in A by apply H. intros ip.
    destruct (blocked_until s ip) as [e|] eqn:Es.
    + apply blocked_until_some in Es as [i B]; [|done]. destruct (Z.ltb_spec (NOW s) e).
      * apply blocked_until_some; [done|]. exists i. by apply A.
      * apply blocked_until_none; [done|]. intros j e' Bj. apply A in Bj as [Bj L].
        pose proof (bo_unique s H _ _ _ _ _ B Bj) as <-. destruct B as [Hi B], Bj as [_ Bj]. rewrite B in Bj.
        injection Bj as ->. specialize (L ltac:(lia)). lia.
    + apply blocked_until_none; [done|]. intros j e' Bj. apply A in Bj as [Bj _].
      by apply (proj1 (blocked_until_none s ip H) Es j e').
Qed.

(** ** Event buffers *)

Record bufs_ok (s : cnsl) : Prop := {
  fo_len : zlen (g_ip_table s) = CNSL_MAX_IPS;
  fo_count : 0 <= g_ip_count s <= CNSL_MAX_IPS;
  fo_unique : forall i j, 0 <= i < g_ip_count s -> 0 <= j < g_ip_count s ->
    ib_ip (g_ip_table s).[i] = ib_ip (g_ip_table s).[j] -> i = j;
  fo_alerts : forall i, 0 <= i < g_ip_count s -> zlen (ib_last_alert_ts (g_ip_table s).[i]) = CNSL_NUM_RULES
}.

Definition cnsl_ok (s : cnsl) : Prop := blocks_ok s /\ bufs_ok s.

(** [s'] differs from [s] in the buffer [i] of [ip] and in the block of [ip]. *)
Record touches (i ip : Z) (s s' : cnsl) : Prop := {
  to_ok : cnsl_ok s';
  to_count : g_ip_count s' = g_ip_count s;
  to_time : c_uptime s' = c_uptime s;
  to_buf : forall j, 0 <= j -> j <> i -> (g_ip_table s').[j] = (g_ip_table s).[j];
  to_ip : ib_ip (g_ip_table s').[i] = ib_ip (g_ip_table s).[i];
  to_block : forall ip', ip' <> ip -> blocked_until s' ip' = blocked_until s ip'
}.

Lemma touches_refl i ip s : cnsl_ok s -> touches i ip s s.
Proof. by constructor. Qed.

Lemma touches_trans i ip s1 s2 s3 : touches i ip s1 s2 -> touches i ip s2 s3 -> touches i ip s1 s3.
Proof.
  intros [A1 B1 C1 D1 E1 F1] [A2 B2 C2 D2 E2 F2]. constructor; [done|congruence|congruence| |congruence|].
  - intros j H1 H2. by rewrite D2, D1.
  - intros x Hx. by rewrite F2, F1.
Qed.

Lemma set_buf_touches i ip s b :
  cnsl_ok s -> 0 <= i < g_ip_count s -> ib_ip b = ib_ip (g_ip_table s).[i] -> zlen (ib_last_alert_ts b) = CNSL_NUM_RULES ->
  touches i ip s (with_bufs (g_ip_table s).[i <- b] (g_ip_count s) s).
Proof.
  intros [Bk [L C U A]] Hi Hb Hl.
  assert (G : forall j, 0 <= j < g_ip_count s -> ib_ip (g_ip_table s).[i <- b].[j] = ib_ip (g_ip_table s).[j]).
  { intros j Hj. destruct (decide (j = i)) as [->|]; [by rewrite zget_zset_eq by lia|by rewrite zget_zset_ne by lia]. }
  constructor; cbn [g_ip_table g_ip_count c_uptime with_bufs]; try done.
  - split; [by destruct Bk|]. constructor; cbn [g_ip_table g_ip_count with_bufs]; [by rewrite zlen_zset|done| |].
    + intros j k Hj Hk. rewrite !G by done. by apply U.
    + intros j Hj. destruct (decide (j = i)) as [->|]; [by rewrite zget_zset_eq by lia|by rewrite zget_zset_ne by lia; apply A].
  - intros j H0 Hj. by rewrite zget_zset_ne by lia.
  - by apply G.
Qed.

Lemma do_block_touches i ip s : cnsl_ok s -> touches i ip s (do_block ip s).
Proof.
  intros [Bk Bf]. destruct (do_block_spec ip s Bk) as (O & T & N & U & F & _).
  constructor; [|exact N|exact U|intros; by rewrite T|by rewrite T|exact F].
  split; [done|]. destruct Bf as [L C Uq A]. constructor; rewrite ?T, ?N; done.
Qed.

Lemma check_cooldown_touches i ip idx s :
  cnsl_ok s -> 0 <= i < g_ip_count s -> touches i ip s (check_cooldown i idx s).2.
Proof.
  intros H Hi. unfold check_cooldown. destruct (_ && _); [by apply touches_refl|]. cbn [snd].
  apply set_buf_touches; [done|done|done|]. cbn [ib_last_alert_ts]. rewrite zlen_zset. by apply (fo_alerts s (proj2 H)).
Qed.

Lemma touches_index i ip s s' : touches i ip s s' -> 0 <= i < g_ip_count s -> 0 <= i < g_ip_count s'.
Proof. intros T. by rewrite (to_count _ _ _ _ T). Qed.

Lemma rule_touches idx cond i ip s : cnsl_ok s -> 0 <= i < g_ip_count s -> touches i ip s (rule idx cond i ip s).2.
Proof.
  intros H Hi. unfold rule. pose proof (check_cooldown_touches i ip idx s H Hi) as T.
  destruct (check_cooldown i idx s) as [[] s1]; cbn [negb snd] in *; [|done].
  destruct (cond _ _); cbn [snd]; [|done]. eapply touches_trans; [exact T|]. apply do_block_touches, (to_ok _ _ _ _ T).
Qed.

Lemma try_rules_touches rs i ip s :
  (forall r, r ∈ rs -> exists idx cond, r = rule idx cond) -> cnsl_ok s -> 0 <= i < g_ip_count s ->
  touches i ip s (try_rules rs i ip s).2.
Proof.
  revert s. induction rs as [|r rs IH]; intros s Hr H Hi; [by apply touches_refl|]. cbn [try_rules].
  destruct (Hr r ltac:(by left)) as (idx & cond & ->). pose proof (rule_touches idx cond i ip s H Hi) as T.
  destruct (rule idx cond i ip s) as [hit s1]. cbn [snd] in T. destruct hit; [done|].
  eapply touches_trans; [exact T|]. apply IH; [intros r ?; apply Hr; by right|apply (to_ok _ _ _ _ T)|by eapply touches_index].
Qed.

Lemma RULES_shape r : r ∈ RULES -> exists idx cond, r = rule idx cond.
Proof.
  unfold RULES. rewrite !elem_of_cons, elem_of_nil. intros [->|[->|[->|[->|[->|[->|[]]]]]]]; by eexists _, _.
Qed.

(** The buffer [find_or_create_buf] returns. *)
Lemma find_or_create_spec ip s :
  cnsl_ok s ->
  let '(i, s1) := find_or_create_buf ip s in
  cnsl_ok s1 /\ c_uptime s1 = c_uptime s /\ g_block_table s1 = g_block_table s /\ g_block_count s1 = g_block_count s /\
  (forall j, 0 <= j < g_ip_count s -> j < g_ip_count s1 /\ (g_ip_table s1).[j] = (g_ip_table s).[j]) /\
  ((i = -1 /\ g_ip_count s = CNSL_MAX_IPS /\ forall j, 0 <= j < g_ip_count s -> ib_ip (g_ip_table s).[j] <> ip) \/
   (0 <= i < g_ip_count s1 /\ ib_ip (g_ip_table s1).[i] = ip /\
    (g_ip_count s <= i -> (g_ip_table s1).[i] = mk_buf ip (ib_events buf_zero) 0 0 (ib_last_alert_ts buf_zero)))).
Proof.
  intros H. pose proof H as [Bk [L C U A]]. unfold find_or_create_buf, CNSL_MAX_IPS in *.
  destruct (find_from_spec (fun b => ib_ip b =? ip) (take (Z.to_nat (g_ip_count s)) (g_ip_table s)) 0 ltac:(lia))
    as [[E F]|(k & Hk & E & F & _)]; rewrite zlen_take in * by lia; rewrite E.
  - assert (F' : forall j, 0 <= j < g_ip_count s -> ib_ip (g_ip_table s).[j] <> ip).
    { intros j Hj. specialize (F j Hj). rewrite zget_take in F by lia. by apply Z.eqb_neq. }
    change (0 <=? -1) with false. cbv iota. destruct (Z.leb_spec 256 (g_ip_count s)).
    + split; [done|]. do 3 (split; [done|]). split; [intros; split; [lia|done]|]. left. split; [done|]. split; [lia|done].
    + rewrite u16_small by lia. cbn [g_ip_table g_ip_count c_uptime g_block_table g_block_count with_bufs].
      set (b := mk_buf ip _ _ _ _). split.
      { split; [by destruct Bk|]. constructor; cbn [g_ip_table g_ip_count with_bufs]; [by rewrite zlen_zset|unfold CNSL_MAX_IPS; lia| |].
        - intros i j Hi Hj. destruct (decide (i = g_ip_count s)) as [->|]; destruct (decide (j = g_ip_count s)) as [->|]; try done.
          + rewrite zget_zset_eq, zget_zset_ne by lia. cbn [b ib_ip]. intros Eq. exfalso. apply (F' j); [lia|done].
          + rewrite zget_zset_eq, zget_zset_ne by lia. cbn [b ib_ip]. intros Eq. exfalso. apply (F' i); [lia|done].
          + rewrite !zget_zset_ne by lia. intros Eq. apply U; [lia|lia|done].
        - intros i Hi. destruct (decide (i = g_ip_count s)) as [->|]; [by rewrite zget_zset_eq by lia|].
          rewrite zget_zset_ne by lia. apply A. lia. }
      do 3 (split; [done|]). split; [intros j Hj; split; [lia|by rewrite zget_zset_ne by lia]|].
      right. split; [lia|]. rewrite zget_zset_eq by lia. done.
  - rewrite zget_take in F by lia. apply Z.eqb_eq in F. destruct (Z.leb_spec 0 (0 + k)); [|lia]. rewrite Z.add_0_l.
    split; [done|]. do 3 (split; [done|]). split; [intros; split; [lia|done]|]. right. split; [lia|]. split; [done|lia].
Qed.

Lemma push_event_touches i ip kind s :
  cnsl_ok s -> 0 <= i < g_ip_count s -> touches i ip s (push_event i kind s).
Proof. intros H Hi. apply set_buf_touches; [done|done|done|]. by apply (fo_alerts s (proj2 H)). Qed.

Lemma cnsl_tick_ok s : cnsl_ok s -> cnsl_ok (cnsl_tick s).
Proof.
  intros [Bk [L C U A]]. destruct (cnsl_tick_spec s Bk) as (O & T & N & _). split; [done|].
  constructor; rewrite ?T, ?N; done.
Qed.

(** [cnsl_ingest] keeps the tables well formed and blocks at most the address
    the event is about. *)
Lemma cnsl_ingest_spec ip kind s :
  cnsl_ok s ->
  let '(r, s') := cnsl_ingest ip kind s in
  cnsl_ok s' /\ c_uptime s' = c_uptime s /\
  (kind < CNSL_KIND_COUNT -> forall ip', ip' <> ip -> blocked_until s' ip' =
     match blocked_until s ip' with Some e => if NOW s <? e then Some e else None | None => None end).
Proof.
  intros H. unfold cnsl_ingest. destruct (Z.leb_spec CNSL_KIND_COUNT kind); [split; [done|]; split; [done|lia]|].
  destruct (cnsl_tick_spec s (proj1 H)) as (_ & _ & _ & Ut & Tk). pose proof (cnsl_tick_ok s H) as H1. revert H1 Ut Tk.
  generalize (cnsl_tick s). intros s1 H1 Ut Tk.
  destruct (cnsl_is_blocked ip s1); [split; [done|]; split; [done|]; intros _ ip' _; apply Tk|].
  pose proof (find_or_create_spec ip s1 H1) as S. destruct (find_or_create_buf ip s1) as [i s2].
  destruct S as (H2 & U2 & B2 & N2 & _ & S).
  assert (Bu : forall x, blocked_until s2 x = blocked_until s1 x) by (intros x; unfold blocked_until, find_block; by rewrite B2, N2).
  destruct (Z.ltb_spec i 0); [split; [done|]; split; [congruence|]; intros _ ip' _; rewrite Bu; apply Tk|].
  destruct S as [[? _]|(Hi & _)]; [lia|].
  pose proof (push_event_touches i ip kind s2 H2 Hi) as T1.
  pose proof (try_rules_touches RULES i ip _ RULES_shape (to_ok _ _ _ _ T1) (touches_index _ _ _ _ T1 Hi)) as T2.
  destruct (try_rules _ _ _ _) as [r s']. cbn [snd] in T2. pose proof (touches_trans _ _ _ _ _ T1 T2) as [A B C D E F].
  split; [done|]. split; [congruence|]. intros _ ip' Hne. rewrite F, Bu by done. apply Tk.
Qed.

(** ** Reachable states *)

Inductive cnsl_reach : cnsl -> Prop :=
  | reach_init s : 0 <= c_uptime s < 2 ^ 64 -> cnsl_reach (cnsl_init s)
  | reach_ingest ip kind s : cnsl_reach s -> cnsl_reach (cnsl_ingest ip kind s).2
  | reach_unblock ip s : cnsl_reach s -> cnsl_reach (cnsl_unblock ip s).2
  | reach_time t s : cnsl_reach s -> 0 <= t < 2 ^ 64 -> cnsl_reach (with_uptime t s).

Lemma cnsl_unblock_bufs ip s :
  g_ip_table (cnsl_unblock ip s).2 = g_ip_table s /\ g_ip_count (cnsl_unblock ip s).2 = g_ip_count s.
Proof. unfold cnsl_unblock. by destruct (_ <? 0). Qed.

Lemma cnsl_reach_ok s : cnsl_reach s -> cnsl_ok s.
Proof.
  induction 1 as [s Hs|ip kind s _ IH|ip s _ IH|t s _ IH Ht].
  - split.
    + constructor; [done|done|done|]. intros i j ip e e' [Hi _]. cbn in Hi. lia.
    + constructor; [done|done|cbn; lia|cbn; lia].
  - pose proof (cnsl_ingest_spec ip kind s IH) as S. destruct (cnsl_ingest ip kind s). apply S.
  - pose proof (cnsl_unblock_spec ip s (proj1 IH)) as S. destruct (cnsl_unblock_bufs ip s) as [E1 E2].
    destruct (cnsl_unblock ip s) as [r s']. cbn [snd] in *. split; [apply S|].
    destruct IH as [_ [L C U A]]. constructor; rewrite ?E1, ?E2; done.
  - destruct IH as [[A B C D] [L N U Al]]. split; [by constructor|by constructor].
Qed.

(** In every reachable state the block list is a partial map from
    addresses to expiry times: [cnsl_is_blocked] and [cnsl_get_block_ttl] read
    it, [do_block] adds the address for 1800 seconds unless it is present or
    all 64 slots are active, [cnsl_unblock] removes it, [cnsl_tick] drops
    exactly the expired entries, and an event about one address never blocks
    another. *)
Theorem cnsl_block_list_refines s ip :
  cnsl_reach s ->
  cnsl_is_blocked ip s = bool_decide (is_Some (blocked_until s ip)) /\
  cnsl_get_block_ttl ip s = match blocked_until s ip with Some e => Z.max 0 (e - NOW s) | None => 0 end /\
  (let s' := do_block ip s in
   (forall ip', ip' <> ip -> blocked_until s' ip' = blocked_until s ip') /\
   blocked_until s' ip = match blocked_until s ip with
     | Some e => Some e
     | None => if active_blocks s =? CNSL_BLOCK_TABLE then None else Some (NOW s + CNSL_BLOCK_DURATION)
     end) /\
  (let '(r, s') := cnsl_unblock ip s in
   r = bool_decide (is_Some (blocked_until s ip)) /\ blocked_until s' ip = None /\
   forall ip', ip' <> ip -> blocked_until s' ip' = blocked_until s ip') /\
  (blocked_until (cnsl_tick s) ip = match blocked_until s ip with Some e => if NOW s <? e then Some e else None | None => None end) /\
  forall kind ip', ip' <> ip -> blocked_until s ip = None -> blocked_until (cnsl_ingest ip' kind s).2 ip = None.
Proof.
  intros R. pose proof (cnsl_reach_ok s R) as [Bk Bf]. pose proof (do_block_spec ip s Bk) as D. pose proof (cnsl_unblock_spec ip s Bk) as Un.
  split; [by apply is_blocked_until|]. split.
  { unfold cnsl_get_block_ttl, blocked_until. destruct (find_block ip s <? 0); [done|]. destruct (Z.ltb_spec (NOW s) (be_unblock_at (g_block_table s).[find_block ip s])); lia. }
  split; [|split; [|split]].
  - cbn zeta in *. destruct D as (_ & _ & _ & _ & F & Y & N). split; [done|].
    destruct (blocked_until s ip) as [e|] eqn:E; [by rewrite (Y ltac:(done))|].
    destruct (N eq_refl) as [[Es Fu]|(Fu & Es & _)]; rewrite Es; [by rewrite Fu|].
    destruct (Z.eqb_spec (active_blocks s) CNSL_BLOCK_TABLE); [lia|done].
  - destruct (cnsl_unblock ip s) as [r s']. tauto.
  - apply (cnsl_tick_spec s Bk).
  - intros kind ip' Hne Hn. pose proof (cnsl_ingest_spec ip' kind s (conj Bk Bf)) as S.
    destruct (decide (kind < CNSL_KIND_COUNT)) as [Hk|Hk].
    + destruct (cnsl_ingest ip' kind s) as [r s']. cbn [snd]. destruct S as (_ & _ & S). rewrite (S Hk) by done. by rewrite Hn.
    + unfold cnsl_ingest. destruct (Z.leb_spec CNSL_KIND_COUNT kind); [done|lia].
Qed.

(** ** Detection *)

(** All six rules of the buffer [i] of [ip] were evaluated at time [t]. *)
Record armed (i ip t : Z) (s : cnsl) : Prop := {
  ar_ok : cnsl_ok s;
  ar_index : 0 <= i < g_ip_count s;
  ar_ip : ib_ip (g_ip_table s).[i] = ip;
  ar_last : forall r, 0 <= r < CNSL_NUM_RULES -> (ib_last_alert_ts (g_ip_table s).[i]).[r] = t;
  ar_free : blocked_until s ip = None
}.

Lemma armed_rule i ip t idx cond s :
  armed i ip t s -> t <> 0 -> t <= NOW s < t + CNSL_COOLDOWN -> 0 <= idx < CNSL_NUM_RULES -> rule idx cond i ip s = (false, s).
Proof.
  intros A Ht Hn Hi. unfold rule, check_cooldown. rewrite (ar_last _ _ _ _ A) by done.
  destruct (Z.eqb_spec t 0); [done|]. destruct (Z.leb_spec t (NOW s)); [|lia].
  destruct (Z.ltb_spec (NOW s - t) CNSL_COOLDOWN); [done|lia].
Qed.

Lemma armed_rules i ip t s :
  armed i ip t s -> t <> 0 -> t <= NOW s < t + CNSL_COOLDOWN -> try_rules RULES i ip s = (false, s).
Proof.
  intros A Ht Hn. unfold RULES, CNSL_NUM_RULES. cbn [try_rules].
  unfold rule_honeypot_ssh, rule_credential_spray, rule_web_recon_ssh, rule_privesc, rule_web_auth_flood, rule_anomaly_scan_window.
  by rewrite !(armed_rule i ip t) by (done || lia).
Qed.

Lemma armed_touches j ip' i ip t s s' :
  armed i ip t s -> touches j ip' s s' -> j <> i -> ip' <> ip -> armed i ip t s'.
Proof.
  intros [A B C D E] [T1 T2 T3 T4 T5 T6] Hj Hi. constructor; [done|by rewrite T2|by rewrite T4 by lia|by rewrite T4 by lia|by rewrite T6].
Qed.

Lemma push_event_armed i ip t kind s : armed i ip t s -> armed i ip t (push_event i kind s).
Proof.
  intros A. pose proof (push_event_touches i ip kind s (ar_ok _ _ _ _ A) (ar_index _ _ _ _ A)) as T.
  constructor; [exact (to_ok _ _ _ _ T)|exact (touches_index _ _ _ _ T (ar_index _ _ _ _ A))|rewrite (to_ip _ _ _ _ T); exact (ar_ip _ _ _ _ A)| |].
  - intros r Hr. cbn [g_ip_table push_event with_bufs]. destruct A as [[_ [L C _ _]] Hi _ A _].
    rewrite zget_zset_eq by lia. by apply A.
  - rewrite <- (ar_free _ _ _ _ A). unfold blocked_until. done.
Qed.

(** While the rules of [ip] cool down, no event about [ip] is acted on. *)
Lemma armed_ingest i ip t ip' kind s :
  armed i ip t s -> t <> 0 -> t <= NOW s < t + CNSL_COOLDOWN ->
  armed i ip t (cnsl_ingest ip' kind s).2 /\ (ip' = ip -> (cnsl_ingest ip' kind s).1 = false).
Proof.
  intros A Ht Hn. unfold cnsl_ingest. destruct (CNSL_KIND_COUNT <=? kind); [done|].
  assert (A1 : armed i ip t (cnsl_tick s)).
  { destruct (cnsl_tick_spec s (proj1 (ar_ok _ _ _ _ A))) as (_ & E1 & E2 & _ & E4). destruct A as [O I C L F].
    constructor; [by apply cnsl_tick_ok|by rewrite E2|by rewrite E1|by rewrite E1|by rewrite E4, F]. }
  assert (Hn1 : t <= NOW (cnsl_tick s) < t + CNSL_COOLDOWN).
  { destruct (cnsl_tick_spec s (proj1 (ar_ok _ _ _ _ A))) as (_ & _ & _ & E3 & _). unfold NOW in *. by rewrite E3. }
  revert A1 Hn1. generalize (cnsl_tick s). clear A Hn s. intros s A Hn.
  pose proof (is_blocked_until s ip' (proj1 (ar_ok _ _ _ _ A))) as Eb.
  pose proof (find_or_create_spec ip' s (ar_ok _ _ _ _ A)) as S. destruct (decide (ip' = ip)) as [->|Hne].
  - rewrite (ar_free _ _ _ _ A) in Eb. rewrite Eb. cbn [bool_decide decide_rel]. rewrite bool_decide_false by (by intros [? ?]).
    destruct (find_or_create_buf ip s) as [k s1] eqn:Ef. destruct S as (O1 & U1 & B1 & N1 & K1 & [(-> & _ & F)|(Hk & Ek & _)]).
    { destruct (F i (ar_index _ _ _ _ A) (ar_ip _ _ _ _ A)). }
    destruct (K1 i (ar_index _ _ _ _ A)) as [Hi1 Ei1].
    assert (k = i) as ->.
    { apply (fo_unique s1 (proj2 O1)); [done|pose proof (ar_index _ _ _ _ A); lia|]. by rewrite Ek, Ei1, (ar_ip _ _ _ _ A). }
    destruct (Z.ltb_spec i 0); [lia|].
    assert (A1 : armed i ip t s1).
    { constructor; [done|done|done|rewrite Ei1; exact (ar_last _ _ _ _ A)|]. rewrite <- (ar_free _ _ _ _ A).
      unfold blocked_until, find_block. by rewrite B1, N1. }
    pose proof (push_event_armed i ip t kind s1 A1) as A2. rewrite (armed_rules i ip t _ A2 Ht); [done|].
    change (t <= c_uptime s1 / 100 < t + CNSL_COOLDOWN). by rewrite U1.
  - split; [|done]. destruct (cnsl_is_blocked ip' s); [done|].
    destruct (find_or_create_buf ip' s) as [k s1]. destruct S as (O1 & U1 & B1 & N1 & K1 & S).
    destruct (K1 i (ar_index _ _ _ _ A)) as [Hi1 Ei1]. pose proof (ar_index _ _ _ _ A) as Hi.
    assert (A1 : armed i ip t s1).
    { constructor; [done|lia|rewrite Ei1; exact (ar_ip _ _ _ _ A)|rewrite Ei1; exact (ar_last _ _ _ _ A)|]. rewrite <- (ar_free _ _ _ _ A).
      unfold blocked_until, find_block. by rewrite B1, N1. }
    destruct (Z.ltb_spec k 0); [done|]. destruct S as [[? _]|(Hk & Ek & _)]; [lia|].
    assert (Hki : k <> i) by (intros ->; rewrite (ar_ip _ _ _ _ A1) in Ek; congruence).
    pose proof (push_event_touches k ip' kind s1 O1 Hk) as T1.
    pose proof (try_rules_touches RULES k ip' _ RULES_shape (to_ok _ _ _ _ T1) (touches_index _ _ _ _ T1 Hk)) as T2.
    apply (armed_touches k ip' _ _ _ _ _ A1); [by eapply touches_trans|done|done].
Qed.

(** A rule that is evaluated and does not fire only sets its time stamp. *)
Lemma rule_miss idx cond i ip s b :
  cnsl_ok s -> 0 <= i < g_ip_count s -> 0 <= idx < CNSL_NUM_RULES -> (g_ip_table s).[i] = b ->
  (ib_last_alert_ts b).[idx] = 0 ->
  (forall last, cond (NOW s) (mk_buf (ib_ip b) (ib_events b) (ib_head b) (ib_count b) last) = false) ->
  exists s', rule idx cond i ip s = (false, s') /\ touches i ip s s' /\ blocked_until s' ip = blocked_until s ip /\
    (g_ip_table s').[i] = mk_buf (ib_ip b) (ib_events b) (ib_head b) (ib_count b) (ib_last_alert_ts b).[idx <- NOW s].
Proof.
  intros H Hi Hx Hb Hl Hc. pose proof (check_cooldown_touches i ip idx s H Hi) as T. unfold rule.
  unfold check_cooldown in *. rewrite Hb, Hl in *. cbn [Z.eqb negb andb snd] in *.
  set (s' := with_bufs _ _ _) in *. destruct H as [Bk [L C U A]].
  assert (E : (g_ip_table s').[i] = mk_buf (ib_ip b) (ib_events b) (ib_head b) (ib_count b) (ib_last_alert_ts b).[idx <- NOW s]).
  { unfold s'. cbn [g_ip_table with_bufs]. by rewrite zget_zset_eq by lia. }
  change (NOW s') with (NOW s). rewrite E, Hc. by exists s'.
Qed.

(** In a buffer with one event no rule's condition can hold. *)
Lemma single_count now b ev kind window :
  buf_events b = [ev] -> 0 <= count_kind now b kind window <= Z.b2z (ev_kind ev =? kind).
Proof.
  intros E. unfold count_kind. rewrite E. cbn [fold_left]. change (u8 (0 + 1)) with 1.
  destruct (event_in_window _ _ _), (ev_kind ev =? kind); cbn [andb Z.b2z]; lia.
Qed.

Lemma single_stats now b ev window :
  buf_events b = [ev] -> (count_window_stats now b window).1.1 <= 1.
Proof.
  intros E. unfold count_window_stats. rewrite E. cbn [fold_left]. change (u8 (0 + 1)) with 1.
  destruct (event_in_window _ _ _); cbn [negb fst]; lia.
Qed.

Lemma single_event_miss now b ev idx cond :
  buf_events b = [ev] ->
  (idx, cond) ∈ [(0, cond_honeypot_ssh); (1, cond_credential_spray); (2, cond_web_recon_ssh); (3, cond_privesc);
                 (4, cond_web_auth_flood); (5, cond_anomaly_scan_window)] -> cond now b = false.
Proof.
  intros E. pose proof (fun k w => single_count now b ev k w E) as X. rewrite !elem_of_cons, elem_of_nil.
  intros [[= -> ->]|[[= -> ->]|[[= -> ->]|[[= -> ->]|[[= -> ->]|[[= -> ->]|[]]]]]]].
  - apply andb_false_iff. rewrite !Z.leb_gt. pose proof (X CNSL_KIND_FW_HONEYPOT_PORT CNSL_WINDOW_SHORT).
    pose proof (X CNSL_KIND_SSH_FAIL CNSL_WINDOW_SHORT). unfold CNSL_KIND_FW_HONEYPOT_PORT, CNSL_KIND_SSH_FAIL in *.
    destruct (Z.eqb_spec (ev_kind ev) 6), (Z.eqb_spec (ev_kind ev) 0); cbn [Z.b2z] in *; lia.
  - apply andb_false_iff. left. apply Z.leb_gt. pose proof (X CNSL_KIND_SSH_FAIL CNSL_WINDOW_MEDIUM).
    destruct (ev_kind ev =? CNSL_KIND_SSH_FAIL); cbn [Z.b2z] in *; lia.
  - apply andb_false_iff. right. apply Z.leb_gt. pose proof (X CNSL_KIND_SSH_FAIL CNSL_WINDOW_LONG).
    destruct (ev_kind ev =? CNSL_KIND_SSH_FAIL); cbn [Z.b2z] in *; lia.
  - apply andb_false_iff. right. apply Z.leb_gt. pose proof (X CNSL_KIND_SUDO_FAIL CNSL_WINDOW_MEDIUM).
    pose proof (X CNSL_KIND_SU_FAIL CNSL_WINDOW_MEDIUM). unfold CNSL_KIND_SUDO_FAIL, CNSL_KIND_SU_FAIL in *.
    rewrite u8_small; destruct (Z.eqb_spec (ev_kind ev) 7), (Z.eqb_spec (ev_kind ev) 8); cbn [Z.b2z] in *; lia.
  - apply Z.leb_gt. pose proof (X CNSL_KIND_WEB_AUTH_FAIL 120). destruct (ev_kind ev =? CNSL_KIND_WEB_AUTH_FAIL); cbn [Z.b2z] in *; lia.
  - pose proof (single_stats now b ev CNSL_WINDOW_RECON E) as Y. unfold cond_anomaly_scan_window.
    destruct (count_window_stats _ _ _) as [[total ks] gs]. cbn [fst] in Y. destruct (Z.leb_spec 20 total); [lia|done].
Qed.

(** Rules that are all evaluated and all miss leave the current time behind. *)
Lemma miss_rules rs i ip s b :
  NoDup rs.*1 -> cnsl_ok s -> 0 <= i < g_ip_count s -> (g_ip_table s).[i] = b ->
  (forall idx cond, (idx, cond) ∈ rs -> 0 <= idx < CNSL_NUM_RULES /\ (ib_last_alert_ts b).[idx] = 0 /\
     forall last, cond (NOW s) (mk_buf (ib_ip b) (ib_events b) (ib_head b) (ib_count b) last) = false) ->
  exists s' last, try_rules ((fun '(idx, cond) => rule idx cond) <$> rs) i ip s = (false, s') /\ touches i ip s s' /\
    blocked_until s' ip = blocked_until s ip /\
    (g_ip_table s').[i] = mk_buf (ib_ip b) (ib_events b) (ib_head b) (ib_count b) last /\
    forall r, 0 <= r < CNSL_NUM_RULES -> last.[r] = if decide (r ∈ rs.*1) then NOW s else (ib_last_alert_ts b).[r].
Proof.
  revert s b. induction rs as [|[idx cond] rs IH]; intros s b Nd H Hi Hb Hr.
  - exists s, (ib_last_alert_ts b). split; [done|]. split; [by apply touches_refl|]. split; [done|]. split; [by rewrite Hb; destruct b|].
    intros r _. by rewrite decide_False by apply not_elem_of_nil.
  - cbn in Nd. apply NoDup_cons in Nd as [Nx Nd]. destruct (Hr idx cond ltac:(by left)) as (Hx & Hl & Hc).
    destruct (rule_miss idx cond i ip s b H Hi Hx Hb Hl Hc) as (s1 & E1 & T1 & F1 & B1).
    assert (N1 : NOW s1 = NOW s) by (unfold NOW; by rewrite (to_time _ _ _ _ T1)).
    assert (Ll : zlen (ib_last_alert_ts b) = CNSL_NUM_RULES) by (rewrite <- Hb; by apply (fo_alerts s (proj2 H))).
    destruct (IH s1 _ Nd (to_ok _ _ _ _ T1) (touches_index _ _ _ _ T1 Hi) B1) as (s' & last & E & T & F & B & L).
    + intros idx' cond' Hin. destruct (Hr idx' cond' ltac:(by right)) as (Hx' & Hl' & Hc'). cbn [ib_last_alert_ts ib_ip ib_events ib_head ib_count].
      split; [done|]. rewrite N1. split; [|done]. rewrite zget_zset_ne; [done|lia|lia|].
      intros ->. apply Nx. apply list_elem_of_fmap. by exists (idx', cond').
    + exists s', last. cbn [fmap list_fmap try_rules]. rewrite E1. split; [exact E|]. split; [by eapply touches_trans|].
      split; [congruence|]. split; [exact B|]. intros r Hr'. rewrite L by done. rewrite N1. cbn [ib_last_alert_ts]. cbn [fmap list_fmap fst].
      destruct (decide (r = idx)) as [->|Hne].
      * rewrite decide_False by exact Nx. rewrite decide_True by (by left). apply zget_zset_eq. lia.
      * rewrite zget_zset_ne by lia. destruct (decide (r ∈ rs.*1)) as [Hm|Hm]; [by rewrite decide_True by (by right)|].
        rewrite decide_False; [done|]. by intros [?|?]%elem_of_cons.
Qed.

(** The first event about an address arms all six rules and is not acted on. *)
Lemma first_event_arms i ip kind s :
  cnsl_ok s -> 0 <= i < g_ip_count s -> blocked_until s ip = None ->
  (g_ip_table s).[i] = mk_buf ip (ib_events buf_zero) 0 0 (ib_last_alert_ts buf_zero) ->
  exists s', try_rules RULES i ip (push_event i kind s) = (false, s') /\ armed i ip (NOW s) s'.
Proof.
  intros H Hi Hf Hb. pose proof (push_event_touches i ip kind s H Hi) as T0.
  assert (B0 : (g_ip_table (push_event i kind s)).[i] =
    mk_buf ip ((ib_events buf_zero).[0 <- mk_ev (NOW s) kind]) 1 1 (replicate 6 0)).
  { unfold push_event. cbn [g_ip_table with_bufs]. destruct H as [_ [L C _ _]]. rewrite Hb, zget_zset_eq by lia. done. }
  destruct (miss_rules [(0, cond_honeypot_ssh); (1, cond_credential_spray); (2, cond_web_recon_ssh); (3, cond_privesc);
      (4, cond_web_auth_flood); (5, cond_anomaly_scan_window)] i ip (push_event i kind s)
      (mk_buf ip ((ib_events buf_zero).[0 <- mk_ev (NOW s) kind]) 1 1 (replicate 6 0))) as (s' & last & E & T & F & B & L);
    [cbn; repeat (apply NoDup_cons; split; [rewrite ?elem_of_cons, elem_of_nil; lia|]); by apply NoDup_nil|exact (to_ok _ _ _ _ T0)|exact (touches_index _ _ _ _ T0 Hi)|exact B0| |].
  - intros idx cond Hin. split; [|split].
    + rewrite !elem_of_cons, elem_of_nil in Hin. unfold CNSL_NUM_RULES. destruct Hin as [[= -> _]|[[= -> _]|[[= -> _]|[[= -> _]|[[= -> _]|[[= -> _]|[]]]]]]]; lia.
    + rewrite !elem_of_cons, elem_of_nil in Hin. destruct Hin as [[= -> _]|[[= -> _]|[[= -> _]|[[= -> _]|[[= -> _]|[[= -> _]|[]]]]]]]; done.
    + intros l. by apply (single_event_miss _ _ (mk_ev (NOW s) kind) idx).
  - exists s'. split; [exact E|].
    constructor; [exact (to_ok _ _ _ _ T)|exact (touches_index _ _ _ _ T (touches_index _ _ _ _ T0 Hi))|by rewrite B| |by rewrite F].
    intros r Hr. rewrite B. cbn [ib_last_alert_ts]. rewrite L by done. rewrite decide_True; [done|].
    cbn. rewrite !elem_of_cons. unfold CNSL_NUM_RULES in Hr. lia.
Qed.

(** A sequence of events, each with the tick count at which it is reported;
    the results are those of [cnsl_ingest]. *)
Fixpoint ingest_all (evs : list (Z * Z * Z)) (s : cnsl) : list (Z * bool) * cnsl :=
  match evs with
  | [] => ([], s)
  | (t, ip, kind) :: evs' =>
      let '(r, s) := cnsl_ingest ip kind (with_uptime t s) in
      let '(rs, s) := ingest_all evs' s in ((ip, r) :: rs, s)
  end.

Lemma armed_ingest_all i ip t evs s :
  t <> 0 -> armed i ip t s ->
  (forall e, e ∈ evs -> 0 <= e.1.1 < 2 ^ 64 /\ t <= e.1.1 / 100 < t + CNSL_COOLDOWN) ->
  armed i ip t (ingest_all evs s).2 /\ forall r, (ip, r) ∈ (ingest_all evs s).1 -> r = false.
Proof.
  intros Ht. revert s. induction evs as [|[[u ip'] kind] evs IH]; intros s A He.
  - split; [done|]. intros r Hr. by apply not_elem_of_nil in Hr.
  - destruct (He (u, ip', kind) ltac:(by left)) as [Hu Hn]. cbn [fst snd] in Hu, Hn.
    assert (A1 : armed i ip t (with_uptime u s)).
    { destruct A as [[[? ? ? ?] [? ? ? ?]] ? ? ? ?]. constructor; [split; by constructor|done..]. }
    destruct (armed_ingest i ip t ip' kind _ A1 Ht Hn) as [A2 R]. cbn [ingest_all].
    destruct (cnsl_ingest ip' kind (with_uptime u s)) as [r s2]. cbn [fst snd] in A2, R.
    destruct (IH s2 A2) as [A3 R3]; [intros e Hin; apply He; by right|].
    destruct (ingest_all evs s2) as [rs s3]. cbn [fst snd] in *. split; [done|].
    intros b [[= -> ->]|Hb]%elem_of_cons; [by apply R|by apply R3].
Qed.

(** Once an address has been reported for the first time, at a second
    [t > 0], nothing reported about it in the following two minutes is acted
    on, whatever the events are and whatever is reported about other addresses
    in between: every [cnsl_ingest] for it returns false and it is not blocked.
    [check_cooldown] arms the cool-down of a rule when the rule is evaluated,
    not when it fires. *)
Theorem cnsl_burst_undetected ip kind evs s :
  cnsl_reach s -> 0 < NOW s -> kind < CNSL_KIND_COUNT -> g_ip_count s < CNSL_MAX_IPS -> cnsl_is_blocked ip s = false ->
  (forall j, 0 <= j < g_ip_count s -> ib_ip (g_ip_table s).[j] <> ip) ->
  (forall e, e ∈ evs -> 0 <= e.1.1 < 2 ^ 64 /\ NOW s <= e.1.1 / 100 < NOW s + CNSL_COOLDOWN) ->
  let '(r, s1) := cnsl_ingest ip kind s in
  let '(rs, s2) := ingest_all evs s1 in
  r = false /\ (forall r', (ip, r') ∈ rs -> r' = false) /\ cnsl_is_blocked ip s2 = false.
Proof.
  intros R Ht Hk Hc Hb Hf He. pose proof (cnsl_reach_ok s R) as H. unfold cnsl_ingest.
  destruct (Z.leb_spec CNSL_KIND_COUNT kind); [lia|].
  destruct (cnsl_tick_spec s (proj1 H)) as (_ & E1 & E2 & E3 & E4). pose proof (cnsl_tick_ok s H) as H1.
  rewrite is_blocked_until in Hb by apply H. apply bool_decide_eq_false in Hb.
  assert (Fr : blocked_until (cnsl_tick s) ip = None) by (rewrite E4; destruct (blocked_until s ip); [destruct Hb; eauto|done]).
  assert (Nt : NOW (cnsl_tick s) = NOW s) by (unfold NOW; by rewrite E3).
  rewrite <- E1, <- E2, <- Nt in *. clear E1 E2 E3 E4 Hb H R Nt. generalize dependent (cnsl_tick s). clear s. intros s.
  intros Ht Hc Hf He H Fr. rewrite (is_blocked_until s) by apply H. rewrite Fr.
  rewrite bool_decide_false by (by intros [? ?]).
  pose proof (find_or_create_spec ip s H) as S. destruct (find_or_create_buf ip s) as [i s1].
  destruct S as (O1 & U1 & B1 & N1 & K1 & [(_ & Hm & _)|(Hi & Ei & New)]); [lia|].
  destruct (Z.ltb_spec i 0); [lia|].
  assert (Hnew : g_ip_count s <= i).
  { destruct (decide (g_ip_count s <= i)); [done|]. destruct (K1 i ltac:(lia)) as [_ Ek]. rewrite Ek in Ei. by destruct (Hf i ltac:(lia)). }
  destruct (first_event_arms i ip kind s1 O1 Hi) as (s2 & Es & A); [|by apply New|].
  { rewrite <- Fr. unfold blocked_until, find_block. by rewrite B1, N1. }
  rewrite Es. assert (Nt : NOW s1 = NOW s) by (unfold NOW; by rewrite U1). rewrite Nt in A.
  destruct (armed_ingest_all i ip (NOW s) evs s2 ltac:(lia) A He) as [A2 R2].
  destruct (ingest_all evs s2) as [rs s3]. cbn [fst snd] in *. split; [done|]. split; [done|].
  rewrite is_blocked_until by apply A2. rewrite (ar_free _ _ _ _ A2). by rewrite bool_decide_false by (by intros [? ?]).
Qed.

(** ** Witnesses *)

Definition attacker : Z := 0x0A000005.
Definition cnsl_boot (uptime : Z) : cnsl := cnsl_init (mk_cnsl [] [] 0 0 uptime audit_init).

(** In the first second after boot the time stamp 0 reads as "never": there a
    honeypot hit and an SSH failure block the address. *)
Definition cnsl_blocked : cnsl :=
  (cnsl_ingest attacker CNSL_KIND_SSH_FAIL (cnsl_ingest attacker CNSL_KIND_FW_HONEYPOT_PORT (cnsl_boot 0)).2).2.

Lemma cnsl_block_list_refines_witness :
  cnsl_is_blocked attacker cnsl_blocked = true /\
  cnsl_get_block_ttl attacker cnsl_blocked = 1800 /\
  blocked_until (cnsl_tick (with_uptime 180000 cnsl_blocked)) attacker = None /\
  (let '(r, s') := cnsl_unblock attacker cnsl_blocked in r = true /\ blocked_until s' attacker = None).
Proof.
  assert (R : cnsl_reach cnsl_blocked) by (apply reach_ingest, reach_ingest, reach_init; cbn; lia).
  assert (R2 : cnsl_reach (with_uptime 180000 cnsl_blocked)) by (apply reach_time; [exact R|lia]).
  assert (E : blocked_until cnsl_blocked attacker = Some 1800) by (vm_compute; reflexivity).
  pose proof (cnsl_block_list_refines cnsl_blocked attacker R) as (A & B & _ & C & _).
  pose proof (cnsl_block_list_refines (with_uptime 180000 cnsl_blocked) attacker R2) as (_ & _ & _ & _ & D & _).
  rewrite E in A, B. split; [exact A|]. split; [exact B|]. split.
  - rewrite D. change (blocked_until (with_uptime 180000 cnsl_blocked) attacker) with (blocked_until cnsl_blocked attacker).
    rewrite E. reflexivity.
  - destruct (cnsl_unblock attacker cnsl_blocked) as [r s']. rewrite E in C. destruct C as (C1 & C2 & _). split; [exact C1|exact C2].
Defined.

(** From the second second on a burst of every kind of event goes unnoticed. *)
Definition burst : list (Z * Z * Z) := (fun k => (1000, attacker, k)) <$> [6; 0; 0; 0; 2; 2; 3; 3; 4; 4; 4; 1; 7; 8; 5].

Lemma cnsl_burst_undetected_witness :
  let '(r, s1) := cnsl_ingest attacker CNSL_KIND_SSH_FAIL (cnsl_boot 1000) in
  let '(rs, s2) := ingest_all burst s1 in
  r = false /\ (forall r', (attacker, r') ∈ rs -> r' = false) /\ cnsl_is_blocked attacker s2 = false.
Proof.
  apply (cnsl_burst_undetected attacker CNSL_KIND_SSH_FAIL burst (cnsl_boot 1000));
    [apply reach_init; cbn; lia|reflexivity|reflexivity|reflexivity|reflexivity|cbn; lia|].
  intros e He. apply list_elem_of_fmap in He as (k & -> & _). cbn [fst]. change (NOW (cnsl_boot 1000)) with 10.
  change (1000 / 100) with 10. unfold CNSL_COOLDOWN. lia.
Defined.

(** Two minutes after the first event the same combination is detected. *)
Example cnsl_detects_after_cooldown :
  let s := (cnsl_ingest attacker CNSL_KIND_FW_HONEYPOT_PORT (cnsl_boot 1000)).2 in
  (cnsl_ingest attacker CNSL_KIND_SSH_FAIL (with_uptime 12999 s)).1 = false /\
  (cnsl_ingest attacker CNSL_KIND_SSH_FAIL (with_uptime 13000 s)).1 = true.
Proof. vm_compute. done. Qed.
