(* ===== verification/Pmm.v ===== *)
(** * Physical memory manager (kernel/mm/pmm.c, kernel/mm/pmm.h)

    A frame database at the bottom of managed memory splits the remaining
    frames into three coloured zones; [pmm_alloc] scans a zone circularly from
    a cursor.  [pmm_inv] ties the per-zone free counters to the frame database;
    it is what makes the scan terminate. *)

From S2P Require Import Prelude.

(** ** Data *)

Inductive mem_zone := ZONE_GREEN | ZONE_YELLOW | ZONE_RED | ZONE_COUNT.

#[export] Instance mem_zone_eq_dec : EqDecision mem_zone.
Proof. solve_decision. Defined.

Definition zone_val (z : mem_zone) : Z :=
  match z with ZONE_GREEN => 0 | ZONE_YELLOW => 1 | ZONE_RED => 2 | ZONE_COUNT => 3 end.

Definition PAGE_SIZE : Z := 4096.
Definition PAGE_SHIFT : Z := 12.
Definition PF_FREE : Z := 1.
Definition PF_LOCKED : Z := 2.
Definition SIZEOF_PAGE_FRAME : Z := 12.

Record page_frame := mk_frame { ref_count : Z; pf_zone : mem_zone; pf_flags : Z }.

(** The all-zero frame that [memset] leaves. *)
Definition zero_frame : page_frame := mk_frame 0 ZONE_GREEN 0.
#[export] Instance page_frame_inhabited : Inhabited page_frame := populate zero_frame.

Record pmm := mk_pmm {
  g_frames : list page_frame;
  g_frame_base : Z;
  g_frame_count : Z;
  g_alloc_start : Z;
  g_zone_cursor : list Z;
  g_zone_free : list Z
}.

Definition phys_to_idx (st : pmm) (phys : Z) : Z :=
  Z.shiftr (u64 (phys - g_frame_base st)) PAGE_SHIFT.

Definition idx_to_phys (st : pmm) (idx : Z) : Z :=
  u64 (g_frame_base st + u64 (Z.shiftl idx PAGE_SHIFT)).

(** ** Initialisation *)

Definition init_frame (db_pages zone_size i : Z) (fs : list page_frame) : list page_frame :=
  let rel := i - db_pages in
  let z := if rel <? zone_size then ZONE_GREEN
           else if rel <? zone_size * 2 then ZONE_YELLOW else ZONE_RED in
  fs.[i <- mk_frame 0 z PF_FREE].

Definition lock_frame (i : Z) (fs : list page_frame) : list page_frame :=
  fs.[i <- mk_frame 1 ZONE_GREEN PF_LOCKED].

Definition pmm_init (mem_base mem_size : Z) : pmm :=
  let frame_count := mem_size / PAGE_SIZE in
  let db_bytes := u64 (frame_count * SIZEOF_PAGE_FRAME) in
  let db_pages := u64 (db_bytes + PAGE_SIZE - 1) / PAGE_SIZE in
  let fs0 := replicate (Z.to_nat frame_count) zero_frame in
  let usable := u64 (frame_count - db_pages) in
  let zone_size := usable / 3 in
  let red_size := u64 (usable - zone_size * 2) in
  let fs1 := for_loop (Z.to_nat (frame_count - db_pages)) db_pages (init_frame db_pages zone_size) fs0 in
  let fs2 := for_loop (Z.to_nat db_pages) 0 lock_frame fs1 in
  mk_pmm fs2 mem_base frame_count db_pages
         [db_pages; db_pages + zone_size; db_pages + zone_size * 2]
         [zone_size; zone_size; red_size].

(** ** Allocation *)

(** The test of the scan loop on one frame. *)
Definition allocatable (z : mem_zone) (f : page_frame) : bool :=
  bool_decide (pf_zone f = z) && negb (Z.land (pf_flags f) PF_FREE =? 0) &&
  (Z.land (pf_flags f) PF_LOCKED =? 0) && (ref_count f =? 0).

(** The body taken when frame [i] passes the test. *)
Definition take_frame (st : pmm) (z : mem_zone) (i : Z) : Z * pmm :=
  let f := (g_frames st).[i] in
  let fs := (g_frames st).[i <- mk_frame 1 (pf_zone f) (u8 (Z.land (pf_flags f) (Z.lnot PF_FREE)))] in
  let c := u64 (i + 1) in
  let c := if g_frame_count st <=? c then g_alloc_start st else c in
  (idx_to_phys st i,
   mk_pmm fs (g_frame_base st) (g_frame_count st) (g_alloc_start st)
          (g_zone_cursor st).[zone_val z <- c]
          (g_zone_free st).[zone_val z <- u64 ((g_zone_free st).[zone_val z] - 1)]).

(** The [do ... while (i != start)] loop; [None] is "still running". *)
Fixpoint alloc_scan (fuel : nat) (st : pmm) (z : mem_zone) (start i : Z) : option (Z * pmm) :=
  match fuel with
  | O => None
  | S fuel' =>
      let i := if g_frame_count st <=? i then g_alloc_start st else i in
      if allocatable z (g_frames st).[i] then Some (take_frame st z i)
      else
        let i := u64 (i + 1) in
        if i =? start then Some (0, st) else alloc_scan fuel' st z start i
  end.

Definition pmm_alloc (fuel : nat) (z : mem_zone) (st : pmm) : option (Z * pmm) :=
  if zone_val ZONE_COUNT <=? zone_val z then Some (0, st)
  else if (g_zone_free st).[zone_val z] =? 0 then Some (0, st)
  else
    let start := (g_zone_cursor st).[zone_val z] in
    alloc_scan fuel st z start start.

(** ** Free, reference, query *)

Definition set_frame (st : pmm) (i : Z) (f : page_frame) : pmm :=
  mk_pmm (g_frames st).[i <- f] (g_frame_base st) (g_frame_count st) (g_alloc_start st)
         (g_zone_cursor st) (g_zone_free st).

Definition add_free (st : pmm) (z : mem_zone) : pmm :=
  mk_pmm (g_frames st) (g_frame_base st) (g_frame_count st) (g_alloc_start st) (g_zone_cursor st)
         (g_zone_free st).[zone_val z <- u64 ((g_zone_free st).[zone_val z] + 1)].

Definition pmm_free (phys : Z) (st : pmm) : pmm :=
  if phys =? 0 then st else
  let idx := phys_to_idx st phys in
  if g_frame_count st <=? idx then st else
  let f := (g_frames st).[idx] in
  if negb (Z.land (pf_flags f) PF_LOCKED =? 0) then st else
  let rc := if 0 <? ref_count f then ref_count f - 1 else ref_count f in
  if rc =? 0 then
    add_free (set_frame st idx (mk_frame rc (pf_zone f) (Z.lor (pf_flags f) PF_FREE))) (pf_zone f)
  else set_frame st idx (mk_frame rc (pf_zone f) (pf_flags f)).

Definition pmm_ref (phys : Z) (st : pmm) : pmm :=
  let idx := phys_to_idx st phys in
  if idx <? g_frame_count st then
    let f := (g_frames st).[idx] in
    set_frame st idx (mk_frame (u32 (ref_count f + 1)) (pf_zone f) (pf_flags f))
  else st.

Definition pmm_zone_of (phys : Z) (st : pmm) : mem_zone :=
  let idx := phys_to_idx st phys in
  if g_frame_count st <=? idx then ZONE_RED else pf_zone (g_frames st).[idx].

Definition pmm_free_pages (z : mem_zone) (st : pmm) : Z :=
  if zone_val ZONE_COUNT <=? zone_val z then 0 else (g_zone_free st).[zone_val z].

Definition pmm_total_pages (st : pmm) : Z := g_frame_count st.

(** ** Invariant *)

(** A frame is free, in use, or locked. *)
Inductive frame_ok : page_frame -> Prop :=
  | frame_free z : z <> ZONE_COUNT -> frame_ok (mk_frame 0 z PF_FREE)
  | frame_used z rc : z <> ZONE_COUNT -> 0 < rc < 2 ^ 32 -> frame_ok (mk_frame rc z 0)
  | frame_locked z rc : z <> ZONE_COUNT -> 0 < rc < 2 ^ 32 -> frame_ok (mk_frame rc z PF_LOCKED).

Record pmm_inv (st : pmm) : Prop := {
  pi_len : zlen (g_frames st) = g_frame_count st;
  pi_start : 0 < g_alloc_start st <= g_frame_count st;
  pi_phys : 0 <= g_frame_base st /\ g_frame_base st + g_frame_count st * PAGE_SIZE <= 2 ^ 64;
  pi_frames : forall i, 0 <= i < g_frame_count st -> frame_ok (g_frames st).[i];
  pi_low : forall i, 0 <= i < g_alloc_start st -> pf_flags (g_frames st).[i] = PF_LOCKED;
  pi_lens : zlen (g_zone_cursor st) = 3 /\ zlen (g_zone_free st) = 3;
  pi_cursor : forall z, z <> ZONE_COUNT ->
    g_alloc_start st <= (g_zone_cursor st).[zone_val z] <= g_frame_count st;
  pi_free : forall z, z <> ZONE_COUNT ->
    (g_zone_free st).[zone_val z] = countb (allocatable z) (g_frames st)
}.

(** Frame [i] is in use: handed out and not yet fully released. *)
Definition in_use (st : pmm) (i : Z) : Prop :=
  g_alloc_start st <= i < g_frame_count st /\ pf_flags (g_frames st).[i] = 0.

(** ** Lemmas *)

Lemma zone_val_range z : z <> ZONE_COUNT -> 0 <= zone_val z < 3.
Proof. destruct z; simpl; (lia || congruence). Qed.

Lemma zone_val_inj z z' : zone_val z = zone_val z' -> z = z'.
Proof. destruct z, z'; simpl; (lia || done). Qed.

Lemma zone_ge z : (zone_val ZONE_COUNT <=? zone_val z) = bool_decide (z = ZONE_COUNT).
Proof. by destruct z. Qed.

Lemma allocatable_ok z f :
  frame_ok f -> allocatable z f = true <-> f = mk_frame 0 z PF_FREE.
Proof.
  intros Hf. unfold allocatable. split.
  - destruct Hf; simpl.
    + rewrite !andb_true_r, bool_decide_eq_true. by intros ->.
    + rewrite !andb_false_r. done.
    + rewrite !andb_false_r. done.
  - intros ->. simpl. by rewrite bool_decide_true.
Qed.

Lemma allocatable_false z f : pf_flags f = 0 -> allocatable z f = false.
Proof. intros E. unfold allocatable. rewrite E. simpl. by rewrite !andb_false_r. Qed.

Lemma allocatable_locked z f : pf_flags f = PF_LOCKED -> allocatable z f = false.
Proof. intros E. unfold allocatable. rewrite E. simpl. by rewrite !andb_false_r. Qed.

Lemma allocatable_free z z' :
  allocatable z (mk_frame 0 z' PF_FREE) = bool_decide (z' = z).
Proof. unfold allocatable. simpl. by rewrite !andb_true_r. Qed.

(** The scan loop depends only on the geometry of the frame array. *)
Section Scan.
Context (st : pmm) (G : 0 < g_alloc_start st <= g_frame_count st /\ g_frame_count st < 2 ^ 64).

(** The scan steps over frames that fail the test ... *)
Lemma scan_skip n z start i k :
  g_alloc_start st <= i -> i + Z.of_nat n <= g_frame_count st ->
  (forall j, i <= j < i + Z.of_nat n -> allocatable z (g_frames st).[j] = false) ->
  ~ (i < start <= i + Z.of_nat n) ->
  alloc_scan (n + k) st z start i = alloc_scan k st z start (i + Z.of_nat n).
Proof.
  revert i. induction n as [|n IH]; intros i Hi Hn Hno Hst.
  - simpl. by rewrite Z.add_0_r.
  - cbn [alloc_scan Nat.add].
    destruct (Z.leb_spec (g_frame_count st) i); [lia|].
    rewrite Hno by lia. rewrite u64_small by lia.
    destruct (Z.eqb_spec (i + 1) start); [lia|].
    rewrite IH; [f_equal; lia|lia|lia| |lia].
    intros j Hj. apply Hno. lia.
Qed.

(** ... and stops at the first one that passes. *)
Lemma scan_hit n z start i k :
  g_alloc_start st <= i -> i + Z.of_nat n < g_frame_count st ->
  (forall j, i <= j < i + Z.of_nat n -> allocatable z (g_frames st).[j] = false) ->
  allocatable z (g_frames st).[i + Z.of_nat n] = true ->
  ~ (i < start <= i + Z.of_nat n) ->
  alloc_scan (n + S k) st z start i = Some (take_frame st z (i + Z.of_nat n)).
Proof.
  intros Hi Hn Hno Hyes Hst. rewrite scan_skip by (done || lia). cbn [alloc_scan].
  destruct (Z.leb_spec (g_frame_count st) (i + Z.of_nat n)); [lia|].
  by rewrite Hyes.
Qed.

Lemma scan_wrap k z start :
  alloc_scan (S k) st z start (g_frame_count st) = alloc_scan (S k) st z start (g_alloc_start st).
Proof.
  cbn [alloc_scan].
  destruct (Z.leb_spec (g_frame_count st) (g_frame_count st)); [|lia].
  destruct (Z.leb_spec (g_frame_count st) (g_alloc_start st)); done.
Qed.

(** A hit of the scan restricted to [[lo, hi)], if that range has one. *)
Lemma scan_range lo hi z start (fuel : nat) :
  g_alloc_start st <= lo -> lo <= hi <= g_frame_count st ->
  (start <= lo \/ hi <= start) -> hi - lo < Z.of_nat fuel ->
  (exists j, lo <= j < hi /\ allocatable z (g_frames st).[j] = true) ->
  exists j, lo <= j < hi /\ allocatable z (g_frames st).[j] = true /\
    alloc_scan fuel st z start lo = Some (take_frame st z j).
Proof.
  intros Hlo Hhi Hst Hf (j0 & Hj0 & Ha0).
  destruct (first_in_range (fun i => allocatable z (g_frames st).[i]) lo (Z.to_nat (hi - lo)))
    as [H|(j & Hj & Ha & Hno)].
  { rewrite H in Ha0 by lia. done. }
  exists j. split; [lia|]. split; [done|].
  pose (n := Z.to_nat (j - lo)). replace fuel with (n + S (fuel - n - 1))%nat by lia.
  rewrite scan_hit.
  - do 2 f_equal. lia.
  - lia.
  - lia.
  - intros i Hi. apply Hno. lia.
  - by replace (lo + Z.of_nat n) with j by lia.
  - lia.
Qed.

(** One full turn finds a free frame when there is one, wherever it starts. *)
Lemma alloc_scan_found z start (fuel : nat) :
  g_alloc_start st <= start <= g_frame_count st -> g_frame_count st + 1 < Z.of_nat fuel ->
  (exists j, g_alloc_start st <= j < g_frame_count st /\ allocatable z (g_frames st).[j] = true) ->
  exists j, g_alloc_start st <= j < g_frame_count st /\ allocatable z (g_frames st).[j] = true /\
    alloc_scan fuel st z start start = Some (take_frame st z j).
Proof.
  intros Hc Hf (j0 & Hj0 & Ha0).
  destruct (first_in_range (fun i => allocatable z (g_frames st).[i]) start
              (Z.to_nat (g_frame_count st - start))) as [Hno|(j & Hj & Ha & _)].
  - pose (n := Z.to_nat (g_frame_count st - start)).
    replace fuel with (n + S (fuel - n - 1))%nat by lia.
    rewrite scan_skip; [|lia|lia|intros; apply Hno; lia|lia].
    replace (start + Z.of_nat n) with (g_frame_count st) by lia. rewrite scan_wrap.
    assert (j0 < start).
    { destruct (Z.ltb_spec j0 start); [done|]. rewrite Hno in Ha0 by lia. done. }
    destruct (scan_range (g_alloc_start st) start z start (S (fuel - n - 1)))
      as (j & Hj & Ha & E); [lia|lia|lia|lia|by exists j0; split; [lia|]|].
    exists j. split; [lia|]. done.
  - destruct (scan_range start (g_frame_count st) z start fuel) as (j' & Hj' & Ha' & E);
      [lia|lia|lia|lia|by exists j; split; [lia|]|].
    exists j'. split; [lia|]. done.
Qed.

(** With the cursor at [g_alloc_start] the exit test [i != start] is never
    met: at the wrap, [i] is reset to [start] without being compared. *)
Lemma alloc_scan_diverges z fuel i :
  (forall j, g_alloc_start st <= j < g_frame_count st -> allocatable z (g_frames st).[j] = false) ->
  g_alloc_start st < g_frame_count st -> g_alloc_start st <= i <= g_frame_count st ->
  alloc_scan fuel st z (g_alloc_start st) i = None.
Proof.
  intros Hno Hlt. revert i. induction fuel as [|fuel IH]; intros i Hi; [done|]. cbn [alloc_scan].
  destruct (Z.leb_spec (g_frame_count st) i).
  - rewrite Hno by lia. rewrite u64_small by lia.
    destruct (Z.eqb_spec (g_alloc_start st + 1) (g_alloc_start st)); [lia|]. apply IH. lia.
  - rewrite Hno by lia. rewrite u64_small by lia.
    destruct (Z.eqb_spec (i + 1) (g_alloc_start st)); [lia|]. apply IH. lia.
Qed.

End Scan.

Section Inv.
Context (st : pmm) (I : pmm_inv st).

Lemma idx_to_phys_eq i :
  0 <= i < g_frame_count st -> idx_to_phys st i = g_frame_base st + i * PAGE_SIZE.
Proof.
  intros Hi. destruct (pi_phys _ I). unfold idx_to_phys, PAGE_SIZE, PAGE_SHIFT in *.
  rewrite shiftl_mul by lia. change (2 ^ 12) with 4096. rewrite (u64_small (i * 4096)) by lia. rewrite u64_small; lia.
Qed.

Lemma phys_idx_roundtrip i :
  0 <= i < g_frame_count st -> phys_to_idx st (idx_to_phys st i) = i.
Proof.
  intros Hi. rewrite idx_to_phys_eq by done. destruct (pi_phys _ I).
  unfold phys_to_idx, PAGE_SIZE, PAGE_SHIFT in *.
  rewrite shiftr_div, u64_small by lia. Z.div_mod_to_equations; lia.
Qed.

Lemma phys_to_idx_nonneg phys : 0 <= phys_to_idx st phys.
Proof.
  unfold phys_to_idx, PAGE_SHIFT. rewrite shiftr_div by lia.
  apply Z.div_pos; [apply u64_range|lia].
Qed.

Lemma frame_count_small : g_frame_count st < 2 ^ 64.
Proof. destruct (pi_phys _ I). unfold PAGE_SIZE in *. lia. Qed.

Lemma free_frame_exists z :
  z <> ZONE_COUNT -> 0 < (g_zone_free st).[zone_val z] ->
  exists j, g_alloc_start st <= j < g_frame_count st /\ allocatable z (g_frames st).[j] = true.
Proof.
  intros Hz Hpos. rewrite (pi_free _ I z Hz) in Hpos.
  destruct (countb_pos _ _ Hpos) as (j & Hj & Ha). rewrite (pi_len _ I) in Hj.
  exists j. split; [|done]. destruct (Z.ltb_spec j (g_alloc_start st)); [|lia].
  rewrite (allocatable_locked z) in Ha; [done|]. apply (pi_low _ I). lia.
Qed.

(** Enough fuel: one full turn over the frames. *)
Lemma alloc_scan_total z (fuel : nat) :
  z <> ZONE_COUNT -> 0 < (g_zone_free st).[zone_val z] -> g_frame_count st + 1 < Z.of_nat fuel ->
  exists j, g_alloc_start st <= j < g_frame_count st /\ allocatable z (g_frames st).[j] = true /\
    pmm_alloc fuel z st = Some (take_frame st z j).
Proof.
  intros Hz Hpos Hf. unfold pmm_alloc. rewrite zone_ge, bool_decide_false by done.
  destruct (Z.eqb_spec (g_zone_free st).[zone_val z] 0) as [|_]; [lia|].
  pose proof (pi_start _ I). pose proof frame_count_small.
  apply alloc_scan_found; [lia|by apply (pi_cursor _ I)|done|by apply free_frame_exists].
Qed.

End Inv.

(** Replacing one allocatable-range frame, with the counters moved along. *)
Lemma pmm_inv_update st j f cur fr :
  pmm_inv st -> g_alloc_start st <= j < g_frame_count st -> frame_ok f ->
  zlen cur = 3 -> zlen fr = 3 ->
  (forall z, z <> ZONE_COUNT -> g_alloc_start st <= cur.[zone_val z] <= g_frame_count st) ->
  (forall z, z <> ZONE_COUNT -> fr.[zone_val z] = (g_zone_free st).[zone_val z]
     - Z.b2z (allocatable z (g_frames st).[j]) + Z.b2z (allocatable z f)) ->
  pmm_inv (mk_pmm (g_frames st).[j <- f] (g_frame_base st) (g_frame_count st)
             (g_alloc_start st) cur fr).
Proof.
  intros I Hj Hf Hcl Hfl Hc Hfr. pose proof (pi_start _ I). pose proof (pi_len _ I) as Hl.
  constructor; cbn [g_frames g_frame_base g_frame_count g_alloc_start g_zone_cursor g_zone_free].
  - by rewrite zlen_zset.
  - done.
  - apply (pi_phys _ I).
  - intros i Hi. destruct (decide (i = j)) as [->|].
    + rewrite zget_zset_eq by lia. done.
    + rewrite zget_zset_ne by lia. apply (pi_frames _ I). lia.
  - intros i Hi. rewrite zget_zset_ne by lia. apply (pi_low _ I). lia.
  - done.
  - done.
  - intros z Hz. rewrite Hfr, countb_zset, (pi_free _ I) by (done || lia). done.
Qed.

Lemma zone_counter_update (l : list Z) z v z' :
  zlen l = 3 -> z <> ZONE_COUNT -> z' <> ZONE_COUNT ->
  (l.[zone_val z <- v]).[zone_val z'] = if decide (z' = z) then v else l.[zone_val z'].
Proof.
  intros Hl Hz Hz'. apply zone_val_range in Hz as ?, Hz' as ?.
  case_decide as E; [subst; apply zget_zset_eq; lia|].
  apply zget_zset_ne; [lia|lia|]. intros Hv. by apply zone_val_inj in Hv.
Qed.

Lemma zone_free_range st z :
  pmm_inv st -> z <> ZONE_COUNT -> 0 <= (g_zone_free st).[zone_val z] < 2 ^ 64.
Proof.
  intros I Hz. rewrite (pi_free _ I) by done.
  pose proof (countb_range (allocatable z) (g_frames st)) as Hr.
  rewrite (pi_len _ I) in Hr. pose proof (frame_count_small st I). lia.
Qed.

Lemma take_frame_eq st z j :
  pmm_inv st -> g_alloc_start st <= j < g_frame_count st ->
  allocatable z (g_frames st).[j] = true ->
  g_frames (take_frame st z j).2 = (g_frames st).[j <- mk_frame 1 z 0] /\
  (g_frames st).[j] = mk_frame 0 z PF_FREE.
Proof.
  intros I Hj Ha. pose proof (pi_start _ I).
  apply allocatable_ok in Ha; [|apply (pi_frames _ I); lia].
  unfold take_frame. cbn [snd g_frames]. rewrite Ha. done.
Qed.

Lemma take_frame_inv st z j :
  pmm_inv st -> z <> ZONE_COUNT -> g_alloc_start st <= j < g_frame_count st ->
  allocatable z (g_frames st).[j] = true -> pmm_inv (take_frame st z j).2.
Proof.
  intros I Hz Hj Ha. pose proof (pi_start _ I). pose proof (frame_count_small st I) as Hfc.
  destruct (pi_lens _ I) as [Hc3 Hf3].
  destruct (take_frame_eq st z j I Hj Ha) as [_ Hfr].
  unfold take_frame. cbn [snd]. rewrite Hfr. cbn [pf_zone pf_flags].
  change (u8 (Z.land PF_FREE (Z.lnot PF_FREE))) with 0.
  rewrite (u64_small (j + 1)) by lia.
  apply pmm_inv_update; rewrite ?zlen_zset; try done.
  - constructor; [done|lia].
  - intros z' Hz'. rewrite zone_counter_update by done. case_decide.
    + destruct (Z.leb_spec (g_frame_count st) (j + 1)); lia.
    + by apply (pi_cursor _ I).
  - intros z' Hz'. rewrite zone_counter_update by done. rewrite Hfr, allocatable_free.
    rewrite (allocatable_false z') by done. cbn [Z.b2z].
    assert (Hpos : 0 < (g_zone_free st).[zone_val z]).
    { rewrite (pi_free _ I) by done.
      destruct (Z.ltb_spec 0 (countb (allocatable z) (g_frames st))); [done|].
      rewrite (countb_zero (allocatable z)) in Ha; [done| |rewrite (pi_len _ I); lia].
      pose proof (countb_range (allocatable z) (g_frames st)). lia. }
    pose proof (zone_free_range st z I Hz). case_decide.
    + subst. rewrite bool_decide_true by done. simpl Z.b2z. rewrite u64_small; lia.
    + rewrite bool_decide_false by congruence. simpl Z.b2z. lia.
Qed.

Lemma pmm_inv_nonzero st j :
  pmm_inv st -> g_alloc_start st <= j < g_frame_count st -> idx_to_phys st j <> 0.
Proof.
  intros I Hj. pose proof (pi_start _ I). destruct (pi_phys _ I).
  rewrite idx_to_phys_eq by (done || lia). unfold PAGE_SIZE. lia.
Qed.

(** Releasing one reference to a frame in use. *)
Lemma pmm_free_in_use st j :
  pmm_inv st -> in_use st j ->
  let f := (g_frames st).[j] in
  let st' := pmm_free (idx_to_phys st j) st in
  g_frames st' = (g_frames st).[j <- if ref_count f =? 1 then mk_frame 0 (pf_zone f) PF_FREE
                                     else mk_frame (ref_count f - 1) (pf_zone f) 0] /\
  pmm_inv st'.
Proof.
  intros I [Hj Hu] f st'. pose proof (pi_start _ I). destruct (pi_lens _ I) as [Hc3 Hf3].
  assert (Hok : frame_ok f) by (apply (pi_frames _ I); lia).
  unfold st', pmm_free. destruct (Z.eqb_spec (idx_to_phys st j) 0) as [E|_].
  { by apply pmm_inv_nonzero in E. }
  rewrite phys_idx_roundtrip by (done || lia).
  destruct (Z.leb_spec (g_frame_count st) j); [lia|]. fold f.
  unfold f in Hu. fold f in Hu. inversion Hok as [z ? E|z rc Hz Hrc E|z rc ? ? E];
    rewrite <- E in Hu; try done.
  cbn [pf_flags pf_zone ref_count]. change (negb (Z.land 0 PF_LOCKED =? 0)) with false.
  cbv iota. destruct (Z.ltb_spec 0 rc); [|lia].
  assert (Hold : forall z', allocatable z' (g_frames st).[j] = false).
  { intros z'. fold f. rewrite <- E. by apply allocatable_false. }
  destruct (Z.eqb_spec rc 1) as [->|Hne].
  - change (1 - 1 =? 0) with true. cbv iota. split; [done|].
    apply (pmm_inv_update st j); rewrite ?zlen_zset; try done.
    + by constructor.
    + apply (pi_cursor _ I).
    + intros z' Hz'. cbn [set_frame g_zone_free]. rewrite zone_counter_update by done.
      rewrite Hold, allocatable_free. pose proof (zone_free_range st z I Hz) as Hr.
      case_decide as Ez; [subst; rewrite bool_decide_true by done
                         |rewrite bool_decide_false by congruence; simpl; lia].
      assert (countb (allocatable z) (g_frames st) < g_frame_count st).
      { pose proof (countb_zset (allocatable z) (g_frames st) j (mk_frame 0 z PF_FREE)) as Hcz.
        rewrite Hold, allocatable_free, bool_decide_true, (pi_len _ I) in Hcz by done.
        pose proof (countb_range (allocatable z) (zset (g_frames st) j (mk_frame 0 z PF_FREE))) as Hcr.
        rewrite zlen_zset, (pi_len _ I) in Hcr. simpl Z.b2z in Hcz. lia. }
      rewrite (pi_free _ I) in * by done. pose proof (frame_count_small st I).
      simpl Z.b2z. rewrite u64_small; lia.
  - destruct (Z.eqb_spec (rc - 1) 0); [lia|]. split; [done|].
    apply (pmm_inv_update st j); try done.
    + constructor; [done|lia].
    + apply (pi_cursor _ I).
    + intros z' Hz'. rewrite Hold, (allocatable_false z') by done. simpl. lia.
Qed.

(** ** Boot *)

Definition db_pages_of (frame_count : Z) : Z := (frame_count * SIZEOF_PAGE_FRAME + PAGE_SIZE - 1) / PAGE_SIZE.

(** The frame database after boot: the frames holding the database itself,
    then the green, yellow and red zones. *)
Definition boot_frames (frame_count : Z) : list page_frame :=
  let db := db_pages_of frame_count in
  let zs := (frame_count - db) / 3 in
  replicate (Z.to_nat db) (mk_frame 1 ZONE_GREEN PF_LOCKED) ++
  replicate (Z.to_nat zs) (mk_frame 0 ZONE_GREEN PF_FREE) ++
  replicate (Z.to_nat zs) (mk_frame 0 ZONE_YELLOW PF_FREE) ++
  replicate (Z.to_nat (frame_count - db - zs * 2)) (mk_frame 0 ZONE_RED PF_FREE).

Lemma db_pages_range fc : 0 < fc -> 0 < db_pages_of fc <= fc.
Proof. unfold db_pages_of, SIZEOF_PAGE_FRAME, PAGE_SIZE. intros. Z.div_mod_to_equations; lia. Qed.

Lemma init_frames_loop fc db zs :
  0 <= db <= fc ->
  let fs := for_loop (Z.to_nat (fc - db)) db (init_frame db zs) (replicate (Z.to_nat fc) zero_frame) in
  zlen fs = fc /\
  forall k, db <= k < fc -> fs.[k] = mk_frame 0 (if k - db <? zs then ZONE_GREEN
    else if k - db <? zs * 2 then ZONE_YELLOW else ZONE_RED) PF_FREE.
Proof.
  intros Hdb fs.
  pose proof (for_loop_ind (fun i fs => zlen fs = fc /\ forall k, db <= k < i -> fs.[k] =
    mk_frame 0 (if k - db <? zs then ZONE_GREEN else if k - db <? zs * 2 then ZONE_YELLOW
    else ZONE_RED) PF_FREE) (Z.to_nat (fc - db)) db (init_frame db zs)
    (replicate (Z.to_nat fc) zero_frame)) as H.
  replace (db + Z.of_nat (Z.to_nat (fc - db))) with fc in H by lia. apply H.
  - split; [apply zlen_replicate; lia|lia].
  - intros j l Hj [Hl Hk]. unfold init_frame. rewrite zlen_zset. split; [done|].
    intros k Hkj. destruct (decide (k = j)) as [->|].
    + apply zget_zset_eq. lia.
    + rewrite zget_zset_ne by lia. apply Hk. lia.
Qed.

Lemma lock_frames_loop fs db :
  0 <= db <= zlen fs ->
  let fs' := for_loop (Z.to_nat db) 0 lock_frame fs in
  zlen fs' = zlen fs /\
  forall k, 0 <= k < zlen fs -> fs'.[k] = if k <? db then mk_frame 1 ZONE_GREEN PF_LOCKED else fs.[k].
Proof.
  intros Hdb fs'.
  pose proof (for_loop_ind (fun i fs' => zlen fs' = zlen fs /\ forall k, 0 <= k < zlen fs -> fs'.[k] =
    if k <? i then mk_frame 1 ZONE_GREEN PF_LOCKED else fs.[k]) (Z.to_nat db) 0 lock_frame fs) as H.
  replace (0 + Z.of_nat (Z.to_nat db)) with db in H by lia. apply H.
  - split; [done|]. intros k Hk. destruct (Z.ltb_spec k 0); [lia|done].
  - intros j l Hj [Hl Hk]. unfold lock_frame. rewrite zlen_zset. split; [done|].
    intros k Hkj. destruct (decide (k = j)) as [->|].
    + rewrite zget_zset_eq by lia. destruct (Z.ltb_spec j (j + 1)); [done|lia].
    + rewrite zget_zset_ne by lia. rewrite Hk by lia.
      destruct (Z.ltb_spec k j), (Z.ltb_spec k (j + 1)); done || lia.
Qed.

Lemma boot_frames_get fc i :
  0 < fc -> 0 <= i < fc ->
  (boot_frames fc).[i] =
    if i <? db_pages_of fc then mk_frame 1 ZONE_GREEN PF_LOCKED
    else mk_frame 0 (if i - db_pages_of fc <? (fc - db_pages_of fc) / 3 then ZONE_GREEN
      else if i - db_pages_of fc <? (fc - db_pages_of fc) / 3 * 2 then ZONE_YELLOW
      else ZONE_RED) PF_FREE.
Proof.
  intros Hfc Hi. pose proof (db_pages_range fc Hfc). unfold boot_frames.
  set (db := db_pages_of fc) in *. set (zs := (fc - db) / 3).
  assert (Hzs : 0 <= zs * 2 <= fc - db) by (unfold zs; Z.div_mod_to_equations; lia).
  rewrite zget_app, zlen_replicate by lia.
  destruct (Z.ltb_spec i db); [apply zget_replicate; lia|].
  rewrite zget_app, zlen_replicate by lia.
  destruct (Z.ltb_spec (i - db) zs); [apply zget_replicate; lia|].
  rewrite zget_app, zlen_replicate by lia.
  destruct (Z.ltb_spec (i - db - zs) zs), (Z.ltb_spec (i - db) (zs * 2));
    (lia || (apply zget_replicate; lia)).
Qed.

Lemma zlen_boot_frames fc : 0 < fc -> zlen (boot_frames fc) = fc.
Proof.
  intros Hfc. pose proof (db_pages_range fc Hfc). unfold boot_frames.
  assert (0 <= (fc - db_pages_of fc) / 3 * 2 <= fc - db_pages_of fc) by (Z.div_mod_to_equations; lia).
  rewrite !zlen_app, !zlen_replicate; lia.
Qed.

Lemma pmm_init_frames mem_base mem_size :
  PAGE_SIZE <= mem_size -> mem_size <= 2 ^ 64 ->
  let fc := mem_size / PAGE_SIZE in
  let zs := (fc - db_pages_of fc) / 3 in
  pmm_init mem_base mem_size =
    mk_pmm (boot_frames fc) mem_base fc (db_pages_of fc)
      [db_pages_of fc; db_pages_of fc + zs; db_pages_of fc + zs * 2]
      [zs; zs; fc - db_pages_of fc - zs * 2].
Proof.
  intros H1 H2 fc zs. assert (Hfc : 0 < fc < 2 ^ 53).
  { unfold fc, PAGE_SIZE in *. Z.div_mod_to_equations; lia. }
  pose proof (db_pages_range fc ltac:(lia)) as Hdb. unfold pmm_init. fold fc.
  assert (Hbytes : u64 (fc * SIZEOF_PAGE_FRAME) = fc * SIZEOF_PAGE_FRAME).
  { apply u64_small. unfold SIZEOF_PAGE_FRAME. lia. }
  rewrite Hbytes, (u64_small (fc * SIZEOF_PAGE_FRAME + PAGE_SIZE - 1))
    by (unfold SIZEOF_PAGE_FRAME, PAGE_SIZE; lia).
  fold (db_pages_of fc). rewrite (u64_small (fc - db_pages_of fc)) by lia. fold zs.
  assert (Hzs : 0 <= zs * 2 <= fc - db_pages_of fc) by (unfold zs; Z.div_mod_to_equations; lia).
  rewrite u64_small by lia. f_equal.
  destruct (init_frames_loop fc (db_pages_of fc) zs ltac:(lia)) as [Hl1 Hg1].
  pose proof (lock_frames_loop _ (db_pages_of fc) ltac:(rewrite Hl1; lia)) as [Hl2 Hg2].
  rewrite Hl1 in Hl2, Hg2. apply list_eq_zget; [rewrite Hl2, zlen_boot_frames; lia|].
  rewrite Hl2. intros i Hi. rewrite Hg2, boot_frames_get by lia.
  destruct (Z.ltb_spec i (db_pages_of fc)); [done|]. rewrite Hg1 by lia. done.
Qed.

Lemma pmm_init_inv mem_base mem_size :
  0 <= mem_base -> PAGE_SIZE <= mem_size -> mem_base + mem_size <= 2 ^ 64 ->
  pmm_inv (pmm_init mem_base mem_size).
Proof.
  intros H0 H1 H2. rewrite pmm_init_frames by lia.
  set (fc := mem_size / PAGE_SIZE). assert (Hfc : 0 < fc /\ fc * PAGE_SIZE <= mem_size).
  { unfold fc, PAGE_SIZE in *. Z.div_mod_to_equations; lia. }
  pose proof (db_pages_range fc ltac:(lia)) as Hdb.
  set (zs := (fc - db_pages_of fc) / 3).
  assert (Hzs : 0 <= zs * 2 <= fc - db_pages_of fc) by (unfold zs; Z.div_mod_to_equations; lia).
  constructor; cbn [g_frames g_frame_base g_frame_count g_alloc_start g_zone_cursor g_zone_free].
  - apply zlen_boot_frames. lia.
  - done.
  - unfold PAGE_SIZE in *. lia.
  - intros i Hi. rewrite boot_frames_get by lia. destruct (Z.ltb_spec i (db_pages_of fc)).
    + constructor; [done|lia].
    + constructor. repeat case_match; done.
  - intros i Hi. rewrite boot_frames_get by lia. destruct (Z.ltb_spec i (db_pages_of fc)); [done|lia].
  - done.
  - intros z Hz. destruct z; try done; simpl; unfold zget; simpl; lia.
  - intros z Hz. unfold boot_frames. fold zs. rewrite !countb_app, !countb_replicate by lia.
    destruct z; try done; simpl; unfold zget; simpl; lia.
Qed.

(** ** Reachable states *)

(** Boot, then any calls that respect ownership: frees and references only
    name frames that are in use. *)
Inductive pmm_step : pmm -> pmm -> Prop :=
  | step_alloc st z fuel r st' :
      pmm_alloc fuel z st = Some (r, st') -> pmm_step st st'
  | step_free st j :
      in_use st j -> pmm_step st (pmm_free (idx_to_phys st j) st)
  | step_ref st j :
      in_use st j -> ref_count (g_frames st).[j] < 2 ^ 32 - 1 ->
      pmm_step st (pmm_ref (idx_to_phys st j) st).

Inductive pmm_reachable (mem_base mem_size : Z) : pmm -> Prop :=
  | reach_boot : pmm_reachable mem_base mem_size (pmm_init mem_base mem_size)
  | reach_step st st' :
      pmm_reachable mem_base mem_size st -> pmm_step st st' -> pmm_reachable mem_base mem_size st'.

Lemma alloc_scan_inv fuel st z start i r st' :
  pmm_inv st -> z <> ZONE_COUNT -> g_alloc_start st <= i <= g_frame_count st ->
  g_alloc_start st < g_frame_count st ->
  alloc_scan fuel st z start i = Some (r, st') -> pmm_inv st'.
Proof.
  intros I Hz. revert i. induction fuel as [|fuel IH]; intros i Hi Hlt H; [done|].
  cbn [alloc_scan] in H. pose proof (frame_count_small st I).
  set (i' := if g_frame_count st <=? i then g_alloc_start st else i) in H.
  assert (Hi' : g_alloc_start st <= i' < g_frame_count st).
  { unfold i'. destruct (Z.leb_spec (g_frame_count st) i); lia. }
  pose proof (pi_start _ I).
  destruct (allocatable z (g_frames st).[i']) eqn:E.
  - apply (f_equal (option_map snd)) in H. cbn [option_map snd] in H. injection H as <-.
    by apply take_frame_inv.
  - rewrite u64_small in H by lia. destruct (i' + 1 =? start); [congruence|].
    apply (IH (i' + 1)); [lia|done|done].
Qed.

Lemma pmm_alloc_inv fuel st z r st' :
  pmm_inv st -> pmm_alloc fuel z st = Some (r, st') -> pmm_inv st'.
Proof.
  intros I. unfold pmm_alloc. rewrite zone_ge. case_bool_decide as Hz; [congruence|].
  destruct (Z.eqb_spec (g_zone_free st).[zone_val z] 0); [congruence|].
  apply alloc_scan_inv; [done|done|by apply (pi_cursor _ I)|].
  pose proof (zone_free_range st z I Hz).
  destruct (free_frame_exists st I z Hz ltac:(lia)) as (j & Hj & _). lia.
Qed.

Lemma pmm_ref_inv st j :
  pmm_inv st -> in_use st j -> ref_count (g_frames st).[j] < 2 ^ 32 - 1 ->
  pmm_inv (pmm_ref (idx_to_phys st j) st).
Proof.
  intros I [Hj Hu] Hrc. pose proof (pi_start _ I). unfold pmm_ref.
  rewrite phys_idx_roundtrip by (done || lia).
  destruct (Z.ltb_spec j (g_frame_count st)); [|lia].
  assert (Hok : frame_ok (g_frames st).[j]) by (apply (pi_frames _ I); lia).
  apply (pmm_inv_update st j); try done; [|apply (pi_lens _ I)|apply (pi_lens _ I)
                                          |apply (pi_cursor _ I)|].
  - destruct Hok as [z ?|z rc Hz Hrc'|z rc ? ?]; try done. cbn [ref_count pf_zone pf_flags] in *.
    rewrite u32_small by lia. constructor; [done|lia].
  - intros z' Hz'. rewrite !(allocatable_false z') by done. lia.
Qed.

(** C2: every state of the physical memory manager reachable from boot by
    allocations and by frees and references of frames in use satisfies the
    invariant: the frame database is well formed, the database's own frames
    stay locked, the cursors stay in range, and each zone's free counter
    equals the number of free frames of that zone. *)
Theorem pmm_reachable_inv mem_base mem_size st :
  0 <= mem_base -> PAGE_SIZE <= mem_size -> mem_base + mem_size <= 2 ^ 64 ->
  pmm_reachable mem_base mem_size st -> pmm_inv st.
Proof.
  intros H0 H1 H2. induction 1 as [|st st' _ I Hs]; [by apply pmm_init_inv|].
  destruct Hs as [st z fuel r st' H|st j Hu|st j Hu Hrc].
  - by eapply pmm_alloc_inv.
  - by apply pmm_free_in_use.
  - by apply pmm_ref_inv.
Qed.

Lemma pmm_reachable_inv_witness : pmm_inv (pmm_init 0x100000 0x8000).
Proof.
  apply (pmm_reachable_inv 0x100000 0x8000); [lia|unfold PAGE_SIZE; lia|lia|constructor].
Defined.

(** C3: allocation is total and correct.  In a state satisfying the invariant,
    with one full turn of fuel, [pmm_alloc] returns: 0 and an unchanged state
    if the zone has no free frame; otherwise the non-zero address of a frame
    that was free in that zone, which is now in use with one reference, every
    other frame is untouched, the zone's counter drops by one, and the
    invariant still holds. *)
Theorem pmm_alloc_correct st z (fuel : nat) :
  pmm_inv st -> z <> ZONE_COUNT -> g_frame_count st + 1 < Z.of_nat fuel ->
  (pmm_free_pages z st = 0 -> pmm_alloc fuel z st = Some (0, st)) /\
  (pmm_free_pages z st <> 0 -> exists j st',
     pmm_alloc fuel z st = Some (idx_to_phys st j, st') /\
     g_alloc_start st <= j < g_frame_count st /\
     (g_frames st).[j] = mk_frame 0 z PF_FREE /\
     g_frames st' = (g_frames st).[j <- mk_frame 1 z 0] /\
     idx_to_phys st j <> 0 /\ pmm_inv st' /\
     pmm_free_pages z st' = pmm_free_pages z st - 1).
Proof.
  intros I Hz Hf. unfold pmm_free_pages. rewrite zone_ge, bool_decide_false by done. split.
  - intros E. unfold pmm_alloc. by rewrite zone_ge, bool_decide_false, E.
  - intros Hne. pose proof (zone_free_range st z I Hz) as Hr.
    destruct (alloc_scan_total st I z fuel Hz ltac:(lia) Hf) as (j & Hj & Ha & E).
    destruct (take_frame_eq st z j I Hj Ha) as [Hfs Hfr].
    exists j, (take_frame st z j).2. split_and!; try (done || lia).
    + by apply pmm_inv_nonzero.
    + by apply take_frame_inv.
    + destruct (pi_lens _ I). unfold take_frame. cbn [snd g_zone_free].
      rewrite zone_counter_update, decide_True by done. apply u64_small. lia.
Qed.

Lemma pmm_alloc_correct_witness :
  pmm_inv (pmm_init 0x100000 0x8000) /\
  exists j st', pmm_alloc 10 ZONE_RED (pmm_init 0x100000 0x8000) =
    Some (idx_to_phys (pmm_init 0x100000 0x8000) j, st') /\ pmm_inv st'.
Proof.
  assert (I : pmm_inv (pmm_init 0x100000 0x8000)) by (apply pmm_init_inv; unfold PAGE_SIZE; lia).
  split; [done|].
  destruct (pmm_alloc_correct _ ZONE_RED 10 I ltac:(done) ltac:(vm_compute; reflexivity)) as [_ H].
  destruct H as (j & st' & E & _ & _ & _ & _ & I' & _); [vm_compute; congruence|].
  exists j, st'. done.
Defined.

(** Freeing undoes allocation.  After [pmm_alloc] hands out a frame,
    [pmm_free] of the returned address gives back the same frame database and
    the same free counters (only the zone's cursor has moved). *)
Theorem pmm_alloc_free_roundtrip st z (fuel : nat) :
  pmm_inv st -> z <> ZONE_COUNT -> g_frame_count st + 1 < Z.of_nat fuel ->
  pmm_free_pages z st <> 0 ->
  exists phys st', pmm_alloc fuel z st = Some (phys, st') /\
    g_frames (pmm_free phys st') = g_frames st /\
    g_zone_free (pmm_free phys st') = g_zone_free st /\
    pmm_inv (pmm_free phys st').
Proof.
  intros I Hz Hf Hne. unfold pmm_free_pages in Hne. rewrite zone_ge, bool_decide_false in Hne by done.
  pose proof (zone_free_range st z I Hz) as Hr. pose proof (pi_start _ I).
  destruct (alloc_scan_total st I z fuel Hz ltac:(lia) Hf) as (j & Hj & Ha & E).
  destruct (take_frame_eq st z j I Hj Ha) as [Hfs Hfr].
  pose proof (take_frame_inv st z j I Hz Hj Ha) as I'. pose proof (pi_len _ I) as Hl.
  set (st' := (take_frame st z j).2) in *.
  assert (Hg : (g_frames st').[j] = mk_frame 1 z 0) by (rewrite Hfs; apply zget_zset_eq; lia).
  assert (Hu : in_use st' j) by (split; [done|by rewrite Hg]).
  exists (idx_to_phys st j), st'. split; [done|].
  change (idx_to_phys st j) with (idx_to_phys st' j).
  destruct (pmm_free_in_use st' j I' Hu) as [Hfs' I'']. rewrite Hg in Hfs'.
  cbn [ref_count pf_zone] in Hfs'. change (1 =? 1) with true in Hfs'. cbv iota in Hfs'.
  assert (Hback : g_frames (pmm_free (idx_to_phys st' j) st') = g_frames st).
  { rewrite Hfs', Hfs, <- Hfr. unfold zset. rewrite list_insert_insert_eq.
    apply list_insert_id. apply zget_lookup. lia. }
  split_and!; [done| |done]. destruct (pi_lens _ I) as [_ H3]. apply list_eq_zget; destruct (pi_lens _ I'') as [_ H3'].
  - lia.
  - rewrite H3'. intros i Hi. assert (Hzz : exists z', z' <> ZONE_COUNT /\ i = zone_val z').
    { destruct (decide (i = 0)); [by exists ZONE_GREEN|]. destruct (decide (i = 1)); [by exists ZONE_YELLOW|].
      exists ZONE_RED. split; [done|simpl; lia]. }
    destruct Hzz as (z' & Hz' & ->). rewrite (pi_free _ I''), (pi_free _ I) by done.
    by rewrite Hback.
Qed.

Lemma pmm_alloc_free_roundtrip_witness :
  exists phys st', pmm_alloc 10 ZONE_YELLOW (pmm_init 0x100000 0x8000) = Some (phys, st') /\
    g_frames (pmm_free phys st') = g_frames (pmm_init 0x100000 0x8000).
Proof.
  destruct (pmm_alloc_free_roundtrip (pmm_init 0x100000 0x8000) ZONE_YELLOW 10) as (phys & st' & E & Hf & _).
  - apply pmm_init_inv; unfold PAGE_SIZE; lia.
  - done.
  - vm_compute. reflexivity.
  - vm_compute. congruence.
  - exists phys, st'. done.
Defined.

(** ** Double free *)

(** Freeing a frame that is already free leaves the frames alone but counts it
    again. *)
Lemma pmm_free_twice st j z :
  pmm_inv st -> g_alloc_start st <= j < g_frame_count st -> (g_frames st).[j] = mk_frame 0 z PF_FREE ->
  pmm_free (idx_to_phys st j) st = add_free st z.
Proof.
  intros I Hj Hf. pose proof (pi_start _ I). unfold pmm_free.
  destruct (Z.eqb_spec (idx_to_phys st j) 0) as [E|_]; [by apply pmm_inv_nonzero in E|].
  rewrite phys_idx_roundtrip by (done || lia).
  destruct (Z.leb_spec (g_frame_count st) j); [lia|]. rewrite Hf.
  cbn [pf_flags pf_zone ref_count]. change (negb (Z.land PF_FREE PF_LOCKED =? 0)) with false.
  change (0 <? 0) with false. change (0 =? 0) with true. cbv iota.
  change (Z.lor PF_FREE PF_FREE) with PF_FREE. f_equal. unfold set_frame.
  assert (E : (g_frames st).[j <- mk_frame 0 z PF_FREE] = g_frames st).
  { apply list_insert_id. rewrite <- Hf. apply zget_lookup. rewrite (pi_len _ I). lia. }
  rewrite E. by destruct st.
Qed.

Section Phantom.
(** A well-formed state whose zone [z] has one free frame, the last one. *)
Context (st : pmm) (z : mem_zone) (I : pmm_inv st) (Hz : z <> ZONE_COUNT).
Let j := g_frame_count st - 1.
Context (Hj : g_alloc_start st < j) (Hone : (g_zone_free st).[zone_val z] = 1)
        (Hfj : (g_frames st).[j] = mk_frame 0 z PF_FREE).

Lemma phantom_only i :
  g_alloc_start st <= i < g_frame_count st -> i <> j -> allocatable z (g_frames st).[i] = false.
Proof.
  intros Hi Hij. pose proof (pi_start _ I). pose proof (pi_len _ I).
  rewrite (pi_free _ I) in Hone by done.
  pose proof (countb_zset (allocatable z) (g_frames st) j (mk_frame 1 z 0) ltac:(lia)) as Hc.
  rewrite Hone, Hfj, allocatable_free, bool_decide_true, (allocatable_false z (mk_frame 1 z 0)) in Hc by done.
  rewrite <- (zget_zset_ne _ j i (mk_frame 1 z 0)) by lia.
  apply countb_zero; [exact Hc|rewrite zlen_zset; lia].
Qed.

Lemma phantom_first_alloc (fuel : nat) :
  g_frame_count st + 1 < Z.of_nat fuel ->
  pmm_alloc fuel z (add_free st z) = Some (take_frame (add_free st z) z j).
Proof.
  intros Hf. pose proof (pi_start _ I). pose proof (frame_count_small st I). destruct (pi_lens _ I) as [_ H3].
  unfold pmm_alloc. rewrite zone_ge, bool_decide_false by done. cbn [add_free g_zone_free g_zone_cursor].
  rewrite zone_counter_update, decide_True, Hone by done. change (u64 (1 + 1) =? 0) with false. cbv iota.
  destruct (alloc_scan_found (add_free st z) ltac:(cbn; lia) z (g_zone_cursor st).[zone_val z] fuel)
    as (i & Hi & Ha & E); [by apply (pi_cursor _ I)|done| |].
  - exists j. cbn [add_free g_frames g_frame_count g_alloc_start]. split; [lia|].
    by rewrite Hfj, allocatable_free, bool_decide_true.
  - cbn [add_free g_frames g_frame_count g_alloc_start] in Hi, Ha.
    destruct (decide (i = j)) as [->|Hij]; [exact E|]. rewrite phantom_only in Ha by done. done.
Qed.

Lemma phantom_second_alloc fuel : pmm_alloc fuel z (take_frame (add_free st z) z j).2 = None.
Proof.
  pose proof (pi_start _ I). pose proof (frame_count_small st I). destruct (pi_lens _ I) as [Hc3 H3].
  pose proof (pi_len _ I).
  unfold pmm_alloc, take_frame. rewrite zone_ge, bool_decide_false by done.
  cbn [snd add_free g_zone_free g_zone_cursor g_frame_count g_alloc_start g_frames].
  rewrite !zone_counter_update, !decide_True, Hone by (rewrite ?zlen_zset; done).
  change (u64 (u64 (1 + 1) - 1) =? 0) with false. cbv iota.
  rewrite u64_small by lia. destruct (Z.leb_spec (g_frame_count st) (j + 1)); [|lia].
  apply (alloc_scan_diverges (mk_pmm _ _ _ (g_alloc_start st) _ _));
    cbn [g_frames g_frame_count g_alloc_start]; try lia.
  intros i Hi. destruct (decide (i = j)) as [->|Hij].
  - rewrite zget_zset_eq by lia. apply allocatable_false. by rewrite Hfj.
  - rewrite zget_zset_ne by lia. by apply phantom_only.
Qed.
End Phantom.

(** Geometry is not touched by [pmm_free]. *)
Lemma pmm_free_geom p st :
  g_frame_count (pmm_free p st) = g_frame_count st /\
  g_alloc_start (pmm_free p st) = g_alloc_start st /\
  g_frame_base (pmm_free p st) = g_frame_base st.
Proof. unfold pmm_free. repeat case_match; done. Qed.

(** A double free hangs the kernel.  Take a zone that is exhausted and
    whose highest frame, the last of managed memory, is in use with one
    reference.  After two [pmm_free] calls on it the zone counts two free
    frames while only one is free; the next [pmm_alloc] hands that frame out,
    and the one after it never returns: its scan loop runs out of every fuel.
    ([pmm_free] has no check that the frame is in use, and the scan's exit
    test is skipped when the cursor sits at [g_alloc_start].) *)
Theorem pmm_double_free_hangs st z (fuel : nat) :
  let j := g_frame_count st - 1 in
  pmm_inv st -> z <> ZONE_COUNT -> g_alloc_start st < j -> g_frame_count st + 1 < Z.of_nat fuel ->
  pmm_free_pages z st = 0 -> (g_frames st).[j] = mk_frame 1 z 0 ->
  let st2 := pmm_free (idx_to_phys st j) (pmm_free (idx_to_phys st j) st) in
  pmm_free_pages z st2 = 2 /\
  exists st3, pmm_alloc fuel z st2 = Some (idx_to_phys st j, st3) /\
    forall fuel', pmm_alloc fuel' z st3 = None.
Proof.
  intros j I Hz Hj Hfuel Hnone Hfj st2. unfold pmm_free_pages in *.
  rewrite zone_ge, bool_decide_false in * by done.
  pose proof (pi_start _ I). pose proof (pi_len _ I) as Hl.
  destruct (pmm_free_in_use st j I) as [Hfs I1]; [split; [lia|by rewrite Hfj]|].
  destruct (pmm_free_geom (idx_to_phys st j) st) as (E1 & E2 & E3).
  set (st1 := pmm_free (idx_to_phys st j) st) in *.
  rewrite Hfj in Hfs. cbn [ref_count pf_zone] in Hfs. change (1 =? 1) with true in Hfs. cbv iota in Hfs.
  assert (Hfj1 : (g_frames st1).[j] = mk_frame 0 z PF_FREE) by (rewrite Hfs; apply zget_zset_eq; lia).
  assert (Ep : idx_to_phys st j = idx_to_phys st1 j) by (unfold idx_to_phys; by rewrite E3).
  assert (Hst2 : st2 = add_free st1 z).
  { unfold st2. rewrite Ep. apply pmm_free_twice; [done|lia|done]. }
  assert (Hn1 : (g_zone_free st1).[zone_val z] = 1).
  { rewrite (pi_free _ I1), Hfs, countb_zset, Hfj, allocatable_free, bool_decide_true by (done || lia).
    rewrite <- (pi_free _ I), Hnone, (allocatable_false z) by done. done. }
  rewrite Hst2. destruct (pi_lens _ I1) as [_ H13]. unfold j in *. rewrite <- E1 in *. split.
  - cbn [add_free g_zone_free]. by rewrite zone_counter_update, decide_True, Hn1.
  - rewrite phantom_first_alloc by (done || lia). rewrite Ep.
    eexists. split; [done|]. intros fuel'. apply phantom_second_alloc; done || lia.
Qed.

(** Eight frames; the red zone is frames 5, 6 and 7. *)
Definition red_exhausted : pmm :=
  let st := pmm_init 0x100000 0x8000 in
  let grab st := match pmm_alloc 10 ZONE_RED st with Some (_, st') => st' | None => st end in
  grab (grab (grab st)).

Lemma pmm_double_free_hangs_witness :
  pmm_inv red_exhausted /\
  let p := idx_to_phys red_exhausted 7 in
  exists st3, pmm_alloc 10 ZONE_RED (pmm_free p (pmm_free p red_exhausted)) = Some (p, st3) /\
    forall fuel', pmm_alloc fuel' ZONE_RED st3 = None.
Proof.
  assert (I : pmm_inv red_exhausted).
  { unfold red_exhausted.
    repeat (match goal with |- pmm_inv match ?e with _ => _ end =>
      destruct e as [[? ?]|] eqn:?; [eapply pmm_alloc_inv; [|eassumption]|] end);
    try (apply pmm_init_inv; unfold PAGE_SIZE; lia). 
    all: vm_compute in *; congruence. }
  split; [exact I|]. intros p.
  apply (pmm_double_free_hangs red_exhausted ZONE_RED 10);
    [exact I|done|vm_compute; reflexivity|vm_compute; reflexivity|vm_compute; reflexivity|vm_compute; reflexivity].
Defined.

(** ** The interface the page-table code relies on *)

(** A source of page frames: an allocation either fails with 0 or hands out a
    page-aligned frame that was not handed out before, and never takes a frame
    back. *)
Class FrameSource (S : Type) := {
  fs_alloc : mem_zone -> S -> Z * S;
  fs_ok : S -> Prop;
  fs_taken : S -> Z -> Prop;
  fs_alloc_spec z s : fs_ok s ->
    let p := (fs_alloc z s).1 in
    let s' := (fs_alloc z s).2 in
    fs_ok s' /\ (forall q, fs_taken s q -> fs_taken s' q) /\
    (p <> 0 -> p mod PAGE_SIZE = 0 /\ 0 < p < 2 ^ 52 /\ ~ fs_taken s p /\ fs_taken s' p)
}.

(** [pmm_alloc] run with one full turn of fuel. *)
Definition pmm_alloc_run (z : mem_zone) (st : pmm) : Z * pmm :=
  default (0, st) (pmm_alloc (Z.to_nat (g_frame_count st + 2)) z st).

Definition pmm_taken (st : pmm) (p : Z) : Prop :=
  exists j, 0 <= j < g_frame_count st /\ p = idx_to_phys st j /\ pf_flags (g_frames st).[j] <> PF_FREE.

(** Managed memory is page aligned and within the architectural 52 bits. *)
Definition pmm_ok (st : pmm) : Prop :=
  pmm_inv st /\ g_frame_base st mod PAGE_SIZE = 0 /\
  g_frame_base st + g_frame_count st * PAGE_SIZE <= 2 ^ 52.

Lemma pmm_alloc_run_cases z st :
  pmm_inv st ->
  pmm_alloc_run z st = (0, st) \/
  exists j, z <> ZONE_COUNT /\ g_alloc_start st <= j < g_frame_count st /\
    allocatable z (g_frames st).[j] = true /\ pmm_alloc_run z st = take_frame st z j.
Proof.
  intros I. unfold pmm_alloc_run. destruct (decide (z = ZONE_COUNT)) as [->|Hz]; [by left|].
  pose proof (zone_free_range st z I Hz) as Hr. pose proof (pi_start _ I).
  destruct (decide ((g_zone_free st).[zone_val z] = 0)) as [E|Hne].
  - left. unfold pmm_alloc. by rewrite zone_ge, bool_decide_false, E.
  - right. destruct (alloc_scan_total st I z (Z.to_nat (g_frame_count st + 2)) Hz) as (j & Hj & Ha & E);
      [lia|lia|]. exists j. by rewrite E.
Qed.

Lemma pmm_alloc_run_spec z st :
  pmm_ok st ->
  let p := (pmm_alloc_run z st).1 in
  let st' := (pmm_alloc_run z st).2 in
  pmm_ok st' /\ (forall q, pmm_taken st q -> pmm_taken st' q) /\
  (p <> 0 -> p mod PAGE_SIZE = 0 /\ 0 < p < 2 ^ 52 /\ ~ pmm_taken st p /\ pmm_taken st' p).
Proof.
  intros (I & Hal & Htop). pose proof (pi_start _ I). pose proof (pi_len _ I).
  destruct (pmm_alloc_run_cases z st I) as [->|(j & Hz & Hj & Ha & ->)]; [by split_and!|].
  destruct (take_frame_eq st z j I Hj Ha) as [Hfs Hfr].
  pose proof (take_frame_inv st z j I Hz Hj Ha) as I'.
  split_and!; [by split|..].
  - intros q (i & Hi & -> & Hnf). exists i. split; [done|]; split; [done|]. rewrite Hfs.
    destruct (decide (i = j)) as [->|Hij]; [rewrite zget_zset_eq by lia; discriminate|].
    by rewrite zget_zset_ne by lia.
  - intros _. cbn [take_frame fst]. split_and!.
    + rewrite idx_to_phys_eq by (done || lia). unfold PAGE_SIZE in *. Z.div_mod_to_equations; lia.
    + pose proof (pmm_inv_nonzero st j I Hj). pose proof (u64_range (g_frame_base st + u64 (Z.shiftl j PAGE_SHIFT))).
      unfold idx_to_phys in *. lia.
    + rewrite idx_to_phys_eq by (done || lia). unfold PAGE_SIZE in *. lia.
    + intros (i & Hi & E & Hnf). rewrite !idx_to_phys_eq in E by (done || lia).
      unfold PAGE_SIZE in *. assert (i = j) as -> by lia. by rewrite Hfr in Hnf.
    + exists j. split; [cbn; lia|]; split; [done|]. rewrite Hfs, zget_zset_eq by lia. discriminate.
Qed.

#[export] Instance pmm_source : FrameSource pmm := {|
  fs_alloc := pmm_alloc_run;
  fs_ok := pmm_ok;
  fs_taken := pmm_taken;
  fs_alloc_spec := pmm_alloc_run_spec
|}.
