(* ===== verification/Vmm.v ===== *)
(** * Virtual memory manager (kernel/mm/vmm.c, kernel/mm/vmm.h)

    Four-level x86-64 page tables in identity-mapped physical memory.  The
    code is modelled over any [FrameSource] (what [pmm_alloc] promises) and the
    walk, map, unmap and address-space-clone operations are verified against a
    typing of the table pages: every table page has a level and a virtual
    prefix, so two different virtual pages never share a final slot. *)

From S2P Require Import Prelude Pmm.

(** ** Data *)

Definition VMM_PRESENT : Z := Z.shiftl 1 0.
Definition VMM_WRITE : Z := Z.shiftl 1 1.
Definition VMM_USER : Z := Z.shiftl 1 2.
Definition VMM_HUGE : Z := Z.shiftl 1 7.
Definition VMM_NX : Z := Z.shiftl 1 63.
Definition VMM_ADDR_MASK : Z := 0x000FFFFFFFFFF000.

(** Physical memory as 64-bit words by byte address; [kernel_pml4] and [cr3]
    are the kernel's saved root and the CPU's current root. *)
Record vmm (F : Type) := mk_vmm {
  vm_mem : gmap Z Z;
  vm_frames : F;
  kernel_pml4 : Z;
  cr3 : Z
}.
Arguments mk_vmm {F}.
Arguments vm_mem {F}.
Arguments vm_frames {F}.
Arguments kernel_pml4 {F}.
Arguments cr3 {F}.

(** [tbl[i]] for a [uint64_t *tbl] at address [t]. *)
Definition slot (t i : Z) : Z := t + 8 * i.
Definition rd (m : gmap Z Z) (a : Z) : Z := default 0 (m !! a).

(** [x & f] used as a condition. *)
Definition has (x f : Z) : bool := negb (Z.land x f =? 0).

Section Ops.
Context {F : Type} {FS : FrameSource F}.

Definition with_mem (s : vmm F) (m : gmap Z Z) : vmm F := mk_vmm m (vm_frames s) (kernel_pml4 s) (cr3 s).
Definition with_frames (s : vmm F) (f : F) : vmm F := mk_vmm (vm_mem s) f (kernel_pml4 s) (cr3 s).

(** [memset(phys_to_virt(p), 0, 4096)]: 512 words. *)
Definition zero_page (p : Z) (m : gmap Z Z) : gmap Z Z :=
  for_loop 512 0 (fun i m => <[slot p i := 0]> m) m.

(** ** Table allocation *)

(** Returns the address of the next table, 0 on failure. *)
Definition alloc_table (entry : Z) (s : vmm F) : Z * vmm F :=
  let e := rd (vm_mem s) entry in
  if has e VMM_PRESENT then (Z.land e VMM_ADDR_MASK, s)
  else
    let '(p, f) := fs_alloc ZONE_GREEN (vm_frames s) in
    let s := with_frames s f in
    if p =? 0 then (0, s)
    else
      let m := zero_page p (vm_mem s) in
      let v := Z.lor (Z.lor (Z.lor (Z.land p VMM_ADDR_MASK) VMM_PRESENT) VMM_WRITE) VMM_USER in
      (p, with_mem s (<[entry := v]> m)).

(** [x = f(...); if (!x) return false;] *)
Definition require (f : vmm F -> Z * vmm F) : M (vmm F) Z :=
  fun s => let '(p, s') := f s in if p =? 0 then (None, s') else (Some p, s').

Definition store (a v : Z) : M (vmm F) unit :=
  fun s => (Some tt, with_mem s (<[a := v]> (vm_mem s))).

(** ** Operations *)

Definition vmm_init (s : vmm F) : vmm F :=
  mk_vmm (vm_mem s) (vm_frames s) (Z.land (cr3 s) (not64 0xFFF)) (cr3 s).

Definition vmm_get_kernel_pml4 (s : vmm F) : Z := kernel_pml4 s.

Definition vmm_make_user_pml4 (s : vmm F) : Z * vmm F :=
  let '(phys, f) := fs_alloc ZONE_GREEN (vm_frames s) in
  let s := with_frames s f in
  if phys =? 0 then (0, s)
  else
    (phys, with_mem s
       (for_loop 512 0 (fun i m => <[slot phys i := rd m (slot (kernel_pml4 s) i)]> m) (vm_mem s))).

(** The walk shared by [vmm_map] and [vmm_map_into] from a root table. *)
Definition map_at (root phys virt flags : Z) : M (vmm F) unit :=
  pdpt <-- require (alloc_table (slot root (Z.land (Z.shiftr virt 39) 0x1FF))) ;;
  pd <-- require (alloc_table (slot pdpt (Z.land (Z.shiftr virt 30) 0x1FF))) ;;
  pt <-- require (alloc_table (slot pd (Z.land (Z.shiftr virt 21) 0x1FF))) ;;
  store (slot pt (Z.land (Z.shiftr virt 12) 0x1FF))
        (Z.lor (Z.lor (Z.land phys (not64 0xFFF)) flags) VMM_PRESENT).

(** [true] is [Some tt], [false] is [None]. *)
Definition vmm_map (phys virt flags : Z) : M (vmm F) unit :=
  fun s => map_at (kernel_pml4 s) phys virt flags s.

Definition vmm_map_into (pml4_phys phys virt flags : Z) : M (vmm F) unit :=
  if pml4_phys =? 0 then mfail else map_at pml4_phys phys virt flags.

Definition vmm_unmap_into (pml4_phys virt : Z) (s : vmm F) : vmm F :=
  let m := vm_mem s in
  if pml4_phys =? 0 then s else
  let e4 := rd m (slot pml4_phys (Z.land (Z.shiftr virt 39) 0x1FF)) in
  if negb (has e4 VMM_PRESENT) then s else
  let pdpt := Z.land e4 VMM_ADDR_MASK in
  let e3 := rd m (slot pdpt (Z.land (Z.shiftr virt 30) 0x1FF)) in
  if negb (has e3 VMM_PRESENT) then s else
  if has e3 VMM_HUGE then s else
  let pd := Z.land e3 VMM_ADDR_MASK in
  let e2 := rd m (slot pd (Z.land (Z.shiftr virt 21) 0x1FF)) in
  if negb (has e2 VMM_PRESENT) then s else
  if has e2 VMM_HUGE then s else
  let pt := Z.land e2 VMM_ADDR_MASK in
  with_mem s (<[slot pt (Z.land (Z.shiftr virt 12) 0x1FF) := 0]> m).

Definition vmm_unmap (virt : Z) (s : vmm F) : vmm F := vmm_unmap_into (kernel_pml4 s) virt s.

Definition vmm_get_phys_into (pml4_phys virt : Z) (s : vmm F) : Z :=
  let m := vm_mem s in
  if pml4_phys =? 0 then 0 else
  let e4 := rd m (slot pml4_phys (Z.land (Z.shiftr virt 39) 0x1FF)) in
  if negb (has e4 VMM_PRESENT) then 0 else
  let pdpt := Z.land e4 VMM_ADDR_MASK in
  let e3 := rd m (slot pdpt (Z.land (Z.shiftr virt 30) 0x1FF)) in
  if negb (has e3 VMM_PRESENT) then 0 else
  if has e3 VMM_HUGE then
    Z.lor (Z.land (Z.land e3 VMM_ADDR_MASK) (not64 0x3FFFFFFF)) (Z.land virt 0x3FFFFFFF) else
  let pd := Z.land e3 VMM_ADDR_MASK in
  let e2 := rd m (slot pd (Z.land (Z.shiftr virt 21) 0x1FF)) in
  if negb (has e2 VMM_PRESENT) then 0 else
  if has e2 VMM_HUGE then
    Z.lor (Z.land (Z.land e2 VMM_ADDR_MASK) (not64 0x1FFFFF)) (Z.land virt 0x1FFFFF) else
  let pt := Z.land e2 VMM_ADDR_MASK in
  let pte := rd m (slot pt (Z.land (Z.shiftr virt 12) 0x1FF)) in
  if negb (has pte VMM_PRESENT) then 0 else
  Z.lor (Z.land pte VMM_ADDR_MASK) (Z.land virt 0xFFF).

Definition vmm_get_phys (virt : Z) (s : vmm F) : Z := vmm_get_phys_into (kernel_pml4 s) virt s.

Definition vmm_switch (pml4 : Z) (s : vmm F) : vmm F := mk_vmm (vm_mem s) (vm_frames s) (kernel_pml4 s) pml4.

End Ops.

(** ** The walk, level by level *)

(** Index of [virt] in a level-[n] table (4 is the PML4, 1 the page table). *)
Definition pt_idx (n : nat) (virt : Z) : Z := virt / 2 ^ (3 + 9 * Z.of_nat n) mod 512.
(** The virtual prefix a level-[n] table translates, and the virtual page. *)
Definition pt_pfx (n : nat) (virt : Z) : Z := virt / 2 ^ (12 + 9 * Z.of_nat n) mod 2 ^ (36 - 9 * Z.of_nat n).
Definition vpage (virt : Z) : Z := pt_pfx 0 virt.

(** Entries of levels 3 and 2 with the huge bit end the walk. *)
Definition huge_leaf (n : nat) (e : Z) : bool := (n <? 4)%nat && has e VMM_HUGE.

Fixpoint walk (n : nat) (m : gmap Z Z) (t virt : Z) : Z :=
  match n with
  | O => 0
  | S n' =>
      let e := rd m (slot t (pt_idx n virt)) in
      if negb (has e VMM_PRESENT) then 0
      else match n' with
           | O => Z.lor (Z.land e VMM_ADDR_MASK) (Z.land virt 0xFFF)
           | S _ =>
               if huge_leaf n e then
                 let off := 2 ^ (12 + 9 * Z.of_nat n') - 1 in
                 Z.lor (Z.land (Z.land e VMM_ADDR_MASK) (not64 off)) (Z.land virt off)
               else walk n' m (Z.land e VMM_ADDR_MASK) virt
           end
  end.

(** ** Well-formed page tables *)

Section Inv.
Context {F : Type} {FS : FrameSource F}.

(** [T] types the table pages: page [p] is a level-[n] table for prefix [v]. *)
Record pt_wf (s : vmm F) (T : gmap Z (nat * Z)) : Prop := {
  wf_ok : fs_ok (vm_frames s);
  wf_page p n v : T !! p = Some (n, v) ->
    p mod 4096 = 0 /\ 0 < p < 2 ^ 52 /\ (1 <= n <= 4)%nat /\ fs_taken (vm_frames s) p;
  wf_next p n v i : T !! p = Some (S n, v) -> (1 <= n)%nat -> 0 <= i < 512 ->
    let e := rd (vm_mem s) (slot p i) in
    has e VMM_PRESENT = true -> huge_leaf (S n) e = false ->
    T !! Z.land e VMM_ADDR_MASK = Some (n, v * 512 + i)
}.

(** No huge mapping lies on the path of [virt] from [root]. *)
Fixpoint clear_path (n : nat) (m : gmap Z Z) (t virt : Z) : Prop :=
  match n with
  | O => True
  | S O => True
  | S n' =>
      let e := rd m (slot t (pt_idx n virt)) in
      has e VMM_PRESENT = true ->
      huge_leaf n e = false /\ clear_path n' m (Z.land e VMM_ADDR_MASK) virt
  end.

End Inv.

(** ** Bit lemmas for page-table entries *)

Lemma has_pow2 x k : 0 <= k -> has x (2 ^ k) = Z.testbit x k.
Proof.
  intros Hk. unfold has. destruct (Z.testbit x k) eqn:E.
  - destruct (Z.eqb_spec (Z.land x (2 ^ k)) 0) as [Hz|]; [|done].
    apply (f_equal (fun y => Z.testbit y k)) in Hz.
    rewrite Z.land_spec, E, Z.pow2_bits_true, Z.bits_0 in Hz by done. done.
  - destruct (Z.eqb_spec (Z.land x (2 ^ k)) 0) as [|Hz]; [done|]. exfalso. apply Hz.
    apply Z.bits_inj'. intros i Hi. rewrite Z.land_spec, Z.bits_0.
    destruct (decide (i = k)) as [->|]; [by rewrite E|].
    rewrite Z.pow2_bits_false by lia. apply andb_false_r.
Qed.

Lemma has_present x : has x VMM_PRESENT = Z.testbit x 0.
Proof. apply (has_pow2 x 0). lia. Qed.
Lemma has_huge x : has x VMM_HUGE = Z.testbit x 7.
Proof. apply (has_pow2 x 7). lia. Qed.

Lemma mask_bits i : 0 <= i -> Z.testbit VMM_ADDR_MASK i = bool_decide (12 <= i < 52).
Proof. exact (shifted_ones_bits 12 40 i ltac:(lia) ltac:(lia)). Qed.

Lemma not_fff_bits i : 0 <= i -> Z.testbit (not64 0xFFF) i = bool_decide (12 <= i < 64).
Proof. exact (shifted_ones_bits 12 52 i ltac:(lia) ltac:(lia)). Qed.

Lemma land_mask_id p : p mod 4096 = 0 -> 0 <= p < 2 ^ 52 -> Z.land p VMM_ADDR_MASK = p.
Proof.
  intros Ha Hp. apply Z.bits_inj'. intros i Hi. rewrite Z.land_spec, mask_bits by done.
  case_bool_decide; [apply andb_true_r|].
  destruct (decide (i < 12)); [rewrite (aligned_bits p 12); [done|exact Ha|lia]|].
  rewrite (small_bits p 52); [done|done|lia].
Qed.

Lemma land_huge_base e :
  Z.land e VMM_ADDR_MASK mod 2 ^ 21 = 0 ->
  Z.land (Z.land e VMM_ADDR_MASK) (not64 (2 ^ 21 - 1)) = Z.land e VMM_ADDR_MASK.
Proof.
  intros Ha. apply Z.bits_inj'. intros i Hi. rewrite Z.land_spec.
  change (not64 (2 ^ 21 - 1)) with (Z.shiftl (Z.ones 43) 21). rewrite shifted_ones_bits by lia.
  case_bool_decide as Hb; [apply andb_true_r|]. rewrite andb_false_r. symmetry.
  destruct (decide (i < 21)); [apply (aligned_bits _ 21); [exact Ha|lia]|].
  rewrite Z.land_spec, mask_bits, bool_decide_false by lia. apply andb_false_r.
Qed.

Definition table_entry (p : Z) : Z :=
  Z.lor (Z.lor (Z.lor (Z.land p VMM_ADDR_MASK) VMM_PRESENT) VMM_WRITE) VMM_USER.

Lemma table_entry_spec p :
  p mod 4096 = 0 -> 0 <= p < 2 ^ 52 ->
  has (table_entry p) VMM_PRESENT = true /\ has (table_entry p) VMM_HUGE = false /\
  Z.land (table_entry p) VMM_ADDR_MASK = p.
Proof.
  intros Ha Hp. unfold table_entry. rewrite land_mask_id by done.
  rewrite has_present, has_huge. change VMM_PRESENT with (2 ^ 0). change VMM_WRITE with (2 ^ 1).
  change VMM_USER with (2 ^ 2). rewrite !Z.lor_spec, !Z.pow2_bits_eqb by lia. split_and!.
  - simpl. by rewrite orb_true_r.
  - rewrite (aligned_bits p 12); [done|exact Ha|lia].
  - apply Z.bits_inj'. intros i Hi.
    rewrite Z.land_spec, !Z.lor_spec, mask_bits, !Z.pow2_bits_eqb by lia. case_bool_decide.
    + destruct (Z.eqb_spec 0 i), (Z.eqb_spec 1 i), (Z.eqb_spec 2 i); try lia.
      by rewrite !orb_false_r, andb_true_r.
    + rewrite andb_false_r. symmetry. destruct (decide (i < 12)).
      * apply (aligned_bits p 12); [exact Ha|lia].
      * apply (small_bits p 52); [done|lia].
Qed.

Definition leaf_entry (phys flags : Z) : Z :=
  Z.lor (Z.lor (Z.land phys (not64 0xFFF)) flags) VMM_PRESENT.

Lemma leaf_entry_spec phys flags :
  Z.land flags VMM_ADDR_MASK = 0 ->
  has (leaf_entry phys flags) VMM_PRESENT = true /\
  Z.land (leaf_entry phys flags) VMM_ADDR_MASK = Z.land phys VMM_ADDR_MASK.
Proof.
  intros Hf. unfold leaf_entry. rewrite has_present. change VMM_PRESENT with (2 ^ 0). split.
  - rewrite !Z.lor_spec, Z.pow2_bits_eqb by lia. apply orb_true_r.
  - apply Z.bits_inj'. intros i Hi.
    assert (Hfi : Z.testbit flags i && Z.testbit VMM_ADDR_MASK i = false)
      by (rewrite <- Z.land_spec, Hf; apply Z.bits_0).
    rewrite !Z.land_spec, !Z.lor_spec, Z.land_spec, not_fff_bits, Z.pow2_bits_eqb by lia.
    rewrite mask_bits in * by done. destruct (Z.testbit flags i), (Z.eqb_spec 0 i);
      repeat case_bool_decide; try lia; try done; by rewrite ?andb_false_r, ?andb_true_r, ?orb_false_r.
Qed.

(** ** Index arithmetic *)

Lemma pt_idx_range n virt : 0 <= pt_idx n virt < 512.
Proof. apply Z.mod_pos_bound. lia. Qed.

Lemma idx_code k n virt :
  k = 3 + 9 * Z.of_nat n -> Z.land (Z.shiftr virt k) 0x1FF = pt_idx n virt.
Proof.
  intros ->. unfold pt_idx. rewrite shiftr_div by lia. apply (land_low 9). lia.
Qed.

Lemma pfx_step n virt :
  (n <= 3)%nat -> pt_pfx n virt = pt_pfx (S n) virt * 512 + pt_idx (S n) virt.
Proof.
  intros Hn. unfold pt_pfx, pt_idx.
  replace (3 + 9 * Z.of_nat (S n)) with (12 + 9 * Z.of_nat n) by lia.
  replace (12 + 9 * Z.of_nat (S n)) with (12 + 9 * Z.of_nat n + 9) by lia.
  set (x := virt / 2 ^ (12 + 9 * Z.of_nat n)).
  rewrite Z.pow_add_r, <- Z.div_div by lia. fold x.
  replace (36 - 9 * Z.of_nat n) with (9 + (36 - 9 * Z.of_nat (S n))) by lia.
  rewrite Z.pow_add_r, Z.rem_mul_r by lia. change (2 ^ 9) with 512. lia.
Qed.

Lemma slot_inj p q i j :
  p mod 4096 = 0 -> q mod 4096 = 0 -> 0 <= i < 512 -> 0 <= j < 512 ->
  slot p i = slot q j -> p = q /\ i = j.
Proof. unfold slot. intros. Z.div_mod_to_equations; lia. Qed.

Lemma rd_insert m a v b : rd (<[a := v]> m) b = if decide (a = b) then v else rd m b.
Proof. unfold rd. rewrite lookup_insert. by case_decide. Qed.

(** [a] is not a word of page [p]. *)
Definition off_page (p a : Z) : Prop := forall j, 0 <= j < 512 -> a <> slot p j.

(** A loop filling the 512 words of page [p], each from the untouched rest. *)
Lemma fill_page p (g : Z -> gmap Z Z -> Z) (h : Z -> Z) m :
  (forall i m', 0 <= i < 512 -> (forall a, off_page p a -> rd m' a = rd m a) -> g i m' = h i) ->
  let m' := for_loop 512 0 (fun i m => <[slot p i := g i m]> m) m in
  (forall j, 0 <= j < 512 -> rd m' (slot p j) = h j) /\
  (forall a, off_page p a -> rd m' a = rd m a).
Proof.
  intros Hg. apply (for_loop_ind (fun i m' => (forall j, 0 <= j < i -> rd m' (slot p j) = h j) /\
    (forall a, off_page p a -> rd m' a = rd m a)) 512 0); [split; [lia|done]|].
  intros j m' Hj [H1 H2]. rewrite (Hg j m') by (done || lia). split.
  - intros k Hk. rewrite rd_insert. case_decide as E; [unfold slot in E; f_equal; lia|].
    apply H1. destruct (decide (k = j)) as [->|]; [done|lia].
  - intros a Ha. rewrite rd_insert, decide_False; [by apply H2|].
    intros <-. by apply (Ha j).
Qed.

Lemma zero_page_in p m j : 0 <= j < 512 -> rd (zero_page p m) (slot p j) = 0.
Proof. apply (fill_page p (fun _ _ => 0) (fun _ => 0)). done. Qed.

Lemma zero_page_out p m a : off_page p a -> rd (zero_page p m) a = rd m a.
Proof. apply (fill_page p (fun _ _ => 0) (fun _ => 0)). done. Qed.

(** ** Growing a page-table tree *)

Section Proofs.
Context {F : Type} {FS : FrameSource F}.
Implicit Types (s : vmm F) (T : gmap Z (nat * Z)).

Lemma off_page_slot p q i :
  p mod 4096 = 0 -> q mod 4096 = 0 -> 0 <= i < 512 -> p <> q -> off_page p (slot q i).
Proof. intros Hp Hq Hi Hne j Hj E. by apply slot_inj in E as [-> _]. Qed.

Lemma get_phys_walk root virt s :
  root <> 0 -> vmm_get_phys_into root virt s = walk 4 (vm_mem s) root virt.
Proof.
  intros Hr. unfold vmm_get_phys_into. destruct (Z.eqb_spec root 0); [done|].
  rewrite (idx_code 39 4), (idx_code 30 3), (idx_code 21 2), (idx_code 12 1) by done.
  reflexivity.
Qed.

(** The level-[n] entry of [t] for [i] leads to table [q]. *)
Definition link (n : nat) (m : gmap Z Z) (t i q : Z) : Prop :=
  let e := rd m (slot t i) in
  has e VMM_PRESENT = true /\ huge_leaf n e = false /\ Z.land e VMM_ADDR_MASK = q.

Lemma walk_link n m t q virt :
  link (S (S n)) m t (pt_idx (S (S n)) virt) q -> walk (S (S n)) m t virt = walk (S n) m q virt.
Proof.
  intros (Hp & Hh & <-). cbn [walk]. by rewrite Hp, Hh.
Qed.

(** [s'] extends [s]: tables are only added, in frames that were free, present
    entries are kept, every existing translation is unchanged and no other page in use
    is written. *)
Record pt_ext s T s' T' : Prop := {
  ext_sub : T ⊆ T';
  ext_wf : pt_wf s' T';
  ext_keep p n v j : T !! p = Some (n, v) -> 0 <= j < 512 ->
    has (rd (vm_mem s) (slot p j)) VMM_PRESENT = true ->
    rd (vm_mem s') (slot p j) = rd (vm_mem s) (slot p j);
  ext_walk p n v virt : T !! p = Some (n, v) ->
    walk n (vm_mem s') p virt = walk n (vm_mem s) p virt;
  ext_clear p n v virt : T !! p = Some (n, v) ->
    clear_path n (vm_mem s) p virt -> clear_path n (vm_mem s') p virt;
  ext_taken q : fs_taken (vm_frames s) q -> fs_taken (vm_frames s') q;
  ext_data q : q mod 4096 = 0 -> fs_taken (vm_frames s) q -> T !! q = None ->
    T' !! q = None /\ forall j, 0 <= j < 512 -> rd (vm_mem s') (slot q j) = rd (vm_mem s) (slot q j);
  ext_root : kernel_pml4 s' = kernel_pml4 s /\ cr3 s' = cr3 s
}.

Lemma pt_ext_refl s T : pt_wf s T -> pt_ext s T s T.
Proof. by constructor. Qed.

Lemma pt_ext_trans s1 T1 s2 T2 s3 T3 :
  pt_ext s1 T1 s2 T2 -> pt_ext s2 T2 s3 T3 -> pt_ext s1 T1 s3 T3.
Proof.
  intros E1 E2. pose proof (lookup_weaken T1 T2) as Hw. constructor.
  - etrans; [apply (ext_sub _ _ _ _ E1)|apply (ext_sub _ _ _ _ E2)].
  - apply (ext_wf _ _ _ _ E2).
  - intros p n v j Hp Hj Hpr. pose proof (ext_keep _ _ _ _ E1 p n v j Hp Hj Hpr) as H1.
    rewrite <- H1. apply (ext_keep _ _ _ _ E2 p n v); [|done|by rewrite H1].
    eapply Hw; [done|apply (ext_sub _ _ _ _ E1)].
  - intros p n v virt Hp. rewrite (ext_walk _ _ _ _ E2 p n v virt), (ext_walk _ _ _ _ E1 p n v virt);
      [done|done|]. eapply Hw; [done|apply (ext_sub _ _ _ _ E1)].
  - intros p n v virt Hp Hc. apply (ext_clear _ _ _ _ E2 p n v virt);
      [|by apply (ext_clear _ _ _ _ E1 p n v virt)]. eapply Hw; [done|apply (ext_sub _ _ _ _ E1)].
  - intros q Hq. by apply (ext_taken _ _ _ _ E2), (ext_taken _ _ _ _ E1).
  - intros q Ha Hq HT. destruct (ext_data _ _ _ _ E1 q Ha Hq HT) as [HT2 H1].
    destruct (ext_data _ _ _ _ E2 q Ha (ext_taken _ _ _ _ E1 q Hq) HT2) as [HT3 H2].
    split; [done|]. intros j Hj. by rewrite H2, H1.
  - destruct (ext_root _ _ _ _ E1), (ext_root _ _ _ _ E2). split; congruence.
Qed.

Lemma link_ext s T s' T' p n v j q :
  pt_ext s T s' T' -> T !! p = Some (n, v) -> 0 <= j < 512 ->
  link n (vm_mem s) p j q -> link n (vm_mem s') p j q.
Proof.
  intros E Hp Hj (H1 & H2 & H3). unfold link. by rewrite (ext_keep _ _ _ _ E p n v j Hp Hj H1).
Qed.

(** [m'] differs from the memory of [s] only in table entries that were not
    present and now lead to empty tables. *)
Definition grows s T (m' : gmap Z Z) : Prop :=
  forall t n v j, T !! t = Some (n, v) -> 0 <= j < 512 ->
    rd m' (slot t j) = rd (vm_mem s) (slot t j) \/
    has (rd (vm_mem s) (slot t j)) VMM_PRESENT = false /\
    exists n' q, n = S (S n') /\ link n m' t j q /\ forall k, 0 <= k < 512 -> rd m' (slot q k) = 0.

Lemma walk_grow s T m' n t v virt :
  pt_wf s T -> T !! t = Some (n, v) -> grows s T m' ->
  walk n m' t virt = walk n (vm_mem s) t virt.
Proof.
  intros W Ht Hm. revert t v Ht. induction n as [|n IH]; intros t v Ht; [done|].
  pose proof (pt_idx_range (S n) virt) as Hi.
  destruct (Hm t (S n) v (pt_idx (S n) virt) Ht Hi) as [E|(Hnp & n' & q & Hn & Hl & Hz)].
  - cbn [walk]. rewrite E. destruct (has (rd (vm_mem s) _) VMM_PRESENT) eqn:Hp; [|done].
    destruct n as [|n]; [done|]. cbn [negb].
    destruct (huge_leaf _ _) eqn:Hh; [done|].
    apply (IH _ (v * 512 + pt_idx (S (S n)) virt)).
    apply (wf_next _ _ W t (S n) v); [done|lia|done|done|done].
  - injection Hn as ->. rewrite (walk_link n' _ _ q) by done.
    cbn [walk]. rewrite Hnp. cbn [negb]. rewrite (Hz _ (pt_idx_range _ _)). done.
Qed.

Lemma clear_grow s T m' n t v virt :
  pt_wf s T -> T !! t = Some (n, v) -> grows s T m' ->
  clear_path n (vm_mem s) t virt -> clear_path n m' t virt.
Proof.
  intros W Ht Hm. revert t v Ht. induction n as [|n IH]; intros t v Ht; [done|].
  pose proof (pt_idx_range (S n) virt) as Hi. destruct n as [|n]; [done|].
  destruct (Hm t (S (S n)) v (pt_idx (S (S n)) virt) Ht Hi) as [E|(Hnp & n' & q & Hn & Hl & Hz)];
    cbn [clear_path]; intros Hc Hp.
  - rewrite E in *. destruct (Hc Hp) as [Hh Hc']. split; [done|].
    apply (IH _ (v * 512 + pt_idx (S (S n)) virt)); [|done].
    apply (wf_next _ _ W t (S n) v); [done|lia|done|done|done].
  - injection Hn as ->. destruct Hl as (_ & Hh & ->). split; [done|].
    destruct n' as [|n']; [done|]. rewrite Hz by apply pt_idx_range. done.
Qed.

(** A table page added under a non-present entry. *)
Section Add.
Context (s : vmm F) (T : gmap Z (nat * Z)) (t : Z) (n : nat) (v i p : Z) (f : F).
Context (W : pt_wf s T) (Ht : T !! t = Some (S n, v)) (Hn : (1 <= n)%nat) (Hi : 0 <= i < 512)
        (Hnp : has (rd (vm_mem s) (slot t i)) VMM_PRESENT = false)
        (Hp : p mod 4096 = 0) (Hpr : 0 < p < 2 ^ 52) (Hfresh : ~ fs_taken (vm_frames s) p)
        (Hok : fs_ok f) (Hmono : forall q, fs_taken (vm_frames s) q -> fs_taken f q) (Hpt : fs_taken f p).
Let m' := <[slot t i := table_entry p]> (zero_page p (vm_mem s)).
Let T' := <[p := (n, v * 512 + i)]> T.

Lemma add_fresh q x : T !! q = Some x -> q <> p.
Proof. intros Hq ->. destruct x as [k w]. apply Hfresh. by apply (wf_page _ _ W p k w). Qed.

Lemma add_new j : 0 <= j < 512 -> rd m' (slot p j) = 0.
Proof.
  intros Hj. destruct (wf_page _ _ W _ _ _ Ht) as (Ha & _). unfold m'. rewrite rd_insert.
  case_decide as E; [|by apply zero_page_in].
  apply slot_inj in E as [E _]; [|done..]. by apply add_fresh in Ht.
Qed.

Lemma add_old q x j :
  T !! q = Some x -> 0 <= j < 512 -> slot q j <> slot t i -> rd m' (slot q j) = rd (vm_mem s) (slot q j).
Proof.
  intros Hq Hj Hne. destruct x as [k w]. destruct (wf_page _ _ W _ _ _ Hq) as (Ha & _).
  unfold m'. rewrite rd_insert, decide_False by congruence.
  apply zero_page_out, off_page_slot; [done|done|done|]. symmetry. by eapply add_fresh.
Qed.

Lemma add_link : link (S n) m' t i p.
Proof.
  destruct (table_entry_spec p Hp ltac:(lia)) as (E1 & E2 & E3). unfold link, m'.
  rewrite rd_insert, decide_True by done. split_and!; [done| |done].
  unfold huge_leaf. rewrite E2. apply andb_false_r.
Qed.

Lemma add_ext : pt_ext s T (mk_vmm m' f (kernel_pml4 s) (cr3 s)) T'.
Proof.
  assert (HT : T !! p = None).
  { destruct (T !! p) eqn:E; [|done]. by apply add_fresh in E. }
  assert (Hsame : forall q k w j, T !! q = Some (k, w) -> 0 <= j < 512 ->
    (q = t /\ j = i) \/ rd m' (slot q j) = rd (vm_mem s) (slot q j)).
  { intros q k w j Hq Hj. destruct (decide (slot q j = slot t i)) as [E|E].
    - left. destruct (wf_page _ _ W _ _ _ Hq), (wf_page _ _ W _ _ _ Ht). by apply slot_inj.
    - right. by apply (add_old q (k, w)). }
  destruct (wf_page _ _ W _ _ _ Ht) as (_ & _ & Hn4 & _).
  assert (Hg : grows s T m').
  { intros q' k' w' j Hq' Hj. destruct (Hsame q' k' w' j Hq' Hj) as [[-> ->]|Hs]; [|by left].
    right. split; [done|]. rewrite Ht in Hq'. injection Hq' as <- <-.
    exists (n - 1)%nat, p. replace (S (S (n - 1))) with (S n) by lia.
    split_and!; [done|apply add_link..|]. intros k'. apply add_new. }
  constructor; cbn [vm_mem kernel_pml4 cr3]; [by apply insert_subseteq| | | | |done| |done].
  - constructor; cbn [vm_mem vm_frames]; [done|..].
    + intros q k w. unfold T'. rewrite lookup_insert. case_decide as E.
      * intros [= <- <-]. subst q. split_and!; (done || lia).
      * intros Hq. destruct (wf_page _ _ W _ _ _ Hq) as (? & ? & ? & ?). split_and!; try done; try lia. by apply Hmono.
    + intros q k w j Hq Hk Hj Hpe Hhe. unfold T' in *. rewrite lookup_insert in Hq. case_decide as E.
      * subst q. rewrite add_new in Hpe by done. done.
      * destruct (Hsame q (S k) w j Hq Hj) as [[-> ->]|Hs].
        -- rewrite Ht in Hq. injection Hq as <- <-. destruct add_link as (_ & _ & ->).
           apply lookup_insert_eq.
        -- rewrite Hs in *. apply lookup_insert_Some. right.
           assert (Hx := wf_next _ _ W q k w j Hq Hk Hj Hpe Hhe). split; [|done].
           intros Hpx. apply add_fresh in Hx. congruence.
  - intros q k w j Hq Hj Hpe. destruct (Hsame q k w j Hq Hj) as [[-> ->]|Hs]; [congruence|done].
  - intros q k w virt Hq. by apply (walk_grow s T m' k q w virt W Hq).
  - intros q k w virt Hq. by apply (clear_grow s T m' k q w virt W Hq).
  - intros q Ha Hq HTq. assert (Hne : q <> p) by (intros ->; by apply Hfresh). split.
    + unfold T'. by rewrite lookup_insert_ne.
    + intros j Hj. destruct (wf_page _ _ W _ _ _ Ht) as (Hta & _). unfold m'. rewrite rd_insert, decide_False.
      * by apply zero_page_out, off_page_slot.
      * intros E. apply slot_inj in E as [-> _]; [|done..]. congruence.
Qed.
End Add.

Lemma alloc_table_ext s T t n v i :
  pt_wf s T -> T !! t = Some (S n, v) -> (1 <= n)%nat -> 0 <= i < 512 ->
  (has (rd (vm_mem s) (slot t i)) VMM_PRESENT = true -> huge_leaf (S n) (rd (vm_mem s) (slot t i)) = false) ->
  let q := (alloc_table (slot t i) s).1 in
  let s' := (alloc_table (slot t i) s).2 in
  exists T', pt_ext s T s' T' /\
    (q <> 0 -> T' !! q = Some (n, v * 512 + i) /\ link (S n) (vm_mem s') t i q).
Proof.
  intros W Ht Hn Hi Hh. unfold alloc_table.
  destruct (has (rd (vm_mem s) (slot t i)) VMM_PRESENT) eqn:Hp; cbn [fst snd].
  { exists T. split; [by apply pt_ext_refl|]. intros _. split.
    - apply (wf_next _ _ W t n v); auto.
    - split; [done|]. split; [by apply Hh|done]. }
  pose proof (fs_alloc_spec ZONE_GREEN (vm_frames s) (wf_ok _ _ W)) as Hspec.
  destruct (fs_alloc ZONE_GREEN (vm_frames s)) as [p f]. cbn [fst snd] in Hspec.
  destruct Hspec as (Hok & Hmono & Hnew). destruct (Z.eqb_spec p 0) as [->|Hp0]; cbn [fst snd].
  - exists T. split; [|done]. constructor; cbn [with_frames vm_mem]; try done.
    constructor; cbn [vm_frames vm_mem]; [done| |apply (wf_next _ _ W)].
    intros q k w Hq. destruct (wf_page _ _ W _ _ _ Hq) as (? & ? & ? & ?). split_and!; try done; try lia.
    by apply Hmono.
  - destruct (Hnew Hp0) as (Ha & Hr & Hfr & Ht'). exists (<[p := (n, v * 512 + i)]> T).
    split; [exact (add_ext s T t n v i p f W Ht Hn Hi Hp Ha Hr Hfr Hok Hmono Ht')|].
    intros _. split; [apply lookup_insert_eq|]. exact (add_link s t n i p Hn Ha Hr).
Qed.

(** ** Writing a leaf *)

(** The final slot of [virt] in its page table. *)
Lemma store_walk s T pt w a virt v' :
  pt_wf s T -> T !! pt = Some (1%nat, w) -> pt_pfx 1 virt = w -> a = slot pt (pt_idx 1 virt) ->
  forall n t virt', T !! t = Some (n, pt_pfx n virt') -> (n <= 4)%nat -> vpage virt' <> vpage virt ->
  walk n (<[a := v']> (vm_mem s)) t virt' = walk n (vm_mem s) t virt'.
Proof.
  intros W Hpt Hw -> n. destruct (wf_page _ _ W _ _ _ Hpt) as (Hpa & _).
  induction n as [|n IH]; intros t virt' Ht Hn Hv; [done|].
  destruct (wf_page _ _ W _ _ _ Ht) as (Hta & _).
  assert (E : rd (<[slot pt (pt_idx 1 virt) := v']> (vm_mem s)) (slot t (pt_idx (S n) virt')) =
              rd (vm_mem s) (slot t (pt_idx (S n) virt'))).
  { rewrite rd_insert. case_decide as E; [|done]. exfalso.
    apply slot_inj in E as [<- E]; [|done|done|apply pt_idx_range..].
    rewrite Hpt in Ht. injection Ht as <- Hpf. apply Hv. unfold vpage.
    rewrite !(pfx_step 0) by lia. congruence. }
  cbn [walk]. rewrite E. destruct (has _ VMM_PRESENT) eqn:Hp; [|done]. cbn [negb].
  destruct n as [|n]; [done|]. destruct (huge_leaf _ _) eqn:Hh; [done|].
  apply IH; [|lia|done]. rewrite (pfx_step (S n)) by lia.
  apply (wf_next _ _ W t (S n)); [done|lia|apply pt_idx_range|done|done].
Qed.

Lemma store_wf s T pt w i v' :
  pt_wf s T -> T !! pt = Some (1%nat, w) -> 0 <= i < 512 ->
  pt_wf (with_mem s (<[slot pt i := v']> (vm_mem s))) T.
Proof.
  intros W Hpt Hi. destruct (wf_page _ _ W _ _ _ Hpt) as (Hpa & _).
  constructor; cbn [with_mem vm_mem vm_frames]; [apply (wf_ok _ _ W)|apply (wf_page _ _ W)|].
  intros q n v j Hq Hn Hj. destruct (wf_page _ _ W _ _ _ Hq) as (Hqa & _).
  rewrite rd_insert, decide_False; [by apply (wf_next _ _ W)|].
  intros E. apply slot_inj in E as [<- _]; [|done..]. rewrite Hpt in Hq. injection Hq. lia.
Qed.

Lemma link_store s T n t v j q pt w i v' :
  pt_wf s T -> T !! t = Some (S (S n), v) -> 0 <= j < 512 -> T !! pt = Some (1%nat, w) -> 0 <= i < 512 ->
  link (S (S n)) (vm_mem s) t j q -> link (S (S n)) (<[slot pt i := v']> (vm_mem s)) t j q.
Proof.
  intros W Ht Hj Hpt Hi Hl. destruct (wf_page _ _ W _ _ _ Hpt) as (Hpa & _).
  destruct (wf_page _ _ W _ _ _ Ht) as (Hta & _).
  unfold link. rewrite rd_insert, decide_False; [done|].
  intros E. apply slot_inj in E as [<- _]; [|done..]. rewrite Hpt in Ht. done.
Qed.

(** ** Mapping *)

(** One [require (alloc_table ...)] step of the walk of [virt]. *)
Definition grown s T n t virt (q : option Z) s' : Prop :=
  exists T', pt_ext s T s' T' /\
  forall p, q = Some p -> T' !! p = Some (n, pt_pfx n virt) /\ link (S n) (vm_mem s') t (pt_idx (S n) virt) p.

Lemma require_alloc s T n t virt :
  pt_wf s T -> T !! t = Some (S n, pt_pfx (S n) virt) -> (1 <= n <= 3)%nat ->
  clear_path (S n) (vm_mem s) t virt ->
  let r := require (alloc_table (slot t (pt_idx (S n) virt))) s in
  grown s T n t virt r.1 r.2.
Proof.
  intros W Ht Hn Hc. unfold grown, require.
  destruct (alloc_table_ext s T t n (pt_pfx (S n) virt) (pt_idx (S n) virt) W Ht) as (T' & E & Hq);
    [lia|apply pt_idx_range|destruct n; [lia|]; intros Hp; by apply Hc|].
  destruct (alloc_table _ s) as [q s']. cbn [fst snd] in *. exists T'.
  destruct (Z.eqb_spec q 0); cbn [fst snd]; split; try done.
  intros p [= <-]. rewrite pfx_step by lia. by apply Hq.
Qed.

Lemma clear_link n m t q virt :
  link (S (S n)) m t (pt_idx (S (S n)) virt) q -> clear_path (S (S n)) m t virt -> clear_path (S n) m q virt.
Proof. intros (Hp & _ & <-) Hc. by apply Hc. Qed.

Lemma pfx_inj n virt virt' :
  (n <= 3)%nat -> pt_pfx n virt' = pt_pfx n virt ->
  pt_pfx (S n) virt' = pt_pfx (S n) virt /\ pt_idx (S n) virt' = pt_idx (S n) virt.
Proof.
  intros Hn. rewrite !(pfx_step n) by done.
  pose proof (pt_idx_range (S n) virt). pose proof (pt_idx_range (S n) virt'). lia.
Qed.

Lemma vpage_idx virt virt' :
  vpage virt' = vpage virt -> forall n, (1 <= n <= 4)%nat -> pt_idx n virt' = pt_idx n virt.
Proof.
  intros E0 n Hn. destruct (pfx_inj 0 virt virt' ltac:(lia) E0) as [E1 I1].
  destruct (pfx_inj 1 virt virt' ltac:(lia) E1) as [E2 I2].
  destruct (pfx_inj 2 virt virt' ltac:(lia) E2) as [E3 I3].
  destruct (pfx_inj 3 virt virt' ltac:(lia) E3) as [E4 I4].
  destruct n as [|[|[|[|[|]]]]]; (lia || done).
Qed.

(** A path of three links from [root] to the page table of [virt]. *)
Definition path T (m : gmap Z Z) (root pt virt : Z) : Prop :=
  exists pdpt pd, T !! pdpt = Some (3%nat, pt_pfx 3 virt) /\ T !! pd = Some (2%nat, pt_pfx 2 virt) /\
    T !! pt = Some (1%nat, pt_pfx 1 virt) /\ link 4 m root (pt_idx 4 virt) pdpt /\ link 3 m pdpt (pt_idx 3 virt) pd /\
    link 2 m pd (pt_idx 2 virt) pt.

Lemma walk_path T m root pt virt virt' :
  path T m root pt virt -> vpage virt' = vpage virt -> walk 4 m root virt' = walk 1 m pt virt'.
Proof.
  intros (pdpt & pd & _ & _ & _ & L4 & L3 & L2) E. pose proof (vpage_idx _ _ E) as Hi.
  rewrite (walk_link 2 m root pdpt), (walk_link 1 m pdpt pd), (walk_link 0 m pd pt);
    rewrite ?Hi by lia; done.
Qed.

(** Three links found one after the other while the tree grew. *)
Lemma path_ext s1 T1 s2 T2 s3 T3 root pdpt pd pt virt :
  pt_ext s1 T1 s2 T2 -> pt_ext s2 T2 s3 T3 -> T1 !! root = Some (4%nat, 0) ->
  T1 !! pdpt = Some (3%nat, pt_pfx 3 virt) -> T2 !! pd = Some (2%nat, pt_pfx 2 virt) -> T3 !! pt = Some (1%nat, pt_pfx 1 virt) ->
  link 4 (vm_mem s1) root (pt_idx 4 virt) pdpt -> link 3 (vm_mem s2) pdpt (pt_idx 3 virt) pd ->
  link 2 (vm_mem s3) pd (pt_idx 2 virt) pt -> path T3 (vm_mem s3) root pt virt.
Proof.
  intros E2 E3 Hr1 Hpdpt Hpd Hpt L4 L3 L2.
  pose proof (lookup_weaken _ _ _ _ Hpdpt (ext_sub _ _ _ _ E2)) as Hpdpt2. exists pdpt, pd.
  split; [exact (lookup_weaken _ _ _ _ Hpdpt2 (ext_sub _ _ _ _ E3))|].
  split; [exact (lookup_weaken _ _ _ _ Hpd (ext_sub _ _ _ _ E3))|]. split; [done|]. split_and!.
  - eapply (link_ext s2); [exact E3| |apply pt_idx_range|].
    + exact (lookup_weaken _ _ _ _ Hr1 (ext_sub _ _ _ _ E2)).
    + eapply (link_ext s1); [exact E2|exact Hr1|apply pt_idx_range|done].
  - eapply (link_ext s2); [exact E3|exact Hpdpt2|apply pt_idx_range|done].
  - done.
Qed.

(** [map_at] either stops early, having only grown the tree, or grows the
    whole path and then stores the leaf. *)
Lemma map_at_cases s T root phys virt flags :
  pt_wf s T -> T !! root = Some (4%nat, 0) -> clear_path 4 (vm_mem s) root virt ->
  exists s1 T1, pt_ext s T s1 T1 /\
   (map_at root phys virt flags s = (None, s1) \/
    exists pt, path T1 (vm_mem s1) root pt virt /\
      map_at root phys virt flags s =
        (Some tt, with_mem s1 (<[slot pt (pt_idx 1 virt) := leaf_entry phys flags]> (vm_mem s1)))).
Proof.
  intros W Hr Hc. unfold map_at.
  rewrite (idx_code 39 4), (idx_code 30 3), (idx_code 21 2), (idx_code 12 1) by done.
  assert (Hp4 : pt_pfx 4 virt = 0) by apply Z.mod_1_r.
  unfold mbind. destruct (require_alloc s T 3 root virt W ltac:(by rewrite Hp4) ltac:(lia) Hc) as (T1 & E1 & H1).
  destruct (require _ s) as [[pdpt|] s1]; cbn [fst snd] in *; [|by exists s1, T1; split; [|left]].
  destruct (H1 _ eq_refl) as [Hpdpt L4].
  assert (C3 : clear_path 3 (vm_mem s1) pdpt virt)
    by (apply (clear_link 2 _ root); [done|by apply (ext_clear _ _ _ _ E1 root 4 0)]).
  destruct (require_alloc s1 T1 2 pdpt virt (ext_wf _ _ _ _ E1) Hpdpt ltac:(lia) C3) as (T2 & E2 & H2).
  destruct (require _ s1) as [[pd|] s2]; cbn [fst snd] in *;
    [|exists s2, T2; split; [by eapply pt_ext_trans|by left]].
  destruct (H2 _ eq_refl) as [Hpd L3].
  assert (C2 : clear_path 2 (vm_mem s2) pd virt)
    by (apply (clear_link 1 _ pdpt); [done|by apply (ext_clear _ _ _ _ E2 pdpt 3 (pt_pfx 3 virt))]).
  destruct (require_alloc s2 T2 1 pd virt (ext_wf _ _ _ _ E2) Hpd ltac:(lia) C2) as (T3 & E3 & H3).
  destruct (require _ s2) as [[pt|] s3]; cbn [fst snd] in *;
    (exists s3, T3; split; [exact (pt_ext_trans _ _ _ _ _ _ E1 (pt_ext_trans _ _ _ _ _ _ E2 E3))|]);
    [right|by left].
  destruct (H3 _ eq_refl) as [Hpt L2]. exists pt.
  split; [|reflexivity]. apply (path_ext s1 T1 s2 T2 s3 T3 root pdpt pd pt virt E2 E3); try done.
  exact (lookup_weaken _ _ _ _ Hr (ext_sub _ _ _ _ E1)).
Qed.

Lemma path_store s T root pt virt v' :
  pt_wf s T -> T !! root = Some (4%nat, 0) -> path T (vm_mem s) root pt virt ->
  path T (<[slot pt (pt_idx 1 virt) := v']> (vm_mem s)) root pt virt.
Proof.
  intros W Hr (pdpt & pd & H3 & H2 & H1 & L4 & L3 & L2). exists pdpt, pd.
  pose proof pt_idx_range. do 3 (split; [done|]).
  split_and!; eapply link_store; done.
Qed.

(** What reading back a leaf store gives, and what it leaves alone. *)
Lemma leaf_store s T root pt virt v' :
  pt_wf s T -> T !! root = Some (4%nat, 0) -> path T (vm_mem s) root pt virt ->
  let s' := with_mem s (<[slot pt (pt_idx 1 virt) := v']> (vm_mem s)) in
  pt_wf s' T /\
  (forall virt', vpage virt' = vpage virt -> vmm_get_phys_into root virt' s' =
     if has v' VMM_PRESENT then Z.lor (Z.land v' VMM_ADDR_MASK) (Z.land virt' 0xFFF) else 0) /\
  (forall root' virt', T !! root' = Some (4%nat, 0) -> vpage virt' <> vpage virt ->
     vmm_get_phys_into root' virt' s' = vmm_get_phys_into root' virt' s).
Proof.
  intros W Hr Hp s'. destruct (Hp) as (pdpt & pd & _ & _ & Hpt & _).
  pose proof (pt_idx_range 1 virt) as Hi.
  assert (Hnz : forall t x, T !! t = Some x -> t <> 0).
  { intros t [n v] Ht. destruct (wf_page _ _ W _ _ _ Ht) as (_ & ? & _). lia. }
  split_and!.
  - by eapply store_wf.
  - intros virt' E. rewrite get_phys_walk by (by eapply Hnz).
    rewrite (walk_path T _ root pt virt) by (done || by apply path_store).
    cbn [walk s' with_mem vm_mem]. rewrite (vpage_idx _ _ E) by lia.
    rewrite rd_insert, decide_True by done. by destruct (has v' VMM_PRESENT).
  - intros root' virt' Hr' E. rewrite !get_phys_walk by (by eapply Hnz).
    eapply (store_walk s T pt); [done|done|done|done| |lia|done].
    rewrite Hr'. do 2 f_equal. symmetry. apply Z.mod_1_r.
Qed.

Lemma ext_same_phys s T s' T' root virt :
  pt_ext s T s' T' -> pt_wf s T -> T !! root = Some (4%nat, 0) ->
  vmm_get_phys_into root virt s' = vmm_get_phys_into root virt s.
Proof.
  intros E W Hr. destruct (wf_page _ _ W _ _ _ Hr) as (_ & ? & _).
  rewrite !get_phys_walk by lia. by apply (ext_walk _ _ _ _ E root 4 0).
Qed.

(** The entry of the last table on the path of [virt]. *)
Definition leaf_word (m : gmap Z Z) (root virt : Z) : Z :=
  let next n t := Z.land (rd m (slot t (pt_idx n virt))) VMM_ADDR_MASK in
  rd m (slot (next 2%nat (next 3%nat (next 4%nat root))) (pt_idx 1 virt)).

Lemma leaf_word_path T m root pt virt : path T m root pt virt -> leaf_word m root virt = rd m (slot pt (pt_idx 1 virt)).
Proof. intros (pdpt & pd & _ & _ & _ & (_ & _ & E4) & (_ & _ & E3) & (_ & _ & E2)). unfold leaf_word. by rewrite E4, E3, E2. Qed.

(** Under a virtual address whose path holds no huge page, what
    [vmm_map_into] promises. *)
Definition map_spec s T root phys virt flags (r : option unit) s' : Prop :=
  exists T', T ⊆ T' /\ pt_wf s' T' /\
  match r with
  | Some _ =>
      (forall virt', vpage virt' = vpage virt ->
         vmm_get_phys_into root virt' s' = Z.lor (Z.land phys VMM_ADDR_MASK) (Z.land virt' 0xFFF)) /\
      leaf_word (vm_mem s') root virt = Z.lor (Z.lor (Z.land phys (not64 0xFFF)) flags) VMM_PRESENT /\
      (forall root' virt', T !! root' = Some (4%nat, 0) -> vpage virt' <> vpage virt ->
         vmm_get_phys_into root' virt' s' = vmm_get_phys_into root' virt' s)
  | None =>
      forall root' virt', T !! root' = Some (4%nat, 0) ->
        vmm_get_phys_into root' virt' s' = vmm_get_phys_into root' virt' s
  end.

Lemma map_at_spec s T root phys virt flags :
  pt_wf s T -> T !! root = Some (4%nat, 0) -> clear_path 4 (vm_mem s) root virt ->
  Z.land flags VMM_ADDR_MASK = 0 ->
  map_spec s T root phys virt flags (map_at root phys virt flags s).1 (map_at root phys virt flags s).2.
Proof.
  intros W Hr Hc Hf. destruct (map_at_cases s T root phys virt flags W Hr Hc)
    as (s1 & T1 & E & [->|(pt & Hp & ->)]); exists T1; (split; [apply (ext_sub _ _ _ _ E)|]).
  - split; [apply (ext_wf _ _ _ _ E)|]. intros root' virt' Hr'. by eapply ext_same_phys.
  - pose proof (lookup_weaken _ _ _ _ Hr (ext_sub _ _ _ _ E)) as Hr1.
    destruct (leaf_entry_spec phys flags Hf) as [Hpr Hm].
    destruct (leaf_store s1 T1 root pt virt (leaf_entry phys flags) (ext_wf _ _ _ _ E) Hr1 Hp) as (W' & Hs & Ho).
    split; [exact W'|]. cbn [fst snd]. split; [|split].
    + intros virt' Ev. by rewrite Hs, Hpr, Hm.
    + cbn [with_mem vm_mem]. rewrite (leaf_word_path T1 _ root pt virt) by (by apply path_store; [apply (ext_wf _ _ _ _ E)|..]).
      by rewrite rd_insert, decide_True.
    + intros root' virt' Hr' Ev. rewrite Ho; [by eapply ext_same_phys| |done].
      exact (lookup_weaken _ _ _ _ Hr' (ext_sub _ _ _ _ E)).
Qed.

(** ** Unmapping *)

(** [vmm_unmap_into] clears the leaf at the end of a complete path and
    otherwise does nothing because the address translates to 0. *)
Lemma unmap_cases s T root virt :
  pt_wf s T -> T !! root = Some (4%nat, 0) -> clear_path 4 (vm_mem s) root virt ->
  (vmm_unmap_into root virt s = s /\
     forall virt', vpage virt' = vpage virt -> vmm_get_phys_into root virt' s = 0) \/
  exists pt, path T (vm_mem s) root pt virt /\
    vmm_unmap_into root virt s = with_mem s (<[slot pt (pt_idx 1 virt) := 0]> (vm_mem s)).
Proof.
  intros W Hr Hc. destruct (wf_page _ _ W _ _ _ Hr) as (_ & Hr0 & _).
  unfold vmm_unmap_into. destruct (Z.eqb_spec root 0); [lia|].
  rewrite (idx_code 39 4), (idx_code 30 3), (idx_code 21 2), (idx_code 12 1) by done.
  pose proof pt_idx_range as Hi. assert (Hp4 : pt_pfx 4 virt = 0) by apply Z.mod_1_r.
  assert (Hget : forall virt', vpage virt' = vpage virt -> vmm_get_phys_into root virt' s = walk 4 (vm_mem s) root virt')
    by (intros; apply get_phys_walk; lia).
  destruct (has (rd (vm_mem s) (slot root _)) VMM_PRESENT) eqn:P4; cbn [negb].
  2: { left. split; [done|]. intros virt' E. rewrite Hget by done. cbn [walk].
       rewrite (vpage_idx _ _ E), P4 by lia. done. }
  destruct (Hc P4) as [H4 C3]. set (pdpt := Z.land (rd (vm_mem s) (slot root _)) VMM_ADDR_MASK) in *.
  assert (L4 : link 4 (vm_mem s) root (pt_idx 4 virt) pdpt) by done.
  assert (T3 : T !! pdpt = Some (3%nat, pt_pfx 3 virt)).
  { rewrite (pfx_step 3), Hp4 by lia. apply (wf_next _ _ W root 3); (done || lia || apply Hi). }
  destruct (has (rd (vm_mem s) (slot pdpt _)) VMM_PRESENT) eqn:P3; cbn [negb].
  2: { left. split; [done|]. intros virt' E. rewrite Hget by done.
       rewrite (walk_link 2 _ root pdpt) by (by rewrite (vpage_idx _ _ E) by lia).
       cbn [walk]. rewrite (vpage_idx _ _ E), P3 by lia. done. }
  destruct (C3 P3) as [H3 C2]. rewrite (H3 : has _ VMM_HUGE = false). set (pd := Z.land (rd (vm_mem s) (slot pdpt _)) VMM_ADDR_MASK) in *.
  assert (L3 : link 3 (vm_mem s) pdpt (pt_idx 3 virt) pd) by done.
  assert (T2 : T !! pd = Some (2%nat, pt_pfx 2 virt)).
  { rewrite (pfx_step 2) by lia. apply (wf_next _ _ W pdpt 2); (done || lia || apply Hi). }
  destruct (has (rd (vm_mem s) (slot pd _)) VMM_PRESENT) eqn:P2; cbn [negb].
  2: { left. split; [done|]. intros virt' E. rewrite Hget by done.
       rewrite (walk_link 2 _ root pdpt), (walk_link 1 _ pdpt pd) by (by rewrite (vpage_idx _ _ E) by lia).
       cbn [walk]. rewrite (vpage_idx _ _ E), P2 by lia. done. }
  destruct (C2 P2) as [H2 _]. rewrite (H2 : has _ VMM_HUGE = false). right. eexists. split; [|reflexivity].
  exists pdpt, pd. split; [done|]. split; [done|]. split; [|done].
  rewrite (pfx_step 1) by lia. apply (wf_next _ _ W pd 1); (done || lia || apply Hi).
Qed.

(** ** Cloning the kernel root *)

Lemma make_user_ext s T :
  pt_wf s T -> T !! kernel_pml4 s = Some (4%nat, 0) ->
  let p := (vmm_make_user_pml4 s).1 in
  let s' := (vmm_make_user_pml4 s).2 in
  p <> 0 ->
  T !! p = None /\ pt_wf s' (<[p := (4%nat, 0)]> T) /\
  (forall q x j, T !! q = Some x -> 0 <= j < 512 -> rd (vm_mem s') (slot q j) = rd (vm_mem s) (slot q j)) /\
  (forall j, 0 <= j < 512 -> rd (vm_mem s') (slot p j) = rd (vm_mem s) (slot (kernel_pml4 s) j)).
Proof.
  intros W Hk. unfold vmm_make_user_pml4.
  pose proof (fs_alloc_spec ZONE_GREEN (vm_frames s) (wf_ok _ _ W)) as Hspec.
  destruct (fs_alloc ZONE_GREEN (vm_frames s)) as [p f]. cbn [fst snd] in Hspec.
  destruct Hspec as (Hok & Hmono & Hnew). destruct (Z.eqb_spec p 0) as [->|Hp0]; cbn [fst snd]; [done|].
  intros _. destruct (Hnew Hp0) as (Ha & Hr & Hfr & Ht).
  assert (Hne : forall q x, T !! q = Some x -> q <> p).
  { intros q [k w] Hq ->. apply Hfr. by apply (wf_page _ _ W p k w). }
  assert (Hal : forall q x, T !! q = Some x -> q mod 4096 = 0).
  { intros q [k w] Hq. by apply (wf_page _ _ W q k w). }
  assert (Hoff : forall q x j, T !! q = Some x -> 0 <= j < 512 -> off_page p (slot q j)).
  { intros q x j Hq Hj. apply off_page_slot; [done|by eapply Hal|done|]. symmetry. by eapply Hne. }
  destruct (fill_page p (fun i m => rd m (slot (kernel_pml4 s) i))
    (fun i => rd (vm_mem s) (slot (kernel_pml4 s) i)) (vm_mem s)) as [Hin Hout].
  { intros i m' Hi Hm. apply Hm. by eapply Hoff. }
  cbn [with_frames with_mem vm_mem vm_frames kernel_pml4].
  assert (Hold : forall q x j, T !! q = Some x -> 0 <= j < 512 ->
    rd (for_loop 512 0 (fun i m => <[slot p i := rd m (slot (kernel_pml4 s) i)]> m) (vm_mem s)) (slot q j)
    = rd (vm_mem s) (slot q j)) by (intros; apply Hout; by eapply Hoff).
  assert (HT : T !! p = None) by (destruct (T !! p) eqn:E; [by apply Hne in E|done]).
  assert (Hmono' : forall q y, T !! q = Some y -> <[p := (4%nat, 0)]> T !! q = Some y).
  { intros q y Hq. rewrite lookup_insert_ne; [done|]. symmetry. by eapply Hne. }
  split; [done|]. split; [|by split].
  constructor; cbn [vm_frames vm_mem]; [done|..].
  - intros q k w. rewrite lookup_insert. case_decide as E; [intros [= <- <-]; subst q; split_and!; (done || lia)|].
    intros Hq. destruct (wf_page _ _ W _ _ _ Hq) as (? & ? & ? & ?). split_and!; try done; try lia. by apply Hmono.
  - intros q k w j. rewrite lookup_insert. case_decide as E.
    + intros [= <- <-] Hk1 Hj. subst q. rewrite Hin by done. intros. by apply Hmono', (wf_next _ _ W (kernel_pml4 s)).
    + intros Hq Hk1 Hj. rewrite (Hold q (S k, w)) by done. intros. by apply Hmono', (wf_next _ _ W q).
Qed.

(** Equal entries give equal walks. *)
Lemma walk_same s T m' n t v virt :
  pt_wf s T -> T !! t = Some (n, v) ->
  (forall q x j, T !! q = Some x -> 0 <= j < 512 -> rd m' (slot q j) = rd (vm_mem s) (slot q j)) ->
  walk n m' t virt = walk n (vm_mem s) t virt.
Proof. intros W Ht Hm. eapply walk_grow; [done|done|]. intros q k w j Hq Hj. left. by eapply Hm. Qed.

End Proofs.

(** ** Properties *)

(** A concrete boot state: 64 managed frames from 1 MiB, whose first frame (the
    frame database) doubles as an empty kernel root. *)
Definition boot_vmm : vmm pmm := mk_vmm ∅ (pmm_init 0x100000 0x40000) 0x100000 0x100000.
Definition boot_tables : gmap Z (nat * Z) := {[ 0x100000 := (4%nat, 0) ]}.

Lemma boot_vmm_wf : pt_wf boot_vmm boot_tables.
Proof.
  constructor.
  - split; [apply pmm_init_inv; unfold PAGE_SIZE; lia|]. by vm_compute.
  - intros p n v Hp. unfold boot_tables in Hp. apply lookup_singleton_Some in Hp as [<- [= <- <-]].
    split; [done|]. split; [lia|]. split; [lia|]. exists 0. split; [by vm_compute|]. by vm_compute.
  - intros p n v i _ _ _. by vm_compute.
Qed.

(** C4: [vmm_map_into] installs exactly the requested mapping.  In a
    well-formed page-table tree, for an address with no huge page on its path
    and flags outside the address field: on success every address of that page
    translates to [phys]'s frame plus its page offset, the entry that maps it holds
    exactly that frame, the flags asked for and the present bit, and the
    translation of every other page under every root is unchanged; on failure (out of frames)
    no translation changes; either way the tree stays well formed. *)
Theorem vmm_map_into_correct {F} {FS : FrameSource F} (s : vmm F) T root phys virt flags :
  pt_wf s T -> T !! root = Some (4%nat, 0) -> clear_path 4 (vm_mem s) root virt ->
  Z.land flags VMM_ADDR_MASK = 0 ->
  let r := vmm_map_into root phys virt flags s in
  exists T', T ⊆ T' /\ pt_wf r.2 T' /\
  match r.1 with
  | Some _ =>
      (forall virt', vpage virt' = vpage virt ->
         vmm_get_phys_into root virt' r.2 = Z.lor (Z.land phys VMM_ADDR_MASK) (Z.land virt' 0xFFF)) /\
      leaf_word (vm_mem r.2) root virt = Z.lor (Z.lor (Z.land phys (not64 0xFFF)) flags) VMM_PRESENT /\
      (forall root' virt', T !! root' = Some (4%nat, 0) -> vpage virt' <> vpage virt ->
         vmm_get_phys_into root' virt' r.2 = vmm_get_phys_into root' virt' s)
  | None =>
      forall root' virt', T !! root' = Some (4%nat, 0) ->
        vmm_get_phys_into root' virt' r.2 = vmm_get_phys_into root' virt' s
  end.
Proof.
  intros W Hr Hc Hf. destruct (wf_page _ _ W _ _ _ Hr) as (_ & ? & _).
  unfold vmm_map_into. destruct (Z.eqb_spec root 0); [lia|].
  exact (map_at_spec s T root phys virt flags W Hr Hc Hf).
Qed.

Lemma vmm_map_into_correct_witness :
  pt_wf boot_vmm boot_tables /\
  vmm_get_phys_into 0x100000 0x7ff000000123 (vmm_map_into 0x100000 0x5000 0x7ff000000000 VMM_WRITE boot_vmm).2
    = 0x5123.
Proof.
  split; [exact boot_vmm_wf|].
  destruct (vmm_map_into_correct boot_vmm boot_tables 0x100000 0x5000 0x7ff000000000 VMM_WRITE)
    as (T' & _ & _ & H); [exact boot_vmm_wf|done|vm_compute; congruence|done|].
  assert (E : (vmm_map_into 0x100000 0x5000 0x7ff000000000 VMM_WRITE boot_vmm).1 = Some tt) by (by vm_compute).
  rewrite E in H. destruct H as [H _]. by rewrite (H 0x7ff000000123).
Defined.

(** [vmm_unmap_into] removes exactly one translation: afterwards the page
    translates to 0, every other page under every root translates as before,
    and the tree stays well formed. *)
Theorem vmm_unmap_into_correct {F} {FS : FrameSource F} (s : vmm F) T root virt :
  pt_wf s T -> T !! root = Some (4%nat, 0) -> clear_path 4 (vm_mem s) root virt ->
  let s' := vmm_unmap_into root virt s in
  pt_wf s' T /\
  (forall virt', vpage virt' = vpage virt -> vmm_get_phys_into root virt' s' = 0) /\
  (forall root' virt', T !! root' = Some (4%nat, 0) -> vpage virt' <> vpage virt ->
     vmm_get_phys_into root' virt' s' = vmm_get_phys_into root' virt' s).
Proof.
  intros W Hr Hc s'. destruct (unmap_cases s T root virt W Hr Hc) as [[E H0]|(pt & Hp & E)]; unfold s'; rewrite E.
  - by split_and!.
  - destruct (leaf_store s T root pt virt 0 W Hr Hp) as (W' & Hs & Ho). by split_and!.
Qed.

Lemma vmm_unmap_into_correct_witness :
  let s := (vmm_map_into 0x100000 0x5000 0x7ff000000000 VMM_WRITE boot_vmm).2 in
  vmm_get_phys_into 0x100000 0x7ff000000000 s = 0x5000 /\
  vmm_get_phys_into 0x100000 0x7ff000000000 (vmm_unmap_into 0x100000 0x7ff000000000 s) = 0.
Proof.
  intros s. split; [by vm_compute|].
  destruct (map_at_spec boot_vmm boot_tables 0x100000 0x5000 0x7ff000000000 VMM_WRITE boot_vmm_wf
    ltac:(done) ltac:(vm_compute; congruence) ltac:(done)) as (T' & Hs & W & _).
  eapply (vmm_unmap_into_correct s T'); [exact W|eapply lookup_weaken; [|exact Hs]; done|vm_compute; tauto|done].
Defined.

(** A new address space starts as a copy of the kernel's.  When
    [vmm_make_user_pml4] returns a root, that root is a fresh page, every
    address translates under it as under the kernel root, every existing
    address space is unchanged, and the tree stays well formed. *)
Theorem vmm_make_user_pml4_correct {F} {FS : FrameSource F} (s : vmm F) T :
  pt_wf s T -> T !! kernel_pml4 s = Some (4%nat, 0) ->
  let p := (vmm_make_user_pml4 s).1 in
  let s' := (vmm_make_user_pml4 s).2 in
  p <> 0 ->
  T !! p = None /\ pt_wf s' (<[p := (4%nat, 0)]> T) /\
  (forall virt, vmm_get_phys_into p virt s' = vmm_get_phys_into (kernel_pml4 s) virt s) /\
  (forall root virt, T !! root = Some (4%nat, 0) ->
     vmm_get_phys_into root virt s' = vmm_get_phys_into root virt s).
Proof.
  intros W Hk p s' Hp. destruct (make_user_ext s T W Hk Hp) as (HT & W' & Hold & Hnew).
  fold p s' in HT, W', Hold, Hnew. destruct (wf_page _ _ W _ _ _ Hk) as (_ & Hk0 & _).
  assert (Hold4 : forall root virt, T !! root = Some (4%nat, 0) ->
     vmm_get_phys_into root virt s' = vmm_get_phys_into root virt s).
  { intros root virt Hr. destruct (wf_page _ _ W _ _ _ Hr) as (_ & ? & _).
    rewrite !get_phys_walk by lia. by eapply (walk_same s T). }
  split_and!; [done|done| |done]. intros virt. rewrite <- (Hold4 _ virt Hk).
  rewrite !get_phys_walk by lia. cbn [walk].
  rewrite Hnew, (Hold _ _ _ Hk) by apply pt_idx_range. done.
Qed.

Lemma vmm_make_user_pml4_correct_witness :
  (vmm_make_user_pml4 boot_vmm).1 = 0x101000 /\ boot_tables !! 0x101000 = None.
Proof.
  assert (E : (vmm_make_user_pml4 boot_vmm).1 = 0x101000) by (by vm_compute).
  split; [exact E|]. rewrite <- E.
  apply (vmm_make_user_pml4_correct boot_vmm boot_tables); [exact boot_vmm_wf|done|]. rewrite E. done.
Defined.

(** Mapping over a huge page corrupts it.  When the level-2 entry on the
    path of [virt] is a present 2 MiB leaf, [vmm_map_into] does not refuse: it
    reports success, and the word it writes is the word of the huge page that
    some address of the same mapping translates to. *)
Theorem vmm_map_over_huge {F} {FS : FrameSource F} (s : vmm F) root pdpt pd e2 phys virt flags :
  root <> 0 -> pdpt <> 0 -> pd <> 0 -> 0 <= virt < 2 ^ 48 ->
  link 4 (vm_mem s) root (pt_idx 4 virt) pdpt -> link 3 (vm_mem s) pdpt (pt_idx 3 virt) pd ->
  e2 = rd (vm_mem s) (slot pd (pt_idx 2 virt)) ->
  has e2 VMM_PRESENT = true -> has e2 VMM_HUGE = true ->
  Z.land e2 VMM_ADDR_MASK <> 0 -> Z.land e2 VMM_ADDR_MASK mod 2 ^ 21 = 0 ->
  exists va word,
    vmm_map_into root phys virt flags s = (Some tt, with_mem s (<[word := leaf_entry phys flags]> (vm_mem s))) /\
    va / 2 ^ 21 = virt / 2 ^ 21 /\ vmm_get_phys_into root va s = word.
Proof.
  intros Hr H3 H2 Hv L4 L3 -> P2 Hh2 Hpt Hal. set (e2 := rd _ _) in *.
  set (pt := Z.land e2 VMM_ADDR_MASK) in *.
  pose proof (pt_idx_range 1 virt) as Hi.
  pose (va := virt / 2 ^ 21 * 2 ^ 21 + 8 * pt_idx 1 virt). exists va, (slot pt (pt_idx 1 virt)).
  assert (Hva : va / 2 ^ 21 = virt / 2 ^ 21 /\ va mod 2 ^ 21 = 8 * pt_idx 1 virt).
  { unfold va. change (2 ^ 21) with 2097152. Z.div_mod_to_equations; lia. }
  clearbody va. destruct Hva as [Hva Hlow].
  assert (Hidx : forall n, (2 <= n)%nat -> pt_idx n va = pt_idx n virt).
  { intros n Hn. unfold pt_idx. f_equal. replace (3 + 9 * Z.of_nat n) with (21 + (9 * Z.of_nat n - 18)) by lia.
    rewrite !Z.pow_add_r, <- !Z.div_div by lia. by rewrite Hva. }
  split; [|split; [exact Hva|]].
  - unfold vmm_map_into. destruct (Z.eqb_spec root 0); [done|]. unfold map_at.
    rewrite (idx_code 39 4), (idx_code 30 3), (idx_code 21 2), (idx_code 12 1) by done.
    destruct L4 as (P4 & _ & E4), L3 as (P3 & _ & E3).
    unfold mbind, require, alloc_table. rewrite P4, E4. destruct (Z.eqb_spec pdpt 0); [done|].
    rewrite P3, E3. destruct (Z.eqb_spec pd 0); [done|]. fold e2. rewrite P2. fold pt.
    destruct (Z.eqb_spec pt 0); [done|]. reflexivity.
  - rewrite get_phys_walk, (walk_link 2 _ root pdpt), (walk_link 1 _ pdpt pd)
      by (rewrite ?Hidx by lia; done).
    cbn [walk]. rewrite Hidx by lia. fold e2. rewrite P2. unfold huge_leaf. rewrite Hh2. cbn [negb].
    change ((2 <? 4)%nat && true) with true. cbv iota. fold pt.
    change (2 ^ (12 + 9 * Z.of_nat 1) - 1) with (2 ^ 21 - 1). rewrite land_low, Hlow by lia.
    unfold pt. rewrite land_huge_base by done. fold pt. unfold slot. rewrite Z.lor_comm.
    assert (Hq : pt = pt / 2 ^ 21 * 2 ^ 21)
      by (change (2 ^ 21) with 2097152 in *; Z.div_mod_to_equations; lia).
    rewrite Hq, lor_add_disjoint by lia. lia.
Qed.

Definition huge_vmm : vmm pmm :=
  mk_vmm (<[slot 0x100000 0 := 0x101007]> (<[slot 0x101000 0 := 0x102007]>
         (<[slot 0x102000 3 := 0x600083]> ∅))) (pmm_init 0x100000 0x40000) 0x100000 0x100000.

Lemma vmm_map_over_huge_witness :
  exists va word,
    vmm_map_into 0x100000 0x5000 0x604000 VMM_WRITE huge_vmm =
      (Some tt, with_mem huge_vmm (<[word := leaf_entry 0x5000 VMM_WRITE]> (vm_mem huge_vmm))) /\
    va / 2 ^ 21 = 0x604000 / 2 ^ 21 /\ vmm_get_phys_into 0x100000 va huge_vmm = word.
Proof.
  eapply (vmm_map_over_huge huge_vmm 0x100000 0x101000 0x102000 0x600083);
    try (by vm_compute); try lia.
Defined.
