(* ===== verification/Kmalloc.v ===== *)
(** * Kernel heap (kernel/mm/kmalloc.c)

    A first-fit allocator over an in-band, singly linked list of block headers
    that tiles the heap.  The pointer-level code is proved to refine operations
    on the list of blocks (size, free flag); the safety theorems are then
    statements about that list.  The [spin_lock_irqsave] / [irqrestore] pair
    around each operation restores the lock word and the interrupt flag on
    every path and is modelled in [Sync]. *)

From S2P Require Import Prelude.

(** ** Data *)

Definition HEAP_MAGIC : Z := 0xE7F00D1DEADBEEF.
Definition HEADER_SIZE : Z := 32.
Definition MIN_ALLOC : Z := 16.

(** [ALIGN_UP(x, a)] on [uint64_t] for a power of two [a]. *)
Definition ALIGN_UP (x a : Z) : Z := Z.land (u64 (u64 (x + a) - 1)) (not64 (a - 1)).

Record block_header := mk_hdr { bh_magic : Z; bh_size : Z; bh_free : Z; bh_next : Z }.

(** Headers by address; bytes never written as a header read as zero. *)
Record heap := mk_heap {
  h_mem : gmap Z block_header;
  g_heap_head : Z;
  g_heap_start : Z;
  g_heap_end : Z
}.

Definition rdh (st : heap) (a : Z) : block_header := default (mk_hdr 0 0 0 0) (h_mem st !! a).
Definition wrh (st : heap) (a : Z) (h : block_header) : heap :=
  mk_heap (<[a := h]> (h_mem st)) (g_heap_head st) (g_heap_start st) (g_heap_end st).

(** ** Operations *)

Definition kmalloc_init (heap_start heap_size : Z) (st : heap) : heap :=
  wrh (mk_heap (h_mem st) heap_start heap_start (u64 (heap_start + heap_size)))
      heap_start (mk_hdr HEAP_MAGIC (u64 (heap_size - HEADER_SIZE)) 1 0).

Definition in_heap (st : heap) (p : Z) : bool := (g_heap_start st <=? p) && (p <? g_heap_end st).

Definition valid_hdr (st : heap) (h : Z) : bool :=
  negb (h =? 0) && in_heap st h && (bh_magic (rdh st h) =? HEAP_MAGIC) && (0 <? bh_size (rdh st h)).

(** The [while (cur)] loop; the result is the returned pointer (0 is NULL). *)
Fixpoint kmalloc_scan (fuel : nat) (st : heap) (size cur : Z) : option (Z * heap) :=
  match fuel with
  | O => None
  | S fuel' =>
      if cur =? 0 then Some (0, st) else
      if negb (valid_hdr st cur) then Some (0, st) else
      let h := rdh st cur in
      if negb (bh_free h =? 0) && (size <=? bh_size h) then
        let remaining := u64 (bh_size h - size) in
        if HEADER_SIZE + MIN_ALLOC <=? remaining then
          let split := u64 (cur + HEADER_SIZE + size) in
          if negb (in_heap st split) then Some (0, st) else
          let st := wrh st split (mk_hdr HEAP_MAGIC (u64 (remaining - HEADER_SIZE)) 1 (bh_next h)) in
          let st := wrh st cur (mk_hdr (bh_magic h) size 0 split) in
          Some (u64 (cur + HEADER_SIZE), st)
        else
          let st := wrh st cur (mk_hdr (bh_magic h) (bh_size h) 0 (bh_next h)) in
          Some (u64 (cur + HEADER_SIZE), st)
      else kmalloc_scan fuel' st size (bh_next h)
  end.

Definition kmalloc (fuel : nat) (size : Z) (st : heap) : option (Z * heap) :=
  if (size =? 0) || (g_heap_head st =? 0) then Some (0, st) else
  let heap_size := u64 (g_heap_end st - g_heap_start st) in
  if heap_size <? size then Some (0, st) else
  let size := ALIGN_UP size 16 in
  let size := if size <? MIN_ALLOC then MIN_ALLOC else size in
  kmalloc_scan fuel st size (g_heap_head st).

(** The coalescing loop of [kfree]. *)
Fixpoint coalesce (fuel : nat) (st : heap) (cur : Z) : option heap :=
  match fuel with
  | O => None
  | S fuel' =>
      if cur =? 0 then Some st else
      let h := rdh st cur in
      if bh_next h =? 0 then Some st else
      if negb (valid_hdr st cur) || negb (valid_hdr st (bh_next h)) then Some st else
      let n := rdh st (bh_next h) in
      if negb (bh_free h =? 0) && negb (bh_free n =? 0) then
        coalesce fuel'
          (wrh st cur (mk_hdr (bh_magic h) (u64 (bh_size h + (HEADER_SIZE + bh_size n))) (bh_free h) (bh_next n)))
          cur
      else coalesce fuel' st (bh_next h)
  end.

Definition kfree (fuel : nat) (ptr : Z) (st : heap) : option heap :=
  if ptr =? 0 then Some st else
  if negb (in_heap st ptr) then Some st else
  let hdr := u64 (ptr - HEADER_SIZE) in
  if negb (valid_hdr st hdr) then Some st else
  let h := rdh st hdr in
  if negb (bh_free h =? 0) then Some st else
  let st := wrh st hdr (mk_hdr (bh_magic h) (bh_size h) 1 (bh_next h)) in
  coalesce fuel st (g_heap_head st).

(** ** The block list *)

Abbreviation block := (Z * bool)%type.

(** [bs] are the blocks from address [a] to address [z] of a heap ending at
    [e]; the last block of the heap has a null [next]. *)
Fixpoint chain (m : gmap Z block_header) (a : Z) (bs : list block) (z e : Z) : Prop :=
  match bs with
  | [] => a = z
  | (sz, fr) :: bs' =>
      let b := a + HEADER_SIZE + sz in
      m !! a = Some (mk_hdr HEAP_MAGIC sz (Z.b2z fr) (if b =? e then 0 else b)) /\
      0 < sz /\ sz mod 16 = 0 /\ b <= e /\ chain m b bs' z e
  end.

Record heap_inv (st : heap) (bs : list block) : Prop := {
  hi_chain : chain (h_mem st) (g_heap_start st) bs (g_heap_end st) (g_heap_end st);
  hi_start : 0 < g_heap_start st /\ g_heap_start st mod 16 = 0;
  hi_head : g_heap_head st = g_heap_start st;
  hi_end : g_heap_start st < g_heap_end st /\ g_heap_end st + 64 < 2 ^ 64
}.

(** First fit with splitting, on the list: payload address and new list. *)
Fixpoint first_fit (size a : Z) (bs : list block) : option (Z * list block) :=
  match bs with
  | [] => None
  | (sz, fr) :: bs' =>
      if fr && (size <=? sz) then
        if HEADER_SIZE + MIN_ALLOC <=? sz - size
        then Some (a + HEADER_SIZE, (size, false) :: (sz - size - HEADER_SIZE, true) :: bs')
        else Some (a + HEADER_SIZE, (sz, false) :: bs')
      else
        match first_fit size (a + HEADER_SIZE + sz) bs' with
        | Some (p, bs'') => Some (p, (sz, fr) :: bs'')
        | None => None
        end
  end.

(** Merging runs of free blocks. *)
Fixpoint merge_from (c : block) (rest : list block) : list block :=
  match rest with
  | [] => [c]
  | n :: rest' =>
      if c.2 && n.2 then merge_from (c.1 + (HEADER_SIZE + n.1), true) rest'
      else c :: merge_from n rest'
  end.

Definition merge (bs : list block) : list block :=
  match bs with [] => [] | c :: rest => merge_from c rest end.

(** Bytes the blocks span, headers included, and the payload size granted. *)
Fixpoint span (bs : list block) : Z :=
  match bs with [] => 0 | (sz, _) :: bs' => HEADER_SIZE + sz + span bs' end.

Definition round16 (size : Z) : Z := (size + 15) / 16 * 16.

(** Payload ranges of the blocks in use. *)
Fixpoint live (a : Z) (bs : list block) : list (Z * Z) :=
  match bs with
  | [] => []
  | (sz, fr) :: bs' =>
      (if fr then [] else [(a + HEADER_SIZE, sz)]) ++ live (a + HEADER_SIZE + sz) bs'
  end.

(** No two neighbouring free blocks. *)
Fixpoint coalesced (bs : list block) : bool :=
  match bs with
  | (_, f1) :: (((_, f2) :: _) as bs') => negb (f1 && f2) && coalesced bs'
  | _ => true
  end.

(** ** Lemmas on chains *)

(** The five conjuncts of a non-empty chain; the arithmetic ones are closed. *)
Ltac chain_cons := split; [try done|split; [lia|split; [try done|split; [lia|try done]]]].

Lemma span_nonneg m a bs z e : chain m a bs z e -> z = a + span bs /\ 0 <= span bs.
Proof.
  revert a. induction bs as [|[sz fr] bs IH]; intros a; simpl; [lia|].
  intros (_ & Hs & _ & _ & Hc). apply IH in Hc. unfold HEADER_SIZE in *. lia.
Qed.

Lemma span_mod m a bs z e : chain m a bs z e -> span bs mod 16 = 0.
Proof.
  revert a. induction bs as [|[sz fr] bs IH]; intros a; simpl; [done|].
  intros (_ & _ & Hm & _ & Hc). apply IH in Hc. unfold HEADER_SIZE in *. Z.div_mod_to_equations; lia.
Qed.

Lemma span_app bs bs' : span (bs ++ bs') = span bs + span bs'.
Proof. induction bs as [|[sz fr] bs IH]; simpl; lia. Qed.

Lemma chain_app m a pre post z e :
  chain m a (pre ++ post) z e <->
  chain m a pre (a + span pre) e /\ chain m (a + span pre) post z e.
Proof.
  revert a. induction pre as [|[sz fr] pre IH]; intros a; simpl.
  - rewrite Z.add_0_r. tauto.
  - rewrite IH. replace (a + HEADER_SIZE + sz + span pre) with (a + (HEADER_SIZE + sz + span pre)) by lia.
    tauto.
Qed.

(** A chain depends only on the memory it spans. *)
Lemma chain_ext m m' a bs z e :
  (forall b, a <= b < z -> m' !! b = m !! b) -> chain m a bs z e -> chain m' a bs z e.
Proof.
  revert a. induction bs as [|[sz fr] bs IH]; intros a Hm Hc; [done|].
  pose proof (span_nonneg _ _ _ _ _ Hc) as [Hz _]. cbn [chain span] in *.
  destruct Hc as (Hl & Hs & Ha & Hb & Hc). pose proof (span_nonneg _ _ _ _ _ Hc) as [Hz' Hn].
  unfold HEADER_SIZE in *. split_and!; [rewrite Hm by lia; done|lia|done|lia|].
  apply IH; [|done]. intros b' Hb'. apply Hm. lia.
Qed.

Lemma chain_insert m a bs z e b h :
  b < a \/ z <= b -> chain m a bs z e -> chain (<[b := h]> m) a bs z e.
Proof. intros Hb. apply chain_ext. intros b' Hb'. apply lookup_insert_ne. lia. Qed.

(** The pointer stored for the block after address [b]. *)
Definition ptr_to (b e : Z) : Z := if b =? e then 0 else b.

Section Refine.
Context (st : heap) (Hst : 0 < g_heap_start st) (Hend : g_heap_end st + 64 < 2 ^ 64).
Abbreviation s0 := (g_heap_start st).
Abbreviation e0 := (g_heap_end st).

Lemma rdh_chain m a sz fr bs z :
  chain m a ((sz, fr) :: bs) z e0 ->
  let st' := mk_heap m (g_heap_head st) s0 e0 in
  rdh st' a = mk_hdr HEAP_MAGIC sz (Z.b2z fr) (ptr_to (a + HEADER_SIZE + sz) e0) /\
  (s0 <= a -> valid_hdr st' a = true).
Proof.
  intros (Hl & Hs & _ & Hb & _). unfold valid_hdr, in_heap, rdh. cbn [h_mem g_heap_start g_heap_end].
  rewrite Hl. cbn [from_option id bh_magic bh_size]. split; [done|]. intros Ha. unfold HEADER_SIZE in *.
  destruct (Z.eqb_spec a 0); [lia|]. destruct (Z.leb_spec s0 a); [|lia].
  destruct (Z.ltb_spec a e0); [|lia]. rewrite Z.eqb_refl.
  by destruct (Z.ltb_spec 0 sz); [|lia].
Qed.

(** Taking block [a], split or whole. *)
Lemma scan_take m a sz bs size (fuel : nat) :
  chain m a ((sz, true) :: bs) e0 e0 -> s0 <= a ->
  0 < size -> size mod 16 = 0 -> size <= sz ->
  exists m' bs', kmalloc_scan (S fuel) (mk_heap m (g_heap_head st) s0 e0) size a =
      Some (a + HEADER_SIZE, mk_heap m' (g_heap_head st) s0 e0) /\
    first_fit size a ((sz, true) :: bs) = Some (a + HEADER_SIZE, bs') /\
    chain m' a bs' e0 e0 /\ (forall b, b < a -> m' !! b = m !! b).
Proof.
  intros Hc Ha H0 Hal Hsz. destruct (rdh_chain m a sz true bs e0 Hc) as [Hr Hv].
  destruct (Hc) as (Hl & Hs & Hsa & Hb & Hrest). unfold HEADER_SIZE in *.
  cbn [kmalloc_scan first_fit]. destruct (Z.eqb_spec a 0); [lia|].
  rewrite Hv, Hr by done. cbn [negb bh_free bh_size Z.b2z bh_magic bh_next].
  change (negb (1 =? 0)) with true. cbn [andb].
  destruct (Z.leb_spec size sz); [|lia]. rewrite (u64_small (sz - size)) by lia.
  unfold HEADER_SIZE, MIN_ALLOC. destruct (Z.leb_spec (32 + 16) (sz - size)) as [Hsp|Hsp].
  - rewrite (u64_small (a + 32 + size)), (u64_small (sz - size - 32)), (u64_small (a + 32)) by lia.
    assert (Hin : in_heap (mk_heap m (g_heap_head st) s0 e0) (a + 32 + size) = true).
    { unfold in_heap. cbn [g_heap_start g_heap_end].
      destruct (Z.leb_spec s0 (a + 32 + size)); [|lia]. by destruct (Z.ltb_spec (a + 32 + size) e0); [|lia]. }
    rewrite Hin. cbn [negb]. unfold wrh. cbn [h_mem g_heap_head g_heap_start g_heap_end]. do 2 eexists. split; [reflexivity|]. split; [reflexivity|]. split.
    + cbn [chain]. unfold HEADER_SIZE. rewrite lookup_insert_eq.
      destruct (Z.eqb_spec (a + 32 + size) e0); [lia|]. chain_cons.
      rewrite lookup_insert_ne, lookup_insert_eq by lia.
      replace (a + 32 + size + 32 + (sz - size - 32)) with (a + 32 + sz) by lia.
      chain_cons; [Z.div_mod_to_equations; lia|].
      apply chain_insert; [lia|]. apply chain_insert; [lia|]. done.
    + intros b Hb'. rewrite !lookup_insert_ne by lia. done.
  - rewrite (u64_small (a + 32)) by lia. unfold wrh. cbn [h_mem g_heap_head g_heap_start g_heap_end]. do 2 eexists. split; [reflexivity|]. split; [reflexivity|]. split.
    + cbn [chain]. unfold HEADER_SIZE. rewrite lookup_insert_eq.
      chain_cons. apply chain_insert; [lia|]. done.
    + intros b Hb'. by rewrite lookup_insert_ne by lia.
Qed.

Lemma scan_chain m a bs size (fuel : nat) :
  chain m a bs e0 e0 -> s0 <= a -> 0 < size -> size mod 16 = 0 -> (length bs < fuel)%nat ->
  match first_fit size a bs with
  | Some (p, bs') => exists m',
      kmalloc_scan fuel (mk_heap m (g_heap_head st) s0 e0) size (ptr_to a e0) =
        Some (p, mk_heap m' (g_heap_head st) s0 e0) /\
      chain m' a bs' e0 e0 /\ (forall b, b < a -> m' !! b = m !! b)
  | None =>
      kmalloc_scan fuel (mk_heap m (g_heap_head st) s0 e0) size (ptr_to a e0) =
        Some (0, mk_heap m (g_heap_head st) s0 e0)
  end.
Proof.
  revert a fuel. induction bs as [|[sz fr] bs IH]; intros a fuel Hc Ha H0 Hal Hf.
  - cbn [first_fit chain] in *. subst a. destruct fuel; [lia|]. unfold ptr_to. rewrite Z.eqb_refl. done.
  - destruct fuel as [|fuel]; [simpl in Hf; lia|]. assert (Hc' := Hc). destruct Hc' as (Hl & Hs & Hsa & Hb & Hrest).
    assert (Hae : ptr_to a e0 = a) by (unfold ptr_to, HEADER_SIZE in *; destruct (Z.eqb_spec a e0); lia).
    rewrite Hae. destruct (fr && (size <=? sz)) eqn:E.
    + apply andb_true_iff in E as [-> E]. apply Z.leb_le in E.
      destruct (scan_take m a sz bs size fuel Hc Ha H0 Hal E) as (m' & bs' & E1 & E2 & E3 & E4).
      rewrite E2. by exists m'.
    + destruct (rdh_chain m a sz fr bs e0 Hc) as [Hr Hv].
      cbn [first_fit kmalloc_scan]. rewrite E. destruct (Z.eqb_spec a 0); [lia|].
      rewrite Hv, Hr by done. cbn [negb bh_free bh_size bh_next].
      replace (negb (Z.b2z fr =? 0)) with fr by (by destruct fr). rewrite E.
      assert (IH' := IH (a + HEADER_SIZE + sz) fuel Hrest ltac:(unfold HEADER_SIZE; lia) H0 Hal ltac:(simpl in Hf; lia)).
      destruct (first_fit size (a + HEADER_SIZE + sz) bs) as [[p bs']|]; [|done].
      destruct IH' as (m' & E1 & E2 & E3). exists m'. split; [done|]. unfold HEADER_SIZE in *. split.
      * cbn [chain]. unfold HEADER_SIZE. rewrite E3 by lia. by chain_cons.
      * intros b Hb'. apply E3. lia.
Qed.

Lemma coalesce_chain m a c rest (fuel : nat) :
  chain m a (c :: rest) e0 e0 -> s0 <= a -> (length rest < fuel)%nat ->
  exists m', coalesce fuel (mk_heap m (g_heap_head st) s0 e0) a = Some (mk_heap m' (g_heap_head st) s0 e0) /\
    chain m' a (merge_from c rest) e0 e0 /\
    (forall b h, m !! b = Some h -> (b < a -> m' !! b = Some h) /\
       (bh_free h = 1 -> exists h', m' !! b = Some h' /\ bh_free h' = 1)).
Proof.
  revert m a c fuel. induction rest as [|[sn fn] rest IH]; intros m a [sz fr] fuel Hc Ha Hf;
    (destruct fuel as [|fuel]; [simpl in Hf; lia|]);
    destruct (rdh_chain m a sz fr _ e0 Hc) as [Hr Hv]; assert (Hc' := Hc);
    destruct Hc' as (Hl & Hs & Hsa & Hb & Hrest).
  - cbn [coalesce]. destruct (Z.eqb_spec a 0); [lia|]. rewrite Hr. cbn [bh_next].
    unfold ptr_to. cbn [chain] in Hrest. rewrite Hrest, Z.eqb_refl. cbn [Z.eqb].
    exists m. split; [done|]. split; [done|]. intros b h Hbh. split; [done|]. by exists h.
  - destruct (rdh_chain m (a + HEADER_SIZE + sz) sn fn rest e0 Hrest) as [Hrn Hvn].
    assert (Hrest' := Hrest). destruct Hrest' as (Hln & Hsn & Hsan & Hbn & Hrr). unfold HEADER_SIZE in *.
    assert (Hp : ptr_to (a + 32 + sz) e0 = a + 32 + sz)
      by (unfold ptr_to; destruct (Z.eqb_spec (a + 32 + sz) e0); lia).
    rewrite Hp in Hr. cbn [coalesce merge_from]. cbn [fst snd]. destruct (Z.eqb_spec a 0); [lia|]. rewrite Hr.
    cbn [bh_next bh_free bh_size bh_magic]. destruct (Z.eqb_spec (a + 32 + sz) 0); [lia|].
    rewrite Hv, Hvn by lia. cbn [negb orb]. rewrite Hrn. cbn [bh_next bh_free bh_size].
    replace (negb (Z.b2z fr =? 0)) with fr by (by destruct fr).
    replace (negb (Z.b2z fn =? 0)) with fn by (by destruct fn).
    destruct (fr && fn) eqn:E.
    + apply andb_true_iff in E as [-> ->]. unfold wrh. cbn [h_mem g_heap_head g_heap_start g_heap_end].
      unfold HEADER_SIZE. rewrite u64_small by lia.
      destruct (IH (<[a := mk_hdr HEAP_MAGIC (sz + (32 + sn)) (Z.b2z true) (ptr_to (a + 32 + sz + 32 + sn) e0)]> m)
                  a (sz + (32 + sn), true) fuel) as (m' & E1 & E2 & E3).
      * cbn [chain]. unfold HEADER_SIZE. rewrite lookup_insert_eq.
        replace (a + 32 + (sz + (32 + sn))) with (a + 32 + sz + 32 + sn) by lia.
        chain_cons; [Z.div_mod_to_equations; lia|]. apply chain_insert; [lia|done].
      * done.
      * simpl in Hf. lia.
      * exists m'. split; [done|]. split; [done|]. intros b h Hbh. destruct (decide (b = a)) as [->|Hne].
        -- split; [lia|]. intros _. eapply E3; [apply lookup_insert_eq|done].
        -- apply E3. by rewrite lookup_insert_ne by lia.
    + destruct (IH m (a + 32 + sz) (sn, fn) fuel Hrest ltac:(lia) ltac:(simpl in Hf; lia)) as (m' & E1 & E2 & E3).
      exists m'. split; [done|]. split.
      * cbn [chain]. unfold HEADER_SIZE. destruct (E3 a _ Hl) as [-> _]; [by chain_cons|lia].
      * intros b h Hbh. destruct (E3 b h Hbh) as [E4 E5]. split; [|done]. intros. apply E4. lia.
Qed.

End Refine.

(** ** The block-list operations *)

Lemma align_up_16 x : 0 <= x -> x + 16 < 2 ^ 64 -> ALIGN_UP x 16 = round16 x.
Proof.
  intros H0 H1. unfold ALIGN_UP, round16. rewrite (u64_small (x + 16)), u64_small by lia.
  replace (x + 16 - 1) with (x + 15) by lia. change (16 - 1) with (2 ^ 4 - 1).
  rewrite land_high by lia. done.
Qed.

Lemma first_fit_none size a bs :
  first_fit size a bs = None -> forall sz, In (sz, true) bs -> sz < size.
Proof.
  revert a. induction bs as [|[s0 f0] bs IH]; intros a H sz Hin; [done|]. cbn [first_fit] in H.
  destruct (f0 && (size <=? s0)) eqn:E; [by case_match|].
  destruct (first_fit size (a + HEADER_SIZE + s0) bs) as [[p l]|] eqn:E1; [done|].
  destruct Hin as [Heq|Hin]; [|by eapply IH].
  injection Heq as -> ->. cbn [andb] in E. apply Z.leb_gt in E. done.
Qed.

(** What first fit changes: one free block becomes the granted block, the
    remainder (if split off) staying free. *)
Lemma first_fit_some size a bs p bs' :
  first_fit size a bs = Some (p, bs') ->
  exists pre sz post g tail, bs = pre ++ (sz, true) :: post /\ bs' = pre ++ (g, false) :: tail /\
    p = a + span pre + HEADER_SIZE /\ size <= g < size + HEADER_SIZE + MIN_ALLOC /\ g <= sz /\
    ((g = sz /\ tail = post) \/ (g = size /\ tail = (sz - size - HEADER_SIZE, true) :: post)).
Proof.
  revert a p bs'. induction bs as [|[s0 f0] bs IH]; intros a p bs' H; [done|]. cbn [first_fit] in H.
  unfold HEADER_SIZE, MIN_ALLOC in *. destruct (f0 && (size <=? s0)) eqn:E.
  - apply andb_true_iff in E as [-> E]. apply Z.leb_le in E.
    destruct (Z.leb_spec (32 + 16) (s0 - size)); injection H as <- <-.
    + exists [], s0, bs, size, ((s0 - size - 32, true) :: bs). simpl. split_and!; try (done || lia). by right.
    + exists [], s0, bs, s0, bs. simpl. split_and!; try (done || lia). by left.
  - destruct (first_fit size (a + 32 + s0) bs) as [[q l]|] eqn:E1; [|done]. injection H as <- <-.
    destruct (IH _ _ _ E1) as (pre & sz & post & g & tail & -> & -> & -> & Hg & Hsz & Ht).
    exists ((s0, f0) :: pre), sz, post, g, tail. cbn [span]. unfold HEADER_SIZE.
    split_and!; try (done || lia).
Qed.

Lemma live_app a bs bs' : live a (bs ++ bs') = live a bs ++ live (a + span bs) bs'.
Proof.
  revert a. induction bs as [|[sz fr] bs IH]; intros a; simpl; [by rewrite Z.add_0_r|].
  rewrite IH, app_assoc. do 2 f_equal. lia.
Qed.

Lemma merge_from_span c rest : span (merge_from c rest) = span (c :: rest).
Proof.
  revert c. induction rest as [|[sn fn] rest IH]; intros [sz fr]; [done|].
  cbn [merge_from fst snd]. destruct (fr && fn); [rewrite IH|cbn [span]; rewrite IH]; cbn [span]; lia.
Qed.

Lemma merge_from_live a c rest : live a (merge_from c rest) = live a (c :: rest).
Proof.
  revert a c. induction rest as [|[sn fn] rest IH]; intros a [sz fr]; [done|].
  cbn [merge_from fst snd]. destruct (fr && fn) eqn:E.
  - apply andb_true_iff in E as [-> ->]. rewrite IH. cbn [live app]. f_equal. lia.
  - cbn [live]. by rewrite IH.
Qed.

Lemma merge_live a bs : live a (merge bs) = live a bs.
Proof. destruct bs; [done|]. apply merge_from_live. Qed.

Lemma merge_from_head c rest : exists sz rest', merge_from c rest = (sz, c.2) :: rest'.
Proof.
  revert c. induction rest as [|[sn fn] rest IH]; intros [sz fr]; [by exists sz, []|].
  cbn [merge_from fst snd]. destruct (fr && fn) eqn:E; [|by eexists _, _].
  apply andb_true_iff in E as [-> ->]. apply IH.
Qed.

Lemma merge_from_coalesced c rest : coalesced (merge_from c rest) = true.
Proof.
  revert c. induction rest as [|[sn fn] rest IH]; intros [sz fr]; [done|].
  cbn [merge_from fst snd]. destruct (fr && fn) eqn:E; [apply IH|].
  specialize (IH (sn, fn)). destruct (merge_from_head (sn, fn) rest) as (s1 & r1 & Hh). rewrite Hh in *.
  cbn [snd coalesced] in *. by rewrite E, IH.
Qed.

Lemma merge_from_id c rest : coalesced (c :: rest) = true -> merge_from c rest = c :: rest.
Proof.
  revert c. induction rest as [|[sn fn] rest IH]; intros [sz fr] H; [done|].
  cbn [merge_from fst snd]. cbn [coalesced] in H. apply andb_true_iff in H as [H1 H2].
  apply negb_true_iff in H1. rewrite H1. f_equal. by apply IH.
Qed.

Lemma merge_prefix pre c rest :
  coalesced (pre ++ [c]) = true -> merge (pre ++ c :: rest) = pre ++ merge_from c rest.
Proof.
  destruct pre as [|b pre]; [done|]. cbn [app merge]. revert b.
  induction pre as [|b' pre IH]; intros b H.
  - destruct b as [sb fb], c as [sc fc]. cbn [app coalesced] in H. cbn [app merge_from fst snd].
    apply andb_true_iff in H as [H _]. apply negb_true_iff in H. by rewrite H.
  - destruct b as [sb fb], b' as [sb' fb']. cbn [app coalesced] in H. apply andb_true_iff in H as [H1 H2].
    apply negb_true_iff in H1. cbn [app merge_from fst snd]. rewrite H1. f_equal. by apply IH.
Qed.

Lemma coalesced_app pre rest :
  coalesced (pre ++ rest) = true -> coalesced pre = true /\ coalesced rest = true.
Proof.
  induction pre as [|[s1 f1] pre IH]; [done|]. cbn [app]. destruct pre as [|[s2 f2] pre].
  - cbn [app coalesced]. destruct rest as [|[sr fr] rest]; [done|]. intros H. by apply andb_true_iff in H as [_ ?].
  - cbn [app coalesced] in *. intros H. apply andb_true_iff in H as [H1 H2].
    destruct (IH H2) as [H3 H4]. by rewrite H1, H3.
Qed.

(** ** Properties *)

Lemma heap_eta st : mk_heap (h_mem st) (g_heap_head st) (g_heap_start st) (g_heap_end st) = st.
Proof. by destruct st. Qed.

Lemma kmalloc_refines st bs n (fuel : nat) :
  heap_inv st bs -> 0 < n <= g_heap_end st - g_heap_start st -> (length bs < fuel)%nat ->
  match first_fit (round16 n) (g_heap_start st) bs with
  | Some (p, bs') => exists st', kmalloc fuel n st = Some (p, st') /\ heap_inv st' bs' /\
      g_heap_start st' = g_heap_start st /\ g_heap_end st' = g_heap_end st
  | None => kmalloc fuel n st = Some (0, st)
  end.
Proof.
  intros [Hc [Hs Hsa] Hh [He1 He2]] Hn Hf. unfold kmalloc.
  destruct (Z.eqb_spec n 0); [lia|]. destruct (Z.eqb_spec (g_heap_head st) 0); [lia|]. cbn [orb].
  rewrite u64_small by lia. destruct (Z.ltb_spec (g_heap_end st - g_heap_start st) n); [lia|].
  rewrite align_up_16 by lia.
  assert (Hr : 16 <= round16 n /\ round16 n mod 16 = 0) by (unfold round16; Z.div_mod_to_equations; lia).
  unfold MIN_ALLOC. destruct (Z.ltb_spec (round16 n) 16); [lia|].
  pose proof (scan_chain st Hs He2 (h_mem st) (g_heap_start st) bs (round16 n) fuel Hc) as HS.
  specialize (HS ltac:(lia) ltac:(lia) ltac:(lia) Hf). rewrite heap_eta in HS.
  assert (Hp : ptr_to (g_heap_start st) (g_heap_end st) = g_heap_head st)
    by (unfold ptr_to; destruct (Z.eqb_spec (g_heap_start st) (g_heap_end st)); lia).
  rewrite Hp in HS. destruct (first_fit _ _ bs) as [[p bs']|]; [|exact HS].
  destruct HS as (m' & E1 & E2 & _). eexists. split; [exact E1|]. split; [|done]. by constructor.
Qed.

Lemma chain_sizes m a bs z e sz fr : chain m a bs z e -> In (sz, fr) bs -> 0 < sz < z - a.
Proof.
  revert a. induction bs as [|[s f] bs IH]; intros a Hc Hin; [done|].
  pose proof (span_nonneg _ _ _ _ _ Hc) as [Hz _]. destruct Hc as (_ & Hs & _ & _ & Hc).
  pose proof (span_nonneg _ _ _ _ _ Hc) as [Hz' Hn]. cbn [span] in *. unfold HEADER_SIZE in *.
  destruct Hin as [[= -> ->]|Hin]; [lia|]. specialize (IH _ Hc Hin). lia.
Qed.

(** Live payloads lie inside the range of the chain, header gaps apart. *)
Lemma live_bounds m a bs z e q s :
  chain m a bs z e -> In (q, s) (live a bs) -> a + HEADER_SIZE <= q /\ 0 < s /\ q + s <= z.
Proof.
  revert a. induction bs as [|[sz fr] bs IH]; intros a Hc Hin; [done|].
  pose proof (span_nonneg _ _ _ _ _ Hc) as [Hz _]. destruct Hc as (_ & Hs & _ & _ & Hc).
  pose proof (span_nonneg _ _ _ _ _ Hc) as [Hz' Hn]. cbn [span live] in *. unfold HEADER_SIZE in *.
  apply in_app_iff in Hin as [Hin|Hin].
  - destruct fr; [done|]. destruct Hin as [[= <- <-]|[]]. lia.
  - specialize (IH _ Hc Hin). lia.
Qed.

Definition apart (p g q s : Z) : Prop := p + g + HEADER_SIZE <= q \/ q + s + HEADER_SIZE <= p.

(** C5: [kmalloc] is a correct allocator.  On a well-formed heap, for every
    positive request and enough fuel for one pass over the blocks, it returns
    and either hands out a 16-byte aligned, non-null payload of at least the
    requested size inside the heap, a header away from every live payload,
    leaving all live payloads as they were and the heap well formed; or it
    returns NULL with the heap unchanged, and then no free block is large
    enough for the rounded request. *)
Theorem kmalloc_correct st bs n (fuel : nat) :
  heap_inv st bs -> 0 < n < 2 ^ 64 -> (length bs < fuel)%nat ->
  let a := g_heap_start st in
  (exists p g st' bs' l1 l2, kmalloc fuel n st = Some (p, st') /\ heap_inv st' bs' /\
     n <= g /\ p mod 16 = 0 /\ a + HEADER_SIZE <= p /\ p + g <= g_heap_end st /\
     live a bs = l1 ++ l2 /\ live a bs' = l1 ++ (p, g) :: l2 /\
     (forall q s, In (q, s) (live a bs) -> apart p g q s)) \/
  (kmalloc fuel n st = Some (0, st) /\ forall sz, In (sz, true) bs -> sz < round16 n).
Proof.
  intros I Hn Hf a. assert (I0 := I). destruct I0 as [Hc [Hs Hsa] Hh [He1 He2]].
  assert (Hr : n <= round16 n) by (unfold round16; Z.div_mod_to_equations; lia).
  destruct (Z.ltb_spec (g_heap_end st - g_heap_start st) n) as [Hbig|Hfit].
  { right. split.
    - unfold kmalloc. rewrite u64_small by lia. destruct (_ || _); [done|].
      destruct (Z.ltb_spec (g_heap_end st - g_heap_start st) n); [done|lia].
    - intros sz Hin. pose proof (chain_sizes _ _ _ _ _ _ _ Hc Hin). lia. }
  pose proof (kmalloc_refines st bs n fuel I ltac:(lia) Hf) as H. fold a in H.
  destruct (first_fit (round16 n) a bs) as [[p bs']|] eqn:E.
  2: { right. split; [exact H|]. by eapply first_fit_none. }
  left. destruct H as (st' & Hk & I' & Es & Ee).
  destruct (first_fit_some _ _ _ _ _ E) as (pre & sz & post & g & tail & -> & -> & -> & Hg & Hgs & Ht).
  assert (Hc' := hi_chain _ _ I'). rewrite Es, Ee in Hc'. fold a in Hc'.
  apply chain_app in Hc as [Hpre (_ & _ & _ & _ & Hpost)], Hc' as [Hpre' (_ & Hg0 & _ & Hge & Htail)].
  assert (Hl : live a (pre ++ (g, false) :: tail) =
               live a pre ++ (a + span pre + HEADER_SIZE, g) :: live (a + span pre + HEADER_SIZE + sz) post).
  { rewrite live_app. cbn [live app]. do 2 f_equal. destruct Ht as [[-> ->]|[-> ->]]; [done|].
    cbn [live app]. f_equal. lia. }
  exists (a + span pre + HEADER_SIZE), g, st', (pre ++ (g, false) :: tail), (live a pre),
    (live (a + span pre + HEADER_SIZE + sz) post).
  pose proof (span_nonneg _ _ _ _ _ Hpre) as [_ Hsp].
  split; [done|]. split; [done|]. unfold HEADER_SIZE in *. split_and!; [lia| |lia|lia|by rewrite live_app|done|].
  - pose proof (span_mod _ _ _ _ _ Hpre). unfold a. Z.div_mod_to_equations; lia.
  - intros q s Hin. rewrite live_app in Hin. apply in_app_iff in Hin as [Hin|Hin].
    + right. pose proof (live_bounds _ _ _ _ _ _ _ Hpre Hin). unfold HEADER_SIZE in *. lia.
    + left. cbn [live app] in Hin. pose proof (live_bounds _ _ _ _ _ _ _ Hpost Hin). unfold HEADER_SIZE in *. lia.
Qed.

(** The heap at boot is one free block. *)
Lemma kmalloc_init_inv heap_start heap_size st :
  0 < heap_start -> heap_start mod 16 = 0 -> HEADER_SIZE < heap_size -> heap_size mod 16 = 0 ->
  heap_start + heap_size + 64 < 2 ^ 64 ->
  heap_inv (kmalloc_init heap_start heap_size st) [(heap_size - HEADER_SIZE, true)].
Proof.
  intros H0 H1 H2 H3 H4. unfold kmalloc_init, HEADER_SIZE in *. rewrite !u64_small by lia.
  constructor; cbn [wrh h_mem g_heap_head g_heap_start g_heap_end chain]; try (done || lia).
  unfold HEADER_SIZE. rewrite lookup_insert_eq.
  replace (heap_start + 32 + (heap_size - 32)) with (heap_start + heap_size) by lia. rewrite Z.eqb_refl.
  chain_cons. Z.div_mod_to_equations; lia.
Qed.

Definition heap4k : heap := kmalloc_init 0x200000 0x1000 (mk_heap ∅ 0 0 0).

Lemma heap4k_inv : heap_inv heap4k [(0xFE0, true)].
Proof. by apply (kmalloc_init_inv 0x200000 0x1000). Qed.

Lemma kmalloc_correct_witness :
  heap_inv heap4k [(0xFE0, true)] /\
  exists p g st' bs', kmalloc 2 100 heap4k = Some (p, st') /\ heap_inv st' bs' /\ 100 <= g /\ p mod 16 = 0.
Proof.
  split; [exact heap4k_inv|].
  destruct (kmalloc_correct heap4k [(0xFE0, true)] 100 2 heap4k_inv ltac:(lia) ltac:(simpl; lia))
    as [(p & g & st' & bs' & l1 & l2 & E & I & Hg & Hp & _)|[_ H]].
  - exists p, g, st', bs'. done.
  - specialize (H 0xFE0 (or_introl eq_refl)). vm_compute in H. done.
Defined.

(** Freeing the block behind prefix [pre]. *)
Lemma kfree_refines st pre sz post (fuel : nat) :
  heap_inv st (pre ++ (sz, false) :: post) ->
  let bs := pre ++ (sz, true) :: post in
  let hdr := g_heap_start st + span pre in
  (length bs < fuel)%nat ->
  exists st', kfree fuel (hdr + HEADER_SIZE) st = Some st' /\ heap_inv st' (merge bs) /\
    g_heap_start st' = g_heap_start st /\ g_heap_end st' = g_heap_end st /\
    negb (bh_free (rdh st' hdr) =? 0) = true.
Proof.
  intros [Hc [Hs Hsa] Hh [He1 He2]] bs hdr Hf. apply chain_app in Hc as [Hpre Hmid].
  destruct (span_nonneg _ _ _ _ _ Hpre) as [_ Hsp].
  destruct (rdh_chain st Hs (h_mem st) hdr sz false post (g_heap_end st) Hmid) as [Hr Hv].
  rewrite heap_eta in Hr, Hv. destruct (Hmid) as (Hl & Hsz & Hal & Hle & Hpost). fold hdr in Hl, Hle, Hpost.
  unfold HEADER_SIZE in *. unfold kfree. destruct (Z.eqb_spec (hdr + 32) 0); [lia|].
  assert (Hin : in_heap st (hdr + 32) = true).
  { unfold in_heap. destruct (Z.leb_spec (g_heap_start st) (hdr + 32)); [|lia].
    by destruct (Z.ltb_spec (hdr + 32) (g_heap_end st)); [|lia]. }
  rewrite Hin. cbn [negb]. unfold HEADER_SIZE. replace (hdr + 32 - 32) with hdr by lia.
  rewrite (u64_small hdr) by lia. rewrite Hv, Hr by lia. cbn [negb bh_free Z.b2z bh_magic bh_size bh_next].
  change (0 =? 0) with true. cbn [negb]. unfold wrh. cbn [g_heap_head].
  set (h1 := mk_hdr _ _ 1 _). set (m1 := <[hdr := h1]> (h_mem st)).
  assert (Hc1 : chain m1 (g_heap_start st) bs (g_heap_end st) (g_heap_end st)).
  { apply chain_app. split; [apply chain_insert; [right; lia|done]|]. fold hdr. cbn [chain].
    unfold m1, HEADER_SIZE. rewrite lookup_insert_eq. chain_cons. apply chain_insert; [lia|done]. }
  destruct bs as [|c rest] eqn:Ebs; [by destruct pre|]. simpl in Hf.
  destruct (coalesce_chain st Hs He2 m1 (g_heap_start st) c rest fuel) as (m' & E1 & E2 & E3); [done|lia|lia|].
  rewrite Hh. rewrite Hh in E1. rewrite E1. eexists. split; [reflexivity|].
  split; [by constructor|]. split; [done|]. split; [done|].
  destruct (E3 hdr h1) as [_ (h' & Hh' & Hfr)]; [apply lookup_insert_eq|done|].
  unfold rdh. cbn [h_mem]. rewrite Hh'. cbn [from_option id]. by rewrite Hfr.
Qed.

(** [kfree] releases exactly one allocation.  Freeing the pointer of a
    live block returns, removes that block's payload from the live ones and no
    other, leaves the heap well formed, and leaves no two neighbouring free
    blocks: the coalescing pass merges every run. *)
Theorem kfree_correct st pre sz post (fuel : nat) :
  heap_inv st (pre ++ (sz, false) :: post) -> (length (pre ++ (sz, false) :: post) < fuel)%nat ->
  let a := g_heap_start st in
  let p := a + span pre + HEADER_SIZE in
  exists st' bs' l1 l2, kfree fuel p st = Some st' /\ heap_inv st' bs' /\
    live a (pre ++ (sz, false) :: post) = l1 ++ (p, sz) :: l2 /\ live a bs' = l1 ++ l2 /\
    coalesced bs' = true.
Proof.
  intros I Hf a p. destruct (kfree_refines st pre sz post fuel I) as (st' & E & I' & _).
  { rewrite length_app in *. simpl in *. lia. }
  exists st', (merge (pre ++ (sz, true) :: post)), (live a pre), (live (p + sz) post).
  split; [exact E|]. split; [exact I'|]. split; [|split].
  - rewrite live_app. cbn [live app]. done.
  - rewrite merge_live, live_app. cbn [live app]. done.
  - destruct pre as [|c pre]; cbn [app merge]; apply merge_from_coalesced.
Qed.

(** Freeing what was just allocated restores the heap.  If no two free
    blocks were neighbours and [kmalloc] succeeds, [kfree] of the returned
    pointer brings back exactly the previous block list: a split block is
    merged with its remainder and nothing is lost. *)
Theorem kmalloc_kfree_roundtrip st bs n p st' (fuel : nat) :
  heap_inv st bs -> coalesced bs = true -> 0 < n <= g_heap_end st - g_heap_start st ->
  (length bs + 1 < fuel)%nat -> kmalloc fuel n st = Some (p, st') -> p <> 0 ->
  exists st'', kfree fuel p st' = Some st'' /\ heap_inv st'' bs.
Proof.
  intros I Hco Hn Hf Hk Hp. pose proof (kmalloc_refines st bs n fuel I Hn ltac:(lia)) as HS.
  destruct (first_fit (round16 n) (g_heap_start st) bs) as [[p' bs']|] eqn:E; [|congruence].
  destruct HS as (st1 & Hk' & I' & Es & _). rewrite Hk in Hk'. injection Hk' as <- <-.
  destruct (first_fit_some _ _ _ _ _ E) as (pre & sz & post & g & tail & -> & -> & -> & Hg & Hgs & Ht).
  destruct (kfree_refines st' pre g tail fuel I') as (st2 & E2 & I2 & _).
  { rewrite length_app in *. destruct Ht as [[_ ->]|[_ ->]]; simpl in *; lia. }
  rewrite Es in E2. exists st2. split; [exact E2|].
  replace (pre ++ (sz, true) :: post) with (merge (pre ++ (g, true) :: tail)); [done|].
  destruct (coalesced_app pre _ Hco) as [_ Hc2].
  assert (Hc1 : coalesced (pre ++ [(g, true)]) = true).
  { replace (pre ++ (sz, true) :: post) with ((pre ++ [(sz, true)]) ++ post) in Hco by (by rewrite <- app_assoc).
    apply coalesced_app in Hco as [Hco _]. clear -Hco. induction pre as [|[s f] pre IH]; [done|].
    destruct pre as [|[s' f'] pre]; cbn [app coalesced] in *; [done|].
    apply andb_true_iff in Hco as [-> H2]. by apply IH. }
  rewrite merge_prefix by done. f_equal. destruct Ht as [[-> ->]|[-> ->]].
  - by apply merge_from_id.
  - cbn [merge_from fst snd andb]. replace (round16 n + (HEADER_SIZE + (sz - round16 n - HEADER_SIZE))) with sz by lia.
    by apply merge_from_id.
Qed.

(** A double [kfree] is harmless.  Freeing a live block a second time
    changes nothing: the block's header, even when it has been absorbed by its
    predecessor, still says free. *)
Theorem kfree_twice st pre sz post (fuel : nat) :
  heap_inv st (pre ++ (sz, false) :: post) -> (length (pre ++ (sz, false) :: post) < fuel)%nat ->
  let p := g_heap_start st + span pre + HEADER_SIZE in
  exists st', kfree fuel p st = Some st' /\ kfree fuel p st' = Some st'.
Proof.
  intros I Hf p. assert (I0 := I). destruct I0 as [Hc [Hs _] _ [He1 He2]]. apply chain_app in Hc as [Hpre Hmid].
  destruct (span_nonneg _ _ _ _ _ Hpre) as [_ Hsp]. destruct (Hmid) as (_ & Hsz & _ & Hle & _).
  destruct (kfree_refines st pre sz post fuel I) as (st' & E & I' & Es & Ee & Hfree).
  { rewrite length_app in *. simpl in *. lia. }
  exists st'. split; [exact E|]. unfold kfree.
  destruct (p =? 0); [done|]. destruct (negb (in_heap st' p)); [done|].
  unfold p, HEADER_SIZE in *. replace (g_heap_start st + span pre + 32 - 32) with (g_heap_start st + span pre) by lia.
  rewrite u64_small by lia. destruct (negb (valid_hdr st' _)); [done|]. by rewrite Hfree.
Qed.

(** [kmalloc(100)] on the 4 KiB heap: the first block in use, the rest free. *)
Definition heap4k_used : heap := default heap4k (snd <$> kmalloc 3 100 heap4k).

Lemma heap4k_used_inv : heap_inv heap4k_used ([] ++ (112, false) :: [(0xF50, true)]).
Proof.
  pose proof (kmalloc_refines heap4k _ 100 3 heap4k_inv ltac:(split; [lia|by vm_compute]) ltac:(simpl; lia)) as HS.
  destruct HS as (st' & E & I & _). unfold heap4k_used. rewrite E. exact I.
Qed.

Lemma kfree_correct_witness :
  exists st' bs', kfree 3 0x200020 heap4k_used = Some st' /\ heap_inv st' bs' /\ coalesced bs' = true.
Proof.
  destruct (kfree_correct heap4k_used [] 112 [(0xF50, true)] 3 heap4k_used_inv ltac:(simpl; lia))
    as (st' & bs' & l1 & l2 & E & I & _ & _ & Hc).
  exists st', bs'. exact (conj E (conj I Hc)).
Defined.

Lemma kmalloc_kfree_roundtrip_witness :
  exists st'', kfree 3 0x200020 heap4k_used = Some st'' /\ heap_inv st'' [(0xFE0, true)].
Proof.
  apply (kmalloc_kfree_roundtrip heap4k [(0xFE0, true)] 100 0x200020 heap4k_used 3);
    [exact heap4k_inv|done|split; [lia|by vm_compute]|simpl; lia|by vm_compute|lia].
Defined.

Lemma kfree_twice_witness :
  exists st', kfree 3 0x200020 heap4k_used = Some st' /\ kfree 3 0x200020 st' = Some st'.
Proof.
  exact (kfree_twice heap4k_used [] 112 [(0xF50, true)] 3 heap4k_used_inv ltac:(simpl; lia)).
Defined.

(** ** Interface to the heap *)

Class Allocator (H : Type) := {
  al_alloc : Z -> H -> Z * H;   (* the pointer, 0 when there is no memory *)
  al_free : Z -> H -> H
}.

(** [kmalloc] and [kfree]; a walk visits at most every header once. *)
#[export] Instance kmalloc_allocator : Allocator heap := {|
  al_alloc n h := default (0, h) (kmalloc (S (size (h_mem h))) n h);
  al_free p h := default h (kfree (S (size (h_mem h))) p h)
|}.
