(* ===== verification/ChaCha20.v ===== *)
(** * ChaCha20 stream cipher (kernel/crypto/chacha20.c)

    The block function on the 16-word array and the xor loop over the message.
    The loop is shown to be a byte-wise xor with the keystream whose block [k]
    is [chacha20_block] at counter [counter + k mod 2^32], hence its own
    inverse. *)

From S2P Require Import Prelude.

(** ** Macros *)

Definition ROTL32 (v n : Z) : Z := Z.lor (u32 (Z.shiftl v n)) (Z.shiftr v (32 - n)).

(** [U8TO32_LITTLE(p + off)]. *)
Definition U8TO32_LITTLE (p : list Z) (off : Z) : Z :=
  Z.lor (Z.lor (Z.lor p.[off] (Z.shiftl p.[off + 1] 8)) (Z.shiftl p.[off + 2] 16))
        (Z.shiftl p.[off + 3] 24).

(** [U32TO8_LITTLE(out + off, v)]. *)
Definition U32TO8_LITTLE (out : list Z) (off v : Z) : list Z :=
  let out := out.[off <- u8 v] in
  let out := out.[off + 1 <- u8 (Z.shiftr v 8)] in
  let out := out.[off + 2 <- u8 (Z.shiftr v 16)] in
  out.[off + 3 <- u8 (Z.shiftr v 24)].

(** One line [a += b; d ^= a; d = ROTL32(d, n)] of the macro, on the array. *)
Definition qr_line (a b d n : Z) (x : list Z) : list Z :=
  let x := x.[a <- u32 (x.[a] + x.[b])] in
  let x := x.[d <- Z.lxor x.[d] x.[a]] in
  x.[d <- ROTL32 x.[d] n].

Definition QUARTERROUND (a b c d : Z) (x : list Z) : list Z :=
  let x := qr_line a b d 16 x in
  let x := qr_line c d b 12 x in
  let x := qr_line a b d 8 x in
  qr_line c d b 7 x.

(** "expand 32-byte k" *)
Definition sigma : list Z := [101; 120; 112; 97; 110; 100; 32; 51; 50; 45; 98; 121; 116; 101; 32; 107].

(** ** Block function *)

(** The body of the ten-iteration loop: a column and a diagonal round. *)
Definition double_round (x : list Z) : list Z :=
  let x := QUARTERROUND 0 4 8 12 x in
  let x := QUARTERROUND 1 5 9 13 x in
  let x := QUARTERROUND 2 6 10 14 x in
  let x := QUARTERROUND 3 7 11 15 x in
  let x := QUARTERROUND 0 5 10 15 x in
  let x := QUARTERROUND 1 6 11 12 x in
  let x := QUARTERROUND 2 7 8 13 x in
  QUARTERROUND 3 4 9 14 x.

Definition chacha20_init_state (key : list Z) (counter : Z) (nonce : list Z) : list Z :=
  [U8TO32_LITTLE sigma 0; U8TO32_LITTLE sigma 4; U8TO32_LITTLE sigma 8; U8TO32_LITTLE sigma 12;
   U8TO32_LITTLE key 0; U8TO32_LITTLE key 4; U8TO32_LITTLE key 8; U8TO32_LITTLE key 12;
   U8TO32_LITTLE key 16; U8TO32_LITTLE key 20; U8TO32_LITTLE key 24; U8TO32_LITTLE key 28;
   counter; U8TO32_LITTLE nonce 0; U8TO32_LITTLE nonce 4; U8TO32_LITTLE nonce 8].

Definition chacha20_block (key : list Z) (counter : Z) (nonce : list Z) : list Z :=
  let s := chacha20_init_state key counter nonce in
  let x := for_loop 10 0 (fun _ x => double_round x) s in
  let x := for_loop 16 0 (fun i x => x.[i <- u32 (x.[i] + s.[i])]) x in
  for_loop 16 0 (fun i out => U32TO8_LITTLE out (i * 4) x.[i]) (replicate 64 0).

(** ** Stream *)

(** One [while (len > 0)] iteration on the output buffer. *)
Definition xor_chunk (off n : Z) (block inp out : list Z) : list Z :=
  for_loop (Z.to_nat n) 0 (fun i out => out.[off + i <- Z.lxor inp.[off + i] block.[i]]) out.

(** The loop; [fuel] bounds the iterations, [None] is "still running". *)
Fixpoint xor_loop (fuel : nat) (key nonce inp : list Z) (counter off len : Z) (out : list Z)
    : option (list Z) :=
  match fuel with
  | O => None
  | S fuel' =>
      if 0 <? len then
        let n := if len <? 64 then len else 64 in
        let block := chacha20_block key counter nonce in
        xor_loop fuel' key nonce inp (u32 (counter + 1)) (off + n) (len - n)
                 (xor_chunk off n block inp out)
      else Some out
  end.

(** [chacha20_xor(out, in, len, key, counter, nonce)] with a fresh [out]. *)
Definition chacha20_xor (inp key : list Z) (counter : Z) (nonce : list Z) : list Z :=
  default [] (xor_loop (S (length inp)) key nonce inp counter 0 (zlen inp) (replicate (length inp) 0)).

(** ** Specification: xor with the keystream *)

Definition keystream (key : list Z) (counter : Z) (nonce : list Z) (k : Z) : Z :=
  (chacha20_block key (u32 (counter + k / 64)) nonce).[k mod 64].

(** RFC 8439 section 2.3.2. *)
Example chacha20_block_rfc8439 :
  chacha20_block (Z.of_nat <$> seq 0 32) 1 [0; 0; 0; 9; 0; 0; 0; 0x4a; 0; 0; 0; 0] =
  rev (le_bytes 64 0x10f1e7e4d13b5915500fdd1fa32071c4c7d1f4c733c068030422aa9ac3d46c4ed2826446079faa0914c2d705d98b02a2b5129cd1de164eb9cbd083e8a2503c4e).
Proof. vm_compute. reflexivity. Qed.

(** ** Lemmas *)

Lemma lxor_byte a b : byte a -> byte b -> byte (Z.lxor a b).
Proof.
  unfold byte. intros Ha Hb. split; [apply Z.lxor_nonneg; lia|].
  destruct (Z.ltb_spec (Z.lxor a b) 256) as [|H]; [done|].
  assert (Hx : Z.log2 (Z.lxor a b) <= Z.max (Z.log2 a) (Z.log2 b)) by (apply Z.log2_lxor; lia).
  assert (8 <= Z.log2 (Z.lxor a b)) by (apply Z.log2_le_pow2; lia).
  assert (forall z, 0 <= z < 256 -> Z.log2 z < 8).
  { intros z Hz. destruct (decide (z = 0)) as [->|]; [simpl; lia|]. apply Z.log2_lt_pow2; lia. }
  pose proof (H1 a Ha). pose proof (H1 b Hb). lia.
Qed.

Lemma U32TO8_LITTLE_bytes out off v :
  Forall byte out -> Forall byte (U32TO8_LITTLE out off v) /\ zlen (U32TO8_LITTLE out off v) = zlen out.
Proof.
  intros Hb. unfold U32TO8_LITTLE. rewrite !zlen_zset. split; [|done].
  repeat (apply Forall_insert; [|by apply u8_range]). done.
Qed.

(** A keystream block is 64 bytes. *)
Lemma chacha20_block_bytes key counter nonce :
  Forall byte (chacha20_block key counter nonce) /\ zlen (chacha20_block key counter nonce) = 64.
Proof.
  unfold chacha20_block. set (x := for_loop 16 0 _ (for_loop 10 _ _ _)).
  apply (for_loop_ind (fun _ out => Forall byte out /\ zlen out = 64) 16 0
           (fun i out => U32TO8_LITTLE out (i * 4) x.[i])).
  - split; [apply Forall_replicate; unfold byte; lia|done].
  - intros j out _ [Hb Hl]. destruct (U32TO8_LITTLE_bytes out (j * 4) x.[j] Hb) as [? ->]. done.
Qed.

Lemma xor_chunk_spec off n block inp out :
  0 <= n -> 0 <= off -> off + n <= zlen out ->
  zlen (xor_chunk off n block inp out) = zlen out /\
  forall k, 0 <= k < zlen out ->
    (xor_chunk off n block inp out).[k] =
      if (off <=? k) && (k <? off + n) then Z.lxor inp.[k] block.[k - off] else out.[k].
Proof.
  intros Hn Ho Hl. unfold xor_chunk.
  pose proof (for_loop_ind (fun i o => zlen o = zlen out /\ forall k, 0 <= k < zlen out ->
    o.[k] = if (off <=? k) && (k <? off + i) then Z.lxor inp.[k] block.[k - off] else out.[k])
    (Z.to_nat n) 0 (fun i out => out.[off + i <- Z.lxor inp.[off + i] block.[i]]) out) as H.
  replace (0 + Z.of_nat (Z.to_nat n)) with n in H by lia. apply H.
  - split; [done|]. intros k Hk. destruct (Z.leb_spec off k), (Z.ltb_spec k (off + 0)); done || lia.
  - intros j o Hj [Hlen Hk]. rewrite zlen_zset. split; [done|]. intros k Hk'.
    destruct (decide (k = off + j)) as [->|Hne].
    + rewrite zget_zset_eq by lia. replace (off + j - off) with j by lia.
      destruct (Z.leb_spec off (off + j)), (Z.ltb_spec (off + j) (off + (j + 1))); done || lia.
    + rewrite zget_zset_ne, Hk by lia.
      destruct (Z.leb_spec off k), (Z.ltb_spec k (off + j)), (Z.ltb_spec k (off + (j + 1))); done || lia.
Qed.

(** The loop from an offset that is a multiple of 64. *)
Lemma xor_loop_spec (fuel : nat) key nonce inp counter off len out :
  0 <= len < Z.of_nat fuel -> 0 <= off -> off mod 64 = 0 -> off + len = zlen out -> zlen inp = zlen out ->
  exists res, xor_loop fuel key nonce inp (u32 (counter + off / 64)) off len out = Some res /\
    zlen res = zlen out /\
    forall k, 0 <= k < zlen out ->
      res.[k] = if k <? off then out.[k] else Z.lxor inp.[k] (keystream key counter nonce k).
Proof.
  revert off len out. induction fuel as [|fuel IH]; intros off len out Hlen Hoff Hm He Hi; [lia|].
  cbn [xor_loop]. destruct (Z.ltb_spec 0 len) as [Hpos|Hz].
  2: { exists out. split; [done|]. split; [done|]. intros k Hk. destruct (Z.ltb_spec k off); [done|lia]. }
  set (n := if len <? 64 then len else 64).
  assert (Hn : 0 < n <= len /\ n <= 64) by (unfold n; destruct (Z.ltb_spec len 64); lia).
  set (block := chacha20_block key (u32 (counter + off / 64)) nonce).
  destruct (xor_chunk_spec off n block inp out) as [Hl Hk]; [lia|lia|lia|].
  assert (Hks : forall k, off <= k < off + 64 -> keystream key counter nonce k = block.[k - off]).
  { intros k Hk'. unfold keystream, block. replace (k / 64) with (off / 64) by (Z.div_mod_to_equations; lia).
    f_equal. Z.div_mod_to_equations; lia. }
  destruct (Z.eqb_spec n 64) as [E|E].
  - destruct (IH (off + n) (len - n) (xor_chunk off n block inp out)) as (res & E1 & E2 & E3);
      [lia|lia|rewrite E; Z.div_mod_to_equations; lia|lia|lia|].
    exists res. split; [|split; [lia|]].
    + rewrite <- E1. f_equal. rewrite E. replace ((off + 64) / 64) with (off / 64 + 1) by (Z.div_mod_to_equations; lia).
      unfold u32. rewrite Zplus_mod_idemp_l. f_equal. lia.
    + intros k Hk'. rewrite E3, Hk by lia.
      destruct (Z.ltb_spec k (off + n)), (Z.ltb_spec k off), (Z.leb_spec off k); try lia; try done.
      cbn [andb]. by rewrite Hks by lia.
  - assert (n = len) as -> by (unfold n in *; destruct (Z.ltb_spec len 64); lia).
    destruct fuel as [|fuel]; [lia|]. cbn [xor_loop].
    destruct (Z.ltb_spec 0 (len - len)); [lia|]. eexists. split; [reflexivity|]. split; [done|].
    intros k Hk'. rewrite Hk by lia.
    destruct (Z.ltb_spec k (off + len)), (Z.ltb_spec k off), (Z.leb_spec off k); try lia; try done.
    cbn [andb]. by rewrite Hks by lia.
Qed.

Lemma chacha20_xor_get inp key counter nonce :
  0 <= counter < 2 ^ 32 ->
  zlen (chacha20_xor inp key counter nonce) = zlen inp /\
  forall k, 0 <= k < zlen inp ->
    (chacha20_xor inp key counter nonce).[k] = Z.lxor inp.[k] (keystream key counter nonce k).
Proof.
  intros Hc. unfold chacha20_xor.
  assert (Hr : zlen (replicate (length inp) 0) = zlen inp) by (unfold zlen; by rewrite length_replicate).
  destruct (xor_loop_spec (S (length inp)) key nonce inp counter 0 (zlen inp) (replicate (length inp) 0))
    as (res & E & Hl & Hk); [unfold zlen; lia|lia|done|lia|lia|].
  change (0 / 64) with 0 in E. rewrite Z.add_0_r, u32_small in E by done. rewrite E. cbn [from_option id].
  rewrite Hr in *. split; [done|]. intros k Hk'. rewrite Hk by done.
  by destruct (Z.ltb_spec k 0); [lia|].
Qed.

Lemma chacha20_xor_bytes inp key counter nonce :
  0 <= counter < 2 ^ 32 -> Forall byte inp -> Forall byte (chacha20_xor inp key counter nonce).
Proof.
  intros Hc Hi. destruct (chacha20_xor_get inp key counter nonce Hc) as [Hl Hk].
  apply Forall_lookup. intros k x Hx. pose proof (lookup_lt_Some _ _ _ Hx) as Hlt.
  apply list_lookup_total_correct in Hx. subst x.
  specialize (Hk (Z.of_nat k)). unfold zget, zlen in Hk, Hl. rewrite Nat2Z.id in Hk. rewrite Hk by lia.
  destruct (chacha20_block_bytes key (u32 (counter + Z.of_nat k / 64)) nonce) as [Hb Hz].
  apply lxor_byte.
  - rewrite Forall_lookup in Hi. apply (Hi k). apply list_lookup_lookup_total_lt. lia.
  - unfold keystream. apply byte_zget; [done|]. rewrite Hz. apply Z.mod_pos_bound. lia.
Qed.

(** Decryption undoes encryption. *)
Lemma chacha20_xor_twice inp key counter nonce :
  0 <= counter < 2 ^ 32 -> chacha20_xor (chacha20_xor inp key counter nonce) key counter nonce = inp.
Proof.
  intros Hc. destruct (chacha20_xor_get inp key counter nonce Hc) as [Hl Hk].
  destruct (chacha20_xor_get (chacha20_xor inp key counter nonce) key counter nonce Hc) as [Hl' Hk'].
  apply list_eq_zget; [lia|]. intros i Hi. rewrite Hk', Hk by lia.
  by rewrite Z.lxor_assoc, Z.lxor_nilpotent, Z.lxor_0_r.
Qed.

(** ** Properties *)

(** C6: [chacha20_xor] is encryption with the ChaCha20 keystream.  For every
    input, key, nonce and 32-bit counter the loop terminates within one
    iteration per input byte, output byte [k] is input byte [k] xored with byte
    [k mod 64] of [chacha20_block] at counter [counter + k / 64] (mod 2^32),
    and applying the function twice gives back the input. *)
Theorem chacha20_xor_keystream inp key counter nonce :
  0 <= counter < 2 ^ 32 ->
  let out := chacha20_xor inp key counter nonce in
  zlen out = zlen inp /\
  (forall k, 0 <= k < zlen inp -> out.[k] =
     Z.lxor inp.[k] (chacha20_block key (u32 (counter + k / 64)) nonce).[k mod 64]) /\
  chacha20_xor out key counter nonce = inp.
Proof.
  intros Hc out. destruct (chacha20_xor_get inp key counter nonce Hc) as [Hl Hk].
  split; [done|]. split; [exact Hk|by apply chacha20_xor_twice].
Qed.

Lemma chacha20_xor_keystream_witness :
  let key := replicate 32 7 in let nonce := replicate 12 9 in
  0 <= 1 < 2 ^ 32 /\ chacha20_xor (chacha20_xor [1; 2; 3] key 1 nonce) key 1 nonce = [1; 2; 3].
Proof.
  intros key nonce. split; [lia|].
  destruct (chacha20_xor_keystream [1; 2; 3] key 1 nonce ltac:(lia)) as (_ & _ & H). exact H.
Defined.
