(* ===== verification/Poly1305.v ===== *)
(** * Poly1305 one-time authenticator (kernel/crypto/poly1305.c)

    The accumulator is kept in five 26-bit limbs; every product, carry and
    truncation of the C code is written out at its machine width.  The main
    theorem is that the routine computes the RFC 8439 formula over [Z], so that
    no 32- or 64-bit operation of the routine loses a bit. *)

From S2P Require Import Prelude.

(** ** Macros *)

(** [U8TO32_LE(p + off)]. *)
Definition U8TO32_LE (p : list Z) (off : Z) : Z :=
  Z.lor (Z.lor (Z.lor p.[off] (Z.shiftl p.[off + 1] 8)) (Z.shiftl p.[off + 2] 16))
        (Z.shiftl p.[off + 3] 24).

(** The four bytes stored by [U32TO8_LE(p, v)]. *)
Definition U32TO8_LE (v : Z) : list Z :=
  [u8 v; u8 (Z.shiftr v 8); u8 (Z.shiftr v 16); u8 (Z.shiftr v 24)].

(** [mul32x32_64(a, b)]. *)
Definition mul32x32_64 (a b : Z) : Z := u64 (a * b).

(** ** Accumulator and key limbs *)

Record limbs := Limbs { l0 : Z; l1 : Z; l2 : Z; l3 : Z; l4 : Z }.

(** The clamped multiplier [r0 .. r4] from the first half of the key. *)
Definition clamp_key (key : list Z) : limbs :=
  let t0 := U8TO32_LE key 0 in
  let t1 := U8TO32_LE key 4 in
  let t2 := U8TO32_LE key 8 in
  let t3 := U8TO32_LE key 12 in
  let r0 := Z.land t0 0x3ffffff in
  let t0 := Z.lor (Z.shiftr t0 26) (u32 (Z.shiftl t1 6)) in
  let r1 := Z.land t0 0x3ffff03 in
  let t1 := Z.lor (Z.shiftr t1 20) (u32 (Z.shiftl t2 12)) in
  let r2 := Z.land t1 0x3ffc0ff in
  let t2 := Z.lor (Z.shiftr t2 14) (u32 (Z.shiftl t3 18)) in
  let r3 := Z.land t2 0x3f03fff in
  let t3 := Z.shiftr t3 8 in
  let r4 := Z.land t3 0x00fffff in
  Limbs r0 r1 r2 r3 r4.

(** Adding the block at [p + off] to the accumulator; [hibit] is [1 << 24] for
    a full block and 0 for the padded last one. *)
Definition add_block (h : limbs) (p : list Z) (off hibit : Z) : limbs :=
  let t0 := U8TO32_LE p off in
  let t1 := U8TO32_LE p (off + 4) in
  let t2 := U8TO32_LE p (off + 8) in
  let t3 := U8TO32_LE p (off + 12) in
  Limbs (u32 (l0 h + Z.land t0 0x3ffffff))
        (u32 (l1 h + Z.land (Z.shiftr (Z.lor (u64 (Z.shiftl t1 32)) t0) 26) 0x3ffffff))
        (u32 (l2 h + Z.land (Z.shiftr (Z.lor (u64 (Z.shiftl t2 32)) t1) 20) 0x3ffffff))
        (u32 (l3 h + Z.land (Z.shiftr (Z.lor (u64 (Z.shiftl t3 32)) t2) 14) 0x3ffffff))
        (u32 (l4 h + Z.lor (Z.shiftr t3 8) hibit)).

(** [poly1305_donna_mul]: multiply by [r] and carry once. *)
Definition donna_mul (r h : limbs) : limbs :=
  let '(Limbs r0 r1 r2 r3 r4) := r in
  let '(Limbs h0 h1 h2 h3 h4) := h in
  let s1 := u32 (r1 * 5) in
  let s2 := u32 (r2 * 5) in
  let s3 := u32 (r3 * 5) in
  let s4 := u32 (r4 * 5) in
  let t0 := u64 (mul32x32_64 h0 r0 + mul32x32_64 h1 s4 + mul32x32_64 h2 s3 + mul32x32_64 h3 s2 + mul32x32_64 h4 s1) in
  let t1 := u64 (mul32x32_64 h0 r1 + mul32x32_64 h1 r0 + mul32x32_64 h2 s4 + mul32x32_64 h3 s3 + mul32x32_64 h4 s2) in
  let t2 := u64 (mul32x32_64 h0 r2 + mul32x32_64 h1 r1 + mul32x32_64 h2 r0 + mul32x32_64 h3 s4 + mul32x32_64 h4 s3) in
  let t3 := u64 (mul32x32_64 h0 r3 + mul32x32_64 h1 r2 + mul32x32_64 h2 r1 + mul32x32_64 h3 r0 + mul32x32_64 h4 s4) in
  let t4 := u64 (mul32x32_64 h0 r4 + mul32x32_64 h1 r3 + mul32x32_64 h2 r2 + mul32x32_64 h3 r1 + mul32x32_64 h4 r0) in
  let h0 := Z.land (u32 t0) 0x3ffffff in
  let c := Z.shiftr t0 26 in
  let t1 := u64 (t1 + c) in
  let h1 := Z.land (u32 t1) 0x3ffffff in
  let b := u32 (Z.shiftr t1 26) in
  let t2 := u64 (t2 + b) in
  let h2 := Z.land (u32 t2) 0x3ffffff in
  let b := u32 (Z.shiftr t2 26) in
  let t3 := u64 (t3 + b) in
  let h3 := Z.land (u32 t3) 0x3ffffff in
  let b := u32 (Z.shiftr t3 26) in
  let t4 := u64 (t4 + b) in
  let h4 := Z.land (u32 t4) 0x3ffffff in
  let b := u32 (Z.shiftr t4 26) in
  let h0 := u32 (h0 + u32 (b * 5)) in
  Limbs h0 h1 h2 h3 h4.

(** [mp]: the last [inlen < 16] bytes, a 1 byte and zeros. *)
Definition last_block (m : list Z) (off inlen : Z) : list Z :=
  let mp := for_loop (Z.to_nat inlen) 0 (fun j mp => mp.[j <- m.[off + j]]) (replicate 16 0) in
  let mp := mp.[inlen <- 1] in
  for_loop (Z.to_nat (16 - (inlen + 1))) (inlen + 1) (fun j mp => mp.[j <- 0]) mp.

(** The labels [16bytes], [mul] and [atmost15bytes] up to [finish]; [fuel]
    bounds the backward jumps. *)
Fixpoint donna_loop (fuel : nat) (r : limbs) (m : list Z) (off inlen : Z) (h : limbs) : option limbs :=
  match fuel with
  | O => None
  | S fuel' =>
      if 16 <=? inlen then
        donna_loop fuel' r m (off + 16) (inlen - 16) (donna_mul r (add_block h m off (2 ^ 24)))
      else if inlen =? 0 then Some h
      else donna_loop fuel' r m off 0 (donna_mul r (add_block h (last_block m off inlen) 0 0))
  end.

(** The full carry at [finish]. *)
Definition finish_carry (h : limbs) : limbs :=
  let '(Limbs h0 h1 h2 h3 h4) := h in
  let b := Z.shiftr h0 26 in let h0 := Z.land h0 0x3ffffff in
  let h1 := u32 (h1 + b) in let b := Z.shiftr h1 26 in let h1 := Z.land h1 0x3ffffff in
  let h2 := u32 (h2 + b) in let b := Z.shiftr h2 26 in let h2 := Z.land h2 0x3ffffff in
  let h3 := u32 (h3 + b) in let b := Z.shiftr h3 26 in let h3 := Z.land h3 0x3ffffff in
  let h4 := u32 (h4 + b) in let b := Z.shiftr h4 26 in let h4 := Z.land h4 0x3ffffff in
  let h0 := u32 (h0 + u32 (b * 5)) in let b := Z.shiftr h0 26 in let h0 := Z.land h0 0x3ffffff in
  let h1 := u32 (h1 + b) in
  Limbs h0 h1 h2 h3 h4.

(** [g = h + 5 - 2^130] and the masked choice between [h] and [g]. *)
Definition finish_reduce (h : limbs) : limbs :=
  let '(Limbs h0 h1 h2 h3 h4) := h in
  let g0 := u32 (h0 + 5) in let b := Z.shiftr g0 26 in let g0 := Z.land g0 0x3ffffff in
  let g1 := u32 (h1 + b) in let b := Z.shiftr g1 26 in let g1 := Z.land g1 0x3ffffff in
  let g2 := u32 (h2 + b) in let b := Z.shiftr g2 26 in let g2 := Z.land g2 0x3ffffff in
  let g3 := u32 (h3 + b) in let b := Z.shiftr g3 26 in let g3 := Z.land g3 0x3ffffff in
  let g4 := u32 (h4 + b - 2 ^ 26) in
  let b := u32 (Z.shiftr g4 31 - 1) in
  let nb := not32 b in
  Limbs (Z.lor (Z.land h0 nb) (Z.land g0 b))
        (Z.lor (Z.land h1 nb) (Z.land g1 b))
        (Z.lor (Z.land h2 nb) (Z.land g2 b))
        (Z.lor (Z.land h3 nb) (Z.land g3 b))
        (Z.lor (Z.land h4 nb) (Z.land g4 b)).

(** Packing into 32-bit words and adding the second half of the key. *)
Definition finish_out (h : limbs) (key : list Z) : list Z :=
  let '(Limbs h0 h1 h2 h3 h4) := h in
  let f0 := u64 (Z.lor h0 (u32 (Z.shiftl h1 26)) + U8TO32_LE key 16) in
  let f1 := u64 (Z.lor (Z.shiftr h1 6) (u32 (Z.shiftl h2 20)) + U8TO32_LE key 20) in
  let f2 := u64 (Z.lor (Z.shiftr h2 12) (u32 (Z.shiftl h3 14)) + U8TO32_LE key 24) in
  let f3 := u64 (Z.lor (Z.shiftr h3 18) (u32 (Z.shiftl h4 8)) + U8TO32_LE key 28) in
  let f1 := u64 (f1 + Z.shiftr f0 32) in
  let f2 := u64 (f2 + Z.shiftr f1 32) in
  let f3 := u64 (f3 + Z.shiftr f2 32) in
  U32TO8_LE f0 ++ U32TO8_LE f1 ++ U32TO8_LE f2 ++ U32TO8_LE f3.

Definition poly1305_auth (m : list Z) (inlen : Z) (key : list Z) : option (list Z) :=
  match donna_loop (S (S (length m))) (clamp_key key) m 0 inlen (Limbs 0 0 0 0 0) with
  | Some h => Some (finish_out (finish_reduce (finish_carry h)) key)
  | None => None
  end.

(** RFC 8439, section 2.5.2. *)
Example poly1305_rfc8439_2_5_2 :
  let key := [0x85; 0xd6; 0xbe; 0x78; 0x57; 0x55; 0x6d; 0x33; 0x7f; 0x44; 0x52; 0xfe; 0x42; 0xd5; 0x06; 0xa8;
              0x01; 0x03; 0x80; 0x8a; 0xfb; 0x0d; 0xb2; 0xfd; 0x4a; 0xbf; 0xf6; 0xaf; 0x41; 0x49; 0xf5; 0x1b] in
  let msg := [67; 114; 121; 112; 116; 111; 103; 114; 97; 112; 104; 105; 99; 32; 70; 111; 114; 117; 109; 32;
              82; 101; 115; 101; 97; 114; 99; 104; 32; 71; 114; 111; 117; 112] in
  poly1305_auth msg 34 key =
    Some [0xa8; 0x06; 0x1d; 0xc1; 0x30; 0x51; 0x36; 0xc6; 0xc2; 0x2b; 0x8b; 0xaf; 0x0c; 0x01; 0x27; 0xa9].
Proof. vm_compute. reflexivity. Qed.

(** RFC 8439, appendix A.3, vector 8: the accumulator is exactly [2^130 - 5]. *)
Example poly1305_rfc8439_a3_8 :
  let key := 1 :: replicate 31 0 in
  let msg := replicate 16 0xff ++ 0xfb :: replicate 15 0xfe ++ replicate 16 1 in
  poly1305_auth msg 48 key = Some (replicate 16 0).
Proof. vm_compute. reflexivity. Qed.

(** ** Specification: RFC 8439, section 2.5.1 *)

Definition P1305 : Z := 2 ^ 130 - 5.

Definition clamp (r : Z) : Z := Z.land r 0x0ffffffc0ffffffc0ffffffc0fffffff.

(** The 16-byte blocks of the message, each with its final 1 byte. *)
Fixpoint mac_blocks (fuel : nat) (m : list Z) : list Z :=
  match fuel, m with
  | S fuel', _ :: _ => le_val (take 16 m ++ [1]) :: mac_blocks fuel' (drop 16 m)
  | _, _ => []
  end.

Definition mac_acc (r : Z) (acc : Z) (blocks : list Z) : Z :=
  fold_left (fun acc n => (acc + n) * r mod P1305) blocks acc.

Definition poly1305_spec (m key : list Z) : list Z :=
  let r := clamp (le_val (take 16 key)) in
  let s := le_val (drop 16 key) in
  le_bytes 16 (mac_acc r 0 (mac_blocks (length m) m) + s).

(** ** Loads and limbs *)

Definition LV (h : limbs) : Z :=
  l0 h + 2 ^ 26 * l1 h + 2 ^ 52 * l2 h + 2 ^ 78 * l3 h + 2 ^ 104 * l4 h.

(** Limb bounds that hold of the multiplier, between blocks and before a
    multiplication.  [43 * 2^26] is what one delayed carry can leave in [l0]. *)
Definition r_ok (r : limbs) : Prop :=
  0 <= l0 r < 2 ^ 26 /\ 0 <= l1 r < 2 ^ 26 /\ 0 <= l2 r < 2 ^ 26 /\
  0 <= l3 r <= 0x3f03fff /\ 0 <= l4 r < 2 ^ 20.

Definition h_ok (h : limbs) : Prop :=
  0 <= l0 h <= 43 * 2 ^ 26 /\ 0 <= l1 h < 2 ^ 26 /\ 0 <= l2 h < 2 ^ 26 /\
  0 <= l3 h < 2 ^ 26 /\ 0 <= l4 h < 2 ^ 26.

Definition h_in (h : limbs) : Prop :=
  0 <= l0 h <= 44 * 2 ^ 26 /\ 0 <= l1 h <= 2 * 2 ^ 26 /\ 0 <= l2 h <= 2 * 2 ^ 26 /\
  0 <= l3 h <= 2 * 2 ^ 26 /\ 0 <= l4 h <= 3 * 2 ^ 25.

Lemma mask26 x : Z.land x 0x3ffffff = x mod 2 ^ 26.
Proof. by apply (land_low 26). Qed.

Lemma U8TO32_LE_at p off :
  Forall byte p -> 0 <= off -> off + 4 <= zlen p ->
  U8TO32_LE p off = le_at 4 p off /\ 0 <= U8TO32_LE p off < 2 ^ 32.
Proof.
  intros Hp Ho Hl. unfold U8TO32_LE. rewrite le32_at by done. split; [done|].
  apply (le_at_range 4 p off); [done|lia|done].
Qed.

(** The value of 16 bytes from its four words. *)
Lemma le_at_16 p off :
  Forall byte p -> 0 <= off -> off + 16 <= zlen p ->
  le_at 16 p off = U8TO32_LE p off + 2 ^ 32 * U8TO32_LE p (off + 4) +
    2 ^ 64 * U8TO32_LE p (off + 8) + 2 ^ 96 * U8TO32_LE p (off + 12).
Proof.
  intros Hp Ho Hl.
  destruct (U8TO32_LE_at p off) as [-> _]; [done|lia|lia|].
  destruct (U8TO32_LE_at p (off + 4)) as [-> _]; [done|lia|lia|].
  destruct (U8TO32_LE_at p (off + 8)) as [-> _]; [done|lia|lia|].
  destruct (U8TO32_LE_at p (off + 12)) as [-> _]; [done|lia|lia|].
  rewrite (le_at_add 4 12), (le_at_add 4 8), (le_at_add 4 4) by lia.
  change (Z.of_nat 4) with 4. replace (off + 4 + 4 + 4) with (off + 12) by lia.
  replace (off + 4 + 4) with (off + 8) by lia. lia.
Qed.

(** A 64-bit window over two adjacent words. *)
Lemma window k a b :
  0 <= a < 2 ^ 32 -> 0 <= b < 2 ^ 32 -> 0 <= k ->
  Z.land (Z.shiftr (Z.lor (u64 (Z.shiftl b 32)) a) k) 0x3ffffff = (a + 2 ^ 32 * b) / 2 ^ k mod 2 ^ 26.
Proof.
  intros Ha Hb Hk. rewrite mask26, shiftr_div, shiftl_mul, u64_small, Z.lor_comm by lia.
  rewrite lor_add_disjoint by lia. do 2 f_equal. lia.
Qed.

Lemma add_block_spec h p off hibit :
  h_ok h -> Forall byte p -> 0 <= off -> off + 16 <= zlen p -> hibit = 0 \/ hibit = 2 ^ 24 ->
  h_in (add_block h p off hibit) /\
  LV (add_block h p off hibit) = LV h + le_at 16 p off + 2 ^ 104 * hibit.
Proof.
  intros Hh Hp Ho Hl Hb. rewrite le_at_16 by done. unfold add_block.
  destruct (U8TO32_LE_at p off) as [_ H0]; [done|lia|lia|].
  destruct (U8TO32_LE_at p (off + 4)) as [_ H1]; [done|lia|lia|].
  destruct (U8TO32_LE_at p (off + 8)) as [_ H2]; [done|lia|lia|].
  destruct (U8TO32_LE_at p (off + 12)) as [_ H3]; [done|lia|lia|].
  set (t0 := U8TO32_LE p off) in *. set (t1 := U8TO32_LE p (off + 4)) in *.
  set (t2 := U8TO32_LE p (off + 8)) in *. set (t3 := U8TO32_LE p (off + 12)) in *.
  rewrite !window, mask26, shiftr_div by lia.
  assert (E4 : Z.lor (t3 / 2 ^ 8) hibit = t3 / 2 ^ 8 + hibit).
  { destruct Hb as [->| ->]; [by rewrite Z.lor_0_r, Z.add_0_r|].
    replace (2 ^ 24) with (1 * 2 ^ 24) by lia. apply lor_add_disjoint; [lia|].
    Z.div_mod_to_equations; lia. }
  rewrite E4. unfold LV, h_in, h_ok in *. cbn [l0 l1 l2 l3 l4].
  rewrite !u32_small by (Z.div_mod_to_equations; lia). split; Z.div_mod_to_equations; lia.
Qed.

(** ** Multiplication *)

Lemma prod_bound a b A B : 0 <= a <= A -> 0 <= b <= B -> 0 <= a * b <= A * B.
Proof. intros Ha Hb. split; [lia|]. apply Z.mul_le_mono_nonneg; lia. Qed.

Lemma low26_of_u32 x : Z.land (u32 x) 0x3ffffff = x mod 2 ^ 26.
Proof.
  rewrite mask26. unfold u32. symmetry. change (2 ^ 32) with (2 ^ 26 * 2 ^ 6).
  rewrite Z.rem_mul_r by lia. rewrite Z.mul_comm, Z.mod_add, Z.mod_mod by lia. done.
Qed.

(** One carry step [t += b; h = t & mask; b = t >> 26]. *)
Lemma carry_step t b lim :
  0 <= b < 2 ^ 32 -> 0 <= t <= lim -> lim + 2 ^ 32 < 2 ^ 58 ->
  Z.land (u32 (u64 (t + b))) 0x3ffffff = (t + b) mod 2 ^ 26 /\
  u32 (Z.shiftr (u64 (t + b)) 26) = (t + b) / 2 ^ 26 /\ 0 <= (t + b) / 2 ^ 26 < 2 ^ 32.
Proof.
  intros Hb Ht Hl. rewrite (u64_small (t + b)) by lia. rewrite low26_of_u32, shiftr_div by lia.
  split; [done|]. split; [apply u32_small|]; Z.div_mod_to_equations; lia.
Qed.

(** The column sums are below [2^58], the last one below [33 * 2^50]. *)
Lemma columns_bound r h :
  r_ok r -> h_in h ->
  0 <= l0 h * l0 r + l1 h * (l4 r * 5) + l2 h * (l3 r * 5) + l3 h * (l2 r * 5) + l4 h * (l1 r * 5) <= 80 * 2 ^ 52 /\
  0 <= l0 h * l1 r + l1 h * l0 r + l2 h * (l4 r * 5) + l3 h * (l3 r * 5) + l4 h * (l2 r * 5) <= 2 ^ 58 - 2 ^ 50 /\
  0 <= l0 h * l2 r + l1 h * l1 r + l2 h * l0 r + l3 h * (l4 r * 5) + l4 h * (l3 r * 5) <= 2 ^ 58 - 2 ^ 50 /\
  0 <= l0 h * l3 r + l1 h * l2 r + l2 h * l1 r + l3 h * l0 r + l4 h * (l4 r * 5) <= 2 ^ 58 - 2 ^ 50 /\
  0 <= l0 h * l4 r + l1 h * l3 r + l2 h * l2 r + l3 h * l1 r + l4 h * l0 r <= 33 * 2 ^ 50.
Proof.
  intros (R0 & R1 & R2 & R3 & R4) (H0 & H1 & H2 & H3 & H4).
  assert (B : forall a A, 0 <= a <= A ->
    (0 <= a * l0 r <= A * 2 ^ 26 /\ 0 <= a * l1 r <= A * 2 ^ 26 /\ 0 <= a * l2 r <= A * 2 ^ 26) /\
    0 <= a * l3 r <= A * 0x3f03fff /\ 0 <= a * l4 r <= A * 2 ^ 20).
  { intros a A Ha. refine (conj (conj _ (conj _ _)) (conj _ _)); apply prod_bound; lia. }
  apply B in H0, H1, H2, H3, H4. clear - H0 H1 H2 H3 H4.
  rewrite !Z.mul_assoc.
  repeat match goal with |- context [?f h * ?g r] => generalize dependent (f h * g r); intros end.
  split_and!; lia.
Qed.

Lemma u64_sum5 a b c d e :
  u64 (u64 a + u64 b + u64 c + u64 d + u64 e) = u64 (a + b + c + d + e).
Proof.
  unfold u64. rewrite <- (Z.mod_add (a + b + c + d + e)
    (- (a / 2 ^ 64 + b / 2 ^ 64 + c / 2 ^ 64 + d / 2 ^ 64 + e / 2 ^ 64)) (2 ^ 64)) by lia.
  f_equal. rewrite !Z.mod_eq by lia. lia.
Qed.

(** The multiplication: limbs are back in range and the value is the product
    modulo [2^130 - 5]. *)
Lemma donna_mul_spec r h :
  r_ok r -> h_in h ->
  h_ok (donna_mul r h) /\ exists k, LV (donna_mul r h) = LV h * LV r - P1305 * k.
Proof.
  intros Hr Hh. destruct (columns_bound r h Hr Hh) as (C0 & C1 & C2 & C3 & C4).
  destruct Hr as (R0 & R1 & R2 & R3 & R4), Hh as (H0 & H1 & H2 & H3 & H4).
  destruct r as [r0 r1 r2 r3 r4], h as [h0 h1 h2 h3 h4]. cbn [l0 l1 l2 l3 l4] in *.
  unfold donna_mul, mul32x32_64. rewrite !u64_sum5.
  rewrite (u32_small (r1 * 5)), (u32_small (r2 * 5)), (u32_small (r3 * 5)), (u32_small (r4 * 5)) by lia.
  set (t0 := h0 * r0 + _ + _ + _ + _) in *. set (t1 := h0 * r1 + _ + _ + _ + _) in *.
  set (t2 := h0 * r2 + _ + _ + _ + _) in *. set (t3 := h0 * r3 + _ + _ + _ + _) in *.
  set (t4 := h0 * r4 + _ + _ + _ + _) in *.
  rewrite (u64_small t0), (u64_small t1), (u64_small t2), (u64_small t3), (u64_small t4) by lia.
  rewrite low26_of_u32, (shiftr_div 26 t0) by lia.
  assert (B0 : 0 <= t0 / 2 ^ 26 < 2 ^ 34) by (Z.div_mod_to_equations; lia).
  destruct (carry_step (t1 + t0 / 2 ^ 26) 0 (2 ^ 58 - 2 ^ 49)) as (E1 & E1' & B1); [lia|lia|lia|].
  rewrite Z.add_0_r in E1, E1', B1. rewrite E1, E1'. set (c1 := (t1 + _) / 2 ^ 26) in *.
  destruct (carry_step t2 c1 (2 ^ 58 - 2 ^ 50)) as (E2 & E2' & B2); [lia|lia|lia|].
  rewrite E2, E2'. set (c2 := (t2 + _) / 2 ^ 26) in *.
  destruct (carry_step t3 c2 (2 ^ 58 - 2 ^ 50)) as (E3 & E3' & B3); [lia|lia|lia|].
  rewrite E3, E3'. set (c3 := (t3 + _) / 2 ^ 26) in *.
  destruct (carry_step t4 c3 (2 ^ 58 - 2 ^ 50)) as (E4 & E4' & B4); [lia|lia|lia|].
  rewrite E4, E4'. set (c4 := (t4 + _) / 2 ^ 26) in *.
  assert (B4' : c4 <= 33 * 2 ^ 24 + 64) by (unfold c4; Z.div_mod_to_equations; lia).
  assert (B5 : 0 <= t0 mod 2 ^ 26 < 2 ^ 26) by (apply Z.mod_pos_bound; lia).
  rewrite (u32_small (c4 * 5)), u32_small by lia. split.
  - unfold h_ok. cbn [l0 l1 l2 l3 l4]. split; [lia|].
    repeat match goal with |- _ /\ _ => split end; apply Z.mod_pos_bound; lia.
  - exists (h1 * r4 + h2 * r3 + h3 * r2 + h4 * r1 + 2 ^ 26 * (h2 * r4 + h3 * r3 + h4 * r2) +
            2 ^ 52 * (h3 * r4 + h4 * r3) + 2 ^ 78 * (h4 * r4) + c4).
    unfold LV, P1305. cbn [l0 l1 l2 l3 l4].
    pose proof (Z.div_mod t0 (2 ^ 26) ltac:(lia)) as D0.
    pose proof (Z.div_mod (t1 + t0 / 2 ^ 26) (2 ^ 26) ltac:(lia)) as D1.
    pose proof (Z.div_mod (t2 + c1) (2 ^ 26) ltac:(lia)) as D2.
    pose proof (Z.div_mod (t3 + c2) (2 ^ 26) ltac:(lia)) as D3.
    pose proof (Z.div_mod (t4 + c3) (2 ^ 26) ltac:(lia)) as D4.
    fold c1 in D1. fold c2 in D2. fold c3 in D3. fold c4 in D4.
    unfold t0, t1, t2, t3, t4 in *. lia.
Qed.

(** ** Key clamping *)

(** [(lo >> k) | (hi << (32 - k))] on 32-bit words, masked to 26 bits. *)
Lemma funnel k lo hi mask :
  6 <= k <= 26 -> 0 <= lo < 2 ^ 32 -> 0 <= hi < 2 ^ 32 -> mask mod 2 ^ 26 = mask ->
  Z.land (Z.lor (Z.shiftr lo k) (u32 (Z.shiftl hi (32 - k)))) mask =
  Z.land ((lo + 2 ^ 32 * hi) / 2 ^ k mod 2 ^ 26) mask.
Proof.
  intros Hk Hlo Hhi Hm. rewrite shiftr_div, shiftl_mul by lia. unfold u32.
  assert (E32 : 2 ^ 32 = 2 ^ k * 2 ^ (32 - k)) by (rewrite <- Z.pow_add_r by lia; f_equal; lia).
  replace (hi * 2 ^ (32 - k) mod 2 ^ 32) with (hi mod 2 ^ k * 2 ^ (32 - k))
    by (rewrite E32, Z.mul_mod_distr_r by lia; done).
  rewrite lor_add_disjoint; [|lia|].
  2: { split; [apply Z.div_pos; lia|]. apply Z.div_lt_upper_bound; [lia|]. rewrite <- E32. lia. }
  replace ((lo + 2 ^ 32 * hi) / 2 ^ k) with (lo / 2 ^ k + hi * 2 ^ (32 - k)).
  2: { rewrite E32. replace (lo + _) with (lo + (hi * 2 ^ (32 - k)) * 2 ^ k) by lia. by rewrite Z.div_add by lia. }
  rewrite <- Hm, !(Z.land_comm _ (mask mod _)), <- (Z.land_ones _ 26), <- !Z.land_assoc, !(Z.land_comm (Z.ones 26)),
    !Z.land_ones, Z.mod_mod by lia. f_equal.
  assert (E26 : 2 ^ k * 2 ^ (32 - k) = 2 ^ (k - 6 + 32 - k) * 2 ^ 6).
  { rewrite <- !Z.pow_add_r by lia. f_equal. lia. }
  rewrite (Z.mod_eq hi (2 ^ k)), Z.mul_sub_distr_r by lia.
  replace (2 ^ k * (hi / 2 ^ k) * 2 ^ (32 - k)) with ((hi / 2 ^ k * 2 ^ 6) * 2 ^ 26).
  - replace (lo / 2 ^ k + (hi * 2 ^ (32 - k) - hi / 2 ^ k * 2 ^ 6 * 2 ^ 26))
      with (lo / 2 ^ k + hi * 2 ^ (32 - k) + (- (hi / 2 ^ k * 2 ^ 6)) * 2 ^ 26) by lia.
    apply Z.mod_add. lia.
  - transitivity (hi / 2 ^ k * (2 ^ k * 2 ^ (32 - k))); [rewrite <- E32|]; lia.
Qed.

Lemma land_mask_range x m : 0 <= m -> 0 <= Z.land x m <= m.
Proof.
  intros Hm. split; [apply Z.land_nonneg; by right|].
  assert (E : m - Z.land x m = Z.ldiff m (Z.land x m)).
  { apply Z.sub_nocarry_ldiff. apply Z.bits_inj'. intros i Hi.
    rewrite Z.ldiff_spec, Z.land_spec, Z.bits_0. by destruct (Z.testbit x i), (Z.testbit m i). }
  pose proof (proj2 (Z.ldiff_nonneg m (Z.land x m)) (or_introl Hm)). lia.
Qed.

(** The RFC mask cut into the five limb masks. *)
Lemma clamp_limbs x :
  0 <= x < 2 ^ 128 ->
  clamp x = Z.land (x mod 2 ^ 26) 0x3ffffff + 2 ^ 26 * Z.land (x / 2 ^ 26 mod 2 ^ 26) 0x3ffff03 +
    2 ^ 52 * Z.land (x / 2 ^ 52 mod 2 ^ 26) 0x3ffc0ff + 2 ^ 78 * Z.land (x / 2 ^ 78 mod 2 ^ 26) 0x3f03fff +
    2 ^ 104 * Z.land (x / 2 ^ 104) 0x00fffff.
Proof.
  intros Hx. unfold clamp.
  rewrite (land_split 26 x), (land_split 26 (x / 2 ^ 26)), (land_split 26 (x / 2 ^ 26 / 2 ^ 26)),
    (land_split 26 (x / 2 ^ 26 / 2 ^ 26 / 2 ^ 26)) by lia.
  rewrite !Z.div_div by lia. rewrite <- !Z.pow_add_r by lia.
  change (26 + 26) with 52. change (52 + 26) with 78. change (78 + 26) with 104.
  repeat match goal with |- context [Z.land _ ?m] =>
    lazymatch m with context [0x0ffffffc0ffffffc0ffffffc0fffffff] =>
      let v := eval vm_compute in m in progress change m with v end end.
  lia.
Qed.

Lemma clamp_key_spec key :
  Forall byte key -> zlen key = 32 ->
  r_ok (clamp_key key) /\ LV (clamp_key key) = clamp (le_at 16 key 0).
Proof.
  intros Hk Hl. unfold clamp_key.
  rewrite clamp_limbs by (apply (le_at_range 16); [done|lia|lia]).
  rewrite (le_at_16 key 0) by (done || lia).
  destruct (U8TO32_LE_at key 0) as [_ H0]; [done|lia|lia|].
  destruct (U8TO32_LE_at key 4) as [_ H1]; [done|lia|lia|].
  destruct (U8TO32_LE_at key 8) as [_ H2]; [done|lia|lia|].
  destruct (U8TO32_LE_at key 12) as [_ H3]; [done|lia|lia|].
  change (0 + 4) with 4. change (0 + 8) with 8. change (0 + 12) with 12.
  set (t0 := U8TO32_LE key 0) in *. set (t1 := U8TO32_LE key 4) in *.
  set (t2 := U8TO32_LE key 8) in *. set (t3 := U8TO32_LE key 12) in *. clearbody t0 t1 t2 t3.
  rewrite (funnel 26 t0 t1), (funnel 20 t1 t2), (funnel 14 t2 t3), (shiftr_div 8) by (lia || done).
  set (x := t0 + 2 ^ 32 * t1 + 2 ^ 64 * t2 + 2 ^ 96 * t3).
  replace (Z.land t0 0x3ffffff) with (Z.land (x mod 2 ^ 26) 0x3ffffff).
  2: { rewrite !mask26, Z.mod_mod by lia. unfold x. Z.div_mod_to_equations. lia. }
  replace ((t0 + 2 ^ 32 * t1) / 2 ^ 26 mod 2 ^ 26) with (x / 2 ^ 26 mod 2 ^ 26)
    by (unfold x; Z.div_mod_to_equations; lia).
  replace ((t1 + 2 ^ 32 * t2) / 2 ^ 20 mod 2 ^ 26) with (x / 2 ^ 52 mod 2 ^ 26)
    by (unfold x; Z.div_mod_to_equations; lia).
  replace ((t2 + 2 ^ 32 * t3) / 2 ^ 14 mod 2 ^ 26) with (x / 2 ^ 78 mod 2 ^ 26)
    by (unfold x; Z.div_mod_to_equations; lia).
  replace (t3 / 2 ^ 8) with (x / 2 ^ 104) by (unfold x; Z.div_mod_to_equations; lia).
  unfold r_ok, LV. cbn [l0 l1 l2 l3 l4]. split; [|lia].
  pose proof (land_mask_range (x mod 2 ^ 26) 0x3ffffff ltac:(lia)).
  pose proof (land_mask_range (x / 2 ^ 26 mod 2 ^ 26) 0x3ffff03 ltac:(lia)).
  pose proof (land_mask_range (x / 2 ^ 52 mod 2 ^ 26) 0x3ffc0ff ltac:(lia)).
  pose proof (land_mask_range (x / 2 ^ 78 mod 2 ^ 26) 0x3f03fff ltac:(lia)).
  pose proof (land_mask_range (x / 2 ^ 104) 0x00fffff ltac:(lia)). lia.
Qed.

(** ** Final reduction *)

Definition reduced (h : limbs) : Prop :=
  0 <= l0 h < 2 ^ 26 /\ 0 <= l1 h < 2 ^ 26 /\ 0 <= l2 h < 2 ^ 26 /\ 0 <= l3 h < 2 ^ 26 /\ 0 <= l4 h < 2 ^ 26.

(** Split [e] into its low 26 bits [m] and the carry [c], at most [lim]. *)
Ltac carry26 e lim c m :=
  let B := fresh "B" in let D := fresh "D" in let R := fresh "R" in
  assert (B : 0 <= e / 2 ^ 26 <= lim) by (Z.div_mod_to_equations; lia);
  pose proof (Z.div_mod e (2 ^ 26) ltac:(lia)) as D;
  pose proof (Z.mod_pos_bound e (2 ^ 26) ltac:(lia)) as R;
  set (c := e / 2 ^ 26) in *; set (m := e mod 2 ^ 26) in *; clearbody c m.

Lemma finish_carry_spec h :
  h_ok h -> reduced (finish_carry h) /\ exists k, LV (finish_carry h) = LV h - P1305 * k.
Proof.
  destruct h as [h0 h1 h2 h3 h4]. unfold h_ok. cbn [l0 l1 l2 l3 l4]. intros (H0 & H1 & H2 & H3 & H4).
  unfold finish_carry. rewrite !mask26, !shiftr_div by lia.
  carry26 h0 43 c0 x0.
  rewrite (u32_small (h1 + c0)) by lia.
  carry26 (h1 + c0) 1 c1 x1.
  rewrite (u32_small (h2 + c1)) by lia.
  carry26 (h2 + c1) 1 c2 x2.
  rewrite (u32_small (h3 + c2)) by lia.
  carry26 (h3 + c2) 1 c3 x3.
  rewrite (u32_small (h4 + c3)) by lia.
  carry26 (h4 + c3) 1 c4 x4.
  rewrite (u32_small (c4 * 5)), (u32_small (x0 + c4 * 5)) by lia.
  carry26 (x0 + c4 * 5) c4 c5 x5.
  (* a carry out of the top limb means that every limb below it wrapped *)
  assert (W : c4 = 1 -> x1 < 43) by lia.
  rewrite (u32_small (x1 + c5)) by lia. unfold reduced, LV, P1305. cbn [l0 l1 l2 l3 l4]. split; [lia|].
  exists c4. lia.
Qed.

Lemma choose_mask h g (pick : bool) :
  0 <= h < 2 ^ 32 -> 0 <= g < 2 ^ 32 ->
  let b := u32 (Z.b2z (negb pick) - 1) in
  Z.lor (Z.land h (not32 b)) (Z.land g b) = if pick then g else h.
Proof.
  intros Hh Hg. destruct pick; cbn zeta; unfold not32; simpl Z.b2z.
  - change (u32 (0 - 1)) with (Z.ones 32). change (2 ^ 32 - 1 - Z.ones 32) with 0.
    by rewrite Z.land_0_r, Z.lor_0_l, Z.land_ones, Z.mod_small by lia.
  - change (u32 (1 - 1)) with 0. change (2 ^ 32 - 1 - 0) with (Z.ones 32).
    by rewrite Z.land_0_r, Z.lor_0_r, Z.land_ones, Z.mod_small by lia.
Qed.

Lemma finish_reduce_spec h :
  reduced h -> reduced (finish_reduce h) /\ LV (finish_reduce h) = LV h mod P1305.
Proof.
  destruct h as [h0 h1 h2 h3 h4]. unfold reduced. cbn [l0 l1 l2 l3 l4]. intros (H0 & H1 & H2 & H3 & H4).
  unfold finish_reduce. rewrite !mask26, !shiftr_div by lia.
  rewrite (u32_small (h0 + 5)) by lia.
  carry26 (h0 + 5) 1 c0 g0.
  rewrite (u32_small (h1 + c0)) by lia.
  carry26 (h1 + c0) 1 c1 g1.
  rewrite (u32_small (h2 + c1)) by lia.
  carry26 (h2 + c1) 1 c2 g2.
  rewrite (u32_small (h3 + c2)) by lia.
  carry26 (h3 + c2) 1 c3 g3.
  set (g4 := u32 (h4 + c3 - 2 ^ 26)).
  assert (G4 : g4 = if 2 ^ 26 <=? h4 + c3 then h4 + c3 - 2 ^ 26 else h4 + c3 - 2 ^ 26 + 2 ^ 32).
  { unfold g4. destruct (Z.leb_spec (2 ^ 26) (h4 + c3)); ulia. }
  replace (g4 / 2 ^ 31) with (Z.b2z (negb (2 ^ 26 <=? h4 + c3))).
  2: { rewrite G4. destruct (Z.leb_spec (2 ^ 26) (h4 + c3)); simpl Z.b2z; Z.div_mod_to_equations; lia. }
  assert (R4 : 0 <= g4 < 2 ^ 32) by apply u32_range.
  rewrite !choose_mask by lia. unfold LV, P1305. cbn [l0 l1 l2 l3 l4].
  destruct (Z.leb_spec (2 ^ 26) (h4 + c3)) as [G|G]; (split; [lia|]).
  - rewrite <- (Z.mod_add _ (-1)), Z.mod_small by lia. lia.
  - rewrite Z.mod_small by lia. done.
Qed.

(** ** Packing the tag *)

Lemma U32TO8_LE_bytes v : U32TO8_LE v = le_bytes 4 v.
Proof.
  unfold U32TO8_LE, u8. rewrite !shiftr_div by lia. cbn [le_bytes]. rewrite !Z.div_div by lia. done.
Qed.

(** [(a >> k) | (b << (26 - k))] of two reduced limbs, as a 32-bit word. *)
Lemma pack k a b :
  0 <= k <= 18 -> 0 <= a < 2 ^ 26 -> 0 <= b ->
  Z.lor (Z.shiftr a k) (u32 (Z.shiftl b (26 - k))) = (a + 2 ^ 26 * b) / 2 ^ k mod 2 ^ 32.
Proof.
  intros Hk Ha Hb. rewrite shiftr_div, shiftl_mul by lia. unfold u32.
  assert (E32 : 2 ^ 32 = 2 ^ (6 + k) * 2 ^ (26 - k)) by (rewrite <- Z.pow_add_r by lia; f_equal; lia).
  assert (E26 : 2 ^ 26 = 2 ^ k * 2 ^ (26 - k)) by (rewrite <- Z.pow_add_r by lia; f_equal; lia).
  assert (La : 0 <= a / 2 ^ k < 2 ^ (26 - k)).
  { split; [apply Z.div_pos; lia|]. apply Z.div_lt_upper_bound; [lia|]. rewrite <- E26. lia. }
  replace (b * 2 ^ (26 - k) mod 2 ^ 32) with (b mod 2 ^ (6 + k) * 2 ^ (26 - k))
    by (rewrite E32, Z.mul_mod_distr_r by lia; done).
  rewrite lor_add_disjoint by lia. rewrite E26.
  replace (a + 2 ^ k * 2 ^ (26 - k) * b) with (a + (b * 2 ^ (26 - k)) * 2 ^ k) by lia.
  rewrite Z.div_add, E32 by lia. rewrite (Z.mul_comm (2 ^ (6 + k))), Z.rem_mul_r by lia.
  rewrite Z.mod_add, Z.div_add, (Z.div_small (a / _)), Z.add_0_l by lia.
  rewrite (Z.mod_small (a / _)) by lia. lia.
Qed.

Lemma le_bytes_16 x :
  le_bytes 16 x = le_bytes 4 x ++ le_bytes 4 (x / 2 ^ 32) ++ le_bytes 4 (x / 2 ^ 64) ++ le_bytes 4 (x / 2 ^ 96).
Proof.
  rewrite (le_bytes_add 4 12), (le_bytes_add 4 8), (le_bytes_add 4 4).
  rewrite !Z.div_div by lia. done.
Qed.

Lemma finish_out_spec h key :
  reduced h -> Forall byte key -> zlen key = 32 ->
  finish_out h key = le_bytes 16 (LV h + le_at 16 key 16).
Proof.
  destruct h as [h0 h1 h2 h3 h4]. unfold reduced. cbn [l0 l1 l2 l3 l4].
  intros (H0 & H1 & H2 & H3 & H4) Hk Hl. unfold finish_out.
  rewrite (le_at_16 key 16) by (done || lia).
  destruct (U8TO32_LE_at key 16) as [_ K0]; [done|lia|lia|].
  destruct (U8TO32_LE_at key 20) as [_ K1]; [done|lia|lia|].
  destruct (U8TO32_LE_at key 24) as [_ K2]; [done|lia|lia|].
  destruct (U8TO32_LE_at key 28) as [_ K3]; [done|lia|lia|].
  change (16 + 4) with 20. change (16 + 8) with 24. change (16 + 12) with 28.
  set (k0 := U8TO32_LE key 16) in *. set (k1 := U8TO32_LE key 20) in *.
  set (k2 := U8TO32_LE key 24) in *. set (k3 := U8TO32_LE key 28) in *. clearbody k0 k1 k2 k3.
  pose proof (pack 0 h0 h1 ltac:(lia) ltac:(lia) ltac:(lia)) as P0. rewrite Z.shiftr_0_r in P0.
  pose proof (pack 6 h1 h2 ltac:(lia) ltac:(lia) ltac:(lia)) as P1.
  pose proof (pack 12 h2 h3 ltac:(lia) ltac:(lia) ltac:(lia)) as P2.
  pose proof (pack 18 h3 h4 ltac:(lia) ltac:(lia) ltac:(lia)) as P3.
  change (26 - 0) with 26 in *. change (26 - 6) with 20 in *. change (26 - 12) with 14 in *. change (26 - 18) with 8 in *.
  rewrite P0, P1, P2, P3. clear P0 P1 P2 P3 Hk Hl. rewrite !U32TO8_LE_bytes, !shiftr_div by lia.
  set (w0 := (h0 + 2 ^ 26 * h1) / 2 ^ 0 mod 2 ^ 32). set (w1 := (h1 + 2 ^ 26 * h2) / 2 ^ 6 mod 2 ^ 32).
  set (w2 := (h2 + 2 ^ 26 * h3) / 2 ^ 12 mod 2 ^ 32). set (w3 := (h3 + 2 ^ 26 * h4) / 2 ^ 18 mod 2 ^ 32).
  assert (EV : exists q, LV (Limbs h0 h1 h2 h3 h4) = w0 + 2 ^ 32 * w1 + 2 ^ 64 * w2 + 2 ^ 96 * w3 + 2 ^ 128 * q).
  { exists (h4 / 2 ^ 24). unfold LV, w0, w1, w2, w3. cbn [l0 l1 l2 l3 l4]. Z.div_mod_to_equations. lia. }
  destruct EV as [q ->].
  assert (W : 0 <= w0 < 2 ^ 32 /\ 0 <= w1 < 2 ^ 32 /\ 0 <= w2 < 2 ^ 32 /\ 0 <= w3 < 2 ^ 32).
  { unfold w0, w1, w2, w3. repeat match goal with |- _ /\ _ => split end; apply Z.mod_pos_bound; lia. }
  clearbody w0 w1 w2 w3. rewrite !(u64_small (_ + k0)), !(u64_small (_ + k1)), !(u64_small (_ + k2)), !(u64_small (_ + k3)) by lia.
  rewrite (u64_small (w1 + k1 + _)) by (Z.div_mod_to_equations; lia).
  rewrite (u64_small (w2 + k2 + _)) by (Z.div_mod_to_equations; lia).
  rewrite (u64_small (w3 + k3 + _)) by (Z.div_mod_to_equations; lia).
  rewrite le_bytes_16. refine (f_equal2 app _ (f_equal2 app _ (f_equal2 app _ _))); apply le_bytes_mod; change (256 ^ Z.of_nat 4) with (2 ^ 32);
    Z.div_mod_to_equations; lia.
Qed.

(** ** The loop *)

Lemma last_block_eq m off inlen :
  0 <= off -> 0 <= inlen < 16 -> off + inlen <= zlen m ->
  last_block m off inlen =
    take (Z.to_nat inlen) (drop (Z.to_nat off) m) ++ 1 :: replicate (Z.to_nat (15 - inlen)) 0.
Proof.
  intros Ho Hi Hl. unfold last_block.
  pose proof (for_loop_ind (fun j mp => zlen mp = 16 /\ forall k, 0 <= k < j -> mp.[k] = m.[off + k])
    (Z.to_nat inlen) 0 (fun j mp => mp.[j <- m.[off + j]]) (replicate 16 0)) as A.
  destruct A as [A1 A2]; [split; [done|lia]| |].
  { intros j mp Hj [L Hk]. rewrite zlen_zset. split; [done|]. intros k Hk'.
    destruct (decide (k = j)) as [->|]; [apply zget_zset_eq; lia|]. rewrite zget_zset_ne by lia. apply Hk. lia. }
  set (mp := for_loop _ 0 _ _) in *. clearbody mp. rewrite Z.add_0_l, Z2Nat.id in A2 by lia.
  pose proof (for_loop_ind (fun j q => zlen q = 16 /\ forall k, 0 <= k < j ->
      q.[k] = if k <? inlen then m.[off + k] else if k =? inlen then 1 else 0)
    (Z.to_nat (16 - (inlen + 1))) (inlen + 1) (fun j q => q.[j <- 0]) (mp.[inlen <- 1])) as B.
  destruct B as [B1 B2].
  { rewrite zlen_zset. split; [done|]. intros k Hk. destruct (Z.ltb_spec k inlen).
    - rewrite zget_zset_ne by lia. apply A2. lia.
    - assert (k = inlen) as -> by lia. rewrite Z.eqb_refl. apply zget_zset_eq. lia. }
  { intros j q Hj [L Hk]. rewrite zlen_zset. split; [done|]. intros k Hk'.
    destruct (decide (k = j)) as [->|]; [|rewrite zget_zset_ne by lia; apply Hk; lia].
    destruct (Z.ltb_spec j inlen), (Z.eqb_spec j inlen); try lia. apply zget_zset_eq. lia. }
  set (q := for_loop _ _ _ _) in *. clearbody q.
  assert (L1 : zlen (take (Z.to_nat inlen) (drop (Z.to_nat off) m)) = inlen).
  { unfold zlen in *. rewrite length_take, length_drop. lia. }
  assert (L2 : zlen (1 :: replicate (Z.to_nat (15 - inlen)) 0) = 16 - inlen).
  { change (1 :: ?l) with ([1] ++ l). rewrite zlen_app, zlen_replicate by lia. unfold zlen. simpl. lia. }
  apply list_eq_zget; [rewrite zlen_app; lia|]. intros k Hk. rewrite B2, zget_app, L1 by lia.
  destruct (Z.ltb_spec k inlen).
  - unfold zget. rewrite lookup_total_take, lookup_total_drop, decide_True by lia. f_equal. lia.
  - destruct (Z.eqb_spec k inlen) as [->|]; [by rewrite Z.sub_diag|].
    change (1 :: ?l) with ([1] ++ l). rewrite zget_app by lia. change (zlen [1]) with 1.
    destruct (Z.ltb_spec (k - inlen) 1); [lia|]. rewrite zget_replicate by lia. done.
Qed.

Lemma le_val_zeros l n : le_val (l ++ replicate n 0) = le_val l.
Proof.
  rewrite le_val_app. replace (le_val (replicate n 0)) with 0; [lia|].
  induction n as [|n IH]; [done|]. cbn [replicate le_val]. lia.
Qed.

Lemma last_block_spec m off inlen :
  Forall byte m -> 0 <= off -> 0 <= inlen < 16 -> off + inlen = zlen m ->
  Forall byte (last_block m off inlen) /\ zlen (last_block m off inlen) = 16 /\
  le_at 16 (last_block m off inlen) 0 = le_val (take 16 (drop (Z.to_nat off) m) ++ [1]).
Proof.
  intros Hm Ho Hi Hl. rewrite last_block_eq by lia.
  assert (Et : take (Z.to_nat inlen) (drop (Z.to_nat off) m) = drop (Z.to_nat off) m).
  { apply take_ge. rewrite length_drop. unfold zlen in Hl. lia. }
  rewrite Et.
  assert (Et' : take 16 (drop (Z.to_nat off) m) = drop (Z.to_nat off) m).
  { apply take_ge. rewrite length_drop. unfold zlen in Hl. lia. }
  rewrite Et'. split; [|split].
  - apply Forall_app. split; [by apply Forall_drop|]. constructor; [unfold byte; lia|].
    apply Forall_replicate. unfold byte. lia.
  - unfold zlen in *. rewrite length_app, length_drop. cbn [length]. rewrite length_replicate. lia.
  - unfold le_at. rewrite take_ge.
    + change (drop (Z.to_nat 0) ?l) with l.
      replace (drop (Z.to_nat off) m ++ 1 :: replicate (Z.to_nat (15 - inlen)) 0)
        with ((drop (Z.to_nat off) m ++ [1]) ++ replicate (Z.to_nat (15 - inlen)) 0) by (by rewrite <- app_assoc).
      apply le_val_zeros.
    + change (drop (Z.to_nat 0) ?l) with l. unfold zlen in *.
      rewrite length_app, length_drop. cbn [length]. rewrite length_replicate. lia.
Qed.

(** One block: add, multiply, and the accumulator advances by one RFC step. *)
Lemma block_step r h p off hibit n :
  r_ok r -> h_ok h -> Forall byte p -> 0 <= off -> off + 16 <= zlen p -> hibit = 0 \/ hibit = 2 ^ 24 ->
  n = le_at 16 p off + 2 ^ 104 * hibit ->
  h_ok (donna_mul r (add_block h p off hibit)) /\
  LV (donna_mul r (add_block h p off hibit)) mod P1305 = (LV h mod P1305 + n) * LV r mod P1305.
Proof.
  intros Hr Hh Hp Ho Hl Hb ->.
  destruct (add_block_spec h p off hibit) as [Hi Ev]; [done..|].
  destruct (donna_mul_spec r (add_block h p off hibit)) as [Hok [k Ek]]; [done..|].
  split; [done|]. rewrite Ek, Ev.
  rewrite <- (Zmult_mod_idemp_l (LV h mod _ + _)), Zplus_mod_idemp_l, Zmult_mod_idemp_l.
  rewrite <- (Z.mod_add _ k) by done. f_equal. lia.
Qed.

Lemma donna_loop_spec (fuel n : nat) r m off inlen h :
  r_ok r -> h_ok h -> Forall byte m -> 0 <= off -> 0 <= inlen -> off + inlen = zlen m ->
  inlen < Z.of_nat fuel -> inlen <= Z.of_nat n ->
  exists h', donna_loop fuel r m off inlen h = Some h' /\ h_ok h' /\
    LV h' mod P1305 = mac_acc (LV r) (LV h mod P1305) (mac_blocks n (drop (Z.to_nat off) m)).
Proof.
  intros Hr. revert n off inlen h. induction fuel as [|fuel IH]; intros n off inlen h Hh Hm Ho Hi Hl Hf Hn; [lia|].
  assert (Ln : length (drop (Z.to_nat off) m) = Z.to_nat inlen).
  { rewrite length_drop. unfold zlen in Hl. lia. }
  cbn [donna_loop]. destruct (Z.leb_spec 16 inlen).
  - destruct (block_step r h m off (2 ^ 24) (le_val (take 16 (drop (Z.to_nat off) m) ++ [1])))
      as [Hok Ev]; [done|done|done|lia|lia|by right| |].
    { rewrite le_val_app. unfold zlen. rewrite length_take, Ln, Nat.min_l by lia. unfold le_at. simpl. lia. }
    destruct n as [|n]; [lia|].
    destruct (IH n (off + 16) (inlen - 16) (donna_mul r (add_block h m off (2 ^ 24))))
      as (h' & E & Hok' & Ev'); [done|done|lia|lia|lia|lia|lia|].
    exists h'. split; [done|]. split; [done|]. rewrite Ev', Ev.
    destruct (drop (Z.to_nat off) m) as [|x l] eqn:Ed; [simpl in Ln; lia|].
    cbn [mac_blocks]. unfold mac_acc. cbn [fold_left]. f_equal.
    rewrite <- Ed, drop_drop. do 2 f_equal. lia.
  - destruct (Z.eqb_spec inlen 0) as [->|].
    + exists h. split; [done|]. split; [done|]. destruct (drop (Z.to_nat off) m); [|simpl in Ln; lia]. by destruct n.
    + destruct (last_block_spec m off inlen) as (Lb & Ll & Lv); [done|lia|lia|lia|].
      destruct (block_step r h (last_block m off inlen) 0 0 (le_val (take 16 (drop (Z.to_nat off) m) ++ [1])))
        as [Hok Ev]; [done|done|done|lia|lia|by left|rewrite Lv; lia|].
      destruct fuel as [|fuel]; [lia|]. cbn [donna_loop]. change (16 <=? 0) with false. change (0 =? 0) with true.
      cbn match. eexists. split; [reflexivity|]. split; [done|]. rewrite Ev.
      destruct n as [|n]; [lia|].
      assert (Dd : drop 16 (drop (Z.to_nat off) m) = []) by (apply drop_ge; lia).
      destruct (drop (Z.to_nat off) m) as [|x l] eqn:Ed; [simpl in Ln; lia|].
      cbn [mac_blocks]. rewrite Dd. by destruct n.
Qed.

(** The whole routine. *)
Lemma poly1305_auth_run m key :
  Forall byte m -> Forall byte key -> zlen key = 32 ->
  poly1305_auth m (zlen m) key = Some (poly1305_spec m key).
Proof.
  intros Hm Hk Hl. unfold poly1305_auth, poly1305_spec.
  destruct (clamp_key_spec key Hk Hl) as [Hr Er].
  destruct (donna_loop_spec (S (S (length m))) (length m) (clamp_key key) m 0 (zlen m) (Limbs 0 0 0 0 0))
    as (h & -> & Hok & Ev); [done|unfold h_ok; cbn [l0 l1 l2 l3 l4]; lia|done|lia|unfold zlen; lia..|].
  change (drop (Z.to_nat 0) m) with m in Ev.
  destruct (finish_carry_spec h Hok) as [Hc [k Ek]].
  destruct (finish_reduce_spec _ Hc) as [Hd Ed].
  rewrite finish_out_spec by done. do 3 f_equal.
  - rewrite Ed, Ek. replace (LV h - P1305 * k) with (LV h + (- k) * P1305) by lia.
    rewrite Z.mod_add, Ev by done. rewrite Er. done.
  - unfold le_at. rewrite take_ge; [done|]. rewrite length_drop. unfold zlen in Hl. lia.
Qed.

(** ** Properties *)

(** C7: [poly1305_auth] computes the Poly1305 tag of RFC 8439.  For every
    message of any length and every 32-byte key the routine terminates and its
    16 output bytes are the little-endian encoding of the RFC formula: the
    polynomial in the clamped [r] over the message blocks modulo [2^130 - 5],
    plus [s], modulo [2^128].  In particular none of the 32- and 64-bit
    operations on the 26-bit limbs overflows. *)
Theorem poly1305_auth_correct m key :
  Forall byte m -> Forall byte key -> zlen key = 32 ->
  poly1305_auth m (zlen m) key = Some (poly1305_spec m key).
Proof. apply poly1305_auth_run. Qed.

Lemma poly1305_auth_correct_witness :
  let m := [1; 2; 3] in let key := replicate 32 5 in
  (Forall byte m /\ Forall byte key /\ zlen key = 32) /\
  poly1305_auth m (zlen m) key = Some (poly1305_spec m key).
Proof.
  intros m key.
  assert (Hm : Forall byte m) by (repeat constructor; unfold byte; lia).
  assert (Hk : Forall byte key) by (apply Forall_replicate; unfold byte; lia).
  split; [done|]. by apply poly1305_auth_correct.
Defined.
