(* ===== verification/Aead.v ===== *)
(** * ChaCha20-Poly1305 AEAD (kernel/crypto/chacha20poly1305.c)

    The static scratch buffer [g_mac_data] is threaded through the calls, so the
    results are shown not to depend on what earlier calls left in it. *)

From S2P Require Import Prelude ChaCha20 Poly1305.

Definition MAC_DATA_MAX : Z := 40 * 1024.

(** ** Operations *)

Definition poly1305_key_gen (key nonce : list Z) : list Z :=
  let block := chacha20_block key 0 nonce in
  take 32 block.

Definition pad16_len (len : Z) : Z :=
  let rem := len mod 16 in
  if rem =? 0 then 0 else 16 - rem.

(** [for (i = 0; i < 8; i++) g_mac_data[pos + i] = (uint8_t)(len >> (8 * i))]. *)
Definition put_len8 (buf : list Z) (pos len : Z) : list Z :=
  for_loop 8 0 (fun i buf => buf.[pos + i <- u8 (Z.shiftr len (8 * i))]) buf.

(** The buffer after the call and the returned length. *)
Definition build_mac_data (g_mac_data aad ct : list Z) : Z * list Z :=
  let aad_len := zlen aad in
  let ct_len := zlen ct in
  let aad_pad := pad16_len aad_len in
  let ct_pad := pad16_len ct_len in
  let total := u64 (aad_len + aad_pad + ct_len + ct_pad + 8 + 8) in
  let pos := 0 in
  if MAC_DATA_MAX <? total then (0, g_mac_data) else
  let buf := if aad_len =? 0 then g_mac_data else memcpy g_mac_data pos aad in
  let pos := pos + aad_len in
  let buf := memset buf pos 0 aad_pad in
  let pos := pos + aad_pad in
  let buf := if ct_len =? 0 then buf else memcpy buf pos ct in
  let pos := pos + ct_len in
  let buf := memset buf pos 0 ct_pad in
  let pos := pos + ct_pad in
  let buf := put_len8 buf pos aad_len in
  let pos := pos + 8 in
  let buf := put_len8 buf pos ct_len in
  let pos := pos + 8 in
  (pos, buf).

(** [poly1305_auth(tag, g_mac_data, mac_len, otk)]: it reads [mac_len] bytes. *)
Definition mac_tag (buf : list Z) (mac_len : Z) (otk : list Z) : list Z :=
  default [] (poly1305_auth (take (Z.to_nat mac_len) buf) mac_len otk).

(** Returns [out], [tag] and the scratch buffer. *)
Definition chacha20poly1305_encrypt (g_mac_data plaintext aad key nonce : list Z)
    : list Z * list Z * list Z :=
  let otk := poly1305_key_gen key nonce in
  let out := chacha20_xor plaintext key 1 nonce in
  let '(mac_len, buf) := build_mac_data g_mac_data aad out in
  if mac_len =? 0 then (out, replicate 16 0, buf)
  else (out, mac_tag buf mac_len otk, buf).

Definition tags_equal (a b : list Z) : bool :=
  for_loop 16 0 (fun i diff => Z.lor diff (Z.lxor a.[i] b.[i])) 0 =? 0.

(** [None] is the return value 0, with [out] not written. *)
Definition chacha20poly1305_decrypt (g_mac_data ciphertext aad key nonce tag : list Z)
    : option (list Z) * list Z :=
  let otk := poly1305_key_gen key nonce in
  let '(mac_len, buf) := build_mac_data g_mac_data aad ciphertext in
  if mac_len =? 0 then (None, buf) else
  let computed := mac_tag buf mac_len otk in
  if negb (tags_equal computed tag) then (None, buf)
  else (Some (chacha20_xor ciphertext key 1 nonce), buf).

(** ** Specification: RFC 8439, section 2.8 *)

Definition zpad16 (l : list Z) : list Z := l ++ replicate (Z.to_nat ((- zlen l) mod 16)) 0.

Definition aead_mac_data (aad ct : list Z) : list Z :=
  zpad16 aad ++ zpad16 ct ++ le_bytes 8 (zlen aad) ++ le_bytes 8 (zlen ct).

Definition aead_tag (aad ct key nonce : list Z) : list Z :=
  poly1305_spec (aead_mac_data aad ct) (take 32 (chacha20_block key 0 nonce)).

(** ** The scratch buffer *)

Lemma put_len8_memcpy buf pos len :
  0 <= pos -> pos + 8 <= zlen buf -> put_len8 buf pos len = memcpy buf pos (le_bytes 8 len).
Proof. intros Hp Hl. unfold put_len8. by rewrite fill_loop, le_bytes_shift by lia. Qed.

Lemma pad16_len_mod n : pad16_len n = (- n) mod 16.
Proof. unfold pad16_len. destruct (Z.eqb_spec (n mod 16) 0); Z.div_mod_to_equations; lia. Qed.

Lemma pad16_len_range n : 0 <= pad16_len n < 16.
Proof. rewrite pad16_len_mod. apply Z.mod_pos_bound. lia. Qed.

(** Appending [src] behind a known prefix of the buffer. *)
Lemma push_prefix (buf pre src : list Z) pos pos' :
  take (Z.to_nat pos) buf = pre -> zlen buf = MAC_DATA_MAX -> 0 <= pos -> pos' = pos + zlen src ->
  pos' <= MAC_DATA_MAX ->
  take (Z.to_nat pos') (memcpy buf pos src) = pre ++ src /\ zlen (memcpy buf pos src) = MAC_DATA_MAX.
Proof.
  intros <- Hb Hp -> Hl. split; [apply take_memcpy|rewrite zlen_memcpy]; lia.
Qed.

Definition mac_total (aad ct : list Z) : Z :=
  zlen aad + pad16_len (zlen aad) + zlen ct + pad16_len (zlen ct) + 16.

Lemma memcpy_nil (buf : list Z) pos : memcpy buf pos [] = buf.
Proof. unfold memcpy. cbn. by rewrite Nat.add_0_r, take_drop. Qed.

(** [if (n) memcpy(...)]: the test only skips an empty copy. *)
Lemma memcpy_guard buf pos (src : list Z) :
  (if zlen src =? 0 then buf else memcpy buf pos src) = memcpy buf pos src.
Proof.
  destruct (Z.eqb_spec (zlen src) 0) as [E|]; [|done]. destruct src; [|by unfold zlen in E].
  by rewrite memcpy_nil.
Qed.

Lemma build_mac_data_spec buf aad ct :
  zlen buf = MAC_DATA_MAX -> zlen aad < 2 ^ 62 -> zlen ct < 2 ^ 62 ->
  let '(n, buf') := build_mac_data buf aad ct in
  zlen buf' = MAC_DATA_MAX /\
  if MAC_DATA_MAX <? mac_total aad ct then n = 0 /\ buf' = buf
  else n = zlen (aead_mac_data aad ct) /\ 0 < n /\ take (Z.to_nat n) buf' = aead_mac_data aad ct.
Proof.
  intros Hb Ha Hc. unfold build_mac_data. pose proof (zlen_nonneg aad). pose proof (zlen_nonneg ct).
  pose proof (pad16_len_range (zlen aad)) as Pa. pose proof (pad16_len_range (zlen ct)) as Pc.
  rewrite u64_small by lia.
  replace (zlen aad + pad16_len (zlen aad) + zlen ct + pad16_len (zlen ct) + 8 + 8) with (mac_total aad ct)
    by (unfold mac_total; lia).
  destruct (Z.ltb_spec MAC_DATA_MAX (mac_total aad ct)) as [Ht|Ht]; [done|]. unfold mac_total in Ht.
  assert (Zr : forall n, 0 <= n -> zlen (replicate (Z.to_nat n) 0) = n) by (intros; by apply zlen_replicate).
  rewrite !memcpy_guard. unfold memset.
  destruct (push_prefix buf [] aad 0 (0 + zlen aad)) as [T1 L1]; [done|done|lia|lia|lia|].
  edestruct (push_prefix _ _ (replicate (Z.to_nat (pad16_len (zlen aad))) 0) _ (0 + zlen aad + pad16_len (zlen aad)) T1 L1)
    as [T2 L2]; [lia|rewrite Zr; lia|lia|].
  edestruct (push_prefix _ _ ct _ (0 + zlen aad + pad16_len (zlen aad) + zlen ct) T2 L2) as [T3 L3]; [lia|lia|lia|].
  edestruct (push_prefix _ _ (replicate (Z.to_nat (pad16_len (zlen ct))) 0) _
    (0 + zlen aad + pad16_len (zlen aad) + zlen ct + pad16_len (zlen ct)) T3 L3) as [T4 L4]; [lia|rewrite Zr; lia|lia|].
  rewrite (put_len8_memcpy _ _ (zlen aad)) by lia.
  edestruct (push_prefix _ _ (le_bytes 8 (zlen aad)) _
    (0 + zlen aad + pad16_len (zlen aad) + zlen ct + pad16_len (zlen ct) + 8) T4 L4) as [T5 L5];
    [lia|rewrite zlen_le_bytes; lia|lia|].
  rewrite (put_len8_memcpy _ _ (zlen ct)) by lia.
  edestruct (push_prefix _ _ (le_bytes 8 (zlen ct)) _
    (0 + zlen aad + pad16_len (zlen aad) + zlen ct + pad16_len (zlen ct) + 8 + 8) T5 L5) as [T6 L6];
    [lia|rewrite zlen_le_bytes; lia|lia|].
  split; [done|]. unfold aead_mac_data, zpad16. rewrite !zlen_app, !zlen_le_bytes, <- !pad16_len_mod, !Zr by lia.
  split; [lia|]. split; [lia|]. rewrite T6. by rewrite <- !app_assoc.
Qed.

(** ** Tags *)

Lemma tags_equal_spec a b : zlen a = 16 -> zlen b = 16 -> tags_equal a b = bool_decide (a = b).
Proof.
  intros Ha Hb. unfold tags_equal.
  pose proof (for_loop_ind (fun j d => d = 0 <-> forall k, 0 <= k < j -> a.[k] = b.[k]) 16 0
    (fun i diff => Z.lor diff (Z.lxor a.[i] b.[i])) 0) as I.
  change (0 + Z.of_nat 16) with 16 in I. set (d := for_loop _ _ _ _) in *. destruct I as [I1 I2].
  - split; [lia|done].
  - intros j x Hj IH. rewrite Z.lor_eq_0_iff, Z.lxor_eq_0_iff, IH. split.
    + intros [H1 H2] k Hk. destruct (decide (k = j)) as [->|]; [done|apply H1; lia].
    + intros H1. split; [intros k Hk|]; apply H1; lia.
  - case_bool_decide as E; destruct (Z.eqb_spec d 0) as [D|D]; try done.
    + exfalso. apply D, I2. by rewrite E.
    + exfalso. apply E, list_eq_zget; [lia|]. rewrite Ha. by apply I1.
Qed.

Lemma poly1305_key_gen_bytes key nonce :
  Forall byte (poly1305_key_gen key nonce) /\ zlen (poly1305_key_gen key nonce) = 32.
Proof.
  destruct (chacha20_block_bytes key 0 nonce) as [Hb Hl]. unfold poly1305_key_gen.
  split; [by apply Forall_take|]. unfold zlen in *. rewrite length_take. lia.
Qed.

Lemma aead_mac_data_bytes aad ct :
  Forall byte aad -> Forall byte ct -> Forall byte (aead_mac_data aad ct).
Proof.
  intros Ha Hc. unfold aead_mac_data, zpad16.
  assert (Hz : forall n, Forall byte (replicate n 0)) by (intros; apply Forall_replicate; unfold byte; lia).
  repeat (apply Forall_app; split); auto using le_bytes_byte.
Qed.

(** Both entry points compute the RFC tag whenever the data fits. *)
Lemma mac_tag_spec aad ct key nonce buf n :
  Forall byte aad -> Forall byte ct ->
  n = zlen (aead_mac_data aad ct) -> take (Z.to_nat n) buf = aead_mac_data aad ct ->
  mac_tag buf n (poly1305_key_gen key nonce) = aead_tag aad ct key nonce.
Proof.
  intros Ha Hc -> Ht. unfold mac_tag. rewrite Ht.
  destruct (poly1305_key_gen_bytes key nonce) as [Hb Hl].
  rewrite poly1305_auth_run by auto using aead_mac_data_bytes. done.
Qed.

Lemma encrypt_spec buf pt aad key nonce :
  zlen buf = MAC_DATA_MAX -> zlen pt < 2 ^ 62 -> zlen aad < 2 ^ 62 -> Forall byte pt -> Forall byte aad ->
  let ct := chacha20_xor pt key 1 nonce in
  exists buf', zlen buf' = MAC_DATA_MAX /\
  chacha20poly1305_encrypt buf pt aad key nonce =
    (ct, if MAC_DATA_MAX <? mac_total aad ct then replicate 16 0 else aead_tag aad ct key nonce, buf').
Proof.
  intros Hb Hp Ha Bp Ba ct. unfold chacha20poly1305_encrypt. fold ct.
  destruct (chacha20_xor_get pt key 1 nonce ltac:(lia)) as [Hl _].
  pose proof (chacha20_xor_bytes pt key 1 nonce ltac:(lia) Bp) as Bc. fold ct in Hl, Bc.
  pose proof (build_mac_data_spec buf aad ct Hb Ha ltac:(lia)) as S.
  destruct (build_mac_data buf aad ct) as [n buf']. destruct S as [L S]. exists buf'. split; [done|].
  destruct (MAC_DATA_MAX <? mac_total aad ct).
  - destruct S as [-> _]. done.
  - destruct S as (E & Hn & T). destruct (Z.eqb_spec n 0); [lia|]. by rewrite (mac_tag_spec aad ct).
Qed.

Lemma decrypt_spec buf ct aad key nonce tag :
  zlen buf = MAC_DATA_MAX -> zlen ct < 2 ^ 62 -> zlen aad < 2 ^ 62 -> Forall byte ct -> Forall byte aad ->
  zlen tag = 16 ->
  exists buf', zlen buf' = MAC_DATA_MAX /\
  chacha20poly1305_decrypt buf ct aad key nonce tag =
    (if bool_decide (mac_total aad ct <= MAC_DATA_MAX /\ tag = aead_tag aad ct key nonce)
     then Some (chacha20_xor ct key 1 nonce) else None, buf').
Proof.
  intros Hb Hc Ha Bc Ba Ht. unfold chacha20poly1305_decrypt.
  pose proof (build_mac_data_spec buf aad ct Hb Ha Hc) as S.
  destruct (build_mac_data buf aad ct) as [n buf']. destruct S as [L S]. exists buf'. split; [done|].
  destruct (Z.ltb_spec MAC_DATA_MAX (mac_total aad ct)).
  - destruct S as [-> _]. rewrite bool_decide_false by lia. done.
  - destruct S as (E & Hn & T). destruct (Z.eqb_spec n 0); [lia|]. rewrite (mac_tag_spec aad ct) by done.
    assert (Lt : zlen (aead_tag aad ct key nonce) = 16) by apply zlen_le_bytes.
    rewrite tags_equal_spec by done. destruct (decide (tag = aead_tag aad ct key nonce)) as [->|Hne].
    + rewrite !bool_decide_true by (done || split; done || lia). done.
    + rewrite !bool_decide_false by (tauto || congruence). done.
Qed.

(** ** Properties *)

(** C8: sealing and opening are inverse.  Whatever earlier calls left in the
    scratch buffer, encrypting a message whose MAC input fits in
    [MAC_DATA_MAX] bytes yields the ChaCha20 ciphertext and the RFC 8439 tag,
    and decrypting that ciphertext with that tag (again from any buffer
    contents) accepts and returns the plaintext; for a longer message the tag
    is zeroed. *)
Theorem aead_seal_open buf buf2 pt aad key nonce :
  zlen buf = MAC_DATA_MAX -> zlen buf2 = MAC_DATA_MAX ->
  zlen pt < 2 ^ 62 -> zlen aad < 2 ^ 62 -> Forall byte pt -> Forall byte aad ->
  let '(ct, tag, _) := chacha20poly1305_encrypt buf pt aad key nonce in
  ct = chacha20_xor pt key 1 nonce /\
  (mac_total aad ct <= MAC_DATA_MAX ->
     tag = aead_tag aad ct key nonce /\
     fst (chacha20poly1305_decrypt buf2 ct aad key nonce tag) = Some pt) /\
  (MAC_DATA_MAX < mac_total aad ct -> tag = replicate 16 0).
Proof.
  intros Hb Hb2 Hp Ha Bp Ba. destruct (encrypt_spec buf pt aad key nonce) as (buf' & _ & ->); [done..|].
  set (ct := chacha20_xor pt key 1 nonce). split; [done|].
  destruct (chacha20_xor_get pt key 1 nonce ltac:(lia)) as [Hl _].
  pose proof (chacha20_xor_bytes pt key 1 nonce ltac:(lia) Bp) as Bc. fold ct in Hl, Bc.
  split; intros Hm; destruct (Z.ltb_spec MAC_DATA_MAX (mac_total aad ct)); try lia; [|done].
  split; [done|]. destruct (decrypt_spec buf2 ct aad key nonce (aead_tag aad ct key nonce)) as (b & _ & ->);
    [done|lia|done..|apply zlen_le_bytes|].
  rewrite bool_decide_true by done. cbn [fst]. f_equal. apply chacha20_xor_twice. lia.
Qed.

Lemma aead_seal_open_witness :
  let buf := replicate (Z.to_nat MAC_DATA_MAX) 0 in
  let key := replicate 32 1 in let nonce := replicate 12 2 in
  let '(ct, tag, _) := chacha20poly1305_encrypt buf [10; 20] [30] key nonce in
  fst (chacha20poly1305_decrypt buf ct [30] key nonce tag) = Some [10; 20].
Proof.
  intros buf key nonce.
  assert (Hb : zlen buf = MAC_DATA_MAX) by (by apply zlen_replicate).
  pose proof (aead_seal_open buf buf [10; 20] [30] key nonce Hb Hb ltac:(reflexivity) ltac:(reflexivity)
    ltac:(repeat constructor; unfold byte; lia) ltac:(repeat constructor; unfold byte; lia)) as H.
  destruct (chacha20poly1305_encrypt _ _ _ _ _) as [[ct tag] b]. destruct H as (E & H & _).
  apply H. rewrite E. vm_compute. discriminate.
Defined.

(** C9: decryption accepts exactly the authentic tag.  For every ciphertext,
    associated data, key and nonce, the call returns plaintext if and only if
    the MAC input fits and all 16 tag bytes equal the RFC 8439 tag; in every
    other case (a wrong tag, changed ciphertext or data, an oversized message)
    nothing is decrypted. *)
Theorem aead_open_authentic buf ct aad key nonce tag :
  zlen buf = MAC_DATA_MAX -> zlen ct < 2 ^ 62 -> zlen aad < 2 ^ 62 -> Forall byte ct -> Forall byte aad ->
  zlen tag = 16 ->
  let r := fst (chacha20poly1305_decrypt buf ct aad key nonce tag) in
  (is_Some r <-> mac_total aad ct <= MAC_DATA_MAX /\ tag = aead_tag aad ct key nonce) /\
  (forall pt, r = Some pt -> zlen pt = zlen ct /\ chacha20_xor pt key 1 nonce = ct).
Proof.
  intros Hb Hc Ha Bc Ba Ht. destruct (decrypt_spec buf ct aad key nonce tag) as (b & _ & ->); [done..|].
  cbn zeta. cbn [fst]. case_bool_decide as Hd.
  - split; [split; [done|by eexists]|]. intros pt [= <-].
    destruct (chacha20_xor_get ct key 1 nonce ltac:(lia)) as [Hl _].
    split; [done|]. apply chacha20_xor_twice. lia.
  - split; [split; [by intros [? [=]]|done]|done].
Qed.

Lemma aead_open_authentic_witness :
  let buf := replicate (Z.to_nat MAC_DATA_MAX) 0 in
  let key := replicate 32 1 in let nonce := replicate 12 2 in
  ~ is_Some (fst (chacha20poly1305_decrypt buf [10; 20] [30] key nonce (replicate 16 0))).
Proof.
  intros buf key nonce H.
  assert (Hb : zlen buf = MAC_DATA_MAX) by (by apply zlen_replicate).
  destruct (aead_open_authentic buf [10; 20] [30] key nonce (replicate 16 0) Hb ltac:(reflexivity) ltac:(reflexivity)
    ltac:(repeat constructor; unfold byte; lia) ltac:(repeat constructor; unfold byte; lia) ltac:(reflexivity)) as [I _].
  destruct (proj1 I H) as [_ E]. vm_compute in E. discriminate.
Defined.
