(* ===== verification/Sha256.v ===== *)
(** * SHA-256 (kernel/crypto/sha256.c)

    The streaming context and its three operations.  The theorem is that any
    sequence of updates followed by the final call yields the FIPS 180-4 digest
    of the concatenated input, the padding and length field included. *)

From S2P Require Import Prelude.

(** ** Macros and constants *)

Definition ROTRIGHT (a b : Z) : Z := Z.lor (Z.shiftr a b) (u32 (Z.shiftl a (32 - b))).
Definition CH (x y z : Z) : Z := Z.lxor (Z.land x y) (Z.land (not32 x) z).
Definition MAJ (x y z : Z) : Z := Z.lxor (Z.lxor (Z.land x y) (Z.land x z)) (Z.land y z).
Definition EP0 (x : Z) : Z := Z.lxor (Z.lxor (ROTRIGHT x 2) (ROTRIGHT x 13)) (ROTRIGHT x 22).
Definition EP1 (x : Z) : Z := Z.lxor (Z.lxor (ROTRIGHT x 6) (ROTRIGHT x 11)) (ROTRIGHT x 25).
Definition SIG0 (x : Z) : Z := Z.lxor (Z.lxor (ROTRIGHT x 7) (ROTRIGHT x 18)) (Z.shiftr x 3).
Definition SIG1 (x : Z) : Z := Z.lxor (Z.lxor (ROTRIGHT x 17) (ROTRIGHT x 19)) (Z.shiftr x 10).

(** The table [k], four words to a literal. *)
Definition k256 : list Z :=
  concat ((fun row => [row / 2 ^ 96; row / 2 ^ 64 mod 2 ^ 32; row / 2 ^ 32 mod 2 ^ 32; row mod 2 ^ 32]) <$> [
    0x428a2f9871374491b5c0fbcfe9b5dba5;
    0x3956c25b59f111f1923f82a4ab1c5ed5;
    0xd807aa9812835b01243185be550c7dc3;
    0x72be5d7480deb1fe9bdc06a7c19bf174;
    0xe49b69c1efbe47860fc19dc6240ca1cc;
    0x2de92c6f4a7484aa5cb0a9dc76f988da;
    0x983e5152a831c66db00327c8bf597fc7;
    0xc6e00bf3d5a7914706ca635114292967;
    0x27b70a852e1b21384d2c6dfc53380d13;
    0x650a7354766a0abb81c2c92e92722c85;
    0xa2bfe8a1a81a664bc24b8b70c76c51a3;
    0xd192e819d6990624f40e3585106aa070;
    0x19a4c1161e376c082748774c34b0bcb5;
    0x391c0cb34ed8aa4a5b9cca4f682e6ff3;
    0x748f82ee78a5636f84c878148cc70208;
    0x90befffaa4506cebbef9a3f7c67178f2]).

(** ** Context *)

Record sha256_ctx := Sha256Ctx {
  data : list Z;       (* uint8_t data[64] *)
  datalen : Z;         (* uint32_t *)
  bitlen : Z;          (* uint64_t *)
  state : list Z       (* uint32_t state[8] *)
}.

(** ** Block function *)

Definition schedule (d : list Z) : list Z :=
  let m := for_loop 16 0 (fun i m =>
    let j := 4 * i in
    m.[i <- Z.lor (Z.lor (Z.lor (Z.shiftl d.[j] 24) (Z.shiftl d.[j + 1] 16)) (Z.shiftl d.[j + 2] 8)) d.[j + 3]])
    (replicate 64 0) in
  for_loop 48 16 (fun i m =>
    m.[i <- u32 (SIG1 m.[i - 2] + m.[i - 7] + SIG0 m.[i - 15] + m.[i - 16])]) m.

(** One of the 64 rounds on [a .. h]. *)
Definition sha256_round (m : list Z) (i : Z) (v : Z * Z * Z * Z * Z * Z * Z * Z) :=
  let '(a, b, c, d, e, f, g, h) := v in
  let t1 := u32 (h + EP1 e + CH e f g + k256.[i] + m.[i]) in
  let t2 := u32 (EP0 a + MAJ a b c) in
  (u32 (t1 + t2), a, b, c, u32 (d + t1), e, f, g).

Definition sha256_transform (st d : list Z) : list Z :=
  let m := schedule d in
  let '(a, b, c, d, e, f, g, h) :=
    for_loop 64 0 (sha256_round m) (st.[0], st.[1], st.[2], st.[3], st.[4], st.[5], st.[6], st.[7]) in
  [u32 (st.[0] + a); u32 (st.[1] + b); u32 (st.[2] + c); u32 (st.[3] + d);
   u32 (st.[4] + e); u32 (st.[5] + f); u32 (st.[6] + g); u32 (st.[7] + h)].

(** ** Operations *)

Definition sha256_iv : list Z :=
  [0x6a09e667; 0xbb67ae85; 0x3c6ef372; 0xa54ff53a; 0x510e527f; 0x9b05688c; 0x1f83d9ab; 0x5be0cd19].

Definition sha256_init (ctx : sha256_ctx) : sha256_ctx :=
  Sha256Ctx (data ctx) 0 0 sha256_iv.

(** One iteration of the loop of [sha256_update]. *)
Definition update_byte (ctx : sha256_ctx) (b : Z) : sha256_ctx :=
  let d := (data ctx).[datalen ctx <- b] in
  let n := datalen ctx + 1 in
  if n =? 64
  then Sha256Ctx d 0 (u64 (bitlen ctx + 512)) (sha256_transform (state ctx) d)
  else Sha256Ctx d n (bitlen ctx) (state ctx).

Definition sha256_update (ctx : sha256_ctx) (inp : list Z) : sha256_ctx :=
  fold_left update_byte inp ctx.

(** The stores of [ctx->bitlen] into [data[56..63]]. *)
Definition put_bitlen (d : list Z) (n : Z) : list Z :=
  let d := d.[63 <- u8 n] in
  let d := d.[62 <- u8 (Z.shiftr n 8)] in
  let d := d.[61 <- u8 (Z.shiftr n 16)] in
  let d := d.[60 <- u8 (Z.shiftr n 24)] in
  let d := d.[59 <- u8 (Z.shiftr n 32)] in
  let d := d.[58 <- u8 (Z.shiftr n 40)] in
  let d := d.[57 <- u8 (Z.shiftr n 48)] in
  d.[56 <- u8 (Z.shiftr n 56)].

(** The output loop; [byte_of i w] is [(uint8_t)((w >> (24 - i * 8)) & 0xff)]. *)
Definition byte_of (i w : Z) : Z := u8 (Z.land (Z.shiftr w (24 - i * 8)) 0xff).

Definition put_hash (st : list Z) : list Z :=
  for_loop 4 0 (fun i hash =>
    let hash := hash.[i <- byte_of i st.[0]] in
    let hash := hash.[i + 4 <- byte_of i st.[1]] in
    let hash := hash.[i + 8 <- byte_of i st.[2]] in
    let hash := hash.[i + 12 <- byte_of i st.[3]] in
    let hash := hash.[i + 16 <- byte_of i st.[4]] in
    let hash := hash.[i + 20 <- byte_of i st.[5]] in
    let hash := hash.[i + 24 <- byte_of i st.[6]] in
    hash.[i + 28 <- byte_of i st.[7]]) (replicate 32 0).

(** [while (i < lim) ctx->data[i++] = 0]. *)
Definition zero_to (lim : Z) (d : list Z) (i : Z) : list Z :=
  for_loop (Z.to_nat (lim - i)) i (fun i d => d.[i <- 0]) d.

Definition sha256_final (ctx : sha256_ctx) : list Z :=
  let i := datalen ctx in
  let '(d, st) :=
    if datalen ctx <? 56 then
      let d := (data ctx).[i <- 0x80] in
      (zero_to 56 d (i + 1), state ctx)
    else
      let d := (data ctx).[i <- 0x80] in
      let d := zero_to 64 d (i + 1) in
      let st := sha256_transform (state ctx) d in
      (memset d 0 0 56, st) in
  let n := u64 (bitlen ctx + datalen ctx * 8) in
  let d := put_bitlen d n in
  put_hash (sha256_transform st d).

(** [sha256(data, len, hash)]; [junk] is the uninitialised context. *)
Definition sha256 (junk : sha256_ctx) (inp : list Z) : list Z :=
  sha256_final (sha256_update (sha256_init junk) inp).

(** ** Specification: FIPS 180-4, sections 4.1.2, 4.2.2, 5.1.1, 5.3.3 and 6.2 *)

Definition sha256_pad (m : list Z) : list Z :=
  m ++ 0x80 :: replicate (Z.to_nat ((55 - zlen m) mod 64)) 0 ++ be_bytes 8 (8 * zlen m).

(** The first sixty-four primes. *)
Definition is_prime (p : Z) : bool := (1 <? p) && forallb (fun d => negb (p mod d =? 0)) (seqZ 2 (p - 2)).
Definition first_primes : list Z := List.filter is_prime (seqZ 2 310).

(** The largest [r] below [2^k] with [r^3 <= n]. *)
Fixpoint cube_root (k : nat) (n r : Z) : Z :=
  match k with
  | O => r
  | S k' => let r' := r + 2 ^ Z.of_nat k' in cube_root k' n (if r' ^ 3 <=? n then r' else r)
  end.

(** The first 32 bits of the fractional parts of the cube and square roots. *)
Definition fips_K : list Z := (fun p => cube_root 36 (p * 2 ^ 96) 0 mod 2 ^ 32) <$> first_primes.
Definition fips_H0 : list Z := (fun p => Z.sqrt (p * 2 ^ 64) mod 2 ^ 32) <$> take 8 first_primes.

(** Words of 32 bits: rotation, and the functions of section 4.1.2. *)
Definition rotr (n x : Z) : Z := x / 2 ^ n + x mod 2 ^ n * 2 ^ (32 - n).
Definition fips_Ch (x y z : Z) : Z := Z.lxor (Z.land x y) (Z.land (Z.lnot x) z).
Definition fips_Maj (x y z : Z) : Z := Z.lxor (Z.land x y) (Z.lxor (Z.land x z) (Z.land y z)).
Definition fips_Sigma0 (x : Z) : Z := Z.lxor (rotr 2 x) (Z.lxor (rotr 13 x) (rotr 22 x)).
Definition fips_Sigma1 (x : Z) : Z := Z.lxor (rotr 6 x) (Z.lxor (rotr 11 x) (rotr 25 x)).
Definition fips_sigma0 (x : Z) : Z := Z.lxor (rotr 7 x) (Z.lxor (rotr 18 x) (x / 2 ^ 3)).
Definition fips_sigma1 (x : Z) : Z := Z.lxor (rotr 17 x) (Z.lxor (rotr 19 x) (x / 2 ^ 10)).

(** The sixteen big-endian words of a block, and [n] further schedule words. *)
Definition fips_words (block : list Z) : list Z := (fun t => le_val (rev (take 4 (drop (4 * t) block)))) <$> seq 0 16.

Fixpoint fips_extend (n : nat) (w : list Z) : list Z :=
  match n with
  | O => w
  | S n' =>
      let t := zlen w in
      fips_extend n' (w ++ [(fips_sigma1 w.[t - 2] + w.[t - 7] + fips_sigma0 w.[t - 15] + w.[t - 16]) mod 2 ^ 32])
  end.

Definition fips_step (v : list Z) (kw : Z * Z) : list Z :=
  match v with
  | [a; b; c; d; e; f; g; h] =>
      let T1 := h + fips_Sigma1 e + fips_Ch e f g + kw.1 + kw.2 in
      let T2 := fips_Sigma0 a + fips_Maj a b c in
      [(T1 + T2) mod 2 ^ 32; a; b; c; (d + T1) mod 2 ^ 32; e; f; g]
  | _ => v
  end.

Definition fips_block (H block : list Z) : list Z :=
  zip_with (fun x y => (x + y) mod 2 ^ 32) (foldl fips_step H (zip fips_K (fips_extend 48 (fips_words block)))) H.

Definition sha256_digest (m : list Z) : list Z :=
  let p := sha256_pad m in
  concat (be_bytes 4 <$> fold_blocks 64 fips_block (length p / 64) p fips_H0).

(** The padded message through the block function of the code. *)
Definition padded_hash (m : list Z) : list Z :=
  let p := sha256_pad m in
  let st := fold_blocks 64 sha256_transform (length p / 64) p sha256_iv in
  concat ((be_bytes 4) <$> st).

Definition junk256 : sha256_ctx := Sha256Ctx (replicate 64 0xaa) 7 9 [].

(** FIPS 180-4 examples: the empty message and "abc". *)
Example sha256_empty :
  sha256 junk256 [] = be_bytes 32 0xe3b0c44298fc1c149afbf4c8996fb92427ae41e4649b934ca495991b7852b855.
Proof. vm_compute. reflexivity. Qed.

Example sha256_abc :
  sha256 junk256 [97; 98; 99] = be_bytes 32 0xba7816bf8f01cfea414140de5dae2223b00361a396177a9cb410ff61f20015ad.
Proof. vm_compute. reflexivity. Qed.

(** ** Streaming invariant *)

(** [ctx] has absorbed the message [m]: [k] full blocks [p], and [q] pending. *)
Definition absorbed (ctx : sha256_ctx) (m : list Z) : Prop :=
  exists k p q, m = p ++ q /\ length p = (64 * k)%nat /\ zlen q < 64 /\
    datalen ctx = zlen q /\ zlen (data ctx) = 64 /\ take (Z.to_nat (zlen q)) (data ctx) = q /\
    bitlen ctx = u64 (512 * Z.of_nat k) /\
    state ctx = fold_blocks 64 sha256_transform k p sha256_iv.

Lemma absorbed_init junk : zlen (data junk) = 64 -> absorbed (sha256_init junk) [].
Proof. intros Hl. exists O, [], []. repeat (split; [done|]). done. Qed.

Lemma absorbed_byte ctx m b : absorbed ctx m -> absorbed (update_byte ctx b) (m ++ [b]).
Proof.
  intros (k & p & q & -> & Hp & Hq & Hd & Hl & Ht & Hb & Hs). pose proof (zlen_nonneg q).
  unfold update_byte. rewrite Hd, zset_memcpy by lia.
  destruct (push_buf (data ctx) q [b] (zlen q) Ht) as [Ht' Hl']; [lia|change (zlen [b]) with 1; lia|].
  change (zlen [b]) with 1 in Ht'.
  assert (Zq : zlen (q ++ [b]) = zlen q + 1) by apply zlen_app.
  destruct (Z.eqb_spec (zlen q + 1) 64) as [E|E].
  - assert (Ed : memcpy (data ctx) (zlen q) [b] = q ++ [b]).
    { rewrite <- Ht'. symmetry. apply take_ge. unfold zlen in *. lia. }
    exists (S k), (p ++ q ++ [b]), []. rewrite app_nil_r, app_assoc.
    split; [done|]. split; [unfold zlen in *; rewrite <- app_assoc, length_app; lia|].
    split; [done|]. split; [done|]. split; [cbn [data]; lia|]. split; [done|].
    split; [cbn [bitlen]; rewrite Hb; ulia|]. cbn [state].
    rewrite <- app_assoc, fold_blocks_snoc by (unfold zlen in *; lia). by rewrite Hs, Ed.
  - exists k, p, (q ++ [b]). rewrite <- app_assoc. rewrite Zq.
    split; [done|]. split; [done|]. split; [lia|]. cbn [datalen data bitlen state].
    split; [done|]. split; [lia|]. split; [done|]. done.
Qed.

Lemma absorbed_update ctx m inp : absorbed ctx m -> absorbed (sha256_update ctx inp) (m ++ inp).
Proof.
  revert ctx m. unfold sha256_update. induction inp as [|b inp IH]; intros ctx m Ha; [by rewrite app_nil_r|].
  cbn [fold_left]. replace (m ++ b :: inp) with ((m ++ [b]) ++ inp) by (by rewrite <- app_assoc).
  by apply IH, absorbed_byte.
Qed.

(** ** Final block *)

Lemma put_bitlen_memcpy d n : zlen d = 64 -> put_bitlen d n = memcpy d 56 (be_bytes 8 n).
Proof.
  intros Hd. unfold memcpy. rewrite drop_ge, app_nil_r by (unfold zlen, be_bytes in *; rewrite length_rev; simpl; lia).
  rewrite <- (take_drop 56 d) at 1. change (Z.to_nat 56) with 56%nat.
  assert (La : length (take 56 d) = 56%nat) by (unfold zlen in Hd; rewrite length_take; lia).
  assert (Lb : length (drop 56 d) = 8%nat) by (unfold zlen in Hd; rewrite length_drop; lia).
  set (a := take 56 d) in *. set (b := drop 56 d) in *. clearbody a b.
  destruct b as [|x0 [|x1 [|x2 [|x3 [|x4 [|x5 [|x6 [|x7 [|]]]]]]]]]; try discriminate Lb.
  unfold put_bitlen, zset.
  change (Z.to_nat 63) with (56 + 7)%nat. change (Z.to_nat 62) with (56 + 6)%nat.
  change (Z.to_nat 61) with (56 + 5)%nat. change (Z.to_nat 60) with (56 + 4)%nat.
  change (Z.to_nat 59) with (56 + 3)%nat. change (Z.to_nat 58) with (56 + 2)%nat.
  change (Z.to_nat 57) with (56 + 1)%nat. change (Z.to_nat 56) with (56 + 0)%nat.
  rewrite <- La, !insert_app_r. f_equal. unfold be_bytes. rewrite le_bytes_shift.
  reflexivity.
Qed.

Lemma zero_to_memset lim d i : 0 <= i <= lim -> lim <= zlen d -> zero_to lim d i = memset d i 0 (lim - i).
Proof.
  intros Hi Hl. unfold zero_to, memset. rewrite (fill_loop_from (fun _ => 0)) by lia.
  by rewrite fmap_const_seqZ, Nat2Z.id.
Qed.

(** The hash bytes are the big-endian state words. *)
Lemma byte_of_be w : be_bytes 4 w = [byte_of 0 w; byte_of 1 w; byte_of 2 w; byte_of 3 w].
Proof.
  unfold be_bytes, byte_of, u8. cbn [le_bytes rev app]. rewrite !shiftr_div, !Z.div_div by lia.
  rewrite !(land_low 8), !Z.mod_mod by lia.
  change (2 ^ (24 - 3 * 8)) with 1. by rewrite Z.div_1_r.
Qed.

Lemma put_hash_be st : length st = 8%nat -> put_hash st = concat (be_bytes 4 <$> st).
Proof.
  intros Hl. destruct st as [|a [|b [|c [|d [|e [|f [|g [|h [|]]]]]]]]]; try discriminate Hl.
  cbn [fmap list_fmap concat]. rewrite !byte_of_be. unfold put_hash.
  generalize byte_of. intros bo. reflexivity.
Qed.

Lemma length_transform st d : length (sha256_transform st d) = 8%nat.
Proof. unfold sha256_transform. by destruct (for_loop _ _ _ _) as [[[[[[[? ?] ?] ?] ?] ?] ?] ?]. Qed.

Lemma length_pad m : zlen (sha256_pad m) mod 64 = 0.
Proof.
  unfold sha256_pad. change (0x80 :: ?l) with ([0x80] ++ l). rewrite !zlen_app, zlen_be_bytes, zlen_replicate.
  - change (zlen [0x80]) with 1. Z.div_mod_to_equations. lia.
  - apply Z.mod_pos_bound. lia.
Qed.

(** One block after [k] full ones. *)
Lemma fold_blocks_pad k p b :
  length p = (64 * k)%nat -> length b = 64%nat ->
  fold_blocks 64 sha256_transform (length (p ++ b) / 64) (p ++ b) sha256_iv =
  sha256_transform (fold_blocks 64 sha256_transform k p sha256_iv) b.
Proof.
  intros Hp Hb. replace (length (p ++ b) / 64)%nat with (S k).
  - by apply fold_blocks_snoc.
  - rewrite length_app, Hp, Hb. replace (64 * k + 64)%nat with (S k * 64)%nat by lia. by rewrite Nat.div_mul.
Qed.

Lemma final_absorbed ctx m : absorbed ctx m -> sha256_final ctx = padded_hash m.
Proof.
  intros (k & p & q & -> & Hp & Hq & Hd & Hl & Ht & Hb & Hs). pose proof (zlen_nonneg q).
  unfold sha256_final, padded_hash. rewrite Hd, Hs.
  assert (En : be_bytes 8 (u64 (bitlen ctx + zlen q * 8)) = be_bytes 8 (8 * zlen (p ++ q))).
  { unfold be_bytes. f_equal. apply le_bytes_mod. rewrite zlen_app, Hb. unfold zlen at 2. rewrite Hp.
    change (256 ^ Z.of_nat 8) with (2 ^ 64). unfold u64. rewrite Z.mod_mod, Zplus_mod_idemp_l by lia. f_equal. lia. }
  assert (Zm : zlen (p ++ q) = 64 * Z.of_nat k + zlen q) by (rewrite zlen_app; unfold zlen at 1; lia).
  rewrite zset_memcpy by lia. change [128] with [0x80].
  destruct (push_buf (data ctx) q [0x80] (zlen q) Ht) as [Ht' Hl']; [lia|change (zlen [0x80]) with 1; lia|].
  change (zlen [0x80]) with 1 in Ht'. set (d := memcpy (data ctx) _ _) in *. clearbody d.
  assert (Zz : forall n, 0 <= n -> zlen (replicate (Z.to_nat n) 0) = n) by (intros; by apply zlen_replicate).
  destruct (Z.ltb_spec (zlen q) 56) as [H56|H56].
  - rewrite zero_to_memset by lia. unfold memset.
    destruct (push_buf d (q ++ [0x80]) (replicate (Z.to_nat (56 - (zlen q + 1))) 0) (zlen q + 1) Ht') as [Ht2 Hl2];
      [lia|rewrite Zz; lia|].
    rewrite Zz in Ht2 by lia. replace (zlen q + 1 + (56 - (zlen q + 1))) with 56 in Ht2 by lia.
    rewrite put_bitlen_memcpy, En by lia.
    erewrite memcpy_end by (exact Ht2 || lia || (rewrite zlen_be_bytes; lia)).
    rewrite put_hash_be by apply length_transform. do 2 f_equal.
    assert (Ep : sha256_pad (p ++ q) = p ++ ((q ++ [0x80]) ++ replicate (Z.to_nat (56 - (zlen q + 1))) 0) ++ be_bytes 8 (8 * zlen (p ++ q))).
    { unfold sha256_pad. rewrite <- !app_assoc. do 4 f_equal. cbn [app]. do 2 f_equal. f_equal. rewrite Zm. Z.div_mod_to_equations. lia. }
    rewrite Ep, (fold_blocks_pad k); [done|done|].
    apply Nat2Z.inj. change (Z.of_nat (length ?l)) with (zlen l). rewrite !zlen_app, Zz, zlen_be_bytes by lia.
    change (zlen [0x80]) with 1. lia.
  - rewrite zero_to_memset by lia. unfold memset.
    set (z1 := replicate (Z.to_nat (64 - (zlen q + 1))) 0).
    assert (L1 : zlen z1 = 64 - (zlen q + 1)) by (apply Zz; lia).
    rewrite (memcpy_end d (q ++ [0x80]) z1) by (exact Ht' || lia). set (b1 := (q ++ [0x80]) ++ z1).
    assert (Lb : zlen b1 = 64) by (unfold b1; rewrite !zlen_app, L1; change (zlen [0x80]) with 1; lia).
    destruct (push_buf b1 [] (replicate (Z.to_nat 56) 0) 0) as [Ht2 Hl2]; [done|lia|rewrite Zz; lia|].
    rewrite Zz in Ht2 by lia. rewrite put_bitlen_memcpy, En by lia.
    erewrite memcpy_end by (exact Ht2 || lia || (rewrite zlen_be_bytes; lia)).
    rewrite put_hash_be by apply length_transform. do 2 f_equal.
    assert (Ep : sha256_pad (p ++ q) = (p ++ b1) ++ ([] ++ replicate (Z.to_nat 56) 0) ++ be_bytes 8 (8 * zlen (p ++ q))).
    { unfold sha256_pad, b1, z1. rewrite <- !app_assoc. do 2 f_equal. cbn [app]. f_equal.
      rewrite (app_assoc (replicate _ 0)), <- replicate_add, <- Z2Nat.inj_add by lia. do 3 f_equal.
      rewrite Zm. Z.div_mod_to_equations. lia. }
    rewrite Ep, (fold_blocks_pad (S k)).
    + rewrite fold_blocks_snoc by (unfold zlen in Lb; lia). done.
    + rewrite length_app. unfold zlen in Lb. lia.
    + apply Nat2Z.inj. change (Z.of_nat (length ?l)) with (zlen l). rewrite !zlen_app, Zz, zlen_be_bytes by lia. done.
Qed.

(** ** The block function is the one of FIPS 180-4 *)

Definition word (x : Z) : Prop := 0 <= x < 2 ^ 32.

Lemma fips_constants : fips_K = k256 /\ fips_H0 = sha256_iv.
Proof. split; vm_compute; reflexivity. Qed.

Lemma ROTRIGHT_rotr x n : word x -> 0 < n < 32 -> ROTRIGHT x n = rotr n x.
Proof.
  unfold word, ROTRIGHT, rotr. intros Hx Hn. rewrite shiftr_div, shiftl_mul by lia.
  assert (P : 2 ^ 32 = 2 ^ n * 2 ^ (32 - n)) by (rewrite <- Z.pow_add_r by lia; f_equal; lia).
  pose proof (Z.pow_pos_nonneg 2 n ltac:(lia) ltac:(lia)) as P1. pose proof (Z.pow_pos_nonneg 2 (32 - n) ltac:(lia) ltac:(lia)) as P2.
  replace (u32 (x * 2 ^ (32 - n))) with (x mod 2 ^ n * 2 ^ (32 - n)).
  - apply lor_add_disjoint; [lia|]. split; [apply Z.div_pos; lia|]. apply Z.div_lt_upper_bound; lia.
  - unfold u32. rewrite P. by rewrite Z.mul_mod_distr_r by lia.
Qed.

Lemma CH_fips x y z : word x -> word z -> CH x y z = fips_Ch x y z.
Proof.
  unfold word. intros Hx Hz. unfold CH, fips_Ch. f_equal. apply Z.bits_inj'. intros i Hi. rewrite !Z.land_spec.
  destruct (decide (i < 32)).
  - f_equal. replace (not32 x) with (Z.lnot x mod 2 ^ 32); [by rewrite Z.mod_pow2_bits_low by lia|].
    unfold not32, Z.lnot. symmetry. apply (Z.mod_unique _ _ (-1)); lia.
  - rewrite (small_bits z 32) by lia. by rewrite !andb_false_r.
Qed.

Lemma MAJ_fips x y z : MAJ x y z = fips_Maj x y z.
Proof. unfold MAJ, fips_Maj. by rewrite Z.lxor_assoc. Qed.

Lemma sigmas_fips x : word x ->
  EP0 x = fips_Sigma0 x /\ EP1 x = fips_Sigma1 x /\ SIG0 x = fips_sigma0 x /\ SIG1 x = fips_sigma1 x.
Proof.
  intros Hx. unfold EP0, EP1, SIG0, SIG1, fips_Sigma0, fips_Sigma1, fips_sigma0, fips_sigma1.
  rewrite !ROTRIGHT_rotr by (done || lia). rewrite !Z.lxor_assoc, !shiftr_div by lia. done.
Qed.

Lemma mod_word x : word (x mod 2 ^ 32).
Proof. unfold word. apply Z.mod_pos_bound. lia. Qed.

Lemma be_word_at d j : Forall byte d -> 0 <= j -> j + 4 <= zlen d ->
  Z.lor (Z.lor (Z.lor (Z.shiftl d.[j] 24) (Z.shiftl d.[j + 1] 16)) (Z.shiftl d.[j + 2] 8)) d.[j + 3] =
  le_val (rev (take 4 (drop (Z.to_nat j) d))) /\ word (le_val (rev (take 4 (drop (Z.to_nat j) d)))).
Proof.
  intros F Hj Hl.
  pose proof (byte_zget d j F ltac:(lia)) as B0. pose proof (byte_zget d (j + 1) F ltac:(lia)) as B1.
  pose proof (byte_zget d (j + 2) F ltac:(lia)) as B2. pose proof (byte_zget d (j + 3) F ltac:(lia)) as B3.
  assert (E : take 4 (drop (Z.to_nat j) d) = [d.[j]; d.[j + 1]; d.[j + 2]; d.[j + 3]]).
  { rewrite (drop_S _ d.[j]) by (apply zget_lookup; lia). replace (S (Z.to_nat j)) with (Z.to_nat (j + 1)) by lia.
    rewrite (drop_S _ d.[j + 1]) by (apply zget_lookup; lia). replace (S (Z.to_nat (j + 1))) with (Z.to_nat (j + 2)) by lia.
    rewrite (drop_S _ d.[j + 2]) by (apply zget_lookup; lia). replace (S (Z.to_nat (j + 2))) with (Z.to_nat (j + 3)) by lia.
    by rewrite (drop_S _ d.[j + 3]) by (apply zget_lookup; lia). }
  rewrite E. cbn [rev app le_val]. unfold byte, word in *. split; [|lia].
  rewrite !shiftl_mul by lia.
  rewrite (Z.lor_comm _ d.[j + 3]), (Z.lor_comm _ (d.[j + 2] * 2 ^ 8)), (Z.lor_comm _ (d.[j + 1] * 2 ^ 16)).
  replace (d.[j + 1] * 2 ^ 16) with (d.[j + 1] * 2 ^ 8 * 2 ^ 8) by lia.
  rewrite (lor_add_disjoint 24 (d.[j + 1] * 2 ^ 8 * 2 ^ 8) d.[j]) by lia.
  replace (d.[j + 1] * 2 ^ 8 * 2 ^ 8 + d.[j] * 2 ^ 24) with ((d.[j + 1] + d.[j] * 2 ^ 8) * 2 ^ 16) by lia.
  rewrite (lor_add_disjoint 16 (d.[j + 2] * 2 ^ 8)) by lia.
  replace (d.[j + 2] * 2 ^ 8 + (d.[j + 1] + d.[j] * 2 ^ 8) * 2 ^ 16) with ((d.[j + 2] + (d.[j + 1] + d.[j] * 2 ^ 8) * 2 ^ 8) * 2 ^ 8) by lia.
  rewrite (lor_add_disjoint 8 d.[j + 3]) by lia. lia.
Qed.

Lemma fips_words_spec d : Forall byte d -> zlen d = 64 ->
  length (fips_words d) = 16%nat /\ Forall word (fips_words d) /\
  forall i, 0 <= i < 16 -> (fips_words d).[i] =
    Z.lor (Z.lor (Z.lor (Z.shiftl d.[4 * i] 24) (Z.shiftl d.[4 * i + 1] 16)) (Z.shiftl d.[4 * i + 2] 8)) d.[4 * i + 3].
Proof.
  intros F Hl. split; [done|]. split.
  - apply Forall_fmap, Forall_forall. intros t Ht. apply elem_of_seq in Ht. destruct (be_word_at d (4 * Z.of_nat t) F) as [_ W]; [lia..|].
    by replace (Z.to_nat (4 * Z.of_nat t)) with (4 * t)%nat in W by lia.
  - intros i Hi. destruct (be_word_at d (4 * i) F) as [-> _]; [lia..|]. unfold zget. apply list_lookup_total_correct.
    unfold fips_words. rewrite list_lookup_fmap, lookup_seq_lt by lia. cbn [fmap option_fmap option_map].
    by replace (4 * (0 + Z.to_nat i))%nat with (Z.to_nat (4 * i)) by lia.
Qed.

Lemma fips_extend_snoc n w : fips_extend (S n) w =
  let v := fips_extend n w in let t := zlen v in
  v ++ [(fips_sigma1 v.[t - 2] + v.[t - 7] + fips_sigma0 v.[t - 15] + v.[t - 16]) mod 2 ^ 32].
Proof. revert w. induction n as [|n IH]; intros w; [done|]. change (fips_extend (S (S n)) w) with (fips_extend (S n) (w ++ [(fips_sigma1 w.[zlen w - 2] + w.[zlen w - 7] + fips_sigma0 w.[zlen w - 15] + w.[zlen w - 16]) mod 2 ^ 32])). by rewrite IH. Qed.

Lemma fips_extend_words n w : zlen w = 16 -> Forall word w -> zlen (fips_extend n w) = 16 + Z.of_nat n /\ Forall word (fips_extend n w).
Proof.
  intros Hl F. induction n as [|n [IHl IHf]]; [cbn [fips_extend]; split; [lia|done]|]. rewrite fips_extend_snoc. cbv zeta.
  rewrite zlen_app. change (zlen [_]) with 1. split; [lia|]. apply Forall_app. split; [done|]. constructor; [apply mod_word|done].
Qed.

Lemma word_zget l i : Forall word l -> 0 <= i < zlen l -> word l.[i].
Proof. intros F Hi. rewrite Forall_lookup in F. exact (F _ _ (zget_lookup l i Hi)). Qed.

(** The first loop of the schedule stores the words of the block. *)
Lemma schedule_words (w : Z -> Z) (ws : list Z) : length ws = 16%nat -> (forall i, 0 <= i < 16 -> ws.[i] = w i) ->
  let m := for_loop 16 0 (fun i m => m.[i <- w i]) (replicate 64 0) in zlen m = 64 /\ take 16 m = ws.
Proof.
  intros Lw Gw. cbv zeta. rewrite fill_loop_from by (unfold zlen; rewrite ?length_replicate; lia).
  assert (Ew : w <$> seqZ 0 (Z.of_nat 16) = ws).
  { apply list_eq_zget; [rewrite zlen_fmap, zlen_seqZ by lia; unfold zlen; lia|]. rewrite zlen_fmap, zlen_seqZ by lia. intros i Hi.
    rewrite zget_fmap_seqZ by lia. rewrite Z.add_0_l. by rewrite Gw. }
  rewrite Ew. split; [rewrite zlen_memcpy; [unfold zlen; by rewrite length_replicate|lia|unfold zlen; rewrite length_replicate; lia]|].
  unfold memcpy. change (Z.to_nat 0) with O. rewrite take_0, app_nil_l. by rewrite take_app_le, take_ge by lia.
Qed.

Lemma schedule_step j m ws : length ws = 16%nat -> Forall word ws -> 16 <= j < 64 -> zlen m = 64 ->
  take (Z.to_nat j) m = fips_extend (Z.to_nat (j - 16)) ws ->
  take (Z.to_nat (j + 1)) m.[j <- u32 (SIG1 m.[j - 2] + m.[j - 7] + SIG0 m.[j - 15] + m.[j - 16])] = fips_extend (Z.to_nat (j + 1 - 16)) ws.
Proof.
  intros Lw Fw Hj Lm Em.
  replace (Z.to_nat (j + 1 - 16)) with (S (Z.to_nat (j - 16))) by lia. rewrite fips_extend_snoc, <- Em. cbv zeta.
  destruct (fips_extend_words (Z.to_nat (j - 16)) ws) as [Lx Fx]; [unfold zlen; lia|done|]. rewrite <- Em in Lx, Fx.
  replace (16 + Z.of_nat (Z.to_nat (j - 16))) with j in Lx by lia. rewrite Lx.
  assert (Gm : forall i, 0 <= i < j -> m.[i] = (take (Z.to_nat j) m).[i]) by (intros i Hi; unfold zget; rewrite lookup_total_take_lt by lia; done).
  rewrite !Gm by lia.
  destruct (sigmas_fips (take (Z.to_nat j) m).[j - 2]) as (_ & _ & _ & ->); [apply word_zget; [done|lia]|].
  destruct (sigmas_fips (take (Z.to_nat j) m).[j - 15]) as (_ & _ & -> & _); [apply word_zget; [done|lia]|].
  fold (u32 (fips_sigma1 (take (Z.to_nat j) m).[j - 2] + (take (Z.to_nat j) m).[j - 7] + fips_sigma0 (take (Z.to_nat j) m).[j - 15] + (take (Z.to_nat j) m).[j - 16])).
  generalize (u32 (fips_sigma1 (take (Z.to_nat j) m).[j - 2] + (take (Z.to_nat j) m).[j - 7] + fips_sigma0 (take (Z.to_nat j) m).[j - 15] + (take (Z.to_nat j) m).[j - 16])).
  intros x. replace (Z.to_nat (j + 1)) with (S (Z.to_nat j)) by lia.
  rewrite (take_S_r _ _ x); [|unfold zset; apply list_lookup_insert_eq; unfold zlen in Lm; lia].
  unfold zset. by rewrite take_insert_ge by lia.
Qed.

(** The second loop extends a prefix of words as the standard does. *)
Lemma schedule_extend ws m0 : length ws = 16%nat -> Forall word ws -> zlen m0 = 64 -> take 16 m0 = ws ->
  for_loop 48 16 (fun i m => m.[i <- u32 (SIG1 m.[i - 2] + m.[i - 7] + SIG0 m.[i - 15] + m.[i - 16])]) m0 = fips_extend 48 ws.
Proof.
  intros Lw Fw L0 E0. set (step := fun i m => _).
  assert (Hs : forall j m, 16 <= j < 64 -> zlen m = 64 /\ take (Z.to_nat j) m = fips_extend (Z.to_nat (j - 16)) ws ->
    zlen (step j m) = 64 /\ take (Z.to_nat (j + 1)) (step j m) = fips_extend (Z.to_nat (j + 1 - 16)) ws).
  { intros j m Hj [Lm Em]. split; [unfold step; by rewrite zlen_zset|by apply schedule_step]. }
  clearbody step.
  pose proof (for_loop_ind (fun i m => zlen m = 64 /\ take (Z.to_nat i) m = fips_extend (Z.to_nat (i - 16)) ws) 48 16 step m0) as G.
  replace (16 + Z.of_nat 48) with 64 in G by done. destruct G as [Lm Em].
  - replace (Z.to_nat (16 - 16)) with O by done. replace (Z.to_nat 16) with 16%nat by done. split; [exact L0|exact E0].
  - intros j m Hj. apply Hs. lia.
  - revert Lm Em. generalize (for_loop 48 16 step m0). intros m Lm Em. change (Z.to_nat (64 - 16)) with 48%nat in Em.
    rewrite <- Em. symmetry. apply take_ge. unfold zlen in Lm. lia.
Qed.

Lemma schedule_fips d : Forall byte d -> zlen d = 64 -> schedule d = fips_extend 48 (fips_words d).
Proof.
  intros F Hl. destruct (fips_words_spec d F Hl) as (Lw & Fw & Gw). destruct (schedule_words _ _ Lw Gw) as [L0 E0].
  exact (schedule_extend _ _ Lw Fw L0 E0).
Qed.

(** The eight working variables as a list. *)
Definition vars256 (v : Z * Z * Z * Z * Z * Z * Z * Z) : list Z := let '(a, b, c, d, e, f, g, h) := v in [a; b; c; d; e; f; g; h].

Lemma round_fips m i v : Forall word (vars256 v) ->
  vars256 (sha256_round m i v) = fips_step (vars256 v) (k256.[i], m.[i]) /\ Forall word (vars256 (sha256_round m i v)).
Proof.
  destruct v as [[[[[[[a b] c] d] e] f] g] h]. cbn [vars256]. intros F.
  repeat (apply Forall_cons in F as [? F]). unfold sha256_round. cbn [vars256 fips_step fst snd].
  destruct (sigmas_fips a) as (-> & _); [done|]. destruct (sigmas_fips e) as (_ & -> & _); [done|]. rewrite CH_fips, MAJ_fips by done.
  unfold u32. rewrite Zplus_mod_idemp_l, !Zplus_mod_idemp_r.
  split; [done|]. repeat (constructor; [apply mod_word || done|]). done.
Qed.

Lemma rounds_fips256 n i m v : 0 <= i -> i + Z.of_nat n <= 64 -> zlen m = 64 -> Forall word (vars256 v) ->
  vars256 (for_loop n i (sha256_round m) v) = foldl fips_step (vars256 v) (take n (drop (Z.to_nat i) (zip k256 m))) /\
  Forall word (vars256 (for_loop n i (sha256_round m) v)).
Proof.
  revert i v. induction n as [|n IH]; intros i v Hi Hn Hm F; [done|]. cbn [for_loop].
  destruct (round_fips m i v F) as [E F']. destruct (IH (i + 1) (sha256_round m i v)) as [IE IF]; [lia..|done|done|]. split; [|done].
  rewrite IE, E. assert (G : zip k256 m !! Z.to_nat i = Some (k256.[i], m.[i])).
  { apply lookup_zip_with_Some. eexists _, _. split; [done|]. split; apply zget_lookup; [change (zlen k256) with 64|]; lia. }
  rewrite (drop_S _ _ _ G). replace (S (Z.to_nat i)) with (Z.to_nat (i + 1)) by lia. done.
Qed.

Definition load256 (st : list Z) : Z * Z * Z * Z * Z * Z * Z * Z := (st.[0], st.[1], st.[2], st.[3], st.[4], st.[5], st.[6], st.[7]).

Lemma vars_load st : length st = 8%nat -> vars256 (load256 st) = st.
Proof. intros Hs. by destruct st as [|s0 [|s1 [|s2 [|s3 [|s4 [|s5 [|s6 [|s7 [|]]]]]]]]]. Qed.

Lemma feed_forward st v : length st = 8%nat ->
  (let '(a, b, c, d, e, f, g, h) := v in
   [u32 (st.[0] + a); u32 (st.[1] + b); u32 (st.[2] + c); u32 (st.[3] + d); u32 (st.[4] + e); u32 (st.[5] + f); u32 (st.[6] + g); u32 (st.[7] + h)]) =
  zip_with (fun x y => (x + y) mod 2 ^ 32) (vars256 v) st.
Proof.
  intros Hs. destruct st as [|s0 [|s1 [|s2 [|s3 [|s4 [|s5 [|s6 [|s7 [|]]]]]]]]]; try discriminate Hs.
  destruct v as [[[[[[[a b] c] d] e] f] g] h]. cbn [vars256 zip_with]. unfold u32.
  rewrite (Z.add_comm a), (Z.add_comm b), (Z.add_comm c), (Z.add_comm d), (Z.add_comm e), (Z.add_comm f), (Z.add_comm g), (Z.add_comm h). done.
Qed.

Lemma transform_rounds st m : zlen m = 64 -> length st = 8%nat -> Forall word st ->
  zip_with (fun x y => (x + y) mod 2 ^ 32) (vars256 (for_loop 64 0 (sha256_round m) (load256 st))) st =
  zip_with (fun x y => (x + y) mod 2 ^ 32) (foldl fips_step st (zip fips_K m)) st.
Proof.
  intros Lm Hs Fs. destruct fips_constants as [-> _].
  destruct (rounds_fips256 64 0 m (load256 st)) as [E _]; [lia|lia|done|by rewrite vars_load|]. rewrite vars_load in E by done.
  revert E. generalize (for_loop 64 0 (sha256_round m) (load256 st)). intros v E. change (drop (Z.to_nat 0) (zip k256 m)) with (zip k256 m) in E.
  rewrite take_ge in E; [by rewrite E|]. rewrite length_zip. unfold zlen in Lm. lia.
Qed.

Lemma transform_fips st d : length st = 8%nat -> Forall word st -> Forall byte d -> zlen d = 64 ->
  sha256_transform st d = fips_block st d /\ Forall word (sha256_transform st d).
Proof.
  intros Hs Fs Fd Hd. destruct (fips_words_spec d Fd Hd) as (Lw & Fw & _).
  destruct (fips_extend_words 48 (fips_words d)) as [Lm _]; [unfold zlen; lia|done|].
  assert (E : sha256_transform st d = zip_with (fun x y => (x + y) mod 2 ^ 32) (vars256 (for_loop 64 0 (sha256_round (schedule d)) (load256 st))) st).
  { unfold sha256_transform. cbv zeta. fold (load256 st). generalize (for_loop 64 0 (sha256_round (schedule d)) (load256 st)). intros v. by apply feed_forward. }
  rewrite E. split; [rewrite (schedule_fips d Fd Hd); by apply transform_rounds|]. clear E.
  generalize (vars256 (for_loop 64 0 (sha256_round (schedule d)) (load256 st))). intros v. clear. revert v.
  induction st as [|x st IH]; intros [|y v]; constructor; [apply mod_word|apply IH].
Qed.

Lemma blocks_fips k p st : length p = (64 * k)%nat -> Forall byte p -> length st = 8%nat -> Forall word st ->
  fold_blocks 64 sha256_transform k p st = fold_blocks 64 fips_block k p st.
Proof.
  revert p st. induction k as [|k IH]; intros p st Hp Fp Hs Fs; [done|]. rewrite !fold_blocks_S.
  destruct (transform_fips st (take 64 p)) as [E F]; [done|done|by apply Forall_take|unfold zlen; rewrite length_take; lia|]. rewrite <- E.
  apply IH; [rewrite length_drop; lia|by apply Forall_drop|apply length_transform|done].
Qed.

Lemma padded_hash_fips m : Forall byte m -> padded_hash m = sha256_digest m.
Proof.
  intros F. unfold padded_hash, sha256_digest. cbv zeta. destruct fips_constants as [_ ->]. f_equal. f_equal. apply blocks_fips.
  - pose proof (length_pad m) as H. unfold zlen in H. apply Nat2Z.inj. rewrite Nat2Z.inj_mul, Nat2Z.inj_div.
    change (Z.of_nat 64) with 64. Z.div_mod_to_equations. lia.
  - unfold sha256_pad. apply Forall_app. split; [done|]. constructor; [unfold byte; lia|]. apply Forall_app. split; [apply Forall_replicate; unfold byte; lia|].
    unfold be_bytes. apply Forall_rev, le_bytes_byte.
  - done.
  - repeat (constructor; [unfold word; lia|]). done.
Qed.

(** ** Properties *)

(** C10: SHA-256 however the input is fed.  From any uninitialised context,
    [sha256_init], any sequence of [sha256_update] calls and [sha256_final] give
    the FIPS 180-4 digest of the concatenated input.  The specification shares
    nothing with the code: its constants are computed from the roots of the first
    primes, its functions and its schedule are those of the standard, and the
    message is padded with 0x80, zeros and the 64-bit big-endian bit length. *)
Theorem sha256_streaming junk (chunks : list (list Z)) :
  zlen (data junk) = 64 -> Forall byte (concat chunks) ->
  sha256_final (fold_left sha256_update chunks (sha256_init junk)) = sha256_digest (concat chunks).
Proof.
  intros Hl F. rewrite <- padded_hash_fips by done. apply final_absorbed. change (concat chunks) with ([] ++ concat chunks).
  pose proof (absorbed_init junk Hl) as Ha. revert Ha. clear F. generalize (sha256_init junk) (@nil Z).
  induction chunks as [|c cs IH]; intros ctx m Ha; cbn [fold_left concat]; [by rewrite app_nil_r|].
  rewrite app_assoc. by apply IH, absorbed_update.
Qed.

Lemma sha256_streaming_witness :
  (zlen (data junk256) = 64 /\ Forall byte (concat [[97]; []; [98; 99]])) /\
  sha256_final (fold_left sha256_update [[97]; []; [98; 99]] (sha256_init junk256)) = sha256_digest [97; 98; 99].
Proof.
  assert (B : Forall byte (concat [[97]; []; [98; 99]])) by (repeat constructor; unfold byte; lia).
  split; [done|]. exact (sha256_streaming junk256 [[97]; []; [98; 99]] eq_refl B).
Defined.
