(* ===== verification/Sha512.v ===== *)
(** * SHA-512 (kernel/crypto/sha512.c)

    The block routine keeps a rolling window of 16 schedule words that it
    updates in place; it is shown to equal the FIPS 180-4 compression function
    with its 80-word schedule, and the one-shot hash to be that function folded
    over the padded message. *)

From S2P Require Import Prelude.

(** ** Loads, stores and logical functions *)

Definition dl64 (x : list Z) (off : Z) : Z :=
  for_loop 8 0 (fun i u => Z.lor (u64 (Z.shiftl u 8)) x.[off + i]) 0.

(** [for (i = 7; i >= 0; --i) { x[i] = (uint8_t)u; u >>= 8; }] *)
Definition ts64 (x : list Z) (off u : Z) : list Z :=
  fst (for_loop 8 0 (fun k '(x, u) => (x.[off + (7 - k) <- u8 u], Z.shiftr u 8)) (x, u)).

Definition R (x c : Z) : Z := Z.lor (Z.shiftr x c) (u64 (Z.shiftl x (64 - c))).
Definition Ch (x y z : Z) : Z := Z.lxor (Z.land x y) (Z.land (not64 x) z).
Definition Maj (x y z : Z) : Z := Z.lxor (Z.lxor (Z.land x y) (Z.land x z)) (Z.land y z).
Definition Sigma0 (x : Z) : Z := Z.lxor (Z.lxor (R x 28) (R x 34)) (R x 39).
Definition Sigma1 (x : Z) : Z := Z.lxor (Z.lxor (R x 14) (R x 18)) (R x 41).
Definition sigma0 (x : Z) : Z := Z.lxor (Z.lxor (R x 1) (R x 8)) (Z.shiftr x 7).
Definition sigma1 (x : Z) : Z := Z.lxor (Z.lxor (R x 19) (R x 61)) (Z.shiftr x 6).

Definition K512 : list Z := [
  0x428a2f98d728ae22; 0x7137449123ef65cd; 0xb5c0fbcfec4d3b2f; 0xe9b5dba58189dbbc;
  0x3956c25bf348b538; 0x59f111f1b605d019; 0x923f82a4af194f9b; 0xab1c5ed5da6d8118;
  0xd807aa98a3030242; 0x12835b0145706fbe; 0x243185be4ee4b28c; 0x550c7dc3d5ffb4e2;
  0x72be5d74f27b896f; 0x80deb1fe3b1696b1; 0x9bdc06a725c71235; 0xc19bf174cf692694;
  0xe49b69c19ef14ad2; 0xefbe4786384f25e3; 0x0fc19dc68b8cd5b5; 0x240ca1cc77ac9c65;
  0x2de92c6f592b0275; 0x4a7484aa6ea6e483; 0x5cb0a9dcbd41fbd4; 0x76f988da831153b5;
  0x983e5152ee66dfab; 0xa831c66d2db43210; 0xb00327c898fb213f; 0xbf597fc7beef0ee4;
  0xc6e00bf33da88fc2; 0xd5a79147930aa725; 0x06ca6351e003826f; 0x142929670a0e6e70;
  0x27b70a8546d22ffc; 0x2e1b21385c26c926; 0x4d2c6dfc5ac42aed; 0x53380d139d95b3df;
  0x650a73548baf63de; 0x766a0abb3c77b2a8; 0x81c2c92e47edaee6; 0x92722c851482353b;
  0xa2bfe8a14cf10364; 0xa81a664bbc423001; 0xc24b8b70d0f89791; 0xc76c51a30654be30;
  0xd192e819d6ef5218; 0xd69906245565a910; 0xf40e35855771202a; 0x106aa07032bbd1b8;
  0x19a4c116b8d2d0c8; 0x1e376c085141ab53; 0x2748774cdf8eeb99; 0x34b0bcb5e19b48a8;
  0x391c0cb3c5c95a63; 0x4ed8aa4ae3418acb; 0x5b9cca4f7763e373; 0x682e6ff3d6b2b8a3;
  0x748f82ee5defb2fc; 0x78a5636f43172f60; 0x84c87814a1f0ab72; 0x8cc702081a6439ec;
  0x90befffa23631e28; 0xa4506cebde82bde9; 0xbef9a3f7b2c67915; 0xc67178f2e372532b;
  0xca273eceea26619c; 0xd186b8c721c0c207; 0xeada7dd6cde0eb1e; 0xf57d4f7fee6ed178;
  0x06f067aa72176fba; 0x0a637dc5a2c898a6; 0x113f9804bef90dae; 0x1b710b35131c471b;
  0x28db77f523047d84; 0x32caab7b40c72493; 0x3c9ebe0a15c9bebc; 0x431d67c49c100d4c;
  0x4cc5d4becb3e42b6; 0x597f299cfc657e2a; 0x5fcb6fab3ad6faec; 0x6c44198c4a475817].

(** ** Block routine *)

(** The in-place update of the 16-word window. *)
Definition roll (w : list Z) : list Z :=
  for_loop 16 0 (fun j w =>
    w.[j <- u64 (w.[j] + u64 (u64 (w.[(j + 9) mod 16] + sigma0 w.[(j + 1) mod 16]) + sigma1 w.[(j + 14) mod 16]))]) w.

(** One of the 80 rounds on the arrays [a] and [w]. *)
Definition round512 (i : Z) (s : list Z * list Z) : list Z * list Z :=
  let '(a, w) := s in
  let b := a in
  let t := u64 (a.[7] + Sigma1 a.[4] + Ch a.[4] a.[5] a.[6] + K512.[i] + w.[i mod 16]) in
  let b := b.[7 <- u64 (t + Sigma0 a.[0] + Maj a.[0] a.[1] a.[2])] in
  let b := b.[3 <- u64 (b.[3] + t)] in
  let a := for_loop 8 0 (fun j a => a.[(j + 1) mod 8 <- b.[j]]) a in
  let w := if i mod 16 =? 15 then roll w else w in
  (a, w).

(** One iteration of [while (n >= 128)] on [a] and [z], for the block at [m + off]. *)
Definition block512 (z m : list Z) (off : Z) : list Z :=
  let w := for_loop 16 0 (fun i w => w.[i <- dl64 m (off + 8 * i)]) (replicate 16 0) in
  let '(a, _) := for_loop 80 0 round512 (z, w) in
  for_loop 8 0 (fun i a => a.[i <- u64 (a.[i] + z.[i])]) a.

Fixpoint blocks_loop (fuel : nat) (z m : list Z) (off n : Z) : option (list Z * Z) :=
  match fuel with
  | O => None
  | S fuel' => if 128 <=? n then blocks_loop fuel' (block512 z m off) m (off + 128) (n - 128)
               else Some (z, n)
  end.

(** [sha512_blocks(x, m, n)]: the updated state bytes and the returned rest. *)
Definition sha512_blocks (x m : list Z) (n : Z) : option (list Z * Z) :=
  let z := for_loop 8 0 (fun i z => z.[i <- dl64 x (8 * i)]) (replicate 8 0) in
  match blocks_loop (S (Z.to_nat n)) z m 0 n with
  | Some (z, n) => Some (for_loop 8 0 (fun i x => ts64 x (8 * i) z.[i]) x, n)
  | None => None
  end.

Definition iv512 : list Z := [
  0x6a; 0x09; 0xe6; 0x67; 0xf3; 0xbc; 0xc9; 0x08; 0xbb; 0x67; 0xae; 0x85; 0x84; 0xca; 0xa7; 0x3b;
  0x3c; 0x6e; 0xf3; 0x72; 0xfe; 0x94; 0xf8; 0x2b; 0xa5; 0x4f; 0xf5; 0x3a; 0x5f; 0x1d; 0x36; 0xf1;
  0x51; 0x0e; 0x52; 0x7f; 0xad; 0xe6; 0x82; 0xd1; 0x9b; 0x05; 0x68; 0x8c; 0x2b; 0x3e; 0x6c; 0x1f;
  0x1f; 0x83; 0xd9; 0xab; 0xfb; 0x41; 0xbd; 0x6b; 0x5b; 0xe0; 0xcd; 0x19; 0x13; 0x7e; 0x21; 0x79].

(** [sha512(m, n, out)] with [n] the length of [m]. *)
Definition sha512 (m : list Z) : option (list Z) :=
  let n := zlen m in
  let b := n in
  let h := iv512 in
  match sha512_blocks h m n with
  | None => None
  | Some (h, _) =>
      let tail := n - Z.land n 127 in
      let n := Z.land n 127 in
      let x := replicate 256 0 in
      let x := for_loop (Z.to_nat n) 0 (fun i x => x.[i <- m.[tail + i]]) x in
      let x := x.[n <- 128] in
      let n := 256 - 128 * Z.b2z (n <? 112) in
      let x := x.[n - 9 <- u8 (Z.shiftr b 61)] in
      let x := ts64 x (n - 8) (u64 (Z.shiftl b 3)) in
      match sha512_blocks h x n with
      | None => None
      | Some (h, _) => Some h
      end
  end.

(** FIPS 180-4: "abc". *)
Example sha512_abc :
  sha512 [97; 98; 99] = Some (be_bytes 64 0xddaf35a193617abacc417349ae20413112e6fa4e89a97ea20a9eeee64b55d39a2192992a274fc1a836ba3c23a3feebbd454d4423643ce80e2a9ac94fa54ca49f).
Proof. vm_compute. reflexivity. Qed.

(** ** Specification: FIPS 180-4, sections 5.1.2 and 6.4 *)

(** [n] further schedule words behind the [len(w)] already there. *)
Fixpoint extend (n : nat) (w : list Z) : list Z :=
  match n with
  | O => w
  | S n' =>
      let i := zlen w in
      extend n' (w ++ [u64 (sigma1 w.[i - 2] + w.[i - 7] + sigma0 w.[i - 15] + w.[i - 16])])
  end.

(** The round function on the eight working variables. *)
Definition fips_round (W : list Z) (t : Z) (v : Z * Z * Z * Z * Z * Z * Z * Z) :=
  let '(a, b, c, d, e, f, g, h) := v in
  let T1 := h + Sigma1 e + Ch e f g + K512.[t] + W.[t] in
  let T2 := Sigma0 a + Maj a b c in
  (u64 (T1 + T2), a, b, c, u64 (d + T1), e, f, g).

Definition be_val (l : list Z) : Z := le_val (rev l).

Definition be64_words (l : list Z) : list Z :=
  (fun i => be_val (take 8 (drop (Z.to_nat (8 * i)) l))) <$> seqZ 0 (zlen l / 8).

Definition fips_compress (H block : list Z) : list Z :=
  let W := extend 64 (be64_words block) in
  let '(a, b, c, d, e, f, g, h) :=
    for_loop 80 0 (fips_round W) (H.[0], H.[1], H.[2], H.[3], H.[4], H.[5], H.[6], H.[7]) in
  [u64 (a + H.[0]); u64 (b + H.[1]); u64 (c + H.[2]); u64 (d + H.[3]);
   u64 (e + H.[4]); u64 (f + H.[5]); u64 (g + H.[6]); u64 (h + H.[7])].

Definition sha512_H0 : list Z :=
  [0x6a09e667f3bcc908; 0xbb67ae8584caa73b; 0x3c6ef372fe94f82b; 0xa54ff53a5f1d36f1;
   0x510e527fade682d1; 0x9b05688c2b3e6c1f; 0x1f83d9abfb41bd6b; 0x5be0cd19137e2179].

Definition sha512_pad (m : list Z) : list Z :=
  m ++ 0x80 :: replicate (Z.to_nat ((111 - zlen m) mod 128)) 0 ++ be_bytes 16 (8 * zlen m).

Definition sha512_digest (m : list Z) : list Z :=
  let p := sha512_pad m in
  concat (be_bytes 8 <$> fold_blocks 128 fips_compress (length p / 128) p sha512_H0).

(** ** The rolling schedule *)

Definition recurrence (W : list Z) : Prop :=
  forall i, 16 <= i < zlen W -> W.[i] = u64 (sigma1 W.[i - 2] + W.[i - 7] + sigma0 W.[i - 15] + W.[i - 16]).

(** The window of 16 schedule words from [o] on. *)
Definition window (W : list Z) (o : Z) : list Z := (fun j => W.[o + j]) <$> seqZ 0 16.

Lemma zlen_window W o : zlen (window W o) = 16.
Proof. unfold window. by rewrite zlen_fmap, zlen_seqZ. Qed.

Lemma window_get W o j : 0 <= j < 16 -> (window W o).[j] = W.[o + j].
Proof. intros Hj. unfold window. by rewrite zget_fmap_seqZ by lia. Qed.

Lemma u64_add_l a b : u64 (u64 a + b) = u64 (a + b).
Proof. unfold u64. apply Zplus_mod_idemp_l. Qed.
Lemma u64_add_r a b : u64 (a + u64 b) = u64 (a + b).
Proof. unfold u64. apply Zplus_mod_idemp_r. Qed.

Lemma extend_spec n w :
  16 <= zlen w -> recurrence w ->
  recurrence (extend n w) /\ zlen (extend n w) = zlen w + Z.of_nat n /\
  forall i, 0 <= i < zlen w -> (extend n w).[i] = w.[i].
Proof.
  revert w. induction n as [|n IH]; intros w Hl Hr; cbn [extend]; [split; [done|]; split; [lia|done]|].
  set (x := u64 _). assert (L1 : zlen (w ++ [x]) = zlen w + 1) by apply zlen_app.
  assert (G : forall i, 0 <= i < zlen w -> (w ++ [x]).[i] = w.[i]).
  { intros i Hi. rewrite zget_app by lia. by destruct (Z.ltb_spec i (zlen w)); [|lia]. }
  destruct (IH (w ++ [x])) as (R1 & R2 & R3); [lia| |].
  - intros i Hi. destruct (decide (i = zlen w)) as [->|].
    + rewrite (zget_app _ _ (zlen w)) by lia. destruct (Z.ltb_spec (zlen w) (zlen w)); [lia|].
      rewrite !G by lia. by rewrite Z.sub_diag.
    + rewrite !G by lia. apply Hr. lia.
  - split; [done|]. split; [lia|]. intros i Hi. rewrite R3, G by lia. done.
Qed.

(** The in-place update advances the window by 16 words. *)
Lemma roll_window W o :
  recurrence W -> 0 <= o -> o + 32 <= zlen W -> roll (window W o) = window W (o + 16).
Proof.
  intros Hr Ho Hl. unfold roll.
  pose proof (for_loop_ind (fun j w => zlen w = 16 /\ forall k, 0 <= k < 16 ->
      w.[k] = if k <? j then W.[o + 16 + k] else W.[o + k]) 16 0
    (fun j w => w.[j <- u64 (w.[j] + u64 (u64 (w.[(j + 9) mod 16] + sigma0 w.[(j + 1) mod 16]) + sigma1 w.[(j + 14) mod 16]))])
    (window W o)) as I.
  destruct I as [L I].
  - split; [apply zlen_window|]. intros k Hk. rewrite window_get by lia. by destruct (Z.ltb_spec k 0); [lia|].
  - intros j w Hj [L I]. rewrite zlen_zset. split; [done|]. intros k Hk.
    assert (A : forall d, 1 <= d <= 15 -> w.[(j + d) mod 16] = W.[o + j + d]).
    { intros d Hd. rewrite I by (apply Z.mod_pos_bound; lia).
      destruct (Z.ltb_spec ((j + d) mod 16) j); f_equal; Z.div_mod_to_equations; lia. }
    destruct (decide (k = j)) as [->|].
    + rewrite zget_zset_eq, !A, I by lia. destruct (Z.ltb_spec j j), (Z.ltb_spec j (j + 1)); try lia.
      rewrite (Hr (o + 16 + j)) by lia. rewrite u64_add_l, u64_add_r. replace (o + 16 + j - 2) with (o + j + 14) by lia.
      replace (o + 16 + j - 7) with (o + j + 9) by lia. replace (o + 16 + j - 15) with (o + j + 1) by lia.
      replace (o + 16 + j - 16) with (o + j) by lia. f_equal. lia.
    + rewrite zget_zset_ne, I by lia. destruct (Z.ltb_spec k j), (Z.ltb_spec k (j + 1)); lia || done.
  - apply list_eq_zget; [by rewrite zlen_window|]. intros k Hk. rewrite L in Hk. rewrite I, window_get by lia.
    by destruct (Z.ltb_spec k (0 + Z.of_nat 16)); [|lia].
Qed.

(** ** Rounds *)

Definition vars := (Z * Z * Z * Z * Z * Z * Z * Z)%type.

Definition arr (v : vars) : list Z :=
  let '(a, b, c, d, e, f, g, h) := v in [a; b; c; d; e; f; g; h].

Lemma round512_fips i v w W :
  w.[i mod 16] = W.[i] ->
  round512 i (arr v, w) = (arr (fips_round W i v), if i mod 16 =? 15 then roll w else w).
Proof.
  intros Hw. destruct v as [[[[[[[a b] c] d] e] f] g] h]. unfold round512. rewrite Hw. unfold fips_round, arr.
  f_equal. change (zget [a; b; c; d; e; f; g; h] 7) with h. change (zget [a; b; c; d; e; f; g; h] 4) with e.
  change (zget [a; b; c; d; e; f; g; h] 5) with f. change (zget [a; b; c; d; e; f; g; h] 6) with g.
  change (zget [a; b; c; d; e; f; g; h] 0) with a. change (zget [a; b; c; d; e; f; g; h] 1) with b.
  change (zget [a; b; c; d; e; f; g; h] 2) with c.
  set (T1 := h + Sigma1 e + Ch e f g + K512.[i] + W.[i]).
  transitivity [u64 (u64 T1 + Sigma0 a + Maj a b c); a; b; c; u64 (d + u64 T1); e; f; g].
  - generalize (u64 (u64 T1 + Sigma0 a + Maj a b c)) (u64 T1). intros p q.
    reflexivity.
  - rewrite u64_add_r, <- Z.add_assoc, u64_add_l. done.
Qed.

Lemma rounds_fips W v :
  recurrence W -> zlen W = 80 ->
  fst (for_loop 80 0 round512 (arr v, window W 0)) = arr (for_loop 80 0 (fips_round W) v).
Proof.
  intros Hr Hl.
  (* the window is past its last update after round 79 *)
  assert (G : forall n i v, 0 <= i -> i + Z.of_nat n <= 80 ->
    fst (for_loop n i round512 (arr v, window W (16 * (i / 16)))) = arr (for_loop n i (fips_round W) v)).
  { induction n as [|n IH]; intros i u Hi Hn; [done|]. cbn [for_loop].
    rewrite (round512_fips i u _ W).
    2: { rewrite window_get by (apply Z.mod_pos_bound; lia). f_equal. Z.div_mod_to_equations. lia. }
    destruct (Z.eqb_spec (i mod 16) 15) as [E|E].
    - destruct (decide (n = O)) as [->|Hn0]; [done|].
      rewrite roll_window by (done || (Z.div_mod_to_equations; lia)).
      replace (16 * (i / 16) + 16) with (16 * ((i + 1) / 16)) by (Z.div_mod_to_equations; lia). apply IH; lia.
    - replace (i / 16) with ((i + 1) / 16) by (Z.div_mod_to_equations; lia). apply IH; lia. }
  apply (G 80%nat 0 v); lia.
Qed.

(** ** Loads and stores *)

Lemma be_val_snoc l b : be_val (l ++ [b]) = 256 * be_val l + b.
Proof. unfold be_val. rewrite rev_app_distr. cbn [rev app le_val]. lia. Qed.

Lemma be_val_range l : Forall byte l -> 0 <= be_val l < 256 ^ zlen l.
Proof.
  intros Hl. unfold be_val. replace (zlen l) with (zlen (rev l)) by (unfold zlen; by rewrite length_rev).
  apply le_val_range. by apply Forall_rev.
Qed.

Lemma dl64_be x off :
  Forall byte x -> 0 <= off -> off + 8 <= zlen x -> dl64 x off = be_val (take 8 (drop (Z.to_nat off) x)).
Proof.
  intros Hx Ho Hl. unfold dl64.
  apply (for_loop_ind (fun j u => u = be_val (take (Z.to_nat j) (drop (Z.to_nat off) x))) 8 0
           (fun i u => Z.lor (u64 (Z.shiftl u 8)) x.[off + i]) 0); [done|].
  intros j u Hj ->. set (d := drop (Z.to_nat off) x).
  assert (Ld : zlen d = zlen x - off) by (unfold d, zlen in *; rewrite length_drop; lia).
  assert (G : d !! Z.to_nat j = Some x.[off + j]).
  { unfold d. rewrite lookup_drop, <- (zget_lookup x (off + j)) by lia. f_equal. lia. }
  replace (Z.to_nat (j + 1)) with (S (Z.to_nat j)) by lia.
  rewrite (take_S_r _ _ _ G), be_val_snoc.
  assert (R : 0 <= be_val (take (Z.to_nat j) d) < 2 ^ 56).
  { pose proof (be_val_range (take (Z.to_nat j) d)) as R. unfold zlen in *. rewrite length_take in R.
    assert (256 ^ Z.of_nat (Z.to_nat j `min` length d) <= 256 ^ 7) by (apply Z.pow_le_mono_r; lia).
    change (2 ^ 56) with (256 ^ 7). specialize (R ltac:(by apply Forall_take, Forall_drop)). lia. }
  assert (B : byte x.[off + j]) by (apply byte_zget; [done|lia]). unfold byte in B.
  rewrite shiftl_mul, u64_small, Z.lor_comm, lor_add_disjoint by lia. lia.
Qed.

Lemma ts64_memcpy x off u :
  0 <= off -> off + 8 <= zlen x -> ts64 x off u = memcpy x off (be_bytes 8 u).
Proof.
  intros Ho Hl. unfold memcpy. rewrite <- (take_drop (Z.to_nat off) x) at 1.
  assert (La : length (take (Z.to_nat off) x) = Z.to_nat off) by (unfold zlen in Hl; rewrite length_take; lia).
  assert (Lb : (8 <= length (drop (Z.to_nat off) x))%nat) by (unfold zlen in Hl; rewrite length_drop; lia).
  change (length (be_bytes 8 u)) with 8%nat. rewrite <- drop_drop.
  set (a := take (Z.to_nat off) x) in *. set (b := drop (Z.to_nat off) x) in *. clearbody a b.
  destruct b as [|x0 [|x1 [|x2 [|x3 [|x4 [|x5 [|x6 [|x7 b]]]]]]]]; simpl in Lb; try lia. clear Lb.
  cbn [drop]. unfold ts64. cbn [for_loop fst]. unfold zset.
  replace (Z.to_nat (off + (7 - 0))) with (length a + 7)%nat by lia.
  replace (Z.to_nat (off + (7 - (0 + 1)))) with (length a + 6)%nat by lia.
  replace (Z.to_nat (off + (7 - (0 + 1 + 1)))) with (length a + 5)%nat by lia.
  replace (Z.to_nat (off + (7 - (0 + 1 + 1 + 1)))) with (length a + 4)%nat by lia.
  replace (Z.to_nat (off + (7 - (0 + 1 + 1 + 1 + 1)))) with (length a + 3)%nat by lia.
  replace (Z.to_nat (off + (7 - (0 + 1 + 1 + 1 + 1 + 1)))) with (length a + 2)%nat by lia.
  replace (Z.to_nat (off + (7 - (0 + 1 + 1 + 1 + 1 + 1 + 1)))) with (length a + 1)%nat by lia.
  replace (Z.to_nat (off + (7 - (0 + 1 + 1 + 1 + 1 + 1 + 1 + 1)))) with (length a + 0)%nat by lia.
  rewrite !insert_app_r. f_equal. unfold be_bytes, u8. rewrite !shiftr_div by lia. cbn [le_bytes rev app].
  change (2 ^ 8) with 256. reflexivity.
Qed.

(** ** The block routine against the compression function *)

Definition word64 (x : Z) : Prop := 0 <= x < 2 ^ 64.

Lemma memcpy_all {A} (buf src : list A) : zlen src = zlen buf -> memcpy buf 0 src = src.
Proof. intros E. by rewrite (memcpy_end buf [] src). Qed.

Lemma load_words m off :
  Forall byte m -> 0 <= off -> off + 128 <= zlen m ->
  for_loop 16 0 (fun i w => w.[i <- dl64 m (off + 8 * i)]) (replicate 16 0) =
  be64_words (take 128 (drop (Z.to_nat off) m)).
Proof.
  intros Hm Ho Hl. rewrite (fill_loop_from (fun i => dl64 m (off + 8 * i))) by (lia || done).
  rewrite memcpy_all by (by rewrite zlen_fmap, zlen_seqZ). unfold be64_words.
  replace (zlen (take 128 (drop (Z.to_nat off) m))) with 128
    by (unfold zlen in *; rewrite length_take, length_drop; lia).
  change (128 / 8) with 16. apply list_eq_zget; [by rewrite !zlen_fmap|].
  rewrite zlen_fmap, zlen_seqZ by lia. intros i Hi. rewrite !zget_fmap_seqZ, dl64_be by lia || done.
  f_equal. rewrite take_drop_take, drop_drop by lia. do 2 f_equal. lia.
Qed.

Lemma arr_eta z : zlen z = 8 -> z = arr (z.[0], z.[1], z.[2], z.[3], z.[4], z.[5], z.[6], z.[7]).
Proof.
  intros Hz. destruct z as [|a [|b [|c [|d [|e [|f [|g [|h [|]]]]]]]]]; try discriminate Hz; [done|].
  unfold zlen in Hz. cbn [length] in Hz. lia.
Qed.

Lemma block512_fips z m off :
  zlen z = 8 -> Forall byte m -> 0 <= off -> off + 128 <= zlen m ->
  block512 z m off = fips_compress z (take 128 (drop (Z.to_nat off) m)).
Proof.
  intros Hz Hm Ho Hl. unfold block512, fips_compress. rewrite load_words by done.
  set (w := be64_words _).
  assert (Lw : zlen w = 16).
  { unfold w, be64_words. rewrite zlen_fmap, zlen_seqZ.
    - unfold zlen in *. rewrite length_take, length_drop. replace (Z.of_nat _) with 128 by lia. done.
    - apply Z.div_pos; [apply zlen_nonneg|lia]. }
  destruct (extend_spec 64 w) as (Hr & HL & Hg); [lia|intros i Hi; lia|].
  set (W := extend 64 w) in *.
  assert (Ew : window W 0 = w).
  { apply list_eq_zget; [by rewrite zlen_window|]. rewrite zlen_window. intros i Hi.
    rewrite window_get by lia. apply Hg. lia. }
  rewrite <- Ew. rewrite (arr_eta z Hz) at 1.
  set (v := (z.[0], z.[1], z.[2], z.[3], z.[4], z.[5], z.[6], z.[7])).
  pose proof (rounds_fips W v Hr ltac:(lia)) as E.
  destruct (for_loop 80 0 round512 (arr v, window W 0)) as [a' w']. cbn [fst] in E. subst a'.
  destruct (for_loop 80 0 (fips_round W) v) as [[[[[[[a b] c] d] e] f] g] h]. cbn [arr].
  reflexivity.
Qed.

Lemma fips_compress_words H b : zlen (fips_compress H b) = 8 /\ Forall word64 (fips_compress H b).
Proof.
  unfold fips_compress. destruct (for_loop 80 _ _ _) as [[[[[[[? ?] ?] ?] ?] ?] ?] ?].
  split; [done|]. repeat (constructor; [apply u64_range|]). done.
Qed.

Lemma blocks_loop_fips fuel z m off n :
  zlen z = 8 -> Forall word64 z -> Forall byte m -> 0 <= off -> 0 <= n < Z.of_nat fuel -> off + n <= zlen m ->
  blocks_loop fuel z m off n =
    Some (fold_blocks 128 fips_compress (Z.to_nat (n / 128)) (drop (Z.to_nat off) m) z, n mod 128) /\
  zlen (fold_blocks 128 fips_compress (Z.to_nat (n / 128)) (drop (Z.to_nat off) m) z) = 8 /\
  Forall word64 (fold_blocks 128 fips_compress (Z.to_nat (n / 128)) (drop (Z.to_nat off) m) z).
Proof.
  intros Hz Hw Hm. revert z Hz Hw off n. induction fuel as [|fuel IH]; intros z Hz Hw off n Ho Hn Hl; [lia|].
  cbn [blocks_loop]. destruct (Z.leb_spec 128 n) as [G|G].
  - rewrite block512_fips by (done || lia).
    destruct (fips_compress_words z (take 128 (drop (Z.to_nat off) m))) as [Hz' Hw'].
    replace (Z.to_nat (n / 128)) with (S (Z.to_nat ((n - 128) / 128))) by (Z.div_mod_to_equations; lia).
    replace (n mod 128) with ((n - 128) mod 128) by (Z.div_mod_to_equations; lia).
    rewrite fold_blocks_S, drop_drop. replace (Z.to_nat off + 128)%nat with (Z.to_nat (off + 128)) by lia.
    apply IH; first [exact Hz' | exact Hw' | lia].
  - replace (n / 128) with 0 by (Z.div_mod_to_equations; lia).
    replace (n mod 128) with n by (Z.div_mod_to_equations; lia). done.
Qed.

(** ** The state in bytes *)

Definition state_bytes (z : list Z) : list Z := concat (be_bytes 8 <$> z).

Lemma be_val_bytes n x : be_val (be_bytes n x) = x mod 256 ^ Z.of_nat n.
Proof. unfold be_val, be_bytes. by rewrite rev_involutive, le_val_bytes. Qed.

Lemma state_bytes_spec z : zlen (state_bytes z) = 8 * zlen z /\ Forall byte (state_bytes z).
Proof.
  unfold state_bytes. induction z as [|x z [IH1 IH2]]; [done|]. cbn [fmap list_fmap concat]. split.
  - rewrite zlen_app, zlen_be_bytes. change (list_fmap _ _ _ ?l) with (be_bytes 8 <$> l). rewrite IH1. unfold zlen. cbn [length]. lia.
  - apply Forall_app. split; [apply Forall_rev, le_bytes_byte|done].
Qed.

Lemma load_state z :
  zlen z = 8 -> Forall word64 z ->
  for_loop 8 0 (fun i z' => z'.[i <- dl64 (state_bytes z) (8 * i)]) (replicate 8 0) = z.
Proof.
  intros Hz Hw. destruct (state_bytes_spec z) as [L B].
  rewrite (fill_loop_from (fun i => dl64 (state_bytes z) (8 * i))) by done.
  rewrite memcpy_all by done. apply list_eq_zget; [done|]. rewrite zlen_fmap, zlen_seqZ by lia. intros i Hi.
  rewrite zget_fmap_seqZ, dl64_be by (done || lia). rewrite Z.add_0_l.
  assert (E : take 8 (drop (Z.to_nat (8 * i)) (state_bytes z)) = be_bytes 8 z.[i]).
  { destruct z as [|z0 [|z1 [|z2 [|z3 [|z4 [|z5 [|z6 [|z7 [|]]]]]]]]]; try discriminate Hz;
      [|unfold zlen in Hz; cbn [length] in Hz; lia].
    assert (D : i = 0 \/ i = 1 \/ i = 2 \/ i = 3 \/ i = 4 \/ i = 5 \/ i = 6 \/ i = 7) by lia.
    destruct D as [->|[->|[->|[->|[->|[->|[->| ->]]]]]]]; reflexivity. }
  rewrite E, be_val_bytes. apply Z.mod_small. rewrite Forall_lookup in Hw. apply (Hw (Z.to_nat i)).
  apply zget_lookup. lia.
Qed.

Lemma store_state z x :
  zlen z = 8 -> zlen x = 64 -> for_loop 8 0 (fun i x => ts64 x (8 * i) z.[i]) x = state_bytes z.
Proof.
  intros Hz Hx.
  pose proof (for_loop_ind (fun j x => zlen x = 64 /\ take (Z.to_nat (8 * j)) x = state_bytes (take (Z.to_nat j) z))
    8 0 (fun i x => ts64 x (8 * i) z.[i]) x) as I.
  destruct I as [I1 I2]; [done| |].
  - intros j y Hj [L T]. rewrite ts64_memcpy by lia.
    destruct (push_buf y _ (be_bytes 8 z.[j]) (8 * j) T) as [T' L']; [lia|rewrite zlen_be_bytes; lia|].
    split; [lia|]. rewrite zlen_be_bytes in T'. replace (8 * (j + 1)) with (8 * j + Z.of_nat 8) by lia. rewrite T'.
    replace (Z.to_nat (j + 1)) with (S (Z.to_nat j)) by lia. rewrite (take_S_r z _ z.[j]) by (apply zget_lookup; lia).
    unfold state_bytes. rewrite fmap_app, concat_app. cbn [fmap list_fmap concat]. by rewrite app_nil_r.
  - rewrite !take_ge in I2 by (unfold zlen in *; lia). done.
Qed.

Lemma sha512_blocks_fips z m n :
  zlen z = 8 -> Forall word64 z -> Forall byte m -> 0 <= n <= zlen m ->
  let z' := fold_blocks 128 fips_compress (Z.to_nat (n / 128)) m z in
  sha512_blocks (state_bytes z) m n = Some (state_bytes z', n mod 128) /\ zlen z' = 8 /\ Forall word64 z'.
Proof.
  intros Hz Hw Hm Hn z'. unfold sha512_blocks. rewrite load_state by done.
  destruct (blocks_loop_fips (S (Z.to_nat n)) z m 0 n) as (-> & Hz' & Hw'); [done|done|done|lia|lia|lia|].
  change (drop (Z.to_nat 0) m) with m in *. fold z' in Hz', Hw' |- *.
  rewrite store_state; [done|done|]. destruct (state_bytes_spec z) as [-> _]. lia.
Qed.

(** ** Padding *)

Lemma iv512_bytes : iv512 = state_bytes sha512_H0.
Proof. vm_compute. reflexivity. Qed.

(** The 128-bit length field: seven zero bytes, the top bits and a 64-bit word. *)
Lemma be_bytes_16 b :
  0 <= b < 2 ^ 64 ->
  be_bytes 16 (8 * b) = replicate 7 0 ++ [u8 (Z.shiftr b 61)] ++ be_bytes 8 (u64 (Z.shiftl b 3)).
Proof.
  intros Hb. unfold be_bytes. rewrite (le_bytes_add 8 8), rev_app_distr.
  replace (le_bytes 8 (u64 (Z.shiftl b 3))) with (le_bytes 8 (8 * b)).
  2: { apply le_bytes_mod. rewrite shiftl_mul by lia. unfold u64. change (256 ^ Z.of_nat 8) with (2 ^ 64).
       rewrite Z.mod_mod by lia. f_equal. lia. }
  rewrite app_assoc. f_equal. change (256 ^ Z.of_nat 8) with (2 ^ 64). rewrite shiftr_div by lia.
  assert (E : 8 * b / 2 ^ 64 = b / 2 ^ 61) by (Z.div_mod_to_equations; lia). rewrite E.
  assert (S : 0 <= b / 2 ^ 61 < 8) by (Z.div_mod_to_equations; lia).
  set (t := b / 2 ^ 61) in *. clearbody t. cbn [le_bytes rev app]. unfold u8.
  rewrite !(Z.div_small t), !Z.div_0_l, !Z.mod_0_l by lia. done.
Qed.

(** The buffer [x] of the last one or two blocks. *)
Definition tail_buf (q : list Z) (b : Z) : list Z :=
  let n := zlen q in
  let N := 256 - 128 * Z.b2z (n <? 112) in
  let x := (q ++ replicate (Z.to_nat (256 - n)) 0).[n <- 128] in
  ts64 x.[N - 9 <- u8 (Z.shiftr b 61)] (N - 8) (u64 (Z.shiftl b 3)).

Lemma tail_buf_spec q b :
  zlen q < 128 -> Forall byte q -> 0 <= b < 2 ^ 64 ->
  let N := 256 - 128 * Z.b2z (zlen q <? 112) in
  Forall byte (tail_buf q b) /\ zlen (tail_buf q b) = 256 /\
  take (Z.to_nat N) (tail_buf q b) =
    q ++ 0x80 :: replicate (Z.to_nat ((111 - zlen q) mod 128)) 0 ++ be_bytes 16 (8 * b).
Proof.
  intros Hq Bq Hb N. pose proof (zlen_nonneg q).
  assert (HN : N = zlen q + (111 - zlen q) mod 128 + 17 /\ 128 <= N <= 256).
  { unfold N. destruct (Z.ltb_spec (zlen q) 112); simpl Z.b2z; Z.div_mod_to_equations; lia. }
  pose proof (Z.mod_pos_bound (111 - zlen q) 128 ltac:(lia)) as Hm.
  set (k := (111 - zlen q) mod 128) in *.
  unfold tail_buf. fold N.
  assert (Lr : forall n, 0 <= n -> zlen (replicate (Z.to_nat n) 0) = n) by (intros; by apply zlen_replicate).
  set (y := (q ++ _).[zlen q <- 128]).
  assert (Ey : y = (q ++ [128] ++ replicate (Z.to_nat (k + 7)) 0) ++ replicate (Z.to_nat (256 - (N - 9))) 0).
  { unfold y. replace (256 - zlen q) with (1 + (k + 7) + (256 - (N - 9))) by lia.
    rewrite !Z2Nat.inj_add, !replicate_add by lia. unfold zset, zlen. rewrite Nat2Z.id.
    rewrite <- (Nat.add_0_r (length q)), insert_app_r. rewrite <- !app_assoc. done. }
  assert (Ly : zlen y = 256) by (rewrite Ey, !zlen_app, !Lr by lia; change (zlen [128]) with 1; lia).
  assert (By : Forall byte y).
  { rewrite Ey. repeat (apply Forall_app; split); try apply Forall_replicate; try done; unfold byte; try lia.
    constructor; [lia|done]. }
  assert (Ty : take (Z.to_nat (N - 9)) y = q ++ [128] ++ replicate (Z.to_nat (k + 7)) 0).
  { rewrite Ey. apply take_app_length'. apply Nat2Z.inj. change (Z.of_nat (length ?l)) with (zlen l).
    rewrite !zlen_app, Lr by lia. change (zlen [128]) with 1. lia. }
  clearbody y. rewrite zset_memcpy by lia. set (c := u8 (Z.shiftr b 61)).
  destruct (push_buf y _ [c] (N - 9) Ty) as [T1 L1]; [lia|change (zlen [c]) with 1; lia|].
  change (zlen [c]) with 1 in T1. replace (N - 9 + 1) with (N - 8) in T1 by lia.
  rewrite ts64_memcpy by lia. set (e := be_bytes 8 _).
  destruct (push_buf _ _ e (N - 8) T1) as [T2 L2]; [lia|unfold e; rewrite zlen_be_bytes; lia|].
  unfold e at 1 in T2. rewrite zlen_be_bytes in T2. replace (N - 8 + Z.of_nat 8) with N in T2 by lia.
  split; [|split; [lia|]].
  - apply Forall_memcpy; [apply Forall_memcpy; [done|]|apply Forall_rev, le_bytes_byte].
    constructor; [apply u8_range|done].
  - rewrite T2, be_bytes_16 by done. fold c e. rewrite Z2Nat.inj_add, replicate_add by lia.
    rewrite <- !app_assoc. done.
Qed.

(** Copying the last bytes of the message into the zeroed buffer. *)
Lemma copy_tail m tl r :
  0 <= tl -> 0 <= r < 128 -> zlen m = tl + r ->
  for_loop (Z.to_nat r) 0 (fun i x => x.[i <- m.[tl + i]]) (replicate 256 0) =
  drop (Z.to_nat tl) m ++ replicate (Z.to_nat (256 - r)) 0.
Proof.
  intros Ht Hr Hm. rewrite (fill_loop_from (fun i => m.[tl + i])) by (change (zlen (replicate 256 0)) with 256; lia).
  rewrite Z2Nat.id by lia. unfold memcpy. rewrite length_fmap, length_seqZ.
  change (take (Z.to_nat 0) ?l) with (@nil Z). cbn [app]. f_equal.
  - apply list_eq_zget; [unfold zlen in *; rewrite length_fmap, length_seqZ, length_drop; lia|].
    rewrite zlen_fmap, zlen_seqZ by lia. intros i Hi. rewrite zget_fmap_seqZ by lia. unfold zget.
    rewrite lookup_total_drop. f_equal. lia.
  - change (Z.to_nat 0 + ?n)%nat with n. rewrite drop_replicate. f_equal. lia.
Qed.

(** The padded message: the full blocks, then the contents of the buffer. *)
Lemma pad_split m tl :
  0 <= tl -> tl mod 128 = 0 -> tl <= zlen m < tl + 128 -> Forall byte m -> zlen m < 2 ^ 64 ->
  let q := drop (Z.to_nat tl) m in
  let N := 256 - 128 * Z.b2z (zlen q <? 112) in
  let x := tail_buf q (zlen m) in
  Forall byte x /\ zlen x = 256 /\ (N = 128 \/ N = 256) /\
  sha512_pad m = take (Z.to_nat tl) m ++ take (Z.to_nat N) x /\
  forall z, fold_blocks 128 fips_compress (length (sha512_pad m) / 128) (sha512_pad m) z =
            fold_blocks 128 fips_compress (Z.to_nat (N / 128)) x
              (fold_blocks 128 fips_compress (Z.to_nat (tl / 128)) m z).
Proof.
  intros Ht Htm Hm Bm Hs q N x.
  assert (Lq : zlen q = zlen m - tl) by (unfold q, zlen in *; rewrite length_drop; lia).
  destruct (tail_buf_spec q (zlen m)) as (B2 & L2 & T2); [lia|by apply Forall_drop|lia|].
  fold N x in B2, L2, T2.
  assert (HN : N = 128 \/ N = 256) by (unfold N; destruct (zlen q <? 112); simpl; lia).
  assert (Ep : sha512_pad m = take (Z.to_nat tl) m ++ take (Z.to_nat N) x).
  { rewrite T2. unfold sha512_pad. rewrite <- (take_drop (Z.to_nat tl) m) at 1. fold q. rewrite <- app_assoc.
    do 5 f_equal. f_equal. rewrite Lq. Z.div_mod_to_equations. lia. }
  split; [done|]. split; [done|]. split; [done|]. split; [done|]. intros z.
  assert (Lt : length (take (Z.to_nat tl) m) = (128 * Z.to_nat (tl / 128))%nat).
  { rewrite length_take. unfold zlen in *. Z.div_mod_to_equations. lia. }
  assert (Lx : length (take (Z.to_nat N) x) = Z.to_nat N) by (rewrite length_take; unfold zlen in L2; lia).
  rewrite Ep, length_app, Lt, Lx.
  replace ((128 * Z.to_nat (tl / 128) + Z.to_nat N) / 128)%nat
    with (Z.to_nat (tl / 128) + Z.to_nat (N / 128))%nat.
  - rewrite fold_blocks_app by done. rewrite !fold_blocks_take; [done| |].
    + Z.div_mod_to_equations. lia.
    + destruct HN as [-> | ->]; reflexivity.
  - rewrite Nat.mul_comm, Nat.div_add_l by lia. f_equal. destruct HN as [-> | ->]; reflexivity.
Qed.

(** ** Properties *)

(** [sha512] is SHA-512.  For every message shorter than 2^64 bytes the
    routine terminates and returns the FIPS 180-4 digest: the compression
    function with the 80-word schedule (which the code computes in a rolling
    16-word window updated in place) folded over the message padded with 0x80,
    zeros and the 128-bit big-endian bit length. *)
Theorem sha512_correct m :
  Forall byte m -> zlen m < 2 ^ 64 -> sha512 m = Some (sha512_digest m).
Proof.
  intros Bm Hm. pose proof (zlen_nonneg m) as Hn. unfold sha512, sha512_digest.
  assert (W0 : zlen sha512_H0 = 8 /\ Forall word64 sha512_H0).
  { split; [done|]. repeat (constructor; [unfold word64; lia|]). done. }
  destruct W0 as [L0 W0]. rewrite iv512_bytes.
  destruct (sha512_blocks_fips sha512_H0 m (zlen m) L0 W0 Bm) as (E1 & L1 & W1); [lia|].
  rewrite E1. set (z1 := fold_blocks _ _ _ _ _) in *. change 127 with (2 ^ 7 - 1).
  rewrite land_low by lia. change (2 ^ 7) with 128.
  set (tl := zlen m - zlen m mod 128).
  assert (Htl : 0 <= tl /\ tl mod 128 = 0 /\ tl <= zlen m < tl + 128 /\ tl / 128 = zlen m / 128).
  { unfold tl. Z.div_mod_to_equations. lia. }
  destruct Htl as (T0 & T1 & T2 & T3).
  destruct (pad_split m tl T0 T1 T2 Bm Hm) as (B2 & L2 & HN & _ & Ef).
  rewrite (copy_tail m tl) by lia. set (q := drop (Z.to_nat tl) m) in *.
  assert (Lq : zlen q = zlen m mod 128) by (unfold q, zlen in *; rewrite length_drop; lia).
  rewrite <- Lq. set (N := 256 - 128 * Z.b2z (zlen q <? 112)) in *.
  change (ts64 _ (N - 8) _) with (tail_buf q (zlen m)).
  destruct (sha512_blocks_fips z1 (tail_buf q (zlen m)) N L1 W1 B2) as (E2 & _ & _); [lia|].
  rewrite E2, Ef, T3. done.
Qed.

Lemma sha512_correct_witness :
  (Forall byte [97; 98; 99] /\ zlen [97; 98; 99] < 2 ^ 64) /\
  sha512 [97; 98; 99] = Some (sha512_digest [97; 98; 99]).
Proof.
  assert (B : Forall byte [97; 98; 99]) by (repeat constructor; unfold byte; lia).
  split; [done|]. by apply sha512_correct.
Defined.
