(* ===== verification/Blake3.v ===== *)
(** * BLAKE3, single chunk (kernel/crypto/blake3.c)

    The incremental context buffers one block and compresses it only when more
    data arrives, because the last block takes other flags.  The theorem is that
    the digest does not depend on how the input was cut into updates and equals
    the chunk function of the BLAKE3 paper on the whole input. *)

From S2P Require Import Prelude.

Definition BLOCK_LEN : Z := 64.
Definition CHUNK_START : Z := 1.
Definition CHUNK_END : Z := 2.
Definition ROOT : Z := 8.

Definition IV : list Z :=
  [0x6A09E667; 0xBB67AE85; 0x3C6EF372; 0xA54FF53A; 0x510E527F; 0x9B05688C; 0x1F83D9AB; 0x5BE0CD19].

Definition MSG_PERMUTATION : list Z := [2; 6; 3; 10; 7; 0; 4; 13; 1; 11; 12; 5; 9; 14; 15; 8].

(** ** Compression *)

Definition rotr32 (x n : Z) : Z := Z.lor (Z.shiftr x n) (u32 (Z.shiftl x (32 - n))).

Definition g_function (s : list Z) (a b c d mx my : Z) : list Z :=
  let s := s.[a <- u32 (s.[a] + s.[b] + mx)] in
  let s := s.[d <- rotr32 (Z.lxor s.[d] s.[a]) 16] in
  let s := s.[c <- u32 (s.[c] + s.[d])] in
  let s := s.[b <- rotr32 (Z.lxor s.[b] s.[c]) 12] in
  let s := s.[a <- u32 (s.[a] + s.[b] + my)] in
  let s := s.[d <- rotr32 (Z.lxor s.[d] s.[a]) 8] in
  let s := s.[c <- u32 (s.[c] + s.[d])] in
  s.[b <- rotr32 (Z.lxor s.[b] s.[c]) 7].

Definition round_fn (s m : list Z) : list Z :=
  let s := g_function s 0 4 8 12 m.[0] m.[1] in
  let s := g_function s 1 5 9 13 m.[2] m.[3] in
  let s := g_function s 2 6 10 14 m.[4] m.[5] in
  let s := g_function s 3 7 11 15 m.[6] m.[7] in
  let s := g_function s 0 5 10 15 m.[8] m.[9] in
  let s := g_function s 1 6 11 12 m.[10] m.[11] in
  let s := g_function s 2 7 8 13 m.[12] m.[13] in
  g_function s 3 4 9 14 m.[14] m.[15].

Definition permute (m : list Z) : list Z :=
  let tmp := for_loop 16 0 (fun i tmp => tmp.[i <- m.[MSG_PERMUTATION.[i]]]) (replicate 16 0) in
  for_loop 16 0 (fun i m => m.[i <- tmp.[i]]) m.

(** The 16 output words. *)
Definition compress (chaining_value block_words : list Z) (counter block_len flags : Z) : list Z :=
  let state := replicate 16 0 in
  let state := for_loop 8 0 (fun i s => s.[i <- chaining_value.[i]]) state in
  let state := for_loop 4 0 (fun i s => s.[8 + i <- IV.[i]]) state in
  let state := state.[12 <- u32 counter] in
  let state := state.[13 <- u32 (Z.shiftr counter 32)] in
  let state := state.[14 <- block_len] in
  let state := state.[15 <- flags] in
  let block := for_loop 16 0 (fun i b => b.[i <- block_words.[i]]) (replicate 16 0) in
  let '(state, _) := for_loop 7 0 (fun _ '(s, b) => (round_fn s b, permute b)) (state, block) in
  for_loop 8 0 (fun i out =>
    let out := out.[i <- Z.lxor state.[i] state.[i + 8]] in
    out.[i + 8 <- Z.lxor state.[i + 8] chaining_value.[i]]) (replicate 16 0).

(** ** Incremental context *)

Record blake3_ctx := Blake3Ctx {
  chaining : list Z;      (* uint32_t chaining[8] *)
  pending : list Z;       (* uint8_t pending[64] *)
  pending_len : Z;
  started : bool
}.

(** [block_words] of the zero-padded first [n] bytes of [buf]. *)
Definition padded_words (buf : list Z) (n : Z) : list Z :=
  let padded_block := memcpy (replicate 64 0) 0 (take (Z.to_nat n) buf) in
  for_loop 16 0 (fun i w =>
    w.[i <- Z.lor (Z.lor (Z.lor padded_block.[i * 4 + 0] (Z.shiftl padded_block.[i * 4 + 1] 8))
                         (Z.shiftl padded_block.[i * 4 + 2] 16)) (Z.shiftl padded_block.[i * 4 + 3] 24)])
    (replicate 16 0).

Definition blake3_init (ctx : blake3_ctx) : blake3_ctx :=
  Blake3Ctx (for_loop 8 0 (fun i c => c.[i <- IV.[i]]) (chaining ctx)) (pending ctx) 0 false.

Definition blake3_compress_intermediate (ctx : blake3_ctx) : blake3_ctx :=
  let block_words := padded_words (pending ctx) (pending_len ctx) in
  let flags := if started ctx then 0 else CHUNK_START in
  let out16 := compress (chaining ctx) block_words 0 (pending_len ctx) flags in
  Blake3Ctx (for_loop 8 0 (fun i c => c.[i <- out16.[i]]) (chaining ctx)) (pending ctx) (pending_len ctx) true.

(** The [while (len > 0)] loop; [fuel] bounds its iterations. *)
Fixpoint update_loop (fuel : nat) (ctx : blake3_ctx) (data : list Z) (len : Z) : option blake3_ctx :=
  match fuel with
  | O => None
  | S fuel' =>
      if 0 <? len then
        let ctx :=
          if pending_len ctx =? BLOCK_LEN then
            let c := blake3_compress_intermediate ctx in
            Blake3Ctx (chaining c) (pending c) 0 (started c)
          else ctx in
        let space := BLOCK_LEN - pending_len ctx in
        let t := if len <? space then len else space in
        let ctx := Blake3Ctx (chaining ctx) (memcpy (pending ctx) (pending_len ctx) (take (Z.to_nat t) data))
                             (pending_len ctx + t) (started ctx) in
        update_loop fuel' ctx (drop (Z.to_nat t) data) (len - t)
      else Some ctx
  end.

Definition blake3_update (ctx : blake3_ctx) (data : list Z) : option blake3_ctx :=
  update_loop (S (length data)) ctx data (zlen data).

Definition blake3_final (ctx : blake3_ctx) : list Z :=
  let block_words := padded_words (pending ctx) (pending_len ctx) in
  let flags := Z.lor CHUNK_END ROOT in
  let flags := if negb (started ctx) then Z.lor flags CHUNK_START else flags in
  let out16 := compress (chaining ctx) block_words 0 (pending_len ctx) flags in
  for_loop 8 0 (fun i output =>
    let output := output.[i * 4 + 0 <- u8 out16.[i]] in
    let output := output.[i * 4 + 1 <- u8 (Z.shiftr out16.[i] 8)] in
    let output := output.[i * 4 + 2 <- u8 (Z.shiftr out16.[i] 16)] in
    output.[i * 4 + 3 <- u8 (Z.shiftr out16.[i] 24)]) (replicate 32 0).

(** [blake3_hash(input, len, output)]; [junk] is the uninitialised context. *)
Definition blake3_hash (junk : blake3_ctx) (input : list Z) : option (list Z) :=
  match blake3_update (blake3_init junk) input with
  | Some ctx => Some (blake3_final ctx)
  | None => None
  end.

(** ** Specification: the chunk function of the BLAKE3 paper, section 2.4 *)

(** A non-final block: 64 bytes, [CHUNK_START] on the first one. *)
Definition chain_step (s : list Z * bool) (block : list Z) : list Z * bool :=
  (take 8 (compress (fst s) (padded_words block 64) 0 64 (if snd s then 0 else CHUNK_START)), true).

Definition blake3_digest (m : list Z) : list Z :=
  let k := (Nat.pred (length m) / 64)%nat in
  let '(cv, st) := fold_blocks 64 chain_step k m (IV, false) in
  let last := drop (64 * k) m in
  let flags := Z.lor (Z.lor CHUNK_END ROOT) (if st then 0 else CHUNK_START) in
  concat (le_bytes 4 <$> take 8 (compress cv (padded_words last (zlen last)) 0 (zlen last) flags)).

Definition junk3 : blake3_ctx := Blake3Ctx (replicate 8 5) (replicate 64 6) 3 true.

(** The published digest of the empty input. *)
Example blake3_empty :
  blake3_hash junk3 [] = Some (be_bytes 32 0xaf1349b9f5f9a1a6a0404dea36dcc9499bcb25c9adc112b7cc9a93cae41f3262).
Proof. vm_compute. reflexivity. Qed.

(** ** Lemmas on the array loops *)

Lemma length_compress cv w c n f : length (compress cv w c n f) = 16%nat.
Proof.
  unfold compress. destruct (for_loop 7 _ _ _) as [s b].
  apply (for_loop_ind (fun _ out => length out = 16%nat) 8 0); [done|].
  intros j out _ Hl. unfold zset. by rewrite !length_insert.
Qed.

(** [for (i = 0; i < 8; i++) c[i] = out[i]]. *)
Lemma copy8 (c out : list Z) :
  zlen c = 8 -> 8 <= zlen out -> for_loop 8 0 (fun i c => c.[i <- out.[i]]) c = take 8 out.
Proof.
  intros Hc Ho. rewrite (fill_loop_from (fun i => out.[i])) by (change (Z.of_nat 8) with 8; lia).
  assert (L : zlen ((fun i => out.[i]) <$> seqZ 0 (Z.of_nat 8)) = 8) by (by rewrite zlen_fmap, zlen_seqZ).
  rewrite (memcpy_end c [] _ 0) by (done || lia). cbn [app].
  assert (Lt : zlen (take 8 out) = 8) by (unfold zlen in *; rewrite length_take; lia).
  apply list_eq_zget; [lia|]. rewrite L. intros i Hi. rewrite zget_fmap_seqZ by lia. unfold zget.
  rewrite lookup_total_take, decide_True by lia. done.
Qed.

Lemma padded_words_prefix buf q n :
  n = zlen q -> take (Z.to_nat n) buf = q -> padded_words buf n = padded_words q n.
Proof. intros -> Ht. unfold padded_words. rewrite Ht, take_ge; [done|unfold zlen; lia]. Qed.

(** The output loop stores the words in little-endian order. *)
Lemma store_words (out16 : list Z) :
  length out16 = 16%nat ->
  for_loop 8 0 (fun i output =>
    let output := output.[i * 4 + 0 <- u8 out16.[i]] in
    let output := output.[i * 4 + 1 <- u8 (Z.shiftr out16.[i] 8)] in
    let output := output.[i * 4 + 2 <- u8 (Z.shiftr out16.[i] 16)] in
    output.[i * 4 + 3 <- u8 (Z.shiftr out16.[i] 24)]) (replicate 32 0) =
  concat (le_bytes 4 <$> take 8 out16).
Proof.
  intros Hl. do 8 (destruct out16 as [|? out16]; [discriminate Hl|]). cbn [take].
  assert (E : forall x, le_bytes 4 x = [u8 x; u8 (Z.shiftr x 8); u8 (Z.shiftr x 16); u8 (Z.shiftr x 24)]).
  { intros x. rewrite le_bytes_shift. change (Z.of_nat 4) with 4. reflexivity. }
  cbn [fmap list_fmap concat]. rewrite !E. generalize u8. intros b8. reflexivity.
Qed.

(** ** Streaming invariant *)

(** [ctx] has absorbed [m]: [k] compressed blocks [p] and [q] pending, which is
    empty only before the first byte. *)
Definition absorbed3 (ctx : blake3_ctx) (m : list Z) : Prop :=
  exists k p q, m = p ++ q /\ length p = (64 * k)%nat /\ zlen q <= 64 /\ (k <> O -> 0 < zlen q) /\
    pending_len ctx = zlen q /\ zlen (pending ctx) = 64 /\ take (Z.to_nat (zlen q)) (pending ctx) = q /\
    zlen (chaining ctx) = 8 /\
    (chaining ctx, started ctx) = fold_blocks 64 chain_step k p (IV, false).

Lemma absorbed3_init junk :
  zlen (pending junk) = 64 -> zlen (chaining junk) = 8 -> absorbed3 (blake3_init junk) [].
Proof.
  intros Hp Hc. unfold blake3_init. rewrite copy8 by done.
  exists O, [], []. split_and!; done.
Qed.

(** Compressing a full pending block keeps the invariant, except that the
    pending block is then empty. *)
Lemma intermediate_step ctx k p q :
  length p = (64 * k)%nat -> zlen q = 64 -> pending_len ctx = 64 -> zlen (pending ctx) = 64 ->
  take (Z.to_nat (zlen q)) (pending ctx) = q -> zlen (chaining ctx) = 8 ->
  (chaining ctx, started ctx) = fold_blocks 64 chain_step k p (IV, false) ->
  let c := blake3_compress_intermediate ctx in
  zlen (chaining c) = 8 /\ pending c = pending ctx /\
  (chaining c, started c) = fold_blocks 64 chain_step (S k) (p ++ q) (IV, false).
Proof.
  intros Hp Hq Hn Hl Ht Hc Hf. unfold blake3_compress_intermediate. rewrite Hn. cbn [chaining pending started].
  set (out := compress _ _ _ _ _).
  assert (Lo : zlen out = 16) by (unfold zlen, out; rewrite length_compress; done).
  rewrite copy8 by lia. split; [unfold zlen in *; rewrite length_take; lia|]. split; [done|].
  rewrite fold_blocks_snoc by (unfold zlen in *; lia). rewrite <- Hf. unfold chain_step. cbn [fst snd].
  unfold out. rewrite (padded_words_prefix (pending ctx) q 64) by (rewrite <- ?Hq; done). done.
Qed.

(** One iteration of the loop absorbs [t] bytes. *)
Lemma update_iter (fuel : nat) ctx m data :
  absorbed3 ctx m -> data <> [] ->
  exists ctx' t, 0 < t <= zlen data /\ absorbed3 ctx' (m ++ take (Z.to_nat t) data) /\
    update_loop (S fuel) ctx data (zlen data) =
    update_loop fuel ctx' (drop (Z.to_nat t) data) (zlen (drop (Z.to_nat t) data)).
Proof.
  intros (k & p & q & -> & Hp & Hq & Hk & Hn & Hl & Ht & Hc & Hf) Hd.
  assert (Ld : 0 < zlen data) by (destruct data; [done|unfold zlen; simpl; lia]).
  pose proof (zlen_nonneg q). cbn [update_loop]. destruct (Z.ltb_spec 0 (zlen data)); [|lia]. rewrite Hn.
  assert (Lt : forall t, 0 <= t <= zlen data ->
    zlen (take (Z.to_nat t) data) = t /\ zlen (drop (Z.to_nat t) data) = zlen data - t).
  { intros t Htt. unfold zlen in *. rewrite length_take, length_drop. lia. }
  destruct (Z.eqb_spec (zlen q) BLOCK_LEN) as [E|E]; unfold BLOCK_LEN in *.
  - destruct (intermediate_step ctx k p q) as (C1 & C2 & C3); [done|done|congruence|done|done|done|done|].
    set (c := blake3_compress_intermediate ctx) in *. clearbody c.
    cbn [chaining pending pending_len started]. rewrite C2.
    set (t := if zlen data <? 64 - 0 then zlen data else 64 - 0).
    assert (Bt : 0 < t <= zlen data /\ t <= 64) by (unfold t; destruct (Z.ltb_spec (zlen data) (64 - 0)); lia).
    destruct (Lt t ltac:(lia)) as [L1 L2]. eexists _, t. split; [lia|]. split; [|by rewrite L2].
    exists (S k), (p ++ q), (take (Z.to_nat t) data). cbn [chaining pending pending_len started].
    destruct (push_buf (pending ctx) [] (take (Z.to_nat t) data) 0) as [T1 T2]; [done|lia|lia|].
    rewrite L1 in *. split; [by rewrite <- app_assoc|]. split; [rewrite length_app; unfold zlen in *; lia|].
    split_and!; try done; lia.
  - rewrite Hn. set (t := if zlen data <? 64 - zlen q then zlen data else 64 - zlen q).
    assert (Bt : 0 < t <= zlen data /\ zlen q + t <= 64) by (unfold t; destruct (Z.ltb_spec (zlen data) (64 - zlen q)); lia).
    destruct (Lt t ltac:(lia)) as [L1 L2]. eexists _, t. split; [lia|]. split; [|by rewrite L2].
    exists k, p, (q ++ take (Z.to_nat t) data). cbn [chaining pending pending_len started].
    destruct (push_buf (pending ctx) q (take (Z.to_nat t) data) (zlen q)) as [T1 T2]; [done|lia|lia|].
    rewrite zlen_app, L1 in *. split; [by rewrite <- app_assoc|]. split_and!; try done; lia.
Qed.

Lemma absorbed3_loop (fuel : nat) ctx m data :
  absorbed3 ctx m -> zlen data < Z.of_nat fuel ->
  exists ctx', update_loop fuel ctx data (zlen data) = Some ctx' /\ absorbed3 ctx' (m ++ data).
Proof.
  revert ctx m data. induction fuel as [|fuel IH]; intros ctx m data Ha Hf; [pose proof (zlen_nonneg data); lia|].
  destruct (decide (data = [])) as [->|Hd]; [exists ctx; by rewrite app_nil_r|].
  destruct (update_iter fuel ctx m data Ha Hd) as (ctx' & t & Bt & Ha' & ->).
  destruct (IH ctx' _ (drop (Z.to_nat t) data) Ha') as (c2 & -> & H2).
  - unfold zlen in *. rewrite length_drop. lia.
  - exists c2. split; [done|]. by rewrite <- app_assoc, take_drop in H2.
Qed.

Lemma absorbed3_update ctx m data :
  absorbed3 ctx m -> exists ctx', blake3_update ctx data = Some ctx' /\ absorbed3 ctx' (m ++ data).
Proof. intros Ha. apply absorbed3_loop; [done|]. unfold zlen. lia. Qed.

Lemma final_absorbed3 ctx m : absorbed3 ctx m -> blake3_final ctx = blake3_digest m.
Proof.
  intros (k & p & q & -> & Hp & Hq & Hk & Hn & Hl & Ht & Hc & Hf). pose proof (zlen_nonneg q).
  assert (Ek : (Nat.pred (length (p ++ q)) / 64 = k)%nat).
  { rewrite length_app, Hp. unfold zlen in *. destruct k as [|k].
    - apply Nat.div_small. lia.
    - symmetry. apply (Nat.div_unique _ 64 (S k) (Nat.pred (length q))); lia. }
  unfold blake3_final, blake3_digest. rewrite Ek, store_words by apply length_compress. rewrite Hn.
  assert (Ef : fold_blocks 64 chain_step k (p ++ q) (IV, false) = (chaining ctx, started ctx)).
  { rewrite Hf. rewrite <- (fold_blocks_take 64 chain_step k (length p) (p ++ q)) by done.
    by rewrite take_app_length. }
  rewrite Ef, <- Hp, drop_app_length, (padded_words_prefix (pending ctx) q) by done.
  by destruct (started ctx).
Qed.

(** The one-shot call, whatever the stack held. *)
Lemma blake3_hash_digest junk m :
  zlen (pending junk) = 64 -> zlen (chaining junk) = 8 -> blake3_hash junk m = Some (blake3_digest m).
Proof.
  intros Hp Hc. destruct (absorbed3_update (blake3_init junk) [] m) as (c & E & Ha); [by apply absorbed3_init|].
  unfold blake3_hash. by rewrite E, (final_absorbed3 c m).
Qed.

(** ** Properties *)

(** The incremental digest depends only on the bytes.  From any
    uninitialised context, initialisation and any sequence of updates, each of
    which terminates, followed by the final call give the single-chunk BLAKE3
    digest of the concatenated input: every block but the last chained with
    CHUNK_START on the first, the last one (up to 64 bytes, possibly none)
    compressed with CHUNK_END and ROOT. *)
Theorem blake3_streaming junk (chunks : list (list Z)) :
  zlen (pending junk) = 64 -> zlen (chaining junk) = 8 ->
  exists ctx, foldl (fun c d => c ≫= fun c => blake3_update c d) (Some (blake3_init junk)) chunks = Some ctx /\
    blake3_final ctx = blake3_digest (concat chunks).
Proof.
  intros Hp Hc. change (concat chunks) with ([] ++ concat chunks).
  pose proof (absorbed3_init junk Hp Hc) as Ha. revert Ha. generalize (blake3_init junk) (@nil Z).
  induction chunks as [|d ds IH]; intros ctx m Ha; cbn [foldl concat].
  - exists ctx. split; [done|]. rewrite app_nil_r. by apply final_absorbed3.
  - destruct (absorbed3_update ctx m d Ha) as (c' & E & Ha'). cbn [base.mbind option_bind]. rewrite E, app_assoc.
    by apply IH.
Qed.

Lemma blake3_streaming_witness :
  (zlen (pending junk3) = 64 /\ zlen (chaining junk3) = 8) /\
  exists ctx, foldl (fun c d => c ≫= fun c => blake3_update c d) (Some (blake3_init junk3)) [[1; 2]; [3]] = Some ctx /\
    blake3_final ctx = blake3_digest [1; 2; 3].
Proof. split; [done|]. by apply (blake3_streaming junk3 [[1; 2]; [3]]). Defined.
