(* ===== verification/Blake3Spec.v ===== *)
(** * BLAKE3 as specified, and what crypto/blake3.c computes of it

    The hash of the BLAKE3 paper, written over a state of four rows of words and
    sharing no definition with Blake3.v: the compression function, the chunks and
    the binary tree over them.  Inputs of one chunk, which is what blake3.c says
    it supports, are hashed as specified however they are cut into updates; one
    byte more and the digest is another one. *)

From S2P Require Import Prelude Sha256 Blake3.

(** ** Specification *)

(** The initial value: the one of SHA-256, from the roots of the first primes. *)
Definition b3_IV : list Z := fips_H0.

(** The flags of section 2.1. *)
Definition b3_flag_start : Z := 1.
Definition b3_flag_end : Z := 2.
Definition b3_flag_parent : Z := 4.
Definition b3_flag_root : Z := 8.

Definition b3_add (x y : Z) : Z := (x + y) mod 2 ^ 32.

(** The quarter round on one column. *)
Definition b3_G (a b c d mx my : Z) : Z * Z * Z * Z :=
  let a := b3_add (b3_add a b) mx in
  let d := rotr 16 (Z.lxor d a) in
  let c := b3_add c d in
  let b := rotr 12 (Z.lxor b c) in
  let a := b3_add (b3_add a b) my in
  let d := rotr 8 (Z.lxor d a) in
  let c := b3_add c d in
  let b := rotr 7 (Z.lxor b c) in
  (a, b, c, d).

(** A row of the state. *)
Definition row : Type := Z * Z * Z * Z.

Definition rot_row (r : row) : row := let '(x0, x1, x2, x3) := r in (x1, x2, x3, x0).

(** The quarter round on the four columns, with eight message words. *)
Definition b3_columns (rows : row * row * row * row) (m : list Z) : row * row * row * row :=
  let '(((a0, a1), a2, a3), ((b0, b1), b2, b3), ((c0, c1), c2, c3), ((d0, d1), d2, d3)) := rows in
  match m with
  | [m0; m1; m2; m3; m4; m5; m6; m7] =>
      let '(a0, b0, c0, d0) := b3_G a0 b0 c0 d0 m0 m1 in
      let '(a1, b1, c1, d1) := b3_G a1 b1 c1 d1 m2 m3 in
      let '(a2, b2, c2, d2) := b3_G a2 b2 c2 d2 m4 m5 in
      let '(a3, b3, c3, d3) := b3_G a3 b3 c3 d3 m6 m7 in
      ((a0, a1, a2, a3), (b0, b1, b2, b3), (c0, c1, c2, c3), (d0, d1, d2, d3))
  | _ => rows
  end.

(** A round: the columns, then the diagonals, by turning the rows. *)
Definition b3_round (rows : row * row * row * row) (m : list Z) : row * row * row * row :=
  let '(a, b, c, d) := b3_columns rows (take 8 m) in
  let '(a, b, c, d) := b3_columns (a, rot_row b, rot_row (rot_row c), rot_row (rot_row (rot_row d))) (drop 8 m) in
  (a, rot_row (rot_row (rot_row b)), rot_row (rot_row c), rot_row d).

Definition b3_permute (m : list Z) : list Z :=
  (fun i => m !!! i) <$> [2; 6; 3; 10; 7; 0; 4; 13; 1; 11; 12; 5; 9; 14; 15; 8]%nat.

Fixpoint b3_rounds (n : nat) (rows : row * row * row * row) (m : list Z) : row * row * row * row :=
  match n with
  | O => rows
  | S n' => b3_rounds n' (b3_round rows m) (b3_permute m)
  end.

Definition to_row (l : list Z) : row := (l !!! 0%nat, l !!! 1%nat, l !!! 2%nat, l !!! 3%nat).
Definition of_row (r : row) : list Z := let '(x0, x1, x2, x3) := r in [x0; x1; x2; x3].

(** The compression function: the new chaining value. *)
Definition b3_compress (cv m : list Z) (counter len flags : Z) : list Z :=
  let rows := (to_row cv, to_row (drop 4 cv), to_row b3_IV, (counter mod 2 ^ 32, counter / 2 ^ 32 mod 2 ^ 32, len, flags)) in
  let '(a, b, c, d) := b3_rounds 7 rows m in
  zip_with Z.lxor (of_row a ++ of_row b) (of_row c ++ of_row d).

(** The words of a block, padded with zeros. *)
Definition b3_words (block : list Z) : list Z :=
  (fun i => le_val (take 4 (drop (4 * i) (block ++ replicate (64 - length block) 0)))) <$> seq 0 16.

(** What is left to compress: the input of the last compression of a subtree. *)
Record b3_node := B3Node { n_cv : list Z; n_words : list Z; n_counter : Z; n_len : Z; n_flags : Z }.

Definition node_cv (n : b3_node) : list Z := b3_compress (n_cv n) (n_words n) (n_counter n) (n_len n) (n_flags n).

(** The blocks of a chunk: [CHUNK_START] on the first, [CHUNK_END] on the last. *)
Fixpoint b3_blocks (fuel : nat) (cv : list Z) (counter start : Z) (m : list Z) : b3_node :=
  match fuel with
  | O => B3Node cv (b3_words m) counter (zlen m) (start + b3_flag_end)
  | S fuel' =>
      if 64 <? zlen m then b3_blocks fuel' (b3_compress cv (b3_words (take 64 m)) counter 64 start) counter 0 (drop 64 m)
      else B3Node cv (b3_words m) counter (zlen m) (start + b3_flag_end)
  end.

Definition b3_chunk (counter : Z) (m : list Z) : b3_node := b3_blocks 16 b3_IV counter b3_flag_start m.

(** The tree: the left subtree holds the largest power of two of chunks that
    leaves at least one byte to the right. *)
Fixpoint b3_tree (fuel : nat) (counter : Z) (m : list Z) : b3_node :=
  match fuel with
  | O => b3_chunk counter m
  | S fuel' =>
      if zlen m <=? 1024 then b3_chunk counter m else
      let k := 2 ^ Z.log2 ((zlen m - 1) / 1024) in
      let l := b3_tree fuel' counter (take (Z.to_nat (1024 * k)) m) in
      let r := b3_tree fuel' (counter + k) (drop (Z.to_nat (1024 * k)) m) in
      B3Node b3_IV (node_cv l ++ node_cv r) 0 64 b3_flag_parent
  end.

(** The 32-byte hash: the root compressed with the flag [ROOT]. *)
Definition b3_hash (m : list Z) : list Z :=
  let n := b3_tree (length m) 0 m in
  concat (le_bytes 4 <$> b3_compress (n_cv n) (n_words n) (n_counter n) (n_len n) (n_flags n + b3_flag_root)).

(** ** The compression function of the code *)

(** The quarter round with the operations of the code. *)
Definition code_G (a b c d mx my : Z) : Z * Z * Z * Z :=
  let a := u32 (a + b + mx) in
  let d := rotr32 (Z.lxor d a) 16 in
  let c := u32 (c + d) in
  let b := rotr32 (Z.lxor b c) 12 in
  let a := u32 (a + b + my) in
  let d := rotr32 (Z.lxor d a) 8 in
  let c := u32 (c + d) in
  let b := rotr32 (Z.lxor b c) 7 in
  (a, b, c, d).

Lemma word_bits x : 0 <= x -> (forall i, 32 <= i -> Z.testbit x i = false) -> word x.
Proof.
  intros Hx Hb. split; [done|]. destruct (decide (x = 0)) as [->|]; [lia|]. apply Z.log2_lt_pow2; [lia|].
  destruct (Z.lt_ge_cases (Z.log2 x) 32) as [|G]; [done|]. specialize (Hb _ G). rewrite Z.bit_log2 in Hb by lia. done.
Qed.

Lemma lxor_word x y : word x -> word y -> word (Z.lxor x y).
Proof.
  unfold word at 1 2. intros Hx Hy. apply word_bits; [apply Z.lxor_nonneg; lia|].
  intros i Hi. rewrite Z.lxor_spec, (small_bits x 32), (small_bits y 32) by lia. done.
Qed.

Lemma rotr_word n x : word x -> 0 < n < 32 -> word (rotr n x).
Proof.
  unfold word, rotr. intros Hx Hn. assert (P : 2 ^ 32 = 2 ^ n * 2 ^ (32 - n)) by (rewrite <- Z.pow_add_r by lia; f_equal; lia).
  pose proof (Z.pow_pos_nonneg 2 n ltac:(lia) ltac:(lia)) as P1. pose proof (Z.pow_pos_nonneg 2 (32 - n) ltac:(lia) ltac:(lia)) as P2.
  assert (0 <= x / 2 ^ n < 2 ^ (32 - n)) by (split; [apply Z.div_pos; lia|apply Z.div_lt_upper_bound; lia]).
  pose proof (Z.mod_pos_bound x (2 ^ n) ltac:(lia)). nia.
Qed.

Create HintDb words.
#[local] Hint Resolve lxor_word rotr_word mod_word : words.

Definition words4 (r : row) : Prop := let '(a, b, c, d) := r in word a /\ word b /\ word c /\ word d.

Lemma code_G_spec a b c d mx my : word a -> word b -> word c -> word d -> code_G a b c d mx my = b3_G a b c d mx my /\ words4 (b3_G a b c d mx my).
Proof.
  intros Ha Hb Hc Hd. unfold code_G, b3_G. cbv zeta. change rotr32 with ROTRIGHT.
  assert (A : forall x y z, b3_add (b3_add x y) z = (x + y + z) mod 2 ^ 32) by (intros; unfold b3_add; apply Zplus_mod_idemp_l).
  rewrite !(A _ _ mx), !(A _ _ my). unfold u32, b3_add. clear A.
  set (a1 := (a + b + mx) mod 2 ^ 32). assert (Ha1 : word a1) by apply mod_word. clearbody a1.
  assert (X1 : word (Z.lxor d a1)) by auto with words. rewrite (ROTRIGHT_rotr _ 16 X1 ltac:(lia)).
  pose proof (rotr_word 16 _ X1 ltac:(lia)) as Hd1. set (d1 := rotr 16 (Z.lxor d a1)) in *. clearbody d1.
  set (c1 := (c + d1) mod 2 ^ 32). assert (Hc1 : word c1) by apply mod_word. clearbody c1.
  assert (X2 : word (Z.lxor b c1)) by auto with words. rewrite (ROTRIGHT_rotr _ 12 X2 ltac:(lia)).
  pose proof (rotr_word 12 _ X2 ltac:(lia)) as Hb1. set (b1 := rotr 12 (Z.lxor b c1)) in *. clearbody b1.
  set (a2 := (a1 + b1 + my) mod 2 ^ 32). assert (Ha2 : word a2) by apply mod_word. clearbody a2.
  assert (X3 : word (Z.lxor d1 a2)) by auto with words. rewrite (ROTRIGHT_rotr _ 8 X3 ltac:(lia)).
  pose proof (rotr_word 8 _ X3 ltac:(lia)) as Hd2. set (d2 := rotr 8 (Z.lxor d1 a2)) in *. clearbody d2.
  set (c2 := (c1 + d2) mod 2 ^ 32). assert (Hc2 : word c2) by apply mod_word. clearbody c2.
  assert (X4 : word (Z.lxor b1 c2)) by auto with words. rewrite (ROTRIGHT_rotr _ 7 X4 ltac:(lia)).
  split; [done|]. split_and!; [done| |done|done]. apply rotr_word; [done|lia].
Qed.

(** The state of sixteen words as four rows. *)
Definition flat (rows : row * row * row * row) : list Z := let '(a, b, c, d) := rows in of_row a ++ of_row b ++ of_row c ++ of_row d.

Definition words16 (rows : row * row * row * row) : Prop := let '(a, b, c, d) := rows in words4 a /\ words4 b /\ words4 c /\ words4 d.

(** [g_function] on the columns and on the diagonals. *)
Section Quarter.

#[local] Opaque rotr32 u32 Z.lxor Z.add.

Context (a0 a1 a2 a3 b0 b1 b2 b3 c0 c1 c2 c3 d0 d1 d2 d3 mx my : Z).

#[local] Abbreviation st := [a0; a1; a2; a3; b0; b1; b2; b3; c0; c1; c2; c3; d0; d1; d2; d3].

Lemma g_column0 : g_function st 0 4 8 12 mx my = let '(a0, b0, c0, d0) := code_G a0 b0 c0 d0 mx my in [a0; a1; a2; a3; b0; b1; b2; b3; c0; c1; c2; c3; d0; d1; d2; d3].
Proof. reflexivity. Qed.
Lemma g_column1 : g_function st 1 5 9 13 mx my = let '(a1, b1, c1, d1) := code_G a1 b1 c1 d1 mx my in [a0; a1; a2; a3; b0; b1; b2; b3; c0; c1; c2; c3; d0; d1; d2; d3].
Proof. reflexivity. Qed.
Lemma g_column2 : g_function st 2 6 10 14 mx my = let '(a2, b2, c2, d2) := code_G a2 b2 c2 d2 mx my in [a0; a1; a2; a3; b0; b1; b2; b3; c0; c1; c2; c3; d0; d1; d2; d3].
Proof. reflexivity. Qed.
Lemma g_column3 : g_function st 3 7 11 15 mx my = let '(a3, b3, c3, d3) := code_G a3 b3 c3 d3 mx my in [a0; a1; a2; a3; b0; b1; b2; b3; c0; c1; c2; c3; d0; d1; d2; d3].
Proof. reflexivity. Qed.
Lemma g_diag0 : g_function st 0 5 10 15 mx my = let '(a0, b1, c2, d3) := code_G a0 b1 c2 d3 mx my in [a0; a1; a2; a3; b0; b1; b2; b3; c0; c1; c2; c3; d0; d1; d2; d3].
Proof. reflexivity. Qed.
Lemma g_diag1 : g_function st 1 6 11 12 mx my = let '(a1, b2, c3, d0) := code_G a1 b2 c3 d0 mx my in [a0; a1; a2; a3; b0; b1; b2; b3; c0; c1; c2; c3; d0; d1; d2; d3].
Proof. reflexivity. Qed.
Lemma g_diag2 : g_function st 2 7 8 13 mx my = let '(a2, b3, c0, d1) := code_G a2 b3 c0 d1 mx my in [a0; a1; a2; a3; b0; b1; b2; b3; c0; c1; c2; c3; d0; d1; d2; d3].
Proof. reflexivity. Qed.
Lemma g_diag3 : g_function st 3 4 9 14 mx my = let '(a3, b0, c1, d2) := code_G a3 b0 c1 d2 mx my in [a0; a1; a2; a3; b0; b1; b2; b3; c0; c1; c2; c3; d0; d1; d2; d3].
Proof. reflexivity. Qed.

End Quarter.

(** One quarter round of the code is one of the specification. *)
Ltac quarter L :=
  rewrite L;
  match goal with
  | |- context [code_G ?a ?b ?c ?d ?mx ?my] =>
      let E := fresh "E" in let W := fresh "W" in
      destruct (code_G_spec a b c d mx my) as [E W]; [done..|]; rewrite E; clear E;
      destruct (b3_G a b c d mx my) as [[[? ?] ?] ?]; destruct W as (? & ? & ? & ?)
  end.

Lemma round_fn_spec rows m : words16 rows -> length m = 16%nat -> round_fn (flat rows) m = flat (b3_round rows m) /\ words16 (b3_round rows m).
Proof.
  intros W Hm. destruct rows as [[[[[[a0 a1] a2] a3] [[[b0 b1] b2] b3]] [[[c0 c1] c2] c3]] [[[d0 d1] d2] d3]].
  destruct W as ((? & ? & ? & ?) & (? & ? & ? & ?) & (? & ? & ? & ?) & (? & ? & ? & ?)).
  destruct m as [|m0 [|m1 [|m2 [|m3 [|m4 [|m5 [|m6 [|m7 [|m8 [|m9 [|m10 [|m11 [|m12 [|m13 [|m14 [|m15 [|]]]]]]]]]]]]]]]]]; try discriminate Hm.
  unfold round_fn, b3_round. cbn [take drop b3_columns flat of_row app]. cbv zeta.
  change ([m0; m1; m2; m3; m4; m5; m6; m7; m8; m9; m10; m11; m12; m13; m14; m15].[0]) with m0.
  change ([m0; m1; m2; m3; m4; m5; m6; m7; m8; m9; m10; m11; m12; m13; m14; m15].[1]) with m1.
  change ([m0; m1; m2; m3; m4; m5; m6; m7; m8; m9; m10; m11; m12; m13; m14; m15].[2]) with m2.
  change ([m0; m1; m2; m3; m4; m5; m6; m7; m8; m9; m10; m11; m12; m13; m14; m15].[3]) with m3.
  change ([m0; m1; m2; m3; m4; m5; m6; m7; m8; m9; m10; m11; m12; m13; m14; m15].[4]) with m4.
  change ([m0; m1; m2; m3; m4; m5; m6; m7; m8; m9; m10; m11; m12; m13; m14; m15].[5]) with m5.
  change ([m0; m1; m2; m3; m4; m5; m6; m7; m8; m9; m10; m11; m12; m13; m14; m15].[6]) with m6.
  change ([m0; m1; m2; m3; m4; m5; m6; m7; m8; m9; m10; m11; m12; m13; m14; m15].[7]) with m7.
  change ([m0; m1; m2; m3; m4; m5; m6; m7; m8; m9; m10; m11; m12; m13; m14; m15].[8]) with m8.
  change ([m0; m1; m2; m3; m4; m5; m6; m7; m8; m9; m10; m11; m12; m13; m14; m15].[9]) with m9.
  change ([m0; m1; m2; m3; m4; m5; m6; m7; m8; m9; m10; m11; m12; m13; m14; m15].[10]) with m10.
  change ([m0; m1; m2; m3; m4; m5; m6; m7; m8; m9; m10; m11; m12; m13; m14; m15].[11]) with m11.
  change ([m0; m1; m2; m3; m4; m5; m6; m7; m8; m9; m10; m11; m12; m13; m14; m15].[12]) with m12.
  change ([m0; m1; m2; m3; m4; m5; m6; m7; m8; m9; m10; m11; m12; m13; m14; m15].[13]) with m13.
  change ([m0; m1; m2; m3; m4; m5; m6; m7; m8; m9; m10; m11; m12; m13; m14; m15].[14]) with m14.
  change ([m0; m1; m2; m3; m4; m5; m6; m7; m8; m9; m10; m11; m12; m13; m14; m15].[15]) with m15.
  quarter g_column0. quarter g_column1. quarter g_column2. quarter g_column3. cbn [rot_row b3_columns].
  quarter g_diag0. quarter g_diag1. quarter g_diag2. quarter g_diag3. cbn [rot_row of_row app]. done.
Qed.

Lemma permute_spec m : length m = 16%nat -> permute m = b3_permute m.
Proof.
  intros Hm. destruct m as [|m0 [|m1 [|m2 [|m3 [|m4 [|m5 [|m6 [|m7 [|m8 [|m9 [|m10 [|m11 [|m12 [|m13 [|m14 [|m15 [|]]]]]]]]]]]]]]]]]; try discriminate Hm.
  reflexivity.
Qed.

Lemma rounds_spec n i rows m : words16 rows -> length m = 16%nat ->
  (for_loop n i (fun _ '(s, b) => (round_fn s b, permute b)) (flat rows, m)).1 = flat (b3_rounds n rows m) /\ words16 (b3_rounds n rows m).
Proof.
  revert i rows m. induction n as [|n IH]; intros i rows m W Hm; [done|]. cbn [for_loop b3_rounds].
  destruct (round_fn_spec rows m W Hm) as [-> W']. rewrite permute_spec by done. by apply IH.
Qed.

(** The first eight output words, from a chaining value and a block of words. *)
Lemma compress_spec cv m counter len flags :
  length cv = 8%nat -> Forall word cv -> length m = 16%nat -> word len -> word flags ->
  take 8 (compress cv m counter len flags) = b3_compress cv m counter len flags /\ Forall word (b3_compress cv m counter len flags).
Proof.
  intros Hc Fc Hm Hl Hf. destruct cv as [|v0 [|v1 [|v2 [|v3 [|v4 [|v5 [|v6 [|v7 [|]]]]]]]]]; try discriminate Hc.
  do 8 apply Forall_cons in Fc as [? Fc].
  set (rows := (to_row [v0; v1; v2; v3; v4; v5; v6; v7], to_row (drop 4 [v0; v1; v2; v3; v4; v5; v6; v7]), to_row b3_IV, (counter mod 2 ^ 32, counter / 2 ^ 32 mod 2 ^ 32, len, flags))).
  assert (W : words16 rows).
  { assert (WI : words4 (to_row b3_IV)) by (unfold b3_IV; rewrite (proj2 fips_constants); split_and!; unfold word; cbn; lia).
    refine (conj _ (conj _ (conj WI _))); [done|done|]. split_and!; [apply mod_word|apply mod_word|done|done]. }
  assert (E : compress [v0; v1; v2; v3; v4; v5; v6; v7] m counter len flags =
    let state := (for_loop 7 0 (fun _ '(s, b) => (round_fn s b, permute b)) (flat rows, m)).1 in
    for_loop 8 0 (fun i out =>
      let out := out.[i <- Z.lxor state.[i] state.[i + 8]] in
      out.[i + 8 <- Z.lxor state.[i + 8] [v0; v1; v2; v3; v4; v5; v6; v7].[i]]) (replicate 16 0)).
  { unfold compress. cbv zeta.
    assert (Em : for_loop 16 0 (fun i b => b.[i <- m.[i]]) (replicate 16 0) = m).
    { destruct m as [|m0 [|m1 [|m2 [|m3 [|m4 [|m5 [|m6 [|m7 [|m8 [|m9 [|m10 [|m11 [|m12 [|m13 [|m14 [|m15 [|]]]]]]]]]]]]]]]]]; try discriminate Hm. reflexivity. }
    rewrite Em. replace (flat rows) with (for_loop 4 0 (fun i s => s.[8 + i <- IV.[i]]) (for_loop 8 0 (fun i s => s.[i <- [v0; v1; v2; v3; v4; v5; v6; v7].[i]]) (replicate 16 0))
      .[12 <- u32 counter].[13 <- u32 (Z.shiftr counter 32)].[14 <- len].[15 <- flags]).
    - by destruct (for_loop 7 0 _ _) as [s b].
    - unfold rows, b3_IV. rewrite (proj2 fips_constants). rewrite shiftr_div by lia. reflexivity. }
  rewrite E. clear E. destruct (rounds_spec 7 0 rows m W Hm) as [-> W']. unfold b3_compress. fold rows. cbv zeta.
  destruct (b3_rounds 7 rows m) as [[[[[[a0 a1] a2] a3] [[[b0 b1] b2] b3]] [[[c0 c1] c2] c3]] [[[d0 d1] d2] d3]].
  destruct W' as ((? & ? & ? & ?) & (? & ? & ? & ?) & (? & ? & ? & ?) & (? & ? & ? & ?)). split; [reflexivity|].
  cbn [of_row app zip_with]. repeat (constructor; [by apply lxor_word|]). done.
Qed.

(** ** Blocks and chunks *)

Lemma padded_words_spec q : Forall byte q -> zlen q <= 64 -> padded_words q (zlen q) = b3_words q.
Proof.
  intros F Hq. unfold padded_words. cbv zeta. rewrite take_ge by (unfold zlen; lia).
  set (p := memcpy (replicate 64 0) 0 q).
  assert (Ep : p = q ++ replicate (64 - length q) 0).
  { unfold p, memcpy. change (Z.to_nat 0) with O. rewrite take_0, app_nil_l. f_equal. by rewrite Nat.add_0_l, drop_replicate. }
  assert (Lp : zlen p = 64) by (rewrite Ep; unfold zlen in *; rewrite length_app, length_replicate; lia).
  assert (Fp : Forall byte p) by (rewrite Ep; apply Forall_app; split; [done|apply Forall_replicate; unfold byte; lia]).
  unfold b3_words. rewrite <- Ep. clearbody p. rewrite fill_loop_from by (unfold zlen; rewrite ?length_replicate; lia).
  unfold memcpy. change (Z.to_nat 0) with O. rewrite take_0, app_nil_l, drop_ge, app_nil_r by (rewrite length_fmap, length_seqZ, length_replicate; lia).
  apply list_eq_zget; [by rewrite !zlen_fmap|]. rewrite zlen_fmap, zlen_seqZ by lia. intros i Hi. rewrite zget_fmap_seqZ by lia.
  rewrite !Z.add_0_l, Z.add_0_r, (Z.mul_comm i 4), le32_at by (done || lia). unfold le_at. symmetry. unfold zget. apply list_lookup_total_correct.
  rewrite list_lookup_fmap, lookup_seq_lt by lia. cbn [fmap option_fmap option_map]. by replace (4 * (0 + Z.to_nat i))%nat with (Z.to_nat (4 * i)) by lia.
Qed.

Lemma chain_step_spec cv st b : length cv = 8%nat -> Forall word cv -> Forall byte b -> zlen b = 64 ->
  chain_step (cv, st) b = (b3_compress cv (b3_words b) 0 64 (if st then 0 else b3_flag_start), true).
Proof.
  intros Hc Fc Fb Hb. unfold chain_step. cbn [fst snd]. f_equal. pose proof (padded_words_spec b Fb) as E. rewrite Hb in E. rewrite E by lia.
  apply compress_spec; [done|done|done|unfold word; lia|unfold word, CHUNK_START, b3_flag_start; destruct st; lia].
Qed.

Lemma length_b3_compress cv m c n f : length (b3_compress cv m c n f) = 8%nat.
Proof. unfold b3_compress. by destruct (b3_rounds 7 _ m) as [[[[[[? ?] ?] ?] [[[? ?] ?] ?]] [[[? ?] ?] ?]] [[[? ?] ?] ?]]. Qed.

(** The blocks but the last, and what is left for the last. *)
Lemma blocks_spec k fuel cv st m : k = (Nat.pred (length m) / 64)%nat -> (k <= fuel)%nat -> length cv = 8%nat -> Forall word cv -> Forall byte m ->
  let '(cv', st') := fold_blocks 64 chain_step k m (cv, st) in
  let last := drop (64 * k) m in
  b3_blocks fuel cv 0 (if st then 0 else b3_flag_start) m = B3Node cv' (b3_words last) 0 (zlen last) ((if st' then 0 else b3_flag_start) + b3_flag_end) /\
  length cv' = 8%nat /\ Forall word cv' /\ zlen last <= 64.
Proof.
  revert fuel cv st m. induction k as [|k IH]; intros fuel cv st m Hk Hf Hc Fc Fm.
  - symmetry in Hk. apply Nat.div_small_iff in Hk; [|lia]. cbn [fold_blocks]. cbv zeta. rewrite Nat.mul_0_r, drop_0. split_and!; [|done|done|unfold zlen; lia].
    destruct fuel; cbn [b3_blocks]; [done|]. destruct (Z.ltb_spec 64 (zlen m)); [unfold zlen in *; lia|done].
  - destruct fuel as [|fuel]; [lia|]. rewrite fold_blocks_S.
    assert (Hm : (64 < length m)%nat). { pose proof (Nat.div_mod_eq (Nat.pred (length m)) 64). lia. }
    assert (L64 : zlen (take 64 m) = 64) by (unfold zlen; rewrite length_take; lia).
    rewrite (chain_step_spec cv st (take 64 m) Hc Fc) by (by apply Forall_take || done). cbn [b3_blocks].
    destruct (Z.ltb_spec 64 (zlen m)) as [_|]; [|unfold zlen in *; lia].
    replace (64 * S k)%nat with (64 + 64 * k)%nat by lia. rewrite <- drop_drop.
    apply (IH fuel (b3_compress cv (b3_words (take 64 m)) 0 64 (if st then 0 else b3_flag_start)) true (drop 64 m)).
    + rewrite length_drop. replace (Nat.pred (length m)) with (Nat.pred (length m - 64) + 1 * 64)%nat in Hk by lia. rewrite Nat.div_add in Hk by lia. lia.
    + lia.
    + apply length_b3_compress.
    + apply compress_spec; [done|done|done|unfold word; lia|unfold word, CHUNK_START, b3_flag_start; destruct st; lia].
    + by apply Forall_drop.
Qed.

(** One chunk: the digest of the code is the hash. *)
Lemma digest_spec m : Forall byte m -> zlen m <= 1024 -> blake3_digest m = b3_hash m.
Proof.
  intros Fm Hm. unfold blake3_digest, b3_hash. set (k := (Nat.pred (length m) / 64)%nat).
  assert (Hk : (k <= 16)%nat). { unfold k. transitivity (1024 / 64)%nat; [apply Nat.Div0.div_le_mono; unfold zlen in Hm; lia|done]. }
  assert (Et : b3_tree (length m) 0 m = b3_chunk 0 m).
  { destruct (length m); cbn [b3_tree]; [done|]. destruct (Z.leb_spec (zlen m) 1024); [done|lia]. }
  assert (FI : length b3_IV = 8%nat /\ Forall word b3_IV).
  { unfold b3_IV. rewrite (proj2 fips_constants). split; [done|]. repeat (constructor; [unfold word; lia|]). done. }
  destruct FI as [LI FI]. rewrite Et. unfold b3_chunk. pose proof (blocks_spec k 16 b3_IV false m eq_refl Hk LI FI Fm) as B.
  assert (EI : IV = b3_IV) by (unfold b3_IV; by rewrite (proj2 fips_constants)). rewrite EI. clear EI.
  destruct (fold_blocks 64 chain_step k m (b3_IV, false)) as [cv st]. cbv zeta in B. destruct B as (-> & Lc & Fc & Ll). cbn [n_cv n_words n_counter n_len n_flags].
  cbv zeta. set (last := drop (64 * k) m) in *. rewrite padded_words_spec by (unfold last; (by apply Forall_drop) || done).
  replace (Z.lor (Z.lor CHUNK_END ROOT) (if st then 0 else CHUNK_START)) with ((if st then 0 else b3_flag_start) + b3_flag_end + b3_flag_root) by (by destruct st).
  f_equal. f_equal. apply compress_spec; [done|done|done| |unfold word, b3_flag_start, b3_flag_end, b3_flag_root; destruct st; lia].
  pose proof (zlen_nonneg last). unfold word. lia.
Qed.

(** ** Properties *)

(** C11: the incremental hash of blake3.c is BLAKE3 on inputs of up to one chunk.
    From any uninitialised context, initialisation and any sequence of updates,
    each of which terminates, followed by the final call give the 32-byte BLAKE3
    hash of the concatenated input, up to the 1024 bytes the file says it
    supports.  The specification shares nothing with the code, so the constants,
    the quarter round, the order of the message words and the flags are checked
    with the buffering. *)
Theorem blake3_correct junk (chunks : list (list Z)) :
  zlen (pending junk) = 64 -> zlen (chaining junk) = 8 -> Forall byte (concat chunks) -> zlen (concat chunks) <= 1024 ->
  exists ctx, foldl (fun c d => c ≫= fun c => blake3_update c d) (Some (blake3_init junk)) chunks = Some ctx /\
    blake3_final ctx = b3_hash (concat chunks).
Proof.
  intros Hp Hc F Hl. destruct (blake3_streaming junk chunks Hp Hc) as (ctx & E & D). exists ctx. split; [done|].
  by rewrite D, digest_spec.
Qed.

Lemma blake3_correct_witness :
  (zlen (pending junk3) = 64 /\ zlen (chaining junk3) = 8 /\ Forall byte (concat [[1; 2]; [3]]) /\ zlen (concat [[1; 2]; [3]]) <= 1024) /\
  exists ctx, foldl (fun c d => c ≫= fun c => blake3_update c d) (Some (blake3_init junk3)) [[1; 2]; [3]] = Some ctx /\
    blake3_final ctx = b3_hash [1; 2; 3].
Proof.
  assert (B : Forall byte (concat [[1; 2]; [3]])) by (repeat constructor; unfold byte; lia).
  assert (L : zlen (concat [[1; 2]; [3]]) <= 1024) by done.
  split; [done|]. exact (blake3_correct junk3 [[1; 2]; [3]] eq_refl eq_refl B L).
Defined.

(** The published hash of the empty input, from the specification. *)
Example b3_hash_empty : b3_hash [] = be_bytes 32 0xaf1349b9f5f9a1a6a0404dea36dcc9499bcb25c9adc112b7cc9a93cae41f3262.
Proof. vm_compute. reflexivity. Qed.

(** One byte more than a chunk: the code goes on with the same chunk where BLAKE3
    starts a second one and hashes the two as a tree. *)
Example second_chunk_differs :
  bool_decide (blake3_hash junk3 (replicate 1025 0) = Some (b3_hash (replicate 1025 0))) = false.
Proof. vm_compute. reflexivity. Qed.
