(* ===== verification/Capability.v ===== *)
(** * Capability tokens and the broker (kernel/cap/capability.c, kernel/cap/broker.c)

    A token is 128 bits: the resource and the rights in [upper], and in [lower]
    the first 64 bits of BLAKE3 over [upper], the holder's pid and the kernel
    secret.  The revocation table is an array on the kernel heap that doubles
    when it is full.  The heap is used through the class [Allocator]; the kernel
    allocator is one instance. *)

From S2P Require Import Prelude AuditRing Kmalloc Blake3.

(** ** Data *)

Definition REVOKE_TABLE_INITIAL_CAPACITY : Z := 256.
Definition REVOKE_TABLE_MAX_CAPACITY : Z := 65536.
Definition SIZEOF_REVOKE_ENTRY : Z := 16.

Inductive cap_resource :=
  | CAP_RES_FILE | CAP_RES_MEMORY | CAP_RES_PROCESS | CAP_RES_DEVICE | CAP_RES_NETWORK | CAP_RES_KERNEL.

Definition res_val (r : cap_resource) : Z :=
  match r with
  | CAP_RES_FILE => 0 | CAP_RES_MEMORY => 1 | CAP_RES_PROCESS => 2
  | CAP_RES_DEVICE => 3 | CAP_RES_NETWORK => 4 | CAP_RES_KERNEL => 5
  end.

Definition CAP_RIGHT_DELEGATE : Z := Z.shiftl 1 4.
Definition CAP_RIGHT_REVOKE : Z := Z.shiftl 1 5.
Definition CAP_RIGHT_AUDIT : Z := Z.shiftl 1 13.

Record cap_token := mk_tok { tk_upper : Z; tk_lower : Z }.

#[export] Instance cap_token_eq_dec : EqDecision cap_token.
Proof. solve_decision. Defined.
#[export] Instance cap_token_inhabited : Inhabited cap_token := populate (mk_tok 0 0).

Definition CAP_NULL : cap_token := mk_tok 0 0.

Definition is_null (t : cap_token) : bool := (tk_upper t =? 0) && (tk_lower t =? 0).

Definition tok_eqb (a b : cap_token) : bool :=
  (tk_upper a =? tk_upper b) && (tk_lower a =? tk_lower b).

(** The file's globals, with the audit ring and the heap it calls into; a
    revocation entry has the fields of a token. *)
Record cap_state (H : Type) := mk_cap {
  g_revoke_table : Z;                  (* pointer, 0 = NULL *)
  revoke_entries : list cap_token;     (* the array it points to *)
  g_revoke_count : Z;
  g_revoke_capacity : Z;
  g_kernel_secret : list Z;
  cs_audit : audit_state;
  cs_heap : H
}.
Arguments mk_cap {H}.
Arguments g_revoke_table {H}.
Arguments revoke_entries {H}.
Arguments g_revoke_count {H}.
Arguments g_revoke_capacity {H}.
Arguments g_kernel_secret {H}.
Arguments cs_audit {H}.
Arguments cs_heap {H}.

(** The contents of the stack frame that [blake3_hash] starts from. *)
Definition stack_ctx : blake3_ctx := Blake3Ctx (replicate 8 0) (replicate 64 0) 0 false.

(** ** Operations *)

Section Ops.
Context {H : Type} `{Allocator H}.

Definition record_cap (ev : audit_event) (pid a0 a1 : Z) (st : cap_state H) : cap_state H :=
  mk_cap (g_revoke_table st) (revoke_entries st) (g_revoke_count st) (g_revoke_capacity st)
         (g_kernel_secret st) (audit_record ev pid a0 a1 (cs_audit st)) (cs_heap st).

Definition revoke_table_ensure_capacity (st : cap_state H) : bool * cap_state H :=
  if g_revoke_count st <? g_revoke_capacity st then (true, st) else
  if REVOKE_TABLE_MAX_CAPACITY <=? g_revoke_capacity st then (false, st) else
  let new_capacity := if g_revoke_capacity st =? 0 then REVOKE_TABLE_INITIAL_CAPACITY
                      else u32 (g_revoke_capacity st * 2) in
  let new_capacity := if REVOKE_TABLE_MAX_CAPACITY <? new_capacity then REVOKE_TABLE_MAX_CAPACITY
                      else new_capacity in
  let '(new_table, hp) := al_alloc (SIZEOF_REVOKE_ENTRY * new_capacity) (cs_heap st) in
  if new_table =? 0
  then (false, mk_cap (g_revoke_table st) (revoke_entries st) (g_revoke_count st) (g_revoke_capacity st)
                      (g_kernel_secret st) (cs_audit st) hp)
  else
    (* the new memory is not initialised: [inhabitant] stands for its contents *)
    let fresh := replicate (Z.to_nat new_capacity) inhabitant in
    let '(entries, hp) :=
      if negb (g_revoke_table st =? 0)
      then (memcpy fresh 0 (take (Z.to_nat (g_revoke_count st)) (revoke_entries st)),
            al_free (g_revoke_table st) hp)
      else (fresh, hp) in
    (true, mk_cap new_table entries (g_revoke_count st) new_capacity (g_kernel_secret st) (cs_audit st) hp).

(** [rs] are the four values [rdrand64()] returns. *)
Definition cap_subsystem_init (rs : list Z) (st : cap_state H) : cap_state H :=
  let secret := for_loop 4 0 (fun i s => memcpy s (i * 8) (le_bytes 8 rs.[i])) (g_kernel_secret st) in
  let hp := if negb (g_revoke_table st =? 0) then al_free (g_revoke_table st) (cs_heap st) else cs_heap st in
  mk_cap 0 [] 0 0 secret (cs_audit st) hp.

Definition build_lower (st : cap_state H) (upper pid : Z) : Z :=
  let buf := replicate 44 0 in
  let buf := memcpy buf 0 (le_bytes 8 upper) in
  let buf := memcpy buf 8 (le_bytes 4 pid) in
  let buf := memcpy buf 12 (g_kernel_secret st) in
  let digest := default [] (blake3_hash stack_ctx buf) in
  le_val (take 8 digest).

Definition cap_create (res res_id rights owner_pid : Z) (st : cap_state H) : cap_token * cap_state H :=
  let upper := Z.lor (Z.lor (u64 (Z.shiftl (Z.land res 0xFFFF) 48)) (u64 (Z.shiftl res_id 16)))
                     (Z.land rights 0xFFFF) in
  let lower := build_lower st upper owner_pid in
  (mk_tok upper lower, record_cap AUDIT_CAP_CREATE owner_pid upper lower st).

(** [for (i = 0; i < g_revoke_count; i++) if (g_revoke_table[i] == token) ...] *)
Definition in_revoke_table (st : cap_state H) (t : cap_token) : bool :=
  existsb (fun e => tok_eqb e t) (take (Z.to_nat (g_revoke_count st)) (revoke_entries st)).

Definition cap_validate (token : cap_token) (pid required_rights : Z) (st : cap_state H)
    : bool * cap_state H :=
  if is_null token then (false, record_cap AUDIT_CAP_DENIED pid 0 0 st) else
  let expected := build_lower st (tk_upper token) pid in
  if negb (expected =? tk_lower token)
  then (false, record_cap AUDIT_CAP_FORGERY pid (tk_upper token) (tk_lower token) st) else
  if in_revoke_table st token
  then (false, record_cap AUDIT_CAP_DENIED pid (tk_upper token) (tk_lower token) st) else
  let token_rights := Z.land (tk_upper token) 0xFFFF in
  if negb (Z.land token_rights required_rights =? required_rights)
  then (false, record_cap AUDIT_CAP_DENIED pid (tk_upper token) required_rights st)
  else (true, st).

Definition cap_revoke (authority target : cap_token) (revoker_pid : Z) (st : cap_state H)
    : bool * cap_state H :=
  let '(ok, st) := cap_validate authority revoker_pid CAP_RIGHT_REVOKE st in
  if negb ok then (false, st) else
  let auth_res := Z.land (Z.shiftr (tk_upper authority) 48) 0xFFFF in
  let target_res := Z.land (Z.shiftr (tk_upper target) 48) 0xFFFF in
  if negb (auth_res =? res_val CAP_RES_KERNEL) && negb (auth_res =? target_res)
  then (false, record_cap AUDIT_CAP_DENIED revoker_pid (tk_upper target) 0 st) else
  if is_null target then (false, st) else
  if in_revoke_table st target then (true, st) else
  let '(ok, st) := revoke_table_ensure_capacity st in
  if negb ok then (false, st) else
  let st := mk_cap (g_revoke_table st) (revoke_entries st).[g_revoke_count st <- target]
                   (u32 (g_revoke_count st + 1)) (g_revoke_capacity st) (g_kernel_secret st)
                   (cs_audit st) (cs_heap st) in
  (true, record_cap AUDIT_CAP_REVOKE revoker_pid (tk_upper target) (tk_lower target) st).

Definition cap_delegate (src : cap_token) (src_pid target_pid subset_rights : Z) (st : cap_state H)
    : cap_token * cap_state H :=
  let '(ok, st) := cap_validate src src_pid CAP_RIGHT_DELEGATE st in
  if negb ok then (CAP_NULL, st) else
  let original_rights := Z.land (tk_upper src) 0xFFFF in
  let new_rights := Z.land original_rights subset_rights in
  let upper := Z.lor (Z.land (tk_upper src) (not64 0xFFFF)) new_rights in
  let lower := build_lower st upper target_pid in
  (mk_tok upper lower, record_cap AUDIT_CAP_DELEGATE target_pid upper lower st).

Definition broker_check (pid : Z) (token : cap_token) (required_rights : Z) (st : cap_state H)
    : bool * cap_state H :=
  let '(result, st) := cap_validate token pid required_rights st in
  if negb result then (result, record_cap AUDIT_CAP_DENIED pid (tk_upper token) required_rights st)
  else (result, st).

End Ops.

(** ** Specification *)

(** The authenticator of [upper] for the holder [pid] under [secret]. *)
Definition cap_mac (secret : list Z) (upper pid : Z) : Z :=
  le_val (take 8 (blake3_digest (le_bytes 8 upper ++ le_bytes 4 pid ++ secret))).

Definition tok_resource (t : cap_token) : Z := tk_upper t / 2 ^ 48.
Definition tok_id (t : cap_token) : Z := tk_upper t / 2 ^ 16 mod 2 ^ 32.
Definition tok_rights (t : cap_token) : Z := tk_upper t mod 2 ^ 16.

(** [a] is a subset of the rights [b]. *)
Definition rights_sub (a b : Z) : Prop := Z.land b a = a.

Section Spec.
Context {H : Type} `{Allocator H}.

Definition revoked (st : cap_state H) (t : cap_token) : Prop :=
  t ∈ take (Z.to_nat (g_revoke_count st)) (revoke_entries st).

(** The revocation table is well formed. *)
Record table_ok (st : cap_state H) : Prop := {
  to_count : 0 <= g_revoke_count st <= g_revoke_capacity st;
  to_cap : g_revoke_capacity st = 0 \/
           exists k : nat, (k <= 8)%nat /\ g_revoke_capacity st = REVOKE_TABLE_INITIAL_CAPACITY * 2 ^ Z.of_nat k;
  to_len : zlen (revoke_entries st) = g_revoke_capacity st;
  to_null : g_revoke_table st = 0 <-> g_revoke_capacity st = 0
}.

Lemma tok_eqb_eq a b : tok_eqb a b = true <-> a = b.
Proof.
  destruct a as [a1 a2], b as [b1 b2]. unfold tok_eqb. cbn [tk_upper tk_lower].
  rewrite andb_true_iff, !Z.eqb_eq. split; [intros [-> ->]; done|by intros [= -> ->]].
Qed.

Lemma is_null_eq t : is_null t = true <-> t = CAP_NULL.
Proof.
  destruct t as [u l]. unfold is_null, CAP_NULL. cbn [tk_upper tk_lower].
  rewrite andb_true_iff, !Z.eqb_eq. split; [intros [-> ->]; done|by intros [= -> ->]].
Qed.

Lemma in_revoke_table_spec (st : cap_state H) t : in_revoke_table st t = true <-> revoked st t.
Proof.
  unfold in_revoke_table, revoked. rewrite existsb_exists, list_elem_of_In. split.
  - intros (e & He & Heq). apply tok_eqb_eq in Heq. by subst e.
  - intros Ht. exists t. split; [done|]. by apply tok_eqb_eq.
Qed.

(** [build_lower] is the authenticator over the 44 bytes. *)
Lemma build_lower_mac (st : cap_state H) upper pid :
  zlen (g_kernel_secret st) = 32 -> build_lower st upper pid = cap_mac (g_kernel_secret st) upper pid.
Proof.
  intros Hs. unfold build_lower, cap_mac. rewrite blake3_hash_digest by done. cbn [from_option id]. do 3 f_equal.
  destruct (push_buf (replicate 44 0) [] (le_bytes 8 upper) 0) as [T1 L1]; [done|lia|rewrite zlen_le_bytes; done|].
  destruct (push_buf _ _ (le_bytes 4 pid) _ T1) as [T2 L2];
    [rewrite zlen_le_bytes; lia|rewrite L1, !zlen_le_bytes; done|].
  rewrite !zlen_le_bytes in *. change (0 + Z.of_nat 8) with 8 in *. change (8 + Z.of_nat 4) with 12 in *.
  rewrite (memcpy_end _ _ (g_kernel_secret st) 12 T2) by (rewrite ?L2, ?L1, ?Hs; done || lia).
  by rewrite <- app_assoc.
Qed.

(** Validation reads the table and the secret and writes only the audit ring. *)
Lemma cap_validate_frame t pid req (st : cap_state H) :
  let st' := snd (cap_validate t pid req st) in
  g_revoke_table st' = g_revoke_table st /\ revoke_entries st' = revoke_entries st /\
  g_revoke_count st' = g_revoke_count st /\ g_revoke_capacity st' = g_revoke_capacity st /\
  g_kernel_secret st' = g_kernel_secret st.
Proof.
  unfold cap_validate. repeat case_match; done.
Qed.

Lemma cap_validate_exact t pid req (st : cap_state H) :
  zlen (g_kernel_secret st) = 32 ->
  fst (cap_validate t pid req st) = true <->
  t <> CAP_NULL /\ tk_lower t = cap_mac (g_kernel_secret st) (tk_upper t) pid /\ ~ revoked st t /\
  rights_sub req (tok_rights t).
Proof.
  intros Hs. unfold cap_validate, rights_sub, tok_rights. rewrite build_lower_mac by done.
  change 0xFFFF with (2 ^ 16 - 1). rewrite land_low by lia.
  destruct (is_null t) eqn:E1; [apply is_null_eq in E1; split; [done|tauto]|].
  assert (N1 : t <> CAP_NULL) by (rewrite <- is_null_eq; congruence).
  destruct (Z.eqb_spec (cap_mac (g_kernel_secret st) (tk_upper t) pid) (tk_lower t)) as [E2|E2]; cbn [negb].
  2: { split; [done|]. intros (_ & E & _). by symmetry in E. }
  destruct (in_revoke_table st t) eqn:E3.
  { apply in_revoke_table_spec in E3. split; [done|tauto]. }
  assert (N3 : ~ revoked st t) by (rewrite <- in_revoke_table_spec; congruence).
  destruct (Z.eqb_spec (Z.land (tk_upper t mod 2 ^ 16) req) req) as [E4|E4]; cbn [negb fst].
  - split; [done|]. intros _. by symmetry in E2.
  - split; [done|tauto].
Qed.

(** ** Table invariant *)

Lemma ensure_capacity_ok (st : cap_state H) :
  table_ok st ->
  let '(ok, st') := revoke_table_ensure_capacity st in
  table_ok st' /\ g_revoke_count st' = g_revoke_count st /\ g_kernel_secret st' = g_kernel_secret st /\
  take (Z.to_nat (g_revoke_count st)) (revoke_entries st') = take (Z.to_nat (g_revoke_count st)) (revoke_entries st) /\
  (ok = true -> g_revoke_count st' < g_revoke_capacity st').
Proof.
  intros [Hc Hcap Hl Hn]. unfold revoke_table_ensure_capacity.
  destruct (Z.ltb_spec (g_revoke_count st) (g_revoke_capacity st)) as [L|L]; [by split_and!|].
  destruct (Z.leb_spec REVOKE_TABLE_MAX_CAPACITY (g_revoke_capacity st)) as [M|M]; [by split_and!|].
  set (n1 := if g_revoke_capacity st =? 0 then _ else _).
  set (n2 := if REVOKE_TABLE_MAX_CAPACITY <? n1 then _ else _).
  unfold REVOKE_TABLE_MAX_CAPACITY, REVOKE_TABLE_INITIAL_CAPACITY in *.
  assert (N2 : g_revoke_capacity st < n2 /\ exists k : nat, (k <= 8)%nat /\ n2 = 256 * 2 ^ Z.of_nat k).
  { destruct Hcap as [E|(k & Hk & E)].
    - assert (E2 : n2 = 256) by (unfold n2, n1; by rewrite E). split; [lia|]. exists O. split; [lia|done].
    - assert (Hk' : (k < 8)%nat).
      { destruct (decide (k = 8%nat)) as [->|]; [change (2 ^ Z.of_nat 8) with 256 in E; lia|lia]. }
      assert (P : 1 <= 2 ^ Z.of_nat k <= 2 ^ 7).
      { split; [apply (Z.pow_le_mono_r 2 0); lia|apply Z.pow_le_mono_r; lia]. }
      assert (E1 : n1 = 256 * 2 ^ Z.of_nat (S k)).
      { unfold n1. destruct (Z.eqb_spec (g_revoke_capacity st) 0); [lia|].
        rewrite u32_small, E, Nat2Z.inj_succ, Z.pow_succ_r by lia. lia. }
      assert (P1 : 2 ^ Z.of_nat (S k) = 2 * 2 ^ Z.of_nat k) by (rewrite Nat2Z.inj_succ, Z.pow_succ_r; lia).
      unfold n2. destruct (Z.ltb_spec 65536 n1); [lia|]. split; [lia|]. exists (S k). split; [lia|done]. }
  destruct N2 as [N2 (k & Hk & Ek)]. clearbody n2 n1.
  destruct (al_alloc _ _) as [p hp]. destruct (Z.eqb_spec p 0) as [Ep|Ep].
  { split; [by constructor|]. by split_and!. }
  assert (Zf : zlen (replicate (Z.to_nat n2) (inhabitant : cap_token)) = n2) by (apply zlen_replicate; lia).
  destruct (Z.eqb_spec (g_revoke_table st) 0) as [En|En]; cbn [negb].
  - assert (g_revoke_count st = 0) as E0 by (apply Hn in En; lia).
    split; [|by rewrite E0; split_and!; cbn; try done; lia].
    constructor; cbn; [lia|right; by exists k|done|split; [done|lia]].
  - set (src := take (Z.to_nat (g_revoke_count st)) (revoke_entries st)).
    assert (Ls : zlen src = g_revoke_count st) by (unfold src, zlen in *; rewrite length_take; lia).
    destruct (push_buf (replicate (Z.to_nat n2) inhabitant) [] src 0) as [T1 L1]; [done|lia|lia|].
    rewrite Ls, Z.add_0_l in T1. split; [|split_and!; cbn; first [done | exact T1 | lia]].
    constructor; cbn; [lia|right; by exists k|exact (eq_trans L1 Zf)|split; [done|lia]].
Qed.

(** What [cap_revoke] does to the table. *)
Lemma cap_revoke_table authority target pid (st : cap_state H) :
  table_ok st ->
  let '(ok, st') := cap_revoke authority target pid st in
  table_ok st' /\ g_kernel_secret st' = g_kernel_secret st /\
  (forall t, revoked st t -> revoked st' t) /\
  (forall t, revoked st' t -> revoked st t \/ t = target) /\
  (ok = true -> revoked st' target).
Proof.
  intros Ht. unfold cap_revoke.
  pose proof (cap_validate_frame authority pid CAP_RIGHT_REVOKE st) as F.
  destruct (cap_validate authority pid CAP_RIGHT_REVOKE st) as [ok st1]. cbn [snd] in F.
  destruct F as (F1 & F2 & F3 & F4 & F5).
  assert (Ht1 : table_ok st1) by (destruct Ht; constructor; rewrite ?F1, ?F2, ?F3, ?F4; done).
  assert (R1 : forall t, revoked st1 t <-> revoked st t) by (intros t; unfold revoked; by rewrite F2, F3).
  assert (Triv : forall b (s : cap_state H), (b = true -> False) -> s = st1 \/ (exists ev a0 a1, s = record_cap ev pid a0 a1 st1) ->
    table_ok s /\ g_kernel_secret s = g_kernel_secret st /\ (forall t, revoked st t -> revoked s t) /\
    (forall t, revoked s t -> revoked st t \/ t = target) /\ (b = true -> revoked s target)).
  { intros b s Hb [->|(ev & a0 & a1 & ->)]; (split; [by destruct Ht1; constructor|]);
      (split; [done|]); (split; [intros t; apply R1|]); (split; [intros t Hr; left; by apply R1|]); done. }
  destruct ok; cbn [negb]; [|apply Triv; [done|by left]].
  destruct (negb _ && negb _); [apply Triv; [done|right; by repeat eexists]|].
  destruct (is_null target); [apply Triv; [done|by left]|].
  destruct (in_revoke_table st1 target) eqn:Ei.
  { apply in_revoke_table_spec in Ei. split; [done|]. split; [done|]. split; [intros t; apply R1|].
    split; [intros t Hr; left; by apply R1|done]. }
  pose proof (ensure_capacity_ok st1 Ht1) as E.
  destruct (revoke_table_ensure_capacity st1) as [ok2 st2]. destruct E as (Ht2 & C2 & S2 & T2 & G2).
  assert (R2 : forall t, revoked st2 t <-> revoked st t) by (intros t; rewrite <- R1; unfold revoked; by rewrite C2, T2).
  destruct ok2; cbn [negb].
  2: { split; [done|]. split; [congruence|]. split; [intros t; apply R2|]. split; [intros t Hr; left; by apply R2|done]. }
  specialize (G2 eq_refl). destruct Ht2 as [A1 A2 A3 A4].
  assert (Cap : g_revoke_capacity st2 <= 65536).
  { destruct A2 as [->|(k & Hk & ->)]; [lia|]. unfold REVOKE_TABLE_INITIAL_CAPACITY.
    assert (2 ^ Z.of_nat k <= 2 ^ 8) by (apply Z.pow_le_mono_r; lia). lia. }
  unfold record_cap, revoked. cbn [g_revoke_table revoke_entries g_revoke_count g_revoke_capacity g_kernel_secret cs_audit cs_heap].
  rewrite u32_small, zset_memcpy by lia.
  destruct (push_buf (revoke_entries st2) _ [target] (g_revoke_count st2) eq_refl) as [P1 P2];
    [lia|change (zlen [target]) with 1; lia|].
  change (zlen [target]) with 1 in P1. rewrite P1. setoid_rewrite elem_of_app. setoid_rewrite list_elem_of_singleton.
  split; [constructor; cbn; [lia|done|lia|done]|]. split; [congruence|].
  split; [intros t Hr; left; by apply R2|]. split; [|by right].
  intros t [Hr|Hr]; [left; by apply R2|by right].
Qed.

End Spec.

(** ** Token layout *)

Lemma create_layout res res_id rights :
  0 <= res < 2 ^ 16 -> 0 <= res_id < 2 ^ 32 ->
  Z.lor (Z.lor (u64 (Z.shiftl (Z.land res 0xFFFF) 48)) (u64 (Z.shiftl res_id 16))) (Z.land rights 0xFFFF) =
  res * 2 ^ 48 + res_id * 2 ^ 16 + rights mod 2 ^ 16.
Proof.
  intros Hr Hi. change 0xFFFF with (2 ^ 16 - 1). rewrite !land_low, (Z.mod_small res), !shiftl_mul by lia.
  rewrite !u64_small by lia. rewrite Z.lor_comm, (Z.lor_comm (res * _)).
  pose proof (Z.mod_pos_bound rights (2 ^ 16) ltac:(lia)) as Hm.
  rewrite Z.lor_assoc, (lor_add_disjoint 16), (lor_add_disjoint 48) by lia. lia.
Qed.

Lemma land_mod_pow2 a b n : 0 <= n -> Z.land (a mod 2 ^ n) b = Z.land a b mod 2 ^ n.
Proof. intros Hn. rewrite <- !Z.land_ones by done. rewrite <- !Z.land_assoc. f_equal. apply Z.land_comm. Qed.

(** Replacing the rights field by a subset of it. *)
Lemma delegate_layout upper subset :
  0 <= upper < 2 ^ 64 ->
  let r := Z.land (Z.land upper 0xFFFF) subset in
  Z.lor (Z.land upper (not64 0xFFFF)) r = upper / 2 ^ 16 * 2 ^ 16 + r /\ 0 <= r < 2 ^ 16.
Proof.
  intros Hu r.
  assert (Hr : 0 <= r < 2 ^ 16).
  { unfold r. change 0xFFFF with (2 ^ 16 - 1). rewrite land_low, land_mod_pow2 by lia. apply Z.mod_pos_bound. lia. }
  split; [|done]. change 0xFFFF with (2 ^ 16 - 1). rewrite land_high by lia.
  rewrite Z.lor_comm, lor_add_disjoint by lia. lia.
Qed.

(** ** Sequences of calls *)

Inductive cap_op :=
  | OpCreate (res res_id rights owner_pid : Z)
  | OpValidate (t : cap_token) (pid rights : Z)
  | OpRevoke (authority target : cap_token) (pid : Z)
  | OpDelegate (src : cap_token) (src_pid target_pid subset : Z)
  | OpBroker (pid : Z) (t : cap_token) (rights : Z).

Section Runs.
Context {H : Type} `{Allocator H}.

Definition cap_do (st : cap_state H) (o : cap_op) : cap_state H :=
  match o with
  | OpCreate res res_id rights owner => snd (cap_create res res_id rights owner st)
  | OpValidate t pid rights => snd (cap_validate t pid rights st)
  | OpRevoke a t pid => snd (cap_revoke a t pid st)
  | OpDelegate src spid tpid sub => snd (cap_delegate src spid tpid sub st)
  | OpBroker pid t rights => snd (broker_check pid t rights st)
  end.

Definition cap_run (st : cap_state H) (os : list cap_op) : cap_state H := fold_left cap_do os st.

(** Everything but [OpRevoke] leaves the table and the secret alone. *)
Lemma cap_do_frame (st : cap_state H) o :
  (forall a t pid, o <> OpRevoke a t pid) ->
  g_revoke_table (cap_do st o) = g_revoke_table st /\ revoke_entries (cap_do st o) = revoke_entries st /\
  g_revoke_count (cap_do st o) = g_revoke_count st /\ g_revoke_capacity (cap_do st o) = g_revoke_capacity st /\
  g_kernel_secret (cap_do st o) = g_kernel_secret st.
Proof.
  intros Ho. destruct o as [| t pid rights |a t pid|src spid tpid sub|pid t rights]; cbn [cap_do].
  - done.
  - apply cap_validate_frame.
  - by destruct (Ho a t pid).
  - unfold cap_delegate. pose proof (cap_validate_frame src spid CAP_RIGHT_DELEGATE st) as F.
    destruct (cap_validate _ _ _ _) as [[] s]; done.
  - unfold broker_check. pose proof (cap_validate_frame t pid rights st) as F.
    destruct (cap_validate _ _ _ _) as [[] s]; done.
Qed.

Lemma cap_do_table (st : cap_state H) o :
  table_ok st -> table_ok (cap_do st o) /\ g_kernel_secret (cap_do st o) = g_kernel_secret st /\
  forall t, revoked st t -> revoked (cap_do st o) t.
Proof.
  intros Ht. destruct o as [| |a t pid| |] eqn:E.
  3: { pose proof (cap_revoke_table a t pid st Ht) as R. cbn [cap_do].
       destruct (cap_revoke a t pid st) as [ok s]. cbn [snd]. tauto. }
  all: rewrite <- E; destruct (cap_do_frame st o) as (F1 & F2 & F3 & F4 & F5); [congruence|];
    (split; [destruct Ht; constructor; rewrite ?F1, ?F2, ?F3, ?F4; done|]);
    (split; [done|]); intros u; unfold revoked; by rewrite F2, F3.
Qed.

Lemma cap_run_table os (st : cap_state H) :
  table_ok st -> table_ok (cap_run st os) /\ g_kernel_secret (cap_run st os) = g_kernel_secret st /\
  forall t, revoked st t -> revoked (cap_run st os) t.
Proof.
  revert st. induction os as [|o os IH]; intros st Ht; [done|]. cbn [cap_run fold_left].
  destruct (cap_do_table st o Ht) as (Ht' & Hs & Hr). destruct (IH (cap_do st o) Ht') as (A & B & C).
  split; [done|]. split; [unfold cap_run in B; congruence|]. auto.
Qed.

(** ** Properties *)

(** A minted token grants exactly what it was minted for.  The token of
    [cap_create] carries the resource class, the resource id and the low 16
    rights bits, and after any later sequence of capability calls it validates
    for its owner and a required set of rights if and only if it is not the
    null token, has not been revoked, and the required rights are among the
    minted ones. *)
Theorem cap_create_validates res res_id rights pid req (st : cap_state H) os :
  0 <= res < 2 ^ 16 -> 0 <= res_id < 2 ^ 32 -> zlen (g_kernel_secret st) = 32 -> table_ok st ->
  let '(t, st1) := cap_create res res_id rights pid st in
  let st2 := cap_run st1 os in
  tok_resource t = res /\ tok_id t = res_id /\ tok_rights t = rights mod 2 ^ 16 /\
  (fst (cap_validate t pid req st2) = true <->
   t <> CAP_NULL /\ ~ revoked st2 t /\ rights_sub req (rights mod 2 ^ 16)).
Proof.
  intros Hr Hi Hs Ht. unfold cap_create. rewrite create_layout, build_lower_mac by done.
  set (upper := res * 2 ^ 48 + _ + _). set (t := mk_tok upper _).
  pose proof (Z.mod_pos_bound rights (2 ^ 16) ltac:(lia)) as Hm.
  set (st1 := record_cap _ _ _ _ _).
  assert (Ht1 : table_ok st1) by (by destruct Ht; constructor).
  destruct (cap_run_table os st1 Ht1) as (_ & Hs2 & _). change (g_kernel_secret st1) with (g_kernel_secret st) in Hs2.
  assert (Er : tok_rights t = rights mod 2 ^ 16).
  { unfold tok_rights, t, upper. cbn [tk_upper]. Z.div_mod_to_equations. lia. }
  split; [unfold tok_resource, t, upper; cbn [tk_upper]; Z.div_mod_to_equations; lia|].
  split; [unfold tok_id, t, upper; cbn [tk_upper]; Z.div_mod_to_equations; lia|]. split; [done|].
  rewrite cap_validate_exact, Er, Hs2 by congruence. cbn [tk_lower tk_upper t].
  split; [intros (A & _ & B & C); done|intros (A & B & C); done].
Qed.

(** C12: delegation attenuates.  When [cap_delegate] returns a token other than
    the null one, the source token was valid for the source process and granted
    DELEGATE, and the new token names the same resource and carries exactly the
    rights common to the source and the requested subset; so whatever it
    validates for was granted to the source.  When validation of the source
    fails the result is the null token. *)
Theorem cap_delegate_attenuates src src_pid target_pid subset (st : cap_state H) :
  zlen (g_kernel_secret st) = 32 -> 0 <= tk_upper src < 2 ^ 64 -> 0 <= subset ->
  let ok := fst (cap_validate src src_pid CAP_RIGHT_DELEGATE st) in
  let '(d, st') := cap_delegate src src_pid target_pid subset st in
  (ok = false -> d = CAP_NULL) /\
  (ok = true ->
     rights_sub CAP_RIGHT_DELEGATE (tok_rights src) /\
     tok_resource d = tok_resource src /\ tok_id d = tok_id src /\
     tok_rights d = Z.land (tok_rights src) subset /\
     tk_lower d = cap_mac (g_kernel_secret st) (tk_upper d) target_pid) /\
  (forall pid req, d <> CAP_NULL -> fst (cap_validate d pid req st') = true ->
     ok = true /\ rights_sub req (tok_rights src) /\ rights_sub req subset).
Proof.
  intros Hs Hu Hsub. cbn zeta. unfold cap_delegate.
  pose proof (cap_validate_frame src src_pid CAP_RIGHT_DELEGATE st) as F.
  pose proof (cap_validate_exact src src_pid CAP_RIGHT_DELEGATE st Hs) as X.
  destruct (cap_validate src src_pid CAP_RIGHT_DELEGATE st) as [ok st1]. cbn [snd fst] in *.
  destruct F as (_ & _ & _ & _ & F5).
  destruct ok; cbn [negb]; [|split; [done|]; split; [done|]; by intros pid req Hd].
  destruct (delegate_layout (tk_upper src) subset Hu) as [-> Hr].
  change 0xFFFF with (2 ^ 16 - 1) in *. rewrite land_low in * by lia.
  set (r := Z.land (tk_upper src mod 2 ^ 16) subset) in *. rewrite build_lower_mac, F5 by congruence.
  set (d := mk_tok _ _).
  assert (Rd : tok_rights d = r) by (unfold tok_rights, d; cbn [tk_upper]; Z.div_mod_to_equations; lia).
  split; [done|]. split.
  - intros _. split; [tauto|]. unfold tok_resource, tok_id, d. cbn [tk_upper tk_lower].
    split; [Z.div_mod_to_equations; lia|]. split; [Z.div_mod_to_equations; lia|]. split; [exact Rd|done].
  - intros pid req Hd Hv. split; [done|].
    apply cap_validate_exact in Hv; [|cbn; congruence]. destruct Hv as (_ & _ & _ & Hq).
    rewrite Rd in Hq. unfold rights_sub, tok_rights, r in *. split; rewrite <- Hq;
      apply Z.bits_inj'; intros i Hi; rewrite !Z.land_spec;
      destruct (Z.testbit (tk_upper src mod 2 ^ 16) i), (Z.testbit subset i), (Z.testbit req i); done.
Qed.

(** C13: revocation is permanent and precise.  Once [cap_revoke] has returned
    true for a target, no later sequence of capability calls makes the target
    validate again, for any process and any rights; the growing revocation
    table stays well formed (capacity 256, doubled up to 65536) and never loses
    an entry; and the call itself revokes nothing but the target. *)
Theorem cap_revoke_permanent authority target pid (st : cap_state H) os :
  table_ok st -> zlen (g_kernel_secret st) = 32 ->
  let '(ok, st1) := cap_revoke authority target pid st in
  let st2 := cap_run st1 os in
  (forall t, revoked st1 t -> revoked st t \/ t = target) /\
  table_ok st2 /\ (forall t, revoked st t -> revoked st2 t) /\
  (ok = true -> forall p req, fst (cap_validate target p req st2) = false).
Proof.
  intros Ht Hs. pose proof (cap_revoke_table authority target pid st Ht) as R.
  destruct (cap_revoke authority target pid st) as [ok st1]. destruct R as (T1 & S1 & R1 & R2 & R3).
  destruct (cap_run_table os st1 T1) as (T2 & S2 & R4). split; [done|]. split; [done|]. split; [auto|].
  intros Hok p req. apply not_true_iff_false. rewrite cap_validate_exact by congruence.
  intros (_ & _ & Hn & _). auto.
Qed.

End Runs.

(** ** Witnesses: the kernel heap as the allocator *)

Definition cap0 : cap_state heap :=
  cap_subsystem_init [11; 22; 33; 44] (mk_cap 0 [] 0 0 (replicate 32 0) audit_init
    (kmalloc_init 0x200000 0x10000 (mk_heap ∅ 0 0 0))).

Lemma cap0_ok : table_ok cap0 /\ zlen (g_kernel_secret cap0) = 32.
Proof. split; [|by vm_compute]. constructor; cbn; [lia|by left|done|done]. Qed.

Lemma cap_create_validates_witness :
  let '(t, st1) := cap_create 0 7 3 2 cap0 in fst (cap_validate t 2 1 st1) = true.
Proof.
  destruct cap0_ok as [Ht Hs].
  pose proof (cap_create_validates 0 7 3 2 1 cap0 [] ltac:(lia) ltac:(lia) Hs Ht) as C.
  destruct (cap_create 0 7 3 2 cap0) as [t st1] eqn:E. cbn [cap_run fold_left] in C.
  destruct C as (_ & C1 & _ & C2). apply C2. split; [by intros ->|]. split; [|by vm_compute].
  assert (E0 : st1 = snd (cap_create 0 7 3 2 cap0)) by (by rewrite E).
  unfold revoked. rewrite E0. cbn. apply not_elem_of_nil.
Defined.

Lemma cap_delegate_attenuates_witness :
  let src := fst (cap_create 0 7 0x13 2 cap0) in
  tok_rights (fst (cap_delegate src 2 5 1 cap0)) = 1.
Proof.
  intros src. destruct cap0_ok as [Ht Hs].
  pose proof (cap_delegate_attenuates src 2 5 1 cap0 Hs ltac:(vm_compute; split; discriminate || done) ltac:(lia)) as C.
  destruct (cap_delegate src 2 5 1 cap0) as [d st'] eqn:E. destruct C as (_ & C & _).
  assert (V : fst (cap_validate src 2 CAP_RIGHT_DELEGATE cap0) = true) by (vm_compute; reflexivity).
  destruct (C V) as (_ & _ & _ & R & _). cbn [fst]. rewrite R. vm_compute. reflexivity.
Defined.

Lemma cap_revoke_permanent_witness :
  let authority := fst (cap_create 5 0 0x20 1 cap0) in
  let target := fst (cap_create 0 7 3 2 cap0) in
  fst (cap_validate target 2 1 (snd (cap_revoke authority target 1 cap0))) = false.
Proof.
  intros authority target. destruct cap0_ok as [Ht Hs].
  pose proof (cap_revoke_permanent authority target 1 cap0 [] Ht Hs) as C.
  assert (V : fst (cap_revoke authority target 1 cap0) = true) by (vm_compute; reflexivity).
  destruct (cap_revoke authority target 1 cap0) as [ok st1]. cbn [fst snd] in *. subst ok.
  destruct C as (_ & _ & _ & C). by apply C.
Defined.
