(* ===== verification/Proc.v ===== *)
(** * Processes and the scheduler (kernel/proc/process.c, kernel/proc/scheduler.c)

    The process table is an array of 256 slots; a [process_t *] is a slot index,
    [NULL] is -1.  Each intent has a ready queue, a singly linked list threaded
    through [sched_next] of the slots (field [sched_link]).  The queues are shown
    to implement FIFO lists without duplicates, and the scheduler to pick the
    head of the first non-empty queue in priority order. *)

From S2P Require Import Prelude AuditRing Kmalloc Capability.

(** ** Data *)

Definition MAX_PROCESSES : Z := 256.
Definition MAX_CAPS_PER_PROC : Z := 64.
Definition KERNEL_STACK_SIZE : Z := 16 * 1024.
Definition NULL : Z := -1.

Inductive proc_state := PROC_UNUSED | PROC_RUNNING | PROC_READY | PROC_BLOCKED | PROC_ZOMBIE.

#[export] Instance proc_state_eq_dec : EqDecision proc_state.
Proof. solve_decision. Defined.

Definition INTENT_COMPUTE : Z := 0.
Definition INTENT_IO : Z := 1.
Definition INTENT_NETWORK : Z := 2.
Definition INTENT_INTERACTIVE : Z := 3.
Definition INTENT_AUDIT : Z := 4.
Definition INTENT_COUNT : Z := 5.

Record cpu_context := mk_ctx { r15 : Z; r14 : Z; r13 : Z; r12 : Z; rbx : Z; rbp : Z; rsp : Z; rip : Z }.

Record cap_entry := mk_cap_entry {
  ce_token : cap_token;
  ce_owner_pid : Z;
  ce_expire_tick : Z;
  ce_revoked : bool;
  ce_delegatable : bool
}.

#[export] Instance cap_entry_inhabited : Inhabited cap_entry := populate (mk_cap_entry CAP_NULL 0 0 false false).

Definition IPC_QUEUE_DEPTH : Z := 8.
Definition IPC_MSG_PAYLOAD : Z := 120.

Record ipc_msg := mk_msg { from_pid : Z; msg_type : Z; msg_data : list Z; msg_len : Z }.

#[export] Instance ipc_msg_inhabited : Inhabited ipc_msg :=
  populate (mk_msg 0 0 (replicate (Z.to_nat IPC_MSG_PAYLOAD) 0) 0).

Record ipc_state := mk_ipc { ipc_queue : list ipc_msg; head : Z; tail : Z; count : Z; waiting : bool }.

(** All bytes zero. *)
Definition ipc_zero : ipc_state := mk_ipc (replicate (Z.to_nat IPC_QUEUE_DEPTH) inhabitant) 0 0 0 false.

(** [sizeof(ipc_state_t)] and the FXSAVE area with its headroom. *)
Definition SIZEOF_IPC_STATE : Z := 1064.
Definition FPU_STATE_SIZE : Z := 512.

(** [process_t]; [inbox] is the object [ipc] points to, [fpu_stash] the word that
    [fpu_alloc_state] keeps just below the FXSAVE area.  The saved interrupt
    frames and the signal handler table are not used by the files modelled. *)
Record process := mk_proc {
  pid : Z;
  parent_pid : Z;
  pstate : proc_state;
  intent : Z;
  context : cpu_context;
  cr3 : Z;
  kernel_stack : Z;
  kernel_stack_top : Z;
  caps : list cap_entry;
  cap_count : Z;
  ticks_used : Z;
  exit_code : Z;
  mmap_top : Z;
  blocked_on_pid : Z;
  wake_tick : Z;
  sched_link : Z;
  ipc : Z;
  inbox : ipc_state;
  fs_base : Z;
  fpu_state : Z;
  fpu_stash : Z;
  pending_signals : Z;
  uid : Z;
  gid : Z
}.

(** [memset(p, 0, sizeof(process_t))]; a zero [sched_next] is [NULL]. *)
Definition proc_zero : process :=
  mk_proc 0 0 PROC_UNUSED 0 (mk_ctx 0 0 0 0 0 0 0 0) 0 0 0 (replicate (Z.to_nat MAX_CAPS_PER_PROC) inhabitant)
    0 0 0 0 0 0 NULL 0 ipc_zero 0 0 0 0 0 0.

#[export] Instance process_inhabited : Inhabited process := populate proc_zero.

(** Stores to single fields. *)
Definition set_state (x0 : proc_state) (p : process) : process :=
  mk_proc (pid p) (parent_pid p) x0 (intent p) (context p) (cr3 p) (kernel_stack p) (kernel_stack_top p)
    (caps p) (cap_count p) (ticks_used p) (exit_code p) (mmap_top p) (blocked_on_pid p) (wake_tick p)
    (sched_link p) (ipc p) (inbox p) (fs_base p) (fpu_state p) (fpu_stash p) (pending_signals p) (uid p) (gid p).

Definition set_link (x0 : Z) (p : process) : process :=
  mk_proc (pid p) (parent_pid p) (pstate p) (intent p) (context p) (cr3 p) (kernel_stack p)
    (kernel_stack_top p) (caps p) (cap_count p) (ticks_used p) (exit_code p) (mmap_top p) (blocked_on_pid p)
    (wake_tick p) x0 (ipc p) (inbox p) (fs_base p) (fpu_state p) (fpu_stash p) (pending_signals p) (uid p) (gid p).

Definition set_blocked_on (x0 : Z) (p : process) : process :=
  mk_proc (pid p) (parent_pid p) (pstate p) (intent p) (context p) (cr3 p) (kernel_stack p)
    (kernel_stack_top p) (caps p) (cap_count p) (ticks_used p) (exit_code p) (mmap_top p) x0 (wake_tick p)
    (sched_link p) (ipc p) (inbox p) (fs_base p) (fpu_state p) (fpu_stash p) (pending_signals p) (uid p) (gid p).

Definition set_wake (x0 : Z) (p : process) : process :=
  mk_proc (pid p) (parent_pid p) (pstate p) (intent p) (context p) (cr3 p) (kernel_stack p)
    (kernel_stack_top p) (caps p) (cap_count p) (ticks_used p) (exit_code p) (mmap_top p) (blocked_on_pid p)
    x0 (sched_link p) (ipc p) (inbox p) (fs_base p) (fpu_state p) (fpu_stash p) (pending_signals p) (uid p) (gid p).

Definition set_ticks (x0 : Z) (p : process) : process :=
  mk_proc (pid p) (parent_pid p) (pstate p) (intent p) (context p) (cr3 p) (kernel_stack p)
    (kernel_stack_top p) (caps p) (cap_count p) x0 (exit_code p) (mmap_top p) (blocked_on_pid p) (wake_tick p)
    (sched_link p) (ipc p) (inbox p) (fs_base p) (fpu_state p) (fpu_stash p) (pending_signals p) (uid p) (gid p).

Definition set_exit (x0 : Z) (p : process) : process :=
  mk_proc (pid p) (parent_pid p) (pstate p) (intent p) (context p) (cr3 p) (kernel_stack p)
    (kernel_stack_top p) (caps p) (cap_count p) (ticks_used p) x0 (mmap_top p) (blocked_on_pid p)
    (wake_tick p) (sched_link p) (ipc p) (inbox p) (fs_base p) (fpu_state p) (fpu_stash p) (pending_signals p) (uid p)
    (gid p).

Definition set_caps (x0 : list cap_entry) (x1 : Z) (p : process) : process :=
  mk_proc (pid p) (parent_pid p) (pstate p) (intent p) (context p) (cr3 p) (kernel_stack p)
    (kernel_stack_top p) x0 x1 (ticks_used p) (exit_code p) (mmap_top p) (blocked_on_pid p) (wake_tick p)
    (sched_link p) (ipc p) (inbox p) (fs_base p) (fpu_state p) (fpu_stash p) (pending_signals p) (uid p) (gid p).

Definition set_ipc (x0 : Z) (p : process) : process :=
  mk_proc (pid p) (parent_pid p) (pstate p) (intent p) (context p) (cr3 p) (kernel_stack p)
    (kernel_stack_top p) (caps p) (cap_count p) (ticks_used p) (exit_code p) (mmap_top p) (blocked_on_pid p)
    (wake_tick p) (sched_link p) x0 (inbox p) (fs_base p) (fpu_state p) (fpu_stash p) (pending_signals p) (uid p) (gid p).

Definition set_inbox (x0 : ipc_state) (p : process) : process :=
  mk_proc (pid p) (parent_pid p) (pstate p) (intent p) (context p) (cr3 p) (kernel_stack p)
    (kernel_stack_top p) (caps p) (cap_count p) (ticks_used p) (exit_code p) (mmap_top p) (blocked_on_pid p)
    (wake_tick p) (sched_link p) (ipc p) x0 (fs_base p) (fpu_state p) (fpu_stash p) (pending_signals p) (uid p) (gid p).

Definition set_fpu (x0 x1 : Z) (p : process) : process :=
  mk_proc (pid p) (parent_pid p) (pstate p) (intent p) (context p) (cr3 p) (kernel_stack p)
    (kernel_stack_top p) (caps p) (cap_count p) (ticks_used p) (exit_code p) (mmap_top p) (blocked_on_pid p)
    (wake_tick p) (sched_link p) (ipc p) (inbox p) (fs_base p) x0 x1 (pending_signals p) (uid p) (gid p).

Definition set_mmap_top (x0 : Z) (p : process) : process :=
  mk_proc (pid p) (parent_pid p) (pstate p) (intent p) (context p) (cr3 p) (kernel_stack p)
    (kernel_stack_top p) (caps p) (cap_count p) (ticks_used p) (exit_code p) x0 (blocked_on_pid p)
    (wake_tick p) (sched_link p) (ipc p) (inbox p) (fs_base p) (fpu_state p) (fpu_stash p) (pending_signals p) (uid p)
    (gid p).

Definition set_intent (x0 : Z) (p : process) : process :=
  mk_proc (pid p) (parent_pid p) (pstate p) x0 (context p) (cr3 p) (kernel_stack p) (kernel_stack_top p)
    (caps p) (cap_count p) (ticks_used p) (exit_code p) (mmap_top p) (blocked_on_pid p) (wake_tick p)
    (sched_link p) (ipc p) (inbox p) (fs_base p) (fpu_state p) (fpu_stash p) (pending_signals p) (uid p) (gid p).

(** What [proc_exit] calls in the VFS. *)
Class FdTable (V : Type) := { vfs_close_all_for_pid : Z -> V -> V }.

(** The globals of both files, the interrupt flag, and the components called. *)
Section State.
Context {H V : Type}.

Record ksys := mk_sys {
  g_proc_table : list process;
  g_next_pid : Z;
  g_current_proc : Z;
  g_kernel_stack_top : Z;
  g_queues : list Z;
  g_ticks_remaining : Z;
  g_uptime_ticks : Z;
  k_if : bool;
  k_audit : audit_state;
  k_heap : H;
  k_vfs : V
}.

Definition with_table (x : list process) (s : ksys) : ksys :=
  mk_sys x (g_next_pid s) (g_current_proc s) (g_kernel_stack_top s) (g_queues s) (g_ticks_remaining s) (g_uptime_ticks s) (k_if s) (k_audit s) (k_heap s) (k_vfs s).

Definition with_next_pid (x : Z) (s : ksys) : ksys :=
  mk_sys (g_proc_table s) x (g_current_proc s) (g_kernel_stack_top s) (g_queues s) (g_ticks_remaining s) (g_uptime_ticks s) (k_if s) (k_audit s) (k_heap s) (k_vfs s).

Definition with_current (x : Z) (s : ksys) : ksys :=
  mk_sys (g_proc_table s) (g_next_pid s) x (g_kernel_stack_top s) (g_queues s) (g_ticks_remaining s) (g_uptime_ticks s) (k_if s) (k_audit s) (k_heap s) (k_vfs s).

Definition with_kstack (x : Z) (s : ksys) : ksys :=
  mk_sys (g_proc_table s) (g_next_pid s) (g_current_proc s) x (g_queues s) (g_ticks_remaining s) (g_uptime_ticks s) (k_if s) (k_audit s) (k_heap s) (k_vfs s).

Definition with_queues (x : list Z) (s : ksys) : ksys :=
  mk_sys (g_proc_table s) (g_next_pid s) (g_current_proc s) (g_kernel_stack_top s) x (g_ticks_remaining s) (g_uptime_ticks s) (k_if s) (k_audit s) (k_heap s) (k_vfs s).

Definition with_slice (x : Z) (s : ksys) : ksys :=
  mk_sys (g_proc_table s) (g_next_pid s) (g_current_proc s) (g_kernel_stack_top s) (g_queues s) x (g_uptime_ticks s) (k_if s) (k_audit s) (k_heap s) (k_vfs s).

Definition with_uptime (x : Z) (s : ksys) : ksys :=
  mk_sys (g_proc_table s) (g_next_pid s) (g_current_proc s) (g_kernel_stack_top s) (g_queues s) (g_ticks_remaining s) x (k_if s) (k_audit s) (k_heap s) (k_vfs s).

Definition with_if (x : bool) (s : ksys) : ksys :=
  mk_sys (g_proc_table s) (g_next_pid s) (g_current_proc s) (g_kernel_stack_top s) (g_queues s) (g_ticks_remaining s) (g_uptime_ticks s) x (k_audit s) (k_heap s) (k_vfs s).

Definition with_audit (x : audit_state) (s : ksys) : ksys :=
  mk_sys (g_proc_table s) (g_next_pid s) (g_current_proc s) (g_kernel_stack_top s) (g_queues s) (g_ticks_remaining s) (g_uptime_ticks s) (k_if s) x (k_heap s) (k_vfs s).

Definition with_heap (x : H) (s : ksys) : ksys :=
  mk_sys (g_proc_table s) (g_next_pid s) (g_current_proc s) (g_kernel_stack_top s) (g_queues s) (g_ticks_remaining s) (g_uptime_ticks s) (k_if s) (k_audit s) x (k_vfs s).

Definition with_vfs (x : V) (s : ksys) : ksys :=
  mk_sys (g_proc_table s) (g_next_pid s) (g_current_proc s) (g_kernel_stack_top s) (g_queues s) (g_ticks_remaining s) (g_uptime_ticks s) (k_if s) (k_audit s) (k_heap s) x.

End State.
Arguments ksys : clear implicits.

(** ** Process table *)

Section Ops.
Context {H V : Type} `{Allocator H} `{FdTable V}.
#[local] Notation "'sys'" := (ksys H V).

Definition proc_at (s : sys) (i : Z) : process := (g_proc_table s).[i].
Definition upd (i : Z) (f : process -> process) (s : sys) : sys :=
  with_table (g_proc_table s).[i <- f (proc_at s i)] s.

(** The first slot that satisfies [f], or [NULL]. *)
Definition find_slot (f : process -> bool) (l : list process) (i : Z) : Z := find_from f l i.

Definition proc_init (s : sys) : sys :=
  with_next_pid 1 (with_table (replicate (Z.to_nat MAX_PROCESSES) proc_zero) s).

Definition proc_get (s : sys) (pid_ : Z) : Z :=
  find_slot (fun p => (pid p =? pid_) && negb (bool_decide (pstate p = PROC_UNUSED))) (g_proc_table s) 0.

Definition ipc_alloc_state (s : sys) : Z * sys :=
  let '(p, hp) := al_alloc SIZEOF_IPC_STATE (k_heap s) in (p, with_heap hp s).

Definition ipc_free_state (p : Z) (s : sys) : sys :=
  if p =? 0 then s else with_heap (al_free p (k_heap s)) s.

(** The aligned pointer and the stashed allocation. *)
Definition fpu_alloc_state (s : sys) : Z * Z * sys :=
  let '(raw, hp) := al_alloc (FPU_STATE_SIZE + 32) (k_heap s) in
  let s := with_heap hp s in
  if raw =? 0 then (0, 0, s) else
  let base := u64 (raw + 16) in
  let aligned := Z.land (u64 (base + 15)) (not64 15) in
  (aligned, raw, s).

Definition fpu_free_state (st stash : Z) (s : sys) : sys :=
  if st =? 0 then s else with_heap (al_free stash (k_heap s)) s.

(** [cr3_reg] is the CR3 register, [idle] the address of [proc_idle_loop]. *)
Definition proc_create (intent_ parent cr3_reg idle : Z) (s : sys) : Z * sys :=
  let i := find_slot (fun p => bool_decide (pstate p = PROC_UNUSED)) (g_proc_table s) 0 in
  if i =? NULL then (NULL, s) else
  let newpid := g_next_pid s in
  let s := with_next_pid (u32 (newpid + 1)) s in
  let s := upd i (fun _ => mk_proc newpid parent PROC_BLOCKED intent_ (context proc_zero) 0 0 0 (caps proc_zero)
                             0 0 0 0 0 0 NULL 0 ipc_zero 0 0 0 0 0 0) s in
  let par := if parent =? 0 then NULL else proc_get s parent in
  let uid_ := if par =? NULL then 0 else uid (proc_at s par) in
  let gid_ := if par =? NULL then 0 else gid (proc_at s par) in
  let '(stack, hp) := al_alloc KERNEL_STACK_SIZE (k_heap s) in
  let s := with_heap hp s in
  let s := upd i (fun p => mk_proc (pid p) (parent_pid p) (pstate p) (intent p) (context p) (cr3 p) stack
    (kernel_stack_top p) (caps p) (cap_count p) (ticks_used p) (exit_code p) (mmap_top p) (blocked_on_pid p)
    (wake_tick p) (sched_link p) (ipc p) (inbox p) (fs_base p) (fpu_state p) (fpu_stash p) (pending_signals p)
    uid_ gid_) s in
  if stack =? 0 then (NULL, s) else
  let top := u64 (stack + KERNEL_STACK_SIZE) in
  let '(ip, s) := ipc_alloc_state s in
  let '(fpu, stash, s) := fpu_alloc_state s in
  let s := upd i (fun p => mk_proc (pid p) (parent_pid p) (pstate p) (intent p) (mk_ctx 0 0 0 0 0 0 top idle) cr3_reg
    stack top (caps p) 0 (ticks_used p) (exit_code p) 0x7FF000000000 (blocked_on_pid p)
    (wake_tick p) (sched_link p) ip ipc_zero (fs_base p) fpu stash (pending_signals p) (uid p) (gid p)) s in
  (i, with_audit (audit_record AUDIT_PROC_FORK newpid parent intent_ (k_audit s)) s).

Definition proc_add_cap (pid_ : Z) (token : cap_token) (owner_pid : Z) (delegatable : bool) (s : sys) : bool * sys :=
  let i := proc_get s pid_ in
  if i =? NULL then (false, s) else
  let p := proc_at s i in
  if MAX_CAPS_PER_PROC <=? cap_count p then (false, s) else
  (true, upd i (set_caps (caps p).[cap_count p <- mk_cap_entry token owner_pid 0 false delegatable]
                         (cap_count p + 1)) s).

(** ** Ready queues *)

Definition link (s : sys) (i : Z) : Z := sched_link (proc_at s i).

(** The duplicate scan of [sched_enqueue]; [left] counts down the cycle guard. *)
Inductive scan_result := Found | Cycle | Absent.

Fixpoint dedup_scan (left : nat) (s : sys) (p chk : Z) : scan_result :=
  if chk =? NULL then Absent else
  if chk =? p then Found else
  match left with
  | O => Cycle
  | S left' => dedup_scan left' s p (link s chk)
  end.

(** The append scan: the last element, or [None] when the guard trips. *)
Fixpoint last_scan (left : nat) (s : sys) (cur : Z) : option Z :=
  if link s cur =? NULL then Some cur else
  match left with
  | O => None
  | S left' => last_scan left' s (link s cur)
  end.

Definition sched_init (s : sys) : sys :=
  with_slice 0 (with_queues (replicate (Z.to_nat INTENT_COUNT) NULL) s).

Definition sched_enqueue (p : Z) (s : sys) : sys :=
  if p =? NULL then s else
  let q := intent (proc_at s p) in
  if INTENT_COUNT <=? q then s else
  match dedup_scan (Z.to_nat MAX_PROCESSES) s p (g_queues s).[q] with
  | Found | Cycle => s
  | Absent =>
      let s := upd p (set_link NULL) s in
      if (g_queues s).[q] =? NULL then with_queues (g_queues s).[q <- p] s
      else match last_scan (Z.to_nat MAX_PROCESSES) s (g_queues s).[q] with
           | None => s
           | Some cur => upd cur (set_link p) s
           end
  end.

(** The loop of [sched_dequeue]; it has no guard, [fuel] bounds it. *)
Fixpoint dequeue_loop (fuel : nat) (p prev cur : Z) (s : sys) : option sys :=
  match fuel with
  | O => None
  | S fuel' =>
      if cur =? NULL then Some s else
      if cur =? p then
        let s := if negb (prev =? NULL) then upd prev (set_link (link s cur)) s
                 else with_queues (g_queues s).[intent (proc_at s p) <- link s cur] s in
        Some (upd cur (set_link NULL) s)
      else dequeue_loop fuel' p cur (link s cur) s
  end.

Definition sched_dequeue (p : Z) (s : sys) : option sys :=
  if p =? NULL then Some s else
  let q := intent (proc_at s p) in
  if INTENT_COUNT <=? q then Some s else
  dequeue_loop (S (Z.to_nat MAX_PROCESSES)) p NULL (g_queues s).[q] s.

Definition QUEUE_ORDER : list Z := [INTENT_AUDIT; INTENT_INTERACTIVE; INTENT_IO; INTENT_NETWORK; INTENT_COMPUTE].

(** [SLICES[intent]], in the order of the intents. *)
Definition SLICES : list Z := [20; 5; 8; 4; 10].

Fixpoint first_queue (order : list Z) (s : sys) : Z :=
  match order with
  | [] => NULL
  | q :: order' => if negb ((g_queues s).[q] =? NULL) then (g_queues s).[q] else first_queue order' s
  end.

Definition sched_next (s : sys) : Z := first_queue QUEUE_ORDER s.

Definition make_current (p : Z) (s : sys) : sys :=
  with_kstack (kernel_stack_top (proc_at s p)) (with_current p s).

(** Bodies of the two wake-up loops for slot [i]. *)
Definition wake_waiter (i : Z) (s : sys) : sys :=
  let p := proc_at s i in
  if negb (bool_decide (pstate p = PROC_BLOCKED)) || (blocked_on_pid p =? 0) then s else
  let child := proc_get s (blocked_on_pid p) in
  if (child =? NULL) || bool_decide (pstate (proc_at s child) = PROC_ZOMBIE) then
    sched_enqueue i (upd i (set_state PROC_READY) (upd i (set_blocked_on 0) s))
  else s.

Definition unblock_waiters (s : sys) : sys := for_loop (Z.to_nat MAX_PROCESSES) 0 wake_waiter s.

Definition wake_sleeper (i : Z) (s : sys) : sys :=
  let p := proc_at s i in
  if negb (bool_decide (pstate p = PROC_BLOCKED)) || (wake_tick p =? 0) then s else
  if wake_tick p <=? g_uptime_ticks s then
    sched_enqueue i (upd i (set_state PROC_READY) (upd i (set_wake 0) s))
  else s.

Definition unblock_sleepers (s : sys) : sys := for_loop (Z.to_nat MAX_PROCESSES) 0 wake_sleeper s.

(** The timer interrupt, without [net_poll], which does not touch this state. *)
Definition sched_tick (s : sys) : sys :=
  let s := with_uptime (u64 (g_uptime_ticks s + 1)) s in
  let s := if g_current_proc s =? NULL then s
           else upd (g_current_proc s) (fun p => set_ticks (u64 (ticks_used p + 1)) p) s in
  unblock_waiters (unblock_sleepers s).

(** The body of the waiter loop of [proc_exit]. *)
Definition exit_waiter (pid_ i : Z) (s : sys) : sys :=
  let p := proc_at s i in
  if bool_decide (pstate p = PROC_BLOCKED) && (blocked_on_pid p =? pid_) then
    sched_enqueue i (upd i (set_state PROC_READY) (upd i (set_blocked_on 0) s))
  else s.

Definition proc_exit (pid_ code : Z) (s : sys) : sys :=
  let i := proc_get s pid_ in
  if i =? NULL then s else
  let s := upd i (fun p => set_exit code (set_state PROC_ZOMBIE p)) s in
  let ip := ipc (proc_at s i) in
  let s := if negb (ip =? 0) then upd i (set_ipc 0) (ipc_free_state ip s) else s in
  let p := proc_at s i in
  let s := if negb (fpu_state p =? 0)
           then upd i (set_fpu 0 0) (fpu_free_state (fpu_state p) (fpu_stash p) s) else s in
  let s := with_vfs (vfs_close_all_for_pid pid_ (k_vfs s)) s in
  let s := with_audit (audit_record AUDIT_PROC_EXIT pid_ (u64 code) 0 (k_audit s)) s in
  for_loop (Z.to_nat MAX_PROCESSES) 0 (exit_waiter pid_) s.

(** ** Yield *)

(** How [sched_yield] leaves the caller: it returns to it, or switches. *)
Inductive yield_result := Returned | SwitchedTo (prev next : Z).

(** [sti; hlt; cli] lets one timer interrupt in. *)
Definition halt (s : sys) : sys := with_if false (sched_tick (with_if true s)).

(** The idle loop; [None]: still idle after [fuel] interrupts. *)
Fixpoint idle_loop (fuel : nat) (s : sys) : option (Z * sys) :=
  match fuel with
  | O => None
  | S fuel' =>
      let s := unblock_waiters (unblock_sleepers (halt s)) in
      let next := sched_next s in
      if next =? NULL then idle_loop fuel' s else Some (next, s)
  end.

(** The part after the choice of [next]. *)
Definition run_next (prev next : Z) (s : sys) : option (yield_result * sys) :=
  match sched_dequeue next s with
  | None => None
  | Some s =>
      let s := make_current next s in
      let s := with_slice (SLICES.[intent (proc_at s next)]) s in
      let s := upd next (set_state PROC_RUNNING) s in
      if next =? prev then Some (Returned, s) else Some (SwitchedTo prev next, s)
  end.

Definition sched_yield (fuel : nat) (s : sys) : option (yield_result * sys) :=
  if g_current_proc s =? NULL then Some (Returned, s) else
  let s := with_if false s in
  let prev := g_current_proc s in
  let requeue_prev := bool_decide (pstate (proc_at s prev) = PROC_RUNNING) in
  let s := if requeue_prev then sched_enqueue prev (upd prev (set_state PROC_READY) s) else s in
  let s := with_current NULL s in
  let s := unblock_waiters s in
  let next := sched_next s in
  if next =? NULL then
    if requeue_prev then
      let s := make_current prev (halt s) in
      Some (Returned, with_if true (upd prev (set_state PROC_RUNNING) s))
    else
      match idle_loop fuel s with
      | None => None
      | Some (next, s) => run_next prev next s
      end
  else run_next prev next s.

End Ops.

(** ** Abstract queues *)

(** The slots of the list that starts at [h]. *)
Fixpoint chain_q (tbl : list process) (h : Z) (l : list Z) : Prop :=
  match l with
  | [] => h = NULL
  | x :: l' => h = x /\ 0 <= x < MAX_PROCESSES /\ chain_q tbl (sched_link tbl.[x]) l'
  end.

(** The abstract state: a list of slots per intent. *)
Definition queues := Z -> list Z.

Definition enq (q p : Z) (qs : queues) : queues :=
  fun k => if decide (k = q /\ p ∉ qs q) then qs k ++ [p] else qs k.

Definition deq (q p : Z) (qs : queues) : queues :=
  fun k => if decide (k = q) then filter (fun x => x <> p) (qs k) else qs k.

(** The head of the first non-empty list in priority order. *)
Fixpoint pick (order : list Z) (qs : queues) : option Z :=
  match order with
  | [] => None
  | q :: order' => match qs q with x :: _ => Some x | [] => pick order' qs end
  end.

Section Sched.
Context {H V : Type} `{Allocator H} `{FdTable V}.
#[local] Notation "'sys'" := (ksys H V).

Record sched_ok (s : sys) (qs : queues) : Prop := {
  so_tbl : zlen (g_proc_table s) = MAX_PROCESSES;
  so_len : zlen (g_queues s) = INTENT_COUNT;
  so_chain : forall q, 0 <= q < INTENT_COUNT -> chain_q (g_proc_table s) (g_queues s).[q] (qs q);
  so_nodup : forall q, 0 <= q < INTENT_COUNT -> NoDup (qs q);
  so_intent : forall q i, 0 <= q < INTENT_COUNT -> i ∈ qs q -> intent (proc_at s i) = q
}.

(** ** Lists through the table *)

Lemma chain_range tbl h l i : chain_q tbl h l -> i ∈ l -> 0 <= i < MAX_PROCESSES.
Proof.
  revert h. induction l as [|x l IH]; intros h Hc Hi; [by apply not_elem_of_nil in Hi|].
  destruct Hc as (_ & Hx & Hc). apply elem_of_cons in Hi as [->|Hi]; [done|]. by eapply IH.
Qed.

Lemma chain_q_ext tbl tbl' h l :
  (forall i, i ∈ l -> sched_link tbl'.[i] = sched_link tbl.[i]) -> chain_q tbl h l -> chain_q tbl' h l.
Proof.
  revert h. induction l as [|x l IH]; intros h He Hc; [done|]. destruct Hc as (-> & Hx & Hc).
  split; [done|]. split; [done|]. rewrite He by (by left). apply IH; [|done]. intros i Hi. apply He. by right.
Qed.

(** A queue of distinct slots is no longer than the table. *)
Lemma chain_length tbl h l : chain_q tbl h l -> NoDup l -> (length l <= Z.to_nat MAX_PROCESSES)%nat.
Proof.
  intros Hc Hn. replace (Z.to_nat MAX_PROCESSES) with (length (seqZ 0 MAX_PROCESSES)) by (by rewrite length_seqZ).
  apply submseteq_length, NoDup_submseteq; [done|]. intros i Hi. apply elem_of_seqZ.
  pose proof (chain_range tbl h l i Hc Hi). lia.
Qed.

Lemma chain_null tbl h l : chain_q tbl h l -> (h =? NULL) = bool_decide (l = []).
Proof.
  destruct l as [|x l]; cbn [chain_q].
  - intros ->. by rewrite Z.eqb_refl.
  - intros (-> & Hx & _). unfold NULL. destruct (Z.eqb_spec x (-1)); [lia|]. by rewrite bool_decide_false.
Qed.

Lemma dedup_scan_spec (left : nat) (s : sys) p h l :
  chain_q (g_proc_table s) h l -> (length l <= left)%nat ->
  dedup_scan left s p h = if decide (p ∈ l) then Found else Absent.
Proof.
  revert left h. induction l as [|x l IH]; intros left h Hc Hl; cbn [chain_q] in Hc.
  - subst h. destruct left; cbn [dedup_scan]; change (NULL =? NULL) with true; cbn match;
      by rewrite decide_False by apply not_elem_of_nil.
  - destruct Hc as (-> & Hx & Hc). destruct left as [|left]; cbn [length] in Hl; [lia|]. cbn [dedup_scan].
    destruct (Z.eqb_spec x NULL); [unfold NULL in *; lia|]. destruct (Z.eqb_spec x p) as [->|Hne].
    + by rewrite decide_True by (by left).
    + unfold link, proc_at. rewrite (IH left _ Hc) by lia.
      destruct (decide (p ∈ l)), (decide (p ∈ x :: l)) as [Hin|Hin]; try done.
      * exfalso. apply Hin. by right.
      * apply elem_of_cons in Hin as [->|]; done.
Qed.

Lemma last_scan_spec (left : nat) (s : sys) x l :
  chain_q (g_proc_table s) x (x :: l) -> (length l <= left)%nat ->
  exists y, last (x :: l) = Some y /\ last_scan left s x = Some y.
Proof.
  revert left x. induction l as [|z l IH]; intros left x Hc Hl; destruct Hc as (_ & Hx & Hc).
  - exists x. split; [done|]. destruct left; cbn [last_scan]; unfold link, proc_at; cbn [chain_q] in Hc;
      rewrite Hc; done.
  - destruct left as [|left]; cbn [length] in Hl; [lia|]. cbn [last_scan]. unfold link, proc_at.
    assert (Hc' := Hc). destruct Hc' as (E & Hz & _). rewrite E in *.
    destruct (Z.eqb_spec z NULL); [unfold NULL in *; lia|].
    destruct (IH left z Hc) as (y & Hy & ->); [lia|]. exists y. split; [|done]. by rewrite last_cons_cons.
Qed.

(** Linking a fresh slot behind the last one. *)
Lemma chain_append tbl h l y p :
  chain_q tbl h l -> last l = Some y -> NoDup l -> p ∉ l -> 0 <= p < MAX_PROCESSES -> zlen tbl = MAX_PROCESSES ->
  sched_link tbl.[p] = NULL ->
  chain_q tbl.[y <- set_link p tbl.[y]] h (l ++ [p]).
Proof.
  revert h. induction l as [|x l IH]; intros h Hc Hy Hn Hp Hr Hl Hlp; [done|].
  destruct Hc as (-> & Hx & Hc). cbn [app chain_q]. split; [done|]. split; [done|].
  apply NoDup_cons in Hn as [Hxl Hn]. rewrite not_elem_of_cons in Hp. destruct Hp as [Hpx Hpl].
  destruct l as [|z l].
  - injection Hy as ->. rewrite zget_zset_eq by lia. cbn [chain_q sched_link set_link]. split; [done|].
    split; [done|]. cbn [chain_q] in Hc. rewrite zget_zset_ne by lia. done.
  - rewrite last_cons_cons in Hy.
    assert (Hyx : y <> x). { intros ->. apply Hxl. by apply last_Some_elem_of. }
    assert (Hyr : 0 <= y < MAX_PROCESSES) by (eapply chain_range; [exact Hc|by apply last_Some_elem_of]).
    rewrite zget_zset_ne by lia. apply IH; done.
Qed.

(** ** Frames *)

(** What the queue operations and the wake-ups leave alone in a process. *)
Definition static (p : process) : process :=
  set_link 0 (set_state PROC_READY (set_blocked_on 0 (set_wake 0 p))).

(** [s'] differs from [s] in the queues, the links and nothing else. *)
Record relinked (s s' : sys) : Prop := {
  rl_eq : s' = with_queues (g_queues s') (with_table (g_proc_table s') s);
  rl_proc : forall i, set_link 0 (proc_at s' i) = set_link 0 (proc_at s i)
}.

Lemma relinked_refl s : relinked s s.
Proof. split; [by destruct s|done]. Qed.

Lemma relinked_trans s1 s2 s3 : relinked s1 s2 -> relinked s2 s3 -> relinked s1 s3.
Proof.
  intros [E1 P1] [E2 P2]. split; [|intros i; by rewrite P2].
  rewrite E2 at 1. rewrite E1 at 1. done.
Qed.

(** Equal up to the link. *)
Lemma link_fields p q :
  set_link 0 p = set_link 0 q ->
  pid p = pid q /\ pstate p = pstate q /\ intent p = intent q /\ blocked_on_pid p = blocked_on_pid q /\
  wake_tick p = wake_tick q /\ inbox p = inbox q /\ ipc p = ipc q.
Proof. destruct p, q. cbn. intros [=]. by subst. Qed.

Lemma upd_at (s : sys) i j f :
  zlen (g_proc_table s) = MAX_PROCESSES -> 0 <= i < MAX_PROCESSES -> 0 <= j < MAX_PROCESSES ->
  proc_at (upd i f s) j = if decide (j = i) then f (proc_at s i) else proc_at s j.
Proof.
  intros Hl Hi Hj. unfold proc_at, upd. cbn [g_proc_table with_table]. destruct (decide (j = i)) as [->|Hne].
  - by rewrite zget_zset_eq by lia.
  - by rewrite zget_zset_ne by lia.
Qed.

Lemma upd_relinked (s : sys) i l :
  zlen (g_proc_table s) = MAX_PROCESSES -> 0 <= i < MAX_PROCESSES -> relinked s (upd i (set_link l) s).
Proof.
  intros Hl Hi. split; [by destruct s|]. intros j. unfold proc_at, upd. cbn [g_proc_table with_table].
  unfold zget, zset. destruct (decide (Z.to_nat j = Z.to_nat i)) as [E|E].
  - rewrite E, list_lookup_total_insert_eq by (unfold zlen in Hl; lia). done.
  - by rewrite list_lookup_total_insert_ne by done.
Qed.

Lemma queues_relinked (s : sys) Q : relinked s (with_queues Q s).
Proof. split; [by destruct s|done]. Qed.

(** ** Enqueue *)

Lemma enq_other q p qs k : k <> q -> enq q p qs k = qs k.
Proof. intros Hk. unfold enq. by rewrite decide_False by tauto. Qed.
Lemma enq_dup q p qs k : p ∈ qs q -> enq q p qs k = qs k.
Proof. intros Hp. unfold enq. by rewrite decide_False by tauto. Qed.
Lemma enq_new q p qs : p ∉ qs q -> enq q p qs q = qs q ++ [p].
Proof. intros Hp. unfold enq. by rewrite decide_True by tauto. Qed.

(** The links of slots outside [dom] may change freely for a queue not using them. *)
Lemma chain_upd_other tbl i f h l :
  zlen tbl = MAX_PROCESSES -> 0 <= i < MAX_PROCESSES -> i ∉ l -> chain_q tbl h l ->
  chain_q tbl.[i <- f] h l.
Proof.
  intros Hl Hi Hn Hc. apply (chain_q_ext tbl); [|done]. intros j Hj. f_equal. apply zget_zset_ne.
  - lia.
  - pose proof (chain_range tbl h l j Hc Hj). lia.
  - by intros ->.
Qed.

Lemma sched_ok_intent_ne s qs q k p :
  sched_ok s qs -> 0 <= k < INTENT_COUNT -> intent (proc_at s p) = q -> k <> q -> p ∉ qs k.
Proof. intros Hok Hk Hq Hne Hin. apply Hne. rewrite <- Hq. symmetry. by apply (so_intent s qs Hok). Qed.

Lemma sched_enqueue_spec s qs p q :
  sched_ok s qs -> 0 <= p < MAX_PROCESSES -> intent (proc_at s p) = q -> 0 <= q < INTENT_COUNT ->
  sched_ok (sched_enqueue p s) (enq q p qs) /\ relinked s (sched_enqueue p s).
Proof.
  intros Hok Hp Hq Hr. destruct (Hok) as [Ht Hl Hc Hn Hi].
  unfold sched_enqueue. destruct (Z.eqb_spec p NULL); [unfold NULL in *; lia|].
  rewrite Hq. destruct (Z.leb_spec INTENT_COUNT q); [lia|].
  rewrite (dedup_scan_spec _ s p _ (qs q)) by first [by apply Hc | eapply chain_length; [by apply Hc|by apply Hn]].
  destruct (decide (p ∈ qs q)) as [Hin|Hin].
  { split; [|apply relinked_refl]. constructor; try done; intros k *; rewrite enq_dup by done; auto. }
  set (s1 := upd p (set_link NULL) s).
  assert (T1 : zlen (g_proc_table s1) = MAX_PROCESSES) by (cbn; by rewrite zlen_zset).
  assert (Q1 : g_queues s1 = g_queues s) by done.
  assert (L1 : sched_link (g_proc_table s1).[p] = NULL) by (cbn; by rewrite zget_zset_eq by lia).
  assert (C1 : forall k, 0 <= k < INTENT_COUNT -> chain_q (g_proc_table s1) (g_queues s).[k] (qs k)).
  { intros k Hk. cbn. apply chain_upd_other; [done|lia| |auto].
    destruct (decide (k = q)) as [->|]; [done|]. by apply (sched_ok_intent_ne s qs q k p). }
  assert (R1 : relinked s s1) by (by apply upd_relinked).
  assert (I1 : forall i, intent (proc_at s1 i) = intent (proc_at s i)).
  { intros i. by destruct (link_fields _ _ (rl_proc _ _ R1 i)) as (_ & _ & ? & _). }
  assert (Hnew : forall k, 0 <= k < INTENT_COUNT -> NoDup (enq q p qs k)).
  { intros k Hk. destruct (decide (k = q)) as [->|Hne]; [|rewrite enq_other by done; auto].
    rewrite enq_new by done. apply NoDup_app. split; [auto|]. split; [|apply NoDup_singleton].
    intros x Hx Hx'. apply list_elem_of_singleton in Hx' as ->. done. }
  assert (Hint : forall s2, relinked s1 s2 -> forall k i, 0 <= k < INTENT_COUNT -> i ∈ enq q p qs k -> intent (proc_at s2 i) = k).
  { intros s2 R2 k i Hk Hik. destruct (link_fields _ _ (rl_proc _ _ R2 i)) as (_ & _ & -> & _). rewrite I1.
    destruct (decide (k = q)) as [->|Hne]; [|rewrite enq_other in Hik by done; auto].
    rewrite enq_new in Hik by done. apply elem_of_app in Hik as [Hik|Hik]; [auto|].
    apply list_elem_of_singleton in Hik as ->. done. }
  rewrite Q1. destruct (qs q) as [|x l] eqn:Eq.
  - assert (Ez : (g_queues s).[q] = NULL) by (specialize (C1 q Hr); by rewrite Eq in C1). rewrite Ez. change (NULL =? NULL) with true.
    cbn match. assert (R2 : relinked s1 (with_queues (g_queues s).[q <- p] s1)) by apply queues_relinked.
    split; [|by eapply relinked_trans]. constructor; [done|cbn; by rewrite zlen_zset| |done|by apply Hint].
    intros k Hk. cbn. destruct (decide (k = q)) as [->|Hne].
    + rewrite zget_zset_eq, enq_new, Eq by (rewrite ?Eq; done || lia). cbn. done.
    + rewrite zget_zset_ne, enq_other by (done || lia). by apply C1.
  - assert (Ez : (g_queues s).[q] = x) by (specialize (C1 q Hr); rewrite Eq in C1; by destruct C1). rewrite Ez.
    assert (Cq : chain_q (g_proc_table s1) x (x :: l)) by (specialize (C1 q Hr); by rewrite Eq, Ez in C1).
    assert (Hx : 0 <= x < MAX_PROCESSES) by (by destruct Cq as (_ & ? & _)).
    destruct (Z.eqb_spec x NULL); [unfold NULL in *; lia|].
    assert (Nq : NoDup (x :: l)) by (rewrite <- Eq; auto).
    destruct (last_scan_spec (Z.to_nat MAX_PROCESSES) s1 x l Cq) as (y & Ey & ->).
    { pose proof (chain_length _ _ _ Cq Nq). cbn [length] in *. lia. }
    assert (Hy : 0 <= y < MAX_PROCESSES) by (eapply chain_range; [exact Cq|by apply last_Some_elem_of]).
    assert (R2 : relinked s1 (upd y (set_link p) s1)) by (by apply upd_relinked).
    split; [|by eapply relinked_trans]. constructor; [cbn; by rewrite !zlen_zset|done| |done|by apply Hint].
    intros k Hk. change (g_queues (upd y (set_link p) s1)) with (g_queues s).
    change (g_proc_table (upd y (set_link p) s1)) with ((g_proc_table s1).[y <- set_link p (g_proc_table s1).[y]]).
    destruct (decide (k = q)) as [->|Hne].
    + rewrite enq_new, Eq, Ez by (by rewrite Eq). apply chain_append; done || lia.
    + rewrite enq_other by done. apply chain_upd_other; [done|done| |by apply C1].
      apply (sched_ok_intent_ne s qs q k y); [done|done| |done]. apply Hi; [done|]. rewrite Eq. by apply last_Some_elem_of.
Qed.

(** ** Dequeue *)

Definition last_or (d : Z) (l : list Z) : Z := default d (last l).

Lemma dequeue_walk (fuel : nat) (s : sys) p prev h l1 l3 :
  chain_q (g_proc_table s) h (l1 ++ l3) -> p ∉ l1 ->
  exists h', chain_q (g_proc_table s) h' l3 /\
    dequeue_loop (length l1 + fuel) p prev h s = dequeue_loop fuel p (last_or prev l1) h' s.
Proof.
  revert h prev. induction l1 as [|x l1 IH]; intros h prev Hc Hp; [by exists h|].
  destruct Hc as (-> & Hx & Hc). apply not_elem_of_cons in Hp as [Hpx Hp].
  destruct (IH _ x Hc Hp) as (h' & Hc' & E). exists h'. split; [done|].
  cbn [length Nat.add dequeue_loop]. destruct (Z.eqb_spec x NULL); [unfold NULL in *; lia|].
  destruct (Z.eqb_spec x p); [done|]. unfold link, proc_at. rewrite E. f_equal. unfold last_or.
  destruct l1 as [|y l1]; [done|]. rewrite last_cons_cons. cbn. by destruct (last (y :: l1)) eqn:El; [|apply last_None in El].
Qed.

(** Unlinking [p] behind its predecessor. *)
Lemma chain_unlink tbl h l1 l2 y p :
  chain_q tbl h (l1 ++ p :: l2) -> NoDup (l1 ++ p :: l2) -> last l1 = Some y -> zlen tbl = MAX_PROCESSES ->
  chain_q tbl.[y <- set_link (sched_link tbl.[p]) tbl.[y]] h (l1 ++ l2).
Proof.
  intros Hc Hn Hy Hl. revert h Hc. induction l1 as [|x l1 IH]; intros h Hc; [done|].
  destruct Hc as (-> & Hx & Hc). cbn [app] in Hn. apply NoDup_cons in Hn as [Hxl Hn].
  cbn [app chain_q]. split; [done|]. split; [done|]. destruct l1 as [|z l1].
  - injection Hy as ->. rewrite zget_zset_eq by lia. cbn [app] in *. destruct Hc as (E & Hp & Hc). cbn [sched_link set_link].
    apply chain_upd_other; [done|done| |done]. intros Hin. apply Hxl. by right.
  - rewrite last_cons_cons in Hy.
    assert (Hin : y ∈ (z :: l1) ++ p :: l2) by (apply elem_of_app; left; by apply last_Some_elem_of).
    assert (Hyx : y <> x) by (by intros ->).
    assert (Hyr : 0 <= y < MAX_PROCESSES) by (by eapply chain_range).
    rewrite zget_zset_ne by lia. apply IH; done.
Qed.

Lemma filter_absent (p : Z) (l : list Z) : p ∉ l -> filter (fun x => x <> p) l = l.
Proof.
  induction l as [|x l IH]; intros Hp; [done|]. apply not_elem_of_cons in Hp as [Hx Hp].
  rewrite filter_cons_True by done. by rewrite IH.
Qed.

Lemma filter_remove (p : Z) (l1 l2 : list Z) : NoDup (l1 ++ p :: l2) -> filter (fun x => x <> p) (l1 ++ p :: l2) = l1 ++ l2.
Proof.
  intros Hn. apply NoDup_app in Hn as (_ & H2' & H3'). apply NoDup_cons in H3' as [H3' _].
  rewrite filter_app, filter_cons_False by tauto. rewrite !filter_absent; [done|done|].
  intros Hin. apply (H2' p Hin). by left.
Qed.

Lemma deq_other q p qs k : k <> q -> deq q p qs k = qs k.
Proof. intros Hk. unfold deq. by rewrite decide_False by done. Qed.
Lemma deq_same q p qs : deq q p qs q = filter (fun x => x <> p) (qs q).
Proof. unfold deq. by rewrite decide_True by done. Qed.

(** A state whose queue [q] lost [p]. *)
Lemma dequeued_ok s s' qs p q :
  sched_ok s qs -> 0 <= q < INTENT_COUNT -> relinked s s' ->
  zlen (g_proc_table s') = MAX_PROCESSES -> zlen (g_queues s') = INTENT_COUNT ->
  (forall k, 0 <= k < INTENT_COUNT -> chain_q (g_proc_table s') (g_queues s').[k] (deq q p qs k)) ->
  sched_ok s' (deq q p qs).
Proof.
  intros [Ht Hl Hc Hn Hi] Hq Hr Ht' Hl' Hc'.
  assert (Sub : forall k i, i ∈ deq q p qs k -> i ∈ qs k).
  { intros k i. destruct (decide (k = q)) as [->|]; [|by rewrite deq_other].
    rewrite deq_same. intros Hin. by apply list_elem_of_filter in Hin as [_ Hin]. }
  constructor; try done.
  - intros k Hk. destruct (decide (k = q)) as [->|]; [|rewrite deq_other by done; auto].
    rewrite deq_same. apply NoDup_filter. auto.
  - intros k i Hk Hin. destruct (link_fields _ _ (rl_proc _ _ Hr i)) as (_ & _ & -> & _). auto.
Qed.

Lemma sched_dequeue_spec s qs p q :
  sched_ok s qs -> 0 <= p < MAX_PROCESSES -> intent (proc_at s p) = q -> 0 <= q < INTENT_COUNT ->
  exists s', sched_dequeue p s = Some s' /\ sched_ok s' (deq q p qs) /\ relinked s s'.
Proof.
  intros Hok Hp Hq Hr. destruct (Hok) as [Ht Hl Hc Hn Hi].
  unfold sched_dequeue. destruct (Z.eqb_spec p NULL); [unfold NULL in *; lia|].
  rewrite Hq. destruct (Z.leb_spec INTENT_COUNT q); [lia|].
  assert (Hlen := chain_length _ _ _ (Hc q Hr) (Hn q Hr)).
  destruct (decide (p ∈ qs q)) as [Hin|Hin].
  - destruct (list_elem_of_split _ _ Hin) as (l1 & l2 & E). assert (Hcq := Hc q Hr). assert (Hnq := Hn q Hr).
    rewrite E in Hcq, Hnq, Hlen. rewrite length_app in Hlen. cbn [length] in Hlen.
    assert (Hp1 : p ∉ l1). { apply NoDup_app in Hnq as (_ & D & _). intros Hin1. apply (D p Hin1). by left. }
    replace (S (Z.to_nat MAX_PROCESSES)) with (length l1 + S (Z.to_nat MAX_PROCESSES - length l1))%nat by lia.
    destruct (dequeue_walk (S (Z.to_nat MAX_PROCESSES - length l1)) s p NULL _ _ _ Hcq Hp1) as (h' & Hc' & ->).
    destruct Hc' as (-> & _ & Hc2). cbn [dequeue_loop].
    destruct (Z.eqb_spec p NULL); [unfold NULL in *; lia|]. rewrite Z.eqb_refl.
    assert (Hdq : deq q p qs q = l1 ++ l2) by (rewrite deq_same, E; by apply filter_remove).
    assert (Hpn : p ∉ l1 ++ l2).
    { apply NoDup_app in Hnq as (_ & D & N2). apply NoDup_cons in N2 as [N2 _]. rewrite elem_of_app. intros [?|?]; done. }
    assert (Hother : forall tbl' k, 0 <= k < INTENT_COUNT -> k <> q ->
      (forall i, i ∉ qs q -> 0 <= i < MAX_PROCESSES -> sched_link tbl'.[i] = sched_link (g_proc_table s).[i]) ->
      chain_q tbl' (g_queues s).[k] (deq q p qs k)).
    { intros tbl' k Hk Hne Ha. rewrite deq_other by done. apply (chain_q_ext (g_proc_table s)); [|auto].
      intros i Hik. apply Ha; [|eapply chain_range; [by apply Hc|done]].
      apply (sched_ok_intent_ne s qs k q i); [done|done|by apply Hi|done]. }
    destruct (last l1) as [y|] eqn:El.
    + assert (Ey : last_or NULL l1 = y) by (unfold last_or; by rewrite El). rewrite Ey.
      assert (Hy1 : y ∈ l1) by (by apply last_Some_elem_of).
      assert (Hyq : y ∈ qs q) by (rewrite E; apply elem_of_app; by left).
      assert (Hyr : 0 <= y < MAX_PROCESSES) by (eapply chain_range; [by apply Hc|done]).
      destruct (Z.eqb_spec y NULL); [unfold NULL in *; lia|]. cbn [negb].
      eexists. split; [reflexivity|].
      set (s1 := upd y (set_link (link s p)) s).
      assert (T1 : zlen (g_proc_table s1) = MAX_PROCESSES) by (cbn; by rewrite zlen_zset).
      assert (R1 : relinked s s1) by (by apply upd_relinked).
      assert (R2 : relinked s1 (upd p (set_link NULL) s1)) by (by apply upd_relinked).
      assert (R : relinked s (upd p (set_link NULL) s1)) by (by eapply relinked_trans).
      split; [|done]. apply (dequeued_ok s); [done|done|done|cbn; by rewrite !zlen_zset|done|].
      intros k Hk. change (g_queues (upd p (set_link NULL) s1)) with (g_queues s).
      destruct (decide (k = q)) as [->|Hne].
      * rewrite Hdq. cbn. apply chain_upd_other; [by rewrite zlen_zset|done|done|]. by apply chain_unlink.
      * apply Hother; [done|done|]. intros i Hiq Hir. cbn.
        rewrite zget_zset_ne by (try lia; intros ->; done). rewrite zget_zset_ne by (try lia; intros ->; done). done.
    + apply last_None in El as ->. change (last_or NULL []) with NULL. change (NULL =? NULL) with true. cbn [negb].
      eexists. split; [reflexivity|]. rewrite Hq. cbn [app] in *.
      set (s1 := with_queues (g_queues s).[q <- link s p] s).
      assert (R2 : relinked s1 (upd p (set_link NULL) s1)) by (by apply upd_relinked).
      assert (R : relinked s (upd p (set_link NULL) s1)) by (eapply relinked_trans; [apply queues_relinked|done]).
      split; [|done]. apply (dequeued_ok s); [done|done|done|cbn; by rewrite zlen_zset|cbn; by rewrite zlen_zset|].
      intros k Hk. cbn. destruct (decide (k = q)) as [->|Hne].
      * rewrite Hdq, zget_zset_eq by lia. by apply chain_upd_other.
      * rewrite zget_zset_ne by lia. apply Hother; [done|done|]. intros i Hiq Hir.
        rewrite zget_zset_ne by (try lia; intros ->; done). done.
  - assert (Hcq := Hc q Hr). rewrite <- (app_nil_r (qs q)) in Hcq.
    replace (S (Z.to_nat MAX_PROCESSES)) with (length (qs q) + S (Z.to_nat MAX_PROCESSES - length (qs q)))%nat by lia.
    destruct (dequeue_walk (S (Z.to_nat MAX_PROCESSES - length (qs q))) s p NULL _ _ _ Hcq Hin) as (h' & Hc' & ->).
    cbn [chain_q] in Hc'. subst h'. cbn [dequeue_loop]. change (NULL =? NULL) with true. cbn match.
    exists s. split; [done|]. split; [|apply relinked_refl].
    apply (dequeued_ok s); [done|done|apply relinked_refl|done|done|]. intros k Hk.
    destruct (decide (k = q)) as [->|]; [|rewrite deq_other by done; auto]. rewrite deq_same, filter_absent by done. auto.
Qed.

(** ** Choice of the next process *)

Lemma first_queue_pick s qs order :
  sched_ok s qs -> Forall (fun q => 0 <= q < INTENT_COUNT) order ->
  first_queue order s = default NULL (pick order qs).
Proof.
  intros Hok Ho. induction Ho as [|q order Hq Ho IH]; [done|]. cbn [first_queue pick].
  pose proof (so_chain s qs Hok q Hq) as Hc. rewrite (chain_null _ _ _ Hc).
  destruct (qs q) as [|x l] eqn:E; [done|]. destruct Hc as (-> & _). done.
Qed.

Lemma sched_next_pick s qs : sched_ok s qs -> sched_next s = default NULL (pick QUEUE_ORDER qs).
Proof.
  intros Hok. apply (first_queue_pick s qs); [done|]. unfold INTENT_COUNT. repeat (constructor; [unfold INTENT_AUDIT, INTENT_INTERACTIVE, INTENT_IO, INTENT_NETWORK, INTENT_COMPUTE; lia|]). done.
Qed.

Lemma pick_elem order qs x : pick order qs = Some x -> exists q, q ∈ order /\ x ∈ qs q.
Proof.
  induction order as [|q order IH]; [done|]. cbn [pick]. destruct (qs q) as [|y l] eqn:E.
  - intros Hx. destruct (IH Hx) as (k & Hk & Hin). exists k. split; [by right|done].
  - intros [= ->]. exists q. split; [by left|]. rewrite E. by left.
Qed.

Lemma pick_none order qs q x : pick order qs = None -> q ∈ order -> x ∉ qs q.
Proof.
  induction order as [|k order IH]; intros Hp Hq; [by apply not_elem_of_nil in Hq|]. cbn [pick] in Hp.
  destruct (qs k) as [|y l] eqn:E; [|done]. apply elem_of_cons in Hq as [->|Hq]; [|by apply IH].
  rewrite E. apply not_elem_of_nil.
Qed.

(** ** Wake-ups *)

Definition intents_ok (s : sys) : Prop := forall i, 0 <= i < MAX_PROCESSES -> 0 <= intent (proc_at s i).

(** [s'] is [s] after some blocked processes were made ready and queued. *)
Record wakes (s : sys) (qs : queues) (s' : sys) (qs' : queues) : Prop := {
  wk_ok : sched_ok s' qs';
  wk_eq : s' = with_queues (g_queues s') (with_table (g_proc_table s') s);
  wk_static : forall i, 0 <= i < MAX_PROCESSES -> static (proc_at s' i) = static (proc_at s i);
  wk_state : forall i, 0 <= i < MAX_PROCESSES -> set_link 0 (proc_at s' i) = set_link 0 (proc_at s i) \/
    (pstate (proc_at s i) = PROC_BLOCKED /\ pstate (proc_at s' i) = PROC_READY /\
     (0 <= intent (proc_at s i) < INTENT_COUNT -> i ∈ qs' (intent (proc_at s i))));
  wk_prefix : forall q, 0 <= q < INTENT_COUNT -> qs q `prefix_of` qs' q;
  wk_new : forall q i, 0 <= q < INTENT_COUNT -> i ∈ qs' q ->
    i ∈ qs q \/ (0 <= i < MAX_PROCESSES /\ pstate (proc_at s i) = PROC_BLOCKED /\ pstate (proc_at s' i) = PROC_READY)
}.

Lemma static_intent p q : static p = static q -> intent p = intent q /\ pid p = pid q /\ kernel_stack_top p = kernel_stack_top q.
Proof. destruct p, q. cbn. intros [=]. by subst. Qed.

Lemma wakes_refl s qs : sched_ok s qs -> wakes s qs s qs.
Proof. intros Hok. constructor; [done|by destruct s|done|by left|done|by left]. Qed.

Lemma wakes_trans s1 q1 s2 q2 s3 q3 : wakes s1 q1 s2 q2 -> wakes s2 q2 s3 q3 -> wakes s1 q1 s3 q3.
Proof.
  intros [O1 E1 S1 T1 P1 N1] [O2 E2 S2 T2 P2 N2]. constructor; [done| | | | |].
  - rewrite E2 at 1. rewrite E1 at 1. done.
  - intros i Hr. by rewrite S2, S1.
  - intros i Hi. destruct (static_intent _ _ (S1 i Hi)) as [Ei _].
    destruct (T1 i Hi) as [A|(A & B & C)], (T2 i Hi) as [D|(D & F & G)].
    + left. by rewrite D.
    + right. destruct (link_fields _ _ A) as (_ & Ep & _). rewrite Ep, Ei in *. done.
    + right. split; [done|]. destruct (link_fields _ _ D) as (_ & Ep & _). rewrite Ep. split; [done|].
      intros Hr. eapply elem_of_prefix; [by apply C|by apply P2].
    + congruence.
  - intros q Hq. etrans; [by apply P1|by apply P2].
  - intros q i Hq Hin. destruct (N2 q i Hq Hin) as [Hin2|(Hi & Hb & Hr)].
    + destruct (N1 q i Hq Hin2) as [|(Hi & Hb & Hr)]; [by left|right]. split; [done|]. split; [done|].
      destruct (T2 i Hi) as [E|(E & _)]; [|congruence]. by destruct (link_fields _ _ E) as (_ & -> & _).
    + right. split; [done|]. split; [|done]. destruct (T1 i Hi) as [E|(E & _)]; [|done].
      by destruct (link_fields _ _ E) as (_ & <- & _).
Qed.

Lemma ok_with_if s qs b : sched_ok s qs -> sched_ok (with_if b s) qs.
Proof. intros []. by constructor. Qed.

Lemma intents_with_if (s : sys) b : intents_ok s -> intents_ok (with_if b s).
Proof. done. Qed.

Lemma wakes_intents s qs s' qs' : wakes s qs s' qs' -> intents_ok s -> intents_ok s'.
Proof. intros Hw Hi i Hr. destruct (static_intent _ _ (wk_static _ _ _ _ Hw i Hr)) as [-> _]. auto. Qed.

(** Stores that touch neither the link nor the intent. *)
Lemma upd_ok s qs i f :
  sched_ok s qs -> 0 <= i < MAX_PROCESSES ->
  (forall p, sched_link (f p) = sched_link p /\ intent (f p) = intent p) -> sched_ok (upd i f s) qs.
Proof.
  intros [Ht Hl Hc Hn Hi] Hr Hf.
  assert (Hin : forall j, sched_link (proc_at (upd i f s) j) = sched_link (proc_at s j) /\
                          intent (proc_at (upd i f s) j) = intent (proc_at s j)).
  { intros j. unfold proc_at, upd. cbn [g_proc_table with_table]. unfold zget, zset.
    destruct (decide (Z.to_nat j = Z.to_nat i)) as [E|E].
    - rewrite E, list_lookup_total_insert_eq by (unfold zlen in Ht; lia). apply Hf.
    - by rewrite list_lookup_total_insert_ne by done. }
  constructor; [cbn; by rewrite zlen_zset|done| |done|].
  - intros q Hq. apply (chain_q_ext (g_proc_table s)); [|by apply Hc]. intros j Hj. apply Hin.
  - intros q j Hq Hj. destruct (Hin j) as [_ ->]. auto.
Qed.

Lemma enqueue_any s qs i :
  sched_ok s qs -> intents_ok s -> 0 <= i < MAX_PROCESSES ->
  exists qs', sched_ok (sched_enqueue i s) qs' /\ relinked s (sched_enqueue i s) /\
    (forall q, 0 <= q < INTENT_COUNT -> qs q `prefix_of` qs' q) /\
    (intent (proc_at s i) < INTENT_COUNT -> i ∈ qs' (intent (proc_at s i))) /\
    (forall q j, j ∈ qs' q -> j ∈ qs q \/ j = i).
Proof.
  intros Hok Hint Hi. destruct (decide (intent (proc_at s i) < INTENT_COUNT)) as [Hq|Hq].
  - set (q := intent (proc_at s i)) in *. exists (enq q i qs).
    destruct (sched_enqueue_spec s qs i q Hok Hi eq_refl ltac:(split; [by apply Hint|done])) as [A B].
    split; [done|]. split; [done|]. destruct (decide (i ∈ qs q)) as [Hin|Hin].
    + split; [intros k Hk; by rewrite enq_dup|]. split; [intros _; by rewrite enq_dup|].
      intros k j. rewrite enq_dup by done. by left.
    + split; [|split; [intros _; rewrite enq_new by done; apply elem_of_app; right; by apply list_elem_of_singleton|]].
      2: { intros k j. unfold enq. destruct (decide _); [|by left].
           intros [Hj|Hj%list_elem_of_singleton]%elem_of_app; [by left|by right]. }
      intros k Hk. destruct (decide (k = q)) as [->|]; [rewrite enq_new by done; by apply prefix_app_r|by rewrite enq_other].
  - exists qs. unfold sched_enqueue. destruct (Z.eqb_spec i NULL); [unfold NULL in *; lia|].
    destruct (Z.leb_spec INTENT_COUNT (intent (proc_at s i))); [|lia].
    split; [done|]. split; [apply relinked_refl|]. split; [done|]. split; [lia|by left].
Qed.

(** The common body: clear a field, make ready, enqueue. *)
Lemma wake_one s qs i g :
  sched_ok s qs -> intents_ok s -> 0 <= i < MAX_PROCESSES -> pstate (proc_at s i) = PROC_BLOCKED ->
  (forall p, sched_link (g p) = sched_link p /\ intent (g p) = intent p /\ static (g p) = static p) ->
  let s' := sched_enqueue i (upd i (set_state PROC_READY) (upd i g s)) in
  exists qs', wakes s qs s' qs' /\ pstate (proc_at s' i) = PROC_READY /\
    (forall j, 0 <= j < MAX_PROCESSES -> j <> i -> set_link 0 (proc_at s' j) = set_link 0 (proc_at s j)).
Proof.
  intros Hok Hint Hi Hb Hg. cbn zeta. set (s1 := upd i g s). set (s2 := upd i (set_state PROC_READY) s1).
  assert (O1 : sched_ok s1 qs) by (apply upd_ok; [done|done|]; intros p; by destruct (Hg p) as (? & ? & _)).
  assert (O2 : sched_ok s2 qs) by (by apply upd_ok).
  assert (At : forall j, 0 <= j < MAX_PROCESSES ->
    proc_at s2 j = if decide (j = i) then set_state PROC_READY (g (proc_at s i)) else proc_at s j).
  { intros j Hj. unfold s2, s1. rewrite !upd_at by (cbn; rewrite ?zlen_zset; first [exact (so_tbl _ _ Hok) | done]).
    by destruct (decide (j = i)); [rewrite decide_True|]. }
  assert (St : forall j, 0 <= j < MAX_PROCESSES -> static (proc_at s2 j) = static (proc_at s j)).
  { intros j Hj. rewrite At by done. destruct (decide (j = i)) as [->|]; [|done].
    destruct (Hg (proc_at s i)) as (_ & _ & <-). by destruct (g (proc_at s i)). }
  assert (I2 : intents_ok s2) by (intros j Hj; destruct (static_intent _ _ (St j Hj)) as [-> _]; auto).
  destruct (enqueue_any s2 qs i O2 I2 Hi) as (qs' & O3 & R3 & P3 & M3 & N3). exists qs'.
  assert (E2i : intent (proc_at s2 i) = intent (proc_at s i)) by (by apply static_intent, St).
  assert (Rdy : pstate (proc_at (sched_enqueue i s2) i) = PROC_READY).
  { destruct (link_fields _ _ (rl_proc _ _ R3 i)) as (_ & -> & _). by rewrite At, decide_True by done. }
  assert (Keep : forall j, 0 <= j < MAX_PROCESSES -> j <> i ->
    set_link 0 (proc_at (sched_enqueue i s2) j) = set_link 0 (proc_at s j)).
  { intros j Hj Hne. by rewrite (rl_proc _ _ R3 j), At, decide_False. }
  split; [|by split]. constructor; [done| | | |done|].
  - rewrite (rl_eq _ _ R3) at 1. done.
  - intros j Hj. rewrite <- (St j Hj). pose proof (rl_proc _ _ R3 j) as E. apply (f_equal static) in E. done.
  - intros j Hj. destruct (decide (j = i)) as [->|Hne].
    + right. split; [done|]. split; [done|]. intros Hr. rewrite <- E2i. apply M3. lia.
    + left. by apply Keep.
  - intros q j _ Hj. destruct (N3 q j Hj) as [Ho| ->]; [by left|by right].
Qed.

(** Everything but the link is kept at the slots of [P]. *)
Definition keeps (P : Z -> Prop) (s s' : sys) : Prop :=
  forall j, 0 <= j < MAX_PROCESSES -> P j -> set_link 0 (proc_at s' j) = set_link 0 (proc_at s j).

(** Waiting for no process; asleep past tick [u], or not asleep. *)
Definition not_waiting (p : process) : Prop := blocked_on_pid p = 0.
Definition not_due (u : Z) (p : process) : Prop :=
  pstate p <> PROC_BLOCKED \/ wake_tick p = 0 \/ u < wake_tick p.

#[export] Instance not_due_dec u p : Decision (not_due u p).
Proof. unfold not_due. apply _. Defined.

Lemma not_waiting_link p q : set_link 0 p = set_link 0 q -> not_waiting q -> not_waiting p.
Proof. intros E. unfold not_waiting. by destruct (link_fields _ _ E) as (_ & _ & _ & -> & _). Qed.

Lemma not_due_link u p q : set_link 0 p = set_link 0 q -> not_due u q -> not_due u p.
Proof. intros E. unfold not_due. by destruct (link_fields _ _ E) as (_ & -> & _ & _ & -> & _). Qed.

Lemma wake_waiter_wakes s qs i :
  sched_ok s qs -> intents_ok s -> 0 <= i < MAX_PROCESSES ->
  exists qs', wakes s qs (wake_waiter i s) qs' /\ keeps (fun j => j <> i \/ not_waiting (proc_at s j)) s (wake_waiter i s).
Proof.
  intros Hok Hint Hi. pose proof (wakes_refl s qs Hok) as Id. unfold wake_waiter.
  destruct (bool_decide_reflect (pstate (proc_at s i) = PROC_BLOCKED)) as [Hb|]; cbn [negb orb]; [|by exists qs].
  destruct (Z.eqb_spec (blocked_on_pid (proc_at s i)) 0) as [|Hz]; [by exists qs|].
  destruct (_ || _); [|by exists qs].
  destruct (wake_one s qs i (set_blocked_on 0)) as (qs' & W & _ & K); [done..|exists qs'].
  split; [done|]. intros j Hj [Hne|Hn]; apply K; [done|done|done|]. by intros ->.
Qed.

Lemma wake_sleeper_wakes s qs i :
  sched_ok s qs -> intents_ok s -> 0 <= i < MAX_PROCESSES ->
  exists qs', wakes s qs (wake_sleeper i s) qs' /\
    keeps (fun j => j <> i \/ not_due (g_uptime_ticks s) (proc_at s j)) s (wake_sleeper i s).
Proof.
  intros Hok Hint Hi. pose proof (wakes_refl s qs Hok) as Id. unfold wake_sleeper.
  destruct (bool_decide_reflect (pstate (proc_at s i) = PROC_BLOCKED)) as [Hb|]; cbn [negb orb]; [|by exists qs].
  destruct (Z.eqb_spec (wake_tick (proc_at s i)) 0) as [|Hz]; [by exists qs|].
  destruct (Z.leb_spec (wake_tick (proc_at s i)) (g_uptime_ticks s)) as [Hd|]; [|by exists qs].
  destruct (wake_one s qs i (set_wake 0)) as (qs' & W & _ & K); [done..|exists qs'].
  split; [done|]. intros j Hj [Hne|Hn]; apply K; [done|done|done|]. intros ->. destruct Hn as [?|[?|?]]; [done|done|lia].
Qed.

Lemma wakes_uptime s qs s' qs' : wakes s qs s' qs' -> g_uptime_ticks s' = g_uptime_ticks s.
Proof. intros Hw. by rewrite (wk_eq _ _ _ _ Hw). Qed.

(** A loop over the table whose body only wakes processes outside [P]. *)
Lemma wake_loop (body : Z -> sys -> sys) (P : process -> Prop) s qs :
  (forall p q, set_link 0 p = set_link 0 q -> P q -> P p) ->
  (forall s1 qs i, sched_ok s1 qs -> intents_ok s1 -> 0 <= i < MAX_PROCESSES -> g_uptime_ticks s1 = g_uptime_ticks s ->
     exists qs', wakes s1 qs (body i s1) qs' /\ keeps (fun j => j <> i \/ P (proc_at s1 j)) s1 (body i s1)) ->
  sched_ok s qs -> intents_ok s ->
  exists qs', wakes s qs (for_loop (Z.to_nat MAX_PROCESSES) 0 body s) qs' /\
    keeps (fun j => P (proc_at s j)) s (for_loop (Z.to_nat MAX_PROCESSES) 0 body s).
Proof.
  intros HP Hb Hok Hint.
  apply (for_loop_ind (fun _ s' => exists qs', wakes s qs s' qs' /\ keeps (fun j => P (proc_at s j)) s s')
           (Z.to_nat MAX_PROCESSES) 0 body s).
  - exists qs. split; [by apply wakes_refl|]. by intros j.
  - intros j s1 Hj (q1 & W1 & K1).
    destruct (Hb s1 q1 j) as (q2 & W2 & K2);
      [apply W1|by eapply wakes_intents|unfold MAX_PROCESSES in *; lia|by eapply wakes_uptime|].
    exists q2. split; [by eapply wakes_trans|]. intros k Hk Pk. pose proof (K1 k Hk Pk) as E.
    rewrite (K2 k Hk); [done|right; by eapply HP].
Qed.

Lemma unblock_waiters_keep s qs :
  sched_ok s qs -> intents_ok s ->
  exists qs', wakes s qs (unblock_waiters s) qs' /\ keeps (fun j => not_waiting (proc_at s j)) s (unblock_waiters s).
Proof.
  apply wake_loop; [apply not_waiting_link|intros; by apply wake_waiter_wakes].
Qed.

Lemma unblock_waiters_wakes s qs :
  sched_ok s qs -> intents_ok s -> exists qs', wakes s qs (unblock_waiters s) qs'.
Proof. intros Hok Hint. destruct (unblock_waiters_keep s qs Hok Hint) as (qs' & W & _). by exists qs'. Qed.

Lemma unblock_sleepers_keep s qs :
  sched_ok s qs -> intents_ok s ->
  exists qs', wakes s qs (unblock_sleepers s) qs' /\
    keeps (fun j => not_due (g_uptime_ticks s) (proc_at s j)) s (unblock_sleepers s).
Proof.
  apply wake_loop; [apply not_due_link|intros s1 q1 i ? ? ? <-; by apply wake_sleeper_wakes].
Qed.

(** ** Dispatch *)

Lemma queue_order_range q : q ∈ QUEUE_ORDER <-> 0 <= q < INTENT_COUNT.
Proof.
  unfold QUEUE_ORDER, INTENT_AUDIT, INTENT_INTERACTIVE, INTENT_IO, INTENT_NETWORK, INTENT_COMPUTE, INTENT_COUNT.
  rewrite !elem_of_cons. pose proof (not_elem_of_nil q). split; [intros [?|[?|[?|[?|[?|?]]]]]; lia || done|intros Hq].
  assert (D : q = 0 \/ q = 1 \/ q = 2 \/ q = 3 \/ q = 4) by lia. tauto.
Qed.

Lemma run_next_spec prev next s qs :
  sched_ok s qs -> pick QUEUE_ORDER qs = Some next ->
  exists s', run_next prev next s = Some (if decide (next = prev) then Returned else SwitchedTo prev next, s') /\
    0 <= next < MAX_PROCESSES /\ 0 <= intent (proc_at s next) < INTENT_COUNT /\
    sched_ok s' (deq (intent (proc_at s next)) next qs) /\
    g_current_proc s' = next /\ pstate (proc_at s' next) = PROC_RUNNING /\
    g_ticks_remaining s' = SLICES.[intent (proc_at s next)] /\
    g_kernel_stack_top s' = kernel_stack_top (proc_at s next) /\
    k_if s' = k_if s /\ g_uptime_ticks s' = g_uptime_ticks s /\
    (forall i, 0 <= i < MAX_PROCESSES -> i <> next -> set_link 0 (proc_at s' i) = set_link 0 (proc_at s i)).
Proof.
  intros Hok Hp. destruct (pick_elem _ _ _ Hp) as (q & Hq & Hin). apply queue_order_range in Hq.
  assert (Hr : 0 <= next < MAX_PROCESSES) by (eapply chain_range; [by apply (so_chain _ _ Hok q)|done]).
  assert (Hi : intent (proc_at s next) = q) by (by apply (so_intent _ _ Hok)).
  destruct (sched_dequeue_spec s qs next q Hok Hr Hi Hq) as (s1 & E1 & O1 & R1).
  unfold run_next. rewrite E1.
  destruct (link_fields _ _ (rl_proc _ _ R1 next)) as (_ & _ & Ei & _).
  set (s2 := with_slice _ _). assert (O2 : sched_ok s2 (deq q next qs)) by (destruct O1; by constructor).
  exists (upd next (set_state PROC_RUNNING) s2).
  assert (G : forall A (f : sys -> A), (forall Q T, f (with_queues Q (with_table T s)) = f s) -> f s1 = f s).
  { intros A f Hf. rewrite (rl_eq _ _ R1). apply Hf. }
  assert (Ek : kernel_stack_top (proc_at s1 next) = kernel_stack_top (proc_at s next)).
  { pose proof (rl_proc _ _ R1 next) as E. by apply (f_equal kernel_stack_top) in E. }
  split; [destruct (Z.eqb_spec next prev), (decide (next = prev)); done|].
  split; [done|]. rewrite Hi. split; [done|]. split; [by apply upd_ok|]. split; [done|].
  split; [rewrite upd_at by (done || apply (so_tbl _ _ O2)); by rewrite decide_True|].
  split; [change (SLICES.[intent (proc_at s1 next)] = SLICES.[q]); by rewrite Ei, Hi|]. split; [exact Ek|].
  split; [cbn; by apply (G _ k_if)|]. split; [cbn; by apply (G _ g_uptime_ticks)|].
  intros i Hir Hne. rewrite upd_at, decide_False by (done || apply (so_tbl _ _ O2)). apply (rl_proc _ _ R1).
Qed.

(** ** Properties *)

(** C14: the ready queues are FIFO lists without duplicates.  In a well-formed
    state, [sched_enqueue] appends the process to the list of its intent unless
    it is already there, [sched_dequeue] terminates and removes exactly that
    process, [sched_next] returns the head of the first non-empty list in the
    order audit, interactive, io, network, compute, and none of them changes
    anything but queue heads and links. *)
Theorem sched_queues_refine s qs p :
  sched_ok s qs -> 0 <= p < MAX_PROCESSES -> 0 <= intent (proc_at s p) < INTENT_COUNT ->
  let q := intent (proc_at s p) in
  (sched_ok (sched_enqueue p s) (enq q p qs) /\ relinked s (sched_enqueue p s)) /\
  (exists s', sched_dequeue p s = Some s' /\ sched_ok s' (deq q p qs) /\ relinked s s') /\
  sched_next s = default NULL (pick QUEUE_ORDER qs).
Proof.
  intros Hok Hp Hq q. split; [by apply sched_enqueue_spec|]. split; [by apply sched_dequeue_spec|].
  by apply sched_next_pick.
Qed.

(** The state in which a running process has put itself back in its queue and
    the scheduler is about to pick: what [sched_yield] does before
    [unblock_waiters]. *)
Definition requeued (prev : Z) (s : sys) : sys :=
  with_current NULL (sched_enqueue prev (upd prev (set_state PROC_READY) (with_if false s))).

Record requeued_spec (s s2 : sys) (qs : Z -> list Z) (prev : Z) : Prop := {
  rq_ok : sched_ok s2 (enq (intent (proc_at s prev)) prev qs);
  rq_intents : intents_ok s2;
  rq_keep : forall i, 0 <= i < MAX_PROCESSES -> intent (proc_at s2 i) = intent (proc_at s i) /\
    kernel_stack_top (proc_at s2 i) = kernel_stack_top (proc_at s i);
  rq_ready : pstate (proc_at s2 prev) = PROC_READY;
  rq_if : k_if s2 = false;
  rq_time : g_uptime_ticks s2 = g_uptime_ticks s
}.

Lemma requeued_ok s qs prev :
  sched_ok s qs -> intents_ok s -> 0 <= prev < MAX_PROCESSES -> intent (proc_at s prev) < INTENT_COUNT ->
  requeued_spec s (requeued prev s) qs prev.
Proof.
  intros Hok Hint Hpr Hpi. unfold requeued. set (s1 := upd prev (set_state PROC_READY) (with_if false s)).
  assert (O0 : sched_ok (with_if false s) qs) by (by destruct Hok).
  assert (O1 : sched_ok s1 qs) by (by apply upd_ok).
  assert (A1 : forall i, 0 <= i < MAX_PROCESSES ->
    proc_at s1 i = if decide (i = prev) then set_state PROC_READY (proc_at s prev) else proc_at s i).
  { intros i Hi. unfold s1. rewrite upd_at by (done || apply (so_tbl _ _ O0)). done. }
  assert (Ei : forall i, 0 <= i < MAX_PROCESSES -> intent (proc_at s1 i) = intent (proc_at s i) /\
                         kernel_stack_top (proc_at s1 i) = kernel_stack_top (proc_at s i)).
  { intros i Hi. rewrite A1 by done. by destruct (decide (i = prev)) as [->|]. }
  destruct (sched_enqueue_spec s1 qs prev (intent (proc_at s prev)) O1 Hpr) as [O2 R2];
    [by apply Ei|split; [by apply Hint|done]|].
  set (s2 := with_current NULL (sched_enqueue prev s1)).
  assert (I2 : forall i, set_link 0 (proc_at s2 i) = set_link 0 (proc_at s1 i)) by (intros i; apply (rl_proc _ _ R2)).
  assert (K2 : forall i, 0 <= i < MAX_PROCESSES -> intent (proc_at s2 i) = intent (proc_at s i) /\
    kernel_stack_top (proc_at s2 i) = kernel_stack_top (proc_at s i)).
  { intros i Hi. pose proof (I2 i) as E2. rewrite <- (proj1 (Ei i Hi)), <- (proj2 (Ei i Hi)).
    split; [by apply (f_equal intent) in E2|by apply (f_equal kernel_stack_top) in E2]. }
  constructor; [by destruct O2| |done| |cbn; by rewrite (rl_eq _ _ R2)|cbn; by rewrite (rl_eq _ _ R2)].
  - intros i Hi. rewrite (proj1 (K2 i Hi)). auto.
  - destruct (link_fields _ _ (I2 prev)) as (_ & -> & _). by rewrite A1, decide_True.
Qed.

(** A running process that yields is queued behind the ready processes of
    its intent and the best ready process runs.  [sched_yield] returns without
    waiting for an interrupt: with [qs1] the queues after requeueing the caller
    and waking the waiters, the process dispatched is the head of the first
    non-empty queue of [qs1], it leaves its queue, becomes the current RUNNING
    process with its kernel stack and the slice of its intent, and the queues
    stay well formed. *)
Theorem sched_yield_dispatch s qs fuel :
  let prev := g_current_proc s in
  sched_ok s qs -> intents_ok s -> 0 <= prev < MAX_PROCESSES -> intent (proc_at s prev) < INTENT_COUNT ->
  pstate (proc_at s prev) = PROC_RUNNING ->
  exists next s' qs1,
    sched_yield fuel s = Some (if decide (next = prev) then Returned else SwitchedTo prev next, s') /\
    (forall q, 0 <= q < INTENT_COUNT -> enq (intent (proc_at s prev)) prev qs q `prefix_of` qs1 q) /\
    pick QUEUE_ORDER qs1 = Some next /\
    sched_ok s' (deq (intent (proc_at s next)) next qs1) /\
    g_current_proc s' = next /\ pstate (proc_at s' next) = PROC_RUNNING /\
    g_ticks_remaining s' = SLICES.[intent (proc_at s next)] /\
    g_kernel_stack_top s' = kernel_stack_top (proc_at s next) /\
    (next <> prev -> pstate (proc_at s' prev) = PROC_READY) /\
    k_if s' = false /\ g_uptime_ticks s' = g_uptime_ticks s.
Proof.
  intros prev Hok Hint Hpr Hpi Hrun. unfold sched_yield. fold prev.
  destruct (Z.eqb_spec prev NULL); [unfold NULL in *; lia|].
  change (g_current_proc (with_if false s)) with prev.
  change (proc_at (with_if false s) prev) with (proc_at s prev). rewrite Hrun.
  rewrite bool_decide_true by done.
  pose proof (requeued_ok s qs prev Hok Hint Hpr Hpi) as Q. fold (requeued prev s). set (s2 := requeued prev s) in *.
  destruct (unblock_waiters_wakes s2 _ (rq_ok _ _ _ _ Q) (rq_intents _ _ _ _ Q)) as (qs1 & W). set (s3 := unblock_waiters s2) in *.
  rewrite (sched_next_pick s3 qs1) by apply W.
  assert (Hin : prev ∈ qs1 (intent (proc_at s prev))).
  { eapply elem_of_prefix; [|apply (wk_prefix _ _ _ _ W); split; [by apply Hint|done]].
    destruct (decide (prev ∈ qs (intent (proc_at s prev)))); [by rewrite enq_dup|].
    rewrite enq_new by done. apply elem_of_app. right. by apply list_elem_of_singleton. }
  destruct (pick QUEUE_ORDER qs1) as [next|] eqn:Ep.
  2: { exfalso. eapply pick_none; [exact Ep| |exact Hin]. apply queue_order_range. split; [by apply Hint|done]. }
  cbn [from_option id]. destruct (run_next_spec prev next s3 qs1 (wk_ok _ _ _ _ W) Ep)
    as (s' & E & Hn & Hni & O' & C1 & C2 & C3 & C4 & C5 & C6 & C7).
  destruct (Z.eqb_spec next NULL); [unfold NULL in *; lia|]. rewrite E.
  destruct (static_intent _ _ (wk_static _ _ _ _ W next Hn)) as (En & _ & Ek).
  rewrite (proj1 (rq_keep _ _ _ _ Q next Hn)) in En. rewrite (proj2 (rq_keep _ _ _ _ Q next Hn)) in Ek.
  exists next, s', qs1. rewrite En, Ek in *.
  split; [done|]. split; [apply (wk_prefix _ _ _ _ W)|]. split; [done|]. split; [done|]. split; [done|]. split; [done|].
  split; [done|]. split; [done|]. split; [|split].
  - intros Hne. destruct (link_fields _ _ (C7 prev Hpr ltac:(done))) as (_ & -> & _).
    destruct (wk_state _ _ _ _ W prev Hpr) as [F|(F & _)]; [|by rewrite (rq_ready _ _ _ _ Q) in F].
    destruct (link_fields _ _ F) as (_ & -> & _). apply Q.
  - rewrite C5, (wk_eq _ _ _ _ W). apply Q.
  - rewrite C6, (wk_eq _ _ _ _ W). apply Q.
Qed.

(** ** A sole runnable process *)

Lemma unblock_waiters_idle (s : sys) :
  (forall i, 0 <= i < MAX_PROCESSES -> pstate (proc_at s i) = PROC_BLOCKED -> blocked_on_pid (proc_at s i) = 0) ->
  unblock_waiters s = s.
Proof.
  intros Hn. apply (for_loop_ind (fun _ s' => s' = s) (Z.to_nat MAX_PROCESSES) 0 wake_waiter s); [done|].
  intros j s' Hj ->. unfold wake_waiter.
  destruct (bool_decide_reflect (pstate (proc_at s j) = PROC_BLOCKED)) as [Hb|]; [|done].
  rewrite Hn by (done || (unfold MAX_PROCESSES in *; lia)). done.
Qed.

(** A process that yields with nobody else ready gets control back at once,
    with interrupts disabled and without halting the CPU: the branch that halts
    until the next interrupt is never taken, because the caller was queued
    before the queues are searched.  The clock does not advance. *)
Theorem sched_yield_sole s qs fuel :
  let prev := g_current_proc s in
  sched_ok s qs -> (forall q, qs q = []) -> 0 <= prev < MAX_PROCESSES ->
  0 <= intent (proc_at s prev) < INTENT_COUNT -> pstate (proc_at s prev) = PROC_RUNNING ->
  (forall i, 0 <= i < MAX_PROCESSES -> pstate (proc_at s i) = PROC_BLOCKED -> blocked_on_pid (proc_at s i) = 0) ->
  exists s', sched_yield fuel s = Some (Returned, s') /\ g_current_proc s' = prev /\
    pstate (proc_at s' prev) = PROC_RUNNING /\ k_if s' = false /\ g_uptime_ticks s' = g_uptime_ticks s.
Proof.
  intros prev Hok He Hpr Hpi Hrun Hw. unfold sched_yield. fold prev.
  destruct (Z.eqb_spec prev NULL); [unfold NULL in *; lia|].
  change (g_current_proc (with_if false s)) with prev.
  change (proc_at (with_if false s) prev) with (proc_at s prev). rewrite Hrun, bool_decide_true by done.
  set (s1 := upd prev (set_state PROC_READY) (with_if false s)).
  assert (O0 : sched_ok (with_if false s) qs) by (by destruct Hok).
  assert (O1 : sched_ok s1 qs) by (by apply upd_ok).
  assert (A1 : forall i, 0 <= i < MAX_PROCESSES ->
    proc_at s1 i = if decide (i = prev) then set_state PROC_READY (proc_at s prev) else proc_at s i).
  { intros i Hi. unfold s1. by rewrite upd_at by (done || apply (so_tbl _ _ O0)). }
  destruct (sched_enqueue_spec s1 qs prev (intent (proc_at s prev)) O1 Hpr) as [O2 R2];
    [rewrite A1, decide_True by done; done|done|].
  set (s2 := with_current NULL (sched_enqueue prev s1)).
  set (qs1 := enq (intent (proc_at s prev)) prev qs) in *.
  assert (O3 : sched_ok s2 qs1) by (by destruct O2).
  rewrite (unblock_waiters_idle s2).
  2: { intros i Hi. destruct (link_fields _ _ (rl_proc _ _ R2 i)) as (_ & Ep & _ & Eb & _).
       change (proc_at s2 i) with (proc_at (sched_enqueue prev s1) i). rewrite Ep, Eb, A1 by done.
       destruct (decide (i = prev)); [done|auto]. }
  assert (Eq : pick QUEUE_ORDER qs1 = Some prev).
  { destruct (pick QUEUE_ORDER qs1) as [x|] eqn:E.
    - apply pick_elem in E as (q & _ & Hx). unfold qs1, enq in Hx.
      destruct (decide _); rewrite He in Hx; [by apply list_elem_of_singleton in Hx as ->|by apply not_elem_of_nil in Hx].
    - exfalso. eapply (pick_none _ _ (intent (proc_at s prev)) prev E); [by apply queue_order_range|].
      unfold qs1. rewrite enq_new; rewrite He; [by left|apply not_elem_of_nil]. }
  rewrite (sched_next_pick s2 qs1), Eq by done. cbn [from_option id].
  destruct (Z.eqb_spec prev NULL); [done|].
  destruct (run_next_spec prev prev s2 qs1 O3 Eq) as (s' & E & _ & _ & _ & C1 & C2 & _ & _ & C5 & C6 & _).
  rewrite decide_True in E by done. exists s'. split; [done|]. split; [done|]. split; [done|].
  rewrite C5, C6. unfold s2. cbn. by rewrite (rl_eq _ _ R2).
Qed.

(** ** Sleepers *)

Definition due (s : sys) (i : Z) : Prop :=
  pstate (proc_at s i) = PROC_BLOCKED /\ wake_tick (proc_at s i) <> 0 /\ wake_tick (proc_at s i) <= g_uptime_ticks s.

(** A process that was blocked is unchanged or ready. *)
Lemma wakes_blocked s qs s' qs' i :
  wakes s qs s' qs' -> 0 <= i < MAX_PROCESSES -> pstate (proc_at s' i) = PROC_BLOCKED ->
  pstate (proc_at s i) = PROC_BLOCKED /\ wake_tick (proc_at s' i) = wake_tick (proc_at s i).
Proof.
  intros Hw Hi Hb. destruct (wk_state _ _ _ _ Hw i Hi) as [E|(_ & E & _)]; [|congruence].
  by destruct (link_fields _ _ E) as (_ & <- & _ & _ & -> & _).
Qed.

Lemma unblock_sleepers_due s qs :
  sched_ok s qs -> intents_ok s ->
  exists qs', wakes s qs (unblock_sleepers s) qs' /\
    forall i, 0 <= i < MAX_PROCESSES -> due s i -> pstate (proc_at (unblock_sleepers s) i) <> PROC_BLOCKED.
Proof.
  intros Hok Hint.
  pose proof (for_loop_ind (fun j s' => exists qs', wakes s qs s' qs' /\
    forall i, 0 <= i < j -> i < MAX_PROCESSES -> due s i -> pstate (proc_at s' i) <> PROC_BLOCKED)
    (Z.to_nat MAX_PROCESSES) 0 wake_sleeper s) as I.
  destruct I as (qs' & W & D).
  - exists qs. split; [by apply wakes_refl|lia].
  - intros j s1 Hj (q1 & W1 & D1).
    assert (Hjr : 0 <= j < MAX_PROCESSES) by (unfold MAX_PROCESSES in *; lia).
    destruct (wake_sleeper_wakes s1 q1 j (wk_ok _ _ _ _ W1) (wakes_intents _ _ _ _ W1 Hint) Hjr) as (q2 & W2 & _).
    exists q2. split; [by eapply wakes_trans|]. intros i Hi Hir Hd Hb.
    destruct (wakes_blocked _ _ _ _ i W2 ltac:(lia) Hb) as [Hb1 Ew].
    destruct (decide (i = j)) as [->|Hne]; [|apply (D1 i); [lia|done|done|done]].
    destruct (wakes_blocked _ _ _ _ j W1 Hjr Hb1) as [_ Ew1]. destruct Hd as (_ & Hz & Hdue).
    unfold wake_sleeper in Hb. rewrite Hb1, bool_decide_true in Hb by done. cbn [negb orb] in Hb.
    destruct (Z.eqb_spec (wake_tick (proc_at s1 j)) 0); [congruence|].
    rewrite (wakes_uptime _ _ _ _ W1), Ew1 in Hb.
    destruct (Z.leb_spec (wake_tick (proc_at s j)) (g_uptime_ticks s)); [|lia].
    destruct (wake_one s1 q1 j (set_wake 0)) as (q3 & _ & Rdy & _);
      [apply W1|by eapply wakes_intents|done|done|done|congruence].
  - exists qs'. split; [done|]. intros i Hi. apply D; unfold MAX_PROCESSES in *; lia.
Qed.

Lemma halt_idle (s : sys) :
  g_current_proc s = NULL ->
  halt s = with_if false (unblock_waiters (unblock_sleepers (with_uptime (u64 (g_uptime_ticks s + 1)) (with_if true s)))).
Proof.
  intros Hc. unfold halt, sched_tick. cbn [g_current_proc with_uptime with_if g_uptime_ticks].
  by rewrite Hc, Z.eqb_refl.
Qed.

(** Two rounds of wake-ups from [s1] to [s3] and from [s4] to [s6], with every
    sleeper of [s1] that was due woken in the first. *)
Lemma two_rounds s1 q1 s2 q2 s3 q3 s6 q6 :
  intents_ok s1 -> wakes s1 q1 s2 q2 -> wakes s2 q2 s3 q3 -> wakes (with_if false s3) q3 s6 q6 ->
  (forall i, 0 <= i < MAX_PROCESSES -> due s1 i -> pstate (proc_at s2 i) <> PROC_BLOCKED) ->
  sched_ok s6 q6 /\ intents_ok s6 /\ g_uptime_ticks s6 = g_uptime_ticks s1 /\ g_current_proc s6 = g_current_proc s1 /\
  (forall i, 0 <= i < MAX_PROCESSES -> intent (proc_at s6 i) = intent (proc_at s1 i)) /\
  (forall i, 0 <= i < MAX_PROCESSES -> pstate (proc_at s1 i) = PROC_BLOCKED -> wake_tick (proc_at s1 i) <> 0 ->
     (pstate (proc_at s6 i) = PROC_BLOCKED /\ wake_tick (proc_at s6 i) = wake_tick (proc_at s1 i) /\
      g_uptime_ticks s1 < wake_tick (proc_at s1 i)) \/
     (intent (proc_at s1 i) < INTENT_COUNT -> i ∈ q6 (intent (proc_at s1 i)))).
Proof.
  intros I1 W2 W3 W46 D2. pose proof (wakes_trans _ _ _ _ _ _ W2 W3) as W13.
  assert (I4 : intents_ok (with_if false s3)) by exact (intents_with_if _ _ (wakes_intents _ _ _ _ W13 I1)).
  split; [apply (wk_ok _ _ _ _ W46)|]. split; [exact (wakes_intents _ _ _ _ W46 I4)|].
  split; [rewrite (wakes_uptime _ _ _ _ W46); exact (wakes_uptime _ _ _ _ W13)|].
  split; [rewrite (wk_eq _ _ _ _ W46); change (g_current_proc s3 = g_current_proc s1); by rewrite (wk_eq _ _ _ _ W13)|].
  assert (E13 : forall i, 0 <= i < MAX_PROCESSES -> intent (proc_at s3 i) = intent (proc_at s1 i)).
  { intros i Hi. by destruct (static_intent _ _ (wk_static _ _ _ _ W13 i Hi)) as [? _]. }
  split.
  { intros i Hi. destruct (static_intent _ _ (wk_static _ _ _ _ W46 i Hi)) as [-> _]. by apply E13. }
  intros i Hi Hb Hz.
  destruct (wk_state _ _ _ _ W46 i Hi) as [E6|(B6 & _ & M6)]; change (proc_at (with_if false s3) i) with (proc_at s3 i) in *.
  - destruct (link_fields _ _ E6) as (_ & P6 & _ & _ & T6 & _).
    destruct (wk_state _ _ _ _ W13 i Hi) as [E3|(B3 & _ & M3)].
    + left. destruct (link_fields _ _ E3) as (_ & P3 & _ & _ & T3 & _).
      rewrite P6, T6, P3, T3. split; [done|]. split; [done|].
      destruct (decide (wake_tick (proc_at s1 i) <= g_uptime_ticks s1)) as [Hd|]; [|lia]. exfalso.
      apply (D2 i Hi); [done|].
      destruct (wk_state _ _ _ _ W3 i Hi) as [E|(E & _)]; [|done]. destruct (link_fields _ _ E) as (_ & Ep & _).
      congruence.
    + right. intros Hr. eapply elem_of_prefix; [|apply (wk_prefix _ _ _ _ W46); split; [by apply I1|done]].
      apply M3. split; [by apply I1|done].
  - right. intros Hr. rewrite E13 in M6 by done. apply M6. split; [by apply I1|done].
Qed.

Lemma keeps_if (P : process -> Prop) b (s s' : sys) :
  keeps (fun j => P (proc_at (with_if b s) j)) (with_if b s) s' -> keeps (fun j => P (proc_at s j)) s s'.
Proof. done. Qed.

(** What two rounds leave in the queues and what stays blocked. *)
Lemma two_rounds_new s1 q1 s3 q3 s6 q6 :
  wakes s1 q1 s3 q3 -> wakes (with_if false s3) q3 s6 q6 ->
  (forall q j, 0 <= q < INTENT_COUNT -> j ∈ q6 q -> j ∈ q1 q \/
     (0 <= j < MAX_PROCESSES /\ pstate (proc_at s1 j) = PROC_BLOCKED /\ pstate (proc_at s6 j) = PROC_READY)) /\
  (forall j, 0 <= j < MAX_PROCESSES -> pstate (proc_at s6 j) = PROC_BLOCKED ->
     set_link 0 (proc_at s6 j) = set_link 0 (proc_at s1 j)).
Proof.
  intros W13 W46.
  assert (W' : wakes s3 q3 (with_if (k_if s3) s6) q6).
  { destruct W46 as [O E S T P N]. constructor; [by apply ok_with_if| |exact S|exact T|exact P|exact N].
    rewrite E at 1. by destruct s3. }
  pose proof (wakes_trans _ _ _ _ _ _ W13 W') as W. split; [exact (wk_new _ _ _ _ W)|].
  intros j Hj Hb. destruct (wk_state _ _ _ _ W j Hj) as [E|(_ & E & _)]; [exact E|].
  change (proc_at (with_if (k_if s3) s6) j) with (proc_at s6 j) in E. congruence.
Qed.

(** Neither due at [u] nor waiting for a process: two rounds change nothing but
    the link. *)
Lemma rounds_keep (s1 s2 s3 s5 s6 : sys) u j :
  0 <= j < MAX_PROCESSES -> not_due u (proc_at s1 j) -> not_waiting (proc_at s1 j) ->
  keeps (fun j => not_due u (proc_at s1 j)) s1 s2 -> keeps (fun j => not_waiting (proc_at s2 j)) s2 s3 ->
  keeps (fun j => not_due u (proc_at s3 j)) s3 s5 -> keeps (fun j => not_waiting (proc_at s5 j)) s5 s6 ->
  set_link 0 (proc_at s6 j) = set_link 0 (proc_at s1 j).
Proof.
  intros Hj D W K2 K3 K5 K6. pose proof (K2 j Hj D) as E2. pose proof (K3 j Hj (not_waiting_link _ _ E2 W)) as E3.
  rewrite E2 in E3. pose proof (K5 j Hj (not_due_link _ _ _ E3 D)) as E5. rewrite E3 in E5.
  rewrite (K6 j Hj (not_waiting_link _ _ E5 W)). done.
Qed.

(** Why a process was woken while idle at tick [u]. *)
Definition woken_at (u : Z) (s : sys) (j : Z) : Prop :=
  0 <= j < MAX_PROCESSES /\ pstate (proc_at s j) = PROC_BLOCKED /\
  (blocked_on_pid (proc_at s j) <> 0 \/ (wake_tick (proc_at s j) <> 0 /\ wake_tick (proc_at s j) <= u)).

(** A process queued by two rounds was waiting for a process or due. *)
Lemma rounds_why (s1 s2 s3 s5 s6 : sys) u j :
  0 <= j < MAX_PROCESSES -> pstate (proc_at s1 j) = PROC_BLOCKED -> pstate (proc_at s6 j) = PROC_READY ->
  keeps (fun j => not_due u (proc_at s1 j)) s1 s2 -> keeps (fun j => not_waiting (proc_at s2 j)) s2 s3 ->
  keeps (fun j => not_due u (proc_at s3 j)) s3 s5 -> keeps (fun j => not_waiting (proc_at s5 j)) s5 s6 ->
  woken_at u s1 j.
Proof.
  intros Hj Hb Hr K2 K3 K5 K6. split; [done|]. split; [done|].
  destruct (decide (blocked_on_pid (proc_at s1 j) = 0)) as [Hz|]; [right|by left].
  destruct (decide (not_due u (proc_at s1 j))) as [Hn|Hn].
  - exfalso. pose proof (rounds_keep s1 s2 s3 s5 s6 _ j Hj Hn Hz K2 K3 K5 K6) as Ek.
    destruct (link_fields _ _ Ek) as (_ & Ep & _). congruence.
  - split; [intros Hw; apply Hn; by right; left|]. destruct (decide (wake_tick (proc_at s1 j) <= u)); [done|].
    exfalso. apply Hn. right. right. lia.
Qed.

Lemma woken_at_ext u (s s1 : sys) j : proc_at s1 j = proc_at s j -> woken_at u s1 j -> woken_at u s j.
Proof. unfold woken_at. by intros ->. Qed.

(** One interrupt while idle: the clock advances, everything due is queued, and
    nothing else is. *)
Lemma idle_step s qs :
  sched_ok s qs -> intents_ok s -> g_uptime_ticks s + 1 < 2 ^ 64 -> 0 <= g_uptime_ticks s -> g_current_proc s = NULL ->
  exists s' qs', unblock_waiters (unblock_sleepers (halt s)) = s' /\
    sched_ok s' qs' /\ intents_ok s' /\ g_uptime_ticks s' = g_uptime_ticks s + 1 /\ g_current_proc s' = NULL /\
    (forall i, 0 <= i < MAX_PROCESSES -> intent (proc_at s' i) = intent (proc_at s i)) /\
    (forall i, 0 <= i < MAX_PROCESSES -> pstate (proc_at s i) = PROC_BLOCKED -> wake_tick (proc_at s i) <> 0 ->
       (pstate (proc_at s' i) = PROC_BLOCKED /\ wake_tick (proc_at s' i) = wake_tick (proc_at s i) /\
        g_uptime_ticks s + 1 < wake_tick (proc_at s i)) \/
       (intent (proc_at s i) < INTENT_COUNT -> i ∈ qs' (intent (proc_at s i)))) /\
    (forall q j, 0 <= q < INTENT_COUNT -> j ∈ qs' q -> j ∈ qs q \/ woken_at (g_uptime_ticks s + 1) s j) /\
    (forall j, 0 <= j < MAX_PROCESSES -> pstate (proc_at s' j) = PROC_BLOCKED ->
       set_link 0 (proc_at s' j) = set_link 0 (proc_at s j)).
Proof.
  intros Hok Hint Hu Hu0 Hc. rewrite halt_idle by done. rewrite u64_small by lia.
  assert (X : exists s1, s1 = with_uptime (g_uptime_ticks s + 1) (with_if true s) /\ sched_ok s1 qs /\
    (forall i, proc_at s1 i = proc_at s i) /\ g_uptime_ticks s1 = g_uptime_ticks s + 1 /\ g_current_proc s1 = NULL).
  { eexists. split; [reflexivity|]. split; [destruct Hok; by constructor|done]. }
  destruct X as (s1 & <- & O1 & P1 & U1 & C1).
  assert (I1 : intents_ok s1) by (intros i Hi; rewrite P1; auto).
  destruct (unblock_sleepers_keep s1 qs O1 I1) as (_ & _ & K2).
  destruct (unblock_sleepers_due s1 qs O1 I1) as (q2 & W2 & D2). remember (unblock_sleepers s1) as s2 eqn:X2. clear X2.
  destruct (unblock_waiters_keep s2 q2 (wk_ok _ _ _ _ W2) (wakes_intents _ _ _ _ W2 I1)) as (q3 & W3 & K3).
  remember (unblock_waiters s2) as s3 eqn:X3. clear X3. pose proof (wakes_trans _ _ _ _ _ _ W2 W3) as W13.
  assert (O4 : sched_ok (with_if false s3) q3) by (apply ok_with_if, (wk_ok _ _ _ _ W13)).
  assert (I4 : intents_ok (with_if false s3)) by exact (intents_with_if _ _ (wakes_intents _ _ _ _ W13 I1)).
  destruct (unblock_sleepers_keep (with_if false s3) q3 O4 I4) as (q5 & W5 & K5).
  assert (U3 : g_uptime_ticks (with_if false s3) = g_uptime_ticks s1) by exact (wakes_uptime _ _ _ _ W13).
  remember (unblock_sleepers (with_if false s3)) as s5 eqn:X5. clear X5. rewrite U3 in K5.
  apply (keeps_if (not_due (g_uptime_ticks s1))) in K5.
  destruct (unblock_waiters_keep s5 q5 (wk_ok _ _ _ _ W5) (wakes_intents _ _ _ _ W5 I4)) as (q6 & W6 & K6).
  remember (unblock_waiters s5) as s6 eqn:X6. clear X6. pose proof (wakes_trans _ _ _ _ _ _ W5 W6) as W46.
  destruct (two_rounds s1 qs s2 q2 s3 q3 s6 q6 I1 W2 W3 W46 D2) as (A & B & C & D & E & F).
  destruct (two_rounds_new s1 qs s3 q3 s6 q6 W13 W46) as (N & S).
  exists s6, q6. split; [reflexivity|]. split; [exact A|]. split; [exact B|]. split; [by rewrite C|].
  split; [by rewrite D|]. split; [intros i Hi; rewrite <- P1; by apply E|].
  split; [intros i Hi; rewrite <- P1, <- U1; by apply F|]. split; [|intros j Hj; rewrite <- P1; by apply S].
  intros q j Hq Hin. destruct (N q j Hq Hin) as [|(Hj & Hb & Hr)]; [by left|right].
  apply (woken_at_ext _ _ s1); [by apply P1|]. rewrite <- U1.
  exact (rounds_why s1 s2 s3 s5 s6 _ j Hj Hb Hr K2 K3 K5 K6).
Qed.

(** Asleep until a tick. *)
Definition asleep (s : sys) (j : Z) : Prop :=
  0 <= j < MAX_PROCESSES /\ pstate (proc_at s j) = PROC_BLOCKED /\ wake_tick (proc_at s j) <> 0.

(** Where sleeper [i] of [s] is in [s']: queued, or asleep until a later tick. *)
Definition sleeper_now (s s' : sys) (qs' : queues) (i : Z) : Prop :=
  i ∈ qs' (intent (proc_at s i)) \/
  (asleep s' i /\ wake_tick (proc_at s' i) = wake_tick (proc_at s i) /\ g_uptime_ticks s' < wake_tick (proc_at s i)).

Definition nobody_waits (s : sys) : Prop :=
  forall j, 0 <= j < MAX_PROCESSES -> pstate (proc_at s j) = PROC_BLOCKED -> blocked_on_pid (proc_at s j) = 0.

Lemma pick_all_empty (qs : queues) :
  pick QUEUE_ORDER qs = None -> forall q, 0 <= q < INTENT_COUNT -> qs q = [].
Proof.
  intros Hp q Hq. apply queue_order_range in Hq. destruct (qs q) as [|x l] eqn:E; [done|]. exfalso.
  apply (pick_none _ _ q x Hp Hq). rewrite E. by left.
Qed.

Lemma idle_loop_wakes (n : nat) s qs i :
  sched_ok s qs -> intents_ok s -> (forall q, 0 <= q < INTENT_COUNT -> qs q = []) -> nobody_waits s ->
  0 <= g_uptime_ticks s -> g_uptime_ticks s + Z.of_nat n < 2 ^ 64 -> g_current_proc s = NULL ->
  asleep s i -> intent (proc_at s i) < INTENT_COUNT ->
  g_uptime_ticks s < wake_tick (proc_at s i) <= g_uptime_ticks s + Z.of_nat n ->
  exists next s' qs', idle_loop n s = Some (next, s') /\ sched_ok s' qs' /\ pick QUEUE_ORDER qs' = Some next /\
    asleep s next /\ wake_tick (proc_at s next) <= g_uptime_ticks s' <= wake_tick (proc_at s i) /\
    sleeper_now s s' qs' i /\ intent (proc_at s' i) = intent (proc_at s i).
Proof.
  revert s qs. induction n as [|n IH]; intros s qs Hok Hint He Hw Hu0 Hu Hc Hi Hii Ht; [lia|].
  cbn [idle_loop]. destruct (idle_step s qs Hok Hint ltac:(lia) Hu0 Hc)
    as (s1 & q1 & -> & O1 & I1 & U1 & C1 & E1 & D1 & N1 & B1).
  destruct Hi as (Hi & Hb & Hz). specialize (D1 i Hi Hb Hz). specialize (E1 i Hi).
  rewrite (sched_next_pick s1 q1 O1). destruct (pick QUEUE_ORDER q1) as [next|] eqn:Ep; cbn [from_option id].
  - destruct (run_next_spec 0 next s1 q1 O1 Ep) as (_ & _ & Hn & _).
    destruct (Z.eqb_spec next NULL); [unfold NULL in *; lia|]. exists next, s1, q1.
    split; [done|]. split; [done|]. split; [done|]. destruct (pick_elem _ _ _ Ep) as (q & Hq%queue_order_range & Hin).
    destruct (N1 q next Hq Hin) as [Hin'|(_ & Hbn & Why)]; [rewrite He in Hin' by done; by apply not_elem_of_nil in Hin'|].
    destruct Why as [Why|[Wz Wd]]; [by rewrite Hw in Why|]. split; [done|]. split; [lia|]. split; [|done].
    destruct D1 as [(X & Y & L)|Hq1]; [right|left; by apply Hq1]. unfold asleep. rewrite Y, U1. done.
  - change (NULL =? NULL) with true. cbn match.
    destruct D1 as [(X & Y & L)|Hin].
    2: { exfalso. eapply (pick_none _ _ _ i Ep); [|by apply Hin]. apply queue_order_range. split; [by apply Hint|done]. }
    destruct (IH s1 q1) as (next & s' & qs' & A1 & A2 & A3 & (Hn & A4 & A5) & A6 & A7 & A8);
      rewrite ?U1, ?Y, ?E1; try done; try lia; [by apply pick_all_empty| |unfold asleep; by rewrite Y|].
    { intros j Hj Hbj. destruct (link_fields _ _ (B1 j Hj Hbj)) as (_ & Ps & _ & -> & _). apply Hw; congruence. }
    exists next, s', qs'. destruct (link_fields _ _ (B1 next Hn A4)) as (_ & Ps & _ & _ & Pt & _).
    unfold asleep, sleeper_now in *. rewrite Y, E1, Pt, Ps in *. done.
Qed.

Lemma sleeper_now_dispatch (s s2 s3 : sys) q2 q next i :
  0 <= i < MAX_PROCESSES -> next <> i -> g_uptime_ticks s3 = g_uptime_ticks s2 ->
  (forall j, 0 <= j < MAX_PROCESSES -> j <> next -> set_link 0 (proc_at s3 j) = set_link 0 (proc_at s2 j)) ->
  sleeper_now s s2 q2 i -> sleeper_now s s3 (deq q next q2) i.
Proof.
  intros Hi Hne U K [Hin|(Ha & Hw & Hl)].
  - left. unfold deq. destruct (decide _); [|done]. apply list_elem_of_filter. by split.
  - right. destruct (link_fields _ _ (K i Hi ltac:(done))) as (_ & Ep & _ & _ & Ew & _).
    unfold asleep in *. rewrite Ep, Ew, U. done.
Qed.

(** C15: a sleeping process gets the CPU back at its deadline.  When the caller
    is not runnable any more, nothing is ready and nobody waits for another
    process, [sched_yield] halts; let process [i] sleep until a tick at most [n]
    interrupts away.  Then the idle loop ends after at most [n] interrupts, no
    later than the deadline of [i], and the process it dispatches was asleep and
    its own deadline has passed.  Process [i] is that process, or it is in the
    ready queue of its intent, or an earlier sleeper was dispatched and [i] still
    sleeps towards the same deadline.  If every other sleeper's deadline is later
    than that of [i], then [i] itself is running. *)
Theorem sched_yield_wakes_sleeper (n : nat) s qs i :
  let prev := g_current_proc s in
  sched_ok s qs -> intents_ok s -> (forall q, qs q = []) -> 0 <= prev < MAX_PROCESSES ->
  pstate (proc_at s prev) <> PROC_RUNNING -> nobody_waits s ->
  0 <= g_uptime_ticks s -> g_uptime_ticks s + Z.of_nat n < 2 ^ 64 ->
  asleep s i -> intent (proc_at s i) < INTENT_COUNT ->
  g_uptime_ticks s < wake_tick (proc_at s i) <= g_uptime_ticks s + Z.of_nat n ->
  exists r next s' qs', sched_yield n s = Some (r, s') /\ sched_ok s' qs' /\
    g_current_proc s' = next /\ pstate (proc_at s' next) = PROC_RUNNING /\
    asleep s next /\ wake_tick (proc_at s next) <= g_uptime_ticks s' <= wake_tick (proc_at s i) /\
    (next = i \/ sleeper_now s s' qs' i) /\
    ((forall j, asleep s j -> j <> i -> wake_tick (proc_at s i) < wake_tick (proc_at s j)) -> next = i).
Proof.
  intros prev Hok Hint He Hpr Hnr Hw Hu0 Hu Hi Hii Ht. unfold sched_yield. fold prev.
  destruct (Z.eqb_spec prev NULL); [unfold NULL in *; lia|].
  change (g_current_proc (with_if false s)) with prev.
  change (proc_at (with_if false s) prev) with (proc_at s prev). rewrite bool_decide_false by done.
  set (s1 := with_current NULL (with_if false s)).
  assert (O1 : sched_ok s1 qs) by (by destruct Hok).
  rewrite (unblock_waiters_idle s1) by exact Hw. rewrite (sched_next_pick s1 qs O1).
  destruct (pick QUEUE_ORDER qs) as [x|] eqn:Ep; cbn [from_option id].
  { apply pick_elem in Ep as (q & _ & Hx). rewrite He in Hx. by apply not_elem_of_nil in Hx. }
  change (NULL =? NULL) with true. cbn match.
  destruct (idle_loop_wakes n s1 qs i) as (next & s2 & q2 & -> & O2 & P2 & Sn & Tn & Now & Ei); try done.
  destruct (run_next_spec prev next s2 q2 O2 P2) as (s3 & E & Hn & Hni & O3 & C1 & C2 & _ & _ & _ & U3 & K3).
  rewrite E. eexists _, next, s3, _. split; [reflexivity|]. split; [exact O3|]. split; [done|]. split; [done|].
  split; [exact Sn|]. rewrite U3. split; [exact Tn|]. split.
  - destruct (decide (next = i)) as [|Hne]; [by left|right]. apply (sleeper_now_dispatch s s2 s3 q2 _ next i); [apply Hi|done|done|done|exact Now].
  - intros Hall. destruct (decide (next = i)) as [|Hne]; [done|]. specialize (Hall next Sn Hne).
    change (proc_at s1 next) with (proc_at s next) in Tn. change (proc_at s1 i) with (proc_at s i) in Tn. lia.
Qed.

End Sched.

(** ** Witnesses *)

#[local] Instance no_files : FdTable unit := {| vfs_close_all_for_pid _ v := v |}.

Definition sys0 : ksys heap unit :=
  sched_init (proc_init (mk_sys [] 0 NULL 0 [] 0 0 true audit_init heap4k tt)).

Lemma sys0_at i : 0 <= i < MAX_PROCESSES -> proc_at sys0 i = proc_zero.
Proof. intros Hi. by apply zget_replicate. Qed.

Lemma sys0_ok : sched_ok sys0 (fun _ => []).
Proof.
  constructor; [done|done| |intros; constructor|intros q i _ Hi; by apply not_elem_of_nil in Hi].
  intros q Hq. by apply zget_replicate.
Qed.

(** One process, in slot 0, that is running; and the same asleep until tick 5. *)
Definition sys_run : ksys heap unit := with_current 0 (upd 0 (set_state PROC_RUNNING) sys0).
Definition sys_sleep : ksys heap unit :=
  with_current 0 (upd 0 (fun p => set_wake 5 (set_state PROC_BLOCKED p)) sys0).

Lemma sys_ok f : (forall p, sched_link (f p) = sched_link p /\ intent (f p) = intent p) ->
  sched_ok (with_current 0 (upd 0 f sys0)) (fun _ => []).
Proof. intros Hf. destruct (upd_ok sys0 (fun _ => []) 0 f sys0_ok) as []; [done|done|]. by constructor. Qed.

Lemma sys_at f i : 0 <= i < MAX_PROCESSES ->
  proc_at (with_current 0 (upd 0 f sys0)) i = if decide (i = 0) then f proc_zero else proc_zero.
Proof.
  intros Hi. change (proc_at (with_current 0 ?s) i) with (proc_at s i). rewrite upd_at by done.
  rewrite !sys0_at by done. done.
Qed.

Lemma sched_queues_refine_witness :
  0 <= intent (proc_at sys_run 0) < INTENT_COUNT /\
  sched_ok (sched_enqueue 0 sys_run) (enq 0 0 (fun _ => [])).
Proof.
  assert (Hi : 0 <= intent (proc_at sys_run 0) < INTENT_COUNT) by done.
  split; [done|]. destruct (sched_queues_refine sys_run (fun _ => []) 0) as [[A _] _]; [by apply sys_ok|done|done|exact A].
Defined.

Lemma sys_run_fields : g_current_proc sys_run = 0 /\ pstate (proc_at sys_run 0) = PROC_RUNNING /\
  0 <= intent (proc_at sys_run 0) < INTENT_COUNT /\ intents_ok sys_run.
Proof.
  split; [done|]. split; [done|]. split; [done|]. intros i Hi. unfold sys_run. rewrite sys_at by done.
  by destruct (decide (i = 0)).
Qed.

Lemma sched_yield_dispatch_witness :
  exists next s' qs1, sched_yield 0 sys_run = Some (if decide (next = 0) then Returned else SwitchedTo 0 next, s') /\
    pick QUEUE_ORDER qs1 = Some next /\ g_current_proc s' = next.
Proof.
  destruct sys_run_fields as (E1 & E2 & E3 & E4).
  destruct (sched_yield_dispatch sys_run (fun _ => []) 0) as (next & s' & qs1 & A & _ & B & _ & C & _);
    [by apply sys_ok|done|done|by destruct E3|done|].
  exists next, s', qs1. exact (conj A (conj B C)).
Defined.

Lemma sched_yield_sole_witness :
  exists s', sched_yield 0 sys_run = Some (Returned, s') /\ g_current_proc s' = 0 /\ k_if s' = false.
Proof.
  destruct sys_run_fields as (E1 & E2 & E3 & E4).
  destruct (sched_yield_sole sys_run (fun _ => []) 0) as (s' & A & B & _ & C & _);
    [by apply sys_ok|done|done|done|done| |].
  - intros i Hi. unfold sys_run. rewrite sys_at by done. by destruct (decide (i = 0)).
  - exists s'. exact (conj A (conj B C)).
Defined.

Lemma sched_yield_wakes_sleeper_witness :
  exists r s', sched_yield 5 sys_sleep = Some (r, s') /\ g_current_proc s' = 0 /\
    pstate (proc_at s' 0) = PROC_RUNNING /\ g_uptime_ticks s' = 5.
Proof.
  assert (At : forall i, 0 <= i < MAX_PROCESSES -> proc_at sys_sleep i =
    if decide (i = 0) then set_wake 5 (set_state PROC_BLOCKED proc_zero) else proc_zero) by (intros; by apply sys_at).
  assert (R0 : 0 <= 0 < MAX_PROCESSES) by done.
  assert (A0 : proc_at sys_sleep 0 = set_wake 5 (set_state PROC_BLOCKED proc_zero)) by (by rewrite At by done).
  destruct (sched_yield_wakes_sleeper 5 sys_sleep (fun _ => []) 0)
    as (r & next & s' & qs' & E & _ & C & Run & Sl & Tm & _ & Only).
  - by apply sys_ok.
  - intros i Hi. rewrite At by done. by destruct (decide (i = 0)).
  - reflexivity.
  - exact R0.
  - change (g_current_proc sys_sleep) with 0. by rewrite A0.
  - intros i Hi. rewrite At by done. by destruct (decide (i = 0)).
  - change (0 <= 0). lia.
  - change (0 + 5 < 2 ^ 64). lia.
  - split; [done|]. by rewrite A0.
  - by rewrite A0.
  - rewrite A0. change (0 < 5 <= 0 + 5). lia.
  - assert (N : next = 0).
    { apply Only. intros j (Hj & Hb & _) Hne. rewrite (At j Hj), decide_False in Hb by done. done. }
    subst next. rewrite N in *. rewrite A0 in Tm. change (5 <= g_uptime_ticks s' <= 5) in Tm. exists r, s'.
    split; [exact E|]. split; [exact N|]. split; [exact Run|lia].
Defined.
