(* ===== verification/Sync.v ===== *)
(** * Blocking mutexes and semaphores (kernel/sync/sync.c)

    One iteration of the retry loops of [mutex_lock] and [sem_wait] runs with
    interrupts off, so it is one atomic step; a process that finds the object
    taken registers its pid, goes to [PROC_BLOCKED] and yields.  The objects are
    put in a transition system in which any process that is not blocked may
    take the next step and the rest of the kernel may create, dispatch, wake and
    end processes in between.  Mutual
    exclusion and the absence of lost wake-ups are invariants of it. *)

From S2P Require Import Prelude AuditRing Kmalloc Capability Proc.

(** ** Objects *)

Definition MUTEX_MAX_WAITERS : Z := 32.
Definition SEM_MAX_WAITERS : Z := 32.

Record spinlock := mk_spin { spin_locked : Z }.

Record mutex := mk_mutex {
  m_locked : Z;
  owner_pid : Z;
  m_waiters : list Z;
  m_waiter_count : Z
}.

Record semaphore := mk_sem {
  s_count : Z;
  s_waiters : list Z;
  s_waiter_count : Z
}.

(** How an iteration of a blocking loop ends. *)
Inductive outcome := Acquired | Retry.

(** ** Operations *)

Section Ops.
Context {H V : Type} `{Allocator H} `{FdTable V}.
#[local] Notation "'sys'" := (ksys H V).

Definition spin_init : spinlock := mk_spin 0.

(** Returns RFLAGS before the call; bit 9 is the interrupt flag. *)
Definition spin_lock_irqsave (l : spinlock) (s : sys) : Z * spinlock * sys :=
  let flags := if k_if s then Z.shiftl 1 9 else 0 in
  (flags, mk_spin 1, with_if false s).

Definition spin_unlock_irqrestore (l : spinlock) (saved_flags : Z) (s : sys) : spinlock * sys :=
  (mk_spin 0, if negb (Z.land saved_flags (Z.shiftl 1 9) =? 0) then with_if true s else s).

Definition mutex_init (m : mutex) : mutex := mk_mutex 0 0 (m_waiters m) 0.

Definition current_pid (s : sys) : Z := if g_current_proc s =? NULL then 0 else pid (proc_at s (g_current_proc s)).

Definition mutex_trylock (m : mutex) (s : sys) : Z * mutex * sys :=
  let s := with_if false s in
  let '(got, m) :=
    if m_locked m =? 0 then (1, mk_mutex 1 (current_pid s) (m_waiters m) (m_waiter_count m)) else (0, m) in
  (got, m, with_if true s).

(** One iteration of [mutex_lock], up to the call of [sched_yield]. *)
Definition mutex_lock_iter (m : mutex) (s : sys) : outcome * mutex * sys :=
  let s := with_if false s in
  if m_locked m =? 0 then
    (Acquired, mk_mutex 1 (current_pid s) (m_waiters m) (m_waiter_count m), with_if true s)
  else
    let me := g_current_proc s in
    let '(m, s) :=
      if negb (me =? NULL) && (m_waiter_count m <? MUTEX_MAX_WAITERS) then
        (mk_mutex (m_locked m) (owner_pid m) (m_waiters m).[m_waiter_count m <- pid (proc_at s me)]
                  (m_waiter_count m + 1),
         upd me (set_state PROC_BLOCKED) s)
      else (m, s) in
    (Retry, m, with_if true s).

(** [p = proc_get(pid); if (p && p->state == PROC_BLOCKED) { READY; enqueue }]. *)
Definition wake_pid (s : sys) (pid_ : Z) : sys :=
  let p := proc_get s pid_ in
  if negb (p =? NULL) && bool_decide (pstate (proc_at s p) = PROC_BLOCKED)
  then sched_enqueue p (upd p (set_state PROC_READY) s) else s.

(** [for (i = 0; i < count; i++)] over a waiter array. *)
Definition wake_all (waiters : list Z) (count_ : Z) (s : sys) : sys :=
  for_loop (Z.to_nat count_) 0 (fun i s => wake_pid s waiters.[i]) s.

Definition mutex_unlock (m : mutex) (s : sys) : mutex * sys :=
  let s := with_if false s in
  let s := wake_all (m_waiters m) (m_waiter_count m) s in
  (mk_mutex 0 0 (m_waiters m) 0, with_if true s).

Definition sem_init (sm : semaphore) (initial_count : Z) : semaphore := mk_sem initial_count (s_waiters sm) 0.

Definition sem_wait_iter (sm : semaphore) (s : sys) : outcome * semaphore * sys :=
  let s := with_if false s in
  if 0 <? s_count sm then
    (Acquired, mk_sem (s_count sm - 1) (s_waiters sm) (s_waiter_count sm), with_if true s)
  else
    let me := g_current_proc s in
    let '(sm, s) :=
      if negb (me =? NULL) && (s_waiter_count sm <? SEM_MAX_WAITERS) then
        (mk_sem (s_count sm) (s_waiters sm).[s_waiter_count sm <- pid (proc_at s me)] (s_waiter_count sm + 1),
         upd me (set_state PROC_BLOCKED) s)
      else (sm, s) in
    (Retry, sm, with_if true s).

(** [s->count] is an [int]; the callers stay far below [INT_MAX]. *)
Definition sem_post (sm : semaphore) (s : sys) : semaphore * sys :=
  let s := with_if false s in
  let s := wake_all (s_waiters sm) (s_waiter_count sm) s in
  (mk_sem (s_count sm + 1) (s_waiters sm) 0, with_if true s).

End Ops.

(** ** Processes by pid *)

Section Waking.
Context {H V : Type} `{Allocator H} `{FdTable V}.
#[local] Notation "'sys'" := (ksys H V).

Definition used (s : sys) (i : Z) : Prop := 0 <= i < MAX_PROCESSES /\ pstate (proc_at s i) <> PROC_UNUSED.

(** Distinct pids in use. *)
Definition pids_ok (s : sys) : Prop :=
  forall i j, used s i -> used s j -> pid (proc_at s i) = pid (proc_at s j) -> i = j.

Lemma find_slot_spec f (l : list process) lo :
  0 <= lo ->
  (find_slot f l lo = NULL /\ forall k, 0 <= k < zlen l -> f l.[k] = false) \/
  (exists k, 0 <= k < zlen l /\ find_slot f l lo = lo + k /\ f l.[k] = true /\ forall j, 0 <= j < k -> f l.[j] = false).
Proof. apply find_from_spec. Qed.

(** [proc_get] finds the one slot in use with that pid. *)
Lemma proc_get_spec (s : sys) pid_ :
  zlen (g_proc_table s) = MAX_PROCESSES ->
  (proc_get s pid_ = NULL /\ forall i, used s i -> pid (proc_at s i) <> pid_) \/
  (used s (proc_get s pid_) /\ pid (proc_at s (proc_get s pid_)) = pid_).
Proof.
  intros Hl. unfold proc_get. set (f := fun p => _).
  assert (F : forall i, f (proc_at s i) = true <-> pid (proc_at s i) = pid_ /\ pstate (proc_at s i) <> PROC_UNUSED).
  { intros i. unfold f. rewrite andb_true_iff, Z.eqb_eq, negb_true_iff, bool_decide_eq_false. done. }
  destruct (find_slot_spec f (g_proc_table s) 0 ltac:(lia)) as [[A B]|(k & A & B & C & D)].
  - left. split; [done|]. intros i [Hi Hu] Hp. specialize (B i ltac:(lia)). change ((g_proc_table s).[i]) with (proc_at s i) in B.
    assert (f (proc_at s i) = true) by (by apply F). congruence.
  - right. rewrite B. change ((g_proc_table s).[k]) with (proc_at s k) in C. apply F in C as [C1 C2].
    replace (0 + k) with k by lia. split; [split; [lia|done]|done].
Qed.

Lemma proc_get_used (s : sys) i :
  zlen (g_proc_table s) = MAX_PROCESSES -> pids_ok s -> used s i -> proc_get s (pid (proc_at s i)) = i.
Proof.
  intros Hl Hp Hu. destruct (proc_get_spec s (pid (proc_at s i)) Hl) as [[_ A]|[A B]].
  - by destruct (A i Hu).
  - by apply Hp.
Qed.

Lemma upd_id (s : sys) i : zlen (g_proc_table s) = MAX_PROCESSES -> 0 <= i < MAX_PROCESSES -> upd i (fun p => p) s = s.
Proof.
  intros Hl Hi. unfold upd, proc_at. destruct s as [t a b c d e f g h k l]. unfold with_table. cbn in *.
  f_equal. unfold zset. apply list_insert_id. apply zget_lookup. lia.
Qed.

(** Waking one pid: [wakes], and the process with that pid does not stay blocked. *)
Lemma wake_pid_spec (s : sys) qs pid_ :
  sched_ok s qs -> intents_ok s ->
  exists qs', wakes s qs (wake_pid s pid_) qs' /\
    (pids_ok s -> forall i, used s i -> pid (proc_at s i) = pid_ -> pstate (proc_at (wake_pid s pid_) i) <> PROC_BLOCKED) /\
    (pids_ok s -> forall i, used s i -> pid (proc_at s i) <> pid_ -> pstate (proc_at (wake_pid s pid_) i) = pstate (proc_at s i)).
Proof.
  intros Hok Hint. pose proof (so_tbl _ _ Hok) as Hl. unfold wake_pid.
  destruct (proc_get_spec s pid_ Hl) as [[A B]|[Hu Hp]].
  - rewrite A. change (NULL =? NULL) with true. cbn [negb andb]. exists qs. split; [by apply wakes_refl|].
    split; [intros _ i Hi E; by destruct (B i Hi)|done].
  - set (p := proc_get s pid_) in *. destruct (Z.eqb_spec p NULL); [destruct Hu; unfold NULL in *; lia|]. cbn [negb andb].
    assert (Uniq : pids_ok s -> forall i, used s i -> pid (proc_at s i) = pid_ -> i = p).
    { intros Hpi i Hi E. apply Hpi; [done|done|congruence]. }
    destruct (bool_decide_reflect (pstate (proc_at s p) = PROC_BLOCKED)) as [Hb|Hb].
    + destruct (wake_one s qs p (fun p => p) Hok Hint (proj1 Hu) Hb) as (qs' & W & Rdy & Oth); [done|].
      rewrite upd_id in W, Rdy, Oth by (done || apply Hu). exists qs'. split; [done|]. split.
      * intros Hpi i Hi E. rewrite (Uniq Hpi i Hi E), Rdy. done.
      * intros Hpi i Hi E. assert (Hne : i <> p) by (intros ->; done).
        by destruct (link_fields _ _ (Oth i (proj1 Hi) Hne)) as (_ & -> & _).
    + exists qs. split; [by apply wakes_refl|]. split; [|done]. intros Hpi i Hi E. by rewrite (Uniq Hpi i Hi E).
Qed.

Lemma wakes_pid (s : sys) qs s' qs' i : wakes s qs s' qs' -> 0 <= i < MAX_PROCESSES ->
  pid (proc_at s' i) = pid (proc_at s i) /\ (pstate (proc_at s' i) = pstate (proc_at s i) \/
    (pstate (proc_at s i) = PROC_BLOCKED /\ pstate (proc_at s' i) = PROC_READY)).
Proof.
  intros W Hi. split; [by destruct (static_intent _ _ (wk_static _ _ _ _ W i Hi)) as (_ & ? & _)|].
  destruct (wk_state _ _ _ _ W i Hi) as [E|(A & B & _)]; [left; by destruct (link_fields _ _ E) as (_ & ? & _)|by right].
Qed.

Lemma wakes_used (s : sys) qs s' qs' i : wakes s qs s' qs' -> used s' i <-> used s i.
Proof.
  intros W. unfold used. split; intros [Hi Hu]; (split; [done|]);
    destruct (wakes_pid s qs s' qs' i W Hi) as [_ [E|[E1 E2]]]; congruence.
Qed.

Lemma wakes_pids_ok (s : sys) qs s' qs' : wakes s qs s' qs' -> pids_ok s -> pids_ok s'.
Proof.
  intros W Hp i j Hi Hj E. apply (wakes_used _ _ _ _ i W) in Hi. apply (wakes_used _ _ _ _ j W) in Hj.
  apply Hp; [done|done|]. destruct (wakes_pid _ _ _ _ i W (proj1 Hi)) as [<- _].
  by destruct (wakes_pid _ _ _ _ j W (proj1 Hj)) as [<- _].
Qed.

(** Waking the whole array. *)
Lemma wake_all_spec (s : sys) qs ws n :
  sched_ok s qs -> intents_ok s -> pids_ok s -> 0 <= n ->
  exists qs', wakes s qs (wake_all ws n s) qs' /\
    (forall i k, used s i -> 0 <= k < n -> pid (proc_at s i) = ws.[k] -> pstate (proc_at (wake_all ws n s) i) <> PROC_BLOCKED) /\
    (forall i, used s i -> (forall k, 0 <= k < n -> pid (proc_at s i) <> ws.[k]) ->
       pstate (proc_at (wake_all ws n s) i) = pstate (proc_at s i)).
Proof.
  intros Hok Hint Hp Hn.
  pose proof (for_loop_ind (fun j s' => exists qs', wakes s qs s' qs' /\
    (forall i k, used s i -> 0 <= k < j -> pid (proc_at s i) = ws.[k] -> pstate (proc_at s' i) <> PROC_BLOCKED) /\
    (forall i, used s i -> (forall k, 0 <= k < j -> pid (proc_at s i) <> ws.[k]) -> pstate (proc_at s' i) = pstate (proc_at s i)))
    (Z.to_nat n) 0 (fun i s => wake_pid s ws.[i]) s) as I.
  rewrite Z.add_0_l, Z2Nat.id in I by done. apply I.
  - exists qs. split; [by apply wakes_refl|]. split; [lia|done].
  - intros j s1 Hj (q1 & W1 & A1 & B1).
    destruct (wake_pid_spec s1 q1 ws.[j] (wk_ok _ _ _ _ W1) (wakes_intents _ _ _ _ W1 Hint)) as (q2 & W2 & A2 & B2).
    pose proof (wakes_pids_ok _ _ _ _ W1 Hp) as P1. exists q2. split; [by eapply wakes_trans|]. split.
    + intros i k Hi Hk E Hb. destruct (wakes_pid _ _ _ _ i W1 (proj1 Hi)) as [Ep _].
      assert (Hu1 : used s1 i) by (by apply (wakes_used _ _ _ _ i W1)).
      destruct (decide (k = j)) as [->|]; [apply (A2 P1 i Hu1); [congruence|done]|].
      destruct (wakes_blocked _ _ _ _ i W2 (proj1 Hi) Hb) as [Hb1 _]. apply (A1 i k); [done|lia|done|done].
    + intros i Hi Hk. destruct (wakes_pid _ _ _ _ i W1 (proj1 Hi)) as [Ep _].
      rewrite B2; [apply B1; [done|intros k Hk'; apply Hk; lia]|done|by apply (wakes_used _ _ _ _ i W1)|].
      rewrite Ep. apply Hk. lia.
Qed.

End Waking.

(** ** Registering as a waiter *)

Section Systems.
Context {H V : Type} `{Allocator H} `{FdTable V}.
#[local] Notation "'sys'" := (ksys H V).

(** The kernel invariant the steps keep. *)
Definition kernel_ok (s : sys) : Prop := (exists qs, sched_ok s qs) /\ intents_ok s /\ pids_ok s.

(** Where a process is: outside the calls of the object, in the retry loop, or
    holding it. *)
Inductive pc := Out | Wants | Holds.

(** What the rest of the kernel may do between two steps, from the processes
    [f] to the processes [g]: anything that keeps the kernel invariant.
    Processes may be created, dispatched, preempted, blocked and woken, may exit
    and be reaped, also in the middle of the calls of the object (then they are
    [Out] in [g]); a process that stays in the calls keeps its slot and pid, and
    is not put to sleep by somebody else. *)
Definition other_activity (s : sys) (f : Z -> pc) (s' : sys) (g : Z -> pc) : Prop :=
  kernel_ok s' /\ forall i, g i <> Out ->
    g i = f i /\ used s' i /\ pid (proc_at s' i) = pid (proc_at s i) /\
    (g i = Wants -> pstate (proc_at s' i) = PROC_BLOCKED -> pstate (proc_at s i) = PROC_BLOCKED).

(** The wake-ups of the timer interrupt and of [sched_yield] are such activity. *)
Lemma other_wakes (s s' : sys) qs qs' f :
  wakes s qs s' qs' -> kernel_ok s -> (forall i, f i <> Out -> used s i) -> other_activity s f s' f.
Proof.
  intros W (_ & Hi & Hp) Hu. split.
  - split; [exists qs'; apply (wk_ok _ _ _ _ W)|].
    split; [exact (wakes_intents _ _ _ _ W Hi)|exact (wakes_pids_ok _ _ _ _ W Hp)].
  - intros i Hfi. specialize (Hu i Hfi). split; [done|]. split; [by apply (wakes_used _ _ _ _ i W)|].
    split; [by destruct (wakes_pid _ _ _ _ i W (proj1 Hu)) as [-> _]|].
    intros _ Hb. by destruct (wakes_blocked _ _ _ _ i W (proj1 Hu) Hb).
Qed.

Lemma other_flags (s : sys) f b c :
  kernel_ok s -> (forall i, f i <> Out -> used s i) -> other_activity s f (with_if b (with_current c s)) f.
Proof.
  intros ((qs & Ho) & Hi & Hp) Hu. split; [|intros i Hf; split; [done|]; split; [by apply Hu|done]].
  split; [exists qs; by destruct Ho|done].
Qed.

Lemma kernel_ok_flags (s : sys) b c : kernel_ok s -> kernel_ok (with_if b (with_current c s)).
Proof. intros ((qs & []) & Hi & Hp). split; [exists qs; by constructor|done]. Qed.

(** Blocking the current process. *)
Lemma block_spec (s : sys) p :
  kernel_ok s -> used s p ->
  kernel_ok (upd p (set_state PROC_BLOCKED) s) /\
  (forall i, 0 <= i < MAX_PROCESSES -> pid (proc_at (upd p (set_state PROC_BLOCKED) s) i) = pid (proc_at s i) /\
     (used (upd p (set_state PROC_BLOCKED) s) i <-> used s i) /\
     pstate (proc_at (upd p (set_state PROC_BLOCKED) s) i) = if decide (i = p) then PROC_BLOCKED else pstate (proc_at s i)).
Proof.
  intros ((qs & Hok) & Hint & Hpid) Hu. set (s' := upd p (set_state PROC_BLOCKED) s).
  assert (A : forall i, 0 <= i < MAX_PROCESSES -> proc_at s' i = if decide (i = p) then set_state PROC_BLOCKED (proc_at s p) else proc_at s i).
  { intros i Hi. unfold s'. by rewrite upd_at by (done || apply (so_tbl _ _ Hok) || apply Hu). }
  assert (B : forall i, 0 <= i < MAX_PROCESSES -> pid (proc_at s' i) = pid (proc_at s i) /\ (used s' i <-> used s i) /\
     pstate (proc_at s' i) = if decide (i = p) then PROC_BLOCKED else pstate (proc_at s i)).
  { intros i Hi. unfold used. rewrite A by done. destruct (decide (i = p)) as [->|]; [|done].
    split; [done|]. split; [|done]. split; [intros _; apply Hu|done]. }
  split; [|done]. split; [exists qs; apply upd_ok; [done|apply Hu|done]|]. split.
  - intros i Hi. rewrite A by done. destruct (decide (i = p)) as [->|]; by apply Hint.
  - intros i j Hi Hj E. destruct (B i (proj1 Hi)) as (E1 & U1 & _), (B j (proj1 Hj)) as (E2 & U2 & _).
    apply Hpid; [by apply U1|by apply U2|congruence].
Qed.

(** ** The mutex as a transition system *)

Record mworld := mk_mw { w_m : mutex; w_s : sys; w_pc : Z -> pc }.

Definition set_pc (p : Z) (c : pc) (f : Z -> pc) : Z -> pc := fun i => if decide (i = p) then c else f i.

Inductive mstep : mworld -> mworld -> Prop :=
  | ms_want m s f p :
      used s p -> f p = Out -> pstate (proc_at s p) <> PROC_BLOCKED ->
      mstep (mk_mw m s f) (mk_mw m s (set_pc p Wants f))
  | ms_lock m s f p r m' s' :
      used s p -> f p = Wants -> pstate (proc_at s p) <> PROC_BLOCKED ->
      mutex_lock_iter m (with_current p s) = (r, m', s') ->
      mstep (mk_mw m s f) (mk_mw m' s' (set_pc p (match r with Acquired => Holds | Retry => Wants end) f))
  | ms_trylock m s f p got m' s' :
      used s p -> f p = Out ->
      mutex_trylock m (with_current p s) = (got, m', s') ->
      mstep (mk_mw m s f) (mk_mw m' s' (set_pc p (if got =? 0 then Out else Holds) f))
  | ms_unlock m s f p m' s' :
      used s p -> f p = Holds -> mutex_unlock m (with_current p s) = (m', s') ->
      mstep (mk_mw m s f) (mk_mw m' s' (set_pc p Out f))
  | ms_other m s f s' g :
      other_activity s f s' g -> mstep (mk_mw m s f) (mk_mw m s' g).

Inductive mreach (w0 : mworld) : mworld -> Prop :=
  | mr_refl : mreach w0 w0
  | mr_step w w' : mreach w0 w -> mstep w w' -> mreach w0 w'.

Definition mstart (m : mutex) (s : sys) : mworld := mk_mw (mutex_init m) s (fun _ => Out).

Record minv (w : mworld) : Prop := {
  mi_kernel : kernel_ok (w_s w);
  mi_used : forall p, w_pc w p <> Out -> used (w_s w) p;
  mi_lock : (m_locked (w_m w) = 0 /\ m_waiter_count (w_m w) = 0 /\ forall p, w_pc w p <> Holds) \/
            (m_locked (w_m w) = 1 /\ (forall p, w_pc w p = Holds -> owner_pid (w_m w) = pid (proc_at (w_s w) p)) /\
             forall p q, w_pc w p = Holds -> w_pc w q = Holds -> p = q);
  mi_len : zlen (m_waiters (w_m w)) = MUTEX_MAX_WAITERS;
  mi_count : 0 <= m_waiter_count (w_m w) <= MUTEX_MAX_WAITERS;
  mi_wait : forall p, w_pc w p = Wants -> pstate (proc_at (w_s w) p) = PROC_BLOCKED ->
            exists k, 0 <= k < m_waiter_count (w_m w) /\ (m_waiters (w_m w)).[k] = pid (proc_at (w_s w) p)
}.

Lemma set_pc_eq p c f : set_pc p c f p = c.
Proof. unfold set_pc. by rewrite decide_True. Qed.
Lemma set_pc_ne p c f i : i <> p -> set_pc p c f i = f i.
Proof. intros Hi. unfold set_pc. by rewrite decide_False. Qed.

Lemma current_pid_with (s : sys) p b : 0 <= p -> current_pid (with_if b (with_current p s)) = pid (proc_at s p).
Proof.
  intros Hp. unfold current_pid. cbn [g_current_proc with_if with_current].
  destruct (Z.eqb_spec p NULL); [unfold NULL in *; lia|]. done.
Qed.

(** Taking a free mutex. *)
Lemma minv_acquire m s f p b :
  minv (mk_mw m s f) -> used s p -> m_locked m = 0 ->
  minv (mk_mw (mk_mutex 1 (pid (proc_at s p)) (m_waiters m) (m_waiter_count m)) (with_if b (with_current p s)) (set_pc p Holds f)).
Proof.
  intros [Hk Hu Hl Hn Hc Hw] Hp Hf. cbn [w_m w_s w_pc] in *.
  destruct Hl as [(_ & Hz & Hh)|[? _]]; [|lia]. constructor; cbn [w_m w_s w_pc m_locked owner_pid m_waiters m_waiter_count].
  - by apply kernel_ok_flags.
  - intros i. unfold set_pc. destruct (decide (i = p)) as [->|]; [done|]. apply Hu.
  - assert (Only : forall i, set_pc p Holds f i = Holds -> i = p).
    { intros i Hi. destruct (decide (i = p)); [done|]. rewrite set_pc_ne in Hi by done. by destruct (Hh i). }
    right. split; [done|]. split; [by intros i ->%Only|]. by intros i j ->%Only ->%Only.
  - done.
  - done.
  - intros i Hi. destruct (decide (i = p)) as [->|]; [by rewrite set_pc_eq in Hi|]. rewrite set_pc_ne in Hi by done. by apply Hw.
Qed.

(** A taken mutex: the process registers, if there is room, and blocks. *)
Lemma minv_register m s f p b :
  minv (mk_mw m s f) -> used s p -> f p = Wants -> m_locked m <> 0 -> m_waiter_count m < MUTEX_MAX_WAITERS ->
  minv (mk_mw (mk_mutex (m_locked m) (owner_pid m) (m_waiters m).[m_waiter_count m <- pid (proc_at s p)] (m_waiter_count m + 1))
              (with_if b (with_current p (upd p (set_state PROC_BLOCKED) s))) f).
Proof.
  intros [Hk Hu Hl Hn Hc Hw] Hp Hf Hlk Hroom. cbn [w_m w_s w_pc] in *.
  destruct (block_spec s p Hk Hp) as [Hk' Hb]. set (s1 := upd p (set_state PROC_BLOCKED) s) in *.
  constructor; cbn [w_m w_s w_pc m_locked owner_pid m_waiters m_waiter_count].
  - by apply kernel_ok_flags.
  - intros i Hi. change (used s1 i). apply (Hb i); [apply Hu, Hi|apply Hu, Hi].
  - right. destruct Hl as [(A & _)|(A & B & C)]; [done|]. split; [done|]. split; [|done]. intros h Hh.
    change (proc_at (with_if b (with_current p s1)) h) with (proc_at s1 h).
    destruct (Hb h) as [-> _]; [|by apply B]. apply (Hu h). by rewrite Hh.
  - by rewrite zlen_zset.
  - lia.
  - intros i Hi Hbl. change (proc_at (with_if b (with_current p s1)) i) with (proc_at s1 i) in *.
    assert (Hir : 0 <= i < MAX_PROCESSES) by (apply (Hu i); by rewrite Hi).
    destruct (Hb i Hir) as (Ep & _ & Es). rewrite Ep. destruct (decide (i = p)) as [->|Hne].
    + exists (m_waiter_count m). split; [lia|]. apply zget_zset_eq. lia.
    + rewrite Es in Hbl. destruct (Hw i Hi Hbl) as (k & Hk1 & Hk2). exists k. split; [lia|].
      rewrite zget_zset_ne by lia. done.
Qed.

(** A step of the rest of the kernel. *)
Lemma minv_other m s f s' g : minv (mk_mw m s f) -> other_activity s f s' g -> minv (mk_mw m s' g).
Proof.
  intros [Hk Hu Hl Hn Hc Hw] [Hk' Ho]. cbn [w_m w_s w_pc] in *.
  assert (Fg : forall i c, c <> Out -> g i = c -> f i = c /\ pid (proc_at s' i) = pid (proc_at s i)).
  { intros i c Hc' <-. by destruct (Ho i Hc') as (<- & _ & -> & _). }
  constructor; cbn [w_m w_s w_pc]; try done.
  - intros i Hi. by apply Ho.
  - destruct Hl as [(A & B & C)|(A & B & C)]; [left|right]; (split; [done|]); split; try done.
    + intros i Hi. destruct (Fg i Holds ltac:(done) Hi) as [Hf _]. by apply (C i).
    + intros i Hi. destruct (Fg i Holds ltac:(done) Hi) as [Hf ->]. by apply B.
    + intros i j Hi Hj. apply C; by apply Fg.
  - intros i Hi Hb. destruct (Fg i Wants ltac:(done) Hi) as [Hf ->]. apply Hw; [done|]. apply Ho; [by rewrite Hi|done|done].
Qed.

(** Unlocking wakes every registered waiter. *)
Lemma minv_unlock m s f p :
  minv (mk_mw m s f) -> used s p -> f p = Holds ->
  let '(m', s') := mutex_unlock m (with_current p s) in minv (mk_mw m' s' (set_pc p Out f)).
Proof.
  intros [Hk Hu Hl Hn Hc Hw] Hp Hf. cbn [w_m w_s w_pc] in *. unfold mutex_unlock.
  set (s1 := with_if false (with_current p s)).
  assert (Hk1 : kernel_ok s1) by (by apply kernel_ok_flags). destruct Hk1 as ((qs & Ho1) & Hi1 & Hp1).
  destruct (wake_all_spec s1 qs (m_waiters m) (m_waiter_count m) Ho1 Hi1 Hp1 ltac:(lia)) as (q2 & W & Wk & _).
  remember (wake_all (m_waiters m) (m_waiter_count m) s1) as s2 eqn:X. clear X.
  assert (Hk2 : kernel_ok s2).
  { split; [exists q2; apply (wk_ok _ _ _ _ W)|]. split; [exact (wakes_intents _ _ _ _ W Hi1)|exact (wakes_pids_ok _ _ _ _ W Hp1)]. }
  assert (Hk3 : kernel_ok (with_if true s2)).
  { destruct Hk2 as ((q & Ho) & Hi2 & Hp2). split; [exists q; by apply ok_with_if|done]. }
  constructor; cbn [w_m w_s w_pc m_locked owner_pid m_waiters m_waiter_count]; [done| | |done|unfold MUTEX_MAX_WAITERS; lia|].
  - intros i Hi. destruct (decide (i = p)) as [->|]; [by rewrite set_pc_eq in Hi|]. rewrite set_pc_ne in Hi by done.
    change (used s2 i). apply (wakes_used _ _ _ _ i W). by apply Hu.
  - left. split; [done|]. split; [done|]. intros i Hi. destruct (decide (i = p)) as [->|Hne]; [by rewrite set_pc_eq in Hi|].
    rewrite set_pc_ne in Hi by done. destruct Hl as [(_ & _ & B)|(_ & _ & D)]; [by apply (B i)|].
    apply Hne. by apply D.
  - intros i Hi Hb. exfalso. change (proc_at (with_if true s2) i) with (proc_at s2 i) in Hb.
    destruct (decide (i = p)) as [->|]; [by rewrite set_pc_eq in Hi|]. rewrite set_pc_ne in Hi by done.
    assert (Hui : used s i) by (apply Hu; by rewrite Hi).
    destruct (wakes_blocked _ _ _ _ i W (proj1 Hui) Hb) as [Hb1 _].
    destruct (Hw i Hi Hb1) as (k & Hk1' & Hk2'). apply (Wk i k); done.
Qed.

Lemma minv_ext m s f g : (forall i, g i = f i) -> minv (mk_mw m s f) -> minv (mk_mw m s g).
Proof.
  intros E [A B C D F G]. constructor; cbn [w_m w_s w_pc] in *; try done.
  - intros i. rewrite E. apply B.
  - destruct C as [(C1 & C2 & C3)|(C1 & C2 & C3)]; [left|right]; (split; [done|]).
    + split; [done|]. intros i. rewrite E. apply C3.
    + split; [intros i; rewrite E; apply C2|]. intros i j. rewrite !E. apply C3.
  - intros i. rewrite E. apply G.
Qed.

Lemma set_pc_id p c f : f p = c -> forall i, set_pc p c f i = f i.
Proof. intros <- i. unfold set_pc. by destruct (decide (i = p)) as [->|]. Qed.

Lemma mstep_inv w w' : minv w -> mstep w w' -> minv w'.
Proof.
  intros Hi Hs.
  destruct Hs as [m s f p Hp Hf Hb|m s f p r m' s' Hp Hf Hb E|m s f p got m' s' Hp Hf E|m s f p m' s' Hp Hf E|m s f s' g Ho].
  - destruct Hi as [Hk Hu Hl Hn Hc Hw]. constructor; cbn [w_m w_s w_pc] in *; try done.
    + intros i. unfold set_pc. destruct (decide (i = p)) as [->|]; [done|]. apply Hu.
    + assert (Same : forall i, set_pc p Wants f i = Holds -> f i = Holds).
      { intros i. unfold set_pc. by destruct (decide (i = p)). }
      destruct Hl as [(A & B & C)|(A & B & C)]; [left|right]; (split; [done|]).
      * split; [done|]. by intros i Hi%Same%C.
      * split; [by intros i Hi%Same; apply B|]. by intros i j Hi%Same Hj%Same; apply C.
    + intros i Hi Hbl. destruct (decide (i = p)) as [->|]; [done|]. rewrite set_pc_ne in Hi by done. by apply Hw.
  - unfold mutex_lock_iter in E. rewrite (current_pid_with s p false) in E by apply Hp.
    destruct (Z.eqb_spec (m_locked m) 0) as [Hz|Hz].
    { injection E as <- <- <-. by apply (minv_acquire m s f p true). }
    change (g_current_proc (with_if false (with_current p s))) with p in E.
    destruct (Z.eqb_spec p NULL); [destruct Hp; unfold NULL in *; lia|]. cbn [negb andb] in E.
    destruct (Z.ltb_spec (m_waiter_count m) MUTEX_MAX_WAITERS).
    + injection E as <- <- <-. apply (minv_ext _ _ f _ (set_pc_id p Wants f Hf)). by apply (minv_register m s f p true).
    + injection E as <- <- <-. apply (minv_ext _ _ f _ (set_pc_id p Wants f Hf)). apply (minv_other m s f); [done|].
      apply other_flags; apply Hi.
  - unfold mutex_trylock in E. rewrite (current_pid_with s p false) in E by apply Hp.
    destruct (Z.eqb_spec (m_locked m) 0) as [Hz|Hz].
    { injection E as <- <- <-. by apply (minv_acquire m s f p true). }
    injection E as <- <- <-. change (0 =? 0) with true. cbn match.
    apply (minv_ext _ _ f _ (set_pc_id p Out f Hf)).
    apply (minv_other m s f); [done|]. apply other_flags; apply Hi.
  - pose proof (minv_unlock m s f p Hi Hp Hf) as U. by rewrite E in U.
  - by apply (minv_other m s f).
Qed.

Lemma mreach_inv w0 w : minv w0 -> mreach w0 w -> minv w.
Proof. intros H0' Hr. induction Hr as [|w w' Hr IH Hs]; [done|]. by eapply mstep_inv. Qed.

(** ** The semaphore as a transition system *)

(** [Out]: not in [sem_wait]; [Wants]: in its loop.  [w_acq] and [w_post] count
    the completed waits and the posts. *)
Record sworld := mk_sw { v_m : semaphore; v_s : sys; v_pc : Z -> pc; v_acq : Z; v_post : Z }.

Inductive sstep : sworld -> sworld -> Prop :=
  | ss_want m s f a o p :
      used s p -> f p = Out -> pstate (proc_at s p) <> PROC_BLOCKED ->
      sstep (mk_sw m s f a o) (mk_sw m s (set_pc p Wants f) a o)
  | ss_wait m s f a o p r m' s' :
      used s p -> f p = Wants -> pstate (proc_at s p) <> PROC_BLOCKED ->
      sem_wait_iter m (with_current p s) = (r, m', s') ->
      sstep (mk_sw m s f a o)
            (match r with
             | Acquired => mk_sw m' s' (set_pc p Out f) (a + 1) o
             | Retry => mk_sw m' s' f a o
             end)
  | ss_post m s f a o c m' s' :
      sem_post m (with_current c s) = (m', s') -> sstep (mk_sw m s f a o) (mk_sw m' s' f a (o + 1))
  | ss_other m s f a o s' g :
      other_activity s f s' g -> sstep (mk_sw m s f a o) (mk_sw m s' g a o).

Inductive sreach (w0 : sworld) : sworld -> Prop :=
  | sr_refl : sreach w0 w0
  | sr_step w w' : sreach w0 w -> sstep w w' -> sreach w0 w'.

Record sinv (n : Z) (w : sworld) : Prop := {
  si_kernel : kernel_ok (v_s w);
  si_used : forall p, v_pc w p <> Out -> used (v_s w) p;
  si_count : s_count (v_m w) = n + v_post w - v_acq w /\ 0 <= s_count (v_m w);
  si_free : 0 < s_count (v_m w) -> s_waiter_count (v_m w) = 0;
  si_len : zlen (s_waiters (v_m w)) = SEM_MAX_WAITERS;
  si_wcount : 0 <= s_waiter_count (v_m w) <= SEM_MAX_WAITERS;
  si_wait : forall p, v_pc w p = Wants -> pstate (proc_at (v_s w) p) = PROC_BLOCKED ->
            exists k, 0 <= k < s_waiter_count (v_m w) /\ (s_waiters (v_m w)).[k] = pid (proc_at (v_s w) p)
}.

Lemma sinv_other n m s f a o s' g :
  sinv n (mk_sw m s f a o) -> other_activity s f s' g -> sinv n (mk_sw m s' g a o).
Proof.
  intros [Hk Hu Hl Hn Hc Hw Hwt] [Hk' Ho]. cbn [v_m v_s v_pc v_acq v_post] in *.
  constructor; cbn [v_m v_s v_pc v_acq v_post]; try done.
  - intros i Hi. by apply Ho.
  - intros i Hi Hb. destruct (Ho i ltac:(by rewrite Hi)) as (Ef & _ & -> & Eb). apply Hwt; [congruence|by apply Eb].
Qed.

Lemma sinv_register n m s f a o p b :
  sinv n (mk_sw m s f a o) -> used s p -> s_count m <= 0 -> s_waiter_count m < SEM_MAX_WAITERS ->
  sinv n (mk_sw (mk_sem (s_count m) (s_waiters m).[s_waiter_count m <- pid (proc_at s p)] (s_waiter_count m + 1))
                (with_if b (with_current p (upd p (set_state PROC_BLOCKED) s))) f a o).
Proof.
  intros [Hk Hu Hl Hn Hc Hw Hwt] Hp Hz Hroom. cbn [v_m v_s v_pc v_acq v_post] in *.
  destruct (block_spec s p Hk Hp) as [Hk' Hb]. set (s1 := upd p (set_state PROC_BLOCKED) s) in *.
  constructor; cbn [v_m v_s v_pc v_acq v_post s_count s_waiters s_waiter_count]; [by apply kernel_ok_flags| |done|lia|by rewrite zlen_zset|lia|].
  - intros i Hi. change (used s1 i). apply (Hb i); [apply Hu, Hi|apply Hu, Hi].
  - intros i Hi Hbl. change (proc_at (with_if b (with_current p s1)) i) with (proc_at s1 i) in *.
    assert (Hir : 0 <= i < MAX_PROCESSES) by (apply (Hu i); by rewrite Hi).
    destruct (Hb i Hir) as (Ep & _ & Es). rewrite Ep. destruct (decide (i = p)) as [->|Hne].
    + exists (s_waiter_count m). split; [lia|]. apply zget_zset_eq. lia.
    + rewrite Es in Hbl. destruct (Hwt i Hi Hbl) as (k & Hk1 & Hk2). exists k. split; [lia|].
      rewrite zget_zset_ne by lia. done.
Qed.

Lemma sinv_post n m s f a o c :
  sinv n (mk_sw m s f a o) ->
  let '(m', s') := sem_post m (with_current c s) in sinv n (mk_sw m' s' f a (o + 1)).
Proof.
  intros [Hk Hu Hl Hn Hc Hw Hwt]. cbn [v_m v_s v_pc v_acq v_post] in *. unfold sem_post.
  set (s1 := with_if false (with_current c s)).
  assert (Hk1 : kernel_ok s1) by (by apply kernel_ok_flags). destruct Hk1 as ((qs & Ho1) & Hi1 & Hp1).
  destruct (wake_all_spec s1 qs (s_waiters m) (s_waiter_count m) Ho1 Hi1 Hp1 ltac:(lia)) as (q2 & W & Wk & _).
  remember (wake_all (s_waiters m) (s_waiter_count m) s1) as s2 eqn:X. clear X.
  assert (Hk3 : kernel_ok (with_if true s2)).
  { split; [exists q2; apply ok_with_if, (wk_ok _ _ _ _ W)|].
    split; [apply intents_with_if, (wakes_intents _ _ _ _ W Hi1)|exact (wakes_pids_ok _ _ _ _ W Hp1)]. }
  constructor; cbn [v_m v_s v_pc v_acq v_post s_count s_waiters s_waiter_count]; [done| |lia|done|done|unfold SEM_MAX_WAITERS; lia|].
  - intros i Hi. change (used s2 i). apply (wakes_used _ _ _ _ i W). by apply Hu.
  - intros i Hi Hb. exfalso. change (proc_at (with_if true s2) i) with (proc_at s2 i) in Hb.
    assert (Hui : used s i) by (apply Hu; by rewrite Hi).
    destruct (wakes_blocked _ _ _ _ i W (proj1 Hui) Hb) as [Hb1 _].
    destruct (Hwt i Hi Hb1) as (k & Hk1' & Hk2'). apply (Wk i k); done.
Qed.

Lemma sstep_inv n w w' : sinv n w -> sstep w w' -> sinv n w'.
Proof.
  intros Hi Hs.
  destruct Hs as [m s f a o p Hp Hf Hb|m s f a o p r m' s' Hp Hf Hb E|m s f a o c m' s' E|m s f a o s' g Ho].
  - destruct Hi as [Hk Hu Hl Hn Hc Hw Hwt]. constructor; cbn [v_m v_s v_pc v_acq v_post] in *; try done.
    + intros i. unfold set_pc. destruct (decide (i = p)) as [->|]; [done|]. apply Hu.
    + intros i Hi Hbl. destruct (decide (i = p)) as [->|]; [done|]. rewrite set_pc_ne in Hi by done. by apply Hwt.
  - unfold sem_wait_iter in E. change (g_current_proc (with_if false (with_current p s))) with p in E.
    destruct (Z.ltb_spec 0 (s_count m)) as [Hz|Hz].
    { injection E as <- <- <-. destruct Hi as [Hk Hu Hl Hn Hc Hw Hwt]. cbn [v_m v_s v_pc v_acq v_post] in *.
      constructor; cbn [v_m v_s v_pc v_acq v_post s_count s_waiters s_waiter_count]; try done.
      - by apply (kernel_ok_flags (with_current p s) true p), (kernel_ok_flags s (k_if s) p).
      - intros i. unfold set_pc. destruct (decide (i = p)) as [->|]; [done|]. apply Hu.
      - lia.
      - intros _. apply Hn. lia.
      - intros i Hi. destruct (decide (i = p)) as [->|]; [by rewrite set_pc_eq in Hi|]. rewrite set_pc_ne in Hi by done. by apply Hwt. }
    destruct (Z.eqb_spec p NULL); [destruct Hp; unfold NULL in *; lia|]. cbn [negb andb] in E.
    destruct (Z.ltb_spec (s_waiter_count m) SEM_MAX_WAITERS); injection E as <- <- <-.
    + by apply (sinv_register n m s f a o p true).
    + apply (sinv_other n m s f); [done|]. apply other_flags; apply Hi.
  - pose proof (sinv_post n m s f a o c Hi) as U. by rewrite E in U.
  - by apply (sinv_other n m s f).
Qed.

Lemma sreach_inv n w0 w : sinv n w0 -> sreach w0 w -> sinv n w.
Proof. intros H0' Hr. induction Hr as [|w w' Hr IH Hs]; [done|]. by eapply sstep_inv. Qed.

(** ** Properties *)

(** C16: mutual exclusion and no lost wake-up.  Starting from an initialised
    mutex, in every state reachable by lock attempts, try-locks, unlocks by the
    holder and the activity of the rest of the kernel described by
    [other_activity] (creation, exit, dispatch, preemption and wake-up of any
    process; it keeps the kernel's invariant and does not itself put to sleep a
    process that is inside the calls): at most one process
    holds the mutex and [owner_pid] is its pid; and whenever the mutex is free,
    no process inside [mutex_lock] is blocked, so a waiter cannot sleep forever
    on a free mutex (also when the 32-entry waiter table overflowed). *)
Theorem mutex_exclusion_no_lost_wakeup m s w :
  kernel_ok s -> zlen (m_waiters m) = MUTEX_MAX_WAITERS -> mreach (mstart m s) w ->
  (forall p q, w_pc w p = Holds -> w_pc w q = Holds -> p = q) /\
  (forall p, w_pc w p = Holds -> m_locked (w_m w) = 1 /\ owner_pid (w_m w) = pid (proc_at (w_s w) p)) /\
  (m_locked (w_m w) = 0 -> forall p, w_pc w p = Wants -> pstate (proc_at (w_s w) p) <> PROC_BLOCKED).
Proof.
  intros Hk Hl Hr. assert (Hi : minv w).
  { apply (mreach_inv (mstart m s)); [|done]. unfold mstart, mutex_init.
    constructor; cbn [w_m w_s w_pc m_locked m_waiters m_waiter_count]; [done|done|by left|done|unfold MUTEX_MAX_WAITERS; lia|done]. }
  destruct Hi as [_ _ Hlk _ _ Hw]. split; [|split].
  - intros p q Hp Hq. destruct Hlk as [(_ & _ & C)|(_ & _ & D)]; [by destruct (C p)|]. by apply D.
  - intros p Hp. destruct Hlk as [(_ & _ & C)|(A & B & _)]; [by destruct (C p)|]. split; [done|by apply B].
  - intros Hz p Hp Hb. destruct Hlk as [(_ & C & _)|(A & _)]; [|lia]. destruct (Hw p Hp Hb) as (k & Hk' & _). lia.
Qed.

(** The semaphore counts exactly and wakes its waiters.  From a semaphore
    initialised to [n >= 0], in every reachable state the count is [n] plus the
    posts minus the completed waits and never negative, and while it is positive
    no process inside [sem_wait] is blocked. *)
Theorem semaphore_count_no_lost_wakeup sm n s w :
  kernel_ok s -> zlen (s_waiters sm) = SEM_MAX_WAITERS -> 0 <= n ->
  sreach (mk_sw (sem_init sm n) s (fun _ => Out) 0 0) w ->
  s_count (v_m w) = n + v_post w - v_acq w /\ 0 <= s_count (v_m w) /\
  (0 < s_count (v_m w) -> forall p, v_pc w p = Wants -> pstate (proc_at (v_s w) p) <> PROC_BLOCKED).
Proof.
  intros Hk Hl Hn Hr. assert (Hi : sinv n w).
  { apply (sreach_inv n (mk_sw (sem_init sm n) s (fun _ => Out) 0 0)); [|done]. unfold sem_init.
    constructor; cbn [v_m v_s v_pc v_acq v_post s_count s_waiters s_waiter_count]; [done|done|lia|done|done|unfold SEM_MAX_WAITERS; lia|done]. }
  destruct Hi as [_ _ [C1 C2] Hf _ _ Hw]. split; [done|]. split; [done|].
  intros Hz p Hp Hb. destruct (Hw p Hp Hb) as (k & Hk' & _). rewrite Hf in Hk' by done. lia.
Qed.

End Systems.

(** ** Witnesses *)

#[local] Instance no_files : FdTable unit := {| vfs_close_all_for_pid _ v := v |}.

Lemma one_proc_kernel_ok st : kernel_ok (with_current 0 (upd 0 (set_state st) sys0)).
Proof.
  split; [exists (fun _ => []); by apply sys_ok|]. split; [intros i Hi; rewrite sys_at by done; by destruct (decide (i = 0))|].
  intros i j [Hi Hui] [Hj Huj] _. rewrite sys_at in Hui, Huj by done.
  destruct (decide (i = 0)), (decide (j = 0)); congruence || done.
Qed.

Lemma sys_run_kernel_ok : kernel_ok sys_run.
Proof. apply one_proc_kernel_ok. Qed.

Definition mutex0 : mutex := mk_mutex 7 7 (replicate 32 0) 7.
Definition sem0 : semaphore := mk_sem 7 (replicate 32 0) 7.

Lemma sys_run_used : used sys_run 0.
Proof. split; [done|]. by rewrite (proj1 (proj2 sys_run_fields)). Qed.

(** Slot 0 enters [mutex_lock] while ready, is dispatched by the scheduler, locks
    the mutex, and is then ended by somebody else and reaped. *)
Definition sys_ready : ksys heap unit := with_current 0 (upd 0 (set_state PROC_READY) sys0).

Definition w_locked : mworld :=
  mk_mw (mk_mutex 1 (pid (proc_at sys_run 0)) (replicate 32 0) 0) (with_if true (with_if false (with_current 0 sys_run)))
        (set_pc 0 Holds (set_pc 0 Wants (fun _ => Out))).

Lemma w_locked_reach : mreach (mstart mutex0 sys_ready) w_locked.
Proof.
  pose proof sys_run_used as U. pose proof (sys_at (set_state PROC_READY) 0 ltac:(done)) as A.
  rewrite decide_True in A by done. eapply mr_step; [eapply mr_step; [eapply mr_step; [apply mr_refl|]|]|].
  - apply (ms_want _ _ _ 0); [|done|]; fold sys_ready in A; [split; [done|]|]; by rewrite A.
  - apply (ms_other _ sys_ready _ sys_run (set_pc 0 Wants (fun _ => Out))). split; [apply sys_run_kernel_ok|].
    intros i Hi. destruct (decide (i = 0)) as [->|Hne]; [|by rewrite set_pc_ne in Hi].
    split; [done|]. split; [done|]. split; [done|]. intros _ Hb. by rewrite (proj1 (proj2 sys_run_fields)) in Hb.
  - apply (ms_lock (mutex_init mutex0) sys_run _ 0 Acquired); [exact U|done| |reflexivity].
    by rewrite (proj1 (proj2 sys_run_fields)).
Qed.

Lemma mutex_exclusion_no_lost_wakeup_witness :
  w_pc w_locked 0 = Holds /\ m_locked (w_m w_locked) = 1 /\
  exists w, mreach (mstart mutex0 sys_ready) w /\ w_pc w 0 = Out /\
    forall p q, w_pc w p = Holds -> w_pc w q = Holds -> p = q.
Proof.
  pose proof (mutex_exclusion_no_lost_wakeup mutex0 sys_ready) as T.
  specialize (T w_locked (one_proc_kernel_ok PROC_READY) eq_refl w_locked_reach) as T1.
  split; [reflexivity|]. split; [exact (proj1 (proj1 (proj2 T1) 0 eq_refl))|].
  assert (Hr : mreach (mstart mutex0 sys_ready)
                 (mk_mw (w_m w_locked) (with_current 0 (upd 0 (set_state PROC_UNUSED) sys0)) (fun _ => Out))).
  { eapply mr_step; [apply w_locked_reach|]. apply ms_other. split; [apply one_proc_kernel_ok|done]. }
  eexists. split; [exact Hr|]. split; [reflexivity|].
  exact (proj1 (T _ (one_proc_kernel_ok PROC_READY) eq_refl Hr)).
Defined.

Lemma semaphore_count_no_lost_wakeup_witness :
  exists w, sreach (mk_sw (sem_init sem0 2) sys_run (fun _ => Out) 0 0) w /\ s_count (v_m w) = 2 + 0 - 0.
Proof.
  assert (Hr : sreach (mk_sw (sem_init sem0 2) sys_run (fun _ => Out) 0 0)
                      (mk_sw (sem_init sem0 2) sys_run (set_pc 0 Wants (fun _ => Out)) 0 0)).
  { eapply sr_step; [apply sr_refl|]. apply ss_want; [exact sys_run_used|reflexivity|].
    rewrite (proj1 (proj2 sys_run_fields)). discriminate. }
  eexists. split; [exact Hr|].
  exact (proj1 (semaphore_count_no_lost_wakeup sem0 2 sys_run _ sys_run_kernel_ok eq_refl ltac:(lia) Hr)).
Defined.
