(* ===== verification/Ipc.v ===== *)
(** * Message passing (kernel/ipc/ipc.c)

    Every process has an inbox, a ring of eight messages.  The inbox is shown to
    implement a bounded FIFO queue: a send appends the message, its payload cut
    to 120 bytes, or reports that the queue is full; a receive takes the oldest
    message; nothing is lost, duplicated or reordered. *)

From S2P Require Import Prelude AuditRing Kmalloc Capability Proc Sync.

(** ** Operations *)

Section Ops.
Context {H V : Type} `{Allocator H} `{FdTable V}.
#[local] Notation "'sys'" := (ksys H V).

(** The copy into the tail slot. *)
Definition fill_msg (slot msg : ipc_msg) : ipc_msg :=
  let copy_len := msg_len msg in
  let copy_len := if IPC_MSG_PAYLOAD <? copy_len then IPC_MSG_PAYLOAD else copy_len in
  mk_msg (from_pid msg) (msg_type msg)
         (for_loop (Z.to_nat copy_len) 0 (fun i d => d.[i <- (msg_data msg).[i]]) (msg_data slot)) copy_len.

(** [s->queue[s->tail] = ...; s->tail = (uint8_t)((s->tail + 1) % DEPTH); s->count++]. *)
Definition push_msg (st : ipc_state) (msg : ipc_msg) : ipc_state :=
  mk_ipc (ipc_queue st).[tail st <- fill_msg (ipc_queue st).[tail st] msg]
         (head st) (u8 ((tail st + 1) mod IPC_QUEUE_DEPTH)) (u8 (count st + 1)) (waiting st).

(** [out = s->queue[s->head]; s->head = ...; s->count--]. *)
Definition pop_msg (st : ipc_state) : ipc_msg * ipc_state :=
  ((ipc_queue st).[head st],
   mk_ipc (ipc_queue st) (u8 ((head st + 1) mod IPC_QUEUE_DEPTH)) (tail st) (u8 (count st - 1)) (waiting st)).

Definition set_waiting (b : bool) (st : ipc_state) : ipc_state :=
  mk_ipc (ipc_queue st) (head st) (tail st) (count st) b.

Definition ipc_send (dst_pid : Z) (msg : ipc_msg) (s : sys) : Z * sys :=
  let dst := proc_get s dst_pid in
  if (dst =? NULL) || bool_decide (pstate (proc_at s dst) = PROC_UNUSED)
     || bool_decide (pstate (proc_at s dst) = PROC_ZOMBIE) then (-1, s) else
  if ipc (proc_at s dst) =? 0 then (-1, s) else
  let s := with_if false s in
  let st := inbox (proc_at s dst) in
  if IPC_QUEUE_DEPTH <=? count st then (-2, with_if true s) else
  let st := push_msg st msg in
  let was_waiting := waiting st in
  let s := upd dst (set_inbox (if was_waiting then set_waiting false st else st)) s in
  let s := if was_waiting then sched_enqueue dst (upd dst (set_state PROC_READY) s) else s in
  (0, with_if true s).

(** One iteration of the loop of [ipc_recv], up to [sched_yield]. *)
Inductive recv_result := RecvErr | RecvMsg (m : ipc_msg) | RecvBlock.

Definition ipc_recv_iter (s : sys) : recv_result * sys :=
  let self := g_current_proc s in
  if self =? NULL then (RecvErr, s) else
  if ipc (proc_at s self) =? 0 then (RecvErr, s) else
  let s := with_if false s in
  let st := inbox (proc_at s self) in
  if 0 <? count st then
    let '(m, st) := pop_msg st in
    (RecvMsg m, with_if true (upd self (set_inbox st) s))
  else
    let s := upd self (set_inbox (set_waiting true st)) s in
    let s := upd self (set_state PROC_BLOCKED) s in
    (RecvBlock, with_if true s).

(** [None] is the return value -1. *)
Definition ipc_recv_nb (s : sys) : option ipc_msg * sys :=
  let self := g_current_proc s in
  if self =? NULL then (None, s) else
  if ipc (proc_at s self) =? 0 then (None, s) else
  let s := with_if false s in
  let st := inbox (proc_at s self) in
  if count st =? 0 then (None, with_if true s) else
  let '(m, st) := pop_msg st in
  (Some m, with_if true (upd self (set_inbox st) s)).

End Ops.

(** ** Abstract inbox: a list of messages *)

(** What a receiver sees of a message: sender, type and the valid bytes. *)
Definition payload (m : ipc_msg) : Z * Z * list Z :=
  (from_pid m, msg_type m, take (Z.to_nat (msg_len m)) (msg_data m)).

(** What a send transmits. *)
Definition sent (m : ipc_msg) : Z * Z * list Z :=
  (from_pid m, msg_type m, take (Z.to_nat (Z.min (msg_len m) IPC_MSG_PAYLOAD)) (msg_data m)).

Definition msg_ok (m : ipc_msg) : Prop := zlen (msg_data m) = IPC_MSG_PAYLOAD /\ 0 <= msg_len m.

(** The ring [st] holds the messages [l], oldest first. *)
Record inbox_rep (st : ipc_state) (l : list (Z * Z * list Z)) : Prop := {
  ir_len : zlen (ipc_queue st) = IPC_QUEUE_DEPTH;
  ir_msgs : forall i, 0 <= i < IPC_QUEUE_DEPTH -> zlen (msg_data (ipc_queue st).[i]) = IPC_MSG_PAYLOAD;
  ir_count : count st = zlen l /\ zlen l <= IPC_QUEUE_DEPTH;
  ir_head : 0 <= head st < IPC_QUEUE_DEPTH;
  ir_tail : tail st = (head st + zlen l) mod IPC_QUEUE_DEPTH;
  ir_slots : forall k, 0 <= k < zlen l ->
    l !! Z.to_nat k = Some (payload (ipc_queue st).[(head st + k) mod IPC_QUEUE_DEPTH])
}.

Lemma fill_msg_spec slot m :
  zlen (msg_data slot) = IPC_MSG_PAYLOAD -> msg_ok m ->
  payload (fill_msg slot m) = sent m /\ zlen (msg_data (fill_msg slot m)) = IPC_MSG_PAYLOAD.
Proof.
  intros Hs [Hm Hl]. unfold fill_msg, payload, sent. cbn [from_pid msg_type msg_data msg_len].
  set (n := if IPC_MSG_PAYLOAD <? msg_len m then IPC_MSG_PAYLOAD else msg_len m).
  assert (En : n = Z.min (msg_len m) IPC_MSG_PAYLOAD) by (unfold n; destruct (Z.ltb_spec IPC_MSG_PAYLOAD (msg_len m)); lia).
  rewrite <- En. assert (Hn : 0 <= n <= IPC_MSG_PAYLOAD) by (unfold IPC_MSG_PAYLOAD in *; lia). clearbody n.
  rewrite (fill_loop_from (fun i => (msg_data m).[i])) by lia. rewrite Z2Nat.id by lia.
  set (src := _ <$> seqZ 0 n).
  assert (Ls : zlen src = n) by (unfold src; rewrite zlen_fmap, zlen_seqZ; lia).
  assert (Es : src = take (Z.to_nat n) (msg_data m)).
  { apply list_eq_zget; [unfold zlen in *; rewrite length_take; lia|]. intros i Hi. unfold src.
    rewrite zget_fmap_seqZ by lia. unfold zget. rewrite lookup_total_take, decide_True by lia. done. }
  destruct (push_buf (msg_data slot) [] src 0) as [P1 P2]; [done|lia|lia|].
  rewrite Ls, Z.add_0_l in P1. rewrite P1, P2, Es. done.
Qed.

Lemma push_msg_rep st l m :
  inbox_rep st l -> msg_ok m -> zlen l < IPC_QUEUE_DEPTH -> inbox_rep (push_msg st m) (l ++ [sent m]).
Proof.
  intros [Hq Hms [Hc Hcl] Hh Ht Hs] Hm Hr. pose proof (zlen_nonneg l) as Hz. unfold IPC_QUEUE_DEPTH in *.
  assert (Lt : 0 <= tail st < 8) by (rewrite Ht; apply Z.mod_pos_bound; lia).
  destruct (fill_msg_spec (ipc_queue st).[tail st] m (Hms _ Lt) Hm) as [Fp Fl].
  assert (Zl : zlen (l ++ [sent m]) = zlen l + 1) by apply zlen_app.
  unfold push_msg. constructor; cbn [ipc_queue head tail count waiting]; rewrite ?Zl; unfold IPC_QUEUE_DEPTH.
  - by rewrite zlen_zset.
  - intros i Hi. destruct (decide (i = tail st)) as [->|]; [by rewrite zget_zset_eq by lia|]. rewrite zget_zset_ne by lia. by apply Hms.
  - rewrite u8_small by lia. lia.
  - done.
  - rewrite u8_small by (pose proof (Z.mod_pos_bound (tail st + 1) 8 ltac:(lia)); lia). rewrite Ht.
    rewrite Zplus_mod_idemp_l. f_equal. lia.
  - intros k Hk. destruct (decide (k = zlen l)) as [->|].
    + rewrite <- Ht, zget_zset_eq, Fp by lia. rewrite lookup_app_r by (unfold zlen; lia).
      replace (Z.to_nat (zlen l) - length l)%nat with O by (unfold zlen; lia). done.
    + rewrite zget_zset_ne; [|lia|pose proof (Z.mod_pos_bound (head st + k) 8 ltac:(lia)); lia|rewrite Ht; Z.div_mod_to_equations; lia].
      rewrite lookup_app_l by (unfold zlen in *; lia). apply Hs. lia.
Qed.

Lemma pop_msg_rep st x l :
  inbox_rep st (x :: l) -> payload (fst (pop_msg st)) = x /\ inbox_rep (snd (pop_msg st)) l.
Proof.
  intros [Hq Hms [Hc Hcl] Hh Ht Hs]. unfold IPC_QUEUE_DEPTH in *.
  assert (Zl : zlen (x :: l) = zlen l + 1) by (unfold zlen; cbn [length]; lia). pose proof (zlen_nonneg l) as Hz.
  assert (Hm : 0 <= (head st + 1) mod 8 < 8) by (apply Z.mod_pos_bound; lia).
  unfold pop_msg. cbn [fst snd]. split.
  - pose proof (Hs 0 ltac:(lia)) as E. rewrite Z.add_0_r, Z.mod_small in E by lia. by injection E.
  - constructor; cbn [ipc_queue head tail count waiting]; unfold IPC_QUEUE_DEPTH; [done|done| | | |].
    + rewrite u8_small by lia. lia.
    + rewrite u8_small by lia. lia.
    + rewrite u8_small by lia. rewrite Ht, Zl, Zplus_mod_idemp_l. f_equal. lia.
    + intros k Hk. rewrite u8_small by lia. specialize (Hs (k + 1) ltac:(lia)).
      replace (Z.to_nat (k + 1)) with (S (Z.to_nat k)) in Hs by lia. cbn [lookup list_lookup] in Hs.
      rewrite Zplus_mod_idemp_l. by replace (head st + 1 + k) with (head st + (k + 1)) by lia.
Qed.

Lemma inbox_rep_waiting st l b : inbox_rep st l -> inbox_rep (set_waiting b st) l.
Proof. intros []. by constructor. Qed.

(** ** Delivery *)

Section Delivery.
Context {H V : Type} `{Allocator H} `{FdTable V}.
#[local] Notation "'sys'" := (ksys H V).

(** [s'] differs from [s] in the slot [d] only, which keeps its pid and stays in use. *)
Record only (d : Z) (s s' : sys) : Prop := {
  on_kernel : kernel_ok s';
  on_frame : forall i, 0 <= i < MAX_PROCESSES -> i <> d -> set_link 0 (proc_at s' i) = set_link 0 (proc_at s i);
  on_pid : pid (proc_at s' d) = pid (proc_at s d);
  on_ipc : ipc (proc_at s' d) = ipc (proc_at s d)
}.

Lemma only_refl d s b : kernel_ok s -> only d s (with_if b s).
Proof. intros Hk. constructor; [exact (kernel_ok_flags s b (g_current_proc s) Hk)|done|done|done]. Qed.

Lemma only_used d s s' i : used s d -> used s' d -> only d s s' -> used s' i <-> used s i.
Proof.
  intros Hd Hd' [_ F _ _]. destruct (decide (i = d)) as [->|Hne]; [done|].
  unfold used. split; intros [Hi Hu]; (split; [done|]); destruct (link_fields _ _ (F i Hi Hne)) as (_ & E & _); congruence.
Qed.

(** Updating one slot without touching its queue, pid or use. *)
Lemma upd_only d f s :
  kernel_ok s -> used s d ->
  (forall p, sched_link (f p) = sched_link p /\ intent (f p) = intent p /\ pid (f p) = pid p /\ ipc (f p) = ipc p) ->
  pstate (f (proc_at s d)) <> PROC_UNUSED ->
  only d s (upd d f s) /\ proc_at (upd d f s) d = f (proc_at s d) /\ used (upd d f s) d.
Proof.
  intros ((qs & Ho) & Hi & Hp) Hd Hf Hu. pose proof (so_tbl _ _ Ho) as Hl.
  assert (At : forall j, 0 <= j < MAX_PROCESSES -> proc_at (upd d f s) j = if decide (j = d) then f (proc_at s d) else proc_at s j)
    by (intros j Hj; apply upd_at; [done|apply Hd|done]).
  assert (Ad : proc_at (upd d f s) d = f (proc_at s d)) by (rewrite At by apply Hd; by rewrite decide_True).
  assert (Hud : used (upd d f s) d) by (split; [apply Hd|by rewrite Ad]).
  assert (P : forall j, used (upd d f s) j -> used s j /\ pid (proc_at (upd d f s) j) = pid (proc_at s j)).
  { intros j [Hj Hs]. rewrite At in * by done. destruct (decide (j = d)) as [->|]; [by destruct (Hf (proc_at s d)) as (_ & _ & -> & _)|done]. }
  split; [|done]. constructor.
  - split; [exists qs; apply upd_ok; [done|apply Hd|intros p; by destruct (Hf p) as (? & ? & _)]|]. split.
    + intros j Hj. rewrite At by done. destruct (decide (j = d)) as [->|]; [destruct (Hf (proc_at s d)) as (_ & -> & _)|]; by apply Hi.
    + intros i j Hui Huj E. destruct (P i Hui) as [? Ei], (P j Huj) as [? Ej]. apply Hp; [done|done|congruence].
  - intros i Hr Hne. by rewrite At, decide_False by done.
  - rewrite Ad. apply Hf.
  - rewrite Ad. apply Hf.
Qed.

Lemma enqueue_only d s :
  kernel_ok s -> used s d -> only d s (sched_enqueue d s) /\ set_link 0 (proc_at (sched_enqueue d s) d) = set_link 0 (proc_at s d).
Proof.
  intros ((qs & Ho) & Hi & Hp) Hd. destruct (enqueue_any s qs d Ho Hi (proj1 Hd)) as (qs' & O' & [_ R] & _).
  split; [|apply R]. destruct (link_fields _ _ (R d)) as (Ed & _ & _ & _ & _ & _ & Ei). constructor; [|by intros|done|done].
  split; [by exists qs'|]. split.
  - intros j Hj. destruct (link_fields _ _ (R j)) as (_ & _ & -> & _). by apply Hi.
  - intros i j [Hi1 Hi2] [Hj1 Hj2]. destruct (link_fields _ _ (R i)) as (E1 & E2 & _), (link_fields _ _ (R j)) as (E3 & E4 & _).
    rewrite E1, E3. rewrite E2 in Hi2. rewrite E4 in Hj2. by apply Hp.
Qed.

Lemma only_trans d s1 s2 s3 : only d s1 s2 -> only d s2 s3 -> only d s1 s3.
Proof.
  intros [_ F1 P1 I1] [K2 F2 P2 I2]. constructor; [done| |congruence|congruence]. intros i Hi Hne. by rewrite F2, F1.
Qed.

(** A send that finds room. *)
Lemma deliver_spec d st (s : sys) :
  kernel_ok s -> used s d -> waiting st = false ->
  let w := waiting (inbox (proc_at s d)) in
  let s1 := upd d (set_inbox st) s in
  let s' := if w then sched_enqueue d (upd d (set_state PROC_READY) s1) else s1 in
  only d s s' /\ inbox (proc_at s' d) = st /\ used s' d /\
  pstate (proc_at s' d) = if w then PROC_READY else pstate (proc_at s d).
Proof.
  intros Hk Hd Hw. cbn zeta.
  destruct (upd_only d (set_inbox st) s Hk Hd ltac:(done) ltac:(apply Hd)) as (O1 & A1 & U1).
  set (s1 := upd d (set_inbox st) s) in *. destruct (waiting (inbox (proc_at s d))); [|by rewrite A1].
  destruct (upd_only d (set_state PROC_READY) s1 (on_kernel _ _ _ O1) U1 ltac:(done) ltac:(done)) as (O2 & A2 & U2).
  set (s2 := upd d (set_state PROC_READY) s1) in *.
  destruct (enqueue_only d s2 (on_kernel _ _ _ O2) U2) as (O3 & A3).
  destruct (link_fields _ _ A3) as (_ & Es & _ & _ & _ & Eb & _).
  split; [exact (only_trans _ _ _ _ (only_trans _ _ _ _ O1 O2) O3)|]. split; [by rewrite Eb, A2; cbn; rewrite A1|].
  rewrite A2 in Es. split; [split; [apply Hd|by rewrite Es]|done].
Qed.

(** Every outcome of a send to the process in slot [d]. *)
Lemma ipc_send_to (s : sys) d m l :
  kernel_ok s -> used s d -> pstate (proc_at s d) <> PROC_ZOMBIE -> ipc (proc_at s d) <> 0 ->
  inbox_rep (inbox (proc_at s d)) l -> msg_ok m ->
  let '(r, s') := ipc_send (pid (proc_at s d)) m s in
  only d s s' /\ used s' d /\
  ((zlen l = IPC_QUEUE_DEPTH /\ r = -2 /\ proc_at s' d = proc_at s d) \/
   (zlen l < IPC_QUEUE_DEPTH /\ r = 0 /\ inbox_rep (inbox (proc_at s' d)) (l ++ [sent m]) /\
    waiting (inbox (proc_at s' d)) = false /\
    pstate (proc_at s' d) = if waiting (inbox (proc_at s d)) then PROC_READY else pstate (proc_at s d))).
Proof.
  intros Hk Hd Hz Hn Hr Hm. pose proof Hk as ((qs & Ho) & _ & Hp).
  unfold ipc_send. rewrite (proc_get_used s d (so_tbl _ _ Ho) Hp Hd).
  destruct (Z.eqb_spec d NULL); [destruct Hd; unfold NULL in *; lia|].
  rewrite (bool_decide_eq_false_2 (pstate (proc_at s d) = PROC_UNUSED)) by apply Hd.
  rewrite (bool_decide_eq_false_2 (pstate (proc_at s d) = PROC_ZOMBIE)) by done. cbn [orb].
  destruct (Z.eqb_spec (ipc (proc_at s d)) 0); [done|].
  change (proc_at (with_if false s) d) with (proc_at s d).
  destruct (ir_count _ _ Hr) as [Ec Hl]. rewrite Ec. destruct (Z.leb_spec IPC_QUEUE_DEPTH (zlen l)).
  - split; [by apply (only_refl d s true)|]. split; [done|]. left. split; [lia|done].
  - set (st := push_msg _ m). pose proof (push_msg_rep _ l m Hr Hm ltac:(lia)) as Hst. fold st in Hst.
    change (waiting st) with (waiting (inbox (proc_at s d))).
    set (st' := if waiting (inbox (proc_at s d)) then set_waiting false st else st).
    assert (W : waiting st' = false).
    { unfold st'. destruct (waiting (inbox (proc_at s d))) eqn:E; [done|exact E]. }
    assert (R : inbox_rep st' (l ++ [sent m])) by (unfold st'; destruct (waiting _); [by apply inbox_rep_waiting|done]).
    assert (K0 : kernel_ok (with_if false s)) by exact (kernel_ok_flags s false (g_current_proc s) Hk).
    destruct (deliver_spec d st' (with_if false s) K0 Hd W) as (O & B & U & S).
    change (proc_at (with_if false s) d) with (proc_at s d) in *.
    remember (if waiting (inbox (proc_at s d)) then sched_enqueue _ _ else _) as s' eqn:X. clear X.
    assert (O' : only d s s') by (destruct O as [O1 O2 O3 O4]; by constructor).
    split; [apply (only_trans d s s'); [exact O'|exact (only_refl d s' true (on_kernel _ _ _ O'))]|].
    split; [exact U|]. right. split; [done|]. split; [done|].
    change (proc_at (with_if true s') d) with (proc_at s' d). rewrite B. done.
Qed.

(** A send to any other pid leaves the slot alone. *)
Lemma ipc_send_other (s : sys) d p m :
  kernel_ok s -> used s d -> p <> pid (proc_at s d) ->
  let '(r, s') := ipc_send p m s in kernel_ok s' /\ set_link 0 (proc_at s' d) = set_link 0 (proc_at s d).
Proof.
  intros Hk Hd Hp. pose proof Hk as ((qs & Ho) & _ & _). unfold ipc_send.
  destruct (proc_get_spec s p (so_tbl _ _ Ho)) as [[E _]|[Hu Ep]]; [by rewrite E|].
  set (t := proc_get s p) in *. assert (Hne : d <> t) by (intros ->; congruence).
  destruct (_ || _); [done|]. destruct (_ =? 0); [done|].
  change (proc_at (with_if false s) t) with (proc_at s t).
  assert (K0 : kernel_ok (with_if false s)) by exact (kernel_ok_flags s false (g_current_proc s) Hk).
  destruct (_ <=? _); [exact (conj (kernel_ok_flags s true (g_current_proc s) Hk) eq_refl)|].
  set (st := push_msg _ m). change (waiting st) with (waiting (inbox (proc_at s t))).
  set (st' := if waiting (inbox (proc_at s t)) then set_waiting false st else st).
  assert (W : waiting st' = false).
  { unfold st'. destruct (waiting (inbox (proc_at s t))) eqn:E; [done|exact E]. }
  destruct (deliver_spec t st' (with_if false s) K0 Hu W) as (O & _).
  change (proc_at (with_if false s) t) with (proc_at s t) in *.
  remember (if waiting (inbox (proc_at s t)) then sched_enqueue _ _ else _) as s' eqn:X. clear X.
  split; [exact (kernel_ok_flags s' true (g_current_proc s') (on_kernel _ _ _ O))|].
  exact (on_frame _ _ _ O d (proj1 Hd) Hne).
Qed.

End Delivery.

(** ** The inbox of one process as a transition system *)

Section Mailbox.
Context {H V : Type} `{Allocator H} `{FdTable V}.
#[local] Notation "'sys'" := (ksys H V).
Variable d : Z.

(** [x_in]: the receiver is inside [ipc_recv]; [x_acc]: what the senders were
    told was accepted; [x_rec]: what the receiver got. *)
Record iworld := mk_iw { x_s : sys; x_in : bool; x_acc : list (Z * Z * list Z); x_rec : list (Z * Z * list Z) }.

Inductive istep : iworld -> iworld -> Prop :=
  | is_send s b a r c m code s' :
      msg_ok m -> ipc_send (pid (proc_at s d)) m (with_current c s) = (code, s') ->
      istep (mk_iw s b a r) (mk_iw s' b (if code =? 0 then a ++ [sent m] else a) r)
  | is_send_other s b a r c p m code s' :
      p <> pid (proc_at s d) -> ipc_send p m (with_current c s) = (code, s') ->
      istep (mk_iw s b a r) (mk_iw s' b a r)
  | is_enter s a r :
      pstate (proc_at s d) <> PROC_BLOCKED -> istep (mk_iw s false a r) (mk_iw s true a r)
  | is_recv s a r res s' :
      pstate (proc_at s d) <> PROC_BLOCKED -> ipc_recv_iter (with_current d s) = (res, s') ->
      istep (mk_iw s true a r)
            (match res with
             | RecvMsg m => mk_iw s' false a (r ++ [payload m])
             | RecvErr => mk_iw s' false a r
             | RecvBlock => mk_iw s' true a r
             end)
  | is_recv_nb s a r res s' :
      pstate (proc_at s d) <> PROC_BLOCKED -> ipc_recv_nb (with_current d s) = (res, s') ->
      istep (mk_iw s false a r)
            (match res with Some m => mk_iw s' false a (r ++ [payload m]) | None => mk_iw s' false a r end)
  | is_other s b a r s' :
      kernel_ok s' -> used s' d -> pstate (proc_at s' d) <> PROC_ZOMBIE -> ipc (proc_at s' d) = ipc (proc_at s d) ->
      pid (proc_at s' d) = pid (proc_at s d) -> inbox (proc_at s' d) = inbox (proc_at s d) ->
      (b = true -> pstate (proc_at s' d) = PROC_BLOCKED -> pstate (proc_at s d) = PROC_BLOCKED) ->
      istep (mk_iw s b a r) (mk_iw s' b a r).

Inductive ireach (w0 : iworld) : iworld -> Prop :=
  | ir_refl : ireach w0 w0
  | ir_step w w' : ireach w0 w -> istep w w' -> ireach w0 w'.

(** The receiver of the slot is alive and has an inbox. *)
Definition receiver (s : sys) : Prop :=
  kernel_ok s /\ used s d /\ pstate (proc_at s d) <> PROC_ZOMBIE /\ ipc (proc_at s d) <> 0.

Record iinv (w : iworld) : Prop := {
  ii_recv : receiver (x_s w);
  ii_box : exists l, inbox_rep (inbox (proc_at (x_s w) d)) l /\ x_acc w = x_rec w ++ l /\
                     (waiting (inbox (proc_at (x_s w) d)) = true -> l = []);
  ii_wait : x_in w = true -> pstate (proc_at (x_s w) d) = PROC_BLOCKED -> waiting (inbox (proc_at (x_s w) d)) = true
}.

Lemma receiver_flags s b c : receiver s -> receiver (with_if b (with_current c s)).
Proof. intros (K & R). split; [by apply kernel_ok_flags|exact R]. Qed.

Lemma iinv_send s b a r c m code s' :
  iinv (mk_iw s b a r) -> msg_ok m -> ipc_send (pid (proc_at s d)) m (with_current c s) = (code, s') ->
  iinv (mk_iw s' b (if code =? 0 then a ++ [sent m] else a) r).
Proof.
  intros [(Hk & Hu & Hz & Hn) (l & Hl & Ha & Hw) Hb] Hm E. cbn [x_s x_in x_acc x_rec] in *.
  pose proof (ipc_send_to (with_current c s) d m l (kernel_ok_flags s (k_if s) c Hk) Hu Hz Hn Hl Hm) as S.
  change (proc_at (with_current c s) d) with (proc_at s d) in S. rewrite E in S.
  destruct S as ([O1 _ _ O4] & U & [(A & -> & Es)|(A & -> & Rs & Ws & Ss)]); change (proc_at (with_current c s) d) with (proc_at s d) in *.
  - constructor; cbn [x_s x_in x_acc x_rec]; rewrite ?Es; [|by exists l|done]. unfold receiver. by rewrite Es.
  - constructor; cbn [x_s x_in x_acc x_rec].
    + split; [done|]. split; [done|]. rewrite O4, Ss. split; [by destruct (waiting _)|done].
    + exists (l ++ [sent m]). split; [done|]. split; [change (0 =? 0) with true; cbn match; by rewrite Ha, app_assoc|]. by rewrite Ws.
    + intros Hi. rewrite Ss. destruct (waiting (inbox (proc_at s d))) eqn:Wt; [done|]. intros Hbl. by specialize (Hb Hi Hbl).
Qed.

(** Replacing the inbox after taking its head. *)
Lemma iinv_pop s b a r :
  iinv (mk_iw s b a r) -> 0 < count (inbox (proc_at s d)) ->
  let '(m, st) := pop_msg (inbox (proc_at s d)) in
  iinv (mk_iw (with_if true (upd d (set_inbox st) (with_if false (with_current d s)))) false a (r ++ [payload m])).
Proof.
  intros [(Hk & Hu & Hz & Hn) (l & Hl & Ha & Hw) Hb] Hc. cbn [x_s x_in x_acc x_rec] in *.
  destruct (ir_count _ _ Hl) as [Ec _]. destruct l as [|x l]; [rewrite Ec in Hc; by cbv in Hc|].
  destruct (pop_msg_rep _ x l Hl) as [Px Rx]. destruct (pop_msg _) as [m st] eqn:Ep. cbn [fst snd] in *.
  assert (Wst : waiting st = waiting (inbox (proc_at s d))) by (unfold pop_msg in Ep; by injection Ep as _ <-).
  set (s0 := with_if false (with_current d s)).
  destruct (upd_only d (set_inbox st) s0 (kernel_ok_flags s false d Hk) Hu ltac:(done) ltac:(apply Hu)) as (O & A & U).
  set (s1 := upd d (set_inbox st) s0) in *. destruct O as [O1 _ _ O4].
  constructor; cbn [x_s x_in x_acc x_rec]; [|exists l|done].
  - split; [exact (kernel_ok_flags s1 true (g_current_proc s1) O1)|]. split; [exact U|].
    change (proc_at (with_if true s1) d) with (proc_at s1 d). rewrite A. done.
  - change (proc_at (with_if true s1) d) with (proc_at s1 d). rewrite A. cbn [inbox set_inbox].
    split; [done|]. split; [by rewrite Ha, Px, <- app_assoc|]. rewrite Wst. intros W. by specialize (Hw W).
Qed.

Lemma iinv_block s a r :
  iinv (mk_iw s true a r) -> count (inbox (proc_at s d)) <= 0 ->
  let s0 := with_if false (with_current d s) in
  iinv (mk_iw (with_if true (upd d (set_state PROC_BLOCKED)
                              (upd d (set_inbox (set_waiting true (inbox (proc_at s d)))) s0))) true a r).
Proof.
  intros [(Hk & Hu & Hz & Hn) (l & Hl & Ha & Hw) Hb] Hc s0. cbn [x_s x_in x_acc x_rec] in *.
  destruct (ir_count _ _ Hl) as [Ec _]. assert (l = []) as ->.
  { destruct l; [done|]. unfold zlen in Ec. cbn in Ec. lia. }
  destruct (upd_only d (set_inbox (set_waiting true (inbox (proc_at s d)))) s0 (kernel_ok_flags s false d Hk) Hu ltac:(done)
              ltac:(apply Hu)) as (O & A & U).
  set (s1 := upd d (set_inbox _) s0) in *.
  destruct (upd_only d (set_state PROC_BLOCKED) s1 (on_kernel _ _ _ O) U ltac:(done) ltac:(done)) as (O2 & A2 & U2).
  set (s2 := upd d (set_state PROC_BLOCKED) s1) in *.
  constructor; cbn [x_s x_in x_acc x_rec]; unfold receiver; change (proc_at (with_if true s2) d) with (proc_at s2 d);
    rewrite ?A2; cbn [pstate ipc inbox set_state]; rewrite A; cbn [ipc inbox set_inbox waiting set_waiting].
  - split; [exact (kernel_ok_flags s2 true (g_current_proc s2) (on_kernel _ _ _ O2))|]. split; [exact U2|]. done.
  - exists []. split; [by apply inbox_rep_waiting|done].
  - done.
Qed.

Lemma iinv_recv s b a r s' : iinv (mk_iw s b a r) -> s' = with_if true (with_if false (with_current d s)) -> iinv (mk_iw s' b a r).
Proof. intros [R B W] ->. constructor; [exact (receiver_flags s true d R)|exact B|exact W]. Qed.

Lemma istep_inv w w' : 0 <= d -> iinv w -> istep w w' -> iinv w'.
Proof.
  intros Hd0 Hi Hs.
  destruct Hs as [s b a r c m code s' Hm E|s b a r c p m code s' Hp E|s a r Hb|s a r res s' Hb E|s a r res s' Hb E
                 |s b a r s' K U Z I P B S].
  - by eapply iinv_send.
  - destruct Hi as [(Hk & Hu & Hz & Hn) (l & Hl & Ha & Hw) Hb]. cbn [x_s x_in x_acc x_rec] in *.
    pose proof (ipc_send_other (with_current c s) d p m (kernel_ok_flags s (k_if s) c Hk) Hu Hp) as S. rewrite E in S.
    destruct S as [K F]. destruct (link_fields _ _ F) as (_ & Es & _ & _ & _ & Eb & Ei).
    change (proc_at (with_current c s) d) with (proc_at s d) in *.
    constructor; cbn [x_s x_in x_acc x_rec]; unfold receiver, used; rewrite ?Es, ?Eb, ?Ei; [|by exists l|done].
    split; [done|]. split; [exact Hu|done].
  - destruct Hi as [R B W]. by constructor.
  - destruct (ii_recv _ Hi) as (_ & Hu & _ & Hn). cbn [x_s] in *.
    unfold ipc_recv_iter in E. change (g_current_proc (with_current d s)) with d in E.
    destruct (Z.eqb_spec d NULL); [unfold NULL in *; lia|].
    change (proc_at (with_current d s) d) with (proc_at s d) in E. destruct (Z.eqb_spec (ipc (proc_at s d)) 0); [done|].
    change (proc_at (with_if false (with_current d s)) d) with (proc_at s d) in E.
    destruct (Z.ltb_spec 0 (count (inbox (proc_at s d)))).
    + pose proof (iinv_pop s true a r Hi ltac:(done)) as P. destruct (pop_msg _) as [m st]. by injection E as <- <-.
    + injection E as <- <-. by apply iinv_block.
  - destruct (ii_recv _ Hi) as (_ & Hu & _ & Hn). cbn [x_s] in *.
    unfold ipc_recv_nb in E. change (g_current_proc (with_current d s)) with d in E.
    destruct (Z.eqb_spec d NULL); [unfold NULL in *; lia|].
    change (proc_at (with_current d s) d) with (proc_at s d) in E. destruct (Z.eqb_spec (ipc (proc_at s d)) 0); [done|].
    change (proc_at (with_if false (with_current d s)) d) with (proc_at s d) in E.
    destruct (Z.eqb_spec (count (inbox (proc_at s d))) 0) as [Hc|Hc].
    + injection E as <- <-. by eapply iinv_recv.
    + destruct (ii_box _ Hi) as (l & Hl & _). cbn [x_s] in Hl. destruct (ir_count _ _ Hl) as [Ec _]. pose proof (zlen_nonneg l).
      pose proof (iinv_pop s false a r Hi ltac:(lia)) as P. destruct (pop_msg _) as [m st]. by injection E as <- <-.
  - destruct Hi as [(Hk & Hu & Hz & Hn) (l & Hl & Ha & Hw) Hb]. cbn [x_s x_in x_acc x_rec] in *.
    constructor; cbn [x_s x_in x_acc x_rec]; unfold receiver; rewrite ?B, ?I; [done|by exists l|].
    intros Hin Hbl. apply Hb; [done|]. by apply S.
Qed.

(** C17: the inbox is a bounded FIFO queue without loss, and a blocked receiver
    is never left behind.  From an empty inbox, over any interleaving of sends
    to the process, sends to other processes, blocking and non-blocking receives
    and other kernel activity: the messages received so far, followed by at most
    eight pending ones, are exactly the accepted messages in order of
    acceptance, each with its payload cut to 120 bytes; and a receiver that is
    blocked in [ipc_recv] has nothing pending. *)
Theorem ipc_fifo_no_loss s w :
  receiver s -> pstate (proc_at s d) <> PROC_BLOCKED -> inbox_rep (inbox (proc_at s d)) [] ->
  ireach (mk_iw s false [] []) w ->
  exists pending, x_acc w = x_rec w ++ pending /\ zlen pending <= IPC_QUEUE_DEPTH /\
    inbox_rep (inbox (proc_at (x_s w) d)) pending /\
    (x_in w = true -> pstate (proc_at (x_s w) d) = PROC_BLOCKED -> pending = []).
Proof.
  intros Hr Hb Hi Hs. assert (I : iinv w).
  { assert (I0 : iinv (mk_iw s false [] [])) by (constructor; [done|by exists []|done]).
    clear Hb Hi. induction Hs as [|w w' Hs' IH Hst]; [done|]. apply (istep_inv w); [apply Hr|exact IH|done]. }
  destruct I as [_ (l & Hl & Ha & Hw) Hwt]. exists l. destruct (ir_count _ _ Hl) as [_ Hc].
  split; [done|]. split; [done|]. split; [done|]. intros A B. by apply Hw, Hwt.
Qed.

End Mailbox.

(** ** Witness *)

#[local] Instance no_files : FdTable unit := {| vfs_close_all_for_pid _ v := v |}.

(** Slot 0 with an empty inbox; it is sent one message and reads it. *)
Definition sys_box : ksys heap unit :=
  with_current 0 (upd 0 (fun p => set_inbox ipc_zero (set_ipc 64 (set_state PROC_RUNNING p))) sys0).
Definition hello : ipc_msg := mk_msg 1 7 (replicate 120 65) 2.

Lemma ipc_zero_rep : inbox_rep ipc_zero [].
Proof.
  constructor; [done| |done|done|done|].
  - intros i Hi. unfold ipc_zero. cbn [ipc_queue]. rewrite zget_replicate by (unfold IPC_QUEUE_DEPTH in *; lia). done.
  - unfold zlen. cbn. lia.
Qed.

Lemma sys_box_receiver : receiver 0 sys_box /\ proc_at sys_box 0 = set_inbox ipc_zero (set_ipc 64 (set_state PROC_RUNNING proc_zero)).
Proof.
  assert (At : forall i, 0 <= i < MAX_PROCESSES -> proc_at sys_box i =
    if decide (i = 0) then set_inbox ipc_zero (set_ipc 64 (set_state PROC_RUNNING proc_zero)) else proc_zero)
    by (intros i Hi; unfold sys_box; by rewrite sys_at).
  assert (A0 := At 0 ltac:(done)). rewrite decide_True in A0 by done. split; [|done].
  split; [|unfold used; by rewrite A0].
  split; [exists (fun _ => []); by apply sys_ok|]. split.
  - intros i Hi. rewrite At by done. by destruct (decide (i = 0)).
  - intros i j [Hi Hui] [Hj Huj] _. rewrite At in Hui, Huj by done. destruct (decide (i = 0)), (decide (j = 0)); congruence || done.
Qed.

Lemma ipc_fifo_no_loss_witness :
  exists w pending, ireach 0 (mk_iw sys_box false [] []) w /\ x_rec w = [(1, 7, [65; 65])] /\ x_acc w = x_rec w ++ pending.
Proof.
  destruct sys_box_receiver as [R E].
  remember (ipc_send (pid (proc_at sys_box 0)) hello (with_current 0 sys_box)) as p1 eqn:E1.
  remember (ipc_recv_nb (with_current 0 (snd p1))) as p2 eqn:E2.
  assert (C1 : fst p1 = 0) by (rewrite E1; vm_compute; reflexivity).
  assert (C2 : fst p2 = Some (mk_msg 1 7 ([65; 65] ++ replicate 118 0) 2)) by (rewrite E2, E1; vm_compute; reflexivity).
  assert (C3 : pstate (proc_at (snd p1) 0) = PROC_RUNNING) by (rewrite E1; vm_compute; reflexivity).
  destruct p1 as [c1 s1], p2 as [c2 s2]. cbn [fst snd] in *. subst c1 c2.
  assert (Hr : ireach 0 (mk_iw sys_box false [] []) (mk_iw s2 false [sent hello] [(1, 7, [65; 65])])).
  { eapply ir_step; [eapply ir_step; [apply ir_refl|]|].
    - apply (is_send 0 sys_box false [] [] 0 hello 0 s1); [split; [reflexivity|cbn; lia]|by rewrite <- E1].
    - apply (is_recv_nb 0 s1 [sent hello] [] (Some (mk_msg 1 7 ([65; 65] ++ replicate 118 0) 2)) s2); [by rewrite C3|by rewrite <- E2]. }
  assert (B : pstate (proc_at sys_box 0) <> PROC_BLOCKED) by (by rewrite E).
  assert (I : inbox_rep (inbox (proc_at sys_box 0)) []) by (rewrite E; exact ipc_zero_rep).
  destruct (ipc_fifo_no_loss 0 sys_box _ R B I Hr) as (pending & A & _).
  eexists _, pending. split; [exact Hr|]. split; [reflexivity|exact A].
Defined.
