(* ===== verification/Futex.v ===== *)
(** * Address-based waiting (kernel/sync/futex.c)

    A table of 64 waiters.  [futex_wait] registers the caller and blocks it if
    the word still has the expected value; [futex_wake] clears, in table order,
    the first [count] waiters of the caller on that address and makes them
    ready.  The word at [uaddr] is read through the memory given as an argument.
    Both run with interrupts off up to the final [sched_yield]. *)

From S2P Require Import Prelude AuditRing Kmalloc Capability Proc Sync Ipc.

Definition FUTEX_MAX_WAITERS : Z := 64.

Record futex_entry := mk_futex { fx_used : Z; fx_owner_pid : Z; fx_uaddr : Z; fx_waiter_pid : Z }.

#[export] Instance futex_entry_inhabited : Inhabited futex_entry := populate (mk_futex 0 0 0 0).

(** The table in the kernel's zeroed data segment. *)
Definition futex_table0 : list futex_entry := replicate (Z.to_nat FUTEX_MAX_WAITERS) (mk_futex 0 0 0 0).

(** How [futex_wait] ends: it returns at once, or it calls [sched_yield]. *)
Inductive wait_result := WaitReturn | WaitYield.

Section Ops.
Context {H V : Type} `{Allocator H} `{FdTable V}.
#[local] Notation "'sys'" := (ksys H V).

(** The first unused entry, -1 when there is none. *)
Fixpoint futex_slot (l : list futex_entry) (i : Z) : Z :=
  match l with
  | [] => -1
  | e :: l => if fx_used e =? 0 then i else futex_slot l (i + 1)
  end.

Definition futex_wait (load32 : Z -> Z) (uaddr expected : Z) (tbl : list futex_entry) (s : sys) :
    wait_result * list futex_entry * sys :=
  if g_current_proc s =? NULL then (WaitReturn, tbl, s) else
  let s := with_if false s in
  let current_val := load32 uaddr in
  if negb (current_val =? expected) then (WaitReturn, tbl, with_if true s) else
  let slot := futex_slot tbl 0 in
  if slot <? 0 then (WaitYield, tbl, with_if true s) else
  let me := g_current_proc s in
  let tbl := tbl.[slot <- mk_futex 1 (pid (proc_at s me)) uaddr (pid (proc_at s me))] in
  let s := upd me (set_state PROC_BLOCKED) s in
  (WaitYield, tbl, with_if true s).

Definition futex_match (owner uaddr : Z) (e : futex_entry) : bool :=
  negb (fx_used e =? 0) && (fx_owner_pid e =? owner) && (fx_uaddr e =? uaddr).

Definition futex_clear (e : futex_entry) : futex_entry := mk_futex 0 (fx_owner_pid e) (fx_uaddr e) (fx_waiter_pid e).

(** [for (i = 0; i < FUTEX_MAX_WAITERS && woken < count; i++)]. *)
Definition futex_wake (uaddr count_ : Z) (tbl : list futex_entry) (s : sys) : list futex_entry * sys :=
  if g_current_proc s =? NULL then (tbl, s) else
  let s := with_if false s in
  let owner := pid (proc_at s (g_current_proc s)) in
  let '(woken, tbl, s) :=
    for_loop (Z.to_nat FUTEX_MAX_WAITERS) 0
      (fun i '(woken, tbl, s) =>
         if (woken <? count_) && futex_match owner uaddr tbl.[i] then
           (woken + 1, tbl.[i <- futex_clear tbl.[i]], wake_pid s (fx_waiter_pid tbl.[i]))
         else (woken, tbl, s))
      (0, tbl, s) in
  (tbl, with_if true s).

End Ops.

(** ** Reference: clear the first [n] entries that satisfy [f] *)

Fixpoint clear_first (n : Z) (f : futex_entry -> bool) (l : list futex_entry) : list futex_entry :=
  match l with
  | [] => []
  | e :: l => if (0 <? n) && f e then futex_clear e :: clear_first (n - 1) f l else e :: clear_first n f l
  end.

Lemma clear_first_length n f l : length (clear_first n f l) = length l.
Proof. revert n. induction l as [|e l IH]; intros n; [done|]. cbn. destruct (_ && _); cbn; by rewrite IH. Qed.

(** How many of the first entries were cleared. *)
Definition matches (f : futex_entry -> bool) (l : list futex_entry) : Z := zlen (filter f l).

Lemma clear_first_snoc n f l e :
  0 <= n -> clear_first n f (l ++ [e]) = clear_first n f l ++ [if (matches f l <? n) && f e then futex_clear e else e].
Proof.
  assert (N : forall l, 0 <= matches f l) by (intros; apply zlen_nonneg).
  revert n. induction l as [|x l IH]; intros n Hn.
  - cbn. change (matches f []) with 0. destruct (0 <? n), (f e); done.
  - cbn [clear_first app]. unfold matches. rewrite filter_cons. fold (matches f l). specialize (N l).
    destruct (f x) eqn:E.
    + rewrite decide_True by done. change (zlen (x :: filter f l)) with (zlen ([x] ++ filter f l)). rewrite zlen_app.
      fold (matches f l). change (zlen [x]) with 1. rewrite andb_true_r. destruct (Z.ltb_spec 0 n).
      * rewrite IH by lia. cbn. do 2 f_equal.
        destruct (Z.ltb_spec (matches f l) (n - 1)), (Z.ltb_spec (1 + matches f l) n); [done|lia|lia|done].
      * rewrite IH by lia. cbn. do 2 f_equal.
        destruct (Z.ltb_spec (matches f l) n), (Z.ltb_spec (1 + matches f l) n); [lia|lia|lia|done].
    + rewrite decide_False by (by intros []). rewrite andb_false_r, IH by lia. done.
Qed.

(** ** Table invariant *)

(** Every entry in use was made by the process it will wake. *)
Definition futex_ok (tbl : list futex_entry) : Prop :=
  zlen tbl = FUTEX_MAX_WAITERS /\ Forall (fun e => fx_used e <> 0 -> fx_waiter_pid e = fx_owner_pid e) tbl.

Lemma futex_table0_ok : futex_ok futex_table0.
Proof. split; [done|]. apply Forall_replicate. done. Qed.

Lemma futex_slot_spec l i :
  0 <= i ->
  (futex_slot l i = -1 /\ Forall (fun e => fx_used e <> 0) l) \/
  (exists k, 0 <= k < zlen l /\ futex_slot l i = i + k /\ fx_used l.[k] = 0).
Proof.
  revert i. induction l as [|e l IH]; intros i Hi; [by left|]. cbn [futex_slot].
  assert (Zl : zlen (e :: l) = zlen l + 1) by (unfold zlen; cbn [length]; lia). pose proof (zlen_nonneg l).
  destruct (Z.eqb_spec (fx_used e) 0) as [E|E].
  - right. exists 0. split; [lia|]. split; [lia|done].
  - destruct (IH (i + 1) ltac:(lia)) as [[A B]|(k & A & B & C)].
    + left. split; [done|]. by constructor.
    + right. exists (k + 1). split; [lia|]. split; [lia|]. unfold zget in *.
      by replace (Z.to_nat (k + 1)) with (Datatypes.S (Z.to_nat k)) by lia.
Qed.

Lemma futex_ok_at tbl i : futex_ok tbl -> 0 <= i < FUTEX_MAX_WAITERS ->
  fx_used tbl.[i] <> 0 -> fx_waiter_pid tbl.[i] = fx_owner_pid tbl.[i].
Proof.
  intros [Hl Hf] Hi. eapply (Forall_lookup_1 _ _ (Z.to_nat i)) in Hf; [exact Hf|]. apply zget_lookup. lia.
Qed.

Lemma clear_first_ok n f tbl : futex_ok tbl -> futex_ok (clear_first n f tbl).
Proof.
  intros [Hl Hf]. split; [unfold zlen in *; by rewrite clear_first_length|]. clear Hl.
  revert n. induction Hf as [|e l He _ IH]; intros n; [constructor|]. cbn. by destruct (_ && _); constructor.
Qed.

Section Proofs.
Context {H V : Type} `{Allocator H} `{FdTable V}.
#[local] Notation "'sys'" := (ksys H V).

(** Waking the pid of slot [c] touches that slot only. *)
Lemma wake_pid_only (s : sys) c :
  kernel_ok s -> used s c -> only c s (wake_pid s (pid (proc_at s c))) /\ used (wake_pid s (pid (proc_at s c))) c.
Proof.
  intros ((qs & Ho) & Hi & Hp) Hc.
  destruct (wake_pid_spec s qs (pid (proc_at s c)) Ho Hi) as (qs' & W & _ & Fr). specialize (Fr Hp).
  remember (wake_pid s _) as s' eqn:X. clear X. destruct (wakes_pid s qs s' qs' c W (proj1 Hc)) as [Ec _].
  split; [|by apply (wakes_used s qs s' qs' c W)]. constructor; [| |done|].
  - split; [exists qs'; apply (wk_ok _ _ _ _ W)|].
    split; [exact (wakes_intents _ _ _ _ W Hi)|exact (wakes_pids_ok _ _ _ _ W Hp)].
  - intros i Hr Hne. destruct (wk_state _ _ _ _ W i Hr) as [E|(A & B & _)]; [done|exfalso].
    assert (Hu : used s i) by (split; [done|by rewrite A]).
    rewrite (Fr i Hu), A in B; [done|]. intros E. apply Hne. by apply Hp.
  - pose proof (wk_static _ _ _ _ W c (proj1 Hc)) as S. destruct (proc_at s' c), (proc_at s c). unfold static in S. cbn in S |- *. by injection S.
Qed.

(** The loop of [futex_wake]. *)
Lemma futex_wake_spec (s : sys) c uaddr n tbl :
  kernel_ok s -> used s c -> futex_ok tbl -> 0 <= n ->
  let '(tbl', s') := futex_wake uaddr n tbl (with_current c s) in
  tbl' = clear_first n (futex_match (pid (proc_at s c)) uaddr) tbl /\ only c s s'.
Proof.
  intros Hk Hc Ht Hn. unfold futex_wake. change (g_current_proc (with_current c s)) with c.
  destruct (Z.eqb_spec c NULL); [destruct Hc; unfold NULL in *; lia|].
  change (proc_at (with_if false (with_current c s)) (g_current_proc (with_if false (with_current c s)))) with (proc_at s c).
  set (o := pid (proc_at s c)). set (f := futex_match o uaddr). set (body := fun i => _).
  pose proof (for_loop_ind (fun i '(woken, t, s1) =>
    woken = Z.min n (matches f (take (Z.to_nat i) tbl)) /\
    t = clear_first n f (take (Z.to_nat i) tbl) ++ drop (Z.to_nat i) tbl /\
    only c s s1 /\ used s1 c) (Z.to_nat FUTEX_MAX_WAITERS) 0 body (0, tbl, with_if false (with_current c s))) as L.
  cbn beta in L. destruct (for_loop _ 0 body _) as [[woken t] s1].
  destruct L as (_ & Et & O & _).
  - change (Z.to_nat 0) with O. rewrite take_0, drop_0. split; [unfold matches; rewrite filter_nil; change (zlen []) with 0; lia|]. split; [done|].
    destruct (only_refl c s false Hk) as [A B D E]. split; [|done]. constructor; [by apply kernel_ok_flags|done|done|done].
  - intros i [[w t1] s2] Hi (Ew & Et & Os & Us). rewrite Z.add_0_l, Z2Nat.id in Hi by done.
    destruct Ht as [Hl Hf]. assert (Hil : (Z.to_nat i < length tbl)%nat) by (unfold zlen in Hl; lia).
    assert (Lc : length (clear_first n f (take (Z.to_nat i) tbl)) = Z.to_nat i) by (rewrite clear_first_length, length_take; lia).
    assert (Ei : t1.[i] = tbl.[i]).
    { rewrite Et. unfold zget. rewrite lookup_total_app_r by lia. rewrite Lc, lookup_total_drop. f_equal. lia. }
    assert (Tk : take (Z.to_nat (i + 1)) tbl = take (Z.to_nat i) tbl ++ [tbl.[i]]).
    { replace (Z.to_nat (i + 1)) with (Datatypes.S (Z.to_nat i)) by lia. apply take_S_r. apply zget_lookup. lia. }
    assert (Dr : drop (Z.to_nat i) tbl = tbl.[i] :: drop (Z.to_nat (i + 1)) tbl).
    { replace (Z.to_nat (i + 1)) with (Datatypes.S (Z.to_nat i)) by lia. apply drop_S, zget_lookup. lia. }
    assert (Mt : matches f (take (Z.to_nat (i + 1)) tbl) = matches f (take (Z.to_nat i) tbl) + if f tbl.[i] then 1 else 0).
    { rewrite Tk. unfold matches. rewrite filter_app, zlen_app. f_equal. rewrite filter_cons, filter_nil.
      by destruct (f tbl.[i]). }
    pose proof (zlen_nonneg (filter f (take (Z.to_nat i) tbl))) as M0. fold (matches f (take (Z.to_nat i) tbl)) in M0.
    unfold body. rewrite Ei. destruct (Z.ltb_spec w n) as [Hw|Hw], (f tbl.[i]) eqn:Ef; cbn [andb];
      rewrite Mt, Tk, clear_first_snoc by done; rewrite Ef.
    + assert (matches f (take (Z.to_nat i) tbl) < n) by lia. destruct (Z.ltb_spec (matches f (take (Z.to_nat i) tbl)) n); [|lia].
      cbn [andb]. split; [lia|]. split.
      * rewrite Et, Dr. unfold zset. rewrite insert_app_r_alt by lia. rewrite Lc.
        replace (Z.to_nat i - Z.to_nat i)%nat with O by lia. cbn. by rewrite <- app_assoc.
      * unfold f, futex_match in Ef. apply andb_true_iff in Ef as [Ef _]. apply andb_true_iff in Ef as [Ef1 Ef2].
        apply Z.eqb_eq in Ef2. apply negb_true_iff, Z.eqb_neq in Ef1.
        rewrite (futex_ok_at tbl i (conj Hl Hf) ltac:(lia) Ef1), Ef2. unfold o. rewrite <- (on_pid _ _ _ Os).
        destruct (wake_pid_only s2 c (on_kernel _ _ _ Os) Us) as [A B].
        split; [exact (only_trans _ _ _ _ Os A)|exact B].
    + rewrite andb_false_r. split; [lia|]. split; [|done]. by rewrite Et, Dr, <- app_assoc.
    + destruct (Z.ltb_spec (matches f (take (Z.to_nat i) tbl)) n); [lia|]. cbn [andb].
      split; [lia|]. split; [|done]. by rewrite Et, Dr, <- app_assoc.
    + rewrite andb_false_r. split; [lia|]. split; [|done]. by rewrite Et, Dr, <- app_assoc.
  - rewrite Z.add_0_l, Z2Nat.id in Et by done. destruct Ht as [Hl _]. unfold zlen in Hl.
    rewrite take_ge, drop_ge, app_nil_r in Et by lia. split; [done|].
    exact (only_trans _ _ _ _ O (only_refl c s1 true (on_kernel _ _ _ O))).
Qed.

(** Futex semantics and isolation.  For a table that satisfies the
    invariant (the initial one does), called by the process in slot [c]:
    [futex_wait] neither registers nor blocks the caller when the word has
    changed, and otherwise registers it in a free entry and blocks it, or only
    yields when the table is full; [futex_wake] clears exactly the first [n]
    entries of this caller on this address; both keep the invariant and neither
    changes anything of a process other than the caller. *)
Theorem futex_wait_wake_isolated (s : sys) c load32 uaddr expected n tbl :
  kernel_ok s -> used s c -> futex_ok tbl -> 0 <= n ->
  (let '(r, tbl', s') := futex_wait load32 uaddr expected tbl (with_current c s) in
   futex_ok tbl' /\ only c s s' /\
   if load32 uaddr =? expected then
     r = WaitYield /\
     ((exists k, 0 <= k < FUTEX_MAX_WAITERS /\ fx_used tbl.[k] = 0 /\
         tbl' = tbl.[k <- mk_futex 1 (pid (proc_at s c)) uaddr (pid (proc_at s c))] /\
         pstate (proc_at s' c) = PROC_BLOCKED) \/
      (Forall (fun e => fx_used e <> 0) tbl /\ tbl' = tbl /\ proc_at s' c = proc_at s c))
   else r = WaitReturn /\ tbl' = tbl /\ proc_at s' c = proc_at s c) /\
  (let '(tbl', s') := futex_wake uaddr n tbl (with_current c s) in
   futex_ok tbl' /\ only c s s' /\ tbl' = clear_first n (futex_match (pid (proc_at s c)) uaddr) tbl).
Proof.
  intros Hk Hc Ht Hn. split.
  - unfold futex_wait. change (g_current_proc (with_current c s)) with c.
    destruct (Z.eqb_spec c NULL); [destruct Hc; unfold NULL in *; lia|].
    assert (O : forall b, only c s (with_if b (with_if false (with_current c s)))).
    { intros b. constructor; [|done|done|done]. by apply (kernel_ok_flags (with_current c s) b c), (kernel_ok_flags s (k_if s) c). }
    destruct (load32 uaddr =? expected); cbn [negb]; [|done].
    destruct (futex_slot_spec tbl 0 ltac:(lia)) as [[E F]|(k & Hki & E & F)]; rewrite E.
    + change (-1 <? 0) with true. split; [done|]. split; [apply O|]. split; [done|]. by right.
    + destruct (Z.ltb_spec (0 + k) 0); [lia|]. rewrite Z.add_0_l. destruct Ht as [Hl Hf].
      set (s0 := with_if false (with_current c s)). change (g_current_proc s0) with c.
      change (proc_at s0 c) with (proc_at s c).
      destruct (upd_only c (set_state PROC_BLOCKED) s0 (kernel_ok_flags s false c Hk) Hc ltac:(done) ltac:(done)) as (O1 & A1 & U1).
      remember (upd c (set_state PROC_BLOCKED) s0) as s1 eqn:X. clear X. split; [|split; [|split; [done|left]]].
      * split; [by rewrite zlen_zset|]. unfold zset. by apply Forall_insert.
      * destruct O1 as [K1 F1 P1 I1]. constructor; [exact (kernel_ok_flags s1 true (g_current_proc s1) K1)|exact F1|exact P1|exact I1].
      * exists k. split; [lia|]. split; [done|]. split; [done|].
        change (proc_at (with_if true s1) c) with (proc_at s1 c). by rewrite A1.
  - pose proof (futex_wake_spec s c uaddr n tbl Hk Hc Ht Hn) as W. destruct (futex_wake _ _ _ _) as [tbl' s'].
    destruct W as [-> O]. split; [by apply clear_first_ok|done].
Qed.

End Proofs.

(** ** Witness *)

#[local] Instance no_files : FdTable unit := {| vfs_close_all_for_pid _ v := v |}.

(** Slot 0 waits on a word that still has the expected value. *)
Lemma futex_wait_wake_isolated_witness :
  exists r tbl' s', futex_wait (fun _ => 7) 4096 7 futex_table0 (with_current 0 sys_run) = (r, tbl', s') /\
    r = WaitYield /\ futex_ok tbl'.
Proof.
  destruct (futex_wait_wake_isolated sys_run 0 (fun _ => 7) 4096 7 1 futex_table0 sys_run_kernel_ok sys_run_used
              futex_table0_ok ltac:(lia)) as [W _].
  destruct (futex_wait _ _ _ _ _) as [[r tbl'] s']. exists r, tbl', s'. destruct W as (A & _ & B & _).
  exact (conj eq_refl (conj B A)).
Defined.
