(* ===== verification/Shm.v ===== *)
(** * Shared memory regions (kernel/shm/shm.c)

    A table of 32 regions, each a set of physical frames of the red zone that
    processes map into their address spaces.  The component sits on the frame
    allocator, the page tables and the process table.  [shm_create] is all or
    nothing; [shm_destroy] gives back exactly the frames of the region. *)

From S2P Require Import Prelude AuditRing Pmm Vmm Kmalloc Capability Proc Sync.

Definition SHM_MAX_REGIONS : Z := 32.
Definition SHM_MAX_PAGES : Z := 256.
Definition SHM_PAGE_SIZE : Z := 4096.

Record shm_region := mk_region {
  sr_id : Z;
  sr_owner_pid : Z;
  sr_size : Z;
  sr_page_count : Z;
  sr_phys_pages : list Z;
  sr_map_count : Z;
  sr_valid : bool
}.

#[export] Instance shm_region_inhabited : Inhabited shm_region := populate (mk_region 0 0 0 0 [] 0 false).

Section Ops.
Context {H V : Type} `{Allocator H} `{FdTable V}.

Record shm_world := mk_shm {
  g_regions : list shm_region;
  g_next_id : Z;
  sh_vm : vmm pmm;
  sh_sys : ksys H V
}.

Definition with_regions (l : list shm_region) (w : shm_world) : shm_world := mk_shm l (g_next_id w) (sh_vm w) (sh_sys w).
Definition with_vm (v : vmm pmm) (w : shm_world) : shm_world := mk_shm (g_regions w) (g_next_id w) v (sh_sys w).

Definition shm_init (w : shm_world) : shm_world :=
  with_regions (for_loop (Z.to_nat SHM_MAX_REGIONS) 0
    (fun i l => l.[i <- mk_region 0 (sr_owner_pid l.[i]) (sr_size l.[i]) (sr_page_count l.[i]) (sr_phys_pages l.[i])
                                  (sr_map_count l.[i]) false]) (g_regions w)) w.

(** The first region that satisfies [f]; [NULL] when there is none. *)
Definition find_region (f : shm_region -> bool) (l : list shm_region) (i : Z) : Z := find_from f l i.

Definition find_free_slot (w : shm_world) : Z := find_region (fun r => negb (sr_valid r)) (g_regions w) 0.

Definition shm_get (id : Z) (w : shm_world) : Z :=
  if id =? 0 then NULL else find_region (fun r => sr_valid r && (sr_id r =? id)) (g_regions w) 0.

(** [for (j = 0; j < n; j++) pmm_free(pages[j])]. *)
Definition free_pages (pages : list Z) (n : Z) (st : pmm) : pmm :=
  for_loop (Z.to_nat n) 0 (fun j st => pmm_free pages.[j] st) st.

(** The allocation loop: [n] pages to go, [i] done; rolls back on failure. *)
Fixpoint create_pages (n : nat) (i : Z) (pages : list Z) (st : pmm) : bool * list Z * pmm :=
  match n with
  | O => (true, pages, st)
  | S n' =>
      let '(phys, st) := pmm_alloc_run ZONE_RED st in
      if phys =? 0 then (false, pages, free_pages pages i st)
      else create_pages n' (i + 1) pages.[i <- phys] st
  end.

Definition page_round (size_ : Z) : Z := u64 (size_ + SHM_PAGE_SIZE - 1) / SHM_PAGE_SIZE.

Definition shm_create (owner_pid size_ : Z) (w : shm_world) : Z * shm_world :=
  if size_ =? 0 then (0, w) else
  let pages := page_round size_ in
  if SHM_MAX_PAGES <? pages then (0, w) else
  let k := find_free_slot w in
  if k =? NULL then (0, w) else
  let r := (g_regions w).[k] in
  let '(ok, arr, st) := create_pages (Z.to_nat pages) 0 (sr_phys_pages r) (vm_frames (sh_vm w)) in
  let v := with_frames (sh_vm w) st in
  if negb ok then
    (0, mk_shm (g_regions w).[k <- mk_region (sr_id r) (sr_owner_pid r) (sr_size r) (sr_page_count r) arr
                                             (sr_map_count r) (sr_valid r)] (g_next_id w) v (sh_sys w))
  else
    (g_next_id w,
     mk_shm (g_regions w).[k <- mk_region (g_next_id w) owner_pid (u64 (pages * SHM_PAGE_SIZE)) (u32 pages) arr 0 true]
            (u32 (g_next_id w + 1)) v (sh_sys w)).

(** The mapping loop of [shm_map]; unmaps what it mapped on failure. *)
Fixpoint map_pages (n : nat) (i root virt : Z) (pages : list Z) (v : vmm pmm) : bool * vmm pmm :=
  match n with
  | O => (true, v)
  | S n' =>
      let '(r, v) := vmm_map_into root pages.[i] (u64 (virt + u64 (i * SHM_PAGE_SIZE)))
                       (Z.lor (Z.lor VMM_WRITE VMM_USER) VMM_NX) v in
      match r with
      | Some _ => map_pages n' (i + 1) root virt pages v
      | None => (false, for_loop (Z.to_nat i) 0
                   (fun j v => vmm_unmap_into root (u64 (virt + u64 (j * SHM_PAGE_SIZE))) v) v)
      end
  end.

Definition set_map_count (c : Z) (r : shm_region) : shm_region :=
  mk_region (sr_id r) (sr_owner_pid r) (sr_size r) (sr_page_count r) (sr_phys_pages r) c (sr_valid r).

Definition shm_map (shm_id pid_ : Z) (w : shm_world) : Z * shm_world :=
  let k := shm_get shm_id w in
  if k =? NULL then (0, w) else
  let p := proc_get (sh_sys w) pid_ in
  if p =? NULL then (0, w) else
  let r := (g_regions w).[k] in
  let virt_top := mmap_top (proc_at (sh_sys w) p) in
  let virt := u64 (virt_top - sr_size r) in
  if virt_top <=? virt then (0, w) else
  if virt <? 0x1000 then (0, w) else
  let '(ok, v) := map_pages (Z.to_nat (sr_page_count r)) 0 (Proc.cr3 (proc_at (sh_sys w) p)) virt (sr_phys_pages r) (sh_vm w) in
  if negb ok then (0, with_vm v w) else
  (virt, mk_shm (g_regions w).[k <- set_map_count (u8 (sr_map_count r + 1)) r] (g_next_id w) v
                (upd p (set_mmap_top virt) (sh_sys w))).

Definition shm_unmap (va size_ pid_ : Z) (w : shm_world) : shm_world :=
  if (va =? 0) || (size_ =? 0) then w else
  let p := proc_get (sh_sys w) pid_ in
  if p =? NULL then w else
  let pages := page_round size_ in
  let v := for_loop (Z.to_nat pages) 0
             (fun i v => vmm_unmap_into (Proc.cr3 (proc_at (sh_sys w) p)) (u64 (va + u64 (i * SHM_PAGE_SIZE))) v) (sh_vm w) in
  let w := with_vm v w in
  let k := find_region (fun r => sr_valid r && (sr_size r =? u64 (pages * SHM_PAGE_SIZE)) && (0 <? sr_map_count r))
             (g_regions w) 0 in
  if k =? NULL then w else
  let r := (g_regions w).[k] in
  with_regions (g_regions w).[k <- set_map_count (u8 (sr_map_count r - 1)) r] w.

Definition shm_destroy (shm_id caller_pid : Z) (w : shm_world) : Z * shm_world :=
  let k := shm_get shm_id w in
  if k =? NULL then (-1, w) else
  let r := (g_regions w).[k] in
  if negb (sr_owner_pid r =? caller_pid) then (-1, w) else
  if 0 <? sr_map_count r then (-1, w) else
  let st := free_pages (sr_phys_pages r) (sr_page_count r) (vm_frames (sh_vm w)) in
  (0, mk_shm (g_regions w).[k <- mk_region 0 (sr_owner_pid r) (sr_size r) (sr_page_count r) (sr_phys_pages r)
                                           (sr_map_count r) false]
             (g_next_id w) (with_frames (sh_vm w) st) (sh_sys w)).

End Ops.
Arguments shm_world : clear implicits.

(** ** Frames held for a region *)

Definition RED_USED : page_frame := mk_frame 1 ZONE_RED 0.
Definition RED_FREE : page_frame := mk_frame 0 ZONE_RED PF_FREE.

Definition same_geometry (st0 st : pmm) : Prop :=
  g_frame_base st = g_frame_base st0 /\ g_frame_count st = g_frame_count st0 /\ g_alloc_start st = g_alloc_start st0.

Lemma idx_to_phys_geom st0 st i : same_geometry st0 st -> idx_to_phys st i = idx_to_phys st0 i.
Proof. intros (E & _). unfold idx_to_phys. by rewrite E. Qed.

(** [st] is [st0] in which the free red frames [js] were handed out. *)
Record handed (st0 st : pmm) (js : list Z) : Prop := {
  hd_inv : pmm_inv st;
  hd_geom : same_geometry st0 st;
  hd_nodup : NoDup js;
  hd_range : forall j, j ∈ js -> g_alloc_start st0 <= j < g_frame_count st0 /\ (g_frames st0).[j] = RED_FREE;
  hd_frames : forall i, 0 <= i < g_frame_count st0 ->
    (g_frames st).[i] = if decide (i ∈ js) then RED_USED else (g_frames st0).[i]
}.

Lemma handed_refl st : pmm_inv st -> handed st st [].
Proof.
  intros I. constructor; [done|done|by apply NoDup_nil|intros j Hj; by apply not_elem_of_nil in Hj|].
  intros i _. rewrite decide_False by apply not_elem_of_nil. done.
Qed.

Lemma handed_alloc st0 st js :
  pmm_inv st0 -> handed st0 st js ->
  (pmm_alloc_run ZONE_RED st = (0, st) /\ pmm_free_pages ZONE_RED st = 0) \/
  exists j st', pmm_alloc_run ZONE_RED st = (idx_to_phys st0 j, st') /\ handed st0 st' (js ++ [j]) /\
    idx_to_phys st0 j <> 0 /\ pmm_free_pages ZONE_RED st' = pmm_free_pages ZONE_RED st - 1.
Proof.
  intros I0 [I G N R F]. pose proof (pi_start _ I) as Hs. pose proof (pi_len _ I) as Hl. pose proof (pi_len _ I0) as Hl0.
  pose proof (zone_free_range st ZONE_RED I ltac:(done)) as Hz. destruct G as (Gb & Gc & Ga).
  destruct (decide ((g_zone_free st).[zone_val ZONE_RED] = 0)) as [E0|Hne].
  { left. split; [|exact E0]. unfold pmm_alloc_run, pmm_alloc. rewrite zone_ge, bool_decide_false, E0 by done. done. }
  right. destruct (alloc_scan_total st I ZONE_RED (Z.to_nat (g_frame_count st + 2)) ltac:(done) ltac:(lia) ltac:(lia)) as (j & Hj & Ha & E).
  destruct (take_frame_eq st ZONE_RED j I Hj Ha) as [Hf1 Hf2]. pose proof (take_frame_inv st ZONE_RED j I ltac:(done) Hj Ha) as I'.
  assert (Hnj : j ∉ js).
  { intros Hin. rewrite F, decide_True in Hf2 by (done || lia). done. }
  exists j, (take_frame st ZONE_RED j).2. unfold pmm_alloc_run. rewrite E. cbn [default from_option].
  assert (Ep : (take_frame st ZONE_RED j).1 = idx_to_phys st0 j) by (apply (idx_to_phys_geom st0 st); done).
  split; [by rewrite <- Ep|]. split; [|split].
  - constructor; [done|done| | |].
    + apply NoDup_app. split; [done|]. split; [|apply NoDup_singleton]. intros x Hx Hx'. apply list_elem_of_singleton in Hx'. by subst.
    + intros x Hx. apply elem_of_app in Hx as [Hx|Hx]; [by apply R|]. apply list_elem_of_singleton in Hx. subst x.
      split; [lia|]. by rewrite F, decide_False in Hf2 by (done || lia).
    + intros i Hi. rewrite Hf1. destruct (decide (i = j)) as [->|Hij].
      * rewrite zget_zset_eq by lia. rewrite decide_True; [done|]. apply elem_of_app. right. by apply list_elem_of_singleton.
      * rewrite zget_zset_ne by lia. rewrite F by done. apply decide_ext. rewrite elem_of_app, list_elem_of_singleton. tauto.
  - rewrite <- (idx_to_phys_geom st0 st) by done. by apply pmm_inv_nonzero.
  - unfold pmm_free_pages. rewrite zone_ge, bool_decide_false by done. unfold take_frame. cbn [snd g_zone_free].
    destruct (pi_lens _ I). rewrite zget_zset_eq by (cbn; lia). apply u64_small.
    destruct (pi_phys _ I). unfold PAGE_SIZE in *. lia.
Qed.

Lemma handed_free st0 st j js :
  pmm_inv st0 -> handed st0 st (j :: js) -> handed st0 (pmm_free (idx_to_phys st0 j) st) js.
Proof.
  intros I0 [I G N R F]. pose proof (pi_start _ I0) as Hs. pose proof (pi_len _ I) as Hl.
  destruct (R j ltac:(by left)) as [Hj Hfj]. pose proof G as (Gb & Gc & Ga).
  assert (E : (g_frames st).[j] = RED_USED) by (rewrite F by lia; rewrite decide_True; [done|by left]).
  assert (U : in_use st j) by (split; [lia|by rewrite E]).
  destruct (pmm_free_in_use st j I U) as [Hf I']. rewrite (idx_to_phys_geom st0 st j G), E in Hf. cbn in Hf.
  rewrite (idx_to_phys_geom st0 st j G) in I'. apply NoDup_cons in N as [Nj N].
  destruct (pmm_free_geom (idx_to_phys st0 j) st) as (G1 & G2 & G3).
  constructor; [done|unfold same_geometry; by rewrite G1, G2, G3|done|intros x Hx; apply R; by right|].
  intros i Hi. rewrite Hf. destruct (decide (i = j)) as [->|Hij].
  - rewrite zget_zset_eq by lia. rewrite decide_False by done. done.
  - rewrite zget_zset_ne by lia. rewrite F by done. apply decide_ext. rewrite elem_of_cons. tauto.
Qed.

(** Everything handed out is back: same database, same counters. *)
Lemma handed_nil st0 st : pmm_inv st0 -> handed st0 st [] -> g_frames st = g_frames st0 /\ g_zone_free st = g_zone_free st0.
Proof.
  intros I0 [I (Gb & Gc & Ga) _ _ F]. pose proof (pi_len _ I) as Hl. pose proof (pi_len _ I0) as Hl0.
  assert (E : g_frames st = g_frames st0).
  { apply list_eq_zget; [lia|]. intros i Hi. rewrite F by lia. rewrite decide_False by apply not_elem_of_nil. done. }
  split; [done|]. destruct (pi_lens _ I) as [_ H3], (pi_lens _ I0) as [_ H3']. apply list_eq_zget; [lia|].
  intros i Hi. assert (Hzz : exists z, z <> ZONE_COUNT /\ i = zone_val z).
  { destruct (decide (i = 0)); [by exists ZONE_GREEN|]. destruct (decide (i = 1)); [by exists ZONE_YELLOW|].
    exists ZONE_RED. split; [done|simpl; lia]. }
  destruct Hzz as (z & Hz & ->). by rewrite (pi_free _ I), (pi_free _ I0), E by done.
Qed.

(** The array [pages] starts with the addresses of the frames [js]. *)
Definition lists_frames (st : pmm) (pages js : list Z) : Prop :=
  forall k, 0 <= k < zlen js -> pages.[k] = idx_to_phys st js.[k].

Lemma free_pages_handed st0 st pages js :
  pmm_inv st0 -> handed st0 st js -> lists_frames st0 pages js -> handed st0 (free_pages pages (zlen js) st) [].
Proof.
  intros I0 Hh Hp. unfold free_pages.
  pose proof (for_loop_ind (fun k st => handed st0 st (drop (Z.to_nat k) js)) (Z.to_nat (zlen js)) 0
    (fun j st => pmm_free pages.[j] st) st) as L. cbn beta in L. pose proof (zlen_nonneg js) as Hn.
  rewrite Z.add_0_l, Z2Nat.id in L by done. rewrite (drop_ge js (Z.to_nat (zlen js))) in L by (unfold zlen; lia). apply L; [by rewrite drop_0|].
  intros k s1 Hk Hd. rewrite Hp by lia. apply handed_free; [done|].
  assert (E : drop (Z.to_nat k) js = js.[k] :: drop (Z.to_nat (k + 1)) js).
  { replace (Z.to_nat (k + 1)) with (Datatypes.S (Z.to_nat k)) by lia. apply drop_S, zget_lookup. lia. }
  by rewrite <- E.
Qed.

(** The allocation loop: [n] more frames, or none at all. *)
Lemma create_pages_spec n : forall i pages st0 st js,
  pmm_inv st0 -> handed st0 st js -> lists_frames st0 pages js -> i = zlen js -> i + Z.of_nat n <= zlen pages ->
  let '(ok, arr, st') := create_pages n i pages st in
  zlen arr = zlen pages /\
  ((ok = true /\ Z.of_nat n <= pmm_free_pages ZONE_RED st /\
    exists js', zlen js' = i + Z.of_nat n /\ handed st0 st' js' /\ lists_frames st0 arr js') \/
   (ok = false /\ pmm_free_pages ZONE_RED st < Z.of_nat n /\ handed st0 st' [])).
Proof.
  induction n as [|n IH]; intros i pages st0 st js I0 Hh Hp Hi Hl; cbn [create_pages].
  - split; [done|]. left. split; [done|]. split; [|exists js; split; [lia|done]].
    destruct Hh as [I _ _ _ _]. pose proof (zone_free_range st ZONE_RED I ltac:(done)). exact (proj1 H).
  - destruct (handed_alloc st0 st js I0 Hh) as [[E Z0]|(j & st' & E & Hh' & Hnz & Zf)]; rewrite E.
    + change (0 =? 0) with true. cbv iota. split; [done|]. right. split; [done|]. split; [lia|].
      rewrite Hi. by apply (free_pages_handed st0 st pages js).
    + destruct (Z.eqb_spec (idx_to_phys st0 j) 0); [done|]. pose proof (zlen_nonneg js).
      assert (Zj : zlen (js ++ [j]) = i + 1) by (rewrite zlen_app, Hi; done).
      assert (Hp' : lists_frames st0 pages.[i <- idx_to_phys st0 j] (js ++ [j])).
      { intros k Hk. destruct (decide (k = i)) as [->|].
        - rewrite zget_zset_eq by lia. unfold zget. rewrite lookup_total_app_r by (unfold zlen in Hi; lia).
          by replace (Z.to_nat i - length js)%nat with O by (unfold zlen in Hi; lia).
        - rewrite zget_zset_ne by lia. rewrite Hp by lia. unfold zget. by rewrite lookup_total_app_l by (unfold zlen in *; lia). }
      specialize (IH (i + 1) pages.[i <- idx_to_phys st0 j] st0 st' (js ++ [j]) I0 Hh' Hp' ltac:(lia)).
      rewrite zlen_zset in IH. specialize (IH ltac:(lia)). destruct (create_pages n _ _ _) as [[ok arr] st''].
      destruct IH as [IL [(A & B & js' & C & D)|(A & B & C)]]; (split; [done|]); [left|right].
      * split; [done|]. split; [lia|]. exists js'. split; [lia|done].
      * split; [done|]. split; [lia|done].
Qed.

Lemma find_region_spec f l i :
  0 <= i ->
  (find_region f l i = NULL /\ forall k, 0 <= k < zlen l -> f l.[k] = false) \/
  (exists k, 0 <= k < zlen l /\ find_region f l i = i + k /\ f l.[k] = true /\ forall j, 0 <= j < k -> f l.[j] = false).
Proof. apply find_from_spec. Qed.

(** ** Properties *)

Section Properties.
Context {H V : Type} `{Allocator H} `{FdTable V}.
#[local] Notation "'world'" := (shm_world H V).

Definition frames_of (w : world) : pmm := vm_frames (sh_vm w).

(** Sizes of the arrays, and the allocator's invariant. *)
Record shm_wf (w : world) : Prop := {
  sw_pmm : pmm_inv (frames_of w);
  sw_len : zlen (g_regions w) = SHM_MAX_REGIONS;
  sw_arr : forall k, 0 <= k < SHM_MAX_REGIONS -> zlen (sr_phys_pages (g_regions w).[k]) = SHM_MAX_PAGES
}.

(** What every operation on frames leaves alone. *)
Definition keeps_memory (w w' : world) : Prop :=
  vm_mem (sh_vm w') = vm_mem (sh_vm w) /\ sh_sys w' = sh_sys w.

(** [shm_create] is all or nothing.  It succeeds exactly when the size is
    non-zero and rounds to at most 256 pages, a table slot is free and the red
    zone has enough free frames; then a slot that was invalid describes the new
    region, whose pages are distinct frames that were free, and no other frame
    or region changes.  Otherwise it returns 0, every frame taken so far has
    been given back, and the valid regions are untouched. *)
Theorem shm_create_all_or_nothing owner size_ (w : world) :
  shm_wf w -> 0 <= size_ < 2 ^ 64 ->
  let pages := page_round size_ in
  let '(id, w') := shm_create owner size_ w in
  keeps_memory w w' /\
  (((size_ = 0 \/ SHM_MAX_PAGES < pages \/ (forall k, 0 <= k < SHM_MAX_REGIONS -> sr_valid (g_regions w).[k] = true) \/
     pmm_free_pages ZONE_RED (frames_of w) < pages) /\
    id = 0 /\ g_next_id w' = g_next_id w /\
    g_frames (frames_of w') = g_frames (frames_of w) /\ g_zone_free (frames_of w') = g_zone_free (frames_of w) /\
    (forall k, 0 <= k < SHM_MAX_REGIONS -> sr_valid (g_regions w').[k] = sr_valid (g_regions w).[k] /\
       (sr_valid (g_regions w).[k] = true -> (g_regions w').[k] = (g_regions w).[k]))) \/
   (size_ <> 0 /\ pages <= SHM_MAX_PAGES /\ pages <= pmm_free_pages ZONE_RED (frames_of w) /\
    id = g_next_id w /\ exists k js arr,
      0 <= k < SHM_MAX_REGIONS /\ sr_valid (g_regions w).[k] = false /\
      zlen js = pages /\ handed (frames_of w) (frames_of w') js /\ lists_frames (frames_of w) arr js /\
      g_regions w' = (g_regions w).[k <- mk_region id owner (pages * SHM_PAGE_SIZE) pages arr 0 true])).
Proof.
  intros [I Hl Ha] Hs pages. unfold shm_create. fold pages.
  assert (Hp : 0 <= pages) by (unfold pages, page_round, SHM_PAGE_SIZE; apply Z.div_pos; [apply u64_range|lia]).
  destruct (Z.eqb_spec size_ 0) as [->|Hnz]; [split; [done|]; left; split; [by left|done]|].
  destruct (Z.ltb_spec SHM_MAX_PAGES pages) as [Hbig|Hsmall].
  { split; [done|]. left. split; [by right; left|done]. }
  unfold find_free_slot. destruct (find_region_spec (fun r => negb (sr_valid r)) (g_regions w) 0 ltac:(lia))
    as [[E F]|(k & Hk & E & F & _)]; rewrite E.
  { change (NULL =? NULL) with true. split; [done|]. left. split; [|done]. right; right; left.
    intros k Hk. apply negb_false_iff, F. lia. }
  rewrite Z.add_0_l. destruct (Z.eqb_spec k NULL); [unfold NULL in *; lia|]. apply negb_true_iff in F.
  unfold SHM_MAX_PAGES, SHM_MAX_REGIONS in *.
  pose proof (create_pages_spec (Z.to_nat pages) 0 (sr_phys_pages (g_regions w).[k]) (frames_of w) (frames_of w) []
    I (handed_refl _ I) ltac:(intros j Hj; unfold zlen in Hj; cbn in Hj; lia) eq_refl
    ltac:(rewrite Ha by lia; lia)) as C. fold (frames_of w).
  destruct (create_pages _ _ _ _) as [[ok arr] st]. rewrite Z.add_0_l, Z2Nat.id in C by done.
  destruct C as (La & [(-> & C1 & js & C2 & C3 & C4)|(-> & C1 & C2)]); cbn [negb]; (split; [done|]).
  - right. split; [done|]. split; [lia|]. split; [done|]. split; [done|]. exists k, js, arr.
    split; [lia|]. split; [done|]. split; [lia|]. split; [exact C3|]. split; [done|]. cbn [g_regions].
    unfold SHM_PAGE_SIZE. rewrite (u64_small (pages * 4096)) by lia. rewrite u32_small by lia. done.
  - left. split; [by right; right; right|]. split; [done|]. split; [done|].
    destruct (handed_nil _ _ I C2) as [E1 E2]. split; [exact E1|]. split; [exact E2|].
    intros j Hj. cbn [g_regions]. destruct (decide (j = k)) as [->|]; [|by rewrite zget_zset_ne by lia].
    rewrite zget_zset_eq by lia. rewrite F. split; [done|discriminate].
Qed.

(** The valid region [k] owns the frames [js], each held once. *)
Definition region_frames (w : world) (k : Z) (js : list Z) : Prop :=
  let r := (g_regions w).[k] in
  sr_page_count r = zlen js /\ NoDup js /\ lists_frames (frames_of w) (sr_phys_pages r) js /\
  forall j, j ∈ js -> g_alloc_start (frames_of w) <= j < g_frame_count (frames_of w) /\ (g_frames (frames_of w)).[j] = RED_USED.

(** Releasing the frames of a region. *)
Lemma free_region_frames st pages js :
  pmm_inv st -> NoDup js -> lists_frames st pages js ->
  (forall j, j ∈ js -> g_alloc_start st <= j < g_frame_count st /\ (g_frames st).[j] = RED_USED) ->
  let st' := free_pages pages (zlen js) st in
  pmm_inv st' /\ same_geometry st st' /\
  forall i, 0 <= i < g_frame_count st -> (g_frames st').[i] = if decide (i ∈ js) then RED_FREE else (g_frames st).[i].
Proof.
  intros I N Hp R. cbn zeta. unfold free_pages. pose proof (zlen_nonneg js) as Hn.
  pose proof (for_loop_ind (fun k st' => pmm_inv st' /\ same_geometry st st' /\
    forall i, 0 <= i < g_frame_count st -> (g_frames st').[i] = if decide (i ∈ take (Z.to_nat k) js) then RED_FREE else (g_frames st).[i])
    (Z.to_nat (zlen js)) 0 (fun j st => pmm_free pages.[j] st) st) as L. cbn beta in L.
  rewrite Z.add_0_l, Z2Nat.id, (take_ge js (Z.to_nat (zlen js))) in L by (done || (unfold zlen; lia)). apply L; clear L.
  - split; [done|]. split; [done|]. intros i Hi. rewrite take_0, decide_False by apply not_elem_of_nil. done.
  - intros k s1 Hk (I1 & G1 & F1). pose proof G1 as (Gb & Gc & Ga). pose proof (pi_len _ I1) as Hl. pose proof (pi_start _ I) as Hs.
    assert (Lk : js !! Z.to_nat k = Some js.[k]) by (apply zget_lookup; lia). set (j := js.[k]) in *.
    destruct (R j ltac:(by eapply list_elem_of_lookup_2)) as [Hj Hfj].
    assert (Tk : take (Z.to_nat (k + 1)) js = take (Z.to_nat k) js ++ [j]).
    { replace (Z.to_nat (k + 1)) with (Datatypes.S (Z.to_nat k)) by lia. by apply take_S_r. }
    assert (Hnj : j ∉ take (Z.to_nat k) js).
    { intros Hin. rewrite <- (take_drop (Datatypes.S (Z.to_nat k)) js), (take_S_r _ _ j) in N by done.
      apply NoDup_app in N as [N _]. apply NoDup_app in N as (_ & N & _). apply (N j Hin). by apply list_elem_of_singleton. }
    assert (E : (g_frames s1).[j] = RED_USED) by (rewrite F1 by lia; by rewrite decide_False).
    assert (U : in_use s1 j) by (split; [lia|by rewrite E]).
    rewrite Hp by lia. fold j. rewrite <- (idx_to_phys_geom st s1 j G1).
    destruct (pmm_free_in_use s1 j I1 U) as [Hf I'']. rewrite E in Hf. cbn in Hf.
    destruct (pmm_free_geom (idx_to_phys s1 j) s1) as (g1 & g2 & g3).
    split; [done|]. split; [unfold same_geometry; by rewrite g1, g2, g3|].
    intros i Hi. rewrite Hf, Tk. destruct (decide (i = j)) as [->|Hij].
    + rewrite zget_zset_eq by lia. rewrite decide_True; [done|]. apply elem_of_app. right. by apply list_elem_of_singleton.
    + rewrite zget_zset_ne by lia. rewrite F1 by done. apply decide_ext. rewrite elem_of_app, list_elem_of_singleton. tauto.
Qed.

(** [shm_destroy] of a region that may be destroyed. *)
Lemma shm_destroy_frees (w : world) id k js :
  shm_wf w -> shm_get id w = k -> k <> NULL -> region_frames w k js -> sr_map_count (g_regions w).[k] = 0 ->
  exists w', shm_destroy id (sr_owner_pid (g_regions w).[k]) w = (0, w') /\ keeps_memory w w' /\ shm_wf w' /\
    sr_valid (g_regions w').[k] = false /\
    (forall i, 0 <= i < SHM_MAX_REGIONS -> i <> k -> (g_regions w').[i] = (g_regions w).[i]) /\
    (forall i, 0 <= i < g_frame_count (frames_of w) ->
       (g_frames (frames_of w')).[i] = if decide (i ∈ js) then RED_FREE else (g_frames (frames_of w)).[i]) /\
    same_geometry (frames_of w) (frames_of w').
Proof.
  intros [I Hl Ha] Hg Hk (Hc & N & Hp & R) Hm. unfold shm_destroy. rewrite Hg.
  assert (Kr : 0 <= k < SHM_MAX_REGIONS).
  { unfold shm_get in Hg. destruct (id =? 0); [by subst|].
    destruct (find_region_spec (fun r => sr_valid r && (sr_id r =? id)) (g_regions w) 0 ltac:(lia))
      as [[E _]|(x & Hx & E & _)]; rewrite E in Hg; [by subst|]. lia. }
  destruct (Z.eqb_spec k NULL); [done|]. rewrite Z.eqb_refl, Hm. change (0 <? 0) with false. cbn [negb]. rewrite Hc.
  fold (frames_of w). destruct (free_region_frames (frames_of w) _ js I N Hp R) as (I' & G & F).
  eexists. split; [reflexivity|]. split; [done|]. split; [|split; [|split; [|split]]].
  - constructor; cbn [g_regions]; [exact I'|by rewrite zlen_zset|]. intros i Hi.
    destruct (decide (i = k)) as [->|]; [rewrite zget_zset_eq by lia; by apply Ha|rewrite zget_zset_ne by lia; by apply Ha].
  - cbn [g_regions]. by rewrite zget_zset_eq by lia.
  - intros i Hi Hne. cbn [g_regions]. by rewrite zget_zset_ne by lia.
  - exact F.
  - exact G.
Qed.

Lemma shm_get_new (w : world) k r :
  zlen (g_regions w) = SHM_MAX_REGIONS -> 0 <= k < SHM_MAX_REGIONS -> sr_valid r = true -> sr_id r <> 0 ->
  (forall i, 0 <= i < SHM_MAX_REGIONS -> sr_valid (g_regions w).[i] = true -> sr_id (g_regions w).[i] <> sr_id r) ->
  find_region (fun x => sr_valid x && (sr_id x =? sr_id r)) (g_regions w).[k <- r] 0 = k.
Proof.
  intros Hl Hk Hv Hn Hu.
  destruct (find_region_spec (fun x => sr_valid x && (sr_id x =? sr_id r)) (g_regions w).[k <- r] 0 ltac:(lia))
    as [[_ F]|(i & Hi & E & F & _)].
  - specialize (F k). rewrite zlen_zset, zget_zset_eq, Hv, Z.eqb_refl in F by lia. by specialize (F ltac:(lia)).
  - rewrite E, Z.add_0_l. destruct (decide (i = k)) as [|Hne]; [done|]. rewrite zlen_zset in Hi.
    rewrite zget_zset_ne in F by lia. apply andb_true_iff in F as [F1 F2]. apply Z.eqb_eq in F2.
    by destruct (Hu i ltac:(lia) F1).
Qed.

(** A caller who does not own the region, or a region still mapped, is refused. *)
Lemma shm_destroy_refused id caller (w : world) :
  shm_get id w <> NULL ->
  sr_owner_pid (g_regions w).[shm_get id w] <> caller \/ 0 < sr_map_count (g_regions w).[shm_get id w] ->
  shm_destroy id caller w = (-1, w).
Proof.
  intros Hk Hg. unfold shm_destroy. destruct (Z.eqb_spec (shm_get id w) NULL); [done|].
  destruct (Z.eqb_spec (sr_owner_pid (g_regions w).[shm_get id w]) caller) as [E|E]; [|done]. cbn [negb].
  destruct (Z.ltb_spec 0 (sr_map_count (g_regions w).[shm_get id w])); [done|]. destruct Hg; [done|lia].
Qed.

(** The frames handed out for a new region are its frames. *)
Lemma handed_region_frames (w w' : world) k js :
  pmm_inv (frames_of w) -> handed (frames_of w) (frames_of w') js ->
  sr_page_count (g_regions w').[k] = zlen js ->
  (forall x, 0 <= x < zlen js -> (sr_phys_pages (g_regions w').[k]).[x] = idx_to_phys (frames_of w) js.[x]) ->
  region_frames w' k js.
Proof.
  intros I Hh Hc Hp. pose proof (hd_geom _ _ _ Hh) as G. pose proof G as (Gb & Gc & Ga). pose proof (pi_start _ I) as Hst.
  split; [done|]. split; [apply (hd_nodup _ _ _ Hh)|]. split.
  - intros x Hx. rewrite Hp by done. symmetry. by apply idx_to_phys_geom.
  - intros j Hj. destruct (hd_range _ _ _ Hh j Hj) as [Hj1 _].
    split; [lia|]. rewrite (hd_frames _ _ _ Hh) by lia. by rewrite decide_True.
Qed.

(** Handing frames out and releasing them hands nothing out. *)
Lemma handed_released st0 st st2 js :
  pmm_inv st0 -> handed st0 st js -> pmm_inv st2 -> same_geometry st st2 ->
  (forall i, 0 <= i < g_frame_count st -> (g_frames st2).[i] = if decide (i ∈ js) then RED_FREE else (g_frames st).[i]) ->
  handed st0 st2 [].
Proof.
  intros I Hh I2 (A2 & B2 & C2) F2. pose proof (hd_geom _ _ _ Hh) as (A1 & B1 & C1).
  constructor; [done|split; [congruence|split; congruence]|by apply NoDup_nil|intros j Hj; by apply not_elem_of_nil in Hj|].
  intros i Hi. rewrite F2 by lia. rewrite (decide_False (P := i ∈ [])) by apply not_elem_of_nil. rewrite (hd_frames _ _ _ Hh) by done.
  destruct (decide (i ∈ js)) as [Hj|]; [|done]. by destruct (hd_range _ _ _ Hh i Hj).
Qed.

(** Life cycle of a region.  [shm_destroy] by a process that is not the
    owner, or of a region that is still mapped, returns -1 and changes nothing.
    When the id counter has not been reused, a region that [shm_create] returned
    is found again under its id, and the owner's [shm_destroy] gives back the
    frame database and the free counters exactly as they were before. *)
Theorem shm_create_destroy_roundtrip owner caller size_ (w : world) :
  shm_wf w -> 0 <= size_ < 2 ^ 64 -> 0 < g_next_id w ->
  (forall i, 0 <= i < SHM_MAX_REGIONS -> sr_valid (g_regions w).[i] = true -> sr_id (g_regions w).[i] <> g_next_id w) ->
  (forall id, shm_get id w <> NULL ->
     sr_owner_pid (g_regions w).[shm_get id w] <> caller \/ 0 < sr_map_count (g_regions w).[shm_get id w] ->
     shm_destroy id caller w = (-1, w)) /\
  let '(id, w') := shm_create owner size_ w in
  id <> 0 ->
  sr_owner_pid (g_regions w').[shm_get id w'] = owner /\
  exists w'', shm_destroy id owner w' = (0, w'') /\ keeps_memory w w'' /\
    g_frames (frames_of w'') = g_frames (frames_of w) /\ g_zone_free (frames_of w'') = g_zone_free (frames_of w).
Proof.
  intros Hw Hs Hnx Hu. pose proof Hw as [I Hl Ha]. split.
  { intros id. apply shm_destroy_refused. }
  unfold shm_create. destruct (Z.eqb_spec size_ 0) as [->|Hnz]; [done|].
  set (pages := page_round size_).
  assert (Hp : 0 <= pages) by (unfold pages, page_round, SHM_PAGE_SIZE; apply Z.div_pos; [apply u64_range|lia]).
  destruct (Z.ltb_spec SHM_MAX_PAGES pages) as [Hbig|Hsmall]; [done|].
  unfold find_free_slot. destruct (find_region_spec (fun r => negb (sr_valid r)) (g_regions w) 0 ltac:(lia))
    as [[E F]|(k & Hk & E & F & _)]; rewrite E; [done|].
  rewrite Z.add_0_l. destruct (Z.eqb_spec k NULL); [done|]. unfold SHM_MAX_PAGES in Hsmall. rewrite Hl in Hk.
  pose proof (create_pages_spec (Z.to_nat pages) 0 (sr_phys_pages (g_regions w).[k]) (frames_of w) (frames_of w) []
    I (handed_refl _ I) ltac:(intros j Hj; unfold zlen in Hj; cbn in Hj; lia) eq_refl
    ltac:(rewrite Ha by lia; unfold SHM_MAX_PAGES; lia)) as C. fold (frames_of w).
  destruct (create_pages _ _ _ _) as [[ok arr] st]. rewrite Z.add_0_l, Z2Nat.id in C by done.
  destruct C as (La & [(-> & C1 & js & C2 & C3 & C4)|(-> & _ & _)]); cbn [negb]; [|done]. intros Hid.
  set (r := mk_region _ _ _ _ _ _ _). set (w' := mk_shm _ _ _ _).
  assert (Gk : shm_get (g_next_id w) w' = k).
  { unfold shm_get. destruct (Z.eqb_spec (g_next_id w) 0); [done|]. by apply (shm_get_new w k r). }
  assert (Rk : (g_regions w').[k] = r) by (unfold w'; cbn [g_regions]; by rewrite zget_zset_eq by lia).
  rewrite Gk, Rk. split; [done|].
  assert (Hw' : shm_wf w').
  { constructor; [exact (hd_inv _ _ _ C3)|unfold w'; cbn; by rewrite zlen_zset|]. intros i Hi.
    destruct (decide (i = k)) as [->|]; [rewrite Rk; cbn; by rewrite La, Ha by lia|].
    unfold w'. cbn [g_regions]. rewrite zget_zset_ne by lia. by apply Ha. }
  assert (Rf : region_frames w' k js).
  { apply (handed_region_frames w); [done|exact C3|rewrite Rk; cbn [r sr_page_count]; rewrite u32_small by lia; lia|by rewrite Rk]. }
  destruct (shm_destroy_frees w' (g_next_id w) k js Hw' Gk ltac:(done) Rf ltac:(by rewrite Rk))
    as (w'' & D & K & W2 & _ & _ & F2 & G2).
  rewrite Rk in D. exists w''. split; [exact D|]. split; [exact K|]. apply handed_nil; [done|].
  by apply (handed_released _ st _ js I C3 (sw_pmm _ W2) G2 F2).
Qed.

(** Mapping only takes free frames. *)
Definition keeps_used (v v' : vmm pmm) : Prop :=
  pmm_inv (vm_frames v) ->
  pmm_inv (vm_frames v') /\ same_geometry (vm_frames v) (vm_frames v') /\
  forall i, 0 <= i < g_frame_count (vm_frames v) ->
    (g_frames (vm_frames v)).[i] = RED_USED -> (g_frames (vm_frames v')).[i] = RED_USED.

Lemma keeps_used_refl v v' : vm_frames v' = vm_frames v -> keeps_used v v'.
Proof. intros E I. rewrite E. done. Qed.

Lemma keeps_used_trans v1 v2 v3 : keeps_used v1 v2 -> keeps_used v2 v3 -> keeps_used v1 v3.
Proof.
  intros A B I. destruct (A I) as (I2 & (g1 & g2 & g3) & F2). destruct (B I2) as (I3 & (h1 & h2 & h3) & F3).
  split; [done|]. split; [unfold same_geometry; lia|]. intros i Hi E. apply F3; [lia|]. by apply F2.
Qed.

Lemma alloc_table_keeps entry v : keeps_used v (alloc_table entry v).2.
Proof.
  intros I. unfold alloc_table. destruct (has _ _); [done|]. change (fs_alloc ZONE_GREEN) with (pmm_alloc_run ZONE_GREEN).
  assert (A : let st := (pmm_alloc_run ZONE_GREEN (vm_frames v)).2 in pmm_inv st /\ same_geometry (vm_frames v) st /\
    forall i, 0 <= i < g_frame_count (vm_frames v) -> (g_frames (vm_frames v)).[i] = RED_USED -> (g_frames st).[i] = RED_USED).
  { cbn zeta. destruct (pmm_alloc_run_cases ZONE_GREEN _ I) as [->|(j & Hz & Hj & Ha & ->)]; [done|].
    destruct (take_frame_eq _ _ j I Hj Ha) as [E1 E2]. split; [by apply take_frame_inv|]. split; [done|].
    intros i Hi E. pose proof (pi_len _ I). pose proof (pi_start _ I).
    rewrite E1, zget_zset_ne by (lia || (intros ->; rewrite E2 in E; discriminate E)). done. }
  destruct (pmm_alloc_run _ _) as [p f]. by destruct (p =? 0).
Qed.

Lemma require_keeps f v : keeps_used v (f v).2 -> keeps_used v (require f v).2.
Proof. unfold require. by destruct (f v) as [p v'], (p =? 0). Qed.

Lemma mbind_keeps {A B} (m : M (vmm pmm) A) (k : A -> M (vmm pmm) B) v :
  keeps_used v (m v).2 -> (forall a v, keeps_used v (k a v).2) -> keeps_used v (mbind m k v).2.
Proof.
  intros Hm Hk. unfold mbind. destruct (m v) as [[a|] v']; [|done]. by eapply keeps_used_trans.
Qed.

Lemma vmm_map_into_keeps root phys virt flags v : keeps_used v (vmm_map_into root phys virt flags v).2.
Proof.
  unfold vmm_map_into. destruct (root =? 0); [by apply keeps_used_refl|]. unfold map_at.
  do 3 (apply mbind_keeps; [by apply require_keeps, alloc_table_keeps|intros ??]). by apply keeps_used_refl.
Qed.

Lemma map_pages_keeps n : forall i root virt pages v v', map_pages n i root virt pages v = (true, v') -> keeps_used v v'.
Proof.
  induction n as [|n IH]; intros i root virt pages v v' E; cbn [map_pages] in E; [injection E as <-; by apply keeps_used_refl|].
  pose proof (vmm_map_into_keeps root pages.[i] (u64 (virt + u64 (i * SHM_PAGE_SIZE))) (Z.lor (Z.lor VMM_WRITE VMM_USER) VMM_NX) v) as K.
  destruct (vmm_map_into _ _ _ _ v) as [[u|] v1]; [|discriminate]. eapply keeps_used_trans; [exact K|]. by eapply IH.
Qed.

(** The map count wraps.  [map_count] is eight bits wide.  When a region is
    mapped for the 256th time the count becomes 0, so the owner's [shm_destroy]
    succeeds: the frames are marked free while the page tables of every process
    that mapped the region still point to them. *)
Theorem shm_map_count_wraps (w : world) id pid_ k js virt w1 :
  shm_wf w -> shm_get id w = k -> k <> NULL -> region_frames w k js -> sr_map_count (g_regions w).[k] = 255 ->
  shm_map id pid_ w = (virt, w1) -> virt <> 0 ->
  sr_map_count (g_regions w1).[k] = 0 /\
  exists w2, shm_destroy id (sr_owner_pid (g_regions w).[k]) w1 = (0, w2) /\
    vm_mem (sh_vm w2) = vm_mem (sh_vm w1) /\ forall j, j ∈ js -> (g_frames (frames_of w2)).[j] = RED_FREE.
Proof.
  intros Hw Hg Hk (Hc & N & Hp & R) Hm E Hv. pose proof Hw as [I Hl Ha].
  assert (Kr : 0 <= k < SHM_MAX_REGIONS /\ (id =? 0) = false /\
    (fun r => sr_valid r && (sr_id r =? id)) (g_regions w).[k] = true /\
    forall j, 0 <= j < k -> (fun r => sr_valid r && (sr_id r =? id)) (g_regions w).[j] = false).
  { unfold shm_get in Hg. destruct (id =? 0); [by subst|].
    destruct (find_region_spec (fun r => sr_valid r && (sr_id r =? id)) (g_regions w) 0 ltac:(lia))
      as [[X _]|(x & Hx & X & A & B)]; rewrite X in Hg; [by subst|]. rewrite Z.add_0_l in Hg. subst x. rewrite Hl in Hx. done. }
  destruct Kr as (Kr & Hid & Fk & Fj). unfold shm_map in E. rewrite Hg in E. destruct (Z.eqb_spec k NULL); [done|].
  destruct (_ =? NULL); [by injection E as <- _|]. destruct (_ <=? _); [by injection E as <- _|].
  destruct (_ <? _); [by injection E as <- _|]. destruct (map_pages _ _ _ _ _ _) as [ok v] eqn:Em.
  destruct ok; [|by injection E as <- _]. cbn [negb] in E. rewrite Hm in E. change (u8 (255 + 1)) with 0 in E.
  destruct (map_pages_keeps _ _ _ _ _ _ _ Em I) as (I1 & G1 & F1). injection E as _ <-. set (w1 := mk_shm _ _ _ _).
  assert (Rk : (g_regions w1).[k] = set_map_count 0 (g_regions w).[k]) by (unfold w1; cbn [g_regions]; by rewrite zget_zset_eq by lia).
  rewrite Rk. split; [done|].
  assert (Hw1 : shm_wf w1).
  { constructor; [exact I1|unfold w1; cbn; by rewrite zlen_zset|]. intros i Hi.
    destruct (decide (i = k)) as [->|]; [rewrite Rk; cbn; by apply Ha|].
    unfold w1. cbn [g_regions]. rewrite zget_zset_ne by lia. by apply Ha. }
  assert (Gk : shm_get id w1 = k).
  { unfold shm_get. rewrite Hid.
    destruct (find_region_spec (fun r => sr_valid r && (sr_id r =? id)) (g_regions w1) 0 ltac:(lia)) as [[_ X]|(x & Hx & X & A & B)].
    - specialize (X k). rewrite Rk in X. cbn [set_map_count sr_valid sr_id] in X. rewrite Fk in X. pose proof (sw_len _ Hw1).
      by specialize (X ltac:(lia)).
    - rewrite X, Z.add_0_l. rewrite (sw_len _ Hw1) in Hx. destruct (Z.lt_trichotomy x k) as [Hlt|[->|Hgt]]; [|done|].
      + unfold w1 in A. cbn [g_regions] in A. rewrite zget_zset_ne, Fj in A by lia. done.
      + specialize (B k ltac:(lia)). rewrite Rk in B. cbn [set_map_count sr_valid sr_id] in B. by rewrite Fk in B. }
  pose proof G1 as (g1 & g2 & g3). pose proof (pi_start _ I) as Hst.
  assert (Rf : region_frames w1 k js).
  { unfold region_frames. rewrite Rk. cbn [set_map_count sr_page_count sr_phys_pages]. split; [done|]. split; [done|]. split.
    - intros x Hx. rewrite Hp by done. symmetry. by apply (idx_to_phys_geom (frames_of w)).
    - intros j Hj. destruct (R j Hj) as [Hj1 Hj2]. change (frames_of w1) with (vm_frames v). unfold frames_of in *.
      split; [lia|]. apply F1; [lia|done]. }
  destruct (shm_destroy_frees w1 id k js Hw1 Gk ltac:(done) Rf ltac:(by rewrite Rk)) as (w2 & D & (K & _) & _ & _ & _ & F2 & _).
  rewrite Rk in D. exists w2. split; [exact D|]. split; [exact K|]. intros j Hj. destruct (R j Hj) as [Hj1 _].
  rewrite F2 by (change (frames_of w1) with (vm_frames v); unfold frames_of in *; lia). by rewrite decide_True.
Qed.

End Properties.

(** ** Witnesses *)

#[local] Instance no_files : FdTable unit := {| vfs_close_all_for_pid _ v := v |}.

Definition region0 : shm_region := mk_region 0 0 0 0 (replicate 256 0) 0 false.

(** Slot 0 holds a process with an empty address space. *)
Definition sys_user : ksys heap unit :=
  upd 0 (fun p => set_mmap_top 0x700000000000 (mk_proc (pid p) (parent_pid p) PROC_RUNNING (intent p) (context p) 0x100000
    (kernel_stack p) (kernel_stack_top p) (caps p) (cap_count p) (ticks_used p) (exit_code p) (mmap_top p) (blocked_on_pid p)
    (wake_tick p) (sched_link p) (ipc p) (inbox p) (fs_base p) (fpu_state p) (fpu_stash p) (pending_signals p) (uid p) (gid p))) sys0.

Definition shm0 : shm_world heap unit := mk_shm (replicate (Z.to_nat SHM_MAX_REGIONS) region0) 1 boot_vmm sys_user.

Lemma shm0_wf : shm_wf shm0.
Proof.
  constructor; [apply pmm_init_inv; unfold PAGE_SIZE; lia|done|].
  intros k Hk. unfold shm0. cbn [g_regions]. rewrite zget_replicate by lia. done.
Qed.

Lemma shm_create_all_or_nothing_witness :
  let '(id, w') := shm_create 7 5000 shm0 in id = 1 /\ keeps_memory shm0 w' /\ shm_wf shm0.
Proof.
  pose proof (shm_create_all_or_nothing 7 5000 shm0 shm0_wf ltac:(lia)) as C. cbn zeta in C.
  assert (E : (shm_create 7 5000 shm0).1 = 1) by (vm_compute; reflexivity).
  destruct (shm_create 7 5000 shm0) as [id w']. exact (conj E (conj (proj1 C) shm0_wf)).
Defined.

Lemma shm_create_destroy_roundtrip_witness :
  let '(id, w') := shm_create 7 5000 shm0 in
  id <> 0 /\ exists w'', shm_destroy id 7 w' = (0, w'') /\ g_frames (frames_of w'') = g_frames (frames_of shm0).
Proof.
  assert (U : forall i, 0 <= i < SHM_MAX_REGIONS -> sr_valid (g_regions shm0).[i] = true -> sr_id (g_regions shm0).[i] <> g_next_id shm0).
  { intros i Hi. unfold shm0. cbn [g_regions]. rewrite zget_replicate by lia. discriminate. }
  destruct (shm_create_destroy_roundtrip 7 8 5000 shm0 shm0_wf ltac:(lia) ltac:(cbn; lia) U) as [_ C].
  assert (E : (shm_create 7 5000 shm0).1 = 1) by (vm_compute; reflexivity).
  destruct (shm_create 7 5000 shm0) as [id w']. cbn [fst] in E. assert (N : id <> 0) by (rewrite E; lia).
  destruct (C N) as (_ & w'' & D & _ & F & _). exact (conj N (ex_intro _ w'' (conj D F))).
Defined.

(** A region of one page that has been mapped 255 times. *)
Definition shm255 : shm_world heap unit :=
  mk_shm (replicate (Z.to_nat SHM_MAX_REGIONS) region0).[0 <- mk_region 1 7 4096 1 (replicate 256 0).[0 <- (pmm_alloc_run ZONE_RED (vm_frames boot_vmm)).1] 255 true]
         2 (with_frames boot_vmm (pmm_alloc_run ZONE_RED (vm_frames boot_vmm)).2) sys_user.

Lemma boot_red : exists j, pmm_alloc_run ZONE_RED (vm_frames boot_vmm) = take_frame (vm_frames boot_vmm) ZONE_RED j /\
  g_alloc_start (vm_frames boot_vmm) <= j < g_frame_count (vm_frames boot_vmm) /\
  allocatable ZONE_RED (g_frames (vm_frames boot_vmm)).[j] = true /\ pmm_inv (vm_frames boot_vmm).
Proof.
  assert (I : pmm_inv (vm_frames boot_vmm)) by (apply pmm_init_inv; unfold PAGE_SIZE; lia).
  destruct (pmm_alloc_run_cases ZONE_RED (vm_frames boot_vmm) I) as [E|(j & _ & Hj & Ha & E)]; [|by exists j].
  assert (X : (pmm_alloc_run ZONE_RED (vm_frames boot_vmm)).1 <> 0) by (vm_compute; discriminate). by rewrite E in X.
Qed.

Lemma shm_map_count_wraps_witness :
  exists virt w1 w2, shm_map 1 0 shm255 = (virt, w1) /\ virt <> 0 /\ shm_destroy 1 7 w1 = (0, w2).
Proof.
  destruct boot_red as (j & E & Hj & Ha & I). destruct (take_frame_eq _ _ j I Hj Ha) as [F1 F2].
  assert (Hw : shm_wf shm255).
  { constructor; [change (pmm_inv (pmm_alloc_run ZONE_RED (vm_frames boot_vmm)).2); rewrite E; by apply take_frame_inv|done|].
    intros k Hk. unfold shm255, SHM_MAX_REGIONS in *. cbn [g_regions].
    destruct (decide (k = 0)) as [->|]; [rewrite zget_zset_eq by (unfold zlen; rewrite length_replicate; lia); by cbn; rewrite zlen_zset|].
    rewrite zget_zset_ne by (unfold zlen; rewrite ?length_replicate; lia). rewrite zget_replicate by lia. done. }
  assert (Hr : region_frames shm255 0 [j]).
  { split; [reflexivity|]. split; [apply NoDup_singleton|]. split.
    - intros k Hk. change (zlen [j]) with 1 in Hk. replace k with 0 by lia.
      change (sr_phys_pages (g_regions shm255).[0]).[0] with (pmm_alloc_run ZONE_RED (vm_frames boot_vmm)).1.
      change (frames_of shm255) with (pmm_alloc_run ZONE_RED (vm_frames boot_vmm)).2. rewrite E. reflexivity.
    - intros i Hi. apply list_elem_of_singleton in Hi. subst i.
      change (frames_of shm255) with (pmm_alloc_run ZONE_RED (vm_frames boot_vmm)).2. rewrite E. split; [exact Hj|].
      rewrite F1, zget_zset_eq; [done|]. pose proof (pi_len _ I). pose proof (pi_start _ I). lia. }
  assert (Hv : (shm_map 1 0 shm255).1 <> 0) by (vm_compute; discriminate).
  destruct (shm_map 1 0 shm255) as [virt w1] eqn:Em. cbn [fst] in Hv. exists virt, w1.
  destruct (shm_map_count_wraps shm255 1 0 0 [j] virt w1 Hw eq_refl ltac:(discriminate) Hr eq_refl Em Hv) as (_ & w2 & D & _).
  exists w2. exact (conj eq_refl (conj Hv D)).
Defined.
