(* ===== verification/Net.v ===== *)
(** * Packet buffers and the Internet checksum (kernel/net/net.c, net.h)

    A packet buffer is 1536 bytes of storage with a window [data, data+len).
    Headers are prepended by moving the window down into the 256 bytes of
    headroom and consumed by moving it up.  A buffer is held by one owner at a
    time, so it is passed by value; the pool keeps which of the 64 slots are
    taken.  The pool lock only saves and restores the interrupt flag
    (spin_lock_irqsave, spin_unlock_irqrestore), so the pool operations are
    atomic. *)

From S2P Require Import Prelude.

(** ** Byte order *)

Definition htons (x : Z) : Z := u16 (Z.lor (Z.shiftr x 8) (Z.shiftl x 8)).
Definition ntohs (x : Z) : Z := htons x.

Definition htonl (x : Z) : Z :=
  Z.lor (Z.lor (Z.lor (Z.shiftr (Z.land x 0xFF000000) 24) (Z.shiftr (Z.land x 0x00FF0000) 8))
               (Z.shiftl (Z.land x 0x0000FF00) 8)) (Z.shiftl (Z.land x 0x000000FF) 24).
Definition ntohl (x : Z) : Z := htonl x.

Definition MAC_LEN : Z := 6.
Definition IP4 (a b c d : Z) : Z := Z.lor (Z.lor (Z.lor (Z.shiftl a 24) (Z.shiftl b 16)) (Z.shiftl c 8)) d.
Definition IP4_BROADCAST : Z := 0xFFFFFFFF.

(** [mac_eq]: equality of all six bytes. *)
Fixpoint mac_eq (a b : list Z) : bool :=
  match a, b with
  | x :: a, y :: b => if negb (x =? y) then false else mac_eq a b
  | _, _ => true
  end.

Definition mac_is_broadcast (m : list Z) : bool := forallb (fun x => x =? 0xFF) m.

(** ** Packet buffers *)

Definition NETBUF_CAP : Z := 1536.
Definition NETBUF_HEADROOM : Z := 256.
Definition NETBUF_POOL_SIZE : Z := 64.

Record netbuf := mk_nb { nb_storage : list Z; nb_data : Z; nb_len : Z }.

(** [g_pool_used]. *)
Definition netpool : Type := list bool.

Fixpoint first_unused (l : netpool) (i : Z) : Z :=
  match l with
  | [] => -1
  | u :: l => if u then first_unused l (i + 1) else i
  end.

(** The buffer a slot holds after [memset] and the three assignments. *)
Definition netbuf_fresh : netbuf := mk_nb (replicate (Z.to_nat NETBUF_CAP) 0) NETBUF_HEADROOM 0.

(** The slot, -1 for NULL; the buffer itself is [netbuf_fresh]. *)
Definition netbuf_alloc (p : netpool) : Z * netpool :=
  let i := first_unused p 0 in
  if i <? 0 then (-1, p) else (i, p.[i <- true]).

Definition netbuf_free (idx : Z) (p : netpool) : netpool :=
  if (idx <? 0) || (NETBUF_POOL_SIZE <=? idx) then p else p.[idx <- false].

(** [None] is NULL. *)
Definition netbuf_push (b : netbuf) (bytes : Z) : option netbuf :=
  if nb_data b <? bytes then None
  else Some (mk_nb (nb_storage b) (nb_data b - bytes) (u16 (nb_len b + bytes))).

Definition netbuf_pull (b : netbuf) (bytes : Z) : option netbuf :=
  if nb_len b <? bytes then None
  else Some (mk_nb (nb_storage b) (nb_data b + bytes) (u16 (nb_len b - bytes))).

(** Fields of a header at [buf->data], stored little-endian. *)
Definition nb_get (n : nat) (b : netbuf) (off : Z) : Z := le_at n (nb_storage b) (nb_data b + off).
Definition nb_put (b : netbuf) (off : Z) (bytes : list Z) : netbuf :=
  mk_nb (memcpy (nb_storage b) (nb_data b + off) bytes) (nb_data b) (nb_len b).

(** [n] bytes from [buf->data + off]. *)
Definition nb_bytes (b : netbuf) (off n : Z) : list Z :=
  take (Z.to_nat n) (drop (Z.to_nat (nb_data b + off)) (nb_storage b)).

Definition set_len (b : netbuf) (n : Z) : netbuf := mk_nb (nb_storage b) (nb_data b) n.

(** ** Interfaces *)

Definition ETHERTYPE_IP4 : Z := 0x0800.
Definition ETHERTYPE_ARP : Z := 0x0806.
Definition ETH_HDR_LEN : Z := 14.
Definition MAX_NETIFS : Z := 4.

Record netif := mk_netif { if_mac : list Z; if_ip : Z; if_mask : Z; if_gw : Z; if_up : bool }.

(** The registered interfaces, in order; [g_netif_count] is the length. *)
Definition netif_register (iface : netif) (l : list netif) : list netif :=
  if MAX_NETIFS <=? zlen l then l else l ++ [iface].

Fixpoint netif_default (l : list netif) : option netif :=
  match l with
  | [] => None
  | i :: l => if if_up i then Some i else netif_default l
  end.

(** ** Internet checksum *)

(** The [while (len > 1)] loop and the odd byte. *)
Fixpoint cksum_words (l : list Z) (sum : Z) : Z :=
  match l with
  | a :: b :: l' => cksum_words l' (u32 (sum + u16 (Z.lor (Z.shiftl a 8) b)))
  | [a] => u32 (sum + Z.shiftl a 8)
  | [] => sum
  end.

(** [while (sum >> 16) sum = (sum & 0xFFFF) + (sum >> 16)]. *)
Fixpoint fold_carry (fuel : nat) (sum : Z) : option Z :=
  if Z.shiftr sum 16 =? 0 then Some sum else
  match fuel with
  | O => None
  | S fuel' => fold_carry fuel' (u32 (Z.land sum 0xFFFF + Z.shiftr sum 16))
  end.

(** Two rounds of the loop suffice for 32 bits. *)
Definition CARRY_FUEL : nat := 2.

Definition cksum_finish (sum : Z) : Z := u16 (not32 (default 0 (fold_carry CARRY_FUEL sum))).

(** [l] is the [len] bytes at [data]. *)
Definition inet_cksum (l : list Z) : Z := cksum_finish (cksum_words l 0).

Definition inet_cksum_pseudo (src dst proto seg_len : Z) (l : list Z) : Z :=
  let sum := 0 in
  let sum := u32 (sum + Z.land (Z.shiftr src 16) 0xFFFF) in
  let sum := u32 (sum + Z.land src 0xFFFF) in
  let sum := u32 (sum + Z.land (Z.shiftr dst 16) 0xFFFF) in
  let sum := u32 (sum + Z.land dst 0xFFFF) in
  let sum := u32 (sum + proto) in
  let sum := u32 (sum + seg_len) in
  cksum_finish (cksum_words l sum).

(** ** RFC 1071 *)

(** The sum of the big-endian 16-bit words, a last odd byte padded with zero. *)
Fixpoint wsum (l : list Z) : Z :=
  match l with
  | a :: b :: l' => 256 * a + b + wsum l'
  | [a] => 256 * a
  | [] => 0
  end.

(** One's complement reduction to 16 bits. *)
Definition ones (s : Z) : Z := if s =? 0 then 0 else (s - 1) mod 65535 + 1.

Lemma pair_ind (P : list Z -> Prop) :
  P [] -> (forall a, P [a]) -> (forall a b l, P l -> P (a :: b :: l)) -> forall l, P l.
Proof.
  intros H0 H1 H2 l. enough (P l /\ forall a, P (a :: l)) by tauto.
  induction l as [|b l [IH1 IH2]]; [auto|]. split; [auto|]. intros a. by apply H2.
Qed.

Lemma wsum_range l : Forall byte l -> 0 <= wsum l <= 32768 * (zlen l + 1).
Proof.
  induction l as [|a|a b l IH] using pair_ind; intros Hl.
  - done.
  - inversion_clear Hl as [|? ? A _]. unfold byte in A. unfold zlen. cbn. lia.
  - inversion_clear Hl as [|? ? A Hl']. inversion_clear Hl' as [|? ? B Hl]. specialize (IH Hl). unfold byte, zlen in *.
    cbn [wsum length]. lia.
Qed.

Lemma be_word a b : byte a -> byte b -> Z.lor (Z.shiftl a 8) b = 256 * a + b.
Proof.
  unfold byte. intros Ha Hb. rewrite Z.lor_comm, shiftl_mul, lor_add_disjoint by lia. lia.
Qed.

Lemma cksum_words_sum l : Forall byte l -> forall s, 0 <= s -> s + wsum l < 2 ^ 32 -> cksum_words l s = s + wsum l.
Proof.
  intros Hl. induction l as [|a|a b l IH] using pair_ind; intros s Hs Hb; cbn [cksum_words wsum] in *.
  - lia.
  - inversion_clear Hl as [|? ? A _]. unfold byte in A. rewrite shiftl_mul by lia. rewrite u32_small; lia.
  - inversion_clear Hl as [|? ? A Hl']. inversion_clear Hl' as [|? ? B Hl0]. pose proof (wsum_range l Hl0).
    rewrite be_word by done. unfold byte in *. rewrite (u16_small (256 * a + b)) by lia. rewrite u32_small by lia.
    rewrite IH; [lia|done|lia|lia].
Qed.

Lemma ones_range s : 0 <= s -> 0 <= ones s < 2 ^ 16.
Proof. unfold ones. intros Hs. destruct (Z.eqb_spec s 0); [lia|]. Z.div_mod_to_equations. lia. Qed.

(** The carry loop ends within two rounds and computes the reduction. *)
Lemma fold_carry_ones s (fuel : nat) : 0 <= s < 2 ^ 32 -> (CARRY_FUEL <= fuel)%nat -> fold_carry fuel s = Some (ones s).
Proof.
  assert (Step : forall s, 0 <= s < 2 ^ 32 -> u32 (Z.land s 0xFFFF + Z.shiftr s 16) = s mod 65536 + s / 65536).
  { intros x Hx. change 0xFFFF with (2 ^ 16 - 1). rewrite land_low, shiftr_div by lia. change (2 ^ 16) with 65536.
    apply u32_small. Z.div_mod_to_equations. lia. }
  assert (Done : forall x n, 0 <= x < 65536 -> fold_carry n x = Some x).
  { intros x n Hx. assert (E : (Z.shiftr x 16 =? 0) = true) by (rewrite shiftr_div by lia; apply Z.eqb_eq, Z.div_small; lia).
    destruct n; cbn [fold_carry]; by rewrite E. }
  assert (O1 : forall x, 0 <= x < 65536 -> ones x = x).
  { intros x Hx. unfold ones. destruct (Z.eqb_spec x 0); [done|]. rewrite Z.mod_small by lia. lia. }
  assert (On : forall x, 65536 <= x -> ones (x mod 65536 + x / 65536) = ones x).
  { intros x Hx. unfold ones. destruct (Z.eqb_spec (x mod 65536 + x / 65536) 0), (Z.eqb_spec x 0);
      Z.div_mod_to_equations; lia. }
  assert (One : forall x n, 65536 <= x < 2 ^ 32 -> fold_carry (S n) x = fold_carry n (x mod 65536 + x / 65536)).
  { intros x n Hx. cbn [fold_carry]. rewrite Step by lia. rewrite shiftr_div by lia. change (2 ^ 16) with 65536.
    destruct (Z.eqb_spec (x / 65536) 0); [Z.div_mod_to_equations; lia|done]. }
  intros Hs Hf. unfold CARRY_FUEL in Hf. destruct (decide (s < 65536)); [rewrite Done, O1 by lia; done|].
  destruct fuel as [|[|m]]; [lia|lia|]. rewrite One by lia. rewrite <- (On s) by lia.
  set (x := s mod 65536 + s / 65536). assert (Hx : 0 <= x <= 131070) by (unfold x; Z.div_mod_to_equations; lia). clearbody x.
  destruct (decide (x < 65536)); [rewrite Done, O1 by lia; done|].
  rewrite One by lia. rewrite <- (On x) by lia. rewrite Done, O1 by (Z.div_mod_to_equations; lia). done.
Qed.

Lemma cksum_finish_ones s : 0 <= s < 2 ^ 32 -> cksum_finish s = 65535 - ones s.
Proof.
  intros Hs. unfold cksum_finish. rewrite fold_carry_ones by (done || lia). cbn [default from_option]. unfold id.
  pose proof (ones_range s ltac:(lia)). unfold not32, u16.
  replace (2 ^ 32 - 1 - ones s) with (65535 - ones s + 65535 * 2 ^ 16) by lia. rewrite Z_mod_plus_full, Z.mod_small by lia. done.
Qed.

Lemma inet_cksum_ones l : Forall byte l -> zlen l < 2 ^ 16 -> inet_cksum l = 65535 - ones (wsum l).
Proof.
  intros Hl Hn. pose proof (wsum_range l Hl). unfold inet_cksum. rewrite cksum_words_sum by (done || lia).
  rewrite Z.add_0_l. apply cksum_finish_ones. lia.
Qed.

Lemma wsum_app l1 l2 : Nat.Even (length l1) -> wsum (l1 ++ l2) = wsum l1 + wsum l2.
Proof.
  induction l1 as [|a|a b l1 IH] using pair_ind; intros He.
  - done.
  - destruct He as [k Hk]. cbn in Hk. lia.
  - cbn [app wsum]. rewrite IH; [lia|]. destruct He as [k Hk]. exists (k - 1)%nat. cbn in Hk. lia.
Qed.

(** Writing a two-byte field at an even offset. *)
Lemma wsum_put l off a b :
  0 <= off -> off mod 2 = 0 -> off + 2 <= zlen l -> l.[off] = 0 -> l.[off + 1] = 0 ->
  wsum (memcpy l off [a; b]) = wsum l + 256 * a + b.
Proof.
  intros H0 He Hl E0 E1. unfold zlen in *.
  assert (Ev : Nat.Even (length (take (Z.to_nat off) l))).
  { rewrite length_take. exists (Z.to_nat (off / 2)). Z.div_mod_to_equations; lia. }
  assert (D : drop (Z.to_nat off) l = 0 :: 0 :: drop (Z.to_nat off + 2) l).
  { rewrite (drop_S _ _ _ (zget_lookup l off ltac:(unfold zlen; lia))), E0. f_equal.
    replace (S (Z.to_nat off)) with (Z.to_nat (off + 1)) by lia.
    rewrite (drop_S _ _ _ (zget_lookup l (off + 1) ltac:(unfold zlen; lia))), E1. do 2 f_equal. lia. }
  unfold memcpy. rewrite wsum_app by done. cbn [app wsum].
  replace (Z.to_nat off + length [a; b])%nat with (Z.to_nat off + 2)%nat by done.
  rewrite <- (take_drop (Z.to_nat off) l) at 3. rewrite wsum_app by done. rewrite D. cbn [wsum]. lia.
Qed.

Lemma be_bytes_2 c : 0 <= c < 65536 -> be_bytes 2 c = [c / 256; c mod 256].
Proof. intros Hc. unfold be_bytes. cbn [le_bytes rev app]. rewrite (Z.mod_small (c / 256)) by (Z.div_mod_to_equations; lia). done. Qed.

Lemma be_bytes_4 c : 0 <= c < 2 ^ 32 ->
  be_bytes 4 c = [c / 16777216; c / 65536 mod 256; c / 256 mod 256; c mod 256].
Proof.
  intros Hc. unfold be_bytes. cbn [le_bytes rev app]. rewrite !Z.div_div by lia.
  change (256 * (256 * 256)) with 16777216. change (256 * 256 * 256) with 16777216. change (256 * 256) with 65536.
  rewrite (Z.mod_small (c / 16777216)) by (Z.div_mod_to_equations; lia). done.
Qed.

(** The pseudo header of RFC 768 and RFC 793. *)
Definition pseudo_header (src dst proto seg_len : Z) : list Z :=
  be_bytes 4 src ++ be_bytes 4 dst ++ [0; proto] ++ be_bytes 2 seg_len.

Lemma pseudo_header_sum src dst proto seg_len :
  0 <= src < 2 ^ 32 -> 0 <= dst < 2 ^ 32 -> 0 <= proto < 256 -> 0 <= seg_len < 65536 ->
  wsum (pseudo_header src dst proto seg_len) =
  src / 65536 + src mod 65536 + dst / 65536 + dst mod 65536 + proto + seg_len.
Proof.
  intros Hs Hd Hp Hl. unfold pseudo_header. rewrite !be_bytes_4, be_bytes_2 by done. cbn [app wsum].
  Z.div_mod_to_equations. lia.
Qed.

Lemma inet_cksum_pseudo_ones src dst proto seg_len l :
  0 <= src < 2 ^ 32 -> 0 <= dst < 2 ^ 32 -> 0 <= proto < 256 -> 0 <= seg_len < 65536 ->
  Forall byte l -> zlen l < 2 ^ 16 ->
  inet_cksum_pseudo src dst proto seg_len l = 65535 - ones (wsum (pseudo_header src dst proto seg_len ++ l)).
Proof.
  intros Hs Hd Hp Hg Hl Hn. pose proof (wsum_range l Hl). unfold inet_cksum_pseudo.
  change 0xFFFF with (2 ^ 16 - 1). rewrite !land_low, !shiftr_div by lia. change (2 ^ 16) with 65536.
  rewrite (Z.mod_small (src / 65536)), (Z.mod_small (dst / 65536)) by (Z.div_mod_to_equations; lia).
  assert (0 <= src / 65536 < 65536 /\ 0 <= src mod 65536 < 65536 /\ 0 <= dst / 65536 < 65536 /\ 0 <= dst mod 65536 < 65536)
    by (Z.div_mod_to_equations; lia).
  rewrite wsum_app, pseudo_header_sum by
    (done || (unfold pseudo_header; rewrite !length_app; unfold be_bytes; rewrite !length_rev, !length_le_bytes; by exists 6%nat)).
  unfold u32 at 1 2 3 4 5 6. rewrite !Zplus_mod_idemp_l, Z.add_0_l.
  rewrite (Z.mod_small (src / 65536 + src mod 65536)) by lia. rewrite (Z.mod_small (_ + dst / 65536 + _)) by lia.
  rewrite (Z.mod_small (_ + proto + _)) by lia.
  rewrite cksum_words_sum by (done || lia). rewrite cksum_finish_ones by lia.
  do 2 f_equal; lia.
Qed.

(** A sum that verifies. *)
Lemma ones_verify s c : 0 <= s -> 0 <= c -> 0 < s + c -> ones (s + c) = 65535 <-> (s + c) mod 65535 = 0.
Proof. intros Hs Hc Hp. unfold ones. destruct (Z.eqb_spec (s + c) 0); [lia|]. Z.div_mod_to_equations. lia. Qed.

Lemma ones_mod s : 0 <= s -> (s - ones s) mod 65535 = 0 /\ 0 <= s - ones s.
Proof. intros Hs. unfold ones. destruct (Z.eqb_spec s 0) as [->|]; [done|]. Z.div_mod_to_equations. lia. Qed.

Lemma Forall_be_bytes n x : Forall byte (be_bytes n x).
Proof. unfold be_bytes. apply Forall_rev. apply le_bytes_byte. Qed.

(** C18: the Internet checksum.  [inet_cksum] over any bytes, up to 65535, is the
    RFC 1071 checksum: the complement of the one's-complement sum of the big-endian
    words, and the carry loop ends within two rounds.  [inet_cksum_pseudo] is the same checksum over the pseudo header followed
    by the segment.  Stored in network order in a zeroed field at an even offset, the
    checksum of a message makes the checksum of the whole message 0. *)
Theorem inet_cksum_correct l :
  Forall byte l -> zlen l < 2 ^ 16 ->
  inet_cksum l = 65535 - ones (wsum l) /\
  (forall fuel, (CARRY_FUEL <= fuel)%nat -> fold_carry fuel (cksum_words l 0) = Some (ones (wsum l))) /\
  (forall src dst proto seg_len, 0 <= src < 2 ^ 32 -> 0 <= dst < 2 ^ 32 -> 0 <= proto < 256 -> 0 <= seg_len < 65536 ->
     inet_cksum_pseudo src dst proto seg_len l = 65535 - ones (wsum (pseudo_header src dst proto seg_len ++ l))) /\
  (forall off, 0 <= off -> off mod 2 = 0 -> off + 2 <= zlen l -> l.[off] = 0 -> l.[off + 1] = 0 ->
     inet_cksum (memcpy l off (be_bytes 2 (inet_cksum l))) = 0).
Proof.
  intros Hl Hn. pose proof (wsum_range l Hl) as Hw. split; [by apply inet_cksum_ones|].
  pose proof (ones_range (wsum l) ltac:(lia)) as Ho. destruct (ones_mod (wsum l) ltac:(lia)) as [Hm Hm'].
  split; [|split; [intros; by apply inet_cksum_pseudo_ones|]].
  - intros fuel Hf. rewrite cksum_words_sum by (done || lia). rewrite Z.add_0_l. apply fold_carry_ones; [lia|done].
  - intros off H0 He Hb E0 E1. rewrite (inet_cksum_ones l) by done. set (c := 65535 - ones (wsum l)). assert (Hc : 0 <= c < 65536) by lia.
    assert (Lb : zlen (be_bytes 2 c) = 2) by apply zlen_be_bytes.
    rewrite inet_cksum_ones; [|apply Forall_memcpy; [done|apply Forall_be_bytes]|rewrite zlen_memcpy by lia; done].
    rewrite be_bytes_2, wsum_put by done. pose proof (Z.div_mod c 256 ltac:(lia)).
    replace (wsum l + 256 * (c / 256) + c mod 256) with (wsum l + c) by lia.
    assert (ones (wsum l + c) = 65535) as ->; [|lia]. apply ones_verify; [lia|lia|lia|].
    replace (wsum l + c) with (wsum l - ones (wsum l) + 1 * 65535) by lia. by rewrite Z_mod_plus_full.
Qed.

Lemma inet_cksum_correct_witness :
  let l := [0x45; 0; 0; 20; 0; 0; 0x40; 0; 64; 17; 0; 0; 10; 0; 2; 15; 10; 0; 2; 2] in
  inet_cksum l = 0x22c9 /\ inet_cksum (memcpy l 10 (be_bytes 2 (inet_cksum l))) = 0.
Proof.
  cbn zeta. set (l := [0x45; 0; 0; 20; 0; 0; 0x40; 0; 64; 17; 0; 0; 10; 0; 2; 15; 10; 0; 2; 2]).
  assert (Hl : Forall byte l) by (repeat constructor; unfold byte; lia).
  split; [vm_compute; reflexivity|].
  apply (inet_cksum_correct l Hl ltac:(vm_compute; reflexivity)); try (vm_compute; reflexivity); try lia; unfold zlen; cbn; lia.
Defined.
