(* ===== verification/Arp.v ===== *)
(** * Address resolution (kernel/net/arp/arp.c)

    A cache of 16 entries with a time to live, refreshed by every ARP packet
    that arrives.  The network driver behind [iface->tx] is a parameter: frames
    handed to it are appended to a log (its result is not used here).
    tcp_flush_pending_synacks belongs to tcp.c and is a parameter too. *)

From S2P Require Import Prelude Net.

Definition ARP_HTYPE_ETH : Z := 1.
Definition ARP_PTYPE_IP4 : Z := 0x0800.
Definition ARP_OP_REQUEST : Z := 1.
Definition ARP_OP_REPLY : Z := 2.
Definition ARP_PKT_LEN : Z := 28.
Definition ARP_CACHE_SIZE : Z := 16.
Definition ARP_TTL_TICKS : Z := 3000.

Record arp_entry := mk_arp { ae_ip : Z; ae_mac : list Z; ae_ttl : Z; ae_valid : bool; ae_permanent : bool }.

Definition arp_zero : arp_entry := mk_arp 0 [0; 0; 0; 0; 0; 0] 0 false false.
#[export] Instance arp_entry_inhabited : Inhabited arp_entry := populate arp_zero.

(** The state the link layer touches: buffer pool, ARP cache, frames sent, clock. *)
Record lnk := mk_lnk { l_pool : netpool; g_cache : list arp_entry; l_wire : list (list Z); l_uptime : Z }.

Definition with_pool (p : netpool) (s : lnk) : lnk := mk_lnk p (g_cache s) (l_wire s) (l_uptime s).
Definition with_cache (c : list arp_entry) (s : lnk) : lnk := mk_lnk (l_pool s) c (l_wire s) (l_uptime s).
Definition send_frame (f : list Z) (s : lnk) : lnk := mk_lnk (l_pool s) (g_cache s) (l_wire s ++ [f]) (l_uptime s).

Definition arp_init (s : lnk) : lnk := with_cache (replicate (Z.to_nat ARP_CACHE_SIZE) arp_zero) s.

(** ** Cache *)

(** The first entry that satisfies [f], -1 when there is none. *)
Definition find_entry (f : arp_entry -> bool) (l : list arp_entry) (i : Z) : Z := find_from f l i.

(** The second loop: the first invalid slot, else the smallest time to live. *)
Fixpoint pick_slot (l : list arp_entry) (i target oldest_ttl : Z) : Z :=
  match l with
  | [] => target
  | e :: l =>
      if negb (ae_valid e) then i else
      if ae_ttl e <? oldest_ttl then pick_slot l (i + 1) i (ae_ttl e) else pick_slot l (i + 1) target oldest_ttl
  end.

Definition arp_cache_update (ip : Z) (mac : list Z) (s : lnk) : lnk :=
  let c := g_cache s in
  let ttl := u32 (u64 (l_uptime s + ARP_TTL_TICKS)) in
  let i := find_entry (fun e => ae_valid e && (ae_ip e =? ip)) c 0 in
  if 0 <=? i then with_cache c.[i <- mk_arp (ae_ip c.[i]) mac ttl (ae_valid c.[i]) (ae_permanent c.[i])] s else
  let target := pick_slot c 0 0 0xFFFFFFFF in
  with_cache c.[target <- mk_arp ip mac ttl true (ae_permanent c.[target])] s.

Definition QEMU_GW : Z := IP4 10 0 2 2.

Definition arp_preload_qemu_gateway (s : lnk) : lnk :=
  let s := arp_cache_update QEMU_GW [0xde; 0x7c; 0x85; 0xe3; 0x74; 0x90] s in
  with_cache ((fun e => if ae_valid e && (ae_ip e =? QEMU_GW)
                        then mk_arp (ae_ip e) (ae_mac e) (ae_ttl e) (ae_valid e) true else e) <$> g_cache s) s.

(** ** Packets *)

Section Packets.
Context (flush : Z -> lnk -> lnk).

Definition put16 (b : netbuf) (off v : Z) : netbuf := nb_put b off (le_bytes 2 v).
Definition put32 (b : netbuf) (off v : Z) : netbuf := nb_put b off (le_bytes 4 v).

Definition BROADCAST_MAC : list Z := [0xFF; 0xFF; 0xFF; 0xFF; 0xFF; 0xFF].

(** The eleven assignments that fill an ARP packet in a fresh buffer. *)
Definition fill_arp (b : netbuf) (op : Z) (sha : list Z) (spa : Z) (tha : list Z) (tpa : Z) : netbuf :=
  let b := put16 b 0 (htons ARP_HTYPE_ETH) in
  let b := put16 b 2 (htons ARP_PTYPE_IP4) in
  let b := nb_put b 4 [6] in
  let b := nb_put b 5 [4] in
  let b := put16 b 6 (htons op) in
  let b := nb_put b 8 sha in
  let b := put32 b 14 spa in
  let b := nb_put b 18 tha in
  let b := put32 b 24 tpa in
  set_len b (u16 ARP_PKT_LEN).

(** Ethernet header: destination, source, type. *)
Definition push_eth (b : netbuf) (dst src : list Z) (type : Z) : option netbuf :=
  match netbuf_push b ETH_HDR_LEN with
  | None => None
  | Some b => Some (put16 (nb_put (nb_put b 0 dst) 6 src) 12 (htons type))
  end.

Definition frame_of (b : netbuf) : list Z := nb_bytes b 0 (nb_len b).

(** [None] is [false]: not resolved. *)
Definition arp_resolve (iface : netif) (ip : Z) (s : lnk) : option (list Z) * lnk :=
  if ip =? IP4_BROADCAST then (Some BROADCAST_MAC, s) else
  let i := find_entry (fun e => ae_valid e && (ae_ip e =? ip) && (ae_permanent e || (l_uptime s <? ae_ttl e))) (g_cache s) 0 in
  if 0 <=? i then (Some (ae_mac (g_cache s).[i]), s) else
  let '(idx, pool) := netbuf_alloc (l_pool s) in
  let s := with_pool pool s in
  if idx <? 0 then (None, s) else
  let b := fill_arp netbuf_fresh ARP_OP_REQUEST (if_mac iface) (htonl (if_ip iface)) [0; 0; 0; 0; 0; 0] (htonl ip) in
  match push_eth b BROADCAST_MAC (if_mac iface) ETHERTYPE_ARP with
  | None => (None, with_pool (netbuf_free idx (l_pool s)) s)
  | Some b =>
      let s := send_frame (frame_of b) s in
      (None, with_pool (netbuf_free idx (l_pool s)) s)
  end.

Definition arp_input (iface : netif) (buf : netbuf) (s : lnk) : lnk :=
  if nb_len buf <? ARP_PKT_LEN then s else
  if negb (ntohs (nb_get 2 buf 0) =? ARP_HTYPE_ETH) then s else
  if negb (ntohs (nb_get 2 buf 2) =? ARP_PTYPE_IP4) then s else
  let sender_ip := ntohl (nb_get 4 buf 14) in
  let sha := nb_bytes buf 8 6 in
  let s := arp_cache_update sender_ip sha s in
  let s := flush sender_ip s in
  if negb (ntohs (nb_get 2 buf 6) =? ARP_OP_REQUEST) then s else
  if negb (ntohl (nb_get 4 buf 24) =? if_ip iface) then s else
  let '(idx, pool) := netbuf_alloc (l_pool s) in
  let s := with_pool pool s in
  if idx <? 0 then s else
  let b := fill_arp netbuf_fresh ARP_OP_REPLY (if_mac iface) (htonl (if_ip iface)) sha (nb_get 4 buf 14) in
  match push_eth b sha (if_mac iface) ETHERTYPE_ARP with
  | None => with_pool (netbuf_free idx (l_pool s)) s
  | Some b =>
      let s := send_frame (frame_of b) s in
      with_pool (netbuf_free idx (l_pool s)) s
  end.

Definition arp_announce (iface : netif) (s : lnk) : lnk := snd (arp_resolve iface (if_ip iface) s).

End Packets.

(** ** Cache invariant *)

(** One valid entry per address. *)
Record arp_ok (c : list arp_entry) : Prop := {
  ao_len : zlen c = ARP_CACHE_SIZE;
  ao_uniq : forall i j, 0 <= i < ARP_CACHE_SIZE -> 0 <= j < ARP_CACHE_SIZE ->
    ae_valid c.[i] = true -> ae_valid c.[j] = true -> ae_ip c.[i] = ae_ip c.[j] -> i = j;
  ao_ttl : forall i, 0 <= i < ARP_CACHE_SIZE -> 0 <= ae_ttl c.[i] < 2 ^ 32
}.

Lemma find_entry_spec f l i :
  0 <= i ->
  (find_entry f l i = -1 /\ forall k, 0 <= k < zlen l -> f l.[k] = false) \/
  (exists k, 0 <= k < zlen l /\ find_entry f l i = i + k /\ f l.[k] = true).
Proof.
  intros Hi. destruct (find_from_spec f l i Hi) as [?|(k & ? & ? & ? & _)]; [by left|right; by exists k].
Qed.

(** [pick_slot] on the suffix [l] of [c] from [i] on. *)
Lemma pick_slot_spec c : forall l i target oldest,
  0 <= i -> drop (Z.to_nat i) c = l -> i <= zlen c ->
  (forall j, 0 <= j < i -> ae_valid c.[j] = true /\ oldest <= ae_ttl c.[j]) ->
  (forall j, 0 <= j < zlen c -> 0 <= ae_ttl c.[j] <= 0xFFFFFFFF) -> 0 <= oldest <= 0xFFFFFFFF ->
  (0 <= target < Z.max 1 i) -> (oldest = 0xFFFFFFFF \/ (target < i /\ ae_ttl c.[target] = oldest)) -> 0 < zlen c ->
  let k := pick_slot l i target oldest in
  0 <= k < zlen c /\
  (ae_valid c.[k] = false \/
   ((forall j, 0 <= j < zlen c -> ae_valid c.[j] = true) /\ forall j, 0 <= j < zlen c -> ae_ttl c.[k] <= ae_ttl c.[j])).
Proof.
  induction l as [|e l IH]; intros i target oldest Hi Hd Hl Hp Ht Ho Htg Hor Hn; cbn [pick_slot].
  - assert (E : i = zlen c).
    { assert (L : length (drop (Z.to_nat i) c) = 0%nat) by (by rewrite Hd). rewrite length_drop in L. unfold zlen in *. lia. }
    split; [lia|]. right. split; [intros j Hj; apply Hp; lia|]. intros j Hj. destruct (Hp j ltac:(lia)) as [_ B].
    destruct Hor as [->|[_ ->]]; [|done]. pose proof (Ht j Hj). pose proof (Ht target ltac:(lia)). lia.
  - assert (Hlt : i < zlen c).
    { assert (L : length (drop (Z.to_nat i) c) = S (length l)) by (by rewrite Hd). rewrite length_drop in L. unfold zlen in *. lia. }
    rewrite (drop_S _ _ _ (zget_lookup c i ltac:(lia))) in Hd. injection Hd as He Hd.
    replace (S (Z.to_nat i)) with (Z.to_nat (i + 1)) in Hd by lia. rewrite <- He. destruct (ae_valid c.[i]) eqn:Ev; cbn [negb].
    + pose proof (Ht i ltac:(lia)).
      destruct (Z.ltb_spec (ae_ttl c.[i]) oldest); apply IH; [lia|done|lia| |done|lia|lia| |done|lia|done|lia| |done|lia|lia| |done].
      * intros j Hj. destruct (decide (j = i)) as [->|]; [split; [done|lia]|]. destruct (Hp j ltac:(lia)). split; [done|lia].
      * right. split; [lia|done].
      * intros j Hj. destruct (decide (j = i)) as [->|]; [done|]. apply Hp. lia.
      * destruct Hor as [->|[A B]]; [by left|right; split; [lia|done]].
    + split; [lia|]. by left.
Qed.

(** The same link state at a later time. *)
Definition at_time (now : Z) (s : lnk) : lnk := mk_lnk (l_pool s) (g_cache s) (l_wire s) now.

Lemma arp_ok_set c k ip mac ttl perm :
  arp_ok c -> 0 <= k < ARP_CACHE_SIZE -> 0 <= ttl < 2 ^ 32 ->
  (forall j, 0 <= j < ARP_CACHE_SIZE -> j <> k -> ae_valid c.[j] = true -> ae_ip c.[j] <> ip) ->
  arp_ok c.[k <- mk_arp ip mac ttl true perm].
Proof.
  intros [Hl Hu Ht] Hk Htt Hn.
  assert (G : forall i, 0 <= i < ARP_CACHE_SIZE -> c.[k <- mk_arp ip mac ttl true perm].[i] =
              if decide (i = k) then mk_arp ip mac ttl true perm else c.[i]).
  { intros i Hi. destruct (decide (i = k)) as [->|]; [apply zget_zset_eq; lia|apply zget_zset_ne; lia]. }
  constructor; [by rewrite zlen_zset| |].
  - intros i j Hi Hj. rewrite !G by done. destruct (decide (i = k)) as [->|Hik], (decide (j = k)) as [->|Hjk]; cbn; [done| | |by apply Hu].
    + intros _ Hv E. symmetry in E. by destruct (Hn j Hj Hjk Hv).
    + intros Hv _ E. by destruct (Hn i Hi Hik Hv).
  - intros i Hi. rewrite G by done. destruct (decide (i = k)); [done|by apply Ht].
Qed.

(** Looking up the entry in slot [k]. *)
Lemma arp_resolve_hit iface ip mac s k e :
  arp_ok (g_cache s) -> 0 <= k < ARP_CACHE_SIZE -> (g_cache s).[k] = e -> ae_valid e = true -> ae_ip e = ip -> ae_mac e = mac ->
  ip <> IP4_BROADCAST -> ae_permanent e = true \/ l_uptime s < ae_ttl e -> arp_resolve iface ip s = (Some mac, s).
Proof.
  intros [Hl Hu _] Hk <- Hv Hip Hmac Hnb Hf. unfold arp_resolve. destruct (Z.eqb_spec ip IP4_BROADCAST); [done|].
  set (f := fun e => _). destruct (find_entry_spec f (g_cache s) 0 ltac:(lia)) as [[_ B]|(j & Hj & E & F)].
  - specialize (B k ltac:(lia)). unfold f in B. rewrite Hv, Hip, Z.eqb_refl in B. cbn [andb] in B.
    apply orb_false_iff in B as [B1 B2]. apply Z.ltb_ge in B2. destruct Hf; [congruence|lia].
  - rewrite E, Z.add_0_l. destruct (Z.leb_spec 0 j); [|lia]. do 3 f_equal.
    unfold f in F. apply andb_true_iff in F as [F _]. apply andb_true_iff in F as [F1 F2]. apply Z.eqb_eq in F2.
    assert (j = k) as -> by (apply Hu; [lia|done|done|done|congruence]). done.
Qed.

(** The ARP cache.  Updating the cache with [ip -> mac] keeps one valid
    entry per address and changes exactly one slot: the entry of [ip] if there
    is one, else an invalid slot, else (all sixteen valid) one with the smallest
    time to live.  From then on [arp_resolve] gives [mac] without sending
    anything for 3000 ticks.  The slot keeps its [permanent] flag, so when a
    permanent entry is the one replaced, the new address inherits the flag and
    resolves to [mac] at every later time. *)
Theorem arp_cache_update_resolve ip mac s :
  arp_ok (g_cache s) -> ip <> IP4_BROADCAST -> 0 <= l_uptime s -> l_uptime s + ARP_TTL_TICKS < 2 ^ 32 ->
  let s' := arp_cache_update ip mac s in
  let c := g_cache s in
  arp_ok (g_cache s') /\
  (forall iface now, l_uptime s <= now < l_uptime s + ARP_TTL_TICKS -> arp_resolve iface ip (at_time now s') = (Some mac, at_time now s')) /\
  exists k, 0 <= k < ARP_CACHE_SIZE /\
    s' = with_cache c.[k <- mk_arp ip mac (l_uptime s + ARP_TTL_TICKS) true (ae_permanent c.[k])] s /\
    ((ae_valid c.[k] = true /\ ae_ip c.[k] = ip) \/
     ((forall j, 0 <= j < ARP_CACHE_SIZE -> ae_valid c.[j] = true -> ae_ip c.[j] <> ip) /\
      (ae_valid c.[k] = false \/
       forall j, 0 <= j < ARP_CACHE_SIZE -> ae_valid c.[j] = true /\ ae_ttl c.[k] <= ae_ttl c.[j]))) /\
    (ae_permanent c.[k] = true -> forall iface now, arp_resolve iface ip (at_time now s') = (Some mac, at_time now s')).
Proof.
  intros Hok Hnb H0 H1 s' c. pose proof Hok as [Hl Hu Ht]. fold c in Hok, Hl, Hu, Ht.
  set (ttl := l_uptime s + ARP_TTL_TICKS).
  assert (Ettl : u32 (u64 (l_uptime s + ARP_TTL_TICKS)) = ttl) by (rewrite u64_small by (unfold ARP_TTL_TICKS in *; lia); apply u32_small; unfold ARP_TTL_TICKS in *; lia).
  assert (K : exists k, 0 <= k < ARP_CACHE_SIZE /\ s' = with_cache c.[k <- mk_arp ip mac ttl true (ae_permanent c.[k])] s /\
    ((ae_valid c.[k] = true /\ ae_ip c.[k] = ip) \/
     ((forall j, 0 <= j < ARP_CACHE_SIZE -> ae_valid c.[j] = true -> ae_ip c.[j] <> ip) /\
      (ae_valid c.[k] = false \/
       forall j, 0 <= j < ARP_CACHE_SIZE -> ae_valid c.[j] = true /\ ae_ttl c.[k] <= ae_ttl c.[j])))).
  { unfold s', arp_cache_update. fold c. rewrite Ettl.
    destruct (find_entry_spec (fun e => ae_valid e && (ae_ip e =? ip)) c 0 ltac:(lia)) as [[E B]|(k & Hk & E & F)]; rewrite E.
    - change (0 <=? -1) with false. cbv iota. set (t := pick_slot c 0 0 0xFFFFFFFF).
      destruct (pick_slot_spec c c 0 0 0xFFFFFFFF) as [Hr Hc];
        [lia|done|unfold zlen; lia|intros j Hj; lia|intros j Hj; pose proof (Ht j ltac:(lia)); lia|lia|lia|by left|unfold ARP_CACHE_SIZE in Hl; lia|].
      fold t in Hr, Hc. exists t. split; [lia|]. split; [done|]. right. split.
      + intros j Hj Hv Hip. specialize (B j ltac:(lia)). cbn in B. by rewrite Hv, Hip, Z.eqb_refl in B.
      + destruct Hc as [Hc|[Hc1 Hc2]]; [by left|right]. intros j Hj. split; [apply Hc1; lia|apply Hc2; lia].
    - rewrite Z.add_0_l. destruct (Z.leb_spec 0 k); [|lia]. apply andb_true_iff in F as [F1 F2]. apply Z.eqb_eq in F2.
      exists k. split; [lia|]. split; [by rewrite F1, F2|by left]. }
  destruct K as (k & Hk & Es & Hc).
  assert (Gk : (g_cache s').[k] = mk_arp ip mac ttl true (ae_permanent c.[k])) by (rewrite Es; cbn [g_cache with_cache]; apply zget_zset_eq; lia).
  assert (Ok' : arp_ok (g_cache s')).
  { rewrite Es. cbn [g_cache with_cache]. apply arp_ok_set; [done|done|subst ttl; unfold ARP_TTL_TICKS in *; lia|].
    intros j Hj Hne Hv E. destruct Hc as [[A B]|[A _]]; [|by destruct (A j Hj Hv)].
    apply Hne. apply Hu; [done|done|done|done|congruence]. }
  split; [done|]. split.
  - intros iface now Hn. apply (arp_resolve_hit iface ip mac (at_time now s') k _ Ok' Hk Gk); [done|done|done|done|]. right. cbn. unfold ttl. lia.
  - exists k. split; [done|]. split; [done|]. split; [done|]. intros Hp iface now.
    apply (arp_resolve_hit iface ip mac (at_time now s') k _ Ok' Hk Gk); [done|done|done|done|]. by left.
Qed.

(** ** Witness *)

Definition lnk0 : lnk := arp_init (mk_lnk (replicate 64 false) [] [] 100).

Lemma lnk0_ok : arp_ok (g_cache lnk0).
Proof.
  assert (G : forall i, 0 <= i < ARP_CACHE_SIZE -> (g_cache lnk0).[i] = arp_zero).
  { intros i Hi. unfold lnk0, arp_init. cbn [g_cache with_cache]. by apply zget_replicate. }
  constructor; [done| |]; [intros i j Hi Hj; by rewrite !G by done|intros i Hi; rewrite G by done; done].
Qed.

Lemma arp_cache_update_resolve_witness :
  let s' := arp_cache_update (IP4 10 0 2 2) [1; 2; 3; 4; 5; 6] lnk0 in
  arp_ok (g_cache s') /\
  arp_resolve (mk_netif [0; 0; 0; 0; 0; 1] (IP4 10 0 2 15) 0 0 true) (IP4 10 0 2 2) (at_time 3000 s') = (Some [1; 2; 3; 4; 5; 6], at_time 3000 s').
Proof.
  destruct (arp_cache_update_resolve (IP4 10 0 2 2) [1; 2; 3; 4; 5; 6] lnk0 lnk0_ok) as (A & B & _);
    [discriminate|vm_compute; discriminate|vm_compute; reflexivity|]. cbn zeta. split; [exact A|]. apply B.
  split; vm_compute; [discriminate|reflexivity].
Defined.
