(* ===== verification/Ip.v ===== *)
(** * IPv4 (kernel/net/ip/ip.c)

    Input validates the header, consumes it and hands the payload to ICMP, TCP
    or UDP; fragments go through a table of four reassembly slots.  Output
    prepends a header with a checksum, resolves the next hop and transmits.
    The protocol handlers, the driver's transmit function and the packet filter
    [cnsl_is_blocked] are parameters.  [None] stands for an access outside the
    memory the code may touch (a read past the packet buffer, a write through a
    null pointer). *)

From S2P Require Import Prelude AuditRing Kmalloc Net Arp.

Definition IP_PROTO_ICMP : Z := 1.
Definition IP_PROTO_TCP : Z := 6.
Definition IP_PROTO_UDP : Z := 17.
Definition IP4_HDR_LEN : Z := 20.
Definition FRAG_MAX_SLOTS : Z := 4.
Definition FRAG_MAX_PAYLOAD : Z := 65535.
Definition IP_FLAG_MF : Z := 0x2000.
Definition IP_FRAG_MASK : Z := 0x1FFF.

(** [fs_bytes] is the memory [fs_buf] points to; 0 is NULL. *)
Record frag_slot := mk_frag {
  fs_src : Z;
  fs_dst : Z;
  fs_proto : Z;
  fs_ip_id : Z;
  fs_buf : Z;
  fs_bytes : list Z;
  fs_total_len : Z;
  fs_filled : Z;
  fs_have_last : bool;
  fs_active : bool;
  fs_age : Z
}.

Definition frag_zero : frag_slot := mk_frag 0 0 0 0 0 [] 0 0 false false 0.
#[export] Instance frag_slot_inhabited : Inhabited frag_slot := populate frag_zero.

Section Ops.
Context {H : Type} `{Allocator H}.

Record ipst := mk_ip { i_lnk : lnk; g_ip_id : Z; g_frags : list frag_slot; g_frag_age : Z; i_heap : H }.

Definition with_lnk (x : lnk) (s : ipst) : ipst := mk_ip x (g_ip_id s) (g_frags s) (g_frag_age s) (i_heap s).
Definition with_id (x : Z) (s : ipst) : ipst := mk_ip (i_lnk s) x (g_frags s) (g_frag_age s) (i_heap s).
Definition with_frags (x : list frag_slot) (age : Z) (h : H) (s : ipst) : ipst := mk_ip (i_lnk s) (g_ip_id s) x age h.

Definition ip4_init (s : ipst) : ipst :=
  with_frags ((fun f => mk_frag (fs_src f) (fs_dst f) (fs_proto f) (fs_ip_id f) 0 [] (fs_total_len f) (fs_filled f)
                          (fs_have_last f) false (fs_age f)) <$> g_frags s) (g_frag_age s) (i_heap s) (with_id 0 s).

(** ** Reassembly *)

Definition frag_key (src dst proto id : Z) (f : frag_slot) : bool :=
  fs_active f && (fs_src f =? src) && (fs_dst f =? dst) && (fs_proto f =? proto) && (fs_ip_id f =? id).

Definition find_frag (f : frag_slot -> bool) (l : list frag_slot) (i : Z) : Z := find_from f l i.

Definition frag_find (src dst proto id : Z) (s : ipst) : Z := find_frag (frag_key src dst proto id) (g_frags s) 0.

(** [kzalloc]: the pointer and the zeroed bytes. *)
Definition kzalloc_frag (h : H) : Z * list Z * H :=
  let '(p, h) := al_alloc FRAG_MAX_PAYLOAD h in
  (p, if p =? 0 then [] else replicate (Z.to_nat FRAG_MAX_PAYLOAD) 0, h).

(** The assignments shared by both paths of [frag_alloc], on slot [i]. *)
Definition frag_setup (i src dst proto id : Z) (s : ipst) : Z * ipst :=
  let '(p, bytes, h) := kzalloc_frag (i_heap s) in
  let s := with_frags (g_frags s).[i <- mk_frag src dst proto id p bytes 0 0 false true (g_frag_age s)]
                      (u32 (g_frag_age s + 1)) h s in
  (if p =? 0 then -1 else i, s).

(** [for (i = 1; i < FRAG_MAX_SLOTS; i++) if (age < oldest->age) oldest = ...]. *)
Definition oldest_frag (l : list frag_slot) : Z :=
  for_loop (Z.to_nat (FRAG_MAX_SLOTS - 1)) 1 (fun i o => if fs_age l.[i] <? fs_age l.[o] then i else o) 0.

Definition kfree_frag (p : Z) (h : H) : H := if p =? 0 then h else al_free p h.

Definition frag_alloc (src dst proto id : Z) (s : ipst) : Z * ipst :=
  let i := find_frag (fun f => negb (fs_active f)) (g_frags s) 0 in
  if 0 <=? i then frag_setup i src dst proto id s else
  let o := oldest_frag (g_frags s) in
  let s := with_frags (g_frags s) (g_frag_age s) (kfree_frag (fs_buf (g_frags s).[o]) (i_heap s)) s in
  frag_setup o src dst proto id s.

(** [slot->buf = NULL; frag_free(slot)] leaves the slot inactive. *)
Definition frag_release (f : frag_slot) : frag_slot :=
  mk_frag (fs_src f) (fs_dst f) (fs_proto f) (fs_ip_id f) 0 [] (fs_total_len f) (fs_filled f) (fs_have_last f) false (fs_age f).

Definition frag_free (i : Z) (s : ipst) : ipst :=
  let f := (g_frags s).[i] in
  with_frags (g_frags s).[i <- frag_release f] (g_frag_age s) (kfree_frag (fs_buf f) (i_heap s)) s.

(** The copy and the accounting on the slot. *)
Definition frag_store (frag_offset : Z) (payload : list Z) (more_frags : bool) (age : Z) (f : frag_slot) : frag_slot :=
  let payload_len := zlen payload in
  mk_frag (fs_src f) (fs_dst f) (fs_proto f) (fs_ip_id f) (fs_buf f) (memcpy (fs_bytes f) frag_offset payload)
          (if more_frags then fs_total_len f else u16 (frag_offset + payload_len)) (u16 (fs_filled f + payload_len))
          (if more_frags then fs_have_last f else true) (fs_active f) age.

(** The inner option is the boolean result with [*out_buf], its bytes and
    [*out_len]; the buffer pointer passes to the caller. *)
Definition ip4_frag_input (src dst proto ip_id frag_flags : Z) (payload : list Z) (s : ipst) :
    option (option (Z * list Z * Z) * ipst) :=
  let more_frags := negb (Z.land frag_flags IP_FLAG_MF =? 0) in
  let frag_offset := u16 (Z.land frag_flags IP_FRAG_MASK * 8) in
  if FRAG_MAX_PAYLOAD <? frag_offset + zlen payload then Some (None, s) else
  let i := frag_find src dst proto ip_id s in
  let '(i, s) := if 0 <=? i then (i, s) else frag_alloc src dst proto ip_id s in
  if i <? 0 then Some (None, s) else
  if fs_buf (g_frags s).[i] =? 0 then None else
  let f := frag_store frag_offset payload more_frags (g_frag_age s) (g_frags s).[i] in
  let s := with_frags (g_frags s).[i <- f] (u32 (g_frag_age s + 1)) (i_heap s) s in
  if fs_have_last f && (fs_total_len f <=? fs_filled f) then
    Some (Some (fs_buf f, fs_bytes f, fs_total_len f),
          with_frags (g_frags s).[i <- frag_release f] (g_frag_age s) (i_heap s) s)
  else Some (None, s).

(** ** Input *)

Context (blocked : Z -> bool) (upper : Z -> Z -> Z -> netbuf -> ipst -> option ipst).

(** [switch (hdr->proto)]. *)
Definition dispatch (proto src dst : Z) (b : netbuf) (s : ipst) : option ipst :=
  if (proto =? IP_PROTO_ICMP) || (proto =? IP_PROTO_TCP) || (proto =? IP_PROTO_UDP) then upper proto src dst b s else Some s.

Definition ip4_input (iface : netif) (buf : netbuf) (s : ipst) : option ipst :=
  if nb_len buf <? IP4_HDR_LEN then Some s else
  let version_ihl := nb_get 1 buf 0 in
  if negb (Z.shiftr version_ihl 4 =? 4) then Some s else
  let ihl := u8 (Z.land version_ihl 0x0F * 4) in
  let tot_len := ntohs (nb_get 2 buf 2) in
  if (ihl <? IP4_HDR_LEN) || (nb_len buf <? tot_len) then Some s else
  let src := ntohl (nb_get 4 buf 12) in
  let dst := ntohl (nb_get 4 buf 16) in
  if negb (dst =? if_ip iface) && negb (dst =? IP4_BROADCAST) && negb (dst =? IP4 127 0 0 1) then Some s else
  if blocked src then Some s else
  let flags_offset := ntohs (nb_get 2 buf 6) in
  let is_fragment := negb (Z.land flags_offset IP_FLAG_MF =? 0) || negb (Z.land flags_offset IP_FRAG_MASK =? 0) in
  let proto := nb_get 1 buf 9 in
  let id := ntohs (nb_get 2 buf 4) in
  let buf := default buf (netbuf_pull buf ihl) in
  let buf := set_len buf (u16 (tot_len - ihl)) in
  if is_fragment then
    if NETBUF_CAP <? nb_data buf + nb_len buf then None else
    match ip4_frag_input src dst proto id flags_offset (nb_bytes buf 0 (nb_len buf)) s with
    | None => None
    | Some (None, s) => Some s
    | Some (Some (p, reassembled, full_len), s) =>
        let '(idx, pool) := netbuf_alloc (l_pool (i_lnk s)) in
        let s := with_lnk (with_pool pool (i_lnk s)) s in
        if idx <? 0 then Some (with_frags (g_frags s) (g_frag_age s) (al_free p (i_heap s)) s) else
        let cap := u16 (NETBUF_CAP - NETBUF_HEADROOM) in
        let copy_len := if cap <? full_len then cap else full_len in
        let rbuf := set_len (nb_put netbuf_fresh 0 (take (Z.to_nat copy_len) reassembled)) copy_len in
        let s := with_frags (g_frags s) (g_frag_age s) (al_free p (i_heap s)) s in
        match dispatch proto src dst rbuf s with
        | None => None
        | Some s => Some (with_lnk (with_pool (netbuf_free idx (l_pool (i_lnk s))) (i_lnk s)) s)
        end
    end
  else dispatch proto src dst buf s.

(** ** Output *)

Context (tx : list Z -> bool).

(** The header assignments, in order; the checksum field is zero for the sum. *)
Definition ip4_header (b : netbuf) (proto id src dst : Z) : netbuf :=
  let tot_len := nb_len b in
  let b := nb_put b 0 [Z.lor (Z.shiftl 4 4) 5] in
  let b := nb_put b 1 [0] in
  let b := put16 b 2 (htons tot_len) in
  let b := put16 b 4 (htons id) in
  let b := put16 b 6 (htons 0x4000) in
  let b := nb_put b 8 [64] in
  let b := nb_put b 9 [proto] in
  let b := put16 b 10 0 in
  let b := put32 b 12 (htonl src) in
  let b := put32 b 16 (htonl dst) in
  put16 b 10 (htons (inet_cksum (nb_bytes b 0 IP4_HDR_LEN))).

(** The result and the buffer as the function leaves it. *)
Definition ip4_output (iface : netif) (dst_ip proto : Z) (buf : netbuf) (s : ipst) : option (bool * netbuf * ipst) :=
  match netbuf_push buf IP4_HDR_LEN with
  | None => Some (false, buf, s)
  | Some buf =>
      let buf := ip4_header buf proto (g_ip_id s) (if_ip iface) dst_ip in
      let s := with_id (u16 (g_ip_id s + 1)) s in
      if dst_ip =? IP4 127 0 0 1 then
        match ip4_input iface buf s with None => None | Some s => Some (true, buf, s) end
      else
        let next_hop := if negb (Z.land dst_ip (if_mask iface) =? Z.land (if_ip iface) (if_mask iface))
                        then if_gw iface else dst_ip in
        match arp_resolve iface next_hop (i_lnk s) with
        | (None, l) => Some (false, buf, with_lnk l s)
        | (Some dst_mac, l) =>
            let s := with_lnk l s in
            match push_eth buf dst_mac (if_mac iface) ETHERTYPE_IP4 with
            | None => Some (false, buf, s)
            | Some buf => Some (tx (frame_of buf), buf, with_lnk (send_frame (frame_of buf) (i_lnk s)) s)
            end
        end
  end.

End Ops.
Arguments ipst : clear implicits.

(** ** Headers as byte strings *)

Lemma memcpy_memcpy_app (l : list Z) p a b :
  0 <= p -> p + zlen a + zlen b <= zlen l -> memcpy (memcpy l p a) (p + zlen a) b = memcpy l p (a ++ b).
Proof.
  intros Hp Hl. pose proof (zlen_nonneg a). pose proof (zlen_nonneg b).
  assert (L1 : zlen (memcpy l p a) = zlen l) by (apply zlen_memcpy; lia).
  assert (Lab : zlen (a ++ b) = zlen a + zlen b) by apply zlen_app.
  apply list_eq_zget; [rewrite !zlen_memcpy by lia; done|]. rewrite zlen_memcpy by lia. intros i Hi.
  rewrite !zget_memcpy by lia. rewrite Lab.
  destruct (Z.leb_spec (p + zlen a) i), (Z.ltb_spec i (p + zlen a + zlen b)), (Z.leb_spec p i), (Z.ltb_spec i (p + zlen a)),
    (Z.ltb_spec i (p + (zlen a + zlen b))); try lia; cbn [andb]; unfold zget, zlen in *; try done.
  - rewrite lookup_total_app_r by lia. f_equal. lia.
  - by rewrite lookup_total_app_l by lia.
Qed.

Lemma memcpy_memcpy_in (l : list Z) p h o x :
  0 <= p -> 0 <= o -> o + zlen x <= zlen h -> p + zlen h <= zlen l ->
  memcpy (memcpy l p h) (p + o) x = memcpy l p (memcpy h o x).
Proof.
  intros Hp Ho Hx Hl. pose proof (zlen_nonneg x).
  assert (L1 : zlen (memcpy l p h) = zlen l) by (apply zlen_memcpy; lia).
  assert (L2 : zlen (memcpy h o x) = zlen h) by (apply zlen_memcpy; lia).
  apply list_eq_zget; [rewrite !zlen_memcpy by lia; done|]. rewrite zlen_memcpy by lia. intros i Hi.
  rewrite (zget_memcpy (memcpy l p h)), (zget_memcpy l p h), (zget_memcpy l p (memcpy h o x)) by lia. rewrite L2.
  destruct (Z.leb_spec p i), (Z.ltb_spec i (p + zlen h)), (Z.leb_spec (p + o) i), (Z.ltb_spec i (p + o + zlen x));
    try lia; cbn [andb]; try done; rewrite zget_memcpy by lia.
  - destruct (Z.leb_spec o (i - p)), (Z.ltb_spec (i - p) (o + zlen x)); try lia. cbn [andb]. f_equal. lia.
  - destruct (Z.leb_spec o (i - p)), (Z.ltb_spec (i - p) (o + zlen x)); try lia; done.
  - destruct (Z.leb_spec o (i - p)), (Z.ltb_spec (i - p) (o + zlen x)); try lia; done.
Qed.

(** Reading inside, and after, a copied block. *)
Lemma bytes_memcpy (l : list Z) p h o n :
  0 <= p -> 0 <= o -> 0 <= n -> o + n <= zlen h -> p + zlen h <= zlen l ->
  take (Z.to_nat n) (drop (Z.to_nat (p + o)) (memcpy l p h)) = take (Z.to_nat n) (drop (Z.to_nat o) h).
Proof.
  intros Hp Ho Hn Hh Hl. unfold memcpy, zlen in *.
  rewrite drop_app_ge by (rewrite length_take; lia). rewrite length_take, Nat.min_l by lia.
  replace (Z.to_nat (p + o) - Z.to_nat p)%nat with (Z.to_nat o) by lia.
  rewrite drop_app_le by lia. rewrite take_app_le by (rewrite length_drop; lia). done.
Qed.

Lemma bytes_after_memcpy (l : list Z) p h o n :
  0 <= p -> zlen h <= o -> p + zlen h <= zlen l ->
  take n (drop (Z.to_nat (p + o)) (memcpy l p h)) = take n (drop (Z.to_nat (p + o)) l).
Proof.
  intros Hp Ho Hl. unfold memcpy, zlen in *. f_equal.
  rewrite drop_app_ge by (rewrite length_take; lia). rewrite length_take, Nat.min_l by lia.
  rewrite drop_app_ge by lia. rewrite drop_drop. f_equal. lia.
Qed.

Lemma htons_bytes x : 0 <= x < 65536 -> le_bytes 2 (htons x) = be_bytes 2 x.
Proof.
  intros Hx. rewrite be_bytes_2 by done. unfold htons. rewrite shiftr_div, shiftl_mul by lia.
  change (2 ^ 8) with 256. change 256 with (2 ^ 8) at 2.
  rewrite lor_add_disjoint by (Z.div_mod_to_equations; lia). change (2 ^ 8) with 256.
  assert (E : u16 (x / 256 + x * 256) = x / 256 + 256 * (x mod 256)) by ulia.
  rewrite E. cbn [le_bytes]. f_equal; [|f_equal]; Z.div_mod_to_equations; lia.
Qed.

Lemma ntohs_bytes a b : byte a -> byte b -> ntohs (le_val [a; b]) = 256 * a + b.
Proof.
  unfold byte. intros Ha Hb. cbn [le_val]. unfold ntohs, htons. rewrite shiftr_div, shiftl_mul by lia.
  set (x := a + 256 * (b + 256 * 0)). change (2 ^ 8) with 256. change 256 with (2 ^ 8) at 2.
  rewrite lor_add_disjoint by (unfold x; Z.div_mod_to_equations; lia). change (2 ^ 8) with 256. unfold x. ulia.
Qed.

Lemma htonl_digits x : 0 <= x < 2 ^ 32 ->
  htonl x = x / 16777216 + (x / 65536 mod 256) * 256 + (x / 256 mod 256) * 65536 + (x mod 256) * 16777216.
Proof.
  intros Hx. unfold htonl.
  assert (A : Z.shiftr (Z.land x 0xFF000000) 24 = x / 16777216).
  { rewrite Z.shiftr_land, shiftr_div by lia. change (Z.shiftr 0xFF000000 24) with (2 ^ 8 - 1). rewrite land_low by lia.
    change (2 ^ 24) with 16777216. apply Z.mod_small. change (2 ^ 8) with 256. Z.div_mod_to_equations; lia. }
  assert (B : Z.shiftr (Z.land x 0x00FF0000) 8 = x / 65536 mod 256 * 256).
  { rewrite (land_split 16) by lia. change (0xFF0000 mod 2 ^ 16) with 0. rewrite Z.land_0_r, Z.add_0_l.
    change (0xFF0000 / 2 ^ 16) with (2 ^ 8 - 1). rewrite land_low, shiftr_div by lia.
    change (2 ^ 16) with 65536. change (2 ^ 8) with 256. Z.div_mod_to_equations; lia. }
  assert (C : Z.land x 0x0000FF00 = x / 256 mod 256 * 256).
  { rewrite (land_split 8) by lia. change (0xFF00 mod 2 ^ 8) with 0. rewrite Z.land_0_r, Z.add_0_l.
    change (0xFF00 / 2 ^ 8) with (2 ^ 8 - 1). rewrite land_low by lia. change (2 ^ 8) with 256. lia. }
  rewrite A, B, C. change 0x000000FF with (2 ^ 8 - 1). rewrite land_low, !shiftl_mul by lia.
  change (2 ^ 8) with 256. set (a := x / 16777216). set (b := x / 65536 mod 256). set (c := x / 256 mod 256). set (d := x mod 256).
  assert (0 <= a < 256) by (unfold a; Z.div_mod_to_equations; lia). assert (0 <= b < 256) by (apply Z.mod_pos_bound; lia).
  assert (0 <= c < 256) by (apply Z.mod_pos_bound; lia). assert (0 <= d < 256) by (apply Z.mod_pos_bound; lia).
  change (b * 256) with (b * 2 ^ 8). rewrite (lor_add_disjoint 8 a) by lia.
  replace (c * 256 * 256) with (c * 2 ^ 16) by lia. rewrite (lor_add_disjoint 16) by lia.
  rewrite (lor_add_disjoint 24) by lia. lia.
Qed.

Lemma htonl_bytes x : 0 <= x < 2 ^ 32 -> le_bytes 4 (htonl x) = be_bytes 4 x.
Proof.
  intros Hx. pose proof (Forall_be_bytes 4 x) as F. rewrite be_bytes_4 in * by done. rewrite htonl_digits by done.
  set (l := [_; _; _; _]) in *. replace (_ + _ * 16777216) with (le_val l) by (unfold l; cbn [le_val]; lia).
  exact (le_bytes_val l F).
Qed.

Lemma ntohl_bytes x : 0 <= x < 2 ^ 32 -> ntohl (le_val (be_bytes 4 x)) = x.
Proof.
  intros Hx. rewrite be_bytes_4 by done. set (a := x / 16777216). set (b := x / 65536 mod 256). set (c := x / 256 mod 256). set (d := x mod 256).
  assert (0 <= a < 256) by (unfold a; Z.div_mod_to_equations; lia). assert (0 <= b < 256) by (apply Z.mod_pos_bound; lia).
  assert (0 <= c < 256) by (apply Z.mod_pos_bound; lia). assert (0 <= d < 256) by (apply Z.mod_pos_bound; lia).
  assert (E : x = a * 16777216 + b * 65536 + c * 256 + d) by (unfold a, b, c, d; Z.div_mod_to_equations; lia).
  clearbody a b c d. cbn [le_val]. unfold ntohl. rewrite htonl_digits by lia. rewrite E.
  replace ((a + 256 * (b + 256 * (c + 256 * (d + 256 * 0)))) / 16777216) with d by (Z.div_mod_to_equations; lia).
  replace ((a + 256 * (b + 256 * (c + 256 * (d + 256 * 0)))) / 65536 mod 256) with c by (Z.div_mod_to_equations; lia).
  replace ((a + 256 * (b + 256 * (c + 256 * (d + 256 * 0)))) / 256 mod 256) with b by (Z.div_mod_to_equations; lia).
  replace ((a + 256 * (b + 256 * (c + 256 * (d + 256 * 0)))) mod 256) with a by (Z.div_mod_to_equations; lia). lia.
Qed.

(** The twenty bytes [ip4_header] writes, with checksum field [ck]. *)
Definition ip4_bytes (tot_len id proto src dst : Z) (ck : list Z) : list Z :=
  [0x45; 0] ++ be_bytes 2 tot_len ++ be_bytes 2 id ++ [0x40; 0; 64; proto] ++ ck ++ be_bytes 4 src ++ be_bytes 4 dst.

Lemma ip4_bytes_ck tot_len id proto src dst x y :
  memcpy (ip4_bytes tot_len id proto src dst [0; 0]) 10 [x; y] = ip4_bytes tot_len id proto src dst [x; y] /\
  (ip4_bytes tot_len id proto src dst [0; 0]).[10] = 0 /\ (ip4_bytes tot_len id proto src dst [0; 0]).[11] = 0.
Proof. done. Qed.

Lemma nb_put_app b off x y :
  0 <= nb_data b + off -> nb_data b + off + zlen x + zlen y <= zlen (nb_storage b) ->
  nb_put (nb_put b off x) (off + zlen x) y = nb_put b off (x ++ y).
Proof.
  intros H0 H1. unfold nb_put. cbn [nb_storage nb_data nb_len]. f_equal. rewrite Z.add_assoc. by apply memcpy_memcpy_app.
Qed.

Lemma nb_bytes_put b h o n :
  0 <= nb_data b -> 0 <= o -> 0 <= n -> o + n <= zlen h -> nb_data b + zlen h <= zlen (nb_storage b) ->
  nb_bytes (nb_put b 0 h) o n = take (Z.to_nat n) (drop (Z.to_nat o) h).
Proof.
  intros. unfold nb_bytes, nb_put. cbn [nb_storage nb_data]. rewrite Z.add_0_r. by apply bytes_memcpy.
Qed.

Lemma nb_bytes_put_app b h n :
  0 <= nb_data b -> 0 <= n -> nb_data b + zlen h <= zlen (nb_storage b) ->
  nb_bytes (nb_put b 0 h) 0 (zlen h + n) = h ++ nb_bytes b (zlen h) n.
Proof.
  intros Hd Hn Hs. unfold nb_bytes, nb_put. cbn [nb_storage nb_data]. rewrite !Z.add_0_r. pose proof (zlen_nonneg h).
  replace (Z.to_nat (zlen h + n)) with (Z.to_nat (zlen h) + Z.to_nat n)%nat by lia.
  rewrite <- take_take_drop, drop_drop. f_equal.
  - pose proof (bytes_memcpy (nb_storage b) (nb_data b) h 0 (zlen h)) as E. rewrite Z.add_0_r in E. rewrite E by lia.
    change (drop (Z.to_nat 0) h) with h. apply take_ge. unfold zlen. lia.
  - replace (Z.to_nat (nb_data b) + Z.to_nat (zlen h))%nat with (Z.to_nat (nb_data b + zlen h)) by lia.
    by apply bytes_after_memcpy.
Qed.

Lemma ip4_header_spec b proto id src dst :
  0 <= nb_data b -> nb_data b + 20 <= zlen (nb_storage b) -> 0 <= nb_len b < 65536 -> byte proto -> 0 <= id < 65536 ->
  0 <= src < 2 ^ 32 -> 0 <= dst < 2 ^ 32 ->
  let h0 := ip4_bytes (nb_len b) id proto src dst [0; 0] in
  let h := ip4_bytes (nb_len b) id proto src dst (be_bytes 2 (inet_cksum h0)) in
  ip4_header b proto id src dst = nb_put b 0 h /\ zlen h = 20 /\ Forall byte h /\ inet_cksum h = 0.
Proof.
  intros Hd Hs Hl Hp Hi Hsrc Hdst h0 h.
  assert (L2 : forall x, zlen (be_bytes 2 x) = 2) by (intros; apply zlen_be_bytes).
  assert (L4 : forall x, zlen (be_bytes 4 x) = 4) by (intros; apply zlen_be_bytes).
  assert (Lh : forall ck, zlen ck = 2 -> zlen (ip4_bytes (nb_len b) id proto src dst ck) = 20).
  { intros ck E. unfold ip4_bytes. rewrite !zlen_app, !L2, !L4, E. done. }
  assert (F0 : Forall byte h0).
  { unfold h0, ip4_bytes. rewrite !Forall_app. split_and!; try apply Forall_be_bytes; repeat constructor; unfold byte in *; lia. }
  assert (L0 : zlen h0 = 20) by (by apply Lh).
  assert (Hck : 0 <= inet_cksum h0 < 65536).
  { rewrite inet_cksum_ones by (done || lia). pose proof (wsum_range h0 F0). pose proof (ones_range (wsum h0) ltac:(lia)). lia. }
  assert (Eh : memcpy h0 10 (be_bytes 2 (inet_cksum h0)) = h).
  { unfold h. rewrite (be_bytes_2 (inet_cksum h0)) by done. apply ip4_bytes_ck. }
  assert (E0 : nb_put (nb_put (nb_put (nb_put (nb_put (nb_put (nb_put (nb_put (nb_put (nb_put b 0 [0x45]) 1 [0])
      2 (be_bytes 2 (nb_len b))) 4 (be_bytes 2 id)) 6 [0x40; 0]) 8 [64]) 9 [proto]) 10 [0; 0]) 12 (be_bytes 4 src)) 16 (be_bytes 4 dst)
      = nb_put b 0 h0).
  { change (nb_put (nb_put b 0 [0x45]) 1 [0]) with (nb_put (nb_put b 0 [0x45]) (0 + zlen [0x45]) [0]).
    rewrite (nb_put_app b 0 [0x45] [0]) by (unfold zlen; cbn; unfold zlen in Hs; lia).
    unfold h0, ip4_bytes. rewrite !be_bytes_2 by done. rewrite !be_bytes_4 by done.
    repeat match goal with |- context [nb_put (nb_put b 0 ?l) ?o ?y] =>
      change (nb_put (nb_put b 0 l) o y) with (nb_put (nb_put b 0 l) (0 + zlen l) y);
      rewrite (nb_put_app b 0 l y) by (unfold zlen; cbn; unfold zlen in Hs; lia); cbn [app] end. done. }
  split; [|split; [by apply Lh|split]].
  - unfold ip4_header, put16, put32. change (le_bytes 2 (htons 0x4000)) with [0x40; 0]. change (le_bytes 2 0) with [0; 0].
    change (Z.lor (Z.shiftl 4 4) 5) with 0x45.
    rewrite (htons_bytes (nb_len b)), (htons_bytes id), (htonl_bytes src), (htonl_bytes dst) by done. rewrite E0.
    assert (Eb : nb_bytes (nb_put b 0 h0) 0 IP4_HDR_LEN = h0).
    { rewrite nb_bytes_put by (unfold IP4_HDR_LEN; lia). rewrite drop_0. apply take_ge. unfold zlen, IP4_HDR_LEN in *. lia. }
    rewrite Eb, htons_bytes by done. unfold nb_put. cbn [nb_storage nb_data nb_len]. f_equal. rewrite Z.add_0_r.
    rewrite memcpy_memcpy_in by (rewrite ?L2; lia). by rewrite Eh.
  - unfold h, ip4_bytes. rewrite !Forall_app. split_and!; try apply Forall_be_bytes; repeat constructor; unfold byte in *; lia.
  - rewrite <- Eh. pose proof (wsum_range h0 F0) as W. rewrite inet_cksum_ones at 1;
      [|apply Forall_memcpy; [done|apply Forall_be_bytes]|rewrite zlen_memcpy by (rewrite ?L2; lia); lia].
    rewrite be_bytes_2 by done.
    destruct (ip4_bytes_ck (nb_len b) id proto src dst 0 0) as (_ & Z10 & Z11). fold h0 in Z10, Z11.
    rewrite wsum_put by (lia || done).
    pose proof (Z.div_mod (inet_cksum h0) 256 ltac:(lia)).
    replace (wsum h0 + 256 * (inet_cksum h0 / 256) + inet_cksum h0 mod 256) with (wsum h0 + inet_cksum h0) by lia.
    assert (ones (wsum h0 + inet_cksum h0) = 65535) as ->; [|lia].
    rewrite inet_cksum_ones by (done || lia). destruct (ones_mod (wsum h0) ltac:(lia)) as [M1 M2]. pose proof (ones_range (wsum h0) ltac:(lia)).
    apply ones_verify; [lia|lia|lia|].
    replace (wsum h0 + (65535 - ones (wsum h0))) with (wsum h0 - ones (wsum h0) + 1 * 65535) by lia. by rewrite Z_mod_plus_full.
Qed.

Lemma nb_get_bytes b n off m :
  0 <= nb_data b -> 0 <= off -> off + Z.of_nat n <= m ->
  nb_get n b off = le_val (take n (drop (Z.to_nat off) (nb_bytes b 0 m))).
Proof.
  intros Hd Ho Hm. unfold nb_get, le_at, nb_bytes. f_equal. rewrite Z.add_0_r.
  replace (Z.to_nat (nb_data b + off)) with (Z.to_nat (nb_data b) + Z.to_nat off)%nat by lia.
  rewrite <- drop_drop. set (l := drop (Z.to_nat (nb_data b)) _). by rewrite take_drop_take by lia.
Qed.

Section Wire.
Context {H : Type} `{Allocator H}.
#[local] Notation "'ist'" := (ipst H).
Context (blocked : Z -> bool) (upper : Z -> Z -> Z -> netbuf -> ist -> option ist) (tx : list Z -> bool).

(** Input of an unfragmented datagram that starts with our own header. *)
Lemma ip4_input_plain iface b (s : ist) tot id proto src dst ck :
  0 <= nb_data b -> nb_len b = tot -> 20 <= tot < 65536 -> 0 <= id < 65536 -> byte proto -> 0 <= src < 2 ^ 32 -> 0 <= dst < 2 ^ 32 ->
  zlen ck = 2 -> nb_bytes b 0 20 = ip4_bytes tot id proto src dst ck -> dst = if_ip iface -> blocked src = false ->
  ip4_input blocked upper iface b s =
  dispatch upper proto src dst (mk_nb (nb_storage b) (nb_data b + 20) (tot - 20)) s.
Proof.
  intros Hd Hl Ht Hi Hp Hs Hds Hck Hb Hif Hbl. unfold ip4_input.
  destruct ck as [|x [|y [|]]]; try (unfold zlen in Hck; cbn in Hck; lia).
  rewrite !(nb_get_bytes b _ _ 20) by lia. rewrite Hb. unfold ip4_bytes.
  rewrite (be_bytes_2 tot) by lia. rewrite (be_bytes_2 id) by lia.
  change (Z.to_nat 12) with 12%nat. change (Z.to_nat 16) with 16%nat. change (Z.to_nat 2) with 2%nat.
  change (Z.to_nat 6) with 6%nat. change (Z.to_nat 9) with 9%nat. change (Z.to_nat 4) with 4%nat. change (Z.to_nat 0) with 0%nat.
  assert (Es : take 4 (drop 12 ([69; 0] ++ [tot / 256; tot mod 256] ++ [id / 256; id mod 256] ++ [64; 0; 64; proto] ++
     [x; y] ++ be_bytes 4 src ++ be_bytes 4 dst)) = be_bytes 4 src) by (rewrite !be_bytes_4 by lia; done).
  assert (Ed : take 4 (drop 16 ([69; 0] ++ [tot / 256; tot mod 256] ++ [id / 256; id mod 256] ++ [64; 0; 64; proto] ++
     [x; y] ++ be_bytes 4 src ++ be_bytes 4 dst)) = be_bytes 4 dst) by (rewrite !be_bytes_4 by lia; done).
  rewrite Es, Ed. rewrite !ntohl_bytes by done. cbn [app take drop].
  rewrite (ntohs_bytes (tot / 256)) by (unfold byte; Z.div_mod_to_equations; lia).
  replace (256 * (tot / 256) + tot mod 256) with tot by (Z.div_mod_to_equations; lia).
  change (le_val [69]) with 69. change (ntohs (le_val [64; 0])) with 0x4000.
  change (Z.shiftr 69 4 =? 4) with true. change (u8 (Z.land 69 0x0F * 4)) with 20. cbn [negb].
  destruct (Z.ltb_spec (nb_len b) IP4_HDR_LEN); [unfold IP4_HDR_LEN in *; lia|].
  change (20 <? IP4_HDR_LEN) with false. destruct (Z.ltb_spec (nb_len b) tot); [lia|]. cbn [orb].
  rewrite <- Hif, Z.eqb_refl. cbn [negb andb]. rewrite Hbl.
  change (negb (Z.land 0x4000 IP_FLAG_MF =? 0) || negb (Z.land 0x4000 IP_FRAG_MASK =? 0)) with false. cbv iota.
  replace (le_val [proto]) with proto by (cbn; lia). f_equal. unfold netbuf_pull.
  destruct (Z.ltb_spec (nb_len b) 20); [lia|]. cbn [default from_option]. unfold set_len, Datatypes.id. cbn [nb_storage nb_data].
  by rewrite u16_small by lia.
Qed.

(** [push_eth] on a buffer with 14 bytes of headroom. *)
Lemma push_eth_spec b dst src :
  14 <= nb_data b -> 0 <= nb_len b -> nb_len b + 14 < 65536 -> nb_data b <= zlen (nb_storage b) ->
  zlen dst = 6 -> zlen src = 6 ->
  push_eth b dst src ETHERTYPE_IP4 =
    Some (mk_nb (memcpy (nb_storage b) (nb_data b - 14) (dst ++ src ++ [0x08; 0x00])) (nb_data b - 14) (nb_len b + 14)).
Proof.
  intros Hd Hl Hc Hst H1 H2. unfold push_eth, netbuf_push, ETH_HDR_LEN. destruct (Z.ltb_spec (nb_data b) 14); [lia|]. f_equal.
  rewrite u16_small by lia. unfold put16.
  change (le_bytes 2 (htons ETHERTYPE_IP4)) with [0x08; 0x00]. set (b4 := mk_nb _ _ _).
  replace 6 with (0 + zlen dst) by lia. rewrite nb_put_app by (unfold b4; cbn [nb_storage nb_data]; lia).
  replace 12 with (0 + zlen (dst ++ src)) by (rewrite zlen_app; lia).
  rewrite nb_put_app by (unfold b4; cbn [nb_storage nb_data]; rewrite ?zlen_app; change (zlen [8; 0]) with 2; lia).
  unfold b4, nb_put. cbn [nb_storage nb_data nb_len]. rewrite <- app_assoc. f_equal; [f_equal|..]; lia.
Qed.

(** The bytes of a frame whose 34 bytes of headers were written in two steps in
    front of a payload. *)
Lemma frame_two_headers st d n e h :
  34 <= d -> 0 <= n -> d + n <= zlen st -> zlen e = 14 -> zlen h = 20 ->
  frame_of (mk_nb (memcpy (memcpy st (d - 20) h) (d - 34) e) (d - 34) (n + 34)) =
    e ++ h ++ take (Z.to_nat n) (drop (Z.to_nat d) st).
Proof.
  intros Hd Hn Hst Le Lh.
  assert (S2 : zlen (memcpy st (d - 20) h) = zlen st) by (rewrite zlen_memcpy by lia; done).
  unfold frame_of, nb_bytes. cbn [nb_storage nb_data nb_len]. rewrite Z.add_0_r.
  replace (Z.to_nat (n + 34)) with (14 + (20 + Z.to_nat n))%nat by lia.
  rewrite <- take_take_drop, <- take_take_drop, !drop_drop.
  pose proof (bytes_memcpy (memcpy st (d - 20) h) (d - 34) e 0 14 ltac:(lia) ltac:(lia) ltac:(lia) ltac:(lia) ltac:(lia)) as A.
  rewrite Z.add_0_r in A. change (Z.to_nat 14) with 14%nat in A. rewrite A. change (drop (Z.to_nat 0) e) with e.
  rewrite take_ge by (unfold zlen in Le; lia).
  replace (Z.to_nat (d - 34) + 14)%nat with (Z.to_nat (d - 34 + 14)) by lia.
  replace (Z.to_nat (d - 34 + 14) + 20)%nat with (Z.to_nat (d - 34 + 34)) by lia.
  rewrite (bytes_after_memcpy _ _ e 14), (bytes_after_memcpy _ _ e 34) by lia.
  replace (d - 34 + 14) with (d - 20 + 0) by lia.
  pose proof (bytes_memcpy st (d - 20) h 0 20 ltac:(lia) ltac:(lia) ltac:(lia) ltac:(lia) ltac:(lia)) as B.
  change (Z.to_nat 20) with 20%nat in B. rewrite B. change (drop (Z.to_nat 0) h) with h. rewrite take_ge by (unfold zlen in Lh; lia).
  replace (d - 34 + 34) with (d - 20 + 20) by lia. rewrite bytes_after_memcpy by lia.
  replace (d - 20 + 20) with d by lia. done.
Qed.

(** A received window split after its 20 header bytes. *)
Lemma nb_bytes_header_payload r h payload n :
  0 <= nb_data r -> 0 <= n -> nb_len r = 20 + n -> zlen h = 20 -> nb_bytes r 0 (nb_len r) = h ++ payload ->
  nb_bytes r 0 20 = h /\ take (Z.to_nat n) (drop (Z.to_nat (nb_data r + 20)) (nb_storage r)) = payload.
Proof.
  intros Hrd Hn Hrl Lh Hrb. unfold nb_bytes in *. rewrite Hrl, Z.add_0_r in *. unfold zlen in Lh. split.
  - apply (f_equal (take 20)) in Hrb. rewrite take_take in Hrb.
    replace (20 `min` Z.to_nat (20 + n))%nat with 20%nat in Hrb by lia. change (Z.to_nat 20) with 20%nat. rewrite Hrb.
    rewrite take_app_le by lia. by rewrite take_ge by lia.
  - apply (f_equal (drop 20)) in Hrb. rewrite drop_app_ge in Hrb by lia.
    replace (20 - length h)%nat with O in Hrb by lia. rewrite drop_0 in Hrb. rewrite <- Hrb.
    replace (Z.to_nat (20 + n)) with (20 + Z.to_nat n)%nat by lia.
    rewrite <- take_drop_commute, drop_drop. do 2 f_equal. lia.
Qed.

(** C19: IPv4 output and input agree.  With room for the headers and a resolved
    next hop, [ip4_output] transmits one frame: Ethernet header, a 20-byte IP
    header whose checksum verifies, and the payload unchanged; the datagram id
    is used up.  A host whose address is the destination and that receives these
    bytes hands its protocol handler the same payload, protocol, source and
    destination. *)
Theorem ip4_output_input iface dst proto b (s : ist) mac lk nh :
  34 <= nb_data b -> 0 <= nb_len b -> nb_data b + nb_len b <= NETBUF_CAP -> zlen (nb_storage b) = NETBUF_CAP ->
  Forall byte (nb_storage b) ->
  0 <= if_ip iface < 2 ^ 32 -> 0 <= dst < 2 ^ 32 -> 0 <= g_ip_id s < 65536 -> zlen (if_mac iface) = 6 -> zlen mac = 6 ->
  dst <> IP4 127 0 0 1 -> proto ∈ [IP_PROTO_ICMP; IP_PROTO_TCP; IP_PROTO_UDP] ->
  nh = (if negb (Z.land dst (if_mask iface) =? Z.land (if_ip iface) (if_mask iface)) then if_gw iface else dst) ->
  arp_resolve iface nh (i_lnk s) = (Some mac, lk) ->
  let payload := nb_bytes b 0 (nb_len b) in
  exists h b', zlen h = 20 /\ inet_cksum h = 0 /\
    let frame := mac ++ if_mac iface ++ [0x08; 0x00] ++ h ++ payload in
    ip4_output blocked upper tx iface dst proto b s =
      Some (tx frame, b', with_lnk (send_frame frame lk) (with_id (u16 (g_ip_id s + 1)) s)) /\
    forall iface2 r (s2 : ist), if_ip iface2 = dst -> blocked (if_ip iface) = false ->
      0 <= nb_data r -> nb_len r = 20 + nb_len b -> nb_bytes r 0 (nb_len r) = h ++ payload ->
      exists r', ip4_input blocked upper iface2 r s2 = upper proto (if_ip iface) dst r' s2 /\
        nb_len r' = nb_len b /\ nb_bytes r' 0 (nb_len r') = payload.
Proof.
  intros Hd Hl Hcap Hst Hby Hip Hdst Hid Hm1 Hm2 Hlo Hpr Hnh Harp payload. unfold NETBUF_CAP in *.
  assert (Hp : byte proto /\ ((proto =? IP_PROTO_ICMP) || (proto =? IP_PROTO_TCP) || (proto =? IP_PROTO_UDP)) = true).
  { apply elem_of_cons in Hpr as [->|Hpr]; [done|]. apply elem_of_cons in Hpr as [->|Hpr]; [done|].
    apply list_elem_of_singleton in Hpr as ->. done. }
  destruct Hp as [Hp Hup]. set (b1 := mk_nb (nb_storage b) (nb_data b - 20) (nb_len b + 20)).
  destruct (ip4_header_spec b1 proto (g_ip_id s) (if_ip iface) dst) as (Eh & Lh & Fh & Ch); [cbn; lia..| |lia|lia|lia|];
    [done|]. cbn [nb_len b1] in Eh, Lh, Fh, Ch. set (h := ip4_bytes (nb_len b + 20) _ _ _ _ (be_bytes 2 _)) in *.
  assert (Lp : zlen payload = nb_len b).
  { unfold payload, nb_bytes, zlen in *. rewrite length_take, length_drop. lia. }
  set (b2 := nb_put b1 0 h) in *. set (e := mac ++ if_mac iface ++ [0x08; 0x00]).
  assert (Le : zlen e = 14) by (unfold e; rewrite !zlen_app; change (zlen [0x08; 0x00]) with 2; lia).
  set (b3 := mk_nb (memcpy (nb_storage b2) (nb_data b - 34) e) (nb_data b - 34) (nb_len b + 34)).
  assert (S2 : zlen (nb_storage b2) = 1536) by (unfold b2, nb_put; cbn [nb_storage nb_data b1]; rewrite zlen_memcpy by lia; done).
  assert (P3 : push_eth b2 mac (if_mac iface) ETHERTYPE_IP4 = Some b3).
  { rewrite push_eth_spec by (try done; change (nb_data b2) with (nb_data b - 20); change (nb_len b2) with (nb_len b + 20); lia).
    change (nb_data b2) with (nb_data b - 20). change (nb_len b2) with (nb_len b + 20). unfold b3. fold e. f_equal. f_equal; [f_equal|..]; lia. }
  assert (F3 : frame_of b3 = mac ++ if_mac iface ++ [0x08; 0x00] ++ h ++ payload).
  { unfold b3, b2, nb_put. cbn [nb_storage nb_data b1]. rewrite Z.add_0_r, frame_two_headers by lia.
    unfold payload, nb_bytes, e. by rewrite Z.add_0_r, <- !app_assoc. }
  exists h, b3. split; [exact Lh|]. split; [exact Ch|]. cbn zeta. split.
  - unfold ip4_output, netbuf_push, IP4_HDR_LEN. destruct (Z.ltb_spec (nb_data b) 20); [lia|]. rewrite u16_small by lia. fold b1.
    rewrite Eh. destruct (Z.eqb_spec dst (IP4 127 0 0 1)); [done|].
    change (i_lnk (with_id (u16 (g_ip_id s + 1)) s)) with (i_lnk s). rewrite <- Hnh, Harp, P3, F3. done.
  - intros iface2 r s2 Hif Hbl Hrd Hrl Hrb.
    destruct (nb_bytes_header_payload r h payload (nb_len b) Hrd Hl Hrl Lh Hrb) as [R20 Rp]. unfold h in R20.
    rewrite (ip4_input_plain iface2 r s2 (nb_len b + 20) (g_ip_id s) proto (if_ip iface) dst _ Hrd ltac:(lia)
      ltac:(lia) Hid Hp Hip Hdst (zlen_be_bytes 2 _) R20 (eq_sym Hif) Hbl).
    unfold dispatch. rewrite Hup. eexists. split; [reflexivity|]. cbn [nb_len]. split; [lia|].
    rewrite <- Rp. unfold nb_bytes. cbn [nb_storage nb_data]. do 2 f_equal; [lia|f_equal; lia].
Qed.

End Wire.

(** ** Reassembly of a datagram cut into fragments *)

(** The fragments of [P]: offset and data, for the given lengths. *)
Fixpoint cut (off : Z) (lens : list Z) (P : list Z) : list (Z * list Z) :=
  match lens with
  | [] => []
  | n :: lens => (off, take (Z.to_nat n) P) :: cut (off + n) lens (drop (Z.to_nat n) P)
  end.

(** Every fragment is non-empty, every one but the last a multiple of 8 bytes. *)
Fixpoint cuttable (lens : list Z) : Prop :=
  match lens with
  | [] => True
  | n :: lens => 0 < n /\ (lens = [] \/ n mod 8 = 0) /\ cuttable lens
  end.

Definition total (lens : list Z) : Z := fold_right Z.add 0 lens.

(** The flags and offset field of a fragment of an [n]-byte datagram. *)
Definition flags_of (n : Z) (x : Z * list Z) : Z := Z.lor (x.1 / 8) (if x.1 + zlen x.2 <? n then IP_FLAG_MF else 0).

Lemma cuttable_total lens : cuttable lens -> 0 <= total lens /\ (lens <> [] -> 0 < total lens).
Proof.
  induction lens as [|n lens IH]; [done|]. intros (Hn & _ & Hc). destruct (IH Hc) as [A _].
  change (total (n :: lens)) with (n + total lens). split; intros; lia.
Qed.

Lemma cut_elem lens : forall off P x, cuttable lens -> zlen P = total lens -> off mod 8 = 0 -> x ∈ cut off lens P ->
  off <= x.1 /\ x.1 mod 8 = 0 /\ 0 < zlen x.2 /\ x.1 + zlen x.2 <= off + total lens.
Proof.
  induction lens as [|n lens IH]; intros off P x Hc Hl Ho Hx; [by apply not_elem_of_nil in Hx|].
  destruct Hc as (Hn & H8 & Hc). destruct (cuttable_total lens Hc) as [Ht _]. change (total (n :: lens)) with (n + total lens) in *.
  cbn [cut] in Hx. apply elem_of_cons in Hx as [->|Hx].
  - cbn [fst snd]. unfold zlen in *. rewrite length_take. lia.
  - destruct H8 as [->|H8]; [by apply not_elem_of_nil in Hx|].
    destruct (IH (off + n) (drop (Z.to_nat n) P) x Hc) as (A & B & C & D); [unfold zlen in *; rewrite length_drop; lia|Z.div_mod_to_equations; lia|done|].
    lia.
Qed.

(** Two different fragments do not overlap. *)
Lemma cut_disjoint lens : forall off P x y, cuttable lens -> zlen P = total lens -> off mod 8 = 0 ->
  x ∈ cut off lens P -> y ∈ cut off lens P -> x = y \/ x.1 + zlen x.2 <= y.1 \/ y.1 + zlen y.2 <= x.1.
Proof.
  induction lens as [|n lens IH]; intros off P x y Hc Hl Ho Hx Hy; [by apply not_elem_of_nil in Hx|].
  destruct Hc as (Hn & H8 & Hc). destruct (cuttable_total lens Hc) as [Ht _]. change (total (n :: lens)) with (n + total lens) in *.
  cbn [cut] in Hx, Hy. assert (Lh : zlen (take (Z.to_nat n) P) = n) by (unfold zlen in *; rewrite length_take; lia).
  assert (Ld : zlen (drop (Z.to_nat n) P) = total lens) by (unfold zlen in *; rewrite length_drop; lia).
  assert (Tail : forall z, z ∈ cut (off + n) lens (drop (Z.to_nat n) P) -> (off + n) mod 8 = 0 /\ off + n <= z.1).
  { intros z Hz. destruct H8 as [->|H8]; [by apply not_elem_of_nil in Hz|].
    assert (Ho' : (off + n) mod 8 = 0) by (Z.div_mod_to_equations; lia). split; [done|].
    by destruct (cut_elem lens (off + n) _ z Hc Ld Ho' Hz). }
  apply elem_of_cons in Hx as [->|Hx]; apply elem_of_cons in Hy as [->|Hy]; cbn [fst snd]; rewrite ?Lh; [by left| | |].
  - destruct (Tail y Hy). right. left. lia.
  - destruct (Tail x Hx). right. right. lia.
  - destruct (Tail x Hx) as [Ho' _]. by apply (IH (off + n) (drop (Z.to_nat n) P)).
Qed.

(** A buffer that agrees with every fragment holds the datagram. *)
Lemma cut_cover lens : forall off P B, cuttable lens -> zlen P = total lens -> 0 <= off ->
  off + total lens <= zlen B ->
  (forall x, x ∈ cut off lens P -> take (length x.2) (drop (Z.to_nat x.1) B) = x.2) ->
  take (Z.to_nat (total lens)) (drop (Z.to_nat off) B) = P.
Proof.
  induction lens as [|n lens IH]; intros off P B Hc Hl Ho Hb Hx.
  - unfold zlen in Hl. cbn in Hl. destruct P; [done|cbn in Hl; lia].
  - destruct Hc as (Hn & _ & Hc). destruct (cuttable_total lens Hc) as [Ht _]. change (total (n :: lens)) with (n + total lens) in *.
    assert (Lh : length (take (Z.to_nat n) P) = Z.to_nat n) by (unfold zlen in *; rewrite length_take; lia).
    replace (Z.to_nat (n + total lens)) with (Z.to_nat n + Z.to_nat (total lens))%nat by lia.
    rewrite <- take_take_drop, drop_drop. rewrite <- (take_drop (Z.to_nat n) P). f_equal.
    + specialize (Hx (off, take (Z.to_nat n) P) ltac:(by left)). cbn [fst snd] in Hx. by rewrite Lh in Hx.
    + replace (Z.to_nat off + Z.to_nat n)%nat with (Z.to_nat (off + n)) by lia. apply IH; [done| |lia|lia|].
      * unfold zlen in *. rewrite length_drop. lia.
      * intros x Hin. apply Hx. by right.
Qed.

Lemma cut_lengths lens : forall off P, cuttable lens -> zlen P = total lens ->
  total ((fun x : Z * list Z => zlen x.2) <$> cut off lens P) = total lens /\
  (lens <> [] -> exists x, x ∈ cut off lens P /\ x.1 + zlen x.2 = off + total lens).
Proof.
  induction lens as [|n lens IH]; intros off P Hc Hl; [done|].
  destruct Hc as (Hn & _ & Hc). destruct (cuttable_total lens Hc) as [Ht _]. change (total (n :: lens)) with (n + total lens) in *.
  assert (Lh : zlen (take (Z.to_nat n) P) = n) by (unfold zlen in *; rewrite length_take; lia).
  destruct (IH (off + n) (drop (Z.to_nat n) P) Hc) as [A B]; [unfold zlen in *; rewrite length_drop; lia|].
  cbn [cut fmap list_fmap]. change (total (?a :: ?l)) with (a + total l). cbn [snd]. rewrite Lh, A. split; [done|].
  intros _. destruct lens as [|m lens].
  - exists (off, take (Z.to_nat n) P). split; [by left|]. cbn [fst snd]. change (total []) with 0. lia.
  - destruct (B ltac:(done)) as (x & Hx & E). exists x. split; [by right|lia].
Qed.

Lemma find_frag_spec p l i :
  0 <= i ->
  (find_frag p l i = -1 /\ forall k, 0 <= k < zlen l -> p l.[k] = false) \/
  (exists k, 0 <= k < zlen l /\ find_frag p l i = i + k /\ p l.[k] = true).
Proof.
  intros Hi. destruct (find_from_spec p l i Hi) as [?|(k & ? & ? & ? & _)]; [by left|right; by exists k].
Qed.

Section Reassembly.
Context {H : Type} `{Allocator H}.
#[local] Notation "'ist'" := (ipst H).
Context (src dst proto ip_id : Z) (P : list Z) (lens : list Z).
Hypothesis Hcut : cuttable lens.
Hypothesis HP : zlen P = total lens.
Hypothesis Hsmall : total lens <= FRAG_MAX_PAYLOAD.

Definition frags : list (Z * list Z) := cut 0 lens P.

(** Feeding fragments one after the other; the result of every call. *)
Fixpoint feed (frs : list (Z * list Z)) (s : ist) : option (list (option (Z * list Z * Z)) * ist) :=
  match frs with
  | [] => Some ([], s)
  | x :: frs =>
      match ip4_frag_input src dst proto ip_id (flags_of (zlen P) x) x.2 s with
      | None => None
      | Some (r, s) => match feed frs s with None => None | Some (rs, s) => Some (r :: rs, s) end
      end
  end.

(** Slot [i] holds the fragments [done]. *)
Record holding (s : ist) (i : Z) (done_ : list (Z * list Z)) : Prop := {
  ho_len : zlen (g_frags s) = FRAG_MAX_SLOTS;
  ho_slot : 0 <= i < FRAG_MAX_SLOTS;
  ho_key : frag_key src dst proto ip_id (g_frags s).[i] = true;
  ho_other : forall j, 0 <= j < FRAG_MAX_SLOTS -> j <> i -> frag_key src dst proto ip_id (g_frags s).[j] = false;
  ho_buf : fs_buf (g_frags s).[i] <> 0;
  ho_size : zlen (fs_bytes (g_frags s).[i]) = FRAG_MAX_PAYLOAD;
  ho_bytes : forall x, x ∈ done_ -> take (length x.2) (drop (Z.to_nat x.1) (fs_bytes (g_frags s).[i])) = x.2;
  ho_filled : fs_filled (g_frags s).[i] = total ((fun x : Z * list Z => zlen x.2) <$> done_);
  ho_last : fs_have_last (g_frags s).[i] = true <-> exists x, x ∈ done_ /\ x.1 + zlen x.2 = zlen P;
  ho_total : fs_have_last (g_frags s).[i] = true -> fs_total_len (g_frags s).[i] = zlen P
}.

Lemma flags_fields x : x ∈ frags ->
  negb (Z.land (flags_of (zlen P) x) IP_FLAG_MF =? 0) = (x.1 + zlen x.2 <? zlen P) /\
  u16 (Z.land (flags_of (zlen P) x) IP_FRAG_MASK * 8) = x.1.
Proof.
  intros Hx. destruct (cut_elem lens 0 P x Hcut HP eq_refl Hx) as (A & B & C & D). unfold FRAG_MAX_PAYLOAD in Hsmall.
  assert (Hq : 0 <= x.1 / 8 < 2 ^ 13) by (Z.div_mod_to_equations; lia). unfold flags_of.
  set (q := x.1 / 8) in *. assert (Eq : q * 8 = x.1) by (unfold q; Z.div_mod_to_equations; lia).
  assert (M : forall m : bool, Z.lor q (if m then IP_FLAG_MF else 0) = q + (if m then 1 else 0) * 2 ^ 13).
  { intros []; [change IP_FLAG_MF with (1 * 2 ^ 13); apply lor_add_disjoint; lia|rewrite Z.lor_0_r; lia]. }
  rewrite M. set (m := x.1 + zlen x.2 <? zlen P). split.
  - change IP_FLAG_MF with (2 ^ 13). rewrite (land_split 13) by lia. change (2 ^ 13 mod 2 ^ 13) with 0. change (2 ^ 13 / 2 ^ 13) with 1.
    rewrite Z.land_0_r, Z.add_0_l, Z.div_add, Z.div_small by lia. by destruct m.
  - change IP_FRAG_MASK with (2 ^ 13 - 1). rewrite land_low, Z_mod_plus_full, Z.mod_small by lia. rewrite Eq. apply u16_small. lia.
Qed.

(** What one more fragment does to a slot that holds some. *)
Lemma frag_store_holding s i done_ x age h ag :
  holding s i done_ -> x ∈ frags -> (forall y, y ∈ done_ -> y ∈ frags) -> x ∉ done_ ->
  total ((fun x : Z * list Z => zlen x.2) <$> done_) + zlen x.2 <= zlen P ->
  let f := frag_store x.1 x.2 (x.1 + zlen x.2 <? zlen P) age (g_frags s).[i] in
  holding (with_frags (g_frags s).[i <- f] ag h s) i (done_ ++ [x]).
Proof.
  intros [Hl Hi Hk Ho Hb Hs Hby Hf Hla Ht] Hx Hd Hn Hsum f. unfold FRAG_MAX_PAYLOAD in *.
  destruct (cut_elem lens 0 P x Hcut HP eq_refl Hx) as (A & B & C & D).
  assert (G : (g_frags (with_frags (g_frags s).[i <- f] ag h s)).[i] = f) by (cbn [g_frags with_frags]; apply zget_zset_eq; lia).
  assert (Lm : zlen (memcpy (fs_bytes (g_frags s).[i]) x.1 x.2) = 65535) by (rewrite zlen_memcpy; lia).
  constructor; rewrite ?G.
  - cbn [g_frags with_frags]. by rewrite zlen_zset.
  - done.
  - unfold f, frag_store, frag_key in *. done.
  - intros j Hj Hne. cbn [g_frags with_frags]. rewrite zget_zset_ne by lia. by apply Ho.
  - done.
  - unfold f, frag_store. cbn [fs_bytes]. unfold FRAG_MAX_PAYLOAD. lia.
  - intros y Hy. unfold f, frag_store. cbn [fs_bytes]. apply elem_of_app in Hy as [Hy|Hy].
    + assert (Hne : y <> x) by (by intros ->). destruct (cut_elem lens 0 P y Hcut HP eq_refl (Hd y Hy)) as (A' & B' & C' & D').
      rewrite <- (Hby y Hy) at 2. apply list_eq. intros k. destruct (decide (k < length y.2)%nat) as [Hk'|Hk'].
      2:{ rewrite !lookup_take_ge by lia. done. }
      rewrite !lookup_take_lt, !lookup_drop by done.
      assert (E : forall l : list Z, zlen l = 65535 -> l !! (Z.to_nat y.1 + k)%nat = Some l.[y.1 + Z.of_nat k]).
      { intros l El. replace (Z.to_nat y.1 + k)%nat with (Z.to_nat (y.1 + Z.of_nat k)) by lia. apply zget_lookup. unfold zlen in *. lia. }
      rewrite !E by lia. f_equal. rewrite zget_memcpy by lia.
      destruct (cut_disjoint lens 0 P x y Hcut HP eq_refl Hx (Hd y Hy)) as [->|[E1|E1]]; [done| |];
        (destruct (Z.leb_spec x.1 (y.1 + Z.of_nat k)), (Z.ltb_spec (y.1 + Z.of_nat k) (x.1 + zlen x.2)); unfold zlen in *; try lia; done).
    + apply list_elem_of_singleton in Hy as ->.
      assert (E : take (Z.to_nat (zlen x.2)) (drop (Z.to_nat (x.1 + 0)) (memcpy (fs_bytes (g_frags s).[i]) x.1 x.2)) =
                  take (Z.to_nat (zlen x.2)) (drop (Z.to_nat 0) x.2)) by (apply bytes_memcpy; lia).
      rewrite Z.add_0_r in E. replace (Z.to_nat (zlen x.2)) with (length x.2) in E by (unfold zlen; lia).
      rewrite E. change (drop (Z.to_nat 0) x.2) with x.2. by apply take_ge.
  - unfold f, frag_store. cbn [fs_filled]. rewrite Hf, fmap_app. cbn [fmap list_fmap].
    assert (T : forall a b, total (a ++ b) = total a + total b).
    { intros a b. induction a as [|z a IH]; [done|]. change (total ((z :: a) ++ b)) with (z + total (a ++ b)).
      change (total (z :: a)) with (z + total a). lia. }
    rewrite T. change (total [zlen x.2]) with (zlen x.2 + 0).
    assert (N : 0 <= total ((fun x : Z * list Z => zlen x.2) <$> done_)).
    { clear. induction done_ as [|z l IH]; [done|]. cbn [fmap list_fmap]. change (total (?a :: ?l)) with (a + total l).
      pose proof (zlen_nonneg z.2). lia. }
    rewrite u16_small by lia. lia.
  - unfold f, frag_store. cbn [fs_have_last]. destruct (Z.ltb_spec (x.1 + zlen x.2) (zlen P)).
    + rewrite Hla. split; intros (y & Hy & E); exists y; (split; [|done]); [apply elem_of_app; by left|].
      apply elem_of_app in Hy as [Hy|Hy]; [done|]. apply list_elem_of_singleton in Hy as ->. lia.
    + split; [intros _; exists x; split; [apply elem_of_app; right; by apply list_elem_of_singleton|lia]|done].
  - unfold f, frag_store. cbn [fs_have_last fs_total_len]. destruct (Z.ltb_spec (x.1 + zlen x.2) (zlen P)); [done|].
    intros _. rewrite u16_small by lia. lia.
Qed.

(** The part of [ip4_frag_input] after the slot is known. *)
Definition frag_rest (i : Z) (frag_offset : Z) (payload : list Z) (more_frags : bool) (s : ist) :
    option (option (Z * list Z * Z) * ist) :=
  let f := frag_store frag_offset payload more_frags (g_frag_age s) (g_frags s).[i] in
  let s := with_frags (g_frags s).[i <- f] (u32 (g_frag_age s + 1)) (i_heap s) s in
  if fs_have_last f && (fs_total_len f <=? fs_filled f) then
    Some (Some (fs_buf f, fs_bytes f, fs_total_len f),
          with_frags (g_frags s).[i <- frag_release f] (g_frag_age s) (i_heap s) s)
  else Some (None, s).

Lemma total_app a b : total (a ++ b) = total a + total b.
Proof.
  induction a as [|z a IH]; [done|]. change (total ((z :: a) ++ b)) with (z + total (a ++ b)).
  change (total (z :: a)) with (z + total a). lia.
Qed.

Lemma total_perm (a b : list Z) : a ≡ₚ b -> total a = total b.
Proof.
  induction 1 as [|x a b _ IH|x y a|a b c _ IH1 _ IH2]; [done| | |congruence].
  - change (x + total a = x + total b). lia.
  - change (y + (x + total a) = x + (y + total a)). lia.
Qed.

Definition size_of (l : list (Z * list Z)) : Z := total ((fun x : Z * list Z => zlen x.2) <$> l).

Lemma frags_size frs : frs ≡ₚ frags -> size_of frs = zlen P.
Proof.
  intros Hp. unfold size_of. rewrite (total_perm _ ((fun x : Z * list Z => zlen x.2) <$> frags)) by (by apply fmap_Permutation).
  destruct (cut_lengths lens 0 P Hcut HP) as [A _]. unfold frags. lia.
Qed.

Lemma size_pos l : (forall x, x ∈ l -> x ∈ frags) -> 0 <= size_of l /\ (l <> [] -> 0 < size_of l).
Proof.
  induction l as [|x l IH]; intros Hx; [done|]. destruct IH as [A _]; [intros y Hy; apply Hx; by right|].
  destruct (cut_elem lens 0 P x Hcut HP eq_refl (Hx x ltac:(by left))) as (_ & _ & C & _).
  unfold size_of in *. cbn [fmap list_fmap]. change (total (?a :: ?l)) with (a + total l). split; intros; lia.
Qed.

Lemma frags_nodup : NoDup frags.
Proof.
  unfold frags. clear Hsmall. revert HP Hcut. generalize 0 P. induction lens as [|n l IH]; intros off Q HQ Hc; [constructor|].
  destruct Hc as (Hn & H8 & Hc). destruct (cuttable_total l Hc) as [Ht _]. change (total (n :: l)) with (n + total l) in HQ.
  cbn [cut]. assert (Ld : zlen (drop (Z.to_nat n) Q) = total l) by (unfold zlen in *; rewrite length_drop; lia).
  constructor; [|by apply IH]. intros Hin. clear IH.
  assert (Lo : forall l off Q x, cuttable l -> x ∈ cut off l Q -> off <= x.1).
  { clear. induction l as [|n l IH]; intros off Q x Hc Hx; [by apply not_elem_of_nil in Hx|]. destruct Hc as (Hn & _ & Hc).
    cbn [cut] in Hx. apply elem_of_cons in Hx as [->|Hx]; [cbn; lia|]. specialize (IH _ _ _ Hc Hx). lia. }
  specialize (Lo l (off + n) _ _ Hc Hin). cbn in Lo. lia.
Qed.

Lemma frag_rest_step s i done_ x todo :
  holding s i done_ -> done_ ++ x :: todo ≡ₚ frags ->
  let m := x.1 + zlen x.2 <? zlen P in
  match todo with
  | [] => exists p B s', frag_rest i x.1 x.2 m s = Some (Some (p, B, zlen P), s') /\
            take (Z.to_nat (zlen P)) B = P /\ frag_find src dst proto ip_id s' = -1
  | _ :: _ => exists s', frag_rest i x.1 x.2 m s = Some (None, s') /\ holding s' i (done_ ++ [x])
  end.
Proof.
  intros Hh Hp m.
  assert (Sub : forall y, y ∈ done_ ++ x :: todo -> y ∈ frags) by (intros y Hy; by rewrite <- Hp).
  assert (Nd : NoDup (done_ ++ x :: todo)) by (rewrite Hp; apply frags_nodup).
  assert (Hx : x ∈ frags) by (apply Sub, elem_of_app; right; by left).
  assert (Hd : forall y, y ∈ done_ -> y ∈ frags) by (intros y Hy; apply Sub, elem_of_app; by left).
  assert (Hn : x ∉ done_) by (apply NoDup_app in Nd as (_ & Nd & _); intros Hin; apply (Nd x Hin); by left).
  assert (Sz : size_of done_ + zlen x.2 + size_of todo = zlen P).
  { rewrite <- (frags_size _ Hp). unfold size_of. rewrite fmap_app, total_app. cbn [fmap list_fmap].
    change (total (?a :: ?l)) with (a + total l). lia. }
  destruct (size_pos todo) as [St St']; [intros y Hy; apply Sub, elem_of_app; right; by right|].
  set (f := frag_store x.1 x.2 m (g_frag_age s) (g_frags s).[i]).
  pose proof (frag_store_holding s i done_ x (g_frag_age s) (i_heap s) (u32 (g_frag_age s + 1)) Hh Hx Hd Hn ltac:(change (size_of done_ + zlen x.2 <= zlen P); lia)) as Hh'.
  cbn zeta in Hh'. fold m f in Hh'. unfold frag_rest. fold f. set (s1 := with_frags _ _ _ s) in *.
  pose proof Hh' as [Hl Hi Hk Ho Hb Hs Hby Hf Hla Ht].
  assert (Gf : (g_frags s1).[i] = f) by (destruct Hh as [Hl0 _]; unfold s1; cbn [g_frags with_frags]; apply zget_zset_eq; lia).
  rewrite Gf in *. rewrite fmap_app, total_app in Hf. cbn [fmap list_fmap] in Hf. change (total [zlen x.2]) with (zlen x.2 + 0) in Hf.
  fold (size_of done_) in Hf. destruct todo as [|t todo].
  - change (size_of []) with 0 in Sz.
    assert (Hlast : fs_have_last f = true).
    { apply Hla. destruct (cut_lengths lens 0 P Hcut HP) as [_ L]. destruct L as (y & Hy & E).
      { intros E0. unfold frags in Hx. rewrite E0 in Hx. by apply not_elem_of_nil in Hx. }
      exists y. split; [by rewrite Hp|lia]. }
    rewrite Hlast, (Ht Hlast). destruct (Z.leb_spec (zlen P) (fs_filled f)); [|lia]. cbn [andb].
    eexists _, _, _. split; [reflexivity|]. split.
    + rewrite HP. rewrite <- (drop_0 (fs_bytes f)) at 1. change O with (Z.to_nat 0) at 1.
      apply (cut_cover lens 0 P (fs_bytes f)); [done|done|lia|unfold FRAG_MAX_PAYLOAD in *; lia|].
      intros y Hy. apply Hby. by rewrite Hp.
    + unfold frag_find. cbn [g_frags with_frags]. set (l := (g_frags s1).[i <- frag_release f]).
      destruct (find_frag_spec (frag_key src dst proto ip_id) l 0 ltac:(lia)) as [[E _]|(k & Hk' & E & F)]; [done|exfalso].
      unfold l in *. rewrite zlen_zset in Hk'. destruct (decide (k = i)) as [->|Hne].
      * rewrite zget_zset_eq in F by lia. unfold frag_key, frag_release in F. done.
      * rewrite zget_zset_ne, Ho in F by (done || lia). done.
  - specialize (St' ltac:(done)). exists s1. split; [|done].
    destruct (fs_have_last f) eqn:El; cbn [andb]; [|done]. rewrite (Ht eq_refl). destruct (Z.leb_spec (zlen P) (fs_filled f)); [lia|done].
Qed.

Lemma holding_find s i done_ : holding s i done_ -> frag_find src dst proto ip_id s = i.
Proof.
  intros [Hl Hi Hk Ho _ _ _ _ _ _]. unfold frag_find.
  destruct (find_frag_spec (frag_key src dst proto ip_id) (g_frags s) 0 ltac:(lia)) as [[_ B]|(k & Hk' & E & F)].
  - specialize (B i ltac:(lia)). congruence.
  - rewrite E, Z.add_0_l. destruct (decide (k = i)) as [|Hne]; [done|]. rewrite Ho in F by (done || lia). done.
Qed.

(** A fragment for a slot that exists, and one that opens a slot. *)
Lemma frag_input_rest s i s1 done_ x :
  x ∈ frags -> holding s1 i done_ ->
  (s1 = s /\ frag_find src dst proto ip_id s = i \/
   frag_find src dst proto ip_id s = -1 /\ frag_alloc src dst proto ip_id s = (i, s1)) ->
  ip4_frag_input src dst proto ip_id (flags_of (zlen P) x) x.2 s = frag_rest i x.1 x.2 (x.1 + zlen x.2 <? zlen P) s1.
Proof.
  intros Hx Hh Hs. destruct (flags_fields x Hx) as [Em Eo]. destruct (cut_elem lens 0 P x Hcut HP eq_refl Hx) as (A & B & C & D).
  unfold ip4_frag_input. rewrite Em, Eo. destruct (Z.ltb_spec FRAG_MAX_PAYLOAD (x.1 + zlen x.2)); [lia|].
  pose proof Hh as [Hl Hi Hk _ Hb _ _ _ _ _].
  assert (E : (if 0 <=? frag_find src dst proto ip_id s then (frag_find src dst proto ip_id s, s)
               else frag_alloc src dst proto ip_id s) = (i, s1)).
  { destruct Hs as [[-> ->]|[-> ->]]; [|done]. destruct (Z.leb_spec 0 i); [done|lia]. }
  rewrite E. destruct (Z.ltb_spec i 0); [lia|]. destruct (Z.eqb_spec (fs_buf (g_frags s1).[i]) 0); [done|]. reflexivity.
Qed.

(** A fresh slot holds nothing. *)
Lemma frag_setup_holding s i i' s1 :
  zlen (g_frags s) = FRAG_MAX_SLOTS -> 0 <= i < FRAG_MAX_SLOTS -> zlen P <> 0 -> frag_find src dst proto ip_id s = -1 ->
  frag_setup i src dst proto ip_id s = (i', s1) -> 0 <= i' -> i' = i /\ holding s1 i [].
Proof.
  intros Hl Hi HnP Hf E Hi'. unfold frag_setup, kzalloc_frag in E.
  assert (Lz : zlen (replicate (Z.to_nat FRAG_MAX_PAYLOAD) 0) = FRAG_MAX_PAYLOAD).
  { unfold zlen. rewrite length_replicate. apply Z2Nat.id. unfold FRAG_MAX_PAYLOAD. lia. }
  revert Lz E. generalize (replicate (Z.to_nat FRAG_MAX_PAYLOAD) 0). intros z Lz E.
  destruct (al_alloc FRAG_MAX_PAYLOAD (i_heap s)) as [p h].
  destruct (Z.eqb_spec p 0) as [->|Hp]; injection E as <- <-; [lia|]. split; [done|].
  set (f := mk_frag src dst proto ip_id p z 0 0 false true (g_frag_age s)).
  assert (G : (g_frags s).[i <- f].[i] = f) by (apply zget_zset_eq; lia).
  constructor; cbn [g_frags with_frags]; rewrite ?G.
  - by rewrite zlen_zset.
  - done.
  - unfold f, frag_key. cbn. by rewrite !Z.eqb_refl.
  - intros j Hj Hne. rewrite zget_zset_ne by lia. unfold frag_find in Hf.
    destruct (find_frag_spec (frag_key src dst proto ip_id) (g_frags s) 0 ltac:(lia)) as [[_ B]|(k & Hk & E & _)]; [apply B; lia|lia].
  - done.
  - exact Lz.
  - intros x Hx. by apply not_elem_of_nil in Hx.
  - done.
  - split; [done|]. intros (x & Hx & _). by apply not_elem_of_nil in Hx.
  - done.
Qed.

Lemma frag_alloc_holding s i s1 :
  zlen (g_frags s) = FRAG_MAX_SLOTS -> zlen P <> 0 -> frag_find src dst proto ip_id s = -1 ->
  frag_alloc src dst proto ip_id s = (i, s1) -> 0 <= i -> holding s1 i [].
Proof.
  intros Hl HnP Hf E Hi. unfold frag_alloc in E.
  destruct (find_frag_spec (fun f => negb (fs_active f)) (g_frags s) 0 ltac:(lia)) as [[E0 _]|(k & Hk & E0 & _)]; rewrite E0 in E.
  - change (0 <=? -1) with false in E. cbv iota in E. set (o := oldest_frag (g_frags s)) in *.
    assert (Ho : 0 <= o < FRAG_MAX_SLOTS).
    { unfold o, oldest_frag.
      pose proof (for_loop_ind (fun _ o => 0 <= o < FRAG_MAX_SLOTS) (Z.to_nat (FRAG_MAX_SLOTS - 1)) 1
        (fun i o => if fs_age (g_frags s).[i] <? fs_age (g_frags s).[o] then i else o) 0) as L.
      cbn beta in L. apply L; [done|]. intros j o' Hj Ho'. unfold FRAG_MAX_SLOTS in *. destruct (_ <? _); lia. }
    set (s0 := with_frags _ _ _ s) in E.
    destruct (frag_setup_holding s0 o i s1) as [-> Hh]; [done..|]. done.
  - rewrite Z.add_0_l in E. destruct (Z.leb_spec 0 k); [|lia].
    destruct (frag_setup_holding s k i s1) as [-> Hh]; [done|lia|done..|]. done.
Qed.

Lemma feed_holding frs : forall s i done_,
  holding s i done_ -> done_ ++ frs ≡ₚ frags -> frs <> [] ->
  exists p B s', feed frs s = Some (replicate (length frs - 1) None ++ [Some (p, B, zlen P)], s') /\
    take (Z.to_nat (zlen P)) B = P /\ frag_find src dst proto ip_id s' = -1.
Proof.
  induction frs as [|x frs IH]; intros s i done_ Hh Hp Hne; [done|]. cbn [feed].
  assert (Hx : x ∈ frags) by (rewrite <- Hp; apply elem_of_app; right; by left).
  rewrite (frag_input_rest s i s done_ x Hx Hh) by (left; split; [done|by eapply holding_find]).
  pose proof (frag_rest_step s i done_ x frs Hh Hp) as S. cbn zeta in S. destruct frs as [|y frs].
  - destruct S as (p & B & s' & E & EB & EF). rewrite E. cbn [feed]. exists p, B, s'. done.
  - destruct S as (s' & E & Hh'). rewrite E.
    destruct (IH s' i (done_ ++ [x]) Hh') as (p & B & s'' & E' & EB & EF); [by rewrite <- app_assoc|done|].
    rewrite E'. exists p, B, s''. split; [|done]. cbn [length]. repeat f_equal.
    replace (S (S (length frs)) - 1)%nat with (S (length frs)) by lia. cbn [replicate app]. repeat f_equal. lia.
Qed.

(** C20: reassembly.  Let a datagram payload of at most 65535 bytes be cut into
    non-empty fragments, each but the last a multiple of 8 bytes long.  Fed in
    any order, each once, to a reassembler that has no slot for the datagram and
    can allocate one, every call but the last reports "incomplete" and the last
    returns the original payload and its length; the slot is then free. *)
Theorem ip4_reassembly frs s :
  lens <> [] -> frs ≡ₚ frags -> zlen (g_frags s) = FRAG_MAX_SLOTS ->
  frag_find src dst proto ip_id s = -1 -> 0 <= (frag_alloc src dst proto ip_id s).1 ->
  exists p B s', feed frs s = Some (replicate (length frs - 1) None ++ [Some (p, B, zlen P)], s') /\
    take (Z.to_nat (zlen P)) B = P /\ frag_find src dst proto ip_id s' = -1.
Proof.
  intros Hne Hp Hl Hf Ha. destruct (cuttable_total lens Hcut) as [_ Ht]. specialize (Ht Hne).
  destruct (frag_alloc src dst proto ip_id s) as [i s1] eqn:E. cbn [fst] in Ha.
  pose proof (frag_alloc_holding s i s1 Hl ltac:(lia) Hf E Ha) as Hh.
  destruct frs as [|x frs].
  { assert (X : size_of [] = zlen P) by (by apply frags_size). change (size_of []) with 0 in X. lia. }
  assert (Hx : x ∈ frags) by (rewrite <- Hp; by left).
  assert (En : feed (x :: frs) s = feed (x :: frs) s1).
  { cbn [feed]. rewrite (frag_input_rest s i s1 [] x Hx Hh) by (by right).
    rewrite (frag_input_rest s1 i s1 [] x Hx Hh) by (left; split; [done|by eapply holding_find]). done. }
  rewrite En. by apply (feed_holding (x :: frs) s1 i []).
Qed.

End Reassembly.

(** ** Malformed lengths *)

Section Malformed.
Context {H : Type} `{Allocator H}.
#[local] Notation "'ist'" := (ipst H).
Context (blocked : Z -> bool) (upper : Z -> Z -> Z -> netbuf -> ist -> option ist).

(** A total length smaller than the header is not rejected.  For an IPv4
    packet addressed to the host whose total-length field is below its header
    length, the subtraction [tot_len - ihl] wraps: an unfragmented packet reaches
    the protocol handler with a length of more than 65000 bytes, far beyond the
    1536-byte buffer, and a fragment makes the reassembler copy past the end of
    the buffer. *)
Theorem ip4_input_length_underflow iface b (s : ist) vi ihl tot fl proto src :
  20 <= nb_len b -> 0 <= nb_data b ->
  vi = nb_get 1 b 0 -> ihl = u8 (Z.land vi 0x0F * 4) -> tot = ntohs (nb_get 2 b 2) -> fl = ntohs (nb_get 2 b 6) ->
  proto = nb_get 1 b 9 -> src = ntohl (nb_get 4 b 12) ->
  Z.shiftr vi 4 = 4 -> 20 <= ihl -> 0 <= tot < ihl -> tot <= nb_len b ->
  ntohl (nb_get 4 b 16) = if_ip iface -> blocked src = false ->
  if negb (Z.land fl IP_FLAG_MF =? 0) || negb (Z.land fl IP_FRAG_MASK =? 0)
  then ip4_input blocked upper iface b s = None
  else exists b', ip4_input blocked upper iface b s = dispatch upper proto src (if_ip iface) b' s /\
                  nb_storage b' = nb_storage b /\ 65000 < nb_len b'.
Proof.
  intros Hl Hd Hvi Hihl Htot Hfl Hpr Hsrc Hv Hi20 Ht Htl Hdst Hbl. unfold ip4_input.
  rewrite <- Hvi, <- Hihl, <- Htot, <- Hfl, <- Hpr, <- Hsrc, Hv, Hdst, Hbl.
  destruct (Z.ltb_spec (nb_len b) IP4_HDR_LEN); [unfold IP4_HDR_LEN in *; lia|]. change (4 =? 4) with true. cbn [negb].
  destruct (Z.ltb_spec ihl IP4_HDR_LEN); [unfold IP4_HDR_LEN in *; lia|].
  destruct (Z.ltb_spec (nb_len b) tot); [lia|]. cbn [orb]. rewrite Z.eqb_refl. cbn [negb andb].
  assert (Hm : ihl <= 60).
  { rewrite Hihl. change 0x0F with (2 ^ 4 - 1). rewrite land_low by lia. pose proof (Z.mod_pos_bound vi (2 ^ 4) ltac:(lia)).
    rewrite u8_small by lia. lia. }
  assert (E : u16 (tot - ihl) = 65536 + tot - ihl) by ulia. rewrite E. set (b1 := default b (netbuf_pull b ihl)).
  assert (Hb1 : nb_storage b1 = nb_storage b /\ 0 <= nb_data b1).
  { unfold b1, netbuf_pull. destruct (Z.ltb_spec (nb_len b) ihl); cbn; [done|]. split; [done|lia]. }
  destruct Hb1 as [Hb1 Hb2]. destruct (negb _ || negb _).
  - cbn [nb_data nb_len set_len]. destruct (Z.ltb_spec NETBUF_CAP (nb_data b1 + (65536 + tot - ihl))); [done|unfold NETBUF_CAP in *; lia].
  - eexists. split; [reflexivity|]. cbn [nb_storage nb_len set_len]. split; [done|lia].
Qed.

End Malformed.

(** ** Witnesses *)

Definition heap1m : heap := kmalloc_init 0x200000 0x100000 (mk_heap ∅ 0 0 0).
Definition host : netif := mk_netif [2; 0; 0; 0; 0; 1] (IP4 10 0 2 15) 0xFFFFFF00 (IP4 10 0 2 2) true.
Definition ip0 : ipst heap := mk_ip (arp_cache_update (IP4 10 0 2 2) [1; 2; 3; 4; 5; 6] lnk0) 7 (replicate 4 frag_zero) 0 heap1m.
Definition pay : netbuf := mk_nb (memcpy (replicate 1536 0) 256 [104; 105; 33]) 256 3.

Definition no_block (_ : Z) : bool := false.
Definition no_upper (_ _ _ : Z) (_ : netbuf) (s : ipst heap) : option (ipst heap) := Some s.
Definition take_all (_ : list Z) : bool := true.

Lemma ip4_output_input_witness :
  exists h b', zlen h = 20 /\ inet_cksum h = 0 /\
    ip4_output no_block no_upper take_all host (IP4 10 0 2 2) IP_PROTO_UDP pay ip0 =
      Some (true, b', with_lnk (send_frame ([1; 2; 3; 4; 5; 6] ++ [2; 0; 0; 0; 0; 1] ++ [0x08; 0x00] ++ h ++ [104; 105; 33]) (i_lnk ip0))
                               (with_id 8 ip0)).
Proof.
  assert (B : Forall byte (nb_storage pay)).
  { unfold pay. cbn [nb_storage]. apply Forall_memcpy; [by apply Forall_replicate|repeat constructor; unfold byte; lia]. }
  pose proof (ip4_output_input no_block no_upper take_all host (IP4 10 0 2 2) IP_PROTO_UDP pay ip0 [1; 2; 3; 4; 5; 6] (i_lnk ip0) (IP4 10 0 2 2)) as T.
  destruct T as (h & b' & Lh & Ch & E & _).
  - vm_compute. discriminate.
  - vm_compute. discriminate.
  - vm_compute. discriminate.
  - reflexivity.
  - exact B.
  - split; vm_compute; [discriminate|reflexivity].
  - split; vm_compute; [discriminate|reflexivity].
  - split; vm_compute; [discriminate|reflexivity].
  - reflexivity.
  - reflexivity.
  - vm_compute. discriminate.
  - right. right. left.
  - vm_compute. reflexivity.
  - vm_compute. reflexivity.
  - exists h, b'. split; [exact Lh|]. split; [exact Ch|]. exact E.
Defined.

Definition dgram : list Z := [1; 2; 3; 4; 5; 6; 7; 8; 9; 10; 11; 12].

Lemma ip4_reassembly_witness :
  exists p B s', feed 1 2 17 5 dgram [(8, [9; 10; 11; 12]); (0, [1; 2; 3; 4; 5; 6; 7; 8])] ip0 =
      Some (replicate 1 None ++ [Some (p, B, 12)], s') /\ take 12 B = dgram.
Proof.
  assert (A : cuttable [8; 4]) by (cbn; repeat split; auto; lia).
  destruct (ip4_reassembly 1 2 17 5 dgram [8; 4] A eq_refl ltac:(vm_compute; discriminate)
    [(8, [9; 10; 11; 12]); (0, [1; 2; 3; 4; 5; 6; 7; 8])] ip0) as (p & B & s' & E & T & _).
  - discriminate.
  - apply Permutation_swap.
  - reflexivity.
  - reflexivity.
  - vm_compute. discriminate.
  - exists p, B, s'. exact (conj E T).
Defined.

(** A duplicated fragment stands in for a missing one: bytes 8 to 15 never
    arrive, yet the datagram is reported complete, with zeros in their place. *)
Lemma ip4_duplicate_fragment_hole :
  let one := [1; 1; 1; 1; 1; 1; 1; 1] in
  let run x s := default (None, s) (ip4_frag_input 1 2 17 5 x.1 x.2 s) in
  let s1 := (run (0x2000, one) ip0).2 in
  let s2 := (run (0x2000, one) s1).2 in
  (fun r => (r.2, take 24 r.1.2)) <$> (run (2, one) s2).1 = Some (24, one ++ replicate 8 0 ++ one).
Proof. vm_compute. reflexivity. Qed.

(** A 20-byte packet to the host with total length 0. *)
Definition short : netbuf := mk_nb (memcpy (replicate 1536 0) 270
  [0x45; 0; 0; 0; 0; 1; 0; 0; 64; 17; 0; 0; 10; 0; 2; 2; 10; 0; 2; 15]) 270 20.

Lemma ip4_input_length_underflow_witness :
  exists b', ip4_input no_block no_upper host short ip0 = dispatch no_upper 17 (IP4 10 0 2 2) (IP4 10 0 2 15) b' ip0 /\ 65000 < nb_len b'.
Proof.
  destruct (ip4_input_length_underflow no_block no_upper host short ip0 0x45 20 0 0 17 (IP4 10 0 2 2)) as (b' & E & _ & L);
    try (vm_compute; reflexivity); try (vm_compute; discriminate); try (split; vm_compute; [discriminate|reflexivity]).
  exists b'. exact (conj E L).
Defined.
