(* ===== verification/Udp.v ===== *)
(** * UDP and ICMP echo (kernel/net/udp/udp.c, kernel/net/icmp/icmp.c)

    UDP delivers a datagram to the first active binding of its port.  Both
    protocols compute the Internet checksum with [inet_cksum], whose result is a
    host-order number, but store and compare it without [htons]; TCP and IP do
    convert it.  What that means on the wire is stated below. *)

From S2P Require Import Prelude AuditRing Kmalloc Net Arp Ip.

Definition UDP_BINDINGS_MAX : Z := 16.
Definition UDP_HDR_LEN : Z := 8.

(** A callback is named by a number. *)
Record udp_binding := mk_bind { ub_port : Z; ub_cb : Z; ub_active : bool }.

#[export] Instance udp_binding_inhabited : Inhabited udp_binding := populate (mk_bind 0 0 false).

Definition udp_init : list udp_binding := replicate (Z.to_nat UDP_BINDINGS_MAX) (mk_bind 0 0 false).

Definition find_binding (f : udp_binding -> bool) (l : list udp_binding) (i : Z) : Z := find_from f l i.

Definition udp_bind (port cb : Z) (g : list udp_binding) : bool * list udp_binding :=
  let i := find_binding (fun b => negb (ub_active b)) g 0 in
  if i <? 0 then (false, g) else (true, g.[i <- mk_bind port cb true]).

(** The call of the listener: callback, source address and port, destination
    port, and the payload as an offset into the buffer and a length. *)
Record udp_call := mk_call { uc_cb : Z; uc_src : Z; uc_src_port : Z; uc_dst_port : Z; uc_off : Z; uc_len : Z }.

Definition udp_input (buf : netbuf) (src : Z) (g : list udp_binding) : option udp_call :=
  if nb_len buf <? UDP_HDR_LEN then None else
  let dst_port := ntohs (nb_get 2 buf 2) in
  let src_port := ntohs (nb_get 2 buf 0) in
  let udp_len := ntohs (nb_get 2 buf 4) in
  if (udp_len <? UDP_HDR_LEN) || (nb_len buf <? udp_len) then None else
  let payload_len := u16 (udp_len - UDP_HDR_LEN) in
  let i := find_binding (fun b => ub_active b && (ub_port b =? dst_port)) g 0 in
  if i <? 0 then None
  else Some (mk_call (ub_cb g.[i]) src src_port dst_port (nb_data buf + UDP_HDR_LEN) payload_len).

Definition UDP_PAYLOAD_MAX : Z := NETBUF_CAP - NETBUF_HEADROOM - IP4_HDR_LEN - ETH_HDR_LEN - UDP_HDR_LEN.

Section Send.
Context {H : Type} `{Allocator H}.
#[local] Notation "'ist'" := (ipst H).
Context (blocked : Z -> bool) (upper : Z -> Z -> Z -> netbuf -> ist -> option ist) (tx : list Z -> bool).

(** The header assignments on the pushed buffer. *)
Definition udp_header (b : netbuf) (src_ip dst_ip src_port dst_port udp_len : Z) : netbuf :=
  let b := put16 b 0 (htons src_port) in
  let b := put16 b 2 (htons dst_port) in
  let b := put16 b 4 (htons udp_len) in
  let b := put16 b 6 0 in
  put16 b 6 (inet_cksum_pseudo src_ip dst_ip IP_PROTO_UDP udp_len (nb_bytes b 0 (nb_len b))).

Definition udp_send (iface : netif) (dst_ip src_port dst_port : Z) (data : list Z) (s : ist) : option (bool * ist) :=
  let '(idx, pool) := netbuf_alloc (l_pool (i_lnk s)) in
  let s := with_lnk (with_pool pool (i_lnk s)) s in
  if idx <? 0 then Some (false, s) else
  let payload_len := zlen data in
  let payload_len := if UDP_PAYLOAD_MAX <? payload_len then UDP_PAYLOAD_MAX else payload_len in
  let buf := set_len (nb_put netbuf_fresh 0 (take (Z.to_nat payload_len) data)) payload_len in
  let release (s : ist) := with_lnk (with_pool (netbuf_free idx (l_pool (i_lnk s))) (i_lnk s)) s in
  match netbuf_push buf UDP_HDR_LEN with
  | None => Some (false, release s)
  | Some buf =>
      let udp_len := u16 (UDP_HDR_LEN + payload_len) in
      let buf := udp_header buf (if_ip iface) dst_ip src_port dst_port udp_len in
      match ip4_output blocked upper tx iface dst_ip IP_PROTO_UDP buf s with
      | None => None
      | Some (ok, _, s) => Some (ok, release s)
      end
  end.

(** ** ICMP echo *)

Definition ICMP_ECHO_REQUEST : Z := 8.
Definition ICMP_ECHO_REPLY : Z := 0.
Definition ICMP_HDR_LEN : Z := 8.

(** The last echo reply seen. *)
Record ping := mk_ping { g_ping_reply_src : Z; g_ping_reply_seq : Z }.

Definition icmp_ping_notify (src seq : Z) : ping := mk_ping src seq.

(** [hdr->checksum = 0; cksum = inet_cksum(...); hdr->checksum = saved]. *)
Definition icmp_verify (buf : netbuf) : bool :=
  let saved := nb_get 2 buf 2 in
  let cksum := inet_cksum (nb_bytes (put16 buf 2 0) 0 (nb_len buf)) in
  cksum =? saved.

Definition icmp_input (iface : netif) (buf : netbuf) (src : Z) (p : ping) (s : ist) : option (ping * ist) :=
  if nb_len buf <? ICMP_HDR_LEN then Some (p, s) else
  let type := nb_get 1 buf 0 in
  if type =? ICMP_ECHO_REPLY then Some (icmp_ping_notify src (ntohs (nb_get 2 buf 6)), s) else
  if negb (type =? ICMP_ECHO_REQUEST) then Some (p, s) else
  if negb (icmp_verify buf) then Some (p, s) else
  let '(idx, pool) := netbuf_alloc (l_pool (i_lnk s)) in
  let s := with_lnk (with_pool pool (i_lnk s)) s in
  if idx <? 0 then Some (p, s) else
  let release (s : ist) := with_lnk (with_pool (netbuf_free idx (l_pool (i_lnk s))) (i_lnk s)) s in
  if NETBUF_CAP - NETBUF_HEADROOM - IP4_HDR_LEN - ETH_HDR_LEN <? nb_len buf then Some (p, release s) else
  let reply := set_len (nb_put netbuf_fresh 0 (nb_bytes buf 0 (nb_len buf))) (nb_len buf) in
  let reply := nb_put reply 0 [ICMP_ECHO_REPLY] in
  let reply := put16 reply 2 0 in
  let reply := put16 reply 2 (inet_cksum (nb_bytes reply 0 (nb_len reply))) in
  match ip4_output blocked upper tx iface src IP_PROTO_ICMP reply s with
  | None => None
  | Some (_, _, s) => Some (p, release s)
  end.

End Send.

(** ** Checksums in the wrong byte order *)

(** A checksum stored with its bytes exchanged verifies only if they are equal. *)
Lemma swapped_verifies sum c :
  0 <= sum -> c = 65535 - ones sum ->
  ones (sum + (256 * (c mod 256) + c / 256)) = 65535 <-> c mod 256 = c / 256.
Proof.
  intros Hs Hc. pose proof (ones_range sum Hs) as Ho. destruct (ones_mod sum Hs) as [Hm Hm'].
  assert (Hcr : 0 <= c < 65536) by lia. set (lo := c mod 256). set (hi := c / 256).
  assert (Ec : c = 256 * hi + lo) by (unfold hi, lo; Z.div_mod_to_equations; lia).
  assert (Hlo : 0 <= lo < 256 /\ 0 <= hi < 256) by (unfold hi, lo; Z.div_mod_to_equations; lia). clearbody lo hi.
  assert (X : (sum + c) mod 65535 = 0).
  { rewrite Hc. replace (sum + (65535 - ones sum)) with (sum - ones sum + 1 * 65535) by lia. by rewrite Z_mod_plus_full. }
  destruct (decide (sum + (256 * lo + hi) = 0)) as [E0|E0].
  - assert (sum = 0 /\ lo = 0 /\ hi = 0) as (-> & -> & ->) by lia. change (ones 0) with 0 in *. lia.
  - rewrite ones_verify by lia. split; [|intros ->; by rewrite <- Ec].
    intros Y. apply Z.mod_divide in X as [k Hk]; [|lia]. apply Z.mod_divide in Y as [j Hj]; [|lia].
    assert (D : 255 * (lo - hi) = 65535 * (j - k)) by lia. lia.
Qed.

(** The segment with checksum field [ck]. *)
Definition udp_bytes (src_port dst_port udp_len : Z) (ck data : list Z) : list Z :=
  (be_bytes 2 src_port ++ be_bytes 2 dst_port ++ be_bytes 2 udp_len ++ ck) ++ data.

Lemma udp_header_spec b src_ip dst_ip src_port dst_port udp_len data :
  0 <= nb_data b -> nb_data b + 8 + zlen data <= zlen (nb_storage b) -> nb_len b = 8 + zlen data ->
  nb_bytes b 8 (zlen data) = data ->
  0 <= src_port < 65536 -> 0 <= dst_port < 65536 -> 0 <= udp_len < 65536 ->
  let c := inet_cksum_pseudo src_ip dst_ip IP_PROTO_UDP udp_len (udp_bytes src_port dst_port udp_len [0; 0] data) in
  nb_bytes (udp_header b src_ip dst_ip src_port dst_port udp_len) 0 (nb_len b) =
  udp_bytes src_port dst_port udp_len (le_bytes 2 c) data.
Proof.
  intros Hd Hs Hl Hb Hsp Hdp Hul c. pose proof (zlen_nonneg data).
  set (h := fun ck : list Z => be_bytes 2 src_port ++ be_bytes 2 dst_port ++ be_bytes 2 udp_len ++ ck).
  assert (Lh : forall ck, zlen ck = 2 -> zlen (h ck) = 8).
  { intros ck E. unfold h. rewrite !zlen_app, !zlen_be_bytes, E. done. }
  assert (E0 : nb_put (nb_put (nb_put (nb_put b 0 (be_bytes 2 src_port)) 2 (be_bytes 2 dst_port)) 4 (be_bytes 2 udp_len)) 6 [0; 0]
               = nb_put b 0 (h [0; 0])).
  { unfold h. rewrite !be_bytes_2 by done.
    repeat match goal with |- context [nb_put (nb_put b 0 ?l) ?o ?y] =>
      change (nb_put (nb_put b 0 l) o y) with (nb_put (nb_put b 0 l) (0 + zlen l) y);
      rewrite (nb_put_app b 0 l y) by (unfold zlen; cbn; unfold zlen in *; lia); cbn [app] end. done. }
  assert (Full : forall ck, zlen ck = 2 -> nb_bytes (nb_put b 0 (h ck)) 0 (nb_len b) = udp_bytes src_port dst_port udp_len ck data).
  { intros ck E. rewrite Hl. replace (8 + zlen data) with (zlen (h ck) + zlen data) by (rewrite Lh; lia).
    rewrite nb_bytes_put_app by (rewrite ?Lh; lia). rewrite Lh, Hb by done. done. }
  unfold udp_header, put16. rewrite (htons_bytes src_port), (htons_bytes dst_port), (htons_bytes udp_len) by done.
  change (le_bytes 2 0) with [0; 0]. rewrite E0. change (nb_len (nb_put b 0 (h [0; 0]))) with (nb_len b).
  rewrite (Full [0; 0] eq_refl). fold c. assert (Lc : zlen (le_bytes 2 c) = 2) by apply zlen_le_bytes.
  rewrite <- (Full (le_bytes 2 c) Lc). f_equal. unfold nb_put. cbn [nb_storage nb_data nb_len]. f_equal. rewrite !Z.add_0_r.
  rewrite memcpy_memcpy_in by (rewrite ?Lh, ?Lc; lia || done). f_equal.
Qed.

Section Property.
Context {H : Type} `{Allocator H}.
#[local] Notation "'ist'" := (ipst H).
Context (blocked : Z -> bool) (upper : Z -> Z -> Z -> netbuf -> ist -> option ist) (tx : list Z -> bool).

Lemma zlen_udp_bytes src_port dst_port n x y data :
  zlen (udp_bytes src_port dst_port n [x; y] data) = 8 + zlen data.
Proof. unfold udp_bytes. rewrite !zlen_app, !zlen_be_bytes. change (zlen [x; y]) with 2. lia. Qed.

Lemma Forall_udp_bytes src_port dst_port n x y data :
  byte x -> byte y -> Forall byte data -> Forall byte (udp_bytes src_port dst_port n [x; y] data).
Proof.
  intros Hx Hy Hd. unfold udp_bytes. rewrite !Forall_app. pose proof (Forall_be_bytes 2) as FB.
  assert (Fxy : Forall byte [x; y]) by (by apply Forall_cons; split; [|by apply Forall_cons; split; [|constructor]]). done.
Qed.

(** Storing [x; y] in the zero checksum field adds the word they make. *)
Lemma wsum_udp_checksum_field ph src_port dst_port n x y data :
  Nat.Even (length ph) ->
  wsum (ph ++ udp_bytes src_port dst_port n [x; y] data) =
    wsum (ph ++ udp_bytes src_port dst_port n [0; 0] data) + (256 * x + y).
Proof.
  intros Ev. rewrite !wsum_app by exact Ev. unfold udp_bytes.
  rewrite !wsum_app by (rewrite ?length_app; unfold be_bytes; rewrite ?length_rev, ?length_le_bytes; (by exists 4%nat) || (by exists 1%nat)).
  cbn [wsum]. lia.
Qed.

(** The pseudo-header sum of a segment is not negative. *)
Lemma wsum_pseudo_nonneg src dst n seg :
  0 <= src < 2 ^ 32 -> 0 <= dst < 2 ^ 32 -> 0 <= n < 65536 -> Forall byte seg ->
  0 <= wsum (pseudo_header src dst IP_PROTO_UDP n ++ seg).
Proof.
  intros Hs Hd Hn Hf. rewrite wsum_app by (by exists 6%nat). pose proof (wsum_range seg Hf).
  rewrite (pseudo_header_sum src dst IP_PROTO_UDP n Hs Hd ltac:(done) Hn). change IP_PROTO_UDP with 17.
  Z.div_mod_to_equations. lia.
Qed.

(** The UDP checksum goes out in the wrong byte order.  With a free packet
    buffer, [udp_send] hands [ip4_output] a segment with the right ports, length
    and payload, but with the two bytes of the checksum exchanged; a receiver
    that verifies it (RFC 768) accepts the datagram if and only if the two bytes
    happen to be equal. *)
Theorem udp_send_checksum_swapped iface dst_ip src_port dst_port data (s : ist) :
  0 <= (netbuf_alloc (l_pool (i_lnk s))).1 -> Forall byte data -> zlen data <= UDP_PAYLOAD_MAX ->
  0 <= if_ip iface < 2 ^ 32 -> 0 <= dst_ip < 2 ^ 32 -> 0 <= src_port < 65536 -> 0 <= dst_port < 65536 ->
  let n := UDP_HDR_LEN + zlen data in
  let c := inet_cksum_pseudo (if_ip iface) dst_ip IP_PROTO_UDP n (udp_bytes src_port dst_port n [0; 0] data) in
  let seg := udp_bytes src_port dst_port n [c mod 256; c / 256] data in
  exists buf s1 release, nb_bytes buf 0 (nb_len buf) = seg /\
    udp_send blocked upper tx iface dst_ip src_port dst_port data s =
      (match ip4_output blocked upper tx iface dst_ip IP_PROTO_UDP buf s1 with
       | None => None
       | Some (ok, _, s2) => Some (ok, release s2)
       end) /\
    (ones (wsum (pseudo_header (if_ip iface) dst_ip IP_PROTO_UDP n ++ seg)) = 65535 <-> c mod 256 = c / 256).
Proof.
  intros Hal Hby Hsz Hip Hdst Hsp Hdp n c seg. unfold UDP_PAYLOAD_MAX, UDP_HDR_LEN, NETBUF_CAP, NETBUF_HEADROOM, IP4_HDR_LEN, ETH_HDR_LEN in *.
  pose proof (zlen_nonneg data) as Hz. assert (Hn : 0 <= n < 65536) by lia.
  set (seg0 := udp_bytes src_port dst_port n [0; 0] data) in *.
  assert (F00 : Forall byte seg0) by (apply Forall_udp_bytes; unfold byte; (lia || done)).
  set (ph := pseudo_header (if_ip iface) dst_ip IP_PROTO_UDP n) in *.
  assert (Hc : c = 65535 - ones (wsum (ph ++ seg0))).
  { unfold c. apply inet_cksum_pseudo_ones; [done|done|done|done|done|]. unfold seg0. rewrite zlen_udp_bytes. lia. }
  assert (W0 : 0 <= wsum (ph ++ seg0)) by (by apply wsum_pseudo_nonneg).
  unfold udp_send. destruct (netbuf_alloc (l_pool (i_lnk s))) as [idx pool]. cbn [fst] in Hal.
  destruct (Z.ltb_spec idx 0); [lia|]. unfold UDP_PAYLOAD_MAX, UDP_HDR_LEN, NETBUF_CAP, NETBUF_HEADROOM, IP4_HDR_LEN, ETH_HDR_LEN.
  destruct (Z.ltb_spec (1536 - 256 - 20 - 14 - 8) (zlen data)); [lia|].
  rewrite take_ge by (unfold zlen; lia). set (b0 := set_len (nb_put netbuf_fresh 0 data) (zlen data)).
  unfold netbuf_push. change (nb_data b0) with 256. change (256 <? 8) with false. cbv iota.
  change (nb_len b0) with (zlen data). rewrite !u16_small by lia. replace (8 + zlen data) with n by (unfold n; lia).
  set (b1 := mk_nb (nb_storage b0) (256 - 8) (zlen data + 8)).
  assert (S0 : zlen (nb_storage netbuf_fresh) = 1536) by (unfold netbuf_fresh, zlen; cbn [nb_storage]; by rewrite length_replicate).
  assert (S1 : zlen (nb_storage b1) = 1536).
  { change (zlen (memcpy (nb_storage netbuf_fresh) (256 + 0) data) = 1536). rewrite zlen_memcpy by lia. done. }
  assert (B1 : nb_bytes b1 8 (zlen data) = data).
  { change (nb_bytes (nb_put netbuf_fresh 0 data) 0 (zlen data) = data). rewrite nb_bytes_put by (change (nb_data netbuf_fresh) with 256; lia).
    change (drop (Z.to_nat 0) data) with data. apply take_ge. unfold zlen. lia. }
  eexists _, _, _. split; [|split; [reflexivity|]].
  - change (nb_len (udp_header b1 (if_ip iface) dst_ip src_port dst_port n)) with (nb_len b1).
    rewrite (udp_header_spec b1 (if_ip iface) dst_ip src_port dst_port n data) by
      (try done; try lia; cbn [nb_data nb_len b1]; lia).
    fold seg0 c. unfold seg. f_equal. cbn [le_bytes]. do 2 f_equal. apply Z.mod_small.
    pose proof (ones_range (wsum (ph ++ seg0)) W0). Z.div_mod_to_equations. lia.
  - unfold seg. rewrite wsum_udp_checksum_field by (by exists 6%nat). by apply swapped_verifies.
Qed.

End Property.

Lemma udp_send_checksum_swapped_witness :
  let c := inet_cksum_pseudo (IP4 10 0 2 15) (IP4 10 0 2 2) IP_PROTO_UDP 10 (udp_bytes 1000 53 10 [0; 0] [1; 2]) in
  c mod 256 <> c / 256 /\
  ones (wsum (pseudo_header (IP4 10 0 2 15) (IP4 10 0 2 2) IP_PROTO_UDP 10 ++ udp_bytes 1000 53 10 [c mod 256; c / 256] [1; 2])) <> 65535.
Proof.
  destruct (udp_send_checksum_swapped no_block no_upper take_all host (IP4 10 0 2 2) 1000 53 [1; 2] ip0) as (buf & s1 & rel & _ & _ & E).
  - vm_compute. discriminate.
  - repeat constructor; unfold byte; lia.
  - vm_compute. discriminate.
  - split; vm_compute; [discriminate|reflexivity].
  - split; vm_compute; [discriminate|reflexivity].
  - lia.
  - lia.
  - cbn zeta. split; [vm_compute; discriminate|]. intros X. apply E in X. vm_compute in X. discriminate.
Defined.

(** A correctly checksummed echo request, as another host sends it, is refused. *)
Lemma icmp_echo_request_refused :
  let l := [8; 0; 0; 0; 0x13; 0x37; 0; 1] in
  let good := memcpy l 2 (be_bytes 2 (inet_cksum l)) in
  let buf := mk_nb (memcpy (replicate 1536 0) 290 good) 290 8 in
  inet_cksum good = 0 /\ icmp_verify buf = false /\
  icmp_input no_block no_upper take_all host buf (IP4 10 0 2 2) (mk_ping 0 0xFFFF) ip0 = Some (mk_ping 0 0xFFFF, ip0).
Proof. vm_compute. done. Qed.
