(* ===== verification/Tcp.v ===== *)
(** * TCP (kernel/net/tcp/tcp.c, tcp.h)

    A table of 32 connections; a [tcp_conn_t *] is a slot, [NULL] is -1.  A
    listener keeps the connections waiting for [tcp_accept] in a list threaded
    through [next].  The layers below are used through the class [IpLayer]: packet
    buffers, [ip4_output], [arp_resolve] and the report of a honeypot hit; the
    IPv4 model is an instance.  Every segment handed to [ip4_output] is also
    appended to a log.  [ip4_output] is taken not to call back into TCP: that holds
    for every destination but 127.0.0.1, whose packets come straight back; the
    sockets never connect there through IP. *)

From S2P Require Import Prelude Net Arp Capability Ip.

(** ** Data *)

Inductive tcp_state_t :=
| TCP_CLOSED | TCP_LISTEN | TCP_SYN_SENT | TCP_SYN_RECV | TCP_ESTABLISHED | TCP_FIN_WAIT1 | TCP_FIN_WAIT2
| TCP_CLOSE_WAIT | TCP_CLOSING | TCP_LAST_ACK | TCP_TIME_WAIT.
#[export] Instance tcp_state_eq_dec : EqDecision tcp_state_t.
Proof. solve_decision. Defined.

Definition TCP_FIN : Z := 0x01.
Definition TCP_SYN : Z := 0x02.
Definition TCP_PSH : Z := 0x08.
Definition TCP_ACK : Z := 0x10.
Definition TCP_HDR_LEN : Z := 20.
Definition TCP_BUF_SIZE : Z := 32768.
Definition MAX_TCP_CONNS : Z := 32.
Definition TCP_MSS : Z := 1460.

(** The send buffer fields of the struct are never used. *)
Record tcp_conn := mk_conn {
  c_state : tcp_state_t;
  c_local_ip : Z;
  c_remote_ip : Z;
  c_local_port : Z;
  c_remote_port : Z;
  c_snd_nxt : Z;
  c_snd_una : Z;
  c_rcv_nxt : Z;
  c_rcv_wnd : Z;
  c_snd_wnd : Z;
  c_rx_buf : list Z;
  c_rx_head : Z;
  c_rx_tail : Z;
  c_next : Z;
  c_pending_synack : bool;
  c_ts_recent : Z;
  c_partner : Z
}.

(** [memset(conn, 0, sizeof(tcp_conn_t))]. *)
Definition conn_zero : tcp_conn :=
  mk_conn TCP_CLOSED 0 0 0 0 0 0 0 0 0 (replicate (Z.to_nat TCP_BUF_SIZE) 0) 0 0 (-1) false 0 (-1).
#[export] Instance conn_inhabited : Inhabited tcp_conn := populate conn_zero.

Definition set_state (x : tcp_state_t) (c : tcp_conn) : tcp_conn :=
  mk_conn x (c_local_ip c) (c_remote_ip c) (c_local_port c) (c_remote_port c) (c_snd_nxt c) (c_snd_una c) (c_rcv_nxt c) (c_rcv_wnd c)
    (c_snd_wnd c) (c_rx_buf c) (c_rx_head c) (c_rx_tail c) (c_next c) (c_pending_synack c) (c_ts_recent c) (c_partner c).
Definition set_snd_nxt (x : Z) (c : tcp_conn) : tcp_conn :=
  mk_conn (c_state c) (c_local_ip c) (c_remote_ip c) (c_local_port c) (c_remote_port c) x (c_snd_una c) (c_rcv_nxt c) (c_rcv_wnd c)
    (c_snd_wnd c) (c_rx_buf c) (c_rx_head c) (c_rx_tail c) (c_next c) (c_pending_synack c) (c_ts_recent c) (c_partner c).
Definition set_snd_una (x : Z) (c : tcp_conn) : tcp_conn :=
  mk_conn (c_state c) (c_local_ip c) (c_remote_ip c) (c_local_port c) (c_remote_port c) (c_snd_nxt c) x (c_rcv_nxt c) (c_rcv_wnd c)
    (c_snd_wnd c) (c_rx_buf c) (c_rx_head c) (c_rx_tail c) (c_next c) (c_pending_synack c) (c_ts_recent c) (c_partner c).
Definition set_rcv_nxt (x : Z) (c : tcp_conn) : tcp_conn :=
  mk_conn (c_state c) (c_local_ip c) (c_remote_ip c) (c_local_port c) (c_remote_port c) (c_snd_nxt c) (c_snd_una c) x (c_rcv_wnd c)
    (c_snd_wnd c) (c_rx_buf c) (c_rx_head c) (c_rx_tail c) (c_next c) (c_pending_synack c) (c_ts_recent c) (c_partner c).
Definition set_rcv_wnd (x : Z) (c : tcp_conn) : tcp_conn :=
  mk_conn (c_state c) (c_local_ip c) (c_remote_ip c) (c_local_port c) (c_remote_port c) (c_snd_nxt c) (c_snd_una c) (c_rcv_nxt c) x
    (c_snd_wnd c) (c_rx_buf c) (c_rx_head c) (c_rx_tail c) (c_next c) (c_pending_synack c) (c_ts_recent c) (c_partner c).
Definition set_snd_wnd (x : Z) (c : tcp_conn) : tcp_conn :=
  mk_conn (c_state c) (c_local_ip c) (c_remote_ip c) (c_local_port c) (c_remote_port c) (c_snd_nxt c) (c_snd_una c) (c_rcv_nxt c) (c_rcv_wnd c)
    x (c_rx_buf c) (c_rx_head c) (c_rx_tail c) (c_next c) (c_pending_synack c) (c_ts_recent c) (c_partner c).
Definition set_rx (buf : list Z) (head tail : Z) (c : tcp_conn) : tcp_conn :=
  mk_conn (c_state c) (c_local_ip c) (c_remote_ip c) (c_local_port c) (c_remote_port c) (c_snd_nxt c) (c_snd_una c) (c_rcv_nxt c) (c_rcv_wnd c)
    (c_snd_wnd c) buf head tail (c_next c) (c_pending_synack c) (c_ts_recent c) (c_partner c).
Definition set_next (x : Z) (c : tcp_conn) : tcp_conn :=
  mk_conn (c_state c) (c_local_ip c) (c_remote_ip c) (c_local_port c) (c_remote_port c) (c_snd_nxt c) (c_snd_una c) (c_rcv_nxt c) (c_rcv_wnd c)
    (c_snd_wnd c) (c_rx_buf c) (c_rx_head c) (c_rx_tail c) x (c_pending_synack c) (c_ts_recent c) (c_partner c).
Definition set_pending (x : bool) (c : tcp_conn) : tcp_conn :=
  mk_conn (c_state c) (c_local_ip c) (c_remote_ip c) (c_local_port c) (c_remote_port c) (c_snd_nxt c) (c_snd_una c) (c_rcv_nxt c) (c_rcv_wnd c)
    (c_snd_wnd c) (c_rx_buf c) (c_rx_head c) (c_rx_tail c) (c_next c) x (c_ts_recent c) (c_partner c).
Definition set_partner (x : Z) (c : tcp_conn) : tcp_conn :=
  mk_conn (c_state c) (c_local_ip c) (c_remote_ip c) (c_local_port c) (c_remote_port c) (c_snd_nxt c) (c_snd_una c) (c_rcv_nxt c) (c_rcv_wnd c)
    (c_snd_wnd c) (c_rx_buf c) (c_rx_head c) (c_rx_tail c) (c_next c) (c_pending_synack c) (c_ts_recent c) x.

(** The layers below. *)
Class IpLayer (N : Type) := {
  il_alloc : N -> Z * N;                             (* [netbuf_alloc], -1 for NULL *)
  il_free : Z -> N -> N;                             (* [netbuf_free] *)
  il_output : netif -> Z -> netbuf -> N -> bool * N; (* [ip4_output] with [IP_PROTO_TCP] *)
  il_resolve : netif -> Z -> N -> bool * N;          (* [arp_resolve] *)
  il_honeypot : Z -> N -> N;                         (* [cnsl_ingest] of [CNSL_KIND_FW_HONEYPOT_PORT] *)
  il_uptime : N -> Z;                                (* [g_uptime_ticks] *)
  il_netifs : N -> list netif                        (* the interfaces of [netif_default] *)
}.

Section Tcp.
Context {N : Type} `{IpLayer N}.

(** [g_conns], [g_iss], [s_next_port] of [tcp_connect], the network below, and the
    log: destination and bytes of each segment. *)
Record tcp := mk_tcp { g_conns : list tcp_conn; g_iss : Z; s_next_port : Z; t_net : N; t_sent : list (Z * list Z) }.

Definition with_conns (x : list tcp_conn) (s : tcp) : tcp := mk_tcp x (g_iss s) (s_next_port s) (t_net s) (t_sent s).
Definition with_iss (x : Z) (s : tcp) : tcp := mk_tcp (g_conns s) x (s_next_port s) (t_net s) (t_sent s).
Definition with_port (x : Z) (s : tcp) : tcp := mk_tcp (g_conns s) (g_iss s) x (t_net s) (t_sent s).
Definition with_net (x : N) (s : tcp) : tcp := mk_tcp (g_conns s) (g_iss s) (s_next_port s) x (t_sent s).
Definition log_segment (dst : Z) (b : list Z) (s : tcp) : tcp := mk_tcp (g_conns s) (g_iss s) (s_next_port s) (t_net s) (t_sent s ++ [(dst, b)]).

Definition conn (i : Z) (s : tcp) : tcp_conn := (g_conns s).[i].
Definition upd_conn (i : Z) (f : tcp_conn -> tcp_conn) (s : tcp) : tcp := with_conns (g_conns s).[i <- f (conn i s)] s.

(** [rand] is the value of [tcp_rand32]. *)
Definition tcp_init (rand : Z) (s : tcp) : tcp := with_iss rand (with_conns (replicate (Z.to_nat MAX_TCP_CONNS) conn_zero) s).

(** ** The table *)

Definition is_closed (c : tcp_conn) : bool := bool_decide (c_state c = TCP_CLOSED).

Definition conn_alloc (s : tcp) : Z * tcp :=
  let i := find_from is_closed (g_conns s) 0 in
  if 0 <=? i then (i, upd_conn i (fun _ => set_rcv_wnd TCP_BUF_SIZE conn_zero) s) else (-1, s).

Definition conn_find (remote_ip remote_port local_port : Z) (s : tcp) : Z :=
  find_from (fun c => negb (is_closed c) && (c_local_port c =? local_port) && (c_remote_port c =? remote_port) && (c_remote_ip c =? remote_ip)) (g_conns s) 0.

Definition listener_find (local_port : Z) (s : tcp) : Z :=
  find_from (fun c => bool_decide (c_state c = TCP_LISTEN) && (c_local_port c =? local_port)) (g_conns s) 0.

(** ** The receive ring *)

Definition rx_available (c : tcp_conn) : Z := u16 (Z.land (c_rx_head c - c_rx_tail c) (TCP_BUF_SIZE - 1)).

Fixpoint rx_store (data : list Z) (c : tcp_conn) : tcp_conn :=
  match data with
  | [] => c
  | x :: data' => rx_store data' (set_rx (c_rx_buf c).[Z.land (c_rx_head c) (TCP_BUF_SIZE - 1) <- x] (u16 (c_rx_head c + 1)) (c_rx_tail c) c)
  end.

Definition rx_push (data : list Z) (c : tcp_conn) : tcp_conn :=
  let free_space := u16 (TCP_BUF_SIZE - rx_available c) in
  let len := if free_space <? zlen data then free_space else zlen data in
  let c := rx_store (take (Z.to_nat len) data) c in
  set_rcv_wnd (u16 (TCP_BUF_SIZE - rx_available c)) c.

(** ** Sending a segment *)

(** MSS, two NOPs and the timestamp. *)
Definition syn_options (tsval tsecr : Z) : list Z :=
  [2; 4; Z.land (Z.shiftr 1460 8) 0xFF; Z.land 1460 0xFF; 1; 1; 8; 10;
   Z.land (Z.shiftr tsval 24) 0xFF; Z.land (Z.shiftr tsval 16) 0xFF; Z.land (Z.shiftr tsval 8) 0xFF; Z.land tsval 0xFF;
   Z.land (Z.shiftr tsecr 24) 0xFF; Z.land (Z.shiftr tsecr 16) 0xFF; Z.land (Z.shiftr tsecr 8) 0xFF; Z.land tsecr 0xFF].

Definition has (flags bit : Z) : bool := negb (Z.land flags bit =? 0).

(** The header assignments on the pushed buffer. *)
Definition tcp_header (b : netbuf) (c : tcp_conn) (flags opt_len : Z) : netbuf :=
  let b := put16 b 0 (htons (c_local_port c)) in
  let b := put16 b 2 (htons (c_remote_port c)) in
  let b := put32 b 4 (htonl (c_snd_nxt c)) in
  let b := put32 b 8 (if has flags TCP_ACK then htonl (c_rcv_nxt c) else 0) in
  let b := nb_put b 12 [u8 (Z.shiftl ((TCP_HDR_LEN + opt_len) / 4) 4)] in
  let b := nb_put b 13 [flags] in
  let b := put16 b 14 (htons (c_rcv_wnd c)) in
  let b := put16 b 16 0 in
  let b := put16 b 18 0 in
  put16 b 16 (htons (inet_cksum_pseudo (c_local_ip c) (c_remote_ip c) IP_PROTO_TCP (u16 (nb_len b)) (nb_bytes b 0 (nb_len b)))).

(** The options of a SYN pushed in front of the payload; no room, no options. *)
Definition push_options (b : netbuf) (flags tsval tsecr : Z) : netbuf * Z :=
  if has flags TCP_SYN then
    match netbuf_push b 16 with
    | Some b => (nb_put b 0 (syn_options tsval tsecr), 16)
    | None => (b, 0)
    end
  else (b, 0).

Definition tcp_send_segment (iface : netif) (i flags : Z) (data : list Z) (s : tcp) : bool * tcp :=
  let '(idx, n) := il_alloc (t_net s) in
  let s := with_net n s in
  if idx <? 0 then (false, s) else
  let release (s : tcp) := with_net (il_free idx (t_net s)) s in
  if negb (zlen data =? 0) && (NETBUF_CAP - NETBUF_HEADROOM <? zlen data) then (false, release s) else
  let buf := set_len (nb_put netbuf_fresh 0 data) (zlen data) in
  let '(buf, opt_len) := push_options buf flags (u32 (il_uptime (t_net s))) (c_ts_recent (conn i s)) in
  match netbuf_push buf TCP_HDR_LEN with
  | None => (false, release s)
  | Some buf =>
      let buf := tcp_header buf (conn i s) flags opt_len in
      let s := if has flags (Z.lor TCP_SYN TCP_FIN) then upd_conn i (fun c => set_snd_nxt (u32 (c_snd_nxt c + 1)) c) s else s in
      let s := upd_conn i (fun c => set_snd_nxt (u32 (c_snd_nxt c + zlen data)) c) s in
      let s := log_segment (c_remote_ip (conn i s)) (nb_bytes buf 0 (nb_len buf)) s in
      let '(ok, n) := il_output iface (c_remote_ip (conn i s)) buf (t_net s) in
      (ok, release (with_net n s))
  end.

(** Slot [i] of the loop. *)
Definition flush_one (iface : netif) (resolved_ip i : Z) (s : tcp) : tcp :=
  let c := conn i s in
  if bool_decide (c_state c = TCP_SYN_RECV) && c_pending_synack c && (c_remote_ip c =? resolved_ip) then
    (tcp_send_segment iface i (Z.lor TCP_SYN TCP_ACK) [] (upd_conn i (set_pending false) s)).2
  else s.

Definition tcp_flush_pending_synacks (iface : netif) (resolved_ip : Z) (s : tcp) : tcp :=
  for_loop (Z.to_nat MAX_TCP_CONNS) 0 (flush_one iface resolved_ip) s.

(** ** Receiving a segment *)

Definition HONEYPOT_PORTS : list Z := [23; 3389; 6379; 27017; 5900; 445].

(** The timestamp among the options [op]; each round consumes at least a byte. *)
Fixpoint parse_ts (fuel : nat) (op : list Z) (peer_ts : Z) : Z :=
  match fuel, op with
  | S fuel', k :: rest =>
      if k =? 0 then peer_ts else
      if k =? 1 then parse_ts fuel' rest peer_ts else
      match rest with
      | [] => peer_ts
      | olen :: _ =>
          if (olen <? 2) || (zlen op <? olen) then peer_ts else
          let peer_ts := if (k =? 8) && (olen =? 10)
                         then Z.lor (Z.lor (Z.lor (Z.shiftl op.[2] 24) (Z.shiftl op.[3] 16)) (Z.shiftl op.[4] 8)) op.[5] else peer_ts in
          parse_ts fuel' (drop (Z.to_nat olen) op) peer_ts
      end
  | _, _ => peer_ts
  end.

(** A segment: ports, numbers, flags, window, options and payload. *)
Record segment := mk_seg {
  g_src_port : Z; g_dst_port : Z; g_seq : Z; g_ack : Z; g_flags : Z; g_window : Z; g_options : list Z; g_payload : list Z
}.

(** The reads of [tcp_input] from the buffer; [None] when [hdr_len] is out of range. *)
Definition hdr_len (b : netbuf) : Z := u8 (Z.shiftr (nb_get 1 b 12) 4 * 4).
Definition parse_segment (b : netbuf) : option segment :=
  if (hdr_len b <? TCP_HDR_LEN) || (nb_len b <? hdr_len b) then None else
  Some (mk_seg (ntohs (nb_get 2 b 0)) (ntohs (nb_get 2 b 2)) (ntohl (nb_get 4 b 4)) (ntohl (nb_get 4 b 8)) (nb_get 1 b 13) (ntohs (nb_get 2 b 14))
          (nb_bytes b TCP_HDR_LEN (hdr_len b - TCP_HDR_LEN)) (nb_bytes b (hdr_len b) (u16 (nb_len b - hdr_len b)))).

(** A SYN for a listener. *)
Definition tcp_input_syn (iface : netif) (src dst : Z) (g : segment) (s : tcp) : tcp :=
  let listener := listener_find (g_dst_port g) s in
  if (listener <? 0) || negb (has (g_flags g) TCP_SYN) then s else
  let peer_ts := parse_ts (length (g_options g)) (g_options g) 0 in
  let '(i, s) := conn_alloc s in
  if i <? 0 then s else
  let s := upd_conn i (fun c => mk_conn TCP_SYN_RECV dst src (g_dst_port g) (g_src_port g) (g_iss s) (c_snd_una c) (u32 (g_seq g + 1)) (c_rcv_wnd c)
             (g_window g) (c_rx_buf c) (c_rx_head c) (c_rx_tail c) (c_next (conn listener s)) (c_pending_synack c) peer_ts (c_partner c)) s in
  let s := with_iss (u32 (g_iss s + 1)) s in
  let s := upd_conn listener (set_next i) s in
  let '(known, n) := il_resolve iface src (t_net s) in
  let s := with_net n s in
  if known : bool then (tcp_send_segment iface i (Z.lor TCP_SYN TCP_ACK) [] s).2 else upd_conn i (set_pending true) s.

(** [tcp_send_segment(iface, conn, TCP_ACK, NULL, 0)]. *)
Definition send_ack (iface : netif) (i : Z) (s : tcp) : tcp := (tcp_send_segment iface i TCP_ACK [] s).2.

(** A segment for a connection in each state. *)
Definition in_syn_recv (iface : netif) (i : Z) (g : segment) (s : tcp) : tcp :=
  if has (g_flags g) TCP_ACK && (g_ack g =? c_snd_nxt (conn i s)) then upd_conn i (set_state TCP_ESTABLISHED) s else
  if has (g_flags g) TCP_SYN then
    let s := upd_conn i (set_rcv_nxt (u32 (g_seq g + 1))) s in
    let init_seq := u32 (c_snd_nxt (conn i s) - 1) in
    let s := upd_conn i (set_snd_nxt init_seq) s in
    let s := (tcp_send_segment iface i (Z.lor TCP_SYN TCP_ACK) [] s).2 in
    upd_conn i (set_snd_nxt (u32 (init_seq + 1))) s
  else s.

Definition in_syn_sent (iface : netif) (i : Z) (g : segment) (s : tcp) : tcp :=
  if Z.land (g_flags g) (Z.lor TCP_SYN TCP_ACK) =? Z.lor TCP_SYN TCP_ACK then
    let s := upd_conn i (fun c => set_state TCP_ESTABLISHED (set_snd_una (g_ack g) (set_rcv_nxt (u32 (g_seq g + 1)) c))) s in
    send_ack iface i s
  else s.

Definition in_established (iface : netif) (i : Z) (g : segment) (s : tcp) : tcp :=
  let s :=
    if (0 <? zlen (g_payload g)) && (g_seq g =? c_rcv_nxt (conn i s)) then
      let s := upd_conn i (fun c => set_rcv_nxt (u32 (c_rcv_nxt c + zlen (g_payload g))) (rx_push (g_payload g) c)) s in
      send_ack iface i s
    else if 0 <? zlen (g_payload g) then send_ack iface i s
    else s in
  let s := if has (g_flags g) TCP_ACK then upd_conn i (set_snd_una (g_ack g)) s else s in
  if has (g_flags g) TCP_FIN then
    let s := upd_conn i (fun c => set_state TCP_CLOSE_WAIT (set_rcv_nxt (u32 (c_rcv_nxt c + 1)) c)) s in
    send_ack iface i s
  else s.

(** The FIN part of the two FIN_WAIT states. *)
Definition in_fin (iface : netif) (i : Z) (g : segment) (s : tcp) : tcp :=
  if has (g_flags g) TCP_FIN then
    let s := send_ack iface i (upd_conn i (fun c => set_rcv_nxt (u32 (c_rcv_nxt c + 1)) c) s) in
    upd_conn i (set_state TCP_TIME_WAIT) s
  else s.

Definition tcp_input_conn (iface : netif) (i : Z) (g : segment) (s : tcp) : tcp :=
  let s := upd_conn i (set_snd_wnd (g_window g)) s in
  match c_state (conn i s) with
  | TCP_SYN_RECV => in_syn_recv iface i g s
  | TCP_SYN_SENT => in_syn_sent iface i g s
  | TCP_ESTABLISHED => in_established iface i g s
  | TCP_FIN_WAIT1 => in_fin iface i g (if has (g_flags g) TCP_ACK then upd_conn i (set_state TCP_FIN_WAIT2) s else s)
  | TCP_FIN_WAIT2 => in_fin iface i g s
  | TCP_LAST_ACK => if has (g_flags g) TCP_ACK then upd_conn i (set_state TCP_CLOSED) s else s
  | TCP_TIME_WAIT => upd_conn i (set_state TCP_CLOSED) s
  | _ => s
  end.

Definition tcp_input (iface : netif) (buf : netbuf) (src dst : Z) (s : tcp) : tcp :=
  if nb_len buf <? TCP_HDR_LEN then s else
  let s := if has (nb_get 1 buf 13) TCP_SYN && bool_decide (ntohs (nb_get 2 buf 2) ∈ HONEYPOT_PORTS)
           then with_net (il_honeypot src (t_net s)) s else s in
  match parse_segment buf with
  | None => s
  | Some g =>
      let i := conn_find src (g_src_port g) (g_dst_port g) s in
      if i <? 0 then tcp_input_syn iface src dst g s else tcp_input_conn iface i g s
  end.

(** ** Connections *)

(** The search for an ephemeral port, [tries] to go; 0: none. *)
Fixpoint pick_port (tries : nat) (next : Z) (conns : list tcp_conn) : Z * Z :=
  match tries with
  | O => (0, next)
  | S tries' =>
      let candidate := next in
      let next := if u16 (next + 1) =? 0 then 49152 else u16 (next + 1) in
      if existsb (fun c => negb (is_closed c) && (c_local_port c =? candidate)) conns then pick_port tries' next conns else (candidate, next)
  end.

Definition tcp_connect (iface : netif) (dst_ip dst_port src_port : Z) (s : tcp) : Z * tcp :=
  let '(i, s) := conn_alloc s in
  if i <? 0 then (-1, s) else
  let '(src_port, s) := if src_port =? 0 then let '(p, n) := pick_port (Z.to_nat 16384) (s_next_port s) (g_conns s) in (p, with_port n s) else (src_port, s) in
  if src_port =? 0 then (-1, upd_conn i (set_state TCP_CLOSED) s) else
  let s := upd_conn i (fun c => mk_conn TCP_SYN_SENT (if_ip iface) dst_ip src_port dst_port (g_iss s) (c_snd_una c) (c_rcv_nxt c) TCP_BUF_SIZE
             (c_snd_wnd c) (c_rx_buf c) (c_rx_head c) (c_rx_tail c) (c_next c) (c_pending_synack c) (c_ts_recent c) (c_partner c)) s in
  let s := with_iss (u32 (g_iss s + 1)) s in
  (i, (tcp_send_segment iface i TCP_SYN [] s).2).

Definition set_listen (port : Z) (c : tcp_conn) : tcp_conn :=
  mk_conn TCP_LISTEN (c_local_ip c) (c_remote_ip c) port (c_remote_port c) (c_snd_nxt c) (c_snd_una c) (c_rcv_nxt c) (c_rcv_wnd c)
    (c_snd_wnd c) (c_rx_buf c) (c_rx_head c) (c_rx_tail c) (c_next c) (c_pending_synack c) (c_ts_recent c) (c_partner c).

Definition tcp_listen (port : Z) (s : tcp) : Z * tcp :=
  let '(i, s) := conn_alloc s in
  if i <? 0 then (-1, s) else (i, upd_conn i (set_listen port) s).

(** The walk along the queue from [i], with [prev] before it; [None]: the queue
    has not ended after [fuel] connections. *)
Fixpoint accept_walk (fuel : nat) (listener prev i : Z) (s : tcp) : option (Z * tcp) :=
  if i =? -1 then Some (-1, s) else
  match fuel with
  | O => None
  | S fuel' =>
      let c := conn i s in
      if bool_decide (c_state c = TCP_ESTABLISHED) || bool_decide (c_state c = TCP_CLOSE_WAIT) then
        let s := upd_conn (if prev =? -1 then listener else prev) (set_next (c_next c)) s in
        Some (i, upd_conn i (set_next (-1)) s)
      else accept_walk fuel' listener i (c_next c) s
  end.

Definition tcp_accept (listener : Z) (s : tcp) : option (Z * tcp) :=
  if (listener <? 0) || negb (bool_decide (c_state (conn listener s) = TCP_LISTEN)) then Some (-1, s) else
  accept_walk (Z.to_nat MAX_TCP_CONNS) listener (-1) (c_next (conn listener s)) s.

(** [(int16_t)x]. *)
Definition s16 (x : Z) : Z := if u16 x <? 32768 then u16 x else u16 x - 65536.

(** The loop of the loopback path: bytes written to the partner. *)
Fixpoint send_local (data : list Z) (written : Z) (c : tcp_conn) : Z * tcp_conn :=
  match data with
  | [] => (written, c)
  | x :: data' =>
      let space := u16 (TCP_BUF_SIZE - Z.land (c_rx_head c - c_rx_tail c) (TCP_BUF_SIZE - 1)) in
      if space =? 0 then (written, c) else
      send_local data' (written + 1) (set_rx (c_rx_buf c).[Z.land (c_rx_head c) (TCP_BUF_SIZE - 1) <- x] (u16 (c_rx_head c + 1)) (c_rx_tail c) c)
  end.

(** The chunks of the network path; each round sends at least a byte. *)
Fixpoint send_chunks (fuel : nat) (iface : netif) (i : Z) (data : list Z) (sent : Z) (s : tcp) : Z * tcp :=
  match fuel with
  | O => (sent, s)
  | S fuel' =>
      if zlen data <=? 0 then (sent, s) else
      let chunk := Z.min (zlen data) TCP_MSS in
      let '(ok, s) := tcp_send_segment iface i (Z.lor TCP_PSH TCP_ACK) (take (Z.to_nat chunk) data) s in
      if negb ok then (sent, s) else send_chunks fuel' iface i (drop (Z.to_nat chunk) data) (sent + chunk) s
  end.

Definition tcp_send (i : Z) (data : list Z) (s : tcp) : Z * tcp :=
  if (i <? 0) || negb (bool_decide (c_state (conn i s) = TCP_ESTABLISHED)) then (-1, s) else
  if zlen data =? 0 then (0, s) else
  let p := c_partner (conn i s) in
  if 0 <=? p then
    let '(written, c) := send_local data 0 (conn p s) in (s16 written, upd_conn p (fun _ => c) s)
  else
  match netif_default (il_netifs (t_net s)) with
  | None => (-1, s)
  | Some iface => let '(sent, s) := send_chunks (length data) iface i data 0 s in (s16 sent, s)
  end.

(** The loop of [tcp_recv]: [n] bytes. *)
Fixpoint rx_take (n : nat) (c : tcp_conn) : list Z * tcp_conn :=
  match n with
  | O => ([], c)
  | S n' =>
      let x := (c_rx_buf c).[Z.land (c_rx_tail c) (TCP_BUF_SIZE - 1)] in
      let '(r, c) := rx_take n' (set_rx (c_rx_buf c) (c_rx_head c) (u16 (c_rx_tail c + 1)) c) in (x :: r, c)
  end.

(** The result and the bytes. *)
Definition tcp_recv (i len : Z) (s : tcp) : Z * list Z * tcp :=
  if i <? 0 then (-1, [], s) else
  let avail := rx_available (conn i s) in
  if avail =? 0 then (0, [], s) else
  let n := Z.min avail len in
  let '(r, c) := rx_take (Z.to_nat n) (conn i s) in (s16 n, r, upd_conn i (fun _ => c) s).

Definition tcp_close (i : Z) (s : tcp) : tcp :=
  if (i <? 0) || is_closed (conn i s) then s else
  let st := c_state (conn i s) in
  if bool_decide (st = TCP_ESTABLISHED) || bool_decide (st = TCP_CLOSE_WAIT) then
    let s := upd_conn i (set_state (if bool_decide (st = TCP_ESTABLISHED) then TCP_FIN_WAIT1 else TCP_LAST_ACK)) s in
    match netif_default (il_netifs (t_net s)) with
    | Some iface => (tcp_send_segment iface i (Z.lor TCP_FIN TCP_ACK) [] s).2
    | None => s
    end
  else upd_conn i (set_state TCP_CLOSED) s.

Definition tcp_is_connected (i : Z) (s : tcp) : bool := (0 <=? i) && bool_decide (c_state (conn i s) = TCP_ESTABLISHED).

(** ** Loopback *)

Definition tcp_listen_find (port : Z) (s : tcp) : Z := listener_find port s.

Definition tcp_conn_alloc_for_loopback (listener client_port client_ip : Z) (s : tcp) : Z * tcp :=
  let '(i, s) := conn_alloc s in
  if i <? 0 then (-1, s) else
  let l := conn listener s in
  let s := upd_conn i (fun c => mk_conn TCP_ESTABLISHED (c_local_ip c) client_ip (c_local_port l) client_port (g_iss s) (c_snd_una c) (u32 (g_iss s + 1))
             (c_rcv_wnd c) (c_snd_wnd c) (c_rx_buf c) (c_rx_head c) (c_rx_tail c) (c_next l) (c_pending_synack c) (c_ts_recent c) (c_partner c)) s in
  let s := with_iss (u32 (g_iss s + 1)) s in
  (i, upd_conn listener (set_next i) s).

Definition tcp_conn_alloc_for_loopback_client (server_port client_port server_ip : Z) (s : tcp) : Z * tcp :=
  let '(i, s) := conn_alloc s in
  if i <? 0 then (-1, s) else
  let s := upd_conn i (fun c => mk_conn TCP_ESTABLISHED (c_local_ip c) server_ip client_port server_port (g_iss s) (c_snd_una c) (g_iss s)
             (c_rcv_wnd c) (c_snd_wnd c) (c_rx_buf c) (c_rx_head c) (c_rx_tail c) (c_next c) (c_pending_synack c) (c_ts_recent c) (c_partner c)) s in
  (i, with_iss (u32 (g_iss s + 1)) s).

End Tcp.
Arguments tcp : clear implicits.
Arguments mk_tcp {N}.
