(* ===== verification/TcpWire.v ===== *)
(** * TCP: the receive ring and the wire format

    The receive ring as a queue of bytes, the bytes of a segment and how they are
    read back, and what sending one segment does. *)

From S2P Require Import Prelude Net Arp Capability Ip Tcp.

(** ** The receive ring *)

(** The indices are 16-bit counters, masked at each use. *)
Record ring_ok (c : tcp_conn) : Prop := {
  rk_buf : zlen (c_rx_buf c) = TCP_BUF_SIZE;
  rk_head : 0 <= c_rx_head c < 2 ^ 16;
  rk_tail : 0 <= c_rx_tail c < 2 ^ 16
}.

(** The bytes between tail and head. *)
Definition unread (c : tcp_conn) : list Z :=
  (fun k => (c_rx_buf c).[(c_rx_tail c + k) mod TCP_BUF_SIZE]) <$> seqZ 0 (rx_available c).

Lemma ring_mask x : Z.land x (TCP_BUF_SIZE - 1) = x mod TCP_BUF_SIZE.
Proof. exact (land_low 15 x ltac:(lia)). Qed.

Lemma rx_available_mod c : rx_available c = (c_rx_head c - c_rx_tail c) mod TCP_BUF_SIZE.
Proof.
  unfold rx_available. rewrite ring_mask. apply u16_small. unfold TCP_BUF_SIZE.
  pose proof (Z.mod_pos_bound (c_rx_head c - c_rx_tail c) 32768 ltac:(lia)). lia.
Qed.

Lemma rx_available_range c : 0 <= rx_available c < TCP_BUF_SIZE.
Proof. rewrite rx_available_mod. by apply Z.mod_pos_bound. Qed.

Lemma unread_len c : zlen (unread c) = rx_available c.
Proof. pose proof (rx_available_range c). unfold unread. by rewrite zlen_fmap, zlen_seqZ by lia. Qed.

(** One byte stored at the head. *)
Definition rx_put (x : Z) (c : tcp_conn) : tcp_conn :=
  set_rx (c_rx_buf c).[Z.land (c_rx_head c) (TCP_BUF_SIZE - 1) <- x] (u16 (c_rx_head c + 1)) (c_rx_tail c) c.

Lemma rx_put_ok x c :
  ring_ok c -> rx_available c + 1 < TCP_BUF_SIZE -> ring_ok (rx_put x c) /\ unread (rx_put x c) = unread c ++ [x].
Proof.
  intros [L H T] Ha. pose proof (rx_available_range c) as R.
  assert (A : rx_available (rx_put x c) = rx_available c + 1).
  { rewrite !rx_available_mod in *. cbn [c_rx_head c_rx_tail rx_put set_rx]. unfold TCP_BUF_SIZE in *. ulia. }
  split; [constructor; cbn; [by rewrite zlen_zset|ulia|done]|].
  apply list_eq_zget; [rewrite zlen_app, !unread_len, A; done|]. rewrite unread_len, A. intros k Hk.
  rewrite zget_app, unread_len by lia. unfold unread at 1. rewrite A, zget_fmap_seqZ by lia. cbn [rx_put set_rx c_rx_buf c_rx_tail]. rewrite ring_mask, Z.add_0_l.
  unfold TCP_BUF_SIZE in *. pose proof (Z.mod_pos_bound (c_rx_head c) 32768 ltac:(lia)). pose proof (Z.mod_pos_bound (c_rx_tail c + k) 32768 ltac:(lia)).
  rewrite rx_available_mod in *. unfold TCP_BUF_SIZE in *. destruct (Z.ltb_spec k ((c_rx_head c - c_rx_tail c) mod 32768)) as [Hlt|Hge].
  - rewrite zget_zset_ne by (try lia; Z.div_mod_to_equations; lia). unfold unread. rewrite rx_available_mod. unfold TCP_BUF_SIZE. by rewrite zget_fmap_seqZ by lia.
  - replace ((c_rx_tail c + k) mod 32768) with (c_rx_head c mod 32768) by (Z.div_mod_to_equations; lia).
    rewrite zget_zset_eq by lia. replace (k - (c_rx_head c - c_rx_tail c) mod 32768) with 0 by lia. done.
Qed.

Lemma rx_store_ok data c :
  ring_ok c -> rx_available c + zlen data < TCP_BUF_SIZE -> ring_ok (rx_store data c) /\ unread (rx_store data c) = unread c ++ data.
Proof.
  revert c. induction data as [|x data IH]; intros c Ok Ha; cbn [rx_store]; [by rewrite app_nil_r|]. fold (rx_put x c).
  change (zlen (x :: data)) with (Z.of_nat (S (length data))) in Ha. unfold zlen in *. destruct (rx_put_ok x c Ok ltac:(lia)) as [Ok' U].
  assert (A : rx_available (rx_put x c) = rx_available c + 1) by (rewrite <- !unread_len, U, zlen_app; done).
  destruct (IH (rx_put x c) Ok' ltac:(lia)) as [Ok2 U2]. split; [done|]. by rewrite U2, U, <- app_assoc.
Qed.

(** [rx_store] moves the ring only. *)
Lemma rx_store_frame data c : exists buf head, rx_store data c = set_rx buf head (c_rx_tail c) c.
Proof.
  revert c. induction data as [|x data IH]; intros c; cbn [rx_store]; [exists (c_rx_buf c), (c_rx_head c); by destruct c|].
  destruct (IH (rx_put x c)) as (buf & head & E). exists buf, head. exact E.
Qed.

(** A push that leaves a byte free appends its data. *)
Lemma rx_push_ok data c :
  ring_ok c -> rx_available c + zlen data < TCP_BUF_SIZE ->
  ring_ok (rx_push data c) /\ unread (rx_push data c) = unread c ++ data /\
  exists buf head wnd, rx_push data c = set_rcv_wnd wnd (set_rx buf head (c_rx_tail c) c) /\ 0 < wnd <= TCP_BUF_SIZE.
Proof.
  intros Ok Ha. pose proof (rx_available_range c). pose proof (zlen_nonneg data). unfold rx_push. rewrite (u16_small (TCP_BUF_SIZE - rx_available c)) by (unfold TCP_BUF_SIZE in *; lia).
  destruct (Z.ltb_spec (TCP_BUF_SIZE - rx_available c) (zlen data)); [lia|]. 
  replace (take (Z.to_nat (zlen data)) data) with data by (unfold zlen; by rewrite Nat2Z.id, firstn_all).
  destruct (rx_store_ok data c Ok Ha) as [Ok' U]. split; [destruct Ok'; by constructor|]. split; [done|].
  destruct (rx_store_frame data c) as (buf & head & E). pose proof (rx_available_range (rx_store data c)). rewrite E in *. eexists buf, head, _. split; [done|].
  rewrite u16_small by (unfold TCP_BUF_SIZE in *; lia). lia.
Qed.

Lemma rx_take_ok n c :
  ring_ok c -> Z.of_nat n <= rx_available c ->
  let '(r, c') := rx_take n c in
  r = take n (unread c) /\ ring_ok c' /\ unread c' = drop n (unread c) /\ exists tail, c' = set_rx (c_rx_buf c) (c_rx_head c) tail c.
Proof.
  revert c. induction n as [|n IH]; intros c Ok Hn; cbn [rx_take].
  - rewrite take_0, drop_0. split; [done|]. split; [done|]. split; [done|]. exists (c_rx_tail c). by destruct c.
  - pose proof (rx_available_range c) as R. set (c1 := set_rx _ _ _ c). destruct Ok as [L Hd T].
    assert (A : rx_available c1 = rx_available c - 1).
    { rewrite !rx_available_mod in *. cbn [c_rx_head c_rx_tail c1 set_rx]. unfold TCP_BUF_SIZE in *. ulia. }
    assert (Ok1 : ring_ok c1) by (constructor; cbn; [done|done|ulia]).
    assert (U : unread c = (c_rx_buf c).[Z.land (c_rx_tail c) (TCP_BUF_SIZE - 1)] :: unread c1).
    { unfold unread. rewrite A, (seqZ_cons 0) by lia. cbn [fmap list_fmap]. rewrite ring_mask, Z.add_0_r. f_equal.
      replace (rx_available c - 1) with (Z.pred (rx_available c)) by lia. apply list_eq_zget; rewrite !zlen_fmap, !zlen_seqZ by lia; [done|]. intros k Hk.
      rewrite !zget_fmap_seqZ by lia. cbn [c1 set_rx c_rx_buf c_rx_tail]. f_equal. unfold TCP_BUF_SIZE in *. ulia. }
    specialize (IH c1 Ok1 ltac:(lia)). destruct (rx_take n c1) as [r c']. destruct IH as (-> & Ok' & U' & tail & ->).
    rewrite U. cbn [take drop]. split; [done|]. split; [done|]. split; [done|]. by exists tail.
Qed.

(** ** The bytes of a segment *)

(** The fields have their widths. *)
Record conn_ok (c : tcp_conn) : Prop := {
  co_ring : ring_ok c;
  co_ips : 0 <= c_local_ip c < 2 ^ 32 /\ 0 <= c_remote_ip c < 2 ^ 32;
  co_ports : 0 <= c_local_port c < 2 ^ 16 /\ 0 <= c_remote_port c < 2 ^ 16;
  co_snd : 0 <= c_snd_nxt c < 2 ^ 32;
  co_una : 0 <= c_snd_una c < 2 ^ 32;
  co_rcv : 0 <= c_rcv_nxt c < 2 ^ 32;
  co_wnds : 0 <= c_rcv_wnd c < 2 ^ 16 /\ 0 <= c_snd_wnd c < 2 ^ 16
}.

(** The acknowledgement number of a segment. *)
Definition ack_of (c : tcp_conn) (flags : Z) : Z := if has flags TCP_ACK then c_rcv_nxt c else 0.

(** Header with checksum field [ck], options, data. *)
Definition tcp_hdr (c : tcp_conn) (flags opt_len : Z) (ck : list Z) : list Z :=
  be_bytes 2 (c_local_port c) ++ be_bytes 2 (c_remote_port c) ++ be_bytes 4 (c_snd_nxt c) ++ be_bytes 4 (ack_of c flags) ++
  [u8 (Z.shiftl ((TCP_HDR_LEN + opt_len) / 4) 4); flags] ++ be_bytes 2 (c_rcv_wnd c) ++ ck ++ [0; 0].
Definition tcp_bytes (c : tcp_conn) (flags : Z) (opts ck data : list Z) : list Z := tcp_hdr c flags (zlen opts) ck ++ (opts ++ data).

Lemma tcp_hdr_len c flags n ck : zlen ck = 2 -> zlen (tcp_hdr c flags n ck) = 20.
Proof. intros E. unfold tcp_hdr. rewrite !zlen_app, !zlen_be_bytes, E. done. Qed.

Lemma put_step b l o y :
  zlen l = o -> 0 <= nb_data b -> nb_data b + zlen (l ++ y) <= zlen (nb_storage b) -> nb_put (nb_put b 0 l) o y = nb_put b 0 (l ++ y).
Proof. intros <- Hd Hs. rewrite zlen_app in Hs. pose proof (nb_put_app b 0 l y) as E. rewrite Z.add_0_l in E. apply E; lia. Qed.

Lemma ack_bytes c flags : conn_ok c -> le_bytes 4 (if has flags TCP_ACK then htonl (c_rcv_nxt c) else 0) = be_bytes 4 (ack_of c flags).
Proof. intros Ok. unfold ack_of. destruct (has flags TCP_ACK); [apply htonl_bytes, Ok|done]. Qed.

(** The header assignments write [tcp_hdr] with the checksum over the segment. *)
Lemma tcp_header_spec b c flags opts data :
  conn_ok c -> 0 <= nb_data b -> nb_data b + nb_len b <= zlen (nb_storage b) -> nb_len b = 20 + zlen (opts ++ data) ->
  nb_bytes b 20 (zlen (opts ++ data)) = opts ++ data ->
  let ck := be_bytes 2 (inet_cksum_pseudo (c_local_ip c) (c_remote_ip c) IP_PROTO_TCP (u16 (nb_len b)) (tcp_bytes c flags opts [0; 0] data)) in
  nb_bytes (tcp_header b c flags (zlen opts)) 0 (nb_len b) = tcp_bytes c flags opts ck data /\ nb_len (tcp_header b c flags (zlen opts)) = nb_len b /\
  nb_data (tcp_header b c flags (zlen opts)) = nb_data b.
Proof.
  intros Ok Hd Hs Hl Hb ck. pose proof (zlen_nonneg (opts ++ data)). destruct Ok as [Rk Ips Ps Sn Un Rc Wn] eqn:EOk.
  assert (E0 : nb_put (nb_put (nb_put (nb_put (nb_put (nb_put (nb_put (nb_put (nb_put b 0 (be_bytes 2 (c_local_port c))) 2 (be_bytes 2 (c_remote_port c)))
      4 (be_bytes 4 (c_snd_nxt c))) 8 (be_bytes 4 (ack_of c flags))) 12 [u8 (Z.shiftl ((TCP_HDR_LEN + zlen opts) / 4) 4)]) 13 [flags])
      14 (be_bytes 2 (c_rcv_wnd c))) 16 [0; 0]) 18 [0; 0] = nb_put b 0 (tcp_hdr c flags (zlen opts) [0; 0])).
  { do 8 (rewrite put_step; [|by rewrite ?zlen_app, ?zlen_be_bytes|done|rewrite ?zlen_app, ?zlen_be_bytes; unfold zlen; cbn [length]; unfold zlen in *; lia]).
    reflexivity. }
  assert (Full : forall k, zlen k = 2 -> nb_bytes (nb_put b 0 (tcp_hdr c flags (zlen opts) k)) 0 (nb_len b) = tcp_bytes c flags opts k data).
  { intros k Ek. rewrite Hl. rewrite <- (tcp_hdr_len c flags (zlen opts) k Ek). rewrite nb_bytes_put_app by (rewrite ?tcp_hdr_len by done; lia).
    by rewrite tcp_hdr_len, Hb by done. }
  unfold tcp_header, put16, put32. rewrite (htons_bytes (c_local_port c)), (htons_bytes (c_remote_port c)), (htonl_bytes (c_snd_nxt c)), (htons_bytes (c_rcv_wnd c)) by lia.
  rewrite ack_bytes by done. change (le_bytes 2 0) with [0; 0]. rewrite E0. change (nb_len (nb_put b 0 _)) with (nb_len b). rewrite (Full [0; 0] eq_refl).
  assert (Hc : 0 <= inet_cksum_pseudo (c_local_ip c) (c_remote_ip c) IP_PROTO_TCP (u16 (nb_len b)) (tcp_bytes c flags opts [0; 0] data) < 65536) by (apply Z.mod_pos_bound; lia).
  rewrite (htons_bytes _ Hc). fold ck. split; [|done]. rewrite <- (Full ck) by apply zlen_be_bytes. f_equal. unfold nb_put. cbn [nb_storage nb_data nb_len]. f_equal.
  rewrite !Z.add_0_r. rewrite memcpy_memcpy_in by (rewrite ?tcp_hdr_len, ?zlen_be_bytes by done; lia || done). f_equal.
Qed.

(** ** Reading a segment *)

Lemma ntohs_be x : 0 <= x < 2 ^ 16 -> ntohs (le_val (be_bytes 2 x)) = x.
Proof. intros Hx. rewrite be_bytes_2 by lia. rewrite ntohs_bytes by (unfold byte; Z.div_mod_to_equations; lia). Z.div_mod_to_equations. lia. Qed.

Lemma data_offset_len n : n = 0 \/ n = 16 -> u8 (Z.shiftr (u8 (Z.shiftl ((TCP_HDR_LEN + n) / 4) 4)) 4 * 4) = 20 + n.
Proof. by intros [->| ->]. Qed.

Lemma mid (l pre f post : list Z) n k : l = pre ++ f ++ post -> zlen pre = k -> length f = n -> take n (drop (Z.to_nat k) l) = f.
Proof. intros -> <- <-. unfold zlen. by rewrite Nat2Z.id, drop_app_length, take_app_length. Qed.

(** The fields of the header. *)
Lemma hdr_fields c flags n x y (l := tcp_hdr c flags n [x; y]) :
  take 2 (drop (Z.to_nat 0) l) = be_bytes 2 (c_local_port c) /\ take 2 (drop (Z.to_nat 2) l) = be_bytes 2 (c_remote_port c) /\
  take 4 (drop (Z.to_nat 4) l) = be_bytes 4 (c_snd_nxt c) /\ take 4 (drop (Z.to_nat 8) l) = be_bytes 4 (ack_of c flags) /\
  take 1 (drop (Z.to_nat 12) l) = [u8 (Z.shiftl ((TCP_HDR_LEN + n) / 4) 4)] /\ take 1 (drop (Z.to_nat 13) l) = [flags] /\
  take 2 (drop (Z.to_nat 14) l) = be_bytes 2 (c_rcv_wnd c).
Proof.
  unfold l, tcp_hdr. set (p2 := be_bytes 2 (c_local_port c)). set (p4 := be_bytes 2 (c_remote_port c)). set (p8 := be_bytes 4 (c_snd_nxt c)).
  set (p12 := be_bytes 4 (ack_of c flags)). set (w := be_bytes 2 (c_rcv_wnd c)). set (d := u8 _).
  split_and!; [apply (mid _ [] p2 (p4 ++ p8 ++ p12 ++ [d; flags] ++ w ++ [x; y] ++ [0; 0]))
    |apply (mid _ p2 p4 (p8 ++ p12 ++ [d; flags] ++ w ++ [x; y] ++ [0; 0]))|apply (mid _ (p2 ++ p4) p8 (p12 ++ [d; flags] ++ w ++ [x; y] ++ [0; 0]))
    |apply (mid _ (p2 ++ p4 ++ p8) p12 ([d; flags] ++ w ++ [x; y] ++ [0; 0]))|apply (mid _ (p2 ++ p4 ++ p8 ++ p12) [d] ([flags] ++ w ++ [x; y] ++ [0; 0]))
    |apply (mid _ (p2 ++ p4 ++ p8 ++ p12 ++ [d]) [flags] (w ++ [x; y] ++ [0; 0]))|apply (mid _ (p2 ++ p4 ++ p8 ++ p12 ++ [d; flags]) w ([x; y] ++ [0; 0]))]; reflexivity.
Qed.

(** A buffer that holds the bytes of a segment is read as that segment. *)
Lemma parse_bytes b c flags opts ck data :
  conn_ok c -> zlen opts = 0 \/ zlen opts = 16 -> zlen ck = 2 -> zlen data < 2 ^ 15 -> 0 <= nb_data b ->
  nb_bytes b 0 (nb_len b) = tcp_bytes c flags opts ck data -> nb_len b = zlen (tcp_bytes c flags opts ck data) ->
  parse_segment b = Some (mk_seg (c_local_port c) (c_remote_port c) (c_snd_nxt c) (ack_of c flags) flags (c_rcv_wnd c) opts data) /\
  TCP_HDR_LEN <= nb_len b /\ nb_get 1 b 13 = flags /\ ntohs (nb_get 2 b 2) = c_remote_port c.
Proof.
  intros Ok Ho Hc Hd Hdat Hb Hl. pose proof (zlen_nonneg data).
  pose proof (tcp_hdr_len c flags (zlen opts) ck Hc) as Lh.
  assert (L : nb_len b = 20 + zlen opts + zlen data) by (rewrite Hl; unfold tcp_bytes; rewrite !zlen_app; lia).
  assert (F : forall n k, 0 <= k -> k + Z.of_nat n <= 20 -> nb_get n b k = le_val (take n (drop (Z.to_nat k) (tcp_hdr c flags (zlen opts) ck)))).
  { intros n k Hk Hn. rewrite (nb_get_bytes b n k (nb_len b)) by (lia || destruct Ho; lia). rewrite Hb. unfold tcp_bytes. 
    assert (Ln : length (tcp_hdr c flags (zlen opts) ck) = 20%nat) by (unfold zlen at 1 in Lh; lia).
    rewrite drop_app_le by lia. by rewrite take_app_le by (rewrite length_drop; lia). }
  assert (W : forall k n, 20 <= k -> 0 <= n -> k + n <= nb_len b -> nb_bytes b k n = take (Z.to_nat n) (drop (Z.to_nat (k - 20)) (opts ++ data))).
  { intros k n Hk Hn Hkn. transitivity (take (Z.to_nat n) (drop (Z.to_nat k) (nb_bytes b 0 (nb_len b)))).
    - unfold nb_bytes. rewrite Z.add_0_r, take_drop_take, drop_drop by lia. do 2 f_equal. lia.
    - rewrite Hb. unfold tcp_bytes. assert (Ln : length (tcp_hdr c flags (zlen opts) ck) = 20%nat) by (unfold zlen at 1 in Lh; lia).
      rewrite drop_app_ge by lia. do 2 f_equal. lia. }
  destruct ck as [|x [|y [|z ck]]]; [done|done| |exfalso; unfold zlen in Hc; cbn [length] in Hc; lia].
  destruct (hdr_fields c flags (zlen opts) x y) as (F0 & F2 & F4 & F8 & F12 & F13 & F14).
  assert (Hh : hdr_len b = 20 + zlen opts) by (unfold hdr_len; rewrite F, F12 by lia; cbn [le_val]; rewrite Z.mul_0_r, Z.add_0_r; by apply data_offset_len).
  assert (H13 : nb_get 1 b 13 = flags) by (rewrite F, F13 by lia; cbn [le_val]; lia).
  assert (H2 : ntohs (nb_get 2 b 2) = c_remote_port c) by (rewrite F, F2 by lia; apply ntohs_be, Ok).
  split; [|split; [unfold TCP_HDR_LEN; destruct Ho; lia|done]]. unfold parse_segment. rewrite Hh. unfold TCP_HDR_LEN.
  destruct (Z.ltb_spec (20 + zlen opts) 20); [lia|]. destruct (Z.ltb_spec (nb_len b) (20 + zlen opts)); [lia|]. cbn [orb].
  assert (Ha : 0 <= ack_of c flags < 2 ^ 32) by (unfold ack_of; case_match; [apply Ok|done]).
  rewrite H2, H13, !F, F0, F4, F8, F14 by lia. rewrite (ntohs_be (c_local_port c)), (ntohs_be (c_rcv_wnd c)), (ntohl_bytes (c_snd_nxt c)), (ntohl_bytes (ack_of c flags)) by (done || apply Ok).
  rewrite !W by (rewrite ?u16_small; lia). rewrite (u16_small (nb_len b - _)) by lia. do 2 f_equal.
  - replace (20 + zlen opts - 20) with (zlen opts) by lia. unfold zlen. rewrite Nat2Z.id. apply take_app_length.
  - replace (20 + zlen opts - 20) with (zlen opts) by lia. unfold zlen at 2. rewrite Nat2Z.id, drop_app_length. apply take_ge. unfold zlen in *. lia.
Qed.

(** ** Sending one segment *)

Section Send.
Context {N : Type} `{IpLayer N}.
#[local] Abbreviation tcp := (tcp N).

Lemma conn_upd_eq i f (s : tcp) : 0 <= i < zlen (g_conns s) -> conn i (upd_conn i f s) = f (conn i s).
Proof. intros Hi. unfold conn, upd_conn. cbn [g_conns with_conns]. by rewrite zget_zset_eq. Qed.

Lemma conn_upd_ne i j f (s : tcp) : 0 <= i -> 0 <= j -> i <> j -> conn j (upd_conn i f s) = conn j s.
Proof. intros Hi Hj Hn. unfold conn, upd_conn. cbn [g_conns with_conns]. by rewrite zget_zset_ne. Qed.

Lemma upd_upd i f h (s : tcp) : 0 <= i < zlen (g_conns s) -> upd_conn i f (upd_conn i h s) = upd_conn i (fun c => f (h c)) s.
Proof.
  intros Hi. unfold upd_conn at 1. rewrite conn_upd_eq by done. unfold upd_conn, with_conns. cbn [g_conns g_iss s_next_port t_net t_sent]. f_equal.
  unfold zset. by rewrite list_insert_insert_eq.
Qed.

Lemma u32_add x y : u32 (u32 x + y) = u32 (x + y).
Proof. apply Zplus_mod_idemp_l. Qed.

(** The options a segment carries. *)
Definition options_of (flags tsval tsecr : Z) : list Z := if has flags TCP_SYN then syn_options tsval tsecr else [].

(** The connection after a segment with [flags] and [len] bytes of data. *)
Definition advanced (flags len : Z) (c : tcp_conn) : tcp_conn :=
  set_snd_nxt (u32 (c_snd_nxt c + (if has flags (Z.lor TCP_SYN TCP_FIN) then 1 else 0) + len)) c.

(** [s'] is [s] with the segment in the log and its numbers consumed. *)
Definition segment_out (i flags : Z) (data : list Z) (s s' : tcp) : Prop :=
  exists n tsval ck, zlen ck = 2 /\ zlen data <= NETBUF_CAP - NETBUF_HEADROOM /\
    s' = mk_tcp (g_conns s).[i <- advanced flags (zlen data) (conn i s)] (g_iss s) (s_next_port s) n
           (t_sent s ++ [(c_remote_ip (conn i s), tcp_bytes (conn i s) flags (options_of flags tsval (c_ts_recent (conn i s))) ck data)]).

(** Only the layers below have changed. *)
Definition net_only (s s' : tcp) : Prop := exists n, s' = with_net n s.

Lemma options_len flags tsval tsecr : zlen (options_of flags tsval tsecr) = 0 \/ zlen (options_of flags tsval tsecr) = 16.
Proof. unfold options_of. destruct (has _ _); [by right|by left]. Qed.

(** The buffer of a segment before its header: options and data in the window. *)
Lemma payload_buffer data flags tsval tsecr b opt_len :
  zlen data <= NETBUF_CAP - NETBUF_HEADROOM ->
  push_options (set_len (nb_put netbuf_fresh 0 data) (zlen data)) flags tsval tsecr = (b, opt_len) ->
  opt_len = zlen (options_of flags tsval tsecr) /\ nb_data b = NETBUF_HEADROOM - opt_len /\ nb_len b = opt_len + zlen data /\ zlen (nb_storage b) = NETBUF_CAP /\
  nb_bytes b 0 (nb_len b) = options_of flags tsval tsecr ++ data.
Proof.
  intros Hd E. pose proof (zlen_nonneg data). unfold NETBUF_CAP, NETBUF_HEADROOM in *. set (b0 := set_len _ _) in E.
  assert (S0 : zlen (nb_storage b0) = 1536) by (change (nb_storage b0) with (memcpy (replicate (Z.to_nat 1536) 0) 256 data); rewrite zlen_memcpy; rewrite ?zlen_replicate; lia).
  assert (B0 : nb_bytes b0 0 (zlen data) = data).
  { unfold b0. change (nb_bytes (set_len ?x _) 0 ?n) with (nb_bytes x 0 n). rewrite nb_bytes_put by (cbn [nb_data netbuf_fresh nb_storage]; unfold NETBUF_HEADROOM; rewrite ?zlen_replicate by done; unfold NETBUF_CAP; lia).
    rewrite drop_0. apply take_ge. unfold zlen. lia. }
  assert (D0 : nb_data b0 = 256) by done. assert (L0 : nb_len b0 = zlen data) by done. clearbody b0.
  unfold push_options, options_of in *. destruct (has flags TCP_SYN).
  - unfold netbuf_push in E. rewrite D0, L0 in E. change (256 <? 16) with false in E. cbv iota beta in E. set (b1 := mk_nb _ _ _) in E. injection E as <- <-.
    assert (L16 : zlen (syn_options tsval tsecr) = 16) by done. assert (L1 : nb_len b1 = zlen data + 16) by (cbn [b1 nb_len]; apply u16_small; lia).
    change (nb_data (nb_put b1 0 ?x)) with (256 - 16). change (nb_len (nb_put b1 0 ?x)) with (nb_len b1). rewrite L1.
    split; [done|]. split; [lia|]. split; [lia|].
    split; [cbn [nb_put nb_storage b1 nb_data]; rewrite zlen_memcpy; rewrite ?L16, ?S0; lia|].
    replace (zlen data + 16) with (zlen (syn_options tsval tsecr) + zlen data) by lia.
    rewrite nb_bytes_put_app by (cbn [nb_data b1 nb_storage]; rewrite ?L16, ?S0; lia). rewrite L16. f_equal. rewrite <- B0 at 2. unfold nb_bytes. rewrite D0. done.
  - injection E as <- <-. cbn [zlen length app]. rewrite D0, L0. split_and!; done || lia.
Qed.

Lemma tcp_send_segment_spec iface i flags data (s : tcp) :
  conn_ok (conn i s) -> 0 <= i < zlen (g_conns s) ->
  let '(ok, s') := tcp_send_segment iface i flags data s in (ok = false /\ net_only s s') \/ segment_out i flags data s s'.
Proof.
  intros Ok Hi. unfold tcp_send_segment. destruct (il_alloc (t_net s)) as [idx n]. destruct (idx <? 0); [left; split; [done|by eexists]|].
  destruct (negb _ && _) eqn:Cap; [left; split; [done|by eexists]|].
  assert (Hd : zlen data <= NETBUF_CAP - NETBUF_HEADROOM).
  { apply andb_false_iff in Cap as [C|C]; [apply negb_false_iff, Z.eqb_eq in C; rewrite C; done|by apply Z.ltb_ge in C]. }
  change (conn i (with_net n s)) with (conn i s). change (t_net (with_net n s)) with n.
  destruct (push_options _ _ _ _) as [b opt_len] eqn:Ep. destruct (payload_buffer _ _ _ _ _ _ Hd Ep) as (Eo & Ed & El & Es & Eb).
  set (opts := options_of _ _ _) in *. assert (Ho : zlen opts = 0 \/ zlen opts = 16) by apply options_len. pose proof (zlen_nonneg data).
  unfold NETBUF_CAP, NETBUF_HEADROOM in *. unfold netbuf_push, TCP_HDR_LEN. destruct (Z.ltb_spec (nb_data b) 20); [exfalso; destruct Ho; lia|].
  set (b1 := mk_nb (nb_storage b) (nb_data b - 20) (u16 (nb_len b + 20))).
  assert (Zl : zlen (opts ++ data) = zlen opts + zlen data) by apply zlen_app.
  assert (L1 : nb_len b1 = 20 + zlen (opts ++ data)) by (cbn [b1 nb_len]; rewrite Zl, El, Eo, u16_small; destruct Ho; lia).
  destruct (tcp_header_spec b1 (conn i s) flags opts data Ok) as (Hb & Hl & _).
  { cbn [b1 nb_data]. destruct Ho; lia. }
  { rewrite L1, Zl. cbn [b1 nb_data nb_storage]. rewrite Es. destruct Ho; lia. }
  { exact L1. }
  { transitivity (nb_bytes b 0 (zlen (opts ++ data))); [|by rewrite Zl, <- Eo, <- El]. unfold nb_bytes. cbn [b1 nb_data nb_storage]. do 2 f_equal. lia. }
  rewrite <- Eo in Hb, Hl. cbv zeta in Hb. set (ck := be_bytes 2 _) in Hb.
  rewrite Hl, Hb. clear Hb Hl.
  match goal with |- context [il_output ?a ?x ?y ?z] => destruct (il_output a x y z) as [ok n'] end. right.
  eexists _, (u32 (il_uptime n)), ck. split; [apply zlen_be_bytes|]. split; [done|]. fold opts. rewrite Eo.
  set (sn := with_net n s). assert (Hn : 0 <= i < zlen (g_conns sn)) by done. assert (Ea : advanced flags (zlen data) (conn i s) = 
    conn i (upd_conn i (fun c => set_snd_nxt (u32 (c_snd_nxt c + zlen data)) c) (if has flags (Z.lor TCP_SYN TCP_FIN) then upd_conn i (fun c => set_snd_nxt (u32 (c_snd_nxt c + 1)) c) sn else sn))).
  { unfold advanced. destruct (has flags (Z.lor TCP_SYN TCP_FIN)).
    - rewrite upd_upd, conn_upd_eq by done. cbn. rewrite u32_add. done.
    - rewrite conn_upd_eq by done. by rewrite Z.add_0_r. }
  rewrite Ea. destruct (has flags (Z.lor TCP_SYN TCP_FIN)).
  - rewrite upd_upd, conn_upd_eq by done. reflexivity.
  - rewrite conn_upd_eq by done. reflexivity.
Qed.

End Send.
