(* ===== verification/TcpTable.v ===== *)
(** * TCP: the connection table

    What every operation keeps: the widths of the fields, and the lists of
    connections that wait to be accepted, which are threaded through [next].  The
    lists never share a connection and never close into a cycle, so that
    [tcp_accept] ends. *)

From S2P Require Import Prelude Net Arp Capability Ip Tcp TcpWire.

(** ** The invariant *)

Definition slot (i : Z) : Prop := 0 <= i < MAX_TCP_CONNS.
#[export] Instance slot_dec i : Decision (slot i) := _.

(** The states of a connection in a queue. *)
Definition waiting (st : tcp_state_t) : Prop := st = TCP_SYN_RECV \/ st = TCP_ESTABLISHED \/ st = TCP_CLOSE_WAIT.
#[export] Instance waiting_dec st : Decision (waiting st) := _.

(** The states of a connection an application has and has not closed. *)
Definition owned (st : tcp_state_t) : Prop := st = TCP_LISTEN \/ st = TCP_SYN_SENT \/ st = TCP_ESTABLISHED \/ st = TCP_CLOSE_WAIT.
#[export] Instance owned_dec st : Decision (owned st) := _.

(** The numbers of a segment have their widths. *)
Lemma ntohs_range x : 0 <= ntohs x < 2 ^ 16.
Proof. apply u16_range. Qed.

Lemma ntohl_range x : 0 <= ntohl x < 2 ^ 32.
Proof.
  assert (M : forall m, m = Z.land (2 ^ 32 - 1) m -> Z.land x m = Z.land (x mod 2 ^ 32) m) by (intros m ->; rewrite Z.land_assoc, land_low, Z.land_assoc, land_low, Z.mod_mod by lia; done).
  assert (E : ntohl x = htonl (x mod 2 ^ 32)) by (unfold ntohl, htonl; rewrite !(M _) by reflexivity; done).
  rewrite E. pose proof (Z.mod_pos_bound x (2 ^ 32) ltac:(lia)). rewrite htonl_digits by lia. Z.div_mod_to_equations. lia.
Qed.

(** The setters of the send and receive fields disturb no queue. *)
Ltac width := cbn; first [done|apply u32_range|apply u16_range|split; first [done|apply u32_range|apply u16_range|lia]|lia|tauto|idtac].
Ltac widths := constructor; [constructor; width|width..].
Ltac calm := constructor; [intros [[? ? ?] [? ?] [? ?] ? ? ? [? ?]]; widths|try done|cbn; unfold waiting; intuition congruence|cbn; unfold owned; intuition congruence|try done].

Section Table.
Context {N : Type} `{IpLayer N}.
#[local] Abbreviation tcp := (tcp N).
#[local] Abbreviation next i s := (c_next (conn i s)).

Definition queued (i : Z) (s : tcp) : Prop := exists j, slot j /\ next j s = i.

Record queues_ok (s : tcp) : Prop := {
  qk_next : forall i, slot i -> next i s = -1 \/ (slot (next i s) /\ waiting (c_state (conn (next i s) s)));
  qk_inj : forall i j, slot i -> slot j -> next i s = next j s -> next i s <> -1 -> i = j;
  qk_rank : exists rank : Z -> nat, forall i, slot i -> next i s <> -1 -> (rank (next i s) < rank i)%nat
}.

Record tcp_ok (s : tcp) : Prop := {
  tk_len : zlen (g_conns s) = MAX_TCP_CONNS;
  tk_conns : forall i, slot i -> conn_ok (conn i s);
  tk_partner : forall i, slot i -> c_partner (conn i s) = -1 \/ slot (c_partner (conn i s));
  tk_iss : 0 <= g_iss s < 2 ^ 32;
  tk_port : 0 < s_next_port s < 2 ^ 16;
  tk_queues : queues_ok s
}.

(** [s'] has the table and counters of [s]. *)
Lemma tcp_ok_net s s' : g_conns s' = g_conns s -> g_iss s' = g_iss s -> s_next_port s' = s_next_port s -> tcp_ok s -> tcp_ok s'.
Proof.
  intros E1 E2 E3 [A1 A2 A3 A4 A5 [Q1 Q2 Q3]]. unfold conn in *. constructor; rewrite ?E1, ?E2, ?E3; try done.
  all: unfold conn; rewrite ?E1; try done. constructor; unfold conn; rewrite ?E1; done.
Qed.

Lemma tcp_ok_with_net n s : tcp_ok s -> tcp_ok (with_net n s).
Proof. by apply tcp_ok_net. Qed.

Lemma tcp_ok_log dst b s : tcp_ok s -> tcp_ok (log_segment dst b s).
Proof. by apply tcp_ok_net. Qed.

(** ** One connection changes *)

(** A change of a connection that a queue does not notice. *)
Record calm (c c' : tcp_conn) : Prop := {
  cm_ok : conn_ok c -> conn_ok c';
  cm_next : c_next c' = c_next c;
  cm_wait : waiting (c_state c) -> waiting (c_state c');
  cm_owned : owned (c_state c) -> owned (c_state c');
  cm_partner : c_partner c' = c_partner c
}.

Lemma slot_conn i s : tcp_ok s -> slot i -> 0 <= i < zlen (g_conns s).
Proof. intros Ok Hi. by rewrite (tk_len s Ok). Qed.

Lemma conn_upd i j f s : tcp_ok s -> slot i -> slot j -> conn j (upd_conn i f s) = if decide (j = i) then f (conn i s) else conn j s.
Proof.
  intros Ok Hi Hj. destruct (decide (j = i)) as [->|Hn]; [apply conn_upd_eq; by apply slot_conn|apply conn_upd_ne; unfold slot in *; lia].
Qed.

Lemma tcp_upd_ok i f s :
  tcp_ok s -> slot i -> (conn_ok (conn i s) -> conn_ok (f (conn i s))) -> c_next (f (conn i s)) = c_next (conn i s) ->
  (c_partner (f (conn i s)) = -1 \/ slot (c_partner (f (conn i s)))) -> (queued i s -> waiting (c_state (conn i s)) -> waiting (c_state (f (conn i s)))) ->
  tcp_ok (upd_conn i f s).
Proof.
  intros Ok Hi Hc Hn Hp Hw. pose proof Ok as [A1 A2 A3 A4 A5 [Q1 Q2 [rank Q3]]].
  assert (En : forall j, slot j -> next j (upd_conn i f s) = next j s) by (intros j Hj; rewrite conn_upd by done; destruct (decide (j = i)) as [->|]; done).
  constructor; [cbn; by rewrite zlen_zset| | |done|done|constructor].
  - intros j Hj. rewrite conn_upd by done. destruct (decide (j = i)); [by apply Hc, A2|by apply A2].
  - intros j Hj. rewrite conn_upd by done. destruct (decide (j = i)); [done|by apply A3].
  - intros j Hj. rewrite En by done. destruct (Q1 j Hj) as [E|[S W]]; [by left|right]. split; [done|]. rewrite conn_upd by done.
    destruct (decide _) as [E|]; [|done]. rewrite E in W. apply Hw; [by exists j|done].
  - intros j k Hj Hk. rewrite !En by done. by apply Q2.
  - exists rank. intros j Hj. rewrite En by done. by apply Q3.
Qed.

Lemma calm_ok i f s : tcp_ok s -> slot i -> calm (conn i s) (f (conn i s)) -> tcp_ok (upd_conn i f s).
Proof.
  intros Ok Hi [C1 C2 C3 C4 C5]. apply tcp_upd_ok; [done|done|done|done|rewrite C5; by apply (tk_partner s Ok)|by intros _].
Qed.

(** A slot outside the queues may be set to anything that is in no queue. *)
Lemma reset_ok i f s :
  tcp_ok s -> slot i -> ~ queued i s -> conn_ok (f (conn i s)) -> c_next (f (conn i s)) = -1 ->
  (c_partner (f (conn i s)) = -1 \/ slot (c_partner (f (conn i s)))) -> tcp_ok (upd_conn i f s).
Proof.
  intros Ok Hi Hq Hc Hn Hp. pose proof Ok as [A1 A2 A3 A4 A5 [Q1 Q2 [rank Q3]]].
  assert (En : forall j, slot j -> next j (upd_conn i f s) = if decide (j = i) then -1 else next j s) by (intros j Hj; rewrite conn_upd by done; by destruct (decide (j = i))).
  constructor; [cbn; by rewrite zlen_zset| | |done|done|constructor].
  - intros j Hj. rewrite conn_upd by done. destruct (decide (j = i)); [done|by apply A2].
  - intros j Hj. rewrite conn_upd by done. destruct (decide (j = i)); [done|by apply A3].
  - intros j Hj. rewrite En by done. destruct (decide (j = i)); [by left|]. destruct (Q1 j Hj) as [E|[S W]]; [by left|right]. split; [done|].
    rewrite conn_upd by done. rewrite decide_False; [done|]. intros E. apply Hq. by exists j.
  - intros j k Hj Hk. rewrite !En by done. destruct (decide (j = i)), (decide (k = i)); try done; try congruence. by apply Q2.
  - exists rank. intros j Hj. rewrite En by done. destruct (decide (j = i)); [done|]. by apply Q3.
Qed.

(** ** Linking and unlinking *)

(** [i] goes to the front of the queue of [l]. *)
Lemma link_ok i l f s :
  tcp_ok s -> slot i -> slot l -> i <> l -> ~ queued i s -> ~ queued l s -> conn_ok (f (conn i s)) -> c_next (f (conn i s)) = next l s ->
  waiting (c_state (f (conn i s))) -> (c_partner (f (conn i s)) = -1 \/ slot (c_partner (f (conn i s)))) ->
  tcp_ok (upd_conn l (set_next i) (upd_conn i f s)).
Proof.
  intros Ok Hi Hl Hil Hqi Hql Hc Hn Hw Hp. pose proof Ok as [A1 A2 A3 A4 A5 [Q1 Q2 [rank Q3]]]. set (s' := upd_conn l _ _).
  assert (Ec : forall j, slot j -> conn j s' = if decide (j = l) then set_next i (conn l s) else if decide (j = i) then f (conn i s) else conn j s).
  { intros j Hj. unfold s'. destruct (decide (j = l)) as [->|].
    - rewrite conn_upd_eq by (cbn; rewrite zlen_zset; by apply slot_conn). rewrite conn_upd by done. by rewrite decide_False.
    - rewrite conn_upd_ne by (unfold slot in *; lia). by rewrite conn_upd. }
  assert (En : forall j, slot j -> next j s' = if decide (j = l) then i else if decide (j = i) then next l s else next j s).
  { intros j Hj. rewrite Ec by done. destruct (decide (j = l)); [done|]. by destruct (decide (j = i)). }
  assert (Nl : forall j, slot j -> next j s <> l) by (intros j Hj E; apply Hql; by exists j).
  assert (Ni : forall j, slot j -> next j s <> i) by (intros j Hj E; apply Hqi; by exists j).
  constructor; [cbn; by rewrite !zlen_zset| | |done|done|constructor].
  - intros j Hj. rewrite Ec by done. destruct (decide (j = l)); [destruct (A2 l Hl) as [[? ? ?]]; by constructor|]. destruct (decide (j = i)); [done|by apply A2].
  - intros j Hj. rewrite Ec by done. destruct (decide (j = l)); [by apply A3|]. destruct (decide (j = i)); [done|by apply A3].
  - assert (W : forall j, slot j -> next j s = -1 \/ (slot (next j s) /\ waiting (c_state (conn (next j s) s')))).
    { intros j Hj. destruct (Q1 j Hj) as [E|[S W]]; [by left|right]. split; [done|]. rewrite Ec by done.
      rewrite decide_False by (by apply Nl). by rewrite decide_False by (by apply Ni). }
    intros j Hj. rewrite En by done. destruct (decide (j = l)) as [->|]; [|destruct (decide (j = i)); by apply W].
    right. split; [done|]. rewrite Ec by done. rewrite decide_False by done. by rewrite decide_True.
  - intros j k Hj Hk. rewrite !En by done. destruct (decide (j = l)), (decide (k = l)); subst; try done.
    + destruct (decide (k = i)); intros E _; exfalso; [by apply (Ni l)|by apply (Ni k)].
    + destruct (decide (j = i)); intros E _; exfalso; [by apply (Ni l)|by apply (Ni j)].
    + destruct (decide (j = i)) as [->|], (decide (k = i)) as [->|]; try done; intros E D.
      * exfalso. by apply (not_eq_sym n0), (Q2 l k).
      * exfalso. apply n, (Q2 j l); congruence || done.
      * by apply Q2.
  - exists (fun j => if decide (j = l) then S (rank l) else if decide (j = i) then rank l else rank j). intros j Hj. rewrite En by done.
    destruct (decide (j = l)) as [->|].
    + rewrite decide_False by done. rewrite decide_True by done. lia.
    + destruct (decide (j = i)) as [->|]; intros D; (rewrite decide_False by (by apply Nl)); (rewrite decide_False by (by apply Ni)); by apply Q3.
Qed.

(** [i] behind [p] leaves its queue. *)
Lemma unlink_ok i p s :
  tcp_ok s -> slot i -> slot p -> next p s = i -> tcp_ok (upd_conn i (set_next (-1)) (upd_conn p (set_next (next i s)) s)) /\
  ~ queued i (upd_conn i (set_next (-1)) (upd_conn p (set_next (next i s)) s)).
Proof.
  intros Ok Hi Hp Hpi. pose proof Ok as [A1 A2 A3 A4 A5 [Q1 Q2 [rank Q3]]]. set (s' := upd_conn i _ _).
  assert (Np : p <> i). { intros ->. specialize (Q3 i Hi ltac:(unfold slot in *; lia)). rewrite Hpi in Q3. lia. }
  assert (Ec : forall j, slot j -> conn j s' = if decide (j = i) then set_next (-1) (conn i s) else if decide (j = p) then set_next (next i s) (conn p s) else conn j s).
  { intros j Hj. unfold s'. destruct (decide (j = i)) as [->|].
    - rewrite conn_upd_eq by (cbn; rewrite zlen_zset; by apply slot_conn). rewrite conn_upd by done. by rewrite decide_False.
    - rewrite conn_upd_ne by (unfold slot in *; lia). by rewrite conn_upd. }
  assert (En : forall j, slot j -> next j s' = if decide (j = i) then -1 else if decide (j = p) then next i s else next j s).
  { intros j Hj. rewrite Ec by done. destruct (decide (j = i)); [done|]. by destruct (decide (j = p)). }
  assert (Es : forall j, slot j -> c_state (conn j s') = c_state (conn j s)).
  { intros j Hj. rewrite Ec by done. destruct (decide (j = i)) as [->|]; [done|]. by destruct (decide (j = p)) as [->|]. }
  assert (Own : forall j, slot j -> j <> p -> next j s <> i) by (intros j Hj Hn E; apply Hn, (Q2 j p); unfold slot in *; congruence || lia).
  assert (Ii : next i s <> i). { intros E. specialize (Q3 i Hi ltac:(unfold slot in *; lia)). rewrite E in Q3. lia. }
  split; [constructor; [cbn; by rewrite !zlen_zset| | |done|done|constructor]|].
  - intros j Hj. rewrite Ec by done. destruct (decide (j = i)) as [->|]; [destruct (A2 i Hi) as [[? ? ?]]; by constructor|].
    destruct (decide (j = p)) as [->|]; [destruct (A2 p Hp) as [[? ? ?]]; by constructor|by apply A2].
  - intros j Hj. rewrite Ec by done. destruct (decide (j = i)) as [->|]; [by apply A3|]. destruct (decide (j = p)) as [->|]; by apply A3.
  - intros j Hj. rewrite En by done. destruct (decide (j = i)); [by left|]. destruct (decide (j = p)).
    + destruct (Q1 i Hi) as [E|[S W]]; [by left|right]. split; [done|]. by rewrite Es.
    + destruct (Q1 j Hj) as [E|[S W]]; [by left|right]. split; [done|]. by rewrite Es.
  - intros j k Hj Hk. rewrite !En by done. destruct (decide (j = i)), (decide (k = i)); try done; try congruence.
    destruct (decide (j = p)) as [->|], (decide (k = p)) as [->|]; try done; intros E D.
    + exfalso. apply n0. symmetry. apply (Q2 i k); congruence || done.
    + exfalso. apply n, (Q2 j i); congruence || done.
    + by apply Q2.
  - exists rank. intros j Hj. rewrite En by done. destruct (decide (j = i)); [done|]. destruct (decide (j = p)) as [->|]; [|by apply Q3].
    intros D. pose proof (Q3 i Hi D). pose proof (Q3 p Hp ltac:(unfold slot in *; lia)) as R. rewrite Hpi in R. lia.
  - intros (j & Hj & E). rewrite En in E by done. destruct (decide (j = i)); [unfold slot in Hi; lia|]. destruct (decide (j = p)); [done|]. by apply (Own j).
Qed.

(** ** What an application keeps *)

(** A connection that an application may have: open, and in no queue. *)
Definition holdable (i : Z) (s : tcp) : Prop := owned (c_state (conn i s)) /\ ~ queued i s.

(** A step keeps the table and takes no connection from an application, but for
    the connections [but]. *)
Record keeps (but : Z -> Prop) (s s' : tcp) : Prop := {
  kp_ok : tcp_ok s';
  kp_hold : forall j, slot j -> ~ but j -> holdable j s -> holdable j s'
}.
#[local] Abbreviation none := (fun _ : Z => False).

Lemma keeps_refl but s : tcp_ok s -> keeps but s s.
Proof. by constructor. Qed.

Lemma keeps_trans but s s' s'' : keeps but s s' -> keeps but s' s'' -> keeps but s s''.
Proof. intros [A B] [C D]. constructor; [done|]. intros j Hj Hb Hh. apply D; [done|done|]. by apply B. Qed.

Lemma keeps_weaken (but : Z -> Prop) s s' : keeps none s s' -> keeps but s s'.
Proof. intros [A B]. constructor; [done|]. intros j Hj _. apply B; tauto. Qed.

Lemma keeps_same but s s' : g_conns s' = g_conns s -> 0 <= g_iss s' < 2 ^ 32 -> 0 < s_next_port s' < 2 ^ 16 -> tcp_ok s -> keeps but s s'.
Proof.
  intros E H1 H2 [A1 A2 A3 A4 A5 [Q1 Q2 Q3]]. constructor.
  - unfold conn in *. constructor; rewrite ?E; try done. all: unfold conn; rewrite ?E; try done. constructor; unfold conn; rewrite ?E; done.
  - intros j Hj _ [O Q]. unfold holdable, queued, conn. by rewrite E.
Qed.

(** The queues after a change of [i] that keeps its [next]. *)
Lemma queued_upd i f j s : tcp_ok s -> slot i -> c_next (f (conn i s)) = c_next (conn i s) -> queued j (upd_conn i f s) -> queued j s.
Proof. intros Ok Hi Hn (k & Hk & E). exists k. split; [done|]. rewrite conn_upd in E by done. destruct (decide (k = i)) as [->|]; congruence. Qed.

Lemma keeps_upd (but : Z -> Prop) i f s :
  tcp_ok s -> slot i -> tcp_ok (upd_conn i f s) -> c_next (f (conn i s)) = c_next (conn i s) ->
  (~ but i -> owned (c_state (conn i s)) -> owned (c_state (f (conn i s)))) -> keeps but s (upd_conn i f s).
Proof.
  intros Ok Hi Ok' Hn Ho. constructor; [done|]. intros j Hj Hb [O Q]. split; [|intros Q'; by apply Q, (queued_upd i f)].
  rewrite conn_upd by done. destruct (decide (j = i)) as [->|]; auto.
Qed.

Lemma keeps_calm but i f s : tcp_ok s -> slot i -> calm (conn i s) (f (conn i s)) -> keeps but s (upd_conn i f s).
Proof. intros Ok Hi C. apply keeps_upd; [done|done|by apply calm_ok|apply C|intros _; apply C]. Qed.

(** A change of a slot that is in no queue and that no application has. *)
Lemma keeps_reset but i f s :
  tcp_ok s -> slot i -> ~ owned (c_state (conn i s)) -> ~ queued i s -> conn_ok (f (conn i s)) -> c_next (f (conn i s)) = -1 ->
  (c_partner (f (conn i s)) = -1 \/ slot (c_partner (f (conn i s)))) -> keeps but s (upd_conn i f s) /\ ~ queued i (upd_conn i f s).
Proof.
  intros Ok Hi Ho Hq Hc Hn Hp. assert (Q : forall j, slot j -> queued j (upd_conn i f s) -> queued j s).
  { intros j Hj (k & Hk & E). rewrite conn_upd in E by done. destruct (decide (k = i)); [unfold slot in *; lia|by exists k]. }
  split; [|intros X; by apply Hq, Q]. constructor; [by apply reset_ok|]. intros j Hj _ [O Nq]. split; [|intros X; by apply Nq, Q].
  rewrite conn_upd by done. destruct (decide (j = i)) as [->|]; done.
Qed.

Lemma keeps_link but i l f s :
  tcp_ok s -> slot i -> slot l -> i <> l -> ~ owned (c_state (conn i s)) -> ~ queued i s -> ~ queued l s -> conn_ok (f (conn i s)) -> c_next (f (conn i s)) = next l s ->
  waiting (c_state (f (conn i s))) -> (c_partner (f (conn i s)) = -1 \/ slot (c_partner (f (conn i s)))) ->
  keeps but s (upd_conn l (set_next i) (upd_conn i f s)).
Proof.
  intros Ok Hi Hl Hil Ho Hqi Hql Hc Hn Hw Hp. constructor; [by apply link_ok|]. intros j Hj _ [O Q].
  assert (Ec : forall k, slot k -> conn k (upd_conn l (set_next i) (upd_conn i f s)) = if decide (k = l) then set_next i (conn l s) else if decide (k = i) then f (conn i s) else conn k s).
  { intros k Hk. destruct (decide (k = l)) as [->|].
    - rewrite conn_upd_eq by (cbn; rewrite zlen_zset; by apply slot_conn). rewrite conn_upd by done. by rewrite decide_False.
    - rewrite conn_upd_ne by (unfold slot in *; lia). by rewrite conn_upd. }
  split.
  - rewrite Ec by done. destruct (decide (j = l)) as [->|]; [done|]. destruct (decide (j = i)) as [->|]; done.
  - intros (k & Hk & E). rewrite Ec in E by done. destruct (decide (k = l)); [cbn in E; subst; done|]. apply Q. destruct (decide (k = i)); [exists l; split; congruence|by exists k].
Qed.

(** ** The operations *)

Lemma not_queued i s : tcp_ok s -> slot i -> ~ waiting (c_state (conn i s)) -> ~ queued i s.
Proof.
  intros Ok Hi Hw (j & Hj & E). destruct (qk_next s (tk_queues s Ok) j Hj) as [E'|[_ W]]; [unfold slot in *; lia|by rewrite E in W].
Qed.

Lemma calm_advanced flags len c : calm c (advanced flags len c).
Proof. calm. Qed.

Lemma keeps_send but iface i flags data s :
  tcp_ok s -> slot i -> keeps but s (tcp_send_segment iface i flags data s).2 /\
  forall j, slot j -> c_state (conn j (tcp_send_segment iface i flags data s).2) = c_state (conn j s).
Proof.
  intros Ok Hi. pose proof (tcp_send_segment_spec iface i flags data s (tk_conns s Ok i Hi) (slot_conn i s Ok Hi)) as S.
  destruct (tcp_send_segment iface i flags data s) as [ok s']. cbn [snd]. destruct S as [[_ [n ->]]|(n & ts & ck & _ & _ & ->)].
  - split; [|done]. apply keeps_same; [done|apply Ok|apply Ok|done].
  - assert (K : keeps but s (upd_conn i (advanced flags (zlen data)) s)) by (apply keeps_calm; [done|done|apply calm_advanced]).
    split; [eapply keeps_trans; [exact K|]; apply keeps_same; [done|apply Ok|apply Ok|apply K]|].
    intros j Hj. pose proof (conn_upd i j (advanced flags (zlen data)) s Ok Hi Hj) as E. unfold conn in E |- *. cbn [g_conns upd_conn with_conns] in E |- *. unfold conn in E. rewrite E.
    by destruct (decide (j = i)) as [->|].
Qed.

(** [conn_alloc] takes a closed slot and clears it. *)
Definition fresh_conn : tcp_conn := set_rcv_wnd TCP_BUF_SIZE conn_zero.

Lemma fresh_ok : conn_ok fresh_conn.
Proof. widths. Qed.

Lemma conn_alloc_ok s i s' :
  tcp_ok s -> conn_alloc s = (i, s') ->
  (i = -1 /\ s' = s /\ forall j, slot j -> c_state (conn j s) <> TCP_CLOSED) \/
  (slot i /\ c_state (conn i s) = TCP_CLOSED /\ s' = upd_conn i (fun _ => fresh_conn) s /\ conn i s' = fresh_conn /\ keeps none s s' /\ ~ queued i s').
Proof.
  intros Ok. unfold conn_alloc. destruct (find_from_spec is_closed (g_conns s) 0 ltac:(lia)) as [[-> F]|(k & Hk & -> & C & _)].
  - intros [= <- <-]. left. split_and!; try done. intros j Hj E. pose proof (F j ltac:(by apply slot_conn)) as X. unfold is_closed in X.
    apply bool_decide_eq_false in X. done.
  - rewrite Z.add_0_l. destruct (Z.leb_spec 0 k); [|lia]. intros [= <- <-]. right. rewrite (tk_len s Ok) in Hk. unfold is_closed in C. apply bool_decide_eq_true in C. fold (conn k s) in C.
    assert (Nq : ~ queued k s) by (apply not_queued; [done|done|]; rewrite C; unfold waiting; intuition congruence).
    destruct (keeps_reset none k (fun _ => fresh_conn) s) as [K Q]; try done; [rewrite C; unfold owned; intuition congruence|by left|].
    split_and!; try done. apply conn_upd_eq. by apply slot_conn.
Qed.

(** A segment for a connection. *)
Definition wide_segment (g : segment) : Prop :=
  0 <= g_src_port g < 2 ^ 16 /\ 0 <= g_dst_port g < 2 ^ 16 /\ 0 <= g_ack g < 2 ^ 32 /\ 0 <= g_window g < 2 ^ 16.

Lemma parse_wide b g : parse_segment b = Some g -> wide_segment g.
Proof.
  unfold parse_segment. case_match; [done|]. intros [= <-]. unfold wide_segment. cbn. split_and!; apply ntohs_range || apply ntohl_range.
Qed.

Lemma keeps_ack but iface i s :
  tcp_ok s -> slot i -> keeps but s (send_ack iface i s) /\ forall j, slot j -> c_state (conn j (send_ack iface i s)) = c_state (conn j s).
Proof. apply keeps_send. Qed.

(** A change of [i], then an acknowledgement. *)
Lemma keeps_upd_ack but iface i f s :
  tcp_ok s -> slot i -> calm (conn i s) (f (conn i s)) ->
  keeps but s (send_ack iface i (upd_conn i f s)) /\ c_state (conn i (send_ack iface i (upd_conn i f s))) = c_state (f (conn i s)).
Proof.
  intros Ok Hi C. pose proof (keeps_calm but i f s Ok Hi C) as K. destruct (keeps_ack but iface i _ (kp_ok _ _ _ K) Hi) as [K' E].
  split; [by eapply keeps_trans|]. rewrite E by done. rewrite conn_upd by done. by rewrite decide_True.
Qed.

Lemma rx_store_ring data c : ring_ok c -> ring_ok (rx_store data c).
Proof.
  revert c. induction data as [|x data IH]; intros c Ok; cbn [rx_store]; [done|]. apply IH. destruct Ok. constructor; cbn; [by rewrite zlen_zset|apply u16_range|done].
Qed.

Lemma rx_push_frame data c : exists buf head wnd, rx_push data c = set_rcv_wnd (u16 wnd) (set_rx buf head (c_rx_tail c) c) /\ (ring_ok c -> ring_ok (rx_push data c)).
Proof.
  unfold rx_push. cbv zeta. set (d := take _ data). destruct (rx_store_frame d c) as (b & h & E). pose proof (rx_store_ring d c) as R.
  rewrite E in *. eexists b, h, _. split; [done|]. intros Rk. destruct (R Rk). by constructor.
Qed.

Lemma calm_push data c : calm c (rx_push data c).
Proof.
  destruct (rx_push_frame data c) as (b & h & w & E & R). rewrite E in *. constructor; cbn; try done. intros [Rk [? ?] [? ?] ? ? ? [? ?]]. destruct (R Rk) as [? ? ?]. widths.
Qed.

Lemma calm_rcv_nxt x c : calm c (set_rcv_nxt (u32 x) c).
Proof. calm. Qed.

Lemma calm_trans c c' c'' : calm c c' -> calm c' c'' -> calm c c''.
Proof. intros [A1 A2 A3 A4 A5] [B1 B2 B3 B4 B5]. constructor; [auto|congruence|auto|auto|congruence]. Qed.

Lemma in_syn_recv_ok but iface i g s : tcp_ok s -> slot i -> c_state (conn i s) = TCP_SYN_RECV -> wide_segment g -> keeps but s (in_syn_recv iface i g s).
Proof.
  intros Ok Hi Es Hg. unfold in_syn_recv. case_match.
  - apply keeps_calm; [done|done|]. calm.
  - case_match; [|by apply keeps_refl]. rewrite upd_upd by (by apply slot_conn). set (f := fun c => _).
    assert (K : keeps but s (upd_conn i f s)) by (apply keeps_calm; [done|done|]; unfold f; calm).
    destruct (keeps_send but iface i (Z.lor TCP_SYN TCP_ACK) [] _ (kp_ok _ _ _ K) Hi) as [K2 _].
    eapply keeps_trans; [exact K|]. eapply keeps_trans; [exact K2|]. apply keeps_calm; [apply K2|done|]. calm.
Qed.

Lemma in_syn_sent_ok but iface i g s : tcp_ok s -> slot i -> wide_segment g -> c_state (conn i s) = TCP_SYN_SENT -> keeps but s (in_syn_sent iface i g s).
Proof.
  intros Ok Hi (_ & _ & Ha & _) Es. unfold in_syn_sent. case_match; [|by apply keeps_refl]. apply keeps_upd_ack; [done|done|]. calm.
Qed.

Lemma in_fin_ok but iface i g s :
  tcp_ok s -> slot i -> (c_state (conn i s) = TCP_FIN_WAIT1 \/ c_state (conn i s) = TCP_FIN_WAIT2) -> keeps but s (in_fin iface i g s).
Proof.
  intros Ok Hi Es. unfold in_fin. case_match; [|by apply keeps_refl].
  destruct (keeps_upd_ack but iface i (fun c => set_rcv_nxt (u32 (c_rcv_nxt c + 1)) c) s Ok Hi ltac:(calm)) as [K E]. eapply keeps_trans; [exact K|].
  apply keeps_calm; [apply K|done|]. cbn [c_state set_rcv_nxt] in E. constructor; try done; [intros [[? ? ?] [? ?] [? ?] ? ? ? [? ?]]; widths|rewrite E..].
  all: unfold waiting, owned; intuition congruence.
Qed.

Lemma in_established_ok but iface i g s : tcp_ok s -> slot i -> wide_segment g -> c_state (conn i s) = TCP_ESTABLISHED -> keeps but s (in_established iface i g s).
Proof.
  intros Ok Hi (_ & _ & Ha & _) Es. unfold in_established. set (s1 := if _ && _ then _ else _).
  assert (K1 : keeps but s s1 /\ c_state (conn i s1) = TCP_ESTABLISHED).
  { unfold s1. case_match; [|case_match; [|split; [by apply keeps_refl|done]]].
    - match goal with |- context [upd_conn i ?f s] => destruct (keeps_upd_ack but iface i f s Ok Hi) as [K E] end; [eapply calm_trans; [apply calm_push|apply calm_rcv_nxt]|].
      split; [done|]. rewrite E. cbn [c_state set_rcv_nxt]. destruct (rx_push_frame (g_payload g) (conn i s)) as (b & h & w & -> & _). done.
    - destruct (keeps_ack but iface i s Ok Hi) as [K E]. split; [done|]. by rewrite E. }
  destruct K1 as [K1 E1]. set (s2 := if has _ TCP_ACK then _ else _).
  assert (K2 : keeps but s s2 /\ c_state (conn i s2) = TCP_ESTABLISHED).
  { unfold s2. case_match; [|done]. split; [eapply keeps_trans; [exact K1|]; apply keeps_calm; [apply K1|done|calm]|].
    rewrite conn_upd by (apply K1 || done). by rewrite decide_True. }
  destruct K2 as [K2 E2]. case_match; [|done]. eapply keeps_trans; [exact K2|]. apply keeps_upd_ack; [apply K2|done|]. calm.
Qed.

Lemma tcp_input_conn_ok but iface i g s : tcp_ok s -> slot i -> wide_segment g -> keeps but s (tcp_input_conn iface i g s).
Proof.
  intros Ok Hi Hg. pose proof Hg as (_ & _ & _ & Hw). unfold tcp_input_conn. set (s1 := upd_conn i _ s).
  assert (K1 : keeps but s s1) by (apply keeps_calm; [done|done|calm]). eapply keeps_trans; [exact K1|]. pose proof (kp_ok _ _ _ K1) as Ok1. clearbody s1.
  destruct (c_state (conn i s1)) eqn:Es; try by apply keeps_refl.
  - by apply in_syn_sent_ok.
  - by apply in_syn_recv_ok.
  - by apply in_established_ok.
  - case_match; [|apply in_fin_ok; auto]. assert (K2 : keeps but s1 (upd_conn i (set_state TCP_FIN_WAIT2) s1)) by (apply keeps_calm; [done|done|calm]).
    eapply keeps_trans; [exact K2|]. apply in_fin_ok; [apply K2|done|]. right. rewrite conn_upd by done. by rewrite decide_True.
  - apply in_fin_ok; auto.
  - case_match; [|by apply keeps_refl]. apply keeps_calm; [done|done|calm].
  - apply keeps_calm; [done|done|calm].
Qed.

Lemma listener_find_ok port s :
  tcp_ok s -> listener_find port s = -1 \/ (slot (listener_find port s) /\ c_state (conn (listener_find port s) s) = TCP_LISTEN /\ c_local_port (conn (listener_find port s) s) = port).
Proof.
  intros Ok. unfold listener_find. destruct (find_from_spec (fun c => bool_decide (c_state c = TCP_LISTEN) && (c_local_port c =? port)) (g_conns s) 0 ltac:(lia)) as [[-> _]|(k & Hk & -> & C & _)]; [by left|right].
  rewrite Z.add_0_l. apply andb_prop in C as [C1 C2]. apply bool_decide_eq_true in C1. rewrite (tk_len s Ok) in Hk. split; [done|]. split; [done|]. by apply Z.eqb_eq.
Qed.

(** A listener is no closed slot, and is in no queue. *)
Lemma listener_alloc l i s :
  tcp_ok s -> slot l -> c_state (conn l s) = TCP_LISTEN -> slot i -> c_state (conn i s) = TCP_CLOSED ->
  let s' := upd_conn i (fun _ => fresh_conn) s in i <> l /\ conn l s' = conn l s /\ (tcp_ok s' -> ~ queued l s').
Proof.
  intros Ok Hl El Hi Ei s'. assert (Hn : i <> l) by congruence. assert (E : conn l s' = conn l s) by (apply conn_upd_ne; unfold slot in *; lia).
  split_and!; [done|done|]. intros Ok'. apply not_queued; [done|done|]. rewrite E, El. unfold waiting. intuition congruence.
Qed.

Lemma fresh_not_owned : ~ owned (c_state fresh_conn).
Proof. unfold owned. cbn. intuition congruence. Qed.

(** The slot [i] of [conn_alloc] goes into the queue of the listener [l] and the
    initial sequence number moves. *)
Lemma keeps_enqueue but l i f x s :
  tcp_ok s -> slot l -> c_state (conn l s) = TCP_LISTEN -> slot i -> c_state (conn i s) = TCP_CLOSED ->
  let s' := upd_conn i (fun _ => fresh_conn) s in
  conn i s' = fresh_conn -> keeps none s s' -> ~ queued i s' -> conn_ok (f fresh_conn) -> c_next (f fresh_conn) = next l s ->
  waiting (c_state (f fresh_conn)) -> c_partner (f fresh_conn) = -1 ->
  keeps but s (upd_conn l (set_next i) (with_iss (u32 x) (upd_conn i f s'))).
Proof.
  intros Ok Hl El Hi Ei s' Ef K Q Hc Hn Hw Hp. destruct (listener_alloc l i s Ok Hl El Hi Ei) as (Nil & Ell & Qn). fold s' in Ell, Qn.
  eapply keeps_trans; [by apply keeps_weaken|]. pose proof (kp_ok _ _ _ K) as Ok'.
  assert (K2 : keeps but s' (upd_conn l (set_next i) (upd_conn i f s'))).
  { apply keeps_link; rewrite ?Ef; try done; [apply fresh_not_owned|by apply Qn|by rewrite Ell|by left]. }
  eapply keeps_trans; [exact K2|]. apply keeps_same; [done|apply u32_range|apply (tk_port s Ok)|apply K2].
Qed.

Lemma tcp_input_syn_ok but iface src dst g s :
  tcp_ok s -> wide_segment g -> 0 <= src < 2 ^ 32 -> 0 <= dst < 2 ^ 32 -> keeps but s (tcp_input_syn iface src dst g s).
Proof.
  intros Ok (Hs & Hd & Ha & Hw) Hsrc Hdst. unfold tcp_input_syn. destruct (listener_find_ok (g_dst_port g) s Ok) as [->|(Hl & El & _)]; [by apply keeps_refl|].
  set (l := listener_find _ s) in *. case_match; [by apply keeps_refl|]. destruct (conn_alloc s) as [i s1] eqn:Ea.
  destruct (conn_alloc_ok s i s1 Ok Ea) as [(-> & -> & _)|(Hi & Ei & -> & Ef & K & Q)]; [by apply keeps_refl|].
  destruct (Z.ltb_spec i 0); [unfold slot in Hi; lia|]. destruct (listener_alloc l i s Ok Hl El Hi Ei) as (Nil & Ell & Qn).
  match goal with |- context [upd_conn i ?f (upd_conn i (fun _ => fresh_conn) s)] => set (h := f) end.
  match goal with |- context [upd_conn l (set_next i) ?x] => set (s2 := upd_conn l (set_next i) x) end.
  assert (K2 : keeps but s s2).
  { apply keeps_enqueue; try done; [|unfold h; cbn [c_next]; by rewrite Ell|unfold h, waiting; cbn; tauto]. unfold h. pose proof (tk_iss s Ok). widths. }
  destruct (il_resolve iface src (t_net s2)) as [known n].
  assert (K3 : keeps but s (with_net n s2)) by (eapply keeps_trans; [exact K2|]; apply keeps_same; [done|apply K2|apply K2|apply K2]).
  destruct known.
  - eapply keeps_trans; [exact K3|]. apply keeps_send; [apply K3|done].
  - eapply keeps_trans; [exact K3|]. apply keeps_calm; [apply K3|done|calm].
Qed.

Lemma tcp_input_ok but iface buf src dst s : tcp_ok s -> 0 <= src < 2 ^ 32 -> 0 <= dst < 2 ^ 32 -> keeps but s (tcp_input iface buf src dst s).
Proof.
  intros Ok Hs Hd. unfold tcp_input. case_match; [by apply keeps_refl|]. set (s1 := if _ && _ then _ else s).
  assert (K : keeps but s s1) by (unfold s1; case_match; [apply keeps_same; [done|apply Ok|apply Ok|done]|by apply keeps_refl]). clearbody s1.
  eapply keeps_trans; [exact K|]. pose proof (kp_ok _ _ _ K) as Ok1. destruct (parse_segment buf) as [g|] eqn:Eg; [|by apply keeps_refl].
  pose proof (parse_wide _ _ Eg) as Hg. unfold conn_find. match goal with |- context [find_from ?p _ 0] => destruct (find_from_spec p (g_conns s1) 0 ltac:(lia)) as [[-> _]|(k & Hk & -> & _ & _)] end.
  - by apply tcp_input_syn_ok.
  - rewrite Z.add_0_l. destruct (Z.ltb_spec k 0); [lia|]. rewrite (tk_len s1 Ok1) in Hk. by apply tcp_input_conn_ok.
Qed.

Lemma flush_ok but iface ip s : tcp_ok s -> keeps but s (tcp_flush_pending_synacks iface ip s).
Proof.
  intros Ok. unfold tcp_flush_pending_synacks. change MAX_TCP_CONNS with (Z.of_nat 32). rewrite Nat2Z.id.
  apply (for_loop_ind (fun _ s' => keeps but s s') 32 0); [by apply keeps_refl|]. intros j s' Hj K. eapply keeps_trans; [exact K|]. pose proof (kp_ok _ _ _ K) as Ok'.
  unfold flush_one. case_match; [|by apply keeps_refl]. assert (Hs : slot j) by (unfold slot, MAX_TCP_CONNS; lia).
  assert (K2 : keeps but s' (upd_conn j (set_pending false) s')) by (apply keeps_calm; [done|done|calm]).
  eapply keeps_trans; [exact K2|]. apply keeps_send; [apply K2|done].
Qed.

(** ** Operations of an application *)

Lemma pick_port_range tries p conns : 0 < p < 2 ^ 16 -> let '(q, p') := pick_port tries p conns in 0 <= q < 2 ^ 16 /\ 0 < p' < 2 ^ 16.
Proof.
  revert p. induction tries as [|tries IH]; intros p Hp; cbn [pick_port]; [lia|].
  assert (Hn : 0 < (if u16 (p + 1) =? 0 then 49152 else u16 (p + 1)) < 2 ^ 16) by (destruct (Z.eqb_spec (u16 (p + 1)) 0); [lia|]; pose proof (u16_range (p + 1)); lia).
  destruct (existsb _ _); [by apply IH|]. lia.
Qed.

(** A fresh slot is set up for an application. *)
Lemma keeps_open but i f s :
  tcp_ok s -> slot i -> conn i s = fresh_conn -> ~ queued i s -> conn_ok (f fresh_conn) -> c_next (f fresh_conn) = -1 -> c_partner (f fresh_conn) = -1 ->
  keeps but s (upd_conn i f s) /\ ~ queued i (upd_conn i f s) /\ c_state (conn i (upd_conn i f s)) = c_state (f fresh_conn).
Proof.
  intros Ok Hi Ef Q Hc Hn Hp. destruct (keeps_reset but i f s) as [K Q']; rewrite ?Ef; try done; [apply fresh_not_owned|by left|].
  split_and!; [done|done|]. rewrite conn_upd by done. rewrite decide_True by done. by rewrite Ef.
Qed.

Lemma queued_same s s' j : g_conns s' = g_conns s -> queued j s -> queued j s'.
Proof. intros E (k & Hk & Ek). exists k. unfold conn in *. by rewrite E. Qed.

(** Sending leaves the queues alone. *)
Lemma queued_send iface i flags data s j : tcp_ok s -> slot i -> queued j (tcp_send_segment iface i flags data s).2 -> queued j s.
Proof.
  intros Ok Hi. pose proof (tcp_send_segment_spec iface i flags data s (tk_conns s Ok i Hi) (slot_conn i s Ok Hi)) as S.
  destruct (tcp_send_segment iface i flags data s) as [ok s']. cbn [snd]. destruct S as [[_ [n ->]]|(n & ts & ck & _ & _ & ->)]; [by apply queued_same|].
  intros Q. apply (queued_upd i (advanced flags (zlen data))); [done|done|done|]. revert Q. by apply queued_same.
Qed.

Lemma tcp_connect_ok but iface dst_ip dst_port src_port s i s' :
  tcp_ok s -> 0 <= if_ip iface < 2 ^ 32 -> 0 <= dst_ip < 2 ^ 32 -> 0 <= dst_port < 2 ^ 16 -> 0 <= src_port < 2 ^ 16 ->
  tcp_connect iface dst_ip dst_port src_port s = (i, s') -> keeps but s s' /\ (i = -1 \/ (slot i /\ c_state (conn i s) = TCP_CLOSED /\ holdable i s')).
Proof.
  intros Ok Hif Hip Hdp Hsp. unfold tcp_connect. destruct (conn_alloc s) as [k s1] eqn:Ea.
  destruct (conn_alloc_ok s k s1 Ok Ea) as [(-> & -> & _)|(Hk & Ek & -> & Ef & K & Q)]; [intros [= <- <-]; split; [by apply keeps_refl|by left]|].
  destruct (Z.ltb_spec k 0); [unfold slot in Hk; lia|]. set (s1 := upd_conn k _ s) in *. pose proof (kp_ok _ _ _ K) as Ok1.
  destruct (if src_port =? 0 then _ else _) as [port s2] eqn:Ep.
  assert (P : keeps but s1 s2 /\ g_conns s2 = g_conns s1 /\ g_iss s2 = g_iss s1 /\ 0 <= port < 2 ^ 16).
  { destruct (src_port =? 0); [|injection Ep as <- <-; split; [by apply keeps_refl|done]].
    pose proof (pick_port_range (Z.to_nat 16384) (s_next_port s1) (g_conns s1) (tk_port s1 Ok1)) as R. destruct (pick_port _ _ _) as [p n]. injection Ep as <- <-.
    split; [|split; [done|split; [done|lia]]]. apply keeps_same; [done|apply Ok1|cbn; lia|done]. }
  destruct P as (K2 & Ec & Ei & Hp). pose proof (kp_ok _ _ _ K2) as Ok2.
  assert (Ef2 : conn k s2 = fresh_conn) by (unfold conn in *; by rewrite Ec). assert (Q2 : ~ queued k s2) by (intros X; apply Q; revert X; by apply queued_same).
  assert (K12 : keeps but s s2) by (eapply keeps_trans; [by apply keeps_weaken|exact K2]). clear Ep Ea.
  destruct (port =? 0).
  - intros [= <- <-]. split; [|by left]. eapply keeps_trans; [exact K12|]. destruct (keeps_open but k (set_state TCP_CLOSED) s2) as [K3 _]; try done.
  - match goal with |- context [upd_conn k ?f s2] => destruct (keeps_open but k f s2) as (K3 & Q3 & E3); [done|done|done|done|pose proof (tk_iss s2 Ok2); widths|done|done|]; set (s3 := upd_conn k f s2) in * end.
    assert (K4 : keeps but s3 (with_iss (u32 (g_iss s3 + 1)) s3)) by (apply keeps_same; [done|apply u32_range|apply (kp_ok _ _ _ K3)|apply K3]).
    set (s4 := with_iss _ s3) in *. destruct (keeps_send but iface k TCP_SYN [] s4 (kp_ok _ _ _ K4) Hk) as [K5 E5].
    intros [= <- <-]. split; [eapply keeps_trans; [exact K12|]; eapply keeps_trans; [exact K3|]; by eapply keeps_trans|]. right. split; [done|]. split; [done|].
    split; [rewrite E5 by done; change (conn k s4) with (conn k s3); rewrite E3; unfold owned; cbn; tauto|].
    intros X. apply queued_send in X; [by apply Q3|apply K4|done].
Qed.

Lemma tcp_listen_ok but port s i s' :
  tcp_ok s -> 0 <= port < 2 ^ 16 -> tcp_listen port s = (i, s') -> keeps but s s' /\ (i = -1 \/ (slot i /\ c_state (conn i s) = TCP_CLOSED /\ holdable i s')).
Proof.
  intros Ok Hp. unfold tcp_listen. destruct (conn_alloc s) as [k s1] eqn:Ea.
  destruct (conn_alloc_ok s k s1 Ok Ea) as [(-> & -> & _)|(Hk & Ek & -> & Ef & K & Q)]; [intros [= <- <-]; split; [by apply keeps_refl|by left]|].
  destruct (Z.ltb_spec k 0); [unfold slot in Hk; lia|]. intros [= <- <-]. pose proof (kp_ok _ _ _ K) as Ok1.
  destruct (keeps_open but k (set_listen port) _ Ok1 Hk Ef Q) as (K3 & Q3 & E3); [widths|done|done|].
  split; [eapply keeps_trans; [by apply keeps_weaken|exact K3]|]. right. split; [done|]. split; [done|]. split; [rewrite E3; unfold owned; cbn; tauto|done].
Qed.

Lemma send_chunks_ok but fuel iface i data sent s : tcp_ok s -> slot i -> keeps but s (send_chunks fuel iface i data sent s).2.
Proof.
  revert data sent s. induction fuel as [|fuel IH]; intros data sent s Ok Hi; cbn [send_chunks]; [by apply keeps_refl|].
  case_match; [by apply keeps_refl|]. destruct (keeps_send but iface i (Z.lor TCP_PSH TCP_ACK) (take (Z.to_nat (Z.min (zlen data) TCP_MSS)) data) s Ok Hi) as [K _].
  destruct (tcp_send_segment _ _ _ _ _) as [ok s1]. cbn [snd] in K. case_match; [done|]. eapply keeps_trans; [exact K|]. apply IH; [apply K|done].
Qed.

Lemma send_local_calm data w c : calm c (send_local data w c).2.
Proof.
  revert w c. induction data as [|x data IH]; intros w c; cbn [send_local]; [calm|]. case_match; [calm|]. eapply calm_trans; [|apply IH].
  constructor; try done. intros [[? ? ?] [? ?] [? ?] ? ? ? [? ?]]. constructor; try done. constructor; cbn; [by rewrite zlen_zset|apply u16_range|done].
Qed.

Lemma tcp_send_ok but i data s : tcp_ok s -> slot i \/ i = -1 -> keeps but s (tcp_send i data s).2.
Proof.
  intros Ok Hi. unfold tcp_send. destruct (Z.ltb_spec i 0); [by apply keeps_refl|]. destruct Hi as [Hi|]; [|lia]. case_match; [by apply keeps_refl|]. case_match; [by apply keeps_refl|].
  destruct (tk_partner s Ok i Hi) as [->|Hp].
  - change (0 <=? -1) with false. cbv iota. destruct (netif_default _) as [iface|]; [|by apply keeps_refl].
    pose proof (send_chunks_ok but (length data) iface i data 0 s Ok Hi) as K. by destruct (send_chunks _ _ _ _ _ _).
  - destruct (Z.leb_spec 0 (c_partner (conn i s))); [|unfold slot in Hp; lia].
    pose proof (send_local_calm data 0 (conn (c_partner (conn i s)) s)) as C. destruct (send_local _ _ _) as [w c]. by apply keeps_calm.
Qed.

Lemma rx_take_calm n c : calm c (rx_take n c).2.
Proof.
  revert c. induction n as [|n IH]; intros c; cbn [rx_take]; [calm|]. pose proof (IH (set_rx (c_rx_buf c) (c_rx_head c) (u16 (c_rx_tail c + 1)) c)) as C.
  destruct (rx_take n _) as [r c']. eapply calm_trans; [|exact C]. constructor; try done. intros [[? ? ?] [? ?] [? ?] ? ? ? [? ?]]. constructor; try done. constructor; cbn; [done|done|apply u16_range].
Qed.

Lemma tcp_recv_ok but i len s : tcp_ok s -> slot i \/ i = -1 -> keeps but s (tcp_recv i len s).2.
Proof.
  intros Ok Hi. unfold tcp_recv. destruct (Z.ltb_spec i 0); [by apply keeps_refl|]. destruct Hi as [Hi|]; [|lia]. case_match; [by apply keeps_refl|].
  pose proof (rx_take_calm (Z.to_nat (Z.min (rx_available (conn i s)) len)) (conn i s)) as C. destruct (rx_take _ _) as [r c]. by apply keeps_calm.
Qed.

(** Closing takes the connection from its application. *)
Lemma keeps_state i st s : tcp_ok s -> slot i -> ~ queued i s -> keeps (eq i) s (upd_conn i (set_state st) s).
Proof.
  intros Ok Hi Q. apply keeps_upd; [done|done| |done|done]. apply tcp_upd_ok; try done; [|by apply (tk_partner s Ok)].
  intros [[? ? ?] ? ? ? ? ? ?]. by constructor.
Qed.

Lemma tcp_close_ok i s : tcp_ok s -> slot i \/ i = -1 -> ~ queued i s -> keeps (eq i) s (tcp_close i s).
Proof.
  intros Ok Hi Q. unfold tcp_close. destruct (Z.ltb_spec i 0); [by apply keeps_refl|]. destruct Hi as [Hi|]; [|lia]. cbn [orb]. case_match; [by apply keeps_refl|].
  case_match; [|by apply keeps_state]. set (s1 := upd_conn i _ s). assert (K : keeps (eq i) s s1) by (by apply keeps_state).
  destruct (netif_default _) as [iface|]; [|done]. eapply keeps_trans; [exact K|]. apply keeps_send; [apply K|done].
Qed.

(** The two ends of a loopback connection. *)
Lemma loopback_server_ok but l port ip s i s' :
  tcp_ok s -> slot l -> c_state (conn l s) = TCP_LISTEN -> 0 <= port < 2 ^ 16 -> 0 <= ip < 2 ^ 32 ->
  tcp_conn_alloc_for_loopback l port ip s = (i, s') -> keeps but s s' /\ (i = -1 \/ (slot i /\ c_state (conn i s) = TCP_CLOSED /\ queued i s')).
Proof.
  intros Ok Hl El Hp Hip. unfold tcp_conn_alloc_for_loopback. destruct (conn_alloc s) as [k s1] eqn:Ea.
  destruct (conn_alloc_ok s k s1 Ok Ea) as [(-> & -> & _)|(Hk & Ek & -> & Ef & K & Q)]; [intros [= <- <-]; split; [by apply keeps_refl|by left]|].
  destruct (Z.ltb_spec k 0); [unfold slot in Hk; lia|]. destruct (listener_alloc l k s Ok Hl El Hk Ek) as (Nil & Ell & Qn).
  intros [= <- <-]. match goal with |- context [upd_conn k ?f (upd_conn k (fun _ => fresh_conn) s)] => set (h := f) end.
  match goal with |- context [upd_conn l (set_next k) ?x] => set (s2 := upd_conn l (set_next k) x) end.
  assert (K2 : keeps but s s2).
  { apply keeps_enqueue; try done; [|unfold h; cbn [c_next]; by rewrite Ell|unfold h, waiting; cbn; tauto].
    unfold h. pose proof (tk_iss s Ok). rewrite Ell. destruct (co_ports _ (tk_conns s Ok l Hl)) as [? _]. widths. }
  split; [done|]. right. split; [done|]. split; [done|]. exists l. split; [done|]. unfold s2. rewrite conn_upd_eq; [done|].
  cbn. rewrite !zlen_zset. by apply slot_conn.
Qed.

Lemma loopback_client_ok but sport port ip s i s' :
  tcp_ok s -> 0 <= sport < 2 ^ 16 -> 0 <= port < 2 ^ 16 -> 0 <= ip < 2 ^ 32 ->
  tcp_conn_alloc_for_loopback_client sport port ip s = (i, s') -> keeps but s s' /\ (i = -1 \/ (slot i /\ c_state (conn i s) = TCP_CLOSED /\ holdable i s')).
Proof.
  intros Ok Hsp Hp Hip. unfold tcp_conn_alloc_for_loopback_client. destruct (conn_alloc s) as [k s1] eqn:Ea.
  destruct (conn_alloc_ok s k s1 Ok Ea) as [(-> & -> & _)|(Hk & Ek & -> & Ef & K & Q)]; [intros [= <- <-]; split; [by apply keeps_refl|by left]|].
  destruct (Z.ltb_spec k 0); [unfold slot in Hk; lia|]. intros [= <- <-]. pose proof (kp_ok _ _ _ K) as Ok1.
  match goal with |- context [upd_conn k ?f (upd_conn k (fun _ => fresh_conn) s)] => destruct (keeps_open but k f _ Ok1 Hk Ef Q) as (K3 & Q3 & E3); [pose proof (tk_iss s Ok); widths|done|done|] end.
  split; [eapply keeps_trans; [by apply keeps_weaken|]; eapply keeps_trans; [exact K3|]; apply keeps_same; [done|apply u32_range|apply (kp_ok _ _ _ K3)|apply K3]|].
  right. split; [done|]. split; [done|]. split; [|intros X; by apply Q3]. change (c_state (conn k (with_iss ?x ?y))) with (c_state (conn k y)). rewrite E3. unfold owned. cbn. tauto.
Qed.

Lemma set_partner_ok but i p s : tcp_ok s -> slot i -> slot p -> keeps but s (upd_conn i (set_partner p) s).
Proof.
  intros Ok Hi Hp. apply keeps_upd; [done|done| |done|done]. apply tcp_upd_ok; try done; [|by right]. intros [[? ? ?] ? ? ? ? ? ?]. by constructor.
Qed.

(** ** Accepting *)

(** The queue behind [i]. *)
Fixpoint chain (s : tcp) (i : Z) (q : list Z) : Prop :=
  match q with
  | [] => next i s = -1
  | j :: q' => next i s = j /\ slot j /\ chain s j q'
  end.

Lemma chain_exists s i : tcp_ok s -> slot i -> exists q, chain s i q /\ NoDup (i :: q) /\ Forall slot q.
Proof.
  intros Ok Hi. pose proof (tk_queues s Ok) as [Q1 _ [rank Q3]].
  assert (R : forall n i, slot i -> rank i = n -> exists q, chain s i q /\ NoDup (i :: q) /\ Forall slot q /\ Forall (fun j => rank j < n)%nat q).
  { clear i Hi. induction n as [n IH] using lt_wf_ind. intros i Hi En. destruct (Q1 i Hi) as [E|[Hj _]].
    - exists []. split_and!; [done| |done|done]. apply NoDup_cons. split; [set_solver|constructor].
    - pose proof (Q3 i Hi ltac:(unfold slot in *; lia)) as Hr. destruct (IH (rank (next i s)) ltac:(lia) _ Hj eq_refl) as (q & C & Nd & S & B).
      assert (B' : Forall (fun j => rank j < n)%nat (next i s :: q)).
      { constructor; [lia|]. eapply Forall_impl; [exact B|]. cbn. lia. }
      exists (next i s :: q). split_and!; [done| |by constructor|done]. apply NoDup_cons. split; [|done]. intros X. rewrite Forall_forall in B'. specialize (B' _ X). lia. }
  destruct (R (rank i) i Hi eq_refl) as (q & C & Nd & S & _). by exists q.
Qed.

(** No queue is longer than the table. *)
Lemma chain_short i q : slot i -> NoDup (i :: q) -> Forall slot q -> (length q < Z.to_nat MAX_TCP_CONNS)%nat.
Proof.
  intros Hi Nd S. assert (L : (length (i :: q) <= length (seqZ 0 MAX_TCP_CONNS))%nat).
  { apply submseteq_length, NoDup_submseteq; [done|]. intros j Hj. apply elem_of_seqZ. apply elem_of_cons in Hj as [->|Hj]; [unfold slot in *; lia|].
    rewrite Forall_forall in S. specialize (S j Hj). unfold slot in *. lia. }
  rewrite length_seqZ in L. cbn [length] in L. lia.
Qed.

(** The test of [tcp_accept]. *)
Definition ready (s : tcp) (j : Z) : Prop := c_state (conn j s) = TCP_ESTABLISHED \/ c_state (conn j s) = TCP_CLOSE_WAIT.

(** The last of [p :: q]. *)
Fixpoint last_of (p : Z) (q : list Z) : Z := match q with [] => p | j :: q' => last_of j q' end.

Lemma last_of_elem p q : last_of p q ∈ p :: q.
Proof. revert p. induction q as [|j q IH]; intros p; cbn [last_of]; [set_solver|]. apply elem_of_cons. right. apply IH. Qed.

Definition unlinked (j p : Z) (s : tcp) : tcp := upd_conn j (set_next (-1)) (upd_conn p (set_next (next j s)) s).

Lemma accept_walk_spec s l q fuel prev p :
  chain s p q -> slot p -> p = (if prev =? -1 then l else prev) -> (length q <= fuel)%nat ->
  (Forall (fun j => ~ ready s j) q /\ accept_walk fuel l prev (next p s) s = Some (-1, s)) \/
  (exists q1 j q2, q = q1 ++ j :: q2 /\ Forall (fun j => ~ ready s j) q1 /\ ready s j /\ accept_walk fuel l prev (next p s) s = Some (j, unlinked j (last_of p q1) s)).
Proof.
  revert fuel prev p. induction q as [|j q IH]; intros fuel prev p C Hp Ep Hf.
  - left. cbn [chain] in C. rewrite C. split; [done|]. by destruct fuel.
  - destruct C as (En & Hj & C). rewrite En. destruct fuel as [|fuel]; cbn [length] in Hf; [lia|]. cbn [accept_walk]. destruct (Z.eqb_spec j (-1)) as [->|]; [by destruct Hj|].
    destruct (bool_decide (c_state (conn j s) = TCP_ESTABLISHED) || bool_decide (c_state (conn j s) = TCP_CLOSE_WAIT)) eqn:Er.
    + right. exists [], j, q. split; [done|]. split; [done|]. split; [|by rewrite Ep].
      apply orb_true_iff in Er as [E|E]; apply bool_decide_eq_true in E; [by left|by right].
    + assert (Nr : ~ ready s j) by (apply orb_false_iff in Er as [E1 E2]; apply bool_decide_eq_false in E1, E2; by intros [?|?]).
      destruct (IH fuel j j C Hj) as [[F E]|(q1 & k & q2 & -> & F & R & E)]; [destruct (Z.eqb_spec j (-1)); done|lia| |].
      * left. split; [by constructor|done].
      * right. exists (j :: q1), k, q2. split_and!; [done|by constructor|done|done].
Qed.

Lemma chain_frame s s' i q : chain s i q -> (forall k, k ∈ i :: q -> next k s' = next k s) -> chain s' i q.
Proof.
  revert i. induction q as [|j q IH]; intros i C F; cbn [chain] in *; [rewrite F by set_solver; done|]. destruct C as (E & Hj & C).
  split; [rewrite F by set_solver; done|]. split; [done|]. apply IH; [done|]. intros k Hk. apply F. set_solver.
Qed.

Lemma queue_unlink s s' q1 l j q2 :
  chain s l (q1 ++ j :: q2) -> NoDup (l :: q1 ++ j :: q2) -> slot l ->
  (forall k, slot k -> next k s' = if decide (k = j) then -1 else if decide (k = last_of l q1) then next j s else next k s) -> chain s' l (q1 ++ q2).
Proof.
  revert l. induction q1 as [|x q1 IH]; intros l C Nd Hl F; cbn [app last_of] in *.
  - destruct C as (E & Hj & C). assert (El : next l s' = next j s) by (rewrite F by done; apply NoDup_cons in Nd as [Nd _]; rewrite decide_False by set_solver; by rewrite decide_True).
    destruct q2 as [|x q2]; cbn [chain] in *; [congruence|]. destruct C as (E2 & Hx & C). split; [congruence|]. split; [done|]. apply (chain_frame s); [done|].
    assert (Sx : Forall slot (x :: q2)). { constructor; [done|]. clear -C. revert x C. induction q2 as [|y q2 IH]; intros x C; [done|]. destruct C as (_ & ? & ?). constructor; [done|by apply (IH y)]. }
    intros k Hk. rewrite Forall_forall in Sx. rewrite F by (by apply Sx). apply NoDup_cons in Nd as [Nl Nd]. apply NoDup_cons in Nd as [Nj _].
    rewrite decide_False by set_solver. by rewrite decide_False by set_solver.
  - destruct C as (E & Hx & C). apply NoDup_cons in Nd as [Nl Nd]. pose proof (last_of_elem x q1) as Le. split; [|split; [done|by apply IH]].
    rewrite F by done. rewrite decide_False by set_solver. rewrite decide_False; [done|]. intros ->. apply Nl. apply elem_of_cons in Le as [->|Le]; set_solver.
Qed.

Lemma conn_unlinked j p k s :
  tcp_ok s -> slot j -> slot p -> slot k -> j <> p ->
  conn k (unlinked j p s) = if decide (k = j) then set_next (-1) (conn j s) else if decide (k = p) then set_next (next j s) (conn p s) else conn k s.
Proof.
  intros Ok Hj Hp Hk Hn. unfold unlinked. destruct (decide (k = j)) as [->|].
  - rewrite conn_upd_eq by (cbn; rewrite zlen_zset; by apply slot_conn). rewrite conn_upd by done. by rewrite decide_False.
  - rewrite conn_upd_ne by (unfold slot in *; lia). by rewrite conn_upd.
Qed.

Lemma chain_last s l q1 j q2 : chain s l (q1 ++ j :: q2) -> slot l -> slot (last_of l q1) /\ next (last_of l q1) s = j /\ slot j.
Proof.
  revert l. induction q1 as [|x q1 IH]; intros l C Hl; cbn [app last_of chain] in *; [tauto|]. apply IH; tauto.
Qed.

(** What accepting from the listener [l] with queue [q] does. *)
Lemma tcp_accept_ok l s :
  tcp_ok s -> slot l -> c_state (conn l s) = TCP_LISTEN ->
  exists q, chain s l q /\ NoDup (l :: q) /\ Forall slot q /\
  ((Forall (fun j => ~ ready s j) q /\ tcp_accept l s = Some (-1, s)) \/
   (exists q1 j q2, q = q1 ++ j :: q2 /\ Forall (fun j => ~ ready s j) q1 /\ ready s j /\ tcp_accept l s = Some (j, unlinked j (last_of l q1) s) /\
      chain (unlinked j (last_of l q1) s) l (q1 ++ q2) /\ holdable j (unlinked j (last_of l q1) s) /\ keeps none s (unlinked j (last_of l q1) s) /\
      forall k, slot k -> exists n, conn k (unlinked j (last_of l q1) s) = set_next n (conn k s))).
Proof.
  intros Ok Hl El. destruct (chain_exists s l Ok Hl) as (q & C & Nd & S). exists q. split_and!; try done.
  assert (A : tcp_accept l s = accept_walk (Z.to_nat MAX_TCP_CONNS) l (-1) (next l s) s).
  { unfold tcp_accept. destruct (Z.ltb_spec l 0); [unfold slot in Hl; lia|]. by rewrite El. }
  rewrite A. destruct (accept_walk_spec s l q (Z.to_nat MAX_TCP_CONNS) (-1) l C Hl eq_refl) as [R|(q1 & j & q2 & -> & F & R & E)].
  { pose proof (chain_short l q Hl Nd S). lia. }
  { by left. }
  right. exists q1, j, q2. destruct (chain_last s l q1 j q2 C Hl) as (Hp & En & Hj). destruct (unlink_ok j (last_of l q1) s Ok Hj Hp En) as [Ok' Qj].
  fold (unlinked j (last_of l q1) s) in Ok', Qj. assert (Np : j <> last_of l q1).
  { intros X. pose proof (last_of_elem l q1) as Le. rewrite <- X in Le. apply NoDup_cons in Nd as [N1 N2]. apply NoDup_app in N2 as (_ & N2 & _). apply elem_of_cons in Le as [->|Le]; [set_solver|by apply (N2 j Le); set_solver]. }
  pose proof (conn_unlinked j (last_of l q1)) as Ec.
  assert (Same : forall k, slot k -> exists n, conn k (unlinked j (last_of l q1) s) = set_next n (conn k s)).
  { intros k Hk. rewrite Ec by done. destruct (decide (k = j)) as [->|]; [by eexists|]. destruct (decide (k = last_of l q1)) as [->|]; [by eexists|]. exists (next k s). by destruct (conn k s). }
  assert (St : forall k, slot k -> c_state (conn k (unlinked j (last_of l q1) s)) = c_state (conn k s)) by (intros k Hk; by destruct (Same k Hk) as [n ->]).
  split_and!; try done.
  - apply (queue_unlink s _ q1 l j q2); [done|done|done|]. intros k Hk. rewrite Ec by done. destruct (decide (k = j)); [done|]. by destruct (decide (k = _)).
  - split; [|done]. rewrite St by done. unfold owned. destruct R as [->| ->]; tauto.
  - constructor; [done|]. intros k Hk _ [O Q]. split; [by rewrite St|]. intros (m & Hm & Em). rewrite Ec in Em by done.
    destruct (decide (m = j)); [unfold slot in Hk; cbn in Em; lia|]. apply Q. destruct (decide (m = last_of l q1)); [by exists j|by exists m].
Qed.

(** C30: accepting.  The queue of a listener is a list of distinct slots, fewer
    than 32, so the walk of [tcp_accept] ends.  It returns NULL and changes nothing
    if no connection of the queue is established, and else takes exactly the first
    one that is out of the queue, leaves the others in order, and changes no field of
    any connection but [next]. *)
Theorem tcp_accept_first_ready l (s : tcp) :
  tcp_ok s -> slot l -> c_state (conn l s) = TCP_LISTEN ->
  exists q, chain s l q /\ NoDup (l :: q) /\ zlen q < MAX_TCP_CONNS /\
  ((Forall (fun j => ~ ready s j) q /\ tcp_accept l s = Some (-1, s)) \/
   (exists q1 j q2 s', q = q1 ++ j :: q2 /\ Forall (fun j => ~ ready s j) q1 /\ ready s j /\ tcp_accept l s = Some (j, s') /\
      tcp_ok s' /\ chain s' l (q1 ++ q2) /\ ~ queued j s' /\ forall k, slot k -> exists n, conn k s' = set_next n (conn k s))).
Proof.
  intros Ok Hl El. destruct (tcp_accept_ok l s Ok Hl El) as (q & C & Nd & S & R). exists q. split; [done|]. split; [done|].
  split; [pose proof (chain_short l q Hl Nd S); unfold zlen; lia|]. destruct R as [R|(q1 & j & q2 & -> & F & Rd & E & C' & [_ Q] & [Ok' _] & Same)]; [by left|right]. by eexists q1, j, q2, _.
Qed.

(** [tcp_accept] always returns, and what it returns an application may have. *)
Lemma accept_keeps l s :
  tcp_ok s -> slot l \/ l = -1 ->
  exists i s', tcp_accept l s = Some (i, s') /\ keeps none s s' /\
    ((i = -1 /\ s' = s) \/ (slot i /\ queued i s /\ holdable i s' /\ forall k, slot k -> exists n, conn k s' = set_next n (conn k s))).
Proof.
  intros Ok Hl. destruct (decide (slot l /\ c_state (conn l s) = TCP_LISTEN)) as [[Sl El]|Hn].
  - destruct (tcp_accept_ok l s Ok Sl El) as (q & C & Nd & S & [[_ E]|(q1 & j & q2 & -> & _ & _ & E & _ & Hh & K & Same)]).
    + exists (-1), s. split; [done|]. split; [by apply keeps_refl|]. by left.
    + eexists j, _. split; [exact E|]. split; [exact K|]. right. destruct (chain_last s l q1 j q2 C Sl) as (Hp & En & Hj). split_and!; try done. by exists (last_of l q1).
  - exists (-1), s. split; [|split; [by apply keeps_refl|by left]]. unfold tcp_accept. destruct (Z.ltb_spec l 0); [done|]. destruct Hl as [Hl|]; [|lia].
    rewrite bool_decide_eq_false_2; [done|]. intros E. by apply Hn.
Qed.

(** The table after [tcp_init]. *)
Lemma tcp_init_ok rand s : 0 <= rand < 2 ^ 32 -> 0 < s_next_port s < 2 ^ 16 -> tcp_ok (tcp_init rand s) /\ forall i, slot i -> conn i (tcp_init rand s) = conn_zero.
Proof.
  intros Hr Hp. assert (E : forall i, slot i -> conn i (tcp_init rand s) = conn_zero).
  { intros i Hi. unfold conn, tcp_init. cbn [g_conns with_iss with_conns]. unfold zget. apply lookup_total_replicate_2. unfold slot in Hi. lia. }
  split; [|done]. constructor; [unfold tcp_init; cbn [g_conns with_iss with_conns]; by rewrite zlen_replicate| | |done|done|constructor]; try (intros i Hi; rewrite E by done).
  - widths.
  - by left.
  - by left.
  - intros j k Hj Hk. rewrite (E j Hj). done.
  - exists (fun _ => O). intros j Hj. rewrite (E j Hj). done.
Qed.

End Table.
