(* ===== verification/TcpProto.v ===== *)
(** * TCP: connecting and transferring data

    Two hosts that exchange the bytes their [tcp_send_segment] hands to IP: the
    handshake leaves the two ends of a connection with matching sequence numbers,
    what one end sends the other receives, and a receiver delivers a prefix of the
    stream whatever the network does to the segments. *)

From S2P Require Import Prelude Kmalloc Net Arp Capability Ip Tcp TcpWire TcpTable.

Section Proto.
Context {N : Type} `{IpLayer N}.
#[local] Abbreviation tcp := (tcp N).

(** ** Finding a connection *)

Definition conn_matches (remote_ip remote_port local_port : Z) (c : tcp_conn) : bool :=
  negb (is_closed c) && (c_local_port c =? local_port) && (c_remote_port c =? remote_port) && (c_remote_ip c =? remote_ip).

Lemma conn_matches_eq r rp lp c :
  conn_matches r rp lp c = true <-> c_state c <> TCP_CLOSED /\ c_local_port c = lp /\ c_remote_port c = rp /\ c_remote_ip c = r.
Proof.
  unfold conn_matches, is_closed. rewrite !andb_true_iff, negb_true_iff, bool_decide_eq_false, !Z.eqb_eq. tauto.
Qed.

Lemma conn_find_none r rp lp (s : tcp) : tcp_ok s -> conn_find r rp lp s = -1 -> forall j, slot j -> conn_matches r rp lp (conn j s) = false.
Proof.
  intros Ok E j Hj. unfold conn_find in E. destruct (find_from_spec (conn_matches r rp lp) (g_conns s) 0 ltac:(lia)) as [[_ F]|(k & Hk & E' & _)].
  - apply F. by apply slot_conn.
  - unfold conn_matches at 1 in E'. rewrite E in E'. lia.
Qed.

Lemma conn_find_only r rp lp i (s : tcp) :
  tcp_ok s -> slot i -> conn_matches r rp lp (conn i s) = true -> (forall j, slot j -> j <> i -> conn_matches r rp lp (conn j s) = false) -> conn_find r rp lp s = i.
Proof.
  intros Ok Hi M F. change (conn_find r rp lp s) with (find_from (conn_matches r rp lp) (g_conns s) 0).
  destruct (find_from_spec (conn_matches r rp lp) (g_conns s) 0 ltac:(lia)) as [[_ F']|(k & Hk & -> & M' & _)].
  - specialize (F' i (slot_conn i s Ok Hi)). fold (conn i s) in F'. congruence.
  - rewrite (tk_len s Ok) in Hk. destruct (decide (k = i)) as [->|]; [done|]. fold (conn k s) in M'. by rewrite (F k) in M'.
Qed.

Lemma find_from_fmap {A} (f : A -> bool) l i : find_from f l i = find_from id (f <$> l) i.
Proof. revert i. induction l as [|x l IH]; intros i; [done|]. cbn [find_from fmap list_fmap]. rewrite IH. done. Qed.

Lemma zget_fmap `{Inhabited A, Inhabited B} (f : A -> B) l i : 0 <= i < zlen l -> (f <$> l).[i] = f l.[i].
Proof. intros Hi. unfold zget, zlen in *. apply list_lookup_total_fmap. lia. Qed.

(** The search sees addresses, ports and whether a slot is closed. *)
Lemma conn_find_same r rp lp (s s' : tcp) :
  tcp_ok s -> tcp_ok s' -> (forall j, slot j -> conn_matches r rp lp (conn j s') = conn_matches r rp lp (conn j s)) -> conn_find r rp lp s' = conn_find r rp lp s.
Proof.
  intros Ok Ok' F. change (conn_find r rp lp ?x) with (find_from (conn_matches r rp lp) (g_conns x) 0). rewrite (find_from_fmap _ (g_conns s')), (find_from_fmap _ (g_conns s)). f_equal.
  apply list_eq_zget; rewrite !zlen_fmap, ?(tk_len s Ok), ?(tk_len s' Ok'); [done|]. intros j Hj.
  rewrite !zget_fmap by (rewrite ?(tk_len s Ok), ?(tk_len s' Ok'); done). by apply F.
Qed.

(** ** Segments on the way *)

(** The window of [b] is [m]. *)
Definition holds (b : netbuf) (m : list Z) : Prop := nb_bytes b 0 (nb_len b) = m /\ nb_len b = zlen m /\ 0 <= nb_data b.

(** A buffer with the bytes of a segment is handled as that segment. *)
Lemma tcp_input_bytes iface b src dst s c flags opts ck data :
  conn_ok c -> zlen opts = 0 \/ zlen opts = 16 -> zlen ck = 2 -> zlen data < 2 ^ 15 -> holds b (tcp_bytes c flags opts ck data) ->
  let g := mk_seg (c_local_port c) (c_remote_port c) (c_snd_nxt c) (ack_of c flags) flags (c_rcv_wnd c) opts data in
  exists n, tcp_input iface b src dst s =
    let i := conn_find src (c_local_port c) (c_remote_port c) s in
    if i <? 0 then tcp_input_syn iface src dst g (with_net n s) else tcp_input_conn iface i g (with_net n s).
Proof.
  intros Ok Ho Hc Hd (Hb & Hl & Hp). destruct (parse_bytes b c flags opts ck data Ok Ho Hc Hd Hp Hb Hl) as (E & L & F & P).
  unfold tcp_input. destruct (Z.ltb_spec (nb_len b) TCP_HDR_LEN); [lia|]. rewrite E. cbn [g_src_port g_dst_port].
  destruct (has (nb_get 1 b 13) TCP_SYN && bool_decide (ntohs (nb_get 2 b 2) ∈ HONEYPOT_PORTS)); [by eexists|].
  exists (t_net s). by destruct s.
Qed.

(** After a segment of [i] went out. *)
Lemma segment_out_conn i flags data (s s' : tcp) :
  tcp_ok s -> slot i -> segment_out i flags data s s' -> forall j, slot j -> conn j s' = if decide (j = i) then advanced flags (zlen data) (conn i s) else conn j s.
Proof.
  intros Ok Hi (n & ts & ck & _ & _ & ->) j Hj. exact (conn_upd i j (advanced flags (zlen data)) s Ok Hi Hj).
Qed.

(** A pure acknowledgement moves no number. *)
Lemma advanced_ack c : conn_ok c -> advanced TCP_ACK 0 c = c.
Proof. intros Ok. unfold advanced. change (has TCP_ACK (Z.lor TCP_SYN TCP_FIN)) with false. cbv iota. rewrite !Z.add_0_r, u32_small by apply Ok. by destruct c. Qed.

Lemma send_ack_conn iface i (s : tcp) : tcp_ok s -> slot i -> forall j, slot j -> conn j (send_ack iface i s) = conn j s.
Proof.
  intros Ok Hi j Hj. pose proof (tcp_send_segment_spec iface i TCP_ACK [] s (tk_conns s Ok i Hi) (slot_conn i s Ok Hi)) as S.
  unfold send_ack. destruct (tcp_send_segment iface i TCP_ACK [] s) as [ok s']. cbn [snd]. destruct S as [[_ [n ->]]|S]; [done|].
  rewrite (segment_out_conn _ _ _ _ _ Ok Hi S j Hj). destruct (decide (j = i)) as [->|]; [|done]. apply advanced_ack. by apply Ok.
Qed.

(** ** Data for an established connection *)

(** What a segment without FIN does to its connection. *)
Definition received (g : segment) (c : tcp_conn) : tcp_conn :=
  let c := set_snd_wnd (g_window g) c in
  let c := if (0 <? zlen (g_payload g)) && (g_seq g =? c_rcv_nxt c) then set_rcv_nxt (u32 (c_rcv_nxt c + zlen (g_payload g))) (rx_push (g_payload g) c) else c in
  if has (g_flags g) TCP_ACK then set_snd_una (g_ack g) c else c.

Lemma c_rcv_nxt_push data c : c_rcv_nxt (rx_push data c) = c_rcv_nxt c.
Proof. by destruct (rx_push_frame data c) as (b & h & w & -> & _). Qed.

Lemma established_conn iface i g (s : tcp) :
  tcp_ok s -> slot i -> wide_segment g -> c_state (conn i s) = TCP_ESTABLISHED -> has (g_flags g) TCP_FIN = false ->
  keeps (fun _ => False) s (tcp_input_conn iface i g s) /\
  forall j, slot j -> conn j (tcp_input_conn iface i g s) = if decide (j = i) then received g (conn i s) else conn j s.
Proof.
  intros Ok Hi Hg Es Hf. split; [by apply tcp_input_conn_ok|]. intros j Hj. unfold tcp_input_conn. set (s1 := upd_conn i (set_snd_wnd (g_window g)) s).
  assert (E1 : forall j, slot j -> conn j s1 = if decide (j = i) then set_snd_wnd (g_window g) (conn i s) else conn j s) by (intros; by apply conn_upd).
  assert (Ok1 : tcp_ok s1) by (apply calm_ok; [done|done|destruct Hg as (_ & _ & _ & Hw); calm]).
  assert (E1i : conn i s1 = set_snd_wnd (g_window g) (conn i s)) by (rewrite E1 by done; by rewrite decide_True).
  rewrite E1i. cbn [c_state set_snd_wnd]. rewrite Es. unfold in_established. rewrite Hf. set (s2 := if _ && _ then _ else _).
  set (c2 := if (0 <? zlen (g_payload g)) && (g_seq g =? c_rcv_nxt (conn i s1)) then set_rcv_nxt (u32 (c_rcv_nxt (conn i s1) + zlen (g_payload g))) (rx_push (g_payload g) (conn i s1)) else conn i s1).
  assert (E2 : tcp_ok s2 /\ forall j, slot j -> conn j s2 = if decide (j = i) then c2 else conn j s1).
  { unfold s2, c2. destruct (_ && _) eqn:Eb; [|case_match].
    - set (f := fun c => _). assert (K : keeps (fun _ => False) s1 (upd_conn i f s1)).
      { apply keeps_calm; [done|done|]. unfold f. eapply calm_trans; [apply calm_push|apply calm_rcv_nxt]. }
      split; [apply (keeps_ack (fun _ => False)); [apply K|done]|]. intros k Hk. rewrite send_ack_conn; [|apply K|done|done]. rewrite conn_upd by done. unfold f. done.
    - split; [by apply (keeps_ack (fun _ => False))|]. intros k Hk. rewrite send_ack_conn by done. by destruct (decide (k = i)) as [->|].
    - split; [done|]. intros k Hk. by destruct (decide (k = i)) as [->|]. }
  destruct E2 as [Ok2 E2]. unfold received. cbv zeta. rewrite <- E1i. fold c2.
  assert (E2i : conn i s2 = c2) by (rewrite E2 by done; by rewrite decide_True).
  destruct (has (g_flags g) TCP_ACK); [rewrite conn_upd by done|rewrite E2 by done]; destruct (decide (j = i)) as [->|]; rewrite ?E2i; try done; rewrite ?E2 by done; rewrite ?E1 by done; by rewrite !decide_False.
Qed.

Lemma received_stays g c :
  conn_ok c -> rx_available c + zlen (g_payload g) < TCP_BUF_SIZE ->
  c_state (received g c) = c_state c /\ c_local_ip (received g c) = c_local_ip c /\ c_remote_ip (received g c) = c_remote_ip c /\
  c_local_port (received g c) = c_local_port c /\ c_remote_port (received g c) = c_remote_port c /\ c_snd_nxt (received g c) = c_snd_nxt c /\
  c_partner (received g c) = c_partner c /\ c_next (received g c) = c_next c /\
  if (0 <? zlen (g_payload g)) && (g_seq g =? c_rcv_nxt c)
  then c_rcv_nxt (received g c) = u32 (c_rcv_nxt c + zlen (g_payload g)) /\ unread (received g c) = unread c ++ g_payload g
  else c_rcv_nxt (received g c) = c_rcv_nxt c /\ unread (received g c) = unread c.
Proof.
  intros Ok Ha. unfold received. cbv zeta. cbn [c_rcv_nxt set_snd_wnd]. set (c1 := set_snd_wnd (g_window g) c).
  destruct ((0 <? zlen (g_payload g)) && (g_seq g =? c_rcv_nxt c)).
  - destruct (rx_push_ok (g_payload g) c1) as (_ & U & b & h & w & E & _); [destruct Ok as [[? ? ?]]; by constructor|done|]. rewrite E in *.
    change (unread c) with (unread c1). rewrite <- U. destruct (has _ _); done.
  - destruct (has _ _); done.
Qed.

Lemma conn_matches_received r rp lp g c :
  conn_ok c -> rx_available c + zlen (g_payload g) < TCP_BUF_SIZE -> conn_matches r rp lp (received g c) = conn_matches r rp lp c.
Proof.
  intros Ok Ha. destruct (received_stays g c Ok Ha) as (E1 & _ & E2 & E3 & E4 & _). unfold conn_matches, is_closed. by rewrite E1, E2, E3, E4.
Qed.

(** ** A receiver under an unreliable network *)

Section Stream.
Context (iface : netif) (i src dst rport lport base : Z) (stream : list Z).

(** A segment of the stream: the bytes [data] from offset [o]. *)
Definition stream_segment (b : netbuf) (o : Z) (data : list Z) : Prop :=
  exists c flags opts ck, conn_ok c /\ c_local_port c = rport /\ c_remote_port c = lport /\ c_snd_nxt c = u32 (base + o) /\ has flags TCP_FIN = false /\
    (zlen opts = 0 \/ zlen opts = 16) /\ zlen ck = 2 /\ holds b (tcp_bytes c flags opts ck data) /\
    0 <= o /\ o + zlen data <= zlen stream /\ data = take (length data) (drop (Z.to_nat o) stream).

(** Segments of the stream arrive in any order, any number of times or never, and
    the application reads; [out] is what it has read. *)
Inductive receives (s0 : tcp) : tcp -> list Z -> Prop :=
| receives_start : receives s0 s0 []
| receives_segment s out b o data :
    receives s0 s out -> stream_segment b o data -> rx_available (conn i s) + zlen data < TCP_BUF_SIZE -> receives s0 (tcp_input iface b src dst s) out
| receives_read s out len n r s' :
    receives s0 s out -> 0 <= len < 2 ^ 16 -> tcp_recv i len s = (n, r, s') -> receives s0 s' (out ++ r).

(** The connection has delivered or holds the first [n] bytes. *)
Record receiving (n : Z) (s : tcp) (out : list Z) : Prop := {
  rv_ok : tcp_ok s;
  rv_state : c_state (conn i s) = TCP_ESTABLISHED;
  rv_find : conn_find src rport lport s = i;
  rv_len : 0 <= n <= zlen stream;
  rv_nxt : c_rcv_nxt (conn i s) = u32 (base + n);
  rv_data : out ++ unread (conn i s) = take (Z.to_nat n) stream
}.

Lemma u32_inj x y b : 0 <= x < 2 ^ 32 -> 0 <= y < 2 ^ 32 -> u32 (b + x) = u32 (b + y) -> x = y.
Proof. intros Hx Hy E. ulia. Qed.

Lemma take_next (l data : list Z) n :
  0 <= n -> n + zlen data <= zlen l -> data = take (length data) (drop (Z.to_nat n) l) -> take (Z.to_nat n) l ++ data = take (Z.to_nat (n + zlen data)) l.
Proof.
  intros Hn Hl E. rewrite E at 1. rewrite take_take_drop. f_equal. unfold zlen. lia.
Qed.

(** A segment that starts at the next byte is taken, any other changes nothing. *)
Lemma receiving_segment n s out b o data :
  slot i -> zlen stream < 2 ^ 32 -> receiving n s out -> stream_segment b o data -> rx_available (conn i s) + zlen data < TCP_BUF_SIZE ->
  receiving (if o =? n then n + zlen data else n) (tcp_input iface b src dst s) out.
Proof.
  intros Hi Hs [Ok Es Ef Hn En Ed] (c & flags & opts & ck & Oc & Ec1 & Ec2 & Eq & Hf & Ho & Hc & Hb & Ho1 & Ho2 & Eda) Ha.
  pose proof (zlen_nonneg data). pose proof (rx_available_range (conn i s)).
  destruct (tcp_input_bytes iface b src dst s c flags opts ck data Oc Ho Hc ltac:(unfold TCP_BUF_SIZE in *; lia) Hb) as [n0 E]. rewrite Ec1, Ec2, Ef in E. cbv zeta in E.
  destruct (Z.ltb_spec i 0); [unfold slot in Hi; lia|]. set (g := mk_seg _ _ _ _ _ _ _ _) in E.
  assert (Ok0 : tcp_ok (with_net n0 s)) by (by apply tcp_ok_with_net).
  assert (Wg : wide_segment g).
  { unfold wide_segment, g. cbn. rewrite <- Ec1, <- Ec2. destruct Oc as [_ _ [? ?] _ _ ? [? ?]]. split_and!; try lia. all: unfold ack_of; case_match; lia. }
  destruct (established_conn iface i g (with_net n0 s) Ok0 Hi Wg Es Hf) as [K Ec]. rewrite <- E in K, Ec.
  assert (Ei : conn i (tcp_input iface b src dst s) = received g (conn i s)) by (rewrite Ec by done; by rewrite decide_True).
  assert (Hp : g_payload g = data) by done. destruct (received_stays g (conn i s) (tk_conns s Ok i Hi) ltac:(rewrite Hp; lia)) as (R1 & _ & _ & _ & _ & _ & _ & _ & R). rewrite Hp in R.
  assert (Fnd : conn_find src rport lport (tcp_input iface b src dst s) = i).
  { rewrite <- Ef. apply conn_find_same; [done|apply K|]. intros j Hj. rewrite Ec by done. destruct (decide (j = i)) as [->|]; [|done].
    apply conn_matches_received; [by apply Ok|rewrite Hp; lia]. }
  assert (Eo : (g_seq g =? c_rcv_nxt (conn i s)) = (o =? n)).
  { change (g_seq g) with (c_snd_nxt c). rewrite Eq, En. destruct (Z.eqb_spec o n) as [->|No]; [apply Z.eqb_refl|]. apply Z.eqb_neq. intros X. apply No. by apply (u32_inj o n base); [lia|lia|]. }
  rewrite Eo in R. constructor; rewrite ?Ei, ?R1; try done; [apply K| | |].
  - destruct (Z.eqb_spec o n); lia.
  - destruct (Z.eqb_spec o n) as [->|]; [|rewrite andb_false_r in R; destruct R as [-> _]; done].
    destruct (Z.ltb_spec 0 (zlen data)); cbn [andb] in R; destruct R as [-> _]; rewrite En; [rewrite u32_add; f_equal; lia|f_equal; lia].
  - destruct (Z.eqb_spec o n) as [->|]; [|rewrite andb_false_r in R; destruct R as [_ ->]; done].
    rewrite <- (take_next stream data n) by (done || lia). rewrite <- Ed.
    destruct (Z.ltb_spec 0 (zlen data)); cbn [andb] in R; destruct R as [_ ->]; [by rewrite app_assoc|]. replace data with (@nil Z) by (destruct data; [done|unfold zlen in *; cbn [length] in *; lia]). by rewrite app_nil_r.
Qed.

(** Reading takes bytes from the ring. *)
Lemma tcp_recv_spec len (s : tcp) n r s' :
  tcp_ok s -> slot i -> 0 <= len < 2 ^ 16 -> tcp_recv i len s = (n, r, s') ->
  r = take (Z.to_nat len) (unread (conn i s)) /\ n = zlen r /\ unread (conn i s') = drop (Z.to_nat len) (unread (conn i s)) /\
  (exists tail, forall j, slot j -> conn j s' = if decide (j = i) then set_rx (c_rx_buf (conn i s)) (c_rx_head (conn i s)) tail (conn i s) else conn j s) /\ tcp_ok s'.
Proof.
  intros Ok Hi Hl E. pose proof (tcp_recv_ok (fun _ => False) i len s Ok (or_introl Hi)) as K. rewrite E in K. cbn [snd] in K.
  unfold tcp_recv in E. destruct (Z.ltb_spec i 0); [unfold slot in Hi; lia|]. pose proof (rx_available_range (conn i s)) as Ra. pose proof (unread_len (conn i s)) as Lu.
  destruct (Z.eqb_spec (rx_available (conn i s)) 0) as [E0|E0].
  - injection E as <- <- <-. assert (Eu : unread (conn i s) = []) by (destruct (unread (conn i s)); [done|unfold zlen in Lu; cbn [length] in Lu; lia]).
    rewrite Eu, take_nil, drop_nil. split_and!; try done. exists (c_rx_tail (conn i s)). intros j Hj. destruct (decide (j = i)) as [->|]; [|done]. by destruct (conn i s).
  - pose proof (rx_take_ok (Z.to_nat (Z.min (rx_available (conn i s)) len)) (conn i s) ltac:(apply (tk_conns s Ok i Hi)) ltac:(lia)) as T.
    destruct (rx_take _ _) as [r0 c0]. injection E as <- <- <-. destruct T as (-> & Rk & U & tail & Ec).
    assert (Et : take (Z.to_nat (Z.min (rx_available (conn i s)) len)) (unread (conn i s)) = take (Z.to_nat len) (unread (conn i s))).
    { destruct (Z.le_ge_cases (rx_available (conn i s)) len); [rewrite Z.min_l by lia; rewrite !take_ge by (unfold zlen in Lu; lia); done|by rewrite Z.min_r by lia]. }
    assert (Edr : drop (Z.to_nat (Z.min (rx_available (conn i s)) len)) (unread (conn i s)) = drop (Z.to_nat len) (unread (conn i s))).
    { destruct (Z.le_ge_cases (rx_available (conn i s)) len); [rewrite Z.min_l by lia; rewrite !drop_ge by (unfold zlen in Lu; lia); done|by rewrite Z.min_r by lia]. }
    assert (Eci : conn i (upd_conn i (fun _ => c0) s) = c0) by (apply conn_upd_eq; by apply slot_conn).
    split; [done|]. split; [|split; [by rewrite Eci, U|split; [|apply K]]].
    + unfold zlen in Lu |- *. rewrite length_take. unfold s16, TCP_BUF_SIZE in *. rewrite u16_small by lia. destruct (Z.ltb_spec (Z.min (rx_available (conn i s)) len) 32768); lia.
    + exists tail. intros j Hj. rewrite conn_upd by done. by rewrite Ec.
Qed.

Lemma receives_receiving s0 s out : slot i -> zlen stream < 2 ^ 32 -> receiving 0 s0 [] -> receives s0 s out -> exists n, receiving n s out.
Proof.
  intros Hi Hs H0 R. induction R as [|s out b o data R [n IH] Sg Ha|s out len n r s' R [k IH] Hl E].
  - by exists 0.
  - eexists. by eapply receiving_segment.
  - exists k. destruct IH as [Ok Es Ef Hn En Ed]. destruct (tcp_recv_spec len s n r s' Ok Hi Hl E) as (Er & _ & U & (tail & Ec) & Ok').
    assert (Ei : conn i s' = set_rx (c_rx_buf (conn i s)) (c_rx_head (conn i s)) tail (conn i s)) by (rewrite Ec by done; by rewrite decide_True).
    constructor; try done; [by rewrite Ei| |by rewrite Ei|].
    + rewrite <- Ef. apply conn_find_same; [done|done|]. intros j Hj. rewrite Ec by done. by destruct (decide (j = i)) as [->|].
    + rewrite U, Er, <- app_assoc, take_drop. done.
Qed.

End Stream.

(** ** Two ends of a connection *)

(** [a] on host [A] and [b] on host [B] are the two ends of one connection, each
    expecting the number the other sends next. *)
Record linked (a : Z) (A : tcp) (b : Z) (B : tcp) : Prop := {
  lk_ok : tcp_ok A /\ tcp_ok B;
  lk_slot : slot a /\ slot b;
  lk_state : c_state (conn a A) = TCP_ESTABLISHED /\ c_state (conn b B) = TCP_ESTABLISHED;
  lk_ports : c_local_port (conn a A) = c_remote_port (conn b B) /\ c_remote_port (conn a A) = c_local_port (conn b B);
  lk_ips : c_local_ip (conn a A) = c_remote_ip (conn b B) /\ c_remote_ip (conn a A) = c_local_ip (conn b B);
  lk_seq : c_snd_nxt (conn a A) = c_rcv_nxt (conn b B) /\ c_snd_nxt (conn b B) = c_rcv_nxt (conn a A);
  lk_find : conn_find (c_remote_ip (conn a A)) (c_remote_port (conn a A)) (c_local_port (conn a A)) A = a /\
            conn_find (c_remote_ip (conn b B)) (c_remote_port (conn b B)) (c_local_port (conn b B)) B = b
}.

(** One segment of a network connection. *)
Lemma tcp_send_one iface i data s n s' :
  tcp_ok s -> slot i -> c_state (conn i s) = TCP_ESTABLISHED -> c_partner (conn i s) = -1 -> netif_default (il_netifs (t_net s)) = Some iface ->
  0 < zlen data < 2 ^ 16 -> tcp_send i data s = (n, s') ->
  (n = 0 \/ n = zlen data) /\ (zlen data <= NETBUF_CAP - NETBUF_HEADROOM -> n = zlen data -> segment_out i (Z.lor TCP_PSH TCP_ACK) data s s') /\
  (NETBUF_CAP - NETBUF_HEADROOM < zlen data -> n = 0 /\ net_only s s').
Proof.
  intros Ok Hi Es Ep Ei Hd. unfold tcp_send. destruct (Z.ltb_spec i 0); [unfold slot in Hi; lia|]. rewrite Es, Ep, Ei. cbn [orb negb].
  rewrite bool_decide_eq_true_2 by done. cbn [negb]. destruct (Z.eqb_spec (zlen data) 0); [lia|]. change (0 <=? -1) with false. cbv iota.
  destruct data as [|x data]; [done|]. cbn [length send_chunks]. destruct (Z.leb_spec (zlen (x :: data)) 0); [lia|].
  set (l := x :: data) in *. set (k := Z.to_nat (Z.min (zlen l) TCP_MSS)).
  pose proof (tcp_send_segment_spec iface i (Z.lor TCP_PSH TCP_ACK) (take k l) s (tk_conns s Ok i Hi) (slot_conn i s Ok Hi)) as S.
  destruct (tcp_send_segment _ _ _ _ _) as [ok s1]. unfold NETBUF_CAP, NETBUF_HEADROOM in *.
  assert (Lk : zlen (take k l) = Z.min (zlen l) TCP_MSS) by (unfold zlen, k; rewrite length_take; unfold zlen, TCP_MSS; lia). unfold TCP_MSS in *.
  destruct (Z.le_gt_cases (zlen l) 1280) as [Hs|Hs].
  - assert (El : take k l = l) by (apply take_ge; unfold k, zlen in *; lia). assert (Edr : drop k l = []) by (apply drop_ge; unfold k, zlen in *; lia). rewrite El in *. rewrite Edr.
    destruct ok; cbn [negb].
    + destruct S as [[? _]|S]; [done|]. assert (E0 : forall f m (s : tcp), send_chunks f iface i [] m s = (m, s)) by (intros [|f] m s2; done). rewrite E0.
      intros [= <- <-]. rewrite Z.min_l by lia. unfold s16. rewrite u16_small by lia. destruct (Z.ltb_spec (0 + zlen l) 32768); [|lia]. split; [right; lia|]. split; [done|lia].
    + intros [= <- <-]. change (s16 0) with 0. split; [by left|]. split; [intros _ E; lia|lia].
  - destruct S as [[-> Sn]|(? & ? & ? & _ & Hc & _)]; [|unfold NETBUF_CAP, NETBUF_HEADROOM in Hc; lia]. cbn [negb]. intros [= <- <-]. change (s16 0) with 0. split; [by left|]. split; [lia|done].
Qed.

Lemma segment_out_ok i flags data (s s' : tcp) : tcp_ok s -> slot i -> segment_out i flags data s s' -> tcp_ok s'.
Proof.
  intros Ok Hi (n & ts & ck & _ & _ & ->). apply (tcp_ok_net (upd_conn i (advanced flags (zlen data)) s)); try done.
  apply calm_ok; [done|done|apply calm_advanced].
Qed.

Lemma conn_wide c flags opts data : conn_ok c -> wide_segment (mk_seg (c_local_port c) (c_remote_port c) (c_snd_nxt c) (ack_of c flags) flags (c_rcv_wnd c) opts data).
Proof.
  intros [_ _ [? ?] _ _ ? [? ?]]. unfold wide_segment. cbn. split_and!; try lia. all: unfold ack_of; case_match; lia.
Qed.

(** The data of a segment reaches the other end. *)
Lemma linked_data a A b B A' data :
  linked a A b B -> 0 < zlen data -> rx_available (conn b B) + zlen data < TCP_BUF_SIZE -> segment_out a (Z.lor TCP_PSH TCP_ACK) data A A' ->
  exists m, t_sent A' = t_sent A ++ [(c_remote_ip (conn a A), m)] /\
    forall iface buf, holds buf m ->
    let B' := tcp_input iface buf (c_remote_ip (conn b B)) (c_local_ip (conn b B)) B in
    linked a A' b B' /\ unread (conn b B') = unread (conn b B) ++ data.
Proof.
  intros [[OkA OkB] [Ha Hb] [EsA EsB] [P1 P2] [I1 I2] [S1 S2] [F1 F2]] Hd Hr So.
  pose proof (segment_out_conn _ _ _ _ _ OkA Ha So) as Ca. pose proof (segment_out_ok _ _ _ _ _ OkA Ha So) as OkA'. destruct So as (n & ts & ck & Hck & Hcap & ->).
  pose proof (tk_conns A OkA a Ha) as Oa. pose proof (tk_conns B OkB b Hb) as Ob.
  eexists. split; [done|]. intros iface buf Hm B'. unfold NETBUF_CAP, NETBUF_HEADROOM in Hcap. set (A' := mk_tcp _ _ _ _ _) in *.
  destruct (tcp_input_bytes iface buf (c_remote_ip (conn b B)) (c_local_ip (conn b B)) B (conn a A) (Z.lor TCP_PSH TCP_ACK) [] ck data Oa ltac:(by left) Hck ltac:(lia) Hm) as [nb E].
  cbv zeta in E. rewrite P1, P2, F2 in E. destruct (Z.ltb_spec b 0); [unfold slot in Hb; lia|].
  pose proof (conn_wide (conn a A) (Z.lor TCP_PSH TCP_ACK) [] data Oa) as Wg. rewrite P1, P2 in Wg.
  set (g := mk_seg _ _ _ _ _ _ _ _) in *. assert (OkB0 : tcp_ok (with_net nb B)) by (by apply tcp_ok_with_net).
  destruct (established_conn iface b g (with_net nb B) OkB0 Hb Wg EsB eq_refl) as [K Cb]. rewrite <- E in K, Cb. fold B' in K, Cb.
  assert (Eb : conn b B' = received g (conn b B)) by (rewrite Cb by done; by rewrite decide_True).
  assert (Ea : conn a A' = advanced (Z.lor TCP_PSH TCP_ACK) (zlen data) (conn a A)) by (rewrite Ca by done; by rewrite decide_True).
  destruct (received_stays g (conn b B) Ob ltac:(done)) as (R1 & R2 & R3 & R4 & R5 & R6 & R7 & _ & R).
  assert (Eseq : g_seq g = c_rcv_nxt (conn b B)) by exact S1. change (g_payload g) with data in R. rewrite Eseq, Z.eqb_refl in R. destruct (Z.ltb_spec 0 (zlen data)); [|lia]. cbn [andb] in R. destruct R as [Rn Ru].
  split; [|by rewrite Eb]. constructor.
  - split; [done|apply K].
  - done.
  - by rewrite Ea, Eb, R1.
  - by rewrite Ea, Eb, R4, R5.
  - by rewrite Ea, Eb, R2, R3.
  - rewrite Ea, Eb, R6, Rn. unfold advanced. cbn [c_snd_nxt set_snd_nxt c_rcv_nxt]. change (has _ _) with false. cbv iota. rewrite Z.add_0_r, S1. done.
  - rewrite Ea, Eb, R3, R4, R5. split; [rewrite <- F1 at 4; apply conn_find_same; [done|done|]|rewrite <- F2 at 4; apply conn_find_same; [done|apply K|]].
    + intros j Hj. rewrite Ca by done. by destruct (decide (j = a)) as [->|].
    + intros j Hj. rewrite Cb by done. destruct (decide (j = b)) as [->|]; [|done]. by apply conn_matches_received.
Qed.

(** ** The handshake *)

(** A segment was logged. *)
Lemma sent_segment iface i flags data (s s' : tcp) :
  tcp_ok s -> slot i -> s' = (tcp_send_segment iface i flags data s).2 -> t_sent s' <> t_sent s -> segment_out i flags data s s'.
Proof.
  intros Ok Hi -> Hs. pose proof (tcp_send_segment_spec iface i flags data s (tk_conns s Ok i Hi) (slot_conn i s Ok Hi)) as S.
  destruct (tcp_send_segment iface i flags data s) as [ok s1]. cbn [snd] in *. by destruct S as [[_ [n ->]]|S].
Qed.

Definition zeros : list Z := replicate (Z.to_nat TCP_BUF_SIZE) 0.

(** The connection [tcp_connect] sets up before its SYN. *)
Definition opening (ip dst_ip src_port dst_port iss : Z) : tcp_conn :=
  mk_conn TCP_SYN_SENT ip dst_ip src_port dst_port iss 0 0 TCP_BUF_SIZE 0 zeros 0 0 (-1) false 0 (-1).

Lemma connect_start iface dst_ip dst_port src_port s a s' :
  tcp_ok s -> 0 <= if_ip iface < 2 ^ 32 -> 0 <= dst_ip < 2 ^ 32 -> 0 <= dst_port < 2 ^ 16 -> 0 < src_port < 2 ^ 16 ->
  tcp_connect iface dst_ip dst_port src_port s = (a, s') -> 0 <= a ->
  slot a /\ exists s3, tcp_ok s3 /\ s' = (tcp_send_segment iface a TCP_SYN [] s3).2 /\ t_sent s3 = t_sent s /\
  forall j, slot j -> conn j s3 = if decide (j = a) then opening (if_ip iface) dst_ip src_port dst_port (g_iss s) else conn j s.
Proof.
  intros Ok Hif Hip Hdp Hsp. unfold tcp_connect. destruct (conn_alloc s) as [k s1] eqn:Ea.
  destruct (conn_alloc_ok s k s1 Ok Ea) as [(-> & -> & _)|(Hk & Ek & -> & Ef & K & Q)]; [intros [= <- <-]; lia|].
  destruct (Z.ltb_spec k 0); [unfold slot in Hk; lia|]. destruct (Z.eqb_spec src_port 0); [lia|]. cbv iota beta. destruct (Z.eqb_spec src_port 0); [lia|].
  intros [= <- <-] _. split; [done|]. pose proof (kp_ok _ _ _ K) as Ok1.
  match goal with |- context [upd_conn k ?f (upd_conn k (fun _ => fresh_conn) s)] => destruct (keeps_open (fun _ => False) k f _ Ok1 Hk Ef Q) as (K3 & _); [pose proof (tk_iss s Ok); widths|done|done|] end.
  eexists. split; [|split; [reflexivity|split; [done|]]].
  - refine (kp_ok _ _ _ (keeps_same (fun _ => False) _ _ _ _ _ (kp_ok _ _ _ K3))); [done|apply u32_range|apply (tk_port s Ok)].
  - intros j Hj. change (conn j (with_iss ?x ?y)) with (conn j y). rewrite conn_upd by done. destruct (decide (j = k)) as [->|]; [by rewrite Ef|].
    apply conn_upd_ne; unfold slot in *; lia.
Qed.

(** The connection a listener sets up before its SYN-ACK. *)
Definition answering (dst src : Z) (g : segment) (iss next ts : Z) : tcp_conn :=
  mk_conn TCP_SYN_RECV dst src (g_dst_port g) (g_src_port g) iss 0 (u32 (g_seq g + 1)) TCP_BUF_SIZE (g_window g) zeros 0 0 next false ts (-1).

Lemma syn_start iface src dst g l (s s' : tcp) :
  tcp_ok s -> wide_segment g -> 0 <= src < 2 ^ 32 -> 0 <= dst < 2 ^ 32 -> listener_find (g_dst_port g) s = l -> 0 <= l -> has (g_flags g) TCP_SYN = true ->
  s' = tcp_input_syn iface src dst g s -> t_sent s' <> t_sent s ->
  slot l /\ c_state (conn l s) = TCP_LISTEN /\ exists b s3 ts, slot b /\ b <> l /\ tcp_ok s3 /\ s' = (tcp_send_segment iface b (Z.lor TCP_SYN TCP_ACK) [] s3).2 /\ t_sent s3 = t_sent s /\
  forall j, slot j -> conn j s3 = if decide (j = b) then answering dst src g (g_iss s) (c_next (conn l s)) ts else if decide (j = l) then set_next b (conn l s) else conn j s.
Proof.
  intros Ok (Hs & Hd & Ha & Hw) Hsrc Hdst El Hl0 Hf. unfold tcp_input_syn. rewrite El, Hf. destruct (Z.ltb_spec l 0); [lia|]. cbn [orb negb].
  destruct (listener_find_ok (g_dst_port g) s Ok) as [E|(Hl & Els & _)]; [lia|]. rewrite El in Hl, Els. destruct (conn_alloc s) as [i s1] eqn:Ea.
  destruct (conn_alloc_ok s i s1 Ok Ea) as [(-> & -> & _)|(Hi & Ei & -> & Ef & K & Q)]; [by intros -> ?|].
  destruct (Z.ltb_spec i 0); [unfold slot in Hi; lia|]. destruct (listener_alloc l i s Ok Hl Els Hi Ei) as (Nil & Ell & Qn).
  match goal with |- context [upd_conn i ?f (upd_conn i (fun _ => fresh_conn) s)] => set (h := f) end.
  match goal with |- context [upd_conn l (set_next i) ?x] => set (s2 := upd_conn l (set_next i) x) end.
  assert (K2 : keeps (fun _ => False) s s2).
  { apply keeps_enqueue; try done; [|unfold h; cbn [c_next]; by rewrite Ell|unfold h, waiting; cbn; tauto]. unfold h. pose proof (tk_iss s Ok). widths. }
  destruct (il_resolve iface src (t_net s2)) as [known n]. destruct known; [|by intros -> X]. intros E X. split; [done|]. split; [done|].
  eexists i, (with_net n s2), _. split; [done|]. split; [done|]. split; [apply tcp_ok_with_net, K2|]. split; [exact E|]. split; [done|].
  intros j Hj. change (conn j (with_net n s2)) with (conn j s2). unfold s2. destruct (decide (j = i)) as [->|Hji].
  - rewrite conn_upd_ne by (unfold slot in *; lia). change (conn i (with_iss ?x ?y)) with (conn i y). rewrite conn_upd_eq by (cbn; rewrite zlen_zset; by apply slot_conn). rewrite Ef. unfold h. rewrite Ell. done.
  - destruct (decide (j = l)) as [->|].
    + rewrite conn_upd_eq by (cbn; rewrite !zlen_zset; by apply slot_conn). change (conn l (with_iss ?x ?y)) with (conn l y). rewrite conn_upd_ne by (unfold slot in *; lia). by rewrite Ell.
    + rewrite conn_upd_ne by (unfold slot in *; lia). change (conn j (with_iss ?x ?y)) with (conn j y). by rewrite !conn_upd_ne by (unfold slot in *; lia).
Qed.

(** The SYN-ACK opens the active end, which acknowledges it. *)
Definition opened (g : segment) (c : tcp_conn) : tcp_conn :=
  set_state TCP_ESTABLISHED (set_snd_una (g_ack g) (set_rcv_nxt (u32 (g_seq g + 1)) (set_snd_wnd (g_window g) c))).

Lemma synack_start iface i g (s s' : tcp) :
  tcp_ok s -> slot i -> wide_segment g -> c_state (conn i s) = TCP_SYN_SENT -> g_flags g = Z.lor TCP_SYN TCP_ACK -> s' = tcp_input_conn iface i g s ->
  tcp_ok s' /\ (forall j, slot j -> conn j s' = if decide (j = i) then opened g (conn i s) else conn j s) /\
  exists s3, tcp_ok s3 /\ s' = (tcp_send_segment iface i TCP_ACK [] s3).2 /\ t_sent s3 = t_sent s /\ conn i s3 = opened g (conn i s).
Proof.
  intros Ok Hi Hg Es Ef ->. pose proof Hg as (_ & _ & Ha & Hw). pose proof (tcp_input_conn_ok (fun _ => False) iface i g s Ok Hi Hg) as K. split; [apply K|]. clear K.
  unfold tcp_input_conn. assert (Ei : conn i (upd_conn i (set_snd_wnd (g_window g)) s) = set_snd_wnd (g_window g) (conn i s)) by (apply conn_upd_eq; by apply slot_conn).
  rewrite Ei. cbn [c_state set_snd_wnd]. rewrite Es. unfold in_syn_sent. rewrite Ef. change (Z.land _ _ =? _) with true. cbv iota. rewrite upd_upd by (by apply slot_conn).
  set (f := fun c => _). assert (C : calm (conn i s) (f (conn i s))).
  { constructor; try done; [intros [[? ? ?] [? ?] [? ?] ? ? ? [? ?]]; widths|rewrite Es; unfold waiting; intuition congruence|rewrite Es; unfold owned, f; cbn; intuition congruence]. }
  pose proof (calm_ok i f s Ok Hi C) as Ok3. split.
  - intros j Hj. rewrite send_ack_conn by done. by apply conn_upd.
  - exists (upd_conn i f s). split; [done|]. split; [done|]. split; [done|]. by rewrite conn_upd_eq by (by apply slot_conn).
Qed.

(** The acknowledgement opens the passive end. *)
Lemma ack_start iface i g (s s' : tcp) :
  tcp_ok s -> slot i -> wide_segment g -> c_state (conn i s) = TCP_SYN_RECV -> has (g_flags g) TCP_ACK = true -> g_ack g = c_snd_nxt (conn i s) -> s' = tcp_input_conn iface i g s ->
  tcp_ok s' /\ forall j, slot j -> conn j s' = if decide (j = i) then set_state TCP_ESTABLISHED (set_snd_wnd (g_window g) (conn i s)) else conn j s.
Proof.
  intros Ok Hi Hg Es Hf Ea ->. pose proof (tcp_input_conn_ok (fun _ => False) iface i g s Ok Hi Hg) as K. split; [apply K|]. clear K.
  unfold tcp_input_conn. assert (Ei : conn i (upd_conn i (set_snd_wnd (g_window g)) s) = set_snd_wnd (g_window g) (conn i s)) by (apply conn_upd_eq; by apply slot_conn).
  rewrite Ei. cbn [c_state set_snd_wnd]. rewrite Es. unfold in_syn_recv. rewrite Hf, Ei. cbn [c_snd_nxt set_snd_wnd]. rewrite Ea, Z.eqb_refl. cbn [andb]. rewrite upd_upd by (by apply slot_conn).
  intros j Hj. by rewrite conn_upd.
Qed.

(** Relinking the queues does not concern a connection. *)
Lemma linked_next a A b B B' : linked a A b B -> tcp_ok B' -> (forall j, slot j -> exists n, conn j B' = set_next n (conn j B)) -> linked a A b B'.
Proof.
  intros [[OkA OkB] [Ha Hb] [EsA EsB] [P1 P2] [I1 I2] [S1 S2] [F1 F2]] Ok' Ec. destruct (Ec b Hb) as [n E].
  constructor; rewrite ?E; try done. split; [done|]. cbn. rewrite <- F2 at 4. apply conn_find_same; [done|done|]. intros j Hj. by destruct (Ec j Hj) as [m ->].
Qed.

(** Accepting gives a connection at the front of the queue that is ready. *)
Lemma accept_front l b (s : tcp) :
  tcp_ok s -> slot l -> c_state (conn l s) = TCP_LISTEN -> c_next (conn l s) = b -> slot b -> c_state (conn b s) = TCP_ESTABLISHED ->
  exists s', tcp_accept l s = Some (b, s') /\ tcp_ok s' /\ holdable b s' /\ forall j, slot j -> exists n, conn j s' = set_next n (conn j s).
Proof.
  intros Ok Hl El En Hb Eb. destruct (tcp_accept_ok l s Ok Hl El) as (q & C & _ & _ & R). destruct q as [|x q]; cbn [chain] in C; [unfold slot in Hb; lia|]. destruct C as (E & _ & _).
  assert (x = b) as -> by congruence. destruct R as [[F _]|(q1 & j & q2 & Eq & F & _ & A & _ & Hh & K & Same)].
  - apply Forall_inv in F. exfalso. apply F. by left.
  - destruct q1 as [|y q1]; injection Eq as <- Eq; [|apply Forall_inv in F; exfalso; apply F; by left].
    eexists. split; [exact A|]. split; [apply K|done].
Qed.

(** The bytes of one logged segment. *)
Lemma segment_out_bytes i flags data (s s' : tcp) dst m :
  segment_out i flags data s s' -> t_sent s' = t_sent s ++ [(dst, m)] ->
  exists opts ck, (zlen opts = 0 \/ zlen opts = 16) /\ zlen ck = 2 /\ m = tcp_bytes (conn i s) flags opts ck data.
Proof.
  intros (n & ts & ck & Hck & _ & ->) E. cbn [t_sent] in E. apply app_inj_1 in E as [_ E]; [|done]. injection E as _ <-. eexists _, ck. split; [apply options_len|done].
Qed.

Lemma grown {A} (l : list A) x l' : l' = l ++ [x] -> l' <> l.
Proof. intros -> E. apply (f_equal length) in E. rewrite length_app in E. cbn in E. lia. Qed.

Lemma handshake_syn iface ip port sport s a s' dst m :
  tcp_ok s -> 0 <= if_ip iface < 2 ^ 32 -> 0 <= ip < 2 ^ 32 -> 0 <= port < 2 ^ 16 -> 0 < sport < 2 ^ 16 ->
  tcp_connect iface ip port sport s = (a, s') -> 0 <= a -> t_sent s' = t_sent s ++ [(dst, m)] ->
  let c := opening (if_ip iface) ip sport port (g_iss s) in
  slot a /\ tcp_ok s' /\ conn_ok c /\ (forall j, slot j -> conn j s' = if decide (j = a) then advanced TCP_SYN 0 c else conn j s) /\
  exists opts ck, (zlen opts = 0 \/ zlen opts = 16) /\ zlen ck = 2 /\ m = tcp_bytes c TCP_SYN opts ck [].
Proof.
  intros Ok Hif Hip Hp Hsp E Ha Es c. destruct (connect_start _ _ _ _ _ _ _ Ok Hif Hip Hp Hsp E Ha) as (Hs & s3 & Ok3 & E3 & El & Ec). fold c in Ec. rewrite <- El in Es.
  assert (Ea : conn a s3 = c) by (rewrite Ec by done; by rewrite decide_True).
  pose proof (sent_segment _ _ _ _ _ _ Ok3 Hs E3 (grown _ _ _ Es)) as So. pose proof (segment_out_conn _ _ _ _ _ Ok3 Hs So) as Cs.
  destruct (segment_out_bytes _ _ _ _ _ _ _ So Es) as (opts & ck & Ho & Hck & ->). rewrite Ea in *.
  split_and!; [done|by eapply segment_out_ok|rewrite <- Ea; by apply Ok3| |by exists opts, ck].
  intros j Hj. rewrite Cs by done. destruct (decide (j = a)); [done|]. rewrite Ec by done. by rewrite decide_False.
Qed.

(** The SYN arrives at a listener. *)
Lemma handshake_synack iface src dst c opts ck b1 l (s s' : tcp) d m :
  tcp_ok s -> conn_ok c -> zlen opts = 0 \/ zlen opts = 16 -> zlen ck = 2 -> holds b1 (tcp_bytes c TCP_SYN opts ck []) ->
  0 <= src < 2 ^ 32 -> 0 <= dst < 2 ^ 32 -> conn_find src (c_local_port c) (c_remote_port c) s = -1 -> listener_find (c_remote_port c) s = l -> 0 <= l ->
  s' = tcp_input iface b1 src dst s -> t_sent s' = t_sent s ++ [(d, m)] ->
  slot l /\ c_state (conn l s) = TCP_LISTEN /\ exists b c1 ts, slot b /\ b <> l /\ tcp_ok s' /\ conn_ok c1 /\
  c1 = answering dst src (mk_seg (c_local_port c) (c_remote_port c) (c_snd_nxt c) 0 TCP_SYN (c_rcv_wnd c) opts []) (g_iss s) (c_next (conn l s)) ts /\
  (forall j, slot j -> conn j s' = if decide (j = b) then advanced (Z.lor TCP_SYN TCP_ACK) 0 c1 else if decide (j = l) then set_next b (conn l s) else conn j s) /\
  exists opts ck, (zlen opts = 0 \/ zlen opts = 16) /\ zlen ck = 2 /\ m = tcp_bytes c1 (Z.lor TCP_SYN TCP_ACK) opts ck [].
Proof.
  intros Ok Oc Ho Hck Hb Hsrc Hdst Hf El Hl -> Es. destruct (tcp_input_bytes iface b1 src dst s c TCP_SYN opts ck [] Oc Ho Hck ltac:(done) Hb) as [n E].
  cbv zeta in E. rewrite Hf in E. change (-1 <? 0) with true in E. cbv iota in E. pose proof (conn_wide c TCP_SYN opts [] Oc) as Wg. set (g := mk_seg _ _ _ _ _ _ _ _) in *.
  rewrite E in Es |- *. assert (Ok0 : tcp_ok (with_net n s)) by (by apply tcp_ok_with_net).
  destruct (syn_start iface src dst g l (with_net n s) _ Ok0 Wg Hsrc Hdst El Hl eq_refl eq_refl) as (Sl & Ell & b & s3 & ts & Hbs & Nbl & Ok3 & E3 & Et & Ec).
  { exact (grown _ _ _ Es). }
  split; [done|]. split; [done|]. assert (Eb : conn b s3 = answering dst src g (g_iss s) (c_next (conn l s)) ts) by (rewrite Ec by done; by rewrite decide_True).
  assert (Es3 : t_sent (tcp_input_syn iface src dst g (with_net n s)) = t_sent s3 ++ [(d, m)]) by (rewrite Et; exact Es).
  pose proof (sent_segment _ _ _ _ _ _ Ok3 Hbs E3 (grown _ _ _ Es3)) as So. pose proof (segment_out_conn _ _ _ _ _ Ok3 Hbs So) as Cs.
  destruct (segment_out_bytes _ _ _ _ _ _ _ So Es3) as (o1 & k1 & Ho1 & Hk1 & ->). pose proof (tk_conns s3 Ok3 b Hbs) as O1. rewrite Eb in O1, Cs |- *.
  eexists b, _, ts. split_and!; [done|done|by eapply segment_out_ok|exact O1|reflexivity| |by exists o1, k1].
  intros j Hj. rewrite Cs by done. destruct (decide (j = b)); [done|]. rewrite Ec by done. by rewrite decide_False.
Qed.

(** The SYN-ACK arrives at the active end. *)
Lemma handshake_ack iface src dst c opts ck b2 a (s s' : tcp) d m :
  tcp_ok s -> slot a -> conn_ok c -> zlen opts = 0 \/ zlen opts = 16 -> zlen ck = 2 -> holds b2 (tcp_bytes c (Z.lor TCP_SYN TCP_ACK) opts ck []) ->
  conn_find src (c_local_port c) (c_remote_port c) s = a -> c_state (conn a s) = TCP_SYN_SENT -> s' = tcp_input iface b2 src dst s -> t_sent s' = t_sent s ++ [(d, m)] ->
  let g := mk_seg (c_local_port c) (c_remote_port c) (c_snd_nxt c) (c_rcv_nxt c) (Z.lor TCP_SYN TCP_ACK) (c_rcv_wnd c) opts [] in
  tcp_ok s' /\ (forall j, slot j -> conn j s' = if decide (j = a) then opened g (conn a s) else conn j s) /\
  exists ck, zlen ck = 2 /\ conn_ok (opened g (conn a s)) /\ exists opts, (zlen opts = 0 \/ zlen opts = 16) /\ m = tcp_bytes (opened g (conn a s)) TCP_ACK opts ck [].
Proof.
  intros Ok Ha Oc Ho Hck Hb Hf Est -> Es g. destruct (tcp_input_bytes iface b2 src dst s c (Z.lor TCP_SYN TCP_ACK) opts ck [] Oc Ho Hck ltac:(done) Hb) as [n E].
  cbv zeta in E. rewrite Hf in E. destruct (Z.ltb_spec a 0); [unfold slot in Ha; lia|]. pose proof (conn_wide c (Z.lor TCP_SYN TCP_ACK) opts [] Oc) as Wg.
  change (ack_of c (Z.lor TCP_SYN TCP_ACK)) with (c_rcv_nxt c) in *. fold g in E, Wg. rewrite E in Es |- *. assert (Ok0 : tcp_ok (with_net n s)) by (by apply tcp_ok_with_net).
  destruct (synack_start iface a g (with_net n s) _ Ok0 Ha Wg Est eq_refl eq_refl) as (Ok' & Ec & s3 & Ok3 & E3 & Et & Ea). change (conn a (with_net n s)) with (conn a s) in *.
  assert (Es3 : t_sent (tcp_input_conn iface a g (with_net n s)) = t_sent s3 ++ [(d, m)]) by (rewrite Et; exact Es).
  pose proof (sent_segment _ _ _ _ _ _ Ok3 Ha E3 (grown _ _ _ Es3)) as So. destruct (segment_out_bytes _ _ _ _ _ _ _ So Es3) as (o1 & k1 & Ho1 & Hk1 & ->). rewrite Ea in *.
  split; [done|]. split; [exact Ec|]. exists k1. split; [done|]. split; [rewrite <- Ea; by apply Ok3|]. by exists o1.
Qed.

(** The two ends after the last acknowledgement. *)
Lemma handshake_linked iface b3 opts ck src dst c1 ca l a A b (B B' : tcp) :
  tcp_ok A -> slot a -> conn a A = ca -> conn_ok ca -> c_state ca = TCP_ESTABLISHED ->
  tcp_ok B -> slot b -> slot l -> b <> l -> conn b B = advanced (Z.lor TCP_SYN TCP_ACK) 0 c1 -> c_state c1 = TCP_SYN_RECV -> c_next (conn l B) = b -> c_state (conn l B) = TCP_LISTEN ->
  c_local_port ca = c_remote_port c1 -> c_remote_port ca = c_local_port c1 -> c_local_ip ca = c_remote_ip c1 -> c_remote_ip ca = c_local_ip c1 ->
  c_snd_nxt ca = c_rcv_nxt c1 -> c_rcv_nxt ca = u32 (c_snd_nxt c1 + 1) -> src = c_remote_ip c1 ->
  conn_find (c_remote_ip ca) (c_remote_port ca) (c_local_port ca) A = a -> conn_find (c_remote_ip c1) (c_remote_port c1) (c_local_port c1) B = b ->
  zlen opts = 0 \/ zlen opts = 16 -> zlen ck = 2 -> holds b3 (tcp_bytes ca TCP_ACK opts ck []) -> B' = tcp_input iface b3 src dst B ->
  exists B3, tcp_accept l B' = Some (b, B3) /\ linked a A b B3 /\ holdable b B3.
Proof.
  intros OkA Ha Ea Oca Eca OkB Hb Hl Nbl Eb Ec1 Enl Ell P1 P2 I1 I2 S1 S2 -> Fa Fb Ho Hck Hh ->.
  destruct (tcp_input_bytes iface b3 (c_remote_ip c1) dst B ca TCP_ACK opts ck [] Oca Ho Hck ltac:(done) Hh) as [n E]. cbv zeta in E. rewrite P1, P2, Fb in E.
  destruct (Z.ltb_spec b 0); [unfold slot in Hb; lia|]. pose proof (conn_wide ca TCP_ACK opts [] Oca) as Wg. rewrite P1, P2 in Wg. set (g := mk_seg _ _ _ _ _ _ _ _) in *.
  assert (Snb : c_snd_nxt (conn b B) = u32 (c_snd_nxt c1 + 1)) by (rewrite Eb; unfold advanced; change (has (Z.lor TCP_SYN TCP_ACK) (Z.lor TCP_SYN TCP_FIN)) with true; cbn [c_snd_nxt set_snd_nxt]; cbv iota; by rewrite Z.add_0_r).
  destruct (ack_start iface b g (with_net n B) (tcp_input iface b3 (c_remote_ip c1) dst B) (tcp_ok_with_net n B OkB) Hb Wg) as [OkB' Cb]; [by change (conn b (with_net n B)) with (conn b B); rewrite Eb|done| |exact E|].
  { change (g_ack g) with (c_rcv_nxt ca). change (conn b (with_net n B)) with (conn b B). congruence. }
  change (conn b (with_net n B)) with (conn b B) in Cb. set (B' := tcp_input _ _ _ _ _) in *.
  assert (Ebb : conn b B' = set_state TCP_ESTABLISHED (set_snd_wnd (g_window g) (conn b B))) by (rewrite Cb by done; by rewrite decide_True).
  assert (Elb : conn l B' = conn l B) by (rewrite Cb by done; by rewrite decide_False).
  destruct (accept_front l b B' OkB' Hl) as (B3 & Acc & Ok3 & Hold & Same); rewrite ?Elb, ?Ebb; try done.
  exists B3. split; [done|]. split; [|done]. apply (linked_next a A b B'); [|done|done]. constructor; rewrite ?Ea, ?Ebb, ?Eb; cbn; try done.
  - split; [done|]. rewrite S2, <- Snb, Eb. reflexivity.
  - split; [done|]. rewrite <- Fb. apply conn_find_same; [done|done|]. intros j Hj. rewrite Cb by done. destruct (decide (j = b)) as [->|]; [|done]. unfold conn_matches, is_closed. rewrite Eb. cbn. by rewrite Ec1.
Qed.

(** ** Properties *)

(** The three-way handshake.  A host connects to a listener of another; when
    the SYN, the SYN-ACK and the acknowledgement are sent and delivered, and
    neither host had a connection between these ports, [tcp_accept] gives the new
    connection at once, and the two ends are established with mirrored addresses
    and ports, each expecting exactly the number the other will send next. *)
Theorem tcp_handshake ifA ifB ipB portA portB (A0 B0 A1 B1 A2 B2 : tcp) a b1 b2 b3 d1 d2 d3 m1 m2 m3 :
  tcp_ok A0 -> tcp_ok B0 -> 0 <= if_ip ifA < 2 ^ 32 -> 0 <= ipB < 2 ^ 32 -> 0 < portA < 2 ^ 16 -> 0 <= portB < 2 ^ 16 ->
  conn_find ipB portB portA A0 = -1 -> conn_find (if_ip ifA) portA portB B0 = -1 -> 0 <= listener_find portB B0 ->
  tcp_connect ifA ipB portB portA A0 = (a, A1) -> 0 <= a -> t_sent A1 = t_sent A0 ++ [(d1, m1)] -> holds b1 m1 ->
  B1 = tcp_input ifB b1 (if_ip ifA) ipB B0 -> t_sent B1 = t_sent B0 ++ [(d2, m2)] -> holds b2 m2 ->
  A2 = tcp_input ifA b2 ipB (if_ip ifA) A1 -> t_sent A2 = t_sent A1 ++ [(d3, m3)] -> holds b3 m3 ->
  B2 = tcp_input ifB b3 (if_ip ifA) ipB B1 ->
  exists b B3, tcp_accept (listener_find portB B0) B2 = Some (b, B3) /\ linked a A2 b B3 /\ holdable b B3.
Proof.
  intros OkA OkB Hif Hip HpA HpB FA FB HL Ec Ha S1 H1 E1 S2 H2 E2 S3 H3 E3.
  destruct (handshake_syn ifA ipB portB portA A0 a A1 d1 m1 OkA Hif Hip HpB HpA Ec Ha S1) as (Sa & OkA1 & O0 & CA1 & o1 & k1 & Ho1 & Hk1 & ->).
  set (c0 := opening _ _ _ _ _) in *.
  destruct (handshake_synack ifB (if_ip ifA) ipB c0 o1 k1 b1 _ B0 B1 d2 m2 OkB O0 Ho1 Hk1 H1 Hif Hip FB eq_refl HL E1 S2) as (Sl & Ell & b & c1 & ts & Sb & Nbl & OkB1 & O1 & Ec1 & CB1 & o2 & k2 & Ho2 & Hk2 & ->).
  set (l := listener_find (c_remote_port c0) B0) in *. change (listener_find portB B0) with l.
  assert (Eb : conn b B1 = advanced (Z.lor TCP_SYN TCP_ACK) 0 c1) by (rewrite CB1 by done; by rewrite decide_True).
  assert (Ea1 : conn a A1 = advanced TCP_SYN 0 c0) by (rewrite CA1 by done; by rewrite decide_True).
  assert (FA1 : conn_find ipB (c_local_port c1) (c_remote_port c1) A1 = a).
  { rewrite Ec1. apply conn_find_only; [done|done|rewrite Ea1; apply conn_matches_eq; done|]. intros j Hj Hn. rewrite CA1 by done. rewrite decide_False by done. by apply conn_find_none. }
  destruct (handshake_ack ifA ipB (if_ip ifA) c1 o2 k2 b2 a A1 A2 d3 m3 OkA1 Sa O1 Ho2 Hk2 H2 FA1 ltac:(by rewrite Ea1) E2 S3) as (OkA2 & CA2 & k3 & Hk3 & Oca & o3 & Ho3 & ->).
  set (ca := opened _ _) in *. assert (Eaa : conn a A2 = ca) by (rewrite CA2 by done; by rewrite decide_True).
  assert (Eca : ca = opened (mk_seg (c_local_port c1) (c_remote_port c1) (c_snd_nxt c1) (c_rcv_nxt c1) (Z.lor TCP_SYN TCP_ACK) (c_rcv_wnd c1) o2 []) (advanced TCP_SYN 0 c0)) by (unfold ca; by rewrite Ea1).
  destruct (handshake_linked ifB b3 o3 k3 (if_ip ifA) ipB c1 ca l a A2 b B1 B2) as (B3 & R); try done; try (rewrite Eca, ?Ec1; done); try (rewrite Ec1; done).
  - rewrite CB1 by done. rewrite decide_False by done. by rewrite decide_True.
  - rewrite CB1 by done. rewrite decide_False by done. by rewrite decide_True.
  - rewrite Eca, Ec1. unfold advanced. cbn [c_snd_nxt opened set_snd_nxt set_state set_snd_una set_rcv_nxt set_snd_wnd c_rcv_nxt answering g_seq]. change (has _ _) with true. cbv iota. by rewrite Z.add_0_r.
  - rewrite Eca. transitivity (conn_find ipB portB portA A1); [|rewrite Ec1 in FA1; exact FA1]. apply conn_find_same; [done|done|]. intros j Hj. rewrite CA2 by done. destruct (decide (j = a)) as [->|]; [|done]. rewrite Eca, Ea1. done.
  - apply conn_find_only; [done|done|rewrite Eb, Ec1; apply conn_matches_eq; done|]. intros j Hj Hn. rewrite CB1 by done. rewrite decide_False by done. rewrite Ec1.
    destruct (decide (j = l)) as [->|]; by apply (conn_find_none (if_ip ifA) portA portB B0).
  - by exists b, B3.
Qed.

(** C28: data transfer.  When [tcp_send] on one end of a connection that is not a
    loopback pair reports its 1 to 1280 bytes as sent, exactly one segment has gone
    out; when that segment is delivered to the other end and its ring has room for
    all of it (unread and new bytes together below 32768), the bytes are appended to what the other end has not yet read, [tcp_recv] returns them in
    order, and the two ends match again. *)
Theorem tcp_transfer iface a A b B A' data :
  linked a A b B -> c_partner (conn a A) = -1 -> netif_default (il_netifs (t_net A)) = Some iface -> 0 < zlen data <= NETBUF_CAP - NETBUF_HEADROOM ->
  rx_available (conn b B) + zlen data < TCP_BUF_SIZE -> tcp_send a data A = (zlen data, A') ->
  exists m, t_sent A' = t_sent A ++ [(c_remote_ip (conn a A), m)] /\
    forall ifB buf len n r B2, holds buf m -> 0 <= len < 2 ^ 16 ->
    let B1 := tcp_input ifB buf (c_remote_ip (conn b B)) (c_local_ip (conn b B)) B in
    linked a A' b B1 /\ (tcp_recv b len B1 = (n, r, B2) -> r = take (Z.to_nat len) (unread (conn b B) ++ data) /\ n = zlen r).
Proof.
  intros Lk Hp Hi Hd Hr Es. unfold NETBUF_CAP, NETBUF_HEADROOM in Hd. destruct (tcp_send_one iface a data A (zlen data) A') as (_ & So & _); try done; try apply Lk; [lia|].
  destruct (linked_data a A b B A' data Lk ltac:(lia) Hr (So ltac:(unfold NETBUF_CAP, NETBUF_HEADROOM; lia) eq_refl)) as (m & Em & R). exists m. split; [done|].
  intros ifB buf len n r B2 Hh Hl B1. destruct (R ifB buf Hh) as [Lk' U]. fold B1 in Lk', U. split; [done|]. intros Er. rewrite <- U.
  destruct (tcp_recv_spec b len B1 n r B2) as (-> & -> & _); try done; apply Lk'.
Qed.

(** The limit of [tcp_send].  The loop cuts data into chunks of 1460 bytes, but
    a packet buffer takes 1280: on a network connection any call with more than 1280
    bytes sends nothing at all and returns 0, whatever the state of the network. *)
Theorem tcp_send_too_long iface i data (s : tcp) n s' :
  tcp_ok s -> slot i -> c_state (conn i s) = TCP_ESTABLISHED -> c_partner (conn i s) = -1 -> netif_default (il_netifs (t_net s)) = Some iface ->
  NETBUF_CAP - NETBUF_HEADROOM < zlen data < 2 ^ 16 -> tcp_send i data s = (n, s') -> n = 0 /\ g_conns s' = g_conns s /\ t_sent s' = t_sent s.
Proof.
  intros Ok Hi Es Hp Hf Hd E. destruct (tcp_send_one iface i data s n s' Ok Hi Es Hp Hf ltac:(unfold NETBUF_CAP, NETBUF_HEADROOM in *; lia) E) as (_ & _ & R).
  destruct (R ltac:(lia)) as [-> [k ->]]. done.
Qed.

(** C29: a receiver delivers a prefix.  An established connection whose peer sends
    a stream of bytes is given segments of it late, twice, out of order or never,
    and the application reads at any time.  As long as no segment fills the ring,
    what the application has read is a prefix of the stream, the ring holds the
    bytes that follow it, and the connection expects the number of the byte after. *)
Theorem tcp_stream_prefix iface i src dst rport lport base stream (s0 s : tcp) out :
  slot i -> zlen stream < 2 ^ 32 -> receiving i src rport lport base stream 0 s0 [] -> receives iface i src dst rport lport base stream s0 s out ->
  exists n, 0 <= n <= zlen stream /\ out ++ unread (conn i s) = take (Z.to_nat n) stream /\ c_rcv_nxt (conn i s) = u32 (base + n) /\ c_state (conn i s) = TCP_ESTABLISHED.
Proof.
  intros Hi Hs R0 R. destruct (receives_receiving iface i src dst rport lport base stream s0 s out Hi Hs R0 R) as [n [? ? ? ? ? ?]]. by exists n.
Qed.

(** ** Loopback connections *)

(** The room left is never 0, so the loop writes every byte. *)
Lemma send_local_all data w c : send_local data w c = (w + zlen data, rx_store data c).
Proof.
  revert w c. induction data as [|x data IH]; intros w c; cbn [send_local rx_store]; [by rewrite Z.add_0_r|]. rewrite ring_mask.
  pose proof (Z.mod_pos_bound (c_rx_head c - c_rx_tail c) TCP_BUF_SIZE ltac:(done)) as B. unfold TCP_BUF_SIZE in B. rewrite (u16_small (TCP_BUF_SIZE - _)) by (unfold TCP_BUF_SIZE; lia).
  destruct (Z.eqb_spec (TCP_BUF_SIZE - (c_rx_head c - c_rx_tail c) mod TCP_BUF_SIZE) 0) as [E|_]; [unfold TCP_BUF_SIZE in E; lia|]. rewrite IH. f_equal. unfold zlen. cbn [length]. lia.
Qed.

Lemma rx_store_available data c : rx_available (rx_store data c) = (rx_available c + zlen data) mod TCP_BUF_SIZE.
Proof.
  revert c. induction data as [|x data IH]; intros c; cbn [rx_store].
  - rewrite rx_available_mod. change (zlen []) with 0. rewrite Z.add_0_r. symmetry. by apply Z.mod_mod.
  - rewrite IH, !rx_available_mod. cbn [c_rx_head c_rx_tail set_rx]. replace (zlen (x :: data)) with (zlen data + 1) by (unfold zlen; cbn [length]; lia). unfold TCP_BUF_SIZE, u16. 
    rewrite !Zplus_mod_idemp_l. change (2 ^ 16) with (32768 * 2). rewrite (Z.rem_mul_r (c_rx_head c + 1) 32768 2) by lia.
    replace ((c_rx_head c + 1) mod 32768 + 32768 * ((c_rx_head c + 1) / 32768 mod 2) - c_rx_tail c + zlen data) with ((c_rx_head c + 1) mod 32768 + (zlen data - c_rx_tail c) + ((c_rx_head c + 1) / 32768 mod 2) * 32768) by lia.
    rewrite Z_mod_plus_full, Zplus_mod_idemp_l. f_equal. lia.
Qed.

(** [p] is established with the connection [q] of the same host. *)
Definition partners (p q : Z) (s : tcp) : Prop := slot p /\ c_state (conn p s) = TCP_ESTABLISHED /\ c_partner (conn p s) = q /\ slot q.

(** C31: a loopback connection.  [tcp_send] writes all its bytes into the partner's
    ring.  While a byte stays free they are appended and come out of [tcp_recv] in
    order.  The check for room never fails, so the ring may be overrun: the bytes
    readable afterwards are counted modulo 32768 -- after 32768 bytes into an empty
    ring, none -- and the result is the length cut to 16 bits, with its sign. *)
Theorem tcp_loopback p q data (s : tcp) :
  tcp_ok s -> partners p q s -> 0 < zlen data < 2 ^ 16 ->
  exists s', tcp_send p data s = (s16 (zlen data), s') /\ rx_available (conn q s') = (rx_available (conn q s) + zlen data) mod TCP_BUF_SIZE /\
  (rx_available (conn q s) + zlen data < TCP_BUF_SIZE ->
     s16 (zlen data) = zlen data /\ unread (conn q s') = unread (conn q s) ++ data /\
     forall len n r s'', 0 <= len < 2 ^ 16 -> tcp_recv q len s' = (n, r, s'') -> r = take (Z.to_nat len) (unread (conn q s) ++ data) /\ n = zlen r).
Proof.
  intros Ok (Hp & Es & Eq & Hq) Hd. pose proof (tcp_send_ok (fun _ => False) p data s Ok (or_introl Hp)) as K. unfold tcp_send in *.
  destruct (Z.ltb_spec p 0); [unfold slot in Hp; lia|]. rewrite Es, Eq in *. rewrite bool_decide_eq_true_2 in * by done. cbn [orb negb] in *. destruct (Z.eqb_spec (zlen data) 0); [lia|].
  destruct (Z.leb_spec 0 q); [|unfold slot in Hq; lia]. rewrite send_local_all, Z.add_0_l in *. cbn [snd] in K. eexists. split; [reflexivity|].
  assert (Ec : conn q (upd_conn q (fun _ => rx_store data (conn q s)) s) = rx_store data (conn q s)) by (rewrite conn_upd_eq; [done|]; by apply slot_conn).
  rewrite Ec. split; [apply rx_store_available|]. intros Hr. destruct (rx_store_ok data (conn q s) (co_ring _ (tk_conns s Ok q Hq)) Hr) as [_ U]. rewrite U.
  pose proof (rx_available_range (conn q s)). unfold TCP_BUF_SIZE in *. split; [unfold s16; rewrite u16_small by lia; destruct (Z.ltb_spec (zlen data) 32768); lia|]. split; [done|].
  intros len n0 r s'' Hl E. destruct (tcp_recv_spec q len _ n0 r s'' (kp_ok _ _ _ K) Hq Hl E) as (-> & -> & _). by rewrite Ec, U.
Qed.

End Proto.

(** ** The layers below *)

Section IpNet.
Context {H : Type} `{Allocator H} (blocked : Z -> bool) (upper : Z -> Z -> Z -> netbuf -> ipst H -> option (ipst H)) (tx : list Z -> bool) (netifs : list netif).

(** IPv4 and the honeypot hits reported; the interfaces are registered at boot. *)
Record ipnet := mk_ipnet { in_ip : ipst H; in_hits : list Z }.

Definition with_ip (x : ipst H) (n : ipnet) : ipnet := mk_ipnet x (in_hits n).
Definition pool_of (n : ipnet) : netpool := l_pool (i_lnk (in_ip n)).
Definition set_pool (p : netpool) (n : ipnet) : ipnet := with_ip (with_lnk (with_pool p (i_lnk (in_ip n))) (in_ip n)) n.

(** The IPv4 model as the layer below; [ip4_output] has no result only when a
    handler of a looped back packet has none. *)
Definition ip_layer : IpLayer ipnet := {|
  il_alloc n := let '(i, p) := netbuf_alloc (pool_of n) in (i, set_pool p n);
  il_free i n := set_pool (netbuf_free i (pool_of n)) n;
  il_output iface dst buf n :=
    match ip4_output blocked upper tx iface dst IP_PROTO_TCP buf (in_ip n) with
    | Some (ok, _, s) => (ok, with_ip s n)
    | None => (false, n)
    end;
  il_resolve iface ip n := let '(mac, l) := arp_resolve iface ip (i_lnk (in_ip n)) in (match mac with Some _ => true | None => false end, with_ip (with_lnk l (in_ip n)) n);
  il_honeypot src n := mk_ipnet (in_ip n) (in_hits n ++ [src]);
  il_uptime n := l_uptime (i_lnk (in_ip n));
  il_netifs _ := netifs
|}.

End IpNet.

(** ** Witnesses *)

(** A received packet. *)
Definition buffer_of (m : list Z) : netbuf := set_len (nb_put netbuf_fresh 0 m) (zlen m).

Lemma holds_buffer_of m : zlen m <= NETBUF_CAP - NETBUF_HEADROOM -> holds (buffer_of m) m.
Proof.
  intros Hm. unfold NETBUF_CAP, NETBUF_HEADROOM in Hm. pose proof (zlen_nonneg m). split; [|done]. unfold buffer_of. change (nb_len (set_len ?x ?n)) with n.
  change (nb_bytes (set_len ?x _) 0 ?n) with (nb_bytes x 0 n). rewrite nb_bytes_put by (cbn [nb_data netbuf_fresh nb_storage]; unfold NETBUF_HEADROOM; rewrite ?zlen_replicate by done; unfold NETBUF_CAP; lia).
  rewrite drop_0. apply take_ge. unfold zlen. lia.
Qed.

Module TcpDemo.

#[local] Instance no_heap : Allocator unit := {| al_alloc _ h := (0, h); al_free _ h := h |}.
Definition ipA : Z := IP4 10 0 2 15.
Definition ipB : Z := IP4 10 0 2 16.
Definition ifA : netif := mk_netif [2; 0; 0; 0; 0; 1] ipA (IP4 255 255 255 0) (IP4 10 0 2 2) true.
Definition ifB : netif := mk_netif [2; 0; 0; 0; 0; 2] ipB (IP4 255 255 255 0) (IP4 10 0 2 2) true.

#[local] Instance demo_net : IpLayer (@ipnet unit) := ip_layer (fun _ => false) (fun _ _ _ _ s => Some s) (fun _ => true) [ifA].

(** A host with one interface that knows the other's hardware address. *)
Definition host (peer : netif) (iss : Z) : tcp (@ipnet unit) :=
  tcp_init iss (mk_tcp [] 0 49152 (mk_ipnet (mk_ip (arp_cache_update (if_ip peer) (if_mac peer) lnk0) 0 [] 0 tt) []) []).

Definition last_sent (s : tcp (@ipnet unit)) : list Z := (List.last (t_sent s) (0, [])).2.

Definition A0 := host ifB 1000.
Definition B0 := (tcp_listen 80 (host ifA 0xFFFFFFFF)).2.
Definition A1 := (tcp_connect ifA ipB 80 40000 A0).2.
Definition B1 := tcp_input ifB (buffer_of (last_sent A1)) ipA ipB B0.
Definition A2 := tcp_input ifA (buffer_of (last_sent B1)) ipB ipA A1.
Definition B2 := tcp_input ifB (buffer_of (last_sent A2)) ipA ipB B1.

Lemma A0_ok : tcp_ok A0.
Proof. apply tcp_init_ok; done. Qed.

Lemma B0_ok : tcp_ok B0.
Proof.
  pose proof (proj1 (tcp_init_ok 0xFFFFFFFF (mk_tcp [] 0 49152 (mk_ipnet (mk_ip (arp_cache_update (if_ip ifA) (if_mac ifA) lnk0) 0 [] 0 tt) []) []) ltac:(done) ltac:(done))) as Ok.
  unfold B0. destruct (tcp_listen 80 (host ifA 0xFFFFFFFF)) as [i s] eqn:E. by destruct (tcp_listen_ok (fun _ => False) 80 _ i s Ok ltac:(done) E) as [[K _] _].
Qed.

Lemma A1_eq : tcp_connect ifA ipB 80 40000 A0 = (0, A1).
Proof. rewrite (surjective_pairing (tcp_connect ifA ipB 80 40000 A0)). assert (E : (tcp_connect ifA ipB 80 40000 A0).1 = 0) by (vm_compute; reflexivity). rewrite E. unfold A1. reflexivity. Qed.

(** The handshake, with a sequence number that wraps. *)
Lemma tcp_handshake_witness : exists b B3, tcp_accept 0 B2 = Some (b, B3) /\ linked 0 A2 b B3 /\ holdable b B3.
Proof.
  apply (tcp_handshake ifA ifB ipB 40000 80 A0 B0 A1 B1 A2 B2 0 (buffer_of (last_sent A1)) (buffer_of (last_sent B1)) (buffer_of (last_sent A2)) ipB ipA ipB (last_sent A1) (last_sent B1) (last_sent A2));
    [exact A0_ok|exact B0_ok|done|done|done|done|vm_compute; reflexivity|vm_compute; reflexivity|vm_compute; discriminate|exact A1_eq|done|vm_compute; reflexivity
    |apply holds_buffer_of; vm_compute; discriminate|reflexivity|vm_compute; reflexivity|apply holds_buffer_of; vm_compute; discriminate|reflexivity|vm_compute; reflexivity
    |apply holds_buffer_of; vm_compute; discriminate|reflexivity].
Defined.

(** The listener on slot 0 of the host above. *)
Lemma tcp_accept_first_ready_witness :
  exists q, chain B2 0 q /\ NoDup (0 :: q) /\ zlen q < MAX_TCP_CONNS /\ exists j s', tcp_accept 0 B2 = Some (j, s').
Proof.
  destruct (tcp_accept_first_ready 0 B2) as (q & C & Nd & L & R); [apply (kp_ok (fun _ => False) B1), tcp_input_ok; [|done|done]; apply (kp_ok (fun _ => False) B0), tcp_input_ok; [exact B0_ok|done|done]|done|vm_compute; reflexivity|].
  exists q. split; [exact C|]. split; [exact Nd|]. split; [exact L|]. destruct R as [[_ E]|(_ & j & _ & s' & _ & _ & _ & E & _)]; eexists _, _; exact E.
Defined.

Definition B3 := default (0, B2) (tcp_accept 0 B2).

Lemma A2_ok : tcp_ok A2.
Proof.
  destruct (tcp_connect_ok (fun _ => False) ifA ipB 80 40000 A0 0 A1 A0_ok ltac:(done) ltac:(done) ltac:(done) ltac:(done) A1_eq) as [[K _] _].
  by apply (kp_ok (fun _ => False) A1), tcp_input_ok.
Qed.

Lemma B3_ok : tcp_ok B3.2.
Proof.
  assert (K1 : tcp_ok B1) by (apply (kp_ok (fun _ => False) B0), tcp_input_ok; [exact B0_ok|done|done]).
  assert (K2 : tcp_ok B2) by (apply (kp_ok (fun _ => False) B1), tcp_input_ok; [exact K1|done|done]).
  destruct (accept_keeps 0 B2 K2 ltac:(by left)) as (i & s & E & [K _] & _). unfold B3. rewrite E. exact K.
Qed.

Lemma demo_linked : linked 0 A2 1 B3.2.
Proof. constructor; [exact (conj A2_ok B3_ok)|done|..]; vm_compute; done. Qed.

Definition hi : list Z := [72; 105].
Definition A3 := (tcp_send 0 hi A2).2.

Lemma A3_eq : tcp_send 0 hi A2 = (2, A3).
Proof. rewrite (surjective_pairing (tcp_send 0 hi A2)). assert (E : (tcp_send 0 hi A2).1 = 2) by (vm_compute; reflexivity). rewrite E. unfold A3. reflexivity. Qed.

Lemma demo_ips : c_remote_ip (conn 1 B3.2) = ipA /\ c_local_ip (conn 1 B3.2) = ipB.
Proof. vm_compute. done. Qed.

Lemma tcp_transfer_witness :
  exists m, t_sent A3 = t_sent A2 ++ [(ipB, m)] /\
    let B4 := tcp_input ifB (buffer_of (last_sent A3)) ipA ipB B3.2 in linked 0 A3 1 B4 /\ (tcp_recv 1 100 B4).1.2 = hi.
Proof.
  destruct (tcp_transfer ifA 0 A2 1 B3.2 A3 hi demo_linked) as (m & Em & R);
    [vm_compute; reflexivity|vm_compute; reflexivity|done|vm_compute; reflexivity|exact A3_eq|].
  exists m. split; [exact Em|]. cbv zeta. assert (Eb : m = last_sent A3) by (unfold last_sent; rewrite Em, last_last; reflexivity). rewrite Eb, (proj1 demo_ips), (proj2 demo_ips) in R.
  destruct (tcp_recv 1 100 (tcp_input ifB (buffer_of (last_sent A3)) ipA ipB B3.2)) as [[n r] s] eqn:Er.
  destruct (R ifB (buffer_of (last_sent A3)) 100 n r s) as [Lk Rr]; [apply holds_buffer_of; vm_compute; discriminate|vm_compute; split; [discriminate|reflexivity]|].
  split; [exact Lk|]. cbn [fst snd]. rewrite (proj1 (Rr Er)). vm_compute. reflexivity.
Defined.

(** A web page of 1300 bytes. *)
Lemma tcp_send_too_long_witness : (tcp_send 0 (replicate 1300 65) A2).1 = 0.
Proof.
  refine (proj1 (tcp_send_too_long ifA 0 (replicate 1300 65) A2 _ _ A2_ok _ _ _ _ _ (surjective_pairing (tcp_send 0 (replicate 1300 65) A2))));
    vm_compute; first [reflexivity|split; first [reflexivity|discriminate]].
Defined.

(** Two segments of a stream of four bytes: the second arrives first and is
    dropped, then the first arrives twice, then the second, and two bytes are read. *)
Definition stream : list Z := hi ++ [33; 10].
Definition A4 := (tcp_send 0 [33; 10] A3).2.
Definition seg1 := buffer_of (last_sent A3).
Definition seg2 := buffer_of (last_sent A4).
Definition arrive (b : netbuf) (s : tcp (@ipnet unit)) := tcp_input ifB b ipA ipB s.
Definition S1 := arrive seg2 B3.2.
Definition S2 := arrive seg1 S1.
Definition S3 := arrive seg1 S2.
Definition S4 := arrive seg2 S3.

Lemma A3_ok : tcp_ok A3.
Proof. apply (kp_ok (fun _ => False) A2), (tcp_send_ok _ 0 hi); [exact A2_ok|by left]. Qed.

(** A segment of the stream, from the bytes that were sent. *)
Lemma demo_segment (s : tcp (@ipnet unit)) m o data :
  conn_ok (conn 0 s) -> c_local_port (conn 0 s) = 40000 -> c_remote_port (conn 0 s) = 80 -> c_snd_nxt (conn 0 s) = u32 (1001 + o) ->
  m = tcp_bytes (conn 0 s) (Z.lor TCP_PSH TCP_ACK) [] (take 2 (drop 16 m)) data -> zlen m <= 1280 -> zlen (take 2 (drop 16 m)) = 2 ->
  0 <= o -> o + zlen data <= zlen stream -> data = take (length data) (drop (Z.to_nat o) stream) -> stream_segment 40000 80 1001 stream (buffer_of m) o data.
Proof.
  intros Ok E1 E2 E3 Em Hm Hk Ho Hl Ed. exists (conn 0 s), (Z.lor TCP_PSH TCP_ACK), [], (take 2 (drop 16 m)). split_and!; try done; [by left|]. rewrite <- Em. by apply holds_buffer_of.
Qed.

Lemma seg1_ok : stream_segment 40000 80 1001 stream seg1 0 hi.
Proof. apply (demo_segment A2); [apply A2_ok; done|..]; vm_compute; first [reflexivity|discriminate]. Qed.

Lemma seg2_ok : stream_segment 40000 80 1001 stream seg2 2 [33; 10].
Proof. apply (demo_segment A3); [apply A3_ok; done|..]; vm_compute; first [reflexivity|discriminate]. Qed.

Lemma demo_receives : receives ifB 1 ipA ipB 40000 80 1001 stream B3.2 (tcp_recv 1 2 S4).2 ([] ++ (tcp_recv 1 2 S4).1.2).
Proof.
  apply (receives_read _ _ _ _ _ _ _ _ _ S4 [] 2 (tcp_recv 1 2 S4).1.1); [|split; [discriminate|reflexivity]|by rewrite <- !surjective_pairing].
  apply (receives_segment _ _ _ _ _ _ _ _ _ S3 [] seg2 2 [33; 10]); [|exact seg2_ok|vm_compute; reflexivity].
  apply (receives_segment _ _ _ _ _ _ _ _ _ S2 [] seg1 0 hi); [|exact seg1_ok|vm_compute; reflexivity].
  apply (receives_segment _ _ _ _ _ _ _ _ _ S1 [] seg1 0 hi); [|exact seg1_ok|vm_compute; reflexivity].
  apply (receives_segment _ _ _ _ _ _ _ _ _ B3.2 [] seg2 2 [33; 10]); [|exact seg2_ok|vm_compute; reflexivity].
  apply receives_start.
Qed.

Lemma demo_receiving : receiving 1 ipA 40000 80 1001 stream 0 B3.2 [].
Proof. constructor; [exact B3_ok|..]; vm_compute; first [reflexivity|split; discriminate]. Qed.

Lemma tcp_stream_prefix_witness :
  (exists n, 0 <= n <= zlen stream /\ ([] ++ (tcp_recv 1 2 S4).1.2) ++ unread (conn 1 (tcp_recv 1 2 S4).2) = take (Z.to_nat n) stream /\
    c_rcv_nxt (conn 1 (tcp_recv 1 2 S4).2) = u32 (1001 + n) /\ c_state (conn 1 (tcp_recv 1 2 S4).2) = TCP_ESTABLISHED) /\ (tcp_recv 1 2 S4).1.2 = hi.
Proof.
  split; [|vm_compute; reflexivity].
  apply (tcp_stream_prefix ifB 1 ipA ipB 40000 80 1001 stream B3.2); [done|done|exact demo_receiving|exact demo_receives].
Defined.

(** A host connected to its own listener: slot 0 listens, 1 and 2 are the ends. *)
Definition L0 := (tcp_conn_alloc_for_loopback 0 50000 ipB B0).2.
Definition L1 := (tcp_conn_alloc_for_loopback_client 80 50000 ipB L0).2.
Definition L2 := upd_conn 2 (set_partner 1) (upd_conn 1 (set_partner 2) L1).

Lemma L2_ok : tcp_ok L2.
Proof.
  destruct (loopback_server_ok (fun _ => False) 0 50000 ipB B0 _ L0 B0_ok ltac:(done) ltac:(vm_compute; reflexivity) ltac:(done) ltac:(done) (surjective_pairing _)) as [[K0 _] _].
  destruct (loopback_client_ok (fun _ => False) 80 50000 ipB L0 _ L1 K0 ltac:(done) ltac:(done) ltac:(done) (surjective_pairing _)) as [[K1 _] _].
  apply (kp_ok (fun _ => False) (upd_conn 1 (set_partner 2) L1)), set_partner_ok; [|done|done]. by apply (kp_ok (fun _ => False) L1), set_partner_ok.
Qed.

Lemma L2_partners : partners 2 1 L2.
Proof. split; [done|]. split; [vm_compute; reflexivity|]. split; [vm_compute; reflexivity|done]. Qed.

Definition long : list Z := replicate (Z.to_nat 32768) 65.
Lemma long_len : zlen long = 32768.
Proof. exact (zlen_replicate 32768 65 ltac:(lia)). Qed.

(** Two bytes arrive; of 32768, none can be read, and the result is negative. *)
Lemma tcp_loopback_witness :
  (exists s', tcp_send 2 hi L2 = (2, s') /\ unread (conn 1 s') = hi) /\
  (exists s', tcp_send 2 long L2 = (-32768, s') /\ rx_available (conn 1 s') = 0).
Proof.
  split.
  - destruct (tcp_loopback 2 1 hi L2 L2_ok) as (s' & E & _ & R); [exact L2_partners|done|].
    exists s'. split; [exact E|]. destruct R as (_ & U & _); [vm_compute; reflexivity|]. assert (U0 : unread (conn 1 L2) = []) by (vm_compute; reflexivity). rewrite U0 in U. exact U.
  - destruct (tcp_loopback 2 1 long L2 L2_ok) as (s' & E & A & _); [exact L2_partners|rewrite long_len; done|].
    rewrite long_len in E, A. exists s'. split; [exact E|]. rewrite A. vm_compute. reflexivity.
Defined.

End TcpDemo.
