(* ===== verification/Socket.v ===== *)
(** * Sockets (kernel/net/socket/socket.c)

    A table of 32 sockets over TCP and UDP.  A TCP socket has a connection of the
    TCP table, a UDP socket a ring of received bytes.  The calls that wait run
    [net_poll] and [sched_yield] in a loop.  What happens there (frames that arrive,
    other processes, the clock) may change the whole state, so a call that waits
    takes the list of its passes through the loop, each with what the calls of
    [net_poll] and [sched_yield] in it do to the state; [None] is a call that still
    waits when the list ends.  SocketInv.v fills the passes with arriving segments
    and datagrams and with the socket calls of other processes. *)

From S2P Require Import Prelude Kmalloc Net Arp Ip Udp Tcp TcpWire TcpTable TcpProto.

Definition MAX_SOCKETS : Z := 32.
Definition UDP_RX_SIZE : Z := 4096.

Inductive sock_type_t := SOCK_NONE | SOCK_TCP | SOCK_UDP.
#[export] Instance sock_type_eq_dec : EqDecision sock_type_t.
Proof. solve_decision. Defined.

Record socket_t := mk_sock {
  so_type : sock_type_t;
  so_active : bool;
  so_tcp_conn : Z;
  so_local_port : Z;
  so_remote_ip : Z;
  so_remote_port : Z;
  so_udp_rx : list Z;
  so_udp_rx_head : Z;
  so_udp_rx_tail : Z
}.

(** [memset(&g_sockets[i], 0, sizeof(socket_t))]. *)
Definition sock_zero : socket_t := mk_sock SOCK_NONE false (-1) 0 0 0 (replicate (Z.to_nat UDP_RX_SIZE) 0) 0 0.
#[export] Instance socket_inhabited : Inhabited socket_t := populate sock_zero.

Definition set_conn (x : Z) (s : socket_t) : socket_t :=
  mk_sock (so_type s) (so_active s) x (so_local_port s) (so_remote_ip s) (so_remote_port s) (so_udp_rx s) (so_udp_rx_head s) (so_udp_rx_tail s).
Definition set_local_port (x : Z) (s : socket_t) : socket_t :=
  mk_sock (so_type s) (so_active s) (so_tcp_conn s) x (so_remote_ip s) (so_remote_port s) (so_udp_rx s) (so_udp_rx_head s) (so_udp_rx_tail s).
Definition set_remote (ip port : Z) (s : socket_t) : socket_t :=
  mk_sock (so_type s) (so_active s) (so_tcp_conn s) (so_local_port s) ip port (so_udp_rx s) (so_udp_rx_head s) (so_udp_rx_tail s).
Definition set_active (x : bool) (s : socket_t) : socket_t :=
  mk_sock (so_type s) x (so_tcp_conn s) (so_local_port s) (so_remote_ip s) (so_remote_port s) (so_udp_rx s) (so_udp_rx_head s) (so_udp_rx_tail s).
Definition set_udp_rx (buf : list Z) (head tail : Z) (s : socket_t) : socket_t :=
  mk_sock (so_type s) (so_active s) (so_tcp_conn s) (so_local_port s) (so_remote_ip s) (so_remote_port s) buf head tail.

(** [udp_send] below the sockets. *)
Class UdpLayer (N : Type) := {
  ul_send : netif -> Z -> Z -> Z -> list Z -> N -> bool * N  (* destination, source port, destination port, data *)
}.

(** The number of [socket_udp_recv_cb] among the UDP callbacks. *)
Definition SOCKET_CB : Z := 1.

Section Sockets.
Context {N : Type} `{IpLayer N, UdpLayer N}.

Record sockets := mk_sks { g_sockets : list socket_t; g_next_ephemeral : Z; sk_tcp : tcp N; sk_udp : list udp_binding }.

Definition with_sockets (x : list socket_t) (k : sockets) : sockets := mk_sks x (g_next_ephemeral k) (sk_tcp k) (sk_udp k).
Definition with_ephemeral (x : Z) (k : sockets) : sockets := mk_sks (g_sockets k) x (sk_tcp k) (sk_udp k).
Definition with_tcp (x : tcp N) (k : sockets) : sockets := mk_sks (g_sockets k) (g_next_ephemeral k) x (sk_udp k).
Definition with_udp (x : list udp_binding) (k : sockets) : sockets := mk_sks (g_sockets k) (g_next_ephemeral k) (sk_tcp k) x.

Definition sock (fd : Z) (k : sockets) : socket_t := (g_sockets k).[fd].
Definition upd_sock (fd : Z) (f : socket_t -> socket_t) (k : sockets) : sockets := with_sockets (g_sockets k).[fd <- f (sock fd k)] k.

(** ** Datagrams *)

(** The copy loop of [socket_udp_recv_cb]; it stops when the ring is full. *)
Fixpoint udp_rx_push (data : list Z) (s : socket_t) : socket_t :=
  match data with
  | [] => s
  | x :: data' =>
      let next_head := u16 (Z.land (so_udp_rx_head s + 1) 4095) in
      if next_head =? Z.land (so_udp_rx_tail s) 4095 then s else
      udp_rx_push data' (set_udp_rx (so_udp_rx s).[Z.land (so_udp_rx_head s) 4095 <- x] next_head (so_udp_rx_tail s) s)
  end.

(** The sockets that take a datagram. *)
Definition udp_takes (src_ip src_port dst_port : Z) (s : socket_t) : bool :=
  so_active s && bool_decide (so_type s = SOCK_UDP) && (so_local_port s =? dst_port) &&
  negb (negb (so_remote_port s =? 0) && (negb (so_remote_ip s =? src_ip) || negb (so_remote_port s =? src_port))).

Definition socket_udp_recv_cb (src_ip src_port dst_port : Z) (data : list Z) (k : sockets) : sockets :=
  let i := find_from (udp_takes src_ip src_port dst_port) (g_sockets k) 0 in
  if i <? 0 then k else upd_sock i (udp_rx_push data) k.

(** ** Sockets *)

Definition net_socket_init (k : sockets) : sockets := with_sockets (replicate (Z.to_nat MAX_SOCKETS) sock_zero) k.

(** [NULL] is [false]. *)
Definition sock_get (fd : Z) (k : sockets) : bool := negb ((fd <? 0) || (MAX_SOCKETS <=? fd)) && so_active (sock fd k).

Definition net_socket (type : sock_type_t) (k : sockets) : Z * sockets :=
  let i := find_from (fun s => negb (so_active s)) (g_sockets k) 0 in
  if i <? 0 then (-1, k) else
  (i, upd_sock i (fun _ => mk_sock type true (-1) 0 0 0 (replicate (Z.to_nat UDP_RX_SIZE) 0) 0 0) k).

Definition net_bind (fd port : Z) (k : sockets) : Z * sockets :=
  if negb (sock_get fd k) then (-1, k) else
  let k := upd_sock fd (set_local_port port) k in
  if bool_decide (so_type (sock fd k) = SOCK_UDP) then
    let '(ok, g) := udp_bind port SOCKET_CB (sk_udp k) in
    if ok : bool then (0, with_udp g k) else (-1, with_udp g k)
  else (0, k).

Definition net_listen (fd : Z) (k : sockets) : Z * sockets :=
  if negb (sock_get fd k) || negb (bool_decide (so_type (sock fd k) = SOCK_TCP)) then (-1, k) else
  let '(c, t) := tcp_listen (so_local_port (sock fd k)) (sk_tcp k) in
  let k := upd_sock fd (set_conn c) (with_tcp t k) in
  (if 0 <=? c then 0 else -1, k).

Definition net_send (fd : Z) (data : list Z) (k : sockets) : Z * sockets :=
  if negb (sock_get fd k) then (-1, k) else
  match netif_default (il_netifs (t_net (sk_tcp k))) with
  | None => (-1, k)
  | Some iface =>
      let s := sock fd k in
      match so_type s with
      | SOCK_TCP => let '(n, t) := tcp_send (so_tcp_conn s) data (sk_tcp k) in (n, with_tcp t k)
      | SOCK_UDP =>
          let '(ok, n) := ul_send iface (so_remote_ip s) (so_local_port s) (so_remote_port s) data (t_net (sk_tcp k)) in
          (if ok : bool then zlen data else -1, with_tcp (with_net n (sk_tcp k)) k)
      | SOCK_NONE => (-1, k)
      end
  end.

Definition net_socket_close (fd : Z) (k : sockets) : sockets :=
  if negb (sock_get fd k) then k else
  let s := sock fd k in
  let k := if bool_decide (so_type s = SOCK_TCP) && (0 <=? so_tcp_conn s) then with_tcp (tcp_close (so_tcp_conn s) (sk_tcp k)) k else k in
  upd_sock fd (set_active false) k.

(** The read loop of a UDP socket. *)
Fixpoint udp_rx_take (n : nat) (s : socket_t) : list Z * socket_t :=
  match n with
  | O => ([], s)
  | S n' =>
      let x := (so_udp_rx s).[Z.land (so_udp_rx_tail s) 4095] in
      let '(r, s) := udp_rx_take n' (set_udp_rx (so_udp_rx s) (so_udp_rx_head s) (u16 (so_udp_rx_tail s + 1)) s) in (x :: r, s)
  end.

Definition udp_recv (fd len : Z) (k : sockets) : Z * list Z * sockets :=
  let s := sock fd k in
  let avail := u16 (Z.land (so_udp_rx_head s - so_udp_rx_tail s) 4095) in
  if avail =? 0 then (0, [], k) else
  let n := if avail <? len then avail else len in
  let '(r, s) := udp_rx_take (Z.to_nat n) s in (n, r, upd_sock fd (fun _ => s) k).

(** ** The calls that wait *)

(** One pass: [net_poll], the second [net_poll] of [net_recv], [sched_yield]. *)
Record round := mk_round { r_poll : sockets -> sockets; r_poll2 : sockets -> sockets; r_yield : sockets -> sockets }.

Definition uptime (k : sockets) : Z := il_uptime (t_net (sk_tcp k)).

(** [while (!tcp_is_connected(s->tcp_conn) && g_uptime_ticks < deadline)]. *)
Fixpoint wait_connected (rounds : list round) (fd deadline : Z) (k : sockets) : option sockets :=
  if negb (tcp_is_connected (so_tcp_conn (sock fd k)) (sk_tcp k)) && (uptime k <? deadline) then
    match rounds with [] => None | rd :: rounds' => wait_connected rounds' fd deadline (r_yield rd (r_poll rd k)) end
  else Some k.

(** A connection to this host. *)
Definition connect_loopback (fd ip port if_ip : Z) (k : sockets) : Z * sockets :=
  let listener := tcp_listen_find port (sk_tcp k) in
  if listener <? 0 then (-1, k) else
  let '(server_side, t) := tcp_conn_alloc_for_loopback listener (so_local_port (sock fd k)) if_ip (sk_tcp k) in
  let '(client_side, t) := tcp_conn_alloc_for_loopback_client port (so_local_port (sock fd k)) if_ip t in
  let k := with_tcp t k in
  if (server_side <? 0) || (client_side <? 0) then (-1, k) else
  let t := upd_conn server_side (set_partner client_side) t in
  let t := upd_conn client_side (set_partner server_side) t in
  (0, upd_sock fd (fun s => set_remote ip port (set_conn client_side s)) (with_tcp t k)).

(** The port of an unbound socket. *)
Definition ephemeral (fd : Z) (k : sockets) : sockets :=
  if so_local_port (sock fd k) =? 0 then
    let p := g_next_ephemeral k in
    let k := with_ephemeral (u16 (p + 1)) (upd_sock fd (set_local_port p) k) in
    if bool_decide (so_type (sock fd k) = SOCK_UDP) then with_udp (udp_bind p SOCKET_CB (sk_udp k)).2 k else k
  else k.

(** [net_connect] up to its loop: a result, or the state in which it waits. *)
Inductive started := Done (r : Z) (k : sockets) | Waiting (k : sockets).

Definition connect_start (fd ip port : Z) (k : sockets) : started :=
  if negb (sock_get fd k) then Done (-1) k else
  match netif_default (il_netifs (t_net (sk_tcp k))) with
  | None => Done (-1) k
  | Some iface =>
      let k := ephemeral fd k in
      match so_type (sock fd k) with
      | SOCK_TCP =>
          if (ip =? if_ip iface) || (ip =? IP4 127 0 0 1)
          then let '(r, k) := connect_loopback fd ip port (if_ip iface) k in Done r k else
          let '(c, t) := tcp_connect iface ip port (so_local_port (sock fd k)) (sk_tcp k) in
          let k := upd_sock fd (set_conn c) (with_tcp t k) in
          if c <? 0 then Done (-1) k else Waiting (upd_sock fd (set_remote ip port) k)
      | SOCK_UDP => Done 0 (upd_sock fd (set_remote ip port) k)
      | SOCK_NONE => Done (-1) k
      end
  end.

Definition net_connect (rounds : list round) (fd ip port : Z) (k : sockets) : option (Z * sockets) :=
  match connect_start fd ip port k with
  | Done r k => Some (r, k)
  | Waiting k =>
      match wait_connected rounds fd (u64 (uptime k + 500)) k with
      | None => None
      | Some k => Some (if tcp_is_connected (so_tcp_conn (sock fd k)) (sk_tcp k) then 0 else -1, k)
      end
  end.

(** The loop of [net_accept]: the connection. *)
Fixpoint wait_accept (rounds : list round) (fd : Z) (k : sockets) : option (Z * sockets) :=
  match rounds with
  | [] => None
  | rd :: rounds' =>
      let k := r_poll rd k in
      match tcp_accept (so_tcp_conn (sock fd k)) (sk_tcp k) with
      | None => None
      | Some (accepted, t) =>
          let k := with_tcp t k in
          if 0 <=? accepted then Some (accepted, k) else wait_accept rounds' fd (r_yield rd k)
      end
  end.

(** The part after the loop: a socket for the connection. *)
Definition accept_socket (fd accepted : Z) (k : sockets) : Z * sockets :=
  let '(nfd, k) := net_socket SOCK_TCP k in
  if nfd <? 0 then (-1, with_tcp (tcp_close accepted (sk_tcp k)) k) else
  let c := conn accepted (sk_tcp k) in
  let port := so_local_port (sock fd k) in
  (nfd, upd_sock nfd (fun s => set_remote (c_remote_ip c) (c_remote_port c) (set_local_port port (set_conn accepted s))) k).

Definition can_accept (fd : Z) (k : sockets) : bool :=
  negb (negb (sock_get fd k) || negb (bool_decide (so_type (sock fd k) = SOCK_TCP)) || (so_tcp_conn (sock fd k) <? 0)).

Definition net_accept (rounds : list round) (fd : Z) (k : sockets) : option (Z * sockets) :=
  if negb (can_accept fd k) then Some (-1, k) else
  match wait_accept rounds fd k with
  | None => None
  | Some (accepted, k) => Some (accept_socket fd accepted k)
  end.

(** [tcp_recv] on the socket's connection. *)
Definition recv_tcp (fd len : Z) (k : sockets) : Z * list Z * sockets :=
  let '(n, r, t) := tcp_recv (so_tcp_conn (sock fd k)) len (sk_tcp k) in (n, r, with_tcp t k).

(** The loop of [net_recv] on a TCP socket, with the last result and its bytes. *)
Fixpoint wait_recv (rounds : list round) (fd len deadline n : Z) (r : list Z) (k : sockets) : option (Z * list Z * sockets) :=
  if (n =? 0) && (uptime k <? deadline) then
    match rounds with
    | [] => None
    | rd :: rounds' =>
        let '(n, r, k) := recv_tcp fd len (r_poll rd k) in
        if 0 <? n then Some (n, r, k) else
        let st := c_state (conn (so_tcp_conn (sock fd k)) (sk_tcp k)) in
        if bool_decide (st = TCP_CLOSED) || bool_decide (st = TCP_CLOSE_WAIT) then
          Some (recv_tcp fd len (r_poll2 rd k))
        else wait_recv rounds' fd len deadline n r (r_yield rd k)
    end
  else Some (n, r, k).

Definition net_recv (rounds : list round) (fd len : Z) (k : sockets) : option (Z * list Z * sockets) :=
  if negb (sock_get fd k) then Some (-1, [], k) else
  match so_type (sock fd k) with
  | SOCK_TCP => if so_tcp_conn (sock fd k) <? 0 then Some (-1, [], k) else wait_recv rounds fd len (u64 (uptime k + 500)) 0 [] k
  | SOCK_UDP => Some (udp_recv fd len k)
  | SOCK_NONE => Some (-1, [], k)
  end.

End Sockets.
Arguments sockets : clear implicits.
Arguments round : clear implicits.
Arguments started : clear implicits.
