(* ===== verification/SocketInv.v ===== *)
(** * Sockets: who has a connection

    Every socket call keeps the TCP table well formed and the sockets apart: an
    active TCP socket's connection is open and in no queue, and no two sockets have
    the same one.  A connection is therefore never recycled under the socket that
    uses it.  While a call waits, segments and datagrams arrive and the other
    processes make socket calls of their own; these are steps of the same model, and
    a call of another process that waits itself is the sequence of its steps
    between two of its calls of [sched_yield].  The second part says when the calls
    that wait return. *)

From S2P Require Import Prelude Kmalloc Net Arp Ip Udp Tcp TcpWire TcpTable TcpProto Socket.

Definition fd_ok (fd : Z) : Prop := 0 <= fd < MAX_SOCKETS.

Record sock_wf (s : socket_t) : Prop := {
  sw_conn : so_tcp_conn s = -1 \/ slot (so_tcp_conn s);
  sw_ports : 0 <= so_local_port s < 2 ^ 16 /\ 0 <= so_remote_port s < 2 ^ 16;
  sw_ip : 0 <= so_remote_ip s < 2 ^ 32;
  sw_rx : zlen (so_udp_rx s) = UDP_RX_SIZE /\ 0 <= so_udp_rx_head s < UDP_RX_SIZE /\ 0 <= so_udp_rx_tail s < 2 ^ 16
}.

(** A TCP socket in use with a connection. *)
Definition has_conn (s : socket_t) : Prop := so_active s = true /\ so_type s = SOCK_TCP /\ so_tcp_conn s <> -1.

Section Inv.
Context {N : Type} `{IpLayer N, UdpLayer N}.
#[local] Abbreviation sockets := (sockets N).
#[local] Abbreviation none := (fun _ : Z => False).

Record sockets_ok (k : sockets) : Prop := {
  sx_len : zlen (g_sockets k) = MAX_SOCKETS;
  sx_tcp : tcp_ok (sk_tcp k);
  sx_port : 0 <= g_next_ephemeral k < 2 ^ 16;
  sx_wf : forall fd, fd_ok fd -> sock_wf (sock fd k);
  sx_hold : forall fd, fd_ok fd -> has_conn (sock fd k) -> holdable (so_tcp_conn (sock fd k)) (sk_tcp k);
  sx_apart : forall fd fd', fd_ok fd -> fd_ok fd' -> has_conn (sock fd k) -> has_conn (sock fd' k) -> so_tcp_conn (sock fd k) = so_tcp_conn (sock fd' k) -> fd = fd'
}.

Lemma sock_upd fd fd' f (k : sockets) : zlen (g_sockets k) = MAX_SOCKETS -> fd_ok fd -> fd_ok fd' -> sock fd' (upd_sock fd f k) = if decide (fd' = fd) then f (sock fd k) else sock fd' k.
Proof.
  intros L Hf Hf'. unfold fd_ok in *. unfold sock, upd_sock. cbn [g_sockets with_sockets]. destruct (decide (fd' = fd)) as [->|]; [by rewrite zget_zset_eq by lia|by rewrite zget_zset_ne by lia].
Qed.

Lemma with_tcp_ok t k : sockets_ok k -> keeps none (sk_tcp k) t -> sockets_ok (with_tcp t k).
Proof.
  intros [L T P W Hh Ap] K. constructor; try done; [apply K|]. intros fd Hf Hc. apply K; [|tauto|by apply Hh].
  destruct (sw_conn _ (W fd Hf)) as [E|E]; [by destruct Hc as (_ & _ & ?)|done].
Qed.

(** A change of one socket that has no connection afterwards, or the same. *)
Lemma upd_sock_same fd f k :
  sockets_ok k -> fd_ok fd -> sock_wf (f (sock fd k)) -> (has_conn (f (sock fd k)) -> has_conn (sock fd k) /\ so_tcp_conn (f (sock fd k)) = so_tcp_conn (sock fd k)) -> sockets_ok (upd_sock fd f k).
Proof.
  intros [L T P W Hh Ap] Hf Hw Hc.
  assert (E : forall fd', fd_ok fd' -> sock fd' (upd_sock fd f k) = if decide (fd' = fd) then f (sock fd k) else sock fd' k) by (intros; by apply sock_upd).
  assert (C : forall fd', fd_ok fd' -> has_conn (sock fd' (upd_sock fd f k)) -> has_conn (sock fd' k) /\ so_tcp_conn (sock fd' (upd_sock fd f k)) = so_tcp_conn (sock fd' k)).
  { intros fd' Hf'. rewrite E by done. destruct (decide (fd' = fd)) as [->|]; [done|]. done. }
  constructor; [cbn; by rewrite zlen_zset|done|done| | |].
  - intros fd' Hf'. rewrite E by done. destruct (decide (fd' = fd)); [done|by apply W].
  - intros fd' Hf' X. destruct (C fd' Hf' X) as [Y ->]. by apply Hh.
  - intros x y Hx Hy Cx Cy Exy. destruct (C x Hx Cx) as [X Ex]. destruct (C y Hy Cy) as [Y Ey]. apply Ap; try done. congruence.
Qed.

(** A connection no socket has. *)
Definition unowned (c : Z) (k : sockets) : Prop := forall fd, fd_ok fd -> has_conn (sock fd k) -> so_tcp_conn (sock fd k) <> c.

Lemma closed_unowned c k : sockets_ok k -> c_state (conn c (sk_tcp k)) = TCP_CLOSED -> unowned c k.
Proof. intros Ok E fd Hf Hc X. destruct (sx_hold k Ok fd Hf Hc) as [O _]. rewrite X, E in O. unfold owned in O. intuition congruence. Qed.

Lemma queued_unowned c k : sockets_ok k -> queued c (sk_tcp k) -> unowned c k.
Proof. intros Ok Q fd Hf Hc X. destruct (sx_hold k Ok fd Hf Hc) as [_ Nq]. by rewrite X in Nq. Qed.

(** A socket gets a connection no socket has. *)
Lemma upd_sock_own fd f k :
  sockets_ok k -> fd_ok fd -> sock_wf (f (sock fd k)) -> (so_tcp_conn (f (sock fd k)) <> -1 -> holdable (so_tcp_conn (f (sock fd k))) (sk_tcp k) /\ unowned (so_tcp_conn (f (sock fd k))) k) ->
  sockets_ok (upd_sock fd f k).
Proof.
  intros [L T P W Hh Ap] Hf Hw Hc.
  assert (E : forall fd', fd_ok fd' -> sock fd' (upd_sock fd f k) = if decide (fd' = fd) then f (sock fd k) else sock fd' k) by (intros; by apply sock_upd).
  constructor; [cbn; by rewrite zlen_zset|done|done| | |].
  - intros fd' Hf'. rewrite E by done. destruct (decide (fd' = fd)); [done|by apply W].
  - intros fd' Hf'. rewrite E by done. destruct (decide (fd' = fd)) as [->|]; [|by apply Hh]. intros (_ & _ & X). by apply Hc.
  - intros x y Hx Hy. rewrite !E by done. destruct (decide (x = fd)) as [->|], (decide (y = fd)) as [->|]; try done; try by apply Ap.
    + intros (_ & _ & X) Cy Exy. exfalso. destruct (Hc X) as [_ U]. by apply (U y Hy Cy).
    + intros Cx (_ & _ & X) Exy. exfalso. destruct (Hc X) as [_ U]. by apply (U x Hx Cx).
Qed.

Lemma unowned_with_tcp c t k : unowned c k -> unowned c (with_tcp t k).
Proof. done. Qed.

Lemma sock_get_ok fd (k : sockets) : sock_get fd k = true -> fd_ok fd /\ so_active (sock fd k) = true.
Proof. unfold sock_get, fd_ok. rewrite andb_true_iff, negb_true_iff, orb_false_iff, Z.ltb_ge, Z.leb_gt. lia || (intros [[? ?] ?]; split; [lia|done]). Qed.

(** ** The calls that do not wait *)

Lemma udp_rx_push_wf data s : sock_wf s -> sock_wf (udp_rx_push data s) /\ so_active (udp_rx_push data s) = so_active s /\ so_type (udp_rx_push data s) = so_type s /\ so_tcp_conn (udp_rx_push data s) = so_tcp_conn s.
Proof.
  revert s. induction data as [|x data IH]; intros s W; cbn [udp_rx_push]; [done|]. case_match; [done|]. match goal with |- context [udp_rx_push data ?s2] => destruct (IH s2) as (W2 & E1 & E2 & E3) end; [|by rewrite E1, E2, E3].
  destruct W as [? ? ? (? & ? & ?)]. constructor; try done. cbn [set_udp_rx so_udp_rx so_udp_rx_head so_udp_rx_tail]. split; [by rewrite zlen_zset|]. split; [|done]. rewrite (land_low 12 _ ltac:(lia)). change (2 ^ 12) with 4096. unfold UDP_RX_SIZE.
  pose proof (Z.mod_pos_bound (so_udp_rx_head s + 1) 4096 ltac:(lia)). rewrite u16_small; lia.
Qed.

Lemma datagram_ok src sp dp data k : sockets_ok k -> sockets_ok (socket_udp_recv_cb src sp dp data k).
Proof.
  intros Ok. unfold socket_udp_recv_cb. destruct (find_from_spec (udp_takes src sp dp) (g_sockets k) 0 ltac:(lia)) as [[-> _]|(i & Hi & -> & _ & _)]; [done|]. rewrite Z.add_0_l.
  destruct (Z.ltb_spec i 0); [done|]. rewrite (sx_len k Ok) in Hi. destruct (udp_rx_push_wf data (sock i k) (sx_wf k Ok i Hi)) as (W & E1 & E2 & E3).
  apply upd_sock_same; [done|done|done|]. unfold has_conn. by rewrite E1, E2, E3.
Qed.

Lemma net_socket_ok ty k i k' :
  sockets_ok k -> net_socket ty k = (i, k') -> sockets_ok k' /\ sk_tcp k' = sk_tcp k /\
  (i = -1 \/ (fd_ok i /\ so_active (sock i k) = false /\ so_tcp_conn (sock i k') = -1 /\ forall fd, fd_ok fd -> fd <> i -> sock fd k' = sock fd k)).
Proof.
  intros Ok. unfold net_socket. destruct (find_from_spec (fun s => negb (so_active s)) (g_sockets k) 0 ltac:(lia)) as [[-> _]|(j & Hj & -> & Ea & _)].
  - intros [= <- <-]. split; [done|]. split; [done|by left].
  - rewrite Z.add_0_l. destruct (Z.ltb_spec j 0); [lia|]. intros [= <- <-]. rewrite (sx_len k Ok) in Hj. apply negb_true_iff in Ea.
    split; [|split; [done|right]].
    + apply upd_sock_own; [done|done| |done]. constructor; [by left|done|done|]. split; [|done]. exact (zlen_replicate UDP_RX_SIZE 0 ltac:(done)).
    + split; [done|]. split; [done|]. rewrite sock_upd by (done || apply Ok). rewrite decide_True by done. split; [done|]. intros fd Hf Hn. rewrite sock_upd by (done || apply Ok). by rewrite decide_False.
Qed.

Lemma with_udp_ok g k : sockets_ok k -> sockets_ok (with_udp g k).
Proof. by intros [L T P W Hh Ap]. Qed.

Lemma set_local_port_ok fd p k : sockets_ok k -> fd_ok fd -> 0 <= p < 2 ^ 16 -> sockets_ok (upd_sock fd (set_local_port p) k).
Proof. intros Ok Hf Hp. apply upd_sock_same; [done|done| |done]. destruct (sx_wf k Ok fd Hf) as [? [? ?] ? ?]. by constructor. Qed.

Lemma set_remote_ok fd ip p k : sockets_ok k -> fd_ok fd -> 0 <= ip < 2 ^ 32 -> 0 <= p < 2 ^ 16 -> sockets_ok (upd_sock fd (set_remote ip p) k).
Proof. intros Ok Hf Hi Hp. apply upd_sock_same; [done|done| |done]. destruct (sx_wf k Ok fd Hf) as [? [? ?] ? ?]. by constructor. Qed.

Lemma net_bind_ok fd p k : sockets_ok k -> 0 <= p < 2 ^ 16 -> sockets_ok (net_bind fd p k).2.
Proof.
  intros Ok Hp. unfold net_bind. destruct (sock_get fd k) eqn:G; [|done]. apply sock_get_ok in G as [Hf _]. cbn [negb]. pose proof (set_local_port_ok fd p k Ok Hf Hp) as Ok1.
  case_match; [|done]. destruct (udp_bind _ _ _) as [[] g]; by apply with_udp_ok.
Qed.

(** A new connection of the TCP table for a socket. *)
Lemma set_conn_ok fd c t k :
  sockets_ok k -> fd_ok fd -> keeps none (sk_tcp k) t -> c = -1 \/ (slot c /\ c_state (conn c (sk_tcp k)) = TCP_CLOSED /\ holdable c t) ->
  sockets_ok (upd_sock fd (set_conn c) (with_tcp t k)).
Proof.
  intros Ok Hf K Hc. pose proof (with_tcp_ok t k Ok K) as Ok1. apply upd_sock_own; [done|done| |].
  - destruct (sx_wf k Ok fd Hf). constructor; try done. destruct Hc as [->|(? & _)]; [by left|by right].
  - cbn. intros Hn. destruct Hc as [->|(_ & E & Hh)]; [done|]. split; [done|]. by apply (closed_unowned c k).
Qed.

Lemma net_listen_ok fd k : sockets_ok k -> sockets_ok (net_listen fd k).2.
Proof.
  intros Ok. unfold net_listen. destruct (sock_get fd k) eqn:G; [|done]. apply sock_get_ok in G as [Hf _]. cbn [negb orb]. case_match; [done|].
  destruct (tcp_listen _ _) as [c t] eqn:E. destruct (tcp_listen_ok none _ _ c t (sx_tcp k Ok) (proj1 (sw_ports _ (sx_wf k Ok fd Hf))) E) as [K R]. by apply set_conn_ok.
Qed.

Lemma net_send_ok fd data k : sockets_ok k -> sockets_ok (net_send fd data k).2.
Proof.
  intros Ok. unfold net_send. destruct (sock_get fd k) eqn:G; [|done]. apply sock_get_ok in G as [Hf _]. cbn [negb]. destruct (netif_default _) as [iface|]; [|done].
  destruct (so_type _); [done| |].
  - pose proof (tcp_send_ok none (so_tcp_conn (sock fd k)) data (sk_tcp k) (sx_tcp k Ok)) as K. destruct (tcp_send _ _ _) as [n t]. apply with_tcp_ok; [done|]. apply K.
    destruct (sw_conn _ (sx_wf k Ok fd Hf)); [by right|by left].
  - destruct (ul_send _ _ _ _ _ _) as [ok n]. apply with_tcp_ok; [done|]. apply keeps_same; [done|apply (sx_tcp k Ok)|apply (sx_tcp k Ok)|apply Ok].
Qed.

Lemma net_socket_close_ok fd k : sockets_ok k -> sockets_ok (net_socket_close fd k).
Proof.
  intros Ok. unfold net_socket_close. destruct (sock_get fd k) eqn:G; [|done]. apply sock_get_ok in G as [Hf Ha]. cbn [negb]. pose proof Ok as [L T P W Hh Ap].
  destruct (bool_decide _ && _) eqn:Eb.
  - apply andb_prop in Eb as [Et Ec]. apply bool_decide_eq_true in Et. apply Z.leb_le in Ec.
    assert (Hc : has_conn (sock fd k)) by (split; [done|split; [done|lia]]). destruct (sw_conn _ (W fd Hf)) as [E|Hs]; [lia|]. destruct (Hh fd Hf Hc) as [O Q].
    pose proof (tcp_close_ok _ _ T (or_introl Hs) Q) as K. set (t := tcp_close _ _) in *.
    assert (E : forall fd', fd_ok fd' -> sock fd' (upd_sock fd (set_active false) (with_tcp t k)) = if decide (fd' = fd) then set_active false (sock fd k) else sock fd' k) by (intros; by apply (sock_upd fd fd' _ (with_tcp t k))).
    constructor; [cbn; by rewrite zlen_zset|apply K|done| | |].
    + intros fd' Hf'. rewrite E by done. destruct (decide (fd' = fd)); [destruct (W fd Hf); by constructor|by apply W].
    + intros fd' Hf'. rewrite E by done. destruct (decide (fd' = fd)); [by intros (? & _)|]. intros Hc'. apply K; [|intros X; apply n; symmetry; by apply Ap|by apply Hh].
      destruct (sw_conn _ (W fd' Hf')) as [E'|?]; [by destruct Hc' as (_ & _ & ?)|done].
    + intros x y Hx Hy. rewrite !E by done. destruct (decide (x = fd)); [by intros (? & _)|]. destruct (decide (y = fd)); [by intros _ (? & _)|]. by apply Ap.
  - apply upd_sock_same; [done|done|destruct (W fd Hf); by constructor|by intros (? & _)].
Qed.

Lemma udp_rx_take_wf n s : sock_wf s -> let s' := (udp_rx_take n s).2 in sock_wf s' /\ so_active s' = so_active s /\ so_type s' = so_type s /\ so_tcp_conn s' = so_tcp_conn s.
Proof.
  revert s. induction n as [|n IH]; intros s W; cbn [udp_rx_take]; [done|]. set (s1 := set_udp_rx _ _ _ s).
  assert (W1 : sock_wf s1) by (destruct W as [? ? ? (? & ? & ?)]; constructor; try done; cbn; split; [done|split; [done|apply u16_range]]).
  specialize (IH s1 W1). destruct (udp_rx_take n s1) as [r s2]. exact IH.
Qed.

Lemma udp_recv_ok fd len k : sockets_ok k -> fd_ok fd -> sockets_ok (udp_recv fd len k).2.
Proof.
  intros Ok Hf. unfold udp_recv. case_match; [done|]. set (n := Z.to_nat _). pose proof (udp_rx_take_wf n (sock fd k) (sx_wf k Ok fd Hf)) as (W & E1 & E2 & E3).
  destruct (udp_rx_take n (sock fd k)) as [r s]. cbn [snd] in *. apply upd_sock_same; [done|done|done|]. unfold has_conn. by rewrite E1, E2, E3.
Qed.

(** ** The calls that wait *)

Hypothesis netif_ok : forall n iface, netif_default (il_netifs n) = Some iface -> 0 <= if_ip iface < 2 ^ 32.

(** A pass in which the rest of the system keeps the invariant. *)
Definition round_ok (rd : round N) : Prop :=
  forall k, sockets_ok k -> sockets_ok (r_poll rd k) /\ sockets_ok (r_poll2 rd k) /\ sockets_ok (r_yield rd k).

Lemma wait_connected_ok rounds fd deadline k k' :
  Forall round_ok rounds -> sockets_ok k -> wait_connected rounds fd deadline k = Some k' -> sockets_ok k'.
Proof.
  intros Rs. revert k. induction Rs as [|rd rounds R Rs IH]; intros k Ok; cbn [wait_connected]; case_match; try done; try (by intros [= <-]).
  apply IH. apply R, R, Ok.
Qed.

Lemma ephemeral_ok fd k : sockets_ok k -> fd_ok fd -> sockets_ok (ephemeral fd k).
Proof.
  intros Ok Hf. unfold ephemeral. case_match; [|done]. pose proof (set_local_port_ok fd (g_next_ephemeral k) k Ok Hf (sx_port k Ok)) as Ok1.
  assert (Ok2 : sockets_ok (with_ephemeral (u16 (g_next_ephemeral k + 1)) (upd_sock fd (set_local_port (g_next_ephemeral k)) k))) by (destruct Ok1; constructor; try done; apply u16_range).
  case_match; [by apply with_udp_ok|done].
Qed.

Lemma connect_loopback_ok fd ip port if_ip k :
  sockets_ok k -> fd_ok fd -> 0 <= ip < 2 ^ 32 -> 0 <= port < 2 ^ 16 -> 0 <= if_ip < 2 ^ 32 -> sockets_ok (connect_loopback fd ip port if_ip k).2.
Proof.
  intros Ok Hf Hip Hp Hif. unfold connect_loopback, tcp_listen_find. destruct (listener_find_ok port (sk_tcp k) (sx_tcp k Ok)) as [->|(Hl & El & _)]; [done|].
  destruct (Z.ltb_spec (listener_find port (sk_tcp k)) 0); [done|]. pose proof (proj1 (sw_ports _ (sx_wf k Ok fd Hf))) as Hlp.
  destruct (tcp_conn_alloc_for_loopback _ _ _ _) as [s t] eqn:Es. destruct (loopback_server_ok none _ _ _ _ s t (sx_tcp k Ok) Hl El Hlp Hif Es) as [Ks Rs].
  destruct (tcp_conn_alloc_for_loopback_client _ _ _ _) as [c t'] eqn:Ec. destruct (loopback_client_ok none _ _ _ _ c t' (kp_ok _ _ _ Ks) Hp Hlp Hif Ec) as [Kc Rc].
  assert (K : keeps none (sk_tcp k) t') by (by eapply keeps_trans). destruct (Z.ltb_spec s 0) as [|Hs]; [by apply with_tcp_ok|]. destruct (Z.ltb_spec c 0) as [|Hc]; [by apply with_tcp_ok|]. cbn [orb].
  destruct Rs as [|(Ss & _ & _)]; [lia|]. destruct Rc as [|(Sc & Ecl & Hh)]; [lia|].
  pose proof (set_partner_ok none s c t' (kp_ok _ _ _ Kc) Ss Sc) as K1. set (t1 := upd_conn s _ t') in *.
  pose proof (set_partner_ok none c s t1 (kp_ok _ _ _ K1) Sc Ss) as K2. set (t2 := upd_conn c _ t1) in *.
  assert (K3 : keeps none (sk_tcp k) t2) by (eapply keeps_trans; [exact K|]; by eapply keeps_trans).
  assert (Ok2 : sockets_ok (with_tcp t2 k)) by (by apply with_tcp_ok). change (with_tcp t2 (with_tcp t' k)) with (with_tcp t2 k).
  apply upd_sock_own; [done|done| |].
  - destruct (sx_wf k Ok fd Hf) as [? [? ?] ? ?]. constructor; try done. by right.
  - cbn. intros _. split; [apply K2; [done|tauto|]; apply K1; [done|tauto|done]|]. intros fd' Hf' Hc' X.
    destruct (sx_hold (with_tcp t k) (with_tcp_ok t k Ok Ks) fd' Hf' Hc') as [O _]. change (sock fd' (with_tcp t k)) with (sock fd' k) in O. change (sock fd' (with_tcp t2 k)) with (sock fd' k) in X. rewrite X in O. cbn [sk_tcp with_tcp] in O. rewrite Ecl in O.
    unfold owned in O. intuition congruence.
Qed.

Definition state_of (x : started N) : sockets := match x with Done _ k => k | Waiting k => k end.

Lemma connect_start_ok fd ip port k :
  sockets_ok k -> 0 <= ip < 2 ^ 32 -> 0 <= port < 2 ^ 16 -> sockets_ok (state_of (connect_start fd ip port k)).
Proof.
  intros Ok Hip Hp. unfold connect_start. destruct (sock_get fd k) eqn:G; [|done]. apply sock_get_ok in G as [Hf _]. cbn [negb].
  destruct (netif_default _) as [iface|] eqn:Ei; [|done]. pose proof (ephemeral_ok fd k Ok Hf) as Ok1. set (k1 := ephemeral fd k) in *. pose proof (netif_ok _ _ Ei) as Hif. destruct (so_type (sock fd k1)).
  - done.
  - case_match; [pose proof (connect_loopback_ok fd ip port (if_ip iface) k1 Ok1 Hf Hip Hp Hif) as R; by destruct (connect_loopback _ _ _ _ _) as [r k2]|].
    destruct (tcp_connect _ _ _ _ _) as [c t] eqn:Ec. destruct (tcp_connect_ok none _ _ _ _ _ c t (sx_tcp k1 Ok1) Hif Hip Hp (proj1 (sw_ports _ (sx_wf k1 Ok1 fd Hf))) Ec) as [K R].
    pose proof (set_conn_ok fd c t k1 Ok1 Hf K R) as Ok2. case_match; [done|]. exact (set_remote_ok fd ip port _ Ok2 Hf Hip Hp).
  - by apply set_remote_ok.
Qed.

Lemma net_connect_ok rounds fd ip port k r k' :
  Forall round_ok rounds -> sockets_ok k -> 0 <= ip < 2 ^ 32 -> 0 <= port < 2 ^ 16 -> net_connect rounds fd ip port k = Some (r, k') -> sockets_ok k'.
Proof.
  intros Rs Ok Hip Hp. unfold net_connect. pose proof (connect_start_ok fd ip port k Ok Hip Hp) as Ok1.
  destruct (connect_start fd ip port k) as [r1 k1|k1]; [by intros [= <- <-]|].
  destruct (wait_connected _ _ _ _) as [k2|] eqn:Ew; [|done]. intros [= <- <-]. by eapply wait_connected_ok.
Qed.

(** [tcp_accept] gives a connection no socket has. *)
Lemma accept_ok fd k : sockets_ok k -> fd_ok fd ->
  exists c t, tcp_accept (so_tcp_conn (sock fd k)) (sk_tcp k) = Some (c, t) /\ sockets_ok (with_tcp t k) /\
    (0 <= c -> slot c /\ holdable c t /\ unowned c (with_tcp t k)).
Proof.
  intros Ok Hf. destruct (accept_keeps (so_tcp_conn (sock fd k)) (sk_tcp k) (sx_tcp k Ok)) as (c & t & E & K & R); [destruct (sw_conn _ (sx_wf k Ok fd Hf)); tauto|].
  exists c, t. split; [done|]. split; [by apply with_tcp_ok|]. intros Hc. destruct R as [[-> _]|(Sc & Q & Hh & _)]; [lia|].
  split; [done|]. split; [done|]. by apply (queued_unowned c k).
Qed.

Lemma wait_accept_ok rounds fd k c k' :
  Forall round_ok rounds -> sockets_ok k -> fd_ok fd -> wait_accept rounds fd k = Some (c, k') -> sockets_ok k' /\ slot c /\ holdable c (sk_tcp k') /\ unowned c k'.
Proof.
  intros Rs. revert k. induction Rs as [|rd rounds R Rs IH]; intros k Ok Hf; cbn [wait_accept]; [done|]. destruct (R k Ok) as (Ok1 & _). set (k1 := r_poll rd k) in *.
  destruct (accept_ok fd k1 Ok1 Hf) as (i & t & -> & Ok2 & Own). destruct (Z.leb_spec 0 i) as [Hi|].
  - intros [= <- <-]. destruct (Own Hi) as (? & ? & ?). done.
  - apply IH; [by apply R|done].
Qed.

Lemma accept_socket_ok fd c k1 r k' :
  sockets_ok k1 -> fd_ok fd -> slot c -> holdable c (sk_tcp k1) -> unowned c k1 -> accept_socket fd c k1 = (r, k') ->
  sockets_ok k' /\ (r = -1 \/ (fd_ok r /\ has_conn (sock r k') /\ forall fd', fd_ok fd' -> fd' <> r -> has_conn (sock fd' k') -> so_tcp_conn (sock fd' k') <> so_tcp_conn (sock r k'))).
Proof.
  intros Ok1 Hf Sc Hh Un. unfold accept_socket. destruct (net_socket SOCK_TCP k1) as [nfd k2] eqn:En.
  destruct (net_socket_ok SOCK_TCP k1 nfd k2 Ok1 En) as (Ok2 & Et & R). destruct (Z.ltb_spec nfd 0) as [Hneg|Hpos].
  - intros [= <- <-]. split; [|by left]. assert (nfd = -1) as -> by (destruct R as [?|(Hn & _)]; [done|unfold fd_ok in Hn; lia]).
    assert (k2 = k1) as -> by (unfold net_socket in En; case_match; [by injection En|]; injection En as ? _; lia).
    pose proof (tcp_close_ok c (sk_tcp k1) (sx_tcp k1 Ok1) (or_introl Sc) (proj2 Hh)) as [Kok Kh]. destruct Ok1 as [L T P W Ho Ap]. constructor; try done.
    intros fd' Hf' Hc'. apply Kh; [|intros X; by apply (Un fd' Hf' Hc')|by apply Ho]. destruct (sw_conn _ (W fd' Hf')) as [E|?]; [by destruct Hc' as (_ & _ & ?)|done].
  - intros [= <- <-]. destruct R as [|(Hn & Ea & Ecn & Same)]; [lia|]. assert (Un2 : unowned c k2).
    { intros fd' Hf' Hc' X. destruct (decide (fd' = nfd)) as [->|Hne]; [rewrite Ecn in X; unfold slot in Sc; lia|]. rewrite Same in Hc', X by done. by apply (Un fd' Hf' Hc'). }
    assert (Hst : so_active (sock nfd k2) = true /\ so_type (sock nfd k2) = SOCK_TCP).
    { unfold net_socket in En. case_match; [injection En as <- _; lia|]. injection En as <- <-. rewrite sock_upd by (done || apply Ok1). by rewrite decide_True. }
    match goal with |- sockets_ok (upd_sock nfd ?g k2) /\ _ => set (f := g) end.
    assert (Ok3 : sockets_ok (upd_sock nfd f k2)).
    { apply upd_sock_own; [done|done| |intros _; by rewrite Et]. destruct (sx_wf k2 Ok2 nfd Hn) as [? [? ?] ? ?]. destruct (tk_conns _ (sx_tcp k2 Ok2) c Sc) as [_ [? ?] [? ?] _ _ _ _].
      constructor; try done; [by right|]. split; [|done]. apply (sx_wf k2 Ok2 fd Hf). }
    split; [done|]. right. split; [done|]. assert (Hc : has_conn (sock nfd (upd_sock nfd f k2))).
    { rewrite sock_upd by (done || apply Ok2). rewrite decide_True by done. destruct Hst. split_and!; [done|done|]. cbn. unfold slot in Sc. lia. }
    split; [done|]. intros fd' Hf' Hne Hc' X. apply Hne. by apply (sx_apart _ Ok3).
Qed.

Lemma can_accept_fd fd (k : sockets) : can_accept fd k = true -> fd_ok fd.
Proof. unfold can_accept. destruct (sock_get fd k) eqn:G; [|done]. by apply sock_get_ok in G as [Hf _]. Qed.

Lemma net_accept_ok rounds fd k r k' :
  Forall round_ok rounds -> sockets_ok k -> net_accept rounds fd k = Some (r, k') -> sockets_ok k'.
Proof.
  intros Rs Ok. unfold net_accept. destruct (can_accept fd k) eqn:G; [|by intros [= <- <-]]. apply can_accept_fd in G. cbn [negb].
  destruct (wait_accept _ _ _) as [[c k1]|] eqn:Ew; [|done]. destruct (wait_accept_ok rounds fd k c k1 Rs Ok G Ew) as (Ok1 & Sc & Hh & Un).
  intros [= E]. by destruct (accept_socket_ok fd c k1 r k' Ok1 G Sc Hh Un E).
Qed.

Lemma recv_tcp_ok fd len k : sockets_ok k -> fd_ok fd -> sockets_ok (recv_tcp fd len k).2.
Proof.
  intros Ok Hf. unfold recv_tcp. pose proof (tcp_recv_ok none (so_tcp_conn (sock fd k)) len (sk_tcp k) (sx_tcp k Ok)) as K.
  destruct (tcp_recv _ _ _) as [[n r] t]. apply with_tcp_ok; [done|]. apply K. destruct (sw_conn _ (sx_wf k Ok fd Hf)); tauto.
Qed.

Lemma wait_recv_ok rounds fd len deadline n r k n' r' k' :
  Forall round_ok rounds -> sockets_ok k -> fd_ok fd -> wait_recv rounds fd len deadline n r k = Some (n', r', k') -> sockets_ok k'.
Proof.
  intros Rs. revert n r k. induction Rs as [|rd rounds R Rs IH]; intros n r k Ok Hf; cbn [wait_recv]; (case_match; [|by intros [= <- <- <-]]); [done|].
  pose proof (recv_tcp_ok fd len _ (proj1 (R k Ok)) Hf) as R1. destruct (recv_tcp fd len (r_poll rd k)) as [[n1 r1] k1]. cbn [snd] in R1. destruct (R k1 R1) as (_ & P2 & Y2).
  case_match; [by intros [= <- <- <-]|]. case_match.
  - intros [= E]. pose proof (recv_tcp_ok fd len _ P2 Hf) as R2. by rewrite E in R2.
  - by apply IH.
Qed.

Lemma net_recv_ok rounds fd len k n r k' : Forall round_ok rounds -> sockets_ok k -> net_recv rounds fd len k = Some (n, r, k') -> sockets_ok k'.
Proof.
  intros Rs Ok. unfold net_recv. destruct (sock_get fd k) eqn:G; [|by intros [= <- <- <-]]. apply sock_get_ok in G as [Hf _]. cbn [negb]. destruct (so_type _).
  - by intros [= <- <- <-].
  - case_match; [by intros [= <- <- <-]|]. by apply wait_recv_ok.
  - intros [= E]. pose proof (udp_recv_ok fd len k Ok Hf) as R. by rewrite E in R.
Qed.

(** ** The rest of the system *)

(** What happens in one go: a socket call that does not wait, the start of
    [net_connect], one pass of the loops of [net_accept] and [net_recv] by some
    process, a datagram or segment that comes in, an ARP answer, and a change of the
    layers below TCP (the clock, the ARP cache, the packet buffers) or of the UDP
    bindings of other users. *)
Inductive event :=
| Socket (ty : sock_type_t) | Bind (fd port : Z) | Connecting (fd ip port : Z) | Listen (fd : Z) | Accepting (fd : Z)
| Send (fd : Z) (data : list Z) | Receiving (fd len : Z) | Close (fd : Z)
| Datagram (src_ip src_port dst_port : Z) (data : list Z)
| Segment (iface : netif) (buf : netbuf) (src dst : Z) | Resolved (iface : netif) (ip : Z)
| Below (n : N) | Bindings (g : list udp_binding).

Definition event_ok (e : event) : Prop :=
  match e with
  | Bind _ port => 0 <= port < 2 ^ 16
  | Connecting _ ip port => 0 <= ip < 2 ^ 32 /\ 0 <= port < 2 ^ 16
  | Segment _ _ src dst => 0 <= src < 2 ^ 32 /\ 0 <= dst < 2 ^ 32
  | _ => True
  end.

(** The pass of [net_accept] on [fd]. *)
Definition accept_pass (fd : Z) (k : sockets) : sockets :=
  if negb (can_accept fd k) then k else
  match tcp_accept (so_tcp_conn (sock fd k)) (sk_tcp k) with
  | None => k
  | Some (accepted, t) => if 0 <=? accepted then (accept_socket fd accepted (with_tcp t k)).2 else with_tcp t k
  end.

(** The pass of [net_recv] on [fd]. *)
Definition recv_pass (fd len : Z) (k : sockets) : sockets :=
  if negb (sock_get fd k) then k else
  match so_type (sock fd k) with
  | SOCK_TCP => (recv_tcp fd len k).2
  | SOCK_UDP => (udp_recv fd len k).2
  | SOCK_NONE => k
  end.

Definition run_event (e : event) (k : sockets) : sockets :=
  match e with
  | Socket ty => (net_socket ty k).2
  | Bind fd port => (net_bind fd port k).2
  | Connecting fd ip port => state_of (connect_start fd ip port k)
  | Listen fd => (net_listen fd k).2
  | Accepting fd => accept_pass fd k
  | Send fd data => (net_send fd data k).2
  | Receiving fd len => recv_pass fd len k
  | Close fd => net_socket_close fd k
  | Datagram src sp dp data => socket_udp_recv_cb src sp dp data k
  | Segment iface buf src dst => with_tcp (tcp_input iface buf src dst (sk_tcp k)) k
  | Resolved iface ip => with_tcp (tcp_flush_pending_synacks iface ip (sk_tcp k)) k
  | Below n => with_tcp (with_net n (sk_tcp k)) k
  | Bindings g => with_udp g k
  end.

Definition run_events (es : list event) (k : sockets) : sockets := foldl (fun k e => run_event e k) k es.

(** The events of one pass of a loop: in the two calls of [net_poll] and in [sched_yield]. *)
Record pass := mk_pass { p_poll : list event; p_poll2 : list event; p_yield : list event }.

Definition pass_ok (p : pass) : Prop := Forall event_ok (p_poll p) /\ Forall event_ok (p_poll2 p) /\ Forall event_ok (p_yield p).

Definition round_of (p : pass) : round N := mk_round (run_events (p_poll p)) (run_events (p_poll2 p)) (run_events (p_yield p)).

(** An event, or a call that waits with what happens during its passes. *)
Inductive call :=
| Step (e : event) | Connect (ps : list pass) (fd ip port : Z) | Accept (ps : list pass) (fd : Z) | Recv (ps : list pass) (fd len : Z).

Definition call_ok (c : call) : Prop :=
  match c with
  | Step e => event_ok e
  | Connect ps _ ip port => Forall pass_ok ps /\ 0 <= ip < 2 ^ 32 /\ 0 <= port < 2 ^ 16
  | Accept ps _ | Recv ps _ _ => Forall pass_ok ps
  end.

(** The state after a call; [None]: it still waits. *)
Definition run (c : call) (k : sockets) : option sockets :=
  match c with
  | Step e => Some (run_event e k)
  | Connect ps fd ip port => snd <$> net_connect (round_of <$> ps) fd ip port k
  | Accept ps fd => snd <$> net_accept (round_of <$> ps) fd k
  | Recv ps fd len => snd <$> net_recv (round_of <$> ps) fd len k
  end.

Fixpoint runs (cs : list call) (k : sockets) : option sockets :=
  match cs with
  | [] => Some k
  | c :: cs' => k' ← run c k; runs cs' k'
  end.

Lemma accept_pass_ok fd k : sockets_ok k -> sockets_ok (accept_pass fd k).
Proof.
  intros Ok. unfold accept_pass. destruct (can_accept fd k) eqn:G; [|done]. apply can_accept_fd in G. cbn [negb].
  destruct (accept_ok fd k Ok G) as (c & t & -> & Ok1 & Own). destruct (Z.leb_spec 0 c) as [Hc|]; [|done]. destruct (Own Hc) as (Sc & Hh & Un).
  destruct (accept_socket fd c (with_tcp t k)) as [r k'] eqn:E. by destruct (accept_socket_ok fd c _ r k' Ok1 G Sc Hh Un E).
Qed.

Lemma recv_pass_ok fd len k : sockets_ok k -> sockets_ok (recv_pass fd len k).
Proof.
  intros Ok. unfold recv_pass. destruct (sock_get fd k) eqn:G; [|done]. apply sock_get_ok in G as [Hf _]. cbn [negb].
  destruct (so_type _); [done|by apply recv_tcp_ok|by apply udp_recv_ok].
Qed.

Lemma below_ok n k : sockets_ok k -> sockets_ok (with_tcp (with_net n (sk_tcp k)) k).
Proof. intros Ok. apply with_tcp_ok; [done|]. apply keeps_same; [done|apply (sx_tcp k Ok)|apply (sx_tcp k Ok)|apply Ok]. Qed.

Lemma run_event_ok e k : sockets_ok k -> event_ok e -> sockets_ok (run_event e k).
Proof.
  intros Ok He. destruct e as [ty|fd port|fd ip port|fd|fd|fd data|fd len|fd|src sp dp data|iface buf src dst|iface ip|n|g]; cbn [run_event].
  - destruct (net_socket ty k) as [i k'] eqn:E. by destruct (net_socket_ok ty k i k' Ok E).
  - by apply net_bind_ok.
  - destruct He. by apply connect_start_ok.
  - by apply net_listen_ok.
  - by apply accept_pass_ok.
  - by apply net_send_ok.
  - by apply recv_pass_ok.
  - by apply net_socket_close_ok.
  - by apply datagram_ok.
  - destruct He. apply with_tcp_ok; [done|]. by apply tcp_input_ok; [apply Ok|..].
  - apply with_tcp_ok; [done|]. apply flush_ok, Ok.
  - by apply below_ok.
  - by apply with_udp_ok.
Qed.

Lemma run_events_ok es k : sockets_ok k -> Forall event_ok es -> sockets_ok (run_events es k).
Proof.
  intros Ok F. revert k Ok. induction F as [|e es He F IH]; intros k Ok; [done|]. apply IH. by apply run_event_ok.
Qed.

Lemma rounds_ok ps : Forall pass_ok ps -> Forall round_ok (round_of <$> ps).
Proof. intros F. apply Forall_fmap. eapply Forall_impl; [exact F|]. intros p (? & ? & ?) k Ok. split_and!; by apply run_events_ok. Qed.

Lemma run_ok c k k' : sockets_ok k -> call_ok c -> run c k = Some k' -> sockets_ok k'.
Proof.
  intros Ok Hc. destruct c as [e|ps fd ip port|ps fd|ps fd len]; cbn [run].
  - intros [= <-]. by apply run_event_ok.
  - destruct Hc as (Hp & ? & ?). destruct (net_connect _ _ _ _ _) as [[r k1]|] eqn:E; [|done]. intros [= <-]. eapply net_connect_ok; [by apply rounds_ok|done..].
  - destruct (net_accept _ _ _) as [[r k1]|] eqn:E; [|done]. intros [= <-]. eapply net_accept_ok; [by apply rounds_ok|done..].
  - destruct (net_recv _ _ _ _) as [[[n r] k1]|] eqn:E; [|done]. intros [= <-]. eapply net_recv_ok; [by apply rounds_ok|done..].
Qed.

Lemma runs_ok cs k k' : sockets_ok k -> Forall call_ok cs -> runs cs k = Some k' -> sockets_ok k'.
Proof.
  revert k. induction cs as [|c cs IH]; intros k Ok F; cbn [runs]; [by intros [= <-]|]. apply Forall_cons in F as [Fc F].
  destruct (run c k) as [k1|] eqn:E; cbn; [|done]. apply IH; [by eapply run_ok|done].
Qed.

Lemma init_ok k rand :
  0 <= rand < 2 ^ 32 -> 0 < s_next_port (sk_tcp k) < 2 ^ 16 -> 0 <= g_next_ephemeral k < 2 ^ 16 -> sockets_ok (net_socket_init (with_tcp (tcp_init rand (sk_tcp k)) k)).
Proof.
  intros Hr Hp He. assert (E : forall fd, fd_ok fd -> sock fd (net_socket_init (with_tcp (tcp_init rand (sk_tcp k)) k)) = sock_zero).
  { intros fd Hf. unfold sock, net_socket_init. cbn [g_sockets with_sockets]. unfold zget. apply lookup_total_replicate_2. unfold fd_ok in Hf. lia. }
  constructor; [exact (zlen_replicate MAX_SOCKETS sock_zero ltac:(done))|by apply tcp_init_ok|done| | |].
  - intros fd Hf. rewrite E by done. constructor; [by left|done|done|]. split; [|done]. exact (zlen_replicate UDP_RX_SIZE 0 ltac:(done)).
  - intros fd Hf. rewrite E by done. by intros (? & _).
  - intros fd fd' Hf Hf'. rewrite E by done. by intros (? & _).
Qed.

(** ** Properties *)

(** C32: sockets and connections.  From start-up, after any sequence of socket calls
    by any processes, segments, datagrams, ARP answers and changes below TCP, where
    during each pass of a call that waits any further such events happen: the
    connection of an active TCP socket is open (never closed or on its way out) and
    in no accept queue, so [conn_alloc] cannot recycle it and [tcp_accept] cannot
    give it away; and two sockets never have the same connection.  Ports, addresses
    and the interface's address are within their widths. *)
Theorem sockets_own_connections rand k0 cs k :
  0 <= rand < 2 ^ 32 -> 0 < s_next_port (sk_tcp k0) < 2 ^ 16 -> 0 <= g_next_ephemeral k0 < 2 ^ 16 -> Forall call_ok cs ->
  runs cs (net_socket_init (with_tcp (tcp_init rand (sk_tcp k0)) k0)) = Some k ->
  tcp_ok (sk_tcp k) /\
  (forall fd, fd_ok fd -> has_conn (sock fd k) -> owned (c_state (conn (so_tcp_conn (sock fd k)) (sk_tcp k))) /\ ~ queued (so_tcp_conn (sock fd k)) (sk_tcp k)) /\
  (forall fd fd', fd_ok fd -> fd_ok fd' -> has_conn (sock fd k) -> has_conn (sock fd' k) -> so_tcp_conn (sock fd k) = so_tcp_conn (sock fd' k) -> fd = fd').
Proof.
  intros Hr Hp He F R. destruct (runs_ok cs _ k (init_ok k0 rand Hr Hp He) F R) as [_ T _ _ Hh Ap]. split; [done|]. split; [exact Hh|exact Ap].
Qed.

End Inv.
Arguments event : clear implicits.
Arguments pass : clear implicits.
Arguments call : clear implicits.

(** ** When the waits end *)

Section Return.
Context {N : Type} `{IpLayer N, UdpLayer N}.
#[local] Abbreviation sockets := (sockets N).
#[local] Abbreviation round := (round N).

(** The state after a pass in which the call keeps waiting. *)
Definition connect_turn (k : sockets) (rd : round) : sockets := r_yield rd (r_poll rd k).
Definition recv_turn (fd len : Z) (k : sockets) (rd : round) : sockets := r_yield rd (recv_tcp fd len (r_poll rd k)).2.

Definition connected (fd : Z) (k : sockets) : bool := tcp_is_connected (so_tcp_conn (sock fd k)) (sk_tcp k).

(** The other end has closed, or the connection is gone. *)
Definition closing (fd : Z) (k : sockets) : Prop :=
  let st := c_state (conn (so_tcp_conn (sock fd k)) (sk_tcp k)) in st = TCP_CLOSED \/ st = TCP_CLOSE_WAIT.

Lemma wait_connected_due pre post fd d k :
  d <= uptime (foldl connect_turn k pre) -> is_Some (wait_connected (pre ++ post) fd d k).
Proof.
  revert k. induction pre as [|rd pre IH]; intros k Hd; cbn [app wait_connected foldl] in *.
  - destruct post; cbn [wait_connected]; (destruct (Z.ltb_spec (uptime k) d); [lia|]); rewrite andb_false_r; by eexists.
  - case_match; [by apply IH|by eexists].
Qed.

Lemma wait_connected_result rounds fd d k k' :
  wait_connected rounds fd d k = Some k' -> connected fd k' = true \/ (connected fd k' = false /\ d <= uptime k').
Proof.
  unfold connected. revert k. induction rounds as [|rd rounds IH]; intros k; cbn [wait_connected];
    destruct (tcp_is_connected (so_tcp_conn (sock fd k)) (sk_tcp k)) eqn:E; cbn [negb andb]; try (intros [= <-]; by left);
    destruct (Z.ltb_spec (uptime k) d); try done; try (intros [= <-]; by right). apply IH.
Qed.

Lemma wait_recv_due pre post fd len d n r k :
  d <= uptime (foldl (recv_turn fd len) k pre) -> is_Some (wait_recv (pre ++ post) fd len d n r k).
Proof.
  revert n r k. induction pre as [|rd pre IH]; intros n r k Hd; cbn [app wait_recv foldl] in *.
  - destruct post; cbn [wait_recv]; (destruct (Z.ltb_spec (uptime k) d); [lia|]); rewrite andb_false_r; by eexists.
  - case_match; [|by eexists]. unfold recv_turn at 2 in Hd. destruct (recv_tcp fd len (r_poll rd k)) as [[n1 r1] k1]. cbn [snd] in Hd.
    case_match; [by eexists|]. case_match; [by eexists|]. by apply IH.
Qed.

(** [net_recv] returns 0 only at the deadline or on a connection that was closing
    in one of its passes. *)
Lemma wait_recv_result rounds fd len d n r k l k' :
  wait_recv rounds fd len d n r k = Some (0, l, k') ->
  d <= uptime k' \/ exists pre rd post, rounds = pre ++ rd :: post /\
    closing fd (recv_tcp fd len (r_poll rd (foldl (recv_turn fd len) k pre))).2.
Proof.
  revert n r k. induction rounds as [|rd rounds IH]; intros n r k; cbn [wait_recv].
  - destruct (Z.eqb_spec n 0); cbn [andb]; [|intros [= ? _ _]; lia]. destruct (Z.ltb_spec (uptime k) d); [done|]. intros [= _ _ <-]. by left.
  - destruct (Z.eqb_spec n 0); cbn [andb]; [|intros [= ? _ _]; lia]. destruct (Z.ltb_spec (uptime k) d); [|intros [= _ _ <-]; by left].
    destruct (recv_tcp fd len (r_poll rd k)) as [[n1 r1] k1] eqn:E. destruct (Z.ltb_spec 0 n1); [intros [= ? _ _]; lia|].
    destruct (_ || _) eqn:Ec.
    + intros _. right. exists [], rd, rounds. split; [done|]. cbn [foldl]. rewrite E. unfold closing. cbn [snd]. cbv zeta.
      apply orb_prop in Ec as [Ec|Ec]; apply bool_decide_eq_true in Ec; [by left|by right].
    + intros Hw. destruct (IH _ _ _ Hw) as [|(pre & rd' & post & -> & Hc)]; [by left|right]. exists (rd :: pre), rd', post. split; [done|].
      cbn [foldl]. unfold recv_turn at 2. rewrite E. exact Hc.
Qed.


End Return.

(** ** Witnesses *)

(** The UDP model below the sockets. *)
Definition udp_layer {H : Type} `{Allocator H} (blocked : Z -> bool) (upper : Z -> Z -> Z -> netbuf -> ipst H -> option (ipst H)) (tx : list Z -> bool) : UdpLayer (@ipnet H) := {|
  ul_send iface dst sport dport data n :=
    match udp_send blocked upper tx iface dst sport dport data (in_ip n) with
    | Some (ok, s) => (ok, with_ip s n)
    | None => (false, n)
    end
|}.

Module SocketDemo.

(** Split a [Forall] over an explicit list. *)
#[local] Ltac forall_cons :=
  repeat lazymatch goal with |- Forall _ [] => constructor | |- Forall _ (_ :: _) => apply List.Forall_cons end.

#[local] Instance no_heap : Allocator unit := {| al_alloc _ h := (0, h); al_free _ h := h |}.
#[local] Instance demo_net : IpLayer (@ipnet unit) := ip_layer (fun _ => false) (fun _ _ _ _ s => Some s) (fun _ => true) [TcpDemo.ifA].
#[local] Instance demo_udp : UdpLayer (@ipnet unit) := udp_layer (fun _ => false) (fun _ _ _ _ s => Some s) (fun _ => true).

Definition boot : sockets (@ipnet unit) := mk_sks [] 49152 TcpDemo.A0 udp_init.

(** A server and a client on one host. *)
Definition calls : list (call (@ipnet unit)) :=
  [Step (Socket SOCK_TCP); Step (Bind 0 80); Step (Listen 0); Step (Socket SOCK_TCP);
   Accept [mk_pass [] [] [Connecting 1 (IP4 127 0 0 1) 80; Send 1 [72; 105]]; mk_pass [Resolved TcpDemo.ifA TcpDemo.ipB] [] []] 0].

Definition booted : sockets (@ipnet unit) := net_socket_init (with_tcp (tcp_init 7 (sk_tcp boot)) boot).

Definition after : sockets (@ipnet unit) := default boot (runs calls booted).

Lemma after_eq : runs calls booted = Some after.
Proof.
  unfold after. assert (E : match runs calls booted with Some _ => true | None => false end = true) by (vm_compute; reflexivity).
  destruct (runs calls booted) as [k|]; [reflexivity|discriminate].
Qed.

(** The server waits in [net_accept]; the client connects and sends meanwhile.
    Sockets 0, 1 and 2 then have the listener and the two ends. *)
Lemma sockets_own_connections_witness :
  ((fun fd => so_tcp_conn (sock fd after)) <$> [0; 1; 2]) = [0; 2; 1] /\ tcp_ok (sk_tcp after) /\
  (has_conn (sock 2 after) -> owned (c_state (conn (so_tcp_conn (sock 2 after)) (sk_tcp after))) /\ ~ queued (so_tcp_conn (sock 2 after)) (sk_tcp after)).
Proof.
  split; [vm_compute; reflexivity|].
  destruct (sockets_own_connections (N := @ipnet unit)) with (rand := 7) (k0 := boot) (cs := calls) (k := after) as (T & O & _).
  - intros n iface E. injection E as <-. vm_compute. split; [discriminate|reflexivity].
  - vm_compute. split; [discriminate|reflexivity].
  - vm_compute. split; reflexivity.
  - vm_compute. split; [discriminate|reflexivity].
  - unfold calls. forall_cons. all: cbn [call_ok event_ok]; try exact I.
    + vm_compute. split; [discriminate|reflexivity].
    + forall_cons; unfold pass_ok; cbn [p_poll p_poll2 p_yield]; split_and!; forall_cons; cbn [event_ok]; try exact I.
      vm_compute. repeat split; discriminate || reflexivity.
  - exact after_eq.
  - split; [exact T|]. apply O. vm_compute. split; [discriminate|reflexivity].
Defined.

(** A network on which nothing arrives, with a clock. *)
#[local] Instance silent : IpLayer nat := {|
  il_alloc n := (-1, n); il_free _ n := n; il_output _ _ _ n := (false, n); il_resolve _ _ n := (false, n);
  il_honeypot _ n := n; il_uptime n := Z.of_nat n; il_netifs _ := [TcpDemo.ifA]
|}.
#[local] Instance silent_udp : UdpLayer nat := {| ul_send _ _ _ _ _ n := (false, n) |}.

Definition quiet : sockets nat := (net_socket SOCK_TCP (net_socket_init (mk_sks [] 49152 (tcp_init 7 (mk_tcp [] 0 49152 O [])) udp_init))).2.

(** Two passes in which no time goes by, then one of 600 ticks. *)
Definition passes : list (round nat) :=
  round_of <$> [mk_pass [] [] []; mk_pass [] [] []; mk_pass [] [] [Below 600%nat]].


End SocketDemo.
