(* ===== verification/Fim.v ===== *)
(** * File integrity monitoring (kernel/cnsl/fim.c) and C strings

    A C string is the list of its bytes before the terminating zero.  The
    monitor compares a path with a fixed table and reports a match on the
    serial console; a report is modelled as an element of a log. *)

From S2P Require Import Prelude.
From Stdlib Require Import String Ascii.

(** ** C strings *)

Definition bytes_of (s : string) : list Z := (fun c => Z.of_nat (nat_of_ascii c)) <$> list_ascii_of_string s.

(** [s[i]] of a C string: the terminating zero is readable. *)
Definition char_at (s : list Z) (i : nat) : Z := default 0 (s !! i).

(** [strcmp(a, b) == 0]: the loop stops at the first difference or at the end. *)
Fixpoint strcmp_eq (a b : list Z) : bool :=
  match a, b with
  | [], [] => true
  | x :: a', y :: b' => (x =? y) && strcmp_eq a' b'
  | _, _ => false
  end.

(** [k_strncmp(a, b, n)] with the early return at the end of [a]. *)
Fixpoint k_strncmp (a b : list Z) (n : nat) : Z :=
  match n with
  | O => 0
  | S n' =>
      let x := char_at a 0 in let y := char_at b 0 in
      if negb (x =? y) then x - y else if x =? 0 then 0 else k_strncmp (tail a) (tail b) n'
  end.

(** ** The table *)

Definition FIM_SEV_MEDIUM : Z := 0.
Definition FIM_SEV_HIGH : Z := 1.
Definition FIM_SEV_CRITICAL : Z := 2.

Inductive fim_event := FIM_EVENT_WRITE | FIM_EVENT_CREATE | FIM_EVENT_DELETE.

(** The fields of [fim_watch_t]; the reason is only printed. *)
Record fim_watch := mk_watch { w_path : list Z; w_is_prefix : bool; w_severity : Z }.

Definition g_watched : list fim_watch :=
  [mk_watch (bytes_of "/etc/passwd") false FIM_SEV_CRITICAL; mk_watch (bytes_of "/etc/shadow") false FIM_SEV_CRITICAL;
   mk_watch (bytes_of "/etc/sudoers") false FIM_SEV_CRITICAL; mk_watch (bytes_of "/etc/ssh/sshd_config") false FIM_SEV_CRITICAL;
   mk_watch (bytes_of "/root/.ssh/") true FIM_SEV_CRITICAL; mk_watch (bytes_of "/etc/ld.so.preload") false FIM_SEV_CRITICAL;
   mk_watch (bytes_of "/etc/crontab") false FIM_SEV_HIGH; mk_watch (bytes_of "/etc/cron.d/") true FIM_SEV_HIGH;
   mk_watch (bytes_of "/etc/hosts") false FIM_SEV_HIGH; mk_watch (bytes_of "/bin/bash") false FIM_SEV_HIGH;
   mk_watch (bytes_of "/sbin/init") false FIM_SEV_HIGH; mk_watch (bytes_of "/etc/fstab") false FIM_SEV_MEDIUM;
   mk_watch (bytes_of "/etc/resolv.conf") false FIM_SEV_MEDIUM].

(** The first entry that matches. *)
Definition watch_hit (path : list Z) (w : fim_watch) : bool :=
  if w_is_prefix w then k_strncmp path (w_path w) (Datatypes.length (w_path w)) =? 0 else strcmp_eq path (w_path w).

Definition fim_match (path : list Z) : option fim_watch := List.find (watch_hit path) g_watched.

(** One line on the console. *)
Record fim_report := mk_report { rp_path : list Z; rp_event : fim_event; rp_critical : bool }.

Definition fim_hook (event : fim_event) (path : list Z) (log : list fim_report) : bool * list fim_report :=
  match fim_match path with
  | None => (false, log)
  | Some w => let crit := w_severity w =? FIM_SEV_CRITICAL in (crit, log ++ [mk_report path event crit])
  end.

Definition fim_on_write : list Z -> list fim_report -> bool * list fim_report := fim_hook FIM_EVENT_WRITE.
Definition fim_on_create : list Z -> list fim_report -> bool * list fim_report := fim_hook FIM_EVENT_CREATE.

(** ** Lemmas *)

Lemma strcmp_eq_spec a b : strcmp_eq a b = true <-> a = b.
Proof.
  revert b. induction a as [|x a IH]; intros [|y b]; cbn; [done|done|done|].
  rewrite andb_true_iff, Z.eqb_eq, IH. split; [intros [-> ->]; done|by intros [= -> ->]].
Qed.

(** On strings without zero bytes [k_strncmp] is zero exactly for a prefix. *)
Lemma k_strncmp_prefix p a :
  Forall (fun x => x <> 0) p -> k_strncmp a p (Datatypes.length p) = 0 <-> p `prefix_of` a.
Proof.
  intros Hp. revert a. induction Hp as [|x p Hx Hp IH]; intros a; cbn [Datatypes.length k_strncmp].
  - split; [|done]. intros _. apply prefix_nil.
  - unfold char_at. cbn [lookup list_lookup default from_option Datatypes.id tail]. destruct a as [|y a]; cbn [lookup list_lookup default from_option Datatypes.id tail].
    + destruct (Z.eqb_spec 0 x); [by subst|]. cbn [negb]. split; [intros; exfalso; lia|]. intros Hc. by apply prefix_nil_not in Hc.
    + destruct (Z.eqb_spec y x) as [->|Hne]; cbn [negb].
      * destruct (Z.eqb_spec x 0); [done|]. rewrite IH. split; [apply prefix_cons|apply prefix_cons_inv_2].
      * split; [intros; exfalso; apply Hne; lia|]. intros Hc. by apply prefix_cons_inv_1 in Hc.
Qed.

(** What the table watches. *)
Lemma fim_match_spec path :
  is_Some (fim_match path) <->
  exists w, w ∈ g_watched /\ (if w_is_prefix w then w_path w `prefix_of` path else path = w_path w).
Proof.
  assert (Nz : forall w, w ∈ g_watched -> Forall (fun x => x <> 0) (w_path w)).
  { intros w Hw. unfold g_watched in Hw. rewrite !elem_of_cons, elem_of_nil in Hw.
    repeat (destruct Hw as [->|Hw]; [vm_compute; repeat constructor; discriminate|]). done. }
  assert (Hit : forall w, w ∈ g_watched -> watch_hit path w = true <-> (if w_is_prefix w then w_path w `prefix_of` path else path = w_path w)).
  { intros w Hw. unfold watch_hit. destruct (w_is_prefix w); [rewrite Z.eqb_eq; by apply k_strncmp_prefix, Nz|apply strcmp_eq_spec]. }
  unfold fim_match. split.
  - intros [w E]. apply List.find_some in E as [Hin E]. apply list_elem_of_In in Hin. exists w. split; [done|]. by apply Hit.
  - intros (w & Hin & E). apply Hit in E; [|done]. destruct (List.find (watch_hit path) g_watched) eqn:F; [by eexists|].
    pose proof (List.find_none _ _ F w ltac:(by apply list_elem_of_In)). congruence.
Qed.

(** Every watched path is absolute. *)
Lemma fim_match_absolute path : is_Some (fim_match path) -> exists rest, path = 47 :: rest /\ rest <> [].
Proof.
  rewrite fim_match_spec. intros (w & Hw & E). unfold g_watched in Hw. rewrite !elem_of_cons, elem_of_nil in Hw.
  assert (Hp : exists r, w_path w = 47 :: r /\ r <> []).
  { repeat (destruct Hw as [->|Hw]; [vm_compute; by eexists|]). done. }
  destruct Hp as (r & Er & Hr). rewrite Er in E. destruct (w_is_prefix w).
  - destruct E as [k ->]. exists (r ++ k). split; [done|]. by destruct r.
  - subst. by exists r.
Qed.
