(* ===== verification/Vfs.v ===== *)
(** * Virtual file system (kernel/fs/vfs/vfs.c, vfs.h)

    Mount table, path resolution with symbolic links, the global table of open
    files and the permission check.  A [vfs_node_t *] is an address; the nodes
    that are allocated (each with its [fs_data], which is allocated and freed
    with it) form a finite map, so that a dangling pointer is visible.  Code that
    dereferences or frees a node that is not allocated has the result [None].
    A file system is a table of operations on that map and on its own state;
    what the VFS relies on is the class [FileSystem]. *)

From S2P Require Import Prelude Fim.

(** ** Code that may go wrong *)

(** [None] is an access to memory that is not allocated. *)
Definition X (S A : Type) : Type := S -> option (A * S).

Definition xret {S A} (a : A) : X S A := fun s => Some (a, s).
Definition xbug {S A} : X S A := fun _ => None.
Definition xbind {S A B} (m : X S A) (k : A -> X S B) : X S B :=
  fun s => match m s with Some (a, s') => k a s' | None => None end.

(** The current state, and a change of it. *)
Definition xget {S} : X S S := fun s => Some (s, s).
Definition xmod {S} (f : S -> S) : X S unit := fun s => Some (tt, f s).

Notation "x <~ m ;; k" := (xbind m (fun x => k))
  (at level 100, m at next level, k at level 200, right associativity) : exk_scope.
Notation "m ~;; k" := (xbind m (fun _ => k)) (at level 100, k at level 200, right associativity) : exk_scope.

(** ** Data *)

Definition VFS_NAME_MAX : Z := 255.
Definition VFS_MAX_FDS : Z := 64.
Definition MAX_MOUNTS : Z := 16.
Definition VFS_SYMLINK_MAX_DEPTH : Z := 8.
Definition SLASH : Z := 47.
Definition UID_ROOT : Z := 0.
Definition GID_ROOT : Z := 0.

Inductive vfs_node_type := VFS_FILE | VFS_DIRECTORY | VFS_DEVICE | VFS_SYMLINK.
#[export] Instance vfs_node_type_eq_dec : EqDecision vfs_node_type.
Proof. solve_decision. Defined.

Record vfs_node := mk_node {
  nd_name : list Z;
  nd_type : vfs_node_type;
  nd_size : Z;
  nd_inode : Z;
  nd_ops : Z;      (* [const vfs_ops_t *], 0 is NULL *)
  nd_parent : Z;   (* [vfs_node_t *], 0 is NULL *)
  nd_mode : Z;
  nd_owner_uid : Z;
  nd_group_gid : Z
}.

Definition set_mode (m : Z) (n : vfs_node) : vfs_node :=
  mk_node (nd_name n) (nd_type n) (nd_size n) (nd_inode n) (nd_ops n) (nd_parent n) m (nd_owner_uid n) (nd_group_gid n).
Definition set_group (g : Z) (n : vfs_node) : vfs_node :=
  mk_node (nd_name n) (nd_type n) (nd_size n) (nd_inode n) (nd_ops n) (nd_parent n) (nd_mode n) (nd_owner_uid n) g.

Record mount_entry := mk_mount { m_mountpoint : list Z; m_root : Z; m_active : bool }.
#[export] Instance mount_inhabited : Inhabited mount_entry := populate (mk_mount [] 0 false).

Record fd_entry := mk_fd { fd_node : Z; fd_offset : Z; fd_active : bool; fd_owner_pid : Z }.
#[export] Instance fd_inhabited : Inhabited fd_entry := populate (mk_fd 0 0 false 0).

(** The fields of [g_current_proc] the VFS reads. *)
Record caller := mk_caller { c_pid : Z; c_uid : Z; c_gid : Z }.

Record vfs_stat_t := mk_stat { st_size : Z; st_type : vfs_node_type; st_inode : Z }.

Section Vfs.
Context {F : Type}.

(** The allocated nodes and the state of the file systems. *)
Record fstate := mk_fs { nodes : gmap Z vfs_node; fsd : F }.

(** [vfs_ops_t]; [None] is a null function pointer.  [read] and [readdir] also
    return the bytes they store in the buffer. *)
Record vfs_ops := mk_ops {
  op_open : option (Z -> Z -> fstate -> Z * fstate);
  op_close : option (Z -> fstate -> Z * fstate);
  op_read : option (Z -> Z -> Z -> fstate -> Z * list Z * fstate);
  op_write : option (Z -> Z -> list Z -> fstate -> Z * fstate);
  op_lookup : option (Z -> list Z -> fstate -> Z * fstate);
  op_readdir : option (Z -> Z -> Z -> fstate -> Z * list Z * fstate);
  op_create : option (Z -> list Z -> Z -> fstate -> Z * fstate);
  op_unlink : option (Z -> list Z -> fstate -> Z * fstate);
  op_rmdir : option (Z -> list Z -> fstate -> Z * fstate);
  op_chmod : option (Z -> Z -> fstate -> Z * fstate);
  op_rename : option (Z -> list Z -> Z -> list Z -> fstate -> Z * fstate);
  op_symlink : option (Z -> list Z -> list Z -> fstate -> Z * fstate);
  op_chgrp : option (Z -> Z -> fstate -> Z * fstate)
}.

(** The globals of the file; [v_log] is what the integrity monitor printed. *)
Record vfs := mk_vfs {
  g_mounts : list mount_entry;
  g_fds : list fd_entry;
  g_mount_count : Z;
  g_cwd : Z;
  v_fs : fstate;
  v_log : list fim_report
}.

Definition with_fds (x : list fd_entry) (v : vfs) : vfs := mk_vfs (g_mounts v) x (g_mount_count v) (g_cwd v) (v_fs v) (v_log v).
Definition with_cwd (x : Z) (v : vfs) : vfs := mk_vfs (g_mounts v) (g_fds v) (g_mount_count v) x (v_fs v) (v_log v).
Definition with_fs (x : fstate) (v : vfs) : vfs := mk_vfs (g_mounts v) (g_fds v) (g_mount_count v) (g_cwd v) x (v_log v).
Definition with_log (x : list fim_report) (v : vfs) : vfs :=
  mk_vfs (g_mounts v) (g_fds v) (g_mount_count v) (g_cwd v) (v_fs v) x.

(** The table behind an ops pointer. *)
Context (ops_of : Z -> vfs_ops).

(** ** Nodes *)

Definition deref (n : Z) : X fstate vfs_node :=
  fun s => match nodes s !! n with Some x => Some (x, s) | None => None end.

(** [kfree(node->fs_data); kfree(node)]. *)
Definition kfree_node (n : Z) : X fstate unit :=
  fun s => match nodes s !! n with Some _ => Some (tt, mk_fs (delete n (nodes s)) (fsd s)) | None => None end.

(** [if (node->parent != NULL) { kfree(node->fs_data); kfree(node); }]. *)
Definition release (n : Z) : X fstate unit :=
  x <~ deref n ;; if nd_parent x =? 0 then xret tt else kfree_node n.

(** A call through a function pointer. *)
Definition call {A} (f : fstate -> A * fstate) : X fstate A := fun s => Some (f s).

(** [node->ops && node->ops->op]. *)
Definition op {T} (sel : vfs_ops -> option T) (x : vfs_node) : option T :=
  if nd_ops x =? 0 then None else sel (ops_of (nd_ops x)).

(** Store to a node. *)
Definition store_node (n : Z) (f : vfs_node -> vfs_node) : X fstate unit :=
  x <~ deref n ;; fun s => Some (tt, mk_fs (<[n := f x]> (nodes s)) (fsd s)).

(** ** Mounts and path resolution *)

Definition vfs_init (s : fstate) : vfs :=
  mk_vfs (replicate (Z.to_nat MAX_MOUNTS) (mk_mount [] 0 false)) (replicate (Z.to_nat VFS_MAX_FDS) (mk_fd 0 0 false 0)) 0 0 s [].

Definition vfs_mount (mountpoint : list Z) (root : Z) (v : vfs) : Z * vfs :=
  if root =? 0 then (-1, v) else
  if MAX_MOUNTS <=? g_mount_count v then (-1, v) else
  (0, mk_vfs (g_mounts v).[g_mount_count v <- mk_mount (take (Z.to_nat VFS_NAME_MAX) mountpoint) root true]
        (g_fds v) (g_mount_count v + 1) (g_cwd v) (v_fs v) (v_log v)).

(** The mount whose mount point is the longest prefix of the path. *)
Definition best_mount (path : list Z) (mounts : list mount_entry) : Z * Z :=
  fold_left (fun '(best_root, best_len) m =>
      let mlen := zlen (m_mountpoint m) in
      if m_active m && (0 <? mlen) && (mlen <=? zlen path) && bool_decide (take (Z.to_nat mlen) path = m_mountpoint m)
         && (best_len <? mlen)
      then (m_root m, mlen) else (best_root, best_len)) mounts (0, -1).

Fixpoint skip_slashes (cur : list Z) : list Z :=
  match cur with
  | c :: cur' => if c =? SLASH then skip_slashes cur' else cur
  | [] => []
  end.

(** The component up to the next slash, and the rest from that slash on. *)
Fixpoint span_component (cur : list Z) : list Z * list Z :=
  match cur with
  | [] => ([], [])
  | c :: cur' => if c =? SLASH then ([], cur) else let '(a, b) := span_component cur' in (c :: a, b)
  end.

(** The C string at the start of a buffer. *)
Fixpoint cstr (l : list Z) : list Z :=
  match l with
  | [] => []
  | c :: l' => if c =? 0 then [] else c :: cstr l'
  end.

(** [combined]: at most 250 bytes of the target, then the rest, 299 in all. *)
Definition combine_path (target rest : list Z) : list Z := take 299 (take 250 target ++ rest).

(** The loop over the components while there are any and [node] is not null; [rec] restarts the resolution with the
    expansion of a symbolic link. *)
Fixpoint walk (fuel : nat) (rec : list Z -> X fstate Z) (best_root : Z) (follow_last : bool) (cur : list Z) (node : Z) :
    X fstate Z :=
  match cur with
  | [] => xret node
  | _ =>
    if node =? 0 then xret node else
    match fuel with
    | O => xbug
    | S fuel' =>
      let '(component, slash) := span_component cur in
      if VFS_NAME_MAX <? zlen component then xret 0 else
      x <~ deref node ;;
      match op op_lookup x with
      | None => xret 0
      | Some lookup =>
        next <~ call (lookup node component) ;;
        (if node =? best_root then xret tt else kfree_node node) ~;;
        if next =? 0 then walk fuel' rec best_root follow_last (skip_slashes slash) next else
        y <~ deref next ;;
        if bool_decide (nd_type y = VFS_SYMLINK) && (negb (bool_decide (slash = [])) || follow_last) then
          match op op_read y with
          | None => release next ~;; xret 0
          | Some read =>
            r <~ call (read next 0 VFS_NAME_MAX) ;;
            release next ~;;
            if r.1 <=? 0 then xret 0 else
            if VFS_NAME_MAX <? r.1 then xbug else
            let target := cstr (take (Z.to_nat r.1) r.2) in
            if negb (char_at target 0 =? SLASH) then xret 0 else
            rec (combine_path target slash)
          end
        else walk fuel' rec best_root follow_last (skip_slashes slash) next
      end
    end
  end.

(** [hops] is [VFS_SYMLINK_MAX_DEPTH + 1 - depth]. *)
Fixpoint vfs_lookup_impl (hops : nat) (mounts : list mount_entry) (follow_last : bool) (path : list Z) : X fstate Z :=
  if negb (char_at path 0 =? SLASH) then xret 0 else
  match hops with
  | O => xret 0
  | S hops' =>
      let '(best_root, best_len) := best_mount path mounts in
      if best_root =? 0 then xret 0 else
      x <~ deref best_root ;;
      match op op_lookup x with
      | None => xret best_root
      | Some _ =>
          walk (S (length path)) (vfs_lookup_impl hops' mounts follow_last) best_root follow_last
            (skip_slashes (drop (Z.to_nat best_len) path)) best_root
      end
  end.

Definition SYMLINK_HOPS : nat := Z.to_nat (VFS_SYMLINK_MAX_DEPTH + 1).

(** Code on the nodes inside the VFS state. *)
Definition lift {A} (m : X fstate A) : X vfs A :=
  fun v => match m (v_fs v) with Some (a, s) => Some (a, with_fs s v) | None => None end.

Definition lookup_with (follow_last : bool) (path : list Z) : X vfs Z :=
  v <~ xget ;; lift (vfs_lookup_impl SYMLINK_HOPS (take (Z.to_nat (g_mount_count v)) (g_mounts v)) follow_last path).

Definition vfs_lookup : list Z -> X vfs Z := lookup_with true.
Definition vfs_lookup_link : list Z -> X vfs Z := lookup_with false.

(** ** Open files *)

Definition caller_uid (c : option caller) : Z := from_option c_uid UID_ROOT c.
Definition caller_gid (c : option caller) : Z := from_option c_gid GID_ROOT c.
Definition caller_pid (c : option caller) : Z := from_option c_pid 0 c.

(** The permission check of [vfs_open]. *)
Definition may_open (c : option caller) (flags : Z) (x : vfs_node) : bool :=
  let is_owner := (caller_uid c =? UID_ROOT) || (caller_uid c =? nd_owner_uid x) in
  let is_group := negb is_owner && (caller_gid c =? nd_group_gid x) in
  let access := Z.land flags 3 in
  let wants_read := (access =? 0) || (access =? 2) in
  let wants_write := (access =? 1) || (access =? 2) || negb (Z.land flags 0x400 =? 0) in
  let read_bit := if is_owner then 256 else if is_group then 32 else 4 in
  let write_bit := if is_owner then 128 else if is_group then 16 else 2 in
  if wants_read && (Z.land (nd_mode x) read_bit =? 0) then false
  else negb (wants_write && (Z.land (nd_mode x) write_bit =? 0)).

(** The first free slot from 3 on, or -1. *)
Definition free_fd (fds : list fd_entry) : Z := find_from (fun e => negb (fd_active e)) (drop 3 fds) 3.

(** The slot loop of [vfs_open] and [vfs_create]. *)
Definition install_fd (c : option caller) (node flags : Z) : X vfs (option Z) :=
  v <~ xget ;;
  let i := free_fd (g_fds v) in
  if i <? 0 then xret None else
  x <~ lift (deref node) ;;
  (match op op_open x with None => xret tt | Some f => lift (call (f node flags)) ~;; xret tt end) ~;;
  xmod (fun v => with_fds (g_fds v).[i <- mk_fd node 0 true (caller_pid c)] v) ~;;
  xret (Some i).

Definition vfs_open (c : option caller) (path : list Z) (flags : Z) : X vfs Z :=
  node <~ vfs_lookup path ;;
  if node =? 0 then xret (-1) else
  x <~ lift (deref node) ;;
  if (nd_ops x =? 0) || negb (may_open c flags x) then lift (release node) ~;; xret (-1) else
  r <~ install_fd c node flags ;;
  match r with
  | Some i => xret i
  | None => lift (release node) ~;; xret (-1)
  end.

Definition fd_ok (fd : Z) (v : vfs) : bool := (0 <=? fd) && (fd <? VFS_MAX_FDS) && fd_active (g_fds v).[fd].

Definition vfs_close (fd : Z) : X vfs Z :=
  v <~ xget ;;
  if negb (fd_ok fd v) then xret (-1) else
  let node := fd_node (g_fds v).[fd] in
  (if node =? 0 then xret tt else
   x <~ lift (deref node) ;;
   (match op op_close x with None => xret tt | Some f => lift (call (f node)) ~;; xret tt end) ~;;
   lift (release node)) ~;;
  xmod (fun v => with_fds (g_fds v).[fd <- mk_fd 0 0 false 0] v) ~;;
  xret 0.

(** [for (i = 3; i < VFS_MAX_FDS; i++)]; [n] slots to go. *)
Fixpoint close_all (n : nat) (i pid : Z) : X vfs unit :=
  match n with
  | O => xret tt
  | S n' =>
      v <~ xget ;;
      (if fd_active (g_fds v).[i] && (fd_owner_pid (g_fds v).[i] =? pid) then vfs_close i ~;; xret tt else xret tt) ~;;
      close_all n' (i + 1) pid
  end.

Definition vfs_close_all_for_pid (pid : Z) : X vfs unit :=
  if pid =? 0 then xret tt else close_all (Z.to_nat (VFS_MAX_FDS - 3)) 3 pid.

(** [if (n > 0) g_fds[fd].offset += n]. *)
Definition advance (fd n : Z) (v : vfs) : vfs :=
  if 0 <? n then
    let e := (g_fds v).[fd] in
    with_fds (g_fds v).[fd <- mk_fd (fd_node e) (u64 (fd_offset e + n)) (fd_active e) (fd_owner_pid e)] v
  else v.

Definition vfs_read (fd len : Z) : X vfs (Z * list Z) :=
  v <~ xget ;;
  if negb (fd_ok fd v) then xret (-1, []) else
  let node := fd_node (g_fds v).[fd] in
  if node =? 0 then xret (-1, []) else
  x <~ lift (deref node) ;;
  match op op_read x with
  | None => xret (-1, [])
  | Some read => r <~ lift (call (read node (fd_offset (g_fds v).[fd]) len)) ;; xmod (advance fd r.1) ~;; xret r
  end.

Definition vfs_write (fd : Z) (buf : list Z) : X vfs Z :=
  v <~ xget ;;
  if negb (fd_ok fd v) then xret (-1) else
  let node := fd_node (g_fds v).[fd] in
  if node =? 0 then xret (-1) else
  x <~ lift (deref node) ;;
  match op op_write x with
  | None => xret (-1)
  | Some write =>
      xmod (fun v => if char_at (nd_name x) 0 =? 0 then v else with_log (fim_on_write (nd_name x) (v_log v)).2 v) ~;;
      r <~ lift (call (write node (fd_offset (g_fds v).[fd]) buf)) ;; xmod (advance fd r) ~;; xret r
  end.

Definition vfs_readdir (fd max : Z) : X vfs (Z * list Z) :=
  v <~ xget ;;
  if negb (fd_ok fd v) then xret (-1, []) else
  let node := fd_node (g_fds v).[fd] in
  if node =? 0 then xret (-1, []) else
  x <~ lift (deref node) ;;
  if negb (bool_decide (nd_type x = VFS_DIRECTORY)) then xret (-1, []) else
  match op op_readdir x with
  | None => xret (-1, [])
  | Some readdir => r <~ lift (call (readdir node (fd_offset (g_fds v).[fd]) max)) ;; xmod (advance fd r.1) ~;; xret r
  end.

(** ** Paths with a last component *)

(** The index of the last slash, 0 if there is none. *)
Definition last_slash (path : list Z) : Z :=
  (fold_left (fun '(i, last) c => (i + 1, if c =? SLASH then i else last)) path (0, 0)).2.

(** Parent directory and last component. *)
Definition split_path (path : list Z) : option (list Z * list Z) :=
  let i := last_slash path in
  let name := if char_at path (Z.to_nat i) =? SLASH then drop (Z.to_nat (i + 1)) path else path in
  if bool_decide (name = []) then None else
  if VFS_NAME_MAX <? zlen name then None else
  if i =? 0 then Some ([SLASH], name) else
  if 255 <=? i then None else Some (take (Z.to_nat i) path, name).

Definition is_dot (name : list Z) : bool := bool_decide (name = [46]) || bool_decide (name = [46; 46]).

Definition vfs_create (c : option caller) (path : list Z) (type : Z) : X vfs Z :=
  match split_path path with
  | None => xret (-1)
  | Some (parent, name) =>
      if is_dot name then xret (-1) else
      dir <~ vfs_lookup parent ;;
      if dir =? 0 then xret (-1) else
      x <~ lift (deref dir) ;;
      if negb (bool_decide (nd_type x = VFS_DIRECTORY)) then xret (-1) else
      match op op_create x with
      | None => xret (-1)
      | Some create =>
          newnode <~ lift (call (create dir name type)) ;;
          lift (release dir) ~;;
          if newnode =? 0 then xret (-1) else
          xmod (fun v => with_log (fim_on_create path (v_log v)).2 v) ~;;
          r <~ install_fd c newnode 0 ;;
          match r with
          | Some i => xret i
          | None => lift (kfree_node newnode) ~;; xret (-1)
          end
      end
  end.

(** [vfs_unlink] and [vfs_rmdir] are the same code around another operation. *)
Definition dir_op (sel : vfs_ops -> option (Z -> list Z -> fstate -> Z * fstate)) (path : list Z) : X vfs Z :=
  match split_path path with
  | None => xret (-1)
  | Some (parent, name) =>
      dir <~ vfs_lookup parent ;;
      if dir =? 0 then xret (-1) else
      x <~ lift (deref dir) ;;
      if negb (bool_decide (nd_type x = VFS_DIRECTORY)) then xret (-1) else
      match op sel x with
      | None => lift (release dir) ~;; xret (-1)
      | Some f => r <~ lift (call (f dir name)) ;; lift (release dir) ~;; xret r
      end
  end.

Definition vfs_unlink : list Z -> X vfs Z := dir_op op_unlink.
Definition vfs_rmdir : list Z -> X vfs Z := dir_op op_rmdir.

(** [vfs_chmod] and [vfs_chgrp]: the operation, and on success the cached field. *)
Definition attr_op (sel : vfs_ops -> option (Z -> Z -> fstate -> Z * fstate)) (set : Z -> vfs_node -> vfs_node)
    (path : list Z) (value : Z) : X vfs Z :=
  node <~ vfs_lookup path ;;
  if node =? 0 then xret (-1) else
  x <~ lift (deref node) ;;
  result <~ (match op sel x with
             | None => xret (-1)
             | Some f => r <~ lift (call (f node value)) ;;
                         (if r =? 0 then lift (store_node node (set value)) else xret tt) ~;; xret r
             end) ;;
  lift (release node) ~;; xret result.

Definition vfs_chmod : list Z -> Z -> X vfs Z := attr_op op_chmod set_mode.
Definition vfs_chgrp : list Z -> Z -> X vfs Z := attr_op op_chgrp set_group.

Definition vfs_rename (old_path new_path : list Z) : X vfs Z :=
  match split_path old_path, split_path new_path with
  | Some (old_parent, old_name), Some (new_parent, new_name) =>
      if is_dot old_name || is_dot new_name then xret (-1) else
      old_dir <~ vfs_lookup old_parent ;;
      if old_dir =? 0 then xret (-1) else
      x <~ lift (deref old_dir) ;;
      if negb (bool_decide (nd_type x = VFS_DIRECTORY)) then xret (-1) else
      new_dir <~ vfs_lookup new_parent ;;
      if new_dir =? 0 then lift (release old_dir) ~;; xret (-1) else
      y <~ lift (deref new_dir) ;;
      if negb (bool_decide (nd_type y = VFS_DIRECTORY)) then lift (release old_dir) ~;; xret (-1) else
      x <~ lift (deref old_dir) ;;
      result <~ (match op op_rename x with
                 | Some f => if nd_ops x =? nd_ops y then lift (call (f old_dir old_name new_dir new_name)) else xret (-1)
                 | None => xret (-1)
                 end) ;;
      lift (release old_dir) ~;;
      (if new_dir =? old_dir then xret tt else lift (release new_dir)) ~;; xret result
  | _, _ => xret (-1)
  end.

Definition vfs_symlink (target linkpath : list Z) : X vfs Z :=
  if bool_decide (target = []) then xret (-1) else
  if VFS_NAME_MAX <? zlen target then xret (-1) else
  match split_path linkpath with
  | None => xret (-1)
  | Some (parent, name) =>
      if is_dot name then xret (-1) else
      dir <~ vfs_lookup parent ;;
      if dir =? 0 then xret (-1) else
      x <~ lift (deref dir) ;;
      if negb (bool_decide (nd_type x = VFS_DIRECTORY)) then xret (-1) else
      result <~ (match op op_symlink x with None => xret (-1) | Some f => lift (call (f dir name target)) end) ;;
      lift (release dir) ~;; xret result
  end.

Definition vfs_readlink (path : list Z) (bufsize : Z) : X vfs (Z * list Z) :=
  node <~ vfs_lookup_link path ;;
  if node =? 0 then xret (-1, []) else
  x <~ lift (deref node) ;;
  if negb (bool_decide (nd_type x = VFS_SYMLINK)) then lift (release node) ~;; xret (-1, []) else
  n <~ (match op op_read x with None => xret (-1, []) | Some read => lift (call (read node 0 bufsize)) end) ;;
  lift (release node) ~;; xret n.

Definition vfs_stat (path : list Z) : X vfs (option vfs_stat_t) :=
  node <~ vfs_lookup path ;;
  if node =? 0 then xret None else
  x <~ lift (deref node) ;;
  lift (release node) ~;; xret (Some (mk_stat (nd_size x) (nd_type x) (nd_inode x))).

Definition vfs_fstat (fd : Z) : X vfs (option vfs_stat_t) :=
  v <~ xget ;;
  if negb (fd_ok fd v) then xret None else
  let node := fd_node (g_fds v).[fd] in
  if node =? 0 then xret None else
  x <~ lift (deref node) ;; xret (Some (mk_stat (nd_size x) (nd_type x) (nd_inode x))).

(** [(int64_t)x]. *)
Definition s64 (x : Z) : Z := if u64 x <? 2 ^ 63 then u64 x else u64 x - 2 ^ 64.

Definition vfs_lseek (fd offset whence : Z) : X vfs Z :=
  v <~ xget ;;
  if negb (fd_ok fd v) then xret (-1) else
  let e := (g_fds v).[fd] in
  if fd_node e =? 0 then xret (-1) else
  x <~ lift (deref (fd_node e)) ;;
  let new := if whence =? 0 then Some offset
             else if whence =? 1 then Some (s64 (s64 (fd_offset e) + offset))
             else if whence =? 2 then Some (s64 (s64 (nd_size x) + offset)) else None in
  match new with
  | None => xret (-1)
  | Some new_offset =>
      if new_offset <? 0 then xret (-1) else
      xmod (fun v => with_fds (g_fds v).[fd <- mk_fd (fd_node e) (u64 new_offset) (fd_active e) (fd_owner_pid e)] v) ~;;
      xret new_offset
  end.

Definition vfs_dup (fd : Z) (v : vfs) : Z * vfs :=
  if negb (fd_ok fd v) then (-1, v) else
  let i := free_fd (g_fds v) in
  if i <? 0 then (-1, v) else (i, with_fds (g_fds v).[i <- (g_fds v).[fd]] v).

Definition vfs_dup2 (oldfd newfd : Z) : X vfs Z :=
  v <~ xget ;;
  if negb (fd_ok oldfd v) then xret (-1) else
  if (newfd <? 0) || (VFS_MAX_FDS <=? newfd) then xret (-1) else
  if newfd =? oldfd then xret newfd else
  (if fd_active (g_fds v).[newfd] then vfs_close newfd ~;; xret tt else xret tt) ~;;
  xmod (fun v => with_fds (g_fds v).[newfd <- (g_fds v).[oldfd]] v) ~;;
  xret newfd.

(** ** Working directory *)

Definition vfs_get_cwd (v : vfs) : Z := g_cwd v.

(** Replace the working directory, releasing the old one. *)
Definition set_cwd (node : Z) : X vfs unit :=
  v <~ xget ;;
  (if g_cwd v =? 0 then xret tt else lift (release (g_cwd v))) ~;;
  xmod (with_cwd node).

Definition ABSPATH_MAX : Z := 512.

(** The loop over the mounts for a relative path; [true]: the directory was
    found and entered. *)
Fixpoint chdir_mounts (ms : list mount_entry) (path : list Z) : X vfs bool :=
  match ms with
  | [] => xret false
  | m :: ms' =>
      if negb (m_active m) then chdir_mounts ms' path else
      v <~ xget ;;
      matches <~ (if m_root m =? g_cwd v then xret true else
           x <~ lift (deref (m_root m)) ;;
           match op op_lookup x with
           | None => xbug
           | Some lookup =>
               probe <~ lift (call (lookup (m_root m) path)) ;;
               if probe =? 0 then xret false else lift (release probe) ~;; xret true
           end) ;;
         let mlen := zlen (m_mountpoint m) in
         if negb (matches && (mlen + zlen path + 2 <? ABSPATH_MAX)) then chdir_mounts ms' path else
         if mlen =? 0 then xbug else
         let sep := if (m_mountpoint m).[mlen - 1] =? SLASH then [] else [SLASH] in
         node <~ vfs_lookup (m_mountpoint m ++ sep ++ path) ;;
         if node =? 0 then chdir_mounts ms' path else
         y <~ lift (deref node) ;;
         if bool_decide (nd_type y = VFS_DIRECTORY) then set_cwd node ~;; xret true
         else lift (release node) ~;; chdir_mounts ms' path
  end.

Definition vfs_chdir (path : list Z) : X vfs Z :=
  v <~ xget ;;
  entered <~ (if (char_at path 0 =? SLASH) || (g_cwd v =? 0) then xret false else
    x <~ lift (deref (g_cwd v)) ;;
    if char_at (nd_name x) 0 =? 0 then xret false
    else chdir_mounts (take (Z.to_nat (g_mount_count v)) (g_mounts v)) path) ;;
  if entered : bool then xret 0 else
  let path := if char_at path 0 =? SLASH then path
              else if zlen path + 2 <? ABSPATH_MAX then SLASH :: path else path in
  node <~ vfs_lookup path ;;
  if node =? 0 then xret (-1) else
  y <~ lift (deref node) ;;
  if negb (bool_decide (nd_type y = VFS_DIRECTORY)) then lift (release node) ~;; xret (-1) else
  set_cwd node ~;; xret 0.

(** The components collected from [node] upwards, at most [depth] more. *)
Fixpoint cwd_parts (depth : nat) (node : Z) : X fstate (list (list Z)) :=
  if node =? 0 then xret [] else
  x <~ deref node ;;
  if (nd_parent x =? 0) || (node =? nd_parent x) then xret [] else
  match depth with
  | O => xret []
  | S depth' => rest <~ cwd_parts depth' (nd_parent x) ;; xret (nd_name x :: rest)
  end.

Fixpoint join_slash (parts : list (list Z)) : list Z :=
  match parts with
  | [] => []
  | [p] => p
  | p :: parts' => p ++ SLASH :: join_slash parts'
  end.

(** The path from the components, which were collected innermost first. *)
Definition join_parts (parts : list (list Z)) : list Z := SLASH :: join_slash (rev parts).

Definition CWD_TMP : Z := 1024.

(** The string stored in [buf]. *)
Definition vfs_getcwd (size : Z) : X vfs (option (list Z)) :=
  v <~ xget ;;
  if size =? 0 then xret None else
  if g_cwd v =? 0 then xret (Some [SLASH]) else
  parts <~ lift (cwd_parts 16 (g_cwd v)) ;;
  let tmp := join_parts parts in
  if CWD_TMP <=? zlen tmp then xbug else
  xret (Some (take (Z.to_nat (size - 1)) tmp)).

End Vfs.

Arguments fstate : clear implicits.
Arguments vfs_ops : clear implicits.
Arguments vfs : clear implicits.

(** ** Reasoning about code that may go wrong *)

(** [m] runs from [s] without going wrong and its outcome satisfies [Q]. *)
Definition xwp {S A} (m : X S A) (s : S) (Q : A -> S -> Prop) : Prop :=
  match m s with Some (a, s') => Q a s' | None => False end.

Lemma xwp_ret {S A} (a : A) (s : S) Q : Q a s -> xwp (xret a) s Q.
Proof. done. Qed.

Lemma xwp_get {S} (s : S) Q : Q s s -> xwp xget s Q.
Proof. done. Qed.

Lemma xwp_mod {S} (f : S -> S) s Q : Q tt (f s) -> xwp (xmod f) s Q.
Proof. done. Qed.

Lemma xwp_bind {S A B} (m : X S A) (k : A -> X S B) s Q :
  xwp m s (fun a s' => xwp (k a) s' Q) -> xwp (xbind m k) s Q.
Proof. unfold xwp, xbind. by destruct (m s) as [[a s']|]. Qed.

Lemma xwp_mono {S A} (m : X S A) s (P Q : A -> S -> Prop) :
  xwp m s P -> (forall a s', P a s' -> Q a s') -> xwp m s Q.
Proof. unfold xwp. destruct (m s) as [[a s']|]; auto. Qed.

Lemma xwp_eq {S A} (m m' : X S A) s Q : m s = m' s -> xwp m s Q -> xwp m' s Q.
Proof. unfold xwp. by intros ->. Qed.

Lemma xwp_run {S A} (m : X S A) s Q : xwp m s Q <-> exists a s', m s = Some (a, s') /\ Q a s'.
Proof.
  unfold xwp. destruct (m s) as [[a s']|].
  - split; [intros H; by exists a, s'|by intros (? & ? & [= <- <-] & H)].
  - split; [done|by intros (? & ? & ? & _)].
Qed.

(** ** The interface of a file system *)

(** What the VFS relies on in a node is fixed when the node is made. *)
Record tag := mk_tag { t_name : list Z; t_type : vfs_node_type; t_ops : Z; t_parent : Z }.
Definition tag_of (x : vfs_node) : tag := mk_tag (nd_name x) (nd_type x) (nd_ops x) (nd_parent x).

Definition shape {F} (s : fstate F) : gmap Z tag := tag_of <$> nodes s.

(** [n] is a null pointer, or a new node called [name] in the directory [d]. *)
Definition made {F} (d ops : Z) (name : list Z) (s : fstate F) (n : Z) (s' : fstate F) : Prop :=
  (n = 0 /\ shape s' = shape s) \/
  (n <> 0 /\ shape s !! n = None /\ exists t, shape s' = <[n := mk_tag name t ops d]> (shape s)).

(** An operation on the live node [d] that makes and frees no node. *)
Definition keeps {F A} (f : fstate F -> A * fstate F) (d : Z) : Prop :=
  forall s x, shape s !! d = Some x -> shape (f s).2 = shape s.

Class FileSystem {F : Type} (ops_of : Z -> vfs_ops F) : Prop := {
  fs_lookup o f d name s x : op_lookup (ops_of o) = Some f -> d <> 0 -> shape s !! d = Some x -> t_ops x = o ->
    made d o name s (f d name s).1 (f d name s).2;
  fs_create o f d name ty s x : op_create (ops_of o) = Some f -> d <> 0 -> shape s !! d = Some x -> t_ops x = o ->
    made d o name s (f d name ty s).1 (f d name ty s).2;
  fs_open o f d fl : op_open (ops_of o) = Some f -> keeps (f d fl) d;
  fs_close o f d : op_close (ops_of o) = Some f -> keeps (f d) d;
  fs_read o f d off len : op_read (ops_of o) = Some f -> keeps (f d off len) d /\ forall s, (f d off len s).1.1 <= len;
  fs_write o f d off buf : op_write (ops_of o) = Some f -> keeps (f d off buf) d;
  fs_readdir o f d off max : op_readdir (ops_of o) = Some f -> keeps (f d off max) d;
  fs_unlink o f d name : op_unlink (ops_of o) = Some f -> keeps (f d name) d;
  fs_rmdir o f d name : op_rmdir (ops_of o) = Some f -> keeps (f d name) d;
  fs_chmod o f d m : op_chmod (ops_of o) = Some f -> keeps (f d m) d;
  fs_chgrp o f d g : op_chgrp (ops_of o) = Some f -> keeps (f d g) d;
  fs_rename o f d name d' name' : op_rename (ops_of o) = Some f -> keeps (f d name d' name') d;
  fs_symlink o f d name target : op_symlink (ops_of o) = Some f -> keeps (f d name target) d
}.

Section Resolution.
Context {F : Type} {ops_of : Z -> vfs_ops F} `{!FileSystem ops_of}.
#[local] Notation "'fst_'" := (fstate F).

Lemma shape_lookup (s : fst_) n x : nodes s !! n = Some x -> shape s !! n = Some (tag_of x).
Proof. intros E. unfold shape. by rewrite lookup_fmap, E. Qed.

Lemma shape_some (s : fst_) n t : shape s !! n = Some t -> exists x, nodes s !! n = Some x /\ tag_of x = t.
Proof. unfold shape. rewrite lookup_fmap. destruct (nodes s !! n) as [x|]; [intros [= <-]; by exists x|done]. Qed.

Lemma xwp_deref (s : fst_) n t Q :
  shape s !! n = Some t -> (forall x, tag_of x = t -> nodes s !! n = Some x -> Q x s) -> xwp (deref n) s Q.
Proof. intros E HQ. apply shape_some in E as (x & E & Et). unfold xwp, deref. rewrite E. by apply HQ. Qed.

Lemma xwp_kfree (s : fst_) n t Q :
  shape s !! n = Some t -> (forall s', shape s' = delete n (shape s) -> Q tt s') -> xwp (kfree_node n) s Q.
Proof.
  intros E HQ. apply shape_some in E as (x & E & Et). unfold xwp, kfree_node. rewrite E. apply HQ.
  unfold shape. cbn [nodes]. apply fmap_delete.
Qed.

Lemma xwp_release (s : fst_) n t Q :
  shape s !! n = Some t ->
  (forall s', shape s' = (if t_parent t =? 0 then shape s else delete n (shape s)) -> Q tt s') -> xwp (release n) s Q.
Proof.
  intros E HQ. apply xwp_bind. eapply xwp_deref; [exact E|]. intros x Ht _. subst t. cbn [t_parent tag_of] in HQ.
  destruct (nd_parent x =? 0); [by apply xwp_ret, HQ|]. eapply xwp_kfree; [exact E|done].
Qed.

Lemma xwp_call {A} (f : fst_ -> A * fst_) s Q : Q (f s).1 (f s).2 -> xwp (call f) s Q.
Proof. unfold xwp, call. by destruct (f s). Qed.

Lemma op_some {T} (sel : vfs_ops F -> option T) x f :
  op ops_of sel x = Some f -> sel (ops_of (nd_ops x)) = Some f.
Proof. unfold op. by destruct (nd_ops x =? 0). Qed.

(** ** Path resolution *)

Record mounts_ok (mounts : list mount_entry) (sh : gmap Z tag) : Prop := {
  mo_null : sh !! 0 = None;
  mo_root : forall m, m ∈ mounts -> m_active m = true -> exists t, sh !! m_root m = Some t /\ t_parent t = 0
}.

Definition is_root (mounts : list mount_entry) (n : Z) : Prop := exists m, m ∈ mounts /\ m_active m = true /\ m_root m = n.

(** Nodes were at most added. *)
Definition leaks (sh : gmap Z tag) (s' : fst_) : Prop := sh ⊆ shape s' /\ shape s' !! 0 = None.

Lemma leaks_refl sh s : sh !! 0 = None -> shape s = sh -> leaks sh s.
Proof. intros N E. split; by rewrite E. Qed.

(** The outcome of a resolution: nothing found; a mount root; or a new node. *)
Definition looked (mounts : list mount_entry) (sh : gmap Z tag) (n : Z) (s' : fst_) : Prop :=
  (n = 0 /\ leaks sh s') \/ (is_root mounts n /\ shape s' = sh) \/
  (n <> 0 /\ sh !! n = None /\ exists t, shape s' = <[n := t]> sh /\ t_parent t <> 0).

Lemma span_component_spec cur :
  let '(a, b) := span_component cur in
  cur = a ++ b /\ Forall (fun c => c <> SLASH) a /\ (cur <> [] -> char_at cur 0 <> SLASH -> a <> []).
Proof.
  induction cur as [|c cur IH]; [done|]. cbn [span_component]. destruct (Z.eqb_spec c SLASH) as [->|]; [done|].
  destruct (span_component cur) as [a b]. destruct IH as (-> & Fa & _). split; [done|]. split; [by constructor|done].
Qed.

Lemma skip_slashes_spec cur : (length (skip_slashes cur) <= length cur)%nat /\ char_at (skip_slashes cur) 0 <> SLASH.
Proof.
  induction cur as [|c cur IH]; [done|]. cbn [skip_slashes]. destruct (Z.eqb_spec c SLASH); [|split; [done|exact n]].
  destruct IH as [L H]. split; [cbn [length]; lia|done].
Qed.

Lemma best_mount_root path mounts : let '(r, l) := best_mount path mounts in r = 0 \/ is_root mounts r.
Proof.
  unfold best_mount.
  assert (G : forall ms r l, (forall m, m ∈ ms -> m ∈ mounts) -> (r = 0 \/ is_root mounts r) ->
    let '(r', _) := fold_left (fun '(best_root, best_len) m =>
      let mlen := zlen (m_mountpoint m) in
      if m_active m && (0 <? mlen) && (mlen <=? zlen path) && bool_decide (take (Z.to_nat mlen) path = m_mountpoint m)
         && (best_len <? mlen)
      then (m_root m, mlen) else (best_root, best_len)) ms (r, l) in r' = 0 \/ is_root mounts r').
  { induction ms as [|m ms IH]; intros r l Hin Hr; [done|]. cbn [fold_left]. cbn zeta.
    assert (Hin' : forall m', m' ∈ ms -> m' ∈ mounts) by (intros; apply Hin; by right).
    destruct (m_active m) eqn:Ea; cbn [andb]; [|by apply IH].
    destruct (_ && _); [|by apply IH]. apply IH; [done|]. right. exists m. split; [apply Hin; by left|done]. }
  apply G; [done|by left].
Qed.

(** The node the loop is at, relative to the nodes [sh] at the start. *)
Definition at_node (root : Z) (sh : gmap Z tag) (n : Z) (s : fst_) : Prop :=
  (n = root /\ shape s = sh) \/ (n = 0 /\ shape s = sh) \/
  (n <> 0 /\ sh !! n = None /\ exists t, shape s = <[n := t]> sh /\ t_parent t <> 0).

Lemma at_node_leak root sh n s : sh !! 0 = None -> at_node root sh n s -> leaks sh s.
Proof.
  intros N0 [[_ E]|[[_ E]|(Hn & N & t & E & _)]]; [by apply leaks_refl|by apply leaks_refl|].
  split; rewrite E; [by apply insert_subseteq|by rewrite lookup_insert_ne].
Qed.

(** A node that is left behind is freed unless it is the root. *)
Lemma leave_node root sh n s name next s1 :
  root <> 0 -> is_Some (sh !! root) -> n <> 0 -> at_node root sh n s ->
  (exists o, made n o name s next s1) ->
  xwp (if n =? root then xret tt else kfree_node n) s1 (fun _ s2 =>
    (next = 0 /\ shape s2 = sh) \/
    (next <> 0 /\ sh !! next = None /\ exists t, shape s2 = <[next := t]> sh /\ t_parent t <> 0)).
Proof.
  intros Hr Hs Hn A (o & M). destruct A as [[-> E]|[[-> _]|(_ & N & t & E & Ht)]]; [|done|].
  - rewrite Z.eqb_refl. apply xwp_ret. destruct M as [[-> M]|(Hx & Nx & ty & M)]; [left; by rewrite M, E|].
    right. split; [done|]. rewrite E in Nx, M. split; [done|]. by eexists.
  - destruct (Z.eqb_spec n root) as [->|_]; [by rewrite N in Hs; destruct Hs|].
    destruct M as [[-> M]|(Hx & Nx & ty & M)]; rewrite E in *.
    + eapply xwp_kfree; [rewrite M; by rewrite lookup_insert_eq|]. intros s2 E2. left. split; [done|].
      rewrite E2, M. by apply delete_insert_id.
    + assert (next <> n) by (intros ->; by rewrite lookup_insert_eq in Nx).
      rewrite lookup_insert_ne in Nx by done.
      eapply xwp_kfree; [rewrite M, lookup_insert_ne by done; by rewrite lookup_insert_eq|]. intros s2 E2. right.
      split; [done|]. split; [done|]. rewrite E2, M, delete_insert_ne, delete_insert_id by done. by eexists.
Qed.

Lemma walk_spec mounts rec root follow sh fuel cur n s :
  mounts_ok mounts sh -> is_root mounts root ->
  (forall p s', shape s' = sh -> xwp (rec p) s' (looked mounts sh)) ->
  at_node root sh n s -> (length cur <= fuel)%nat -> char_at cur 0 <> SLASH ->
  xwp (walk ops_of fuel rec root follow cur n) s (looked mounts sh).
Proof.
  intros [M0 MR] Rt Hrec. revert cur n s. pose proof Rt as (m & Hm & Am & Rm). destruct (MR m Hm Am) as (tr & Sr & Pr). rewrite Rm in Sr.
  assert (Hr0 : root <> 0) by (intros ->; congruence). clear m Hm Am Rm.
  assert (Stop : forall n s, at_node root sh n s -> looked mounts sh n s).
  { intros n s [[-> E]|[[-> E]|A]]; [right; left; done|left; split; [done|by apply leaks_refl]|right; by right]. }
  induction fuel as [|fuel IH]; intros cur n s A Hl Hc.
  - destruct cur; [by apply xwp_ret, Stop|cbn in Hl; lia].
  - destruct cur as [|c cur]; [by apply xwp_ret, Stop|]. cbn [walk].
    destruct (Z.eqb_spec n 0) as [->|Hn0]; [by apply xwp_ret, Stop|].
    pose proof (span_component_spec (c :: cur)) as Sp. destruct (span_component (c :: cur)) as [comp slash].
    destruct Sp as (Ec & _ & Ne). specialize (Ne ltac:(done) Hc).
    assert (Hlen : (length slash <= length cur)%nat).
    { destruct comp as [|c0 comp]; [done|]. apply (f_equal length) in Ec. rewrite length_app in Ec. cbn in Ec. lia. }
    cbn [length] in Hl. destruct (skip_slashes_spec slash) as [Sk1 Sk2]. destruct (VFS_NAME_MAX <? zlen comp).
    { apply xwp_ret. left. split; [done|]. by eapply at_node_leak. }
    assert (Live : exists t, shape s !! n = Some t).
    { destruct A as [[-> ->]|[[-> _]|(_ & _ & t & -> & _)]]; [by exists tr|done|exists t; apply lookup_insert_eq]. }
    destruct Live as [t Live]. apply xwp_bind. eapply xwp_deref; [exact Live|]. intros x Ht _.
    destruct (op ops_of op_lookup x) as [lookup|] eqn:Eop; [|apply xwp_ret; left; split; [done|by eapply at_node_leak]].
    apply op_some in Eop. apply xwp_bind, xwp_call, xwp_bind.
    pose proof (fs_lookup _ _ n comp s _ Eop Hn0 Live ltac:(by rewrite <- Ht)) as M.
    destruct (lookup n comp s) as [next s1]. cbn [fst snd] in *.
    eapply xwp_mono; [exact (leave_node root sh n s comp next s1 Hr0 (ex_intro _ tr Sr) Hn0 A (ex_intro (fun o => made n o comp s next s1) _ M))|].
    intros _ s2 [[-> E2]|(Hx & Nx & tx & E2 & Px)].
    { change (0 =? 0) with true. cbv iota. apply IH; [right; by left|lia|done]. }
    destruct (Z.eqb_spec next 0); [done|]. apply xwp_bind. eapply xwp_deref; [rewrite E2; apply lookup_insert_eq|].
    intros y Ty _. destruct (_ && _).
    2: { apply IH; [right; right; split; [done|]; split; [done|by exists tx]|lia|done]. }
    assert (Rel : forall s3, shape s3 = shape s2 -> forall Q : unit -> fst_ -> Prop, (forall s4, shape s4 = sh -> Q tt s4) -> xwp (release next) s3 Q).
    { intros s3 E3 Q HQ. eapply xwp_release; [rewrite E3, E2; apply lookup_insert_eq|]. intros s4 E4. apply HQ.
      destruct (Z.eqb_spec (t_parent tx) 0); [done|]. rewrite E4, E3, E2. by apply delete_insert_id. }
    destruct (op ops_of op_read y) as [read|] eqn:Er.
    2: { apply xwp_bind, Rel; [done|]. intros s4 E4. apply xwp_ret. left. split; [done|by apply leaks_refl]. }
    apply op_some in Er. destruct (fs_read _ _ next 0 VFS_NAME_MAX Er) as [K L].
    apply xwp_bind, xwp_call. specialize (K s2 tx ltac:(rewrite E2; apply lookup_insert_eq)). specialize (L s2).
    destruct (read next 0 VFS_NAME_MAX s2) as [[r bytes] s3]. cbn [fst snd] in *.
    apply xwp_bind, Rel; [done|]. intros s4 E4. destruct (r <=? 0); [apply xwp_ret; left; split; [done|by apply leaks_refl]|].
    destruct (Z.ltb_spec VFS_NAME_MAX r); [lia|]. destruct (negb _); [apply xwp_ret; left; split; [done|by apply leaks_refl]|]. by apply Hrec.
Qed.

(** Resolution never touches a node that is not allocated, terminates, and
    either finds nothing, or a mount root, or one new node and leaves no other
    node behind. *)
Lemma vfs_lookup_impl_spec hops mounts follow path sh s :
  mounts_ok mounts sh -> shape s = sh ->
  xwp (vfs_lookup_impl ops_of hops mounts follow path) s (looked mounts sh).
Proof.
  intros M. assert (L0 : forall s, shape s = sh -> looked mounts sh 0 s) by (left; split; [done|by apply leaks_refl; [apply M|]]).
  revert path s. induction hops as [|hops IH]; intros path s E; cbn [vfs_lookup_impl];
    (destruct (negb _); [by apply xwp_ret, L0|]); [by apply xwp_ret, L0|].
  pose proof (best_mount_root path mounts) as B. destruct (best_mount path mounts) as [root len].
  destruct (Z.eqb_spec root 0); [by apply xwp_ret, L0|]. destruct B as [?|B]; [done|].
  pose proof B as (m & Hm & Am & Rm). destruct (mo_root _ _ M m Hm Am) as (t & St & Pt). rewrite Rm in St.
  apply xwp_bind. eapply xwp_deref; [rewrite E; exact St|]. intros x Tx _.
  destruct (op ops_of op_lookup x); [|apply xwp_ret; right; by left].
  destruct (skip_slashes_spec (drop (Z.to_nat len) path)) as [S1 S2].
  apply (walk_spec mounts); [done|done|exact IH|by left| |done]. rewrite length_drop in S1. lia.
Qed.

(** ** Ownership of nodes *)

#[local] Notation "'vfs_'" := (vfs F).

Definition mounts_of (v : vfs_) : list mount_entry := take (Z.to_nat (g_mount_count v)) (g_mounts v).

(** The pointer to [n] in the descriptor [Some i] or in the working directory. *)
Definition holds (v : vfs_) (h : option Z) (n : Z) : Prop :=
  match h with
  | Some i => 0 <= i < VFS_MAX_FDS /\ fd_active (g_fds v).[i] = true /\ fd_node (g_fds v).[i] = n
  | None => g_cwd v = n /\ n <> 0
  end.

Record vfs_ok (v : vfs_) : Prop := {
  vo_fds : zlen (g_fds v) = VFS_MAX_FDS;
  vo_mounts : zlen (g_mounts v) = MAX_MOUNTS /\ 0 <= g_mount_count v <= MAX_MOUNTS;
  vo_roots : mounts_ok (mounts_of v) (shape (v_fs v));
  vo_dirs : forall m x, m ∈ mounts_of v -> m_active m = true -> m_mountpoint m <> [] /\
    (shape (v_fs v) !! m_root m = Some x -> t_ops x <> 0 /\ op_lookup (ops_of (t_ops x)) <> None);
  vo_live : forall h n, holds v h n -> is_Some (shape (v_fs v) !! n);
  vo_own : forall h h' n x, holds v h n -> holds v h' n -> h <> h' -> shape (v_fs v) !! n = Some x -> t_parent x = 0
}.

(** A node in the hands of the running call: a mount root, or owned by nobody
    else. *)
Definition borrowed (v : vfs_) (n : Z) : Prop :=
  n <> 0 /\ exists x, shape (v_fs v) !! n = Some x /\ (t_parent x = 0 \/ forall h, ~ holds v h n).

Lemma vfs_ok_more v s :
  vfs_ok v -> shape (v_fs v) ⊆ shape s -> shape s !! 0 = None -> vfs_ok (with_fs s v).
Proof.
  intros [A B [C1 C2] D E G] Sub N0.
  assert (Lk : forall n x, shape (v_fs v) !! n = Some x -> shape s !! n = Some x) by (intros n x Hx; by eapply lookup_weaken).
  constructor; cbn [g_fds g_mounts g_mount_count g_cwd v_fs with_fs]; [done|done| | | |].
  - constructor; [done|]. intros m Hm Am. destruct (C2 m Hm Am) as (t & St & Pt). exists t. split; [by apply Lk|done].
  - intros m x Hm Am. destruct (D m x Hm Am) as [D1 D2]. split; [done|]. intros Hx. apply D2.
    destruct (C2 m Hm Am) as (t & St & Pt). rewrite (Lk _ _ St) in Hx. congruence.
  - intros h n Hh. destruct (E h n Hh) as [x Hx]. exists x. by apply Lk.
  - intros h h' n x Hh Hh' Hne Hx. destruct (E h n Hh) as [y Hy]. rewrite (Lk _ _ Hy) in Hx. injection Hx as <-. exact (G h h' n y Hh Hh' Hne Hy).
Qed.

Lemma vfs_ok_same v s : vfs_ok v -> shape s = shape (v_fs v) -> vfs_ok (with_fs s v).
Proof. intros H E. apply vfs_ok_more; [done|by rewrite E|rewrite E; apply (vo_roots v H)]. Qed.

Lemma vfs_ok_free v s n x :
  vfs_ok v -> shape (v_fs v) !! n = Some x -> t_parent x <> 0 -> (forall h, ~ holds v h n) ->
  shape s = delete n (shape (v_fs v)) -> vfs_ok (with_fs s v).
Proof.
  intros [A B [C1 C2] D E G] Hn Hp Hf Es.
  constructor; cbn [g_fds g_mounts g_mount_count g_cwd v_fs with_fs]; [done|done| | | |].
  - constructor; [rewrite Es, lookup_delete_ne; [done|intros ->; congruence]|].
    intros m Hm Am. destruct (C2 m Hm Am) as (t & St & Pt). exists t. split; [|done].
    rewrite Es, lookup_delete_ne; [done|intros ->; congruence].
  - intros m y Hm Am. destruct (D m y Hm Am) as [D1 D2]. split; [done|]. intros Hx. apply D2.
    rewrite Es in Hx. by apply lookup_delete_Some in Hx as [_ Hx].
  - intros h n' Hh. rewrite Es, lookup_delete_ne; [exact (E h n' Hh)|]. intros ->. by apply (Hf h).
  - intros h h' n' y Hh Hh' Hne Hy. rewrite Es in Hy. apply lookup_delete_Some in Hy as [_ Hy]. exact (G h h' n' y Hh Hh' Hne Hy).
Qed.

Lemma xwp_lift {A} (m : X fst_ A) v (Q : A -> vfs_ -> Prop) :
  xwp m (v_fs v) (fun a s => Q a (with_fs s v)) -> xwp (lift m) v Q.
Proof. unfold xwp, lift. by destruct (m (v_fs v)) as [[a s]|]. Qed.

(** Resolution from a good state: the result is null or borrowed. *)
Lemma lookup_ok v follow path :
  vfs_ok v ->
  xwp (lookup_with ops_of follow path) v (fun n v' => vfs_ok v' /\ (n = 0 \/ borrowed v' n) /\
    exists s, v' = with_fs s v /\ looked (mounts_of v) (shape (v_fs v)) n s).
Proof.
  intros H. apply (xwp_eq (lift (vfs_lookup_impl ops_of SYMLINK_HOPS (mounts_of v) follow path))); [reflexivity|].
  pose proof (fun hops => vfs_lookup_impl_spec hops _ follow path _ (v_fs v) (vo_roots v H) eq_refl) as Sp.
  generalize SYMLINK_HOPS. intros hops. apply xwp_lift. eapply xwp_mono; [apply Sp|]. clear Sp.
  intros n s L. pose proof (mo_null _ _ (vo_roots v H)) as N0. destruct L as [[-> L]|[[R L]|(Hn & N & t & L & P)]].
  - split; [by apply vfs_ok_more; [|apply L..]|]. split; [by left|]. exists s. split; [done|by left].
  - split; [by apply vfs_ok_same|]. split; [|exists s; split; [done|right; by left]]. right.
    destruct R as (m & Hm & Am & <-). destruct (mo_root _ _ (vo_roots v H) m Hm Am) as (t & St & Pt).
    split; [intros E; congruence|]. exists t. cbn [v_fs with_fs]. rewrite L. split; [done|by left].
  - assert (O : vfs_ok (with_fs s v)).
    { apply vfs_ok_more; [done|rewrite L; by apply insert_subseteq|]. by rewrite L, lookup_insert_ne. }
    split; [done|]. split; [|exists s; split; [done|right; right; split; [done|]; split; [done|by exists t]]].
    right. split; [done|]. exists t. cbn [v_fs with_fs]. rewrite L. split; [apply lookup_insert_eq|]. right.
    intros h Hh. change (holds v h n) in Hh. destruct (vo_live v H h n Hh) as [y Hy]. congruence.
Qed.

(** ** Steps on a good state *)

Lemma with_fs_id (v : vfs_) : with_fs (v_fs v) v = v.
Proof. by destruct v. Qed.

Lemma xwp_deref_in v n t (Q : vfs_node -> vfs_ -> Prop) :
  shape (v_fs v) !! n = Some t -> (forall x, tag_of x = t -> nodes (v_fs v) !! n = Some x -> Q x v) -> xwp (lift (deref n)) v Q.
Proof. intros E HQ. apply xwp_lift. eapply xwp_deref; [exact E|]. intros x Ht Hx. rewrite with_fs_id. by apply HQ. Qed.

(** A call that makes and frees no node. *)
Lemma xwp_call_in {A} (f : fst_ -> A * fst_) d v t (Q : A -> vfs_ -> Prop) :
  vfs_ok v -> keeps f d -> shape (v_fs v) !! d = Some t ->
  (forall r s, shape s = shape (v_fs v) -> vfs_ok (with_fs s v) -> Q r (with_fs s v)) -> xwp (lift (call f)) v Q.
Proof.
  intros H K E HQ. apply xwp_lift, xwp_call. specialize (K _ _ E). apply HQ; [done|]. by apply vfs_ok_same.
Qed.

Lemma borrowed_same v n s : borrowed v n -> shape s = shape (v_fs v) -> borrowed (with_fs s v) n.
Proof. intros (Hn & x & Hx & Ho) E. split; [done|]. exists x. cbn [v_fs with_fs]. rewrite E. split; [done|]. destruct Ho as [?|Ho]; [by left|by right]. Qed.

(** Giving a borrowed node back. *)
Lemma xwp_release_in v n (Q : unit -> vfs_ -> Prop) :
  vfs_ok v -> borrowed v n ->
  (forall s, vfs_ok (with_fs s v) -> (forall n', n' <> n -> shape s !! n' = shape (v_fs v) !! n') -> Q tt (with_fs s v)) ->
  xwp (lift (release n)) v Q.
Proof.
  intros H (Hn & x & Hx & Ho) HQ. apply xwp_lift. eapply xwp_release; [exact Hx|]. intros s Es.
  destruct (Z.eqb_spec (t_parent x) 0).
  - apply HQ; [by apply vfs_ok_same|]. intros n' _. by rewrite Es.
  - destruct Ho as [?|Ho]; [done|]. apply HQ; [by eapply vfs_ok_free|]. intros n' Hne. by rewrite Es, lookup_delete_ne.
Qed.

(** Emptying a descriptor, and storing a borrowed node in a free one. *)
Lemma holds_set_fd v i e h n :
  zlen (g_fds v) = VFS_MAX_FDS -> 0 <= i < VFS_MAX_FDS ->
  holds (with_fds (g_fds v).[i <- e] v) h n <->
  (h = Some i /\ fd_active e = true /\ fd_node e = n) \/ (h <> Some i /\ holds v h n).
Proof.
  intros L Hi. destruct h as [j|]; cbn [holds g_fds g_cwd with_fds].
  - destruct (decide (j = i)) as [->|].
    + rewrite zget_zset_eq by lia. split; [intros (_ & A & B); by left|]. intros [(_ & A & B)|[? _]]; [done|congruence].
    + split.
      * intros (Hj & A & B). right. split; [congruence|]. rewrite zget_zset_ne in A, B by lia. done.
      * intros [(Ej & _)|(_ & Hj & A & B)]; [congruence|]. rewrite zget_zset_ne by lia. done.
  - split; [by right|]. intros [(? & _)|[_ Hh]]; [done|exact Hh].
Qed.

Lemma vfs_ok_set_fd v i e :
  vfs_ok v -> 0 <= i < VFS_MAX_FDS -> (fd_active e = true -> borrowed (with_fds (g_fds v).[i <- mk_fd 0 0 false 0] v) (fd_node e)) ->
  vfs_ok (with_fds (g_fds v).[i <- e] v).
Proof.
  intros [A B C D E G] Hi Hb. constructor; cbn [g_mounts g_mount_count v_fs with_fds]; [by cbn; rewrite zlen_zset|done|done|done| |].
  - intros h n Hh. apply holds_set_fd in Hh; [|done..]. destruct Hh as [(_ & Ea & En)|(_ & Hh)]; [|by eapply E].
    destruct (Hb Ea) as (_ & x & Hx & _). rewrite En in Hx. by exists x.
  - assert (K : forall h n x, h <> Some i -> holds v h n -> fd_active e = true -> fd_node e = n -> shape (v_fs v) !! n = Some x -> t_parent x = 0).
    { intros h n x Hne Hh Ea En Hx. destruct (Hb Ea) as (_ & y & Hy & Ho). rewrite En in Hy, Ho. cbn [v_fs with_fds] in Hy.
      rewrite Hy in Hx. injection Hx as ->. destruct Ho as [?|Ho]; [done|]. exfalso. apply (Ho h). apply holds_set_fd; [done|done|]. by right. }
    intros h h' n x Hh Hh' Hne Hx. apply holds_set_fd in Hh, Hh'; [|done..].
    destruct Hh as [(-> & Ea & En)|(Nh & Hh)], Hh' as [(-> & Ea' & En')|(Nh' & Hh')]; [done| | |].
    + exact (K h' n x Nh' Hh' Ea En Hx).
    + exact (K h n x Nh Hh Ea' En' Hx).
    + exact (G h h' n x Hh Hh' Hne Hx).
Qed.

Lemma vfs_ok_clear_fd (v : vfs_) i : vfs_ok v -> 0 <= i < VFS_MAX_FDS -> vfs_ok (with_fds (g_fds v).[i <- mk_fd 0 0 false 0] v).
Proof. intros H Hi. by apply vfs_ok_set_fd. Qed.

Lemma free_fd_spec (v : vfs_) : zlen (g_fds v) = VFS_MAX_FDS ->
  free_fd (g_fds v) = -1 \/ (3 <= free_fd (g_fds v) < VFS_MAX_FDS /\ fd_active (g_fds v).[free_fd (g_fds v)] = false).
Proof.
  intros L. unfold free_fd, VFS_MAX_FDS in *.
  destruct (find_from_spec (fun e => negb (fd_active e)) (drop 3 (g_fds v)) 3 ltac:(lia)) as [[E _]|(k & Hk & E & Fr & _)]; [by left|].
  right. assert (Ld : zlen (drop 3 (g_fds v)) = 61) by (unfold zlen in *; rewrite length_drop; lia). rewrite E. split; [lia|].
  replace ((drop 3 (g_fds v)).[k]) with ((g_fds v).[3 + k]) in Fr; [by apply negb_true_iff in Fr|].
  unfold zget. rewrite lookup_total_drop. f_equal. lia.
Qed.

Lemma install_fd_ok c n flags v :
  vfs_ok v -> borrowed v n ->
  xwp (install_fd ops_of c n flags) v (fun r v' => vfs_ok v' /\
    match r with
    | None => v' = v
    | Some i => exists s, shape s = shape (v_fs v) /\ 3 <= i < VFS_MAX_FDS /\ fd_active (g_fds v).[i] = false /\
        v' = with_fds (g_fds v).[i <- mk_fd n 0 true (caller_pid c)] (with_fs s v)
    end).
Proof.
  intros H B. pose proof B as (Hn & t & Ht & Ho). unfold install_fd. apply xwp_bind, xwp_get.
  destruct (free_fd_spec v (vo_fds v H)) as [E|[R Fr]]; [rewrite E; done|].
  destruct (Z.ltb_spec (free_fd (g_fds v)) 0); [lia|]. set (i := free_fd (g_fds v)) in *. clearbody i.
  apply xwp_bind. eapply xwp_deref_in; [exact Ht|]. intros x Tx _.
  assert (Fin : forall s, shape s = shape (v_fs v) -> vfs_ok (with_fs s v) ->
    vfs_ok (with_fds (g_fds v).[i <- mk_fd n 0 true (caller_pid c)] (with_fs s v))).
  { intros s Es Os. change (g_fds v) with (g_fds (with_fs s v)). apply vfs_ok_set_fd; [done|lia|]. intros _. cbn [fd_node].
    split; [done|]. exists t. cbn [v_fs with_fds with_fs]. rewrite Es. split; [done|]. destruct Ho as [?|Ho]; [by left|right].
    intros h Hh. apply holds_set_fd in Hh; [|exact (vo_fds v H)|lia]. destruct Hh as [(_ & [=] & _)|(_ & Hh)]. by apply (Ho h). }
  apply xwp_bind. destruct (op ops_of op_open x) as [f|] eqn:Ef.
  - apply op_some in Ef. apply xwp_bind. eapply xwp_call_in; [done|by eapply fs_open|exact Ht|]. intros r s Es Os.
    apply xwp_ret, xwp_bind, xwp_mod, xwp_ret. split; [by apply Fin|]. exists s. done.
  - apply xwp_ret, xwp_bind, xwp_mod, xwp_ret. rewrite <- (with_fs_id v) at 2. split; [apply (Fin (v_fs v)); [done|by rewrite with_fs_id]|].
    exists (v_fs v). split; [done|]. split; [lia|]. split; [done|]. by rewrite with_fs_id.
Qed.

(** ** Operations on descriptors *)

Lemma fd_ok_true fd v : fd_ok fd v = true -> 0 <= fd < VFS_MAX_FDS /\ holds v (Some fd) (fd_node (g_fds v).[fd]).
Proof.
  unfold fd_ok. rewrite !andb_true_iff, Z.leb_le, Z.ltb_lt. intros [[A B] C]. split; [done|]. done.
Qed.

Lemma vfs_close_ok fd v :
  vfs_ok v ->
  xwp (vfs_close ops_of fd) v (fun r v' => vfs_ok v' /\
    if fd_ok fd v then r = 0 /\ exists s x, shape (v_fs v) !! fd_node (g_fds v).[fd] = Some x /\
      shape s = (if t_parent x =? 0 then shape (v_fs v) else delete (fd_node (g_fds v).[fd]) (shape (v_fs v))) /\
      v' = with_fs s (with_fds (g_fds v).[fd <- mk_fd 0 0 false 0] v)
    else r = -1 /\ v' = v).
Proof.
  intros H. unfold vfs_close. apply xwp_bind, xwp_get. destruct (fd_ok fd v) eqn:Ok; cbn [negb]; [|by apply xwp_ret].
  destruct (fd_ok_true fd v Ok) as [R Hh]. cbv zeta. set (n := fd_node (g_fds v).[fd]) in *.
  destruct (vo_live v H _ _ Hh) as [x Hx]. assert (Hn : n <> 0) by (intros E; rewrite E, (mo_null _ _ (vo_roots v H)) in Hx; done).
  destruct (Z.eqb_spec n 0); [done|].
  assert (Rel : forall s1, shape s1 = shape (v_fs v) -> vfs_ok (with_fs s1 v) ->
    xwp (lift (release n)) (with_fs s1 v) (fun _ v2 => xwp (xmod (fun v => with_fds (g_fds v).[fd <- mk_fd 0 0 false 0] v) ~;; xret 0) v2
      (fun r v' => vfs_ok v' /\ r = 0 /\ exists s x, shape (v_fs v) !! n = Some x /\
        shape s = (if t_parent x =? 0 then shape (v_fs v) else delete n (shape (v_fs v))) /\
        v' = with_fs s (with_fds (g_fds v).[fd <- mk_fd 0 0 false 0] v)))).
  { intros s1 E1 O1. apply xwp_lift. eapply xwp_release; [cbn [v_fs with_fs]; rewrite E1; exact Hx|]. intros s2 E2.
    cbn [v_fs with_fs] in E2. rewrite E1 in E2.
    apply xwp_bind, xwp_mod, xwp_ret. split; [|split; [done|]; exists s2, x; split; [done|]; split; [done|by destruct v]].
    pose proof (vfs_ok_clear_fd v fd H R) as Oc. change (vfs_ok (with_fs s2 (with_fds (g_fds v).[fd <- mk_fd 0 0 false 0] v))).
    destruct (Z.eqb_spec (t_parent x) 0) as [|Hp]; [by apply vfs_ok_same|]. eapply (vfs_ok_free _ _ n x Oc); [done|done| |done].
    intros h Hc. apply holds_set_fd in Hc; [|exact (vo_fds v H)|done]. destruct Hc as [(_ & [=] & _)|(Nh & Hc)].
    apply Hp. exact (vo_own v H (Some fd) h n x Hh Hc (not_eq_sym Nh) Hx). }
  apply xwp_bind, xwp_bind. eapply xwp_deref_in; [exact Hx|]. intros y Ty _. apply xwp_bind.
  destruct (op ops_of op_close y) as [f|] eqn:Ef.
  - apply op_some in Ef. apply xwp_bind. eapply xwp_call_in; [done|by eapply fs_close|exact Hx|]. intros r s Es Os. by apply xwp_ret, Rel.
  - apply xwp_ret. rewrite <- (with_fs_id v) at 1. apply Rel; [done|]. by rewrite with_fs_id.
Qed.

(** A change of the offset. *)
Lemma vfs_ok_offset v fd off :
  vfs_ok v -> fd_ok fd v = true ->
  vfs_ok (with_fds (g_fds v).[fd <- mk_fd (fd_node (g_fds v).[fd]) off (fd_active (g_fds v).[fd]) (fd_owner_pid (g_fds v).[fd])] v).
Proof.
  intros H Ok. destruct (fd_ok_true fd v Ok) as [R Hh]. apply vfs_ok_set_fd; [done|done|]. cbn [fd_active fd_node]. intros _.
  destruct (vo_live v H _ _ Hh) as [x Hx].
  split; [intros E; rewrite E, (mo_null _ _ (vo_roots v H)) in Hx; done|]. exists x. split; [done|].
  destruct (decide (t_parent x = 0)); [by left|right]. intros h Hc. apply holds_set_fd in Hc; [|exact (vo_fds v H)|done].
  destruct Hc as [(_ & [=] & _)|(Nh & Hc)]. apply n. exact (vo_own v H _ _ _ x Hh Hc (not_eq_sym Nh) Hx).
Qed.

Lemma advance_ok fd n v : vfs_ok v -> fd_ok fd v = true -> vfs_ok (advance fd n v).
Proof. intros H Ok. unfold advance. destruct (0 <? n); [by apply vfs_ok_offset|done]. Qed.

(** What [vfs_read], [vfs_write] and [vfs_readdir] share: a call on the node of
    the descriptor and the new offset. *)
Lemma fd_call_ok {A} (f : fst_ -> A * fst_) (count : A -> Z) fd v x (Q : A -> vfs_ -> Prop) :
  vfs_ok v -> fd_ok fd v = true -> keeps f (fd_node (g_fds v).[fd]) -> shape (v_fs v) !! fd_node (g_fds v).[fd] = Some x ->
  (forall s, shape s = shape (v_fs v) ->
     vfs_ok (advance fd (count (f (v_fs v)).1) (with_fs s v)) -> (f (v_fs v)).2 = s ->
     Q (f (v_fs v)).1 (advance fd (count (f (v_fs v)).1) (with_fs s v))) ->
  xwp (r <~ lift (call f) ;; xmod (advance fd (count r)) ~;; xret r) v Q.
Proof.
  intros H Ok K Hx HQ. apply xwp_bind, xwp_lift, xwp_call, xwp_bind, xwp_mod, xwp_ret.
  pose proof (K _ _ Hx) as E. apply HQ; [done| |done]. apply advance_ok; [by apply vfs_ok_same|exact Ok].
Qed.

(** The entry checks that the descriptor operations have in common. *)
Lemma fd_entry_ok {A} fd v (bad : A) (k : vfs_node -> X vfs_ A) (Q : A -> vfs_ -> Prop) :
  vfs_ok v -> (fd_ok fd v = false -> Q bad v) ->
  (forall x, fd_ok fd v = true -> shape (v_fs v) !! fd_node (g_fds v).[fd] = Some (tag_of x) ->
     nodes (v_fs v) !! fd_node (g_fds v).[fd] = Some x -> xwp (k x) v Q) ->
  xwp (if negb (fd_ok fd v) then xret bad else
       if fd_node (g_fds v).[fd] =? 0 then xret bad else x <~ lift (deref (fd_node (g_fds v).[fd])) ;; k x) v Q.
Proof.
  intros H Hb Hk. destruct (fd_ok fd v) eqn:Ok; cbn [negb]; [|by apply xwp_ret, Hb].
  destruct (fd_ok_true fd v Ok) as [R Hh]. destruct (vo_live v H _ _ Hh) as [t Ht].
  destruct (Z.eqb_spec (fd_node (g_fds v).[fd]) 0) as [E|]; [rewrite E, (mo_null _ _ (vo_roots v H)) in Ht; done|].
  apply xwp_bind. eapply xwp_deref_in; [exact Ht|]. intros x Tx Nx. apply Hk; [done|by rewrite Tx|done].
Qed.

#[local] Abbreviation safe := (fun _ v' => vfs_ok v').

Lemma vfs_read_ok fd len v : vfs_ok v -> xwp (vfs_read ops_of fd len) v safe.
Proof.
  intros H. apply xwp_bind, xwp_get. apply fd_entry_ok; [done|done|]. intros x Ok Hx _.
  destruct (op ops_of op_read x) as [f|] eqn:Ef; [|by apply xwp_ret]. apply op_some in Ef.
  eapply (fd_call_ok _ fst fd v); [done|done|by eapply fs_read|exact Hx|]. auto.
Qed.

Lemma vfs_readdir_ok fd max v : vfs_ok v -> xwp (vfs_readdir ops_of fd max) v safe.
Proof.
  intros H. apply xwp_bind, xwp_get. apply fd_entry_ok; [done|done|]. intros x Ok Hx _. destruct (negb _); [by apply xwp_ret|].
  destruct (op ops_of op_readdir x) as [f|] eqn:Ef; [|by apply xwp_ret]. apply op_some in Ef.
  eapply (fd_call_ok _ fst fd v); [done|done|by eapply fs_readdir|exact Hx|]. auto.
Qed.

Lemma vfs_ok_log v l : vfs_ok v -> vfs_ok (with_log l v).
Proof. by intros [A B C D E G]. Qed.

Lemma vfs_write_ok fd buf v : vfs_ok v -> xwp (vfs_write ops_of fd buf) v safe.
Proof.
  intros H. apply xwp_bind, xwp_get. apply fd_entry_ok; [done|done|]. intros x Ok Hx _.
  destruct (op ops_of op_write x) as [f|] eqn:Ef; [|by apply xwp_ret]. apply op_some in Ef. apply xwp_bind, xwp_mod.
  assert (G : forall v1, v1 = v \/ (exists l, v1 = with_log l v) ->
    xwp (r <~ lift (call (f (fd_node (g_fds v).[fd]) (fd_offset (g_fds v).[fd]) buf)) ;; xmod (advance fd r) ~;; xret r) v1 safe).
  { intros v1 Hv. assert (O1 : vfs_ok v1) by (destruct Hv as [->|[l ->]]; [done|by apply vfs_ok_log]).
    assert (Ef' : g_fds v1 = g_fds v /\ v_fs v1 = v_fs v) by (by destruct Hv as [->|[l ->]]). destruct Ef' as [E1 E2].
    rewrite <- E1. eapply (fd_call_ok _ (fun r => r) fd v1); [done|unfold fd_ok in *; by rewrite E1|by eapply fs_write|by rewrite E2, E1|]. auto. }
  destruct (char_at _ _ =? 0); apply G; [by left|right; by eexists].
Qed.

Lemma vfs_fstat_ok fd v : vfs_ok v -> xwp (vfs_fstat fd) v safe.
Proof. intros H. apply xwp_bind, xwp_get. apply fd_entry_ok; [done|done|]. intros x Ok Hx _. by apply xwp_ret. Qed.

Lemma vfs_lseek_ok fd off whence v : vfs_ok v -> xwp (vfs_lseek fd off whence) v safe.
Proof.
  intros H. apply xwp_bind, xwp_get. apply fd_entry_ok; [done|done|]. intros x Ok Hx _. cbv zeta.
  destruct (if whence =? 0 then _ else _) as [o|]; [|by apply xwp_ret]. destruct (o <? 0); [by apply xwp_ret|].
  apply xwp_bind, xwp_mod, xwp_ret. by apply vfs_ok_offset.
Qed.

Lemma close_all_ok n i pid v : vfs_ok v -> xwp (close_all ops_of n i pid) v safe.
Proof.
  revert i v. induction n as [|n IH]; intros i v H; [by apply xwp_ret|]. cbn [close_all]. apply xwp_bind, xwp_get, xwp_bind.
  destruct (_ && _); [|by apply xwp_ret, IH]. apply xwp_bind. eapply xwp_mono; [by apply vfs_close_ok|].
  intros _ v1 [O1 _]. by apply xwp_ret, IH.
Qed.

(** ** Operations on paths *)

(** A resolution followed by [k] on the node that was found. *)
Lemma xwp_lookup_in {A} follow path v (bad : A) (k : Z -> X vfs_ A) (Q : A -> vfs_ -> Prop) :
  vfs_ok v -> (forall v', vfs_ok v' -> Q bad v') ->
  (forall n v', vfs_ok v' -> borrowed v' n -> xwp (k n) v' Q) ->
  xwp (n <~ lookup_with ops_of follow path ;; if n =? 0 then xret bad else k n) v Q.
Proof.
  intros H Hb Hk. apply xwp_bind. eapply xwp_mono; [by apply lookup_ok|]. intros n v1 (O1 & B & _).
  destruct (Z.eqb_spec n 0) as [->|Hn]; [by apply xwp_ret, Hb|]. destruct B as [?|B]; [done|]. by apply Hk.
Qed.

(** Dereferencing a borrowed node. *)
Lemma xwp_borrowed {A} n v (k : vfs_node -> X vfs_ A) (Q : A -> vfs_ -> Prop) :
  borrowed v n -> (forall x, shape (v_fs v) !! n = Some (tag_of x) -> nodes (v_fs v) !! n = Some x -> xwp (k x) v Q) ->
  xwp (x <~ lift (deref n) ;; k x) v Q.
Proof.
  intros (Hn & t & Ht & _) Hk. apply xwp_bind. eapply xwp_deref_in; [exact Ht|]. intros x Tx Nx. apply Hk; [by rewrite Tx|done].
Qed.

(** Releasing a borrowed node at the end of a call. *)
Lemma xwp_finish {A} n v (r : A) : vfs_ok v -> borrowed v n -> xwp (lift (release n) ~;; xret r) v safe.
Proof. intros H B. apply xwp_bind. eapply xwp_release_in; [done|done|]. intros s O _. by apply xwp_ret. Qed.

Lemma vfs_open_ok c path flags v : vfs_ok v -> xwp (vfs_open ops_of c path flags) v safe.
Proof.
  intros H. apply xwp_lookup_in; [done|done|]. intros n v1 O1 B1. apply xwp_borrowed; [done|]. intros x Hx _.
  destruct (_ || _); [by apply xwp_finish|]. apply xwp_bind. eapply xwp_mono; [by apply install_fd_ok|].
  intros [i|] v2 [O2 E2]; [by apply xwp_ret|]. subst v2. by apply xwp_finish.
Qed.

Lemma dir_op_ok sel path v :
  (forall o f d name, sel (ops_of o) = Some f -> keeps (f d name) d) -> vfs_ok v -> xwp (dir_op ops_of sel path) v safe.
Proof.
  intros Hs H. unfold dir_op. destruct (split_path path) as [[parent name]|]; [|by apply xwp_ret].
  apply xwp_lookup_in; [done|done|]. intros n v1 O1 B1. apply xwp_borrowed; [done|]. intros x Hx _.
  destruct (negb _); [by apply xwp_ret|]. destruct (op ops_of sel x) as [f|] eqn:Ef; [|by apply xwp_finish].
  apply op_some in Ef. apply xwp_bind. eapply xwp_call_in; [done|by eapply Hs|exact Hx|]. intros r s Es Os.
  apply xwp_finish; [done|]. by apply borrowed_same.
Qed.

Lemma attr_op_ok sel set path value v :
  (forall o f d x, sel (ops_of o) = Some f -> keeps (f d x) d) -> (forall y x, tag_of (set y x) = tag_of x) ->
  vfs_ok v -> xwp (attr_op ops_of sel set path value) v safe.
Proof.
  intros Hs Ht H. apply xwp_lookup_in; [done|done|]. intros n v1 O1 B1. apply xwp_borrowed; [done|]. intros x Hx _. apply xwp_bind.
  destruct (op ops_of sel x) as [f|] eqn:Ef; [|by apply xwp_ret, xwp_finish].
  apply op_some in Ef. apply xwp_bind. eapply xwp_call_in; [done|by eapply Hs|exact Hx|]. intros r s Es Os. apply xwp_bind.
  assert (B2 : borrowed (with_fs s v1) n) by (by apply borrowed_same).
  destruct (r =? 0); [|by apply xwp_ret, xwp_ret, xwp_finish].
  apply xwp_lift. cbn [v_fs with_fs]. apply xwp_bind. eapply xwp_deref; [rewrite Es; exact Hx|]. intros y Ty Ny.
  unfold xwp. set (s2 := mk_fs _ _). apply xwp_ret.
  assert (E2 : shape s2 = shape s).
  { unfold s2, shape. cbn [nodes]. rewrite fmap_insert, Ht, insert_id; [done|]. by rewrite lookup_fmap, Ny. }
  change (xwp (lift (release n) ~;; xret r) (with_fs s2 (with_fs s v1)) safe).
  apply xwp_finish; [by apply vfs_ok_same|by apply borrowed_same].
Qed.

Lemma vfs_stat_ok path v : vfs_ok v -> xwp (vfs_stat ops_of path) v safe.
Proof.
  intros H. apply xwp_lookup_in; [done|done|]. intros n v1 O1 B1. apply xwp_borrowed; [done|]. intros x Hx _. by apply xwp_finish.
Qed.

Lemma vfs_readlink_ok path size v : vfs_ok v -> xwp (vfs_readlink ops_of path size) v safe.
Proof.
  intros H. apply xwp_lookup_in; [done|done|]. intros n v1 O1 B1. apply xwp_borrowed; [done|]. intros x Hx _.
  destruct (negb _); [by apply xwp_finish|]. apply xwp_bind. destruct (op ops_of op_read x) as [f|] eqn:Ef; [|by apply xwp_ret, xwp_finish].
  apply op_some in Ef. eapply xwp_call_in; [done|by eapply fs_read|exact Hx|]. intros r s Es Os. apply xwp_finish; [done|by apply borrowed_same].
Qed.

Lemma vfs_symlink_ok target path v : vfs_ok v -> xwp (vfs_symlink ops_of target path) v safe.
Proof.
  intros H. unfold vfs_symlink. destruct (bool_decide _); [by apply xwp_ret|]. destruct (_ <? _); [by apply xwp_ret|].
  destruct (split_path path) as [[parent name]|]; [|by apply xwp_ret]. destruct (is_dot name); [by apply xwp_ret|].
  apply xwp_lookup_in; [done|done|]. intros n v1 O1 B1. apply xwp_borrowed; [done|]. intros x Hx _.
  destruct (negb _); [by apply xwp_ret|]. apply xwp_bind.
  destruct (op ops_of op_symlink x) as [f|] eqn:Ef; [|by apply xwp_ret, xwp_finish].
  apply op_some in Ef. eapply xwp_call_in; [done|by eapply fs_symlink|exact Hx|]. intros r s Es Os. apply xwp_finish; [done|by apply borrowed_same].
Qed.

(** A node that stays allocated and unowned stays borrowed. *)
Lemma borrowed_keep v s n :
  borrowed v n -> shape s !! n = shape (v_fs v) !! n -> borrowed (with_fs s v) n.
Proof. intros (Hn & x & Hx & Ho) E. split; [done|]. exists x. cbn [v_fs with_fs]. rewrite E. done. Qed.

Lemma looked_keep v s n n' :
  is_Some (shape (v_fs v) !! n) -> looked (mounts_of v) (shape (v_fs v)) n' s -> shape s !! n = shape (v_fs v) !! n.
Proof.
  intros [x Hx] [[_ [L _]]|[[_ L]|(_ & N & t & L & _)]]; [|by rewrite L|].
  - rewrite Hx. by eapply lookup_weaken.
  - rewrite L, lookup_insert_ne; [done|]. intros ->. congruence.
Qed.

Lemma vfs_rename_ok old new v : vfs_ok v -> xwp (vfs_rename ops_of old new) v safe.
Proof.
  intros H. unfold vfs_rename. destruct (split_path old) as [[op_ on]|]; [|by apply xwp_ret].
  destruct (split_path new) as [[np nn]|]; [|by apply xwp_ret]. destruct (_ || _); [by apply xwp_ret|].
  apply xwp_lookup_in; [done|done|]. intros d v1 O1 B1. apply xwp_borrowed; [done|]. intros x Hx _.
  destruct (negb _); [by apply xwp_ret|]. apply xwp_bind. eapply xwp_mono; [by apply lookup_ok|].
  intros d' v2 (O2 & Bd & s2 & -> & L).
  assert (B2 : borrowed (with_fs s2 v1) d) by (apply borrowed_keep; [done|eapply looked_keep; [by exists (tag_of x)|exact L]]).
  destruct (Z.eqb_spec d' 0) as [->|Hd']; [by apply xwp_finish|]. destruct Bd as [?|Bd]; [done|].
  apply xwp_borrowed; [done|]. intros y Hy _. destruct (negb _); [by apply xwp_finish|].
  apply xwp_borrowed; [done|]. intros x2 Hx2 _. apply xwp_bind.
  assert (Fin : forall (r : Z) s, shape s = shape s2 -> vfs_ok (with_fs s (with_fs s2 v1)) ->
    xwp (lift (release d) ~;; (if d' =? d then xret tt else lift (release d')) ~;; xret r) (with_fs s (with_fs s2 v1)) safe).
  { intros r s Es Os. apply xwp_bind. eapply xwp_release_in; [done|by apply borrowed_same|]. intros s3 O3 K3. apply xwp_bind.
    destruct (Z.eqb_spec d' d); [by apply xwp_ret, xwp_ret|].
    assert (B3 : borrowed (with_fs s3 (with_fs s (with_fs s2 v1))) d').
    { apply borrowed_keep; [by apply borrowed_same|by apply K3]. }
    eapply xwp_release_in; [done|done|]. intros s4 O4 _. by apply xwp_ret. }
  assert (Bad : xwp (xret (-1)) (with_fs s2 v1) (fun (r : Z) v' => xwp (lift (release d) ~;;
    (if d' =? d then xret tt else lift (release d')) ~;; xret r) v' safe)).
  { apply xwp_ret. rewrite <- (with_fs_id (with_fs s2 v1)). apply Fin; [done|by rewrite with_fs_id]. }
  destruct (op ops_of op_rename x2) as [f|] eqn:Ef; [|exact Bad]. apply op_some in Ef.
  destruct (nd_ops x2 =? nd_ops y); [|exact Bad]. eapply xwp_call_in; [done|by eapply fs_rename|exact Hx2|]. intros r s Es Os. by apply Fin.
Qed.

Lemma vfs_create_ok c path ty v : vfs_ok v -> xwp (vfs_create ops_of c path ty) v safe.
Proof.
  intros H. unfold vfs_create. destruct (split_path path) as [[parent name]|]; [|by apply xwp_ret]. destruct (is_dot name); [by apply xwp_ret|].
  apply xwp_lookup_in; [done|done|]. intros d v1 O1 B1. apply xwp_borrowed; [done|]. intros x Hx _.
  destruct (negb _); [by apply xwp_ret|]. destruct (op ops_of op_create x) as [f|] eqn:Ef; [|by apply xwp_ret]. apply op_some in Ef.
  apply xwp_bind, xwp_lift, xwp_call. pose proof (fs_create _ _ d name ty (v_fs v1) _ Ef (proj1 B1) Hx eq_refl) as M.
  destruct (f d name ty (v_fs v1)) as [n s]. cbn [fst snd] in *. destruct M as [[-> M]|(Hn & N & t & M)].
  - apply xwp_bind. eapply xwp_release_in; [by apply vfs_ok_same|by apply borrowed_same|]. intros s2 O2 _. by apply xwp_ret.
  - assert (O2 : vfs_ok (with_fs s v1)).
    { apply vfs_ok_more; [done|rewrite M; by apply insert_subseteq|]. rewrite M, lookup_insert_ne by done. exact (mo_null _ _ (vo_roots v1 O1)). }
    assert (Hnd : n <> d) by (intros ->; congruence). apply xwp_bind. eapply xwp_release_in; [done|apply borrowed_keep; [done|by rewrite M, lookup_insert_ne]|].
    intros s3 O3 K3. destruct (Z.eqb_spec n 0); [done|]. apply xwp_bind, xwp_mod, xwp_bind.
    set (v3 := with_log _ _). assert (O4 : vfs_ok v3) by (by apply vfs_ok_log).
    assert (B4 : borrowed v3 n).
    { split; [done|]. exists (mk_tag name t (nd_ops x) d). cbn [v_fs with_fs with_log v3]. rewrite K3 by done. cbn [v_fs with_fs].
      rewrite M. split; [apply lookup_insert_eq|]. right. intros h Hh. change (holds v1 h n) in Hh. destruct (vo_live v1 O1 h n Hh) as [y Hy]. congruence. }
    eapply xwp_mono; [by apply install_fd_ok|]. intros [i|] v5 [O5 E5]; [by apply xwp_ret|]. subst v5.
    apply xwp_bind, xwp_lift. destruct B4 as (_ & y & Hy & Ho). eapply xwp_kfree; [exact Hy|]. intros s6 E6. apply xwp_ret.
    eapply vfs_ok_free; [done|exact Hy| |destruct Ho as [Ho|Ho]; [|exact Ho]|done].
    + cbn [v_fs with_fs with_log v3] in Hy. rewrite K3 in Hy by done. cbn [v_fs with_fs] in Hy. rewrite M, lookup_insert_eq in Hy.
      injection Hy as <-. cbn. apply B1.
    + exfalso. cbn [v_fs with_fs with_log v3] in Hy. rewrite K3 in Hy by done. cbn [v_fs with_fs] in Hy. rewrite M, lookup_insert_eq in Hy.
      injection Hy as <-. cbn in Ho. apply (proj1 B1 Ho).
Qed.

(** ** Working directory and mounts *)

Lemma vfs_ok_set_cwd v n : vfs_ok v -> (n <> 0 -> borrowed (with_cwd 0 v) n) -> vfs_ok (with_cwd n v).
Proof.
  intros [A B C D E G] Hb.
  assert (Hh : forall h n', holds (with_cwd n v) h n' -> (h = None /\ n' = n /\ n <> 0) \/ (h <> None /\ holds v h n')).
  { intros [j|] n' Hh; [by right|]. left. destruct Hh as [<- Hn]. done. }
  constructor; [done|done|done|done| |].
  - intros h n' Hx. destruct (Hh h n' Hx) as [(_ & -> & Hn)|(_ & Hv)]; [|by eapply E].
    destruct (Hb Hn) as (_ & x & Hx' & _). by exists x.
  - assert (K : forall h n' x, h <> None -> holds v h n' -> n' = n -> n <> 0 -> shape (v_fs v) !! n' = Some x -> t_parent x = 0).
    { intros h n' x Hne Hv -> Hn Hx. destruct (Hb Hn) as (_ & y & Hy & Ho). cbn [v_fs with_cwd] in Hy. rewrite Hy in Hx. injection Hx as ->.
      destruct Ho as [?|Ho]; [done|]. exfalso. apply (Ho h). destruct h as [j|]; [exact Hv|done]. }
    intros h h' n' x H1 H2 Hne Hx. destruct (Hh h n' H1) as [(-> & E1 & Hn)|(N1 & V1)], (Hh h' n' H2) as [(-> & E2 & Hn')|(N2 & V2)].
    + done.
    + exact (K h' n' x N2 V2 E1 Hn Hx).
    + exact (K h n' x N1 V1 E2 Hn' Hx).
    + exact (G h h' n' x V1 V2 Hne Hx).
Qed.

Lemma set_cwd_ok n v : vfs_ok v -> borrowed v n -> xwp (set_cwd n) v safe.
Proof.
  intros H B. unfold set_cwd. apply xwp_bind, xwp_get. pose proof (vfs_ok_set_cwd v 0 H ltac:(done)) as O0.
  assert (Z0 : forall v1, borrowed v1 n -> borrowed (with_cwd 0 v1) n).
  { intros v1 (Hn & x & Hx & Ho). split; [done|]. exists x. split; [done|]. destruct Ho as [?|Ho]; [by left|right].
    intros [j|] Hh; [exact (Ho (Some j) Hh)|]. destruct Hh as [<- ?]. done. }
  apply xwp_bind. destruct (Z.eqb_spec (g_cwd v) 0) as [E|E]; [apply xwp_ret, xwp_mod, vfs_ok_set_cwd; auto|].
  assert (Hc : holds v None (g_cwd v)) by done. destruct (vo_live v H _ _ Hc) as [y Hy].
  apply xwp_lift. eapply xwp_release; [exact Hy|]. intros s Es. apply xwp_mod.
  change (vfs_ok (with_cwd n (with_cwd 0 (with_fs s v)))). destruct B as (Hn & x & Hx & Ho).
  assert (Os : vfs_ok (with_fs s (with_cwd 0 v))).
  { destruct (Z.eqb_spec (t_parent y) 0); [by apply vfs_ok_same|]. eapply (vfs_ok_free _ _ (g_cwd v) y O0); [done|done| |done].
    intros [j|] Hh; [|by destruct Hh as [<- ?]]. apply n0. exact (vo_own v H None (Some j) (g_cwd v) y Hc Hh ltac:(done) Hy). }
  apply (vfs_ok_set_cwd (with_fs s (with_cwd 0 v))); [done|]. intros _. apply Z0. split; [done|]. exists x. cbn [v_fs with_fs with_cwd].
  assert (Hs : shape s !! n = Some x).
  { rewrite Es. destruct (Z.eqb_spec (t_parent y) 0) as [|Hp]; [done|]. rewrite lookup_delete_ne; [done|]. intros Eq. subst n.
    destruct Ho as [Ho|Ho]; [congruence|]. by apply (Ho None). }
  split; [done|]. destruct Ho as [?|Ho]; [by left|right]. intros [j|] Hh; [exact (Ho (Some j) Hh)|]. by destruct Hh as [<- ?].
Qed.

Lemma chdir_mounts_ok ms path v :
  (forall m, m ∈ ms -> m ∈ mounts_of v) -> vfs_ok v -> xwp (chdir_mounts ops_of ms path) v safe.
Proof.
  revert v. induction ms as [|m ms IH]; intros v Hin H; [by apply xwp_ret|]. cbn [chdir_mounts].
  assert (Hin' : forall m', m' ∈ ms -> m' ∈ mounts_of v) by (intros; apply Hin; by right).
  destruct (m_active m) eqn:Am; cbn [negb]; [|by apply IH]. apply xwp_bind, xwp_get, xwp_bind.
  destruct (mo_root _ _ (vo_roots v H) m (Hin m ltac:(by left)) Am) as (t & St & Pt).
  destruct (vo_dirs v H m t (Hin m ltac:(by left)) Am) as [Np D]. destruct (D St) as [D1 D2].
  assert (Rest : forall (b : bool) v1, vfs_ok v1 -> mounts_of v1 = mounts_of v ->
    xwp (if negb (b && (zlen (m_mountpoint m) + zlen path + 2 <? ABSPATH_MAX)) then chdir_mounts ops_of ms path else
         if zlen (m_mountpoint m) =? 0 then xbug else
         let sep := if (m_mountpoint m).[zlen (m_mountpoint m) - 1] =? SLASH then [] else [SLASH] in
         node <~ vfs_lookup ops_of (m_mountpoint m ++ sep ++ path) ;;
         if node =? 0 then chdir_mounts ops_of ms path else
         y <~ lift (deref node) ;;
         if bool_decide (nd_type y = VFS_DIRECTORY) then set_cwd node ~;; xret true
         else lift (release node) ~;; chdir_mounts ops_of ms path) v1 safe).
  { intros b v1 O1 M1. assert (Hin1 : forall m', m' ∈ ms -> m' ∈ mounts_of v1) by (rewrite M1; done).
    destruct (negb _); [by apply IH|]. destruct (Z.eqb_spec (zlen (m_mountpoint m)) 0) as [E|_].
    { destruct (m_mountpoint m); [done|unfold zlen in E; cbn in E; lia]. }
    apply xwp_bind. eapply xwp_mono; [by apply lookup_ok|]. intros n v2 (O2 & B2 & s & -> & _).
    destruct (Z.eqb_spec n 0); [by apply IH|]. destruct B2 as [?|B2]; [done|]. apply xwp_borrowed; [done|]. intros y Hy _.
    destruct (bool_decide _); apply xwp_bind.
    - eapply xwp_mono; [by apply set_cwd_ok|]. intros a3 v3 O3. by apply xwp_ret.
    - eapply xwp_release_in; [done|done|]. intros s3 O3 _. by apply IH. }
  destruct (m_root m =? g_cwd v); [by apply xwp_ret, Rest|]. apply xwp_bind. eapply xwp_deref_in; [exact St|]. intros x Tx _.
  destruct (op ops_of op_lookup x) as [f|] eqn:Ef.
  2: { exfalso. unfold op in Ef. assert (Eo : nd_ops x = t_ops t) by (by rewrite <- Tx). rewrite Eo in Ef.
       destruct (Z.eqb_spec (t_ops t) 0); [done|congruence]. }
  apply op_some in Ef. apply xwp_bind, xwp_lift, xwp_call.
  assert (R0 : m_root m <> 0) by (intros E; rewrite E, (mo_null _ _ (vo_roots v H)) in St; done).
  pose proof (fs_lookup _ _ (m_root m) path (v_fs v) _ Ef R0 St ltac:(by rewrite <- Tx)) as M.
  destruct (f (m_root m) path (v_fs v)) as [p s]. cbn [fst snd] in *. destruct M as [[-> M]|(Hp & N & ty & M)].
  { apply xwp_ret, Rest; [by apply vfs_ok_same|done]. }
  destruct (Z.eqb_spec p 0); [done|].
  assert (O2 : vfs_ok (with_fs s v)).
  { apply vfs_ok_more; [done|rewrite M; by apply insert_subseteq|]. rewrite M, lookup_insert_ne by done. exact (mo_null _ _ (vo_roots v H)). }
  apply xwp_bind. eapply xwp_release_in; [done| |intros s3 O3 _; by apply xwp_ret, Rest].
  split; [done|]. eexists. cbn [v_fs with_fs]. rewrite M. split; [apply lookup_insert_eq|]. right. intros h Hh. change (holds v h p) in Hh.
  destruct (vo_live v H h p Hh) as [y Hy]. congruence.
Qed.

Lemma vfs_chdir_ok path v : vfs_ok v -> xwp (vfs_chdir ops_of path) v safe.
Proof.
  intros H. unfold vfs_chdir. apply xwp_bind, xwp_get, xwp_bind.
  assert (Rest : forall (b : bool) v1, vfs_ok v1 ->
    xwp (if b then xret 0 else
         let path := if char_at path 0 =? SLASH then path else if zlen path + 2 <? ABSPATH_MAX then SLASH :: path else path in
         node <~ vfs_lookup ops_of path ;;
         if node =? 0 then xret (-1) else
         y <~ lift (deref node) ;;
         if negb (bool_decide (nd_type y = VFS_DIRECTORY)) then lift (release node) ~;; xret (-1) else set_cwd node ~;; xret 0) v1 safe).
  { intros [] v1 O1; [by apply xwp_ret|]. cbv zeta. apply xwp_lookup_in; [done|done|]. intros n v2 O2 B2.
    apply xwp_borrowed; [done|]. intros y Hy _. destruct (negb _); [by apply xwp_finish|]. apply xwp_bind.
    eapply xwp_mono; [by apply set_cwd_ok|]. intros a3 v3 O3. by apply xwp_ret. }
  destruct (_ || (g_cwd v =? 0)) eqn:Ec; [apply xwp_ret; exact (Rest false v H)|]. apply orb_false_iff in Ec as [_ Ec]. apply Z.eqb_neq in Ec.
  destruct (vo_live v H None (g_cwd v) ltac:(done)) as [t Ht]. apply xwp_bind. eapply xwp_deref_in; [exact Ht|]. intros x Tx _.
  destruct (_ =? 0); [apply xwp_ret; exact (Rest false v H)|]. eapply xwp_mono; [by apply chdir_mounts_ok|]. intros b v1 O1. by apply Rest.
Qed.

(** ** Mounting *)

(** What the callers of [vfs_mount] pass: a root that can be searched, and a path. *)
Definition mountable (s : fst_) (m : list Z * Z) : Prop :=
  m.1 <> [] /\ exists t, shape s !! m.2 = Some t /\ t_parent t = 0 /\ t_ops t <> 0 /\ op_lookup (ops_of (t_ops t)) <> None.

Lemma vfs_init_ok (s : fst_) : shape s !! 0 = None -> vfs_ok (vfs_init s).
Proof.
  intros N. assert (Fd : forall i, fd_active (g_fds (vfs_init s)).[i] = false).
  { intros i. unfold vfs_init. cbn [g_fds]. unfold zget. destruct (decide (Z.to_nat i < Z.to_nat VFS_MAX_FDS)%nat).
    - by rewrite lookup_total_replicate_2.
    - rewrite list_lookup_total_alt. rewrite (proj1 (lookup_replicate_None _ _ _)) by lia. done. }
  assert (Hh : forall h n, ~ holds (vfs_init s) h n).
  { intros [i|] n; cbn [holds]; [|by intros [<- ?]]. rewrite Fd. by intros (_ & ? & _). }
  constructor; [done|done| | | |].
  - constructor; [done|]. intros m Hm. by apply elem_of_nil in Hm.
  - intros m x Hm. by apply elem_of_nil in Hm.
  - intros h n X. by apply Hh in X.
  - intros h h' n x X. by apply Hh in X.
Qed.

Lemma vfs_mount_mounts mp root v :
  vfs_ok v -> root <> 0 -> g_mount_count v < MAX_MOUNTS ->
  mounts_of (vfs_mount mp root v).2 = mounts_of v ++ [mk_mount (take (Z.to_nat VFS_NAME_MAX) mp) root true].
Proof.
  intros H R C. destruct (vo_mounts v H) as [L [C0 _]]. unfold vfs_mount, mounts_of.
  destruct (Z.eqb_spec root 0); [done|]. destruct (Z.leb_spec MAX_MOUNTS (g_mount_count v)); [lia|]. cbn [snd g_mount_count g_mounts].
  unfold zset. replace (Z.to_nat (g_mount_count v + 1)) with (S (Z.to_nat (g_mount_count v))) by lia.
  assert (Lt : (Z.to_nat (g_mount_count v) < length (g_mounts v))%nat) by (unfold zlen in L; lia).
  erewrite take_S_r; [|by apply list_lookup_insert_eq]. by rewrite take_insert_ge by lia.
Qed.

Lemma vfs_mount_ok mp root v :
  vfs_ok v -> mountable (v_fs v) (mp, root) -> vfs_ok (vfs_mount mp root v).2 /\ v_fs (vfs_mount mp root v).2 = v_fs v.
Proof.
  intros H (Np & t & St & Pt & Ot & Lt). cbn [fst snd] in *.
  assert (R0 : root <> 0) by (intros E; rewrite E, (mo_null _ _ (vo_roots v H)) in St; done).
  destruct (Z.leb_spec MAX_MOUNTS (g_mount_count v)) as [Full|C].
  { unfold vfs_mount. destruct (Z.eqb_spec root 0); [done|]. destruct (Z.leb_spec MAX_MOUNTS (g_mount_count v)); [done|lia]. }
  pose proof (vfs_mount_mounts mp root v H R0 C) as Em. destruct H as [A [B1 B2] [C1 C2] D E G].
  assert (Ev : (vfs_mount mp root v).2 = mk_vfs (g_mounts v).[g_mount_count v <- mk_mount (take (Z.to_nat VFS_NAME_MAX) mp) root true]
        (g_fds v) (g_mount_count v + 1) (g_cwd v) (v_fs v) (v_log v)).
  { unfold vfs_mount. destruct (Z.eqb_spec root 0); [done|]. destruct (Z.leb_spec MAX_MOUNTS (g_mount_count v)); [lia|done]. }
  split; [|by rewrite Ev]. constructor.
  - by rewrite Ev.
  - rewrite Ev. cbn [g_mounts g_mount_count]. rewrite zlen_zset. lia.
  - rewrite Em, Ev. constructor; [done|]. cbn [v_fs]. intros m Hm Am. apply elem_of_app in Hm as [Hm|Hm]; [by apply C2|].
    apply list_elem_of_singleton in Hm as ->. by exists t.
  - rewrite Em, Ev. cbn [v_fs]. intros m x Hm Am. apply elem_of_app in Hm as [Hm|Hm]; [by apply D|].
    apply list_elem_of_singleton in Hm as ->. cbn [m_mountpoint m_root]. split; [by destruct mp|]. intros Hx. rewrite St in Hx. by injection Hx as <-.
  - rewrite Ev. exact E.
  - rewrite Ev. exact G.
Qed.

(** The mounts made at boot. *)
Definition mount_all (ms : list (list Z * Z)) (v : vfs_) : vfs_ := fold_left (fun v m => (vfs_mount m.1 m.2 v).2) ms v.

Lemma mount_all_ok ms v : vfs_ok v -> Forall (mountable (v_fs v)) ms -> vfs_ok (mount_all ms v).
Proof.
  revert v. induction ms as [|[mp root] ms IH]; intros v H M; [done|]. inversion M as [|? ? M1 M2]; subst. cbn [mount_all fold_left fst snd].
  destruct (vfs_mount_ok mp root v H M1) as [O E]. apply IH; [done|]. by rewrite E.
Qed.

(** ** Opening *)

Lemma xwp_true {S A} (m : X S A) s P : xwp m s P -> xwp m s (fun a s' => m s = Some (a, s') /\ P a s').
Proof. unfold xwp. by destruct (m s) as [[a s']|]. Qed.

(** Both outcomes of [vfs_open], in terms of what the path resolves to. *)
Definition opened (c : option caller) (path : list Z) (flags : Z) (v : vfs_) (fd : Z) (v1 : vfs_) : Prop :=
  exists n v0, vfs_lookup ops_of path v = Some (n, v0) /\
  ((fd = -1 /\ g_fds v1 = g_fds v /\
     (n = 0 \/ exists x, nodes (v_fs v0) !! n = Some x /\
        (nd_ops x = 0 \/ may_open c flags x = false \/ forall i, 3 <= i < VFS_MAX_FDS -> fd_active (g_fds v).[i] = true))) \/
   (3 <= fd < VFS_MAX_FDS /\ fd_active (g_fds v).[fd] = false /\ g_fds v1 = (g_fds v).[fd <- mk_fd n 0 true (caller_pid c)] /\
     g_cwd v1 = g_cwd v /\ exists x, nodes (v_fs v0) !! n = Some x /\ may_open c flags x = true /\ shape (v_fs v1) = shape (v_fs v0))).

Lemma free_fd_none (v : vfs_) i :
  zlen (g_fds v) = VFS_MAX_FDS -> free_fd (g_fds v) = -1 -> 3 <= i < VFS_MAX_FDS -> fd_active (g_fds v).[i] = true.
Proof.
  intros L E Hi. unfold free_fd, VFS_MAX_FDS in *.
  assert (Ld : zlen (drop 3 (g_fds v)) = 61) by (unfold zlen in *; rewrite length_drop; lia).
  destruct (find_from_spec (fun e => negb (fd_active e)) (drop 3 (g_fds v)) 3 ltac:(lia)) as [[_ A]|(k & Hk & E' & _)]; [|lia].
  specialize (A (i - 3) ltac:(lia)). replace ((drop 3 (g_fds v)).[i - 3]) with ((g_fds v).[i]) in A.
  - by apply negb_false_iff in A.
  - unfold zget. rewrite lookup_total_drop. f_equal. lia.
Qed.

Lemma install_fd_none c n flags (v v' : vfs_) :
  vfs_ok v -> install_fd ops_of c n flags v = Some (None, v') -> free_fd (g_fds v) = -1.
Proof.
  intros H E. destruct (free_fd_spec v (vo_fds v H)) as [?|[R _]]; [done|]. exfalso. revert E. unfold install_fd, xbind, xget.
  destruct (Z.ltb_spec (free_fd (g_fds v)) 0); [lia|]. destruct (lift (deref n) v) as [[x v1]|]; [|done].
  destruct (op ops_of op_open x); [destruct (lift _ v1) as [[? ?]|]|]; done.
Qed.

Lemma vfs_open_spec c path flags v :
  vfs_ok v -> xwp (vfs_open ops_of c path flags) v (opened c path flags v).
Proof.
  intros H. apply xwp_bind. eapply xwp_mono; [apply xwp_true; by apply lookup_ok|]. intros n v0 (El & O0 & B & s & Ev & _).
  destruct (Z.eqb_spec n 0) as [->|Hn]. { apply xwp_ret. exists 0, v0. split; [exact El|]. left. split; [done|]. split; [by subst v0|by left]. }
  destruct B as [?|B]; [done|]. apply xwp_borrowed; [done|]. intros x Hx Nx.
  assert (Ef : g_fds v0 = g_fds v) by (by subst v0).
  destruct ((nd_ops x =? 0) || negb (may_open c flags x)) eqn:Ep.
  { apply xwp_bind. eapply xwp_release_in; [done|done|]. intros s1 _ _. apply xwp_ret. exists n, v0. split; [exact El|]. left.
    split; [done|]. split; [by subst v0|right]. exists x. split; [done|]. apply orb_true_iff in Ep as [Ep|Ep]; [left; by apply Z.eqb_eq|right; left].
    by apply negb_true_iff. }
  apply orb_false_iff in Ep as [_ Ep]. apply negb_false_iff in Ep.
  apply xwp_bind. eapply xwp_mono; [apply xwp_true; by apply install_fd_ok|]. intros [i|] v2 (Ei & O2 & E2).
  - apply xwp_ret. destruct E2 as (s2 & Es & Ri & Fi & ->). exists n, v0. split; [exact El|]. right. rewrite <- Ef.
    split; [done|]. split; [done|]. split; [done|]. split; [by subst v0|]. by exists x.
  - subst v2. apply xwp_bind. eapply xwp_release_in; [done|done|]. intros s1 _ _. apply xwp_ret. exists n, v0. split; [exact El|]. left.
    split; [done|]. split; [by subst v0|right]. exists x. split; [done|]. right. right. intros j Hj. rewrite <- Ef.
    apply free_fd_none; [exact (vo_fds v0 O0)|by eapply install_fd_none|done].
Qed.

(** ** Closing everything a process has open *)

Lemma vfs_close_fds fd v :
  vfs_ok v -> xwp (vfs_close ops_of fd) v (fun _ v' => vfs_ok v' /\
    g_fds v' = if fd_ok fd v then (g_fds v).[fd <- mk_fd 0 0 false 0] else g_fds v).
Proof.
  intros H. eapply xwp_mono; [by apply vfs_close_ok|]. intros r v' [O E]. split; [done|].
  destruct (fd_ok fd v); [destruct E as (_ & s & x & _ & _ & ->)|destruct E as [_ ->]]; done.
Qed.

(** The descriptor [e] after the process [pid] is gone. *)
Definition swept (pid : Z) (e : fd_entry) : fd_entry := if fd_active e && (fd_owner_pid e =? pid) then mk_fd 0 0 false 0 else e.

Lemma close_all_spec pid n i v :
  vfs_ok v -> 0 <= i -> i + Z.of_nat n = VFS_MAX_FDS ->
  xwp (close_all ops_of n i pid) v (fun _ v' => vfs_ok v' /\
    forall j, 0 <= j < VFS_MAX_FDS -> (g_fds v').[j] = if i <=? j then swept pid (g_fds v).[j] else (g_fds v).[j]).
Proof.
  revert i v. induction n as [|n IH]; intros i v H Hi Hn; cbn [close_all].
  { apply xwp_ret. split; [done|]. intros j Hj. destruct (Z.leb_spec i j); [lia|done]. }
  apply xwp_bind, xwp_get, xwp_bind.
  assert (Step : forall v1, vfs_ok v1 -> g_fds v1 = (g_fds v).[i <- swept pid (g_fds v).[i]] ->
    xwp (close_all ops_of n (i + 1) pid) v1 (fun _ v' => vfs_ok v' /\
      forall j, 0 <= j < VFS_MAX_FDS -> (g_fds v').[j] = if i <=? j then swept pid (g_fds v).[j] else (g_fds v).[j])).
  { intros v1 O1 E1. eapply xwp_mono; [apply (IH (i + 1) v1 O1); lia|]. intros u v' [O' E']. split; [done|]. intros j Hj.
    rewrite (E' j Hj), E1. pose proof (vo_fds v H) as L. destruct (decide (j = i)) as [->|].
    - rewrite zget_zset_eq by lia. destruct (Z.leb_spec (i + 1) i); [lia|]. by destruct (Z.leb_spec i i); [|lia].
    - rewrite zget_zset_ne by lia. destruct (Z.leb_spec (i + 1) j), (Z.leb_spec i j); try lia; done. }
  unfold swept in Step at 1. destruct (_ && _) eqn:Ea.
  - apply xwp_bind. eapply xwp_mono; [by apply vfs_close_fds|]. intros r v1 [O1 E1]. apply xwp_ret. apply Step; [done|].
    apply andb_true_iff in Ea as [Ea _]. unfold fd_ok in E1. rewrite Ea in E1.
    destruct (Z.leb_spec 0 i); [|lia]. destruct (Z.ltb_spec i VFS_MAX_FDS); [done|lia].
  - apply xwp_ret, Step; [done|]. symmetry. unfold zset, zget. apply list_insert_id.
    apply zget_lookup. rewrite (vo_fds v H). lia.
Qed.

(** ** The calls as a whole *)

(** The entry points, except [vfs_dup], [vfs_dup2] and [vfs_getcwd]. *)
Inductive request :=
| Open (c : option caller) (path : list Z) (flags : Z)
| Create (c : option caller) (path : list Z) (type : Z)
| Close (fd : Z)
| CloseAll (pid : Z)
| Read (fd len : Z)
| Write (fd : Z) (buf : list Z)
| Readdir (fd max : Z)
| Unlink (path : list Z)
| Rmdir (path : list Z)
| Chmod (path : list Z) (mode : Z)
| Chgrp (path : list Z) (gid : Z)
| Rename (old_path new_path : list Z)
| Symlink (target linkpath : list Z)
| Readlink (path : list Z) (bufsize : Z)
| Stat (path : list Z)
| Fstat (fd : Z)
| Lseek (fd offset whence : Z)
| Chdir (path : list Z).

Inductive answer := AInt (r : Z) | ABytes (r : Z * list Z) | AStat (r : option vfs_stat_t) | ANone.

Definition serve (r : request) : X vfs_ answer :=
  match r with
  | Open c p f => a <~ vfs_open ops_of c p f ;; xret (AInt a)
  | Create c p t => a <~ vfs_create ops_of c p t ;; xret (AInt a)
  | Close fd => a <~ vfs_close ops_of fd ;; xret (AInt a)
  | CloseAll pid => vfs_close_all_for_pid ops_of pid ~;; xret ANone
  | Read fd len => a <~ vfs_read ops_of fd len ;; xret (ABytes a)
  | Write fd buf => a <~ vfs_write ops_of fd buf ;; xret (AInt a)
  | Readdir fd max => a <~ vfs_readdir ops_of fd max ;; xret (ABytes a)
  | Unlink p => a <~ vfs_unlink ops_of p ;; xret (AInt a)
  | Rmdir p => a <~ vfs_rmdir ops_of p ;; xret (AInt a)
  | Chmod p m => a <~ vfs_chmod ops_of p m ;; xret (AInt a)
  | Chgrp p g => a <~ vfs_chgrp ops_of p g ;; xret (AInt a)
  | Rename a b => a <~ vfs_rename ops_of a b ;; xret (AInt a)
  | Symlink t l => a <~ vfs_symlink ops_of t l ;; xret (AInt a)
  | Readlink p n => a <~ vfs_readlink ops_of p n ;; xret (ABytes a)
  | Stat p => a <~ vfs_stat ops_of p ;; xret (AStat a)
  | Fstat fd => a <~ vfs_fstat fd ;; xret (AStat a)
  | Lseek fd o w => a <~ vfs_lseek fd o w ;; xret (AInt a)
  | Chdir p => a <~ vfs_chdir ops_of p ;; xret (AInt a)
  end.

Fixpoint serve_all (rs : list request) : X vfs_ (list answer) :=
  match rs with
  | [] => xret []
  | r :: rs' => a <~ serve r ;; b <~ serve_all rs' ;; xret (a :: b)
  end.

Lemma xwp_tag {A B} (m : X vfs_ A) (k : A -> B) v : xwp m v safe -> xwp (a <~ m ;; xret (k a)) v safe.
Proof. intros H. apply xwp_bind. eapply xwp_mono; [exact H|]. intros a v' O. by apply xwp_ret. Qed.

Lemma serve_ok r v : vfs_ok v -> xwp (serve r) v safe.
Proof.
  intros H. destruct r; cbn [serve]; apply xwp_tag;
    eauto using vfs_open_ok, vfs_create_ok, vfs_read_ok, vfs_write_ok, vfs_readdir_ok, vfs_rename_ok, vfs_symlink_ok, vfs_readlink_ok,
      vfs_stat_ok, vfs_fstat_ok, vfs_lseek_ok, vfs_chdir_ok.
  - eapply xwp_mono; [by apply vfs_close_ok|]. by intros ? ? [? _].
  - unfold vfs_close_all_for_pid. destruct (pid =? 0); [by apply xwp_ret|by apply close_all_ok].
  - apply dir_op_ok; [intros; by eapply fs_unlink|done].
  - apply dir_op_ok; [intros; by eapply fs_rmdir|done].
  - apply attr_op_ok; [intros; by eapply fs_chmod|done|done].
  - apply attr_op_ok; [intros; by eapply fs_chgrp|done|done].
Qed.

Lemma serve_all_ok rs v : vfs_ok v -> xwp (serve_all rs) v safe.
Proof.
  revert v. induction rs as [|r rs IH]; intros v H; [by apply xwp_ret|]. cbn [serve_all]. apply xwp_bind.
  eapply xwp_mono; [by apply serve_ok|]. intros a v1 O1. by apply xwp_tag, IH.
Qed.

(** C22: from boot on, whatever sequence of calls arrives (other than the two
    that duplicate a descriptor and the one that prints the working directory),
    and whatever the mounted file systems do within their contract, the VFS
    never reads or frees a node that is not allocated and keeps its invariant:
    every open descriptor and the working directory point to an allocated node,
    and no two of them to the same node unless it is a mount root. *)
Theorem vfs_requests_safe (s : fst_) ms rs :
  shape s !! 0 = None -> Forall (mountable s) ms ->
  exists answers v', serve_all rs (mount_all ms (vfs_init s)) = Some (answers, v') /\ vfs_ok v' /\ length answers = length rs.
Proof.
  intros N M. assert (H : vfs_ok (mount_all ms (vfs_init s))) by (apply mount_all_ok; [by apply vfs_init_ok|done]).
  revert H. generalize (mount_all ms (vfs_init s)). clear ms M. induction rs as [|r rs IH]; intros v H; [by exists [], v|].
  cbn [serve_all]. destruct (proj1 (xwp_run _ _ _) (serve_ok r v H)) as (a & v1 & E1 & O1).
  destruct (IH v1 O1) as (b & v2 & E2 & O2 & L2). exists (a :: b), v2. unfold xbind. rewrite E1, E2. cbn [length]. by rewrite L2.
Qed.

(** [vfs_open] either returns -1 and leaves the descriptors alone, and
    then the path does not resolve, or the node has no operations, or the mode
    bits of the caller's class refuse the access, or no descriptor from 3 on is
    free; or it returns a descriptor that was free, whose entry has offset 0,
    the caller as its owner and the node the path resolves to, and the mode bits
    allow the access.  Closing that descriptor succeeds, empties the entry and
    frees exactly the nodes the resolution allocated. *)
Theorem vfs_open_close c path flags v :
  vfs_ok v ->
  exists fd v1, vfs_open ops_of c path flags v = Some (fd, v1) /\ opened c path flags v fd v1 /\
  (fd <> -1 -> exists v2, vfs_close ops_of fd v1 = Some (0, v2) /\ vfs_ok v2 /\ shape (v_fs v2) = shape (v_fs v) /\
     g_cwd v2 = g_cwd v /\ fd_active (g_fds v2).[fd] = false /\
     forall i, 0 <= i < VFS_MAX_FDS -> i <> fd -> (g_fds v2).[i] = (g_fds v).[i]).
Proof.
  intros H. destruct (proj1 (xwp_run _ _ _) (vfs_open_ok c path flags v H)) as (fd & v1 & E & O1).
  destruct (proj1 (xwp_run _ _ _) (vfs_open_spec c path flags v H)) as (fd' & v1' & E' & Sp). rewrite E in E'. injection E' as <- <-.
  exists fd, v1. split; [done|]. split; [done|]. intros Hfd.
  destruct Sp as (n & v0 & El & [(? & _)|(R & Fr & Ef & Ec & x & Nx & _ & Es)]); [done|].
  pose proof (lookup_ok v true path H) as L. apply xwp_run in L as (n' & v0' & El' & O0 & B0 & s0 & Ev & Lk).
  unfold vfs_lookup in El. rewrite El in El'. injection El' as <- <-. pose proof (vo_fds v H) as Lf.
  destruct (proj1 (xwp_run _ _ _) (vfs_close_ok fd v1 O1)) as (r & v2 & E2 & O2 & C2).
  assert (Ok : fd_ok fd v1 = true).
  { unfold fd_ok. rewrite Ef, zget_zset_eq by lia. cbn [fd_active]. destruct (Z.leb_spec 0 fd), (Z.ltb_spec fd VFS_MAX_FDS); try lia; done. }
  rewrite Ok in C2. destruct C2 as (-> & s2 & y & Hy & E2s & ->). exists (with_fs s2 (with_fds (g_fds v1).[fd <- mk_fd 0 0 false 0] v1)).
  assert (En : fd_node (g_fds v1).[fd] = n) by (by rewrite Ef, zget_zset_eq by lia). rewrite En in *.
  split; [done|]. split; [done|]. cbn [v_fs g_cwd g_fds with_fs with_fds].
  split; [|split; [done|split; [by rewrite zget_zset_eq by (rewrite Ef, zlen_zset; lia)|]]].
  - rewrite E2s. rewrite Es in *. subst v0. cbn [v_fs with_fs] in *. destruct Lk as [[-> _]|[[(m & Hm & Am & Rm) Lk]|(Hn & Nn & t & Lk & Pt)]].
    + exfalso. pose proof (mo_null _ _ (vo_roots _ O0)) as N0. cbn [v_fs with_fs] in N0. congruence.
    + destruct (mo_root _ _ (vo_roots v H) m Hm Am) as (t & St & Pt). rewrite Rm, <- Lk, Hy in St. injection St as ->. by rewrite Pt.
    + rewrite Lk, lookup_insert_eq in Hy. injection Hy as <-. destruct (Z.eqb_spec (t_parent t) 0); [done|]. rewrite Lk. by apply delete_insert_id.
  - intros i Hi Hne. rewrite Ef, !zget_zset_ne by lia. done.
Qed.

(** When a process is gone, exactly its descriptors from 3 on are closed:
    each of them is emptied and every other descriptor, of any process, is left
    as it was, still pointing to an allocated node. *)
Theorem vfs_close_all_exact pid v :
  vfs_ok v -> pid <> 0 ->
  exists v', vfs_close_all_for_pid ops_of pid v = Some (tt, v') /\ vfs_ok v' /\
    forall j, 0 <= j < VFS_MAX_FDS -> (g_fds v').[j] = if 3 <=? j then swept pid (g_fds v).[j] else (g_fds v).[j].
Proof.
  intros H Hp. destruct (proj1 (xwp_run _ _ _) (close_all_spec pid _ 3 v H ltac:(lia) (eq_refl : 3 + Z.of_nat (Z.to_nat (VFS_MAX_FDS - 3)) = VFS_MAX_FDS)))
    as ([] & v' & E & O & Fd).
  exists v'. split; [|done]. unfold vfs_close_all_for_pid. by destruct (Z.eqb_spec pid 0).
Qed.

End Resolution.

(** ** A small file system *)

(** Every directory has the directory [d], the file [f] and the symbolic link
    [l] to [/d/f]; nothing is stored. *)
Module Demo.

Definition NAME_D : list Z := [100].
Definition NAME_F : list Z := [102].
Definition NAME_L : list Z := [108].
Definition TARGET : list Z := [47; 100; 47; 102].

Definition next_addr (s : fstate unit) : Z := 1 + foldr Z.max 0 (fst <$> map_to_list (nodes s)).

Definition make (d ops : Z) (name : list Z) (t : vfs_node_type) (s : fstate unit) : Z * fstate unit :=
  let n := next_addr s in (n, mk_fs (<[n := mk_node name t 5 7 ops d 0x1a4 1000 100]> (nodes s)) (fsd s)).

Definition demo_lookup (d : Z) (name : list Z) (s : fstate unit) : Z * fstate unit :=
  if bool_decide (name = NAME_D) then make d 1 name VFS_DIRECTORY s
  else if bool_decide (name = NAME_F) then make d 1 name VFS_FILE s
  else if bool_decide (name = NAME_L) then make d 1 name VFS_SYMLINK s
  else (0, s).

Definition demo_create (d : Z) (name : list Z) (type : Z) (s : fstate unit) : Z * fstate unit :=
  make d 1 name (if type =? 1 then VFS_DIRECTORY else VFS_FILE) s.

Definition demo_ops : vfs_ops unit := {|
  op_open := None;
  op_close := None;
  op_read := Some (fun _ off len s => (Z.min len 4, take (Z.to_nat len) TARGET, s));
  op_write := Some (fun _ _ buf s => (zlen buf, s));
  op_lookup := Some demo_lookup;
  op_readdir := None;
  op_create := Some demo_create;
  op_unlink := Some (fun _ _ s => (0, s));
  op_rmdir := None;
  op_chmod := None;
  op_rename := None;
  op_symlink := None;
  op_chgrp := None
|}.

Definition no_ops : vfs_ops unit := mk_ops None None None None None None None None None None None None None.

Definition ops (o : Z) : vfs_ops unit := if o =? 1 then demo_ops else no_ops.

Lemma next_addr_fresh s : next_addr s <> 0 /\ nodes s !! next_addr s = None.
Proof.
  assert (G : forall l, 0 <= foldr Z.max 0 l /\ Forall (fun a => a <= foldr Z.max 0 l) l).
  { induction l as [|a l [IH1 IH2]]; [done|]. cbn [foldr]. split; [lia|]. constructor; [lia|].
    eapply Forall_impl; [exact IH2|]. intros b Hb. cbn beta in Hb. lia. }
  unfold next_addr. destruct (G (fst <$> map_to_list (nodes s))) as [G1 G2]. split; [lia|].
  destruct (nodes s !! _) as [x|] eqn:E; [|done]. exfalso. apply elem_of_map_to_list in E.
  rewrite Forall_forall in G2. apply (list_elem_of_fmap_2 fst) in E. apply G2 in E. cbn [fst] in E. lia.
Qed.

Lemma make_made d name t s : made d 1 name s (make d 1 name t s).1 (make d 1 name t s).2.
Proof.
  destruct (next_addr_fresh s) as [A B]. right. split; [done|]. unfold make, shape. cbn [fst snd nodes].
  split; [by rewrite lookup_fmap, B|]. exists t. by rewrite fmap_insert.
Qed.

#[export] Instance demo_fs : FileSystem ops.
Proof.
  constructor; intros o; unfold ops; (destruct (Z.eqb_spec o 1) as [->|]; [|discriminate]); cbn [demo_ops op_lookup op_create op_open op_close op_read
    op_write op_readdir op_unlink op_rmdir op_chmod op_chgrp op_rename op_symlink]; try discriminate.
  - intros f d name s x [= <-] _ _ _. unfold demo_lookup. do 3 (destruct (bool_decide _); [apply make_made|]). by left.
  - intros f d name ty s x [= <-] _ _ _. apply make_made.
  - intros f d off len [= <-]. split; [done|]. intros s. cbn. lia.
  - by intros f d off buf [= <-].
  - by intros f d name [= <-].
Qed.

(** One mounted file system, its root at address 1. *)
Definition disk : fstate unit := mk_fs {[ 1 := mk_node [] VFS_DIRECTORY 0 2 1 0 0x1ed 0 0 ]} tt.
Definition mounts : list (list Z * Z) := [([SLASH], 1)].
Definition boot : vfs unit := mount_all mounts (vfs_init disk).

Lemma disk_mountable : Forall (mountable (ops_of := ops) disk) mounts.
Proof. constructor; [|done]. split; [done|]. by eexists (mk_tag [] VFS_DIRECTORY 1 0). Qed.

Lemma boot_ok : vfs_ok (ops_of := ops) boot.
Proof. apply mount_all_ok; [by apply vfs_init_ok|exact disk_mountable]. Qed.

Definition user : option caller := Some (mk_caller 7 1000 100).
Definition stranger : option caller := Some (mk_caller 8 2000 200).

(** Opened read-write by the owner, written, and refused to a stranger. *)
Example demo_session :
  exists v, serve_all (ops_of := ops) [Open user TARGET 2; Write 3 [1; 2; 3]; Lseek 3 0 2; Stat [47; 108]; Open stranger TARGET 1;
    Close 3; Close 3] boot
  = Some ([AInt 3; AInt 3; AInt 5; AStat (Some (mk_stat 5 VFS_FILE 7)); AInt (-1); AInt 0; AInt (-1)], v).
Proof. eexists. vm_compute. reflexivity. Qed.

Lemma vfs_requests_safe_witness :
  exists answers v', serve_all (ops_of := ops) [Open user TARGET 0; Chdir NAME_D; Close 3] (mount_all mounts (vfs_init disk)) = Some (answers, v') /\
    vfs_ok (ops_of := ops) v' /\ length answers = 3%nat.
Proof. apply (vfs_requests_safe disk mounts [Open user TARGET 0; Chdir NAME_D; Close 3]); [done|exact disk_mountable]. Defined.

Lemma vfs_open_close_witness :
  exists fd v1, vfs_open ops user TARGET 2 boot = Some (fd, v1) /\ opened (ops_of := ops) user TARGET 2 boot fd v1 /\
  (fd <> -1 -> exists v2, vfs_close ops fd v1 = Some (0, v2) /\ vfs_ok (ops_of := ops) v2 /\ shape (v_fs v2) = shape (v_fs boot) /\
     g_cwd v2 = g_cwd boot /\ fd_active (g_fds v2).[fd] = false /\
     forall i, 0 <= i < VFS_MAX_FDS -> i <> fd -> (g_fds v2).[i] = (g_fds boot).[i]).
Proof. apply (vfs_open_close user TARGET 2 boot). exact boot_ok. Defined.

(** Two files open, by two processes. *)
Definition two_open : vfs unit :=
  match serve_all (ops_of := ops) [Open user TARGET 0; Open stranger TARGET 0] boot with Some (_, v) => v | None => boot end.

Lemma two_open_ok : vfs_ok (ops_of := ops) two_open.
Proof.
  pose proof (serve_all_ok (ops_of := ops) [Open user TARGET 0; Open stranger TARGET 0] boot boot_ok) as H. unfold xwp in H. unfold two_open.
  destruct (serve_all _ boot) as [[a v]|]; [exact H|exact boot_ok].
Qed.

Lemma vfs_close_all_exact_witness :
  exists v', vfs_close_all_for_pid ops 7 two_open = Some (tt, v') /\ vfs_ok (ops_of := ops) v' /\
    forall j, 0 <= j < VFS_MAX_FDS -> (g_fds v').[j] = if 3 <=? j then swept 7 (g_fds two_open).[j] else (g_fds two_open).[j].
Proof. apply (vfs_close_all_exact 7 two_open); [exact two_open_ok|done]. Defined.

(** ** What the invariant does not cover *)

(** After [vfs_dup], closing one descriptor frees the node the other still
    points to: the next read is of freed memory. *)
Example dup_use_after_free :
  (a <~ vfs_open ops user TARGET 0 ;; b <~ (fun v => Some (vfs_dup a v)) ;; vfs_close ops a ~;; vfs_read ops b 4) boot = None.
Proof. vm_compute. reflexivity. Qed.

(** The working directory two levels down: its parent was freed by the
    resolution, and [vfs_getcwd] follows the pointer to it. *)
Example getcwd_use_after_free : (vfs_chdir ops [47; 100; 47; 100] ~;; vfs_getcwd 64) boot = None.
Proof. vm_compute. reflexivity. Qed.

(** One level down, it works. *)
Example getcwd_one_level :
  exists v, (vfs_chdir ops [47; 100] ~;; vfs_getcwd 64) boot = Some (Some [47; 100], v).
Proof. eexists. vm_compute. reflexivity. Qed.

(** A mount point matches as a string prefix: with a file system on [/d], the
    path [/df] resolves to its file [f]. *)
Example mount_prefix_no_boundary :
  let v := mount_all [([SLASH], 1); ([47; 100], 2)]
    (vfs_init (mk_fs (<[2 := mk_node [] VFS_DIRECTORY 0 2 1 0 0x1ed 0 0]> (nodes disk)) tt)) in
  exists n v', vfs_lookup ops [47; 100; 102] v = Some (n, v') /\ nd_parent <$> nodes (v_fs v') !! n = Some 2.
Proof. eexists _, _. vm_compute. split; reflexivity. Qed.

(** The mode bits bind root too: a file of another user without the owner's
    read bit is refused. *)
Example root_needs_the_bits :
  may_open None 0 (mk_node [] VFS_FILE 0 1 1 1 0 1000 100) = false.
Proof. reflexivity. Qed.

(** [vfs_write] tells the monitor the name of the node, not its path: a name
    without a leading slash matches no entry of the table, so that a write to a
    watched file is never reported. *)
Lemma write_never_reported name log : char_at name 0 <> SLASH -> (fim_on_write name log).2 = log.
Proof.
  intros H. unfold fim_on_write, fim_hook. destruct (fim_match name) as [w|] eqn:E; [|done].
  exfalso. destruct (fim_match_absolute name (ex_intro _ w E)) as (r & -> & _). by apply H.
Qed.

(** [vfs_create] in something that is not a directory keeps the node of the parent. *)
Example create_leaks_parent :
  exists v, vfs_create ops user [47; 102; 47; 120] 0 boot = Some (-1, v) /\ size (nodes (v_fs v)) = 2%nat.
Proof. eexists. vm_compute. split; reflexivity. Qed.

End Demo.
