(* ===== verification/BlockDev.v ===== *)
(** * Block devices (kernel/drivers/blockdev.c, blockdev.h, ramdisk.c)

    The sector interface that ExFS is written against, the device table, and the
    RAM disk as an implementation of the interface.  A device call may also
    never come back: [None] is the machine that stops in the middle of the call,
    with the device as it is then. *)

From S2P Require Import Prelude.

(** ** The interface *)

Definition BLOCKDEV_SECTOR_SIZE : Z := 512.

(** The two function pointers of [block_device_t]; a read returns the success
    flag and the buffer. *)
Record block_device (D : Type) := mk_dev {
  read_sector : Z -> list Z -> M D (bool * list Z);
  write_sector : Z -> list Z -> M D bool
}.
Arguments mk_dev {D}.
Arguments read_sector {D}.
Arguments write_sector {D}.

(** The contents of a device: the sectors it has. *)
Definition view : Type := Z -> option (list Z).

Definition vset (v : view) (lba : Z) (b : list Z) : view := fun l => if l =? lba then Some b else v l.

(** What a file system relies on: a sector that is there is read and written as
    a whole, a read changes nothing, and when the machine stops during a write
    the sector has its old or its new contents.  [dev_ok] is the invariant of the
    driver. *)
Class Device {D : Type} (dev : block_device D) (dev_ok : D -> Prop) (sectors : D -> view) : Prop := {
  dev_sector d lba b : dev_ok d -> sectors d lba = Some b -> zlen b = BLOCKDEV_SECTOR_SIZE;
  dev_read d lba buf : dev_ok d -> 0 <= lba < 2 ^ 32 ->
    exists r d', read_sector dev lba buf d = (Some r, d') /\ dev_ok d' /\ (forall l, sectors d' l = sectors d l) /\
      match sectors d lba with Some b => r = (true, b) | None => r.1 = false end;
  dev_write d lba b : dev_ok d -> 0 <= lba < 2 ^ 32 -> zlen b = BLOCKDEV_SECTOR_SIZE ->
    match write_sector dev lba b d with
    | (Some ok, d') => dev_ok d' /\ ok = bool_decide (is_Some (sectors d lba)) /\
        forall l, sectors d' l = (if ok then vset (sectors d) lba b else sectors d) l
    | (None, d') => dev_ok d' /\ ((forall l, sectors d' l = sectors d l) \/
        (is_Some (sectors d lba) /\ forall l, sectors d' l = vset (sectors d) lba b l))
    end
}.

(** A device that always comes back. *)
Class Steady {D : Type} (dev : block_device D) : Prop := {
  steady_read d lba buf : exists r d', read_sector dev lba buf d = (Some r, d');
  steady_write d lba b : exists r d', write_sector dev lba b d = (Some r, d')
}.

(** ** The RAM disk *)

Module Ramdisk.

(** [g_ramdisk_base] (the memory behind it), [g_ramdisk_size], [g_ramdisk_active]. *)
Record ramdisk := mk_rd { rd_base : list Z; rd_size : Z; rd_active : bool }.

Definition sector_fits (lba : Z) (d : ramdisk) : bool :=
  rd_active d && (u64 (u64 (lba * BLOCKDEV_SECTOR_SIZE) + BLOCKDEV_SECTOR_SIZE) <=? rd_size d).

Definition ramdisk_read_sector (lba : Z) (buf : list Z) : M ramdisk (bool * list Z) :=
  fun d => if sector_fits lba d then
             (Some (true, take 512 (drop (Z.to_nat (u64 (lba * BLOCKDEV_SECTOR_SIZE))) (rd_base d))), d)
           else (Some (false, buf), d).

Definition ramdisk_write_sector (lba : Z) (buf : list Z) : M ramdisk bool :=
  fun d => if sector_fits lba d then
             (Some true, mk_rd (memcpy (rd_base d) (u64 (lba * BLOCKDEV_SECTOR_SIZE)) buf) (rd_size d) true)
           else (Some false, d).

Definition g_ramdisk_dev : block_device ramdisk := mk_dev ramdisk_read_sector ramdisk_write_sector.

(** The sectors of an active disk whose memory has the size it says. *)
Definition ramdisk_ok (d : ramdisk) : Prop := 0 <= rd_size d < 2 ^ 63 /\ zlen (rd_base d) = rd_size d.

Definition ramdisk_sectors (d : ramdisk) : view := fun lba =>
  if (0 <=? lba) && (lba <? 2 ^ 32) && rd_active d && ((lba + 1) * 512 <=? rd_size d)
  then Some (take 512 (drop (Z.to_nat (lba * 512)) (rd_base d))) else None.

Definition ramdisk_is_available (d : ramdisk) : bool := rd_active d.
Definition ramdisk_get_size (d : ramdisk) : Z := rd_size d.

Lemma sector_fits_spec lba d :
  0 <= lba < 2 ^ 32 -> sector_fits lba d = rd_active d && ((lba + 1) * 512 <=? rd_size d) /\ u64 (lba * BLOCKDEV_SECTOR_SIZE) = lba * 512.
Proof.
  intros H. unfold sector_fits, BLOCKDEV_SECTOR_SIZE. rewrite (u64_small (lba * 512)) by lia. rewrite u64_small by lia.
  split; [|done]. do 2 f_equal. lia.
Qed.

Lemma sectors_fits lba d :
  0 <= lba < 2 ^ 32 ->
  ramdisk_sectors d lba = if sector_fits lba d then Some (take 512 (drop (Z.to_nat (lba * 512)) (rd_base d))) else None.
Proof.
  intros H. destruct (sector_fits_spec lba d H) as [-> _]. unfold ramdisk_sectors.
  destruct (Z.leb_spec 0 lba); [|lia]. destruct (Z.ltb_spec lba (2 ^ 32)); [done|lia].
Qed.

Lemma slice_length {A} (l : list A) n k : (n + k <= length l)%nat -> length (take k (drop n l)) = k.
Proof. intros H. rewrite length_take, length_drop. lia. Qed.

(** A write changes the slice of its sector and no other. *)
Lemma slice_memcpy {A} (l b : list A) i j :
  length b = 512%nat -> (j * 512 + 512 <= length l)%nat ->
  take 512 (drop (i * 512) (memcpy l (Z.of_nat (j * 512)) b)) = if decide (i = j) then b else take 512 (drop (i * 512) l).
Proof.
  intros Hb Hl. unfold memcpy. rewrite Nat2Z.id, Hb. destruct (decide (i = j)) as [->|Hne].
  - rewrite drop_app_length' by (rewrite length_take; lia). by rewrite take_app_length' by done.
  - destruct (decide (i < j)%nat).
    + rewrite drop_app_le by (rewrite length_take; lia). rewrite take_app_le by (rewrite length_drop, length_take; lia).
      rewrite !take_drop_commute, take_take. by replace ((i * 512 + 512) `min` (j * 512))%nat with (i * 512 + 512)%nat by lia.
    + rewrite drop_app_ge by (rewrite length_take; lia). rewrite length_take_le by lia. rewrite drop_app_ge by lia.
      rewrite drop_drop. do 2 f_equal. lia.
Qed.

#[export] Instance ramdisk_device : Device g_ramdisk_dev ramdisk_ok ramdisk_sectors.
Proof.
  constructor.
  - intros d lba b [S L] E. unfold ramdisk_sectors in E. destruct (_ && _) eqn:G; [|done]. injection E as <-.
    rewrite !andb_true_iff, !Z.leb_le in G. unfold zlen in *. rewrite slice_length; [done|lia].
  - intros d lba buf Ok H. cbn [read_sector g_ramdisk_dev]. unfold ramdisk_read_sector. rewrite (sectors_fits lba d H).
    destruct (sector_fits_spec lba d H) as [_ ->]. destruct (sector_fits lba d); by eexists _, _.
  - intros d lba b [Sz L] H Hb. cbn [write_sector g_ramdisk_dev]. unfold ramdisk_write_sector. rewrite (sectors_fits lba d H).
    destruct (sector_fits_spec lba d H) as [Ef ->]. destruct (sector_fits lba d); [|by rewrite bool_decide_false by (by intros [? ?])].
    symmetry in Ef. apply andb_true_iff in Ef as [Ea Ef]. apply Z.leb_le in Ef. unfold zlen, BLOCKDEV_SECTOR_SIZE in *.
    assert (Lm : length (memcpy (rd_base d) (lba * 512) b) = length (rd_base d)).
    { pose proof (zlen_memcpy (rd_base d) (lba * 512) b) as Z1. unfold zlen in Z1. rewrite Hb in Z1. lia. }
    split; [split; [done|]; unfold zlen; cbn [rd_base rd_size]; rewrite Lm; exact L|]. split; [by rewrite bool_decide_true|].
    intros l. unfold vset, ramdisk_sectors. cbn [rd_active rd_size rd_base]. rewrite Ea.
    destruct (Z.eqb_spec l lba) as [->|Hne].
    + destruct (Z.leb_spec 0 lba); [|lia]. destruct (Z.ltb_spec lba (2 ^ 32)); [|lia]. destruct (Z.leb_spec ((lba + 1) * 512) (rd_size d)); [|lia].
      cbn [andb]. f_equal. pose proof (slice_memcpy (rd_base d) b (Z.to_nat lba) (Z.to_nat lba) ltac:(lia) ltac:(lia)) as E.
      rewrite decide_True in E by done. rewrite <- E at 2. do 2 f_equal; [lia|f_equal; lia].
    + destruct (_ && _) eqn:G; [|done]. rewrite !andb_true_iff, !Z.leb_le, Z.ltb_lt in G. f_equal.
      pose proof (slice_memcpy (rd_base d) b (Z.to_nat l) (Z.to_nat lba) ltac:(lia) ltac:(lia)) as E.
      rewrite decide_False in E by lia. replace (Z.to_nat (l * 512)) with (Z.to_nat l * 512)%nat by lia. rewrite <- E. do 3 f_equal. lia.
Qed.

#[export] Instance ramdisk_steady : Steady g_ramdisk_dev.
Proof.
  constructor; intros d lba b; cbn [read_sector write_sector g_ramdisk_dev]; unfold ramdisk_read_sector, ramdisk_write_sector; case_match; by eexists _, _.
Qed.

End Ramdisk.

(** ** A device as a map from sectors to contents *)

Module Mapdisk.

Definition map_read (lba : Z) (buf : list Z) : M (gmap Z (list Z)) (bool * list Z) :=
  fun d => match d !! lba with Some b => (Some (true, b), d) | None => (Some (false, buf), d) end.

Definition map_write (lba : Z) (buf : list Z) : M (gmap Z (list Z)) bool :=
  fun d => match d !! lba with Some _ => (Some true, <[lba := buf]> d) | None => (Some false, d) end.

Definition mapdisk : block_device (gmap Z (list Z)) := mk_dev map_read map_write.

Definition map_ok (d : gmap Z (list Z)) : Prop := map_Forall (fun _ b => zlen b = BLOCKDEV_SECTOR_SIZE) d.

#[export] Instance map_device : Device mapdisk map_ok (fun d lba => d !! lba).
Proof.
  constructor.
  - intros d lba b Ok E. by eapply Ok.
  - intros d lba buf Ok H. cbn [read_sector mapdisk]. unfold map_read. destruct (d !! lba) as [b|]; by eexists _, _.
  - intros d lba b Ok H L. cbn [write_sector mapdisk]. unfold map_write. destruct (d !! lba) as [b'|] eqn:E.
    + split; [by apply map_Forall_insert_2|]. split; [by rewrite bool_decide_true|]. intros l. unfold vset.
      destruct (Z.eqb_spec l lba) as [->|]; [apply lookup_insert_eq|by rewrite lookup_insert_ne].
    + split; [done|]. split; [by rewrite bool_decide_false by (by intros [? ?])|done].
Qed.

#[export] Instance map_steady : Steady mapdisk.
Proof. constructor; intros d lba b; cbn [read_sector write_sector mapdisk]; unfold map_read, map_write; case_match; by eexists _, _. Qed.

(** A blank device of [n] sectors. *)
Definition blank (n : Z) : gmap Z (list Z) := list_to_map ((fun i => (i, replicate 512 0)) <$> seqZ 0 n).

Lemma blank_ok n : map_ok (blank n).
Proof.
  intros i b E. apply elem_of_list_to_map_2 in E. apply list_elem_of_fmap in E as (j & [= -> ->] & _). done.
Qed.

Lemma blank_sector n i : 0 <= i < n -> blank n !! i = Some (replicate 512 0).
Proof.
  intros H. apply elem_of_list_to_map_1.
  - rewrite <- list_fmap_compose. cbn. rewrite (list_fmap_ext _ id (seqZ 0 n)) by done. rewrite list_fmap_id. apply NoDup_seqZ.
  - apply list_elem_of_fmap. exists i. split; [done|]. apply elem_of_seqZ. lia.
Qed.

End Mapdisk.

(** ** A device whose power fails *)

(** After [n] more writes the machine stops. *)
Module Powered.

Section Powered.
Context {D : Type} (dev : block_device D).

Definition powered_read (lba : Z) (buf : list Z) : M (D * nat) (bool * list Z) :=
  fun '(d, n) => let '(r, d') := read_sector dev lba buf d in (r, (d', n)).

Definition powered_write (lba : Z) (buf : list Z) : M (D * nat) bool :=
  fun '(d, n) => match n with
                 | O => (None, (d, O))
                 | S n' => let '(r, d') := write_sector dev lba buf d in (r, (d', n'))
                 end.

Definition powered : block_device (D * nat) := mk_dev powered_read powered_write.

#[export] Instance powered_device (dev_ok : D -> Prop) (sectors : D -> view) :
  Device dev dev_ok sectors -> Device powered (fun d => dev_ok d.1) (fun d => sectors d.1).
Proof.
  intros Dv. constructor.
  - intros [d n] lba b. apply dev_sector.
  - intros [d n] lba buf Ok H. cbn [read_sector powered powered_read]. destruct (dev_read d lba buf Ok H) as (r & d' & -> & W). by exists r, (d', n).
  - intros [d [|n]] lba b Ok H L; cbn [write_sector powered powered_write]; [split; [done|by left]|].
    pose proof (dev_write d lba b Ok H L) as W. by destruct (write_sector dev lba b d) as [[ok|] d'].
Qed.

End Powered.

End Powered.

(** ** The device table *)

(** A device is known by its name; [None] is an empty slot. *)
Module Table.

Definition BLOCKDEV_MAX_DEVICES : nat := 4.

Section Table.
Context {B : Type}.

(** A registered device: its name and the pointer to it. *)
Record table := mk_table { g_devices : list (option (list Z * B)); g_root : option B }.

Definition named (name : list Z) (e : option (list Z * B)) : bool :=
  match e with Some (n, _) => bool_decide (n = name) | None => false end.

Definition is_empty (e : option (list Z * B)) : bool := match e with Some _ => false | None => true end.

Definition blockdev_register (name : list Z) (dev : B) (t : table) : bool * table :=
  let i := find_from (named name) (g_devices t) 0 in
  if 0 <=? i then (true, mk_table (g_devices t).[i <- Some (name, dev)] (g_root t)) else
  let j := find_from is_empty (g_devices t) 0 in
  if 0 <=? j then (true, mk_table (g_devices t).[j <- Some (name, dev)] (g_root t)) else (false, t).

Definition blockdev_find (name : list Z) (t : table) : option B :=
  let i := find_from (named name) (g_devices t) 0 in
  if 0 <=? i then snd <$> (g_devices t).[i] else None.

Definition blockdev_set_root (dev : option B) (t : table) : table := mk_table (g_devices t) dev.
Definition blockdev_root (t : table) : option B := g_root t.

Lemma find_set (f : option (list Z * B) -> bool) l k x :
  0 <= k < zlen l -> f x = true -> (forall j, 0 <= j < k -> f l.[j] = false) -> find_from f l.[k <- x] 0 = k.
Proof.
  intros Hk Fx Hj. destruct (find_from_spec f l.[k <- x] 0 ltac:(lia)) as [[_ E]|(m & Hm & -> & Fm & Lm)]; rewrite zlen_zset in *.
  - specialize (E k Hk). rewrite zget_zset_eq in E by lia. congruence.
  - destruct (Z.lt_trichotomy m k) as [Hlt|[->|Hlt]]; [|done|].
    + rewrite zget_zset_ne, Hj in Fm by lia. done.
    + specialize (Lm k ltac:(lia)). rewrite zget_zset_eq in Lm by lia. congruence.
Qed.

(** Registering makes the device findable under its name; a full table is left
    as it is. *)
Lemma blockdev_register_find name dev t :
  let '(ok, t') := blockdev_register name dev t in
  if ok then blockdev_find name t' = Some dev /\ g_root t' = g_root t else t' = t.
Proof.
  assert (Nm : named name (Some (name, dev)) = true) by (cbn; by apply bool_decide_true).
  assert (Found : forall k, 0 <= k < zlen (g_devices t) -> (forall j, 0 <= j < k -> named name (g_devices t).[j] = false) ->
    blockdev_find name (mk_table (g_devices t).[k <- Some (name, dev)] (g_root t)) = Some dev).
  { intros k Hk Hj. unfold blockdev_find. cbn [g_devices]. rewrite find_set by done. destruct (Z.leb_spec 0 k); [|lia].
    by rewrite zget_zset_eq by lia. }
  unfold blockdev_register. destruct (find_from_spec (named name) (g_devices t) 0 ltac:(lia)) as [[-> A]|(k & Hk & -> & _ & Lk)].
  - change (0 <=? -1) with false. cbv iota.
    destruct (find_from_spec is_empty (g_devices t) 0 ltac:(lia)) as [[-> _]|(k & Hk & -> & _ & Lk)]; [done|].
    destruct (Z.leb_spec 0 (0 + k)); [|lia]. split; [|done]. apply Found; [lia|]. intros j Hj. apply A. lia.
  - destruct (Z.leb_spec 0 (0 + k)); [|lia]. split; [|done]. apply Found; [lia|]. intros j Hj. apply Lk. lia.
Qed.

End Table.
Arguments table : clear implicits.

End Table.

(** ** Bringing up the RAM disk *)

Module RamdiskInit.
Import Ramdisk Table.

(** The name of [g_ramdisk_dev]: ram0. *)
Definition RAMDISK_NAME : list Z := [114; 97; 109; 48].

Section Init.
Context {B : Type} (ram0 : B).

(** [mem] is the memory from [base_addr] on. *)
Definition ramdisk_init (base_addr size : Z) (mem : list Z) (d : ramdisk) (t : table B) : ramdisk * table B :=
  if (base_addr =? 0) || (size <? BLOCKDEV_SECTOR_SIZE) then (mk_rd (rd_base d) (rd_size d) false, t)
  else (mk_rd mem size true, (blockdev_register RAMDISK_NAME ram0 t).2).

Definition ramdisk_get_blockdev (d : ramdisk) : option B := if rd_active d then Some ram0 else None.

(** A RAM disk that came up on memory of the size it was given keeps the
    invariant of the driver, has as many sectors as fit, and is found under its
    name when the table had room. *)
Lemma ramdisk_init_ok base_addr size mem d t :
  base_addr <> 0 -> BLOCKDEV_SECTOR_SIZE <= size < 2 ^ 41 -> zlen mem = size ->
  let '(d', t') := ramdisk_init base_addr size mem d t in
  ramdisk_ok d' /\ ramdisk_get_blockdev d' = Some ram0 /\ (forall l, is_Some (ramdisk_sectors d' l) <-> 0 <= l /\ (l + 1) * 512 <= size) /\
  ((blockdev_register RAMDISK_NAME ram0 t).1 = true -> blockdev_find RAMDISK_NAME t' = Some ram0).
Proof.
  intros Hb Hs Hm. unfold ramdisk_init. destruct (Z.eqb_spec base_addr 0); [done|]. unfold BLOCKDEV_SECTOR_SIZE in *.
  destruct (Z.ltb_spec size 512); [lia|]. cbn [orb]. split; [split; cbn; lia|]. split; [done|]. split.
  - intros l. unfold ramdisk_sectors. cbn [rd_active rd_size rd_base]. destruct (Z.leb_spec 0 l), (Z.ltb_spec l (2 ^ 32)), (Z.leb_spec ((l + 1) * 512) size);
      cbn [andb]; (split; [intros [? ?]; first [lia|done]|intros; first [lia|by eexists]]).
  - intros E. pose proof (blockdev_register_find RAMDISK_NAME ram0 t) as F. destruct (blockdev_register _ _ _) as [ok t']. cbn in E. subst ok. apply F.
Qed.

End Init.

End RamdiskInit.
