(* ===== verification/Journal.v ===== *)
(** * ExFS: blocks, block cache and metadata journal (kernel/fs/exfs/exfs.c, exfs.h)

    A volume on a block device: 4096-byte blocks of eight sectors, a
    write-through cache of 64 blocks, and the redo journal that makes a group of
    metadata blocks change together.  A run that the machine does not survive
    ([None]: the armed crash hook, or the device during a write) ends with the
    device as it is then.  The theorem is that after any such run, however often
    the recovery is itself interrupted, the blocks outside the journal are those
    before the transaction or those after it. *)

From S2P Require Import Prelude AuditRing BlockDev.

(** ** Data *)

Definition EXFS_MAGIC : Z := 0x45584653.
Definition EXFS_BLOCK_SIZE : Z := 4096.
Definition EXFS_JOURNAL_MAGIC : Z := 0x45584a4c.
Definition EXFS_JOURNAL_MAX_BLOCKS : Z := 16.
Definition EXFS_CACHE_SIZE : Z := 64.

Record exfs_superblock := mk_sb {
  sb_magic : Z;
  sb_version : Z;
  sb_total_blocks : Z;
  sb_free_blocks : Z;
  sb_total_inodes : Z;
  sb_free_inodes : Z;
  sb_inode_table_block : Z;
  sb_block_bitmap_block : Z;
  sb_data_start_block : Z;
  sb_provenance_block : Z;
  sb_provenance_size : Z;
  sb_fs_uuid : list Z;
  sb_journal_block : Z;
  sb_journal_size : Z;
  sb_bitmap_size : Z
}.

Record exfs_cache_entry := mk_ce { ce_block_idx : Z; ce_valid : bool; ce_data : list Z }.
#[export] Instance ce_inhabited : Inhabited exfs_cache_entry := populate (mk_ce 0 false []).

(** [None] in [v_cache] and [v_jtxn_data] is the null pointer. *)
Record exfs_volume := mk_vol {
  v_sb : exfs_superblock;
  v_block_bitmap : list Z;
  v_dev_lba_base : Z;
  v_cache : option (list exfs_cache_entry);
  v_cache_next_evict : Z;
  v_jtxn_active : bool;
  v_jtxn_count : Z;
  v_jtxn_blocks : list Z;
  v_jtxn_data : option (list (list Z))
}.

Definition set_cache (c : option (list exfs_cache_entry)) (n : Z) (v : exfs_volume) : exfs_volume :=
  mk_vol (v_sb v) (v_block_bitmap v) (v_dev_lba_base v) c n (v_jtxn_active v) (v_jtxn_count v) (v_jtxn_blocks v) (v_jtxn_data v).
Definition set_txn (a : bool) (n : Z) (b : list Z) (d : option (list (list Z))) (v : exfs_volume) : exfs_volume :=
  mk_vol (v_sb v) (v_block_bitmap v) (v_dev_lba_base v) (v_cache v) (v_cache_next_evict v) a n b d.

(** A mounted volume, its device, the armed crash point and the audit log. *)
Record exfs (D : Type) := mk_exfs { x_vol : exfs_volume; x_dev : D; g_exfs_crash_point : Z; x_audit : audit_state }.
Arguments mk_exfs {D}.
Arguments x_vol {D}.
Arguments x_dev {D}.
Arguments g_exfs_crash_point {D}.
Arguments x_audit {D}.

Definition zero_block : list Z := replicate (Z.to_nat EXFS_BLOCK_SIZE) 0.

Section Exfs.
Context {D : Type} (dev : block_device D).
#[local] Abbreviation IO := (M (exfs D)).

Definition get : IO (exfs D) := fun s => (Some s, s).
Definition modify_vol (f : exfs_volume -> exfs_volume) : IO unit :=
  fun s => (Some tt, mk_exfs (f (x_vol s)) (x_dev s) (g_exfs_crash_point s) (x_audit s)).
Definition on_dev {A} (m : M D A) : IO A :=
  fun s => let '(r, d) := m (x_dev s) in (r, mk_exfs (x_vol s) d (g_exfs_crash_point s) (x_audit s)).

(** ** The crash hook *)

Definition exfs_debug_arm_crash (point : Z) : IO unit :=
  fun s => (Some tt, mk_exfs (x_vol s) (x_dev s) point (x_audit s)).

(** [if (g_exfs_crash_point == point) exfs_debug_crash_now()]. *)
Definition crash_point (point : Z) : IO unit :=
  s <-- get ;; if g_exfs_crash_point s =? point then mfail else mret tt.

(** ** Blocks and the cache *)

Definition block_lba (idx : Z) (v : exfs_volume) : Z := u32 (v_dev_lba_base v + u32 (idx * 8)).

(** The loop over the eight sectors, [n] to go from sector [s]. *)
Fixpoint read_sectors (n : nat) (s base_lba : Z) (buf : list Z) : IO (bool * list Z) :=
  match n with
  | O => mret (true, buf)
  | S n' =>
      r <-- on_dev (read_sector dev (u32 (base_lba + s)) (take 512 (drop (Z.to_nat (512 * s)) buf))) ;;
      let buf := memcpy buf (512 * s) r.2 in
      if negb r.1 then mret (false, buf) else read_sectors n' (s + 1) base_lba buf
  end.

Fixpoint write_sectors (n : nat) (s base_lba : Z) (src : list Z) : IO bool :=
  match n with
  | O => mret true
  | S n' =>
      ok <-- on_dev (write_sector dev (u32 (base_lba + s)) (take 512 (drop (Z.to_nat (512 * s)) src))) ;;
      if negb ok then mret false else write_sectors n' (s + 1) base_lba src
  end.

(** The slot of a block in the cache, or -1. *)
Definition cache_find (idx : Z) (c : list exfs_cache_entry) : Z :=
  find_from (fun e => ce_valid e && (ce_block_idx e =? idx)) c 0.

(** Store a block in slot [slot]; the eviction cursor moves when it is its slot. *)
Definition cache_fill (slot next idx : Z) (data : list Z) (c : list exfs_cache_entry) (v : exfs_volume) : exfs_volume :=
  set_cache (Some c.[slot <- mk_ce idx true data]) next v.

Definition exfs_read_block (idx : Z) (buf : list Z) : IO (bool * list Z) :=
  s <-- get ;;
  let v := x_vol s in
  let hit := match v_cache v with Some c => if 0 <=? cache_find idx c then Some (ce_data c.[cache_find idx c]) else None | None => None end in
  match hit with
  | Some data => mret (true, data)
  | None =>
      r <-- read_sectors 8 0 (block_lba idx v) buf ;;
      if negb r.1 then mret r else
      _ <-- modify_vol (fun v => match v_cache v with
              | Some c => cache_fill (v_cache_next_evict v) ((v_cache_next_evict v + 1) mod EXFS_CACHE_SIZE) idx r.2 c v
              | None => v end) ;;
      mret r
  end.

Definition exfs_write_block (idx : Z) (buf : list Z) : IO bool :=
  s <-- get ;;
  ok <-- write_sectors 8 0 (block_lba idx (x_vol s)) buf ;;
  if negb ok then mret false else
  _ <-- modify_vol (fun v => match v_cache v with
          | Some c =>
              let slot := cache_find idx c in
              if 0 <=? slot then cache_fill slot (v_cache_next_evict v) idx buf c v
              else cache_fill (v_cache_next_evict v) ((v_cache_next_evict v + 1) mod EXFS_CACHE_SIZE) idx buf c v
          | None => v end) ;;
  mret true.

(** ** Journal *)

(** The slot in which a block is staged, or -1. *)
Definition txn_find (idx : Z) (v : exfs_volume) : Z :=
  find_from (fun b => b =? idx) (take (Z.to_nat (v_jtxn_count v)) (v_jtxn_blocks v)) 0.

Definition exfs_journal_stage (idx : Z) (data : list Z) : IO bool :=
  s <-- get ;;
  let v := x_vol s in
  match v_jtxn_data v with
  | None => exfs_write_block idx data
  | Some staged =>
      let i := txn_find idx v in
      if 0 <=? i then
        _ <-- modify_vol (set_txn (v_jtxn_active v) (v_jtxn_count v) (v_jtxn_blocks v) (Some staged.[i <- data])) ;; mret true
      else if EXFS_JOURNAL_MAX_BLOCKS <=? v_jtxn_count v then exfs_write_block idx data
      else
        _ <-- modify_vol (set_txn (v_jtxn_active v) (v_jtxn_count v + 1) (v_jtxn_blocks v).[v_jtxn_count v <- idx]
                            (Some staged.[v_jtxn_count v <- data])) ;;
        mret true
  end.

Definition exfs_meta_write_block (idx : Z) (data : list Z) : IO bool :=
  s <-- get ;; if v_jtxn_active (x_vol s) then exfs_journal_stage idx data else exfs_write_block idx data.

Definition exfs_txn_read_block (idx : Z) (buf : list Z) : IO (bool * list Z) :=
  s <-- get ;;
  let v := x_vol s in
  match (if v_jtxn_active v then v_jtxn_data v else None) with
  | Some staged => if 0 <=? txn_find idx v then mret (true, staged.[txn_find idx v]) else exfs_read_block idx buf
  | None => exfs_read_block idx buf
  end.

Definition exfs_journal_begin : IO unit :=
  modify_vol (fun v => set_txn true 0 (v_jtxn_blocks v) (v_jtxn_data v) v).

(** [vol->jtxn_count = 0]. *)
Definition txn_done : IO unit :=
  modify_vol (fun v => set_txn (v_jtxn_active v) 0 (v_jtxn_blocks v) (v_jtxn_data v) v).

(** Write the staged blocks to their places; all of them, whatever fails. *)
Fixpoint apply_blocks (blocks : list Z) (data : list (list Z)) (ok : bool) : IO bool :=
  match blocks, data with
  | b :: blocks', d :: data' => r <-- exfs_write_block b d ;; apply_blocks blocks' data' (ok && r)
  | _, _ => mret ok
  end.

(** Write the staged blocks to the journal slots from [slot] on, up to the first failure. *)
Fixpoint write_slots (slot : Z) (data : list (list Z)) : IO bool :=
  match data with
  | [] => mret true
  | d :: data' => ok <-- exfs_write_block (u64 slot) d ;; if ok : bool then write_slots (slot + 1) data' else mret false
  end.

(** The header block: magic, count and block numbers. *)
Definition journal_header (blocks : list Z) : list Z :=
  memcpy (memcpy (memcpy zero_block 0 (le_bytes 4 EXFS_JOURNAL_MAGIC)) 4 (le_bytes 4 (zlen blocks))) 8 (concat (le_bytes 8 <$> blocks)).

Definition exfs_journal_commit : IO bool :=
  s <-- get ;;
  let v := x_vol s in
  if negb (v_jtxn_active v) then mret true else
  _ <-- modify_vol (fun v => set_txn false (v_jtxn_count v) (v_jtxn_blocks v) (v_jtxn_data v) v) ;;
  if v_jtxn_count v =? 0 then mret true else
  let blocks := take (Z.to_nat (v_jtxn_count v)) (v_jtxn_blocks v) in
  let data := match v_jtxn_data v with Some d => take (Z.to_nat (v_jtxn_count v)) d | None => [] end in
  let sb := v_sb v in
  if (sb_journal_size sb =? 0) || negb (bool_decide (is_Some (v_jtxn_data v))) || (sb_journal_size sb - 1 <? v_jtxn_count v) then
    ok <-- apply_blocks blocks data true ;; _ <-- txn_done ;; mret ok
  else
  slots <-- write_slots (sb_journal_block sb + 1) data ;;
  if negb slots then _ <-- txn_done ;; mret false else
  _ <-- crash_point 1 ;;
  hdr <-- exfs_write_block (sb_journal_block sb) (journal_header blocks) ;;
  if negb hdr then _ <-- txn_done ;; mret false else
  _ <-- crash_point 2 ;;
  _ <-- apply_blocks blocks data true ;;
  _ <-- crash_point 3 ;;
  _ <-- exfs_write_block (sb_journal_block sb) zero_block ;;
  _ <-- txn_done ;;
  mret true.

(** Copy the slots from [slot] on to the blocks of the list. *)
Fixpoint replay_blocks (slot : Z) (blocks : list Z) (blk : list Z) : IO unit :=
  match blocks with
  | [] => mret tt
  | b :: blocks' =>
      r <-- exfs_read_block (u64 slot) blk ;;
      _ <-- (if r.1 : bool then exfs_write_block b r.2 else mret false) ;;
      replay_blocks (slot + 1) blocks' r.2
  end.

(** The block numbers of a header. *)
Definition header_blocks (hdr : list Z) : list Z :=
  (fun i => le_at 8 hdr (8 + 8 * i)) <$> seqZ 0 (Z.min (le_at 4 hdr 4) EXFS_JOURNAL_MAX_BLOCKS).

Definition exfs_journal_replay : IO unit :=
  s <-- get ;;
  let sb := v_sb (x_vol s) in
  if sb_journal_size sb =? 0 then mret tt else
  r <-- exfs_read_block (sb_journal_block sb) zero_block ;;
  if negb r.1 then mret tt else
  if negb (le_at 4 r.2 0 =? EXFS_JOURNAL_MAGIC) then mret tt else
  _ <-- replay_blocks (sb_journal_block sb + 1) (header_blocks r.2) zero_block ;;
  _ <-- exfs_write_block (sb_journal_block sb) zero_block ;;
  mret tt.

End Exfs.

(** ** Code that may not come back *)

(** [m] run from [s]: [Q] holds of what it returns, [C] of the state in which the
    machine stops. *)
Definition cwp {S A} (m : M S A) (s : S) (Q : A -> S -> Prop) (C : S -> Prop) : Prop :=
  match m s with (Some a, s') => Q a s' | (None, s') => C s' end.

Lemma cwp_ret {S A} (a : A) (s : S) Q C : Q a s -> cwp (mret a) s Q C.
Proof. done. Qed.

Lemma cwp_bind {S A B} (m : M S A) (k : A -> M S B) s Q C :
  cwp m s (fun a s' => cwp (k a) s' Q C) C -> cwp (mbind m k) s Q C.
Proof. unfold cwp, mbind. by destruct (m s) as [[a|] s']. Qed.

Lemma cwp_bind_inv {S A B} (m : M S A) (k : A -> M S B) s Q C :
  cwp (mbind m k) s Q C -> cwp m s (fun a s' => cwp (k a) s' Q C) C.
Proof. unfold cwp, mbind. by destruct (m s) as [[a|] s']. Qed.

Lemma cwp_mono {S A} (m : M S A) s (Q Q' : A -> S -> Prop) (C C' : S -> Prop) :
  cwp m s Q C -> (forall a s', Q a s' -> Q' a s') -> (forall s', C s' -> C' s') -> cwp m s Q' C'.
Proof. unfold cwp. destruct (m s) as [[a|] s']; auto. Qed.

Section Blocks.
Context {D : Type} {dev : block_device D} {dev_ok : D -> Prop} {sectors : D -> view} `{!Device dev dev_ok sectors}.
#[local] Abbreviation St := (exfs D).

Lemma cwp_get (s : St) Q C : Q s s -> cwp get s Q C.
Proof. done. Qed.

Lemma cwp_modify f (s : St) Q C :
  Q tt (mk_exfs (f (x_vol s)) (x_dev s) (g_exfs_crash_point s) (x_audit s)) -> cwp (modify_vol f) s Q C.
Proof. done. Qed.

Lemma cwp_crash_point p (s : St) Q (C : St -> Prop) : Q tt s -> C s -> cwp (crash_point p) s Q C.
Proof. intros HQ HC. unfold crash_point. apply cwp_bind, cwp_get. by destruct (_ =? p). Qed.

(** ** Sectors and blocks of a view *)

Definition sector_of (data : list Z) (k : Z) : list Z := take 512 (drop (Z.to_nat (512 * k)) data).

(** [v] after the first [n] sectors of [data] were written from [lba] on. *)
Definition put (v : view) (lba : Z) (n : Z) (data : list Z) : view :=
  fun l => if (lba <=? l) && (l <? lba + n) then Some (sector_of data (l - lba)) else v l.

(** The block at [lba] has the contents [data]. *)
Definition block_at (v : view) (lba : Z) (data : list Z) : Prop :=
  forall k, 0 <= k < 8 -> v (lba + k) = Some (sector_of data k).

(** [v] has the eight sectors from [lba] on. *)
Definition present (v : view) (lba : Z) : Prop := forall k, 0 <= k < 8 -> is_Some (v (lba + k)).

Definition V (s : St) : view := sectors (x_dev s).

(** The first sector of a block. *)
Definition lba_of (s : St) (idx : Z) : Z := v_dev_lba_base (x_vol s) + 8 * idx.

(** The block is on the device; [base] is the first sector of the volume. *)
Definition in_range (base : Z) (v : view) (idx : Z) : Prop :=
  0 <= idx /\ 0 <= base /\ base + 8 * idx + 8 <= 2 ^ 32 /\ present v (base + 8 * idx).

Definition inr (s : St) (idx : Z) : Prop := in_range (v_dev_lba_base (x_vol s)) (V s) idx.

Lemma put_in v lba n data l : lba <= l < lba + n -> put v lba n data l = Some (sector_of data (l - lba)).
Proof. intros H. unfold put. destruct (Z.leb_spec lba l), (Z.ltb_spec l (lba + n)); try lia. done. Qed.

Lemma put_out v lba n data l : l < lba \/ lba + n <= l -> put v lba n data l = v l.
Proof. intros H. unfold put. destruct (Z.leb_spec lba l), (Z.ltb_spec l (lba + n)); try lia; done. Qed.

Lemma put_present v lba n data lba' : present v lba' -> present (put v lba n data) lba'.
Proof. intros H k Hk. unfold put. destruct (_ && _); [by eexists|by apply H]. Qed.

Lemma block_at_put v lba data : block_at (put v lba 8 data) lba data.
Proof. intros k Hk. rewrite put_in by lia. do 2 f_equal. lia. Qed.

Lemma block_at_put_ne v lba data lba' n data' : block_at v lba data -> lba + 8 <= lba' \/ lba' + n <= lba -> block_at (put v lba' n data') lba data.
Proof. intros H Hd k Hk. rewrite put_out by lia. by apply H. Qed.

Lemma block_at_ext v v' lba data : (forall k, 0 <= k < 8 -> v' (lba + k) = v (lba + k)) -> block_at v lba data -> block_at v' lba data.
Proof. intros E H k Hk. rewrite E by done. by apply H. Qed.

Lemma zlen_sector data k : zlen data = EXFS_BLOCK_SIZE -> 0 <= k < 8 -> zlen (sector_of data k) = 512.
Proof. unfold sector_of, zlen, EXFS_BLOCK_SIZE. intros L Hk. rewrite length_take, length_drop. lia. Qed.

(** A block is determined by its sectors. *)
Lemma sectors_inj a b :
  zlen a = EXFS_BLOCK_SIZE -> zlen b = EXFS_BLOCK_SIZE -> (forall k, 0 <= k < 8 -> sector_of a k = sector_of b k) -> a = b.
Proof.
  intros La Lb H. apply list_eq. intros i. destruct (decide (i < 4096)%nat) as [Hi|Hi].
  - specialize (H (Z.of_nat (i / 512)) ltac:(pose proof (Nat.Div0.div_lt_upper_bound i 512 8 ltac:(lia)); lia)). unfold sector_of in H.
    pose proof (Nat.div_mod_eq i 512) as E. pose proof (Nat.mod_upper_bound i 512 ltac:(lia)) as M.
    assert (G : forall l : list Z, l !! i = take 512 (drop (Z.to_nat (512 * Z.of_nat (i / 512))) l) !! (i mod 512)%nat).
    { intros l. rewrite lookup_take_lt, lookup_drop by done. f_equal. lia. }
    by rewrite G, H, <- G.
  - unfold zlen, EXFS_BLOCK_SIZE in *. by rewrite !lookup_ge_None_2 by lia.
Qed.

Lemma block_lba_lba_of s idx : inr s idx -> block_lba idx (x_vol s) = lba_of s idx.
Proof. intros (A & B & C & _). unfold block_lba, lba_of in *. rewrite (u32_small (idx * 8)) by lia. rewrite u32_small by lia. lia. Qed.

(** ** Sector loops *)

(** The state with another device. *)
Definition with_dev (d : D) (s : St) : St := mk_exfs (x_vol s) d (g_exfs_crash_point s) (x_audit s).

Lemma cwp_on_dev {A} (m : M D A) (s : St) Q (C : St -> Prop) :
  match m (x_dev s) with (Some a, d) => Q a (with_dev d s) | (None, d) => C (with_dev d s) end -> cwp (on_dev m) s Q C.
Proof. unfold cwp, on_dev. by destruct (m (x_dev s)) as [[a|] d]. Qed.

Lemma write_sectors_spec n j base src v0 (s : St) :
  j + Z.of_nat n = 8 -> 0 <= j -> 0 <= base -> base + 8 <= 2 ^ 32 -> zlen src = EXFS_BLOCK_SIZE -> dev_ok (x_dev s) ->
  present v0 base -> (forall l, V s l = put v0 base j src l) ->
  cwp (write_sectors dev n j base src) s
    (fun ok s' => ok = true /\ exists d, s' = with_dev d s /\ dev_ok d /\ forall l, sectors d l = put v0 base 8 src l)
    (fun s' => exists d m, s' = with_dev d s /\ dev_ok d /\ 0 <= m <= 8 /\ forall l, sectors d l = put v0 base m src l).
Proof.
  revert j s. induction n as [|n IH]; intros j s Hj Hj0 Hb Hb8 Ls Ok P Vs; cbn [write_sectors].
  { apply cwp_ret. split; [done|]. exists (x_dev s). split; [by destruct s|]. split; [done|]. replace 8 with j by lia. exact Vs. }
  apply cwp_bind, cwp_on_dev. rewrite u32_small by lia.
  pose proof (dev_write (x_dev s) (base + j) (sector_of src j) Ok ltac:(lia) (zlen_sector src j Ls ltac:(lia))) as W.
  unfold sector_of in W at 1. destruct (write_sector dev _ _ (x_dev s)) as [[ok|] d].
  - destruct W as (Od & -> & E). assert (Hs : is_Some (sectors (x_dev s) (base + j))).
    { fold (V s). rewrite Vs. apply (put_present v0 base j src base P). lia. }
    rewrite bool_decide_true in E |- * by done. cbn [negb].
    assert (E' : forall l, V (with_dev d s) l = put v0 base (j + 1) src l).
    { intros l. unfold V. cbn [x_dev with_dev]. rewrite E. unfold vset. destruct (Z.eqb_spec l (base + j)) as [->|Hl].
      - rewrite put_in by lia. do 2 f_equal. lia.
      - unfold V in Vs. rewrite Vs. unfold put. destruct (Z.leb_spec base l); [|done]. destruct (Z.ltb_spec l (base + j)), (Z.ltb_spec l (base + (j + 1))); try lia; done. }
    eapply cwp_mono; [apply (IH (j + 1) (with_dev d s)); try done; lia| |].
    + intros ok s' (-> & d' & -> & H). split; [done|by exists d'].
    + intros s' (d' & m & -> & H). by exists d', m.
  - destruct W as (Od & [E|[_ E]]).
    + exists d, j. split; [done|]. split; [done|]. split; [lia|]. intros l. rewrite E. apply Vs.
    + exists d, (j + 1). split; [done|]. split; [done|]. split; [lia|]. intros l. rewrite E. unfold vset.
      destruct (Z.eqb_spec l (base + j)) as [->|Hl]; [rewrite put_in by lia; do 2 f_equal; lia|].
      unfold V in Vs. rewrite Vs. unfold put. destruct (Z.leb_spec base l); [|done]. destruct (Z.ltb_spec l (base + j)), (Z.ltb_spec l (base + (j + 1))); try lia; done.
Qed.

(** The first [j] sectors of [buf] are those from [base] on. *)
Lemma read_sectors_spec n j base buf data (s : St) :
  j + Z.of_nat n = 8 -> 0 <= j -> 0 <= base -> base + 8 <= 2 ^ 32 -> zlen buf = EXFS_BLOCK_SIZE -> zlen data = EXFS_BLOCK_SIZE ->
  dev_ok (x_dev s) -> block_at (V s) base data -> (forall k, 0 <= k < j -> sector_of buf k = sector_of data k) ->
  cwp (read_sectors dev n j base buf) s
    (fun r s' => r = (true, data) /\ exists d, s' = with_dev d s /\ dev_ok d /\ forall l, sectors d l = V s l) (fun _ => False).
Proof.
  revert j buf s. induction n as [|n IH]; intros j buf s Hj Hj0 Hb Hb8 Lb Ld Ok B E; cbn [read_sectors].
  { apply cwp_ret. split; [|exists (x_dev s); split; [by destruct s|done]]. f_equal. apply sectors_inj; [done|done|]. intros k Hk. apply E. lia. }
  apply cwp_bind, cwp_on_dev. rewrite u32_small by lia.
  destruct (dev_read (x_dev s) (base + j) (take 512 (drop (Z.to_nat (512 * j)) buf)) Ok ltac:(lia)) as (r & d & -> & Od & Es & R).
  pose proof (B j ltac:(lia)) as Bj. unfold V in Bj. rewrite Bj in R. subst r. cbn [fst snd negb].
  assert (L1 : zlen (sector_of data j) = 512) by (apply zlen_sector; [done|lia]).
  assert (Lm : zlen (memcpy buf (512 * j) (sector_of data j)) = EXFS_BLOCK_SIZE).
  { rewrite zlen_memcpy; unfold EXFS_BLOCK_SIZE in *; lia. }
  eapply cwp_mono; [apply (IH (j + 1) (memcpy buf (512 * j) (sector_of data j)) (with_dev d s)); try done; try lia| |done].
  - intros k Hk. unfold V. cbn [x_dev with_dev]. rewrite Es. by apply B.
  - intros k Hk. pose proof (Ramdisk.slice_memcpy buf (sector_of data j) (Z.to_nat k) (Z.to_nat j)) as S. unfold sector_of at 1.
    replace (Z.to_nat (512 * k)) with (Z.to_nat k * 512)%nat by lia. replace (512 * j) with (Z.of_nat (Z.to_nat j * 512)) by lia.
    rewrite S; [|unfold zlen in L1; lia|unfold zlen, EXFS_BLOCK_SIZE in Lb; lia].
    destruct (decide (Z.to_nat k = Z.to_nat j)); [f_equal; lia|]. rewrite <- E by lia. unfold sector_of. do 2 f_equal. lia.
  - intros r s' (-> & d' & -> & Od' & E'). split; [done|]. exists d'. split; [done|]. split; [done|]. intros l. rewrite E'.
    unfold V. cbn [x_dev with_dev]. apply Es.
Qed.

(** ** Whole blocks *)

(** The contents of the block at [lba]. *)
Definition block_of (v : view) (lba : Z) : list Z := concat ((fun k => default [] (v (lba + k))) <$> seqZ 0 8).

Lemma drop_concat n (ls : list (list Z)) k :
  Forall (fun l => length l = n) ls -> drop (n * k) (concat ls) = concat (drop k ls).
Proof.
  intros H. revert k. induction H as [|l ls Hl H IH]; intros [|k]; cbn [concat drop].
  - by rewrite drop_nil.
  - by rewrite drop_nil.
  - by rewrite Nat.mul_0_r.
  - rewrite drop_app_ge by lia. rewrite <- IH. f_equal. lia.
Qed.

Lemma length_concat_const n (ls : list (list Z)) : Forall (fun l => length l = n) ls -> length (concat ls) = (n * length ls)%nat.
Proof. induction 1 as [|l ls Hl H IH]; cbn [concat length]; [lia|]. rewrite length_app, IH. lia. Qed.

Lemma block_of_spec v lba :
  present v lba -> (forall l b, v l = Some b -> zlen b = 512) -> zlen (block_of v lba) = EXFS_BLOCK_SIZE /\ block_at v lba (block_of v lba).
Proof.
  intros P L. set (ls := (fun k => default [] (v (lba + k))) <$> seqZ 0 8).
  assert (F : Forall (fun l => length l = 512%nat) ls).
  { apply Forall_fmap, Forall_seqZ. intros k Hk. destruct (P k ltac:(lia)) as [b Hb]. cbn. rewrite Hb. specialize (L _ _ Hb). unfold zlen in L. cbn. lia. }
  assert (G : forall k, 0 <= k < 8 -> v (lba + k) = Some (sector_of (block_of v lba) k)).
  { intros k Hk. unfold sector_of, block_of. fold ls. replace (Z.to_nat (512 * k)) with (512 * Z.to_nat k)%nat by lia. rewrite drop_concat by done.
    destruct (P k Hk) as [b Hb]. assert (E : ls !! Z.to_nat k = Some b).
    { unfold ls. rewrite list_lookup_fmap, lookup_seqZ_lt by lia. cbn. replace (lba + (0 + Z.of_nat (Z.to_nat k))) with (lba + k) by lia. by rewrite Hb. }
    rewrite (drop_S _ _ _ E). cbn [concat]. specialize (L _ _ Hb). unfold zlen in L. rewrite take_app_length' by lia. done. }
  split; [|exact G]. unfold block_of. fold ls. unfold zlen. by rewrite (length_concat_const 512) by done.
Qed.

Lemma block_of_ext v v' lba : (forall k, 0 <= k < 8 -> v' (lba + k) = v (lba + k)) -> block_of v' lba = block_of v lba.
Proof.
  intros H. unfold block_of. f_equal. apply list_fmap_ext. intros i k Hk. apply lookup_seqZ in Hk. by rewrite H by lia.
Qed.

Lemma block_at_block_of v lba data :
  (forall l b, v l = Some b -> zlen b = 512) -> zlen data = EXFS_BLOCK_SIZE -> block_at v lba data -> block_of v lba = data.
Proof.
  intros L Ld B. assert (P : present v lba) by (intros k Hk; rewrite B by done; by eexists).
  destruct (block_of_spec v lba P L) as [L1 B1]. apply sectors_inj; [done|done|]. intros k Hk.
  specialize (B k Hk). specialize (B1 k Hk). congruence.
Qed.

(** ** The cache *)

(** Every valid entry is the block as it is on the device, and no block has two. *)
Record cache_good (base next : Z) (c : list exfs_cache_entry) (v : view) : Prop := {
  cg_len : zlen c = EXFS_CACHE_SIZE;
  cg_next : 0 <= next < EXFS_CACHE_SIZE;
  cg_data : forall i, 0 <= i < EXFS_CACHE_SIZE -> ce_valid c.[i] = true ->
    in_range base v (ce_block_idx c.[i]) /\ zlen (ce_data c.[i]) = EXFS_BLOCK_SIZE /\
    block_at v (base + 8 * ce_block_idx c.[i]) (ce_data c.[i]);
  cg_uniq : forall i j, 0 <= i < EXFS_CACHE_SIZE -> 0 <= j < EXFS_CACHE_SIZE -> i <> j -> ce_valid c.[i] = true -> ce_valid c.[j] = true ->
    ce_block_idx c.[i] <> ce_block_idx c.[j]
}.

Lemma cache_good_fill base next next' c v v' slot idx data :
  cache_good base next c v -> 0 <= next' < EXFS_CACHE_SIZE -> 0 <= slot < EXFS_CACHE_SIZE ->
  (forall i, 0 <= i < EXFS_CACHE_SIZE -> i <> slot -> ce_valid c.[i] = true -> ce_block_idx c.[i] <> idx) ->
  in_range base v' idx -> zlen data = EXFS_BLOCK_SIZE -> block_at v' (base + 8 * idx) data ->
  (forall l, ~ (base + 8 * idx <= l < base + 8 * idx + 8) -> v' l = v l) ->
  cache_good base next' c.[slot <- mk_ce idx true data] v'.
Proof.
  intros [A B C U] Hn Hs Hu Hi Ld Bd E. constructor; [by rewrite zlen_zset|done| |].
  - intros i H Hv. destruct (decide (i = slot)) as [->|Hne]; [rewrite zget_zset_eq by lia; done|].
    rewrite zget_zset_ne in Hv |- * by lia. destruct (C i H Hv) as ((R1 & R2 & R3 & R4) & C2 & C3). specialize (Hu i H Hne Hv).
    assert (Eq : forall k, 0 <= k < 8 -> v' (base + 8 * ce_block_idx c.[i] + k) = v (base + 8 * ce_block_idx c.[i] + k)) by (intros k Hk; apply E; lia).
    split; [|split; [done|by eapply block_at_ext]]. split; [done|]. split; [done|]. split; [done|]. intros k Hk. rewrite Eq by done. by apply R4.
  - intros i j H1 H2 Hne V1 V2. destruct (decide (i = slot)) as [->|N1], (decide (j = slot)) as [->|N2].
    + done.
    + rewrite zget_zset_eq, zget_zset_ne in * by lia. cbn. by apply not_eq_sym, Hu.
    + rewrite zget_zset_eq, zget_zset_ne in * by lia. cbn. by apply Hu.
    + rewrite !zget_zset_ne in * by lia. by apply U.
Qed.

Lemma cache_find_spec idx c :
  (cache_find idx c = -1 /\ forall i, 0 <= i < zlen c -> ce_valid c.[i] = true -> ce_block_idx c.[i] <> idx) \/
  (0 <= cache_find idx c < zlen c /\ ce_valid c.[cache_find idx c] = true /\ ce_block_idx c.[cache_find idx c] = idx).
Proof.
  unfold cache_find. destruct (find_from_spec (fun e => ce_valid e && (ce_block_idx e =? idx)) c 0 ltac:(lia)) as [[-> A]|(k & Hk & -> & F & _)].
  - left. split; [done|]. intros i Hi Hv E. specialize (A i Hi). cbn beta in A. rewrite Hv, E, Z.eqb_refl in A. done.
  - right. replace (0 + k) with k by lia. apply andb_true_iff in F as [F1 F2]. apply Z.eqb_eq in F2. done.
Qed.

(** ** A mounted volume *)

Record fs_ok (s : St) : Prop := {
  fo_dev : dev_ok (x_dev s);
  fo_cache : forall c, v_cache (x_vol s) = Some c -> cache_good (v_dev_lba_base (x_vol s)) (v_cache_next_evict (x_vol s)) c (V s)
}.

(** [s'] is [s] but for the cache and the device. *)
Definition same (s s' : St) : Prop :=
  (exists c n, x_vol s' = set_cache c n (x_vol s)) /\ g_exfs_crash_point s' = g_exfs_crash_point s /\ x_audit s' = x_audit s.

Lemma same_refl s : same s s.
Proof. split; [|done]. exists (v_cache (x_vol s)), (v_cache_next_evict (x_vol s)). by destruct (x_vol s). Qed.

Lemma same_trans s1 s2 s3 : same s1 s2 -> same s2 s3 -> same s1 s3.
Proof. intros [(c & n & E) [A B]] [(c' & n' & E') [A' B']]. split; [|by rewrite A', B']. exists c', n'. rewrite E', E. done. Qed.

Lemma same_with_dev d s : same s (with_dev d s).
Proof. split; [|done]. exists (v_cache (x_vol s)), (v_cache_next_evict (x_vol s)). cbn. by destruct (x_vol s). Qed.

Lemma sector_len s l b : fs_ok s -> V s l = Some b -> zlen b = 512.
Proof. intros H. exact (dev_sector (x_dev s) l b (fo_dev s H)). Qed.

Lemma read_lba idx buf s :
  fs_ok s -> inr s idx -> zlen buf = EXFS_BLOCK_SIZE ->
  cwp (read_sectors dev 8 0 (block_lba idx (x_vol s)) buf) s
    (fun r s' => r = (true, block_of (V s) (lba_of s idx)) /\ exists d, s' = with_dev d s /\ dev_ok d /\ forall l, sectors d l = V s l) (fun _ => False).
Proof.
  intros H Hi Lb. pose proof Hi as (I1 & I2 & I3 & I4). rewrite block_lba_lba_of by done.
  destruct (block_of_spec (V s) (lba_of s idx) I4 (fun l b => sector_len s l b H)) as [Ld Bd]. unfold lba_of in *.
  apply read_sectors_spec; try done; try lia. apply H.
Qed.

Lemma write_lba idx data s :
  fs_ok s -> inr s idx -> zlen data = EXFS_BLOCK_SIZE ->
  cwp (write_sectors dev 8 0 (block_lba idx (x_vol s)) data) s
    (fun ok s' => ok = true /\ exists d, s' = with_dev d s /\ dev_ok d /\ forall l, sectors d l = put (V s) (lba_of s idx) 8 data l)
    (fun s' => exists d m, s' = with_dev d s /\ dev_ok d /\ 0 <= m <= 8 /\ forall l, sectors d l = put (V s) (lba_of s idx) m data l).
Proof.
  intros H Hi Lb. pose proof Hi as (I1 & I2 & I3 & I4). rewrite block_lba_lba_of by done. unfold lba_of in *.
  apply write_sectors_spec; try done; try lia; [apply H|]. intros l. by rewrite put_out by lia.
Qed.

Lemma exfs_read_block_spec idx buf s :
  fs_ok s -> inr s idx -> zlen buf = EXFS_BLOCK_SIZE ->
  cwp (exfs_read_block dev idx buf) s (fun r s' => r = (true, block_of (V s) (lba_of s idx)) /\ same s s' /\ fs_ok s' /\ forall l, V s' l = V s l)
    (fun _ => False).
Proof.
  intros H Hi Lb. pose proof Hi as (I1 & I2 & I3 & I4). pose proof (fun l b => sector_len s l b H) as Sl.
  destruct (block_of_spec (V s) (lba_of s idx) I4 Sl) as [Ld Bd]. unfold exfs_read_block. apply cwp_bind, cwp_get.
  destruct (v_cache (x_vol s)) as [c|] eqn:Ec.
  - pose proof (fo_cache s H c Ec) as [G1 G2 G3 G4]. destruct (cache_find_spec idx c) as [[E N]|(R & Vd & Ei)].
    + rewrite E. change (0 <=? -1) with false. cbv iota. apply cwp_bind.
      eapply cwp_mono; [by apply read_lba| |done]. intros r s1 (-> & d & -> & Od & Es). cbn [fst snd negb].
      apply cwp_bind, cwp_modify, cwp_ret. cbn [x_vol with_dev x_dev]. rewrite Ec. split; [done|]. split; [|split; [|done]].
      * split; [|done]. cbn [x_vol]. unfold cache_fill. by eexists _, _.
      * constructor; [done|]. cbn [x_vol x_dev]. intros c' [= <-]. cbn [v_dev_lba_base v_cache_next_evict cache_fill set_cache].
        eapply (cache_good_fill _ _ _ _ (V s)); [by apply H| |done| | |done| |].
        -- apply Z.mod_pos_bound. done.
        -- intros i Hi' Hne Hv. apply N; [unfold EXFS_CACHE_SIZE in *; lia|done].
        -- split; [done|]. split; [done|]. split; [done|]. intros k Hk. unfold V. cbn [x_dev]. rewrite Es. by apply I4.
        -- intros k Hk. unfold V. cbn [x_dev]. rewrite Es. by apply Bd.
        -- intros l _. apply Es.
    + destruct (Z.leb_spec 0 (cache_find idx c)); [|lia]. apply cwp_ret. rewrite G1 in R. destruct (G3 _ R Vd) as (_ & L3 & B3). rewrite Ei in B3.
      split; [|split; [apply same_refl|done]]. f_equal. symmetry. by apply block_at_block_of.
  - apply cwp_bind. eapply cwp_mono; [by apply read_lba| |done]. intros r s1 (-> & d & -> & Od & Es). cbn [fst snd negb].
    apply cwp_bind, cwp_modify, cwp_ret. cbn [x_vol with_dev x_dev]. rewrite Ec. split; [done|]. split; [apply (same_with_dev d s)|]. split; [|done].
    constructor; [done|]. cbn [x_vol]. congruence.
Qed.

Lemma exfs_write_block_spec idx data s :
  fs_ok s -> inr s idx -> zlen data = EXFS_BLOCK_SIZE ->
  cwp (exfs_write_block dev idx data) s
    (fun ok s' => ok = true /\ same s s' /\ fs_ok s' /\ forall l, V s' l = put (V s) (lba_of s idx) 8 data l)
    (fun s' => exists d m, s' = with_dev d s /\ dev_ok d /\ 0 <= m <= 8 /\ forall l, V s' l = put (V s) (lba_of s idx) m data l).
Proof.
  intros H Hi Ld. pose proof Hi as (I1 & I2 & I3 & I4). unfold exfs_write_block. apply cwp_bind, cwp_get, cwp_bind.
  eapply cwp_mono; [by apply write_lba| |intros s' (d & m & -> & Od & Hm & E); by exists d, m].
  intros ok s1 (-> & d & -> & Od & Es). cbn [negb]. apply cwp_bind, cwp_modify, cwp_ret. cbn [x_vol with_dev x_dev].
  split; [done|]. destruct (v_cache (x_vol s)) as [c|] eqn:Ec.
  2: { split; [apply (same_with_dev d s)|]. split; [|done]. constructor; [done|]. cbn [x_vol]. congruence. }
  pose proof (fo_cache s H c Ec) as G. pose proof (cg_len _ _ _ _ G) as G1. pose proof (cg_next _ _ _ _ G) as G2.
  assert (Fill : forall slot next, 0 <= next < EXFS_CACHE_SIZE -> 0 <= slot < EXFS_CACHE_SIZE ->
    (forall i, 0 <= i < EXFS_CACHE_SIZE -> i <> slot -> ce_valid c.[i] = true -> ce_block_idx c.[i] <> idx) ->
    cache_good (v_dev_lba_base (x_vol s)) next c.[slot <- mk_ce idx true data] (sectors d)).
  { intros slot next Hn Hs Hu. eapply (cache_good_fill _ _ _ _ (V s)); [exact G|done|done|done| |done| |].
    - split; [done|]. split; [done|]. split; [done|]. intros k Hk. rewrite Es. apply put_present; [done|lia].
    - intros k Hk. rewrite Es. by apply (block_at_put (V s) (lba_of s idx)).
    - intros l Hl. rewrite Es. unfold lba_of. apply put_out. lia. }
  destruct (cache_find_spec idx c) as [[E N]|(R & Vd & Ei)].
  - rewrite E. change (0 <=? -1) with false. cbv iota. split; [split; [by eexists _, _|done]|]. split; [|done].
    constructor; [done|]. cbn [x_vol cache_fill set_cache v_cache v_dev_lba_base v_cache_next_evict]. intros c' [= <-]. apply Fill; [by apply Z.mod_pos_bound|done|].
    intros i Hi' _ Hv. apply N; [lia|done].
  - destruct (Z.leb_spec 0 (cache_find idx c)); [|lia]. split; [split; [by eexists _, _|done]|]. split; [|done].
    constructor; [done|]. cbn [x_vol cache_fill set_cache v_cache v_dev_lba_base v_cache_next_evict]. intros c' [= <-]. apply Fill; [done|lia|].
    intros i Hi' Hne Hv Eq. apply (cg_uniq _ _ _ _ G i (cache_find idx c) Hi' ltac:(lia) Hne Hv Vd). congruence.
Qed.

(** ** Runs of block writes *)

Lemma in_range_view base v v' idx : (forall l, is_Some (v l) -> is_Some (v' l)) -> in_range base v idx -> in_range base v' idx.
Proof. intros E (A & B & C & P). split; [done|]. split; [done|]. split; [done|]. intros k Hk. by apply E, P. Qed.

Lemma put_some v lba n data l : is_Some (v l) -> is_Some (put v lba n data l).
Proof. intros H. unfold put. by destruct (_ && _). Qed.

Lemma same_base s s' : same s s' -> v_dev_lba_base (x_vol s') = v_dev_lba_base (x_vol s).
Proof. by intros [(c & n & ->) _]. Qed.

Lemma same_lba s s' idx : same s s' -> lba_of s' idx = lba_of s idx.
Proof. intros H. unfold lba_of. by rewrite (same_base s s' H). Qed.

Lemma inr_put s s' lba n data idx :
  same s s' -> (forall l, V s' l = put (V s) lba n data l) -> inr s idx -> inr s' idx.
Proof.
  intros Sm E H. unfold inr. rewrite (same_base s s' Sm). eapply in_range_view; [|exact H]. intros l Hl. rewrite E. by apply put_some.
Qed.

(** The view after [ts] were overwritten with [ds], in order. *)
Fixpoint new_view (base : Z) (ts : list Z) (ds : list (list Z)) (v : view) : view :=
  match ts, ds with
  | t :: ts', d :: ds' => new_view base ts' ds' (put v (base + 8 * t) 8 d)
  | _, _ => v
  end.

(** [l] is in one of the blocks. *)
Definition in_blocks (base : Z) (ts : list Z) (l : Z) : Prop := exists t, t ∈ ts /\ base + 8 * t <= l < base + 8 * t + 8.

Lemma new_view_ext base ts ds v v' l :
  length ts = length ds -> (v l = v' l \/ in_blocks base ts l) -> new_view base ts ds v l = new_view base ts ds v' l.
Proof.
  revert ds v v'. induction ts as [|t ts IH]; intros [|d ds] v v' L H; try done.
  - destruct H as [H|(t & Ht & _)]; [done|]. by apply elem_of_nil in Ht.
  - cbn [new_view]. apply IH; [cbn in L; lia|]. destruct (decide (base + 8 * t <= l < base + 8 * t + 8)) as [Hl|Hl].
    + left. by rewrite !put_in by done.
    + destruct H as [H|(t' & Ht & Hl')]; [left; by rewrite !put_out by lia|]. apply elem_of_cons in Ht as [->|Ht]; [lia|]. right. by exists t'.
Qed.

Lemma new_view_out base ts ds v l : ~ in_blocks base ts l -> new_view base ts ds v l = v l.
Proof.
  revert ds v. induction ts as [|t ts IH]; intros [|d ds] v H; try done. cbn [new_view].
  rewrite IH; [|intros (t' & Ht & Hl); apply H; exists t'; split; [by right|done]].
  apply put_out. destruct (decide (base + 8 * t <= l < base + 8 * t + 8)); [|lia]. exfalso. apply H. exists t. split; [by left|done].
Qed.

(** Consecutive blocks. *)
Definition slots (slot : Z) (n : nat) : list Z := seqZ slot (Z.of_nat n).

Lemma slots_cons slot n : slots slot (S n) = slot :: slots (slot + 1) n.
Proof. unfold slots. rewrite seqZ_cons by lia. f_equal. f_equal; lia. Qed.

(** What a run of block writes does when it ends, and when it does not. *)
Definition wrote (ts : list Z) (ds : list (list Z)) (s s' : St) : Prop :=
  same s s' /\ fs_ok s' /\ forall l, V s' l = new_view (v_dev_lba_base (x_vol s)) ts ds (V s) l.

Definition torn (ts : list Z) (s s' : St) : Prop :=
  (exists s1 d, same s s1 /\ s' = with_dev d s1) /\ dev_ok (x_dev s') /\ (forall l, is_Some (V s l) -> is_Some (V s' l)) /\
  forall l, ~ in_blocks (v_dev_lba_base (x_vol s)) ts l -> V s' l = V s l.

Lemma torn_block t m d s s' data :
  same s s' -> (forall l, V (with_dev d s') l = put (V s) (v_dev_lba_base (x_vol s) + 8 * t) m data l) -> 0 <= m <= 8 -> dev_ok d -> torn [t] s (with_dev d s').
Proof.
  intros Sm E Hm Od. split; [by exists s', d|]. split; [done|]. split; [intros l Hl; rewrite E; by apply put_some|]. intros l Hl. rewrite E. apply put_out.
  destruct (decide (v_dev_lba_base (x_vol s) + 8 * t <= l < v_dev_lba_base (x_vol s) + 8 * t + 8)) as [H|]; [|lia]. exfalso. apply Hl. exists t.
  split; [by left|done].
Qed.

Lemma new_view_some base ts ds v l : is_Some (v l) -> is_Some (new_view base ts ds v l).
Proof. revert ds v. induction ts as [|t ts IH]; intros [|d ds] v H; try done. cbn [new_view]. by apply IH, put_some. Qed.

Lemma torn_later t ts d s s1 s' :
  wrote [t] [d] s s1 -> torn ts s1 s' -> torn (t :: ts) s s'.
Proof.
  intros (Sm & _ & E) ((s2 & dd & Sm2 & ->) & Od & P & T). split; [exists s2, dd; split; [by eapply same_trans|done]|]. split; [done|].
  split; [intros l Hl; apply P; rewrite E; by apply new_view_some|]. intros l Hl.
  rewrite T; [rewrite E; apply new_view_out|rewrite (same_base s s1 Sm)]; intros (t' & Ht & Hr); apply Hl; exists t'; (split; [|done]).
  - apply list_elem_of_singleton in Ht as ->. by left.
  - by right.
Qed.

Lemma torn_first t ts s s' : torn [t] s s' -> torn (t :: ts) s s'.
Proof.
  intros (S1 & Od & P & T). split; [done|]. split; [done|]. split; [done|]. intros l Hl. apply T. intros (t' & Ht & Hr). apply Hl. exists t'. split; [|done].
  apply list_elem_of_singleton in Ht as ->. by left.
Qed.

Lemma new_view_eq base ts ds v v' l : (forall l, v l = v' l) -> new_view base ts ds v l = new_view base ts ds v' l.
Proof.
  revert ds v v'. induction ts as [|t ts IH]; intros [|d ds] v v' H; try apply H. cbn [new_view]. apply IH. intros l'. unfold put. by rewrite H.
Qed.

Lemma wrote_trans t ts d ds s s1 s' : wrote [t] [d] s s1 -> wrote ts ds s1 s' -> wrote (t :: ts) (d :: ds) s s'.
Proof.
  intros (Sm & _ & E) (Sm' & Ok & E'). split; [by eapply same_trans|]. split; [done|]. intros l. rewrite E', (same_base s s1 Sm). cbn [new_view].
  by apply new_view_eq.
Qed.

Lemma write_one t d s :
  fs_ok s -> inr s t -> zlen d = EXFS_BLOCK_SIZE -> cwp (exfs_write_block dev t d) s (fun ok s' => ok = true /\ wrote [t] [d] s s') (torn [t] s).
Proof.
  intros H Hi L. eapply cwp_mono; [by apply exfs_write_block_spec| |].
  - by intros ok s' (-> & Sm & Ok & E).
  - intros s' (dd & m & -> & Od & Hm & E). eapply torn_block; [apply same_refl|exact E|done|done].
Qed.

Lemma wrote_inr ts ds s s' idx : wrote ts ds s s' -> inr s idx -> inr s' idx.
Proof.
  intros (Sm & _ & E) H. unfold inr. rewrite (same_base s s' Sm). eapply in_range_view; [|exact H]. intros l Hl. rewrite E. by apply new_view_some.
Qed.

Lemma apply_blocks_spec ts ds ok s :
  fs_ok s -> Forall (inr s) ts -> Forall (fun d => zlen d = EXFS_BLOCK_SIZE) ds -> length ts = length ds ->
  cwp (apply_blocks dev ts ds ok) s (fun r s' => r = ok /\ wrote ts ds s s') (torn ts s).
Proof.
  revert ds ok s. induction ts as [|t ts IH]; intros [|d ds] ok s H It Ld L; try done; cbn [apply_blocks].
  { apply cwp_ret. split; [done|]. split; [apply same_refl|done]. }
  inversion It as [|? ? I1 I2]; subst. inversion Ld as [|? ? L1 L2]; subst. apply cwp_bind.
  eapply cwp_mono; [by apply write_one| |intros s'; apply torn_first]. intros r s1 [-> W]. rewrite andb_true_r.
  eapply cwp_mono; [apply IH; [apply W|eapply Forall_impl; [exact I2|]; intros; by eapply wrote_inr|done|cbn in L; lia]| |].
  - intros r s' [-> W']. split; [done|]. by eapply wrote_trans.
  - intros s' T. by eapply torn_later.
Qed.

Lemma write_slots_spec ds slot s :
  fs_ok s -> Forall (inr s) (slots slot (length ds)) -> Forall (fun d => zlen d = EXFS_BLOCK_SIZE) ds ->
  cwp (write_slots dev slot ds) s (fun ok s' => ok = true /\ wrote (slots slot (length ds)) ds s s') (torn (slots slot (length ds)) s).
Proof.
  revert slot s. induction ds as [|d ds IH]; intros slot s H Is Ld; cbn [write_slots].
  { apply cwp_ret. split; [done|]. split; [apply same_refl|done]. }
  inversion Ld as [|? ? L1 L2]; subst. cbn [length] in *. rewrite slots_cons in *. inversion Is as [|? ? I1 I2]; subst.
  rewrite u64_small by (destruct I1 as (? & ? & ? & _); lia). apply cwp_bind.
  eapply cwp_mono; [by apply write_one| |intros s'; apply torn_first]. intros r s1 [-> W].
  eapply cwp_mono; [apply IH; [apply W|eapply Forall_impl; [exact I2|]; intros; by eapply wrote_inr|done]| |].
  - intros r s' [-> W']. split; [done|]. by eapply wrote_trans.
  - intros s' T. by eapply torn_later.
Qed.

(** ** The journal header *)

(** The blocks of a committed transaction whose header is at sector [jl]. *)
Definition pending (v : view) (jl : Z) : option (list Z) :=
  match v jl with
  | Some sec => if le_at 4 sec 0 =? EXFS_JOURNAL_MAGIC then Some (header_blocks sec) else None
  | None => None
  end.

Lemma le_at_take n k l i : (Z.to_nat i + n <= k)%nat -> le_at n (take k l) i = le_at n l i.
Proof. intros H. unfold le_at. f_equal. rewrite !take_drop_commute, take_take. f_equal. f_equal. lia. Qed.

Lemma header_blocks_take l : header_blocks (take 512 l) = header_blocks l.
Proof.
  unfold header_blocks. rewrite le_at_take by (cbn; lia). apply list_fmap_ext. intros i x Hx. apply lookup_seqZ in Hx.
  apply le_at_take. unfold EXFS_JOURNAL_MAX_BLOCKS in *. lia.
Qed.

Lemma le_at_memcpy_in n l pos src :
  0 <= pos -> pos + zlen src <= zlen l -> length src = n -> le_at n (memcpy l pos src) pos = le_val src.
Proof.
  intros Hp Hl Hn. unfold le_at, memcpy. unfold zlen in Hl. rewrite drop_app_length' by (rewrite length_take; lia).
  rewrite take_app_length' by done. done.
Qed.

(** What was copied in, and what is beside it. *)
Lemma window_memcpy_in {A} (l : list A) pos src :
  0 <= pos -> pos + zlen src <= zlen l -> take (length src) (drop (Z.to_nat pos) (memcpy l pos src)) = src.
Proof. intros Hp Hl. unfold memcpy, zlen in *. rewrite drop_app_length' by (rewrite length_take; lia). by apply take_app_length'. Qed.

Lemma window_memcpy_out {A} n (l : list A) pos src i :
  0 <= pos -> 0 <= i -> pos + zlen src <= zlen l -> i + Z.of_nat n <= pos \/ pos + zlen src <= i ->
  take n (drop (Z.to_nat i) (memcpy l pos src)) = take n (drop (Z.to_nat i) l).
Proof.
  intros Hp Hi Hl Hd. apply list_eq. intros k. destruct (decide (k < n)%nat); [|by rewrite !lookup_take_ge by lia].
  rewrite !lookup_take_lt, !lookup_drop by done. unfold memcpy, zlen in *.
  destruct (decide (Z.to_nat i + k < Z.to_nat pos)%nat).
  - rewrite lookup_app_l by (rewrite length_take; lia). by rewrite lookup_take_lt by lia.
  - rewrite lookup_app_r by (rewrite length_take; lia). rewrite length_take_le by lia. rewrite lookup_app_r by lia. rewrite lookup_drop. f_equal. lia.
Qed.

Lemma le_at_memcpy_out n l pos src i :
  0 <= pos -> 0 <= i -> pos + zlen src <= zlen l -> i + Z.of_nat n <= pos \/ pos + zlen src <= i -> le_at n (memcpy l pos src) i = le_at n l i.
Proof. intros. unfold le_at. f_equal. by apply window_memcpy_out. Qed.

Lemma words_length ts : length (concat (le_bytes 8 <$> ts)) = (8 * length ts)%nat.
Proof. rewrite (length_concat_const 8), length_fmap; [done|]. apply Forall_fmap, Forall_forall. intros t _. apply length_le_bytes. Qed.

Lemma zlen_zero_block : zlen zero_block = EXFS_BLOCK_SIZE.
Proof. unfold zero_block. by rewrite zlen_replicate. Qed.

Lemma journal_header_spec ts :
  zlen ts <= EXFS_JOURNAL_MAX_BLOCKS -> Forall (fun t => 0 <= t < 2 ^ 64) ts ->
  zlen (journal_header ts) = EXFS_BLOCK_SIZE /\ le_at 4 (journal_header ts) 0 = EXFS_JOURNAL_MAGIC /\ header_blocks (journal_header ts) = ts.
Proof.
  intros L R. pose proof (zlen_nonneg ts) as L0. unfold EXFS_JOURNAL_MAX_BLOCKS in L. unfold journal_header. pose proof zlen_zero_block as Z0. unfold EXFS_BLOCK_SIZE in *.
  generalize dependent zero_block. intros z Z0. set (h1 := memcpy z 0 (le_bytes 4 EXFS_JOURNAL_MAGIC)). set (h2 := memcpy h1 4 (le_bytes 4 (zlen ts))).
  assert (W : zlen (concat (le_bytes 8 <$> ts)) = 8 * zlen ts) by (unfold zlen; rewrite words_length; lia).
  assert (L1 : zlen h1 = 4096) by (unfold h1; rewrite zlen_memcpy; rewrite ?zlen_le_bytes; lia).
  assert (L2 : zlen h2 = 4096) by (unfold h2; rewrite zlen_memcpy; rewrite ?zlen_le_bytes; lia).
  assert (L3 : zlen (memcpy h2 8 (concat (le_bytes 8 <$> ts))) = 4096) by (rewrite zlen_memcpy; lia).
  split; [done|]. split.
  - rewrite le_at_memcpy_out by lia. unfold h2. rewrite le_at_memcpy_out by (rewrite ?zlen_le_bytes; lia). unfold h1.
    rewrite le_at_memcpy_in by (rewrite ?zlen_le_bytes, ?length_le_bytes; lia). by rewrite le_val_bytes.
  - assert (Ec : le_at 4 (memcpy h2 8 (concat (le_bytes 8 <$> ts))) 4 = zlen ts).
    { rewrite le_at_memcpy_out by lia. unfold h2. rewrite le_at_memcpy_in by (rewrite ?zlen_le_bytes, ?length_le_bytes; lia).
      rewrite le_val_bytes. apply Z.mod_small. lia. }
    unfold header_blocks. rewrite Ec. rewrite Z.min_l by (unfold EXFS_JOURNAL_MAX_BLOCKS; lia). apply list_eq. intros i. rewrite list_lookup_fmap.
    destruct (decide (i < length ts)%nat) as [Hi|Hi].
    + rewrite lookup_seqZ_lt by (unfold zlen; lia). destruct (lookup_lt_is_Some_2 ts i Hi) as [t Ht]. rewrite Ht. cbn [fmap option_fmap option_map]. f_equal.
      unfold le_at, memcpy. rewrite drop_app_ge by (rewrite length_take; unfold zlen in L2; lia). rewrite length_take_le by (unfold zlen in L2; lia).
      rewrite drop_app_le by (rewrite words_length; lia). replace (Z.to_nat (8 + 8 * (0 + Z.of_nat i)) - Z.to_nat 8)%nat with (8 * i)%nat by lia.
      rewrite (drop_concat 8) by (apply Forall_fmap, Forall_forall; intros; apply length_le_bytes).
      rewrite (drop_S (le_bytes 8 <$> ts) (le_bytes 8 t) i) by (by rewrite list_lookup_fmap, Ht). cbn [concat].
      rewrite <- app_assoc. rewrite take_app_length' by (by rewrite length_le_bytes). rewrite le_val_bytes. apply Z.mod_small.
      rewrite Forall_forall in R. apply list_elem_of_lookup_2 in Ht. apply R in Ht. lia.
    + rewrite lookup_ge_None_2 by (rewrite length_seqZ; unfold zlen; lia). by rewrite lookup_ge_None_2 by lia.
Qed.

(** ** Redo *)

(** [w] with the blocks [ts] replaced by the blocks of [src] from sector [slot] on. *)
Fixpoint overlay (base : Z) (src : view) (slot : Z) (ts : list Z) (w : view) : view :=
  match ts with
  | [] => w
  | t :: ts' => overlay base src (slot + 8) ts'
      (fun l => if (base + 8 * t <=? l) && (l <? base + 8 * t + 8) then src (slot + (l - (base + 8 * t))) else w l)
  end.

(** The disk a completed replay makes of [v]; [jb] is the journal header block. *)
Definition recovered (base jb : Z) (v : view) : view :=
  match pending v (base + 8 * jb) with
  | Some ts => overlay base v (base + 8 * (jb + 1)) ts v
  | None => v
  end.

(** The slots from [slot] on hold [ds]. *)
Fixpoint hold (v : view) (slot : Z) (ds : list (list Z)) : Prop :=
  match ds with
  | [] => True
  | d :: ds' => block_at v slot d /\ hold v (slot + 8) ds'
  end.

Lemma overlay_new base src slot ts ds w w' l :
  length ts = length ds -> hold src slot ds -> (w l = w' l \/ in_blocks base ts l) -> overlay base src slot ts w l = new_view base ts ds w' l.
Proof.
  revert slot ds w w'. induction ts as [|t ts IH]; intros slot [|d ds] w w' L Hd H; try done.
  - destruct H as [H|(t & Ht & _)]; [done|]. by apply elem_of_nil in Ht.
  - cbn [overlay new_view]. destruct Hd as [B Hd]. apply IH; [cbn in L; lia|done|].
    destruct (decide (base + 8 * t <= l < base + 8 * t + 8)) as [Hl|Hl].
    + left. rewrite put_in by done. destruct (Z.leb_spec (base + 8 * t) l), (Z.ltb_spec l (base + 8 * t + 8)); try lia. cbn [andb]. apply B. lia.
    + destruct H as [H|(t' & Ht & Hl')].
      * left. rewrite put_out by lia. destruct (Z.leb_spec (base + 8 * t) l), (Z.ltb_spec l (base + 8 * t + 8)); try lia; done.
      * apply elem_of_cons in Ht as [->|Ht]; [lia|]. right. by exists t'.
Qed.

Lemma hold_ext v v' slot ds :
  (forall l, slot <= l < slot + 8 * zlen ds -> v' l = v l) -> hold v slot ds -> hold v' slot ds.
Proof.
  revert slot. induction ds as [|d ds IH]; intros slot E H; [done|]. destruct H as [B H].
  assert (zlen (d :: ds) = zlen ds + 1) by (unfold zlen; cbn [length]; lia). pose proof (zlen_nonneg ds). split.
  - intros k Hk. rewrite E by lia. by apply B.
  - apply IH; [|done]. intros l Hl. apply E. lia.
Qed.

Lemma hold_new_view base slot ds v : hold (new_view base (slots slot (length ds)) ds v) (base + 8 * slot) ds.
Proof.
  revert slot v. induction ds as [|d ds IH]; intros slot v; [done|]. cbn [length]. rewrite slots_cons. cbn [new_view hold]. split.
  - intros k Hk. rewrite new_view_out; [by apply block_at_put|]. intros (t & Ht & Hr). apply elem_of_seqZ in Ht. lia.
  - replace (base + 8 * slot + 8) with (base + 8 * (slot + 1)) by lia. apply IH.
Qed.

(** ** Crash states *)

(** [l] is not in the journal region of [jn] blocks from [jb] on. *)
Definition outside (base jb jn l : Z) : Prop := l < base + 8 * jb \/ base + 8 * (jb + jn) <= l.

Definition target_ok (base jb jn : Z) (v : view) (t : Z) : Prop := in_range base v t /\ (t < jb \/ jb + jn <= t).

Definition region (base jb jn : Z) (v : view) : Prop := 0 < jn /\ forall i, 0 <= i < jn -> in_range base v (jb + i).

(** The disk [v] is [w] to whoever mounts it. *)
Record journal_view (base jb jn : Z) (w v : view) : Prop := {
  jv_region : region base jb jn v;
  jv_recovered : forall l, outside base jb jn l -> recovered base jb v l = w l;
  jv_pending : forall ts, pending v (base + 8 * jb) = Some ts -> Forall (target_ok base jb jn v) ts /\ zlen ts <= jn - 1
}.

Lemma target_outside base jb jn v ts l : Forall (target_ok base jb jn v) ts -> in_blocks base ts l -> outside base jb jn l.
Proof.
  intros F (t & Ht & Hl). rewrite Forall_forall in F. destruct (F t Ht) as [_ [?|?]]; [left|right]; lia.
Qed.

Lemma journal_view_pending base jb jn ts ds v v0 :
  region base jb jn v -> length ts = length ds -> zlen ts <= jn - 1 -> Forall (target_ok base jb jn v) ts ->
  pending v (base + 8 * jb) = Some ts -> hold v (base + 8 * (jb + 1)) ds ->
  (forall l, outside base jb jn l -> v l = v0 l \/ in_blocks base ts l) -> journal_view base jb jn (new_view base ts ds v0) v.
Proof.
  intros R L Lt T P H E. constructor; [done| |].
  - intros l Hl. unfold recovered. rewrite P. apply overlay_new; [done|done|by apply E].
  - intros ts' E'. rewrite P in E'. by injection E' as <-.
Qed.

Lemma journal_view_clear base jb jn v w :
  region base jb jn v -> pending v (base + 8 * jb) = None -> (forall l, outside base jb jn l -> v l = w l) -> journal_view base jb jn w v.
Proof. intros R P E. constructor; [done| |by rewrite P]. intros l Hl. unfold recovered. rewrite P. by apply E. Qed.

Lemma journal_view_mono base jb jn w w' v :
  (forall l, outside base jb jn l -> w l = w' l) -> journal_view base jb jn w v -> journal_view base jb jn w' v.
Proof. intros E [A B C]. constructor; [done| |done]. intros l Hl. rewrite <- E by done. by apply B. Qed.

Lemma region_view base jb jn v v' : (forall l, is_Some (v l) -> is_Some (v' l)) -> region base jb jn v -> region base jb jn v'.
Proof. intros E [A B]. split; [done|]. intros i Hi. by eapply in_range_view; [|apply B]. Qed.

Lemma targets_view base jb jn v v' ts :
  (forall l, is_Some (v l) -> is_Some (v' l)) -> Forall (target_ok base jb jn v) ts -> Forall (target_ok base jb jn v') ts.
Proof. intros E F. eapply Forall_impl; [exact F|]. intros t [A B]. split; [by eapply in_range_view|done]. Qed.

Lemma overlay_eq base src src' slot ts w w' l :
  (forall l, src l = src' l) -> (forall l, w l = w' l) -> overlay base src slot ts w l = overlay base src' slot ts w' l.
Proof.
  intros Es. revert slot w w'. induction ts as [|t ts IH]; intros slot w w' Hw; [apply Hw|]. cbn [overlay]. apply IH.
  intros l'. by destruct (_ && _).
Qed.

Lemma journal_view_eq base jb jn w v v' : (forall l, v' l = v l) -> journal_view base jb jn w v -> journal_view base jb jn w v'.
Proof.
  intros E [R J P]. assert (Ep : forall jl, pending v' jl = pending v jl) by (intros jl; unfold pending; by rewrite E). constructor.
  - eapply region_view; [|exact R]. intros l. by rewrite E.
  - intros l Hl. rewrite <- J by done. unfold recovered. rewrite Ep. destruct (pending v _); [by apply overlay_eq|apply E].
  - intros ts. rewrite Ep. intros Hp. destruct (P ts Hp) as [T L]. split; [|done]. eapply targets_view; [|exact T]. intros l. by rewrite E.
Qed.

(** ** Clearing the header *)

Lemma pending_zero v lba m : 0 < m -> pending (put v lba m zero_block) lba = None.
Proof.
  intros Hm. unfold pending. rewrite put_in by lia. replace (lba - lba) with 0 by lia.
  assert (E : le_at 4 (sector_of zero_block 0) 0 = 0); [|by rewrite E].
  unfold sector_of, zero_block. rewrite le_at_take by (cbn; lia). by rewrite drop_0.
Qed.

Lemma clear_header_spec base jb jn w s :
  fs_ok s -> base = v_dev_lba_base (x_vol s) -> region base jb jn (V s) -> journal_view base jb jn w (V s) ->
  (forall l, outside base jb jn l -> V s l = w l) ->
  cwp (exfs_write_block dev jb zero_block) s
    (fun ok s' => ok = true /\ same s s' /\ fs_ok s' /\ pending (V s') (base + 8 * jb) = None /\ region base jb jn (V s') /\
       forall l, outside base jb jn l -> V s' l = w l)
    (fun s' => same s s' /\ dev_ok (x_dev s') /\ journal_view base jb jn w (V s')).
Proof.
  intros H -> R J E. destruct R as [R1 R2]. pose proof (R2 0 ltac:(lia)) as I0. rewrite Z.add_0_r in I0.
  assert (Out : forall m l, 0 <= m <= 8 -> outside (v_dev_lba_base (x_vol s)) jb jn l -> put (V s) (lba_of s jb) m zero_block l = V s l).
  { intros m l Hm Hl. apply put_out. unfold outside, lba_of in *. lia. }
  eapply cwp_mono; [apply exfs_write_block_spec; [done|exact I0|apply zlen_zero_block]| |].
  - intros ok s' (-> & Sm & Ok & E'). split; [done|]. split; [done|]. split; [done|]. split.
    + unfold pending. rewrite E'. fold (pending (put (V s) (lba_of s jb) 8 zero_block) (lba_of s jb)). by apply pending_zero.
    + split; [eapply region_view; [|by split]; intros l Hl; rewrite E'; by apply put_some|].
      intros l Hl. rewrite E', Out by (done || lia). by apply E.
  - intros s' (d & m & -> & Od & Hm & E'). split; [apply same_with_dev|]. split; [done|].
    assert (Rv : forall l, is_Some (V s l) -> is_Some (V (with_dev d s) l)) by (intros l Hl; rewrite E'; by apply put_some).
    destruct (decide (m = 0)) as [->|].
    + eapply journal_view_eq; [|exact J]. intros l. rewrite E'. apply put_out. lia.
    + apply journal_view_clear.
      * by eapply region_view; [|split].
      * unfold pending. rewrite E'. fold (pending (put (V s) (lba_of s jb) m zero_block) (lba_of s jb)). apply pending_zero. lia.
      * intros l Hl. rewrite E', Out by done. by apply E.
Qed.

(** ** Commit *)

Definition jb (s : St) : Z := sb_journal_block (v_sb (x_vol s)).
Definition jn (s : St) : Z := sb_journal_size (v_sb (x_vol s)).
Definition base (s : St) : Z := v_dev_lba_base (x_vol s).

(** The blocks and contents of the open transaction. *)
Definition txn_blocks (s : St) : list Z := take (Z.to_nat (v_jtxn_count (x_vol s))) (v_jtxn_blocks (x_vol s)).
Definition txn_data (s : St) : list (list Z) := take (Z.to_nat (v_jtxn_count (x_vol s))) (default [] (v_jtxn_data (x_vol s))).

(** A transaction the journal can hold, on a volume with a clear journal. *)
Record txn_ok (s : St) : Prop := {
  to_fs : fs_ok s;
  to_active : v_jtxn_active (x_vol s) = true;
  to_data : is_Some (v_jtxn_data (x_vol s));
  to_count : 0 <= v_jtxn_count (x_vol s) <= EXFS_JOURNAL_MAX_BLOCKS /\ v_jtxn_count (x_vol s) <= jn s - 1;
  to_lens : zlen (v_jtxn_blocks (x_vol s)) = EXFS_JOURNAL_MAX_BLOCKS /\ zlen (default [] (v_jtxn_data (x_vol s))) = EXFS_JOURNAL_MAX_BLOCKS;
  to_blocks : Forall (target_ok (base s) (jb s) (jn s) (V s)) (txn_blocks s);
  to_nodup : NoDup (txn_blocks s);
  to_blk_len : Forall (fun d => zlen d = EXFS_BLOCK_SIZE) (txn_data s);
  to_region : region (base s) (jb s) (jn s) (V s);
  to_clear : pending (V s) (base s + 8 * jb s) = None
}.

Lemma txn_lengths s : txn_ok s -> zlen (txn_blocks s) = v_jtxn_count (x_vol s) /\ length (txn_blocks s) = length (txn_data s).
Proof.
  intros [_ _ _ [[C0 C1] _] [L1 L2] _ _ _ _ _]. unfold txn_blocks, txn_data, zlen, EXFS_JOURNAL_MAX_BLOCKS in *. rewrite !length_take. lia.
Qed.

(** The volume after the transaction. *)
Definition committed (s : St) : view := new_view (base s) (txn_blocks s) (txn_data s) (V s).

Lemma torn_same ts s s' : torn ts s s' -> same s s'.
Proof. intros ((s1 & d & Sm & ->) & _). eapply same_trans; [exact Sm|apply same_with_dev]. Qed.

Lemma in_blocks_dec b ts l : in_blocks b ts l \/ ~ in_blocks b ts l.
Proof.
  induction ts as [|t ts IH]; [right; intros (t & Ht & _); by apply elem_of_nil in Ht|].
  destruct (decide (b + 8 * t <= l < b + 8 * t + 8)); [left; exists t; split; [by left|done]|].
  destruct IH as [(t' & Ht & Hl)|IH]; [left; exists t'; split; [by right|done]|right].
  intros (t' & Ht & Hl). apply elem_of_cons in Ht as [->|Ht]; [done|]. apply IH. by exists t'.
Qed.

Lemma jl_not_target b jb jn v ts : 0 < jn -> Forall (target_ok b jb jn v) ts -> forall l, b + 8 * jb <= l < b + 8 * (jb + jn) -> ~ in_blocks b ts l.
Proof. intros Hn T l Hl Hin. apply (target_outside _ _ _ _ _ _ T) in Hin. unfold outside in Hin. lia. Qed.

(** While the targets are being overwritten the journal says what is to come. *)
Lemma journal_view_applying b jb jn ts ds v v' v0 :
  region b jb jn v -> length ts = length ds -> zlen ts <= jn - 1 -> Forall (target_ok b jb jn v) ts ->
  pending v (b + 8 * jb) = Some ts -> hold v (b + 8 * (jb + 1)) ds -> (forall l, outside b jb jn l -> v l = v0 l) ->
  (forall l, is_Some (v l) -> is_Some (v' l)) -> (forall l, ~ in_blocks b ts l -> v' l = v l) -> journal_view b jb jn (new_view b ts ds v0) v'.
Proof.
  intros R L Lt T P Hd E Pr O. pose proof (jl_not_target _ _ _ _ _ (proj1 R) T) as Nt. assert (Zd : zlen ds = zlen ts) by (unfold zlen; lia). pose proof R as [R1 _].
  apply journal_view_pending; [by eapply region_view|done|done|by eapply targets_view| | |].
  - unfold pending. rewrite O; [exact P|]. apply Nt. lia.
  - eapply hold_ext; [|exact Hd]. intros l Hl. apply O, Nt. lia.
  - intros l Hl. destruct (in_blocks_dec b ts l) as [?|Hn]; [by right|left]. rewrite O by done. by apply E.
Qed.

(** The second half of a commit, from the moment the header is on the disk. *)
Lemma commit_apply b jb jn ts ds v0 s :
  fs_ok s -> b = base s -> region b jb jn (V s) -> length ts = length ds -> zlen ts <= jn - 1 -> Forall (target_ok b jb jn (V s)) ts ->
  Forall (fun d => zlen d = EXFS_BLOCK_SIZE) ds -> pending (V s) (b + 8 * jb) = Some ts -> hold (V s) (b + 8 * (jb + 1)) ds ->
  (forall l, outside b jb jn l -> V s l = v0 l) ->
  cwp (_ <-- apply_blocks dev ts ds true ;; _ <-- crash_point 3 ;; exfs_write_block dev jb zero_block) s
    (fun ok s' => ok = true /\ same s s' /\ fs_ok s' /\ pending (V s') (b + 8 * jb) = None /\ region b jb jn (V s') /\
       forall l, outside b jb jn l -> V s' l = new_view b ts ds v0 l)
    (fun s' => same s s' /\ dev_ok (x_dev s') /\ journal_view b jb jn (new_view b ts ds v0) (V s')).
Proof.
  intros H -> R L Lt T Ld P Hd E.
  pose proof (fun v' => journal_view_applying _ _ _ _ _ (V s) v' v0 R L Lt T P Hd E) as J.
  apply cwp_bind. eapply cwp_mono; [apply apply_blocks_spec; [done| |done|done]| |].
  - eapply Forall_impl; [exact T|]. by intros t [I _].
  - intros r s3 [_ (Sm & Ok & E3)]. fold (base s) in E3.
    assert (J3 : journal_view (base s) jb jn (new_view (base s) ts ds v0) (V s3)).
    { apply J; intros l Hl; rewrite E3; [by apply new_view_some|by apply new_view_out]. }
    apply cwp_bind, cwp_crash_point; [|split; [done|split; [apply Ok|done]]].
    eapply cwp_mono; [apply (clear_header_spec (base s) jb jn (new_view (base s) ts ds v0)); [done|symmetry; exact (same_base s s3 Sm)|apply J3|done|]| |].
    + intros l Hl. rewrite E3. apply new_view_ext; [done|]. left. by apply E.
    + intros ok s4 (-> & Sm4 & Ok4 & P4 & E4). split; [done|]. split; [by eapply same_trans|done].
    + intros s4 (Sm4 & Od & J4). split; [by eapply same_trans|done].
  - intros s' T'. pose proof (torn_same _ _ _ T') as Sm. destruct T' as (_ & Od & Pr & O). split; [done|]. split; [done|]. by apply J.
Qed.

(** The state [commit] works on. *)
Definition idle (s : St) : St :=
  mk_exfs (set_txn false (v_jtxn_count (x_vol s)) (v_jtxn_blocks (x_vol s)) (v_jtxn_data (x_vol s)) (x_vol s)) (x_dev s) (g_exfs_crash_point s) (x_audit s).

Lemma idle_ok s : fs_ok s -> fs_ok (idle s).
Proof. by intros [A B]. Qed.

(** The first half: slots, then header. *)
Lemma commit_log s :
  txn_ok s -> txn_blocks s <> [] ->
  cwp (a <-- write_slots dev (jb s + 1) (txn_data s) ;; if negb a then mret false else
       _ <-- crash_point 1 ;; exfs_write_block dev (jb s) (journal_header (txn_blocks s))) (idle s)
    (fun ok s' => ok = true /\ same (idle s) s' /\ fs_ok s' /\ region (base s) (jb s) (jn s) (V s') /\
       Forall (target_ok (base s) (jb s) (jn s) (V s')) (txn_blocks s) /\ pending (V s') (base s + 8 * jb s) = Some (txn_blocks s) /\
       hold (V s') (base s + 8 * (jb s + 1)) (txn_data s) /\ forall l, outside (base s) (jb s) (jn s) l -> V s' l = V s l)
    (fun s' => same (idle s) s' /\ dev_ok (x_dev s') /\
       (journal_view (base s) (jb s) (jn s) (V s) (V s') \/ journal_view (base s) (jb s) (jn s) (committed s) (V s'))).
Proof.
  intros T Ne. destruct (txn_lengths s T) as [Lc Ll]. pose proof T as [H _ _ [[C0 C1] C2] _ Tb _ Td R Cl].
  pose proof R as [Rn Ri]. assert (Zd : zlen (txn_data s) = v_jtxn_count (x_vol s)) by (unfold zlen in *; lia).
  assert (Is : Forall (inr (idle s)) (slots (jb s + 1) (length (txn_data s)))).
  { apply Forall_forall. intros t Ht. apply elem_of_seqZ in Ht. unfold zlen in Zd. replace t with (jb s + (t - jb s)) by lia. apply Ri. lia. }
  assert (Sl : forall l, in_blocks (base s) (slots (jb s + 1) (length (txn_data s))) l -> base s + 8 * jb s + 8 <= l < base s + 8 * (jb s + jn s)).
  { intros l (t & Ht & Hl). apply elem_of_seqZ in Ht. unfold zlen in Zd. lia. }
  assert (Old : forall s' : St, (forall l, is_Some (V s l) -> is_Some (V s' l)) ->
    (forall l, ~ in_blocks (base s) (slots (jb s + 1) (length (txn_data s))) l -> V s' l = V s l) -> journal_view (base s) (jb s) (jn s) (V s) (V s')).
  { intros s' Pr O. apply journal_view_clear; [by eapply region_view| |].
    - unfold pending. rewrite O; [exact Cl|]. intros Hb. apply Sl in Hb. lia.
    - intros l Hl. apply O. intros Hb. apply Sl in Hb. unfold outside in Hl. lia. }
  apply cwp_bind. eapply cwp_mono; [apply write_slots_spec; [by apply idle_ok|done|done]| |].
  2: { intros s' T'. pose proof (torn_same _ _ _ T') as Sm. destruct T' as (_ & Od & Pr & O). split; [done|]. split; [done|]. left. by apply Old. }
  intros ok s1 (-> & W). cbn [negb]. pose proof W as (Sm & Ok & E1). change (v_dev_lba_base (x_vol (idle s))) with (base s) in E1. change (V (idle s)) with (V s) in E1.
  assert (Pr1 : forall l, is_Some (V s l) -> is_Some (V s1 l)) by (intros l Hl; rewrite E1; by apply new_view_some).
  assert (O1 : forall l, ~ in_blocks (base s) (slots (jb s + 1) (length (txn_data s))) l -> V s1 l = V s l) by (intros l Hl; rewrite E1; by apply new_view_out).
  assert (Rt : Forall (fun t => 0 <= t < 2 ^ 64) (txn_blocks s)).
  { eapply Forall_impl; [exact Tb|]. intros t [(? & ? & ? & _) _]. cbn beta. lia. }
  destruct (journal_header_spec (txn_blocks s) ltac:(lia) Rt) as (Lh & Mh & Bh).
  assert (I1 : inr s1 (jb s)).
  { unfold inr. rewrite (same_base _ _ Sm). eapply in_range_view; [exact Pr1|]. replace (jb s) with (jb s + 0) by lia. apply Ri. lia. }
  assert (New : forall m s', 0 < m <= 8 -> (forall l, V s' l = put (V s1) (base s + 8 * jb s) m (journal_header (txn_blocks s)) l) ->
    region (base s) (jb s) (jn s) (V s') /\ Forall (target_ok (base s) (jb s) (jn s) (V s')) (txn_blocks s) /\
    pending (V s') (base s + 8 * jb s) = Some (txn_blocks s) /\ hold (V s') (base s + 8 * (jb s + 1)) (txn_data s) /\
    forall l, outside (base s) (jb s) (jn s) l -> V s' l = V s l).
  { intros m s' Hm E. assert (Pr : forall l, is_Some (V s l) -> is_Some (V s' l)) by (intros l Hl; rewrite E; by apply put_some, Pr1).
    split; [by eapply region_view|]. split; [by eapply targets_view|]. split; [|split].
    - unfold pending. rewrite E, put_in by lia. rewrite Z.sub_diag. unfold sector_of. change (Z.to_nat (512 * 0)) with 0%nat.
      rewrite drop_0, le_at_take by (cbn; lia). rewrite header_blocks_take. by rewrite Mh, Bh, Z.eqb_refl.
    - eapply hold_ext; [|exact (hold_new_view (base s) (jb s + 1) (txn_data s) (V s))]. intros l Hl. rewrite E, put_out by lia. apply E1.
    - intros l Hl. unfold outside in Hl. rewrite E, put_out by lia. apply O1. intros Hb. apply Sl in Hb. lia. }
  apply cwp_bind, cwp_crash_point; [|split; [done|split; [apply Ok|left; by apply Old]]].
  assert (Lb : lba_of s1 (jb s) = base s + 8 * jb s) by (unfold lba_of; by rewrite (same_base _ _ Sm)).
  eapply cwp_mono; [by apply exfs_write_block_spec| |].
  - intros ok s2 (-> & Sm2 & Ok2 & E2). rewrite Lb in E2. split; [done|]. split; [by eapply same_trans|]. split; [done|]. by apply (New 8).
  - intros s2 (d & m & -> & Od & Hm & E2). rewrite Lb in E2. split; [eapply same_trans; [exact Sm|apply same_with_dev]|]. split; [done|].
    destruct (decide (m = 0)) as [->|].
    + left. apply Old; intros l Hl; rewrite E2, put_out by lia; auto.
    + right. destruct (New m _ ltac:(lia) E2) as (A & B & C & F & G). apply journal_view_pending; try done; [lia|]. intros l Hl. left. by apply G.
Qed.

(** The state the machine leaves behind when it stops in the middle of [commit]:
    to whoever mounts the disk, nothing or all of the transaction has happened. *)
Definition crash_ok (s s' : St) : Prop :=
  same (idle s) s' /\ dev_ok (x_dev s') /\
  (journal_view (base s) (jb s) (jn s) (V s) (V s') \/ journal_view (base s) (jb s) (jn s) (committed s) (V s')).

(** The state after a commit that came back. *)
Record commit_ok (s s' : St) : Prop := {
  co_fs : fs_ok s';
  co_vol : exists c n, x_vol s' = set_cache c n (set_txn false 0 (v_jtxn_blocks (x_vol s)) (v_jtxn_data (x_vol s)) (x_vol s));
  co_rest : g_exfs_crash_point s' = g_exfs_crash_point s /\ x_audit s' = x_audit s;
  co_clear : pending (V s') (base s + 8 * jb s) = None;
  co_region : region (base s) (jb s) (jn s) (V s');
  co_view : forall l, outside (base s) (jb s) (jn s) l -> V s' l = committed s l
}.

Lemma txn_done_ok s s4 :
  txn_ok s -> same (idle s) s4 -> fs_ok s4 -> pending (V s4) (base s + 8 * jb s) = None -> region (base s) (jb s) (jn s) (V s4) ->
  (forall l, outside (base s) (jb s) (jn s) l -> V s4 l = committed s l) ->
  cwp (_ <-- txn_done ;; mret true) s4 (fun r s' => r = true /\ commit_ok s s') (crash_ok s).
Proof.
  intros T [(c & n & Ev) Er] Ok P R E. apply cwp_bind, cwp_modify, cwp_ret. split; [done|]. constructor; [|exists c, n; cbn [x_vol]; by rewrite Ev|exact Er|exact P|exact R|exact E].
  destruct Ok as [A B]. by constructor.
Qed.

Lemma exfs_journal_commit_spec s :
  txn_ok s -> cwp (exfs_journal_commit dev) s (fun r s' => r = true /\ commit_ok s s') (crash_ok s).
Proof.
  intros T. destruct (txn_lengths s T) as [Lc Ll]. pose proof T as [H Ac [staged Es] [[C0 C1] C2] Ls Tb _ Td R Cl]. pose proof R as [Rn _].
  unfold exfs_journal_commit. apply cwp_bind, cwp_get. rewrite Ac. cbn [negb]. apply cwp_bind, cwp_modify. fold (idle s).
  destruct (Z.eqb_spec (v_jtxn_count (x_vol s)) 0) as [E0|E0].
  { apply cwp_ret. split; [done|]. constructor; [by apply idle_ok| |done|done|done|].
    - exists (v_cache (x_vol s)), (v_cache_next_evict (x_vol s)). unfold idle. cbn [x_vol]. by rewrite E0.
    - intros l _. unfold committed. rewrite (nil_length_inv (txn_blocks s)); [done|]. unfold zlen in Lc. lia. }
  assert (Ne : txn_blocks s <> []) by (intros E; rewrite E in Lc; cbn in Lc; unfold zlen in Lc; cbn in Lc; lia).
  cbv zeta. fold (txn_blocks s). rewrite Es. replace (take (Z.to_nat (v_jtxn_count (x_vol s))) staged) with (txn_data s) by (unfold txn_data; by rewrite Es).
  fold (jn s) (jb s). rewrite (bool_decide_true (is_Some (Some staged))) by done.
  destruct (Z.eqb_spec (jn s) 0); [lia|]. destruct (Z.ltb_spec (jn s - 1) (v_jtxn_count (x_vol s))); [lia|]. cbn [orb negb].
  apply cwp_bind. eapply cwp_mono; [exact (cwp_bind_inv _ _ _ _ _ (commit_log s T Ne))| |done].
  intros a s1 W1. destruct a; cbn [negb] in *; [|by destruct W1]. apply cwp_bind. eapply cwp_mono; [exact (cwp_bind_inv _ _ _ _ _ W1)| |done].
  intros u1 s1' W2. apply cwp_bind. eapply cwp_mono; [exact W2| |done]. intros ok s2 (-> & Sm & Ok & R2 & T2 & P2 & H2 & O2). cbn [negb].
  apply cwp_bind, cwp_crash_point.
  2: { split; [done|]. split; [apply Ok|]. right. apply journal_view_pending; try done; [lia|]. intros l Hl. left. by apply O2. }
  pose proof (commit_apply (base s) (jb s) (jn s) (txn_blocks s) (txn_data s) (V s) s2 Ok (eq_sym (same_base _ _ Sm)) R2 Ll ltac:(lia) T2 Td P2 H2 O2) as W.
  apply cwp_bind. eapply cwp_mono; [exact (cwp_bind_inv _ _ _ _ _ W)| |].
  2: { intros s' (Sm' & Od & J). split; [by eapply same_trans|]. split; [done|by right]. }
  intros r s3 W3. apply cwp_bind. eapply cwp_mono; [exact (cwp_bind_inv _ _ _ _ _ W3)| |].
  2: { intros s' (Sm' & Od & J). split; [by eapply same_trans|]. split; [done|by right]. }
  intros u s3' W4. apply cwp_bind. eapply cwp_mono; [exact W4| |].
  2: { intros s' (Sm' & Od & J). split; [by eapply same_trans|]. split; [done|by right]. }
  intros ok4 s4 (-> & Sm4 & Ok4 & P4 & R4 & E4). apply txn_done_ok; [done|by eapply same_trans|done|done|done|done].
Qed.

(** ** Replay *)

Lemma wrote_start ts ds s s1 s' : same s s1 -> (forall l, V s1 l = V s l) -> wrote ts ds s1 s' -> wrote ts ds s s'.
Proof.
  intros Sm E (Sm' & Ok & E'). split; [by eapply same_trans|]. split; [done|]. intros l. rewrite E', (same_base _ _ Sm). by apply new_view_eq.
Qed.

Lemma torn_start ts s s1 s' : same s s1 -> (forall l, V s1 l = V s l) -> torn ts s1 s' -> torn ts s s'.
Proof.
  intros Sm E ((s2 & d & Sm2 & ->) & Od & Pr & T). split; [exists s2, d; split; [by eapply same_trans|done]|]. split; [done|].
  split; [intros l Hl; apply Pr; by rewrite E|]. intros l Hl. rewrite T; [apply E|]. by rewrite (same_base _ _ Sm).
Qed.

Lemma inr_same s s' idx : same s s' -> (forall l, V s' l = V s l) -> inr s idx -> inr s' idx.
Proof. intros Sm E. unfold inr. rewrite (same_base _ _ Sm). apply in_range_view. intros l. by rewrite E. Qed.

Lemma replay_blocks_spec slot ts ds blk s :
  fs_ok s -> Forall (inr s) (slots slot (length ts)) -> Forall (inr s) ts -> Forall (fun t => t < slot \/ slot + zlen ts <= t) ts ->
  length ts = length ds -> Forall (fun d => zlen d = EXFS_BLOCK_SIZE) ds -> hold (V s) (lba_of s slot) ds -> zlen blk = EXFS_BLOCK_SIZE ->
  cwp (replay_blocks dev slot ts blk) s (fun _ s' => wrote ts ds s s') (torn ts s).
Proof.
  revert slot ds blk s. induction ts as [|t ts IH]; intros slot [|d ds] blk s H Is It Dj L Ld Hd Lb; try done; cbn [replay_blocks].
  { apply cwp_ret. split; [apply same_refl|done]. }
  cbn [length] in *. rewrite slots_cons in Is. inversion Is as [|? ? I1 I2]; subst. inversion It as [|? ? J1 J2]; subst.
  inversion Dj as [|? ? D1 D2]; subst. inversion Ld as [|? ? L1 L2]; subst. destruct Hd as [Bd Hd].
  assert (Zc : zlen (t :: ts) = zlen ts + 1) by (unfold zlen; cbn [length]; lia). rewrite Zc in *.
  rewrite u64_small by (destruct I1 as (? & ? & ? & _); lia). apply cwp_bind.
  eapply cwp_mono; [by apply exfs_read_block_spec| |done]. intros r s1 (-> & Sm & Ok & E1). cbn [fst snd].
  rewrite (block_at_block_of _ _ d) by (done || intros l b; by apply sector_len).
  apply cwp_bind. eapply cwp_mono; [apply write_one; [done|by eapply inr_same|done]| |].
  2: { intros s' T'. eapply torn_start; [exact Sm|done|]. by apply torn_first. }
  intros ok s2 [-> W]. apply (wrote_start _ _ _ _ _ Sm E1) in W. pose proof W as (Sm2 & Ok2 & E2).
  assert (Zd : zlen ds = zlen ts) by (unfold zlen; lia).
  eapply cwp_mono; [apply (IH (slot + 1) ds); [done| | | |lia|done| |done]| |].
  - eapply Forall_impl; [exact I2|]. intros x. by apply (wrote_inr _ _ _ _ x W).
  - eapply Forall_impl; [exact J2|]. intros x. by apply (wrote_inr _ _ _ _ x W).
  - eapply Forall_impl; [exact D2|]. cbn beta. intros x Hx. lia.
  - rewrite (same_lba _ _ _ Sm2). replace (lba_of s (slot + 1)) with (lba_of s slot + 8) by (unfold lba_of; lia).
    eapply hold_ext; [|exact Hd]. intros l Hl. rewrite E2. cbn [new_view]. apply put_out. unfold lba_of in *. lia.
  - intros u s' W'. by eapply wrote_trans.
  - intros s' T'. by eapply torn_later.
Qed.

(** The contents of the slots. *)
Lemma hold_block_of v slot n :
  (forall i, 0 <= i < Z.of_nat n -> present v (slot + 8 * i)) -> (forall l b, v l = Some b -> zlen b = 512) ->
  exists ds, length ds = n /\ Forall (fun d => zlen d = EXFS_BLOCK_SIZE) ds /\ hold v slot ds.
Proof.
  revert slot. induction n as [|n IH]; intros slot P L; [by exists []|].
  destruct (IH (slot + 8)) as (ds & Ln & Ld & Hd); [|done|].
  { intros i Hi. replace (slot + 8 + 8 * i) with (slot + 8 * (i + 1)) by lia. apply P. lia. }
  destruct (block_of_spec v slot) as [L1 B1]; [|done|].
  { specialize (P 0 ltac:(lia)). by replace (slot + 8 * 0) with slot in P by lia. }
  exists (block_of v slot :: ds). split; [cbn; lia|]. split; [by constructor|done].
Qed.

Lemma exfs_journal_replay_spec w s :
  fs_ok s -> journal_view (base s) (jb s) (jn s) w (V s) ->
  cwp (exfs_journal_replay dev) s
    (fun _ s' => same s s' /\ fs_ok s' /\ pending (V s') (base s + 8 * jb s) = None /\ forall l, outside (base s) (jb s) (jn s) l -> V s' l = w l)
    (fun s' => same s s' /\ dev_ok (x_dev s') /\ journal_view (base s) (jb s) (jn s) w (V s')).
Proof.
  intros H J. pose proof J as [R Jr Jp]. pose proof R as [Rn Ri]. unfold exfs_journal_replay. apply cwp_bind, cwp_get. cbv zeta. fold (jn s) (jb s).
  destruct (Z.eqb_spec (jn s) 0); [lia|]. assert (I0 : inr s (jb s)) by (replace (jb s) with (jb s + 0) by lia; apply Ri; lia).
  apply cwp_bind. eapply cwp_mono; [apply exfs_read_block_spec; [done|exact I0|apply zlen_zero_block]| |done].
  intros r s1 (-> & Sm & Ok & E1). cbn [fst snd negb]. set (hdr := block_of (V s) (lba_of s (jb s))).
  destruct (block_of_spec (V s) (lba_of s (jb s)) (proj2 (proj2 (proj2 I0))) (fun l b => sector_len s l b H)) as [Lh Bh]. fold hdr in Lh, Bh.
  assert (Ep : pending (V s) (base s + 8 * jb s) = if le_at 4 hdr 0 =? EXFS_JOURNAL_MAGIC then Some (header_blocks hdr) else None).
  { unfold pending. specialize (Bh 0 ltac:(lia)). unfold lba_of in Bh. rewrite Z.add_0_r in Bh. unfold base. rewrite Bh. unfold sector_of.
    change (Z.to_nat (512 * 0)) with 0%nat. rewrite drop_0, le_at_take by (cbn; lia). by rewrite header_blocks_take. }
  clearbody hdr. unfold recovered in Jr. rewrite Ep in Jr. destruct (le_at 4 hdr 0 =? EXFS_JOURNAL_MAGIC); cbn [negb].
  2: { apply cwp_ret. split; [done|]. split; [done|]. split; [unfold pending; rewrite E1; exact Ep|]. intros l Hl. rewrite E1. by apply Jr. }
  destruct (Jp _ Ep) as [Tg Lt]. set (ts := header_blocks hdr) in *. clearbody ts.
  destruct (hold_block_of (V s) (base s + 8 * (jb s + 1)) (length ts)) as (ds & Ld & Fd & Hd); [|intros l b; by apply sector_len|].
  { intros i Hi. replace (base s + 8 * (jb s + 1) + 8 * i) with (base s + 8 * (jb s + (i + 1))) by lia. apply Ri. unfold zlen in Lt. lia. }
  assert (Ew : forall l, outside (base s) (jb s) (jn s) l -> new_view (base s) ts ds (V s) l = w l).
  { intros l Hl. rewrite <- Jr by done. symmetry. apply overlay_new; [done|done|by left]. }
  pose proof (fun v' => journal_view_applying _ _ _ _ _ (V s) v' (V s) R (eq_sym Ld) Lt Tg Ep Hd (fun l _ => eq_refl)) as Ja.
  assert (It : Forall (inr s) ts) by (eapply Forall_impl; [exact Tg|]; by intros t [? _]).
  apply cwp_bind. eapply cwp_mono; [apply (replay_blocks_spec _ ts ds _ s1); [done| | | |done|done| |apply zlen_zero_block]| |].
  - apply Forall_forall. intros t Ht. apply elem_of_seqZ in Ht. apply (inr_same _ _ _ Sm E1). unfold zlen in Lt. replace t with (jb s + (t - jb s)) by lia. apply Ri. lia.
  - eapply Forall_impl; [exact It|]. intros t. by apply inr_same.
  - eapply Forall_impl; [exact Tg|]. intros t [_ Ht]. cbn beta. lia.
  - rewrite (same_lba _ _ _ Sm). eapply hold_ext; [|exact Hd]. intros l _. apply E1.
  - intros u s2 W. apply (wrote_start _ _ _ _ _ Sm E1) in W as (Sm2 & Ok2 & E2). fold (base s) in E2.
    assert (J2 : journal_view (base s) (jb s) (jn s) w (V s2)).
    { apply (journal_view_mono _ _ _ (new_view (base s) ts ds (V s))); [done|]. apply Ja; intros l Hl; rewrite E2; [by apply new_view_some|by apply new_view_out]. }
    apply cwp_bind. eapply cwp_mono; [apply (clear_header_spec (base s) (jb s) (jn s) w); [done|symmetry; exact (same_base _ _ Sm2)|apply J2|done|]| |].
    + intros l Hl. rewrite E2. by apply Ew.
    + intros ok s3 (_ & Sm3 & Ok3 & P3 & _ & E3). apply cwp_ret. split; [by eapply same_trans|done].
    + intros s3 (Sm3 & Od & J3). split; [by eapply same_trans|done].
  - intros s2 T. apply (torn_start _ _ _ _ Sm E1) in T. pose proof (torn_same _ _ _ T) as Sm2. destruct T as (_ & Od & Pr & O). split; [done|]. split; [done|].
    apply (journal_view_mono _ _ _ (new_view (base s) ts ds (V s))); [done|]. by apply Ja.
Qed.

(** ** Staging *)

Lemma new_view_app base ts ds t d v l :
  length ts = length ds -> new_view base (ts ++ [t]) (ds ++ [d]) v l = put (new_view base ts ds v) (base + 8 * t) 8 d l.
Proof. revert ds v. induction ts as [|t' ts IH]; intros [|d' ds] v L; try done. cbn [app new_view]. apply IH. cbn in L. lia. Qed.

Lemma new_view_in base ts ds i t d v l :
  NoDup ts -> ts !! i = Some t -> ds !! i = Some d -> base + 8 * t <= l < base + 8 * t + 8 ->
  new_view base ts ds v l = Some (sector_of d (l - (base + 8 * t))).
Proof.
  intros Nd. revert ds i v. induction Nd as [|t' ts Ht Nd IH]; intros [|d' ds] [|i] v Et Ed Hl; try done; cbn [new_view].
  - injection Et as ->. injection Ed as ->. rewrite new_view_out; [by apply put_in|]. intros (t2 & H2 & Hl2). assert (t2 = t) by lia. by subst.
  - by eapply IH.
Qed.

Lemma new_view_insert base ts ds i t d v l :
  NoDup ts -> length ts = length ds -> ts !! i = Some t ->
  new_view base ts (<[i := d]> ds) v l = put (new_view base ts ds v) (base + 8 * t) 8 d l.
Proof.
  intros Nd L Et. assert (Li : (i < length ds)%nat) by (rewrite <- L; by eapply lookup_lt_Some).
  destruct (decide (base + 8 * t <= l < base + 8 * t + 8)) as [Hl|Hl].
  - rewrite put_in by done. eapply new_view_in; [done|exact Et|by apply list_lookup_insert_eq|done].
  - rewrite put_out by lia. destruct (in_blocks_dec base ts l) as [(t' & Ht & Hl')|Hn]; [|by rewrite !new_view_out].
    apply list_elem_of_lookup in Ht as [j Ej]. assert (Hij : i <> j) by (intros ->; rewrite Et in Ej; injection Ej as <-; lia).
    assert (Lj : (j < length ds)%nat) by (rewrite <- L; by eapply lookup_lt_Some). destruct (lookup_lt_is_Some_2 ds j Lj) as [dj Edj].
    rewrite (new_view_in _ _ _ j t' dj) by (done || by rewrite list_lookup_insert_ne). by rewrite (new_view_in _ _ _ j t' dj).
Qed.

Lemma txn_find_spec idx s :
  (txn_find idx (x_vol s) = -1 /\ idx ∉ txn_blocks s) \/
  (0 <= txn_find idx (x_vol s) /\ txn_blocks s !! Z.to_nat (txn_find idx (x_vol s)) = Some idx).
Proof.
  unfold txn_find. fold (txn_blocks s). destruct (find_from_spec (fun b => b =? idx) (txn_blocks s) 0 ltac:(lia)) as [[-> N]|(k & Hk & -> & Fk & _)].
  - left. split; [done|]. intros H. apply list_elem_of_lookup in H as [j Hj]. specialize (N (Z.of_nat j)). unfold zget, zlen in N. rewrite Nat2Z.id in N.
    rewrite (list_lookup_total_correct _ _ _ Hj), Z.eqb_refl in N. apply lookup_lt_Some in Hj. by specialize (N ltac:(lia)).
  - right. replace (0 + k) with k by lia. split; [lia|]. apply Z.eqb_eq in Fk. rewrite <- Fk. by apply zget_lookup.
Qed.

(** Room for one more block, or the block is already there. *)
Definition fits (s : St) (t : Z) : Prop :=
  t ∈ txn_blocks s \/ (v_jtxn_count (x_vol s) < EXFS_JOURNAL_MAX_BLOCKS /\ v_jtxn_count (x_vol s) < jn s - 1).

(** Only the transaction differs. *)
Definition staged_in (s s' : St) : Prop :=
  (exists a n b d, x_vol s' = set_txn a n b d (x_vol s)) /\ g_exfs_crash_point s' = g_exfs_crash_point s /\ x_audit s' = x_audit s.

Lemma exfs_journal_stage_spec t data s :
  txn_ok s -> target_ok (base s) (jb s) (jn s) (V s) t -> zlen data = EXFS_BLOCK_SIZE -> fits s t ->
  exists s', exfs_journal_stage dev t data s = (Some true, s') /\ txn_ok s' /\ x_dev s' = x_dev s /\ base s' = base s /\ jb s' = jb s /\ jn s' = jn s /\
    v_jtxn_count (x_vol s') <= v_jtxn_count (x_vol s) + 1 /\ staged_in s s' /\ forall l, committed s' l = put (committed s) (base s + 8 * t) 8 data l.
Proof.
  intros T Tt Ld Fi. destruct (txn_lengths s T) as [Lc Ll]. pose proof T as [H Ac [staged Es] [[C0 C1] C2] [L1 L2] Tb Nd Td R Cl].
  rewrite Es in L2. cbn [default from_option Datatypes.id] in L2. unfold EXFS_JOURNAL_MAX_BLOCKS in *.
  assert (Dt : txn_data s = take (Z.to_nat (v_jtxn_count (x_vol s))) staged) by (unfold txn_data; by rewrite Es).
  unfold exfs_journal_stage, mbind, get. rewrite Es. destruct (txn_find_spec t s) as [[E N]|[E0 Ei]].
  - rewrite E. change (0 <=? -1) with false. cbv iota. destruct Fi as [?|[F1 F2]]; [done|].
    unfold EXFS_JOURNAL_MAX_BLOCKS in *. destruct (Z.leb_spec 16 (v_jtxn_count (x_vol s))); [lia|]. eexists. split; [reflexivity|].
    set (s' := mk_exfs _ _ _ _).
    assert (App : forall {A} (l : list A) x, (Z.to_nat (v_jtxn_count (x_vol s)) < length l)%nat ->
      take (Z.to_nat (v_jtxn_count (x_vol s) + 1)) l.[v_jtxn_count (x_vol s) <- x] = take (Z.to_nat (v_jtxn_count (x_vol s))) l ++ [x]).
    { intros A l x Hl. unfold zset. replace (Z.to_nat (v_jtxn_count (x_vol s) + 1)) with (S (Z.to_nat (v_jtxn_count (x_vol s)))) by lia.
      erewrite take_S_r; [|by apply list_lookup_insert_eq]. by rewrite take_insert_ge by lia. }
    assert (Eb : txn_blocks s' = txn_blocks s ++ [t]) by (unfold txn_blocks, s'; cbn; apply App; unfold zlen in L1; lia).
    assert (Ed : txn_data s' = txn_data s ++ [data]) by (rewrite Dt; unfold txn_data, s'; cbn; apply App; unfold zlen in L2; lia).
    split; [|split; [done|]; split; [done|]; split; [done|]; split; [done|]; split; [cbn; lia|]; split; [split; [by eexists _, _, _, _|done]|]; intros l; unfold committed; rewrite Eb, Ed; by apply new_view_app].
    constructor; [by destruct H|done|by eexists| |cbn; rewrite !zlen_zset; done| | | |done|done].
    + change (jn s') with (jn s). change (v_jtxn_count (x_vol s')) with (v_jtxn_count (x_vol s) + 1). unfold EXFS_JOURNAL_MAX_BLOCKS. lia.
    + rewrite Eb. apply Forall_app. split; [done|by constructor].
    + rewrite Eb. apply NoDup_app. split; [done|]. split; [|apply NoDup_singleton]. intros x Hx Hx'. apply list_elem_of_singleton in Hx' as ->. done.
    + rewrite Ed. apply Forall_app. split; [done|by constructor].
  - destruct (Z.leb_spec 0 (txn_find t (x_vol s))); [|lia]. set (i := txn_find t (x_vol s)) in *. eexists. split; [reflexivity|]. set (s' := mk_exfs _ _ _ _).
    assert (Hi : (Z.to_nat i < length (txn_blocks s))%nat) by (by eapply lookup_lt_Some).
    assert (Ed : txn_data s' = <[Z.to_nat i := data]> (txn_data s)).
    { rewrite Dt. unfold txn_data, s'. cbn. unfold zset. rewrite <- take_insert_lt; [done|]. unfold zlen in Lc. lia. }
    split; [|split; [done|]; split; [done|]; split; [done|]; split; [done|]; split; [cbn; lia|]; split; [split; [by eexists _, _, _, _|done]|]; intros l; unfold committed; rewrite Ed; by apply new_view_insert].
    constructor; [by destruct H|done|by eexists|done|cbn; rewrite zlen_zset; done|done|done| |done|done].
    rewrite Ed. apply Forall_insert; done.
Qed.

Lemma committed_sector s l b : txn_ok s -> committed s l = Some b -> zlen b = 512.
Proof.
  intros T. destruct (txn_lengths s T) as [_ Ll]. unfold committed. destruct (in_blocks_dec (base s) (txn_blocks s) l) as [(t & Ht & Hl)|Hn].
  - apply list_elem_of_lookup in Ht as [j Ej]. assert (Lj : (j < length (txn_data s))%nat) by (rewrite <- Ll; by eapply lookup_lt_Some).
    destruct (lookup_lt_is_Some_2 _ j Lj) as [d Ed]. rewrite (new_view_in _ _ _ j t d) by (done || apply T). intros [= <-]. apply zlen_sector; [|lia].
    pose proof (to_blk_len s T) as F. rewrite Forall_lookup in F. by eapply F.
  - rewrite new_view_out by done. apply sector_len. apply T.
Qed.

(** Inside a transaction a read returns what was staged last. *)
Lemma exfs_txn_read_block_spec t buf s :
  txn_ok s -> inr s t -> zlen buf = EXFS_BLOCK_SIZE ->
  cwp (exfs_txn_read_block dev t buf) s
    (fun r s' => r = (true, block_of (committed s) (base s + 8 * t)) /\ same s s' /\ fs_ok s' /\ forall l, V s' l = V s l) (fun _ => False).
Proof.
  intros T It Lb. destruct (txn_lengths s T) as [Lc Ll]. unfold exfs_txn_read_block. apply cwp_bind, cwp_get. rewrite (to_active s T).
  destruct (to_data s T) as [staged Es]. rewrite Es. destruct (txn_find_spec t s) as [[E N]|[E0 Ei]].
  - rewrite E. change (0 <=? -1) with false. cbv iota. eapply cwp_mono; [by apply exfs_read_block_spec; [apply T| |]| |done].
    intros r s' (-> & Sm & Ok & Es'). split; [|done]. f_equal. apply block_of_ext. intros k Hk. unfold committed, lba_of, base. rewrite new_view_out; [done|].
    intros (t' & Ht & Hl). assert (t' = t) by lia. by subst.
  - destruct (Z.leb_spec 0 (txn_find t (x_vol s))); [|lia]. apply cwp_ret. split; [|split; [apply same_refl|split; [apply T|done]]]. f_equal.
    set (i := txn_find t (x_vol s)) in *. assert (Hi : (Z.to_nat i < length (txn_data s))%nat) by (rewrite <- Ll; by eapply lookup_lt_Some).
    destruct (lookup_lt_is_Some_2 _ _ Hi) as [d Ed].
    assert (Esd : staged.[i] = d).
    { unfold txn_data in Ed. rewrite Es in Ed. cbn [default from_option Datatypes.id] in Ed. unfold zget. apply list_lookup_total_correct.
      rewrite lookup_take_lt in Ed; [done|]. unfold zlen in Lc. lia. }
    rewrite Esd. symmetry. apply block_at_block_of; [intros l b; by apply committed_sector| |].
    + pose proof (to_blk_len s T) as F. rewrite Forall_lookup in F. by eapply F.
    + intros k Hk. unfold committed. rewrite (new_view_in _ _ _ (Z.to_nat i) t d) by (done || apply T || lia). do 2 f_equal. lia.
Qed.

(** ** Transactions *)

(** A mounted volume between transactions. *)
Record ready (s : St) : Prop := {
  rd_fs : fs_ok s;
  rd_data : is_Some (v_jtxn_data (x_vol s));
  rd_lens : zlen (v_jtxn_blocks (x_vol s)) = EXFS_JOURNAL_MAX_BLOCKS /\ zlen (default [] (v_jtxn_data (x_vol s))) = EXFS_JOURNAL_MAX_BLOCKS;
  rd_region : region (base s) (jb s) (jn s) (V s);
  rd_clear : pending (V s) (base s + 8 * jb s) = None
}.

Fixpoint meta_writes (us : list (Z * list Z)) : M St unit :=
  match us with
  | [] => mret tt
  | u :: us' => _ <-- exfs_meta_write_block dev u.1 u.2 ;; meta_writes us'
  end.

(** A group of metadata writes the way every operation makes them. *)
Definition transaction (us : list (Z * list Z)) : M St bool :=
  _ <-- exfs_journal_begin ;; _ <-- meta_writes us ;; exfs_journal_commit dev.

(** The same writes made directly, in order. *)
Definition direct (b : Z) (us : list (Z * list Z)) (v : view) : view := fold_left (fun v u => put v (b + 8 * u.1) 8 u.2) us v.

Lemma direct_eq b us v v' l : (forall l, v l = v' l) -> direct b us v l = direct b us v' l.
Proof.
  revert v v'. induction us as [|u us IH]; intros v v' E; [apply E|]. cbn [direct fold_left]. apply IH. intros l'. unfold put. by rewrite E.
Qed.

Lemma meta_writes_spec us s :
  txn_ok s -> Forall (fun u => target_ok (base s) (jb s) (jn s) (V s) u.1 /\ zlen u.2 = EXFS_BLOCK_SIZE) us ->
  v_jtxn_count (x_vol s) + zlen us <= Z.min EXFS_JOURNAL_MAX_BLOCKS (jn s - 1) ->
  exists s', meta_writes us s = (Some tt, s') /\ txn_ok s' /\ V s' = V s /\ base s' = base s /\ jb s' = jb s /\ jn s' = jn s /\
    forall l, committed s' l = direct (base s) us (committed s) l.
Proof.
  revert s. induction us as [|[t d] us IH]; intros s T F L; [by exists s|]. inversion F as [|? ? [F1 F2] F3]; subst. cbn [fst snd] in *.
  assert (Zc : zlen ((t, d) :: us) = zlen us + 1) by (unfold zlen; cbn [length]; lia). rewrite Zc in L. pose proof (zlen_nonneg us).
  destruct (exfs_journal_stage_spec t d s T F1 F2) as (s1 & E1 & T1 & Ed & Eb & Ej & En & Cn & _ & Ec); [right; lia|].
  assert (EV : V s1 = V s) by (unfold V; by rewrite Ed).
  destruct (IH s1 T1) as (s2 & E2 & T2 & EV2 & Eb2 & Ej2 & En2 & Ec2); [by rewrite EV, Eb, Ej, En|rewrite En; lia|].
  exists s2. cbn [meta_writes fst snd]. unfold exfs_meta_write_block, mbind, get. rewrite (to_active s T), E1, E2.
  split; [done|]. split; [done|]. split; [congruence|]. split; [congruence|]. split; [congruence|]. split; [congruence|].
  intros l. rewrite Ec2, Eb. cbn [direct fold_left fst snd]. by apply direct_eq.
Qed.

Lemma begin_ok s :
  ready s -> exists s', exfs_journal_begin s = (Some tt, s') /\ txn_ok s' /\ V s' = V s /\ base s' = base s /\ jb s' = jb s /\ jn s' = jn s /\
    v_jtxn_count (x_vol s') = 0 /\ committed s' = V s.
Proof.
  intros [Ok Dt Ls R Cl]. eexists. split; [reflexivity|]. split; [|done].
  constructor; [by destruct Ok|done|done| |done|constructor|constructor|constructor|done|done].
  destruct R as [R _]. cbn [v_jtxn_count x_vol set_txn]. change (jn (mk_exfs _ _ _ _)) with (jn s). unfold EXFS_JOURNAL_MAX_BLOCKS. lia.
Qed.

(** ** Restart *)

(** The machine comes up again: the same disk and superblock, a cache that may
    hold some blocks. *)
Definition reboot (s s0 : St) : Prop :=
  fs_ok s0 /\ base s0 = base s /\ v_sb (x_vol s0) = v_sb (x_vol s) /\ forall l, V s0 l = V s l.

(** Any number of restarts whose replay is interrupted, then one that completes. *)
Inductive recovers : St -> St -> Prop :=
| rec_done s s0 s' : reboot s s0 -> exfs_journal_replay dev s0 = (Some tt, s') -> recovers s s'
| rec_again s s0 s1 s' : reboot s s0 -> exfs_journal_replay dev s0 = (None, s1) -> recovers s1 s' -> recovers s s'.

Lemma recovers_view w s s' :
  recovers s s' -> journal_view (base s) (jb s) (jn s) w (V s) ->
  fs_ok s' /\ pending (V s') (base s + 8 * jb s) = None /\ forall l, outside (base s) (jb s) (jn s) l -> V s' l = w l.
Proof.
  intros Rc. induction Rc as [s s0 s' (Ok & Eb & Es & E) Er|s s0 s1 s' (Ok & Eb & Es & E) Er _ IH]; intros J.
  all: assert (Ej : jb s0 = jb s /\ jn s0 = jn s) by (unfold jb, jn; by rewrite Es); destruct Ej as [Ej En].
  all: pose proof (exfs_journal_replay_spec w s0 Ok) as W; unfold cwp in W; rewrite Er, Eb, Ej, En in W; specialize (W (journal_view_eq _ _ _ _ _ _ E J)).
  - by destruct W as (_ & W).
  - destruct W as (Sm & Od & J1). pose proof (same_base _ _ Sm) as Eb1. fold (base s1) (base s0) in Eb1.
    assert (Es1 : v_sb (x_vol s1) = v_sb (x_vol s0)) by (by destruct Sm as [(? & ? & ->) _]).
    assert (Ej1 : jb s1 = jb s /\ jn s1 = jn s) by (unfold jb, jn; by rewrite Es1, Es). destruct Ej1 as [Ej1 En1].
    rewrite Eb1, Eb, Ej1, En1 in IH. by apply IH.
Qed.

(** C23: a group of metadata writes made in a transaction is atomic.  If the
    commit comes back, the blocks outside the journal are as if the writes had
    been made directly, in order.  If the machine stops at any point (at one of
    the armed crash points or in the middle of writing any sector of a slot, of
    the header or of a block in place), then after the next completed replay,
    however often the machine stops again during recovery, those blocks are
    either all as before the transaction or all as after it. *)
Theorem exfs_transaction_atomic us s o s1 :
  ready s -> Forall (fun u => target_ok (base s) (jb s) (jn s) (V s) u.1 /\ zlen u.2 = EXFS_BLOCK_SIZE) us ->
  zlen us <= Z.min EXFS_JOURNAL_MAX_BLOCKS (jn s - 1) -> transaction us s = (o, s1) ->
  (forall r, o = Some r -> r = true /\ forall l, outside (base s) (jb s) (jn s) l -> V s1 l = direct (base s) us (V s) l) /\
  (forall s2, recovers s1 s2 ->
     (o = None /\ forall l, outside (base s) (jb s) (jn s) l -> V s2 l = V s l) \/
     (forall l, outside (base s) (jb s) (jn s) l -> V s2 l = direct (base s) us (V s) l)).
Proof.
  intros Rd F L E. destruct (begin_ok s Rd) as (s3 & E3 & T3 & V3 & B3 & J3 & N3 & C3 & Cm3).
  destruct (meta_writes_spec us s3 T3) as (s4 & E4 & T4 & V4 & B4 & J4 & N4 & Cm4); [by rewrite V3, B3, J3, N3|rewrite C3, N3; lia|].
  unfold transaction, mbind in E. rewrite E3, E4 in E. pose proof (exfs_journal_commit_spec s4 T4) as W. unfold cwp in W. rewrite E in W.
  rewrite B3, Cm3 in Cm4. rewrite B3 in B4. rewrite J3 in J4. rewrite N3 in N4. rewrite V3 in V4. clear E3 T3 V3 B3 J3 N3 C3 Cm3 s3 E4.
  assert (Geo : forall c n a k b d, x_vol s1 = set_cache c n (set_txn a k b d (x_vol s4)) -> base s1 = base s /\ jb s1 = jb s /\ jn s1 = jn s).
  { intros c n a k b d Ev. unfold base, jb, jn. rewrite Ev. done. }
  assert (Rec : forall w s2, base s1 = base s /\ jb s1 = jb s /\ jn s1 = jn s -> recovers s1 s2 -> journal_view (base s) (jb s) (jn s) w (V s1) ->
    forall l, outside (base s) (jb s) (jn s) l -> V s2 l = w l).
  { intros w s2 (<- & <- & <-) Rc J. by apply (recovers_view w s1 s2 Rc J). }
  destruct o as [r|].
  - destruct W as [-> [K1 (c & n & K2) _ K3 K4 K5]]. rewrite B4, J4, N4 in *. apply Geo in K2.
    assert (Ev : forall l, outside (base s) (jb s) (jn s) l -> V s1 l = direct (base s) us (V s) l) by (intros l Hl; rewrite K5 by done; apply Cm4).
    split; [intros r [= <-]; done|]. intros s2 Rc. right. apply Rec; [done|done|]. by apply journal_view_clear.
  - destruct W as ([(c & n & K2) _] & Od & J). apply Geo in K2. rewrite B4, J4, N4, V4 in J.
    split; [done|]. intros s2 Rc. destruct J as [J|J]; [left; split; [done|]; by apply Rec|right]. apply Rec; [done|done|].
    eapply journal_view_mono; [|exact J]. intros l _. apply Cm4.
Qed.


End Blocks.

(** ** A small volume *)

Module JournalDemo.

(** Six blocks on a RAM disk whose power fails; the journal is blocks 1 to 3. *)
Definition NBLOCKS : Z := 6.
Definition NBYTES : nat := Z.to_nat (NBLOCKS * 4096).
Definition sb : exfs_superblock := mk_sb EXFS_MAGIC 1 6 0 0 0 0 0 0 0 0 [] 1 3 0.
Definition vol : exfs_volume := mk_vol sb [] 0 None 0 false 0 (replicate 16 0) (Some (replicate 16 [])).
Abbreviation disk := (Ramdisk.ramdisk * nat)%type.
Definition dev : block_device disk := Powered.powered Ramdisk.g_ramdisk_dev.

(** [n] sectors can be written before the power fails. *)
Definition start (n : nat) : exfs disk :=
  mk_exfs vol (Ramdisk.mk_rd (replicate NBYTES 0) (NBLOCKS * 4096) true, n) 0 audit_init.

Definition updates : list (Z * list Z) := [(4, replicate 4096 7); (5, replicate 4096 9)].

#[local] Abbreviation rd_ok := (fun d : disk => Ramdisk.ramdisk_ok d.1).
#[local] Abbreviation rd_sectors := (fun d : disk => Ramdisk.ramdisk_sectors d.1).

#[local] Instance disk_device : Device dev rd_ok rd_sectors.
Proof. apply Powered.powered_device. exact Ramdisk.ramdisk_device. Qed.

Lemma start_blank n l : 0 <= l < 48 -> rd_sectors (x_dev (start n)) l = Some (replicate 512 0).
Proof.
  intros H. unfold Ramdisk.ramdisk_sectors, start. cbn [fst x_dev Ramdisk.rd_active Ramdisk.rd_size Ramdisk.rd_base]. unfold NBLOCKS.
  destruct (Z.leb_spec 0 l); [|lia]. destruct (Z.ltb_spec l (2 ^ 32)); [|lia]. destruct (Z.leb_spec ((l + 1) * 512) (6 * 4096)); [|lia]. cbn [andb]. f_equal.
  rewrite drop_replicate, take_replicate. f_equal. unfold NBYTES, NBLOCKS. lia.
Qed.

Lemma start_in_range n i : 0 <= i < 6 -> in_range 0 (V (sectors := rd_sectors) (start n)) i.
Proof.
  intros H. split; [lia|]. split; [lia|]. split; [lia|]. intros k Hk. unfold V. rewrite start_blank by lia. by eexists.
Qed.

Lemma start_ready n : ready (dev_ok := rd_ok) (sectors := rd_sectors) (start n).
Proof.
  constructor.
  - constructor; [|done]. split; [done|]. cbn. unfold NBYTES. by rewrite zlen_replicate.
  - by eexists.
  - done.
  - split; [done|]. intros i Hi. cbn in Hi. apply start_in_range. cbn. lia.
  - unfold pending, V. by rewrite start_blank by (cbn; lia).
Qed.

Lemma updates_ok n :
  Forall (fun u => target_ok (base (start n)) (jb (start n)) (jn (start n)) (V (sectors := rd_sectors) (start n)) u.1 /\ zlen u.2 = EXFS_BLOCK_SIZE) updates.
Proof.
  assert (T : forall i, 4 <= i < 6 -> target_ok (base (start n)) (jb (start n)) (jn (start n)) (V (sectors := rd_sectors) (start n)) i).
  { intros i Hi. split; [by apply start_in_range; lia|]. cbn. lia. }
  apply Forall_cons. split; [|apply Forall_cons; split; [|by constructor]]; (split; [apply T; cbn; lia|by cbn [snd]; unfold zlen; rewrite length_replicate]).
Qed.

Lemma exfs_transaction_atomic_witness :
  let s := start 20 in
  let '(o, s1) := transaction (dev := dev) updates s in
  (forall r, o = Some r -> r = true /\ forall l, outside 0 1 3 l -> V (sectors := rd_sectors) s1 l = direct 0 updates (V (sectors := rd_sectors) s) l) /\
  (forall s2, recovers (dev := dev) (dev_ok := rd_ok) (sectors := rd_sectors) s1 s2 ->
     (o = None /\ forall l, outside 0 1 3 l -> V (sectors := rd_sectors) s2 l = V (sectors := rd_sectors) s l) \/
     (forall l, outside 0 1 3 l -> V (sectors := rd_sectors) s2 l = direct 0 updates (V (sectors := rd_sectors) s) l)).
Proof.
  cbv zeta. destruct (transaction updates (start 20)) as [o s1] eqn:E.
  apply (exfs_transaction_atomic (dev := dev) (dev_ok := rd_ok) (sectors := rd_sectors) updates (start 20) o s1); [apply start_ready|apply updates_ok|done|exact E].
Defined.

(** The power fails [n] sectors into the transaction; then the machine restarts. *)
Definition after_crash (n : nat) : option (Z * Z) :=
  let '(_, s1) := transaction (dev := dev) updates (start n) in
  let '(_, s2) := exfs_journal_replay dev (mk_exfs vol ((x_dev s1).1, 100%nat) 0 audit_init) in
  match rd_sectors (x_dev s2) 32, rd_sectors (x_dev s2) 47 with
  | Some a, Some b => Some (a.[0], b.[511])
  | _, _ => None
  end.

(** Before the first sector of the header is written, and after. *)
Example crash_before_header : after_crash 16 = Some (0, 0).
Proof. vm_compute. reflexivity. Qed.
Example crash_in_header : after_crash 17 = Some (7, 9).
Proof. vm_compute. reflexivity. Qed.
Example crash_in_place : after_crash 30 = Some (7, 9).
Proof. vm_compute. reflexivity. Qed.

End JournalDemo.
