(* ===== verification/ExfsFile.v ===== *)
(** * ExFS: block bitmap, inodes and file contents (kernel/fs/exfs/exfs.c)

    On top of the blocks and the journal of [Journal.v]: the allocation bitmap,
    the inode table, the map from the blocks of a file to the blocks of the
    volume (direct, indirect, double indirect), the integrity hash, the
    provenance records, and reading and writing a file. *)

From S2P Require Import Prelude AuditRing Blake3 BlockDev Journal.

(** ** Inodes *)

Definition EXFS_INODE_SIZE : Z := 256.
Definition EXFS_DIRECT_BLOCKS : Z := 12.
Definition EXFS_INDIRECT_PTRS : Z := 512.
Definition PROV_OP_READ : Z := 2.
Definition PROV_OP_WRITE : Z := 3.

Record exfs_inode := mk_inode {
  i_size : Z;
  i_created_at : Z;
  i_modified_at : Z;
  i_creator_pid : Z;
  i_mode : Z;
  i_direct : list Z;
  i_indirect : Z;
  i_double_indirect : Z;
  i_triple_indirect : Z;
  i_prov_head : Z;
  i_prov_count : Z;
  i_block_hash : list Z;
  i_owner_uid : Z;
  i_group_gid : Z;
  i_reserved : list Z
}.

(** The packed struct: 188 bytes. *)
Definition SIZEOF_INODE : Z := 188.

Definition inode_bytes (i : exfs_inode) : list Z :=
  le_bytes 8 (i_size i) ++ le_bytes 8 (i_created_at i) ++ le_bytes 8 (i_modified_at i) ++ le_bytes 4 (i_creator_pid i) ++
  le_bytes 4 (i_mode i) ++ concat (le_bytes 8 <$> i_direct i) ++ le_bytes 8 (i_indirect i) ++ le_bytes 8 (i_double_indirect i) ++
  le_bytes 8 (i_triple_indirect i) ++ le_bytes 8 (i_prov_head i) ++ le_bytes 4 (i_prov_count i) ++ i_block_hash i ++
  le_bytes 4 (i_owner_uid i) ++ le_bytes 4 (i_group_gid i) ++ i_reserved i.

(** The inode whose bytes start at [off] in [b]. *)
Definition inode_at (b : list Z) (off : Z) : exfs_inode :=
  mk_inode (le_at 8 b off) (le_at 8 b (off + 8)) (le_at 8 b (off + 16)) (le_at 4 b (off + 24)) (le_at 4 b (off + 28))
    ((fun k => le_at 8 b (off + 32 + 8 * k)) <$> seqZ 0 12) (le_at 8 b (off + 128)) (le_at 8 b (off + 136)) (le_at 8 b (off + 144))
    (le_at 8 b (off + 152)) (le_at 4 b (off + 160)) (take 8 (drop (Z.to_nat (off + 164)) b)) (le_at 4 b (off + 172)) (le_at 4 b (off + 176))
    (take 8 (drop (Z.to_nat (off + 180)) b)).

Definition set_size (x : Z) (i : exfs_inode) : exfs_inode :=
  mk_inode x (i_created_at i) (i_modified_at i) (i_creator_pid i) (i_mode i) (i_direct i) (i_indirect i) (i_double_indirect i)
    (i_triple_indirect i) (i_prov_head i) (i_prov_count i) (i_block_hash i) (i_owner_uid i) (i_group_gid i) (i_reserved i).
Definition set_modified (x : Z) (i : exfs_inode) : exfs_inode :=
  mk_inode (i_size i) (i_created_at i) x (i_creator_pid i) (i_mode i) (i_direct i) (i_indirect i) (i_double_indirect i)
    (i_triple_indirect i) (i_prov_head i) (i_prov_count i) (i_block_hash i) (i_owner_uid i) (i_group_gid i) (i_reserved i).
Definition set_imode (x : Z) (i : exfs_inode) : exfs_inode :=
  mk_inode (i_size i) (i_created_at i) (i_modified_at i) (i_creator_pid i) x (i_direct i) (i_indirect i) (i_double_indirect i)
    (i_triple_indirect i) (i_prov_head i) (i_prov_count i) (i_block_hash i) (i_owner_uid i) (i_group_gid i) (i_reserved i).
Definition set_direct (x : list Z) (i : exfs_inode) : exfs_inode :=
  mk_inode (i_size i) (i_created_at i) (i_modified_at i) (i_creator_pid i) (i_mode i) x (i_indirect i) (i_double_indirect i)
    (i_triple_indirect i) (i_prov_head i) (i_prov_count i) (i_block_hash i) (i_owner_uid i) (i_group_gid i) (i_reserved i).
Definition set_indirect (x : Z) (i : exfs_inode) : exfs_inode :=
  mk_inode (i_size i) (i_created_at i) (i_modified_at i) (i_creator_pid i) (i_mode i) (i_direct i) x (i_double_indirect i)
    (i_triple_indirect i) (i_prov_head i) (i_prov_count i) (i_block_hash i) (i_owner_uid i) (i_group_gid i) (i_reserved i).
Definition set_double (x : Z) (i : exfs_inode) : exfs_inode :=
  mk_inode (i_size i) (i_created_at i) (i_modified_at i) (i_creator_pid i) (i_mode i) (i_direct i) (i_indirect i) x
    (i_triple_indirect i) (i_prov_head i) (i_prov_count i) (i_block_hash i) (i_owner_uid i) (i_group_gid i) (i_reserved i).
Definition set_prov_count (x : Z) (i : exfs_inode) : exfs_inode :=
  mk_inode (i_size i) (i_created_at i) (i_modified_at i) (i_creator_pid i) (i_mode i) (i_direct i) (i_indirect i) (i_double_indirect i)
    (i_triple_indirect i) (i_prov_head i) x (i_block_hash i) (i_owner_uid i) (i_group_gid i) (i_reserved i).
Definition set_hash (x : list Z) (i : exfs_inode) : exfs_inode :=
  mk_inode (i_size i) (i_created_at i) (i_modified_at i) (i_creator_pid i) (i_mode i) (i_direct i) (i_indirect i) (i_double_indirect i)
    (i_triple_indirect i) (i_prov_head i) (i_prov_count i) x (i_owner_uid i) (i_group_gid i) (i_reserved i).
Definition set_igroup (x : Z) (i : exfs_inode) : exfs_inode :=
  mk_inode (i_size i) (i_created_at i) (i_modified_at i) (i_creator_pid i) (i_mode i) (i_direct i) (i_indirect i) (i_double_indirect i)
    (i_triple_indirect i) (i_prov_head i) (i_prov_count i) (i_block_hash i) (i_owner_uid i) x (i_reserved i).

(** [memset(&inode, 0, sizeof(inode))]. *)
Definition inode_zero : exfs_inode := mk_inode 0 0 0 0 0 (replicate 12 0) 0 0 0 0 0 (replicate 8 0) 0 0 (replicate 8 0).

Definition set_bitmap (b : list Z) (v : exfs_volume) : exfs_volume :=
  mk_vol (v_sb v) b (v_dev_lba_base v) (v_cache v) (v_cache_next_evict v) (v_jtxn_active v) (v_jtxn_count v) (v_jtxn_blocks v) (v_jtxn_data v).

Definition add_free_blocks (n : Z) (v : exfs_volume) : exfs_volume :=
  let b := v_sb v in
  mk_vol (mk_sb (sb_magic b) (sb_version b) (sb_total_blocks b) (u64 (sb_free_blocks b + n)) (sb_total_inodes b) (sb_free_inodes b)
            (sb_inode_table_block b) (sb_block_bitmap_block b) (sb_data_start_block b) (sb_provenance_block b) (sb_provenance_size b)
            (sb_fs_uuid b) (sb_journal_block b) (sb_journal_size b) (sb_bitmap_size b))
    (v_block_bitmap v) (v_dev_lba_base v) (v_cache v) (v_cache_next_evict v) (v_jtxn_active v) (v_jtxn_count v) (v_jtxn_blocks v) (v_jtxn_data v).

Section File.
Context {D : Type} (dev : block_device D).
#[local] Abbreviation IO := (M (exfs D)).

(** ** Block bitmap *)

Definition bit_mask (blk : Z) : Z := u8 (Z.shiftl 1 (blk mod 8)).
Definition bitmap_get (v : exfs_volume) (blk : Z) : bool := negb (Z.land (v_block_bitmap v).[blk / 8] (bit_mask blk) =? 0).
Definition bitmap_set (blk : Z) (v : exfs_volume) : exfs_volume :=
  set_bitmap (v_block_bitmap v).[blk / 8 <- Z.lor (v_block_bitmap v).[blk / 8] (bit_mask blk)] v.
Definition bitmap_clear (blk : Z) (v : exfs_volume) : exfs_volume :=
  set_bitmap (v_block_bitmap v).[blk / 8 <- Z.land (v_block_bitmap v).[blk / 8] (255 - bit_mask blk)] v.

Definition bitmap_blocks (v : exfs_volume) : Z := if sb_bitmap_size (v_sb v) =? 0 then 1 else sb_bitmap_size (v_sb v).

(** The loop of [flush_bitmap], [n] blocks to go from block [i] of the bitmap. *)
Fixpoint flush_loop (n : nat) (i : Z) (ok : bool) : IO bool :=
  match n with
  | O => mret ok
  | S n' =>
      s <-- get ;;
      r <-- exfs_write_block dev (u64 (sb_block_bitmap_block (v_sb (x_vol s)) + i))
              (take 4096 (drop (Z.to_nat (i * EXFS_BLOCK_SIZE)) (v_block_bitmap (x_vol s)))) ;;
      flush_loop n' (i + 1) (ok && r)
  end.

Definition flush_bitmap : IO bool := s <-- get ;; flush_loop (Z.to_nat (bitmap_blocks (x_vol s))) 0 true.

(** The search of [exfs_alloc_block]: the first clear bit from [b] on among [n] blocks. *)
Fixpoint find_clear (n : nat) (b : Z) (v : exfs_volume) : option Z :=
  match n with
  | O => None
  | S n' => if bitmap_get v b then find_clear n' (b + 1) v else Some b
  end.

Definition exfs_alloc_block : IO Z :=
  s <-- get ;;
  let v := x_vol s in
  match find_clear (Z.to_nat (sb_total_blocks (v_sb v) - sb_data_start_block (v_sb v))) (sb_data_start_block (v_sb v)) v with
  | None => mret 0
  | Some b =>
      _ <-- modify_vol (fun v => add_free_blocks (-1) (bitmap_set b v)) ;;
      _ <-- flush_bitmap ;;
      mret b
  end.

Definition exfs_free_block (blk : Z) : IO unit :=
  s <-- get ;;
  let v := x_vol s in
  if (blk <? sb_data_start_block (v_sb v)) || (sb_total_blocks (v_sb v) <=? blk) then mret tt else
  if negb (bitmap_get v blk) then mret tt else
  _ <-- modify_vol (fun v => add_free_blocks 1 (bitmap_clear blk v)) ;;
  _ <-- flush_bitmap ;;
  mret tt.

(** ** The inode table *)

Definition INODES_PER_BLOCK : Z := EXFS_BLOCK_SIZE / EXFS_INODE_SIZE.

Definition inode_block (num : Z) (v : exfs_volume) : Z := u64 (sb_inode_table_block (v_sb v) + num / INODES_PER_BLOCK).
Definition inode_offset (num : Z) : Z := (num mod INODES_PER_BLOCK) * EXFS_INODE_SIZE.

(** [None]: the read failed and the caller's inode keeps its value. *)
Definition exfs_read_inode (num : Z) : IO (option exfs_inode) :=
  s <-- get ;;
  r <-- exfs_read_block dev (inode_block num (x_vol s)) zero_block ;;
  mret (if r.1 : bool then Some (inode_at r.2 (inode_offset num)) else None).

Definition exfs_write_inode (num : Z) (i : exfs_inode) : IO bool :=
  s <-- get ;;
  r <-- exfs_txn_read_block dev (inode_block num (x_vol s)) zero_block ;;
  if negb r.1 then mret false else
  exfs_meta_write_block dev (inode_block num (x_vol s)) (memcpy r.2 (inode_offset num) (inode_bytes i)).

(** ** From file blocks to disk blocks *)

(** The pointer [idx] of a pointer block. *)
Definition ptr_at (b : list Z) (idx : Z) : Z := le_at 8 b (8 * idx).

(** The pointer [idx] in the pointer block [blk]; with [alloc] a missing one gets
    a new block, which is zeroed first when it is to hold pointers itself. *)
Definition resolve_entry (blk idx : Z) (alloc zeroed : bool) : IO Z :=
  r <-- exfs_read_block dev blk zero_block ;;
  if negb r.1 then mret 0 else
  let p := ptr_at r.2 idx in
  if negb (p =? 0) then mret p else
  if negb alloc then mret 0 else
  nb <-- exfs_alloc_block ;;
  if nb =? 0 then mret 0 else
  _ <-- (if zeroed then exfs_meta_write_block dev nb zero_block else mret true) ;;
  _ <-- exfs_meta_write_block dev blk (memcpy r.2 (8 * idx) (le_bytes 8 nb)) ;;
  mret nb.

(** The pointer block the inode names, or a new one, zeroed; 0 if there is none. *)
Definition resolve_table (cur : Z) (alloc : bool) : IO Z :=
  if negb (cur =? 0) then mret cur else
  if negb alloc then mret 0 else
  nb <-- exfs_alloc_block ;;
  if nb =? 0 then mret 0 else
  _ <-- exfs_meta_write_block dev nb zero_block ;;
  mret nb.

(** The disk block, the inode and whether the inode changed. *)
Definition exfs_resolve_block (i : exfs_inode) (file_block : Z) (alloc : bool) : IO (Z * exfs_inode * bool) :=
  if file_block <? EXFS_DIRECT_BLOCKS then
    let p := (i_direct i).[file_block] in
    if negb (p =? 0) then mret (p, i, false) else
    if negb alloc then mret (0, i, false) else
    nb <-- exfs_alloc_block ;;
    if nb =? 0 then mret (0, i, false) else mret (nb, set_direct (i_direct i).[file_block <- nb] i, true)
  else
  let file_block := file_block - EXFS_DIRECT_BLOCKS in
  if file_block <? EXFS_INDIRECT_PTRS then
    t <-- resolve_table (i_indirect i) alloc ;;
    if t =? 0 then mret (0, i, false) else
    let dirty := i_indirect i =? 0 in
    b <-- resolve_entry t file_block alloc false ;;
    mret (b, set_indirect t i, dirty)
  else
  let file_block := file_block - EXFS_INDIRECT_PTRS in
  if file_block <? EXFS_INDIRECT_PTRS * EXFS_INDIRECT_PTRS then
    t <-- resolve_table (i_double_indirect i) alloc ;;
    if t =? 0 then mret (0, i, false) else
    let dirty := i_double_indirect i =? 0 in
    l1 <-- resolve_entry t (file_block / EXFS_INDIRECT_PTRS) alloc true ;;
    if l1 =? 0 then mret (0, set_double t i, dirty) else
    b <-- resolve_entry l1 (file_block mod EXFS_INDIRECT_PTRS) alloc false ;;
    mret (b, set_double t i, dirty)
  else mret (0, i, false).

(** ** Integrity hash *)

(** [n] bounds the blocks of the file; the context never fails to absorb. *)
Fixpoint hash_loop (n : nat) (i : exfs_inode) (file_block remaining : Z) (ctx : blake3_ctx) : IO blake3_ctx :=
  match n with
  | O => mret ctx
  | S n' =>
      if remaining <=? 0 then mret ctx else
      b <-- exfs_resolve_block i file_block false ;;
      if b.1.1 =? 0 then mret ctx else
      r <-- exfs_read_block dev b.1.1 zero_block ;;
      if negb r.1 then mret ctx else
      let chunk := Z.min remaining EXFS_BLOCK_SIZE in
      hash_loop n' i (file_block + 1) (remaining - chunk) (default ctx (blake3_update ctx (take (Z.to_nat chunk) r.2)))
  end.

(** [junk] is the uninitialised context. *)
Definition exfs_compute_whole_file_hash (junk : blake3_ctx) (i : exfs_inode) : IO (list Z) :=
  ctx <-- hash_loop (Z.to_nat (i_size i / EXFS_BLOCK_SIZE + 1)) i 0 (i_size i) (blake3_init junk) ;;
  mret (take 8 (blake3_final ctx)).

(** ** Provenance *)

Definition SIZEOF_PROV : Z := 40.

Definition prov_bytes (timestamp pid op cap_upper file_offset length : Z) : list Z :=
  le_bytes 8 timestamp ++ le_bytes 4 pid ++ [u8 op; 0; 0; 0] ++ le_bytes 8 cap_upper ++ le_bytes 8 file_offset ++ le_bytes 8 length.

Definition modify_audit (f : audit_state -> audit_state) : IO unit :=
  fun s => (Some tt, mk_exfs (x_vol s) (x_dev s) (g_exfs_crash_point s) (f (x_audit s))).

(** The inode with its new record count. *)
Definition exfs_append_prov (num : Z) (i : exfs_inode) (op pid cap_upper file_offset length : Z) : IO exfs_inode :=
  s <-- get ;;
  let rec := prov_bytes (audit_total (x_audit s)) pid op cap_upper file_offset length in
  let recs_per_blk := EXFS_BLOCK_SIZE / SIZEOF_PROV in
  let global_idx := u64 (i_prov_head i + i_prov_count i) in
  let blk_rel := global_idx / recs_per_blk in
  let blk_off := (global_idx mod recs_per_blk) * SIZEOF_PROV in
  let sb := v_sb (x_vol s) in
  if sb_provenance_size sb <=? blk_rel then mret i else
  let abs_blk := u64 (sb_provenance_block sb + blk_rel) in
  r <-- exfs_read_block dev abs_blk zero_block ;;
  if negb r.1 then mret i else
  _ <-- exfs_write_block dev abs_blk (memcpy r.2 blk_off rec) ;;
  let i := set_prov_count (u32 (i_prov_count i + 1)) i in
  _ <-- exfs_write_inode num i ;;
  _ <-- modify_audit (audit_record AUDIT_FILE_WRITE pid num op) ;;
  mret i.

(** ** Files *)

(** [exfs_node_data_t] without the volume pointer. *)
Record exfs_node_data := mk_nd { nd_inode_num : Z; nd_inode : exfs_inode }.

Definition exfs_debug_corrupt_file (nd : exfs_node_data) : IO Z :=
  if i_size (nd_inode nd) =? 0 then mret (-1) else
  b <-- exfs_resolve_block (nd_inode nd) 0 false ;;
  if b.1.1 =? 0 then mret (-1) else
  r <-- exfs_read_block dev b.1.1 zero_block ;;
  if negb r.1 then mret (-1) else
  ok <-- exfs_write_block dev b.1.1 r.2.[0 <- Z.lxor r.2.[0] 255] ;;
  mret (if ok : bool then 0 else -1).

(** The node data, and whether the integrity warning was printed. *)
Definition exfs_op_open (junk : blake3_ctx) (nd : exfs_node_data) : IO (exfs_node_data * bool) :=
  fresh <-- exfs_read_inode (nd_inode_num nd) ;;
  let i := default (nd_inode nd) fresh in
  warned <-- (if bool_decide (i_block_hash i = replicate 8 0) then mret false else
              h <-- exfs_compute_whole_file_hash junk i ;; mret (negb (bool_decide (h = i_block_hash i)))) ;;
  i <-- exfs_append_prov (nd_inode_num nd) i PROV_OP_READ 0 0 0 0 ;;
  mret (mk_nd (nd_inode_num nd) i, warned).

Definition exfs_op_close (nd : exfs_node_data) : Z := 0.

Definition exfs_op_chmod (nd : exfs_node_data) (mode : Z) : IO exfs_node_data :=
  let i := set_imode mode (nd_inode nd) in
  _ <-- exfs_write_inode (nd_inode_num nd) i ;; mret (mk_nd (nd_inode_num nd) i).

Definition exfs_op_chgrp (nd : exfs_node_data) (gid : Z) : IO exfs_node_data :=
  let i := set_igroup gid (nd_inode nd) in
  _ <-- exfs_write_inode (nd_inode_num nd) i ;; mret (mk_nd (nd_inode_num nd) i).

(** The loop of [exfs_op_read]; [acc] is what was copied so far. *)
Fixpoint read_loop (n : nat) (i : exfs_inode) (offset len : Z) (acc : list Z) : IO (list Z) :=
  match n with
  | O => mret acc
  | S n' =>
      if len <=? zlen acc then mret acc else
      let pos := u64 (offset + zlen acc) in
      let block_off := pos mod EXFS_BLOCK_SIZE in
      let can_read := Z.min (EXFS_BLOCK_SIZE - block_off) (len - zlen acc) in
      b <-- exfs_resolve_block i (pos / EXFS_BLOCK_SIZE) false ;;
      if b.1.1 =? 0 then mret acc else
      r <-- exfs_read_block dev b.1.1 zero_block ;;
      if negb r.1 then mret acc else
      read_loop n' i offset len (acc ++ take (Z.to_nat can_read) (drop (Z.to_nat block_off) r.2))
  end.

(** Each round but the first and the last copies a whole block. *)
Definition io_rounds (len : Z) : nat := Z.to_nat (len / EXFS_BLOCK_SIZE + 2).

Definition exfs_op_read (nd : exfs_node_data) (offset len : Z) : IO (list Z * exfs_node_data) :=
  let i := nd_inode nd in
  if i_size i <=? offset then mret ([], nd) else
  let len := if i_size i <? u64 (offset + len) then i_size i - offset else len in
  if len =? 0 then mret ([], nd) else
  data <-- read_loop (io_rounds len) i offset len [] ;;
  i <-- exfs_append_prov (nd_inode_num nd) i PROV_OP_READ 0 0 offset (zlen data) ;;
  mret (data, mk_nd (nd_inode_num nd) i).

(** The loop of [exfs_op_write]: bytes written, inode, and whether the inode changed. *)
Fixpoint write_loop (n : nat) (i : exfs_inode) (offset : Z) (buf : list Z) (written : Z) (dirty : bool) : IO (Z * exfs_inode * bool) :=
  match n with
  | O => mret (written, i, dirty)
  | S n' =>
      if zlen buf <=? written then mret (written, i, dirty) else
      let pos := u64 (offset + written) in
      let block_off := pos mod EXFS_BLOCK_SIZE in
      let can_write := Z.min (EXFS_BLOCK_SIZE - block_off) (zlen buf - written) in
      b <-- exfs_resolve_block i (pos / EXFS_BLOCK_SIZE) true ;;
      let '(disk_block, i, d) := b in
      let dirty := dirty || d in
      if disk_block =? 0 then mret (written, i, dirty) else
      old <-- (if negb (block_off =? 0) || negb (can_write =? EXFS_BLOCK_SIZE)
               then r <-- exfs_read_block dev disk_block zero_block ;; mret r.2 else mret zero_block) ;;
      ok <-- exfs_write_block dev disk_block
               (memcpy old block_off (take (Z.to_nat can_write) (drop (Z.to_nat written) buf))) ;;
      if negb ok then mret (written, i, dirty) else
      write_loop n' i offset buf (written + can_write) dirty
  end.

Definition exfs_op_write (junk : blake3_ctx) (nd : exfs_node_data) (offset : Z) (buf : list Z) : IO (Z * exfs_node_data) :=
  w <-- write_loop (io_rounds (zlen buf)) (nd_inode nd) offset buf 0 false ;;
  let '(written, i, dirty) := w in
  let grown := i_size i <? u64 (offset + written) in
  let i := if grown then set_size (u64 (offset + written)) i else i in
  s <-- get ;;
  let i := if 0 <? written then set_modified (audit_total (x_audit s)) i else i in
  i <-- (if dirty || grown || (0 <? written) then
           h <-- exfs_compute_whole_file_hash junk i ;;
           let i := set_hash h i in
           _ <-- exfs_journal_begin ;;
           _ <-- exfs_write_inode (nd_inode_num nd) i ;;
           _ <-- exfs_journal_commit dev ;;
           mret i
         else mret i) ;;
  i <-- exfs_append_prov (nd_inode_num nd) i PROV_OP_WRITE 0 0 offset written ;;
  mret (written, mk_nd (nd_inode_num nd) i).

End File.

(** ** Bits *)

Lemma bit_mask_pow blk : bit_mask blk = 2 ^ (blk mod 8).
Proof.
  unfold bit_mask. pose proof (Z.mod_pos_bound blk 8 ltac:(lia)). rewrite Z.shiftl_1_l. apply u8_small. split; [lia|].
  apply Z.pow_lt_mono_r; lia.
Qed.

Lemma bitmap_get_bit v blk : bitmap_get v blk = Z.testbit (v_block_bitmap v).[blk / 8] (blk mod 8).
Proof.
  unfold bitmap_get. rewrite bit_mask_pow. pose proof (Z.mod_pos_bound blk 8 ltac:(lia)) as B. set (b := (v_block_bitmap v).[blk / 8]). set (k := blk mod 8) in *.
  destruct (Z.eqb_spec (Z.land b (2 ^ k)) 0) as [E|E]; cbn [negb].
  - destruct (Z.testbit b k) eqn:T; [|done]. exfalso. apply (f_equal (fun x => Z.testbit x k)) in E.
    rewrite Z.land_spec, Z.pow2_bits_true, T, Z.bits_0 in E by lia. done.
  - destruct (Z.testbit b k) eqn:T; [done|]. exfalso. apply E. apply Z.bits_inj'. intros n Hn. rewrite Z.land_spec, Z.bits_0.
    destruct (decide (n = k)) as [->|]; [by rewrite T|]. rewrite Z.pow2_bits_false by lia. apply andb_false_r.
Qed.

Lemma zget_bits (l : list Z) i j x c :
  0 <= i < zlen l -> 0 <= j -> Z.testbit l.[i <- x].[j] c = if j =? i then Z.testbit x c else Z.testbit l.[j] c.
Proof. intros Hi Hj. destruct (Z.eqb_spec j i) as [->|]; [by rewrite zget_zset_eq|by rewrite zget_zset_ne by lia]. Qed.

Lemma same_bit a b : 0 <= a -> 0 <= b -> (a =? b) = (a / 8 =? b / 8) && (a mod 8 =? b mod 8).
Proof.
  intros Ha Hb. pose proof (Z.div_mod a 8 ltac:(lia)). pose proof (Z.div_mod b 8 ltac:(lia)).
  destruct (Z.eqb_spec a b) as [->|]; [by rewrite !Z.eqb_refl|]. destruct (Z.eqb_spec (a / 8) (b / 8)), (Z.eqb_spec (a mod 8) (b mod 8)); try done. lia.
Qed.

Lemma bitmap_get_set v b c :
  0 <= b < 8 * zlen (v_block_bitmap v) -> 0 <= c -> bitmap_get (bitmap_set b v) c = (c =? b) || bitmap_get v c.
Proof.
  intros Hb Hc. rewrite !bitmap_get_bit. unfold bitmap_set. cbn [v_block_bitmap set_bitmap].
  assert (0 <= b / 8 < zlen (v_block_bitmap v)) by (split; [apply Z.div_pos; lia|apply Z.div_lt_upper_bound; lia]).
  rewrite zget_bits by (done || apply Z.div_pos; lia). rewrite (same_bit c b) by lia. destruct (Z.eqb_spec (c / 8) (b / 8)) as [E|E]; cbn [andb]; [|done].
  rewrite Z.lor_spec, bit_mask_pow, E. pose proof (Z.mod_pos_bound b 8 ltac:(lia)). pose proof (Z.mod_pos_bound c 8 ltac:(lia)).
  rewrite Z.pow2_bits_eqb by lia. rewrite (Z.eqb_sym (b mod 8)). apply orb_comm.
Qed.

Lemma bitmap_get_clear v b c :
  0 <= b < 8 * zlen (v_block_bitmap v) -> 0 <= c -> bitmap_get (bitmap_clear b v) c = negb (c =? b) && bitmap_get v c.
Proof.
  intros Hb Hc. rewrite !bitmap_get_bit. unfold bitmap_clear. cbn [v_block_bitmap set_bitmap].
  assert (0 <= b / 8 < zlen (v_block_bitmap v)) by (split; [apply Z.div_pos; lia|apply Z.div_lt_upper_bound; lia]).
  rewrite zget_bits by (done || apply Z.div_pos; lia). rewrite (same_bit c b) by lia. destruct (Z.eqb_spec (c / 8) (b / 8)) as [E|E]; cbn [andb negb]; [|done].
  rewrite Z.land_spec, bit_mask_pow, E. pose proof (Z.mod_pos_bound b 8 ltac:(lia)). pose proof (Z.mod_pos_bound c 8 ltac:(lia)).
  assert (P : 255 - 2 ^ (b mod 8) = Z.lxor 255 (2 ^ (b mod 8))).
  { assert (C : b mod 8 = 0 \/ b mod 8 = 1 \/ b mod 8 = 2 \/ b mod 8 = 3 \/ b mod 8 = 4 \/ b mod 8 = 5 \/ b mod 8 = 6 \/ b mod 8 = 7) by lia.
    repeat (destruct C as [->|C]; [done|]). by rewrite C. }
  rewrite P, Z.lxor_spec, Z.pow2_bits_eqb by lia. change 255 with (Z.ones 8). rewrite Z.ones_spec_low by lia.
  rewrite (Z.eqb_sym (b mod 8)). destruct (c mod 8 =? b mod 8); [by rewrite andb_false_r|by rewrite andb_true_r].
Qed.

(** ** The inode codec *)

(** The fields have their widths. *)
Record inode_ok (i : exfs_inode) : Prop := {
  io_size : 0 <= i_size i < 2 ^ 64;
  io_created : 0 <= i_created_at i < 2 ^ 64;
  io_modified : 0 <= i_modified_at i < 2 ^ 64;
  io_pid : 0 <= i_creator_pid i < 2 ^ 32;
  io_mode : 0 <= i_mode i < 2 ^ 32;
  io_direct : zlen (i_direct i) = EXFS_DIRECT_BLOCKS /\ Forall (fun p => 0 <= p < 2 ^ 64) (i_direct i);
  io_ptrs : 0 <= i_indirect i < 2 ^ 64 /\ 0 <= i_double_indirect i < 2 ^ 64 /\ 0 <= i_triple_indirect i < 2 ^ 64;
  io_prov : 0 <= i_prov_head i < 2 ^ 64 /\ 0 <= i_prov_count i < 2 ^ 32;
  io_hash : length (i_block_hash i) = 8%nat;
  io_owner : 0 <= i_owner_uid i < 2 ^ 32 /\ 0 <= i_group_gid i < 2 ^ 32;
  io_reserved : length (i_reserved i) = 8%nat
}.

(** The field at the front, and the fields behind a prefix. *)
Lemma le_at_front n x post : 0 <= x < 256 ^ Z.of_nat n -> le_at n (le_bytes n x ++ post) 0 = x.
Proof.
  intros Hx. unfold le_at. change (Z.to_nat 0) with 0%nat. rewrite drop_0, take_app_length' by (by rewrite length_le_bytes).
  rewrite le_val_bytes. by apply Z.mod_small.
Qed.

Lemma le_at_skip n pre post k m : Z.of_nat (length pre) = m -> m <= k -> le_at n (pre ++ post) k = le_at n post (k - m).
Proof. intros <- Hk. unfold le_at. rewrite drop_app_ge by lia. do 3 f_equal. lia. Qed.

Lemma le_at_words ws post k :
  Forall (fun w => 0 <= w < 2 ^ 64) ws -> 0 <= k < zlen ws -> le_at 8 (concat (le_bytes 8 <$> ws) ++ post) (8 * k) = ws.[k].
Proof.
  intros F Hk. unfold le_at. replace (Z.to_nat (8 * k)) with (8 * Z.to_nat k)%nat by lia. unfold zlen in Hk.
  rewrite drop_app_le by (rewrite words_length; lia). rewrite (drop_concat 8) by (apply Forall_fmap, Forall_forall; intros; apply length_le_bytes).
  pose proof (zget_lookup ws k ltac:(unfold zlen; lia)) as E.
  rewrite (drop_S (le_bytes 8 <$> ws) (le_bytes 8 ws.[k]) (Z.to_nat k)) by (by rewrite list_lookup_fmap, E). cbn [concat].
  rewrite <- app_assoc, take_app_length' by (by rewrite length_le_bytes). rewrite le_val_bytes. apply Z.mod_small.
  rewrite Forall_forall in F. apply list_elem_of_lookup_2 in E. by apply F in E.
Qed.

Lemma window_skip {A} n (pre post : list A) k m : Z.of_nat (length pre) = m -> m <= k -> take n (drop (Z.to_nat k) (pre ++ post)) = take n (drop (Z.to_nat (k - m)) post).
Proof. intros <- Hk. rewrite drop_app_ge by lia. do 2 f_equal. lia. Qed.

Lemma inode_bytes_len i : inode_ok i -> zlen (inode_bytes i) = SIZEOF_INODE.
Proof.
  intros [_ _ _ _ _ [Ld _] _ _ Lh _ Lr]. unfold inode_bytes, zlen, EXFS_DIRECT_BLOCKS in *. rewrite !length_app, !length_le_bytes, words_length, Lh, Lr.
  unfold SIZEOF_INODE. lia.
Qed.

Lemma inode_roundtrip i : inode_ok i -> inode_at (inode_bytes i) 0 = i.
Proof.
  intros [A1 A2 A3 A4 A5 [Ld Fd] (A6 & A7 & A8) [A9 A10] Lh [A11 A12] Lr]. destruct i as [f1 f2 f3 f4 f5 dir f6 f7 f8 f9 f10 hash f11 f12 res].
  cbn [i_size i_created_at i_modified_at i_creator_pid i_mode i_direct i_indirect i_double_indirect i_triple_indirect i_prov_head i_prov_count i_block_hash i_owner_uid i_group_gid i_reserved] in *.
  unfold inode_at, inode_bytes.
  cbn [i_size i_created_at i_modified_at i_creator_pid i_mode i_direct i_indirect i_double_indirect i_triple_indirect i_prov_head i_prov_count i_block_hash i_owner_uid i_group_gid i_reserved].
  assert (Lw : Z.of_nat (length (concat (le_bytes 8 <$> dir))) = 96) by (rewrite words_length; unfold zlen, EXFS_DIRECT_BLOCKS in Ld; lia).
  assert (L8 : forall x, Z.of_nat (length (le_bytes 8 x)) = 8) by (intros; by rewrite length_le_bytes).
  assert (L4 : forall x, Z.of_nat (length (le_bytes 4 x)) = 4) by (intros; by rewrite length_le_bytes).
  assert (Lh' : Z.of_nat (length hash) = 8) by lia.
  f_equal.
  all: try (repeat (erewrite le_at_skip; [|first [apply L8|apply L4|exact Lw|exact Lh']|lia]); apply le_at_front; done).
  - apply list_eq_zget; [by rewrite zlen_fmap, zlen_seqZ|]. intros k Hk. rewrite zlen_fmap, zlen_seqZ in Hk by lia. rewrite zget_fmap_seqZ by lia. cbn beta.
    repeat (erewrite le_at_skip; [|first [apply L8|apply L4]|lia]). replace (0 + 32 + 8 * (0 + k) - 8 - 8 - 8 - 4 - 4) with (8 * k) by lia.
    apply le_at_words; [done|]. unfold EXFS_DIRECT_BLOCKS in Ld. lia.
  - repeat (erewrite window_skip; [|first [apply L8|apply L4|exact Lw]|lia]). cbn -[take]. rewrite drop_0. by apply take_app_length'.
  - repeat (erewrite window_skip; [|first [apply L8|apply L4|exact Lw|exact Lh']|lia]). cbn -[take]. rewrite drop_0. apply take_ge. lia.
Qed.

(** An inode is read from the 188 bytes at its offset. *)
Lemma inode_at_window b off : 0 <= off -> inode_at b off = inode_at (take 188 (drop (Z.to_nat off) b)) 0.
Proof.
  intros H. assert (E : forall n k, 0 <= k -> (Z.to_nat k + n <= 188)%nat -> le_at n (take 188 (drop (Z.to_nat off) b)) (0 + k) = le_at n b (off + k)).
  { intros n k Hk Hn. unfold le_at. rewrite take_drop_take by lia. rewrite drop_drop. do 3 f_equal. lia. }
  assert (W : forall n k, 0 <= k -> (Z.to_nat k + n <= 188)%nat -> take n (drop (Z.to_nat (0 + k)) (take 188 (drop (Z.to_nat off) b))) = take n (drop (Z.to_nat (off + k)) b)).
  { intros n k Hk Hn. rewrite take_drop_take by lia. rewrite drop_drop. do 2 f_equal. lia. }
  unfold inode_at. f_equal; try (symmetry; apply E; cbn; lia); try (symmetry; apply W; cbn; lia).
  - specialize (E 8%nat 0 ltac:(lia) ltac:(cbn; lia)). by rewrite !Z.add_0_r in E.
  - apply list_fmap_ext. intros j k Hk. apply lookup_seqZ in Hk as [-> Hk]. rewrite <- !Z.add_assoc. symmetry. apply E; lia.
Qed.
