(* ===== verification/ExfsVolume.v ===== *)
(** * ExFS: a mounted volume as an array of blocks

    The invariant of a mounted volume between transactions, what reading and
    writing one block do to the contents of all blocks, allocating and freeing
    blocks, and the inode table. *)

From S2P Require Import Prelude AuditRing Blake3 BlockDev Journal ExfsFile.

(** ** Layout *)

(** Where the parts of a volume are. *)
Record geo := mk_geo {
  g_base : Z; g_total : Z; g_data : Z; g_inodes : Z; g_bitmap : Z; g_nbitmap : Z; g_prov : Z; g_nprov : Z; g_jb : Z; g_jn : Z
}.

Definition geo_of (v : exfs_volume) : geo :=
  let b := v_sb v in
  mk_geo (v_dev_lba_base v) (sb_total_blocks b) (sb_data_start_block b) (sb_inode_table_block b) (sb_block_bitmap_block b) (bitmap_blocks v)
    (sb_provenance_block b) (sb_provenance_size b) (sb_journal_block b) (sb_journal_size b).

(** Superblock, bitmap and inode table before the data area; the journal and the
    provenance records in it; every block has its bit and its sectors a 32-bit number. *)
Record geo_ok (g : geo) : Prop := {
  go_base : 0 <= g_base g /\ g_base g + 8 * g_total g <= 2 ^ 32;
  go_bitmap : 0 < g_bitmap g /\ 0 < g_nbitmap g /\ g_bitmap g + g_nbitmap g <= g_inodes g;
  go_inodes : g_inodes g <= g_data g;
  go_bits : g_total g <= 8 * (EXFS_BLOCK_SIZE * g_nbitmap g);
  go_journal : g_data g <= g_jb g /\ 2 < g_jn g /\ g_jb g + g_jn g <= g_total g;
  go_prov : g_data g <= g_prov g /\ 0 <= g_nprov g /\ g_prov g + g_nprov g <= g_total g;
  go_apart : g_jb g + g_jn g <= g_prov g \/ g_prov g + g_nprov g <= g_jb g
}.

Section Volume.
Context {D : Type} {dev : block_device D} {dev_ok : D -> Prop} {sectors : D -> view} `{!Device dev dev_ok sectors}.
Context {g : geo} (G : geo_ok g).
#[local] Abbreviation St := (exfs D).
#[local] Abbreviation V := (V (sectors := sectors)).
#[local] Abbreviation fs_ok := (fs_ok (dev_ok := dev_ok) (sectors := sectors)).
#[local] Abbreviation inr := (inr (sectors := sectors)).

(** The contents of block [c]. *)
Definition B (s : St) (c : Z) : list Z := block_of (V s) (g_base g + 8 * c).

(** The blocks of the journal and of the provenance records. *)
Definition reserved (c : Z) : Prop := g_jb g <= c < g_jb g + g_jn g \/ g_prov g <= c < g_prov g + g_nprov g.

Definition on_volume (c : Z) : Prop := 0 <= c < g_total g.

(** The blocks outside the journal. *)
Definition tracked (c : Z) : Prop := on_volume c /\ (c < g_jb g \/ g_jb g + g_jn g <= c).

(** A mounted volume, no transaction open and nothing left in the journal. *)
Record mounted (s : St) : Prop := {
  mo_fs : fs_ok s;
  mo_geo : geo_of (x_vol s) = g;
  mo_present : forall c, on_volume c -> present (V s) (g_base g + 8 * c);
  mo_idle : v_jtxn_active (x_vol s) = false;
  mo_txn : is_Some (v_jtxn_data (x_vol s)) /\ zlen (v_jtxn_blocks (x_vol s)) = EXFS_JOURNAL_MAX_BLOCKS /\
    zlen (default [] (v_jtxn_data (x_vol s))) = EXFS_JOURNAL_MAX_BLOCKS;
  mo_clear : pending (V s) (g_base g + 8 * g_jb g) = None
}.

(** The bitmap in memory is the bitmap on the disk, and has the reserved blocks in use. *)
Record vol_ok (s : St) : Prop := {
  vo_mounted : mounted s;
  vo_bytes : zlen (v_block_bitmap (x_vol s)) = EXFS_BLOCK_SIZE * g_nbitmap g;
  vo_disk : forall i, 0 <= i < g_nbitmap g ->
    B s (g_bitmap g + i) = take 4096 (drop (Z.to_nat (i * EXFS_BLOCK_SIZE)) (v_block_bitmap (x_vol s)));
  vo_reserved : forall c, reserved c -> bitmap_get (x_vol s) c = true
}.

(** [s'] is [s] with the blocks [f] outside the journal, the cache apart. *)
Record upd (f : Z -> list Z) (s s' : St) : Prop := {
  up_mounted : mounted s';
  up_bitmap : v_block_bitmap (x_vol s') = v_block_bitmap (x_vol s);
  up_crash : g_exfs_crash_point s' = g_exfs_crash_point s;
  up_audit : x_audit s' = x_audit s;
  up_blocks : forall c, tracked c -> B s' c = f c
}.

Lemma on_volume_inr s c : mounted s -> on_volume c -> inr s c.
Proof.
  intros M Hc. pose proof (f_equal g_base (mo_geo s M)) as Eb. cbn in Eb. unfold inr, in_range. rewrite Eb. unfold on_volume in Hc.
  pose proof (go_base g G). split; [lia|]. split; [lia|]. split; [lia|]. by apply (mo_present s M).
Qed.

Lemma lba_B s c : mounted s -> lba_of s c = g_base g + 8 * c.
Proof. intros M. unfold lba_of. by rewrite <- (mo_geo s M). Qed.

Lemma B_len s c : mounted s -> on_volume c -> zlen (B s c) = EXFS_BLOCK_SIZE.
Proof.
  intros M Hc. apply block_of_spec; [by apply (mo_present s M)|]. intros l b. apply (sector_len s l b (mo_fs s M)).
Qed.

Lemma same_geo (s s' : St) : same s s' -> geo_of (x_vol s') = geo_of (x_vol s).
Proof. by intros [(c & n & ->) _]. Qed.

Lemma mounted_same s s' :
  mounted s -> same s s' -> fs_ok s' -> (forall c, on_volume c -> present (V s') (g_base g + 8 * c)) ->
  pending (V s') (g_base g + 8 * g_jb g) = None -> mounted s'.
Proof.
  intros M Sm Ok P C. constructor; [done|by rewrite (same_geo _ _ Sm), (mo_geo s M)|done| | |done].
  - destruct Sm as [(c & n & ->) _]. apply M.
  - destruct Sm as [(c & n & ->) _]. apply M.
Qed.

(** ** One block *)

Lemma read_block_ok c buf s :
  mounted s -> on_volume c -> zlen buf = EXFS_BLOCK_SIZE ->
  cwp (exfs_read_block dev c buf) s (fun r s' => r = (true, B s c) /\ upd (B s) s s') (fun _ => False).
Proof.
  intros M Hc L. eapply cwp_mono; [apply exfs_read_block_spec; [apply M|by apply on_volume_inr|done]| |done].
  intros r s' (-> & Sm & Ok & E). rewrite (lba_B s c M). split; [done|]. pose proof Sm as [(? & ? & Ev) [E1 E2]].
  constructor; [|by rewrite Ev|done|done|intros c' _; apply block_of_ext; intros k _; apply E].
  eapply mounted_same; [exact M|done|done| |].
  - intros c' Hc' k Hk. rewrite E. by apply (mo_present s M).
  - unfold pending. rewrite E. apply M.
Qed.

(** The machine stopped with nothing in the journal; the blocks outside the
    bitmap are [f], but for [P]. *)
Record halted (P : Z -> Prop) (f : Z -> list Z) (s' : St) : Prop := {
  hl_dev : dev_ok (x_dev s');
  hl_geo : base s' = g_base g /\ jb s' = g_jb g /\ jn s' = g_jn g;
  hl_present : forall c, on_volume c -> present (V s') (g_base g + 8 * c);
  hl_clear : pending (V s') (g_base g + 8 * g_jb g) = None;
  hl_blocks : forall c, tracked c -> ~ P c -> B s' c = f c
}.

Definition bitmap_area (c : Z) : Prop := g_bitmap g <= c < g_bitmap g + g_nbitmap g.

Lemma mounted_halted P s : mounted s -> halted P (B s) s.
Proof. intros [[A1 A2] A3 A4 A5 A6 A7]. constructor; try done. by rewrite <- A3. Qed.

Lemma halted_mono (P P' : Z -> Prop) f f' s' : halted P f s' -> (forall c, P c -> P' c) -> (forall c, tracked c -> ~ P' c -> f c = f' c) -> halted P' f' s'.
Proof. intros [A1 A2 A3 A4 A5] HP E. constructor; try done. intros c Hc Hn. rewrite A5; [by apply E|done|]. by intros H%HP. Qed.

Definition set_block (c : Z) (data : list Z) (f : Z -> list Z) : Z -> list Z := fun c' => if c' =? c then data else f c'.

Lemma write_block_ok c data s :
  mounted s -> tracked c -> zlen data = EXFS_BLOCK_SIZE ->
  cwp (exfs_write_block dev c data) s (fun ok s' => ok = true /\ upd (set_block c data (B s)) s s') (halted (fun c' => c' = c) (B s)).
Proof.
  intros M [Hc Hj] L. pose proof (go_journal g G). eapply cwp_mono; [apply exfs_write_block_spec; [apply M|by apply on_volume_inr|done]| |].
  2: { intros s' (d & m & -> & Od & Hm & E). rewrite (lba_B s c M) in E. constructor; [done|by rewrite <- (mo_geo s M)| | |].
       - intros c' Hc' k Hk. rewrite E. by apply put_some, (mo_present s M).
       - unfold pending. rewrite E, put_out by lia. apply M.
       - intros c' _ Hn. apply block_of_ext. intros k Hk. rewrite E. apply put_out. lia. }
  intros ok s' (-> & Sm & Ok & E). rewrite (lba_B s c M) in E. split; [done|]. pose proof Sm as [(? & ? & Ev) [E1 E2]].
  constructor; [|by rewrite Ev|done|done|].
  - eapply mounted_same; [exact M|done|done| |].
    + intros c' Hc' k Hk. rewrite E. by apply put_some, (mo_present s M).
    + unfold pending. rewrite E, put_out by lia. apply M.
  - intros c' Hc'. unfold set_block, B. destruct (Z.eqb_spec c' c) as [->|].
    + apply block_at_block_of; [|done|].
      * intros l b. apply (sector_len s' l b Ok).
      * intros k Hk. rewrite E, put_in by lia. do 2 f_equal. lia.
    + apply block_of_ext. intros k Hk. rewrite E. apply put_out. lia.
Qed.

Lemma upd_trans f f' s s1 s' : upd f s s1 -> upd f' s1 s' -> upd f' s s'.
Proof. intros [A1 A2 A3 A4 A5] [C1 C2 C3 C4 C5]. constructor; congruence || done. Qed.

Lemma upd_ext f f' s s' : (forall c, tracked c -> f c = f' c) -> upd f s s' -> upd f' s s'.
Proof. intros E [A1 A2 A3 A4 A5]. constructor; try done. intros c Hc. rewrite A5 by done. by apply E. Qed.

Lemma upd_refl s : mounted s -> upd (B s) s s.
Proof. by constructor. Qed.

Lemma zlen_zero : zlen zero_block = EXFS_BLOCK_SIZE.
Proof. apply zlen_zero_block. Qed.

Lemma vol_ok_upd f s s' :
  vol_ok s -> upd f s s' -> (forall c, g_bitmap g <= c < g_bitmap g + g_nbitmap g -> f c = B s c) -> vol_ok s'.
Proof.
  intros [A1 A2 A3 A4] [C1 C2 C3 C4 C5] E. constructor; [done|by rewrite C2| |].
  - intros i Hi. pose proof (go_bitmap g G). pose proof (go_inodes g G). pose proof (go_journal g G). rewrite C5 by (unfold tracked, on_volume; lia). rewrite E, C2 by lia. by apply A3.
  - intros c Hc. unfold bitmap_get. rewrite C2. by apply A4.
Qed.

(** ** The bitmap *)

(** Block [i] of the bitmap in memory. *)
Definition bitmap_block (s : St) (i : Z) : list Z := take 4096 (drop (Z.to_nat (i * EXFS_BLOCK_SIZE)) (v_block_bitmap (x_vol s))).

Lemma bitmap_block_len s i :
  zlen (v_block_bitmap (x_vol s)) = EXFS_BLOCK_SIZE * g_nbitmap g -> 0 <= i < g_nbitmap g -> zlen (bitmap_block s i) = EXFS_BLOCK_SIZE.
Proof. intros L Hi. unfold bitmap_block, zlen, EXFS_BLOCK_SIZE in *. rewrite length_take, length_drop. lia. Qed.

Lemma flush_loop_ok n i ok s :
  mounted s -> zlen (v_block_bitmap (x_vol s)) = EXFS_BLOCK_SIZE * g_nbitmap g -> 0 <= i -> i + Z.of_nat n <= g_nbitmap g ->
  cwp (flush_loop dev n i ok) s
    (fun r s' => r = ok /\ upd (fun c => if (g_bitmap g + i <=? c) && (c <? g_bitmap g + i + Z.of_nat n) then bitmap_block s (c - g_bitmap g) else B s c) s s')
    (halted bitmap_area (B s)).
Proof.
  pose proof (go_bitmap g G). pose proof (go_inodes g G). pose proof (go_journal g G). pose proof (go_base g G).
  revert i ok s. induction n as [|n IH]; intros i ok s M L Hi Hn; cbn [flush_loop].
  - apply cwp_ret. split; [done|]. eapply upd_ext; [|by apply upd_refl]. intros c _. destruct (Z.leb_spec (g_bitmap g + i) c), (Z.ltb_spec c (g_bitmap g + i + Z.of_nat 0)); done || lia.
  - apply cwp_bind, cwp_get, cwp_bind. pose proof (f_equal g_bitmap (mo_geo s M)) as Eb. cbn in Eb. rewrite Eb, u64_small by lia.
    fold (bitmap_block s i). eapply cwp_mono; [apply write_block_ok; [done|unfold tracked, on_volume; lia|apply bitmap_block_len; [done|lia]]| |].
    2: { intros s' Hl. eapply halted_mono; [exact Hl| |done]. intros c ->. unfold bitmap_area. lia. }
    intros r s1 (-> & U1). pose proof (up_bitmap _ _ _ U1) as Eb1. eapply cwp_mono; [apply IH; [apply U1|by rewrite Eb1|lia|lia]| |].
    2: { intros s' Hl. eapply halted_mono; [exact Hl|done|]. intros c Hc Hna. rewrite (up_blocks _ _ _ U1) by done. unfold set_block, bitmap_area in *.
         rewrite (proj2 (Z.eqb_neq _ _)) by lia. done. }
    intros r s2 (-> & U2). split; [apply andb_true_r|]. eapply upd_trans; [exact U1|]. eapply upd_ext; [|exact U2]. intros c Hc. cbn beta.
    rewrite (up_blocks _ _ _ U1 c Hc). unfold bitmap_block at 1. rewrite Eb1. fold (bitmap_block s (c - g_bitmap g)). unfold set_block.
    destruct (Z.leb_spec (g_bitmap g + (i + 1)) c), (Z.ltb_spec c (g_bitmap g + (i + 1) + Z.of_nat n)), (Z.leb_spec (g_bitmap g + i) c),
      (Z.ltb_spec c (g_bitmap g + i + Z.of_nat (S n))), (Z.eqb_spec c (g_bitmap g + i)) as [->|]; try lia; try done. f_equal. lia.
Qed.

(** [s] with another bitmap and free count. *)
Definition with_bitmap (f : exfs_volume -> exfs_volume) (s : St) : St := mk_exfs (f (x_vol s)) (x_dev s) (g_exfs_crash_point s) (x_audit s).

(** After a change of the bitmap and a flush the disk follows, and nothing else on it changes. *)
Lemma flush_bitmap_ok s n b :
  mounted s -> zlen b = EXFS_BLOCK_SIZE * g_nbitmap g ->
  cwp (flush_bitmap dev) (with_bitmap (fun v => add_free_blocks n (set_bitmap b v)) s)
    (fun r s' => r = true /\ v_block_bitmap (x_vol s') = b /\
       upd (fun c => if (g_bitmap g <=? c) && (c <? g_bitmap g + g_nbitmap g) then take 4096 (drop (Z.to_nat ((c - g_bitmap g) * EXFS_BLOCK_SIZE)) b) else B s c)
         (with_bitmap (fun v => add_free_blocks n (set_bitmap b v)) s) s') (halted bitmap_area (B s)).
Proof.
  intros M L. set (s1 := with_bitmap _ s). assert (M1 : mounted s1).
  { destruct M as [[F1 F2] M2 M3 M4 M5 M6]. constructor; [by constructor|exact M2|done|done|done|done]. }
  unfold flush_bitmap. apply cwp_bind, cwp_get. pose proof (f_equal g_nbitmap (mo_geo s1 M1)) as Eb. cbn [g_nbitmap geo_of] in Eb. rewrite Eb.
  pose proof (go_bitmap g G). eapply cwp_mono; [apply (flush_loop_ok _ 0 true s1 M1); [done|lia|lia]| |done].
  intros r s' (-> & U). split; [done|]. split; [apply (up_bitmap _ _ _ U)|]. eapply upd_ext; [|exact U]. intros c _. cbn beta.
  rewrite Z.add_0_r, Z2Nat.id by lia. done.
Qed.

(** ** Allocation *)

(** No block of the data area is free. *)
Definition full (s : St) : Prop := forall c, g_data g <= c < g_total g -> bitmap_get (x_vol s) c = true.

Lemma find_clear_spec n b v :
  match find_clear n b v with
  | Some c => b <= c < b + Z.of_nat n /\ bitmap_get v c = false /\ forall c', b <= c' < c -> bitmap_get v c' = true
  | None => forall c, b <= c < b + Z.of_nat n -> bitmap_get v c = true
  end.
Proof.
  revert b. induction n as [|n IH]; intros b; cbn [find_clear]; [intros; lia|]. destruct (bitmap_get v b) eqn:E.
  - specialize (IH (b + 1)). destruct (find_clear n (b + 1) v) as [c|].
    + destruct IH as (A & C & F). split; [lia|]. split; [done|]. intros c' Hc. destruct (decide (c' = b)) as [->|]; [done|]. apply F. lia.
    + intros c Hc. destruct (decide (c = b)) as [->|]; [done|]. apply IH. lia.
  - split; [lia|]. split; [done|]. intros; lia.
Qed.

(** Everything that is kept when only the bitmap and its blocks change. *)
Record kept (s s' : St) : Prop := {
  kp_blocks : forall c, tracked c -> ~ (g_bitmap g <= c < g_bitmap g + g_nbitmap g) -> B s' c = B s c;
  kp_crash : g_exfs_crash_point s' = g_exfs_crash_point s;
  kp_audit : x_audit s' = x_audit s
}.

(** A new bitmap that has the reserved blocks in use, flushed. *)
Lemma rebitmap_ok s n b :
  mounted s -> zlen b = EXFS_BLOCK_SIZE * g_nbitmap g -> (forall c, reserved c -> bitmap_get (set_bitmap b (x_vol s)) c = true) ->
  cwp (flush_bitmap dev) (with_bitmap (fun v => add_free_blocks n (set_bitmap b v)) s)
    (fun r s' => vol_ok s' /\ kept s s' /\ forall c, bitmap_get (x_vol s') c = bitmap_get (set_bitmap b (x_vol s)) c) (halted bitmap_area (B s)).
Proof.
  intros M L R. pose proof (go_bitmap g G). pose proof (go_inodes g G). pose proof (go_journal g G).
  eapply cwp_mono; [by apply (flush_bitmap_ok s n b M)| |done]. intros ok s' (-> & E & U).
  assert (Bits : forall c, bitmap_get (x_vol s') c = bitmap_get (set_bitmap b (x_vol s)) c) by (intros c; unfold bitmap_get; by rewrite E).
  split; [|split; [|done]].
  - constructor; [apply U|by rewrite E| |intros c Hc; rewrite Bits; by apply R].
    intros i Hi. rewrite (up_blocks _ _ _ U) by (unfold tracked, on_volume; lia). rewrite E.
    destruct (Z.leb_spec (g_bitmap g) (g_bitmap g + i)), (Z.ltb_spec (g_bitmap g + i) (g_bitmap g + g_nbitmap g)); try lia. cbn [andb]. do 3 f_equal. lia.
  - constructor; [|apply U|apply U]. intros c Hc Hn. rewrite (up_blocks _ _ _ U c Hc).
    destruct (Z.leb_spec (g_bitmap g) c), (Z.ltb_spec c (g_bitmap g + g_nbitmap g)); done || lia.
Qed.

Lemma has_bit s c : vol_ok s -> on_volume c -> 0 <= c < 8 * zlen (v_block_bitmap (x_vol s)).
Proof. intros Vk Hc. rewrite (vo_bytes s Vk). pose proof (go_bits g G). unfold on_volume in Hc. lia. Qed.

Lemma exfs_alloc_block_ok s :
  vol_ok s ->
  cwp (exfs_alloc_block dev) s
    (fun b s' => (b = 0 /\ s' = s /\ full s) \/
       (g_data g <= b < g_total g /\ bitmap_get (x_vol s) b = false /\ (forall c, g_data g <= c < b -> bitmap_get (x_vol s) c = true) /\
        vol_ok s' /\ kept s s' /\ forall c, 0 <= c -> bitmap_get (x_vol s') c = (c =? b) || bitmap_get (x_vol s) c))
    (halted bitmap_area (B s)).
Proof.
  intros Vk. pose proof Vk as [M L Dk R]. pose proof (go_bitmap g G). pose proof (go_inodes g G). pose proof (go_journal g G). pose proof (go_prov g G).
  unfold exfs_alloc_block. apply cwp_bind, cwp_get. cbv zeta.
  pose proof (f_equal g_total (mo_geo s M)) as Et. pose proof (f_equal g_data (mo_geo s M)) as Ed. cbn in Et, Ed. rewrite Et, Ed.
  pose proof (find_clear_spec (Z.to_nat (g_total g - g_data g)) (g_data g) (x_vol s)) as F. rewrite Z2Nat.id in F by lia.
  destruct (find_clear _ _ _) as [b|]; [|apply cwp_ret; left; split; [done|]; split; [done|]; intros c Hc; apply F; lia].
  destruct F as (F1 & F2 & F3). apply cwp_bind, cwp_modify, cwp_bind.
  pose proof (has_bit s b Vk ltac:(unfold on_volume; lia)) as Hb.
  eapply cwp_mono; [apply (rebitmap_ok s (-1) _ M); [by rewrite zlen_zset|]| |done].
  - intros c Hc. unfold reserved in Hc. fold (bitmap_set b (x_vol s)). rewrite bitmap_get_set by lia. rewrite R by done. apply orb_true_r.
  - intros ok s' (Vk' & K & Bits). apply cwp_ret. right. split; [lia|]. split; [done|]. split; [done|]. split; [done|]. split; [done|].
    intros c Hc. rewrite Bits. by apply (bitmap_get_set (x_vol s) b c Hb Hc).
Qed.

Lemma exfs_free_block_ok s blk :
  vol_ok s -> ~ reserved blk ->
  cwp (exfs_free_block dev blk) s
    (fun _ s' => vol_ok s' /\ kept s s' /\
       forall c, 0 <= c -> bitmap_get (x_vol s') c = negb ((c =? blk) && (g_data g <=? c) && (c <? g_total g)) && bitmap_get (x_vol s) c)
    (halted bitmap_area (B s)).
Proof.
  intros Vk Nr. pose proof Vk as [M L Dk R]. pose proof (go_bitmap g G). pose proof (go_inodes g G). pose proof (go_journal g G). pose proof (go_prov g G).
  unfold exfs_free_block. apply cwp_bind, cwp_get. cbv zeta.
  pose proof (f_equal g_total (mo_geo s M)) as Et. pose proof (f_equal g_data (mo_geo s M)) as Ed. cbn in Et, Ed. rewrite Et, Ed.
  assert (Same : (forall c, c = blk -> g_data g <= c < g_total g -> bitmap_get (x_vol s) c = false) -> vol_ok s /\ kept s s /\
    forall c, 0 <= c -> bitmap_get (x_vol s) c = negb ((c =? blk) && (g_data g <=? c) && (c <? g_total g)) && bitmap_get (x_vol s) c).
  { intros H3. split; [done|]. split; [done|]. intros c Hc. destruct (Z.eqb_spec c blk), (Z.leb_spec (g_data g) c), (Z.ltb_spec c (g_total g)); try done.
    cbn. apply H3; [done|lia]. }
  destruct (Z.ltb_spec blk (g_data g)); [apply cwp_ret, Same; lia|]. destruct (Z.leb_spec (g_total g) blk); [apply cwp_ret, Same; lia|]. cbn [orb].
  destruct (bitmap_get (x_vol s) blk) eqn:Eg; cbn [negb]; [|apply cwp_ret, Same; by intros c -> _].
  pose proof (has_bit s blk Vk ltac:(unfold on_volume; lia)) as Hb. apply cwp_bind, cwp_modify, cwp_bind.
  eapply cwp_mono; [apply (rebitmap_ok s 1 _ M); [by rewrite zlen_zset|]| |done].
  - intros c Hc. fold (bitmap_clear blk (x_vol s)). assert (0 <= c) by (unfold reserved in Hc; lia). rewrite bitmap_get_clear by lia.
    rewrite R by done. destruct (Z.eqb_spec c blk) as [->|]; done.
  - intros ok s' (Vk' & K & Bits). apply cwp_ret. split; [done|]. split; [done|]. intros c Hc. rewrite Bits.
    etransitivity; [apply (bitmap_get_clear (x_vol s) blk c Hb Hc)|].
    destruct (Z.eqb_spec c blk) as [->|]; [|done]. destruct (Z.leb_spec (g_data g) blk), (Z.ltb_spec blk (g_total g)); done || lia.
Qed.

(** ** A device that does not stop *)

(** [m] comes back whenever no crash point is armed. *)
Definition alive {A} (m : M St A) : Prop :=
  forall s, g_exfs_crash_point s = 0 -> exists a s', m s = (Some a, s') /\ g_exfs_crash_point s' = 0.

Lemma alive_cwp {A} (m : M St A) s Q C :
  alive m -> g_exfs_crash_point s = 0 -> cwp m s Q C -> exists a s', m s = (Some a, s') /\ g_exfs_crash_point s' = 0 /\ Q a s'.
Proof. intros Al Cr W. destruct (Al s Cr) as (a & s' & E & C'). exists a, s'. unfold cwp in W. by rewrite E in W. Qed.

Lemma alive_ret {A} (a : A) : alive (mret a).
Proof. intros s C. by exists a, s. Qed.

Lemma alive_bind {A C} (m : M St A) (k : A -> M St C) : alive m -> (forall a, alive (k a)) -> alive (mbind m k).
Proof. intros Hm Hk s E. destruct (Hm s E) as (a & s' & E1 & C1). unfold mbind. rewrite E1. by apply Hk. Qed.

Lemma alive_get : alive get.
Proof. intros s C. by exists s, s. Qed.

Lemma alive_modify f : alive (modify_vol f).
Proof. intros s C. by eexists _, _. Qed.

Lemma alive_crash_point p : p <> 0 -> alive (crash_point p).
Proof. intros Hp s C. exists tt, s. unfold crash_point, mbind, get. rewrite C. destruct (Z.eqb_spec 0 p); [lia|done]. Qed.


Context `{!Steady dev}.

Lemma alive_read_block c buf : alive (exfs_read_block dev c buf).
Proof.
  assert (R : forall n j b buf, alive (read_sectors dev n j b buf)).
  { induction n as [|n IH]; intros j b buf'; cbn [read_sectors]; [apply alive_ret|]. apply alive_bind; [|intros r; destruct (negb r.1); [apply alive_ret|apply IH]].
    intros s C. unfold on_dev. destruct (steady_read (x_dev s) (u32 (b + j)) (take 512 (drop (Z.to_nat (512 * j)) buf'))) as (r & d & ->). by eexists _, _. }
  unfold exfs_read_block. apply alive_bind; [apply alive_get|]. intros s. cbv zeta. case_match; [apply alive_ret|].
  apply alive_bind; [apply R|]. intros r. destruct (negb r.1); [apply alive_ret|]. apply alive_bind; [apply alive_modify|]. intros _. apply alive_ret.
Qed.

Lemma alive_write_block c data : alive (exfs_write_block dev c data).
Proof.
  assert (R : forall n j b, alive (write_sectors dev n j b data)).
  { induction n as [|n IH]; intros j b; cbn [write_sectors]; [apply alive_ret|]. apply alive_bind; [|intros r; destruct (negb r); [apply alive_ret|apply IH]].
    intros s C. unfold on_dev. destruct (steady_write (x_dev s) (u32 (b + j)) (take 512 (drop (Z.to_nat (512 * j)) data))) as (r & d & ->). by eexists _, _. }
  unfold exfs_write_block. apply alive_bind; [apply alive_get|]. intros s. apply alive_bind; [apply R|]. intros r.
  destruct (negb r); [apply alive_ret|]. apply alive_bind; [apply alive_modify|]. intros _. apply alive_ret.
Qed.

End Volume.

(** Code made of code that comes back comes back. *)
Create HintDb alive.
#[export] Hint Resolve alive_ret alive_get alive_modify alive_read_block alive_write_block : alive.
#[export] Hint Extern 1 (alive (crash_point _)) => (apply alive_crash_point; lia) : alive.

Ltac alive_step :=
  lazymatch goal with
  | |- alive (mbind _ _) => apply alive_bind; [|intros ?]
  | |- alive (let _ := _ in _) => cbv zeta
  | |- alive (if ?b then _ else _) => destruct b
  | |- alive (match ?x with _ => _ end) => destruct x
  | |- _ => solve [eauto with alive]
  end.
Ltac alive := repeat alive_step.

Section Alive.
Context {D : Type} {dev : block_device D} `{!Steady dev}.

Lemma alive_meta_write c data : alive (exfs_meta_write_block dev c data).
Proof. unfold exfs_meta_write_block, exfs_journal_stage. alive. Qed.

Lemma alive_txn_read c buf : alive (exfs_txn_read_block dev c buf).
Proof. unfold exfs_txn_read_block. alive. Qed.

Lemma alive_begin : alive (exfs_journal_begin (D := D)).
Proof. apply alive_modify. Qed.

Lemma alive_commit : alive (exfs_journal_commit dev).
Proof.
  assert (A : forall bs ds ok, alive (apply_blocks dev bs ds ok)).
  { induction bs as [|b bs IH]; intros ds ok; cbn [apply_blocks]; alive. }
  assert (W : forall ds slot, alive (write_slots dev slot ds)).
  { induction ds as [|d ds IH]; intros slot; cbn [write_slots]; alive. }
  unfold exfs_journal_commit, txn_done. alive.
Qed.

Lemma alive_flush : alive (flush_bitmap dev).
Proof.
  assert (L : forall n i ok, alive (flush_loop dev n i ok)) by (induction n as [|n IH]; intros i ok; cbn [flush_loop]; alive).
  unfold flush_bitmap. alive.
Qed.
#[local] Hint Resolve alive_meta_write alive_txn_read alive_begin alive_commit alive_flush : alive.

Lemma alive_alloc : alive (exfs_alloc_block dev).
Proof. unfold exfs_alloc_block. alive. Qed.

Lemma alive_free c : alive (exfs_free_block dev c).
Proof. unfold exfs_free_block. alive. Qed.

Lemma alive_read_inode n : alive (exfs_read_inode dev n).
Proof. unfold exfs_read_inode. alive. Qed.

Lemma alive_write_inode n i : alive (exfs_write_inode dev n i).
Proof. unfold exfs_write_inode. alive. Qed.

End Alive.

#[export] Hint Resolve alive_meta_write alive_txn_read alive_begin alive_commit alive_flush alive_alloc alive_free alive_read_inode alive_write_inode : alive.


(** ** Inside a transaction *)

Section Txn.
Context {D : Type} {dev : block_device D} {dev_ok : D -> Prop} {sectors : D -> view} `{!Device dev dev_ok sectors}.
Context {g : geo} (G : geo_ok g).
#[local] Abbreviation St := (exfs D).
#[local] Abbreviation V := (V (sectors := sectors)).
#[local] Abbreviation fs_ok := (fs_ok (dev_ok := dev_ok) (sectors := sectors)).
#[local] Abbreviation txn_ok := (txn_ok (dev_ok := dev_ok) (sectors := sectors)).
#[local] Abbreviation committed := (committed (sectors := sectors)).
#[local] Abbreviation mounted := (mounted (dev_ok := dev_ok) (sectors := sectors) (g := g)).
#[local] Abbreviation upd := (upd (dev_ok := dev_ok) (sectors := sectors) (g := g)).
#[local] Abbreviation vol_ok := (vol_ok (dev_ok := dev_ok) (sectors := sectors) (g := g)).
#[local] Abbreviation B := (B (sectors := sectors) (g := g)).
#[local] Abbreviation tracked := (tracked (g := g)).

(** In the transaction begun in [s0] at most [k] blocks are staged and the
    volume will have the blocks [f] once it is committed. *)
Record in_txn (s0 : St) (f : Z -> list Z) (k : Z) (s : St) : Prop := {
  it_txn : txn_ok s;
  it_geo : geo_of (x_vol s) = g;
  it_present : forall c, on_volume (g := g) c -> present (V s) (g_base g + 8 * c);
  it_before : forall l, V s l = V s0 l;
  it_after : forall c, tracked c -> block_of (committed s) (g_base g + 8 * c) = f c;
  it_count : v_jtxn_count (x_vol s) <= k;
  it_bitmap : v_block_bitmap (x_vol s) = v_block_bitmap (x_vol s0);
  it_crash : g_exfs_crash_point s = g_exfs_crash_point s0;
  it_audit : x_audit s = x_audit s0
}.

(** The machine stopped; whoever mounts the disk finds, but for [P], all of [f0] or all of [f]. *)
Definition stopped (P : Z -> Prop) (f0 f : Z -> list Z) (s' : St) : Prop :=
  dev_ok (x_dev s') /\ (base s' = g_base g /\ jb s' = g_jb g /\ jn s' = g_jn g) /\ exists w, journal_view (g_base g) (g_jb g) (g_jn g) w (V s') /\
    ((forall c, tracked c -> ~ P c -> block_of w (g_base g + 8 * c) = f0 c) \/ (forall c, tracked c -> ~ P c -> block_of w (g_base g + 8 * c) = f c)).

Lemma geo_base (s : St) : geo_of (x_vol s) = g -> base s = g_base g /\ jb s = g_jb g /\ jn s = g_jn g.
Proof. by intros <-. Qed.

Lemma region_ok (s : St) : (forall c, on_volume (g := g) c -> present (V s) (g_base g + 8 * c)) -> region (g_base g) (g_jb g) (g_jn g) (V s).
Proof.
  intros P. pose proof (go_journal g G). pose proof (go_bitmap g G). pose proof (go_inodes g G). pose proof (go_base g G). split; [lia|]. intros i Hi.
  split; [lia|]. split; [lia|]. split; [lia|]. apply P. unfold on_volume. lia.
Qed.

Lemma begin_in s : mounted s -> cwp (exfs_journal_begin (D := D)) s (fun _ s' => in_txn s (B s) 0 s') (fun _ => False).
Proof.
  intros M. unfold exfs_journal_begin. apply cwp_modify. destruct (mo_txn s M) as (Td & Tb & Tl). pose proof (mo_geo s M) as Eg.
  destruct (geo_base s Eg) as (E1 & E2 & E3). pose proof (region_ok s (mo_present s M)) as R. destruct (mo_fs s M) as [F1 F2].
  constructor; [|exact Eg|apply M|done|done|done|done|done|done].
  constructor; [by constructor|done|done| |done|constructor|constructor|constructor| |].
  - unfold jn. cbn [x_vol set_txn v_jtxn_count v_sb]. fold (jn s). rewrite E3. pose proof (go_journal g G). unfold EXFS_JOURNAL_MAX_BLOCKS. lia.
  - unfold base, jb, jn. cbn [x_vol set_txn v_dev_lba_base v_sb]. fold (base s) (jb s) (jn s). by rewrite E1, E2, E3.
  - unfold base, jb. cbn [x_vol set_txn v_dev_lba_base v_sb]. fold (base s) (jb s). rewrite E1, E2. apply M.
Qed.

Lemma txn_ok_same s s' : txn_ok s -> same s s' -> fs_ok s' -> (forall l, V s' l = V s l) -> txn_ok s'.
Proof.
  intros [A1 A2 A3 A4 A5 A6 A7 A8 A9 A10] Sm Ok E. pose proof Sm as [(c & n & Ev) _].
  assert (Eb : txn_blocks s' = txn_blocks s /\ txn_data s' = txn_data s /\ base s' = base s /\ jb s' = jb s /\ jn s' = jn s)
    by (unfold txn_blocks, txn_data, base, jb, jn; by rewrite Ev). destruct Eb as (Eb & Ed & E1 & E2 & E3).
  assert (Iv : forall l, is_Some (V s l) -> is_Some (V s' l)) by (intros l; by rewrite E).
  constructor; rewrite ?Eb, ?Ed, ?E1, ?E2, ?E3; try (rewrite Ev; done); try done.
  - by eapply targets_view.
  - by eapply region_view.
  - unfold pending. by rewrite E.
Qed.

Lemma in_txn_same s0 f k s s' : in_txn s0 f k s -> same s s' -> fs_ok s' -> (forall l, V s' l = V s l) -> in_txn s0 f k s'.
Proof.
  intros [A1 A2 A3 A4 A5 A6 A7 A8 A9] Sm Ok E. pose proof Sm as [(c & n & Ev) [Ec Ea]].
  constructor; [by eapply txn_ok_same| | | | | | | |]; try (rewrite Ev; done).
  - intros c' Hc j Hj. rewrite E. by apply A3.
  - intros l. by rewrite E.
  - intros c' Hc. rewrite <- A5 by done. apply block_of_ext. intros j _. unfold committed, txn_blocks, txn_data, base. rewrite Ev. by apply new_view_eq.
  - congruence.
  - congruence.
Qed.

Lemma tracked_target s0 f k s c : in_txn s0 f k s -> tracked c -> target_ok (base s) (jb s) (jn s) (V s) c.
Proof.
  intros T [Hc Hj]. destruct (geo_base s (it_geo _ _ _ _ T)) as (-> & -> & ->). pose proof (go_base g G). split; [|done].
  unfold on_volume in Hc. split; [lia|]. split; [lia|]. split; [lia|]. by apply (it_present _ _ _ _ T).
Qed.

Lemma txn_read_in s0 f k s c buf :
  in_txn s0 f k s -> tracked c -> zlen buf = EXFS_BLOCK_SIZE ->
  cwp (exfs_txn_read_block dev c buf) s (fun r s' => r = (true, f c) /\ in_txn s0 f k s') (fun _ => False).
Proof.
  intros T Hc L. destruct (tracked_target _ _ _ _ _ T Hc) as [Ir _]. eapply cwp_mono; [by apply (exfs_txn_read_block_spec c buf s (it_txn _ _ _ _ T) Ir L)| |done].
  intros r s' (-> & Sm & Ok & E). split; [|by eapply in_txn_same]. f_equal. destruct (geo_base s (it_geo _ _ _ _ T)) as (-> & _). by apply (it_after _ _ _ _ T).
Qed.

Lemma meta_write_in s0 f k s c data :
  in_txn s0 f k s -> tracked c -> zlen data = EXFS_BLOCK_SIZE -> k < EXFS_JOURNAL_MAX_BLOCKS -> k < g_jn g - 1 ->
  cwp (exfs_meta_write_block dev c data) s (fun ok s' => ok = true /\ in_txn s0 (set_block c data f) (k + 1) s') (fun _ => False).
Proof.
  intros T Hc L K1 K2. pose proof (it_txn _ _ _ _ T) as To. destruct (geo_base s (it_geo _ _ _ _ T)) as (E1 & E2 & E3). pose proof (it_count _ _ _ _ T) as Ct.
  destruct (exfs_journal_stage_spec (dev := dev) c data s To (tracked_target _ _ _ _ _ T Hc) L) as (s' & E & T' & Ed & Eb & Ej & En & Cn & [(a & n & b & d & Ev) [Ec Ea]] & Cm);
    [right; rewrite E3; lia|].
  unfold exfs_meta_write_block. apply cwp_bind, cwp_get. rewrite (to_active s To). unfold cwp. rewrite E. split; [done|].
  assert (EV : V s' = V s) by (unfold V; by rewrite Ed). destruct T as [A1 A2 A3 A4 A5 A6 A7 A8 A9].
  constructor; [done|by rewrite Ev|by rewrite EV|by rewrite EV| |lia|by rewrite Ev|congruence|congruence].
  intros c' Hc'. unfold set_block. destruct (Z.eqb_spec c' c) as [->|Hne].
  - apply block_at_block_of; [intros l b'; by apply committed_sector|done|]. intros j Hj. rewrite Cm, E1, put_in by lia. do 2 f_equal. lia.
  - rewrite <- A5 by done. apply block_of_ext. intros j Hj. rewrite Cm, E1. apply put_out. lia.
Qed.

Lemma commit_in s0 f k s :
  mounted s0 -> in_txn s0 f k s -> cwp (exfs_journal_commit dev) s (fun r s' => r = true /\ upd f s0 s') (stopped (fun _ => False) (B s0) f).
Proof.
  intros M [A1 A2 A3 A4 A5 A6 A7 A8 A9]. destruct (geo_base s A2) as (E1 & E2 & E3). eapply cwp_mono; [apply (exfs_journal_commit_spec s A1)| |].
  - intros r s' (-> & [K1 (c & n & K2) [Kc Ka] K3 K4 K5]). rewrite E1, E2, E3 in *. split; [done|].
    assert (Pr : forall l, is_Some (V s l) -> is_Some (V s' l)).
    { intros l Hl. destruct (decide (l < g_base g + 8 * g_jb g \/ g_base g + 8 * (g_jb g + g_jn g) <= l)) as [Ho|Hn].
      - rewrite K5 by done. by apply new_view_some.
      - destruct K4 as [_ K4]. set (i := (l - g_base g) / 8 - g_jb g). assert (0 <= i < g_jn g) by (unfold i; Z.div_mod_to_equations; lia).
        destruct (K4 i) as (_ & _ & _ & P); [done|]. specialize (P (l - g_base g - 8 * (g_jb g + i))).
        replace (g_base g + 8 * (g_jb g + i) + (l - g_base g - 8 * (g_jb g + i))) with l in P by lia. apply P. unfold i. Z.div_mod_to_equations; lia. }
    constructor; [|by rewrite K2|congruence|congruence|].
    + constructor; [done|by rewrite K2|intros c' Hc j Hj; by apply Pr, A3|by rewrite K2| |done].
      rewrite K2. cbn [v_jtxn_data v_jtxn_blocks set_cache set_txn]. split; [apply A1|apply A1].
    + intros c' [Hc Hj]. rewrite <- A5 by done. apply block_of_ext. intros j Hj'. apply K5. unfold outside. lia.
  - intros s' (Sm & Od & J). rewrite E1, E2, E3 in J. split; [done|]. split; [apply geo_base; rewrite (same_geo _ _ Sm); exact A2|].
    destruct J as [J|J]; eexists; (split; [exact J|]); [left|right]; intros c Hc _; [|by apply A5]. apply block_of_ext. intros j _. apply A4.
Qed.

Lemma halted_stopped P f0 f s' : halted (dev_ok := dev_ok) (sectors := sectors) (g := g) P f s' -> stopped P f0 f s'.
Proof.
  intros [A1 A2 A3 A4 A5]. split; [done|]. split; [done|]. exists (V s'). split; [|by right]. apply journal_view_clear; [by apply region_ok|done|done].
Qed.

(** After recovery, however often it is interrupted. *)
Lemma stopped_recovers P f0 f s1 s2 :
  stopped P f0 f s1 -> recovers (dev := dev) (dev_ok := dev_ok) (sectors := sectors) s1 s2 ->
  (forall c, tracked c -> ~ P c -> B s2 c = f0 c) \/ (forall c, tracked c -> ~ P c -> B s2 c = f c).
Proof.
  intros (Od & (E1 & E2 & E3) & w & J & Hw) Rc. rewrite <- E1, <- E2, <- E3 in J. destruct (recovers_view w s1 s2 Rc J) as (_ & _ & Ev). rewrite E1, E2, E3 in Ev.
  assert (Eb : forall c, tracked c -> B s2 c = block_of w (g_base g + 8 * c)).
  { intros c [Hc Hj]. apply block_of_ext. intros k Hk. apply Ev. unfold outside. lia. }
  destruct Hw as [Hw|Hw]; [left|right]; intros c Hc Hn; rewrite Eb by done; by apply Hw.
Qed.

(** ** The inode table *)

Definition iblk (n : Z) : Z := g_inodes g + n / INODES_PER_BLOCK.
Definition inum_ok (n : Z) : Prop := 0 <= n /\ iblk n < g_data g.

(** Inode [n] of the blocks [f], and [f] with it replaced. *)
Definition inode_in (f : Z -> list Z) (n : Z) : exfs_inode := inode_at (f (iblk n)) (inode_offset n).
Definition put_inode (n : Z) (i : exfs_inode) (f : Z -> list Z) : Z -> list Z :=
  set_block (iblk n) (memcpy (f (iblk n)) (inode_offset n) (inode_bytes i)) f.

Lemma inum_tracked n : inum_ok n -> tracked (iblk n).
Proof.
  intros [H0 H1]. pose proof (go_journal g G). pose proof (go_bitmap g G). pose proof (Z.div_pos n INODES_PER_BLOCK H0 ltac:(done)).
  unfold tracked, on_volume, iblk in *. lia.
Qed.

Lemma inode_block_eq n v : geo_of v = g -> inum_ok n -> inode_block n v = iblk n.
Proof.
  intros E Hn. destruct (inum_tracked n Hn) as [H1 _]. unfold inode_block. pose proof (f_equal g_inodes E) as Ei. cbn in Ei. rewrite Ei.
  pose proof (go_base g G). unfold on_volume in H1. apply u64_small. fold (iblk n). lia.
Qed.

Lemma inode_offset_range n : 0 <= inode_offset n /\ inode_offset n + SIZEOF_INODE <= EXFS_BLOCK_SIZE.
Proof. unfold inode_offset, INODES_PER_BLOCK, EXFS_INODE_SIZE, EXFS_BLOCK_SIZE, SIZEOF_INODE. change (4096 / 256) with 16. Z.div_mod_to_equations. lia. Qed.

Lemma put_inode_len n i f : inode_ok i -> zlen (f (iblk n)) = EXFS_BLOCK_SIZE -> zlen (memcpy (f (iblk n)) (inode_offset n) (inode_bytes i)) = EXFS_BLOCK_SIZE.
Proof. intros Ok L. pose proof (inode_offset_range n). rewrite zlen_memcpy; rewrite ?inode_bytes_len, ?L by done; done || lia. Qed.

Lemma put_inode_eq n i f : inode_ok i -> zlen (f (iblk n)) = EXFS_BLOCK_SIZE -> inode_in (put_inode n i f) n = i.
Proof.
  intros Ok L. pose proof (inode_offset_range n). unfold inode_in, put_inode, set_block. rewrite Z.eqb_refl, inode_at_window by lia.
  pose proof (inode_bytes_len i Ok) as Lb. replace 188%nat with (length (inode_bytes i)) by (unfold zlen, SIZEOF_INODE in Lb; lia).
  rewrite window_memcpy_in by lia. by apply inode_roundtrip.
Qed.

Lemma put_inode_ne n m i f : 0 <= n -> 0 <= m -> n <> m -> inode_ok i -> zlen (f (iblk n)) = EXFS_BLOCK_SIZE -> inode_in (put_inode n i f) m = inode_in f m.
Proof.
  intros Hn Hm Hne Ok L. pose proof (inode_offset_range n). pose proof (inode_offset_range m). unfold inode_in, put_inode, set_block.
  destruct (Z.eqb_spec (iblk m) (iblk n)) as [E|]; [|done]. rewrite E. rewrite !(inode_at_window _ (inode_offset m)) by lia. f_equal.
  pose proof (inode_bytes_len i Ok) as Lb. apply window_memcpy_out; [lia|lia|lia|]. rewrite Lb.
  unfold iblk, inode_offset, INODES_PER_BLOCK, EXFS_INODE_SIZE, EXFS_BLOCK_SIZE, SIZEOF_INODE in *. change (4096 / 256) with 16 in *.
  Z.div_mod_to_equations. lia.
Qed.

Lemma read_inode_ok n s :
  mounted s -> inum_ok n -> cwp (exfs_read_inode dev n) s (fun r s' => r = Some (inode_in (B s) n) /\ upd (B s) s s') (fun _ => False).
Proof.
  intros M Hn. unfold exfs_read_inode. apply cwp_bind, cwp_get, cwp_bind. rewrite (inode_block_eq n) by (done || apply M).
  eapply cwp_mono; [apply (read_block_ok G); [done|apply (inum_tracked n Hn)|apply zlen_zero_block]| |done].
  intros r s' (-> & U). apply cwp_ret. done.
Qed.

Lemma write_inode_ok n i s :
  mounted s -> inum_ok n -> inode_ok i ->
  cwp (exfs_write_inode dev n i) s (fun ok s' => ok = true /\ upd (put_inode n i (B s)) s s') (fun _ => True).
Proof.
  intros M Hn Ok. pose proof (inum_tracked n Hn) as Ht. unfold exfs_write_inode. apply cwp_bind, cwp_get, cwp_bind.
  rewrite (inode_block_eq n) by (done || apply M). unfold exfs_txn_read_block. apply cwp_bind, cwp_get. rewrite (mo_idle s M).
  eapply cwp_mono; [apply (read_block_ok G); [done|apply Ht|apply zlen_zero_block]| |done].
  intros r s1 (-> & U). cbn [fst snd negb]. unfold exfs_meta_write_block. apply cwp_bind, cwp_get. rewrite (mo_idle s1) by apply U.
  eapply cwp_mono; [apply (write_block_ok G); [apply U|done|apply put_inode_len; [done|]; apply (B_len s); [done|apply Ht]]| |done].
  intros ok s2 (-> & U2). split; [done|]. eapply upd_trans; [exact U|]. eapply upd_ext; [|exact U2]. intros c Hc. unfold put_inode, set_block.
  destruct (_ =? _); [done|]. by apply U.
Qed.

Lemma write_inode_in s0 f k s n i :
  in_txn s0 f k s -> inum_ok n -> inode_ok i -> zlen (f (iblk n)) = EXFS_BLOCK_SIZE -> k < EXFS_JOURNAL_MAX_BLOCKS -> k < g_jn g - 1 ->
  cwp (exfs_write_inode dev n i) s (fun ok s' => ok = true /\ in_txn s0 (put_inode n i f) (k + 1) s') (fun _ => False).
Proof.
  intros T Hn Ok L K1 K2. pose proof (inum_tracked n Hn) as Ht. unfold exfs_write_inode. apply cwp_bind, cwp_get, cwp_bind.
  rewrite (inode_block_eq n) by (done || apply T). eapply cwp_mono; [apply (txn_read_in _ _ _ _ _ _ T Ht zlen_zero_block)| |done].
  intros r s1 (-> & T1). cbn [fst snd negb]. apply (meta_write_in _ _ _ _ _ _ T1 Ht); [|done|done]. by apply put_inode_len.
Qed.

End Txn.

(** ** Properties *)

Section Properties.
Context {D : Type} {dev : block_device D} {dev_ok : D -> Prop} {sectors : D -> view} `{!Device dev dev_ok sectors} `{!Steady dev} {g : geo}.
#[local] Abbreviation St := (exfs D).
#[local] Abbreviation vol_ok := (vol_ok (dev_ok := dev_ok) (sectors := sectors) (g := g)).
#[local] Abbreviation kept := (kept (sectors := sectors) (g := g)).

(** C25: block allocation.  On a mounted volume [exfs_alloc_block] comes back
    with 0 and nothing changed exactly when no block of the data area is free,
    and otherwise with the first free block, never one of the journal or the
    provenance records; that block is then in use, in memory and on the disk, and
    no block outside the bitmap has changed.  Freeing it restores the bitmap,
    again in memory and on the disk. *)
Theorem exfs_alloc_free (s : St) :
  geo_ok g -> vol_ok s -> g_exfs_crash_point s = 0 ->
  exists b s1 s2, exfs_alloc_block dev s = (Some b, s1) /\ exfs_free_block dev b s1 = (Some tt, s2) /\
    if b =? 0 then s1 = s /\ full (g := g) s
    else g_data g <= b < g_total g /\ bitmap_get (x_vol s) b = false /\ (forall c, g_data g <= c < b -> bitmap_get (x_vol s) c = true) /\
      ~ reserved (g := g) b /\ vol_ok s1 /\ kept s s1 /\ (forall c, 0 <= c -> bitmap_get (x_vol s1) c = (c =? b) || bitmap_get (x_vol s) c) /\
      vol_ok s2 /\ kept s s2 /\ forall c, 0 <= c -> bitmap_get (x_vol s2) c = bitmap_get (x_vol s) c.
Proof.
  intros G Vk Cr. destruct (alive_cwp _ s _ _ alive_alloc Cr (exfs_alloc_block_ok G s Vk)) as (b & s1 & E1 & C1 & [(-> & -> & Hf)|(R & Fr & Lo & Vk1 & K1 & B1)]).
  - pose proof (go_bitmap g G). pose proof (go_inodes g G). exists 0, s, s. split; [done|]. split; [|done]. unfold exfs_free_block, mbind, get. cbv zeta.
    pose proof (f_equal g_data (mo_geo s (vo_mounted s Vk))) as Ed. cbn in Ed. rewrite Ed. rewrite (proj2 (Z.ltb_lt 0 (g_data g))) by lia. done.
  - assert (Nr : ~ reserved (g := g) b) by (intros Hr; rewrite (vo_reserved s Vk b Hr) in Fr; done).
    destruct (alive_cwp _ s1 _ _ (alive_free b) C1 (exfs_free_block_ok G s1 b Vk1 Nr)) as ([] & s2 & E2 & _ & Vk2 & K2 & B2).
    exists b, s1, s2. split; [done|]. split; [done|]. pose proof (go_bitmap g G). pose proof (go_inodes g G). rewrite (proj2 (Z.eqb_neq b 0)) by lia.
    split; [done|]. split; [done|]. split; [done|]. split; [done|]. split; [done|]. split; [done|]. split; [done|]. split; [done|]. split.
    + destruct K1 as [P1 P2 P3], K2 as [Q1 Q2 Q3]. constructor; [|congruence|congruence]. intros c Hc Hn. rewrite Q1 by done. by apply P1.
    + intros c Hc. rewrite B2, B1 by done. destruct (Z.eqb_spec c b) as [->|]; [|done]. rewrite (proj2 (Z.leb_le _ _)), (proj2 (Z.ltb_lt _ _)) by lia. by rewrite Fr.
Qed.

End Properties.

(** ** A small volume *)

Module VolumeDemo.
Import Mapdisk.

(** 16 blocks: superblock 0, bitmap 1, inodes 2, data from 3 on, journal 10 to 12, provenance 13 to 15. *)
Definition sb : exfs_superblock := mk_sb EXFS_MAGIC 1 16 7 16 15 2 1 3 13 3 [] 10 3 1.
Definition bits : list Z := [7; 252] ++ replicate 510 0.
Definition bitmap : list Z := bits ++ replicate 3584 0.
Definition vol : exfs_volume := mk_vol sb bitmap 0 None 0 false 0 (replicate 16 0) (Some (replicate 16 [])).
Definition start : exfs (gmap Z (list Z)) := mk_exfs vol (<[8 := bits]> (Mapdisk.blank 128)) 0 audit_init.
Definition layout : geo := geo_of vol.

Abbreviation sectors := (fun (d : gmap Z (list Z)) (lba : Z) => d !! lba).

Lemma layout_ok : geo_ok layout.
Proof. by constructor; vm_compute; repeat split; first [discriminate|left; discriminate]. Qed.

Lemma start_sector l : 0 <= l < 128 -> is_Some (x_dev start !! l).
Proof.
  intros Hl. cbn [x_dev start]. destruct (decide (l = 8)) as [->|]; [by rewrite lookup_insert_eq|]. rewrite lookup_insert_ne by done.
  rewrite Mapdisk.blank_sector by done. done.
Qed.

Lemma start_ok : vol_ok (dev_ok := Mapdisk.map_ok) (sectors := sectors) (g := layout) start.
Proof.
  constructor; [constructor| | |].
  - constructor; [|done]. apply map_Forall_insert_2; [done|apply Mapdisk.blank_ok].
  - done.
  - intros c Hc k Hk. change (g_base layout) with 0. unfold on_volume in Hc. change (g_total layout) with 16 in Hc. apply start_sector. lia.
  - done.
  - split; [by eexists|done].
  - vm_compute. reflexivity.
  - vm_compute. reflexivity.
  - intros i Hi. change (g_nbitmap layout) with 1 in Hi. replace i with 0 by lia. vm_compute. reflexivity.
  - assert (F : Forall (fun c => bitmap_get vol c = true) (seqZ 10 6)) by (repeat constructor).
    intros c Hc. rewrite Forall_forall in F. apply F. apply elem_of_seqZ. unfold reserved in Hc. cbn in Hc. lia.
Qed.

Lemma exfs_alloc_free_witness :
  (geo_ok layout /\ vol_ok (dev_ok := Mapdisk.map_ok) (sectors := sectors) (g := layout) start /\ g_exfs_crash_point start = 0) /\
  exists b s1 s2, exfs_alloc_block Mapdisk.mapdisk start = (Some b, s1) /\ exfs_free_block Mapdisk.mapdisk b s1 = (Some tt, s2).
Proof.
  split; [split; [apply layout_ok|split; [apply start_ok|done]]|].
  destruct (exfs_alloc_free (dev := Mapdisk.mapdisk) (dev_ok := Mapdisk.map_ok) (sectors := sectors) (g := layout) start layout_ok start_ok eq_refl) as (b & s1 & s2 & E1 & E2 & _).
  exists b, s1, s2. split; [exact E1|exact E2].
Defined.

End VolumeDemo.
