(* ===== verification/ExfsData.v ===== *)
(** * ExFS: the contents of files

    The tree of blocks under an inode, the map from the blocks of a file to the
    blocks of the volume with and without allocation, and what reading and
    writing a file do to its contents and to the rest of the volume. *)

From S2P Require Import Prelude AuditRing Blake3 BlockDev Journal ExfsFile ExfsVolume.

(** ** The blocks of a file *)

(** What a block is to the file: its data block [fb], the indirect block, the
    double indirect block, or the pointer block [k] below that. *)
Inductive role := RData (fb : Z) | RInd | RDbl | RL1 (k : Z).
#[export] Instance role_eq_dec : EqDecision role.
Proof. solve_decision. Defined.

Definition MAX_BLOCKS : Z := EXFS_DIRECT_BLOCKS + EXFS_INDIRECT_PTRS + EXFS_INDIRECT_PTRS * EXFS_INDIRECT_PTRS.

Definition valid (r : role) : Prop :=
  match r with RData fb => 0 <= fb < MAX_BLOCKS | RL1 k => 0 <= k < EXFS_INDIRECT_PTRS | _ => True end.

(** Blocks that hold pointers. *)
Definition table (r : role) : bool := match r with RData _ => false | _ => true end.

(** The pointer block and the index where the number of the block stands; [None]: in the inode. *)
Definition parent (r : role) : option (role * Z) :=
  match r with
  | RInd | RDbl => None
  | RL1 k => Some (RDbl, k)
  | RData fb =>
      if fb <? EXFS_DIRECT_BLOCKS then None else
      if fb - EXFS_DIRECT_BLOCKS <? EXFS_INDIRECT_PTRS then Some (RInd, fb - EXFS_DIRECT_BLOCKS) else
      let n := fb - EXFS_DIRECT_BLOCKS - EXFS_INDIRECT_PTRS in Some (RL1 (n / EXFS_INDIRECT_PTRS), n mod EXFS_INDIRECT_PTRS)
  end.

(** Pointer [k] of the block [t], if there is one. *)
Definition entry (f : Z -> list Z) (t k : Z) : Z := if t =? 0 then 0 else ptr_at (f t) k.

(** The block of the volume that has the role; 0: none. *)
Definition loc (f : Z -> list Z) (i : exfs_inode) (r : role) : Z :=
  match r with
  | RInd => i_indirect i
  | RDbl => i_double_indirect i
  | RL1 k => entry f (i_double_indirect i) k
  | RData fb =>
      if fb <? EXFS_DIRECT_BLOCKS then (i_direct i).[fb] else
      if fb - EXFS_DIRECT_BLOCKS <? EXFS_INDIRECT_PTRS then entry f (i_indirect i) (fb - EXFS_DIRECT_BLOCKS) else
      let n := fb - EXFS_DIRECT_BLOCKS - EXFS_INDIRECT_PTRS in
      if n <? EXFS_INDIRECT_PTRS * EXFS_INDIRECT_PTRS then
        entry f (entry f (i_double_indirect i) (n / EXFS_INDIRECT_PTRS)) (n mod EXFS_INDIRECT_PTRS)
      else 0
  end.

Lemma parent_valid r p k : valid r -> parent r = Some (p, k) -> valid p /\ table p = true /\ 0 <= k < EXFS_INDIRECT_PTRS /\ p <> r.
Proof.
  destruct r as [fb| | |k']; cbn [parent valid]; intros Hv E; try done.
  - unfold MAX_BLOCKS, EXFS_DIRECT_BLOCKS, EXFS_INDIRECT_PTRS in *. destruct (Z.ltb_spec fb 12); [done|]. destruct (Z.ltb_spec (fb - 12) 512); injection E as <- <-; cbn.
    + split; [done|]. split; [done|]. split; [lia|done].
    + split; [unfold EXFS_INDIRECT_PTRS; Z.div_mod_to_equations; lia|]. split; [done|]. split; [Z.div_mod_to_equations; lia|done].
  - injection E as <- <-. done.
Qed.

Lemma parent_inj r r' p k : valid r -> valid r' -> parent r = Some (p, k) -> parent r' = Some (p, k) -> r = r'.
Proof.
  destruct r as [fb| | |j], r' as [fb'| | |j']; cbn [parent valid]; intros Hv Hv' E E'; try done; try congruence.
  - unfold MAX_BLOCKS, EXFS_DIRECT_BLOCKS, EXFS_INDIRECT_PTRS in *. f_equal.
    destruct (Z.ltb_spec fb 12), (Z.ltb_spec fb' 12); try done. destruct (Z.ltb_spec (fb - 12) 512), (Z.ltb_spec (fb' - 12) 512); rewrite <- E in E'; try discriminate; injection E'; intros; [lia|].
    Z.div_mod_to_equations. lia.
  - exfalso. destruct (fb <? _); [done|]. destruct (_ <? _); congruence.
  - exfalso. destruct (fb' <? _); [done|]. destruct (_ <? _); congruence.
Qed.

Lemma loc_child f i r p k : valid r -> parent r = Some (p, k) -> loc f i r = entry f (loc f i p) k.
Proof.
  destruct r as [fb| | |j]; cbn [parent valid]; intros Hv E; try done.
  - cbn [loc]. destruct (fb <? _); [done|]. destruct (_ <? _); injection E as <- <-; [done|]. cbn [loc].
    unfold MAX_BLOCKS in Hv. destruct (Z.ltb_spec (fb - EXFS_DIRECT_BLOCKS - EXFS_INDIRECT_PTRS) (EXFS_INDIRECT_PTRS * EXFS_INDIRECT_PTRS)); [done|lia].
  - by injection E as <- <-.
Qed.

(** Induction from the inode down. *)
Lemma role_down (P : role -> Prop) :
  (forall r, valid r -> (forall p k, parent r = Some (p, k) -> P p) -> P r) -> forall r, valid r -> P r.
Proof.
  intros H. assert (HI : P RInd) by (by apply H). assert (HD : P RDbl) by (by apply H).
  assert (HL : forall k, valid (RL1 k) -> P (RL1 k)) by (intros k Hk; apply H; [done|]; by intros p k' [= <- <-]).
  intros r Hr. apply H; [done|]. intros p k E. destruct (parent_valid r p k Hr E) as (Hp & Tp & _). destruct p as [fb| | |j]; [done|done|done|by apply HL].
Qed.

(** A block is added to a file: its number is stored where it belongs, and if it
    is to hold pointers they are 0. *)
Record added (f : Z -> list Z) (i : exfs_inode) (r : role) (nb : Z) (f' : Z -> list Z) (i' : exfs_inode) : Prop := {
  ad_valid : valid r;
  ad_hole : loc f i r = 0;
  ad_some : nb <> 0;
  ad_parent : forall p k, parent r = Some (p, k) -> loc f i p <> 0;
  ad_roots : forall r', valid r' -> parent r' = None -> loc f' i' r' = if decide (r' = r) then nb else loc f i r';
  ad_ptrs : forall p k, valid p -> table p = true -> p <> r -> loc f i p <> 0 -> 0 <= k < EXFS_INDIRECT_PTRS ->
    ptr_at (f' (loc f i p)) k = if decide (parent r = Some (p, k)) then nb else ptr_at (f (loc f i p)) k;
  ad_empty : forall k, table r = true -> 0 <= k < EXFS_INDIRECT_PTRS -> ptr_at (f' nb) k = 0
}.

Lemma loc_added f i r nb f' i' r' : added f i r nb f' i' -> valid r' -> loc f' i' r' = if decide (r' = r) then nb else loc f i r'.
Proof.
  intros [A1 A2 A3 A4 A5 A6 A7]. revert r'. apply role_down. intros r' Hr IH. destruct (parent r') as [[p k]|] eqn:E; [|by apply A5].
  destruct (parent_valid r' p k Hr E) as (Hp & Tp & Hk & Hn). rewrite (loc_child f' i' r' p k Hr E), (IH p k eq_refl).
  destruct (decide (p = r)) as [->|Hpr].
  - rewrite decide_False by (intros ->; destruct (parent_valid r r k A1 E) as (_ & _ & _ & ?); done).
    rewrite (loc_child f i r' r k Hr E), A2. unfold entry. rewrite Z.eqb_refl. destruct (Z.eqb_spec nb 0); [done|]. by apply A7.
  - destruct (decide (r' = r)) as [->|Hne].
    + unfold entry. pose proof (A4 p k E) as Hl. destruct (Z.eqb_spec (loc f i p) 0); [done|]. rewrite A6 by done. by rewrite decide_True.
    + rewrite (loc_child f i r' p k Hr E). unfold entry. destruct (Z.eqb_spec (loc f i p) 0) as [|Hl]; [done|]. rewrite A6 by done.
      rewrite decide_False; [done|]. intros E'. apply Hne. by eapply parent_inj.
Qed.

Lemma ptr_at_memcpy b k j x :
  zlen b = EXFS_BLOCK_SIZE -> 0 <= k < EXFS_INDIRECT_PTRS -> 0 <= j < EXFS_INDIRECT_PTRS -> 0 <= x < 2 ^ 64 ->
  ptr_at (memcpy b (8 * k) (le_bytes 8 x)) j = if decide (j = k) then x else ptr_at b j.
Proof.
  unfold EXFS_BLOCK_SIZE, EXFS_INDIRECT_PTRS, ptr_at. intros L Hk Hj Hx. destruct (decide (j = k)) as [->|].
  - rewrite le_at_memcpy_in by (rewrite ?zlen_le_bytes, ?length_le_bytes; lia). rewrite le_val_bytes. by apply Z.mod_small.
  - apply le_at_memcpy_out; rewrite ?zlen_le_bytes; lia.
Qed.

Lemma ptr_at_zero k : 0 <= k < EXFS_INDIRECT_PTRS -> ptr_at zero_block k = 0.
Proof.
  intros Hk. unfold ptr_at, le_at, zero_block, EXFS_INDIRECT_PTRS, EXFS_BLOCK_SIZE in *. rewrite drop_replicate, take_replicate.
  generalize (8 `min` (Z.to_nat 4096 - Z.to_nat (8 * k)))%nat. intros n. induction n as [|n IH]; [done|]. cbn. by rewrite IH.
Qed.

(** The inode without its pointers. *)
Definition sans (i : exfs_inode) : exfs_inode := set_direct [] (set_indirect 0 (set_double 0 i)).

Section Data.
Context {D : Type} {dev : block_device D} {dev_ok : D -> Prop} {sectors : D -> view} `{!Device dev dev_ok sectors}.
Context {g : geo} (G : geo_ok g).
#[local] Abbreviation St := (exfs D).
#[local] Abbreviation mounted := (mounted (dev_ok := dev_ok) (sectors := sectors) (g := g)).
#[local] Abbreviation upd := (upd (dev_ok := dev_ok) (sectors := sectors) (g := g)).
#[local] Abbreviation vol_ok := (vol_ok (dev_ok := dev_ok) (sectors := sectors) (g := g)).
#[local] Abbreviation B := (B (sectors := sectors) (g := g)).
#[local] Abbreviation tracked := (tracked (g := g)).
#[local] Abbreviation reserved := (reserved (g := g)).
#[local] Abbreviation full := (full (g := g)).
#[local] Abbreviation used s c := (bitmap_get (x_vol s) c = true).

(** Every block of the file is a data block in use, and has one role only. *)
Record file_ok (s : St) (i : exfs_inode) : Prop := {
  fk_direct : zlen (i_direct i) = EXFS_DIRECT_BLOCKS;
  fk_used : forall r, valid r -> loc (B s) i r <> 0 -> g_data g <= loc (B s) i r < g_total g /\ used s (loc (B s) i r) /\ ~ reserved (loc (B s) i r);
  fk_inj : forall r r', valid r -> valid r' -> loc (B s) i r <> 0 -> loc (B s) i r = loc (B s) i r' -> r = r'
}.

(** From [s] and [i] to [s'] and [i'] the file only gained blocks that were free,
    and blocks in use that are not of the file are as before. *)
Record grows (s : St) (i : exfs_inode) (s' : St) (i' : exfs_inode) : Prop := {
  gr_loc : forall r, valid r -> loc (B s) i r <> 0 -> loc (B s') i' r = loc (B s) i r;
  gr_new : forall r, valid r -> loc (B s) i r = 0 -> loc (B s') i' r <> 0 -> bitmap_get (x_vol s) (loc (B s') i' r) = false;
  gr_bits : forall c, 0 <= c -> used s c -> used s' c;
  gr_other : forall c, tracked c -> g_inodes g <= c -> c < g_data g \/ used s c -> (forall r, valid r -> loc (B s) i r <> c) -> B s' c = B s c;
  gr_crash : g_exfs_crash_point s' = g_exfs_crash_point s;
  gr_audit : x_audit s' = x_audit s;
  gr_sans : sans i' = sans i
}.

(** The data blocks the file had have the same contents. *)
Definition same_data (s : St) (i : exfs_inode) (s' : St) : Prop :=
  forall fb, valid (RData fb) -> loc (B s) i (RData fb) <> 0 -> B s' (loc (B s) i (RData fb)) = B s (loc (B s) i (RData fb)).

Lemma file_tracked s i r : file_ok s i -> valid r -> loc (B s) i r <> 0 -> tracked (loc (B s) i r).
Proof.
  intros F Hr Hl. destruct (fk_used s i F r Hr Hl) as (H1 & _ & H2). pose proof (go_bitmap g G). pose proof (go_inodes g G).
  unfold tracked, on_volume, reserved in *. lia.
Qed.

(** Locations depend on the pointer blocks only. *)
Lemma loc_ext f f' i r :
  (forall p, valid p -> table p = true -> loc f i p <> 0 -> f' (loc f i p) = f (loc f i p)) -> valid r -> loc f' i r = loc f i r.
Proof.
  intros E. revert r. apply role_down. intros r Hr IH. destruct (parent r) as [[p k]|] eqn:Ep.
  - destruct (parent_valid r p k Hr Ep) as (Hp & Tp & _). rewrite !(loc_child _ i r p k Hr Ep), (IH p k eq_refl). unfold entry.
    destruct (Z.eqb_spec (loc f i p) 0); [done|]. by rewrite E.
  - destruct r as [fb| | |j]; try done. cbn [parent loc] in *. by destruct (fb <? _); [|destruct (_ <? _)].
Qed.

(** A step that changes no block of the file and no bit. *)
Lemma quiet f s s' i :
  vol_ok s -> file_ok s i -> upd f s s' -> (forall c, g_bitmap g <= c < g_bitmap g + g_nbitmap g -> f c = B s c) ->
  (forall r, valid r -> table r = true -> loc (B s) i r <> 0 -> f (loc (B s) i r) = B s (loc (B s) i r)) ->
  vol_ok s' /\ file_ok s' i /\ forall r, valid r -> loc (B s') i r = loc (B s) i r.
Proof.
  intros Vk F U Hb Ht. split; [by eapply vol_ok_upd|].
  assert (E : forall r, valid r -> loc (B s') i r = loc (B s) i r).
  { intros r Hr. apply loc_ext; [|done]. intros p Hp Tp Hl. rewrite (up_blocks _ _ _ U) by (by apply file_tracked). by apply Ht. }
  split; [|done]. destruct F as [F1 F2 F3]. constructor; [done| |].
  - intros r Hr Hl. rewrite E in * by done. destruct (F2 r Hr Hl) as (A & C & K). split; [done|]. split; [|done].
    unfold bitmap_get. rewrite (up_bitmap _ _ _ U). exact C.
  - intros r r' Hr Hr' Hl El. rewrite E in Hl by done. rewrite !E in El by done. by apply F3.
Qed.

Lemma quiet_id s s' i :
  vol_ok s -> file_ok s i -> upd (B s) s s' -> vol_ok s' /\ file_ok s' i /\ grows s i s' i /\ same_data s i s'.
Proof.
  intros Vk F U. destruct (quiet (B s) s s' i) as (A & C & E); try done. split; [done|]. split; [done|]. split.
  - constructor; try apply U; try done.
    + intros r Hr _. by apply E.
    + intros r Hr H0 H1. by rewrite E in H1.
    + intros c Hc Hu. unfold bitmap_get. by rewrite (up_bitmap _ _ _ U).
    + intros c Hc _ _ _. by apply U.
  - intros fb Hr Hl. apply U. by apply file_tracked.
Qed.

Lemma grows_trans s i s1 i1 s2 i2 : file_ok s1 i1 -> file_ok s2 i2 -> grows s i s1 i1 -> grows s1 i1 s2 i2 -> grows s i s2 i2.
Proof.
  intros F1 F2 [A1 A2 A3 A4 A5 A6 A7] [C1 C2 C3 C4 C5 C6 C7]. pose proof (go_bitmap g G). pose proof (go_inodes g G).
  constructor; [| |auto| |congruence|congruence|congruence].
  - intros r Hr Hl. rewrite C1; [by apply A1|done|by rewrite A1].
  - intros r Hr E0 Hl. destruct (decide (loc (B s1) i1 r = 0)) as [E|E]; [|rewrite C1 in * by done; by apply A2].
    destruct (bitmap_get (x_vol s) (loc (B s2) i2 r)) eqn:Eb; [|done]. destruct (fk_used s2 i2 F2 r Hr Hl) as (R & _).
    rewrite <- (C2 r Hr E Hl). symmetry. apply A3; [lia|done].
  - intros c Hc Hi Hu Hn. rewrite <- (A4 c Hc Hi Hu Hn). apply C4; [done|done|destruct Hu as [|Hu]; [by left|right; apply A3; [unfold tracked, on_volume in Hc; lia|done]]|].
    intros r Hr Hl. destruct (decide (loc (B s) i r = 0)) as [E|E]; [|rewrite A1 in Hl by done; by apply (Hn r)].
    destruct (decide (loc (B s1) i1 r = 0)) as [E1|E1]; [lia|]. pose proof (A2 r Hr E E1) as Eb. destruct (fk_used s1 i1 F1 r Hr E1) as (R & _).
    rewrite Hl in *. destruct Hu; [lia|congruence].
Qed.

Lemma same_data_trans s i s1 i1 s2 : grows s i s1 i1 -> same_data s i s1 -> same_data s1 i1 s2 -> same_data s i s2.
Proof.
  intros Gr A C fb Hv Hl. rewrite <- (A fb Hv Hl). rewrite <- (gr_loc _ _ _ _ Gr (RData fb) Hv Hl). apply C; [done|]. by rewrite (gr_loc _ _ _ _ Gr).
Qed.

(** ** A new block *)

(** [s'] is [s] with block [nb] taken, and the blocks from the inode table on
    that are neither [nb] nor pointer blocks of the file as before. *)
Record took (s : St) (i : exfs_inode) (nb : Z) (s' : St) : Prop := {
  tk_vol : vol_ok s';
  tk_range : g_data g <= nb < g_total g;
  tk_free : bitmap_get (x_vol s) nb = false;
  tk_bits : forall c, 0 <= c -> bitmap_get (x_vol s') c = (c =? nb) || bitmap_get (x_vol s) c;
  tk_blocks : forall c, tracked c -> g_inodes g <= c -> c <> nb -> (forall p, valid p -> table p = true -> loc (B s) i p <> c) -> B s' c = B s c;
  tk_crash : g_exfs_crash_point s' = g_exfs_crash_point s;
  tk_audit : x_audit s' = x_audit s
}.

Lemma took_grows s i r nb s' i' :
  vol_ok s -> file_ok s i -> took s i nb s' -> added (B s) i r nb (B s') i' -> sans i' = sans i -> zlen (i_direct i') = EXFS_DIRECT_BLOCKS ->
  file_ok s' i' /\ grows s i s' i' /\ same_data s i s' /\ loc (B s') i' r = nb.
Proof.
  intros Vk F [T1 T2 T3 T4 T5 T6 T7] Ad Es Ld. pose proof (go_bitmap g G). pose proof (go_inodes g G).
  assert (E : forall r', valid r' -> loc (B s') i' r' = if decide (r' = r) then nb else loc (B s) i r') by (intros; by eapply loc_added).
  assert (Fresh : forall r', valid r' -> loc (B s) i r' <> nb).
  { intros r' Hr El. destruct (fk_used s i F r' Hr) as (_ & Hu & _); [lia|]. congruence. }
  assert (Nr : ~ reserved nb) by (intros Hr; rewrite (vo_reserved s Vk nb Hr) in T3; done).
  pose proof (ad_hole _ _ _ _ _ _ Ad) as Hh. pose proof (ad_valid _ _ _ _ _ _ Ad) as Hv.
  split; [|split; [|split; [|rewrite E by done; by rewrite decide_True]]].
  - constructor; [done| |].
    + intros r' Hr Hl. rewrite E in * by done. destruct (decide (r' = r)); [split; [done|]; split; [rewrite T4 by lia; by rewrite Z.eqb_refl|done]|].
      destruct (fk_used s i F r' Hr Hl) as (R & Hu & Hn). split; [done|]. split; [rewrite T4 by lia; rewrite Hu; apply orb_true_r|done].
    + intros r1 r2 H1 H2 Hl El. rewrite E in Hl by done. rewrite !E in El by done. destruct (decide (r1 = r)) as [->|], (decide (r2 = r)) as [->|]; try done.
      * by destruct (Fresh r2 H2).
      * by destruct (Fresh r1 H1).
      * by apply (fk_inj s i F).
  - constructor; try done.
    + intros r' Hr Hl. rewrite E by done. destruct (decide (r' = r)) as [->|]; [congruence|done].
    + intros r' Hr E0 Hl. rewrite E in * by done. destruct (decide (r' = r)); [done|congruence].
    + intros c Hc Hu. rewrite T4, Hu by done. apply orb_true_r.
    + intros c Hc Hi Hu Hn. apply T5; [done|done| |by auto]. intros ->. destruct Hu; [lia|congruence].
  - intros fb Hr Hl. apply T5; [by apply file_tracked|destruct (fk_used s i F (RData fb) Hr Hl); lia|by apply Fresh|].
    intros p Hp Tp El. assert (p = RData fb) by (apply (fk_inj s i F); [done|done|congruence|done]). by subst.
Qed.

Lemma meta_write_ok c data s :
  mounted s -> tracked c -> zlen data = EXFS_BLOCK_SIZE ->
  cwp (exfs_meta_write_block dev c data) s (fun ok s' => ok = true /\ upd (set_block c data (B s)) s s') (fun _ => True).
Proof. intros M Hc L. unfold exfs_meta_write_block. apply cwp_bind, cwp_get. rewrite (mo_idle s M). eapply cwp_mono; [by apply (write_block_ok G)|done|done]. Qed.

Lemma took_upd f s i nb s1 s' :
  took s i nb s1 -> upd f s1 s' -> (forall c, g_bitmap g <= c < g_bitmap g + g_nbitmap g -> f c = B s1 c) ->
  (forall c, tracked c -> g_inodes g <= c -> c <> nb -> (forall p, valid p -> table p = true -> loc (B s) i p <> c) -> f c = B s1 c) -> took s i nb s'.
Proof.
  intros [T1 T2 T3 T4 T5 T6 T7] U Hb Hf. constructor; [by eapply vol_ok_upd|done|done| | | |].
  - intros c Hc. rewrite <- T4 by done. unfold bitmap_get. by rewrite (up_bitmap _ _ _ U).
  - intros c Hc Hi Hn Ht. rewrite (up_blocks _ _ _ U) by done. rewrite Hf by done. by apply T5.
  - rewrite (up_crash _ _ _ U). done.
  - rewrite (up_audit _ _ _ U). done.
Qed.

(** The other blocks are as before. *)
Definition beside (s : St) (nb : Z) (s' : St) : Prop := forall c, tracked c -> g_inodes g <= c -> c <> nb -> B s' c = B s c.

Lemma alloc_took s i :
  vol_ok s ->
  cwp (exfs_alloc_block dev) s (fun nb s' => (nb = 0 /\ s' = s /\ full s) \/ (nb <> 0 /\ took s i nb s' /\ beside s nb s')) (fun _ => True).
Proof.
  intros Vk. pose proof (go_bitmap g G). pose proof (go_inodes g G). eapply cwp_mono; [by apply (exfs_alloc_block_ok G)| |done].
  intros nb s' [?|(R & Fr & _ & Vk' & [K1 K2 K3] & Bits)]; [by left|right]. split; [lia|]. split; [|intros c Hc Hi _; apply K1; [done|lia]].
  constructor; try done. intros c Hc Hi _ _. apply K1; [done|lia].
Qed.

Lemma took_tracked s i nb s' : vol_ok s -> took s i nb s' -> tracked nb.
Proof.
  intros Vk T. pose proof (tk_range _ _ _ _ T). pose proof (go_bitmap g G). pose proof (go_inodes g G).
  assert (~ reserved nb) by (intros Hr; pose proof (tk_free _ _ _ _ T); rewrite (vo_reserved s Vk nb Hr) in *; done).
  unfold tracked, on_volume, reserved in *. lia.
Qed.

Lemma zero_took s i nb s1 (z : bool) :
  vol_ok s -> took s i nb s1 -> beside s nb s1 ->
  cwp (if z then exfs_meta_write_block dev nb zero_block else mret true) s1
    (fun _ s' => took s i nb s' /\ beside s nb s' /\ (z = true -> B s' nb = zero_block)) (fun _ => True).
Proof.
  intros Vk T Bs. destruct z; [|by apply cwp_ret]. pose proof (took_tracked _ _ _ _ Vk T) as Ht. pose proof (tk_range _ _ _ _ T). pose proof (go_bitmap g G). pose proof (go_inodes g G).
  eapply cwp_mono; [apply meta_write_ok; [apply (vo_mounted _ (tk_vol _ _ _ _ T))|done|apply zlen_zero_block]| |done]. intros ok s' (_ & U). split; [|split].
  - eapply took_upd; [exact T|exact U| |]; intros c Hc; intros; unfold set_block; destruct (Z.eqb_spec c nb); done || lia.
  - intros c Hc Hi Hn. rewrite (up_blocks _ _ _ U) by done. unfold set_block. destruct (Z.eqb_spec c nb); [done|]. by apply Bs.
  - intros _. rewrite (up_blocks _ _ _ U) by done. unfold set_block. by rewrite Z.eqb_refl.
Qed.

(** ** Resolving with allocation *)

Definition evolved (s : St) (i : exfs_inode) (s' : St) (i' : exfs_inode) : Prop :=
  vol_ok s' /\ file_ok s' i' /\ grows s i s' i' /\ same_data s i s'.

Lemma evolved_trans s i s1 i1 s2 i2 : evolved s i s1 i1 -> evolved s1 i1 s2 i2 -> evolved s i s2 i2.
Proof.
  intros (A1 & A2 & A3 & A4) (C1 & C2 & C3 & C4). split; [done|]. split; [done|]. split; [by apply (grows_trans s i s1 i1)|by apply (same_data_trans s i s1 i1)].
Qed.

(** The block of the role was found or made, or the volume is full. *)
Definition resolved (s : St) (i : exfs_inode) (r : role) (b : Z) (s' : St) (i' : exfs_inode) : Prop :=
  evolved s i s' i' /\ b = loc (B s') i' r /\ (b = 0 -> full s').

Lemma resolved_same s i r b s' :
  vol_ok s -> file_ok s i -> upd (B s) s s' -> valid r -> b = loc (B s) i r -> (b = 0 -> full s) -> resolved s i r b s' i.
Proof.
  intros Vk F U Hv -> Hf. split; [by apply quiet_id|].
  destruct (quiet (B s) s s' i Vk F U) as (_ & _ & El); [done|done|]. split; [symmetry; by apply El|]. intros Hz c Hc.
  unfold bitmap_get. rewrite (up_bitmap _ _ _ U). by apply Hf.
Qed.

Lemma entry_read s t k zeroed :
  mounted s -> tracked t -> cwp (resolve_entry dev t k false zeroed) s (fun b s' => b = ptr_at (B s t) k /\ upd (B s) s s') (fun _ => False).
Proof.
  intros M Ht. unfold resolve_entry. apply cwp_bind. eapply cwp_mono; [apply (read_block_ok G); [done|apply Ht|apply zlen_zero_block]| |done].
  intros r s' (-> & U). cbn [fst snd negb]. destruct (Z.eqb_spec (ptr_at (B s t) k) 0) as [->|]; cbn [negb]; by apply cwp_ret.
Qed.

(** A block of the file is not the one that was free. *)
Lemma took_fresh s i nb s' r : file_ok s i -> took s i nb s' -> valid r -> loc (B s) i r <> 0 -> loc (B s) i r <> nb.
Proof. intros F T Hr Hl E. destruct (fk_used s i F r Hr Hl) as (_ & Hu & _). pose proof (tk_free _ _ _ _ T). congruence. Qed.

(** The number of the new block goes into the pointer block. *)
Lemma added_entry s i r p k nb s3 s4 :
  vol_ok s -> file_ok s i -> valid r -> parent r = Some (p, k) -> loc (B s) i p <> 0 -> loc (B s) i r = 0 ->
  took s i nb s3 -> beside s nb s3 -> (table r = true -> B s3 nb = zero_block) ->
  upd (set_block (loc (B s) i p) (memcpy (B s (loc (B s) i p)) (8 * k) (le_bytes 8 nb)) (B s3)) s3 s4 -> added (B s) i r nb (B s4) i.
Proof.
  intros Vk F Hr Ep Hl Hz T Bs Z3 U. destruct (parent_valid r p k Hr Ep) as (Hp & Tp & Hk & Hn). pose proof (file_tracked s i p F Hp Hl) as Ht.
  pose proof (tk_range _ _ _ _ T). pose proof (go_base g G). pose proof (go_inodes g G). pose proof (go_bitmap g G).
  constructor; [done|done|lia| | | |].
  - intros p' k' E'. rewrite Ep in E'. by injection E' as <- <-.
  - intros r' Hr' E'. rewrite decide_False by congruence. destruct r' as [fb| | |j]; try done. cbn [parent loc] in *. by destruct (fb <? _); [|destruct (_ <? _)].
  - intros p' j Hp' Tp' Hn' Hl' Hj. pose proof (file_tracked s i p' F Hp' Hl') as Ht'. destruct (fk_used s i F p' Hp' Hl') as (Rp' & _).
    rewrite (up_blocks _ _ _ U) by done. unfold set_block. destruct (Z.eqb_spec (loc (B s) i p') (loc (B s) i p)) as [Eq|Nq].
    + assert (p' = p) as -> by (by apply (fk_inj s i F)). rewrite ptr_at_memcpy; [|apply (B_len s); [apply Vk|apply Ht]|done|done|lia]. rewrite Ep.
      destruct (decide (j = k)) as [->|]; [by rewrite decide_True|rewrite decide_False; [done|congruence]].
    + rewrite decide_False by (rewrite Ep; congruence). rewrite Bs; [done|done|lia|by eapply took_fresh].
  - intros j Tr Hj. rewrite (up_blocks _ _ _ U) by (by apply (took_tracked s i nb s3)). unfold set_block.
    rewrite (proj2 (Z.eqb_neq _ _)) by (apply not_eq_sym; by eapply took_fresh). rewrite Z3 by done. by apply ptr_at_zero.
Qed.

Lemma entry_add s i r p k :
  vol_ok s -> file_ok s i -> valid r -> parent r = Some (p, k) -> loc (B s) i p <> 0 -> loc (B s) i r = 0 ->
  cwp (nb <-- exfs_alloc_block dev ;;
       if nb =? 0 then mret 0 else
       _ <-- (if table r then exfs_meta_write_block dev nb zero_block else mret true) ;;
       _ <-- exfs_meta_write_block dev (loc (B s) i p) (memcpy (B s (loc (B s) i p)) (8 * k) (le_bytes 8 nb)) ;;
       mret nb) s (fun b s' => resolved s i r b s' i) (fun _ => True).
Proof.
  intros Vk F Hr Ep Hl Hz. destruct (parent_valid r p k Hr Ep) as (Hp & Tp & Hk & Hn). pose proof (file_tracked s i p F Hp Hl) as Ht.
  apply cwp_bind. eapply cwp_mono; [by apply (alloc_took s i)| |done]. intros nb s2 [(-> & -> & Hf)|(Hnb & T2 & Bs2)].
  { apply cwp_ret. apply resolved_same; try done. apply upd_refl, Vk. }
  rewrite (proj2 (Z.eqb_neq _ _) Hnb). apply cwp_bind. eapply cwp_mono; [by apply (zero_took s i nb s2 (table r))| |done].
  intros ok s3 (T3 & Bs3 & Z3). apply cwp_bind. destruct (fk_used s i F p Hp Hl) as (Rp & _). pose proof (go_inodes g G). pose proof (go_bitmap g G).
  assert (Lb : zlen (B s (loc (B s) i p)) = EXFS_BLOCK_SIZE) by (apply (B_len s); [apply Vk|apply Ht]).
  eapply cwp_mono; [apply meta_write_ok; [apply (vo_mounted _ (tk_vol _ _ _ _ T3))|done|]| |done].
  { rewrite zlen_memcpy; rewrite ?zlen_le_bytes, ?Lb; unfold EXFS_BLOCK_SIZE, EXFS_INDIRECT_PTRS in *; lia. }
  intros ok2 s4 (_ & U4). apply cwp_ret.
  assert (T4 : took s i nb s4).
  { eapply took_upd; [exact T3|exact U4| |]; unfold set_block.
    - intros c Hc. rewrite (proj2 (Z.eqb_neq _ _)) by lia. done.
    - intros c Hc Hi _ Hnp. rewrite (proj2 (Z.eqb_neq _ _)); [done|]. intros ->. by apply (Hnp p). }
  destruct (took_grows s i r nb s4 i Vk F T4) as (F4 & G4 & S4 & L4); [by apply (added_entry s i r p k nb s3 s4)|done|apply F|].
  split; [split; [apply T4|done]|]. split; [done|lia].
Qed.

Lemma entry_alloc s i r p k :
  vol_ok s -> file_ok s i -> valid r -> parent r = Some (p, k) -> loc (B s) i p <> 0 ->
  cwp (resolve_entry dev (loc (B s) i p) k true (table r)) s (fun b s' => resolved s i r b s' i) (fun _ => True).
Proof.
  intros Vk F Hr Ep Hl. destruct (parent_valid r p k Hr Ep) as (Hp & Tp & Hk & Hn). pose proof (file_tracked s i p F Hp Hl) as Ht.
  pose proof (loc_child (B s) i r p k Hr Ep) as El. unfold entry in El. rewrite (proj2 (Z.eqb_neq _ _) Hl) in El.
  unfold resolve_entry. apply cwp_bind. eapply cwp_mono; [apply (read_block_ok G); [apply Vk|apply Ht|apply zlen_zero_block]| |done].
  intros x s1 (-> & U1). cbn [fst snd]. rewrite <- El. destruct (Z.eqb_spec (loc (B s) i r) 0) as [E0|]; cbn [negb]; [|by apply cwp_ret, resolved_same].
  pose proof (quiet_id s s1 i Vk F U1) as Ev. destruct (quiet (B s) s s1 i Vk F U1) as (Vk1 & F1 & El1); [done|done|].
  rewrite <- (up_blocks _ _ _ U1) by done. rewrite <- (El1 p Hp) in Hl |- *. rewrite <- (El1 r Hr) in E0.
  eapply cwp_mono; [by apply (entry_add s1 i r p k)| |done]. intros b s' (Ev' & Eb & Hf). split; [by eapply evolved_trans|done].
Qed.

(** The number of the new block goes into the inode. *)
Definition set_root (r : role) (b : Z) (i : exfs_inode) : exfs_inode :=
  match r with
  | RInd => set_indirect b i
  | RDbl => set_double b i
  | RData fb => set_direct (i_direct i).[fb <- b] i
  | RL1 _ => i
  end.

Lemma added_root s i r nb s3 :
  file_ok s i -> valid r -> parent r = None -> loc (B s) i r = 0 -> took s i nb s3 -> beside s nb s3 -> (table r = true -> B s3 nb = zero_block) ->
  added (B s) i r nb (B s3) (set_root r nb i).
Proof.
  intros F Hr Ep Hz T Bs Z3. pose proof (tk_range _ _ _ _ T). pose proof (go_inodes g G). pose proof (go_bitmap g G).
  constructor; [done|done|lia| | | |].
  - intros p k E. congruence.
  - pose proof (fk_direct s i F) as Ld. intros r' Hr' E'. destruct r as [fb| | |j], r' as [fb'| | |j']; try done; cbn [parent loc set_root i_direct i_indirect i_double_indirect set_direct set_indirect set_double] in *.
    all: try (destruct (Z.ltb_spec fb EXFS_DIRECT_BLOCKS); [|by destruct (_ <? _)]); try (destruct (Z.ltb_spec fb' EXFS_DIRECT_BLOCKS); [|by destruct (_ <? _)]); try done.
    cbn [valid] in *. destruct (decide (fb' = fb)) as [->|].
    + rewrite decide_True by done. apply zget_zset_eq. lia.
    + rewrite decide_False by congruence. apply zget_zset_ne; lia.
  - intros p k Hp Tp Hn Hl Hk. rewrite decide_False by congruence. destruct (fk_used s i F p Hp Hl) as (Rp & _).
    rewrite Bs; [done|by apply file_tracked|lia|by eapply took_fresh].
  - intros k Tr Hk. rewrite Z3 by done. by apply ptr_at_zero.
Qed.

Lemma root_took s i r nb s3 :
  vol_ok s -> file_ok s i -> valid r -> parent r = None -> loc (B s) i r = 0 -> took s i nb s3 -> beside s nb s3 -> (table r = true -> B s3 nb = zero_block) ->
  resolved s i r nb s3 (set_root r nb i).
Proof.
  intros Vk F Hr Ep Hz T Bs Z3. pose proof (tk_range _ _ _ _ T). pose proof (go_inodes g G). pose proof (go_bitmap g G).
  destruct (took_grows s i r nb s3 (set_root r nb i) Vk F T) as (F4 & G4 & S4 & L4).
  - by apply added_root.
  - by destruct r.
  - pose proof (fk_direct s i F). destruct r; try done. cbn [set_root set_direct i_direct]. by rewrite zlen_zset.
  - split; [split; [apply T|done]|]. split; [done|lia].
Qed.

Lemma table_alloc s i r :
  vol_ok s -> file_ok s i -> r = RInd \/ r = RDbl ->
  cwp (resolve_table dev (loc (B s) i r) true) s
    (fun b s' => resolved s i r b s' (if b =? 0 then i else set_root r b i) /\ (loc (B s) i r <> 0 -> b = loc (B s) i r)) (fun _ => True).
Proof.
  intros Vk F Hr. assert (Hv : valid r /\ parent r = None /\ table r = true) by (by destruct Hr as [->| ->]). destruct Hv as (Hv & Ep & Tr).
  unfold resolve_table. destruct (Z.eqb_spec (loc (B s) i r) 0) as [Hz|Hz]; cbn [negb].
  - apply cwp_bind. eapply cwp_mono; [by apply (alloc_took s i)| |done]. intros nb s2 [(-> & -> & Hf)|(Hnb & T2 & Bs2)].
    { apply cwp_ret. split; [|done]. apply resolved_same; try done. apply upd_refl, Vk. }
    rewrite (proj2 (Z.eqb_neq _ _) Hnb). apply cwp_bind. eapply cwp_mono; [by apply (zero_took s i nb s2 true)| |done].
    intros ok s3 (T3 & Bs3 & Z3). apply cwp_ret. rewrite (proj2 (Z.eqb_neq _ _) Hnb). split; [|done]. apply root_took; try done. intros _. by apply Z3.
  - apply cwp_ret. rewrite (proj2 (Z.eqb_neq _ _) Hz). split; [|done]. replace (set_root r (loc (B s) i r) i) with i by (by destruct Hr as [->| ->]; destruct i).
    apply resolved_same; try done. apply upd_refl, Vk.
Qed.

Lemma direct_alloc s i fb :
  vol_ok s -> file_ok s i -> valid (RData fb) -> fb < EXFS_DIRECT_BLOCKS ->
  cwp (exfs_resolve_block dev i fb true) s (fun x s' => resolved s i (RData fb) x.1.1 s' x.1.2 /\ (x.2 = false -> x.1.2 = i)) (fun _ => True).
Proof.
  intros Vk F Hv Hd. unfold exfs_resolve_block. rewrite (proj2 (Z.ltb_lt _ _) Hd).
  assert (El : loc (B s) i (RData fb) = (i_direct i).[fb]) by (cbn [loc]; by rewrite (proj2 (Z.ltb_lt _ _) Hd)). cbv zeta. rewrite <- El.
  destruct (Z.eqb_spec (loc (B s) i (RData fb)) 0) as [Hz|Hz]; cbn [negb].
  - apply cwp_bind. eapply cwp_mono; [by apply (alloc_took s i)| |done]. intros nb s2 [(-> & -> & Hf)|(Hnb & T2 & Bs2)].
    { apply cwp_ret. split; [|done]. apply resolved_same; try done. apply upd_refl, Vk. }
    rewrite (proj2 (Z.eqb_neq _ _) Hnb). apply cwp_ret. split; [|done]. apply (root_took s i (RData fb)); try done.
    cbn [parent]. by rewrite (proj2 (Z.ltb_lt _ _) Hd).
  - apply cwp_ret. split; [|done]. apply resolved_same; try done. apply upd_refl, Vk.
Qed.

Lemma resolve_alloc s i fb :
  vol_ok s -> file_ok s i -> valid (RData fb) ->
  cwp (exfs_resolve_block dev i fb true) s (fun x s' => resolved s i (RData fb) x.1.1 s' x.1.2 /\ (x.2 = false -> x.1.2 = i)) (fun _ => True).
Proof.
  intros Vk F Hv. destruct (Z.ltb_spec fb EXFS_DIRECT_BLOCKS) as [Hd|Hd]; [by apply direct_alloc|]. unfold exfs_resolve_block.
  rewrite (proj2 (Z.ltb_ge _ _) Hd). cbv zeta. set (n := fb - EXFS_DIRECT_BLOCKS - EXFS_INDIRECT_PTRS).
  assert (Ep : parent (RData fb) = if fb - EXFS_DIRECT_BLOCKS <? EXFS_INDIRECT_PTRS then Some (RInd, fb - EXFS_DIRECT_BLOCKS) else Some (RL1 (n / EXFS_INDIRECT_PTRS), n mod EXFS_INDIRECT_PTRS)).
  { cbn [parent]. by rewrite (proj2 (Z.ltb_ge _ _) Hd). }
  destruct (Z.ltb_spec (fb - EXFS_DIRECT_BLOCKS) EXFS_INDIRECT_PTRS) as [Hi|Hi].
  - apply cwp_bind. eapply cwp_mono; [apply (table_alloc s i RInd Vk F); by left|intros t s1 [(Ev & El & Hf) Ek]|done]. cbn [loc] in Ek.
    assert (Ei : t <> 0 -> (i_indirect i =? 0) = false -> set_indirect t i = i).
    { intros Ht E0. apply Z.eqb_neq in E0. rewrite (Ek E0). by destruct i. }
    destruct (Z.eqb_spec t 0) as [->|Ht].
    { apply cwp_ret. split; [|done]. split; [done|]. split; [|done]. cbn [fst snd]. rewrite (loc_child _ _ _ _ _ Hv Ep), <- El. done. }
    apply cwp_bind. change (set_root RInd t i) with (set_indirect t i) in *. destruct Ev as (Vk1 & F1 & Ev). rewrite El at 1.
    eapply cwp_mono; [apply (entry_alloc s1 _ (RData fb) RInd _ Vk1 F1 Hv Ep); by rewrite <- El| |done].
    intros b s2 (Ev2 & Eb & Hf2). apply cwp_ret. split; [|by apply Ei]. split; [eapply evolved_trans; [|exact Ev2]; done|done].
  - assert (Hn : n < EXFS_INDIRECT_PTRS * EXFS_INDIRECT_PTRS) by (cbn [valid] in Hv; unfold MAX_BLOCKS in Hv; lia). rewrite (proj2 (Z.ltb_lt _ _) Hn).
    destruct (parent_valid _ _ _ Hv Ep) as (Hv1 & _).
    apply cwp_bind. eapply cwp_mono; [apply (table_alloc s i RDbl Vk F); by right|intros t s1 [(Ev & El & Hf) Ek]|done]. cbn [loc] in Ek.
    assert (Ei : t <> 0 -> (i_double_indirect i =? 0) = false -> set_double t i = i).
    { intros Ht E0. apply Z.eqb_neq in E0. rewrite (Ek E0). by destruct i. }
    assert (Lz : forall f j, loc f j (RL1 (n / EXFS_INDIRECT_PTRS)) = 0 -> 0 = loc f j (RData fb)).
    { intros f j E. by rewrite (loc_child _ _ _ _ _ Hv Ep), E. }
    destruct (Z.eqb_spec t 0) as [->|Ht].
    { apply cwp_ret. split; [|done]. split; [done|]. split; [|done]. apply Lz. cbn [fst snd]. rewrite (loc_child _ _ (RL1 _) RDbl _ Hv1 eq_refl), <- El. done. }
    apply cwp_bind. change (set_root RDbl t i) with (set_double t i) in *. destruct Ev as (Vk1 & F1 & Ev). rewrite El at 1.
    eapply cwp_mono; [apply (entry_alloc s1 _ (RL1 (n / EXFS_INDIRECT_PTRS)) RDbl _ Vk1 F1 Hv1 eq_refl); by rewrite <- El| |done].
    intros l1 s2 (Ev2 & El2 & Hf2). assert (Ev' : evolved s i s2 (set_double t i)) by (eapply evolved_trans; [|exact Ev2]; done).
    destruct (Z.eqb_spec l1 0) as [->|Hl1].
    { apply cwp_ret. split; [|by apply Ei]. split; [done|]. split; [by apply Lz|done]. }
    apply cwp_bind. destruct Ev2 as (Vk2 & F2 & Ev2). rewrite El2 at 1.
    eapply cwp_mono; [apply (entry_alloc s2 _ (RData fb) _ _ Vk2 F2 Hv Ep); by rewrite <- El2| |done].
    intros b s3 (Ev3 & Eb & Hf3). apply cwp_ret. split; [|by apply Ei]. split; [eapply evolved_trans; [exact Ev'|exact Ev3]|done].
Qed.

(** ** Resolving without allocation *)

Lemma child_read s i r p k zeroed :
  vol_ok s -> file_ok s i -> valid r -> parent r = Some (p, k) -> loc (B s) i p <> 0 ->
  cwp (resolve_entry dev (loc (B s) i p) k false zeroed) s (fun b s' => b = loc (B s) i r /\ upd (B s) s s') (fun _ => False).
Proof.
  intros Vk F Hr Ep Hl. destruct (parent_valid r p k Hr Ep) as (Hp & _). rewrite (loc_child _ _ _ _ _ Hr Ep). unfold entry.
  rewrite (proj2 (Z.eqb_neq _ _) Hl). apply entry_read; [apply Vk|by apply file_tracked].
Qed.

Lemma resolve_read s i fb :
  vol_ok s -> file_ok s i -> 0 <= fb ->
  cwp (exfs_resolve_block dev i fb false) s (fun x s' => x.1.1 = loc (B s) i (RData fb) /\ upd (B s) s s') (fun _ => False).
Proof.
  intros Vk F H0. pose proof (upd_refl s (vo_mounted s Vk)) as U0. unfold exfs_resolve_block, resolve_table. destruct (Z.ltb_spec fb EXFS_DIRECT_BLOCKS) as [Hd|Hd].
  { cbn [loc]. rewrite (proj2 (Z.ltb_lt _ _) Hd). cbv zeta. destruct (Z.eqb_spec (i_direct i).[fb] 0) as [->|]; by apply cwp_ret. }
  cbv zeta. set (n := fb - EXFS_DIRECT_BLOCKS - EXFS_INDIRECT_PTRS).
  destruct (Z.ltb_spec (fb - EXFS_DIRECT_BLOCKS) EXFS_INDIRECT_PTRS) as [Hi|Hi].
  - assert (Hv : valid (RData fb)) by (cbn [valid]; unfold MAX_BLOCKS, EXFS_INDIRECT_PTRS in *; lia).
    assert (Ep : parent (RData fb) = Some (RInd, fb - EXFS_DIRECT_BLOCKS)) by (cbn [parent]; by rewrite (proj2 (Z.ltb_ge _ _) Hd), (proj2 (Z.ltb_lt _ _) Hi)).
    apply cwp_bind. destruct (Z.eqb_spec (i_indirect i) 0) as [E|E]; cbn [negb]; apply cwp_ret.
    { change (0 =? 0) with true. cbv iota. apply cwp_ret. split; [|done]. rewrite (loc_child _ _ _ _ _ Hv Ep). cbn [loc]. by rewrite E. }
    rewrite (proj2 (Z.eqb_neq _ _) E). apply cwp_bind. eapply cwp_mono; [by apply (child_read s i (RData fb) RInd)| |done].
    intros b s' (-> & U). by apply cwp_ret.
  - destruct (Z.ltb_spec n (EXFS_INDIRECT_PTRS * EXFS_INDIRECT_PTRS)) as [Hn|Hn].
    2: { apply cwp_ret. split; [|done]. cbn [loc]. cbv zeta. fold n. by rewrite (proj2 (Z.ltb_ge _ _) Hd), (proj2 (Z.ltb_ge _ _) Hi), (proj2 (Z.ltb_ge _ _) Hn). }
    assert (Hv : valid (RData fb)) by (cbn [valid]; unfold MAX_BLOCKS in *; lia).
    assert (Ep : parent (RData fb) = Some (RL1 (n / EXFS_INDIRECT_PTRS), n mod EXFS_INDIRECT_PTRS)) by (cbn [parent]; by rewrite (proj2 (Z.ltb_ge _ _) Hd), (proj2 (Z.ltb_ge _ _) Hi)).
    destruct (parent_valid _ _ _ Hv Ep) as (Hv1 & _).
    apply cwp_bind. destruct (Z.eqb_spec (i_double_indirect i) 0) as [E|E]; cbn [negb]; apply cwp_ret.
    { change (0 =? 0) with true. cbv iota. apply cwp_ret. split; [|done]. rewrite (loc_child _ _ _ _ _ Hv Ep), (loc_child _ _ _ _ _ Hv1 eq_refl). cbn [loc]. by rewrite E. }
    rewrite (proj2 (Z.eqb_neq _ _) E). apply cwp_bind. eapply cwp_mono; [by apply (child_read s i (RL1 (n / EXFS_INDIRECT_PTRS)) RDbl)| |done].
    intros l1 s1 (El & U1). destruct (Z.eqb_spec l1 0) as [->|Hl1].
    { apply cwp_ret. split; [|done]. rewrite (loc_child _ _ _ _ _ Hv Ep), <- El. done. }
    destruct (quiet (B s) s s1 i Vk F U1) as (Vk1 & F1 & El1); [done|done|]. rewrite <- El1 in El |- * by done.
    apply cwp_bind. rewrite El at 1. eapply cwp_mono; [apply (child_read s1 i (RData fb) (RL1 (n / EXFS_INDIRECT_PTRS))); [done|done|done|done|by rewrite <- El]| |done].
    intros b s2 (-> & U2). apply cwp_ret. split; [done|]. eapply upd_ext; [|eapply upd_trans; [exact U1|exact U2]]. intros c Hc. by apply U1.
Qed.

(** ** Contents *)

(** The byte at [pos]; [None] in a hole. *)
Definition byte_of (s : St) (i : exfs_inode) (pos : Z) : option Z :=
  let b := loc (B s) i (RData (pos / EXFS_BLOCK_SIZE)) in if b =? 0 then None else Some (B s b).[pos mod EXFS_BLOCK_SIZE].

(** Bytes a file can hold. *)
Definition MAX_BYTES : Z := MAX_BLOCKS * EXFS_BLOCK_SIZE.

Lemma pos_valid pos : 0 <= pos < MAX_BYTES -> valid (RData (pos / EXFS_BLOCK_SIZE)).
Proof. unfold MAX_BYTES, EXFS_BLOCK_SIZE. intros H. cbn [valid]. Z.div_mod_to_equations. lia. Qed.

Lemma evolved_bytes s i s' i' pos x : evolved s i s' i' -> 0 <= pos < MAX_BYTES -> byte_of s i pos = Some x -> byte_of s' i' pos = Some x.
Proof.
  intros (_ & _ & Gr & Sd) Hp E. pose proof (pos_valid pos Hp) as Hv. unfold byte_of in *.
  destruct (Z.eqb_spec (loc (B s) i (RData (pos / EXFS_BLOCK_SIZE))) 0) as [|Hl]; [done|]. rewrite (gr_loc _ _ _ _ Gr) by done.
  rewrite (proj2 (Z.eqb_neq _ _) Hl). by rewrite Sd.
Qed.

(** ** Writing *)

Lemma resolve_big i fb alloc : MAX_BLOCKS <= fb -> exfs_resolve_block dev i fb alloc = mret (0, i, false).
Proof.
  intros H. unfold exfs_resolve_block, MAX_BLOCKS in *. rewrite !(proj2 (Z.ltb_ge _ _)); [done| | |]; unfold EXFS_DIRECT_BLOCKS, EXFS_INDIRECT_PTRS in *; lia.
Qed.

(** Writing data block [fb] changes that block of the file only. *)
Lemma data_write s i fb data :
  vol_ok s -> file_ok s i -> valid (RData fb) -> loc (B s) i (RData fb) <> 0 -> zlen data = EXFS_BLOCK_SIZE ->
  cwp (exfs_write_block dev (loc (B s) i (RData fb)) data) s
    (fun ok s' => ok = true /\ vol_ok s' /\ file_ok s' i /\ grows s i s' i /\ (forall r, valid r -> loc (B s') i r = loc (B s) i r) /\
       forall fb', valid (RData fb') -> loc (B s) i (RData fb') <> 0 ->
         B s' (loc (B s) i (RData fb')) = if decide (fb' = fb) then data else B s (loc (B s) i (RData fb'))) (fun _ => True).
Proof.
  intros Vk F Hv Hl L. set (b := loc (B s) i (RData fb)) in *. pose proof (file_tracked s i _ F Hv Hl) as Ht. destruct (fk_used s i F _ Hv Hl) as (Rb & Ub & _).
  fold b in Ht, Rb, Ub. pose proof (go_bitmap g G). pose proof (go_inodes g G).
  assert (Only : forall r, valid r -> loc (B s) i r = b -> r = RData fb) by (intros r Hr E; apply (fk_inj s i F); [done|done|congruence|done]).
  eapply cwp_mono; [apply (write_block_ok G); [apply Vk|done|done]| |done]. intros ok s' (-> & U).
  destruct (quiet _ s s' i Vk F U) as (Vk' & F' & El).
  - intros c Hc. unfold set_block. rewrite (proj2 (Z.eqb_neq _ _)) by lia. done.
  - intros r Hr Tr _. unfold set_block. rewrite (proj2 (Z.eqb_neq _ _)); [done|]. intros E. apply Only in E; [|done]. by subst.
  - split; [done|]. split; [done|]. split; [done|]. split; [|split; [done|]].
    + constructor; try apply U; try done.
      * intros r Hr _. by apply El.
      * intros r Hr E0 E1. by rewrite El in E1.
      * intros c Hc Hu. unfold bitmap_get. by rewrite (up_bitmap _ _ _ U).
      * intros c Hc Hi Hu Hn. rewrite (up_blocks _ _ _ U) by done. unfold set_block. rewrite (proj2 (Z.eqb_neq _ _)); [done|]. intros ->. by apply (Hn _ Hv).
    + intros fb' Hv' Hl'. rewrite (up_blocks _ _ _ U) by (by apply file_tracked). unfold set_block. destruct (decide (fb' = fb)) as [->|Hne]; [by rewrite Z.eqb_refl|].
      rewrite (proj2 (Z.eqb_neq _ _)); [done|]. intros E. apply Only in E; [congruence|done].
Qed.

(** The bytes [src] stand at [from], and the bytes elsewhere are as before. *)
Definition stored (s : St) (i : exfs_inode) (from : Z) (src : list Z) (s' : St) (i' : exfs_inode) : Prop :=
  forall pos, 0 <= pos < MAX_BYTES ->
    if (from <=? pos) && (pos <? from + zlen src) then byte_of s' i' pos = Some src.[pos - from]
    else forall x, byte_of s i pos = Some x -> byte_of s' i' pos = Some x.

Lemma stored_nil s i from s' i' : evolved s i s' i' -> stored s i from [] s' i'.
Proof.
  intros Ev pos Hp. destruct (Z.leb_spec from pos), (Z.ltb_spec pos (from + zlen (@nil Z))); cbn [andb]; try (intros x; by eapply evolved_bytes).
  unfold zlen in *. cbn in *. lia.
Qed.

Lemma stored_app s i from a b s1 i1 s2 i2 :
  stored s i from a s1 i1 -> stored s1 i1 (from + zlen a) b s2 i2 -> stored s i from (a ++ b) s2 i2.
Proof.
  intros A C pos Hp. specialize (A pos Hp). specialize (C pos Hp). pose proof (zlen_nonneg a). pose proof (zlen_nonneg b). rewrite zlen_app.
  destruct (Z.leb_spec from pos), (Z.ltb_spec pos (from + (zlen a + zlen b))), (Z.ltb_spec pos (from + zlen a)), (Z.leb_spec (from + zlen a) pos),
    (Z.ltb_spec pos (from + zlen a + zlen b)); try lia; cbn [andb] in *; auto.
  - rewrite zget_app by lia. destruct (Z.ltb_spec (pos - from) (zlen a)); [|lia]. by apply C.
  - rewrite zget_app by lia. destruct (Z.ltb_spec (pos - from) (zlen a)); [lia|]. rewrite C. do 2 f_equal. lia.
Qed.

(** One round: the part of a block from [off] on is replaced by [src]. *)
Lemma stored_block s i s' fb off src old :
  (forall r, valid r -> loc (B s') i r = loc (B s) i r) -> valid (RData fb) -> loc (B s) i (RData fb) <> 0 ->
  (forall fb', valid (RData fb') -> loc (B s) i (RData fb') <> 0 ->
     B s' (loc (B s) i (RData fb')) = if decide (fb' = fb) then memcpy old off src else B s (loc (B s) i (RData fb'))) ->
  zlen old = EXFS_BLOCK_SIZE -> 0 <= off -> off + zlen src <= EXFS_BLOCK_SIZE ->
  (old = B s (loc (B s) i (RData fb)) \/ (off = 0 /\ zlen src = EXFS_BLOCK_SIZE)) ->
  stored s i (fb * EXFS_BLOCK_SIZE + off) src s' i.
Proof.
  intros El Hv Hl Eb Lo H0 Hs Ho pos Hp. pose proof (pos_valid pos Hp) as Hv'. pose proof (zlen_nonneg src). unfold byte_of. rewrite El by done.
  unfold EXFS_BLOCK_SIZE in *. pose proof (Z.div_mod pos 4096 ltac:(lia)). pose proof (Z.mod_pos_bound pos 4096 ltac:(lia)).
  destruct (decide (pos / 4096 = fb)) as [E|Hne].
  - rewrite E. rewrite (proj2 (Z.eqb_neq _ _) Hl). rewrite (Eb fb Hv Hl), decide_True by done. rewrite zget_memcpy by lia.
    destruct (Z.leb_spec (fb * 4096 + off) pos), (Z.ltb_spec pos (fb * 4096 + off + zlen src)), (Z.leb_spec off (pos mod 4096)), (Z.ltb_spec (pos mod 4096) (off + zlen src));
      try lia; cbn [andb]; [do 2 f_equal; lia| |]; destruct Ho as [->|]; (done || lia).
  - assert (Out : (fb * 4096 + off <=? pos) && (pos <? fb * 4096 + off + zlen src) = false).
    { destruct (Z.leb_spec (fb * 4096 + off) pos), (Z.ltb_spec pos (fb * 4096 + off + zlen src)); try done. exfalso. apply Hne.
      symmetry. apply (Z.div_unique pos 4096 fb (pos - fb * 4096)); lia. }
    rewrite Out. intros x. destruct (Z.eqb_spec (loc (B s) i (RData (pos / 4096))) 0) as [|Hl']; [done|]. intros [= <-]. rewrite Eb by done. by rewrite decide_False.
Qed.

(** What [exfs_op_write] makes of the volume before it stores the inode: [w]
    bytes of [buf] are at [from], fewer only if the volume is full or the file
    has its greatest size. *)
Definition written (s : St) (i : exfs_inode) (from : Z) (buf : list Z) (w : Z) (s' : St) (i' : exfs_inode) : Prop :=
  0 <= w <= zlen buf /\ vol_ok s' /\ file_ok s' i' /\ grows s i s' i' /\ stored s i from (take (Z.to_nat w) buf) s' i' /\
  (w < zlen buf -> full s' \/ MAX_BYTES <= from + w) /\ (0 < w -> from + w <= MAX_BYTES).

Lemma written_nothing s i from buf s' i' :
  evolved s i s' i' -> (0 < zlen buf -> full s' \/ MAX_BYTES <= from) -> written s i from buf 0 s' i'.
Proof.
  intros Ev Hf. pose proof Ev as (A & C & E & _). pose proof (zlen_nonneg buf). split; [lia|]. split; [done|]. split; [done|]. split; [done|].
  split; [change (Z.to_nat 0) with 0%nat; by apply stored_nil|]. rewrite Z.add_0_r. split; [done|lia].
Qed.

Lemma written_step s i from a b w s1 i1 s2 i2 :
  file_ok s1 i1 -> grows s i s1 i1 -> stored s i from a s1 i1 -> from + zlen a <= MAX_BYTES -> written s1 i1 (from + zlen a) b w s2 i2 -> written s i from (a ++ b) (zlen a + w) s2 i2.
Proof.
  intros F1 Gr St Hm (Hw & Vk & F & Gr2 & St2 & Hf & Hx). pose proof (zlen_nonneg a). rewrite <- Z.add_assoc in Hf, Hx. split; [rewrite zlen_app; lia|]. split; [done|]. split; [done|].
  split; [by apply (grows_trans s i s1 i1)|]. split.
  - replace (take (Z.to_nat (zlen a + w)) (a ++ b)) with (a ++ take (Z.to_nat w) b); [by eapply stored_app|].
    rewrite take_app_ge by (unfold zlen; lia). do 2 f_equal. unfold zlen. lia.
  - split; [intros Hl; apply Hf; rewrite zlen_app in Hl; lia|]. intros _. destruct (decide (w = 0)); lia.
Qed.

(** The block that one round of [write_loop] stores. *)
Lemma round_block s b off can (src : list Z) :
  mounted s -> on_volume (g := g) b -> 0 <= off -> 0 < can -> off + can <= EXFS_BLOCK_SIZE -> zlen src = can ->
  cwp (if negb (off =? 0) || negb (can =? EXFS_BLOCK_SIZE) then r <-- exfs_read_block dev b zero_block ;; mret r.2 else mret zero_block) s
    (fun old s' => upd (B s) s s' /\ zlen old = EXFS_BLOCK_SIZE /\ (old = B s b \/ (off = 0 /\ zlen src = EXFS_BLOCK_SIZE))) (fun _ => True).
Proof.
  intros M Hb H0 Hc Hs <-. destruct (Z.eqb_spec off 0), (Z.eqb_spec (zlen src) EXFS_BLOCK_SIZE); cbn [negb orb].
  1: apply cwp_ret; split; [by apply upd_refl|split; [apply zlen_zero_block|by right]].
  all: apply cwp_bind; eapply cwp_mono; [apply (read_block_ok G); [done|done|apply zlen_zero_block]| |done]; intros r s' (-> & U); apply cwp_ret;
    (split; [done|]); (split; [by apply (B_len s)|by left]).
Qed.

Lemma store_round s i s1 i1 fb off can (src : list Z) :
  evolved s i s1 i1 -> valid (RData fb) -> loc (B s1) i1 (RData fb) <> 0 -> 0 <= off -> 0 < can -> off + can <= EXFS_BLOCK_SIZE -> zlen src = can ->
  cwp (old <-- (if negb (off =? 0) || negb (can =? EXFS_BLOCK_SIZE)
                then r <-- exfs_read_block dev (loc (B s1) i1 (RData fb)) zero_block ;; mret r.2 else mret zero_block) ;;
       exfs_write_block dev (loc (B s1) i1 (RData fb)) (memcpy old off src)) s1
    (fun ok s3 => ok = true /\ vol_ok s3 /\ file_ok s3 i1 /\ grows s i s3 i1 /\ stored s i (fb * EXFS_BLOCK_SIZE + off) src s3 i1) (fun _ => True).
Proof.
  intros Ev Hv Hb H0 Hc Hs Lc. pose proof Ev as (Vk1 & F1 & Gr1 & Sd1). apply cwp_bind.
  eapply cwp_mono; [apply (round_block s1 _ off can src); [apply Vk1|by apply file_tracked|lia|lia|lia|done]| |done].
  intros old s2 (U2 & Lo & Old). pose proof (quiet_id s1 s2 i1 Vk1 F1 U2) as Ev2. destruct (quiet (B s1) s1 s2 i1 Vk1 F1 U2) as (Vk2 & F2 & El2); [done|done|].
  pose proof (evolved_trans _ _ _ _ _ _ Ev Ev2) as Ev'. rewrite <- (El2 _ Hv) in Hb |- *.
  eapply cwp_mono; [apply (data_write s2 i1 fb); [done|done|done|done|rewrite zlen_memcpy; lia]| |done].
  intros ok s3 (-> & Vk3 & F3 & Gr3 & El3 & Eb3). split; [done|]. split; [done|]. split; [done|]. split; [apply (grows_trans s i s2 i1); [done|done|apply Ev'|done]|].
  rewrite <- (app_nil_l src). eapply stored_app; [by apply stored_nil|]. change (zlen (@nil Z)) with 0. rewrite Z.add_0_r.
  eapply stored_block; try done; [lia|]. destruct Old as [->|?]; [left|right; lia]. rewrite <- (El2 _ Hv). symmetry. apply U2.
  by apply file_tracked.
Qed.

Lemma write_loop_ok n s i offset buf w0 dirty :
  vol_ok s -> file_ok s i -> 0 <= offset -> offset + zlen buf < 2 ^ 64 -> 0 <= w0 <= zlen buf ->
  zlen buf <= w0 \/ offset + zlen buf <= (offset + w0) / EXFS_BLOCK_SIZE * EXFS_BLOCK_SIZE + EXFS_BLOCK_SIZE * Z.of_nat n ->
  cwp (write_loop dev n i offset buf w0 dirty) s
    (fun x s' => written s i (offset + w0) (drop (Z.to_nat w0) buf) (x.1.1 - w0) s' x.1.2 /\ (x.2 = false -> x.1.2 = i /\ dirty = false)) (fun _ => True).
Proof.
  revert s i w0 dirty. induction n as [|n IH]; intros s i w0 dirty Vk F Ho Hs Hw Hn; cbn [write_loop].
  all: pose proof (Z.div_mod (offset + w0) EXFS_BLOCK_SIZE ltac:(done)) as Dm; pose proof (Z.mod_pos_bound (offset + w0) EXFS_BLOCK_SIZE ltac:(done)) as Mb.
  all: assert (Ld : zlen (drop (Z.to_nat w0) buf) = zlen buf - w0) by (unfold zlen; rewrite length_drop; unfold zlen in Hw; lia).
  all: pose proof (quiet_id s s i Vk F (upd_refl s (vo_mounted s Vk))) as Refl.
  { apply cwp_ret. cbn [fst snd]. split; [|done]. rewrite Z.sub_diag. apply written_nothing; [done|]. unfold EXFS_BLOCK_SIZE in *. lia. }
  destruct (Z.leb_spec (zlen buf) w0).
  { apply cwp_ret. cbn [fst snd]. split; [|done]. rewrite Z.sub_diag. apply written_nothing; [done|lia]. }
  rewrite u64_small by lia. cbv zeta. set (fb := (offset + w0) / EXFS_BLOCK_SIZE) in *. set (off := (offset + w0) mod EXFS_BLOCK_SIZE) in *.
  set (can := Z.min (EXFS_BLOCK_SIZE - off) (zlen buf - w0)). apply cwp_bind.
  destruct (Z.ltb_spec fb MAX_BLOCKS) as [Hfb|Hfb].
  2: { rewrite resolve_big by done. apply cwp_ret. cbv beta iota. change (0 =? 0) with true. cbv iota. apply cwp_ret. cbn [fst snd]. rewrite Z.sub_diag, orb_false_r. split; [|done]. apply written_nothing; [done|].
       intros _. right. unfold MAX_BYTES, EXFS_BLOCK_SIZE in *. lia. }
  assert (Hv : valid (RData fb)) by (cbn [valid]; split; [apply Z.div_pos; [lia|done]|done]).
  eapply cwp_mono; [by apply (resolve_alloc s i fb)| |done]. intros [[b i1] d] s1 [(Ev & Eb & Hf) Hd]. cbn [fst snd] in *.
  destruct (Z.eqb_spec b 0) as [->|Hb].
  { apply cwp_ret. cbn [fst snd]. rewrite Z.sub_diag. split; [apply written_nothing; [done|]; intros _; left; by apply Hf|].
    intros E. apply orb_false_iff in E as [-> ->]. by rewrite Hd. }
  rewrite Eb in Hb |- *. assert (Lc : zlen (take (Z.to_nat can) (drop (Z.to_nat w0) buf)) = can) by (unfold zlen in *; rewrite length_take; lia).
  pose proof (store_round s i s1 i1 fb off can _ Ev Hv Hb ltac:(lia) ltac:(lia) ltac:(lia) Lc) as W.
  apply cwp_bind. eapply cwp_mono; [exact (cwp_bind_inv _ _ _ _ _ W)| |done]. intros old s2 W2. apply cwp_bind. eapply cwp_mono; [exact W2| |done].
  intros ok s3 (-> & Vk3 & F3 & Gr3 & St3). cbn [negb]. replace (fb * EXFS_BLOCK_SIZE + off) with (offset + w0) in St3 by lia.
  eapply cwp_mono; [apply (IH s3 i1 (w0 + can) (dirty || d)); [done|done|done|done|lia|]| |done].
  { rewrite Nat2Z.inj_succ in Hn. destruct (Z.le_gt_cases (zlen buf - w0) (EXFS_BLOCK_SIZE - off)); [left; lia|right]. unfold can in *. rewrite Z.min_l by lia.
    replace (offset + (w0 + (EXFS_BLOCK_SIZE - off))) with ((fb + 1) * EXFS_BLOCK_SIZE) by lia. rewrite Z.div_mul by done. lia. }
  intros x s4 [Wr Hd4]. split.
  - replace (drop (Z.to_nat w0) buf) with (take (Z.to_nat can) (drop (Z.to_nat w0) buf) ++ drop (Z.to_nat (w0 + can)) buf).
    2: { rewrite <- (take_drop (Z.to_nat can) (drop (Z.to_nat w0) buf)) at 2. rewrite drop_drop. do 2 f_equal. lia. }
    replace (x.1.1 - w0) with (can + (x.1.1 - (w0 + can))) by lia. rewrite <- Lc at 3. eapply written_step; [exact F3|exact Gr3|exact St3| |rewrite Lc; by rewrite <- Z.add_assoc].
    rewrite Lc. unfold MAX_BYTES, EXFS_BLOCK_SIZE in *. lia.
  - intros Ex. destruct (Hd4 Ex) as [-> Ed]. apply orb_false_iff in Ed as [-> ->]. by rewrite Hd.
Qed.

End Data.
