(* ===== verification/ExfsIo.v ===== *)
(** * ExFS: reading and writing files

    The operations on an open file: what [exfs_op_read] returns, what
    [exfs_op_write] leaves on the volume, the integrity hash that
    [exfs_op_open] checks, and the provenance records. *)

From S2P Require Import Prelude AuditRing Blake3 BlockDev Journal ExfsFile ExfsVolume ExfsData.

Section Io.
Context {D : Type} {dev : block_device D} {dev_ok : D -> Prop} {sectors : D -> view} `{!Device dev dev_ok sectors}.
Context {g : geo} (G : geo_ok g).
#[local] Abbreviation St := (exfs D).
#[local] Abbreviation mounted := (mounted (dev_ok := dev_ok) (sectors := sectors) (g := g)).
#[local] Abbreviation upd := (upd (dev_ok := dev_ok) (sectors := sectors) (g := g)).
#[local] Abbreviation vol_ok := (vol_ok (dev_ok := dev_ok) (sectors := sectors) (g := g)).
#[local] Abbreviation B := (B (sectors := sectors) (g := g)).
#[local] Abbreviation tracked := (tracked (g := g)).
#[local] Abbreviation reserved := (reserved (g := g)).
#[local] Abbreviation full := (full (g := g)).
#[local] Abbreviation file_ok := (file_ok (sectors := sectors) (g := g)).
#[local] Abbreviation grows := (grows (sectors := sectors) (g := g)).
#[local] Abbreviation byte_of := (byte_of (sectors := sectors) (g := g)).
#[local] Abbreviation stored := (stored (sectors := sectors) (g := g)).
#[local] Abbreviation inode_in := (inode_in (g := g)).
#[local] Abbreviation inum_ok := (inum_ok (g := g)).

(** ** Reading *)

(** [data] is what the file has from [from] on. *)
Definition reads (s : St) (i : exfs_inode) (from : Z) (data : list Z) : Prop :=
  forall p, 0 <= p < zlen data -> byte_of s i (from + p) = Some data.[p].

Lemma byte_of_ext s i s' i' pos :
  loc (B s') i' (RData (pos / EXFS_BLOCK_SIZE)) = loc (B s) i (RData (pos / EXFS_BLOCK_SIZE)) ->
  (loc (B s) i (RData (pos / EXFS_BLOCK_SIZE)) <> 0 -> B s' (loc (B s) i (RData (pos / EXFS_BLOCK_SIZE))) = B s (loc (B s) i (RData (pos / EXFS_BLOCK_SIZE)))) ->
  byte_of s' i' pos = byte_of s i pos.
Proof. intros E1 E2. unfold byte_of. rewrite E1. destruct (Z.eqb_spec (loc (B s) i (RData (pos / EXFS_BLOCK_SIZE))) 0); [done|]. by rewrite E2. Qed.

Lemma loc_invalid f i fb : 0 <= fb -> ~ valid (RData fb) -> loc f i (RData fb) = 0.
Proof.
  intros H0 Hv. cbn [valid] in Hv. cbn [loc]. unfold MAX_BLOCKS, EXFS_DIRECT_BLOCKS, EXFS_INDIRECT_PTRS in *.
  destruct (Z.ltb_spec fb 12); [lia|]. destruct (Z.ltb_spec (fb - 12) 512); [lia|]. cbv zeta. destruct (Z.ltb_spec (fb - 12 - 512) (512 * 512)); [lia|done].
Qed.

Lemma data_block s i fb : file_ok s i -> 0 <= fb -> loc (B s) i (RData fb) <> 0 -> valid (RData fb) /\ tracked (loc (B s) i (RData fb)).
Proof.
  intros F H0 Hl. assert (Hv : valid (RData fb)) by (destruct (decide (fb < MAX_BLOCKS)); [by cbn [valid]|by rewrite loc_invalid in Hl by (cbn [valid]; lia)]).
  split; [done|]. by apply (file_tracked G).
Qed.

Lemma quiet_data s s' i :
  vol_ok s -> file_ok s i -> upd (B s) s s' ->
  (forall fb, 0 <= fb -> loc (B s') i (RData fb) = loc (B s) i (RData fb)) /\
  (forall fb, 0 <= fb -> loc (B s) i (RData fb) <> 0 -> B s' (loc (B s) i (RData fb)) = B s (loc (B s) i (RData fb))).
Proof.
  intros Vk F U. destruct (quiet G (B s) s s' i Vk F U) as (_ & _ & El); [done|done|]. split.
  - intros fb H0. destruct (decide (valid (RData fb))); [by apply El|by rewrite !loc_invalid].
  - intros fb H0 Hl. apply U. by apply data_block.
Qed.

Lemma quiet_byte s s' i pos : vol_ok s -> file_ok s i -> upd (B s) s s' -> 0 <= pos -> byte_of s' i pos = byte_of s i pos.
Proof.
  intros Vk F U Hp. assert (0 <= pos / EXFS_BLOCK_SIZE) as Hd by (apply Z.div_pos; [done|done]). destruct (quiet_data s s' i Vk F U) as [Q1 Q2].
  apply byte_of_ext; [by apply Q1|by apply Q2].
Qed.

Lemma reads_app s i from a b : reads s i from a -> (forall p, 0 <= p < zlen b -> byte_of s i (from + zlen a + p) = Some b.[p]) -> reads s i from (a ++ b).
Proof.
  intros A C p Hp. rewrite zlen_app in Hp. rewrite zget_app by lia. destruct (Z.ltb_spec p (zlen a)); [apply A; lia|].
  rewrite <- C by lia. f_equal. lia.
Qed.

Lemma read_loop_ok n s i offset len acc :
  vol_ok s -> file_ok s i -> 0 <= offset -> offset + len < 2 ^ 64 -> zlen acc <= len -> reads s i offset acc ->
  len <= zlen acc \/ offset + len <= (offset + zlen acc) / EXFS_BLOCK_SIZE * EXFS_BLOCK_SIZE + EXFS_BLOCK_SIZE * Z.of_nat n ->
  cwp (read_loop dev n i offset len acc) s
    (fun data s' => upd (B s) s s' /\ zlen data <= len /\ reads s i offset data /\ (zlen data < len -> byte_of s i (offset + zlen data) = None)) (fun _ => True).
Proof.
  pose proof (zlen_nonneg acc) as Za. revert s acc Za. induction n as [|n IH]; intros s acc Za Vk F Ho Hs Ha R Hn; cbn [read_loop].
  all: pose proof (Z.div_mod (offset + zlen acc) EXFS_BLOCK_SIZE ltac:(done)) as Dm; pose proof (Z.mod_pos_bound (offset + zlen acc) EXFS_BLOCK_SIZE ltac:(done)) as Mb.
  all: pose proof (upd_refl s (vo_mounted s Vk)) as U0.
  { apply cwp_ret. split; [done|]. split; [done|]. split; [done|]. unfold EXFS_BLOCK_SIZE in *. lia. }
  destruct (Z.leb_spec len (zlen acc)); [apply cwp_ret; split; [done|]; split; [done|]; split; [done|lia]|].
  rewrite u64_small by lia. cbv zeta. set (fb := (offset + zlen acc) / EXFS_BLOCK_SIZE) in *. set (off := (offset + zlen acc) mod EXFS_BLOCK_SIZE) in *.
  set (can := Z.min (EXFS_BLOCK_SIZE - off) (len - zlen acc)). assert (Hfb : 0 <= fb) by (apply Z.div_pos; [lia|done]).
  apply cwp_bind. eapply cwp_mono; [by apply (resolve_read G s i fb)| |done]. intros x s1 (Ex & U1). rewrite Ex.
  destruct (Z.eqb_spec (loc (B s) i (RData fb)) 0) as [E0|Hl].
  { apply cwp_ret. split; [done|]. split; [done|]. split; [done|]. intros _. unfold byte_of. fold fb. by rewrite E0. }
  destruct (data_block s i fb F ltac:(done) Hl) as [Hv Ht]. destruct (quiet G (B s) s s1 i Vk F U1) as (Vk1 & F1 & _); [done|done|].
  apply cwp_bind. eapply cwp_mono; [apply (read_block_ok G); [apply Vk1|apply Ht|apply zlen_zero_block]| |done]. intros r s2 (-> & U2). cbn [fst snd negb].
  assert (U : upd (B s) s s2) by (eapply upd_ext; [|eapply upd_trans; [exact U1|exact U2]]; intros c Hc; by apply U1).
  rewrite (up_blocks _ _ _ U1) by done. set (part := take (Z.to_nat can) (drop (Z.to_nat off) (B s (loc (B s) i (RData fb))))).
  assert (Lp : zlen part = can).
  { pose proof (B_len s (loc (B s) i (RData fb)) (vo_mounted s Vk) (proj1 Ht)) as Lb. unfold part, zlen, EXFS_BLOCK_SIZE in *. rewrite length_take, length_drop. lia. }
  destruct (quiet G (B s) s s2 i Vk F U) as (Vk2 & F2 & _); [done|done|].
  assert (Eb : forall p, 0 <= p -> byte_of s2 i (offset + p) = byte_of s i (offset + p)) by (intros p Hp; apply quiet_byte; done || lia).
  assert (R2 : reads s i offset (acc ++ part)).
  { apply reads_app; [done|]. intros p Hp. rewrite Lp in Hp. unfold byte_of. assert (Ep : offset + zlen acc + p = fb * EXFS_BLOCK_SIZE + (off + p)) by lia.
    rewrite Ep, Z.div_add_l, (Z.div_small (off + p)), Z.add_0_r by (done || lia). rewrite (proj2 (Z.eqb_neq _ _) Hl). f_equal.
    rewrite Z.add_comm, Z_mod_plus_full, Z.mod_small by lia. unfold part, zget. rewrite lookup_total_take, decide_True by lia. rewrite lookup_total_drop. f_equal. lia. }
  eapply cwp_mono; [apply (IH s2 (acc ++ part))| |done]; rewrite ?zlen_app, ?Lp; try done; try lia.
  - intros p Hp. rewrite Eb by lia. by apply R2.
  - rewrite Nat2Z.inj_succ in Hn. destruct (Z.le_gt_cases (len - zlen acc) (EXFS_BLOCK_SIZE - off)); [left; lia|right]. unfold can in *. rewrite Z.min_l by lia.
    replace (offset + (zlen acc + (EXFS_BLOCK_SIZE - off))) with ((fb + 1) * EXFS_BLOCK_SIZE) by lia. rewrite Z.div_mul by done. lia.
  - intros data s' (U' & Ld & Rd & Hh). split; [eapply upd_ext; [|eapply upd_trans; [exact U|exact U']]; intros c Hc; by apply U|]. split; [done|].
    split; [intros p Hp; rewrite <- Eb by lia; by apply Rd|]. intros Hlt. pose proof (zlen_nonneg data). rewrite <- Eb by lia. by apply Hh.
Qed.

(** ** The integrity hash *)

(** The bytes of the file up to its size or its first hole, [n] blocks to go from block [fb]. *)
Fixpoint contents_from (f : Z -> list Z) (i : exfs_inode) (n : nat) (fb rem : Z) : list Z :=
  match n with
  | O => []
  | S n' =>
      if rem <=? 0 then [] else
      let b := loc f i (RData fb) in
      if b =? 0 then [] else
      let chunk := Z.min rem EXFS_BLOCK_SIZE in
      take (Z.to_nat chunk) (f b) ++ contents_from f i n' (fb + 1) (rem - chunk)
  end.

Definition contents (f : Z -> list Z) (i : exfs_inode) : list Z := contents_from f i (Z.to_nat (i_size i / EXFS_BLOCK_SIZE + 1)) 0 (i_size i).

Lemma contents_from_ext f f' i i' n fb rem :
  0 <= fb -> (forall fb, 0 <= fb -> loc f' i' (RData fb) = loc f i (RData fb)) ->
  (forall fb, 0 <= fb -> loc f i (RData fb) <> 0 -> f' (loc f i (RData fb)) = f (loc f i (RData fb))) -> contents_from f' i' n fb rem = contents_from f i n fb rem.
Proof.
  intros Hfb El Ef. revert fb rem Hfb. induction n as [|n IH]; intros fb rem Hfb; cbn [contents_from]; [done|].
  destruct (rem <=? 0); [done|]. cbv zeta. rewrite El by done. destruct (Z.eqb_spec (loc f i (RData fb)) 0) as [|Hl]; [done|].
  rewrite (Ef fb Hfb Hl). f_equal. apply IH. lia.
Qed.

Lemma hash_loop_ok n s i fb rem ctx m :
  vol_ok s -> file_ok s i -> 0 <= fb -> absorbed3 ctx m ->
  cwp (hash_loop dev n i fb rem ctx) s (fun c s' => absorbed3 c (m ++ contents_from (B s) i n fb rem) /\ upd (B s) s s') (fun _ => True).
Proof.
  revert s fb rem ctx m. induction n as [|n IH]; intros s fb rem ctx m Vk F H0 Ab; cbn [hash_loop contents_from]; rewrite ?app_nil_r.
  all: pose proof (upd_refl s (vo_mounted s Vk)) as U0.
  { by apply cwp_ret. }
  destruct (Z.leb_spec rem 0); [apply cwp_ret; by rewrite app_nil_r|]. apply cwp_bind. eapply cwp_mono; [by apply (resolve_read G s i fb)| |done].
  intros x s1 (Ex & U1). rewrite Ex. cbv zeta. destruct (Z.eqb_spec (loc (B s) i (RData fb)) 0) as [E0|Hl]; [apply cwp_ret; by rewrite app_nil_r|].
  destruct (data_block s i fb F ltac:(done) Hl) as [Hv Ht]. destruct (quiet G (B s) s s1 i Vk F U1) as (Vk1 & F1 & _); [done|done|].
  apply cwp_bind. eapply cwp_mono; [apply (read_block_ok G); [apply Vk1|apply Ht|apply zlen_zero_block]| |done]. intros r s2 (-> & U2). cbn [fst snd negb].
  assert (U : upd (B s) s s2) by (eapply upd_ext; [|eapply upd_trans; [exact U1|exact U2]]; intros c Hc; by apply U1).
  rewrite (up_blocks _ _ _ U1) by done. destruct (quiet G (B s) s s2 i Vk F U) as (Vk2 & F2 & El); [done|done|].
  destruct (absorbed3_update ctx m (take (Z.to_nat (Z.min rem EXFS_BLOCK_SIZE)) (B s (loc (B s) i (RData fb)))) Ab) as (ctx' & -> & Ab').
  cbn [default from_option Datatypes.id]. eapply cwp_mono; [apply (IH s2 (fb + 1) _ ctx' _ Vk2 F2 ltac:(lia) Ab')| |done].
  intros c s3 (Ab3 & U3). rewrite <- app_assoc in Ab3. split; [|eapply upd_ext; [|eapply upd_trans; [exact U|exact U3]]; intros c' Hc; by apply U].
  replace (contents_from (B s) i n (fb + 1) (rem - Z.min rem EXFS_BLOCK_SIZE)) with (contents_from (B s2) i n (fb + 1) (rem - Z.min rem EXFS_BLOCK_SIZE)); [done|].
  destruct (quiet_data s s2 i Vk F U) as [Q1 Q2]. apply contents_from_ext; [lia|done|done].
Qed.

Lemma hash_ok junk s i :
  vol_ok s -> file_ok s i -> zlen (Blake3.pending junk) = 64 -> zlen (chaining junk) = 8 ->
  cwp (exfs_compute_whole_file_hash dev junk i) s (fun h s' => h = take 8 (blake3_digest (contents (B s) i)) /\ upd (B s) s s') (fun _ => True).
Proof.
  intros Vk F Lp Lc. unfold exfs_compute_whole_file_hash. apply cwp_bind.
  eapply cwp_mono; [apply (hash_loop_ok _ s i 0 (i_size i) _ [] Vk F); [done|by apply absorbed3_init]| |done].
  intros c s' (Ab & U). apply cwp_ret. split; [|done]. f_equal. by apply final_absorbed3.
Qed.

(** ** Steps that change at most an inode and the provenance records *)

Record touched (num : Z) (s s' : St) : Prop := {
  tc_vol : vol_ok s';
  tc_bitmap : v_block_bitmap (x_vol s') = v_block_bitmap (x_vol s);
  tc_crash : g_exfs_crash_point s' = g_exfs_crash_point s;
  tc_blocks : forall c, tracked c -> g_data g <= c -> ~ reserved c -> B s' c = B s c;
  tc_inodes : forall m, inum_ok m -> m <> num -> inode_in (B s') m = inode_in (B s) m
}.

Lemma touched_trans num s s1 s2 : touched num s s1 -> touched num s1 s2 -> touched num s s2.
Proof.
  intros [A1 A2 A3 A4 A5] [C1 C2 C3 C4 C5]. constructor; [done|congruence|congruence| |].
  - intros c H1 H2 H3. rewrite C4 by done. by apply A4.
  - intros m H1 H2. rewrite C5 by done. by apply A5.
Qed.

Lemma touched_upd num f s s' :
  vol_ok s -> upd f s s' -> (forall c, g_bitmap g <= c < g_bitmap g + g_nbitmap g -> f c = B s c) ->
  (forall c, tracked c -> g_data g <= c -> ~ reserved c -> f c = B s c) -> (forall m, inum_ok m -> m <> num -> inode_in f m = inode_in (B s) m) -> touched num s s'.
Proof.
  intros Vk U Hb Hd Hi. constructor; [by eapply (vol_ok_upd G)|apply U|apply U| |].
  - intros c H1 H2 H3. rewrite (up_blocks _ _ _ U) by done. by apply Hd.
  - intros m H1 H2. rewrite <- Hi by done. unfold inode_in. by rewrite (up_blocks _ _ _ U) by (by apply (inum_tracked G)).
Qed.

Lemma touched_quiet num s s' : vol_ok s -> upd (B s) s s' -> touched num s s'.
Proof. intros Vk U. by eapply touched_upd. Qed.

Lemma touched_inode num i s s' :
  vol_ok s -> inum_ok num -> inode_ok i -> upd (put_inode (g := g) num i (B s)) s s' -> touched num s s' /\ inode_in (B s') num = i.
Proof.
  intros Vk Hn Ok U. destruct (inum_tracked G num Hn) as [Ht Hj]. pose proof (B_len s _ (vo_mounted s Vk) Ht) as L. pose proof (go_bitmap g G).
  pose proof (Z.div_pos num INODES_PER_BLOCK (proj1 Hn) ltac:(done)). pose proof (proj2 Hn). split.
  - apply (touched_upd num _ s s' Vk U).
    + intros c Hc. unfold put_inode, set_block. rewrite (proj2 (Z.eqb_neq _ _)); [done|]. unfold iblk. lia.
    + intros c _ Hc _. unfold put_inode, set_block. rewrite (proj2 (Z.eqb_neq _ _)); [done|]. lia.
    + intros m [Hm _] Hne. apply put_inode_ne; [apply Hn|done|by apply not_eq_sym|done|done].
  - rewrite <- (put_inode_eq num i (B s) Ok L). unfold inode_in. by rewrite (up_blocks _ _ _ U).
Qed.

(** Files are as before. *)
Lemma touched_file num s s' i :
  touched num s s' -> file_ok s i -> file_ok s' i /\ (forall r, valid r -> loc (B s') i r = loc (B s) i r) /\
  (forall r, valid r -> loc (B s) i r <> 0 -> B s' (loc (B s) i r) = B s (loc (B s) i r)) /\ forall pos, 0 <= pos -> byte_of s' i pos = byte_of s i pos.
Proof.
  intros [T1 T2 T3 T4 T5] F.
  assert (Eb : forall r, valid r -> loc (B s) i r <> 0 -> B s' (loc (B s) i r) = B s (loc (B s) i r)).
  { intros r Hr Hl. destruct (fk_used s i F r Hr Hl) as (R & _ & N). apply T4; [by apply (file_tracked G)|lia|done]. }
  assert (El : forall r, valid r -> loc (B s') i r = loc (B s) i r) by (intros r Hr; apply loc_ext; [intros p Hp _; by apply Eb|done]).
  split; [|split; [done|split; [done|]]].
  - destruct F as [F1 F2 F3]. constructor; [done| |].
    + intros r Hr Hl. rewrite El in * by done. destruct (F2 r Hr Hl) as (A & C & K). split; [done|]. split; [|done]. unfold bitmap_get. rewrite T2. exact C.
    + intros r r' Hr Hr' Hl E. rewrite El in Hl by done. rewrite !El in E by done. by apply F3.
  - intros pos Hp. assert (0 <= pos / EXFS_BLOCK_SIZE) as Hd by (apply Z.div_pos; [done|done]). destruct (decide (valid (RData (pos / EXFS_BLOCK_SIZE)))) as [Hv|Hv].
    + apply byte_of_ext; [by apply El|by apply Eb].
    + unfold byte_of. by rewrite !loc_invalid.
Qed.

(** ** Provenance *)

Definition audit_ok (s : St) : Prop := 0 <= audit_total (x_audit s) < 2 ^ 64.

Lemma prov_bytes_len t p op cu fo l : zlen (prov_bytes t p op cu fo l) = SIZEOF_PROV.
Proof. unfold prov_bytes, zlen. rewrite !length_app, !length_le_bytes. done. Qed.

(** The inode with or without one more record. *)
Definition recounted (i i' : exfs_inode) : Prop := i' = i \/ i' = set_prov_count (u32 (i_prov_count i + 1)) i.

Lemma recounted_ok i i' : recounted i i' -> inode_ok i -> inode_ok i' /\ i_size i' = i_size i /\ i_block_hash i' = i_block_hash i /\ forall f r, loc f i' r = loc f i r.
Proof.
  intros [->| ->] Ok; [done|]. split; [|split; [done|]; split; [done|]; by intros f []]. destruct Ok as [A1 A2 A3 A4 A5 A6 A7 [A8 A9] A10 A11 A12].
  constructor; try done. split; [done|apply u32_range].
Qed.

Lemma append_prov_ok num i op pid cu fo l s :
  vol_ok s -> inum_ok num -> inode_ok i ->
  cwp (exfs_append_prov dev num i op pid cu fo l) s
    (fun i' s' => touched num s s' /\ recounted i i' /\ (inode_in (B s) num = i -> inode_in (B s') num = i') /\ (audit_ok s -> audit_ok s')) (fun _ => True).
Proof.
  intros Vk Hn Ok. pose proof (io_prov i Ok) as [Hh Hc]. pose proof (go_prov g G). pose proof (go_base g G). pose proof (go_bitmap g G). pose proof (go_inodes g G). pose proof (go_journal g G).
  unfold exfs_append_prov. apply cwp_bind, cwp_get. cbv zeta.
  pose proof (f_equal g_prov (mo_geo s (vo_mounted s Vk))) as Ep. pose proof (f_equal g_nprov (mo_geo s (vo_mounted s Vk))) as En. cbn in Ep, En. rewrite Ep, En.
  set (idx := u64 (i_prov_head i + i_prov_count i)). pose proof (u64_range (i_prov_head i + i_prov_count i) : 0 <= idx < 2 ^ 64).
  change (EXFS_BLOCK_SIZE / SIZEOF_PROV) with 102. pose proof (Z.div_pos idx 102 ltac:(lia) ltac:(lia)). pose proof (Z.mod_pos_bound idx 102 ltac:(lia)).
  destruct (Z.leb_spec (g_nprov g) (idx / 102)) as [|Hr].
  { apply cwp_ret. split; [apply touched_quiet; [done|apply upd_refl, Vk]|]. split; [by left|done]. }
  rewrite u64_small by lia. set (c := g_prov g + idx / 102). assert (Hc' : tracked c) by (pose proof (go_apart g G); unfold tracked, on_volume, c; lia).
  apply cwp_bind. eapply cwp_mono; [apply (read_block_ok G); [apply Vk|apply Hc'|apply zlen_zero_block]| |done]. intros r s1 (-> & U1). cbn [fst snd negb].
  assert (Vk1 : vol_ok s1) by (by eapply (vol_ok_upd G)). apply cwp_bind.
  eapply cwp_mono; [apply (write_block_ok G); [apply Vk1|done|]| |done].
  { pose proof (B_len s c (vo_mounted s Vk) (proj1 Hc')) as Lb. rewrite zlen_memcpy; rewrite ?prov_bytes_len, ?Lb; unfold SIZEOF_PROV, EXFS_BLOCK_SIZE; lia. }
  intros ok s2 (_ & U2).
  assert (T2 : touched num s s2).
  { eapply touched_trans; [by apply (touched_quiet num s s1)|]. eapply touched_upd; [done|exact U2| | |]; unfold set_block.
    - intros c' Hc2. rewrite (proj2 (Z.eqb_neq _ _)); [done|]. unfold c. lia.
    - intros c' _ _ Nr. rewrite (proj2 (Z.eqb_neq _ _)); [done|]. intros ->. apply Nr. right. unfold c. lia.
    - intros m [Hm Hm'] _. unfold inode_in. rewrite (proj2 (Z.eqb_neq _ _)); [done|]. unfold c. lia. }
  assert (Ok' : inode_ok (set_prov_count (u32 (i_prov_count i + 1)) i)) by (eapply recounted_ok; [by right|done]).
  apply cwp_bind. eapply cwp_mono; [apply (write_inode_ok G); [apply (tc_vol _ _ _ T2)|done|exact Ok']| |done].
  intros ok3 s3 (_ & U3). destruct (touched_inode num _ s2 s3 (tc_vol _ _ _ T2) Hn Ok' U3) as [T3 E3]. pose proof (touched_trans _ _ _ _ T2 T3) as T.
  apply cwp_bind. unfold modify_audit, cwp. cbn [mret]. split; [|split; [by right|split; [done|]]].
  - destruct T as [[[M1 M2 M3 M4 M5 M6] V2 V3 V4] T5 T6 T7 T8]. constructor; try done. constructor; try done. destruct M1 as [F1 F2]. constructor; [by constructor|done|done|done|done|done].
  - intros _. apply u64_range.
Qed.

(** ** Writing a file *)

Lemma inode_ok_ptrs s i i' : inode_ok i -> file_ok s i' -> sans i' = sans i -> inode_ok i'.
Proof.
  intros [A1 A2 A3 A4 A5 A6 (A7 & A8 & A9) A10 A11 A12 A13] F E.
  assert (Rg : forall r, valid r -> 0 <= loc (B s) i' r < 2 ^ 64).
  { intros r Hr. destruct (decide (loc (B s) i' r = 0)) as [->|Hl]; [lia|]. destruct (fk_used s i' F r Hr Hl) as (R & _). pose proof (go_base g G). pose proof (go_bitmap g G). pose proof (go_inodes g G). lia. }
  assert (Es : i_size i' = i_size i /\ i_created_at i' = i_created_at i /\ i_modified_at i' = i_modified_at i /\ i_creator_pid i' = i_creator_pid i /\ i_mode i' = i_mode i /\
    i_triple_indirect i' = i_triple_indirect i /\ i_prov_head i' = i_prov_head i /\ i_prov_count i' = i_prov_count i /\ i_block_hash i' = i_block_hash i /\
    i_owner_uid i' = i_owner_uid i /\ i_group_gid i' = i_group_gid i /\ i_reserved i' = i_reserved i) by (unfold sans, set_direct, set_indirect, set_double in E; cbn in E; injection E; clear; intros; repeat split; assumption).
  destruct Es as (E1 & E2 & E3 & E4 & E5 & E6 & E7 & E8 & E9 & E10 & E11 & E12). pose proof (fk_direct s i' F) as Ld.
  constructor; rewrite ?E1, ?E2, ?E3, ?E4, ?E5, ?E6, ?E7, ?E8, ?E9, ?E10, ?E11, ?E12; try done.
  - split; [done|]. apply Forall_lookup. intros k x Hx. pose proof (lookup_lt_Some _ _ _ Hx) as Hk. unfold zlen, EXFS_DIRECT_BLOCKS in Ld.
    specialize (Rg (RData (Z.of_nat k))). cbn [valid loc] in Rg. unfold MAX_BLOCKS, EXFS_DIRECT_BLOCKS, EXFS_INDIRECT_PTRS in Rg. destruct (Z.ltb_spec (Z.of_nat k) 12); [|lia].
    unfold zget in Rg. rewrite Nat2Z.id, (list_lookup_total_correct _ _ _ Hx) in Rg. apply Rg. lia.
  - split; [apply (Rg RInd); done|]. split; [apply (Rg RDbl); done|done].
Qed.

Lemma store_inode_ok num i s :
  vol_ok s -> inum_ok num -> inode_ok i ->
  cwp (_ <-- exfs_journal_begin ;; _ <-- exfs_write_inode dev num i ;; _ <-- exfs_journal_commit dev ;; mret i) s
    (fun r s' => r = i /\ touched num s s' /\ inode_in (B s') num = i /\ (audit_ok s -> audit_ok s')) (fun _ => True).
Proof.
  intros Vk Hn Ok. pose proof (vo_mounted s Vk) as M. pose proof (go_journal g G).
  apply cwp_bind. eapply cwp_mono; [exact (begin_in G s M)| |done]. intros u s1 T1. apply cwp_bind.
  eapply cwp_mono; [apply (write_inode_in G s _ 0 s1 num i T1 Hn Ok); [apply (B_len s); [done|by apply (inum_tracked G)]|done|lia]| |done].
  intros ok s2 (_ & T2). apply cwp_bind. eapply cwp_mono; [by apply (commit_in G s _ _ s2 M T2)| |done]. intros ok3 s3 (_ & U). apply cwp_ret.
  split; [done|]. destruct (touched_inode num i s s3 Vk Hn Ok U) as [T E]. split; [done|]. split; [done|]. unfold audit_ok. by rewrite (up_audit _ _ _ U).
Qed.

(** Data blocks in use that are not of the file, and the other inodes. *)
Definition others (num : Z) (i : exfs_inode) (s s' : St) : Prop :=
  (forall c, tracked c -> g_data g <= c -> ~ reserved c -> bitmap_get (x_vol s) c = true -> (forall r, valid r -> loc (B s) i r <> c) -> B s' c = B s c) /\
  (forall c, 0 <= c -> bitmap_get (x_vol s) c = true -> bitmap_get (x_vol s') c = true) /\
  (forall m, inum_ok m -> m <> num -> inode_in (B s') m = inode_in (B s) m).

Lemma others_grows num i s s1 i1 s2 : file_ok s i -> grows s i s1 i1 -> touched num s1 s2 -> others num i s s2.
Proof.
  intros F Gr [T1 T2 T3 T4 T5]. split; [|split].
  - intros c Hc Hd Nr Hu Hn. rewrite T4 by done. apply (gr_other _ _ _ _ Gr); [done|pose proof (go_inodes g G); lia|by right|done].
  - intros c Hc Hu. unfold bitmap_get. rewrite T2. by apply (gr_bits _ _ _ _ Gr).
  - intros m Hm Hne. rewrite T5 by done. unfold inode_in. f_equal. apply (gr_other _ _ _ _ Gr).
    + by apply (inum_tracked G).
    + pose proof (Z.div_pos m INODES_PER_BLOCK (proj1 Hm) ltac:(done)). unfold iblk. lia.
    + left. apply Hm.
    + intros r Hr E. destruct (decide (loc (B s) i r = 0)) as [E0|E0].
      * pose proof (Z.div_pos m INODES_PER_BLOCK (proj1 Hm) ltac:(done)). pose proof (go_bitmap g G). unfold iblk in E. lia.
      * destruct (fk_used s i F r Hr E0) as (R & _). destruct Hm. lia.
Qed.

(** The state [exfs_op_write] leaves. *)
Record wrote_file (s : St) (nd : exfs_node_data) (offset : Z) (buf : list Z) (w : Z) (nd' : exfs_node_data) (s' : St) : Prop := {
  wf_num : nd_inode_num nd' = nd_inode_num nd;
  wf_vol : vol_ok s' /\ file_ok s' (nd_inode nd') /\ inode_ok (nd_inode nd') /\ audit_ok s';
  wf_count : 0 <= w <= zlen buf /\ (w < zlen buf -> full s' \/ MAX_BYTES <= offset + w) /\ (0 < w -> offset + w <= MAX_BYTES);
  wf_size : i_size (nd_inode nd') = Z.max (i_size (nd_inode nd)) (offset + w);
  wf_bytes : stored s (nd_inode nd) offset (take (Z.to_nat w) buf) s' (nd_inode nd');
  wf_disk : inode_in (B s) (nd_inode_num nd) = nd_inode nd -> inode_in (B s') (nd_inode_num nd) = nd_inode nd';
  wf_hash : 0 < w -> i_block_hash (nd_inode nd') = take 8 (blake3_digest (contents (B s') (nd_inode nd')));
  wf_others : others (nd_inode_num nd) (nd_inode nd) s s';
  wf_new : forall r, valid r -> loc (B s') (nd_inode nd') r <> 0 ->
    loc (B s') (nd_inode nd') r = loc (B s) (nd_inode nd) r \/ bitmap_get (x_vol s) (loc (B s') (nd_inode nd') r) = false
}.

(** The same pointers. *)
Definition same_ptrs (i i' : exfs_inode) : Prop := i_direct i' = i_direct i /\ forall f r, loc f i' r = loc f i r.

Lemma same_ptrs_trans i1 i2 i3 : same_ptrs i1 i2 -> same_ptrs i2 i3 -> same_ptrs i1 i3.
Proof. intros [A1 A2] [C1 C2]. split; [congruence|]. intros f r. by rewrite C2. Qed.

Lemma recounted_ptrs i i' : recounted i i' -> same_ptrs i i'.
Proof. intros [->| ->]; [done|]. split; [done|]. by intros f []. Qed.

Lemma file_ok_ptrs s i i' : same_ptrs i i' -> file_ok s i -> file_ok s i'.
Proof. intros [E1 E2] [A1 A2 A3]. constructor; [by rewrite E1| |]; intros r; [rewrite E2; apply A2|]. intros r'. rewrite !E2. apply A3. Qed.

Lemma byte_of_ptrs s i i' pos : same_ptrs i i' -> byte_of s i' pos = byte_of s i pos.
Proof. intros [_ E]. unfold byte_of. by rewrite E. Qed.

Lemma set_hash_ok h i : length h = 8%nat -> inode_ok i -> inode_ok (set_hash h i) /\ same_ptrs i (set_hash h i).
Proof. intros L [A1 A2 A3 A4 A5 A6 A7 A8 A9 A10 A11]. split; [by constructor|]. split; [done|]. by intros f []. Qed.

Lemma digest_len m : length (take 8 (blake3_digest m)) = 8%nat.
Proof.
  unfold blake3_digest. case_match. rewrite length_take, (length_concat_const 4), length_fmap, length_take, length_compress; [done|].
  apply Forall_fmap, Forall_forall. intros x _. apply length_le_bytes.
Qed.

(** The second half of [exfs_op_write]: the hash and the inode, if [b], and the record. *)
Lemma write_finish junk num i b offset w s :
  vol_ok s -> file_ok s i -> inode_ok i -> inum_ok num -> audit_ok s -> zlen (Blake3.pending junk) = 64 -> zlen (chaining junk) = 8 ->
  cwp (i <-- (if b : bool then
                h <-- exfs_compute_whole_file_hash dev junk i ;;
                let i := set_hash h i in
                _ <-- exfs_journal_begin ;; _ <-- exfs_write_inode dev num i ;; _ <-- exfs_journal_commit dev ;; mret i
              else mret i) ;;
       exfs_append_prov dev num i PROV_OP_WRITE 0 0 offset w) s
    (fun i' s' => touched num s s' /\ same_ptrs i i' /\ inode_ok i' /\ i_size i' = i_size i /\ audit_ok s' /\
       (b = true -> inode_in (B s') num = i' /\ i_block_hash i' = take 8 (blake3_digest (contents (B s) i))) /\
       (b = false -> inode_in (B s) num = i -> inode_in (B s') num = i')) (fun _ => True).
Proof.
  intros Vk F Ok Hn Au Lp Lc. apply cwp_bind.
  assert (Last : forall i2 s2, touched num s s2 -> same_ptrs i i2 -> inode_ok i2 -> i_size i2 = i_size i -> audit_ok s2 ->
    (b = true -> inode_in (B s2) num = i2 /\ i_block_hash i2 = take 8 (blake3_digest (contents (B s) i))) -> (b = false -> inode_in (B s) num = i -> inode_in (B s2) num = i2) ->
    cwp (exfs_append_prov dev num i2 PROV_OP_WRITE 0 0 offset w) s2
    (fun i' s' => touched num s s' /\ same_ptrs i i' /\ inode_ok i' /\ i_size i' = i_size i /\ audit_ok s' /\
       (b = true -> inode_in (B s') num = i' /\ i_block_hash i' = take 8 (blake3_digest (contents (B s) i))) /\
       (b = false -> inode_in (B s) num = i -> inode_in (B s') num = i')) (fun _ => True)).
  { intros i2 s2 T2 P2 Ok2 Sz2 Au2 B1 B2. eapply cwp_mono; [apply (append_prov_ok num i2 _ _ _ _ _ s2 (tc_vol _ _ _ T2) Hn Ok2)| |done].
    intros i' s' (T & Rc & Ed & Ea). destruct (recounted_ok i2 i' Rc Ok2) as (Ok' & Sz & Hh & _). split; [by eapply touched_trans|].
    split; [eapply same_ptrs_trans; [exact P2|by apply recounted_ptrs]|]. split; [done|]. split; [congruence|]. split; [by apply Ea|]. split.
    - intros Eb. destruct (B1 Eb) as [E1 E2]. split; [by apply Ed|congruence].
    - intros Eb E. apply Ed. by apply B2. }
  destruct b.
  - apply cwp_bind. eapply cwp_mono; [by apply (hash_ok junk s i)| |done]. intros h s1 (Eh & U1). cbv zeta.
    assert (Lh : length h = 8%nat) by (rewrite Eh; apply digest_len). destruct (set_hash_ok h i Lh Ok) as [Ok2 P2].
    assert (Vk1 : vol_ok s1) by (by eapply (vol_ok_upd G)). eapply cwp_mono; [by apply (store_inode_ok num _ s1)| |done].
    intros i2 s2 (-> & T2 & E2 & A2). apply Last; try done.
    + eapply touched_trans; [by apply (touched_quiet num s s1)|done].
    + apply A2. unfold audit_ok. by rewrite (up_audit _ _ _ U1).
  - apply cwp_ret. by apply Last.
Qed.

(** The inode with its new size and time. *)
Lemma resize_ok i size t (grow stamp : bool) :
  inode_ok i -> 0 <= size < 2 ^ 64 -> 0 <= t < 2 ^ 64 ->
  let i2 := (let i2 := if grow then set_size size i else i in if stamp then set_modified t i2 else i2) in
  inode_ok i2 /\ same_ptrs i i2 /\ i_size i2 = (if grow then size else i_size i).
Proof.
  intros [A1 A2 A3 A4 A5 A6 A7 A8 A9 A10 A11] Hs Ht. destruct grow, stamp; (split; [by constructor|]); (split; [split; [done|]; by intros f []|done]).
Qed.

Lemma io_rounds_enough offset len : 0 <= offset -> 0 <= len ->
  offset + len <= offset / EXFS_BLOCK_SIZE * EXFS_BLOCK_SIZE + EXFS_BLOCK_SIZE * Z.of_nat (io_rounds len).
Proof.
  intros Ho Hl. unfold io_rounds, EXFS_BLOCK_SIZE. pose proof (Z.div_mod offset 4096 ltac:(lia)). pose proof (Z.mod_pos_bound offset 4096 ltac:(lia)).
  pose proof (Z.div_mod len 4096 ltac:(lia)). pose proof (Z.mod_pos_bound len 4096 ltac:(lia)). pose proof (Z.div_pos len 4096 ltac:(lia) ltac:(lia)).
  rewrite Z2Nat.id by lia. lia.
Qed.

Lemma stored_same s i from src s1 i1 s2 i2 :
  stored s i from src s1 i1 -> (forall pos, 0 <= pos -> byte_of s2 i2 pos = byte_of s1 i1 pos) -> stored s i from src s2 i2.
Proof. intros St E pos Hp. specialize (St pos Hp). rewrite E by lia. exact St. Qed.

Lemma full_touched num s s' : touched num s s' -> full s -> full s'.
Proof. intros T Hf c Hc. unfold bitmap_get. rewrite (tc_bitmap _ _ _ T). by apply Hf. Qed.

Lemma contents_touched num s s' i i' :
  touched num s s' -> file_ok s i -> same_ptrs i i' -> i_size i' = i_size i -> contents (B s') i' = contents (B s) i.
Proof.
  intros T F [_ E] Es. destruct (touched_file num s s' i T F) as (_ & El & Eb & _). unfold contents. rewrite Es. apply contents_from_ext; [done| |].
  - intros fb H0. rewrite E. destruct (decide (valid (RData fb))); [by apply El|by rewrite !loc_invalid].
  - intros fb H0 Hl. destruct (data_block s i fb F H0 Hl) as [Hv _]. by apply Eb.
Qed.

Lemma exfs_op_write_ok junk nd offset buf s :
  vol_ok s -> file_ok s (nd_inode nd) -> inode_ok (nd_inode nd) -> inum_ok (nd_inode_num nd) -> audit_ok s ->
  zlen (Blake3.pending junk) = 64 -> zlen (chaining junk) = 8 -> 0 <= offset -> offset + zlen buf < 2 ^ 64 ->
  cwp (exfs_op_write dev junk nd offset buf) s (fun x s' => wrote_file s nd offset buf x.1 x.2 s') (fun _ => True).
Proof.
  intros Vk F Ok Hn Au Lp Lc Ho Hs. pose proof (zlen_nonneg buf) as Zb. unfold exfs_op_write. set (i := nd_inode nd) in *. set (num := nd_inode_num nd) in *.
  apply cwp_bind. eapply cwp_mono; [apply (write_loop_ok G (io_rounds (zlen buf)) s i offset buf 0 false Vk F Ho Hs ltac:(lia))| |done].
  { right. rewrite Z.add_0_r. by apply io_rounds_enough. }
  intros [[w i1] dirty] s1 [(Hw & Vk1 & F1 & Gr & St & Hf & Hx) Hd]. cbn [fst snd] in *. change (drop (Z.to_nat 0) buf) with buf in *. rewrite Z.add_0_r, Z.sub_0_r in *.
  assert (Ok1 : inode_ok i1) by (apply (inode_ok_ptrs s1 i); [done|done|apply Gr]).
  assert (Au1 : audit_ok s1) by (unfold audit_ok; by rewrite (gr_audit _ _ _ _ Gr)).
  assert (Sz : i_size i1 = i_size i) by (pose proof (gr_sans _ _ _ _ Gr) as E; unfold sans, set_direct, set_indirect, set_double in E; cbn in E; by injection E).
  rewrite u64_small by lia. cbv zeta. rewrite Sz. apply cwp_bind, cwp_get.
  destruct (resize_ok i1 (offset + w) (audit_total (x_audit s1)) (i_size i <? offset + w) (0 <? w) Ok1 ltac:(lia) Au1) as (Ok2 & P2 & Sz2). cbv zeta in Ok2, P2, Sz2.
  set (i2 := if 0 <? w then _ else _) in *. pose proof (file_ok_ptrs s1 i1 i2 P2 F1) as F2.
  pose proof (write_finish junk num i2 (dirty || (i_size i <? offset + w) || (0 <? w)) offset w s1 Vk1 F2 Ok2 Hn Au1 Lp Lc) as W.
  apply cwp_bind. eapply cwp_mono; [exact (cwp_bind_inv _ _ _ _ _ W)| |done]. intros i3 s3 W3. apply cwp_bind. eapply cwp_mono; [exact W3| |done].
  intros i4 s4 (T & P4 & Ok4 & Sz4 & Au4 & Bt & Bf). apply cwp_ret. cbn [fst snd]. destruct (touched_file num s1 s4 i2 T F2) as (F4 & El4 & _ & By).
  constructor; cbn [nd_inode nd_inode_num]; fold i num; try done.
  - split; [apply T|]. split; [by eapply file_ok_ptrs|]. done.
  - split; [done|]. split; [|done]. intros Hl. destruct (Hf Hl); [left; by eapply full_touched|by right].
  - rewrite Sz4, Sz2, Sz. destruct (Z.ltb_spec (i_size i) (offset + w)); lia.
  - eapply stored_same; [exact St|]. intros pos Hp. rewrite (byte_of_ptrs s4 i2 i4 pos P4), By by done. by apply byte_of_ptrs.
  - intros E. destruct (dirty || (i_size i <? offset + w) || (0 <? w)) eqn:Eb; [by apply Bt|]. apply Bf; [done|].
    rewrite !orb_false_iff in Eb. destruct Eb as [[-> Eg] Ew]. unfold i2. rewrite Eg, Ew. destruct (Hd eq_refl) as [-> _]. fold i in E. rewrite <- E.
    unfold inode_in. f_equal. apply (gr_other _ _ _ _ Gr).
    + by apply (inum_tracked G).
    + pose proof (Z.div_pos num INODES_PER_BLOCK (proj1 Hn) ltac:(done)). unfold iblk. lia.
    + left. apply Hn.
    + intros r Hr El. pose proof (Z.div_pos num INODES_PER_BLOCK (proj1 Hn) ltac:(done)). pose proof (go_bitmap g G). destruct Hn as [Hn1 Hn2].
      destruct (decide (loc (B s) i r = 0)) as [E0|E0]; [unfold iblk in *; lia|]. destruct (fk_used s i F r Hr E0) as (R & _). lia.
  - intros Hpos. rewrite (proj2 (Z.ltb_lt _ _) Hpos), orb_true_r in Bt. destruct (Bt eq_refl) as [_ ->]. do 2 f_equal. symmetry. by eapply contents_touched.
  - eapply others_grows; [done|exact Gr|done].
  - intros r Hr. rewrite (proj2 P4), El4, (proj2 P2) by done. intros Hl. destruct (decide (loc (B s) i r = 0)) as [E0|E0]; [right|left]; by apply Gr.
Qed.

(** ** Reading and opening a file *)

(** The bytes [exfs_op_read] may return. *)
Definition readable (i : exfs_inode) (offset len : Z) : Z := Z.max 0 (Z.min len (i_size i - offset)).

Lemma exfs_op_read_ok nd offset len s :
  vol_ok s -> file_ok s (nd_inode nd) -> inode_ok (nd_inode nd) -> inum_ok (nd_inode_num nd) -> 0 <= offset -> 0 <= len -> offset + len < 2 ^ 64 ->
  cwp (exfs_op_read dev nd offset len) s
    (fun x s' => reads s (nd_inode nd) offset x.1 /\ zlen x.1 <= readable (nd_inode nd) offset len /\
       (zlen x.1 < readable (nd_inode nd) offset len -> byte_of s (nd_inode nd) (offset + zlen x.1) = None) /\
       touched (nd_inode_num nd) s s' /\ nd_inode_num x.2 = nd_inode_num nd /\ recounted (nd_inode nd) (nd_inode x.2)) (fun _ => True).
Proof.
  intros Vk F Ok Hn Ho Hl Hs. pose proof (io_size _ Ok) as Hz. unfold exfs_op_read. cbv zeta. set (i := nd_inode nd) in *. set (num := nd_inode_num nd) in *.
  assert (Nil : readable i offset len = 0 -> reads s i offset [] /\ zlen (@nil Z) <= readable i offset len /\
    (zlen (@nil Z) < readable i offset len -> byte_of s i (offset + zlen (@nil Z)) = None) /\ touched num s s /\ num = num /\ recounted i i).
  { intros ->. split; [intros p Hp; unfold zlen in Hp; cbn in Hp; lia|]. split; [done|]. split; [done|]. split; [apply touched_quiet; [done|apply upd_refl, Vk]|]. split; [done|by left]. }
  destruct (Z.leb_spec (i_size i) offset); [apply cwp_ret, Nil; unfold readable; lia|]. rewrite u64_small by lia.
  set (n := if i_size i <? offset + len then i_size i - offset else len). assert (En : n = readable i offset len).
  { unfold n, readable. destruct (Z.ltb_spec (i_size i) (offset + len)); lia. }
  assert (Hn' : 0 <= n /\ offset + n < 2 ^ 64) by (unfold n; destruct (Z.ltb_spec (i_size i) (offset + len)); lia).
  destruct (Z.eqb_spec n 0); [apply cwp_ret, Nil; lia|]. apply cwp_bind.
  eapply cwp_mono; [apply (read_loop_ok (io_rounds n) s i offset n [] Vk F Ho ltac:(lia) ltac:(unfold zlen; cbn [length]; lia))| |done].
  { intros p Hp. unfold zlen in Hp. cbn in Hp. lia. }
  { right. change (zlen (@nil Z)) with 0. rewrite Z.add_0_r. apply io_rounds_enough; lia. }
  intros data s1 (U & Ld & R & Hh). assert (Vk1 : vol_ok s1) by (by eapply (vol_ok_upd G)).
  apply cwp_bind. eapply cwp_mono; [by apply (append_prov_ok num i _ _ _ _ _ s1)| |done]. intros i' s2 (T & Rc & _). apply cwp_ret. cbn [fst snd]. rewrite <- En.
  split; [done|]. split; [done|]. split; [done|]. split; [eapply touched_trans; [by apply (touched_quiet num s s1)|done]|]. done.
Qed.

(** The warning of [exfs_op_open]: there is a stored hash and it is not that of the contents. *)
Definition mismatch (f : Z -> list Z) (i : exfs_inode) : bool :=
  negb (bool_decide (i_block_hash i = replicate 8 0)) && negb (bool_decide (take 8 (blake3_digest (contents f i)) = i_block_hash i)).

Lemma exfs_op_open_ok junk nd s :
  vol_ok s -> inum_ok (nd_inode_num nd) -> file_ok s (inode_in (B s) (nd_inode_num nd)) -> inode_ok (inode_in (B s) (nd_inode_num nd)) ->
  zlen (Blake3.pending junk) = 64 -> zlen (chaining junk) = 8 ->
  cwp (exfs_op_open dev junk nd) s
    (fun x s' => x.2 = mismatch (B s) (inode_in (B s) (nd_inode_num nd)) /\ nd_inode_num x.1 = nd_inode_num nd /\
       recounted (inode_in (B s) (nd_inode_num nd)) (nd_inode x.1) /\ touched (nd_inode_num nd) s s') (fun _ => True).
Proof.
  intros Vk Hn F Ok Lp Lc. set (num := nd_inode_num nd) in *. set (i := inode_in (B s) num) in *. unfold exfs_op_open. apply cwp_bind.
  eapply cwp_mono; [apply (read_inode_ok G); [apply Vk|done]| |done]. intros fresh s1 (-> & U1). cbn [default from_option Datatypes.id]. fold num. fold i.
  destruct (quiet G (B s) s s1 i Vk F U1) as (Vk1 & F1 & _); [done|done|]. pose proof (touched_quiet num s s1 Vk U1) as T1.
  assert (Last : forall s2 (warned : bool), touched num s s2 -> warned = mismatch (B s) i ->
    cwp (i' <-- exfs_append_prov dev num i PROV_OP_READ 0 0 0 0 ;; mret (mk_nd num i', warned)) s2
      (fun x s' => x.2 = mismatch (B s) i /\ nd_inode_num x.1 = num /\ recounted i (nd_inode x.1) /\ touched num s s') (fun _ => True)).
  { intros s2 warned T2 Ew. apply cwp_bind. eapply cwp_mono; [apply (append_prov_ok num i _ _ _ _ _ s2 (tc_vol _ _ _ T2) Hn Ok)| |done].
    intros i' s3 (T3 & Rc & _). apply cwp_ret. cbn. split; [done|]. split; [done|]. split; [done|by eapply touched_trans]. }
  apply cwp_bind. destruct (bool_decide (i_block_hash i = replicate 8 0)) eqn:Eh.
  - apply cwp_ret. apply Last; [done|]. unfold mismatch. by rewrite Eh.
  - apply cwp_bind. eapply cwp_mono; [by apply (hash_ok junk s1 i)| |done]. intros h s2 (-> & U2). apply cwp_ret. apply Last.
    + eapply touched_trans; [exact T1|by apply touched_quiet].
    + unfold mismatch. rewrite Eh. cbn [negb andb]. by rewrite (contents_touched num s s1 i i T1 F).
Qed.

(** ** Other files *)

(** No block of [i] is a block of [j]. *)
Definition apart (s : St) (i j : exfs_inode) : Prop :=
  forall r r', valid r -> valid r' -> loc (B s) i r <> 0 -> loc (B s) i r <> loc (B s) j r'.

Lemma wrote_other s nd offset buf w nd' s' j :
  wrote_file s nd offset buf w nd' s' -> file_ok s j -> apart s (nd_inode nd) j ->
  file_ok s' j /\ apart s' (nd_inode nd') j /\ forall pos, 0 <= pos -> byte_of s' j pos = byte_of s j pos.
Proof.
  intros W F Ap. destruct (wf_others _ _ _ _ _ _ _ W) as (Ob & Ou & _).
  assert (Eb : forall r, valid r -> loc (B s) j r <> 0 -> B s' (loc (B s) j r) = B s (loc (B s) j r)).
  { intros r Hr Hl. destruct (fk_used s j F r Hr Hl) as (R & Hu & N). apply Ob; [by apply (file_tracked G)|lia|done|done|].
    intros r' Hr' E. destruct (decide (loc (B s) (nd_inode nd) r' = 0)) as [E0|E0]; [congruence|]. by apply (Ap r' r). }
  assert (El : forall r, valid r -> loc (B s') j r = loc (B s) j r) by (intros r Hr; apply loc_ext; [intros p Hp _; by apply Eb|done]).
  split; [|split].
  - destruct F as [F1 F2 F3]. constructor; [done| |].
    + intros r Hr Hl. rewrite El in * by done. destruct (F2 r Hr Hl) as (A & C & K). split; [done|]. split; [|done]. apply Ou; [|done].
      pose proof (go_bitmap g G). pose proof (go_inodes g G). lia.
    + intros r r' Hr Hr' Hl E. rewrite El in Hl by done. rewrite !El in E by done. by apply F3.
  - intros r r' Hr Hr' Hl E. rewrite (El r') in E by done. destruct (wf_new _ _ _ _ _ _ _ W r Hr Hl) as [Eo|Fr].
    + rewrite Eo in *. by apply (Ap r r').
    + destruct (fk_used s j F r' Hr') as (_ & Hu & _); [congruence|]. rewrite E in Fr. congruence.
  - intros pos Hp. assert (0 <= pos / EXFS_BLOCK_SIZE) as Hd by (apply Z.div_pos; [done|done]). destruct (decide (valid (RData (pos / EXFS_BLOCK_SIZE)))) as [Hv|Hv].
    + apply byte_of_ext; [by apply El|by apply Eb].
    + unfold byte_of. by rewrite !loc_invalid.
Qed.

End Io.

(** ** The operations come back *)

Section AliveIo.
Context {D : Type} {dev : block_device D} `{!Steady dev}.

Lemma alive_resolve i fb a : alive (exfs_resolve_block dev i fb a).
Proof. unfold exfs_resolve_block, resolve_table, resolve_entry. alive. Qed.
#[local] Hint Resolve alive_resolve : alive.

Lemma alive_hash junk i : alive (exfs_compute_whole_file_hash dev junk i).
Proof.
  assert (L : forall n fb rem ctx, alive (hash_loop dev n i fb rem ctx)) by (induction n as [|n IH]; intros fb rem ctx; cbn [hash_loop]; alive).
  unfold exfs_compute_whole_file_hash. alive.
Qed.

Lemma alive_prov num i op pid cu fo l : alive (exfs_append_prov dev num i op pid cu fo l).
Proof. unfold exfs_append_prov. assert (A : forall f, alive (modify_audit (D := D) f)) by (intros f s C; by eexists _, _). alive. Qed.
#[local] Hint Resolve alive_hash alive_prov : alive.

Lemma alive_read nd offset len : alive (exfs_op_read dev nd offset len).
Proof.
  assert (L : forall n i o l acc, alive (read_loop dev n i o l acc)) by (induction n as [|n IH]; intros i o l acc; cbn [read_loop]; alive).
  unfold exfs_op_read. alive.
Qed.

Lemma alive_write junk nd offset buf : alive (exfs_op_write dev junk nd offset buf).
Proof.
  assert (L : forall n i o w d, alive (write_loop dev n i o buf w d)) by (induction n as [|n IH]; intros i o w d; cbn [write_loop]; alive).
  unfold exfs_op_write. alive.
Qed.

Lemma alive_open junk nd : alive (exfs_op_open dev junk nd).
Proof. unfold exfs_op_open. alive. Qed.

End AliveIo.


(** ** Properties *)

Section Properties.
Context {D : Type} {dev : block_device D} {dev_ok : D -> Prop} {sectors : D -> view} `{!Device dev dev_ok sectors} `{!Steady dev}.
Context {g : geo}.
#[local] Abbreviation St := (exfs D).
#[local] Abbreviation vol_ok := (vol_ok (dev_ok := dev_ok) (sectors := sectors) (g := g)).
#[local] Abbreviation file_ok := (file_ok (sectors := sectors) (g := g)).
#[local] Abbreviation B := (B (sectors := sectors) (g := g)).
#[local] Abbreviation byte_of := (byte_of (sectors := sectors) (g := g)).
#[local] Abbreviation inode_in := (inode_in (g := g)).
#[local] Abbreviation inum_ok := (inum_ok (g := g)).
#[local] Abbreviation wrote_file := (wrote_file (dev_ok := dev_ok) (sectors := sectors) (g := g)).
#[local] Abbreviation apart := (apart (sectors := sectors) (g := g)).
#[local] Abbreviation full := (full (g := g)).

(** A mounted volume, no crash point armed. *)
Record running (s : St) : Prop := {
  rn_geo : geo_ok g;
  rn_vol : vol_ok s;
  rn_audit : audit_ok s;
  rn_crash : g_exfs_crash_point s = 0
}.

(** A node of a file, up to date with the inode on the disk. *)
Record handle (s : St) (nd : exfs_node_data) : Prop := {
  hd_file : file_ok s (nd_inode nd);
  hd_inode : inode_ok (nd_inode nd);
  hd_num : inum_ok (nd_inode_num nd);
  hd_disk : inode_in (B s) (nd_inode_num nd) = nd_inode nd
}.

(** The uninitialised hash context has its size. *)
Definition scratch_ok (junk : blake3_ctx) : Prop := zlen (Blake3.pending junk) = 64 /\ zlen (chaining junk) = 8.

Lemma write_returns junk nd offset buf s :
  running s -> handle s nd -> scratch_ok junk -> 0 <= offset -> offset + zlen buf < 2 ^ 64 ->
  exists w nd1 s1, exfs_op_write dev junk nd offset buf s = (Some (w, nd1), s1) /\ wrote_file s nd offset buf w nd1 s1 /\ running s1 /\ handle s1 nd1.
Proof.
  intros [G Vk Au Cr] [F Ok Hn Hd] [L1 L2] Ho Hs.
  destruct (alive_cwp _ s _ _ (alive_write junk nd offset buf) Cr (exfs_op_write_ok G junk nd offset buf s Vk F Ok Hn Au L1 L2 Ho Hs)) as ([w nd1] & s1 & E & C & W).
  exists w, nd1, s1. split; [done|]. split; [exact W|]. cbn [fst snd] in W. destruct (wf_vol _ _ _ _ _ _ _ W) as (V1 & F1 & O1 & A1).
  split; [done|]. constructor; [done|done|by rewrite (wf_num _ _ _ _ _ _ _ W)|]. rewrite (wf_num _ _ _ _ _ _ _ W). by apply (wf_disk _ _ _ _ _ _ _ W).
Qed.

Lemma wrote_reads s nd offset buf w nd1 s1 :
  0 <= offset -> wrote_file s nd offset buf w nd1 s1 -> reads (sectors := sectors) (g := g) s1 (nd_inode nd1) offset (take (Z.to_nat w) buf).
Proof.
  intros Ho W p Hp. destruct (wf_count _ _ _ _ _ _ _ W) as (Hw & _ & Hx). assert (Lt : zlen (take (Z.to_nat w) buf) = w) by (unfold zlen in *; rewrite length_take; lia).
  rewrite Lt in Hp. pose proof (wf_bytes _ _ _ _ _ _ _ W (offset + p) ltac:(lia)) as E. rewrite Lt in E.
  destruct (Z.leb_spec offset (offset + p)), (Z.ltb_spec (offset + p) (offset + w)); try lia. cbn [andb] in E. rewrite E. do 2 f_equal. lia.
Qed.

(** Reading back from a state where the bytes stand. *)
Lemma read_returns s nd offset src :
  geo_ok g -> vol_ok s -> g_exfs_crash_point s = 0 -> file_ok s (nd_inode nd) -> inode_ok (nd_inode nd) -> inum_ok (nd_inode_num nd) -> 0 <= offset -> offset + zlen src < 2 ^ 64 -> offset + zlen src <= i_size (nd_inode nd) ->
  reads (sectors := sectors) (g := g) s (nd_inode nd) offset src -> exists nd2 s2, exfs_op_read dev nd offset (zlen src) s = (Some (src, nd2), s2).
Proof.
  intros G Vk Cr F Ok Hn Ho Hs Hz R. pose proof (zlen_nonneg src) as Z0.
  destruct (alive_cwp _ s _ _ (alive_read nd offset (zlen src)) Cr (exfs_op_read_ok G nd offset (zlen src) s Vk F Ok Hn Ho Z0 Hs)) as ([data nd2] & s2 & E & _ & Rd & Ld & Hh & _).
  cbn [fst snd] in *. exists nd2, s2. rewrite E. do 2 f_equal. unfold readable in *. rewrite Z.max_r, Z.min_l in * by lia. pose proof (zlen_nonneg data).
  assert (El : zlen data = zlen src) by (destruct (decide (zlen data < zlen src)) as [Hlt|]; [specialize (Hh Hlt); by rewrite R in Hh by lia|lia]).
  f_equal. apply list_eq_zget; [done|]. intros p Hp. specialize (Rd p Hp). rewrite R in Rd by lia. by injection Rd.
Qed.

(** C24: what is written to a file is read back.  On a mounted volume whose
    device works, [exfs_op_write] of any buffer at any offset of a file comes
    back, it stores a prefix of the buffer, all of it unless no block is free or
    the file has reached its greatest size, and reading that many bytes at that
    offset then returns exactly the stored prefix. *)
Theorem exfs_write_read junk nd offset buf (s : St) :
  running s -> handle s nd -> scratch_ok junk -> 0 <= offset -> offset + zlen buf < 2 ^ 64 ->
  exists w nd1 s1 nd2 s2, exfs_op_write dev junk nd offset buf s = (Some (w, nd1), s1) /\
    0 <= w <= zlen buf /\ (w < zlen buf -> full s1 \/ MAX_BYTES <= offset + w) /\
    exfs_op_read dev nd1 offset w s1 = (Some (take (Z.to_nat w) buf, nd2), s2).
Proof.
  intros R H J Ho Hs. destruct (write_returns junk nd offset buf s R H J Ho Hs) as (w & nd1 & s1 & E & W & R1 & H1).
  destruct (wf_count _ _ _ _ _ _ _ W) as (Hw & Hf & _). pose proof (wf_size _ _ _ _ _ _ _ W) as Sz.
  assert (Lt : zlen (take (Z.to_nat w) buf) = w) by (unfold zlen in *; rewrite length_take; lia).
  destruct (read_returns s1 nd1 offset (take (Z.to_nat w) buf) (rn_geo _ R1) (rn_vol _ R1) (rn_crash _ R1) (hd_file _ _ H1) (hd_inode _ _ H1) (hd_num _ _ H1) Ho ltac:(lia) ltac:(lia) (wrote_reads _ _ _ _ _ _ _ Ho W)) as (nd2 & s2 & E2).
  rewrite Lt in E2. by exists w, nd1, s1, nd2, s2.
Qed.

(** A write keeps the rest of the volume.  The invariants of the volume
    (bitmap on disk and in memory agree, journal empty) and of the file (every
    block in use, in the data area and in one role only) hold again, the inode
    on the disk is that of the node, its size covers the bytes written, the bytes
    of the file outside them are as before, and so are the inode and every byte of
    any other file that shares no block with this one, and it shares none after. *)
Theorem exfs_write_frame junk nd offset buf (s : St) o s1 :
  running s -> handle s nd -> scratch_ok junk -> 0 <= offset -> offset + zlen buf < 2 ^ 64 -> exfs_op_write dev junk nd offset buf s = (o, s1) ->
  exists w nd1, o = Some (w, nd1) /\ running s1 /\ handle s1 nd1 /\ i_size (nd_inode nd1) = Z.max (i_size (nd_inode nd)) (offset + w) /\
    (forall pos x, 0 <= pos < MAX_BYTES -> pos < offset \/ offset + w <= pos -> byte_of s (nd_inode nd) pos = Some x -> byte_of s1 (nd_inode nd1) pos = Some x) /\
    (forall other, handle s other -> nd_inode_num other <> nd_inode_num nd -> apart s (nd_inode nd) (nd_inode other) ->
       handle s1 other /\ apart s1 (nd_inode nd1) (nd_inode other) /\ forall pos, 0 <= pos -> byte_of s1 (nd_inode other) pos = byte_of s (nd_inode other) pos).
Proof.
  intros R H J Ho Hs Eo. destruct (write_returns junk nd offset buf s R H J Ho Hs) as (w & nd1 & s1' & E & W & R1 & H1). rewrite E in Eo. injection Eo as <- <-.
  destruct (wf_count _ _ _ _ _ _ _ W) as (Hw & _). exists w, nd1. split; [done|]. split; [done|]. split; [done|]. split; [apply (wf_size _ _ _ _ _ _ _ W)|]. split.
  - intros pos x Hp Ho' Ex. pose proof (wf_bytes _ _ _ _ _ _ _ W pos Hp) as St. assert (Lt : zlen (take (Z.to_nat w) buf) = w) by (unfold zlen in *; rewrite length_take; lia).
    rewrite Lt in St. destruct (Z.leb_spec offset pos), (Z.ltb_spec pos (offset + w)); try lia; by apply St.
  - intros other [F2 O2 N2 D2] Hne Ap. destruct (wrote_other (rn_geo _ R) _ _ _ _ _ _ _ _ W F2 Ap) as (F3 & Ap3 & By). split; [|done].
    constructor; [done|done|done|]. destruct (wf_others _ _ _ _ _ _ _ W) as (_ & _ & Oi). by rewrite Oi.
Qed.

(** Opening a file after it was written raises no integrity warning.  The
    node is refreshed from the disk with the size and the contents the write
    left, and the stored hash is that of the contents; a read through the new
    node returns the bytes written. *)
Theorem exfs_write_open_read junk nd offset buf (s : St) w nd1 s1 stale :
  running s -> handle s nd -> scratch_ok junk -> 0 <= offset -> offset + zlen buf < 2 ^ 64 ->
  exfs_op_write dev junk nd offset buf s = (Some (w, nd1), s1) -> 0 < w -> nd_inode_num stale = nd_inode_num nd ->
  exists nd2 s2 nd3 s3, exfs_op_open dev junk stale s1 = (Some (nd2, false), s2) /\ i_size (nd_inode nd2) = Z.max (i_size (nd_inode nd)) (offset + w) /\
    exfs_op_read dev nd2 offset w s2 = (Some (take (Z.to_nat w) buf, nd3), s3).
Proof.
  intros R H [J1 J2] Ho Hs Eo Hpos En. destruct (write_returns junk nd offset buf s R H (conj J1 J2) Ho Hs) as (w' & nd1' & s1' & E & W & R1 & H1).
  rewrite E in Eo. injection Eo as -> -> ->. pose proof (wf_num _ _ _ _ _ _ _ W) as Enum. pose proof (hd_disk _ _ H1) as Ed. rewrite Enum, <- En in Ed.
  pose proof R1 as [G Vk1 Au1 Cr1]. pose proof H1 as [F1 O1 N1 _]. rewrite Enum, <- En in N1.
  assert (Hopen : cwp (exfs_op_open dev junk stale) s1 (fun x s' => x.2 = mismatch (B s1) (nd_inode nd1) /\ nd_inode_num x.1 = nd_inode_num stale /\
    recounted (nd_inode nd1) (nd_inode x.1) /\ touched (dev_ok := dev_ok) (sectors := sectors) (g := g) (nd_inode_num stale) s1 s') (fun _ => True))
    by (rewrite <- Ed; apply (exfs_op_open_ok G); rewrite ?Ed; done).
  destruct (alive_cwp _ s1 _ _ (alive_open junk stale) Cr1 Hopen) as ([nd2 warned] & s2 & E2 & C2 & Ew & En2 & Rc & T). cbn [fst snd] in *.
  assert (Ew' : warned = false). { rewrite Ew. unfold mismatch. rewrite (wf_hash _ _ _ _ _ _ _ W Hpos). generalize (take 8 (blake3_digest (contents (B s1) (nd_inode nd1)))). intros h.
    rewrite (bool_decide_true (h = h)) by done. apply andb_false_r. }
  rewrite Ew' in E2. destruct (recounted_ok _ _ Rc O1) as (O2 & Sz2 & _ & _). pose proof (recounted_ptrs _ _ Rc) as P2. destruct (touched_file G _ _ _ _ T F1) as (F2 & _ & _ & By).
  pose proof (wf_size _ _ _ _ _ _ _ W) as Sz. destruct (wf_count _ _ _ _ _ _ _ W) as (Hw & _).
  assert (Lt : zlen (take (Z.to_nat w) buf) = w) by (unfold zlen in *; rewrite length_take; lia).
  destruct (read_returns s2 nd2 offset (take (Z.to_nat w) buf) G (tc_vol _ _ _ T) C2) as (nd3 & s3 & E3).
  - by eapply file_ok_ptrs.
  - done.
  - by rewrite En2.
  - done.
  - lia.
  - lia.
  - intros p Hp. rewrite (byte_of_ptrs s2 _ _ _ P2), By by lia. by apply (wrote_reads s nd offset buf w nd1 s1).
  - rewrite Lt in E3. exists nd2, s2, nd3, s3. split; [done|]. split; [lia|done].
Qed.

End Properties.

(** ** A small volume *)

(** An inode without blocks. *)
Lemma loc_blank f m r : valid r -> loc f (set_imode m inode_zero) r = 0.
Proof.
  revert r. apply role_down. intros r Hr IH. destruct (parent r) as [[p k]|] eqn:E; [by rewrite (loc_child _ _ _ _ _ Hr E), (IH p k eq_refl)|].
  destruct r as [fb| | |j]; try done. cbn [parent loc] in *. destruct (Z.ltb_spec fb EXFS_DIRECT_BLOCKS); [|by destruct (_ <? _)].
  cbn [valid] in Hr. unfold EXFS_DIRECT_BLOCKS in *. change (i_direct (set_imode m inode_zero)) with (replicate (Z.to_nat 12) 0). apply zget_replicate. lia.
Qed.

Module IoDemo.
Import Mapdisk VolumeDemo.
#[local] Abbreviation dev := mapdisk.
#[local] Abbreviation running := (running (dev_ok := map_ok) (sectors := sectors) (g := layout)).
#[local] Abbreviation handle := (handle (sectors := sectors) (g := layout)).

(** Inode 1, blank, and five thousand bytes. *)
Definition node : exfs_node_data := mk_nd 1 inode_zero.
Definition data : list Z := replicate 5000 7.

Lemma blank_inodes : inode_in (g := layout) (B (sectors := sectors) (g := layout) start) <$> seqZ 0 16 = replicate 16 inode_zero.
Proof. vm_compute. reflexivity. Qed.

Lemma blank_handle n : 0 <= n < 16 -> handle start (mk_nd n inode_zero).
Proof.
  intros Hn. constructor.
  - constructor; [done| |]; cbn [nd_inode]; intros r; [|intros r' Hr]; rewrite ?(loc_blank _ 0) by done; try done. intros Hr. by rewrite (loc_blank _ 0).
  - by constructor; cbn; repeat constructor.
  - split; [cbn; lia|]. unfold iblk. cbn [nd_inode_num]. change INODES_PER_BLOCK with 16. rewrite Z.div_small by lia. done.
  - cbn [nd_inode nd_inode_num]. pose proof blank_inodes as E. apply (f_equal (fun l => l !! Z.to_nat n)) in E.
    rewrite list_lookup_fmap, lookup_seqZ_lt, lookup_replicate_2 in E by lia. cbn [fmap option_fmap option_map] in E. apply (inj Some) in E. by rewrite Z2Nat.id in E by lia.
Qed.

Lemma start_running : running start.
Proof. constructor; [apply layout_ok|apply start_ok|by unfold audit_ok; cbn|done]. Qed.

Lemma junk3_ok : scratch_ok junk3.
Proof. done. Qed.

Lemma data_len : 100 + zlen data < 2 ^ 64.
Proof. unfold data, zlen. rewrite length_replicate. lia. Qed.

Lemma exfs_write_read_witness :
  (running start /\ handle start node /\ scratch_ok junk3 /\ 100 + zlen data < 2 ^ 64) /\
  exists w nd1 s1 nd2 s2, exfs_op_write dev junk3 node 100 data start = (Some (w, nd1), s1) /\ exfs_op_read dev nd1 100 w s1 = (Some (take (Z.to_nat w) data, nd2), s2).
Proof.
  split; [split; [apply start_running|split; [by apply blank_handle|split; [apply junk3_ok|apply data_len]]]|].
  destruct (exfs_write_read (dev := dev) junk3 node 100 data start start_running (blank_handle 1 ltac:(lia)) junk3_ok ltac:(lia) data_len) as (w & nd1 & s1 & nd2 & s2 & E1 & _ & _ & E2).
  exists w, nd1, s1, nd2, s2. split; [exact E1|exact E2].
Defined.

Lemma exfs_write_frame_witness :
  (handle start node /\ handle start (mk_nd 2 inode_zero) /\ apart (sectors := sectors) (g := layout) start inode_zero inode_zero) /\
  exists w nd1, (exfs_op_write dev junk3 node 100 data start).1 = Some (w, nd1) /\ handle (exfs_op_write dev junk3 node 100 data start).2 (mk_nd 2 inode_zero).
Proof.
  assert (Ap : apart (sectors := sectors) (g := layout) start inode_zero inode_zero) by (intros r r' Hr _; by rewrite (loc_blank _ 0)).
  split; [split; [by apply blank_handle|split; [by apply blank_handle|done]]|].
  destruct (exfs_write_frame (dev := dev) junk3 node 100 data start _ _ start_running (blank_handle 1 ltac:(lia)) junk3_ok ltac:(lia) data_len (surjective_pairing _)) as (w & nd1 & E & _ & _ & _ & _ & O).
  exists w, nd1. split; [exact E|]. exact (proj1 (O (mk_nd 2 inode_zero) (blank_handle 2 ltac:(lia)) ltac:(done) Ap)).
Defined.


Lemma exfs_write_open_read_witness :
  exists w nd1 s1, exfs_op_write dev junk3 node 100 [1; 2; 3] start = (Some (w, nd1), s1) /\ 0 < w /\
  exists nd2 s2 nd3 s3, exfs_op_open dev junk3 (mk_nd 1 inode_zero) s1 = (Some (nd2, false), s2) /\ exfs_op_read dev nd2 100 w s2 = (Some (take (Z.to_nat w) [1; 2; 3], nd3), s3).
Proof.
  destruct (exfs_op_write dev junk3 node 100 [1; 2; 3] start) as [[[w nd1]|] s1] eqn:E; [|exfalso; revert E; vm_compute; discriminate].
  assert (Hw : w = 3) by (revert E; vm_compute; congruence). exists w, nd1, s1. split; [reflexivity|]. split; [lia|].
  destruct (exfs_write_open_read (dev := dev) junk3 node 100 [1; 2; 3] start w nd1 s1 (mk_nd 1 inode_zero) start_running (blank_handle 1 ltac:(lia)) junk3_ok ltac:(lia) ltac:(done) E ltac:(lia) eq_refl)
    as (nd2 & s2 & nd3 & s3 & E2 & _ & E3). exists nd2, s2, nd3, s3. split; [exact E2|exact E3].
Defined.

End IoDemo.
