(* ===== verification/ExfsDir.v ===== *)
(** * ExFS: directories, mount and format (kernel/fs/exfs/exfs.c)

    Directory entries, and the operations that look up, list, create, link,
    remove and rename them, each as one journal transaction; mounting and
    formatting a volume. *)

From S2P Require Import Prelude AuditRing Blake3 BlockDev Journal ExfsFile.

(** ** Directory entries *)

Definition EXFS_NAME_MAX : Z := 255.
Definition EXFS_MAX_DIR_BLOCKS : Z := EXFS_DIRECT_BLOCKS + EXFS_INDIRECT_PTRS + EXFS_INDIRECT_PTRS * EXFS_INDIRECT_PTRS.

(** The packed struct: 268 bytes. *)
Definition SIZEOF_DIRENT : Z := 268.
Record exfs_dirent := mk_de { de_inode_num : Z; de_name_len : Z; de_file_type : Z; de_name : list Z }.
#[export] Instance dirent_inhabited : Inhabited exfs_dirent := populate (mk_de 0 0 0 []).

Definition dirent_at (b : list Z) (off : Z) : exfs_dirent :=
  mk_de (le_at 8 b off) (le_at 2 b (off + 8)) (le_at 1 b (off + 10)) (take 256 (drop (Z.to_nat (off + 12)) b)).

(** A fresh entry: [memset] to 0, then the fields. *)
Definition dirent_bytes (ino ftype : Z) (name : list Z) : list Z :=
  le_bytes 8 ino ++ le_bytes 2 (zlen name) ++ [u8 ftype; 0] ++ name ++ replicate (Z.to_nat (256 - zlen name)) 0.

(** The 15 entries of a block: [while (off + sizeof(exfs_dirent_t) <= EXFS_BLOCK_SIZE)]. *)
Definition DIRENTS_PER_BLOCK : Z := EXFS_BLOCK_SIZE / SIZEOF_DIRENT.
Definition dirents (b : list Z) : list exfs_dirent := (fun k => dirent_at b (k * SIZEOF_DIRENT)) <$> seqZ 0 DIRENTS_PER_BLOCK.

Definition de_matches (name : list Z) (de : exfs_dirent) : bool :=
  negb (de_inode_num de =? 0) && (de_name_len de =? u16 (zlen name)) && bool_decide (take (Z.to_nat (de_name_len de)) (de_name de) = take (Z.to_nat (de_name_len de)) name).

Definition de_free (de : exfs_dirent) : bool := de_inode_num de =? 0.

(** [memset(de, 0, sizeof(exfs_dirent_t))] on entry [k] of a block. *)
Definition clear_dirent (b : list Z) (k : Z) : list Z := memset b (k * SIZEOF_DIRENT) 0 SIZEOF_DIRENT.

Section Dir.
Context {D : Type} (dev : block_device D).
#[local] Abbreviation IO := (M (exfs D)).

(** ** Scanning a directory *)

Inductive scan_result :=
| Found (blk : Z) (buf : list Z) (k : Z)  (* entry [k] of block [blk] satisfies the test *)
| Hole (b : Z)                            (* the directory ends before block [b] *)
| Unreadable
| Full.                                   (* all [EXFS_MAX_DIR_BLOCKS] blocks were scanned *)

(** [for (b = 0; b < EXFS_MAX_DIR_BLOCKS; b++)] over the entries, with [read] for
    the blocks; [n] blocks to go. *)
Fixpoint scan_dir (read : Z -> list Z -> IO (bool * list Z)) (test : exfs_dirent -> bool) (i : exfs_inode) (n : nat) (b : Z) : IO scan_result :=
  match n with
  | O => mret Full
  | S n' =>
      r <-- exfs_resolve_block dev i b false ;;
      if r.1.1 =? 0 then mret (Hole b) else
      x <-- read r.1.1 zero_block ;;
      if negb x.1 then mret Unreadable else
      let k := find_from test (dirents x.2) 0 in
      if 0 <=? k then mret (Found r.1.1 x.2 k) else scan_dir read test i n' (b + 1)
  end.

Definition scan (read : Z -> list Z -> IO (bool * list Z)) (test : exfs_dirent -> bool) (i : exfs_inode) : IO scan_result :=
  scan_dir read test i (Z.to_nat EXFS_MAX_DIR_BLOCKS) 0.

(** The entry found and its inode; the caller makes the node. *)
Definition exfs_op_lookup (dir : exfs_node_data) (name : list Z) : IO (option (exfs_dirent * exfs_inode)) :=
  r <-- scan (exfs_read_block dev) (de_matches name) (nd_inode dir) ;;
  match r with
  | Found _ buf k =>
      let de := (dirents buf).[k] in
      i <-- exfs_read_inode dev (de_inode_num de) ;;
      mret (match i with Some i => Some (de, i) | None => None end)
  | _ => mret None
  end.

(** One listed entry: inode, type and name. *)
Definition listed (de : exfs_dirent) : Z * Z * list Z :=
  (de_inode_num de, de_file_type de, take (Z.to_nat (Z.min (de_name_len de) 255)) (de_name de)).

(** The inner loop of [exfs_op_readdir]: entries to skip, entries listed. *)
Fixpoint list_block (des : list exfs_dirent) (max skip : Z) (acc : list (Z * Z * list Z)) : Z * list (Z * Z * list Z) :=
  match des with
  | [] => (skip, acc)
  | de :: des' =>
      if max <=? zlen acc then (skip, acc) else
      if de_free de then list_block des' max skip acc else
      if 0 <? skip then list_block des' max (skip - 1) acc else list_block des' max skip (acc ++ [listed de])
  end.

Fixpoint readdir_loop (n : nat) (b : Z) (i : exfs_inode) (max skip : Z) (acc : list (Z * Z * list Z)) : IO (list (Z * Z * list Z)) :=
  match n with
  | O => mret acc
  | S n' =>
      if max <=? zlen acc then mret acc else
      r <-- exfs_resolve_block dev i b false ;;
      if r.1.1 =? 0 then mret acc else
      x <-- exfs_read_block dev r.1.1 zero_block ;;
      if negb x.1 then mret acc else
      let '(skip, acc) := list_block (dirents x.2) max skip acc in
      readdir_loop n' (b + 1) i max skip acc
  end.

Definition exfs_op_readdir (dir : exfs_node_data) (offset max : Z) : IO (list (Z * Z * list Z)) :=
  readdir_loop (Z.to_nat EXFS_MAX_DIR_BLOCKS) 0 (nd_inode dir) max offset [].

(** ** Creating entries *)

(** Whether the name is taken; an unreadable block ends the search. *)
Definition name_exists (dir : exfs_node_data) (name : list Z) : IO bool :=
  r <-- scan (exfs_read_block dev) (de_matches name) (nd_inode dir) ;;
  mret (match r with Found _ _ _ => true | _ => false end).

(** The first unused inode of a table block whose inodes start at [first]. *)
Definition free_in_block (buf : list Z) (first : Z) : Z :=
  find_from (fun i => negb (first + i =? 0) && (i_mode (inode_at buf (i * EXFS_INODE_SIZE)) =? 0) && (i_size (inode_at buf (i * EXFS_INODE_SIZE)) =? 0))
    (seqZ 0 INODES_PER_BLOCK) 0.

(** 0: there is none, or the table cannot be read. *)
Fixpoint find_free_inode (n : nat) (b : Z) : IO Z :=
  match n with
  | O => mret 0
  | S n' =>
      s <-- get ;;
      r <-- exfs_read_block dev (u64 (sb_inode_table_block (v_sb (x_vol s)) + b)) zero_block ;;
      if negb r.1 then mret 0 else
      let k := free_in_block r.2 (b * INODES_PER_BLOCK) in
      if 0 <=? k then mret (b * INODES_PER_BLOCK + k) else find_free_inode n' (b + 1)
  end.

Definition free_inode : IO Z :=
  s <-- get ;; find_free_inode (Z.to_nat (sb_total_inodes (v_sb (x_vol s)) / INODES_PER_BLOCK)) 0.

(** The second half of [exfs_op_create] and [exfs_op_symlink]: a slot for the
    entry, in a new block if none is free, the entry, and the commit. *)
Definition add_dirent (dir : exfs_node_data) (name : list Z) (ino ftype : Z) : IO (bool * exfs_node_data) :=
  r <-- scan (exfs_txn_read_block dev) de_free (nd_inode dir) ;;
  slot <-- (match r with
            | Found blk buf k => mret (Some (blk, buf, k), dir)
            | Hole b =>
                x <-- exfs_resolve_block dev (nd_inode dir) b true ;;
                let '(blk, i, dirty) := x in
                let dir := mk_nd (nd_inode_num dir) i in
                if blk =? 0 then mret (None, dir) else
                _ <-- (if dirty : bool then exfs_write_inode dev (nd_inode_num dir) i else mret true) ;;
                mret (Some (blk, zero_block, 0), dir)
            | _ => mret (None, dir)
            end) ;;
  match slot with
  | (None, dir) => _ <-- exfs_journal_commit dev ;; mret (false, dir)
  | (Some (blk, buf, k), dir) =>
      _ <-- exfs_meta_write_block dev blk (memcpy buf (k * SIZEOF_DIRENT) (dirent_bytes ino ftype name)) ;;
      _ <-- exfs_journal_commit dev ;;
      mret (true, dir)
  end.

Definition new_inode (mode size blk uid gid : Z) (hash : list Z) : exfs_inode :=
  mk_inode size 0 0 1 mode ((replicate 12 0).[0 <- blk]) 0 0 0 0 0 hash uid gid (replicate 8 0).

(** The new inode and its number; [uid] and [gid] are those of [g_current_proc],
    or of root.  The caller makes the node. *)
Definition exfs_op_create (uid gid : Z) (dir : exfs_node_data) (name : list Z) (ftype : Z) : IO (option (Z * exfs_inode) * exfs_node_data) :=
  if (zlen name =? 0) || (EXFS_NAME_MAX <? zlen name) then mret (None, dir) else
  dup <-- name_exists dir name ;;
  if dup : bool then mret (None, dir) else
  ino <-- free_inode ;;
  if ino =? 0 then mret (None, dir) else
  _ <-- exfs_journal_begin ;;
  let i := new_inode (if ftype =? 1 then 0x1ed else 0x1a4) 0 0 uid gid (replicate 8 0) in
  _ <-- exfs_write_inode dev ino i ;;
  r <-- add_dirent dir name ino ftype ;;
  mret (if r.1 : bool then Some (ino, i) else None, r.2).

Definition exfs_op_symlink (junk : blake3_ctx) (uid gid : Z) (dir : exfs_node_data) (name target : list Z) : IO (Z * exfs_node_data) :=
  if (zlen name =? 0) || (EXFS_NAME_MAX <? zlen name) then mret (-1, dir) else
  if (zlen target =? 0) || (EXFS_NAME_MAX <? zlen target) then mret (-1, dir) else
  dup <-- name_exists dir name ;;
  if dup : bool then mret (-1, dir) else
  ino <-- free_inode ;;
  if ino =? 0 then mret (-1, dir) else
  _ <-- exfs_journal_begin ;;
  blk <-- exfs_alloc_block dev ;;
  if blk =? 0 then _ <-- exfs_journal_commit dev ;; mret (-1, dir) else
  _ <-- exfs_meta_write_block dev blk (memcpy zero_block 0 target) ;;
  _ <-- exfs_write_inode dev ino (new_inode 0x1ff (zlen target) blk uid gid (take 8 (default [] (blake3_hash junk target)))) ;;
  r <-- add_dirent dir name ino 2 ;;
  mret (if r.1 : bool then 0 else -1, r.2).

(** ** Removing entries *)

(** [if (p) exfs_free_block(vol, p)] over a list. *)
Fixpoint free_blocks (ps : list Z) : IO unit :=
  match ps with
  | [] => mret tt
  | p :: ps' => _ <-- (if p =? 0 then mret tt else exfs_free_block dev p) ;; free_blocks ps'
  end.

(** The pointers of a pointer block. *)
Definition ptrs (b : list Z) : list Z := ptr_at b <$> seqZ 0 EXFS_INDIRECT_PTRS.

(** Free everything the pointer block [blk] names, and the block. *)
Definition free_table (blk : Z) : IO unit :=
  r <-- exfs_read_block dev blk zero_block ;;
  _ <-- (if r.1 : bool then free_blocks (ptrs r.2) else mret tt) ;;
  exfs_free_block dev blk.

Fixpoint free_tables (ps : list Z) : IO unit :=
  match ps with
  | [] => mret tt
  | p :: ps' => _ <-- (if p =? 0 then mret tt else free_table p) ;; free_tables ps'
  end.

Definition free_file (i : exfs_inode) : IO unit :=
  _ <-- free_blocks (i_direct i) ;;
  _ <-- (if i_indirect i =? 0 then mret tt else free_table (i_indirect i)) ;;
  if i_double_indirect i =? 0 then mret tt else
  r <-- exfs_read_block dev (i_double_indirect i) zero_block ;;
  _ <-- (if r.1 : bool then free_tables (ptrs r.2) else mret tt) ;;
  exfs_free_block dev (i_double_indirect i).

(** Remove entry [k] of block [blk] and blank the inode, then free the blocks. *)
Definition remove_entry (blk : Z) (buf : list Z) (k ino : Z) (i : exfs_inode) : IO unit :=
  _ <-- exfs_journal_begin ;;
  _ <-- exfs_write_inode dev ino inode_zero ;;
  _ <-- exfs_meta_write_block dev blk (clear_dirent buf k) ;;
  _ <-- exfs_journal_commit dev ;;
  _ <-- crash_point 4 ;;
  free_file i.

Definition exfs_op_unlink (dir : exfs_node_data) (name : list Z) : IO Z :=
  if (zlen name =? 0) || (EXFS_NAME_MAX <? zlen name) then mret (-1) else
  r <-- scan (exfs_read_block dev) (de_matches name) (nd_inode dir) ;;
  match r with
  | Found blk buf k =>
      let de := (dirents buf).[k] in
      if de_file_type de =? 1 then mret (-2) else
      c <-- exfs_read_inode dev (de_inode_num de) ;;
      match c with
      | None => mret (-1)
      | Some cin => _ <-- remove_entry blk buf k (de_inode_num de) cin ;; mret 0
      end
  | _ => mret (-1)
  end.

Definition exfs_dir_is_empty (i : exfs_inode) : IO bool :=
  r <-- scan (exfs_read_block dev) (fun de => negb (de_free de)) i ;;
  mret (match r with Found _ _ _ | Unreadable => false | Hole _ | Full => true end).

Definition exfs_op_rmdir (dir : exfs_node_data) (name : list Z) : IO Z :=
  if (zlen name =? 0) || (EXFS_NAME_MAX <? zlen name) then mret (-1) else
  if bool_decide (name = [46]) || bool_decide (name = [46; 46]) then mret (-1) else
  r <-- scan (exfs_read_block dev) (de_matches name) (nd_inode dir) ;;
  match r with
  | Found blk buf k =>
      let de := (dirents buf).[k] in
      if negb (de_file_type de =? 1) then mret (-3) else
      c <-- exfs_read_inode dev (de_inode_num de) ;;
      match c with
      | None => mret (-1)
      | Some cin =>
          e <-- exfs_dir_is_empty cin ;;
          if negb e then mret (-2) else
          _ <-- remove_entry blk buf k (de_inode_num de) cin ;; mret 0
      end
  | _ => mret (-1)
  end.

(** ** Renaming *)

(** [same_node] is [old_dir == new_dir]; then both are one node. *)
Definition exfs_op_rename (same_node : bool) (old_dir : exfs_node_data) (old_name : list Z) (new_dir : exfs_node_data) (new_name : list Z) :
    IO (Z * exfs_node_data) :=
  if (zlen old_name =? 0) || (EXFS_NAME_MAX <? zlen old_name) then mret (-1, new_dir) else
  if (zlen new_name =? 0) || (EXFS_NAME_MAX <? zlen new_name) then mret (-1, new_dir) else
  src <-- scan (exfs_read_block dev) (de_matches old_name) (nd_inode old_dir) ;;
  match src with
  | Found src_blk old_buf src_k =>
      let src_de := (dirents old_buf).[src_k] in
      if same_node && bool_decide (old_name = new_name) then mret (0, new_dir) else
      existing <-- exfs_op_lookup new_dir new_name ;;
      gone <-- (match existing with
                | Some (de, _) => if de_file_type de =? 1 then mret false else r <-- exfs_op_unlink new_dir new_name ;; mret (r =? 0)
                | None => mret true
                end) ;;
      if negb gone then mret (-1, new_dir) else
      dst <-- scan (exfs_read_block dev) de_free (nd_inode new_dir) ;;
      match dst with
      | Unreadable | Full => mret (-1, new_dir)
      | _ =>
          _ <-- exfs_journal_begin ;;
          (* the destination block, its contents and the slot *)
          slot <-- (match dst with
                    | Hole b =>
                        x <-- exfs_resolve_block dev (nd_inode new_dir) b true ;;
                        let '(nb, i, dirty) := x in
                        let new_dir := mk_nd (nd_inode_num new_dir) i in
                        if nb =? 0 then mret (None, new_dir) else
                        _ <-- (if dirty : bool then exfs_write_inode dev (nd_inode_num new_dir) i else mret true) ;;
                        mret (Some (nb, zero_block, 0), new_dir)
                    | Found blk buf k =>
                        if negb (blk =? src_blk) then
                          r <-- exfs_read_block dev blk buf ;;
                          mret (if r.1 : bool then Some (blk, r.2, k) else None, new_dir)
                        else mret (Some (blk, buf, k), new_dir)
                    | _ => mret (None, new_dir)
                    end) ;;
          match slot with
          | (None, new_dir) => _ <-- exfs_journal_commit dev ;; mret (-1, new_dir)
          | (Some (blk, buf, k), new_dir) =>
              cleared <-- (if blk =? src_blk then mret (Some (clear_dirent buf src_k)) else
                           r <-- exfs_read_block dev src_blk zero_block ;;
                           if negb r.1 then mret None else
                           _ <-- exfs_meta_write_block dev src_blk (clear_dirent r.2 src_k) ;; mret (Some buf)) ;;
              match cleared with
              | None => _ <-- exfs_journal_commit dev ;; mret (-1, new_dir)
              | Some buf =>
                  _ <-- exfs_meta_write_block dev blk
                          (memcpy buf (k * SIZEOF_DIRENT) (dirent_bytes (de_inode_num src_de) (de_file_type src_de) new_name)) ;;
                  _ <-- exfs_journal_commit dev ;;
                  mret (0, new_dir)
              end
          end
      end
  | _ => mret (-1, new_dir)
  end.

(** ** Mount *)

(** The superblock at the start of block 0. *)
Definition sb_at (b : list Z) : exfs_superblock :=
  mk_sb (le_at 4 b 0) (le_at 4 b 4) (le_at 8 b 8) (le_at 8 b 16) (le_at 8 b 24) (le_at 8 b 32) (le_at 8 b 40) (le_at 8 b 48) (le_at 8 b 56)
    (le_at 8 b 64) (le_at 8 b 72) (take 16 (drop 80 b)) (le_at 8 b 96) (le_at 8 b 104) (le_at 8 b 112).

Definition sb_bytes (b : exfs_superblock) : list Z :=
  le_bytes 4 (sb_magic b) ++ le_bytes 4 (sb_version b) ++ le_bytes 8 (sb_total_blocks b) ++ le_bytes 8 (sb_free_blocks b) ++
  le_bytes 8 (sb_total_inodes b) ++ le_bytes 8 (sb_free_inodes b) ++ le_bytes 8 (sb_inode_table_block b) ++ le_bytes 8 (sb_block_bitmap_block b) ++
  le_bytes 8 (sb_data_start_block b) ++ le_bytes 8 (sb_provenance_block b) ++ le_bytes 8 (sb_provenance_size b) ++ sb_fs_uuid b ++
  le_bytes 8 (sb_journal_block b) ++ le_bytes 8 (sb_journal_size b) ++ le_bytes 8 (sb_bitmap_size b) ++ replicate (Z.to_nat 3976) 0.

(** [kzalloc(sizeof(exfs_volume_t))]. *)
Definition vol_zero (lba_base : Z) (cache : option (list exfs_cache_entry)) : exfs_volume :=
  mk_vol (mk_sb 0 0 0 0 0 0 0 0 0 0 0 (replicate 16 0) 0 0 0) [] lba_base cache 0 false 0 (replicate 16 0) None.

(** The bitmap blocks, [n] to go from block [i] of the bitmap; [false]: one cannot be read. *)
Fixpoint load_bitmap (n : nat) (i : Z) (ok : bool) (acc : list Z) : IO (bool * list Z) :=
  match n with
  | O => mret (ok, acc)
  | S n' =>
      s <-- get ;;
      r <-- exfs_read_block dev (u64 (sb_block_bitmap_block (v_sb (x_vol s)) + i)) zero_block ;;
      load_bitmap n' (i + 1) (ok && r.1) (acc ++ r.2)
  end.

Definition set_sb (b : exfs_superblock) (v : exfs_volume) : exfs_volume :=
  mk_vol b (v_block_bitmap v) (v_dev_lba_base v) (v_cache v) (v_cache_next_evict v) (v_jtxn_active v) (v_jtxn_count v) (v_jtxn_blocks v) (v_jtxn_data v).

(** [exfs_mount] on a device whose volume was just allocated; [cache_mem],
    [bitmap_mem] and [journal_mem] say which of the buffers could be allocated.
    The result is the inode of the root directory. *)
Definition exfs_mount (lba_base : Z) (cache_mem bitmap_mem journal_mem : bool) : IO (option exfs_node_data) :=
  _ <-- modify_vol (fun _ => vol_zero lba_base (if cache_mem then Some (replicate 64 (mk_ce 0 false zero_block)) else None)) ;;
  r <-- exfs_read_block dev 0 zero_block ;;
  if negb r.1 then mret None else
  _ <-- modify_vol (set_sb (sb_at r.2)) ;;
  if negb (sb_magic (sb_at r.2) =? EXFS_MAGIC) then mret None else
  if negb bitmap_mem then mret None else
  s <-- get ;;
  bm <-- load_bitmap (Z.to_nat (bitmap_blocks (x_vol s))) 0 true [] ;;
  if negb bm.1 then mret None else
  _ <-- modify_vol (set_bitmap bm.2) ;;
  _ <-- modify_vol (for_loop (Z.to_nat (sb_data_start_block (sb_at r.2))) 0 bitmap_set) ;;
  _ <-- modify_vol (fun v => set_txn false 0 (v_jtxn_blocks v) (if journal_mem then Some (replicate 16 zero_block) else None) v) ;;
  _ <-- exfs_journal_replay dev ;;
  root <-- exfs_read_inode dev 0 ;;
  mret (Some (mk_nd 0 (default inode_zero root))).

(** ** Format *)

Definition EXFS_MAX_INODES : Z := 4096.
Definition EXFS_VERSION : Z := 1.
Definition BITS_PER_BLK : Z := EXFS_BLOCK_SIZE * 8.

(** The layout of a fresh volume; [None] when it is too small. *)
Definition format_sb (total_blocks : Z) : option exfs_superblock :=
  let inode_blocks := (EXFS_MAX_INODES * EXFS_INODE_SIZE + EXFS_BLOCK_SIZE - 1) / EXFS_BLOCK_SIZE in
  let bitmap_size := Z.max 1 (u64 (total_blocks + BITS_PER_BLK - 1) / BITS_PER_BLK) in
  let inode_table_block := 1 + bitmap_size in
  let provenance_size := 16 in
  let journal_size := 1 + EXFS_JOURNAL_MAX_BLOCKS in
  if total_blocks <=? inode_table_block + inode_blocks + provenance_size + journal_size then None else
  let data_start_block := inode_table_block + inode_blocks in
  let provenance_block := total_blocks - provenance_size in
  Some (mk_sb EXFS_MAGIC EXFS_VERSION total_blocks (total_blocks - data_start_block - provenance_size - journal_size) EXFS_MAX_INODES
          (EXFS_MAX_INODES - 1) inode_table_block 1 data_start_block provenance_block provenance_size (replicate 16 0)
          (provenance_block - journal_size) journal_size bitmap_size).

(** Whether a fresh bitmap has the block in use. *)
Definition format_used (b : exfs_superblock) (blk : Z) : bool :=
  (blk <? sb_data_start_block b) || ((sb_provenance_block b <=? blk) && (blk <? sb_total_blocks b)) ||
  ((sb_journal_block b <=? blk) && (blk <? sb_journal_block b + sb_journal_size b)).

(** Block [bb] of the fresh bitmap. *)
Definition format_bitmap (b : exfs_superblock) (bb : Z) : list Z :=
  let lo := bb * BITS_PER_BLK in
  let lim := Z.min (lo + BITS_PER_BLK) (sb_total_blocks b) in
  for_loop (Z.to_nat (lim - lo)) lo (fun blk buf =>
    if format_used b blk then buf.[(blk - lo) / 8 <- Z.lor buf.[(blk - lo) / 8] (bit_mask (blk - lo))] else buf) zero_block.

(** Write [f i] to block [first + i] for [n] blocks from [i] on; stop at a failure. *)
Fixpoint write_run (n : nat) (first i : Z) (f : Z -> list Z) : IO bool :=
  match n with
  | O => mret true
  | S n' => ok <-- exfs_write_block dev (first + i) (f i) ;; if negb ok then mret false else write_run n' first (i + 1) f
  end.

Definition exfs_format (lba_base total_blocks : Z) : IO bool :=
  match format_sb total_blocks with
  | None => mret false
  | Some b =>
      _ <-- modify_vol (fun _ => set_sb b (vol_zero lba_base None)) ;;
      ok <-- exfs_write_block dev 0 (sb_bytes b) ;;
      if negb ok then mret false else
      ok <-- write_run (Z.to_nat (sb_data_start_block b - sb_inode_table_block b)) (sb_inode_table_block b) 0 (fun _ => zero_block) ;;
      if negb ok then mret false else
      ok <-- write_run (Z.to_nat (sb_bitmap_size b)) (sb_block_bitmap_block b) 0 (format_bitmap b) ;;
      if negb ok then mret false else
      ok <-- write_run (Z.to_nat (sb_journal_size b)) (sb_journal_block b) 0 (fun _ => zero_block) ;;
      if negb ok then mret false else
      exfs_write_inode dev 0 (set_imode 0x1ed inode_zero)
  end.

End Dir.

(** ** A small volume *)

Module DirDemo.

(** 40 blocks: superblock 0, bitmap 1, two blocks of inodes (32 inodes), data from 4 on, journal 20 to 36, provenance 37 to 39. *)
Definition sb : exfs_superblock := mk_sb EXFS_MAGIC 1 40 16 32 31 2 1 4 37 3 (replicate 16 0) 20 17 1.
Abbreviation disk := (gmap Z (list Z)).
Definition dev : block_device disk := Mapdisk.mapdisk.
#[local] Abbreviation IO := (M (exfs disk)).

Definition blank_disk : exfs disk := mk_exfs (set_sb sb (vol_zero 0 None)) (Mapdisk.blank 320) 0 audit_init.

(** The volume on the disk, mounted. *)
Definition fresh : IO (option exfs_node_data) :=
  _ <-- exfs_write_block dev 0 (sb_bytes sb) ;;
  _ <-- exfs_write_block dev 1 (format_bitmap sb 0) ;;
  _ <-- exfs_write_inode dev 0 (set_imode 0x1ed inode_zero) ;;
  exfs_mount dev 0 true true true.

Definition result {A} (m : IO A) : option A := (m blank_disk).1.

Definition NAME_D : list Z := [100].
Definition NAME_F : list Z := [102].
Definition NAME_G : list Z := [103].

(** Create, write, look up, read. *)
Definition session : IO (option (list Z)) :=
  r <-- fresh ;;
  match r with
  | None => mret None
  | Some root =>
      c <-- exfs_op_create dev 0 0 root NAME_F 0 ;;
      match c.1 with
      | None => mret None
      | Some (n, i) =>
          _ <-- exfs_op_write dev junk3 (mk_nd n i) 4090 [1; 2; 3; 4; 5; 6; 7; 8; 9] ;;
          l <-- exfs_op_lookup dev c.2 NAME_F ;;
          match l with
          | None => mret None
          | Some (de, i) => d <-- exfs_op_read dev (mk_nd (de_inode_num de) i) 4092 100 ;; mret (Some d.1)
          end
      end
  end.

Example session_result : result session = Some (Some [3; 4; 5; 6; 7; 8; 9]).
Proof. vm_compute. reflexivity. Qed.

(** Run [k] on the root directory of a fresh volume. *)
Definition on_root {A} (k : exfs_node_data -> IO (option A)) : option A :=
  match result (r <-- fresh ;; match r with Some root => k root | None => mret None end) with Some x => x | None => None end.

(** Create a file and go on with its node and the directory. *)
Definition create {A} (dir : exfs_node_data) (name : list Z) (ftype : Z) (k : exfs_node_data -> exfs_node_data -> IO (option A)) : IO (option A) :=
  c <-- exfs_op_create dev 0 0 dir name ftype ;; match c.1 with Some (n, i) => k (mk_nd n i) c.2 | None => mret None end.

(** [vfs_rename] looks the two directories up one after the other, so for one
    directory below the root [exfs_op_rename] gets two nodes and its test
    [old_dir == new_dir] is false: renaming a file to its own name removes it.
    The call returns 0 and the name leads to a blank inode. *)
Example rename_to_itself :
  on_root (fun root => create root NAME_D 1 (fun d root => create d NAME_F 0 (fun f d =>
    r <-- exfs_op_rename dev false d NAME_F d NAME_F ;;
    l <-- exfs_op_lookup dev d NAME_F ;;
    mret (match l with Some (de, i) => Some (r.1, i_mode (nd_inode f), i_mode i) | None => None end)))) = Some (0, 0x1a4, 0).
Proof. vm_compute. reflexivity. Qed.

(** A write past the end of a file goes to a new block whose other bytes are not
    cleared: the file shows what a removed file had there. *)
Example stale_bytes :
  on_root (fun root => create root NAME_F 0 (fun f root =>
    w <-- exfs_op_write dev junk3 f 0 [83; 69; 67; 82; 69; 84] ;;
    _ <-- exfs_op_unlink dev root NAME_F ;;
    (* the first free block is the one that held the data again *)
    create root NAME_G 0 (fun h root =>
      w <-- exfs_op_write dev junk3 h 6 [33] ;;
      d <-- exfs_op_read dev w.2 0 100 ;; mret (Some d.1)))) = Some [83; 69; 67; 82; 69; 84; 33].
Proof. vm_compute. reflexivity. Qed.

(** The records of every inode start at slot 0 of the one record area: the write
    to the second file overwrites the record of the first (the length is at byte 32). *)
Example records_overwritten :
  on_root (fun root => create root NAME_F 0 (fun f root => create root NAME_G 0 (fun h root =>
    _ <-- exfs_op_write dev junk3 f 0 [1; 2; 3; 4; 5] ;;
    a <-- exfs_read_block dev 37 zero_block ;;
    _ <-- exfs_op_write dev junk3 h 0 [1; 2; 3; 4; 5; 6; 7] ;;
    b <-- exfs_read_block dev 37 zero_block ;;
    mret (Some (le_at 8 a.2 32, le_at 8 b.2 32, le_at 8 b.2 72))))) = Some (5, 7, 0).
Proof. vm_compute. reflexivity. Qed.

(** A write of no bytes past the end of a file makes it longer. *)
Example empty_write_grows :
  on_root (fun root => create root NAME_F 0 (fun f root =>
    w <-- exfs_op_write dev junk3 f 100 [] ;; mret (Some (w.1, i_size (nd_inode w.2))))) = Some (0, 100).
Proof. vm_compute. reflexivity. Qed.

(** Inside a transaction [exfs_resolve_block] reads a pointer block it has just
    allocated from the disk, where the zeroes are not yet: it returns a number
    that the block held before it was freed. *)
Example stale_pointer :
  on_root (fun root =>
    _ <-- exfs_write_block dev 4 (memcpy zero_block 0 (le_bytes 8 99)) ;;
    _ <-- exfs_journal_begin ;;
    r <-- exfs_resolve_block dev inode_zero 12 true ;; mret (Some (i_indirect r.1.2, r.1.1))) = Some (4, 99).
Proof. vm_compute. reflexivity. Qed.

(** The free count of the superblock on the disk is that of the format. *)
Example free_count_stale :
  on_root (fun root => create root NAME_F 0 (fun f root =>
    _ <-- exfs_op_write dev junk3 f 0 [1] ;;
    s <-- get ;;
    b <-- exfs_read_block dev 0 zero_block ;; mret (Some (sb_free_blocks (v_sb (x_vol s)), sb_free_blocks (sb_at b.2))))) = Some (14, 16).
Proof. vm_compute. reflexivity. Qed.

End DirDemo.
