(* ===== verification/ExfsUnlink.v ===== *)
(** * ExFS: removing a file

    [exfs_op_unlink]: which entry it removes, which blocks it frees, and what is
    left on the disk when the machine stops in the middle of it. *)

From S2P Require Import Prelude AuditRing Blake3 BlockDev Journal ExfsFile ExfsVolume ExfsData ExfsIo ExfsDir.

Section Unlink.
Context {D : Type} {dev : block_device D} {dev_ok : D -> Prop} {sectors : D -> view} `{!Device dev dev_ok sectors}.
Context {g : geo} (G : geo_ok g).
#[local] Abbreviation St := (exfs D).
#[local] Abbreviation mounted := (mounted (dev_ok := dev_ok) (sectors := sectors) (g := g)).
#[local] Abbreviation upd := (upd (dev_ok := dev_ok) (sectors := sectors) (g := g)).
#[local] Abbreviation vol_ok := (vol_ok (dev_ok := dev_ok) (sectors := sectors) (g := g)).
#[local] Abbreviation B := (B (sectors := sectors) (g := g)).
#[local] Abbreviation tracked := (tracked (g := g)).
#[local] Abbreviation reserved := (reserved (g := g)).
#[local] Abbreviation file_ok := (file_ok (sectors := sectors) (g := g)).
#[local] Abbreviation inode_in := (inode_in (g := g)).
#[local] Abbreviation inum_ok := (inum_ok (g := g)).
#[local] Abbreviation apart := (apart (sectors := sectors) (g := g)).
#[local] Abbreviation kept := (kept (sectors := sectors) (g := g)).
#[local] Abbreviation area := (bitmap_area (g := g)).
#[local] Abbreviation halted := (halted (dev_ok := dev_ok) (sectors := sectors) (g := g) area).
#[local] Abbreviation stopped := (stopped (dev_ok := dev_ok) (sectors := sectors) (g := g) area).

(** ** Scanning a directory *)

(** Entry [k] of data block [b] of the directory satisfies the test. *)
Definition entry_at (s : St) (i : exfs_inode) (test : exfs_dirent -> bool) (blk k : Z) : Prop :=
  (exists b, 0 <= b /\ blk = loc (B s) i (RData b)) /\ blk <> 0 /\ 0 <= k < DIRENTS_PER_BLOCK /\ test (dirents (B s blk)).[k] = true.

Lemma zlen_dirents b : zlen (dirents b) = DIRENTS_PER_BLOCK.
Proof. unfold dirents. rewrite zlen_fmap. by rewrite zlen_seqZ. Qed.

Lemma scan_ok test i n b s :
  vol_ok s -> file_ok s i -> 0 <= b ->
  cwp (scan_dir dev (exfs_read_block dev) test i n b) s
    (fun r s' => upd (B s) s s' /\ match r with Found blk buf k => buf = B s blk /\ entry_at s i test blk k | _ => True end) (fun _ => False).
Proof.
  revert b s. induction n as [|n IH]; intros b s Vk F Hb; cbn [scan_dir]; pose proof (upd_refl s (vo_mounted s Vk)) as U0; [by apply cwp_ret|].
  apply cwp_bind. eapply cwp_mono; [by apply (resolve_read G s i b)| |done]. intros x s1 (Ex & U1). rewrite Ex.
  destruct (Z.eqb_spec (loc (B s) i (RData b)) 0) as [|Hl]; [by apply cwp_ret|]. destruct (data_block G s i b F Hb Hl) as [Hv Ht].
  destruct (quiet G (B s) s s1 i Vk F U1) as (Vk1 & F1 & El1); [done|done|].
  apply cwp_bind. eapply cwp_mono; [apply (read_block_ok G); [apply Vk1|apply Ht|apply zlen_zero_block]| |done]. intros r s2 (-> & U2). cbn [fst snd negb].
  assert (U : upd (B s) s s2) by (eapply upd_ext; [|eapply upd_trans; [exact U1|exact U2]]; intros c Hc; by apply U1).
  rewrite (up_blocks _ _ _ U1) by done. destruct (find_from_spec test (dirents (B s (loc (B s) i (RData b)))) 0 ltac:(lia)) as [[-> _]|(k & Hk & -> & Tk & _)].
  - change (0 <=? -1) with false. cbv iota. destruct (quiet G (B s) s s2 i Vk F U) as (Vk2 & F2 & El2); [done|done|].
    destruct (quiet_data G s s2 i Vk F U) as [Q1 Q2]. eapply cwp_mono; [apply (IH (b + 1) s2 Vk2 F2); lia| |done].
    intros r s3 (U3 & Hr). split; [eapply upd_ext; [|eapply upd_trans; [exact U|exact U3]]; intros c Hc; by apply U|].
    destruct r as [blk buf k| | |]; try done. destruct Hr as (-> & (b' & Hb' & ->) & Hn & Hk & Tk). rewrite Q1 in * by done. rewrite Q2 in * by done.
    split; [done|]. split; [by exists b'|done].
  - rewrite zlen_dirents in Hk. rewrite Z.add_0_l. rewrite (proj2 (Z.leb_le 0 k)) by lia. apply cwp_ret. split; [done|]. split; [done|].
    split; [by exists b|done].
Qed.

(** ** Freeing blocks *)

(** Exactly the data blocks of the list are free now; nothing else changed but the bitmap. *)
Definition frees (ps : list Z) (s s' : St) : Prop :=
  vol_ok s' /\ kept s s' /\ forall c, 0 <= c -> bitmap_get (x_vol s') c = true <-> bitmap_get (x_vol s) c = true /\ ~ (c ∈ ps /\ g_data g <= c < g_total g).

Lemma kept_trans s s1 s2 : kept s s1 -> kept s1 s2 -> kept s s2.
Proof. intros [A1 A2 A3] [C1 C2 C3]. constructor; [|congruence|congruence]. intros c Hc Hn. rewrite C1 by done. by apply A1. Qed.

Lemma frees_nil s : vol_ok s -> frees [] s s.
Proof. intros Vk. split; [done|]. split; [done|]. intros c Hc. set_solver. Qed.

Lemma frees_app ps qs s s1 s2 : frees ps s s1 -> frees qs s1 s2 -> frees (ps ++ qs) s s2.
Proof.
  intros (A1 & A2 & A3) (C1 & C2 & C3). split; [done|]. split; [by eapply kept_trans|]. intros c Hc. rewrite C3, A3 by done. rewrite elem_of_app. tauto.
Qed.

Lemma frees_zero ps s s' : frees (0 :: ps) s s' <-> frees ps s s'.
Proof.
  unfold frees. split; intros (A & C & E); (split; [done|]; split; [done|]); intros c Hc; rewrite E by done; rewrite elem_of_cons;
    pose proof (go_bitmap g G); pose proof (go_inodes g G); intuition lia.
Qed.

Lemma halted_kept f s s1 s' : kept s s1 -> (forall c, tracked c -> ~ area c -> B s c = f c) -> halted (B s1) s' -> halted f s'.
Proof. intros K E Hl. eapply halted_mono; [exact Hl|done|]. intros c Hc Hn. rewrite (kp_blocks _ _ K) by done. by apply E. Qed.

Lemma free_one p s : vol_ok s -> ~ reserved p -> cwp (if p =? 0 then mret tt else exfs_free_block dev p) s (fun _ s' => frees [p] s s') (halted (B s)).
Proof.
  intros Vk Nr. destruct (Z.eqb_spec p 0) as [->|]; [apply cwp_ret; by apply frees_zero, frees_nil|].
  eapply cwp_mono; [by apply (exfs_free_block_ok G)| |done]. intros _ s' (A & C & E). split; [done|]. split; [done|]. intros c Hc. rewrite E by done.
  rewrite elem_of_cons, elem_of_nil. destruct (Z.eqb_spec c p), (Z.leb_spec (g_data g) c), (Z.ltb_spec c (g_total g)); cbn [andb negb]; intuition (congruence || lia).
Qed.

Lemma free_blocks_ok ps s :
  vol_ok s -> Forall (fun p => ~ reserved p) ps -> cwp (free_blocks dev ps) s (fun _ s' => frees ps s s') (halted (B s)).
Proof.
  revert s. induction ps as [|p ps IH]; intros s Vk F; cbn [free_blocks]; [apply cwp_ret; by apply frees_nil|]. inversion F as [|? ? F1 F2]; subst.
  apply cwp_bind. eapply cwp_mono; [by apply free_one| |done]. intros u s1 Fr. pose proof Fr as (Vk1 & K1 & _).
  eapply cwp_mono; [by apply IH| |]; [intros u2 s2 Fr2; by apply (frees_app [p] ps s s1)|]. intros s'. by apply (halted_kept (B s) s s1).
Qed.

Lemma frees_upd s s1 : vol_ok s -> upd (B s) s s1 -> frees [] s s1.
Proof.
  intros Vk U. split; [by eapply (vol_ok_upd G)|]. split; [constructor; [intros c Hc _; by apply U|apply U|apply U]|].
  intros c Hc. unfold bitmap_get. rewrite (up_bitmap _ _ _ U). set_solver.
Qed.

(** The blocks below the pointer block [t], and it. *)
Definition table_blocks (f : Z -> list Z) (t : Z) : list Z := ptrs (f t) ++ [t].

Lemma free_table_ok t s :
  vol_ok s -> tracked t -> ~ area t -> Forall (fun p => ~ reserved p) (table_blocks (B s) t) ->
  cwp (free_table dev t) s (fun _ s' => frees (table_blocks (B s) t) s s') (halted (B s)).
Proof.
  intros Vk Ht Ha F. apply Forall_app in F as [F1 F2]. inversion F2 as [|? ? F3 _]; subst. unfold free_table. apply cwp_bind.
  eapply cwp_mono; [apply (read_block_ok G); [apply Vk|apply Ht|apply zlen_zero_block]| |done]. intros r s1 (-> & U). cbn [fst snd].
  assert (Vk1 : vol_ok s1) by (by eapply (vol_ok_upd G)).
  pose proof (frees_upd s s1 Vk U) as Fr1.
  apply cwp_bind. eapply cwp_mono; [by apply free_blocks_ok| |intros s'; by apply (halted_kept (B s) s s1); [apply Fr1|]]. intros u s2 Fr2. pose proof (frees_app [] _ s s1 s2 Fr1 Fr2) as (Vk2 & K2 & Bt2).
  eapply cwp_mono; [by apply (exfs_free_block_ok G)| |intros s'; by apply (halted_kept (B s) s s2)]. intros u3 s3 (Vk3 & K3 & Bt3).
  apply (frees_app (ptrs (B s t)) [t] s s2); [done|]. split; [done|]. split; [done|]. intros c Hc. rewrite Bt3 by done. rewrite elem_of_cons, elem_of_nil.
  destruct (Z.eqb_spec c t), (Z.leb_spec (g_data g) c), (Z.ltb_spec c (g_total g)); cbn [andb negb]; intuition (congruence || lia).
Qed.

Definition tables_blocks (f : Z -> list Z) (ps : list Z) : list Z := concat ((fun p => if p =? 0 then [] else table_blocks f p) <$> ps).

(** A pointer block whose pointers may be freed. *)
Definition table_good (s : St) (p : Z) : Prop := p <> 0 -> tracked p /\ ~ area p /\ Forall (fun q => ~ reserved q) (table_blocks (B s) p).

Lemma table_good_kept s s1 ps : kept s s1 -> Forall (table_good s) ps -> Forall (table_good s1) ps /\ tables_blocks (B s1) ps = tables_blocks (B s) ps.
Proof.
  intros K. induction 1 as [|p ps Hp _ [IH1 IH2]]; [done|].
  assert (E : p <> 0 -> table_blocks (B s1) p = table_blocks (B s) p) by (intros Hn; destruct (Hp Hn) as (A & C & _); unfold table_blocks; by rewrite (kp_blocks _ _ K)).
  split; [constructor; [intros Hn; rewrite E by done; by apply Hp|done]|]. unfold tables_blocks in *. cbn [fmap list_fmap concat]. rewrite IH2. f_equal.
  destruct (Z.eqb_spec p 0); [done|by apply E].
Qed.

Lemma free_tables_ok ps s :
  vol_ok s -> Forall (table_good s) ps -> cwp (free_tables dev ps) s (fun _ s' => frees (tables_blocks (B s) ps) s s') (halted (B s)).
Proof.
  revert s. induction ps as [|p ps IH]; intros s Vk F; cbn [free_tables]; [apply cwp_ret; by apply frees_nil|]. inversion F as [|? ? F1 F2]; subst.
  apply cwp_bind. apply (cwp_mono _ _ (fun _ s1 => frees (if p =? 0 then [] else table_blocks (B s) p) s s1) _ (halted (B s))).
  - destruct (Z.eqb_spec p 0) as [->|Hp]; [apply cwp_ret; by apply frees_nil|]. destruct (F1 Hp) as (A & C & E). by apply free_table_ok.
  - intros u s1 Fr. pose proof Fr as (Vk1 & K1 & _). destruct (table_good_kept s s1 ps K1 F2) as [F3 E3].
    eapply cwp_mono; [by apply IH| |]; [|intros s'; by apply (halted_kept (B s) s s1)]. intros u2 s2 Fr2. rewrite E3 in Fr2.
    unfold tables_blocks. cbn [fmap list_fmap concat]. by eapply frees_app.
  - done.
Qed.

(** All the blocks of a file, as [exfs_op_unlink] visits them. *)
Definition all_blocks (f : Z -> list Z) (i : exfs_inode) : list Z :=
  i_direct i ++ (if i_indirect i =? 0 then [] else table_blocks f (i_indirect i)) ++
  (if i_double_indirect i =? 0 then [] else tables_blocks f (ptrs (f (i_double_indirect i))) ++ [i_double_indirect i]).

Lemma elem_ptrs b c : c ∈ ptrs b <-> exists k, 0 <= k < EXFS_INDIRECT_PTRS /\ c = ptr_at b k.
Proof.
  unfold ptrs. rewrite list_elem_of_fmap. split; intros (k & A & C); exists k; rewrite elem_of_seqZ in *; split; done || lia.
Qed.

Lemma all_blocks_roles f i c :
  zlen (i_direct i) = EXFS_DIRECT_BLOCKS -> c <> 0 -> c ∈ all_blocks f i -> exists r, valid r /\ loc f i r = c.
Proof.
  intros Ld Hc. unfold all_blocks. rewrite !elem_of_app. intros [H|[H|H]].
  - apply list_elem_of_lookup in H as [k Hk]. pose proof (lookup_lt_Some _ _ _ Hk). unfold zlen, EXFS_DIRECT_BLOCKS in Ld. exists (RData (Z.of_nat k)).
    cbn [valid loc]. unfold MAX_BLOCKS, EXFS_DIRECT_BLOCKS, EXFS_INDIRECT_PTRS. split; [lia|]. destruct (Z.ltb_spec (Z.of_nat k) 12); [|lia].
    unfold zget. rewrite Nat2Z.id. by apply list_lookup_total_correct.
  - destruct (Z.eqb_spec (i_indirect i) 0) as [|Hi]; [by apply elem_of_nil in H|]. unfold table_blocks in H. apply elem_of_app in H as [H|H].
    + apply elem_ptrs in H as (k & Hk & ->). exists (RData (EXFS_DIRECT_BLOCKS + k)). cbn [valid loc]. unfold MAX_BLOCKS, EXFS_DIRECT_BLOCKS, EXFS_INDIRECT_PTRS in *.
      split; [lia|]. destruct (Z.ltb_spec (12 + k) 12); [lia|]. replace (12 + k - 12) with k by lia. destruct (Z.ltb_spec k 512); [|lia]. unfold entry.
      by rewrite (proj2 (Z.eqb_neq _ _) Hi).
    + apply list_elem_of_singleton in H as ->. by exists RInd.
  - destruct (Z.eqb_spec (i_double_indirect i) 0) as [|Hd]; [by apply elem_of_nil in H|]. apply elem_of_app in H as [H|H]; [|apply list_elem_of_singleton in H as ->; by exists RDbl].
    unfold tables_blocks in H. apply list_elem_of_In, in_concat in H as (l & Hl & H). apply list_elem_of_In, list_elem_of_fmap in Hl as (p & -> & Hp).
    apply elem_ptrs in Hp as (j & Hj & ->). destruct (Z.eqb_spec (ptr_at (f (i_double_indirect i)) j) 0) as [|Hp]; [done|].
    assert (El : loc f i (RL1 j) = ptr_at (f (i_double_indirect i)) j) by (cbn [loc]; unfold entry; by rewrite (proj2 (Z.eqb_neq _ _) Hd)).
    apply list_elem_of_In in H. unfold table_blocks in H. apply elem_of_app in H as [H|H]; [|apply list_elem_of_singleton in H as ->; by exists (RL1 j)].
    apply elem_ptrs in H as (k & Hk & ->). set (fb := EXFS_DIRECT_BLOCKS + EXFS_INDIRECT_PTRS + (j * EXFS_INDIRECT_PTRS + k)). exists (RData fb).
    assert (Hv : valid (RData fb)) by (cbn [valid]; unfold fb, MAX_BLOCKS, EXFS_DIRECT_BLOCKS, EXFS_INDIRECT_PTRS in *; lia). split; [done|].
    rewrite (loc_child f i (RData fb) (RL1 j) k Hv); [rewrite El; unfold entry; by rewrite (proj2 (Z.eqb_neq _ _) Hp)|]. cbn [parent].
    unfold fb, EXFS_DIRECT_BLOCKS, EXFS_INDIRECT_PTRS in *. rewrite !(proj2 (Z.ltb_ge _ _)) by lia.
    replace (12 + 512 + (j * 512 + k) - 12 - 512) with (j * 512 + k) by lia. rewrite Z.div_add_l, Z.div_small, Z.add_0_r by lia.
    rewrite Z.add_comm, Z_mod_plus_full, Z.mod_small by lia. done.
Qed.

Lemma file_block_good s i c : vol_ok s -> file_ok s i -> c ∈ all_blocks (B s) i -> ~ reserved c.
Proof.
  intros Vk F Hc. destruct (decide (c = 0)) as [->|Hn].
  - pose proof (go_journal g G). pose proof (go_prov g G). pose proof (go_bitmap g G). pose proof (go_inodes g G). unfold reserved. lia.
  - destruct (all_blocks_roles (B s) i c (fk_direct s i F) Hn Hc) as (r & Hr & <-). by apply (fk_used s i F r Hr).
Qed.

Lemma file_table_good s i r : file_ok s i -> valid r -> loc (B s) i r <> 0 -> tracked (loc (B s) i r) /\ ~ area (loc (B s) i r).
Proof.
  intros F Hr Hl. split; [by apply (file_tracked G)|]. destruct (fk_used s i F r Hr Hl) as (R & _). pose proof (go_bitmap g G). pose proof (go_inodes g G). unfold bitmap_area. lia.
Qed.

Lemma free_indirect_ok s s1 i :
  vol_ok s -> file_ok s i -> vol_ok s1 -> kept s s1 ->
  cwp (if i_indirect i =? 0 then mret tt else free_table dev (i_indirect i)) s1
    (fun _ s' => frees (if i_indirect i =? 0 then [] else table_blocks (B s) (i_indirect i)) s1 s') (halted (B s)).
Proof.
  intros Vk F Vk1 K. destruct (Z.eqb_spec (i_indirect i) 0) as [E|Hi]; [apply cwp_ret; by apply frees_nil|].
  destruct (file_table_good s i RInd F I Hi) as [Ht Ha]. cbn [loc] in Ht, Ha.
  assert (E : table_blocks (B s1) (i_indirect i) = table_blocks (B s) (i_indirect i)) by (unfold table_blocks; by rewrite (kp_blocks _ _ K)). rewrite <- E.
  eapply cwp_mono; [apply free_table_ok; [done|done|done|]|done|intros s'; by apply (halted_kept (B s) s s1)].
  rewrite E. apply Forall_forall. intros c Hc. apply (file_block_good s i c Vk F). unfold all_blocks. rewrite !elem_of_app. right. left. by rewrite (proj2 (Z.eqb_neq _ _) Hi).
Qed.

Lemma free_double_ok s s1 i :
  vol_ok s -> file_ok s i -> vol_ok s1 -> kept s s1 ->
  cwp (if i_double_indirect i =? 0 then mret tt else
       r <-- exfs_read_block dev (i_double_indirect i) zero_block ;;
       _ <-- (if r.1 : bool then free_tables dev (ptrs r.2) else mret tt) ;;
       exfs_free_block dev (i_double_indirect i)) s1
    (fun _ s' => frees (if i_double_indirect i =? 0 then [] else tables_blocks (B s) (ptrs (B s (i_double_indirect i))) ++ [i_double_indirect i]) s1 s') (halted (B s)).
Proof.
  intros Vk F Vk1 K. destruct (Z.eqb_spec (i_double_indirect i) 0) as [E|Hd]; [apply cwp_ret; by apply frees_nil|].
  destruct (file_table_good s i RDbl F I Hd) as [Ht Ha]. cbn [loc] in Ht, Ha.
  assert (In : forall c, c ∈ tables_blocks (B s) (ptrs (B s (i_double_indirect i))) ++ [i_double_indirect i] -> ~ reserved c).
  { intros c Hc. apply (file_block_good s i c Vk F). unfold all_blocks. rewrite !elem_of_app. right. right. by rewrite (proj2 (Z.eqb_neq _ _) Hd). }
  assert (Tg : Forall (table_good s) (ptrs (B s (i_double_indirect i)))).
  { apply Forall_forall. intros p Hp Hn. pose proof Hp as Hp'. apply elem_ptrs in Hp as (k & Hk & Ek).
    assert (El : loc (B s) i (RL1 k) = p) by (cbn [loc]; unfold entry; by rewrite (proj2 (Z.eqb_neq _ _) Hd)).
    destruct (file_table_good s i (RL1 k) F Hk) as [A C]; [by rewrite El|]. rewrite El in A, C. split; [done|]. split; [done|]. apply Forall_forall. intros c Hc. apply In.
    apply elem_of_app. left. unfold tables_blocks. apply list_elem_of_In, in_concat. exists (table_blocks (B s) p). split; [|by apply list_elem_of_In].
    apply list_elem_of_In, list_elem_of_fmap. exists p. split; [|done]. by rewrite (proj2 (Z.eqb_neq _ _) Hn). }
  apply cwp_bind. eapply cwp_mono; [apply (read_block_ok G); [apply Vk1|apply Ht|apply zlen_zero_block]| |done]. intros r s2 (-> & U). cbn [fst snd].
  rewrite (kp_blocks _ _ K) by done. pose proof (frees_upd s1 s2 Vk1 U) as Fr2. pose proof Fr2 as (Vk2 & K2 & _). pose proof (kept_trans _ _ _ K K2) as K2'.
  destruct (table_good_kept s s2 _ K2' Tg) as [Tg2 E2].
  apply cwp_bind. eapply cwp_mono; [by apply free_tables_ok| |intros s'; by apply (halted_kept (B s) s s2)]. intros u s3 Fr3. rewrite E2 in Fr3. pose proof Fr3 as (Vk3 & K3 & _).
  pose proof (free_one (i_double_indirect i) s3 Vk3) as W. rewrite (proj2 (Z.eqb_neq _ _) Hd) in W.
  eapply cwp_mono; [apply W; apply In, elem_of_app; right; by apply list_elem_of_singleton| |].
  - intros u4 s4 Fr4. apply (frees_app [] _ s1 s2 s4); [done|]. by eapply frees_app.
  - intros s'. apply (halted_kept (B s) s s3); [by eapply kept_trans|done].
Qed.

Lemma free_file_ok s i :
  vol_ok s -> file_ok s i -> cwp (free_file dev i) s (fun _ s' => frees (all_blocks (B s) i) s s') (halted (B s)).
Proof.
  intros Vk F. unfold free_file. apply cwp_bind. eapply cwp_mono; [apply free_blocks_ok; [done|]| |done].
  { apply Forall_forall. intros c Hc. apply (file_block_good s i c Vk F). unfold all_blocks. apply elem_of_app. by left. }
  intros u s1 Fr1. pose proof Fr1 as (Vk1 & K1 & _). apply cwp_bind. eapply cwp_mono; [by apply (free_indirect_ok s s1 i)| |done].
  intros u2 s2 Fr2. pose proof (frees_app _ _ _ _ _ Fr1 Fr2) as Fr12. pose proof Fr12 as (Vk2 & K2 & _).
  eapply cwp_mono; [by apply (free_double_ok s s2 i)| |done]. intros u3 s3 Fr3. unfold all_blocks. rewrite app_assoc. by eapply frees_app.
Qed.

(** ** The entry, the inode, then the blocks *)

(** The block belongs to the file. *)
Definition owned (s : St) (i : exfs_inode) (c : Z) : Prop := c <> 0 /\ exists r, valid r /\ loc (B s) i r = c.

Lemma owned_all s i c : file_ok s i -> c <> 0 -> c ∈ all_blocks (B s) i <-> owned s i c.
Proof.
  intros F Hc. split; [intros H; split; [done|]; apply all_blocks_roles; [apply F|done|done]|]. intros (_ & r & Hr & <-). unfold all_blocks.
  assert (Pt : forall p k, 0 <= k < EXFS_INDIRECT_PTRS -> loc (B s) i p <> 0 -> entry (B s) (loc (B s) i p) k ∈ table_blocks (B s) (loc (B s) i p)).
  { intros p k Hk Hp. unfold entry. rewrite (proj2 (Z.eqb_neq _ _) Hp). apply elem_of_app. left. apply elem_ptrs. by exists k. }
  assert (Sub : forall p, valid p -> loc (B s) i p <> 0 -> loc (B s) i p ∈ table_blocks (B s) (loc (B s) i p)) by (intros p _ _; apply elem_of_app; right; by apply list_elem_of_singleton).
  assert (Dbl : forall k c', 0 <= k < EXFS_INDIRECT_PTRS -> loc (B s) i RDbl <> 0 -> loc (B s) i (RL1 k) <> 0 -> c' ∈ table_blocks (B s) (loc (B s) i (RL1 k)) ->
    c' ∈ (if i_double_indirect i =? 0 then [] else tables_blocks (B s) (ptrs (B s (i_double_indirect i))) ++ [i_double_indirect i])).
  { intros k c' Hk Hd Hl Hin. cbn [loc] in *. unfold entry in Hl, Hin. rewrite (proj2 (Z.eqb_neq _ _) Hd) in *. apply elem_of_app. left. unfold tables_blocks.
    apply list_elem_of_In, in_concat. exists (table_blocks (B s) (ptr_at (B s (i_double_indirect i)) k)). split; [|by apply list_elem_of_In].
    apply list_elem_of_In, list_elem_of_fmap. eexists. split; [by rewrite (proj2 (Z.eqb_neq _ _) Hl)|]. apply elem_ptrs. by exists k. }
  rewrite !elem_of_app. destruct (parent r) as [[p k]|] eqn:Ep.
  - destruct (parent_valid r p k Hr Ep) as (Hp & Tp & Hk & _). rewrite (loc_child _ _ _ _ _ Hr Ep) in Hc |- *.
    assert (Hl : loc (B s) i p <> 0) by (intros E; rewrite E in Hc; done). destruct p as [fb| | |j]; [done| | |].
    + right. left. cbn [loc] in *. rewrite (proj2 (Z.eqb_neq _ _) Hl). by apply (Pt RInd).
    + right. right. destruct r as [fb| | |j]; [|done|done|].
      * cbn [parent] in Ep. destruct (fb <? _); [done|]. by destruct (_ <? _).
      * injection Ep as <-. apply (Dbl j); [done|done|exact Hc|]. rewrite <- (loc_child (B s) i (RL1 j) RDbl j Hr eq_refl). apply (Sub (RL1 j)); [done|]. exact Hc.
    + right. right. apply (Dbl j); [done| |done|by apply Pt]. intros E. cbn [loc] in Hl, E. unfold entry in Hl. by rewrite E in Hl.
  - destruct r as [fb| | |j]; [|right; left; cbn [loc] in *; rewrite (proj2 (Z.eqb_neq _ _) Hc); by apply (Sub RInd)| |done].
    + left. cbn [parent loc valid] in *. destruct (Z.ltb_spec fb EXFS_DIRECT_BLOCKS) as [Hd|]; [|by destruct (_ <? _)]. pose proof (fk_direct s i F) as Ld. unfold EXFS_DIRECT_BLOCKS in *.
      eapply list_elem_of_lookup_2. apply zget_lookup. lia.
    + right. right. cbn [loc] in *. rewrite (proj2 (Z.eqb_neq _ _) Hc). apply elem_of_app. right. by apply list_elem_of_singleton.
Qed.

(** The volume without entry [k] of block [blk] and with inode [ino] blank. *)
Definition removed (s : St) (ino blk k : Z) : Z -> list Z := set_block blk (clear_dirent (B s blk) k) (put_inode (g := g) ino inode_zero (B s)).

Lemma inode_zero_ok : inode_ok inode_zero.
Proof. by constructor; cbn; repeat constructor. Qed.

Lemma clear_dirent_len b k : zlen b = EXFS_BLOCK_SIZE -> 0 <= k < DIRENTS_PER_BLOCK -> zlen (clear_dirent b k) = EXFS_BLOCK_SIZE.
Proof.
  intros L Hk. change DIRENTS_PER_BLOCK with 15 in Hk. unfold clear_dirent, memset. rewrite zlen_memcpy; [done| |]; rewrite ?zlen_replicate, ?L;
    unfold SIZEOF_DIRENT, EXFS_BLOCK_SIZE in *; lia.
Qed.

(** The removal: what it leaves, and what it leaves if the machine stops. *)
Definition removal (s : St) (ino blk k : Z) (s' : St) : Prop :=
  vol_ok s' /\ (forall c, tracked c -> ~ area c -> B s' c = removed s ino blk k c) /\
  forall c, 0 <= c -> bitmap_get (x_vol s') c = true <-> bitmap_get (x_vol s) c = true /\ ~ owned s (inode_in (B s) ino) c.

Lemma remove_commit s ino blk k :
  vol_ok s -> inum_ok ino -> tracked blk -> 0 <= k < DIRENTS_PER_BLOCK -> blk <> iblk (g := g) ino ->
  cwp (_ <-- exfs_journal_begin ;; _ <-- exfs_write_inode dev ino inode_zero ;; _ <-- exfs_meta_write_block dev blk (clear_dirent (B s blk) k) ;; exfs_journal_commit dev) s
    (fun _ s' => upd (removed s ino blk k) s s') (stopped (B s) (removed s ino blk k)).
Proof.
  intros Vk Hn Ht Hk Hne. pose proof (vo_mounted s Vk) as M. pose proof (go_journal g G).
  apply cwp_bind. eapply cwp_mono; [exact (begin_in G s M)| |done]. intros u s1 T1. apply cwp_bind.
  eapply cwp_mono; [apply (write_inode_in G s _ 0 s1 ino inode_zero T1 Hn inode_zero_ok); [apply (B_len s); [done|by apply (inum_tracked G)]|done|lia]| |done].
  intros ok s2 (_ & T2). apply cwp_bind.
  eapply cwp_mono; [apply (meta_write_in G s _ 1 s2 blk _ T2 Ht); [apply clear_dirent_len; [apply (B_len s); [done|apply Ht]|done]|done|lia]| |done].
  intros ok3 s3 (_ & T3). eapply cwp_mono; [by apply (commit_in G s _ _ s3 M T3)| |]; [by intros r s4 (_ & U)|].
  intros s' (Od & Eg & w & J & Hw). split; [done|]. split; [done|]. exists w. split; [done|]. destruct Hw as [Hw|Hw]; [left|right]; intros c Hc _; (apply Hw; [done|intros []]).
Qed.

Lemma remove_entry_ok s ino blk k :
  vol_ok s -> inum_ok ino -> file_ok s (inode_in (B s) ino) -> tracked blk -> g_data g <= blk -> 0 <= k < DIRENTS_PER_BLOCK -> ~ owned s (inode_in (B s) ino) blk ->
  cwp (remove_entry dev blk (B s blk) k ino (inode_in (B s) ino)) s (fun _ s' => removal s ino blk k s') (stopped (B s) (removed s ino blk k)).
Proof.
  intros Vk Hn F Ht Hd Hk Ho. pose proof (go_bitmap g G). pose proof (go_inodes g G). destruct Hn as [Hn1 Hn2]. pose proof (Z.div_pos ino INODES_PER_BLOCK Hn1 ltac:(done)).
  set (cin := inode_in (B s) ino) in *. pose proof (remove_commit s ino blk k Vk (conj Hn1 Hn2) Ht Hk ltac:(lia)) as W. unfold remove_entry.
  apply cwp_bind. eapply cwp_mono; [exact (cwp_bind_inv _ _ _ _ _ W)| |done]. intros u s1 W1. apply cwp_bind. eapply cwp_mono; [exact (cwp_bind_inv _ _ _ _ _ W1)| |done].
  intros u2 s2 W2. apply cwp_bind. eapply cwp_mono; [exact (cwp_bind_inv _ _ _ _ _ W2)| |done]. intros u3 s3 W3. apply cwp_bind. eapply cwp_mono; [exact W3| |done].
  intros u4 s4 U. destruct (quiet G (removed s ino blk k) s s4 cin Vk F U) as (Vk4 & F4 & El4).
  { intros c Hc. unfold removed, put_inode, set_block. rewrite !(proj2 (Z.eqb_neq _ _)); [done| |]; unfold iblk in *; lia. }
  { intros r Hr _ Hl. destruct (fk_used s cin F r Hr Hl) as (R & _). unfold removed, put_inode, set_block. rewrite !(proj2 (Z.eqb_neq _ _)); [done| |]; [lia|].
    intros E. apply Ho. split; [congruence|by exists r]. }
  assert (Hl : forall s', halted (B s4) s' -> stopped (B s) (removed s ino blk k) s').
  { intros s' Hl. apply (halted_stopped G). eapply halted_mono; [exact Hl|done|]. intros c Hc _. by apply U. }
  apply cwp_bind, cwp_crash_point; [|apply Hl, mounted_halted; apply U].
  eapply cwp_mono; [apply (free_file_ok s4 cin Vk4 F4)| |done]. intros u5 s5 (Vk5 & K5 & Bt). split; [done|]. split.
  - intros c Hc Ha. rewrite (kp_blocks _ _ K5) by done. by apply U.
  - intros c Hc. rewrite Bt by done. unfold bitmap_get at 1. rewrite (up_bitmap _ _ _ U). fold (bitmap_get (x_vol s) c).
    assert (Eo : c <> 0 -> owned s4 cin c <-> owned s cin c).
    { intros Hc0. unfold owned. split; intros (_ & r & Hr & E); (split; [done|]; exists r; split; [done|]); [rewrite El4 in E by done|rewrite El4 by done]; done. }
    split; intros [A C]; (split; [done|]); [intros O|intros [O R]].
    + destruct (decide (c = 0)) as [->|Hc0]; [by destruct O|]. pose proof O as (_ & r & Hr & E). apply C. split; [by apply owned_all, Eo|].
      fold cin in E. rewrite <- E. apply (fk_used s cin F r Hr). congruence.
    + assert (Hc0 : c <> 0) by lia. apply C, Eo; [done|]. by apply owned_all.
Qed.

(** ** [exfs_op_unlink] *)

(** The entries of the directory name files that share no block with it. *)
Definition dir_good (s : St) (i : exfs_inode) : Prop :=
  file_ok s i /\ forall blk k, entry_at s i (fun de => negb (de_free de)) blk k ->
    let ino := de_inode_num (dirents (B s blk)).[k] in inum_ok ino /\ file_ok s (inode_in (B s) ino) /\ apart s i (inode_in (B s) ino).

Lemma matches_used s i name blk k : entry_at s i (de_matches name) blk k -> entry_at s i (fun de => negb (de_free de)) blk k.
Proof. intros (A & C & E & T). split; [done|]. split; [done|]. split; [done|]. unfold de_matches in T. rewrite !andb_true_iff in T. apply T. Qed.

Definition unlink_ino (s : St) (blk k : Z) : Z := de_inode_num (dirents (B s blk)).[k].

(** Refused, with nothing changed; or done. *)
Definition unlinked (s : St) (i : exfs_inode) (name : list Z) (r : Z) (s' : St) : Prop :=
  (r <> 0 /\ upd (B s) s s') \/ (r = 0 /\ exists blk k, entry_at s i (de_matches name) blk k /\ removal s (unlink_ino s blk k) blk k s').

Lemma exfs_op_unlink_ok dir name s :
  vol_ok s -> dir_good s (nd_inode dir) ->
  cwp (exfs_op_unlink dev dir name) s (fun r s' => unlinked s (nd_inode dir) name r s')
    (fun s' => exists blk k, entry_at s (nd_inode dir) (de_matches name) blk k /\ stopped (B s) (removed s (unlink_ino s blk k) blk k) s').
Proof.
  intros Vk [F Dg]. unfold exfs_op_unlink. destruct ((zlen name =? 0) || (EXFS_NAME_MAX <? zlen name)); [apply cwp_ret; left; split; [done|apply upd_refl, Vk]|].
  apply cwp_bind. eapply cwp_mono; [by apply scan_ok| |done]. intros r s1 (U1 & Hr).
  destruct r as [blk buf k| | |]; try (apply cwp_ret; by left). destruct Hr as (-> & En). cbv zeta. fold (unlink_ino s blk k).
  destruct (de_file_type _ =? 1); [apply cwp_ret; by left|]. destruct (Dg blk k (matches_used _ _ _ _ _ En)) as (Hn & Fc & Ap). fold (unlink_ino s blk k) in Hn, Fc, Ap.
  set (ino := unlink_ino s blk k) in *. destruct (quiet G (B s) s s1 (nd_inode dir) Vk F U1) as (Vk1 & F1 & El1); [done|done|].
  apply cwp_bind. eapply cwp_mono; [apply (read_inode_ok G); [apply Vk1|done]| |done]. intros x s2 (-> & U2).
  assert (U : upd (B s) s s2) by (eapply upd_ext; [|eapply upd_trans; [exact U1|exact U2]]; intros c Hc; by apply U1).
  pose proof (inum_tracked G ino Hn) as Hti. destruct En as ((b & Hb & ->) & Hb0 & Hk & Tk). destruct (data_block G s (nd_inode dir) b F Hb Hb0) as [Hv Ht].
  set (blk := loc (B s) (nd_inode dir) (RData b)) in *. destruct (fk_used s _ F _ Hv Hb0) as (Rb & _ & _). fold blk in Rb.
  assert (Ei : inode_in (B s1) ino = inode_in (B s) ino) by (unfold inode_in; by rewrite (up_blocks _ _ _ U1)). rewrite Ei.
  destruct (quiet G (B s) s s2 (inode_in (B s) ino) Vk Fc U) as (Vk2 & F2 & El2); [done|done|].
  assert (Ei2 : inode_in (B s2) ino = inode_in (B s) ino) by (unfold inode_in; by rewrite (up_blocks _ _ _ U)).
  assert (Er : forall c, tracked c -> removed s2 ino blk k c = removed s ino blk k c).
  { intros c Hc. unfold removed, put_inode, set_block. by rewrite !(up_blocks _ _ _ U) by done. }
  assert (Eo : forall c, owned s2 (inode_in (B s) ino) c <-> owned s (inode_in (B s) ino) c).
  { intros c. unfold owned. split; intros (Hc & r & Hr & E); (split; [done|]; exists r; split; [done|]); [rewrite El2 in E by done|rewrite El2 by done]; done. }
  assert (No : ~ owned s2 (inode_in (B s2) ino) blk).
  { rewrite Ei2, Eo. intros (_ & r & Hr & E). apply (Ap (RData b) r); done. }
  pose proof (remove_entry_ok s2 ino blk k Vk2 Hn) as W. rewrite Ei2 in W. rewrite Ei2 in No. specialize (W F2 Ht ltac:(lia) Hk No).
  rewrite (up_blocks _ _ _ U blk Ht) in W. apply cwp_bind. eapply cwp_mono; [exact W| |].
  - intros u s3 (Vk3 & B3 & Bt3). apply cwp_ret. right. split; [done|]. exists blk, k. split; [split; [by exists b|done]|]. fold ino. split; [done|]. split.
    + intros c Hc Ha. rewrite B3 by done. by apply Er.
    + intros c Hc. rewrite Bt3, Ei2, Eo by done. unfold bitmap_get. by rewrite (up_bitmap _ _ _ U).
  - intros s' (Od & Eg & w & J & Hw). exists blk, k. split; [split; [by exists b|done]|]. fold ino. split; [done|]. split; [done|]. exists w. split; [done|].
    destruct Hw as [Hw|Hw]; [left|right]; intros c Hc Ha; rewrite Hw by done; [by apply U|by apply Er].
Qed.

End Unlink.

(** ** Properties *)

Section Properties.
Context {D : Type} {dev : block_device D} {dev_ok : D -> Prop} {sectors : D -> view} `{!Device dev dev_ok sectors} {g : geo}.
#[local] Abbreviation B := (B (sectors := sectors) (g := g)).

(** C26: removing a file is atomic and frees exactly its blocks.  If
    [exfs_op_unlink] comes back with 0, an entry of the directory that has the
    name is gone, its inode is blank, no other block outside the bitmap has
    changed and the blocks in use are those of before without the blocks of the
    file; with any other result nothing has changed.  If the machine stops at any
    point, then after recovery, however often that is interrupted, either the
    entry and the inode are both there as before or both are gone. *)
Theorem exfs_unlink_atomic dir name (s : exfs D) o s1 :
  geo_ok g -> vol_ok (dev_ok := dev_ok) (sectors := sectors) (g := g) s -> dir_good (sectors := sectors) (g := g) s (nd_inode dir) ->
  exfs_op_unlink dev dir name s = (o, s1) ->
  match o with
  | Some r => unlinked (dev_ok := dev_ok) (sectors := sectors) (g := g) s (nd_inode dir) name r s1
  | None => exists blk k, entry_at (sectors := sectors) (g := g) s (nd_inode dir) (de_matches name) blk k /\
      forall s2, recovers (dev := dev) (dev_ok := dev_ok) (sectors := sectors) s1 s2 ->
        (forall c, tracked (g := g) c -> ~ bitmap_area (g := g) c -> B s2 c = B s c) \/
        (forall c, tracked (g := g) c -> ~ bitmap_area (g := g) c -> B s2 c = removed (sectors := sectors) (g := g) s (unlink_ino (sectors := sectors) (g := g) s blk k) blk k c)
  end.
Proof.
  intros G Vk Dg E. pose proof (exfs_op_unlink_ok (dev := dev) G dir name s Vk Dg) as W. unfold cwp in W. rewrite E in W. destruct o as [r|]; [exact W|].
  destruct W as (blk & k & En & St). exists blk, k. split; [done|]. intros s2 Rc. by apply (stopped_recovers _ _ _ s1 s2 St).
Qed.

End Properties.

(** ** A directory with one file *)

Module UnlinkDemo.
Import Mapdisk VolumeDemo.

(** The volume of [VolumeDemo] with two more blocks in use: inode 1 is a directory
    in block 3, whose one entry names inode 2, a file in block 4. *)
Definition dir_inode : exfs_inode := new_inode 0x1ed 0 3 0 0 (replicate 8 0).
Definition file_inode : exfs_inode := new_inode 0x1a4 5 4 0 0 (replicate 8 0).
Definition NAME_F : list Z := [102].
Definition bits2 : list Z := [31; 252] ++ replicate 510 0.
Definition inodes1 : list Z := memcpy (replicate 512 0) 256 (inode_bytes dir_inode).
Definition inodes2 : list Z := memcpy (replicate 512 0) 0 (inode_bytes file_inode).
Definition entries : list Z := memcpy (replicate 512 0) 0 (dirent_bytes 2 0 NAME_F).
Definition disk : gmap Z (list Z) := <[24 := entries]> (<[17 := inodes2]> (<[16 := inodes1]> (<[8 := bits2]> (blank 128)))).
Definition vol : exfs_volume := mk_vol VolumeDemo.sb (bits2 ++ replicate 3584 0) 0 None 0 false 0 (replicate 16 0) (Some (replicate 16 [])).
Definition start : exfs (gmap Z (list Z)) := mk_exfs vol disk 0 audit_init.
Definition dir : exfs_node_data := mk_nd 1 dir_inode.

#[local] Abbreviation B := (B (sectors := sectors) (g := layout) start).

Lemma disk_sector l : 0 <= l < 128 -> is_Some (disk !! l).
Proof.
  intros Hl. unfold disk. destruct (decide (l = 24)) as [->|]; [by rewrite lookup_insert_eq|]. rewrite lookup_insert_ne by done.
  destruct (decide (l = 17)) as [->|]; [by rewrite lookup_insert_eq|]. rewrite lookup_insert_ne by done.
  destruct (decide (l = 16)) as [->|]; [by rewrite lookup_insert_eq|]. rewrite lookup_insert_ne by done.
  destruct (decide (l = 8)) as [->|]; [by rewrite lookup_insert_eq|]. rewrite lookup_insert_ne by done. by rewrite blank_sector.
Qed.

Lemma disk_ok : vol_ok (dev_ok := map_ok) (sectors := sectors) (g := layout) start.
Proof.
  constructor; [constructor| | |].
  - constructor; [|done]. do 4 (apply map_Forall_insert_2; [vm_compute; reflexivity|]). apply blank_ok.
  - done.
  - intros c Hc k Hk. change (g_base layout) with 0. unfold on_volume in Hc. change (g_total layout) with 16 in Hc. apply disk_sector. lia.
  - done.
  - split; [by eexists|done].
  - vm_compute. reflexivity.
  - vm_compute. reflexivity.
  - intros i Hi. change (g_nbitmap layout) with 1 in Hi. replace i with 0 by lia. vm_compute. reflexivity.
  - assert (F : Forall (fun c => bitmap_get vol c = true) (seqZ 10 6)) by (repeat constructor).
    intros c Hc. rewrite Forall_forall in F. apply F. apply elem_of_seqZ. unfold reserved in Hc. cbn in Hc. lia.
Qed.

(** An inode with one direct block. *)
Lemma loc_single f mode size blk hash r : valid r -> loc f (new_inode mode size blk 0 0 hash) r = if decide (r = RData 0) then blk else 0.
Proof.
  revert r. apply role_down. intros r Hr IH. destruct (parent r) as [[p k]|] eqn:E.
  - destruct (parent_valid r p k Hr E) as (_ & Tp & _). rewrite (loc_child _ _ _ _ _ Hr E), (IH p k eq_refl), decide_False by (by intros ->).
    rewrite decide_False; [done|]. intros ->. cbn in E. done.
  - destruct r as [fb| | |j]; try done. cbn [parent loc valid] in *. destruct (Z.ltb_spec fb EXFS_DIRECT_BLOCKS) as [Hd|]; [|by destruct (_ <? _)].
    unfold EXFS_DIRECT_BLOCKS in Hd. cbn [i_direct new_inode]. destruct (decide (RData fb = RData 0)) as [[= ->]|Hne]; [done|].
    rewrite zget_zset_ne by (congruence || lia). change (replicate 12 0) with (replicate (Z.to_nat 12) 0). apply zget_replicate. lia.
Qed.

Lemma single_ok mode size blk hash :
  3 <= blk < 10 -> bitmap_get vol blk = true -> file_ok (sectors := sectors) (g := layout) start (new_inode mode size blk 0 0 hash).
Proof.
  intros Hb Hu. constructor; [done| |].
  - intros r Hr. rewrite loc_single by done. destruct (decide (r = RData 0)); [|done]. intros _. split; [cbn; lia|]. split; [done|]. unfold reserved. cbn. lia.
  - intros r r' Hr Hr'. rewrite !loc_single by done. destruct (decide (r = RData 0)) as [->|], (decide (r' = RData 0)) as [->|]; done.
Qed.

Lemma only_entry : (fun k => de_free (dirents (B 3)).[k]) <$> seqZ 0 15 = false :: replicate 14 true.
Proof. vm_compute. reflexivity. Qed.

Lemma entry_inode : de_inode_num (dirents (B 3)).[0] = 2.
Proof. vm_compute. reflexivity. Qed.

Lemma file_on_disk : inode_in (g := layout) B 2 = file_inode.
Proof. vm_compute. reflexivity. Qed.

Lemma used_blocks : bitmap_get vol 3 = true /\ bitmap_get vol 4 = true.
Proof. vm_compute. split; reflexivity. Qed.

Lemma entry_zero k : 0 <= k < 15 -> de_free (dirents (B 3)).[k] = false -> k = 0.
Proof.
  intros Hk Ef. destruct (decide (k = 0)) as [|Hn]; [assumption|exfalso]. pose proof (f_equal (fun l => l !! Z.to_nat k) only_entry) as Em. cbv beta in Em.
  rewrite list_lookup_fmap, lookup_seqZ_lt in Em by lia. cbn [fmap option_fmap option_map] in Em. rewrite Z.add_0_l, Z2Nat.id, Ef in Em by lia.
  replace (Z.to_nat k) with (S (Z.to_nat (k - 1))) in Em by lia. assert (R : (false :: replicate 14 true) !! S (Z.to_nat (k - 1)) = Some true) by (apply (lookup_replicate_2 14 true); lia).
  rewrite R in Em. discriminate Em.
Qed.

Lemma dir_is_good : dir_good (sectors := sectors) (g := layout) start dir_inode.
Proof.
  assert (F : file_ok (sectors := sectors) (g := layout) start dir_inode) by (unfold dir_inode; apply single_ok; [lia|apply used_blocks]).
  split; [exact F|]. intros blk k ((b & Hb & ->) & Hl & Hk & Tk). destruct (data_block layout_ok start dir_inode b F Hb Hl) as [Hv _].
  unfold dir_inode in *. rewrite loc_single in * by exact Hv. destruct (decide (RData b = RData 0)) as [[= ->]|]; [|by destruct Hl].
  assert (k = 0) as -> by (apply entry_zero; [exact Hk|by apply negb_true_iff]). cbv zeta. rewrite entry_inode, file_on_disk.
  split; [split; [lia|by vm_compute]|]. split; [unfold file_inode; apply single_ok; [lia|apply used_blocks]|].
  intros r r' Hr Hr'. rewrite loc_single by exact Hr. unfold file_inode. rewrite loc_single by exact Hr'.
  destruct (decide (r = RData 0)), (decide (r' = RData 0)); done.
Qed.

Lemma exfs_unlink_atomic_witness :
  (geo_ok layout /\ vol_ok (dev_ok := map_ok) (sectors := sectors) (g := layout) start /\ dir_good (sectors := sectors) (g := layout) start (nd_inode dir)) /\
  (exfs_op_unlink mapdisk dir NAME_F start).1 = Some 0 /\
  unlinked (dev_ok := map_ok) (sectors := sectors) (g := layout) start (nd_inode dir) NAME_F 0 (exfs_op_unlink mapdisk dir NAME_F start).2.
Proof.
  split; [split; [apply layout_ok|split; [apply disk_ok|apply dir_is_good]]|].
  assert (E : (exfs_op_unlink mapdisk dir NAME_F start).1 = Some 0) by (vm_compute; reflexivity). split; [exact E|].
  pose proof (exfs_unlink_atomic (dev := mapdisk) dir NAME_F start _ _ layout_ok disk_ok dir_is_good (surjective_pairing _)) as W. rewrite E in W. exact W.
Defined.

End UnlinkDemo.
