(* ===== verification/ExfsMount.v ===== *)
(** * ExFS: formatting and mounting

    [exfs_format] lays out a volume on a device with any contents, [exfs_mount]
    reads it back.  Together they establish the invariants from which the file
    operations start: superblock codec, the bitmap of a fresh volume, the two
    operations. *)

From S2P Require Import Prelude AuditRing Blake3 BlockDev Journal ExfsFile ExfsVolume ExfsData ExfsIo ExfsDir.

(** ** The superblock codec *)

(** The fields have their widths. *)
Record sb_ok (b : exfs_superblock) : Prop := {
  sk_magic : 0 <= sb_magic b < 2 ^ 32 /\ 0 <= sb_version b < 2 ^ 32;
  sk_blocks : 0 <= sb_total_blocks b < 2 ^ 64 /\ 0 <= sb_free_blocks b < 2 ^ 64;
  sk_inodes : 0 <= sb_total_inodes b < 2 ^ 64 /\ 0 <= sb_free_inodes b < 2 ^ 64;
  sk_areas : 0 <= sb_inode_table_block b < 2 ^ 64 /\ 0 <= sb_block_bitmap_block b < 2 ^ 64 /\ 0 <= sb_data_start_block b < 2 ^ 64;
  sk_prov : 0 <= sb_provenance_block b < 2 ^ 64 /\ 0 <= sb_provenance_size b < 2 ^ 64;
  sk_uuid : length (sb_fs_uuid b) = 16%nat;
  sk_journal : 0 <= sb_journal_block b < 2 ^ 64 /\ 0 <= sb_journal_size b < 2 ^ 64;
  sk_bitmap : 0 <= sb_bitmap_size b < 2 ^ 64
}.

Lemma sb_bytes_len b : sb_ok b -> zlen (sb_bytes b) = EXFS_BLOCK_SIZE.
Proof.
  intros H. unfold sb_bytes, zlen, EXFS_BLOCK_SIZE. rewrite !length_app, !length_le_bytes, length_replicate, (sk_uuid b H). lia.
Qed.

Lemma sb_roundtrip b : sb_ok b -> sb_at (sb_bytes b) = b.
Proof.
  intros [[A1 A2] [A3 A4] [A5 A6] (A7 & A8 & A9) [A10 A11] Lu [A12 A13] A14].
  destruct b as [f1 f2 f3 f4 f5 f6 f7 f8 f9 f10 f11 uuid f12 f13 f14].
  cbn [sb_magic sb_version sb_total_blocks sb_free_blocks sb_total_inodes sb_free_inodes sb_inode_table_block sb_block_bitmap_block
       sb_data_start_block sb_provenance_block sb_provenance_size sb_fs_uuid sb_journal_block sb_journal_size sb_bitmap_size] in *.
  unfold sb_at, sb_bytes.
  cbn [sb_magic sb_version sb_total_blocks sb_free_blocks sb_total_inodes sb_free_inodes sb_inode_table_block sb_block_bitmap_block
       sb_data_start_block sb_provenance_block sb_provenance_size sb_fs_uuid sb_journal_block sb_journal_size sb_bitmap_size].
  generalize (replicate (Z.to_nat 3976) 0). intros pad.
  assert (L8 : forall x, Z.of_nat (length (le_bytes 8 x)) = 8) by (intros; by rewrite length_le_bytes).
  assert (L4 : forall x, Z.of_nat (length (le_bytes 4 x)) = 4) by (intros; by rewrite length_le_bytes).
  assert (Lu' : Z.of_nat (length uuid) = 16) by lia.
  f_equal.
  all: try (repeat (erewrite le_at_skip; [|first [apply L8|apply L4|exact Lu']|lia]); apply le_at_front; done).
  change 80%nat with (Z.to_nat 80). repeat (erewrite window_skip; [|first [apply L8|apply L4]|lia]).
  cbn -[take]. rewrite drop_0. by apply take_app_length'.
Qed.

(** ** The bitmap of a fresh volume *)

Lemma bit_set_bits (l : list Z) b c :
  0 <= b < 8 * zlen l -> 0 <= c ->
  Z.testbit l.[b / 8 <- Z.lor l.[b / 8] (bit_mask b)].[c / 8] (c mod 8) = (c =? b) || Z.testbit l.[c / 8] (c mod 8).
Proof.
  intros Hb Hc. pose proof (bitmap_get_set (set_bitmap l (vol_zero 0 None)) b c Hb Hc) as H. by rewrite !bitmap_get_bit in H.
Qed.

Lemma format_loop_bits b lo n k buf :
  0 <= lo -> 0 <= k -> k + Z.of_nat n <= BITS_PER_BLK -> zlen buf = EXFS_BLOCK_SIZE ->
  let buf' := for_loop n (lo + k) (fun blk buf =>
    if format_used b blk then buf.[(blk - lo) / 8 <- Z.lor buf.[(blk - lo) / 8] (bit_mask (blk - lo))] else buf) buf in
  zlen buf' = EXFS_BLOCK_SIZE /\ forall c, 0 <= c -> Z.testbit buf'.[c / 8] (c mod 8) =
    ((k <=? c) && (c <? k + Z.of_nat n) && format_used b (lo + c)) || Z.testbit buf.[c / 8] (c mod 8).
Proof.
  revert k buf. induction n as [|n IH]; intros k buf Hl Hk Hn L; cbn [for_loop].
  - split; [done|]. intros c Hc. destruct (Z.leb_spec k c), (Z.ltb_spec c (k + Z.of_nat 0)); done || lia.
  - replace (lo + k + 1) with (lo + (k + 1)) by lia. replace (lo + k - lo) with k by lia.
    set (buf1 := if format_used b (lo + k) then _ else _).
    assert (L1 : zlen buf1 = EXFS_BLOCK_SIZE) by (unfold buf1; destruct (format_used _ _); [by rewrite zlen_zset|done]).
    assert (E1 : forall c, 0 <= c -> Z.testbit buf1.[c / 8] (c mod 8) = ((c =? k) && format_used b (lo + k)) || Z.testbit buf.[c / 8] (c mod 8)).
    { intros c Hc. unfold buf1. destruct (format_used b (lo + k)); [|by rewrite andb_false_r]. rewrite andb_true_r. apply bit_set_bits; [|done].
      rewrite L. unfold BITS_PER_BLK, EXFS_BLOCK_SIZE in *. lia. }
    destruct (IH (k + 1) buf1 Hl ltac:(lia) ltac:(lia) L1) as [L2 E2]. split; [exact L2|]. intros c Hc. cbv zeta in E2. rewrite E2, E1 by done.
    destruct (Z.leb_spec (k + 1) c), (Z.ltb_spec c (k + 1 + Z.of_nat n)), (Z.leb_spec k c), (Z.ltb_spec c (k + Z.of_nat (S n))), (Z.eqb_spec c k) as [->|];
      try lia; cbn [andb orb]; try done; by rewrite ?orb_false_r.
Qed.

Lemma zero_bits c k : 0 <= c < EXFS_BLOCK_SIZE -> Z.testbit zero_block.[c] k = false.
Proof.
  intros Hc. assert (E : zero_block.[c] = 0); [|rewrite E; apply Z.bits_0]. unfold zget, zero_block.
  by rewrite list_lookup_total_alt, lookup_replicate_2 by lia.
Qed.

Lemma format_bitmap_spec b bb :
  0 <= bb -> zlen (format_bitmap b bb) = EXFS_BLOCK_SIZE /\
  forall c, 0 <= c < BITS_PER_BLK -> bb * BITS_PER_BLK + c < sb_total_blocks b ->
    Z.testbit (format_bitmap b bb).[c / 8] (c mod 8) = format_used b (bb * BITS_PER_BLK + c).
Proof.
  intros Hb. unfold format_bitmap. set (lo := bb * BITS_PER_BLK). set (lim := Z.min (lo + BITS_PER_BLK) (sb_total_blocks b)).
  assert (0 <= lo) by (unfold lo, BITS_PER_BLK, EXFS_BLOCK_SIZE; lia). assert (0 < BITS_PER_BLK) by done.
  destruct (format_loop_bits b lo (Z.to_nat (lim - lo)) 0 zero_block ltac:(lia) ltac:(lia) ltac:(lia) zlen_zero_block) as [L E].
  rewrite Z.add_0_r in L, E. split; [exact L|]. intros c Hc Ht. cbv zeta in E. rewrite E by lia.
  rewrite zero_bits, orb_false_r by (unfold BITS_PER_BLK, EXFS_BLOCK_SIZE in *; Z.div_mod_to_equations; lia).
  destruct (Z.leb_spec 0 c), (Z.ltb_spec c (0 + Z.of_nat (Z.to_nat (lim - lo)))); try lia. done.
Qed.

(** The bytes of a list of blocks. *)
Lemma concat_get (ls : list (list Z)) i :
  Forall (fun l => length l = 4096%nat) ls -> 0 <= i < EXFS_BLOCK_SIZE * zlen ls -> (concat ls).[i] = ls.[i / EXFS_BLOCK_SIZE].[i mod EXFS_BLOCK_SIZE].
Proof.
  intros F Hi. unfold EXFS_BLOCK_SIZE in *. pose proof (Z.div_mod i 4096 ltac:(lia)) as E. pose proof (Z.mod_pos_bound i 4096 ltac:(lia)) as M.
  set (q := i / 4096) in *. set (r := i mod 4096) in *. pose proof (zget_lookup ls q ltac:(lia)) as El.
  unfold zget at 1. replace (Z.to_nat i) with (4096 * Z.to_nat q + Z.to_nat r)%nat by lia. rewrite !list_lookup_total_alt, <- lookup_drop.
  rewrite drop_concat by done. rewrite (drop_S ls ls.[q] (Z.to_nat q) El). cbn [concat].
  rewrite Forall_forall in F. pose proof (F _ (list_elem_of_lookup_2 _ _ _ El)). rewrite lookup_app_l by lia. unfold zget at 2. by rewrite list_lookup_total_alt.
Qed.

Definition fresh_bitmap (b : exfs_superblock) : list Z := concat (format_bitmap b <$> seqZ 0 (sb_bitmap_size b)).

Lemma fresh_bitmap_blocks b : Forall (fun l => length l = 4096%nat) (format_bitmap b <$> seqZ 0 (sb_bitmap_size b)).
Proof.
  apply Forall_fmap, Forall_seqZ. intros bb Hb. cbn. destruct (format_bitmap_spec b bb ltac:(lia)) as [L _]. unfold zlen, EXFS_BLOCK_SIZE in L. lia.
Qed.

Lemma fresh_bitmap_len b : 0 <= sb_bitmap_size b -> zlen (fresh_bitmap b) = EXFS_BLOCK_SIZE * sb_bitmap_size b.
Proof.
  intros H. unfold fresh_bitmap, zlen. rewrite (length_concat_const 4096) by apply fresh_bitmap_blocks. rewrite length_fmap, length_seqZ.
  unfold EXFS_BLOCK_SIZE. lia.
Qed.

Lemma fresh_bitmap_block b i : 0 <= i < sb_bitmap_size b -> take 4096 (drop (Z.to_nat (i * EXFS_BLOCK_SIZE)) (fresh_bitmap b)) = format_bitmap b i.
Proof.
  intros Hi. unfold fresh_bitmap, EXFS_BLOCK_SIZE. replace (Z.to_nat (i * 4096)) with (4096 * Z.to_nat i)%nat by lia.
  rewrite drop_concat by apply fresh_bitmap_blocks.
  rewrite (drop_S _ (format_bitmap b i)) by (rewrite list_lookup_fmap, lookup_seqZ_lt by lia; cbn; do 2 f_equal; lia). cbn [concat].
  apply take_app_length'. destruct (format_bitmap_spec b i ltac:(lia)) as [L _]. unfold zlen, EXFS_BLOCK_SIZE in L. lia.
Qed.

(** The fresh bitmap has exactly the metadata blocks in use. *)
Lemma fresh_bitmap_get b v c :
  v_block_bitmap v = fresh_bitmap b -> 0 <= c < sb_total_blocks b -> sb_total_blocks b <= BITS_PER_BLK * sb_bitmap_size b ->
  bitmap_get v c = format_used b c.
Proof.
  intros Ev Hc Hs. rewrite bitmap_get_bit, Ev. unfold BITS_PER_BLK, EXFS_BLOCK_SIZE in *.
  assert (Q : c / 8 / 4096 = c / 32768) by (by rewrite Z.div_div). assert (R : (c / 8) mod 4096 = (c mod 32768) / 8) by (Z.div_mod_to_equations; lia).
  assert (S8 : c mod 8 = (c mod 32768) mod 8) by (Z.div_mod_to_equations; lia).
  assert (H1 : 0 <= c / 32768 < sb_bitmap_size b) by (Z.div_mod_to_equations; lia).
  unfold fresh_bitmap. rewrite concat_get; [|apply fresh_bitmap_blocks|rewrite zlen_fmap, zlen_seqZ by lia; unfold EXFS_BLOCK_SIZE; Z.div_mod_to_equations; lia].
  unfold EXFS_BLOCK_SIZE. rewrite Q, R, S8, zget_fmap_seqZ by lia. cbn [Z.add].
  destruct (format_bitmap_spec b (c / 32768) ltac:(lia)) as [_ E]. unfold BITS_PER_BLK, EXFS_BLOCK_SIZE in E.
  rewrite E by (Z.div_mod_to_equations; lia). f_equal. Z.div_mod_to_equations. lia.
Qed.

(** Setting a bit that is set changes nothing. *)
Lemma bitmap_set_id v c : 0 <= c < 8 * zlen (v_block_bitmap v) -> bitmap_get v c = true -> bitmap_set c v = v.
Proof.
  intros Hc Hg. unfold bitmap_set. rewrite bitmap_get_bit in Hg. rewrite bit_mask_pow.
  assert (0 <= c / 8 < zlen (v_block_bitmap v)) by (Z.div_mod_to_equations; lia). pose proof (Z.mod_pos_bound c 8 ltac:(lia)).
  assert (E : Z.lor (v_block_bitmap v).[c / 8] (2 ^ (c mod 8)) = (v_block_bitmap v).[c / 8]).
  { apply Z.bits_inj'. intros n Hn. rewrite Z.lor_spec, Z.pow2_bits_eqb by lia. destruct (Z.eqb_spec (c mod 8) n) as [<-|]; [by rewrite Hg|apply orb_false_r]. }
  rewrite E. unfold zset. rewrite list_insert_id by (apply zget_lookup; lia). by destruct v.
Qed.

Lemma bitmap_sets_id n c v :
  0 <= c -> c + Z.of_nat n <= 8 * zlen (v_block_bitmap v) -> (forall c', c <= c' < c + Z.of_nat n -> bitmap_get v c' = true) ->
  for_loop n c bitmap_set v = v.
Proof.
  revert c. induction n as [|n IH]; intros c Hc Hn Hg; cbn [for_loop]; [done|]. rewrite bitmap_set_id by (lia || apply Hg; lia).
  apply IH; [lia|lia|]. intros c' Hc'. apply Hg. lia.
Qed.

(** ** The layout *)

Definition format_geo (lba : Z) (b : exfs_superblock) : geo := geo_of (set_sb b (vol_zero lba None)).

Lemma format_sb_spec total b :
  0 <= total <= 2 ^ 29 -> format_sb total = Some b ->
  sb_ok b /\ sb_magic b = EXFS_MAGIC /\ sb_total_blocks b = total /\ sb_block_bitmap_block b = 1 /\ 0 < sb_bitmap_size b /\
  sb_inode_table_block b = 1 + sb_bitmap_size b /\ sb_data_start_block b = sb_inode_table_block b + 256 /\ total <= BITS_PER_BLK * sb_bitmap_size b /\
  sb_journal_size b = 17 /\ sb_provenance_size b = 16 /\ sb_provenance_block b = sb_journal_block b + 17 /\ total = sb_provenance_block b + 16 /\
  sb_data_start_block b < sb_journal_block b.
Proof.
  intros Ht E. unfold format_sb in E. unfold BITS_PER_BLK, EXFS_BLOCK_SIZE, EXFS_MAX_INODES, EXFS_INODE_SIZE, EXFS_JOURNAL_MAX_BLOCKS in *.
  change ((4096 * 256 + 4096 - 1) / 4096) with 256 in E. rewrite u64_small in E by lia. set (q := Z.max 1 _) in E.
  assert (Hq : 1 <= q /\ total <= 32768 * q /\ q <= 2 ^ 15) by (unfold q; Z.div_mod_to_equations; lia). clearbody q.
  destruct (Z.leb_spec total (1 + q + 256 + 16 + (1 + 16))); [done|]. injection E as <-.
  cbn [sb_magic sb_version sb_total_blocks sb_free_blocks sb_total_inodes sb_free_inodes sb_inode_table_block sb_block_bitmap_block
       sb_data_start_block sb_provenance_block sb_provenance_size sb_fs_uuid sb_journal_block sb_journal_size sb_bitmap_size].
  split; [constructor; cbn; unfold EXFS_VERSION, EXFS_MAGIC; repeat split; lia|]. repeat split; lia.
Qed.

Lemma format_geo_ok lba total b :
  0 <= lba -> 0 <= total -> lba + 8 * total <= 2 ^ 32 -> format_sb total = Some b -> geo_ok (format_geo lba b).
Proof.
  intros Hl Ht Hf E. destruct (format_sb_spec total b ltac:(lia) E) as (_ & _ & E1 & E2 & E3 & E4 & E5 & E6 & E7 & E8 & E9 & E10 & E11).
  unfold format_geo, geo_of. cbn [x_vol v_sb set_sb vol_zero v_dev_lba_base]. unfold bitmap_blocks. cbn [v_sb set_sb].
  rewrite (proj2 (Z.eqb_neq (sb_bitmap_size b) 0)) by lia.
  unfold BITS_PER_BLK, EXFS_BLOCK_SIZE in *. constructor; cbn [g_base g_total g_data g_inodes g_bitmap g_nbitmap g_prov g_nprov g_jb g_jn]; unfold EXFS_BLOCK_SIZE; lia.
Qed.

(** ** Blocks before the volume is mounted *)

Section Mount.
Context {D : Type} {dev : block_device D} {dev_ok : D -> Prop} {sectors : D -> view} `{!Device dev dev_ok sectors}.
Context {g : geo} (G : geo_ok g).
#[local] Abbreviation St := (exfs D).
#[local] Abbreviation V := (V (sectors := sectors)).
#[local] Abbreviation fs_ok := (fs_ok (dev_ok := dev_ok) (sectors := sectors)).
#[local] Abbreviation B := (B (sectors := sectors) (g := g)).
#[local] Abbreviation on_volume := (on_volume (g := g)).

(** The blocks of the volume are on the device, no transaction is open. *)
Record raw (s : St) : Prop := {
  rw_fs : fs_ok s;
  rw_base : v_dev_lba_base (x_vol s) = g_base g;
  rw_present : forall c, on_volume c -> present (V s) (g_base g + 8 * c);
  rw_idle : v_jtxn_active (x_vol s) = false
}.

(** [s'] is [s] with the blocks [f], the cache apart. *)
Record laid (f : Z -> list Z) (s s' : St) : Prop := {
  ld_raw : raw s';
  ld_same : same s s';
  ld_blocks : forall c, on_volume c -> B s' c = f c
}.

Lemma raw_inr s c : raw s -> on_volume c -> inr (sectors := sectors) s c.
Proof.
  intros R Hc. unfold inr, in_range. rewrite (rw_base s R). unfold on_volume in Hc. pose proof (go_base g G).
  split; [lia|]. split; [lia|]. split; [lia|]. by apply (rw_present s R).
Qed.

Lemma raw_same s s' : raw s -> same s s' -> fs_ok s' -> (forall l, is_Some (V s l) -> is_Some (V s' l)) -> raw s'.
Proof.
  intros R Sm Ok P. constructor; [done|by rewrite (same_base _ _ Sm), (rw_base s R)| |].
  - intros c Hc k Hk. by apply P, (rw_present s R).
  - destruct Sm as [(c & n & ->) _]. apply R.
Qed.

Lemma raw_lba s c : raw s -> lba_of s c = g_base g + 8 * c.
Proof. intros R. unfold lba_of. by rewrite (rw_base s R). Qed.

Lemma laid_refl s : raw s -> laid (B s) s s.
Proof. intros R. constructor; [done|apply same_refl|done]. Qed.

Lemma laid_ext f f' s s' : (forall c, on_volume c -> f c = f' c) -> laid f s s' -> laid f' s s'.
Proof. intros E [A1 A2 A3]. constructor; [done|done|]. intros c Hc. rewrite A3 by done. by apply E. Qed.

Lemma laid_trans f f' s s1 s' : laid f s s1 -> laid f' s1 s' -> laid f' s s'.
Proof. intros [A1 A2 A3] [C1 C2 C3]. constructor; [done|by eapply same_trans|done]. Qed.

Lemma raw_read c buf s :
  raw s -> on_volume c -> zlen buf = EXFS_BLOCK_SIZE ->
  cwp (exfs_read_block dev c buf) s (fun r s' => r = (true, B s c) /\ laid (B s) s s') (fun _ => False).
Proof.
  intros R Hc L. eapply cwp_mono; [apply exfs_read_block_spec; [apply R|by apply raw_inr|done]| |done].
  intros r s' (-> & Sm & Ok & E). rewrite (raw_lba s c R). split; [done|]. constructor; [|done|].
  - eapply raw_same; [exact R|done|done|]. intros l. by rewrite E.
  - intros c' _. apply block_of_ext. intros k _. apply E.
Qed.

Lemma raw_write c data s :
  raw s -> on_volume c -> zlen data = EXFS_BLOCK_SIZE ->
  cwp (exfs_write_block dev c data) s (fun ok s' => ok = true /\ laid (set_block c data (B s)) s s') (fun _ => True).
Proof.
  intros R Hc L. eapply cwp_mono; [apply exfs_write_block_spec; [apply R|by apply raw_inr|done]| |done].
  intros ok s' (-> & Sm & Ok & E). rewrite (raw_lba s c R) in E. split; [done|]. constructor; [|done|].
  - eapply raw_same; [exact R|done|done|]. intros l Hl. rewrite E. by apply put_some.
  - intros c' Hc'. unfold set_block, B. destruct (Z.eqb_spec c' c) as [->|].
    + apply block_at_block_of; [|done|].
      * intros l b. apply (sector_len s' l b Ok).
      * intros k Hk. rewrite E, put_in by lia. do 2 f_equal. lia.
    + apply block_of_ext. intros k Hk. rewrite E. apply put_out. lia.
Qed.

Lemma write_run_ok n first i f s :
  raw s -> 0 <= first + i -> first + i + Z.of_nat n <= g_total g -> (forall j, i <= j -> zlen (f j) = EXFS_BLOCK_SIZE) ->
  cwp (write_run dev n first i f) s
    (fun ok s' => ok = true /\ laid (fun c => if (first + i <=? c) && (c <? first + i + Z.of_nat n) then f (c - first) else B s c) s s') (fun _ => True).
Proof.
  revert i s. induction n as [|n IH]; intros i s R Hi Hn Lf; cbn [write_run].
  - apply cwp_ret. split; [done|]. eapply laid_ext; [|by apply laid_refl]. intros c _. destruct (Z.leb_spec (first + i) c), (Z.ltb_spec c (first + i + Z.of_nat 0)); done || lia.
  - apply cwp_bind. eapply cwp_mono; [apply raw_write; [done|unfold on_volume; lia|apply Lf; lia]| |done]. intros ok s1 (-> & U1). cbn [negb].
    eapply cwp_mono; [apply (IH (i + 1) s1); [apply U1|lia|lia|intros; apply Lf; lia]| |done]. intros ok s2 (-> & U2). split; [done|].
    eapply laid_trans; [exact U1|]. eapply laid_ext; [|exact U2]. intros c Hc. cbn beta. rewrite (ld_blocks _ _ _ U1 c Hc). unfold set_block.
    destruct (Z.leb_spec (first + (i + 1)) c), (Z.ltb_spec c (first + (i + 1) + Z.of_nat n)), (Z.leb_spec (first + i) c),
      (Z.ltb_spec c (first + i + Z.of_nat (S n))), (Z.eqb_spec c (first + i)) as [->|]; try lia; try done. cbn [andb]. f_equal. lia.
Qed.

(** A volume that was just allocated. *)
Lemma fresh_raw c d cr au :
  dev_ok d -> (forall l, g_base g <= l < g_base g + 8 * g_total g -> is_Some (sectors d l)) ->
  (forall es, c = Some es -> es = replicate 64 (mk_ce 0 false zero_block)) -> raw (mk_exfs (vol_zero (g_base g) c) d cr au).
Proof.
  intros Ok P Hc. constructor; cbn [x_vol x_dev]; [|done| |done].
  - constructor; [done|]. cbn [x_vol v_cache vol_zero]. intros es ->. rewrite (Hc es eq_refl).
    assert (N : forall i, 0 <= i < EXFS_CACHE_SIZE -> ce_valid (replicate 64 (mk_ce 0 false zero_block)).[i] = false).
    { intros i Hi. unfold zget. by rewrite list_lookup_total_alt, lookup_replicate_2 by (unfold EXFS_CACHE_SIZE in Hi; lia). }
    constructor; [done|done| |].
    + intros i Hi Hv. rewrite N in Hv by done. done.
    + intros i j Hi Hj _ Hv. rewrite N in Hv by done. done.
  - intros c' Hc' k Hk. apply P. unfold on_volume in Hc'. lia.
Qed.

(** A change of the volume in memory that leaves cache, place and transaction alone. *)
Definition quiet (f : exfs_volume -> exfs_volume) : Prop :=
  forall v, (forall c n, f (set_cache c n v) = set_cache c n (f v)) /\ v_cache (f v) = v_cache v /\ v_cache_next_evict (f v) = v_cache_next_evict v /\
    v_dev_lba_base (f v) = v_dev_lba_base v /\ (v_jtxn_active v = false -> v_jtxn_active (f v) = false).

Lemma raw_vol f s : quiet f -> raw s -> raw (with_bitmap f s).
Proof.
  intros Q [[A1 A2] A3 A4 A5]. destruct (Q (x_vol s)) as (_ & Q1 & Q2 & Q3 & Q4).
  constructor; [constructor; [done|]|by rewrite <- A3|done|by apply Q4]. cbn [x_vol with_bitmap]. rewrite Q1, Q2, Q3. exact A2.
Qed.

Lemma laid_vol f h s s' : quiet f -> laid h s s' -> laid h (with_bitmap f s) (with_bitmap f s').
Proof.
  intros Q [A1 [(c & n & E) A3] A4]. constructor; [by apply raw_vol| |done]. split; [|done]. exists c, n. cbn [x_vol with_bitmap].
  rewrite E. by destruct (Q (x_vol s)) as (-> & _).
Qed.

Lemma raw_write_inode i s :
  raw s -> inode_block 0 (x_vol s) = g_inodes g -> inode_ok i ->
  cwp (exfs_write_inode dev 0 i) s
    (fun ok s' => ok = true /\ laid (set_block (g_inodes g) (memcpy (B s (g_inodes g)) 0 (inode_bytes i)) (B s)) s s') (fun _ => True).
Proof.
  intros R Ei Oi. pose proof (go_bitmap g G). pose proof (go_inodes g G). pose proof (go_journal g G).
  assert (Hv : on_volume (g_inodes g)) by (unfold on_volume; lia).
  unfold exfs_write_inode. apply cwp_bind, cwp_get, cwp_bind. unfold exfs_txn_read_block. apply cwp_bind, cwp_get. cbv zeta.
  rewrite (rw_idle s R), Ei. eapply cwp_mono; [apply raw_read; [done|done|apply zlen_zero_block]| |done]. intros r s1 (-> & U1). cbn [fst snd negb].
  unfold exfs_meta_write_block. apply cwp_bind, cwp_get. rewrite (rw_idle s1 (ld_raw _ _ _ U1)).
  assert (Lb : zlen (B s (g_inodes g)) = EXFS_BLOCK_SIZE).
  { apply block_of_spec; [by apply R|]. intros l b. apply (sector_len s l b), R. }
  change (inode_offset 0) with 0. eapply cwp_mono; [apply raw_write; [apply U1|done|]| |done].
  - rewrite zlen_memcpy, Lb; [done|lia|]. rewrite Lb, inode_bytes_len by done. done.
  - intros ok s2 (-> & U2). split; [done|]. eapply laid_trans; [exact U1|]. eapply laid_ext; [|exact U2]. intros c Hc.
    unfold set_block. by rewrite (ld_blocks _ _ _ U1 c Hc).
Qed.
End Mount.

(** ** Format *)

(** Decide the comparisons of the goal by arithmetic. *)
Ltac settle := repeat match goal with
  | |- context [?a <=? ?b] => first [rewrite (proj2 (Z.leb_le a b)) by lia|rewrite (proj2 (Z.leb_gt a b)) by lia]
  | |- context [?a <? ?b] => first [rewrite (proj2 (Z.ltb_lt a b)) by lia|rewrite (proj2 (Z.ltb_ge a b)) by lia]
  | |- context [?a =? ?b] => first [rewrite (proj2 (Z.eqb_eq a b)) by lia|rewrite (proj2 (Z.eqb_neq a b)) by lia]
  end; cbn [andb].

(** The contents of a block through one step of a run. *)
Ltac through U := rewrite (ld_blocks _ _ _ U) by (unfold on_volume; lia); unfold set_block; settle.

Section Format.
Context {D : Type} {dev : block_device D} {dev_ok : D -> Prop} {sectors : D -> view} `{!Device dev dev_ok sectors}.
Context (lba total : Z) (b : exfs_superblock).
Context (Hl : 0 <= lba) (Ht : 0 <= total) (Hf : lba + 8 * total <= 2 ^ 32) (Hs : format_sb total = Some b).
#[local] Abbreviation St := (exfs D).
#[local] Abbreviation g := (format_geo lba b).
#[local] Abbreviation B := (B (sectors := sectors) (g := g)).
#[local] Abbreviation raw := (raw (dev_ok := dev_ok) (sectors := sectors) (g := g)).
#[local] Abbreviation laid := (laid (dev_ok := dev_ok) (sectors := sectors) (g := g)).

Definition root_inode : exfs_inode := set_imode 0x1ed inode_zero.

Lemma root_inode_ok : inode_ok root_inode.
Proof. constructor; cbn; repeat split; try lia; try done. repeat constructor; lia. Qed.

(** A device with the sectors of a volume of [total] blocks. *)
Definition has_room (d : D) : Prop := dev_ok d /\ forall l, lba <= l < lba + 8 * total -> is_Some (sectors d l).

(** What [exfs_format] leaves on the device. *)
Record formatted (d : D) : Prop := {
  fm_room : has_room d;
  fm_sb : block_of (sectors d) lba = sb_bytes b;
  fm_bitmap : forall i, 0 <= i < sb_bitmap_size b -> block_of (sectors d) (lba + 8 * (1 + i)) = format_bitmap b i;
  fm_root : block_of (sectors d) (lba + 8 * sb_inode_table_block b) = memcpy zero_block 0 (inode_bytes root_inode);
  fm_journal : block_of (sectors d) (lba + 8 * sb_journal_block b) = zero_block
}.

Lemma exfs_format_ok s :
  has_room (x_dev s) -> cwp (exfs_format dev lba total) s (fun ok s' => ok = true /\ formatted (x_dev s')) (fun _ => True).
Proof.
  intros Hr. pose proof (format_geo_ok lba total b Hl Ht Hf Hs) as G.
  destruct (format_sb_spec total b ltac:(lia) Hs) as (Sk & _ & E1 & E2 & E3 & E4 & E5 & E6 & E7 & E8 & E9 & E10 & E11).
  assert (Gt : g_total g = total) by done. assert (Gi : g_inodes g = sb_inode_table_block b) by done.
  unfold exfs_format. rewrite Hs. apply cwp_bind, cwp_modify, cwp_bind.
  eapply cwp_mono; [apply (raw_write (g := g) G); [apply (raw_vol (set_sb b) (mk_exfs (vol_zero lba None) (x_dev s) _ _)); [done|apply (fresh_raw (g := g) None); [apply Hr|rewrite Gt; apply Hr|done]]|unfold on_volume; lia|by apply sb_bytes_len]| |done].
  intros ok s1 (-> & U1). cbn [negb]. apply cwp_bind.
  eapply cwp_mono; [apply (write_run_ok (g := g) G); [apply U1|lia|lia|intros; apply zlen_zero_block]| |done]. intros ok s2 (-> & U2). cbn [negb].
  apply cwp_bind. eapply cwp_mono; [apply (write_run_ok (g := g) G); [apply U2|lia|lia|intros; apply format_bitmap_spec; lia]| |done].
  intros ok s3 (-> & U3). cbn [negb].
  apply cwp_bind. eapply cwp_mono; [apply (write_run_ok (g := g) G); [apply U3|lia|lia|intros; apply zlen_zero_block]| |done].
  intros ok s4 (-> & U4). cbn [negb].
  assert (Ei : inode_block 0 (x_vol s4) = g_inodes g).
  { pose proof (ld_same _ _ _ (laid_trans _ _ _ _ _ (laid_trans _ _ _ _ _ (laid_trans _ _ _ _ _ U1 U2) U3) U4)) as [(c & n & ->) _].
    unfold inode_block. cbn [v_sb set_cache x_vol set_sb]. change (0 / INODES_PER_BLOCK) with 0. rewrite Z.add_0_r, Gi. apply u64_small. lia. }
  eapply cwp_mono; [apply (raw_write_inode (g := g) G); [apply U4|done|apply root_inode_ok]| |done]. intros ok s5 (-> & U5). split; [done|].
  assert (On : forall c, 0 <= c < total -> on_volume (g := g) c) by (intros c Hc; unfold on_volume; lia).
  assert (Bk : forall c, 0 <= c < total -> B s5 c = block_of (sectors (x_dev s5)) (lba + 8 * c)) by done.
  constructor.
  - split; [apply U5|]. intros l Hl'. pose proof (rw_present _ (ld_raw _ _ _ U5) ((l - lba) / 8) ltac:(apply On; Z.div_mod_to_equations; lia) ((l - lba) mod 8) ltac:(Z.div_mod_to_equations; lia)) as P.
    change (g_base g) with lba in P. by replace (lba + 8 * ((l - lba) / 8) + (l - lba) mod 8) with l in P by (Z.div_mod_to_equations; lia).
  - replace lba with (lba + 8 * 0) at 1 by lia. rewrite <- Bk by lia. through U5. through U4. through U3. through U2. by through U1.
  - intros i Hi. rewrite <- Bk by lia. through U5. through U4. rewrite (ld_blocks _ _ _ U3) by (apply On; lia). settle. f_equal. lia.
  - rewrite <- Bk by lia. rewrite (ld_blocks _ _ _ U5) by (apply On; lia). rewrite <- Gi. unfold set_block. rewrite Z.eqb_refl. do 2 f_equal.
    through U4. through U3. by through U2.
  - rewrite <- Bk by lia. through U5. by through U4.
Qed.

End Format.

(** ** Mount *)

Section Mounting.
Context {D : Type} {dev : block_device D} {dev_ok : D -> Prop} {sectors : D -> view} `{!Device dev dev_ok sectors}.
Context (lba : Z) (b : exfs_superblock) (G : geo_ok (format_geo lba b)).
#[local] Abbreviation St := (exfs D).
#[local] Abbreviation g := (format_geo lba b).
#[local] Abbreviation B := (B (sectors := sectors) (g := g)).
#[local] Abbreviation raw := (raw (dev_ok := dev_ok) (sectors := sectors) (g := g)).
#[local] Abbreviation laid := (laid (dev_ok := dev_ok) (sectors := sectors) (g := g)).
#[local] Abbreviation has_room := (has_room (dev_ok := dev_ok) (sectors := sectors) lba (sb_total_blocks b)).

(** Block [c] of a volume on the device [d]. *)
Definition disk_block (d : D) (c : Z) : list Z := block_of (sectors d) (lba + 8 * c).

(** The bitmap on the device. *)
Definition disk_bitmap (d : D) : list Z := concat ((fun i => disk_block d (g_bitmap g + i)) <$> seqZ 0 (g_nbitmap g)).

(** A volume that can be mounted: its superblock is [b], there is nothing to
    replay, and the bitmap has the metadata in use. *)
Record mountable (d : D) : Prop := {
  mt_room : has_room d;
  mt_sb : sb_at (disk_block d 0) = b /\ sb_magic b = EXFS_MAGIC;
  mt_clear : pending (sectors d) (lba + 8 * g_jb g) = None;
  mt_bits : forall c, 0 <= c < g_data g \/ reserved (g := g) c -> bitmap_get (set_bitmap (disk_bitmap d) (vol_zero lba None)) c = true
}.

Lemma load_bitmap_ok n i acc s :
  raw s -> v_sb (x_vol s) = b -> 0 <= i -> i + Z.of_nat n <= g_nbitmap g ->
  cwp (load_bitmap dev n i true acc) s
    (fun r s' => r = (true, acc ++ concat ((fun j => B s (g_bitmap g + j)) <$> seqZ i (Z.of_nat n))) /\ laid (B s) s s') (fun _ => False).
Proof.
  pose proof (go_bitmap g G). pose proof (go_inodes g G). pose proof (go_journal g G). pose proof (go_base g G).
  revert i acc s. induction n as [|n IH]; intros i acc s R Eb Hi Hn; cbn [load_bitmap].
  - apply cwp_ret. split; [by rewrite app_nil_r|by apply laid_refl].
  - apply cwp_bind, cwp_get, cwp_bind. rewrite Eb. change (sb_block_bitmap_block b) with (g_bitmap g). rewrite u64_small by lia.
    eapply cwp_mono; [apply (raw_read (g := g) G); [done|unfold on_volume; lia|apply zlen_zero_block]| |done]. intros r s1 (-> & U1). cbn [fst snd andb].
    assert (Eb1 : v_sb (x_vol s1) = b) by (destruct (ld_same _ _ _ U1) as [(c & k & ->) _]; exact Eb).
    eapply cwp_mono; [apply IH; [apply U1|done|lia|lia]| |done]. intros r s2 (-> & U2). rewrite (seqZ_cons i) by lia. replace (Z.pred (Z.of_nat (S n))) with (Z.of_nat n) by lia.
    assert (Ef : (fun j => B s1 (g_bitmap g + j)) <$> seqZ (i + 1) (Z.of_nat n) = (fun j => B s (g_bitmap g + j)) <$> seqZ (i + 1) (Z.of_nat n)).
    { apply list_fmap_ext. intros k j Hk. apply lookup_seqZ in Hk as [-> Hk]. apply (ld_blocks _ _ _ U1). unfold on_volume. lia. }
    split; [rewrite Ef; cbn [fmap list_fmap concat]; by rewrite <- app_assoc|].
    eapply laid_trans; [exact U1|]. eapply laid_ext; [|exact U2]. intros c Hc. by apply (ld_blocks _ _ _ U1).
Qed.

(** The header is in the first sector of its block. *)
Lemma pending_block s : raw s -> pending (V (sectors := sectors) s) (lba + 8 * g_jb g) =
  if le_at 4 (B s (g_jb g)) 0 =? EXFS_JOURNAL_MAGIC then Some (header_blocks (B s (g_jb g))) else None.
Proof.
  intros R. pose proof (go_bitmap g G). pose proof (go_inodes g G). pose proof (go_journal g G).
  destruct (block_of_spec (V s) (g_base g + 8 * g_jb g) (rw_present s R (g_jb g) ltac:(unfold on_volume; lia)) (fun l x => sector_len s l x (rw_fs s R))) as [_ Bd].
  specialize (Bd 0 ltac:(lia)). rewrite Z.add_0_r in Bd. change (g_base g) with lba in Bd. unfold pending. rewrite Bd. unfold sector_of.
  change (Z.to_nat (512 * 0)) with 0%nat. by rewrite drop_0, header_blocks_take, le_at_take by (cbn; lia).
Qed.

Lemma replay_clear s :
  raw s -> v_sb (x_vol s) = b -> pending (V (sectors := sectors) s) (lba + 8 * g_jb g) = None ->
  cwp (exfs_journal_replay dev) s (fun _ s' => laid (B s) s s') (fun _ => False).
Proof.
  intros R Eb Pn. pose proof (go_bitmap g G). pose proof (go_inodes g G). pose proof (go_journal g G). rewrite pending_block in Pn by done.
  unfold exfs_journal_replay. apply cwp_bind, cwp_get. cbv zeta. rewrite Eb. change (sb_journal_size b) with (g_jn g). change (sb_journal_block b) with (g_jb g).
  rewrite (proj2 (Z.eqb_neq (g_jn g) 0)) by lia. apply cwp_bind.
  eapply cwp_mono; [apply (raw_read (g := g) G); [done|unfold on_volume; lia|apply zlen_zero_block]| |done]. intros r s1 (-> & U1). cbn [fst snd negb].
  destruct (_ =? _); [done|]. cbn [negb]. by apply cwp_ret.
Qed.

(** What a mount leaves: the volume with its invariant, the bitmap and the blocks
    as they are on the device. *)
Record mounts (s s' : St) : Prop := {
  ms_vol : vol_ok (dev_ok := dev_ok) (sectors := sectors) (g := g) s';
  ms_sb : v_sb (x_vol s') = b;
  ms_bitmap : v_block_bitmap (x_vol s') = disk_bitmap (x_dev s);
  ms_blocks : forall c, on_volume (g := g) c -> B s' c = disk_block (x_dev s) c;
  ms_crash : g_exfs_crash_point s' = g_exfs_crash_point s;
  ms_audit : x_audit s' = x_audit s
}.

Lemma disk_bitmap_len d : has_room d -> zlen (disk_bitmap d) = EXFS_BLOCK_SIZE * g_nbitmap g /\
  Forall (fun l => length l = 4096%nat) ((fun i => disk_block d (g_bitmap g + i)) <$> seqZ 0 (g_nbitmap g)).
Proof.
  intros [Ok P]. pose proof (go_bitmap g G). pose proof (go_inodes g G). pose proof (go_journal g G).
  assert (F : Forall (fun l => length l = 4096%nat) ((fun i => disk_block d (g_bitmap g + i)) <$> seqZ 0 (g_nbitmap g))).
  { apply Forall_fmap, Forall_seqZ. intros i Hi. cbn beta. destruct (block_of_spec (sectors d) (lba + 8 * (g_bitmap g + i))) as [L _].
    - intros k Hk. apply P. change (sb_total_blocks b) with (g_total g). lia.
    - intros l x. by apply dev_sector.
    - unfold zlen, EXFS_BLOCK_SIZE in L. unfold compose, disk_block. lia. }
  split; [|done]. unfold disk_bitmap, zlen. rewrite (length_concat_const 4096) by exact F. rewrite length_fmap, length_seqZ. unfold EXFS_BLOCK_SIZE. lia.
Qed.

Lemma disk_bitmap_block d i :
  has_room d -> 0 <= i < g_nbitmap g -> take 4096 (drop (Z.to_nat (i * EXFS_BLOCK_SIZE)) (disk_bitmap d)) = disk_block d (g_bitmap g + i).
Proof.
  intros Hr Hi. destruct (disk_bitmap_len d Hr) as [_ F]. unfold disk_bitmap, EXFS_BLOCK_SIZE. replace (Z.to_nat (i * 4096)) with (4096 * Z.to_nat i)%nat by lia.
  rewrite drop_concat by exact F.
  assert (E : ((fun i => disk_block d (g_bitmap g + i)) <$> seqZ 0 (g_nbitmap g)) !! Z.to_nat i = Some (disk_block d (g_bitmap g + i))).
  { rewrite list_lookup_fmap, lookup_seqZ_lt by lia. cbn. do 3 f_equal. lia. }
  rewrite (drop_S _ _ _ E). cbn [concat]. apply take_app_length'. rewrite Forall_forall in F. symmetry. apply F. by eapply list_elem_of_lookup_2.
Qed.

(** The volume in memory once the buffers are set up. *)
Lemma ready_mounts s s' v :
  mountable (x_dev s) -> laid (disk_block (x_dev s)) (mk_exfs v (x_dev s) (g_exfs_crash_point s) (x_audit s)) s' ->
  pending (V (sectors := sectors) s') (lba + 8 * g_jb g) = None ->
  v_sb v = b -> v_block_bitmap v = disk_bitmap (x_dev s) -> v_dev_lba_base v = lba -> v_jtxn_active v = false ->
  is_Some (v_jtxn_data v) -> zlen (v_jtxn_blocks v) = EXFS_JOURNAL_MAX_BLOCKS -> zlen (default [] (v_jtxn_data v)) = EXFS_JOURNAL_MAX_BLOCKS ->
  mounts s s'.
Proof.
  intros Mt U Pn E1 E2 E3 E4 E5 E6 E7. pose proof (ld_same _ _ _ U) as [(c & n & Ev) [Ec Ea]]. cbn [x_vol g_exfs_crash_point x_audit] in Ev, Ec, Ea.
  pose proof (go_bitmap g G). pose proof (go_inodes g G). pose proof (go_journal g G).
  assert (Eb : v_block_bitmap (x_vol s') = disk_bitmap (x_dev s)) by (rewrite Ev; exact E2).
  constructor; [|rewrite Ev; exact E1|done|apply U|done|done]. constructor.
  - constructor; [apply U| |apply U| | |done].
    + rewrite Ev. unfold format_geo, geo_of, bitmap_blocks. cbn [v_sb set_cache v_dev_lba_base set_sb vol_zero]. by rewrite E1, E3.
    + rewrite Ev. exact E4.
    + rewrite Ev. done.
  - rewrite Eb. apply disk_bitmap_len, Mt.
  - intros i Hi. rewrite Eb, (disk_bitmap_block (x_dev s)) by (apply Mt || done). apply U. unfold on_volume. lia.
  - intros c' Hc'. unfold bitmap_get. rewrite Eb. apply (mt_bits _ Mt). by right.
Qed.

(** The end of [exfs_mount], from a volume [s0] whose buffers are set up. *)
Lemma mount_tail s v s0 :
  mountable (x_dev s) -> laid (disk_block (x_dev s)) (mk_exfs v (x_dev s) (g_exfs_crash_point s) (x_audit s)) s0 ->
  v_sb v = b -> v_block_bitmap v = disk_bitmap (x_dev s) -> v_dev_lba_base v = lba -> v_jtxn_active v = false ->
  is_Some (v_jtxn_data v) -> zlen (v_jtxn_blocks v) = EXFS_JOURNAL_MAX_BLOCKS -> zlen (default [] (v_jtxn_data v)) = EXFS_JOURNAL_MAX_BLOCKS ->
  cwp (_ <-- exfs_journal_replay dev ;; root <-- exfs_read_inode dev 0 ;; mret (Some (mk_nd 0 (default inode_zero root)))) s0
    (fun r s' => r = Some (mk_nd 0 (inode_in (g := g) (B s') 0)) /\ mounts s s') (fun _ => False).
Proof.
  intros Mt U E1 E2 E3 E4 E5 E6 E7. pose proof (go_bitmap g G). pose proof (go_inodes g G). pose proof (go_journal g G).
  assert (Sb : forall s', same s0 s' -> v_sb (x_vol s') = b).
  { intros s' [(c & n & ->) _]. destruct (ld_same _ _ _ U) as [(c' & n' & ->) _]. exact E1. }
  assert (Pq : forall s', raw s' -> B s' (g_jb g) = disk_block (x_dev s) (g_jb g) -> pending (V (sectors := sectors) s') (lba + 8 * g_jb g) = None).
  { intros s' R' E'. rewrite pending_block, E' by done. transitivity (pending (sectors (x_dev s)) (lba + 8 * g_jb g)); [symmetry|apply Mt].
    apply (pending_block (mk_exfs (vol_zero lba None) (x_dev s) 0 audit_init)), (fresh_raw (g := g)); [apply Mt|apply Mt|done]. }
  assert (Hj : on_volume (g := g) (g_jb g)) by (unfold on_volume; lia). apply cwp_bind.
  eapply cwp_mono; [apply replay_clear; [apply U|apply Sb, same_refl|exact (Pq s0 (ld_raw _ _ _ U) (ld_blocks _ _ _ U _ Hj))]| |done]. intros [] s5 U5.
  apply cwp_bind. unfold exfs_read_inode. apply cwp_bind, cwp_get, cwp_bind.
  assert (Ei : inode_block 0 (x_vol s5) = g_inodes g).
  { unfold inode_block. rewrite (Sb s5) by apply U5. change (sb_inode_table_block b) with (g_inodes g). change (0 / INODES_PER_BLOCK) with 0.
    rewrite Z.add_0_r. apply u64_small. pose proof (go_base g G). lia. }
  rewrite Ei. eapply cwp_mono; [apply (raw_read (g := g) G); [apply U5|unfold on_volume; lia|apply zlen_zero_block]| |done]. intros r s6 (-> & U6). cbn [fst snd].
  apply cwp_ret, cwp_ret. cbn [default].
  pose proof (laid_trans _ _ _ _ _ U (laid_ext _ _ _ _ (ld_blocks _ _ _ U) (laid_trans _ _ _ _ _ U5 (laid_ext _ _ _ _ (ld_blocks _ _ _ U5) U6)))) as W.
  split.
  - do 2 f_equal. unfold inode_in, iblk. change (0 / INODES_PER_BLOCK) with 0. rewrite Z.add_0_r. rewrite (ld_blocks _ _ _ U6) by (unfold on_volume; lia). done.
  - eapply ready_mounts; [exact Mt|exact W|exact (Pq s6 (ld_raw _ _ _ W) (ld_blocks _ _ _ W _ Hj))|done..].
Qed.

Lemma exfs_mount_ok cache_mem s :
  mountable (x_dev s) ->
  cwp (exfs_mount dev lba cache_mem true true) s
    (fun r s' => r = Some (mk_nd 0 (inode_in (g := g) (B s') 0)) /\ mounts s s') (fun _ => False).
Proof.
  intros Mt. pose proof Mt as [Hr [Es Em] Pn Hb]. pose proof (go_bitmap g G). pose proof (go_inodes g G). pose proof (go_journal g G).
  assert (Gt : g_total g = sb_total_blocks b) by done.
  unfold exfs_mount. apply cwp_bind, cwp_modify, cwp_bind. set (cache := if cache_mem then _ else _).
  assert (R0 : raw (mk_exfs (vol_zero lba cache) (x_dev s) (g_exfs_crash_point s) (x_audit s))).
  { apply (fresh_raw (g := g)); [apply Hr|apply Hr|]. unfold cache. by destruct cache_mem; intros es [= <-]. }
  eapply cwp_mono; [apply (raw_read (g := g) G); [exact R0|unfold on_volume; lia|apply zlen_zero_block]| |done]. intros r s1 (-> & U1). cbn [fst snd negb].
  change (B (mk_exfs (vol_zero lba cache) (x_dev s) _ _) 0) with (disk_block (x_dev s) 0). rewrite Es.
  apply (laid_vol (set_sb b)) in U1; [|done].
  apply cwp_bind, cwp_modify. rewrite Em. cbn [negb Z.eqb]. rewrite Z.eqb_refl. cbn [negb].
  apply cwp_bind, cwp_get, cwp_bind. fold (with_bitmap (set_sb b) s1). set (s2 := with_bitmap (set_sb b) s1) in *.
  change (bitmap_blocks (x_vol s2)) with (g_nbitmap g).
  eapply cwp_mono; [apply load_bitmap_ok; [apply U1|done|lia|lia]| |done]. intros r s3 (-> & U3). cbn [fst snd negb].
  assert (Ebm : [] ++ concat ((fun j => B s2 (g_bitmap g + j)) <$> seqZ 0 (Z.of_nat (Z.to_nat (g_nbitmap g)))) = disk_bitmap (x_dev s)).
  { cbn [app]. rewrite Z2Nat.id by lia. unfold disk_bitmap. f_equal. apply list_fmap_ext. intros k j Hk. apply lookup_seqZ in Hk as [-> Hk].
    apply (ld_blocks _ _ _ U1). unfold on_volume. lia. }
  rewrite Ebm. clear Ebm. pose proof (laid_trans _ _ _ _ _ U1 (laid_ext _ _ _ _ (ld_blocks _ _ _ U1) U3)) as U. clear U1 U3 R0.
  apply (laid_vol (set_bitmap (disk_bitmap (x_dev s)))) in U; [|done].
  apply cwp_bind, cwp_modify, cwp_bind, cwp_modify, cwp_bind, cwp_modify. cbn [x_vol x_dev g_exfs_crash_point x_audit].
  rewrite bitmap_sets_id.
  2: lia.
  2: { cbn [v_block_bitmap set_bitmap]. destruct (disk_bitmap_len (x_dev s) Hr) as [-> _]. pose proof (go_bits g G). change (sb_data_start_block b) with (g_data g). lia. }
  2: { intros c Hc. change (sb_data_start_block b) with (g_data g) in Hc. unfold bitmap_get. cbn [v_block_bitmap set_bitmap]. apply Hb. left. lia. }
  set (jt := fun v => set_txn false 0 (v_jtxn_blocks v) (Some (replicate 16 zero_block)) v).
  apply (laid_vol jt) in U; [|by intros v]. fold (with_bitmap (set_bitmap (disk_bitmap (x_dev s))) s3).
  fold (jt (set_bitmap (disk_bitmap (x_dev s)) (x_vol s3))).
  fold (with_bitmap jt (with_bitmap (set_bitmap (disk_bitmap (x_dev s))) s3)).
  eapply (mount_tail s); [exact Mt|exact U|done..].
Qed.

End Mounting.

(** ** From a bare device to a running file system *)

Section Fresh.
Context {D : Type} {dev : block_device D} {dev_ok : D -> Prop} {sectors : D -> view} `{!Device dev dev_ok sectors} `{!Steady dev}.
#[local] Abbreviation St := (exfs D).
#[local] Abbreviation running g := (running (dev_ok := dev_ok) (sectors := sectors) (g := g)).
#[local] Abbreviation handle g := (handle (sectors := sectors) (g := g)).
#[local] Abbreviation has_room := (has_room (dev_ok := dev_ok) (sectors := sectors)).

Lemma cwp_returns {A} (m : M St A) s Q : cwp m s Q (fun _ => False) -> exists a s', m s = (Some a, s') /\ Q a s'.
Proof. unfold cwp. destruct (m s) as [[a|] s']; [|done]. intros H. by exists a, s'. Qed.

Lemma alive_format lba total : alive (exfs_format dev lba total).
Proof.
  assert (W : forall n first i f, alive (write_run dev n first i f)) by (induction n as [|n IH]; intros first i f; cbn [write_run]; alive).
  unfold exfs_format. destruct (format_sb total); alive; first [apply W|apply alive_write_inode].
Qed.

(** A list cut into blocks. *)
Lemma concat_cut (l : list Z) n i :
  0 <= i -> zlen l = EXFS_BLOCK_SIZE * (i + Z.of_nat n) ->
  concat ((fun j => take 4096 (drop (Z.to_nat (j * EXFS_BLOCK_SIZE)) l)) <$> seqZ i (Z.of_nat n)) = drop (Z.to_nat (i * EXFS_BLOCK_SIZE)) l.
Proof.
  unfold zlen, EXFS_BLOCK_SIZE. revert i. induction n as [|n IH]; intros i Hi L; [symmetry; apply drop_ge; lia|].
  rewrite seqZ_cons by lia. replace (Z.pred (Z.of_nat (S n))) with (Z.of_nat n) by lia. cbn [fmap list_fmap concat]. rewrite IH by lia.
  replace (Z.to_nat (Z.succ i * 4096)) with (Z.to_nat (i * 4096) + 4096)%nat by lia. rewrite <- drop_drop. apply take_drop.
Qed.

Lemma root_block : inode_at (memcpy zero_block 0 (inode_bytes root_inode)) 0 = root_inode.
Proof. vm_compute. reflexivity. Qed.

(** A formatted device can be mounted. *)
Lemma formatted_mountable lba total b d :
  0 <= lba -> 0 <= total -> lba + 8 * total <= 2 ^ 32 -> format_sb total = Some b ->
  formatted (dev_ok := dev_ok) (sectors := sectors) lba total b d ->
  mountable (dev_ok := dev_ok) (sectors := sectors) lba b d /\ disk_bitmap (sectors := sectors) lba b d = fresh_bitmap b.
Proof.
  intros Hl Ht Hf Hs [Hr F1 F2 F3 F4]. pose proof (format_geo_ok lba total b Hl Ht Hf Hs) as G.
  destruct (format_sb_spec total b ltac:(lia) Hs) as (Sk & Em & E1 & E2 & E3 & E4 & E5 & E6 & E7 & E8 & E9 & E10 & E11).
  assert (Hn : g_nbitmap (format_geo lba b) = sb_bitmap_size b).
  { unfold format_geo, geo_of, bitmap_blocks. cbn [g_nbitmap v_sb set_sb]. by rewrite (proj2 (Z.eqb_neq (sb_bitmap_size b) 0)) by lia. }
  assert (Eb : disk_bitmap (sectors := sectors) lba b d = fresh_bitmap b).
  { unfold disk_bitmap, fresh_bitmap. rewrite Hn. f_equal. apply list_fmap_ext. intros k i Hk. apply lookup_seqZ in Hk as [-> Hk].
    unfold disk_block. change (g_bitmap (format_geo lba b)) with (sb_block_bitmap_block b). rewrite E2. apply F2. lia. }
  split; [|exact Eb]. constructor.
  - by rewrite E1.
  - unfold disk_block. rewrite Z.mul_0_r, Z.add_0_r, F1. split; [by apply sb_roundtrip|done].
  - pose proof (pending_block lba b G (mk_exfs (vol_zero lba None) d 0 audit_init)) as P. change (V _) with (sectors d) in P. rewrite P.
    + change (B _ _) with (block_of (sectors d) (lba + 8 * sb_journal_block b)). rewrite F4. vm_compute. reflexivity.
    + apply (fresh_raw (g := format_geo lba b)); [apply Hr| |done]. intros l Hl'. apply Hr. change (g_total _) with (sb_total_blocks b) in Hl'. change (g_base _) with lba in Hl'. lia.
  - intros c Hc. assert (Hc' : 0 <= c < sb_total_blocks b /\ format_used b c = true).
    { unfold format_used, reserved in *. cbn [g_data g_jb g_jn g_prov g_nprov format_geo geo_of v_sb set_sb] in Hc.
      destruct Hc as [Hc|[Hc|Hc]]; (split; [lia|]); settle; [done|by rewrite orb_true_r|by rewrite orb_true_r]. }
    rewrite (fresh_bitmap_get b) by (done || cbn; lia). apply Hc'.
Qed.

(** A blank inode stands for an empty file. *)
Lemma root_handle g s : geo_ok g -> inode_in (g := g) (B (sectors := sectors) (g := g) s) 0 = root_inode -> g_inodes g < g_data g -> handle g s (mk_nd 0 root_inode).
Proof.
  intros G E Hd. constructor; [|apply root_inode_ok| |exact E]; cbn [nd_inode nd_inode_num].
  - constructor; [done| |]; intros r; [|intros r' Hr]; rewrite ?(loc_blank _ 0x1ed) by done; try done. intros Hr. by rewrite (loc_blank _ 0x1ed).
  - split; [lia|]. unfold iblk. change (0 / INODES_PER_BLOCK) with 0. lia.
Qed.

(** What a mount of a formatted device leaves. *)
Lemma mount_formatted lba total b cache_mem (s : St) :
  0 <= lba -> 0 <= total -> lba + 8 * total <= 2 ^ 32 -> format_sb total = Some b ->
  formatted (dev_ok := dev_ok) (sectors := sectors) lba total b (x_dev s) -> g_exfs_crash_point s = 0 -> audit_ok s ->
  exists s3, exfs_mount dev lba cache_mem true true s = (Some (Some (mk_nd 0 root_inode)), s3) /\ running (format_geo lba b) s3 /\
    handle (format_geo lba b) s3 (mk_nd 0 root_inode) /\ v_sb (x_vol s3) = b /\ B (sectors := sectors) (g := format_geo lba b) s3 0 = sb_bytes b /\
    forall c, 0 <= c < total -> bitmap_get (x_vol s3) c = format_used b c.
Proof.
  intros Hl Ht Hf Hs Fm Cr Au. pose proof (format_geo_ok lba total b Hl Ht Hf Hs) as G.
  destruct (format_sb_spec total b ltac:(lia) Hs) as (_ & _ & E1 & _ & E3 & E4 & E5 & E6 & _ & _ & E9 & E10 & E11).
  destruct (formatted_mountable lba total b _ Hl Ht Hf Hs Fm) as [Mt Eb].
  destruct (cwp_returns _ _ _ (exfs_mount_ok lba b G cache_mem s Mt)) as (r & s3 & E & -> & Ms).
  assert (On : forall c, 0 <= c < total -> on_volume (g := format_geo lba b) c) by (intros c Hc; unfold on_volume; change (g_total _) with (sb_total_blocks b); lia).
  assert (Er : inode_in (g := format_geo lba b) (B (sectors := sectors) (g := format_geo lba b) s3) 0 = root_inode).
  { unfold inode_in, iblk. change (0 / INODES_PER_BLOCK) with 0. rewrite Z.add_0_r. change (g_inodes _) with (sb_inode_table_block b).
    rewrite (ms_blocks _ _ _ _ Ms) by (apply On; lia). unfold disk_block. rewrite (fm_root _ _ _ _ Fm). apply root_block. }
  rewrite Er in E. exists s3. split; [exact E|]. split; [|split; [apply root_handle; [done|done|cbn; lia]|split; [apply Ms|split]]].
  - constructor; [done|apply Ms|unfold audit_ok; by rewrite (ms_audit _ _ _ _ Ms)|by rewrite (ms_crash _ _ _ _ Ms)].
  - rewrite (ms_blocks _ _ _ _ Ms) by (apply On; lia). unfold disk_block. rewrite Z.mul_0_r, Z.add_0_r. apply Fm.
  - intros c Hc. apply fresh_bitmap_get; [by rewrite (ms_bitmap _ _ _ _ Ms)|lia|lia].
Qed.

Lemma format_leaves lba total b (s : St) :
  0 <= lba -> 0 <= total -> lba + 8 * total <= 2 ^ 32 -> has_room lba total (x_dev s) -> g_exfs_crash_point s = 0 -> format_sb total = Some b ->
  exists s1, exfs_format dev lba total s = (Some true, s1) /\ formatted (dev_ok := dev_ok) (sectors := sectors) lba total b (x_dev s1).
Proof.
  intros Hl Ht Hf Hr Cr Hs.
  destruct (alive_cwp _ s _ _ (alive_format lba total) Cr (exfs_format_ok lba total b Hl Ht Hf Hs s Hr)) as (ok & s1 & E & _ & -> & Fm). by exists s1.
Qed.

(** C27: formatting a device and mounting it gives a running file system.  On a
    device that has the sectors, whatever they hold, [exfs_format] refuses a
    volume that is too small without touching the device, and otherwise lays the
    volume out; [exfs_mount] of that device, with or without memory for the cache,
    then returns the empty root directory with mode 0755, all invariants that the
    file operations rely on hold, and the blocks in use are exactly those of the
    metadata. *)
Theorem exfs_format_mount lba total cache_mem (s : St) :
  0 <= lba -> 0 <= total -> lba + 8 * total <= 2 ^ 32 -> has_room lba total (x_dev s) -> g_exfs_crash_point s = 0 ->
  match format_sb total with
  | None => exfs_format dev lba total s = (Some false, s)
  | Some b => exists s1, exfs_format dev lba total s = (Some true, s1) /\
      forall s2, x_dev s2 = x_dev s1 -> g_exfs_crash_point s2 = 0 -> audit_ok s2 ->
        exists s3, exfs_mount dev lba cache_mem true true s2 = (Some (Some (mk_nd 0 root_inode)), s3) /\
          running (format_geo lba b) s3 /\ handle (format_geo lba b) s3 (mk_nd 0 root_inode) /\
          forall c, 0 <= c < total -> bitmap_get (x_vol s3) c = format_used b c
  end.
Proof.
  intros Hl Ht Hf Hr Cr. destruct (format_sb total) as [b|] eqn:Hs; [|unfold exfs_format; by rewrite Hs].
  destruct (format_leaves lba total b s Hl Ht Hf Hr Cr Hs) as (s1 & E & Fm). exists s1. split; [exact E|]. intros s2 Ed C2 A2. rewrite <- Ed in Fm.
  destruct (mount_formatted lba total b cache_mem s2 Hl Ht Hf Hs Fm C2 A2) as (s3 & E3 & R & H & _ & _ & Bt). by exists s3.
Qed.

(** The handles of a volume depend on its blocks and its bitmap only. *)
Lemma handle_same g s s' nd :
  geo_ok g -> (forall c, on_volume (g := g) c -> B (sectors := sectors) (g := g) s' c = B (sectors := sectors) (g := g) s c) ->
  v_block_bitmap (x_vol s') = v_block_bitmap (x_vol s) -> handle g s nd -> handle g s' nd.
Proof.
  intros G E Eb [[F1 F2 F3] H2 H3 H4]. pose proof (go_bitmap g G). pose proof (go_inodes g G). pose proof (go_journal g G).
  assert (Lc : forall r, valid r -> loc (B (sectors := sectors) (g := g) s') (nd_inode nd) r = loc (B (sectors := sectors) (g := g) s) (nd_inode nd) r).
  { apply role_down. intros r Hr IH. destruct (parent r) as [[p k]|] eqn:Ep.
    - rewrite !(loc_child _ _ _ _ _ Hr Ep), (IH p k eq_refl). unfold entry. destruct (Z.eqb_spec (loc (B (sectors := sectors) (g := g) s) (nd_inode nd) p) 0) as [|Hn]; [done|].
      rewrite E; [done|]. destruct (parent_valid r p k Hr Ep) as (Hp & _). destruct (F2 p Hp Hn) as [Hv _]. unfold on_volume. lia.
    - destruct r as [fb| | |j]; try done. cbn [loc parent] in *. destruct (fb <? _); [done|]. by destruct (_ <? _). }
  assert (Eg : forall c, bitmap_get (x_vol s') c = bitmap_get (x_vol s) c) by (intros c; unfold bitmap_get; by rewrite Eb).
  constructor; [constructor; [done| |]|done|done|].
  - intros r Hr. rewrite (Lc r Hr), Eg. by apply F2.
  - intros r r' Hr Hr'. rewrite (Lc r Hr), (Lc r' Hr'). by apply F3.
  - unfold inode_in in *. rewrite E; [done|]. destruct H3 as [H3 H5]. unfold on_volume, iblk in *.
    change INODES_PER_BLOCK with 16 in *. pose proof (Z.div_pos (nd_inode_num nd) 16 H3 ltac:(lia)). lia.
Qed.

(** A mount restores the file system.  When a running volume whose
    superblock is on the device and whose bitmap has the metadata in use is left
    (the machine is switched off between two operations) and mounted again, the
    invariants hold, every block and the bitmap are as before, and so every file
    handle of before is one of the new volume. *)
Theorem exfs_remount lba b cache_mem (s s2 : St) :
  running (format_geo lba b) s -> sb_at (B (sectors := sectors) (g := format_geo lba b) s 0) = b -> sb_magic b = EXFS_MAGIC ->
  (forall c, 0 <= c < sb_data_start_block b -> bitmap_get (x_vol s) c = true) ->
  x_dev s2 = x_dev s -> g_exfs_crash_point s2 = 0 -> audit_ok s2 ->
  exists root s3, exfs_mount dev lba cache_mem true true s2 = (Some (Some root), s3) /\ running (format_geo lba b) s3 /\ nd_inode_num root = 0 /\
    (forall c, on_volume (g := format_geo lba b) c -> B (sectors := sectors) (g := format_geo lba b) s3 c = B (sectors := sectors) (g := format_geo lba b) s c) /\
    v_block_bitmap (x_vol s3) = v_block_bitmap (x_vol s) /\ (forall nd, handle (format_geo lba b) s nd -> handle (format_geo lba b) s3 nd).
Proof.
  intros [G [[M1 M2 M3 M4 M5 M6] L Dk Rs] _ _] Es Em Hb Ed Cr Au. set (g := format_geo lba b) in *.
  pose proof (go_bitmap g G). pose proof (go_inodes g G). pose proof (go_journal g G).
  assert (Hr : has_room lba (sb_total_blocks b) (x_dev s)).
  { split; [apply M1|]. intros l Hl. pose proof (M3 ((l - lba) / 8)) as P. unfold on_volume in P. change (g_total g) with (sb_total_blocks b) in P.
    specialize (P ltac:(Z.div_mod_to_equations; lia) ((l - lba) mod 8) ltac:(Z.div_mod_to_equations; lia)). change (g_base g) with lba in P.
    by replace (lba + 8 * ((l - lba) / 8) + (l - lba) mod 8) with l in P by (Z.div_mod_to_equations; lia). }
  assert (Eb : disk_bitmap (sectors := sectors) lba b (x_dev s) = v_block_bitmap (x_vol s)).
  { unfold disk_bitmap. fold g. pose proof (concat_cut (v_block_bitmap (x_vol s)) (Z.to_nat (g_nbitmap g)) 0 ltac:(lia) ltac:(rewrite L; lia)) as C.
    rewrite Z2Nat.id, drop_0 in C by lia. rewrite <- C. f_equal. apply list_fmap_ext. intros k i Hk. apply lookup_seqZ in Hk as [-> Hk]. exact (Dk (0 + Z.of_nat k) ltac:(lia)). }
  assert (Mt : mountable (dev_ok := dev_ok) (sectors := sectors) lba b (x_dev s2)).
  { rewrite Ed. constructor; [exact Hr|split; [|done]|exact M6|].
    - exact Es.
    - intros c Hc. unfold bitmap_get. cbn [v_block_bitmap set_bitmap]. rewrite Eb. destruct Hc as [Hc|Hc]; [by apply Hb|by apply Rs]. }
  destruct (cwp_returns _ _ _ (exfs_mount_ok lba b G cache_mem s2 Mt)) as (r & s3 & E & -> & Ms).
  assert (Eb3 : v_block_bitmap (x_vol s3) = v_block_bitmap (x_vol s)) by (by rewrite (ms_bitmap _ _ _ _ Ms), Ed).
  assert (Bk : forall c, on_volume (g := g) c -> B (sectors := sectors) (g := g) s3 c = B (sectors := sectors) (g := g) s c).
  { intros c Hc. etransitivity; [exact (ms_blocks _ _ _ _ Ms c Hc)|by rewrite Ed]. }
  eexists _, s3. split; [exact E|]. split; [|split; [done|split; [done|split; [done|]]]].
  - constructor; [done|apply Ms|unfold audit_ok; by rewrite (ms_audit _ _ _ _ Ms)|by rewrite (ms_crash _ _ _ _ Ms)].
  - intros nd Hn. by apply (handle_same g s).
Qed.

End Fresh.

(** ** A volume of 300 blocks *)

Module MountDemo.
Import Mapdisk.
#[local] Abbreviation sectors := (fun (d : gmap Z (list Z)) (lba : Z) => d !! lba).

Definition bare : exfs (gmap Z (list Z)) := mk_exfs (vol_zero 0 None) (blank 2400) 0 audit_init.

Lemma bare_room : has_room (dev_ok := map_ok) (sectors := sectors) 0 300 (x_dev bare).
Proof. split; [apply blank_ok|]. intros l Hl. cbn [x_dev bare]. rewrite blank_sector by lia. by eexists. Qed.

Lemma bare_audit : audit_ok bare.
Proof. by unfold audit_ok; cbn. Qed.

Definition sb300 : exfs_superblock := mk_sb EXFS_MAGIC EXFS_VERSION 300 9 4096 4095 2 1 258 284 16 (replicate 16 0) 267 17 1.

Lemma format_300 : format_sb 300 = Some sb300.
Proof. vm_compute. reflexivity. Qed.

Lemma exfs_format_mount_witness :
  (0 <= 0 /\ 0 + 8 * 300 <= 2 ^ 32 /\ has_room (dev_ok := map_ok) (sectors := sectors) 0 300 (x_dev bare) /\ g_exfs_crash_point bare = 0) /\
  exists s1 s3, exfs_format mapdisk 0 300 bare = (Some true, s1) /\
    exfs_mount mapdisk 0 true true true (mk_exfs (x_vol bare) (x_dev s1) 0 audit_init) = (Some (Some (mk_nd 0 root_inode)), s3).
Proof.
  split; [split; [lia|split; [lia|split; [apply bare_room|done]]]|].
  pose proof (exfs_format_mount (dev := mapdisk) 0 300 true bare ltac:(lia) ltac:(lia) ltac:(lia) bare_room eq_refl) as W. rewrite format_300 in W.
  destruct W as (s1 & E1 & W). destruct (W (mk_exfs (x_vol bare) (x_dev s1) 0 audit_init) eq_refl eq_refl bare_audit) as (s3 & E3 & _).
  exists s1, s3. split; [exact E1|exact E3].
Defined.

Lemma exfs_remount_witness :
  exists s, running (dev_ok := map_ok) (sectors := sectors) (g := format_geo 0 sb300) s /\ sb_at (B (sectors := sectors) (g := format_geo 0 sb300) s 0) = sb300 /\
  exists root s3, exfs_mount mapdisk 0 false true true (mk_exfs (x_vol bare) (x_dev s) 0 audit_init) = (Some (Some root), s3) /\
    v_block_bitmap (x_vol s3) = v_block_bitmap (x_vol s).
Proof.
  destruct (format_leaves (dev := mapdisk) 0 300 sb300 bare ltac:(lia) ltac:(lia) ltac:(lia) bare_room eq_refl format_300) as (s1 & _ & Fm).
  destruct (mount_formatted (dev := mapdisk) 0 300 sb300 true (mk_exfs (x_vol bare) (x_dev s1) 0 audit_init) ltac:(lia) ltac:(lia) ltac:(lia) format_300 Fm eq_refl bare_audit)
    as (s & _ & R & _ & _ & E0 & Bt).
  assert (Sb : sb_at (B (sectors := sectors) (g := format_geo 0 sb300) s 0) = sb300) by (rewrite E0; vm_compute; reflexivity).
  exists s. split; [exact R|]. split; [exact Sb|].
  destruct (exfs_remount (dev := mapdisk) 0 sb300 false s (mk_exfs (x_vol bare) (x_dev s) 0 audit_init) R Sb eq_refl) as (root & s3 & E & _ & _ & _ & Eb & _).
  - intros c Hc. cbn in Hc. rewrite Bt by lia. unfold format_used. cbn [sb_data_start_block sb300]. by rewrite (proj2 (Z.ltb_lt c 258)) by lia.
  - reflexivity.
  - reflexivity.
  - apply bare_audit.
  - exists root, s3. split; [exact E|exact Eb].
Defined.

End MountDemo.
