(* ===== verification/Elf.v ===== *)
(** * ELF loader (kernel/elf/elf.c, kernel/elf/elf.h)

    [elf_load] builds an address space for a program image: private page tables,
    the segments, relocations, the stack and the arguments.  Physical memory is
    that of the page-table model, written byte by byte where the code does.  The
    image is a list of bytes; reading outside it, writing past the static argument
    buffer and touching an unmapped stack address are outcomes of their own
    ([Oob], [Overrun], [PageFault]), apart from the [false] of the C function. *)

From S2P Require Import Prelude Pmm Vmm.

Definition USER_STACK_TOP : Z := 0x00007FFFFFFFE000.
Definition USER_STACK_PAGES : Z := 64.
Definition ASLR_MASK : Z := 0x0000003FFFE00000.
Definition ASLR_MIN_BASE : Z := 0x0000000100000000.
Definition STACK_ASLR_MASK : Z := 0x00000000001FF000.

Definition ELF_MAGIC : Z := 0x464C457F.
Definition ELF_CLASS_64 : Z := 2.
Definition ELF_DATA_LE : Z := 1.
Definition ELF_TYPE_EXEC : Z := 2.
Definition ELF_TYPE_DYN : Z := 3.
Definition ELF_MACH_X86_64 : Z := 0x3E.
Definition PT_LOAD : Z := 1.
Definition PT_DYNAMIC : Z := 2.
Definition PF_X : Z := Z.shiftl 1 0.
Definition PF_W : Z := Z.shiftl 1 1.
Definition DT_NULL : Z := 0.
Definition DT_RELA : Z := 7.
Definition DT_RELASZ : Z := 8.
Definition DT_RELAENT : Z := 9.
Definition R_X86_64_RELATIVE : Z := 8.
Definition ELF64_R_TYPE (info : Z) : Z := u32 (Z.land info 0xffffffff).

(** The fields the loader uses, and the packed sizes. *)
Record elf64_hdr := mk_ehdr {
  e_magic : Z; e_class : Z; e_data : Z; e_type : Z; e_machine : Z; e_entry : Z; e_phoff : Z; e_phentsize : Z; e_phnum : Z
}.
Record elf64_phdr := mk_phdr { p_type : Z; p_flags : Z; p_offset : Z; p_vaddr : Z; p_filesz : Z; p_memsz : Z }.
Record elf64_dyn := mk_dyn { d_tag : Z; d_val : Z }.
Record elf64_rela := mk_rela { r_offset : Z; r_info : Z; r_addend : Z }.
Definition SIZEOF_EHDR : Z := 64.
Definition SIZEOF_PHDR : Z := 56.
Definition SIZEOF_DYN : Z := 16.
Definition SIZEOF_RELA : Z := 24.

Definition ehdr_at (l : list Z) : elf64_hdr :=
  mk_ehdr (le_at 4 l 0) (le_at 1 l 4) (le_at 1 l 5) (le_at 2 l 16) (le_at 2 l 18) (le_at 8 l 24) (le_at 8 l 32) (le_at 2 l 54) (le_at 2 l 56).
Definition phdr_at (l : list Z) (o : Z) : elf64_phdr :=
  mk_phdr (le_at 4 l o) (le_at 4 l (o + 4)) (le_at 8 l (o + 8)) (le_at 8 l (o + 16)) (le_at 8 l (o + 32)) (le_at 8 l (o + 40)).
(** [d_tag] and [r_addend] are read as unsigned: the code compares the one with
    small constants and converts the other to [uint64_t]. *)
Definition dyn_at (l : list Z) (o : Z) : elf64_dyn := mk_dyn (le_at 8 l o) (le_at 8 l (o + 8)).
Definition rela_at (l : list Z) (o : Z) : elf64_rela := mk_rela (le_at 8 l o) (le_at 8 l (o + 8)) (le_at 8 l (o + 16)).

(** The header read from the image; [None]: the image does not hold all of it. *)
Definition read_ehdr (data : list Z) : option elf64_hdr := if zlen data <? SIZEOF_EHDR then None else Some (ehdr_at data).

(** [None]: a read outside the image. *)
Definition elf_validate (data : list Z) : option bool :=
  if zlen data <? SIZEOF_EHDR then Some false else
  match read_ehdr data with
  | None => None
  | Some h => Some (
      (e_magic h =? ELF_MAGIC) && (e_class h =? ELF_CLASS_64) && (e_data h =? ELF_DATA_LE) &&
      ((e_type h =? ELF_TYPE_EXEC) || (e_type h =? ELF_TYPE_DYN)) && (e_machine h =? ELF_MACH_X86_64) && negb (e_phnum h =? 0))
  end.

(** ** Memory *)

(** A byte of physical memory: byte [p mod 8] of the word at [p - p mod 8]. *)
Definition store8 (p b : Z) (m : gmap Z Z) : gmap Z Z :=
  let a := p - p mod 8 in <[a := le_val (le_bytes 8 (rd m a)).[p mod 8 <- b]]> m.
Definition load8 (p : Z) (m : gmap Z Z) : Z := (le_bytes 8 (rd m (p - p mod 8))).[p mod 8].

Fixpoint store_bytes (p : Z) (l : list Z) (m : gmap Z Z) : gmap Z Z :=
  match l with [] => m | b :: l' => store_bytes (p + 1) l' (store8 p b m) end.

(** The byte a program reads at [vaddr] through the tables of [root]. *)
Definition user_byte {F} (root vaddr : Z) (s : vmm F) : Z := load8 (vmm_get_phys_into root vaddr s) (vm_mem s).

(** ** Outcomes *)

Inductive outcome (A : Type) :=
| Done (a : A)   (* the call goes on *)
| Failed         (* [return false] *)
| Oob            (* a read outside the image *)
| Overrun        (* a write past [argv_strbuf] *)
| PageFault.     (* an access to an unmapped address *)
Arguments Done {A}.
Arguments Failed {A}.
Arguments Oob {A}.
Arguments Overrun {A}.
Arguments PageFault {A}.

Section Load.
Context {F : Type} {FS : FrameSource F}.

Definition E (A : Type) : Type := vmm F -> outcome A * vmm F.
Definition eret {A} (a : A) : E A := fun s => (Done a, s).
Definition estop {A} (o : outcome A) : E A := fun s => (o, s).
Definition ebind {A B} (m : E A) (k : A -> E B) : E B :=
  fun s => match m s with
           | (Done a, s) => k a s
           | (Failed, s) => (Failed, s)
           | (Oob, s) => (Oob, s)
           | (Overrun, s) => (Overrun, s)
           | (PageFault, s) => (PageFault, s)
           end.
#[local] Notation "x <~ m ; k" := (ebind m (fun x => k)) (at level 100, m at next level, right associativity).

Definition eget : E (vmm F) := fun s => (Done s, s).
Definition emodify (f : vmm F -> vmm F) : E unit := fun s => (Done tt, f s).
(** A call whose failure is [return false]. *)
Definition echeck {A} (m : M (vmm F) A) : E A := fun s => match m s with (Some a, s) => (Done a, s) | (None, s) => (Failed, s) end.

(** [pmm_alloc]; 0 is failure. *)
Definition frame (z : mem_zone) : M (vmm F) Z := require (fun s => let '(p, f) := fs_alloc z (vm_frames s) in (p, with_frames s f)).
Definition mem_op (f : gmap Z Z -> gmap Z Z) : M (vmm F) unit := fun s => (Some tt, with_mem s (f (vm_mem s))).

(** ** Address space *)

(** [for (i = lo; i < lo + n; i++) dst[i] = src[i]]. *)
Definition copy_entries (dst src lo : Z) (n : nat) (m : gmap Z Z) : gmap Z Z :=
  for_loop n lo (fun i m => <[slot dst i := rd m (slot src i)]> m) m.

(** A private copy of the page directory behind entry [i] of the kernel's table
    [kpdpt]; on failure the frames [give] are freed by [release]. *)
Definition private_pd (release : Z -> F -> F) (kpdpt pdpt i : Z) (give : list Z) : M (vmm F) unit :=
  fun s =>
    let e := rd (vm_mem s) (slot kpdpt i) in
    if negb (has e 1) then (Some tt, s) else
    match frame ZONE_GREEN s with
    | (None, s) => (None, with_frames s (foldl (fun f p => release p f) (vm_frames s) give))
    | (Some pd, s) =>
        let m := copy_entries pd (Z.land e VMM_ADDR_MASK) 0 512 (vm_mem s) in
        (Some tt, with_mem s (<[slot pdpt i := Z.lor pd (Z.land e 0xFFF)]> m))
    end.

(** [release] is [pmm_free]. *)
Definition make_isolated_pml4 (release : Z -> F -> F) : M (vmm F) Z :=
  pml4 <-- frame ZONE_GREEN ;;
  _ <-- mem_op (zero_page pml4) ;;
  fun s =>
    let kpml4 := vmm_get_kernel_pml4 s in
    let s := with_mem s (copy_entries pml4 kpml4 256 256 (vm_mem s)) in
    let e := rd (vm_mem s) (slot kpml4 0) in
    if negb (has e 1) then (Some pml4, s) else
    let kpdpt := Z.land e VMM_ADDR_MASK in
    match frame ZONE_GREEN s with
    | (None, s) => (None, with_frames s (release pml4 (vm_frames s)))
    | (Some pdpt, s) =>
        let s := with_mem s (copy_entries pdpt kpdpt 0 512 (vm_mem s)) in
        (_ <-- private_pd release kpdpt pdpt 0 [pdpt; pml4] ;;
         _ <-- private_pd release kpdpt pdpt 1 [pdpt; pml4] ;;
         _ <-- mem_op (fun m => <[slot pml4 0 := Z.lor pdpt (Z.land (rd m (slot kpml4 0)) 0xFFF)]> m) ;;
         mret pml4) s
    end.

(** One level of [map_page]: the table behind entry [a], made if there is none. *)
Definition next_table (is_user : bool) (a : Z) : M (vmm F) Z :=
  fun s =>
    let e := rd (vm_mem s) a in
    if negb (has e 1) then
      (p <-- frame ZONE_GREEN ;; _ <-- mem_op (fun m => <[a := Z.lor p 0x7]> (zero_page p m)) ;; fun s => (Some (Z.land (rd (vm_mem s) a) VMM_ADDR_MASK), s)) s
    else
      let s := if is_user then with_mem s (<[a := Z.lor e VMM_USER]> (vm_mem s)) else s in
      (Some (Z.land (rd (vm_mem s) a) VMM_ADDR_MASK), s).

Definition map_page (pml4 vaddr paddr flags : Z) : M (vmm F) unit :=
  let is_user := has flags VMM_USER in
  pdpt <-- next_table is_user (slot pml4 (Z.land (Z.shiftr vaddr 39) 0x1FF)) ;;
  pd <-- next_table is_user (slot pdpt (Z.land (Z.shiftr vaddr 30) 0x1FF)) ;;
  fun s =>
    let e := rd (vm_mem s) (slot pd (Z.land (Z.shiftr vaddr 21) 0x1FF)) in
    if has e 1 && has e (Z.shiftl 1 7) then (None, s) else
    (pt <-- next_table is_user (slot pd (Z.land (Z.shiftr vaddr 21) 0x1FF)) ;;
     store (slot pt (Z.land (Z.shiftr vaddr 12) 0x1FF)) (Z.lor (Z.lor (Z.land paddr (not64 0xFFF)) flags) VMM_PRESENT)) s.

(** ** Headers *)

Context (data : list Z).
Definition size : Z := zlen data.

(** The program header at [off]: outside the image, [None] stands for the branch of
    the bounds check; else all its 56 bytes are read. *)
Definition phdr_off (h : elf64_hdr) (i : Z) : Z := u64 (e_phoff h + i * e_phentsize h).
Definition phdr_outside (h : elf64_hdr) (off : Z) : bool := (size <? off) || (size - off <? e_phentsize h).
Definition image_read {A} (r : option A) : E A := match r with None => estop Oob | Some a => eret a end.
Definition read_phdr (off : Z) : E elf64_phdr := if size <? off + SIZEOF_PHDR then estop Oob else eret (phdr_at data off).

(** [n] headers from [i] on. *)
Fixpoint vaddr_to_file_offset (n : nat) (h : elf64_hdr) (vaddr i : Z) : E Z :=
  match n with
  | O => eret (2 ^ 64 - 1)
  | S n' =>
      let off := phdr_off h i in
      if phdr_outside h off then vaddr_to_file_offset n' h vaddr (i + 1) else
      ph <~ read_phdr off;
      if (p_type ph =? PT_LOAD) && (p_vaddr ph <=? vaddr) && (vaddr <? u64 (p_vaddr ph + p_filesz ph))
      then eret (u64 (p_offset ph + (vaddr - p_vaddr ph)))
      else vaddr_to_file_offset n' h vaddr (i + 1)
  end.

(** ** Relocations *)

Record rela_info := mk_ri { ri_vaddr : Z; ri_size : Z; ri_entsize : Z }.

(** The dynamic section: [n] entries from [i] on. *)
Fixpoint scan_dynamic (n : nat) (dyn_off i : Z) (r : rela_info) : E rela_info :=
  match n with
  | O => eret r
  | S n' =>
      let off := u64 (dyn_off + i * SIZEOF_DYN) in
      if (size <? off) || (size - off <? SIZEOF_DYN) then eret r else
      if size <? off + SIZEOF_DYN then estop Oob else
      let d := dyn_at data off in
      if d_tag d =? DT_NULL then eret r else
      let r := mk_ri (if d_tag d =? DT_RELA then d_val d else ri_vaddr r) (if d_tag d =? DT_RELASZ then d_val d else ri_size r)
                     (if (d_tag d =? DT_RELAENT) && negb (d_val d =? 0) then d_val d else ri_entsize r) in
      scan_dynamic n' dyn_off (i + 1) r
  end.

(** [value] written at the virtual address [target], byte by byte. *)
Fixpoint write_value (n : nat) (pml4 target value b : Z) : E unit :=
  match n with
  | O => eret tt
  | S n' =>
      s <~ eget;
      let phys := vmm_get_phys_into pml4 (u64 (target + b)) s in
      if phys =? 0 then estop Failed else
      _ <~ emodify (fun s => with_mem s (store8 phys (u8 (Z.shiftr value (b * 8))) (vm_mem s)));
      write_value n' pml4 target value (b + 1)
  end.

(** [n] relocations from [i] on. *)
Fixpoint relocate (n : nat) (pml4 rela_file_off entsize aslr_base i : Z) : E unit :=
  match n with
  | O => eret tt
  | S n' =>
      let off := u64 (rela_file_off + i * entsize) in
      if (size <? off) || (size - off <? SIZEOF_RELA) then estop Failed else
      if size <? off + SIZEOF_RELA then estop Oob else
      let r := rela_at data off in
      _ <~ (if negb (ELF64_R_TYPE (r_info r) =? R_X86_64_RELATIVE) then eret tt
            else write_value 8 pml4 (u64 (r_offset r + aslr_base)) (u64 (aslr_base + r_addend r)) 0);
      relocate n' pml4 rela_file_off entsize aslr_base (i + 1)
  end.

Definition apply_relocations (pml4 : Z) (h : elf64_hdr) (dyn_off dyn_filesz aslr_base : Z) : E unit :=
  r <~ scan_dynamic (Z.to_nat (dyn_filesz / SIZEOF_DYN)) dyn_off 0 (mk_ri 0 0 SIZEOF_RELA);
  if ri_size r =? 0 then eret tt else
  off <~ vaddr_to_file_offset (Z.to_nat (e_phnum h)) h (ri_vaddr r) 0;
  if off =? 2 ^ 64 - 1 then estop Failed else
  relocate (Z.to_nat (ri_size r / ri_entsize r)) pml4 off (ri_entsize r) aslr_base 0.

(** ** Segments *)

Definition seg_flags (ph : elf64_phdr) : Z :=
  let flags := VMM_USER in
  let flags := if has (p_flags ph) PF_W then Z.lor flags VMM_WRITE else flags in
  if negb (has (p_flags ph) PF_X) then Z.lor flags VMM_NX else flags.

(** The bytes of page [j] that the file gives. *)
Definition page_bytes (ph : elf64_phdr) (j : Z) : list Z :=
  let copy := Z.min (p_filesz ph - j * PAGE_SIZE) PAGE_SIZE in
  take (Z.to_nat copy) (drop (Z.to_nat (p_offset ph + j * PAGE_SIZE)) data).

(** Pages [j], [j + 1], ... of a segment, [n] to go. *)
Fixpoint load_pages (n : nat) (pml4 load_vaddr : Z) (ph : elf64_phdr) (j : Z) : E unit :=
  match n with
  | O => eret tt
  | S n' =>
      phys <~ echeck (frame ZONE_RED);
      _ <~ echeck (mem_op (zero_page phys));
      _ <~ (if u64 (j * PAGE_SIZE) <? p_filesz ph then
              if size <? p_offset ph + Z.min (p_filesz ph) (j * PAGE_SIZE + PAGE_SIZE) then estop Oob
              else emodify (fun s => with_mem s (store_bytes phys (page_bytes ph j) (vm_mem s)))
            else eret tt);
      _ <~ echeck (map_page pml4 (u64 (load_vaddr + j * PAGE_SIZE)) phys (seg_flags ph));
      load_pages n' pml4 load_vaddr ph (j + 1)
  end.

(** The dynamic section seen so far: [have_dyn], offset and size. *)
Record dyn_info := mk_di { di_have : bool; di_off : Z; di_filesz : Z }.

(** [n] program headers from [i] on. *)
Fixpoint load_segments (n : nat) (pml4 : Z) (h : elf64_hdr) (aslr_base i : Z) (d : dyn_info) : E dyn_info :=
  match n with
  | O => eret d
  | S n' =>
      let off := phdr_off h i in
      if phdr_outside h off then estop Failed else
      ph <~ read_phdr off;
      let d := if p_type ph =? PT_DYNAMIC then mk_di true (p_offset ph) (p_filesz ph) else d in
      if negb (p_type ph =? PT_LOAD) || (p_memsz ph =? 0) then load_segments n' pml4 h aslr_base (i + 1) d else
      if (p_memsz ph <? p_filesz ph) || (size <? p_offset ph) || (size - p_offset ph <? p_filesz ph) then estop Failed else
      let pages := u64 (p_memsz ph + PAGE_SIZE - 1) / PAGE_SIZE in
      _ <~ load_pages (Z.to_nat pages) pml4 (u64 (p_vaddr ph + aslr_base)) ph 0;
      load_segments n' pml4 h aslr_base (i + 1) d
  end.

(** ** Stack and arguments *)

Fixpoint map_stack (n : nat) (pml4 stack_base i : Z) : E unit :=
  match n with
  | O => eret tt
  | S n' =>
      phys <~ echeck (frame ZONE_RED);
      _ <~ echeck (mem_op (zero_page phys));
      _ <~ echeck (map_page pml4 (u64 (stack_base + i * PAGE_SIZE)) phys (Z.lor (Z.lor VMM_USER VMM_WRITE) VMM_NX));
      map_stack n' pml4 stack_base (i + 1)
  end.

(** The strings of a NULL-terminated array, without their terminators. *)
Definition str_bytes (l : list (list Z)) : Z := foldr (fun s n => zlen s + 1 + n) 0 l.

(** The copy of one string to [argv_strbuf], which holds [buf]: stops at 2046
    bytes, then a terminator; [None]: past the end of the array. *)
Definition ARGV_STRBUF : Z := 2048.
Definition put_string (s buf : list Z) : option (list Z) :=
  let buf := buf ++ take (Z.to_nat (Z.max 0 (2046 - zlen buf))) s in
  if zlen buf <? ARGV_STRBUF then Some (buf ++ [0]) else None.

(** The loop over the strings: pointers and buffer. *)
Fixpoint put_strings (l : list (list Z)) (str_cursor : Z) (ptrs buf : list Z) : option (list Z * list Z) :=
  match l with
  | [] => Some (ptrs, buf)
  | s :: l' =>
      match put_string s buf with
      | None => None
      | Some buf' => put_strings l' str_cursor (ptrs ++ [u64 (str_cursor + zlen buf)]) buf'
      end
  end.

(** Bytes written through the user page tables. *)
Fixpoint user_write (pml4 vaddr : Z) (l : list Z) : E unit :=
  match l with
  | [] => eret tt
  | b :: l' =>
      s <~ eget;
      let phys := vmm_get_phys_into pml4 vaddr s in
      if phys =? 0 then estop PageFault else
      _ <~ emodify (fun s => with_mem s (store8 phys b (vm_mem s)));
      user_write pml4 (u64 (vaddr + 1)) l'
  end.

(** The default argument vector. *)
Definition default_argv0 : list Z := [101; 120; 112; 108; 111; 105; 100; 117; 115].

(** The initial stack below [stack_top]: stack pointer, address and bytes of the
    strings, argument count and pointers; [None] when [argv_strbuf] is overrun. *)
Definition stack_image (stack_top : Z) (argv envp : list (list Z)) : option (Z * Z * list Z * list Z) :=
  let argv := match argv with [] => [default_argv0] | _ => argv end in
  let bytes := str_bytes argv + str_bytes envp in
  let total := Z.land (u64 (bytes + (1 + zlen argv + 1 + zlen envp + 1) * 8 + 15)) (not64 15) in
  let sp := u64 (stack_top - total) in
  let str_cursor := u64 (stack_top - bytes) in
  let argv := take 15 argv in
  let envp := take 31 envp in
  match put_strings argv str_cursor [] [] with
  | None => None
  | Some (argv_ptrs, buf) =>
      match put_strings envp str_cursor [] buf with
      | None => None
      | Some (envp_ptrs, buf) => Some (sp, str_cursor, buf, concat (le_bytes 8 <$> (zlen argv :: argv_ptrs ++ [0] ++ envp_ptrs ++ [0])))
      end
  end.

Definition build_stack (pml4 stack_top : Z) (argv envp : list (list Z)) : E Z :=
  match stack_image stack_top argv envp with
  | None => estop Overrun
  | Some (sp, str_cursor, buf, words) =>
      _ <~ user_write pml4 str_cursor buf;
      _ <~ user_write pml4 sp words;
      eret sp
  end.

(** [rnd1] and [rnd2] are the values of [aslr_rdrand]; the result is the root, the
    entry point and the stack pointer. *)
Definition elf_load (release : Z -> F -> F) (rnd1 rnd2 : Z) (argv envp : list (list Z)) : E (Z * Z * Z) :=
  ok <~ image_read (elf_validate data);
  if negb ok then estop Failed else
  h <~ image_read (read_ehdr data);
  pml4 <~ echeck (make_isolated_pml4 release);
  let aslr_base := if e_type h =? ELF_TYPE_DYN then u64 (Z.land (Z.land rnd1 ASLR_MASK) (not64 0x1FFFFF) + ASLR_MIN_BASE) else 0 in
  d <~ load_segments (Z.to_nat (e_phnum h)) pml4 h aslr_base 0 (mk_di false 0 0);
  _ <~ (if (e_type h =? ELF_TYPE_DYN) && di_have d then apply_relocations pml4 h (di_off d) (di_filesz d) aslr_base else eret tt);
  let stack_top := USER_STACK_TOP - Z.land rnd2 STACK_ASLR_MASK in
  let stack_base := stack_top - USER_STACK_PAGES * PAGE_SIZE in
  _ <~ map_stack (Z.to_nat USER_STACK_PAGES) pml4 stack_base 0;
  sp <~ build_stack pml4 stack_top argv envp;
  eret (pml4, u64 (e_entry h + aslr_base), sp).

End Load.

(** ** Reads stay inside the image *)

Section Reads.
Context {F : Type} {FS : FrameSource F} (data : list Z).
#[local] Abbreviation E := (E (F := F)).

Definition in_image {A} (m : E A) : Prop := forall s, (m s).1 <> Oob.

Lemma in_image_ret {A} (a : A) : in_image (eret a).
Proof. done. Qed.

Lemma in_image_stop {A} (o : outcome A) : o <> Oob -> in_image (estop o).
Proof. intros Ho s. exact Ho. Qed.

Lemma in_image_bind {A B} (m : E A) (k : A -> E B) : in_image m -> (forall a, in_image (k a)) -> in_image (ebind m k).
Proof. intros Hm Hk s. specialize (Hm s). unfold ebind. destruct (m s) as [[a| | | |] s']; try done. apply Hk. Qed.

Lemma in_image_check {A} (m : M (vmm F) A) : in_image (echeck m).
Proof. intros s. unfold echeck. by destruct (m s) as [[a|] s']. Qed.

Lemma in_image_get : in_image (eget (F := F)).
Proof. done. Qed.

Lemma in_image_modify f : in_image (emodify (F := F) f).
Proof. done. Qed.

Lemma in_image_read {A B} (a : A) (k : A -> E B) : in_image (k a) -> in_image (ebind (image_read (Some a)) k).
Proof. intros Hk s. exact (Hk s). Qed.

Create HintDb image.
#[local] Hint Resolve in_image_ret in_image_stop in_image_check in_image_get in_image_modify : image.
#[local] Hint Extern 1 (in_image (ebind _ _)) => apply in_image_bind; [|intros] : image.

(** The validation reads a header that is all there, and admits no other image. *)
Lemma elf_validate_reads : elf_validate data <> None.
Proof. unfold elf_validate, read_ehdr. by destruct (zlen data <? SIZEOF_EHDR). Qed.

Lemma elf_validate_header : elf_validate data = Some true -> read_ehdr data = Some (ehdr_at data).
Proof. unfold elf_validate, read_ehdr. by destruct (zlen data <? SIZEOF_EHDR). Qed.

(** A program header the bounds check admits. *)
Lemma read_phdr_in h off : SIZEOF_PHDR <= e_phentsize h -> phdr_outside data h off = false -> in_image (read_phdr data off).
Proof.
  intros Hp Ho. unfold phdr_outside in Ho. apply orb_false_iff in Ho as [_ H2]. apply Z.ltb_ge in H2. unfold read_phdr.
  destruct (Z.ltb_spec (size data) (off + SIZEOF_PHDR)); [unfold SIZEOF_PHDR in *; lia|]. apply in_image_ret.
Qed.

Lemma vaddr_to_file_offset_in n h vaddr i : SIZEOF_PHDR <= e_phentsize h -> in_image (vaddr_to_file_offset data n h vaddr i).
Proof.
  intros Hp. revert i. induction n as [|n IH]; intros i; cbn [vaddr_to_file_offset]; [auto with image|]. destruct (phdr_outside data h _) eqn:Ho; [done|].
  apply in_image_bind; [by apply (read_phdr_in h)|]. intros ph. case_match; auto with image.
Qed.

Lemma scan_dynamic_in n dyn_off i r : in_image (scan_dynamic data n dyn_off i r).
Proof.
  revert i r. induction n as [|n IH]; intros i r; cbn [scan_dynamic]; [auto with image|]. case_match eqn:Ho; [auto with image|]. apply orb_false_iff in Ho as [_ H2]. apply Z.ltb_ge in H2.
  destruct (Z.ltb_spec (size data) (u64 (dyn_off + i * SIZEOF_DYN) + SIZEOF_DYN)); [unfold SIZEOF_DYN in *; lia|]. case_match; [auto with image|]. apply IH.
Qed.

Lemma write_value_in n pml4 target value b : in_image (write_value (F := F) n pml4 target value b).
Proof.
  revert b. induction n as [|n IH]; intros b; cbn [write_value]; [auto with image|]. apply in_image_bind; [auto with image|]. intros s. case_match; [by apply in_image_stop|]. auto with image.
Qed.

Lemma relocate_in n pml4 off entsize base i : in_image (relocate data n pml4 off entsize base i).
Proof.
  revert i. induction n as [|n IH]; intros i; cbn [relocate]; [auto with image|]. case_match eqn:Ho; [by apply in_image_stop|]. apply orb_false_iff in Ho as [_ H2]. apply Z.ltb_ge in H2.
  destruct (Z.ltb_spec (size data) (u64 (off + i * entsize) + SIZEOF_RELA)); [unfold SIZEOF_RELA in *; lia|]. apply in_image_bind; [case_match; [auto with image|apply write_value_in]|done].
Qed.

Lemma apply_relocations_in pml4 h dyn_off dyn_filesz base : SIZEOF_PHDR <= e_phentsize h -> in_image (apply_relocations data pml4 h dyn_off dyn_filesz base).
Proof.
  intros Hp. apply in_image_bind; [apply scan_dynamic_in|]. intros r. case_match; [auto with image|]. apply in_image_bind; [by apply vaddr_to_file_offset_in|].
  intros off. case_match; [by apply in_image_stop|]. apply relocate_in.
Qed.

Lemma load_pages_in n pml4 v ph j : p_offset ph + p_filesz ph <= size data -> in_image (load_pages data n pml4 v ph j).
Proof.
  intros Hs. revert j. induction n as [|n IH]; intros j; cbn [load_pages]; [auto with image|]. apply in_image_bind; [auto with image|]. intros phys. apply in_image_bind; [auto with image|]. intros _.
  apply in_image_bind; [|auto with image]. case_match; [|auto with image]. destruct (Z.ltb_spec (size data) (p_offset ph + Z.min (p_filesz ph) (j * PAGE_SIZE + PAGE_SIZE))); [lia|]. auto with image.
Qed.

Lemma load_segments_in n pml4 h base i d : SIZEOF_PHDR <= e_phentsize h -> in_image (load_segments data n pml4 h base i d).
Proof.
  intros Hp. revert i d. induction n as [|n IH]; intros i d; cbn [load_segments]; [auto with image|]. destruct (phdr_outside data h _) eqn:Ho; [by apply in_image_stop|].
  apply in_image_bind; [by apply (read_phdr_in h)|]. intros ph. case_match; [apply IH|]. case_match eqn:Hs; [by apply in_image_stop|]. apply orb_false_iff in Hs as [_ H2]. apply Z.ltb_ge in H2.
  apply in_image_bind; [apply load_pages_in; lia|]. intros _. apply IH.
Qed.

Lemma map_stack_in n pml4 base i : in_image (map_stack (F := F) n pml4 base i).
Proof. revert i. induction n as [|n IH]; intros i; cbn [map_stack]; auto 10 with image. Qed.

Lemma user_write_in pml4 v l : in_image (user_write (F := F) pml4 v l).
Proof.
  revert v. induction l as [|b l IH]; intros v; cbn [user_write]; [auto with image|]. apply in_image_bind; [auto with image|]. intros s. case_match; [by apply in_image_stop|]. auto with image.
Qed.

Lemma build_stack_in pml4 top argv envp : in_image (build_stack (F := F) pml4 top argv envp).
Proof.
  unfold build_stack. destruct (stack_image _ _ _) as [[[[sp cur] buf] words]|]; [|by apply in_image_stop].
  apply in_image_bind; [apply user_write_in|]. intros _. apply in_image_bind; [apply user_write_in|]. auto with image.
Qed.

(** C35: reads of the image.  Whatever bytes an image holds -- none, half a header,
    overlapping, truncated or wrapping headers, segments, dynamic and relocation tables --
    [elf_load] never reads outside it, provided its program header entries are at least as large as the
    structure.  (The code does not check that: see [short_phentsize].) *)
Theorem elf_load_reads_image release rnd1 rnd2 argv envp (s : vmm F) :
  SIZEOF_PHDR <= e_phentsize (ehdr_at data) -> (elf_load data release rnd1 rnd2 argv envp s).1 <> Oob.
Proof.
  intros Hp. revert s. change (in_image (elf_load data release rnd1 rnd2 argv envp)). unfold elf_load.
  pose proof elf_validate_reads as Hr. pose proof elf_validate_header as Hh. destruct (elf_validate data) as [[]|]; [|apply in_image_read; by apply in_image_stop|done].
  apply in_image_read. cbn [negb]. rewrite Hh by done. apply in_image_read. apply in_image_bind; [auto with image|]. intros pml4. apply in_image_bind; [by apply load_segments_in|]. intros d.
  apply in_image_bind; [case_match; [by apply apply_relocations_in|auto with image]|]. intros _. apply in_image_bind; [apply map_stack_in|]. intros _.
  apply in_image_bind; [apply build_stack_in|]. auto with image.
Qed.

End Reads.

(** ** Examples *)

Module ElfDemo.

(** Frames given out in order. *)
#[export] Program Instance bump : FrameSource Z := {|
  fs_alloc _ p := if p <? 2 ^ 40 then (p, p + 4096) else (0, p);
  fs_ok p := p mod 4096 = 0 /\ 0 < p;
  fs_taken p q := 0 <= q < p
|}.
Next Obligation.
  intros z p [Ha Hp]. cbn. destruct (Z.ltb_spec p (2 ^ 40)); cbn [fst snd]; [|done]. unfold PAGE_SIZE. split; [split; [Z.div_mod_to_equations; lia|lia]|]. split; [lia|].
  intros _. split; [done|]. lia.
Qed.

(** An image: header and program headers, then [body] at offset 4096. *)
Definition ehdr (type phentsize phnum : Z) : list Z :=
  le_bytes 4 ELF_MAGIC ++ [2; 1; 1; 0; 0] ++ replicate 7 0 ++ le_bytes 2 type ++ le_bytes 2 ELF_MACH_X86_64 ++ le_bytes 4 1 ++
  le_bytes 8 0x1000 ++ le_bytes 8 64 ++ le_bytes 8 0 ++ le_bytes 4 0 ++ le_bytes 2 64 ++ le_bytes 2 phentsize ++ le_bytes 2 phnum ++ le_bytes 2 0 ++ le_bytes 2 0 ++ le_bytes 2 0.
Definition phdr (type flags offset vaddr filesz memsz : Z) : list Z :=
  le_bytes 4 type ++ le_bytes 4 flags ++ le_bytes 8 offset ++ le_bytes 8 vaddr ++ le_bytes 8 0 ++ le_bytes 8 filesz ++ le_bytes 8 memsz ++ le_bytes 8 4096.
Definition image (hdrs body : list Z) : list Z := hdrs ++ replicate (4096 - length hdrs) 0 ++ body.

(** A kernel with a 2 MiB page at 4 MiB and an empty table for its upper half. *)
Definition kernel_mem : gmap Z Z :=
  <[slot 0x100000 256 := 0x3003]> (<[slot 0x2000 2 := 0x400083]> (<[slot 0x1000 0 := 0x2003]> (<[slot 0x100000 0 := 0x1003]> ∅))).
Definition machine : vmm Z := mk_vmm kernel_mem 0x200000 0x100000 0x100000.

Definition load (data : list Z) (argv : list (list Z)) := elf_load data (fun _ f => f) 0 0 argv [] machine.

(** A position-independent program with a page of code. *)
Definition pie : list Z := image (ehdr ELF_TYPE_DYN 56 1 ++ phdr PT_LOAD 5 4096 0x1000 3 8) [0xAA; 0xBB; 0xCC].

Example pie_loads :
  match load pie [] with
  | (Done (root, entry, sp), s) =>
      entry = 0x100001000 /\ ((fun k => user_byte root (entry + k) s) <$> [0; 1; 2; 3; 7]) = [0xAA; 0xBB; 0xCC; 0; 0] /\
      ((fun k => user_byte root (sp + k) s) <$> [0; 8]) = [1; 0xF6]
  | _ => False
  end.
Proof. vm_compute. split; [reflexivity|]. split; reflexivity. Qed.

(** The bounds check uses the size of an entry that the image itself gives. *)
Example short_phentsize : (load (ehdr ELF_TYPE_DYN 0 1) []).1 = Oob.
Proof. vm_compute. reflexivity. Qed.

(** A segment that does not start on a page boundary is loaded at the start of its
    page: its first byte is found 16 bytes too low. *)
Example unaligned_segment :
  match load (image (ehdr ELF_TYPE_DYN 56 1 ++ phdr PT_LOAD 5 4096 0x1010 3 8) [0xAA; 0xBB; 0xCC]) [] with
  | (Done (root, _, _), s) => user_byte root 0x100001010 s = 0 /\ user_byte root 0x100001000 s = 0xAA
  | _ => False
  end.
Proof. vm_compute. split; reflexivity. Qed.

(** A fixed-address program below 4 GiB meets the kernel's large pages. *)
Example exec_below_4g : (load (image (ehdr ELF_TYPE_EXEC 56 1 ++ phdr PT_LOAD 5 4096 0x400000 3 8) [0xAA; 0xBB; 0xCC]) []).1 = Failed.
Proof. vm_compute. reflexivity. Qed.

(** A program linked into the upper half is mapped in the kernel's own tables: the
    kernel's translation of the address changes. *)
Example exec_in_kernel_half :
  let v := 0xFFFF800000000000 in
  match load (image (ehdr ELF_TYPE_EXEC 56 1 ++ phdr PT_LOAD 5 4096 v 3 8) [0xAA; 0xBB; 0xCC]) [] with
  | (Done _, s) => vmm_get_phys_into 0x100000 v machine = 0 /\ user_byte 0x100000 v s = 0xAA
  | _ => False
  end.
Proof. vm_compute. split; reflexivity. Qed.

(** Fifteen arguments, the first of 2046 bytes: the terminators of the others run over
    the end of [argv_strbuf]. *)
Example argv_overrun : (load pie (replicate 2046 65 :: replicate 14 [66])).1 = Overrun.
Proof. vm_compute. reflexivity. Qed.

Lemma elf_load_reads_image_witness : (load pie []).1 <> Oob.
Proof. apply (elf_load_reads_image pie). vm_compute. discriminate. Defined.

End ElfDemo.
