(* ===== verification/ElfMap.v ===== *)
(** * ELF loader: address spaces

    [map_page] differs from [vmm_map_into] in that it marks the tables on the way
    accessible to the user and refuses to enter a 2 MiB page.  Both run alike up to
    the user bits, which no translation sees, so that what is proved of the page
    tables holds of the loader's. *)

From S2P Require Import Prelude Pmm Vmm Elf.

Section Map.
Context {F : Type} {FS : FrameSource F}.
#[local] Abbreviation vmm := (vmm F).
Implicit Types (s : vmm) (T : gmap Z (nat * Z)).

(** ** The user bit *)

(** What a walk sees of an entry. *)
Definition sim_entry (e e' : Z) : Prop :=
  has e VMM_PRESENT = has e' VMM_PRESENT /\ has e VMM_HUGE = has e' VMM_HUGE /\ Z.land e VMM_ADDR_MASK = Z.land e' VMM_ADDR_MASK.

Definition sim (m m' : gmap Z Z) : Prop := forall a, sim_entry (rd m a) (rd m' a).

Lemma sim_entry_refl e : sim_entry e e.
Proof. done. Qed.

Lemma sim_entry_user e : sim_entry (Z.lor e VMM_USER) e.
Proof.
  unfold sim_entry. rewrite !has_present, !has_huge. split_and!; [by rewrite Z.lor_spec, orb_false_r..|].
  rewrite Z.land_lor_distr_l. change (Z.land VMM_USER VMM_ADDR_MASK) with 0. by rewrite Z.lor_0_r.
Qed.

Lemma sim_insert a v v' m m' : sim m m' -> sim_entry v v' -> sim (<[a := v]> m) (<[a := v']> m').
Proof. intros S Sv b. rewrite !rd_insert. destruct (decide (a = b)); [exact Sv|apply S]. Qed.

Lemma sim_zero_page p m m' : sim m m' -> sim (zero_page p m) (zero_page p m').
Proof.
  intros S. unfold zero_page. assert (G : forall n i m m', sim m m' -> sim (for_loop n i (fun i m => <[slot p i := 0]> m) m) (for_loop n i (fun i m => <[slot p i := 0]> m) m')); [|by apply G].
  clear S m m'. induction n as [|n IH]; intros i m m' S; cbn [for_loop]; [exact S|]. apply IH. by apply sim_insert.
Qed.

Lemma walk_sim n m m' t virt : sim m m' -> walk n m t virt = walk n m' t virt.
Proof.
  intros S. revert t. induction n as [|n IH]; intros t; [done|]. cbn [walk]. destruct (S (slot t (pt_idx (Datatypes.S n) virt))) as (E1 & E2 & E3).
  rewrite E1. destruct (has (rd m' _) VMM_PRESENT); [|done]. cbn [negb]. rewrite E3. destruct n as [|n]; [done|]. unfold huge_leaf. rewrite E2. case_match; [done|]. apply IH.
Qed.

(** The same machine but for user bits in table pages. *)
Record alike (T : gmap Z (nat * Z)) (s s' : vmm) : Prop := {
  al_mem : sim (vm_mem s) (vm_mem s');
  al_data q j : q mod 4096 = 0 -> 0 <= j < 512 -> T !! q = None -> rd (vm_mem s) (slot q j) = rd (vm_mem s') (slot q j);
  al_frames : vm_frames s = vm_frames s';
  al_roots : kernel_pml4 s = kernel_pml4 s' /\ cr3 s = cr3 s'
}.

Lemma alike_refl T s : alike T s s.
Proof. by constructor. Qed.

Lemma alike_weaken T T' s s' : T ⊆ T' -> alike T s s' -> alike T' s s'.
Proof. intros Hs [A B C D]. constructor; try done. intros q j Hq Hj HT. apply B; [done..|]. by eapply lookup_weaken_None. Qed.

Lemma alike_wf T0 s s' T : alike T0 s s' -> pt_wf s' T -> pt_wf s T.
Proof.
  intros [Sm _ Sf _] [W1 W2 W3]. constructor; rewrite ?Sf; [done|done|]. intros p n v i Hp Hn Hi. destruct (Sm (slot p i)) as (E1 & E2 & E3). cbn. unfold huge_leaf. rewrite E1, E2, E3. by apply W3.
Qed.

Lemma alike_phys T root virt s s' : alike T s s' -> vmm_get_phys_into root virt s = vmm_get_phys_into root virt s'.
Proof.
  intros A. destruct (decide (root = 0)) as [->|]; [reflexivity|]. rewrite !get_phys_walk by done. apply walk_sim, A.
Qed.

Lemma clear_step n m t virt :
  clear_path (S (S n)) m t virt <->
  (has (rd m (slot t (pt_idx (S (S n)) virt))) VMM_PRESENT = true ->
   huge_leaf (S (S n)) (rd m (slot t (pt_idx (S (S n)) virt))) = false /\ clear_path (S n) m (Z.land (rd m (slot t (pt_idx (S (S n)) virt))) VMM_ADDR_MASK) virt).
Proof. reflexivity. Qed.

Lemma alike_clear T s s' n t virt : alike T s s' -> clear_path n (vm_mem s) t virt <-> clear_path n (vm_mem s') t virt.
Proof.
  intros [Sm _ _ _]. revert t. induction n as [|n IH]; intros t; [done|]. destruct n as [|n]; [done|]. rewrite !clear_step. destruct (Sm (slot t (pt_idx (S (S n)) virt))) as (E1 & E2 & E3).
  unfold huge_leaf. rewrite E1, E2, E3. by rewrite IH.
Qed.

(** The same store on both sides. *)
Lemma alike_store T a v s s' : alike T s s' -> alike T (with_mem s (<[a := v]> (vm_mem s))) (with_mem s' (<[a := v]> (vm_mem s'))).
Proof.
  intros [Sm Sd Sf Sr]. constructor; cbn [with_mem vm_mem vm_frames]; [by apply sim_insert| |done|done].
  intros q j Hq Hj HT. rewrite !rd_insert. case_decide; [done|]. by apply Sd.
Qed.

(** One level of [map_page] and one of [vmm_map_into]. *)
Lemma next_table_alike u T t i x s s' :
  alike T s s' -> pt_wf s' T -> T !! t = Some x -> 0 <= i < 512 ->
  (has (rd (vm_mem s') (slot t i)) VMM_PRESENT = true -> Z.land (rd (vm_mem s') (slot t i)) VMM_ADDR_MASK <> 0) ->
  (next_table u (slot t i) s).1 = (require (alloc_table (slot t i)) s').1 /\ alike T (next_table u (slot t i) s).2 (require (alloc_table (slot t i)) s').2.
Proof.
  intros [Sm Sd Sf Sr] W Ht Hi Hnz. destruct x as [n v]. destruct (wf_page _ _ W _ _ _ Ht) as (Hta & _). set (a := slot t i) in *.
  unfold next_table, require, alloc_table. destruct (Sm a) as (E1 & E2 & E3). change (has (rd (vm_mem s) a) 1) with (has (rd (vm_mem s) a) VMM_PRESENT). rewrite E1.
  destruct (has (rd (vm_mem s') a) VMM_PRESENT) eqn:Hp; cbn [negb].
  - destruct (Z.eqb_spec (Z.land (rd (vm_mem s') a) VMM_ADDR_MASK) 0); [exfalso; by apply Hnz|]. cbn [fst snd]. destruct u; [|rewrite E3; split; [done|by constructor]].
    cbn [with_mem vm_mem]. rewrite rd_insert, decide_True by done. destruct (sim_entry_user (rd (vm_mem s) a)) as (U1 & U2 & U3). rewrite U3, E3. split; [done|].
    constructor; cbn [vm_mem with_mem fst snd]; [| |done|done].
    + intros b. rewrite rd_insert. destruct (decide (a = b)) as [<-|]; [|apply Sm]. unfold sim_entry. rewrite U1, U2, U3. by apply Sm.
    + intros q j Hq Hj HT. rewrite rd_insert, decide_False; [by apply Sd|]. intros E. apply slot_inj in E as [-> _]; [|done..]. congruence.
  - unfold mbind, frame, require, mem_op. rewrite Sf. pose proof (fs_alloc_spec ZONE_GREEN (vm_frames s') (wf_ok _ _ W)) as Sp. destruct (fs_alloc ZONE_GREEN (vm_frames s')) as [p f]. cbn [fst snd] in Sp.
    destruct Sp as (_ & _ & Hnew). destruct (Z.eqb_spec p 0) as [->|Hp0]; [split; [done|by constructor]|]. destruct (Hnew Hp0) as (Ha & Hr & _). cbn [fst snd with_mem with_frames vm_mem]. destruct (Z.eqb_spec p 0); [done|].
    rewrite rd_insert, decide_True by done. assert (Ee : Z.lor (Z.lor (Z.lor (Z.land p VMM_ADDR_MASK) VMM_PRESENT) VMM_WRITE) VMM_USER = Z.lor p 0x7) by (rewrite land_mask_id by (done || lia); by rewrite <- !Z.lor_assoc).
    destruct (table_entry_spec p Ha ltac:(lia)) as (_ & _ & Hm). cbn [fst snd]. rewrite <- Ee. split; [f_equal; exact Hm|]. constructor; cbn [vm_mem with_mem with_frames vm_frames kernel_pml4 cr3 fst snd]; [|..|done|done].
    + apply sim_insert; [by apply sim_zero_page|done].
    + intros q j Hq Hj HT. rewrite !rd_insert. case_decide; [done|]. destruct (decide (q = p)) as [->|Hne]; [by rewrite !zero_page_in|].
      rewrite !zero_page_out by (by apply off_page_slot). by apply Sd.
Qed.

(** ** Supply of frames *)

(** The next [n] allocations succeed, whatever their zones. *)
Fixpoint supplies (n : nat) (f : F) : Prop :=
  match n with
  | O => True
  | S n' => forall z, z <> ZONE_COUNT -> (fs_alloc z f).1 <> 0 /\ supplies n' (fs_alloc z f).2
  end.

Lemma supplies_weaken n k f : supplies (n + k) f -> supplies n f.
Proof. revert f. induction n as [|n IH]; intros f; [done|]. intros H z Hz. destruct (H z Hz) as [H1 H2]. split; [done|]. by apply IH. Qed.

Lemma frame_supplied z k s : z <> ZONE_COUNT -> supplies (S k) (vm_frames s) -> exists p s', frame z s = (Some p, s') /\ supplies k (vm_frames s').
Proof.
  intros Hz H. destruct (H z Hz) as [H1 H2]. unfold frame, require. destruct (fs_alloc z (vm_frames s)) as [p f]. cbn [fst snd] in *. destruct (Z.eqb_spec p 0); [done|].
  by exists p, (with_frames s f).
Qed.

Lemma next_table_supplied u a k s : supplies (S k) (vm_frames s) -> exists q s', next_table u a s = (Some q, s') /\ supplies k (vm_frames s').
Proof.
  intros H. unfold next_table. case_match.
  - unfold mbind. destruct (frame_supplied ZONE_GREEN k s ltac:(done) H) as (p & s' & -> & Hs). by eexists _, _.
  - eexists _, _. split; [done|]. replace (S k) with (k + 1)%nat in H by lia. apply supplies_weaken in H. by case_match.
Qed.

Lemma map_page_supplied pml4 vaddr paddr flags k s :
  supplies (3 + k) (vm_frames s) -> supplies k (vm_frames (map_page pml4 vaddr paddr flags s).2).
Proof.
  intros H. unfold map_page, mbind. set (u := has flags VMM_USER). destruct (next_table_supplied u (slot pml4 (Z.land (Z.shiftr vaddr 39) 0x1FF)) _ s H) as (q1 & s1 & -> & H1).
  destruct (next_table_supplied u (slot q1 (Z.land (Z.shiftr vaddr 30) 0x1FF)) _ s1 H1) as (q2 & s2 & -> & H2).
  case_match; [replace (S k) with (k + 1)%nat in H2 by lia; by apply supplies_weaken in H2|].
  by destruct (next_table_supplied u (slot q2 (Z.land (Z.shiftr vaddr 21) 0x1FF)) _ s2 H2) as (q3 & s3 & -> & H3).
Qed.

(** The level-[S n] step of the walk of [virt]. *)
Lemma step_alike u T n t virt s s' :
  alike T s s' -> pt_wf s' T -> T !! t = Some (S n, pt_pfx (S n) virt) -> (1 <= n <= 3)%nat -> clear_path (S n) (vm_mem s') t virt ->
  let r := next_table u (slot t (pt_idx (S n) virt)) s in
  let r' := require (alloc_table (slot t (pt_idx (S n) virt))) s' in
  grown s' T n t virt r'.1 r'.2 /\ r.1 = r'.1 /\ alike T r.2 r'.2.
Proof.
  intros A W Ht Hn Hc r r'. split; [by apply require_alloc|]. apply (next_table_alike u T t _ _ _ _ A W Ht); [apply pt_idx_range|].
  destruct n as [|n]; [lia|]. rewrite clear_step in Hc. intros Hp. destruct (Hc Hp) as [Hh _].
  pose proof (wf_next _ _ W t (S n) _ (pt_idx (S (S n)) virt) Ht ltac:(lia) (pt_idx_range _ _) Hp Hh) as Hx. destruct (wf_page _ _ W _ _ _ Hx) as (_ & ? & _). lia.
Qed.

(** [map_page] runs like [vmm_map_into]. *)
Lemma map_page_cases s T root paddr virt flags :
  pt_wf s T -> T !! root = Some (4%nat, 0) -> clear_path 4 (vm_mem s) root virt ->
  exists s1 T1, pt_ext s T s1 T1 /\
   ((map_page root virt paddr flags s).1 = None /\ ~ supplies 3 (vm_frames s) /\ alike T1 (map_page root virt paddr flags s).2 s1 \/
    exists pt, path T1 (vm_mem s1) root pt virt /\ (map_page root virt paddr flags s).1 = Some tt /\
      alike T1 (map_page root virt paddr flags s).2 (with_mem s1 (<[slot pt (pt_idx 1 virt) := leaf_entry paddr flags]> (vm_mem s1)))).
Proof.
  intros W Hr Hc. unfold map_page. rewrite (idx_code 39 4), (idx_code 30 3), (idx_code 21 2), (idx_code 12 1) by done.
  assert (Hp4 : pt_pfx 4 virt = 0) by apply Z.mod_1_r. unfold mbind. set (u := has flags VMM_USER).
  destruct (step_alike u T 3 root virt s s (alike_refl T s) W ltac:(by rewrite Hp4) ltac:(lia) Hc) as ((T1 & E1 & H1) & R1 & A1).
  pose proof (fun k => next_table_supplied u (slot root (pt_idx 4 virt)) k s) as F1.
  destruct (next_table u _ s) as [o1 z1], (require _ s) as [o1' s1]. cbn [fst snd] in *. subst o1'. destruct o1 as [pdpt|].
  2: { exists s1, T1. split; [done|]. left. split; [done|]. split; [intros G; by destruct (F1 _ G) as (? & ? & [=] & _)|]. eapply alike_weaken; [apply (ext_sub _ _ _ _ E1)|done]. }
  destruct (H1 _ eq_refl) as [Hpdpt L4].
  assert (C3 : clear_path 3 (vm_mem s1) pdpt virt) by (apply (clear_link 2 _ root); [done|by apply (ext_clear _ _ _ _ E1 root 4 0)]).
  apply (alike_weaken T T1) in A1; [|apply (ext_sub _ _ _ _ E1)].
  destruct (step_alike u T1 2 pdpt virt z1 s1 A1 (ext_wf _ _ _ _ E1) Hpdpt ltac:(lia) C3) as ((T2 & E2 & H2) & R2 & A2).
  assert (F2 : supplies 3 (vm_frames s) -> supplies 2 (vm_frames z1)) by (intros G; destruct (F1 _ G) as (? & ? & [= <- <-] & ?); done). clear F1.
  pose proof (fun k => next_table_supplied u (slot pdpt (pt_idx 3 virt)) k z1) as F1.
  destruct (next_table u _ z1) as [o2 z2], (require _ s1) as [o2' s2]. cbn [fst snd] in *. subst o2'. pose proof (pt_ext_trans _ _ _ _ _ _ E1 E2) as E12. destruct o2 as [pd|].
  2: { exists s2, T2. split; [done|]. left. split; [done|]. split; [intros G; by destruct (F1 _ (F2 G)) as (? & ? & [=] & _)|]. eapply alike_weaken; [apply (ext_sub _ _ _ _ E2)|done]. }
  destruct (H2 _ eq_refl) as [Hpd L3].
  assert (C2 : clear_path 2 (vm_mem s2) pd virt) by (apply (clear_link 1 _ pdpt); [done|by apply (ext_clear _ _ _ _ E2 pdpt 3 (pt_pfx 3 virt))]).
  apply (alike_weaken T1 T2) in A2; [|apply (ext_sub _ _ _ _ E2)].
  replace (has (rd (vm_mem z2) _) 1 && has (rd (vm_mem z2) _) (Z.shiftl 1 7)) with false.
  2: { symmetry. apply andb_false_iff. destruct (al_mem _ _ _ A2 (slot pd (pt_idx 2 virt))) as (I1 & I2 & _). destruct (has (rd (vm_mem z2) (slot pd (pt_idx 2 virt))) 1) eqn:Hp; [right|by left].
       etrans; [exact I2|]. rewrite clear_step in C2. destruct C2 as [Hh _]; [by rewrite <- I1|]. exact Hh. }
  destruct (step_alike u T2 1 pd virt z2 s2 A2 (ext_wf _ _ _ _ E2) Hpd ltac:(lia) C2) as ((T3 & E3 & H3) & R3 & A3).
  assert (F3 : supplies 3 (vm_frames s) -> supplies 1 (vm_frames z2)) by (intros G; destruct (F1 _ (F2 G)) as (? & ? & [= <- <-] & ?); done). clear F1.
  pose proof (fun k => next_table_supplied u (slot pd (pt_idx 2 virt)) k z2) as F1.
  destruct (next_table u _ z2) as [o3 z3], (require _ s2) as [o3' s3]. cbn [fst snd] in *. subst o3'. exists s3, T3. split; [exact (pt_ext_trans _ _ _ _ _ _ E12 E3)|].
  apply (alike_weaken T2 T3) in A3; [|apply (ext_sub _ _ _ _ E3)]. destruct o3 as [pt|]; [right|left; split; [done|]; split; [intros G; by destruct (F1 _ (F3 G)) as (? & ? & [=] & _)|done]]. destruct (H3 _ eq_refl) as [Hpt L2]. exists pt.
  split; [|split; [done|by apply (alike_store T3)]]. apply (path_ext s1 T1 s2 T2 s3 T3 root pdpt pd pt virt E2 E3); try done.
  exact (lookup_weaken _ _ _ _ Hr (ext_sub _ _ _ _ E1)).
Qed.

(** A leaf store changes no path. *)
Lemma clear_store s T n t v pt w i e virt :
  pt_wf s T -> T !! t = Some (n, v) -> T !! pt = Some (1%nat, w) -> 0 <= i < 512 ->
  clear_path n (vm_mem s) t virt -> clear_path n (<[slot pt i := e]> (vm_mem s)) t virt.
Proof.
  intros W Ht Hpt Hi. revert t v Ht. induction n as [|n IH]; intros t v Ht; [done|]. destruct n as [|n]; [done|]. rewrite !clear_step.
  destruct (wf_page _ _ W _ _ _ Ht) as (Hta & _), (wf_page _ _ W _ _ _ Hpt) as (Hpa & _). pose proof (pt_idx_range (S (S n)) virt) as Hx.
  rewrite rd_insert, decide_False; [|intros E; apply slot_inj in E as [-> _]; [congruence|done..]].
  intros Hc Hp. destruct (Hc Hp) as [Hh Hc']. split; [done|]. eapply IH; [|done]. apply (wf_next _ _ W t (S n) v); (done || lia).
Qed.

(** What a page-table operation leaves alone: tables, pages in use, paths, roots. *)
Record kept s T s' T' : Prop := {
  kept_sub : T ⊆ T';
  kept_wf : pt_wf s' T';
  kept_taken q : fs_taken (vm_frames s) q -> fs_taken (vm_frames s') q;
  kept_data q : q mod 4096 = 0 -> fs_taken (vm_frames s) q -> T !! q = None ->
    T' !! q = None /\ forall j, 0 <= j < 512 -> rd (vm_mem s') (slot q j) = rd (vm_mem s) (slot q j);
  kept_clear root virt : T !! root = Some (4%nat, 0) -> clear_path 4 (vm_mem s) root virt -> clear_path 4 (vm_mem s') root virt;
  kept_root : kernel_pml4 s' = kernel_pml4 s /\ cr3 s' = cr3 s
}.

Lemma kept_compose s1 T1 s2 T2 s3 T3 : kept s1 T1 s2 T2 -> kept s2 T2 s3 T3 -> kept s1 T1 s3 T3.
Proof.
  intros [A1 A2 A3 A4 A5 A6] [B1 B2 B3 B4 B5 B6]. constructor; [by etrans|done|auto| | |destruct A6, B6; split; congruence].
  - intros q Hq Ht HT. destruct (A4 q Hq Ht HT) as [HT2 E1]. destruct (B4 q Hq (A3 q Ht) HT2) as [HT3 E2]. split; [done|]. intros j Hj. by rewrite E2, E1.
  - intros root virt Hr Hc. apply B5; [by eapply lookup_weaken|auto].
Qed.

Lemma ext_kept s T s1 T1 s' : pt_ext s T s1 T1 -> alike T1 s' s1 -> kept s T s' T1.
Proof.
  intros E A. constructor; [apply (ext_sub _ _ _ _ E)|eapply alike_wf; [done|apply (ext_wf _ _ _ _ E)]|rewrite (al_frames _ _ _ A); apply (ext_taken _ _ _ _ E)| | |].
  - intros q Hq Ht HT. destruct (ext_data _ _ _ _ E q Hq Ht HT) as [HT1 Hd]. split; [done|]. intros j Hj. by rewrite (al_data _ _ _ A), Hd.
  - intros root virt Hr Hc. apply (alike_clear _ _ _ _ _ _ A). by apply (ext_clear _ _ _ _ E root 4 0).
  - destruct (al_roots _ _ _ A) as [-> ->]. apply (ext_root _ _ _ _ E).
Qed.

(** A whole path found and its leaf written. *)
Lemma leaf_kept s T root pt virt e s' :
  pt_wf s T -> T !! root = Some (4%nat, 0) -> path T (vm_mem s) root pt virt ->
  alike T s' (with_mem s (<[slot pt (pt_idx 1 virt) := e]> (vm_mem s))) -> kept s T s' T.
Proof.
  intros W Hr Hp A. destruct (leaf_store s T root pt virt e W Hr Hp) as (W' & _). destruct Hp as (pdpt & pd & _ & _ & Hpt & _). pose proof (pt_idx_range 1 virt) as Hi.
  destruct (wf_page _ _ W _ _ _ Hpt) as (Hpa & _). constructor; [done|by eapply alike_wf|by rewrite (al_frames _ _ _ A)| | |apply (al_roots _ _ _ A)].
  - intros q Hq Ht HT. split; [done|]. intros j Hj. rewrite (al_data _ _ _ A) by done. cbn [vm_mem with_mem]. rewrite rd_insert, decide_False; [done|].
    intros E. apply slot_inj in E as [-> _]; [congruence|done..].
  - intros r v Hr' Hc. apply (alike_clear _ _ _ _ _ _ A). by eapply (clear_store s T).
Qed.

(** [map_page] on a path without large pages, for a client that keeps data pages. *)
Lemma map_page_spec s T root paddr virt flags :
  pt_wf s T -> T !! root = Some (4%nat, 0) -> clear_path 4 (vm_mem s) root virt -> Z.land flags VMM_ADDR_MASK = 0 ->
  let r := map_page root virt paddr flags s in
  exists T', kept s T r.2 T' /\
  match r.1 with
  | Some _ =>
      (forall virt', vpage virt' = vpage virt -> vmm_get_phys_into root virt' r.2 = Z.lor (Z.land paddr VMM_ADDR_MASK) (Z.land virt' 0xFFF)) /\
      (forall root' virt', T !! root' = Some (4%nat, 0) -> vpage virt' <> vpage virt -> vmm_get_phys_into root' virt' r.2 = vmm_get_phys_into root' virt' s)
  | None =>
      ~ supplies 3 (vm_frames s) /\
      forall root' virt', T !! root' = Some (4%nat, 0) -> vmm_get_phys_into root' virt' r.2 = vmm_get_phys_into root' virt' s
  end.
Proof.
  intros W Hr Hc Hf r. destruct (map_page_cases s T root paddr virt flags W Hr Hc) as (s1 & T1 & E & [(R & Hn & A)|(pt & Hp & R & A)]); fold r in R, A; exists T1.
  - split; [by eapply ext_kept|]. rewrite R. split; [done|]. intros root' virt' Hr'. rewrite (alike_phys T1 _ _ _ _ A). by eapply ext_same_phys.
  - pose proof (lookup_weaken _ _ _ _ Hr (ext_sub _ _ _ _ E)) as Hr1. split; [eapply kept_compose; [eapply ext_kept; [done|apply alike_refl]|eapply leaf_kept; [apply (ext_wf _ _ _ _ E)|done..]]|].
    rewrite R. destruct (leaf_entry_spec paddr flags Hf) as [Hpr Hm]. destruct (leaf_store s1 T1 root pt virt (leaf_entry paddr flags) (ext_wf _ _ _ _ E) Hr1 Hp) as (_ & Hs & Ho). split.
    + intros virt' Ev. by rewrite (alike_phys T1 _ _ _ _ A), Hs, Hpr, Hm.
    + intros root' virt' Hr' Ev. rewrite (alike_phys T1 _ _ _ _ A), Ho; [by eapply ext_same_phys| |done]. exact (lookup_weaken _ _ _ _ Hr' (ext_sub _ _ _ _ E)).
Qed.

(** ** New address spaces *)

Lemma copy_entries_spec dst src lo n m :
  (forall j k, lo <= j < lo + Z.of_nat n -> lo <= k < lo + Z.of_nat n -> slot src j <> slot dst k) ->
  (forall j, lo <= j < lo + Z.of_nat n -> rd (copy_entries dst src lo n m) (slot dst j) = rd m (slot src j)) /\
  (forall a, (forall j, lo <= j < lo + Z.of_nat n -> a <> slot dst j) -> rd (copy_entries dst src lo n m) a = rd m a).
Proof.
  intros Hd. unfold copy_entries. apply (for_loop_ind (fun i m' => (forall j, lo <= j < i -> rd m' (slot dst j) = rd m (slot src j)) /\
    (forall a, (forall j, lo <= j < lo + Z.of_nat n -> a <> slot dst j) -> rd m' a = rd m a)) n lo); [split; [lia|done]|].
  intros j m' Hj [H1 H2]. split.
  - intros k Hk. rewrite rd_insert. case_decide as E; [assert (k = j) as -> by (unfold slot in E; lia); apply H2; intros i Hi; by apply Hd|].
    apply H1. destruct (decide (k = j)) as [->|]; [done|lia].
  - intros a Ha. rewrite rd_insert, decide_False; [by apply H2|]. intros <-. by apply (Ha j).
Qed.

#[local] Opaque copy_entries zero_page.

(** The entry of a private table: its page and the flags of [e]. *)
Lemma pd_entry_spec p e :
  p mod 4096 = 0 -> 0 <= p < 2 ^ 52 ->
  let ne := Z.lor p (Z.land e 0xFFF) in
  has ne VMM_PRESENT = has e VMM_PRESENT /\ has ne VMM_HUGE = has e VMM_HUGE /\ Z.land ne VMM_ADDR_MASK = p.
Proof.
  intros Ha Hp ne. unfold ne. rewrite !has_present, !has_huge, !Z.lor_spec, !Z.land_spec, (aligned_bits p 12 0), (aligned_bits p 12 7) by (exact Ha || lia).
  split; [apply andb_true_r|]. split; [apply andb_true_r|].
  rewrite Z.land_lor_distr_l, land_mask_id, <- Z.land_assoc by done. change (Z.land 0xFFF VMM_ADDR_MASK) with 0. by rewrite Z.land_0_r, Z.lor_0_r.
Qed.

(** [s'] adds tables to [s] in free frames and writes nothing else. *)
Record fresh_only s T s' T' : Prop := {
  fo_sub : T ⊆ T';
  fo_wf : pt_wf s' T';
  fo_taken q : fs_taken (vm_frames s) q -> fs_taken (vm_frames s') q;
  fo_words q : q mod 4096 = 0 -> fs_taken (vm_frames s) q ->
    T' !! q = T !! q /\ forall j, 0 <= j < 512 -> rd (vm_mem s') (slot q j) = rd (vm_mem s) (slot q j);
  fo_root : kernel_pml4 s' = kernel_pml4 s /\ cr3 s' = cr3 s
}.

Lemma fresh_only_refl s T : pt_wf s T -> fresh_only s T s T.
Proof. by constructor. Qed.

(** Tables that existed keep their words. *)
Lemma fresh_only_old s T s' T' q x j :
  pt_wf s T -> fresh_only s T s' T' -> T !! q = Some x -> 0 <= j < 512 -> rd (vm_mem s') (slot q j) = rd (vm_mem s) (slot q j).
Proof. intros W Fo Hq Hj. destruct x as [n v]. destruct (wf_page _ _ W _ _ _ Hq) as (Ha & _ & _ & Ht). by apply (fo_words _ _ _ _ Fo q Ha Ht). Qed.

Lemma fresh_only_kept s T s' T' : pt_wf s T -> fresh_only s T s' T' -> kept s T s' T'.
Proof.
  intros W Fo. constructor; [apply (fo_sub _ _ _ _ Fo)|apply (fo_wf _ _ _ _ Fo)|apply (fo_taken _ _ _ _ Fo)| | |apply (fo_root _ _ _ _ Fo)].
  - intros q Ha Ht HT. destruct (fo_words _ _ _ _ Fo q Ha Ht) as [-> Hw]. done.
  - intros root virt Hr. apply (clear_grow s T (vm_mem s') 4 root 0 virt W Hr). intros t n v j Ht Hj. left. by eapply fresh_only_old.
Qed.

Lemma fresh_only_phys s T s' T' root virt :
  pt_wf s T -> fresh_only s T s' T' -> T !! root = Some (4%nat, 0) -> vmm_get_phys_into root virt s' = vmm_get_phys_into root virt s.
Proof.
  intros W Fo Hr. destruct (wf_page _ _ W _ _ _ Hr) as (_ & ? & _). rewrite !get_phys_walk by lia. eapply (walk_same s T); [done|done|]. intros q x j. by eapply fresh_only_old.
Qed.

(** A free frame becomes a table whose entries lead to tables of the next level. *)
Lemma fresh_add s0 T0 s T p n v f m' :
  fresh_only s0 T0 s T -> p mod 4096 = 0 -> 0 < p < 2 ^ 52 -> ~ fs_taken (vm_frames s) p -> fs_ok f ->
  (forall q, fs_taken (vm_frames s) q -> fs_taken f q) -> fs_taken f p -> (forall a, off_page p a -> rd m' a = rd (vm_mem s) a) -> (1 <= n <= 4)%nat ->
  (forall n' i, n = S n' -> (1 <= n')%nat -> 0 <= i < 512 -> has (rd m' (slot p i)) VMM_PRESENT = true -> huge_leaf n (rd m' (slot p i)) = false ->
     T !! Z.land (rd m' (slot p i)) VMM_ADDR_MASK = Some (n', v * 512 + i)) ->
  fresh_only s0 T0 (mk_vmm m' f (kernel_pml4 s) (cr3 s)) (<[p := (n, v)]> T).
Proof.
  intros [A1 W A3 A4 A5] Hp Hr Hfr Hok Hmono Hpt Hoff Hn He. assert (Hne : forall q x, T !! q = Some x -> q <> p) by (intros q [k w] Hq ->; apply Hfr; by apply (wf_page _ _ W p k w)).
  assert (Hnew : forall q y, T !! q = Some y -> <[p := (n, v)]> T !! q = Some y) by (intros q y Hq; rewrite lookup_insert_ne; [done|]; by apply not_eq_sym, (Hne q y)).
  constructor; cbn [vm_mem vm_frames]; [etrans; [exact A1|apply insert_subseteq; destruct (T !! p) eqn:E; [by apply Hne in E|done]]| |auto| |done].
  - constructor; cbn [vm_frames vm_mem]; [done|..].
    + intros q k w. rewrite lookup_insert. case_decide as E; [intros [= <- <-]; subst q; done|]. intros Hq. destruct (wf_page _ _ W _ _ _ Hq) as (? & ? & ? & ?). split_and!; try done; try lia. by apply Hmono.
    + intros q k w j. rewrite lookup_insert. case_decide as E; [intros [= -> ->] Hk Hj Hpe Hhe; subst q; by apply Hnew, He|]. intros Hq Hk Hj. destruct (wf_page _ _ W _ _ _ Hq) as (Hqa & _).
      rewrite Hoff by (by apply off_page_slot). intros Hpe Hhe. by apply Hnew, (wf_next _ _ W q).
  - intros q Hq Ht. assert (q <> p) by (intros ->; by apply Hfr, A3). destruct (A4 q Hq Ht) as [E1 E2]. split; [by rewrite lookup_insert_ne|]. intros j Hj. rewrite Hoff by (by apply off_page_slot). by apply E2.
Qed.

(** An entry of a new table is set. *)
Lemma fresh_store s0 T0 s T p n v i e :
  fresh_only s0 T0 s T -> T !! p = Some (S n, v) -> ~ fs_taken (vm_frames s0) p -> 0 <= i < 512 ->
  ((1 <= n)%nat -> has e VMM_PRESENT = true -> huge_leaf (S n) e = false -> T !! Z.land e VMM_ADDR_MASK = Some (n, v * 512 + i)) ->
  fresh_only s0 T0 (with_mem s (<[slot p i := e]> (vm_mem s))) T.
Proof.
  intros [A1 W A3 A4 A5] Hp Hfr Hi He. destruct (wf_page _ _ W _ _ _ Hp) as (Hpa & _). constructor; cbn [with_mem vm_mem vm_frames]; [done| |done| |done].
  - constructor; cbn [with_mem vm_mem vm_frames]; [apply W|apply W|]. intros q k w j Hq Hk Hj. destruct (wf_page _ _ W _ _ _ Hq) as (Hqa & _). rewrite rd_insert. case_decide as E; [|by apply (wf_next _ _ W)].
    apply slot_inj in E as [<- <-]; [|done..]. rewrite Hp in Hq. injection Hq as <- <-. by apply He.
  - intros q Hq Ht. destruct (A4 q Hq Ht) as [E1 E2]. split; [done|]. intros j Hj. rewrite rd_insert, decide_False; [by apply E2|]. intros E. apply slot_inj in E as [<- _]; [|done..]. by apply Hfr.
Qed.

(** A new table page, filled by [g]. *)
Lemma frame_add s0 T0 s T z k n v (g : Z -> gmap Z Z -> gmap Z Z) :
  z <> ZONE_COUNT -> fresh_only s0 T0 s T -> supplies (S k) (vm_frames s) -> (1 <= n <= 4)%nat ->
  (forall p a, p mod 4096 = 0 -> T !! p = None -> off_page p a -> rd (g p (vm_mem s)) a = rd (vm_mem s) a) ->
  (forall p n' i, p mod 4096 = 0 -> T !! p = None -> n = S n' -> (1 <= n')%nat -> 0 <= i < 512 -> let e := rd (g p (vm_mem s)) (slot p i) in
     has e VMM_PRESENT = true -> huge_leaf n e = false -> T !! Z.land e VMM_ADDR_MASK = Some (n', v * 512 + i)) ->
  exists p s1, frame z s = (Some p, s1) /\ vm_mem s1 = vm_mem s /\ kernel_pml4 s1 = kernel_pml4 s /\ p mod 4096 = 0 /\ T !! p = None /\ ~ fs_taken (vm_frames s) p /\
    supplies k (vm_frames s1) /\ fresh_only s0 T0 (with_mem s1 (g p (vm_mem s))) (<[p := (n, v)]> T).
Proof.
  intros Hz Fo Hs Hn Hoff He. pose proof (fs_alloc_spec z (vm_frames s) (wf_ok _ _ (fo_wf _ _ _ _ Fo))) as Sp. destruct (Hs z Hz) as [H1 H2]. unfold frame, require.
  destruct (fs_alloc z (vm_frames s)) as [p f]. cbn [fst snd] in *. destruct Sp as (Hok & Hmono & Hnew). destruct (Hnew H1) as (Ha & Hr & Hfr & Ht). destruct (Z.eqb_spec p 0); [done|].
  assert (HT : T !! p = None) by (destruct (T !! p) as [[k' w]|] eqn:E; [|done]; destruct (wf_page _ _ (fo_wf _ _ _ _ Fo) _ _ _ E) as (_ & _ & _ & ?); done).
  exists p, (with_frames s f). do 7 (split; [done|]). apply (fresh_add s0 T0 s T p n v f); try done; [intros a; by apply Hoff|]. intros n2 i2. by apply He.
Qed.

(** Entry [i] of the private [pdpt] stands for that of the kernel's. *)
Definition pd_copy s0 kpdpt s T pdpt i : Prop :=
  let e := rd (vm_mem s0) (slot kpdpt i) in
  (has e VMM_PRESENT = false -> rd (vm_mem s) (slot pdpt i) = e) /\
  (has e VMM_PRESENT = true -> exists pd, link 3 (vm_mem s) pdpt i pd /\ T !! pd = Some (2%nat, i) /\
     forall j, 0 <= j < 512 -> rd (vm_mem s) (slot pd j) = rd (vm_mem s0) (slot (Z.land e VMM_ADDR_MASK) j)).

(** Writes outside the directory and that entry keep it. *)
Lemma pd_copy_keep s0 kpdpt s T s' T' pdpt i u n l :
  pd_copy s0 kpdpt s T pdpt i -> pt_wf s T -> T ⊆ T' -> T !! pdpt = Some (3%nat, 0) -> 0 <= i < 512 -> 0 <= l < 512 ->
  T !! u = Some (n, 0) -> n <> 2%nat -> (u, l) <> (pdpt, i) ->
  (forall q x j, T !! q = Some x -> 0 <= j < 512 -> slot q j <> slot u l -> rd (vm_mem s') (slot q j) = rd (vm_mem s) (slot q j)) -> pd_copy s0 kpdpt s' T' pdpt i.
Proof.
  intros [C1 C2] W Hsub Hp Hi Hl Hu Hn Hne Hw. destruct (wf_page _ _ W _ _ _ Hp) as (Hpa & _), (wf_page _ _ W _ _ _ Hu) as (Hua & _).
  assert (He : rd (vm_mem s') (slot pdpt i) = rd (vm_mem s) (slot pdpt i)) by (eapply Hw; [done|done|]; intros E; apply slot_inj in E as [-> ->]; [done..]).
  split; [intros H; rewrite He; by apply C1|]. intros H. destruct (C2 H) as (pd & L & Hpd & Hj). exists pd. unfold link. rewrite He. split; [exact L|]. split; [by eapply lookup_weaken|].
  intros j Hj'. rewrite (Hw pd (2%nat, i)); [by apply Hj|done|done|]. destruct (wf_page _ _ W _ _ _ Hpd) as (Hda & _). intros E. apply slot_inj in E as [-> _]; [|done..]. rewrite Hu in Hpd. by injection Hpd.
Qed.

(** The private copy of a page directory. *)
Lemma private_pd_spec release s0 T0 s T kpdpt pdpt i give k :
  pt_wf s0 T0 -> fresh_only s0 T0 s T -> T0 !! kpdpt = Some (3%nat, 0) -> T !! pdpt = Some (3%nat, 0) -> ~ fs_taken (vm_frames s0) pdpt -> 0 <= i < 512 ->
  (has (rd (vm_mem s0) (slot kpdpt i)) VMM_PRESENT = true -> has (rd (vm_mem s0) (slot kpdpt i)) VMM_HUGE = false) ->
  rd (vm_mem s) (slot pdpt i) = rd (vm_mem s0) (slot kpdpt i) -> supplies (S k) (vm_frames s) ->
  exists s' T', private_pd release kpdpt pdpt i give s = (Some tt, s') /\ fresh_only s0 T0 s' T' /\ T ⊆ T' /\ supplies k (vm_frames s') /\
    (forall q x j, T !! q = Some x -> 0 <= j < 512 -> slot q j <> slot pdpt i -> rd (vm_mem s') (slot q j) = rd (vm_mem s) (slot q j)) /\
    pd_copy s0 kpdpt s' T' pdpt i.
Proof.
  intros W0 Fo Hk Hp Hpf Hi Hh Hcopy Hs. pose proof (fo_wf _ _ _ _ Fo) as W. unfold private_pd. rewrite (fresh_only_old s0 T0 s T kpdpt (3%nat, 0) i W0 Fo Hk Hi).
  set (e := rd (vm_mem s0) (slot kpdpt i)) in *. change (has e 1) with (has e VMM_PRESENT). destruct (has e VMM_PRESENT) eqn:Hpe; cbn [negb].
  2: { exists s, T. replace (S k) with (k + 1)%nat in Hs by lia. apply supplies_weaken in Hs. do 5 (split; [done|]). split; [done|]. fold e. congruence. }
  set (kpd := Z.land e VMM_ADDR_MASK). assert (Hkpd0 : T0 !! kpd = Some (2%nat, 0 * 512 + i)) by (apply (wf_next _ _ W0 kpdpt 2 0 i Hk); [lia|done|done|exact (Hh eq_refl)]).
  pose proof (lookup_weaken _ _ _ _ Hkpd0 (fo_sub _ _ _ _ Fo)) as Hkpd. destruct (wf_page _ _ W _ _ _ Hkpd) as (Hka & _).
  assert (Hcp : forall p, p mod 4096 = 0 -> T !! p = None -> (forall j, 0 <= j < 512 -> rd (copy_entries p kpd 0 512 (vm_mem s)) (slot p j) = rd (vm_mem s) (slot kpd j)) /\
    (forall a, off_page p a -> rd (copy_entries p kpd 0 512 (vm_mem s)) a = rd (vm_mem s) a)).
  { intros p Ha HT. apply (copy_entries_spec p kpd 0 512). intros j l Hj Hl E. apply slot_inj in E as [-> _]; [congruence|done..]. }
  destruct (frame_add s0 T0 s T ZONE_GREEN k 2 i (fun p => copy_entries p kpd 0 512) ltac:(done) Fo Hs ltac:(lia)) as (pd & s1 & -> & Em & Ek & Ha & HT & Hfr & Hs1 & Fo1).
  { intros p a Hpa HTp. by apply Hcp. }
  { intros p n' j Hpa HTp [= <-] _ Hj. cbn zeta. rewrite (proj1 (Hcp p Hpa HTp)) by done. intros Pe He. apply (wf_next _ _ W kpd 1 i j); done. }
  rewrite Em. set (m := copy_entries pd kpd 0 512 (vm_mem s)) in *. destruct (Hcp pd Ha HT) as [Hin Hout]. fold m in Hin, Hout. clearbody m.
  assert (Hne : pd <> pdpt) by congruence. destruct (wf_page _ _ W _ _ _ Hp) as (Hpa & _). destruct (wf_page _ _ (fo_wf _ _ _ _ Fo1) _ _ _ (lookup_insert_eq _ _ _)) as (_ & Hpr & _).
  destruct (pd_entry_spec pd e Ha ltac:(lia)) as (Q1 & Q2 & Q3). set (ne := Z.lor pd (Z.land e 0xFFF)) in *.
  exists (with_mem s1 (<[slot pdpt i := ne]> m)), (<[pd := (2%nat, i)]> T). split; [done|].
  assert (Fo2 : fresh_only s0 T0 (with_mem (with_mem s1 m) (<[slot pdpt i := ne]> m)) (<[pd := (2%nat, i)]> T)).
  { apply (fresh_store s0 T0 (with_mem s1 m) _ pdpt 2 0 i ne Fo1); [by rewrite lookup_insert_ne|done|done|]. intros _ _ _. rewrite Q3. apply lookup_insert_eq. }
  split; [exact Fo2|]. split; [by apply insert_subseteq|]. split; [done|]. split; cbn [with_mem vm_mem]; [|split; [fold e; congruence|]].
  - intros q x j Hq Hj Hne'. rewrite rd_insert, decide_False by congruence. apply Hout. destruct x as [n w]. destruct (wf_page _ _ W _ _ _ Hq) as (Hqa & _). apply off_page_slot; [done..|congruence].
  - intros _. exists pd. split; [|split; [apply lookup_insert_eq|]].
    + unfold link; cbn [with_mem vm_mem]. rewrite rd_insert, decide_True by done. unfold huge_leaf. rewrite Q1, Q2, Q3. by rewrite (Hh eq_refl).
    + intros j Hj. cbn [with_mem vm_mem]. rewrite rd_insert, decide_False; [|intros E; apply slot_inj in E as [E _]; [congruence|done..]]. rewrite Hin by done. by apply (fresh_only_old s0 T0 s T kpd (2%nat, 0 * 512 + i)).
Qed.

(** [virt] is translated from [t] in [s] as from [t0] in [s0]. *)
Definition mirrors (n : nat) s t s0 t0 virt : Prop :=
  walk n (vm_mem s) t virt = walk n (vm_mem s0) t0 virt /\ (clear_path n (vm_mem s0) t0 virt -> clear_path n (vm_mem s) t virt).

Lemma mirror_entry s0 T0 s T n t t0 v virt :
  pt_wf s0 T0 -> fresh_only s0 T0 s T -> T0 !! t0 = Some (n, v) ->
  rd (vm_mem s) (slot t (pt_idx n virt)) = rd (vm_mem s0) (slot t0 (pt_idx n virt)) -> mirrors n s t s0 t0 virt.
Proof.
  intros W Fo Ht E. destruct n as [|n]; [done|]. assert (Hold : forall q x j, T0 !! q = Some x -> 0 <= j < 512 -> rd (vm_mem s) (slot q j) = rd (vm_mem s0) (slot q j)) by (intros q x j; by eapply fresh_only_old).
  destruct n as [|n]; [split; [|done]; cbn [walk]; by rewrite E|]. unfold mirrors. rewrite !clear_step. cbn [walk]. rewrite E.
  destruct (has _ VMM_PRESENT) eqn:Hp; cbn [negb]; [|done]. destruct (huge_leaf _ _) eqn:Hh; [split; [done|]; intros Hc; by destruct (Hc eq_refl)|].
  pose proof (wf_next _ _ W t0 (S n) v _ Ht ltac:(lia) (pt_idx_range _ _) Hp Hh) as Hx. split; [by apply (walk_same s0 T0 (vm_mem s) (S n) _ _ virt W Hx)|].
  intros Hc _. destruct (Hc eq_refl) as [_ Hc']. split; [done|]. refine (clear_grow s0 T0 (vm_mem s) (S n) _ _ virt W Hx _ Hc'). intros q k w j Hq Hj. left. by eapply Hold.
Qed.

Lemma mirror_link n s t s0 t0 q q0 virt :
  link (S (S n)) (vm_mem s) t (pt_idx (S (S n)) virt) q -> link (S (S n)) (vm_mem s0) t0 (pt_idx (S (S n)) virt) q0 -> mirrors (S n) s q s0 q0 virt -> mirrors (S (S n)) s t s0 t0 virt.
Proof.
  intros L L0 [M1 M2]. split; [by rewrite (walk_link n _ t q), (walk_link n _ t0 q0)|]. intros Hc. apply (clear_link n _ t0 q0) in Hc; [|done]. rewrite clear_step. destruct L as (_ & Hh & Hq). rewrite Hq. auto.
Qed.

(** No 1 GiB page in the first 2 GiB of the kernel's address space. *)
Definition low_tables s : Prop :=
  forall kpdpt i, link 4 (vm_mem s) (kernel_pml4 s) 0 kpdpt -> i = 0 \/ i = 1 ->
    has (rd (vm_mem s) (slot kpdpt i)) VMM_PRESENT = true -> has (rd (vm_mem s) (slot kpdpt i)) VMM_HUGE = false.

(** The new root, before its entry 0 is set. *)
Lemma isolated_root s T k :
  pt_wf s T -> T !! kernel_pml4 s = Some (4%nat, 0) -> supplies (S k) (vm_frames s) ->
  exists p s1, frame ZONE_GREEN s = (Some p, s1) /\ kernel_pml4 s1 = kernel_pml4 s /\ p mod 4096 = 0 /\ T !! p = None /\ ~ fs_taken (vm_frames s) p /\ supplies k (vm_frames s1) /\
    let s2 := with_mem s1 (copy_entries p (kernel_pml4 s) 256 256 (zero_page p (vm_mem s1))) in
    fresh_only s T s2 (<[p := (4%nat, 0)]> T) /\ (forall j, 0 <= j < 256 -> rd (vm_mem s2) (slot p j) = 0) /\
    (forall j, 256 <= j < 512 -> rd (vm_mem s2) (slot p j) = rd (vm_mem s) (slot (kernel_pml4 s) j)).
Proof.
  intros W Hk Hs. set (kp := kernel_pml4 s) in *. destruct (wf_page _ _ W _ _ _ Hk) as (Hka & _). set (g := fun p m => copy_entries p kp 256 256 (zero_page p m)).
  assert (Hg : forall p, p mod 4096 = 0 -> T !! p = None -> (forall a, off_page p a -> rd (g p (vm_mem s)) a = rd (vm_mem s) a) /\
    (forall j, 0 <= j < 256 -> rd (g p (vm_mem s)) (slot p j) = 0) /\ (forall j, 256 <= j < 512 -> rd (g p (vm_mem s)) (slot p j) = rd (vm_mem s) (slot kp j))).
  { intros p Ha HT. destruct (copy_entries_spec p kp 256 256 (zero_page p (vm_mem s))) as [C1 C2]; [intros j l Hj Hl E; apply slot_inj in E as [E _]; [congruence|done|done|lia..]|]. unfold g. split_and!.
    - intros a Hoff. rewrite C2 by (intros j Hj; apply Hoff; lia). by apply zero_page_out.
    - intros j Hj. rewrite C2 by (intros l Hl E; unfold slot in E; lia). apply zero_page_in. lia.
    - intros j Hj. rewrite C1 by lia. apply zero_page_out, off_page_slot; [done|done|lia|congruence]. }
  destruct (frame_add s T s T ZONE_GREEN k 4 0 g ltac:(done) (fresh_only_refl s T W) Hs ltac:(lia)) as (p & s1 & Hf & Em & Ek & Ha & HT & Hfr & Hs1 & Fo).
  { intros p a Ha HT. by apply Hg. }
  { intros p n' i Ha HT [= <-] _ Hi e. destruct (Hg p Ha HT) as (_ & G1 & G2). subst e. destruct (decide (i < 256)); [rewrite G1 by lia; done|]. rewrite G2 by lia. intros Hp Hh. apply (wf_next _ _ W kp 3); (done || lia). }
  exists p, s1. destruct (Hg p Ha HT) as (_ & G1 & G2). rewrite Em. do 6 (split; [done|]). split; [exact Fo|]. split; [exact G1|exact G2].
Qed.

(** The private table below entry 0, and its directories. *)
Lemma isolated_low release s0 T0 s T root kpdpt k :
  pt_wf s0 T0 -> fresh_only s0 T0 s T -> T0 !! kpdpt = Some (3%nat, 0) -> T !! root = Some (4%nat, 0) ->
  (forall i, i = 0 \/ i = 1 -> has (rd (vm_mem s0) (slot kpdpt i)) VMM_PRESENT = true -> has (rd (vm_mem s0) (slot kpdpt i)) VMM_HUGE = false) -> supplies (3 + k) (vm_frames s) ->
  exists pdpt s1, frame ZONE_GREEN s = (Some pdpt, s1) /\ pdpt mod 4096 = 0 /\ 0 < pdpt < 2 ^ 52 /\
  exists s' T', (_ <-- private_pd release kpdpt pdpt 0 [pdpt; root] ;; private_pd release kpdpt pdpt 1 [pdpt; root])
      (with_mem s1 (copy_entries pdpt kpdpt 0 512 (vm_mem s1))) = (Some tt, s') /\
    fresh_only s0 T0 s' T' /\ T ⊆ T' /\ T' !! pdpt = Some (3%nat, 0) /\ pdpt <> root /\ supplies k (vm_frames s') /\
    (forall q x j, T !! q = Some x -> 0 <= j < 512 -> rd (vm_mem s') (slot q j) = rd (vm_mem s) (slot q j)) /\
    (forall i, i = 0 \/ i = 1 -> pd_copy s0 kpdpt s' T' pdpt i) /\ (forall i, 2 <= i < 512 -> rd (vm_mem s') (slot pdpt i) = rd (vm_mem s0) (slot kpdpt i)).
Proof.
  intros W0 Fo Hk Hr Hlow Hs. pose proof (fo_wf _ _ _ _ Fo) as W. pose proof (lookup_weaken _ _ _ _ Hk (fo_sub _ _ _ _ Fo)) as Hk'. destruct (wf_page _ _ W _ _ _ Hk') as (Hka & _).
  assert (Hcp : forall p, p mod 4096 = 0 -> T !! p = None -> (forall j, 0 <= j < 512 -> rd (copy_entries p kpdpt 0 512 (vm_mem s)) (slot p j) = rd (vm_mem s) (slot kpdpt j)) /\
    (forall a, off_page p a -> rd (copy_entries p kpdpt 0 512 (vm_mem s)) a = rd (vm_mem s) a)).
  { intros p Ha HT. apply (copy_entries_spec p kpdpt 0 512). intros j l Hj Hl E. apply slot_inj in E as [-> _]; [congruence|done..]. }
  destruct (frame_add s0 T0 s T ZONE_GREEN (2 + k) 3 0 (fun p => copy_entries p kpdpt 0 512) ltac:(done) Fo Hs ltac:(lia)) as (pdpt & s1 & Hf & Em & _ & Ha & HT & Hfr & Hs1 & Fo1).
  { intros p a Hpa HTp. by apply Hcp. }
  { intros p n' j Hpa HTp [= <-] _ Hj. cbn zeta. rewrite (proj1 (Hcp p Hpa HTp)) by done. intros Pe He. apply (wf_next _ _ W kpdpt 2 0 j); (done || lia). }
  destruct (Hcp pdpt Ha HT) as [Hin Hout]. assert (Em2 : copy_entries pdpt kpdpt 0 512 (vm_mem s) = copy_entries pdpt kpdpt 0 512 (vm_mem s1)) by (by rewrite Em).
  rewrite Em2 in Hin, Hout, Fo1. clear Em2.
  pose proof (fo_wf _ _ _ _ Fo1) as W1. pose proof (lookup_insert_eq T pdpt (3%nat, 0)) as Hp1. destruct (wf_page _ _ W1 _ _ _ Hp1) as (_ & Hpr & _).
  exists pdpt, s1. do 3 (split; [done|]). set (m := copy_entries pdpt kpdpt 0 512 (vm_mem s1)) in *. clearbody m. clear Hcp.
  assert (Hpf : ~ fs_taken (vm_frames s0) pdpt) by (intros H; by apply Hfr, (fo_taken _ _ _ _ Fo)). assert (Hne : pdpt <> root) by congruence.
  assert (Hent : forall j, 0 <= j < 512 -> rd m (slot pdpt j) = rd (vm_mem s0) (slot kpdpt j)) by (intros j Hj; rewrite Hin by done; by apply (fresh_only_old s0 T0 s T kpdpt (3%nat, 0))).
  assert (Hold : forall q x j, T !! q = Some x -> 0 <= j < 512 -> rd m (slot q j) = rd (vm_mem s) (slot q j)) by (intros q [n w] j Hq Hj; destruct (wf_page _ _ W _ _ _ Hq) as (Hqa & _); apply Hout, off_page_slot; [done..|congruence]).
  unfold mbind.
  destruct (private_pd_spec release s0 T0 _ _ kpdpt pdpt 0 [pdpt; root] (1 + k) W0 Fo1 Hk Hp1 Hpf ltac:(lia) (Hlow 0 ltac:(lia)) (Hent 0 ltac:(lia)) Hs1) as (s2 & T2 & -> & Fo2 & Hs12 & Hs2 & Hw2 & C0).
  pose proof (lookup_weaken _ _ _ _ Hp1 Hs12) as Hp2. cbn [with_mem vm_mem] in Hw2.
  assert (Hp2w : forall i, 1 <= i < 512 -> rd (vm_mem s2) (slot pdpt i) = rd (vm_mem s0) (slot kpdpt i)) by (intros i Hi; rewrite (Hw2 pdpt _ i Hp1) by (unfold slot; lia); apply Hent; lia).
  destruct (private_pd_spec release s0 T0 s2 T2 kpdpt pdpt 1 [pdpt; root] k W0 Fo2 Hk Hp2 Hpf ltac:(lia) (Hlow 1 ltac:(lia)) (Hp2w 1 ltac:(lia)) Hs2) as (s3 & T3 & -> & Fo3 & Hs23 & Hs3 & Hw3 & C1).
  assert (HT12 : T ⊆ <[pdpt := (3%nat, 0)]> T) by (by apply insert_subseteq). exists s3, T3. split; [done|]. split; [done|]. split; [by etrans; [|etrans]|].
  split; [by eapply lookup_weaken|]. split; [done|]. split; [done|]. split_and!.
  - intros q x j Hq Hj. pose proof (lookup_weaken _ _ _ _ Hq HT12) as Hq1. pose proof (lookup_weaken _ _ _ _ Hq1 Hs12) as Hq2. destruct x as [n w]. destruct (wf_page _ _ W _ _ _ Hq) as (Hqa & _).
    assert (forall l, 0 <= l < 512 -> slot q j <> slot pdpt l) by (intros l Hl E; apply slot_inj in E as [-> _]; [congruence|done..]).
    rewrite (Hw3 q _ j Hq2), (Hw2 q _ j Hq1) by (done || auto with lia). by eapply Hold.
  - intros i [-> | ->]; [|done]. eapply (pd_copy_keep s0 kpdpt s2 T2 s3 T3 pdpt 0 pdpt 3 1 C0 (fo_wf _ _ _ _ Fo2) Hs23 Hp2); (done || lia || congruence).
  - intros i Hi. rewrite (Hw3 pdpt _ i Hp2) by (unfold slot; lia). apply Hp2w. lia.
Qed.

(** Below the private table every address is translated as by the kernel. *)
Lemma low_mirrors s0 T0 s T kpdpt pdpt virt :
  pt_wf s0 T0 -> fresh_only s0 T0 s T -> T0 !! kpdpt = Some (3%nat, 0) ->
  (forall i, i = 0 \/ i = 1 -> has (rd (vm_mem s0) (slot kpdpt i)) VMM_PRESENT = true -> has (rd (vm_mem s0) (slot kpdpt i)) VMM_HUGE = false) ->
  (forall i, i = 0 \/ i = 1 -> pd_copy s0 kpdpt s T pdpt i) -> (forall i, 2 <= i < 512 -> rd (vm_mem s) (slot pdpt i) = rd (vm_mem s0) (slot kpdpt i)) -> mirrors 3 s pdpt s0 kpdpt virt.
Proof.
  intros W0 Fo Hk Hlow Hc Hrest. pose proof (pt_idx_range 3 virt) as Hi. destruct (decide (2 <= pt_idx 3 virt)); [apply (mirror_entry s0 T0 s T 3 pdpt kpdpt 0 virt W0 Fo Hk), Hrest; lia|].
  assert (Hi' : pt_idx 3 virt = 0 \/ pt_idx 3 virt = 1) by lia. destruct (Hc _ Hi') as [C1 C2]. specialize (Hlow _ Hi'). destruct (has _ VMM_PRESENT) eqn:Hp; [|by apply (mirror_entry s0 T0 s T 3 pdpt kpdpt 0 virt W0 Fo Hk), C1].
  destruct (C2 eq_refl) as (pd & L & _ & Hw). assert (Hh : huge_leaf 3 (rd (vm_mem s0) (slot kpdpt (pt_idx 3 virt))) = false) by exact (Hlow eq_refl).
  eapply (mirror_link 1); [exact L|by split_and!|]. eapply (mirror_entry s0 T0 s T 2); [done|done|apply (wf_next _ _ W0 kpdpt 2 0 _ Hk ltac:(lia) Hi Hp Hh)|]. apply Hw, pt_idx_range.
Qed.

(** [make_isolated_pml4] when there are frames. *)
Lemma make_isolated_spec release s T k :
  pt_wf s T -> T !! kernel_pml4 s = Some (4%nat, 0) -> low_tables s -> supplies (4 + k) (vm_frames s) ->
  exists root s' T', make_isolated_pml4 release s = (Some root, s') /\ fresh_only s T s' T' /\ T' !! root = Some (4%nat, 0) /\ ~ fs_taken (vm_frames s) root /\ supplies k (vm_frames s') /\
  forall virt, let i := pt_idx 4 virt in
    (i = 0 \/ 256 <= i -> mirrors 4 s' root s (kernel_pml4 s) virt) /\ (1 <= i < 256 -> rd (vm_mem s') (slot root i) = 0).
Proof.
  intros W Hk Hlow Hs. destruct (isolated_root s T (3 + k) W Hk Hs) as (root & s1 & Hf & Ek & Ha & HT & Hfr & Hs1 & Fo1 & Z1 & U1). unfold make_isolated_pml4, mbind. rewrite Hf. unfold mem_op. cbn [fst snd].
  unfold vmm_get_kernel_pml4. cbn [with_mem vm_mem kernel_pml4]. rewrite Ek. set (kp := kernel_pml4 s) in *.
  set (m2 := copy_entries root kp 256 256 (zero_page root (vm_mem s1))) in *. change (with_mem (with_mem s1 _) m2) with (with_mem s1 m2). set (s2 := with_mem s1 m2) in *. change m2 with (vm_mem s2).
  rewrite (fresh_only_old s T s2 _ kp (4%nat, 0) 0 W Fo1 Hk) by lia. set (e := rd (vm_mem s) (slot kp 0)) in *. change (has e 1) with (has e VMM_PRESENT).
  pose proof (lookup_insert_eq T root (4%nat, 0)) as Hr. destruct (wf_page _ _ (fo_wf _ _ _ _ Fo1) _ _ _ Hr) as (_ & Hrr & _).
  destruct (has e VMM_PRESENT) eqn:Hp; cbn [negb].
  2: { replace (3 + k)%nat with (k + 3)%nat in Hs1 by lia. apply supplies_weaken in Hs1. exists root, s2, (<[root := (4%nat, 0)]> T). do 5 (split; [done|]). intros virt. set (i := pt_idx 4 virt). pose proof (pt_idx_range 4 virt). split; [|intros; by apply Z1; lia].
       intros [Hi|Hi]; [|apply (mirror_entry s T s2 _ 4 root kp 0 virt W Fo1 Hk), U1; lia]. unfold mirrors. rewrite !clear_step. fold i. rewrite Hi. cbn [walk]. fold i. rewrite Hi, Z1 by lia. fold e. by rewrite Hp. }
  set (kpdpt := Z.land e VMM_ADDR_MASK) in *. assert (Hkp : T !! kpdpt = Some (3%nat, 0)) by (apply (wf_next _ _ W kp 3 0 0 Hk); (done || lia)).
  assert (Lk : link 4 (vm_mem s) kp 0 kpdpt) by done. assert (Hl : forall i, i = 0 \/ i = 1 -> has (rd (vm_mem s) (slot kpdpt i)) VMM_PRESENT = true -> has (rd (vm_mem s) (slot kpdpt i)) VMM_HUGE = false) by (intros i Hi; by apply Hlow).
  destruct (isolated_low release s T s2 _ root kpdpt k W Fo1 Hkp Hr Hl Hs1) as (pdpt & s3 & -> & Hpa & Hpr & s4 & T4 & Hrun & Fo4 & Hsub & Hp4 & Hne & Hs4 & Hw & Hc & Hrest).
  unfold mbind in Hrun. destruct (private_pd release kpdpt pdpt 0 [pdpt; root] _) as [[[]|] s5]; [|done]. rewrite Hrun. cbn [fst snd].
  rewrite (fresh_only_old s T s4 T4 kp (4%nat, 0) 0 W Fo4 Hk) by lia. fold e. destruct (pd_entry_spec pdpt e Hpa ltac:(lia)) as (Q1 & Q2 & Q3). set (ne := Z.lor pdpt (Z.land e 0xFFF)) in *.
  pose proof (lookup_weaken _ _ _ _ Hr Hsub) as Hr4. assert (Fo5 : fresh_only s T (with_mem s4 (<[slot root 0 := ne]> (vm_mem s4))) T4) by (apply (fresh_store s T s4 T4 root 3 0 0 ne Fo4 Hr4 Hfr); [lia|]; by rewrite Q3).
  exists root, (with_mem s4 (<[slot root 0 := ne]> (vm_mem s4))), T4. do 5 (split; [done|]).
  assert (Hoff : forall q n w j, T4 !! q = Some (n, w) -> 0 <= j < 512 -> q <> root \/ j <> 0 -> rd (<[slot root 0 := ne]> (vm_mem s4)) (slot q j) = rd (vm_mem s4) (slot q j)).
  { intros q n w j Hq Hj Hqr. destruct (wf_page _ _ (fo_wf _ _ _ _ Fo4) _ _ _ Hq) as (Hqa & _). rewrite rd_insert, decide_False; [done|]. intros E. apply slot_inj in E as [E1 E2]; [|done|done|lia|done]. destruct Hqr; congruence. }
  intros virt. pose proof (pt_idx_range 4 virt) as Hi4. set (i := pt_idx 4 virt) in *. split; [|intros Hi; cbn [with_mem vm_mem]; rewrite (Hoff root _ _ i Hr4) by lia; rewrite (Hw root _ i Hr) by lia; apply Z1; lia].
  intros [Hi|Hi].
  - apply (mirror_link 2 _ root s kp pdpt kpdpt); [fold i; rewrite Hi; unfold link; cbn [with_mem vm_mem]; rewrite rd_insert, decide_True by done; unfold huge_leaf; by rewrite Q1, Q3|fold i; rewrite Hi; exact Lk|].
    apply (low_mirrors s T _ T4); try done.
    + intros j Hj. eapply (pd_copy_keep s kpdpt s4 T4 _ T4 pdpt j root 4 0 (Hc j Hj) (fo_wf _ _ _ _ Fo4)); try (done || lia || congruence). intros q [n w] l Hq Hl' Hne'. eapply Hoff; [done|done|]. destruct (decide (q = root)) as [->|]; [right; congruence|by left].
    + intros j Hj. cbn [with_mem vm_mem]. rewrite (Hoff pdpt _ _ j Hp4) by (lia || by left). by apply Hrest.
  - apply (mirror_entry s T _ T4 4 root kp 0 virt W Fo5 Hk). fold i. cbn [with_mem vm_mem]. rewrite (Hoff root _ _ i Hr4) by lia. rewrite (Hw root _ i Hr) by lia. apply U1. lia.
Qed.

End Map.
