(* ===== verification/ElfLoad.v ===== *)
(** * ELF loader: what a loaded program finds in memory

    The abstract loader works on a flat user memory, a partial map from addresses to
    bytes: segments, zero-filled tails, relocations, stack and arguments.  [elf_load],
    on page tables and physical bytes, refines it. *)

From S2P Require Import Prelude Pmm Vmm Elf ElfMap.

(** ** Bytes of physical memory *)

Lemma load8_store8 p q b m : byte b -> load8 q (store8 p b m) = if decide (q = p) then b else load8 q m.
Proof.
  intros Hb. unfold load8, store8. rewrite rd_insert. pose proof (Z.mod_pos_bound p 8 ltac:(lia)). pose proof (Z.mod_pos_bound q 8 ltac:(lia)). case_decide as E; [|by case_decide; [congruence|]].
  set (l := le_bytes 8 (rd m (p - p mod 8))). assert (Hl : zlen l = 8) by apply zlen_le_bytes.
  assert (Hf : Forall byte l.[p mod 8 <- b]) by (apply Forall_insert; [apply le_bytes_byte|done]). apply le_bytes_val in Hf. rewrite zset_length in Hf.
  replace (length l) with 8%nat in Hf by (unfold l; by rewrite length_le_bytes). rewrite Hf. case_decide as E'; [subst q; apply zget_zset_eq; lia|].
  rewrite zget_zset_ne by (try lia; intros Hm; apply E'; lia). unfold l. by rewrite E.
Qed.

(** Word address of byte [o] of a page. *)
Lemma page_word d o : d mod 4096 = 0 -> 0 <= o < 4096 -> d + o - (d + o) mod 8 = slot d (o / 8) /\ 0 <= o / 8 < 512.
Proof. unfold slot. intros. Z.div_mod_to_equations. lia. Qed.

Lemma load8_page d o m m' :
  d mod 4096 = 0 -> 0 <= o < 4096 -> (forall j, 0 <= j < 512 -> rd m' (slot d j) = rd m (slot d j)) -> load8 (d + o) m' = load8 (d + o) m.
Proof. intros Hd Ho Hw. unfold load8. destruct (page_word d o Hd Ho) as [-> Hj]. by rewrite Hw. Qed.

Lemma store8_out d o b m a : d mod 4096 = 0 -> 0 <= o < 4096 -> off_page d a -> rd (store8 (d + o) b m) a = rd m a.
Proof. intros Hd Ho Ha. unfold store8. destruct (page_word d o Hd Ho) as [-> Hj]. rewrite rd_insert, decide_False; [done|]. intros <-. by apply (Ha (o / 8)). Qed.

Lemma store_bytes_out d o l m a : d mod 4096 = 0 -> 0 <= o -> o + zlen l <= 4096 -> off_page d a -> rd (store_bytes (d + o) l m) a = rd m a.
Proof.
  intros Hd. revert o m. induction l as [|b l IH]; intros o m Ho Hl Ha; [done|]. cbn [store_bytes]. rewrite <- Z.add_assoc. unfold zlen in *. cbn [length] in Hl.
  rewrite IH by (done || lia). apply store8_out; (done || lia).
Qed.

Lemma zget_cons (x : Z) l i : 0 < i -> (x :: l).[i] = l.[i - 1].
Proof. intros Hi. unfold zget. by replace (Z.to_nat i) with (S (Z.to_nat (i - 1))) by lia. Qed.

Lemma load8_store_bytes p l q m : Forall byte l -> load8 q (store_bytes p l m) = if decide (p <= q < p + zlen l) then l.[q - p] else load8 q m.
Proof.
  revert p m. induction l as [|b l IH]; intros p m Hl; cbn [store_bytes]; unfold zlen in *; cbn [length]; [case_decide; [lia|done]|]. apply Forall_cons in Hl as [Hb Hl]. rewrite IH by done.
  rewrite load8_store8 by done. destruct (decide (q = p)) as [->|Hne].
  - rewrite decide_False, decide_True by lia. by rewrite Z.sub_diag.
  - case_decide; [rewrite decide_True by lia|by rewrite decide_False by lia]. rewrite zget_cons by lia. f_equal. lia.
Qed.

Lemma load8_zero d o m : d mod 4096 = 0 -> 0 <= o < 4096 -> load8 (d + o) (zero_page d m) = 0.
Proof.
  intros Hd Ho. unfold load8. destruct (page_word d o Hd Ho) as [-> Hj]. rewrite zero_page_in by done. pose proof (Z.mod_pos_bound (d + o) 8 ltac:(lia)) as Hm. set (r := (d + o) mod 8) in *. clearbody r.
  assert (r = 0 \/ r = 1 \/ r = 2 \/ r = 3 \/ r = 4 \/ r = 5 \/ r = 6 \/ r = 7) as Hr by lia. by repeat destruct Hr as [->|Hr]; [..|subst r].
Qed.

Lemma load8_byte p m : byte (load8 p m).
Proof. unfold load8. apply byte_zget; [apply le_bytes_byte|]. rewrite zlen_le_bytes. pose proof (Z.mod_pos_bound p 8 ltac:(lia)). lia. Qed.

(** ** User memory *)

(** Addresses a program may use. *)
Definition USER_LIMIT : Z := 2 ^ 47.

Lemma vpage_user v : 0 <= v < USER_LIMIT -> vpage v = v / 4096.
Proof. unfold USER_LIMIT. intros Hv. unfold vpage, pt_pfx. change (2 ^ (12 + 9 * Z.of_nat 0)) with 4096. change (2 ^ (36 - 9 * Z.of_nat 0)) with (2 ^ 36). apply Z.mod_small. Z.div_mod_to_equations. lia. Qed.

Lemma phys_add d v : d mod 4096 = 0 -> 0 < d < 2 ^ 52 -> Z.lor (Z.land d VMM_ADDR_MASK) (Z.land v 0xFFF) = d + v mod 4096.
Proof.
  intros Hd Hr. rewrite land_mask_id by (done || lia). rewrite (land_low 12) by lia. change (2 ^ 12) with 4096.
  pose proof (Z.mod_pos_bound v 4096 ltac:(lia)). rewrite Z.lor_comm. replace d with (d / 4096 * 2 ^ 12) at 1 by (change (2 ^ 12) with 4096; Z.div_mod_to_equations; lia).
  rewrite lor_add_disjoint by lia. Z.div_mod_to_equations. lia.
Qed.

(** [f] on [lo, lo + n), [U] elsewhere. *)
Definition overlay (lo n : Z) (f : Z -> Z) (U : Z -> option Z) : Z -> option Z :=
  fun x => if (lo <=? x) && (x <? lo + n) then Some (f (x - lo)) else U x.

Definition page_byte (bytes : list Z) (o : Z) : Z := if o <? zlen bytes then bytes.[o] else 0.

(** ** The abstract loader *)

Section Spec.
Context (data : list Z) (avail : Z -> bool).

Definition segment_byte (ph : elf64_phdr) (o : Z) : Z := if o <? p_filesz ph then data.[p_offset ph + o] else 0.

(** [n] free pages at [lo] that may be used. *)
Definition room (U : Z -> option Z) (lo n : Z) : bool :=
  (0 <=? lo) && (lo mod 4096 =? 0) && (lo + n * 4096 <=? USER_LIMIT) &&
  forallb (fun i => avail (lo + i * 4096) && bool_decide (U (lo + i * 4096) = None)) (seqZ 0 n).

Definition phdrs (h : elf64_hdr) : list elf64_phdr := (fun i => phdr_at data (phdr_off h i)) <$> seqZ 0 (e_phnum h).
Definition headers_ok (h : elf64_hdr) : bool :=
  forallb (fun i => negb (phdr_outside data h (phdr_off h i)) && (phdr_off h i + SIZEOF_PHDR <=? zlen data)) (seqZ 0 (e_phnum h)).

(** Memory after the segments, and the number of their pages. *)
Fixpoint spec_segments (base : Z) (phs : list elf64_phdr) (U : Z -> option Z) (pages : Z) : option ((Z -> option Z) * Z) :=
  match phs with
  | [] => Some (U, pages)
  | ph :: phs' =>
      if negb (p_type ph =? PT_LOAD) || (p_memsz ph =? 0) then spec_segments base phs' U pages else
      let lo := u64 (p_vaddr ph + base) in
      let n := (p_memsz ph + 4095) / 4096 in
      if (p_filesz ph <=? p_memsz ph) && (p_memsz ph <=? USER_LIMIT) && (p_offset ph + p_filesz ph <=? zlen data) && room U lo n
      then spec_segments base phs' (overlay lo (n * 4096) (segment_byte ph) U) (pages + n)
      else None
  end.

(** The last dynamic segment. *)
Definition dynamic (phs : list elf64_phdr) : dyn_info :=
  foldl (fun d ph => if p_type ph =? PT_DYNAMIC then mk_di true (p_offset ph) (p_filesz ph) else d) (mk_di false 0 0) phs.

(** Bytes written at [v] on, where memory is mapped. *)
Fixpoint puts (v : Z) (l : list Z) (U : Z -> option Z) : option (Z -> option Z) :=
  match l with
  | [] => Some U
  | b :: l' =>
      if (0 <=? v) && (v <? USER_LIMIT) && negb (bool_decide (U v = None))
      then puts (v + 1) l' (fun w => if decide (w = v) then Some b else U w) else None
  end.

(** The relocation table the dynamic entries [ds] describe, up to the first null tag. *)
Fixpoint rela_table (ds : list elf64_dyn) (r : rela_info) : rela_info :=
  match ds with
  | [] => r
  | d :: ds' =>
      if d_tag d =? DT_NULL then r else
      rela_table ds' (mk_ri (if d_tag d =? DT_RELA then d_val d else ri_vaddr r) (if d_tag d =? DT_RELASZ then d_val d else ri_size r)
                            (if (d_tag d =? DT_RELAENT) && negb (d_val d =? 0) then d_val d else ri_entsize r))
  end.

(** The file offset of the first segment that holds [v]. *)
Definition in_segment (v : Z) (ph : elf64_phdr) : bool := (p_type ph =? PT_LOAD) && (p_vaddr ph <=? v) && (v <? u64 (p_vaddr ph + p_filesz ph)).
Fixpoint file_offset (phs : list elf64_phdr) (v : Z) : option Z :=
  match phs with
  | [] => None
  | ph :: phs' => if in_segment v ph then Some (u64 (p_offset ph + (v - p_vaddr ph))) else file_offset phs' v
  end.

Fixpoint spec_relocate (rs : list elf64_rela) (base : Z) (U : Z -> option Z) : option (Z -> option Z) :=
  match rs with
  | [] => Some U
  | r :: rs' =>
      if ELF64_R_TYPE (r_info r) =? R_X86_64_RELATIVE then
        match puts (u64 (r_offset r + base)) (le_bytes 8 (u64 (base + r_addend r))) U with Some U' => spec_relocate rs' base U' | None => None end
      else spec_relocate rs' base U
  end.

(** Tables of [n] entries of [size] bytes, [step] apart, all inside the image. *)
Definition offsets (off step n : Z) : list Z := (fun i => off + i * step) <$> seqZ 0 n.
Definition inside (off size : Z) : bool := (0 <=? off) && (off + size <=? zlen data).

Definition spec_relocations (phs : list elf64_phdr) (d : dyn_info) (base : Z) (U : Z -> option Z) : option (Z -> option Z) :=
  let dyns := offsets (di_off d) SIZEOF_DYN (di_filesz d / SIZEOF_DYN) in
  if negb (forallb (fun o => inside o SIZEOF_DYN) dyns) then None else
  let r := rela_table (dyn_at data <$> dyns) (mk_ri 0 0 SIZEOF_RELA) in
  if ri_size r =? 0 then Some U else
  match file_offset phs (ri_vaddr r) with
  | None => None
  | Some off =>
      let relas := offsets off (ri_entsize r) (ri_size r / ri_entsize r) in
      if inside off 0 && forallb (fun o => inside o SIZEOF_RELA) relas then spec_relocate (rela_at data <$> relas) base U else None
  end.

(** A 64-bit little-endian x86-64 executable, fixed or position independent, with
    at least one program header. *)
Definition header_ok : bool :=
  (64 <=? zlen data) && (le_at 4 data 0 =? 0x464C457F) && (le_at 2 data 4 =? 0x0102) && ((le_at 2 data 16 =? 2) || (le_at 2 data 16 =? 3)) &&
  (le_at 2 data 18 =? 62) && (0 <? le_at 2 data 56).

(** Memory, entry point, stack pointer and number of segment pages. *)
Definition spec_load (rnd1 rnd2 : Z) (argv envp : list (list Z)) : option ((Z -> option Z) * Z * Z * Z) :=
  let h := ehdr_at data in
  let phs := phdrs h in
  let base := if e_type h =? ELF_TYPE_DYN then u64 (Z.land (Z.land rnd1 ASLR_MASK) (not64 0x1FFFFF) + ASLR_MIN_BASE) else 0 in
  let stack_top := USER_STACK_TOP - Z.land rnd2 STACK_ASLR_MASK in
  let stack_base := stack_top - USER_STACK_PAGES * PAGE_SIZE in
  if negb (header_ok && headers_ok h) then None else
  match spec_segments base phs (fun _ => None) 0 with
  | None => None
  | Some (U, pages) =>
      match (if (e_type h =? ELF_TYPE_DYN) && di_have (dynamic phs) then spec_relocations phs (dynamic phs) base U else Some U) with
      | None => None
      | Some U =>
          if negb (room U stack_base USER_STACK_PAGES) then None else
          match stack_image stack_top argv envp with
          | None => None
          | Some (sp, cursor, buf, words) =>
              match puts cursor buf (overlay stack_base (USER_STACK_PAGES * 4096) (fun _ => 0) U) with
              | None => None
              | Some U => match puts sp words U with None => None | Some U => Some (U, u64 (e_entry h + base), sp, pages) end
              end
          end
      end
  end.

End Spec.

Section Space.
Context {F : Type} {FS : FrameSource F}.
Implicit Types (s : vmm F) (T : gmap Z (nat * Z)) (P : gmap Z Z) (U : Z -> option Z) (C : Z -> Prop).

(** The address spaces before the program was loaded. *)
Context (s0 : vmm F) (T0 : gmap Z (nat * Z)).

(** The pages [P] of the address space [root], from virtual page number to frame, hold
    [U]; [k] frames are left, no large page lies on a path of [C], and the other address
    spaces are as before outside these pages. *)
Record space (k : nat) s root C U T P : Prop := {
  sp_sub : T0 ⊆ T;
  sp_other root' v : T0 !! root' = Some (4%nat, 0) -> P !! vpage v = None -> vmm_get_phys_into root' v s = vmm_get_phys_into root' v s0;
  sp_wf : pt_wf s T;
  sp_root : T !! root = Some (4%nat, 0);
  sp_frames : supplies k (vm_frames s);
  sp_clear v : C v -> clear_path 4 (vm_mem s) root v;
  sp_user n d : P !! n = Some d -> 0 <= n < 2 ^ 35;
  sp_page n d : P !! n = Some d -> d mod 4096 = 0 /\ 0 < d < 2 ^ 52 /\ fs_taken (vm_frames s) d /\ T !! d = None;
  sp_phys n d v : P !! n = Some d -> 0 <= v < USER_LIMIT -> v / 4096 = n -> vmm_get_phys_into root v s = d + v mod 4096;
  sp_inj n n' d : P !! n = Some d -> P !! n' = Some d -> n = n';
  sp_bytes v : 0 <= v < USER_LIMIT -> U v = (fun d => load8 (d + v mod 4096) (vm_mem s)) <$> P !! (v / 4096);
  sp_taken q : fs_taken (vm_frames s0) q -> fs_taken (vm_frames s) q;
  sp_data q : q mod 4096 = 0 -> fs_taken (vm_frames s0) q -> T0 !! q = None ->
    T !! q = None /\ forall j, 0 <= j < 512 -> rd (vm_mem s) (slot q j) = rd (vm_mem s0) (slot q j);
  sp_fresh n d : P !! n = Some d -> ~ fs_taken (vm_frames s0) d
}.

Definition proc_space (k : nat) s root C U : Prop := exists T P, space k s root C U T P.

Lemma proc_space_byte k s root C U v b : proc_space k s root C U -> 0 <= v < USER_LIMIT -> U v = Some b -> user_byte root v s = b.
Proof.
  intros (T & P & Sp) Hv HU. rewrite (sp_bytes _ _ _ _ _ _ _ Sp v Hv) in HU. destruct (P !! (v / 4096)) as [d|] eqn:E; [|done]. injection HU as <-. unfold user_byte. by rewrite (sp_phys _ _ _ _ _ _ _ Sp _ d v E).
Qed.

Lemma proc_space_ext k s root C U U' : (forall v, 0 <= v < USER_LIMIT -> U v = U' v) -> proc_space k s root C U -> proc_space k s root C U'.
Proof. intros HU (T & P & Sp). exists T, P. destruct Sp. constructor; try done. intros v Hv. rewrite <- HU by done. auto. Qed.

(** Tables whose words are kept translate as before. *)
Lemma tables_same s T s' :
  pt_wf s T -> fs_ok (vm_frames s') -> (forall q, fs_taken (vm_frames s) q -> fs_taken (vm_frames s') q) ->
  (forall q n w j, T !! q = Some (n, w) -> 0 <= j < 512 -> rd (vm_mem s') (slot q j) = rd (vm_mem s) (slot q j)) ->
  pt_wf s' T /\ forall root v, T !! root = Some (4%nat, 0) ->
    vmm_get_phys_into root v s' = vmm_get_phys_into root v s /\ (clear_path 4 (vm_mem s) root v -> clear_path 4 (vm_mem s') root v).
Proof.
  intros W Hok Hmono Hw. split.
  - destruct W as [W1 W2 W3]. constructor; [done| |].
    + intros q n w Hq. destruct (W2 _ _ _ Hq) as (? & ? & ? & ?). split_and!; try done; try lia. by apply Hmono.
    + intros q n w j Hq Hn Hj. rewrite (Hw q _ _ j Hq Hj). by apply W3.
  - intros root v Hr. destruct (wf_page _ _ W _ _ _ Hr) as (_ & ? & _). split.
    + rewrite !get_phys_walk by lia. eapply (walk_same s T); [done|done|]. intros q [n z] j. by eapply Hw.
    + apply (clear_grow s T (vm_mem s') 4 root 0 v W Hr). intros q n z j Hq Hj. left. by eapply Hw.
Qed.

(** A byte is written through the page tables. *)
Lemma process_store k s root C U v b x :
  proc_space k s root C U -> 0 <= v < USER_LIMIT -> U v = Some x -> byte b ->
  vmm_get_phys_into root v s <> 0 /\
  proc_space k (with_mem s (store8 (vmm_get_phys_into root v s) b (vm_mem s))) root C (fun w => if decide (w = v) then Some b else U w).
Proof.
  intros (T & P & Sp) Hv HU Hb. pose proof Sp as [Hsub Hoth W Hr Hs Hc Hus Hp Hph Hi HB Htk0 Hdat Hfre]. rewrite HB in HU by done. destruct (P !! (v / 4096)) as [d|] eqn:E; [|done]. destruct (Hp _ _ E) as (Ha & Hd & Ht & HT).
  pose proof (Z.mod_pos_bound v 4096 ltac:(lia)) as Hm. rewrite (Hph _ d v E Hv eq_refl). split; [lia|]. set (m' := store8 (d + v mod 4096) b (vm_mem s)).
  assert (Hw : forall q n w j, T !! q = Some (n, w) -> 0 <= j < 512 -> rd m' (slot q j) = rd (vm_mem s) (slot q j)).
  { intros q n w j Hq Hj. apply store8_out; [done|done|]. destruct (wf_page _ _ W _ _ _ Hq) as (Hqa & _). apply off_page_slot; [done..|congruence]. }
  destruct (tables_same s T (with_mem s m') W (wf_ok _ _ W) ltac:(done) Hw) as [W' Hsame].
  exists T, P. constructor; try done; cbn [with_mem vm_mem vm_frames].
  - intros r w Hr0 Hw'. rewrite (proj1 (Hsame r w (lookup_weaken _ _ _ _ Hr0 Hsub))). by apply Hoth.
  - intros w Hw'. by apply Hsame, Hc.
  - intros n d' w Hn Hw' E'. rewrite (proj1 (Hsame root w Hr)). by eapply Hph.
  - intros w Hw'. case_decide as Ew.
    + subst w. rewrite E. cbn [fmap option_fmap option_map]. f_equal. unfold m'. rewrite load8_store8 by done. by rewrite decide_True.
    + rewrite HB by done. destruct (P !! (w / 4096)) as [d'|] eqn:E'; [|done]. cbn [fmap option_fmap option_map]. f_equal. unfold m'. rewrite load8_store8 by done. rewrite decide_False; [done|].
      destruct (Hp _ _ E') as (Ha' & _). pose proof (Z.mod_pos_bound w 4096 ltac:(lia)). intros Eq. assert (d' = d) as -> by (Z.div_mod_to_equations; lia).
      pose proof (Hi _ _ _ E E'). Z.div_mod_to_equations; lia.
  - intros q Hq Hqt HqT. destruct (Hdat q Hq Hqt HqT) as [E1 E2]. split; [done|]. intros j Hj. rewrite <- E2 by done. apply store8_out; [done|done|].
    apply off_page_slot; [done..|]. intros ->. by apply (Hfre _ _ E).
Qed.

(** A new page at [v] with the given first bytes. *)
Lemma process_map k s root C U v bytes flags :
  proc_space (4 + k) s root C U -> 0 <= v -> v + 4096 <= USER_LIMIT -> v mod 4096 = 0 -> C v -> U v = None -> Z.land flags VMM_ADDR_MASK = 0 -> Forall byte bytes -> zlen bytes <= 4096 ->
  exists phys s1 s2, frame ZONE_RED s = (Some phys, s1) /\
    map_page root v phys flags (with_mem s1 (store_bytes phys bytes (zero_page phys (vm_mem s1)))) = (Some tt, s2) /\
    proc_space k s2 root C (overlay v 4096 (page_byte bytes) U).
Proof.
  intros (T & P & Sp) Hv0 Hv1 Hva HC HU Hf Hb Hl. pose proof Sp as [Hsub Hoth W Hr Hs Hc Hus Hp Hph Hi HB Htk0 Hdat Hfre].
  pose proof (fs_alloc_spec ZONE_RED (vm_frames s) (wf_ok _ _ W)) as Sf. destruct (Hs ZONE_RED ltac:(done)) as [H1 H2]. fold (supplies (F := F)) in H2. unfold frame, require.
  destruct (fs_alloc ZONE_RED (vm_frames s)) as [d f]. cbn [fst snd] in *. destruct Sf as (Hok & Hmono & Hnew). destruct (Hnew H1) as (Ha & Hd & Hfr & Htk). destruct (Z.eqb_spec d 0) as [|_]; [done|].
  exists d, (with_frames s f). cbn [with_frames with_mem vm_mem vm_frames kernel_pml4 cr3]. set (m1 := store_bytes d bytes (zero_page d (vm_mem s))).
  assert (Hout : forall a, off_page d a -> rd m1 a = rd (vm_mem s) a) by (intros a Hoff; unfold m1; replace d with (d + 0) at 1 by lia; rewrite store_bytes_out by (done || lia); by apply zero_page_out).
  assert (HT : T !! d = None) by (destruct (T !! d) as [[n w]|] eqn:E; [|done]; by destruct (wf_page _ _ W _ _ _ E) as (_ & _ & _ & ?)).
  assert (Hw : forall q n w j, T !! q = Some (n, w) -> 0 <= j < 512 -> rd m1 (slot q j) = rd (vm_mem s) (slot q j)).
  { intros q n w j Hq Hj. destruct (wf_page _ _ W _ _ _ Hq) as (Hqa & _). apply Hout, off_page_slot; [done..|congruence]. }
  set (s1 := with_mem (with_frames s f) m1). destruct (tables_same s T s1 W Hok Hmono Hw) as [W1 Hsame].
  assert (Hg : forall w, clear_path 4 (vm_mem s) root w -> clear_path 4 m1 root w) by (intros w; by apply Hsame).
  destruct (map_page_spec s1 T root d v flags W1 Hr (Hg v (Hc v HC)) Hf) as (T2 & K & M). pose proof (map_page_supplied root v d flags k s1 H2) as Hs2.
  destruct (map_page root v d flags s1) as [[[]|] s2]; cbn [fst snd] in *; [|destruct M as [M _]; exfalso; apply M; exact (supplies_weaken 3 k f H2)].
  destruct M as [Mh Mo]. exists s2. split; [done|]. split; [done|]. assert (HP : P !! (v / 4096) = None) by (rewrite HB in HU by lia; by destruct (P !! (v / 4096))).
  assert (Hkeep : forall q, q mod 4096 = 0 -> fs_taken f q -> T !! q = None -> T2 !! q = None /\ forall o, 0 <= o < 4096 -> load8 (q + o) (vm_mem s2) = load8 (q + o) m1).
  { intros q Hqa Hqt HqT. destruct (kept_data _ _ _ _ K q Hqa Hqt HqT) as [E1 E2]. split; [done|]. intros o Ho. by apply load8_page. }
  assert (Hold : forall q, q mod 4096 = 0 -> fs_taken (vm_frames s) q -> T !! q = None -> forall o, 0 <= o < 4096 -> load8 (q + o) (vm_mem s2) = load8 (q + o) (vm_mem s)).
  { intros q Hqa Hqt HqT o Ho. rewrite (proj2 (Hkeep q Hqa (Hmono _ Hqt) HqT)) by done. apply load8_page; [done|done|]. intros j Hj. apply Hout, off_page_slot; [done..|congruence]. }
  exists T2, (<[v / 4096 := d]> P). constructor.
  - etrans; [exact Hsub|apply K].
  - intros r w Hr0. rewrite lookup_insert. case_decide as En; [done|]. intros Hw'. pose proof (lookup_weaken _ _ _ _ Hr0 Hsub) as Hr1. rewrite Mo, (proj1 (Hsame r w Hr1)); [by apply Hoth|done|].
    rewrite (vpage_user v) by lia. congruence.
  - apply K.
  - exact (lookup_weaken _ _ _ _ Hr (kept_sub _ _ _ _ K)).
  - done.
  - intros w Hw'. apply (kept_clear _ _ _ _ K); [done|]. by apply Hg, Hc.
  - intros n' d'. rewrite lookup_insert. case_decide as En; [intros _|by apply Hus]. subst n'. unfold USER_LIMIT in *. Z.div_mod_to_equations; lia.
  - intros n' d'. rewrite lookup_insert. case_decide; [intros [= <-]; split; [done|]; split; [done|]; split; [by apply (kept_taken _ _ _ _ K)|by apply Hkeep]|].
    intros Hn. destruct (Hp _ _ Hn) as (? & ? & ? & ?). split; [done|]. split; [done|]. split; [apply (kept_taken _ _ _ _ K); by apply Hmono|]. apply Hkeep; [done|by apply Hmono|done].
  - intros n' d' w. rewrite lookup_insert. case_decide as En.
    + intros [= <-] Hw' Ew. rewrite Mh by (rewrite !vpage_user by lia; lia). by apply phys_add.
    + intros Hn Hw' Ew. rewrite Mo, (proj1 (Hsame root w Hr)); [by eapply Hph|done|]. rewrite !vpage_user by lia. lia.
  - intros n1 n2 d'. rewrite !lookup_insert. repeat case_decide; [congruence|intros [= <-] Hn; destruct (Hp _ _ Hn) as (_ & _ & ? & _); done|intros Hn [= <-]; destruct (Hp _ _ Hn) as (_ & _ & ? & _); done|by apply Hi].
  - intros w Hw'. unfold overlay. pose proof (Z.mod_pos_bound w 4096 ltac:(lia)) as Hm. rewrite lookup_insert. case_decide as En.
    + assert (Hin : v <= w < v + 4096) by (Z.div_mod_to_equations; lia). destruct (Z.leb_spec v w), (Z.ltb_spec w (v + 4096)); try lia. cbn [andb fmap option_fmap option_map]. f_equal.
      rewrite (proj2 (Hkeep d Ha Htk HT)) by done. replace (w mod 4096) with (w - v) by (Z.div_mod_to_equations; lia). unfold m1, page_byte. rewrite load8_store_bytes by done.
      destruct (Z.ltb_spec (w - v) (zlen bytes)); [rewrite decide_True by lia; f_equal; lia|]. rewrite decide_False by lia. symmetry. apply load8_zero; [done|lia].
    + assert (Hin : ~ (v <= w < v + 4096)) by (Z.div_mod_to_equations; lia). destruct (Z.leb_spec v w), (Z.ltb_spec w (v + 4096)); try lia; cbn [andb].
      all: rewrite HB by done; destruct (P !! (w / 4096)) as [d'|] eqn:E; [|done]; cbn [fmap option_fmap option_map]; f_equal; destruct (Hp _ _ E) as (? & ? & ? & ?); symmetry; by apply Hold.
  - intros q Hq. by apply (kept_taken _ _ _ _ K), Hmono, Htk0.
  - intros q Hq Hqt HqT. destruct (Hdat q Hq Hqt HqT) as [E1 E2]. destruct (kept_data _ _ _ _ K q Hq (Hmono _ (Htk0 _ Hqt)) E1) as [E3 E4]. split; [done|].
    intros j Hj. rewrite E4, <- E2 by done. apply Hout, off_page_slot; [done..|]. intros ->. by apply Hfr, Htk0.
  - intros n' d'. rewrite lookup_insert. case_decide; [intros [= <-] Hx; by apply Hfr, Htk0|by apply Hfre].
Qed.

End Space.

(** ** Refinement *)

Section Refine.
Context {F : Type} {FS : FrameSource F} (data : list Z) (avail : Z -> bool).
Context (Hdata : Forall byte data).
Context (s0 : vmm F) (T0 : gmap Z (nat * Z)).
Implicit Types (s : vmm F) (U : Z -> option Z) (C : Z -> Prop).
#[local] Abbreviation proc_space := (proc_space s0 T0).

Lemma ebind_done {A B} (m : E A) (k : A -> E B) s a s' : m s = (Done a, s') -> ebind m k s = k a s'.
Proof. intros H. unfold ebind. by rewrite H. Qed.

Lemma echeck_done {A} (m : M (vmm F) A) s a s' : m s = (Some a, s') -> echeck m s = (Done a, s').
Proof. intros H. unfold echeck. by rewrite H. Qed.

Lemma seg_flags_low ph : Z.land (seg_flags ph) VMM_ADDR_MASK = 0.
Proof. unfold seg_flags. by repeat case_match. Qed.

(** The bytes of page [j]. *)
Lemma page_bytes_spec ph j o :
  0 <= j -> 0 <= p_offset ph -> 0 <= p_filesz ph -> p_offset ph + p_filesz ph <= zlen data -> 0 <= o < 4096 ->
  let l := if j * 4096 <? p_filesz ph then page_bytes data ph j else [] in
  page_byte l o = segment_byte data ph (j * 4096 + o) /\ Forall byte l /\ zlen l <= 4096.
Proof.
  intros Hj Ho Hf Hs Ho' l. unfold l, page_byte, segment_byte, page_bytes, PAGE_SIZE. destruct (Z.ltb_spec (j * 4096) (p_filesz ph)).
  - assert (Hl : zlen (take (Z.to_nat (Z.min (p_filesz ph - j * 4096) 4096)) (drop (Z.to_nat (p_offset ph + j * 4096)) data)) = Z.min (p_filesz ph - j * 4096) 4096).
    { unfold zlen in *. rewrite length_take, length_drop. lia. }
    rewrite Hl. split; [|split; [by apply Forall_take, Forall_drop|lia]]. destruct (Z.ltb_spec o (Z.min (p_filesz ph - j * 4096) 4096)), (Z.ltb_spec (j * 4096 + o) (p_filesz ph)); try lia.
    unfold zget. rewrite list_lookup_total_alt, lookup_take_lt, lookup_drop by lia. rewrite list_lookup_total_alt. do 2 f_equal. lia.
  - split; [|split; [done|unfold zlen; cbn; lia]]. destruct (Z.ltb_spec o (zlen (@nil Z))) as [Hz|]; [unfold zlen in Hz; cbn in Hz; lia|]. destruct (Z.ltb_spec (j * 4096 + o) (p_filesz ph)); [lia|done].
Qed.

Lemma overlay_ext lo n f g U v : (forall o, 0 <= o < n -> f o = g o) -> overlay lo n f U v = overlay lo n g U v.
Proof. intros H. unfold overlay. destruct (Z.leb_spec lo v), (Z.ltb_spec v (lo + n)); cbn [andb]; try done. rewrite H by lia. done. Qed.

Lemma overlay_join lo a b f U v : 0 <= a -> 0 <= b -> overlay (lo + a) b (fun o => f (a + o)) (overlay lo a f U) v = overlay lo (a + b) f U v.
Proof.
  intros Ha Hb. unfold overlay. destruct (Z.leb_spec (lo + a) v), (Z.ltb_spec v (lo + a + b)), (Z.leb_spec lo v), (Z.ltb_spec v (lo + a)), (Z.ltb_spec v (lo + (a + b))); cbn [andb]; try lia; try done. do 2 f_equal. lia.
Qed.

(** Pages of a segment. *)
Lemma load_pages_refines n k s root C U lo ph j :
  proc_space (4 * n + k) s root C U -> 0 <= j -> 0 <= lo -> lo mod 4096 = 0 -> lo + (j + Z.of_nat n) * 4096 <= USER_LIMIT ->
  (forall i, j <= i < j + Z.of_nat n -> C (lo + i * 4096) /\ U (lo + i * 4096) = None) ->
  0 <= p_offset ph -> 0 <= p_filesz ph -> p_offset ph + p_filesz ph <= zlen data ->
  exists s', load_pages data n root lo ph j s = (Done tt, s') /\
    proc_space k s' root C (overlay (lo + j * 4096) (Z.of_nat n * 4096) (fun o => segment_byte data ph (j * 4096 + o)) U).
Proof.
  intros HP Hj Hlo Hal Hlim Hfree Ho Hf Hs. revert s U j HP Hj Hlim Hfree. induction n as [|n IH]; intros s U j HP Hj Hlim Hfree.
  { exists s. split; [done|]. eapply proc_space_ext; [|exact HP]. intros v _. unfold overlay. destruct (Z.leb_spec (lo + j * 4096) v), (Z.ltb_spec v (lo + j * 4096 + Z.of_nat 0 * 4096)); (done || lia). }
  cbn [load_pages]. destruct (Hfree j ltac:(lia)) as [HC HU]. set (l := if j * 4096 <? p_filesz ph then page_bytes data ph j else []).
  assert (Hpb : forall o, 0 <= o < 4096 -> page_byte l o = segment_byte data ph (j * 4096 + o) /\ Forall byte l /\ zlen l <= 4096) by (intros o Ho'; by apply page_bytes_spec).
  destruct (Hpb 0 ltac:(lia)) as (_ & Hl1 & Hl2). replace (4 * S n + k)%nat with (4 + (4 * n + k))%nat in HP by lia. unfold USER_LIMIT in Hlim.
  destruct (process_map s0 T0 _ s root C U (lo + j * 4096) l (seg_flags ph) HP ltac:(lia) ltac:(unfold USER_LIMIT; lia) ltac:(Z.div_mod_to_equations; lia) HC HU (seg_flags_low ph) Hl1 Hl2) as (phys & s1 & s2 & Hfr & Hmp & HP2).
  rewrite (ebind_done _ _ s phys s1) by (by apply echeck_done). rewrite (ebind_done _ _ s1 tt (with_mem s1 (zero_page phys (vm_mem s1)))) by done.
  unfold PAGE_SIZE. rewrite !u64_small by lia. rewrite (ebind_done _ _ _ tt (with_mem s1 (store_bytes phys l (zero_page phys (vm_mem s1))))).
  2: { unfold l. destruct (Z.ltb_spec (j * 4096) (p_filesz ph)); [|done]. destruct (Z.ltb_spec (size data) (p_offset ph + Z.min (p_filesz ph) (j * 4096 + 4096))); [unfold size in *; lia|done]. }
  rewrite (ebind_done _ _ _ tt s2) by (by apply echeck_done). destruct (IH s2 _ (j + 1) HP2) as (s' & Hrun & HP'); [lia|unfold USER_LIMIT; lia| |].
  { intros i Hi. destruct (Hfree i ltac:(lia)) as [HC' HU']. split; [done|]. unfold overlay. destruct (Z.ltb_spec (lo + i * 4096) (lo + j * 4096 + 4096)); [lia|]. by rewrite andb_false_r. }
  exists s'. split; [done|]. eapply proc_space_ext; [|exact HP']. intros v _. cbv beta.
  replace (lo + (j + 1) * 4096) with (lo + j * 4096 + 4096) by lia. replace (Z.of_nat (S n) * 4096) with (4096 + Z.of_nat n * 4096) by lia. rewrite <- (overlay_join _ _ _ _ U) by lia.
  transitivity (overlay (lo + j * 4096 + 4096) (Z.of_nat n * 4096) (fun o => segment_byte data ph (j * 4096 + (4096 + o))) (overlay (lo + j * 4096) 4096 (page_byte l) U) v).
  - apply overlay_ext. intros o _. f_equal. lia.
  - unfold overlay at 1 3. case_match; [done|]. apply overlay_ext. intros o Ho'. by apply Hpb.
Qed.

(** Stack pages. *)
Lemma map_stack_refines n k s root C U lo i :
  proc_space (4 * n + k) s root C U -> 0 <= i -> 0 <= lo -> lo mod 4096 = 0 -> lo + (i + Z.of_nat n) * 4096 <= USER_LIMIT ->
  (forall j, i <= j < i + Z.of_nat n -> C (lo + j * 4096) /\ U (lo + j * 4096) = None) ->
  exists s', map_stack n root lo i s = (Done tt, s') /\ proc_space k s' root C (overlay (lo + i * 4096) (Z.of_nat n * 4096) (fun _ => 0) U).
Proof.
  intros HP Hi Hlo Hal Hlim Hfree. revert s U i HP Hi Hlim Hfree. induction n as [|n IH]; intros s U i HP Hi Hlim Hfree.
  { exists s. split; [done|]. eapply proc_space_ext; [|exact HP]. intros v _. unfold overlay. destruct (Z.leb_spec (lo + i * 4096) v), (Z.ltb_spec v (lo + i * 4096 + Z.of_nat 0 * 4096)); (done || lia). }
  cbn [map_stack]. destruct (Hfree i ltac:(lia)) as [HC HU]. replace (4 * S n + k)%nat with (4 + (4 * n + k))%nat in HP by lia. unfold USER_LIMIT in Hlim.
  destruct (process_map s0 T0 _ s root C U (lo + i * 4096) [] (Z.lor (Z.lor VMM_USER VMM_WRITE) VMM_NX) HP ltac:(lia) ltac:(unfold USER_LIMIT; lia) ltac:(Z.div_mod_to_equations; lia) HC HU eq_refl ltac:(done) ltac:(unfold zlen; cbn; lia)) as (phys & s1 & s2 & Hfr & Hmp & HP2).
  rewrite (ebind_done _ _ s phys s1) by (by apply echeck_done). rewrite (ebind_done _ _ s1 tt (with_mem s1 (zero_page phys (vm_mem s1)))) by done. unfold PAGE_SIZE. rewrite u64_small by lia.
  rewrite (ebind_done _ _ _ tt s2) by (by apply echeck_done). destruct (IH s2 _ (i + 1) HP2) as (s' & Hrun & HP'); [lia|unfold USER_LIMIT; lia| |].
  { intros j Hj. destruct (Hfree j ltac:(lia)) as [HC' HU']. split; [done|]. unfold overlay. destruct (Z.ltb_spec (lo + j * 4096) (lo + i * 4096 + 4096)); [lia|]. by rewrite andb_false_r. }
  exists s'. split; [done|]. eapply proc_space_ext; [|exact HP']. intros v _. replace (lo + (i + 1) * 4096) with (lo + i * 4096 + 4096) by lia.
  replace (Z.of_nat (S n) * 4096) with (4096 + Z.of_nat n * 4096) by lia. rewrite <- (overlay_join _ _ _ _ U) by lia. unfold overlay at 1 3. case_match; [done|].
  apply overlay_ext. intros o Ho. unfold page_byte. destruct (Z.ltb_spec o (zlen (@nil Z))) as [Hz|]; [unfold zlen in Hz; cbn in Hz; lia|done].
Qed.

(** ** Writes *)

Lemma puts_step v b l U U' : puts v (b :: l) U = Some U' -> 0 <= v < USER_LIMIT /\ (exists x, U v = Some x) /\ puts (v + 1) l (fun w => if decide (w = v) then Some b else U w) = Some U'.
Proof.
  cbn [puts]. destruct (Z.leb_spec 0 v), (Z.ltb_spec v USER_LIMIT); cbn [andb]; try done. case_bool_decide as E; [done|]. cbn [negb]. intros H1. split; [done|]. split; [|done].
  destruct (U v) as [x|]; [by exists x|done].
Qed.

Lemma user_write_refines l k s root C U U' v :
  puts v l U = Some U' -> Forall byte l -> proc_space k s root C U -> exists s', user_write root v l s = (Done tt, s') /\ proc_space k s' root C U'.
Proof.
  revert s U v. induction l as [|b l IH]; intros s U v Hp Hb HP; [injection Hp as <-; by exists s|]. apply puts_step in Hp as (Hv & [x HU] & Hp). apply Forall_cons in Hb as [Hb Hl].
  destruct (process_store s0 T0 k s root C U v b x HP Hv HU Hb) as [Hnz HP']. cbn [user_write]. rewrite (ebind_done _ _ s s s) by done. destruct (Z.eqb_spec (vmm_get_phys_into root v s) 0); [done|].
  erewrite ebind_done by reflexivity. unfold USER_LIMIT in Hv. rewrite u64_small by lia. by apply (IH _ _ _ Hp).
Qed.

Lemma write_value_refines n k s root C U U' target value b :
  puts (target + b) ((fun i => u8 (Z.shiftr value (i * 8))) <$> seqZ b (Z.of_nat n)) U = Some U' -> proc_space k s root C U ->
  exists s', write_value n root target value b s = (Done tt, s') /\ proc_space k s' root C U'.
Proof.
  revert s U b. induction n as [|n IH]; intros s U b Hp HP; [injection Hp as <-; by exists s|]. rewrite seqZ_cons in Hp by lia. rewrite fmap_cons in Hp. apply puts_step in Hp as (Hv & [x HU] & Hp).
  destruct (process_store s0 T0 k s root C U (target + b) _ x HP Hv HU (u8_range (Z.shiftr value (b * 8)))) as [Hnz HP']. cbn [write_value]. rewrite (ebind_done _ _ s s s) by done. unfold USER_LIMIT in Hv. rewrite u64_small by lia.
  destruct (Z.eqb_spec (vmm_get_phys_into root (target + b) s) 0); [done|]. erewrite ebind_done by reflexivity. apply (IH _ (fun w => if decide (w = target + b) then Some (u8 (Z.shiftr value (b * 8))) else U w)); [|exact HP'].
  replace (Z.of_nat n) with (Z.pred (Z.of_nat (S n))) by lia. replace (b + 1) with (Z.succ b) by lia. rewrite <- Hp. f_equal. lia.
Qed.

(** ** Relocations *)

Lemma inside_true o n : inside data o n = true -> 0 <= o /\ o + n <= zlen data.
Proof. unfold inside. intros H. apply andb_true_iff in H as [H1 H2]. apply Z.leb_le in H1, H2. done. Qed.

Lemma offsets_cons off step n i : 0 <= n -> (fun j => off + j * step) <$> seqZ i (Z.succ n) = off + i * step :: ((fun j => off + j * step) <$> seqZ (i + 1) n).
Proof. intros Hn. rewrite seqZ_cons by lia. rewrite Z.pred_succ. by replace (Z.succ i) with (i + 1) by lia. Qed.

Lemma relocate_refines n k s root C U U' off step base i :
  zlen data < 2 ^ 63 -> let offs := (fun j => off + j * step) <$> seqZ i (Z.of_nat n) in
  forallb (fun o => inside data o SIZEOF_RELA) offs = true -> spec_relocate (rela_at data <$> offs) base U = Some U' -> proc_space k s root C U ->
  exists s', relocate data n root off step base i s = (Done tt, s') /\ proc_space k s' root C U'.
Proof.
  intros Hd. revert s U i. induction n as [|n IH]; intros s U i offs Hin Hs HP; [injection Hs as <-; by exists s|]. unfold offs in *. clear offs. rewrite Nat2Z.inj_succ, offsets_cons in Hin, Hs by lia. cbn [forallb] in Hin.
  apply andb_true_iff in Hin as [Hin Hin']. apply inside_true in Hin. rewrite fmap_cons in Hs. cbn [relocate spec_relocate] in *. unfold SIZEOF_RELA in *. rewrite u64_small by lia. fold (size data) in Hin. set (o := off + i * step) in *.
  destruct (Z.ltb_spec (size data) o), (Z.ltb_spec (size data - o) 24); try lia. cbn [orb]. destruct (Z.ltb_spec (size data) (o + 24)); [lia|].
  destruct (ELF64_R_TYPE _ =? _); cbn [negb].
  - destruct (puts _ _ U) as [U1|] eqn:Hp; [|done]. rewrite le_bytes_shift in Hp. destruct (write_value_refines 8 k s root C U U1 (u64 (r_offset (rela_at data o) + base)) (u64 (base + r_addend (rela_at data o))) 0) as (s1 & Hw & HP1); [|done|].
    + rewrite Z.add_0_r, <- Hp. reflexivity.
    + rewrite (ebind_done _ _ s tt s1) by done. by apply (IH s1 U1).
  - rewrite (ebind_done _ _ s tt s) by done. by apply (IH s U).
Qed.

Lemma scan_dynamic_refines n s off i r :
  zlen data < 2 ^ 63 -> let offs := (fun j => off + j * SIZEOF_DYN) <$> seqZ i (Z.of_nat n) in
  forallb (fun o => inside data o SIZEOF_DYN) offs = true -> scan_dynamic data n off i r s = (Done (rela_table (dyn_at data <$> offs) r), s).
Proof.
  intros Hd. revert i r. induction n as [|n IH]; intros i r offs Hin; [done|]. unfold offs in *. clear offs. rewrite Nat2Z.inj_succ, offsets_cons in * by lia. cbn [forallb] in Hin. apply andb_true_iff in Hin as [Hin Hin']. apply inside_true in Hin.
  rewrite fmap_cons. cbn [scan_dynamic rela_table]. unfold SIZEOF_DYN in *. rewrite u64_small by lia. fold (size data) in Hin. set (o := off + i * 16) in *.
  destruct (Z.ltb_spec (size data) o), (Z.ltb_spec (size data - o) 16); try lia. cbn [orb]. destruct (Z.ltb_spec (size data) (o + 16)); [lia|]. case_match; [done|]. by apply IH.
Qed.

Lemma file_offset_refines n s h v i :
  (forall j, i <= j < i + Z.of_nat n -> phdr_outside data h (phdr_off h j) = false /\ phdr_off h j + SIZEOF_PHDR <= zlen data) ->
  vaddr_to_file_offset data n h v i s = (Done (default (2 ^ 64 - 1) (file_offset ((fun j => phdr_at data (phdr_off h j)) <$> seqZ i (Z.of_nat n)) v)), s).
Proof.
  revert i. induction n as [|n IH]; intros i Hh; [done|]. cbn [vaddr_to_file_offset]. destruct (Hh i ltac:(lia)) as [Ho Hs]. rewrite Ho. rewrite (ebind_done _ _ s (phdr_at data (phdr_off h i)) s).
  2: { unfold read_phdr. destruct (Z.ltb_spec (size data) (phdr_off h i + SIZEOF_PHDR)); [unfold size in *; lia|done]. }
  rewrite seqZ_cons by lia. rewrite fmap_cons. cbn [file_offset]. unfold in_segment. case_match; [done|]. rewrite IH by (intros j Hj; apply Hh; lia). replace (i + 1) with (Z.succ i) by lia. by replace (Z.of_nat n) with (Z.pred (Z.of_nat (S n))) by lia.
Qed.

Lemma seqZ_nat i n : seqZ i n = seqZ i (Z.of_nat (Z.to_nat n)).
Proof. unfold seqZ. by rewrite Nat2Z.id. Qed.

Lemma apply_relocations_refines k s root C U U' h d base :
  zlen data < 2 ^ 63 -> headers_ok data h = true -> spec_relocations data (phdrs data h) d base U = Some U' -> proc_space k s root C U ->
  exists s', apply_relocations data root h (di_off d) (di_filesz d) base s = (Done tt, s') /\ proc_space k s' root C U'.
Proof.
  intros Hd Hh Hs HP. unfold spec_relocations, offsets in Hs. destruct (forallb _ _) eqn:Hin in Hs; [|done]. cbn [negb] in Hs. rewrite seqZ_nat in Hin, Hs. unfold apply_relocations.
  rewrite (ebind_done _ _ s _ s (scan_dynamic_refines _ s (di_off d) 0 (mk_ri 0 0 SIZEOF_RELA) Hd Hin)). set (r := rela_table _ _) in *. destruct (Z.eqb_spec (ri_size r) 0); [injection Hs as <-; by exists s|].
  erewrite ebind_done; [|apply file_offset_refines]. 2: { intros j Hj. unfold headers_ok in Hh. rewrite forallb_forall in Hh. specialize (Hh j). rewrite andb_true_iff, negb_true_iff, Z.leb_le in Hh. apply Hh, list_elem_of_In, elem_of_seqZ. lia. }
  rewrite <- seqZ_nat. fold (phdrs data h). destruct (file_offset _ _) as [off|]; [|done]. change (default (2 ^ 64 - 1) (Some off)) with off. destruct (inside data off 0) eqn:Ho; [|done]. apply inside_true in Ho. cbn [andb] in Hs. destruct (forallb _ _) eqn:Hin2 in Hs; [|done].
  destruct (Z.eqb_spec off (2 ^ 64 - 1)); [lia|]. rewrite seqZ_nat in Hin2, Hs. by apply (relocate_refines _ k s root C U U' off (ri_entsize r) base 0 Hd Hin2 Hs).
Qed.

(** ** Segments *)

Lemma le_at_nonneg n i : 0 <= le_at n data i.
Proof. unfold le_at. apply le_val_range. by apply Forall_take, Forall_drop. Qed.

Lemma room_spec U lo n : room avail U lo n = true -> 0 <= lo /\ lo mod 4096 = 0 /\ lo + n * 4096 <= USER_LIMIT /\ forall i, 0 <= i < n -> avail (lo + i * 4096) = true /\ U (lo + i * 4096) = None.
Proof.
  unfold room. rewrite !andb_true_iff, forallb_forall, !Z.leb_le, Z.eqb_eq. intros [[[H1 H2] H3] H4]. split; [done|]. split; [done|]. split; [done|]. intros i Hi. specialize (H4 i). rewrite andb_true_iff, bool_decide_eq_true in H4. apply H4, list_elem_of_In, elem_of_seqZ. lia.
Qed.

Lemma spec_segments_pages base phs U p U' p' : spec_segments data avail base phs U p = Some (U', p') -> Forall (fun ph => 0 <= p_memsz ph) phs -> p <= p'.
Proof.
  revert U p. induction phs as [|ph phs IH]; intros U p; cbn [spec_segments]; [intros [= _ <-] _; lia|]. intros Hs Hf. apply Forall_cons in Hf as [Hm Hf]. destruct (negb _ || _); [by apply IH in Hs|]. destruct (_ && _ && _ && _); [|done].
  apply IH in Hs; [|done]. assert (0 <= (p_memsz ph + 4095) / 4096) by (apply Z.div_pos; lia). lia.
Qed.

(** What may be used. *)
Definition usable (v : Z) : Prop := avail v = true /\ 0 <= v < USER_LIMIT.

Lemma load_segments_refines n k s root U U' h base i d p p' :
  (forall j, i <= j < i + Z.of_nat n -> phdr_outside data h (phdr_off h j) = false /\ phdr_off h j + SIZEOF_PHDR <= zlen data) ->
  let phs := (fun j => phdr_at data (phdr_off h j)) <$> seqZ i (Z.of_nat n) in
  spec_segments data avail base phs U p = Some (U', p') -> proc_space (4 * Z.to_nat (p' - p) + k) s root usable U ->
  exists s', load_segments data n root h base i d s =
      (Done (foldl (fun d ph => if p_type ph =? PT_DYNAMIC then mk_di true (p_offset ph) (p_filesz ph) else d) d phs), s') /\ proc_space k s' root usable U'.
Proof.
  revert s U i d p. induction n as [|n IH]; intros s U i d p Hh phs Hs HP.
  { injection Hs as <- <-. rewrite Z.sub_diag in HP. by exists s. }
  assert (Hphs : phs = phdr_at data (phdr_off h i) :: ((fun j => phdr_at data (phdr_off h j)) <$> seqZ (i + 1) (Z.of_nat n))).
  { unfold phs. rewrite seqZ_cons by lia. replace (i + 1) with (Z.succ i) by lia. by replace (Z.of_nat n) with (Z.pred (Z.of_nat (S n))) by lia. }
  rewrite Hphs in *. clear phs Hphs. destruct (Hh i ltac:(lia)) as [Ho Hsz]. cbn [load_segments]. rewrite Ho. rewrite (ebind_done _ _ s (phdr_at data (phdr_off h i)) s).
  2: { unfold read_phdr. destruct (Z.ltb_spec (size data) (phdr_off h i + SIZEOF_PHDR)); [unfold size in *; lia|done]. }
  set (ph := phdr_at data (phdr_off h i)) in *. assert (Hh' : forall j, i + 1 <= j < i + 1 + Z.of_nat n -> phdr_outside data h (phdr_off h j) = false /\ phdr_off h j + SIZEOF_PHDR <= zlen data) by (intros j Hj; apply Hh; lia).
  cbn [spec_segments foldl] in *. destruct (negb (p_type ph =? PT_LOAD) || (p_memsz ph =? 0)) eqn:Hskip; [exact (IH s U (i + 1) _ p Hh' Hs HP)|].
  assert (Hm : 0 <= p_memsz ph) by apply le_at_nonneg. assert (Hf : 0 <= p_filesz ph) by apply le_at_nonneg. assert (Hof : 0 <= p_offset ph) by apply le_at_nonneg.
  destruct (_ && _ && _ && _) eqn:Hg in Hs; [|done]. rewrite !andb_true_iff, !Z.leb_le in Hg. destruct Hg as [[[G1 G2] G3] G4]. apply room_spec in G4 as (R1 & R2 & R3 & R4).
  destruct (Z.ltb_spec (p_memsz ph) (p_filesz ph)), (Z.ltb_spec (size data) (p_offset ph)), (Z.ltb_spec (size data - p_offset ph) (p_filesz ph)); unfold size in *; try lia. cbn [orb].
  set (np := (p_memsz ph + 4095) / 4096) in *. assert (Hnp : 0 <= np) by (apply Z.div_pos; lia). unfold USER_LIMIT in G2. replace (u64 (p_memsz ph + PAGE_SIZE - 1) / PAGE_SIZE) with np by (unfold PAGE_SIZE; rewrite u64_small by lia; unfold np; f_equal; lia).
  assert (Hmono : p + np <= p') by (eapply spec_segments_pages; [exact Hs|]; apply Forall_fmap, Forall_true; intros j; apply le_at_nonneg).
  replace (4 * Z.to_nat (p' - p) + k)%nat with (4 * Z.to_nat np + (4 * Z.to_nat (p' - (p + np)) + k))%nat in HP by lia.
  destruct (load_pages_refines (Z.to_nat np) _ s root usable U (u64 (p_vaddr ph + base)) ph 0 HP ltac:(lia) R1 R2 ltac:(lia)) as (s1 & Hrun & HP1); [intros j Hj; destruct (R4 j ltac:(lia)); unfold usable, USER_LIMIT in *; split; [split; [done|lia]|done]|done|done|lia|].
  rewrite (ebind_done _ _ s tt s1) by done. refine (IH s1 _ (i + 1) _ (p + np) Hh' Hs _). rewrite Z2Nat.id, Z.add_0_r in HP1 by done. exact HP1.
Qed.

(** ** Stack *)

Lemma put_strings_bytes l cur ptrs buf ptrs' buf' :
  put_strings l cur ptrs buf = Some (ptrs', buf') -> Forall (Forall byte) l -> Forall byte buf -> Forall byte buf'.
Proof.
  revert ptrs buf. induction l as [|x l IH]; intros ptrs buf; cbn [put_strings]; [by intros [= _ <-]|]. intros Hp Hl Hb. apply Forall_cons in Hl as [Hx Hl]. destruct (put_string x buf) as [b|] eqn:E; [|done].
  apply IH in Hp; [done|done|]. unfold put_string in E. case_match; [|done]. injection E as <-. rewrite !Forall_app. split; [split; [done|by apply Forall_take]|]. by repeat constructor.
Qed.

Lemma stack_image_bytes top argv envp sp cur buf words :
  stack_image top argv envp = Some (sp, cur, buf, words) -> Forall (Forall byte) argv -> Forall (Forall byte) envp -> Forall byte buf /\ Forall byte words.
Proof.
  unfold stack_image. intros H Ha He. set (av := match argv with [] => _ | _ => _ end) in *. assert (Hav : Forall (Forall byte) av) by (unfold av; destruct argv; [repeat constructor; done|done]). clearbody av.
  destruct (put_strings _ _ _ _) as [[p b]|] eqn:E1 in H; [|done]. destruct (put_strings _ _ _ b) as [[q b']|] eqn:E2 in H; [|done]. 
  set (w := concat _) in H. assert (Hw : Forall byte w) by (apply Forall_concat, Forall_fmap, Forall_true; intros x; apply le_bytes_byte). clearbody w. injection H as _ _ <- <-.
  apply put_strings_bytes in E1; [|by apply Forall_take|done]. apply put_strings_bytes in E2; [|by apply Forall_take|done]. done.
Qed.

Lemma build_stack_refines k s root C U U1 U2 top argv envp sp cur buf words :
  stack_image top argv envp = Some (sp, cur, buf, words) -> Forall (Forall byte) argv -> Forall (Forall byte) envp -> puts cur buf U = Some U1 -> puts sp words U1 = Some U2 -> proc_space k s root C U ->
  exists s', build_stack root top argv envp s = (Done sp, s') /\ proc_space k s' root C U2.
Proof.
  intros Hi Ha He H1 H2 HP. destruct (stack_image_bytes _ _ _ _ _ _ _ Hi Ha He) as [Hb Hw]. unfold build_stack. rewrite Hi.
  destruct (user_write_refines buf k s root C U U1 cur H1 Hb HP) as (s1 & R1 & P1). destruct (user_write_refines words k s1 root C U1 U2 sp H2 Hw P1) as (s2 & R2 & P2).
  exists s2. split; [|done]. by rewrite (ebind_done _ _ s tt s1), (ebind_done _ _ s1 tt s2).
Qed.

(** ** The empty address space *)

Lemma idx4_user v : 0 <= v < USER_LIMIT -> pt_idx 4 v = v / 2 ^ 39 /\ 0 <= v / 2 ^ 39 < 256.
Proof. unfold USER_LIMIT, pt_idx. intros Hv. change (3 + 9 * Z.of_nat 4) with 39. rewrite Z.mod_small; Z.div_mod_to_equations; lia. Qed.

Lemma isolated_process release k :
  pt_wf s0 T0 -> T0 !! kernel_pml4 s0 = Some (4%nat, 0) -> low_tables s0 -> supplies (4 + k) (vm_frames s0) ->
  (forall v, avail v = true -> 0 <= v < 2 ^ 39 -> clear_path 4 (vm_mem s0) (kernel_pml4 s0) v) ->
  exists root s', make_isolated_pml4 release s0 = (Some root, s') /\ ~ fs_taken (vm_frames s0) root /\ proc_space k s' root usable (fun _ => None).
Proof.
  intros W Hk Hlow Hs Hc. destruct (make_isolated_spec release s0 T0 k W Hk Hlow Hs) as (root & s' & T' & Hrun & Fo & Hr & Hfr & Hs' & Hm). exists root, s'. split; [done|]. split; [done|]. exists T', ∅.
  constructor; try done; [apply Fo|intros r v Hr' _; by eapply fresh_only_phys|apply Fo| |apply Fo|].
  2: { intros q Hq Hqt HqT. destruct (fo_words _ _ _ _ Fo q Hq Hqt) as [E1 E2]. by rewrite E1. }
  intros v [Hv Hu]. destruct (idx4_user v Hu) as [Ei Hi]. destruct (Hm v) as [M1 M2]. destruct (decide (pt_idx 4 v = 0)) as [E0|E0].
  - destruct (M1 ltac:(lia)) as [_ M]. apply M, Hc; [done|]. rewrite E0 in Ei. Z.div_mod_to_equations; lia.
  - rewrite clear_step. rewrite M2 by lia. done.
Qed.

End Refine.

(** The specification's header check is the one of the code. *)
Lemma le_at_pair l i : Forall byte l -> 0 <= i -> i + 2 <= zlen l -> le_at 2 l i = le_at 1 l i + 256 * le_at 1 l (i + 1).
Proof. intros F Hi Hl. unfold le_at. rewrite !take_drop_cons by lia. cbn [firstn le_val]. rewrite !take_0. cbn [le_val]. lia. Qed.

Lemma header_ok_valid data : Forall byte data -> header_ok data = true -> elf_validate data = Some true /\ read_ehdr data = Some (ehdr_at data).
Proof.
  intros F. unfold header_ok. rewrite !andb_true_iff, Z.leb_le, Z.ltb_lt. intros (((((Hl & Hm) & Hc) & Ht) & Hx) & Hn).
  assert (R : read_ehdr data = Some (ehdr_at data)) by (unfold read_ehdr, SIZEOF_EHDR; destruct (Z.ltb_spec (zlen data) 64); [lia|done]).
  split; [|done]. unfold elf_validate. rewrite R. unfold SIZEOF_EHDR. destruct (Z.ltb_spec (zlen data) 64); [lia|]. f_equal.
  unfold ehdr_at, ELF_MAGIC, ELF_CLASS_64, ELF_DATA_LE, ELF_TYPE_EXEC, ELF_TYPE_DYN, ELF_MACH_X86_64. cbn [e_magic e_class e_data e_type e_machine e_phnum].
  apply Z.eqb_eq in Hc. rewrite le_at_pair in Hc by (done || lia). change (4 + 1) with 5 in Hc.
  pose proof (le_at_range 1 data 4 F ltac:(lia) ltac:(lia)) as B4. pose proof (le_at_range 1 data 5 F ltac:(lia) ltac:(lia)) as B5. change (256 ^ Z.of_nat 1) with 256 in *.
  assert (E4 : le_at 1 data 4 = 2) by lia. assert (E5 : le_at 1 data 5 = 1) by lia. rewrite E4, E5, Hm, Ht. change 0x3E with 62. rewrite Hx.
  destruct (Z.eqb_spec (le_at 2 data 56) 0); [lia|done].
Qed.

(** C34: loading a program.  When the flat-memory loader accepts an image -- headers inside
    it, page-aligned segments that lie in usable pages and do not overlap each other or the
    stack, relocations into them, arguments that fit -- and frames are left, [elf_load]
    succeeds with the same entry point and stack pointer, and through the new page tables
    every user address the flat loader filled reads the byte it put there: file contents,
    zeros, relocated pointers, stack, arguments, from a frame that was free before.  Every
    page in use that is not a page table keeps its contents, and every existing address
    space translates as before outside the program's own pages. *)
Theorem elf_load_refines {F} {FS : FrameSource F} data avail release rnd1 rnd2 argv envp U entry sp pages (s : vmm F) T :
  Forall byte data -> zlen data < 2 ^ 63 -> Forall (Forall byte) argv -> Forall (Forall byte) envp ->
  spec_load data avail rnd1 rnd2 argv envp = Some (U, entry, sp, pages) ->
  pt_wf s T -> T !! kernel_pml4 s = Some (4%nat, 0) -> low_tables s ->
  (forall v, avail v = true -> 0 <= v < 2 ^ 39 -> clear_path 4 (vm_mem s) (kernel_pml4 s) v) ->
  supplies (4 + 4 * Z.to_nat (pages + USER_STACK_PAGES)) (vm_frames s) ->
  exists root s', elf_load data release rnd1 rnd2 argv envp s = (Done (root, entry, sp), s') /\ ~ fs_taken (vm_frames s) root /\
    (forall v b, 0 <= v < USER_LIMIT -> U v = Some b ->
       user_byte root v s' = b /\ ~ fs_taken (vm_frames s) (vmm_get_phys_into root v s' - v mod 4096)) /\
    (forall q j, q mod 4096 = 0 -> fs_taken (vm_frames s) q -> T !! q = None -> 0 <= j < 512 -> rd (vm_mem s') (slot q j) = rd (vm_mem s) (slot q j)) /\
    (forall root' v, T !! root' = Some (4%nat, 0) -> (forall w, 0 <= w < USER_LIMIT -> vpage w = vpage v -> U w = None) ->
       vmm_get_phys_into root' v s' = vmm_get_phys_into root' v s).
Proof.
  intros Hd Hlen Ha He Hspec W Hk Hlow Hc Hs. unfold spec_load in Hspec. destruct (header_ok data) eqn:Hval; [|done]. destruct (headers_ok data (ehdr_at data)) eqn:Hh; [|done]. cbn [andb negb] in Hspec.
  unfold elf_load. apply (header_ok_valid data Hd) in Hval as [-> ->]. rewrite (ebind_done _ _ s true s) by done. cbn [negb]. rewrite (ebind_done _ _ s (ehdr_at data) s) by done. set (h := ehdr_at data) in *. set (base := if e_type h =? ELF_TYPE_DYN then _ else _) in *. set (top := USER_STACK_TOP - _) in *. set (lo := top - USER_STACK_PAGES * PAGE_SIZE) in *. clearbody base top.
  destruct (spec_segments _ _ _ _ _ _) as [[U1 p1]|] eqn:Hseg; [|done]. destruct (if _ && di_have _ then _ else _) as [U2|] eqn:Hrel; [|done]. destruct (room avail U2 lo USER_STACK_PAGES) eqn:Hroom; [|done]. cbn [negb] in Hspec.
  destruct (stack_image top argv envp) as [[[[sp0 cur] buf] words]|] eqn:Himg; [|done]. destruct (puts cur buf _) as [U3|] eqn:Hp1; [|done]. destruct (puts sp0 words U3) as [U4|] eqn:Hp2; [|done]. injection Hspec as <- <- <- <-.
  assert (Hph : forall j, 0 <= j < 0 + Z.of_nat (Z.to_nat (e_phnum h)) -> phdr_outside data h (phdr_off h j) = false /\ phdr_off h j + SIZEOF_PHDR <= zlen data).
  { intros j Hj. unfold headers_ok in Hh. rewrite forallb_forall in Hh. specialize (Hh j). rewrite andb_true_iff, negb_true_iff, Z.leb_le in Hh. apply Hh, list_elem_of_In, elem_of_seqZ. lia. }
  assert (Hpos : 0 <= p1) by (eapply spec_segments_pages; [exact Hseg|]; apply Forall_fmap, Forall_true; intros j; by apply le_at_nonneg).
  replace (4 * Z.to_nat (p1 + USER_STACK_PAGES))%nat with (4 * Z.to_nat (p1 - 0) + (4 * Z.to_nat USER_STACK_PAGES + 0))%nat in Hs by (unfold USER_STACK_PAGES in *; lia).
  destruct (isolated_process avail s T release _ W Hk Hlow Hs Hc) as (root & s1 & R1 & Hfr & P1). rewrite (ebind_done _ _ s root s1) by (by apply echeck_done).
  unfold phdrs in Hseg. rewrite seqZ_nat in Hseg. destruct (load_segments_refines data avail Hd s T _ _ s1 root _ _ h base 0 (mk_di false 0 0) 0 p1 Hph Hseg P1) as (s2 & R2 & P2).
  rewrite (ebind_done _ _ s1 _ s2) by exact R2. rewrite <- seqZ_nat. fold (phdrs data h) (dynamic (phdrs data h)). set (d := dynamic (phdrs data h)) in *.
  assert (Hrr : exists s3, (if (e_type h =? ELF_TYPE_DYN) && di_have d then apply_relocations data root h (di_off d) (di_filesz d) base else eret tt) s2 = (Done tt, s3) /\ proc_space s T (4 * Z.to_nat USER_STACK_PAGES + 0) s3 root (usable avail) U2).
  { destruct ((e_type h =? ELF_TYPE_DYN) && di_have d); [|injection Hrel as <-; by exists s2]. by apply (apply_relocations_refines data s T _ s2 root _ U1 U2 h d base Hlen Hh Hrel). }
  destruct Hrr as (s3 & R3 & P3). rewrite (ebind_done _ _ s2 tt s3) by exact R3. apply room_spec in Hroom as (Q1 & Q2 & Q3 & Q4).
  destruct (map_stack_refines avail s T (Z.to_nat USER_STACK_PAGES) 0 s3 root (usable avail) U2 lo 0 P3) as (s4 & R4 & P4); [lia|done|done|unfold USER_STACK_PAGES in *; lia|intros j Hj; destruct (Q4 j ltac:(unfold USER_STACK_PAGES in *; lia)); unfold usable, USER_LIMIT, USER_STACK_PAGES in *; split; [split; [done|lia]|done]|].
  rewrite (ebind_done _ _ s3 tt s4) by exact R4. rewrite Z2Nat.id, Z.add_0_r in P4 by done.
  destruct (build_stack_refines s T 0 s4 root (usable avail) _ U3 U4 top argv envp sp0 cur buf words Himg Ha He Hp1 Hp2 P4) as (s5 & R5 & P5). rewrite (ebind_done _ _ s4 sp0 s5) by exact R5.
  exists root, s5. split; [done|]. split; [done|]. destruct P5 as (T' & P & Sp).
  split; [intros v b Hv HU; split; [eapply proc_space_byte; [by exists T', P|done|done]|]|].
  { rewrite (sp_bytes _ _ _ _ _ _ _ _ _ Sp v Hv) in HU. destruct (P !! (v / 4096)) as [fr|] eqn:Ed; [|done]. rewrite (sp_phys _ _ _ _ _ _ _ _ _ Sp _ fr v Ed Hv eq_refl).
    replace (fr + v mod 4096 - v mod 4096) with fr by lia. by apply (sp_fresh _ _ _ _ _ _ _ _ _ Sp _ _ Ed). }
  split; [intros q j Hq Hqt HqT Hj; by apply (sp_data _ _ _ _ _ _ _ _ _ Sp q Hq Hqt HqT)|]. intros r v Hr Hnone. apply (sp_other _ _ _ _ _ _ _ _ _ Sp); [done|]. destruct (P !! vpage v) as [x|] eqn:Ex; [|done].
  pose proof (sp_user _ _ _ _ _ _ _ _ _ Sp _ _ Ex) as Hu. pose proof (Hnone (vpage v * 4096)) as HN. unfold USER_LIMIT in HN. rewrite (sp_bytes _ _ _ _ _ _ _ _ _ Sp), Z.div_mul, Ex in HN by (unfold USER_LIMIT; lia).
  discriminate HN; [lia|]. rewrite vpage_user, Z.div_mul by (unfold USER_LIMIT; lia). done.
Qed.

(** ** Example *)

Module ElfLoadDemo.
Import ElfDemo.

(** A position-independent program whose first word is a relocated pointer. *)
Definition dyn (tag val : Z) : list Z := le_bytes 8 tag ++ le_bytes 8 val.
Definition pie_reloc : list Z :=
  image (ehdr ELF_TYPE_DYN 56 2 ++ phdr PT_LOAD 6 4096 0x1000 88 100 ++ phdr PT_DYNAMIC 6 4112 0x1010 48 48)
        (replicate 16 7 ++ dyn DT_RELA 0x1040 ++ dyn DT_RELASZ 24 ++ dyn DT_NULL 0 ++ le_bytes 8 0x1000 ++ le_bytes 8 R_X86_64_RELATIVE ++ le_bytes 8 0x1008).
Definition tables : gmap Z (nat * Z) := <[0x100000 := (4%nat, 0)]> (<[0x1000 := (3%nat, 0)]> (<[0x2000 := (2%nat, 0)]> (<[0x3000 := (3%nat, 256)]> ∅))).
Definition above_4g (v : Z) : bool := 2 ^ 32 <=? v.

Lemma supplies_bump n p : p mod 4096 = 0 -> 0 < p -> p + 4096 * Z.of_nat n <= 2 ^ 40 -> supplies (FS := bump) n p.
Proof.
  revert p. induction n as [|n IH]; intros p Ha Hp Hn; [done|]. intros z. cbn. destruct (Z.ltb_spec p (2 ^ 40)); [|lia]. cbn [fst snd]. split; [lia|]. apply IH; [Z.div_mod_to_equations; lia|lia|lia].
Qed.

Lemma Forall_byte_check l : forallb (fun b => (0 <=? b) && (b <? 256)) l = true -> Forall byte l.
Proof. rewrite forallb_forall, Forall_forall. intros H b Hb. apply list_elem_of_In, H in Hb. unfold byte. lia. Qed.

(** The kernel's entries. *)
Lemma kernel_entry p i : p mod 4096 = 0 -> 0 <= i < 512 -> has (rd kernel_mem (slot p i)) VMM_PRESENT = true ->
  (p = 0x100000 /\ i = 256 /\ rd kernel_mem (slot p i) = 0x3003) \/ (p = 0x2000 /\ i = 2 /\ rd kernel_mem (slot p i) = 0x400083) \/
  (p = 0x1000 /\ i = 0 /\ rd kernel_mem (slot p i) = 0x2003) \/ (p = 0x100000 /\ i = 0 /\ rd kernel_mem (slot p i) = 0x1003).
Proof.
  intros Hp Hi. unfold kernel_mem. rewrite !rd_insert. assert (Hs : forall q j, q mod 4096 = 0 -> 0 <= j < 512 -> slot q j = slot p i -> p = q /\ i = j) by (intros q j Hq Hj E; by apply slot_inj).
  repeat (case_decide as E; [apply Hs in E as [-> ->]; [tauto|done|lia]|clear E]). done.
Qed.

Lemma tables_cases p x : tables !! p = Some x -> (p = 0x100000 /\ x = (4%nat, 0)) \/ (p = 0x1000 /\ x = (3%nat, 0)) \/ (p = 0x2000 /\ x = (2%nat, 0)) \/ (p = 0x3000 /\ x = (3%nat, 256)).
Proof. unfold tables. rewrite !lookup_insert. repeat case_decide; intros [= <-]; subst; auto 10. Qed.

Lemma machine_wf : pt_wf machine tables.
Proof.
  constructor.
  - split; [done|]. cbn. lia.
  - intros p n v Hp. apply tables_cases in Hp as [[-> [= -> ->]]|[[-> [= -> ->]]|[[-> [= -> ->]]|[-> [= -> ->]]]]]; (split; [done|]; split; [lia|]; split; [lia|]; cbn; lia).
  - intros p n v i Hp Hn Hi e He Hh. assert (Ha : p mod 4096 = 0) by (apply tables_cases in Hp as [[-> _]|[[-> _]|[[-> _]|[-> _]]]]; done).
    change e with (rd kernel_mem (slot p i)) in *. destruct (kernel_entry p i Ha Hi He) as [(-> & -> & E)|[(-> & -> & E)|[(-> & -> & E)|(-> & -> & E)]]]; rewrite E in *; apply tables_cases in Hp;
      destruct Hp as [[Ep [= -> ->]]|[[Ep [= -> ->]]|[[Ep [= -> ->]]|[Ep [= -> ->]]]]]; try discriminate Ep; try discriminate Hh; try lia; reflexivity.
Qed.

Lemma machine_low : low_tables machine.
Proof.
  intros kpdpt i (_ & _ & Hk) Hi Hp. assert (kpdpt = 0x1000) as -> by (rewrite <- Hk; reflexivity). destruct (kernel_entry 0x1000 i eq_refl ltac:(lia) Hp) as [(E & _)|[(E & _)|[(_ & -> & E)|(E & _)]]]; try discriminate E. by rewrite (E : rd (vm_mem machine) _ = _).
Qed.

Lemma machine_clear v : above_4g v = true -> 0 <= v < 2 ^ 39 -> clear_path 4 (vm_mem machine) (kernel_pml4 machine) v.
Proof.
  unfold above_4g. intros Hv Hr. apply Z.leb_le in Hv. assert (H4 : pt_idx 4 v = 0) by (unfold pt_idx; change (3 + 9 * Z.of_nat 4) with 39; rewrite Z.div_small by lia; done). rewrite clear_step, H4. intros _. split; [done|].
  change (Z.land _ VMM_ADDR_MASK) with 0x1000. rewrite clear_step. intros Hp. exfalso. destruct (kernel_entry 0x1000 (pt_idx 3 v) eq_refl (pt_idx_range _ _) Hp) as [(E & _)|[(E & _)|[(_ & E & _)|(E & _)]]]; try discriminate E.
  revert E. unfold pt_idx. change (3 + 9 * Z.of_nat 3) with 30. rewrite Z.mod_small; [|Z.div_mod_to_equations; lia]. Z.div_mod_to_equations; lia.
Qed.

(** The relocated pointer, the bytes after it, the zeros past the file and the argument count. *)
Definition sample (U : Z -> option Z) (sp : Z) : list (option Z) := U <$> [0x100001000; 0x100001001; 0x100001004; 0x100001008; 0x100001058; sp].

Lemma elf_load_refines_witness :
  exists root entry sp s', elf_load pie_reloc (fun _ f => f) 0 0 [] [] machine = (Done (root, entry, sp), s') /\
    ((fun v => user_byte root v s') <$> [0x100001000; 0x100001001; 0x100001004; 0x100001008; 0x100001058; sp]) = [8; 16; 1; 7; 0; 1].
Proof.
  assert (Hx : (fun x => (x.1.2, x.2, sample x.1.1.1 x.1.2)) <$> spec_load pie_reloc above_4g 0 0 [] [] = Some (0x7FFFFFFFDFD0, 1, [Some 8; Some 16; Some 1; Some 7; Some 0; Some 1])) by (vm_compute; reflexivity).
  destruct (spec_load pie_reloc above_4g 0 0 [] []) as [[[[U entry] sp] pages]|] eqn:E; [|discriminate Hx]. cbn [fmap option_fmap option_map fst snd] in Hx. injection Hx as Hsp Hpg H1 H2 H3 H4 H5 H6.
  destruct (elf_load_refines pie_reloc above_4g (fun _ f => f) 0 0 [] [] U entry sp pages machine tables) as (root & s' & R & _ & HU & _).
  - apply Forall_byte_check. vm_compute. reflexivity.
  - vm_compute. reflexivity.
  - constructor.
  - constructor.
  - exact E.
  - exact machine_wf.
  - reflexivity.
  - exact machine_low.
  - exact machine_clear.
  - apply supplies_bump; [reflexivity|reflexivity|]. rewrite Hpg. vm_compute. discriminate.
  - exists root, entry, sp, s'. split; [exact R|]. apply HU in H1 as [H1 _], H2 as [H2 _], H3 as [H3 _], H4 as [H4 _], H5 as [H5 _], H6 as [H6 _]; try (rewrite ?Hsp; unfold USER_LIMIT; lia). rewrite !fmap_cons, H1, H2, H3, H4, H5, H6. reflexivity.
Defined.

End ElfLoadDemo.
