(* ===== verification/Ssh.v ===== *)
(** * SSH packet layer (userspace/bin/sshd_packet.c, sshd_packet.h)

    The binary packet protocol of the SSH server: plain framing before key exchange,
    chacha20-poly1305@openssh.com after it, and the negotiation messages.  The socket and
    random-number system calls are an interface, [Wire].  A read of a message outside
    its bytes is [None]. *)

From S2P Require Import Prelude ChaCha20 Poly1305 Aead Net.

Definition SSH_PACKET_MAX : Z := 35000.
Definition SSH_MSG_KEXINIT : Z := 20.

(** ** System calls *)

(** [xsend], [xrecv] and [getrandom]: a result, the bytes delivered and the new state.
    [w_sent] is everything sent so far, [w_avail] what has arrived and was not read. *)
Class Wire (W : Type) := {
  xsend : list Z -> W -> Z * W;
  xrecv : Z -> W -> Z * list Z * W;
  getrandom : Z -> W -> Z * list Z * W;
  w_sent : W -> list Z;
  w_avail : W -> list Z;
  xsend_spec b w : let '(n, w') := xsend b w in
    n <= zlen b /\ w_sent w' = w_sent w ++ take (Z.to_nat n) b /\ w_avail w' = w_avail w;
  xrecv_spec k w : 0 < k -> let '(n, l, w') := xrecv k w in
    n <= k /\ l = take (Z.to_nat n) (w_avail w) /\ w_avail w' = drop (Z.to_nat n) (w_avail w) /\ w_sent w' = w_sent w /\
    n <= zlen (w_avail w) /\ (w_avail w <> [] -> 0 < n);
  getrandom_spec k w : 0 <= k -> let '(_, l, w') := getrandom k w in
    zlen l = k /\ Forall byte l /\ w_sent w' = w_sent w /\ w_avail w' = w_avail w
}.

Section Packets.
Context {W : Type} {WW : Wire W}.

(** ** Streams *)

(** One iteration sends at least one byte: [fuel] is the number of bytes left. *)
Fixpoint send_all (fuel : nat) (buf : list Z) (off len : Z) (w : W) : bool * W :=
  if len <=? off then (true, w) else
  match fuel with
  | O => (false, w)
  | S fuel' =>
      let chunk := if 4096 <? len - off then 4096 else len - off in
      let '(n, w) := xsend (take (Z.to_nat chunk) (drop (Z.to_nat off) buf)) w in
      if n <=? 0 then (false, w) else send_all fuel' buf (off + n) len w
  end.

(** Into [buf] from [base] on. *)
Fixpoint recv_exact (fuel : nat) (buf : list Z) (base off len : Z) (w : W) : bool * list Z * W :=
  if len <=? off then (true, buf, w) else
  match fuel with
  | O => (false, buf, w)
  | S fuel' =>
      let chunk := if 4096 <? len - off then 4096 else len - off in
      let '(n, l, w) := xrecv chunk w in
      if n <=? 0 then (false, buf, w) else recv_exact fuel' (memcpy buf (base + off) l) base (off + n) len w
  end.

Definition send_buf (buf : list Z) (len : Z) (w : W) : bool * W := send_all (Z.to_nat len) buf 0 len w.
Definition recv_buf (buf : list Z) (base len : Z) (w : W) : bool * list Z * W := recv_exact (Z.to_nat len) buf base 0 len w.

Definition put_u32 (buf : list Z) (p v : Z) : list Z :=
  let buf := buf.[p <- u8 (Z.shiftr v 24)] in
  let buf := buf.[p + 1 <- u8 (Z.shiftr v 16)] in
  let buf := buf.[p + 2 <- u8 (Z.shiftr v 8)] in
  buf.[p + 3 <- u8 v].

Definition get_u32 (buf : list Z) (p : Z) : Z :=
  Z.lor (Z.lor (Z.lor (Z.shiftl buf.[p] 24) (Z.shiftl buf.[p + 1] 16)) (Z.shiftl buf.[p + 2] 8)) buf.[p + 3].

Definition slice (buf : list Z) (off n : Z) : list Z := take (Z.to_nat n) (drop (Z.to_nat off) buf).

(** ** Plain packets *)

(** Random padding, [off] bytes done. *)
Fixpoint pad_loop (fuel : nat) (buf : list Z) (pos off pad : Z) (w : W) : list Z * W :=
  if pad <=? off then (buf, w) else
  match fuel with
  | O => (buf, w)
  | S fuel' =>
      let chunk := if 256 <? pad - off then 256 else pad - off in
      let '(_, l, w) := getrandom chunk w in
      pad_loop fuel' (memcpy buf (pos + off) l) pos (off + chunk) pad w
  end.

Definition plain_send (buf payload : list Z) (w : W) : bool * list Z * W :=
  let payload_len := zlen payload in
  let block_size := 8 in
  if SSH_PACKET_MAX <? payload_len then (false, buf, w) else
  let base := 4 + 1 + payload_len in
  let pad := block_size - base mod block_size in
  let pad := if pad <? 4 then pad + block_size else pad in
  let packet_length := 1 + payload_len + pad in
  let total := 4 + packet_length in
  if SSH_PACKET_MAX + 64 <? total then (false, buf, w) else
  let buf := put_u32 buf 0 packet_length in
  let buf := buf.[4 <- u8 pad] in
  let buf := memcpy buf 5 payload in
  let '(buf, w) := pad_loop (Z.to_nat pad) buf (5 + payload_len) 0 pad w in
  let '(ok, w) := send_buf buf total w in
  (ok, buf, w).

(** The payload, or [None] for -1. *)
Definition plain_recv (buf : list Z) (w : W) : option (list Z) * list Z * W :=
  let '(ok, lenbuf, w) := recv_buf (replicate 4 0) 0 4 w in
  if negb ok then (None, buf, w) else
  let packet_length := get_u32 lenbuf 0 in
  if (packet_length <? 5) || (SSH_PACKET_MAX <? packet_length) then (None, buf, w) else
  let '(ok, buf, w) := recv_buf buf 0 packet_length w in
  if negb ok then (None, buf, w) else
  let padding_length := buf.[0] in
  if packet_length <? padding_length + 1 then (None, buf, w) else
  let payload_len := packet_length - padding_length - 1 in
  (Some (slice buf 1 payload_len), buf, w).

(** ** Encrypted packets *)

Definition chacha_nonce (seq : Z) : list Z := put_u32 (replicate 12 0) 8 seq.

Definition ct_equal16 (a b : list Z) : bool := for_loop 16 0 (fun i acc => Z.lor acc (u8 (Z.lxor a.[i] b.[i]))) 0 =? 0.

(** [chacha20_xor(buf + off, buf + off, n, key, counter, nonce)]. *)
Definition crypt_at (buf : list Z) (off n : Z) (key : list Z) (counter : Z) (nonce : list Z) : list Z :=
  memcpy buf off (chacha20_xor (slice buf off n) key counter nonce).

(** [poly1305_auth] of the first [n] bytes, keyed with the first 32 bytes of [blk]. *)
Definition auth_tag (buf : list Z) (n : Z) (blk : list Z) : list Z := default [] (poly1305_auth (slice buf 0 n) n (take 32 blk)).

Definition enc_send (buf key : list Z) (seq : Z) (payload : list Z) (w : W) : bool * list Z * W :=
  let payload_len := zlen payload in
  let pad := 8 - u32 (1 + payload_len) mod 8 in
  let pad := if pad <? 4 then pad + 8 else pad in
  let packet_length := u32 (1 + payload_len + pad) in
  if (SSH_PACKET_MAX <? payload_len) || (SSH_PACKET_MAX <? packet_length) then (false, buf, w) else
  let buf := put_u32 buf 0 packet_length in
  let buf := buf.[4 <- u8 pad] in
  let buf := memcpy buf 5 payload in
  let '(r, padbuf, w) := getrandom pad w in
  if r <? 0 then (false, buf, w) else
  let buf := memcpy buf (5 + payload_len) padbuf in
  let nonce := chacha_nonce seq in
  let blk := chacha20_block key 0 nonce in
  let buf := crypt_at buf 4 packet_length key 1 nonce in
  let buf := crypt_at buf 0 4 (drop 32 key) 0 nonce in
  let buf := memcpy buf (4 + packet_length) (auth_tag buf (4 + packet_length) blk) in
  let '(ok, w) := send_buf buf (4 + packet_length + 16) w in
  (ok, buf, w).

Definition enc_recv (buf key : list Z) (seq : Z) (w : W) : option (list Z) * list Z * W :=
  let '(ok, buf, w) := recv_buf buf 0 4 w in
  if negb ok then (None, buf, w) else
  let nonce := chacha_nonce seq in
  let lenp := chacha20_xor (slice buf 0 4) (drop 32 key) 0 nonce in
  let packet_length := get_u32 lenp 0 in
  if (packet_length <? 8) || (SSH_PACKET_MAX <? packet_length) || negb (packet_length mod 8 =? 0) then (None, buf, w) else
  let '(ok, buf, w) := recv_buf buf 4 (packet_length + 16) w in
  if negb ok then (None, buf, w) else
  let blk := chacha20_block key 0 nonce in
  let tag := auth_tag buf (4 + packet_length) blk in
  if negb (ct_equal16 tag (slice buf (4 + packet_length) 16)) then (None, buf, w) else
  let buf := crypt_at buf 4 packet_length key 1 nonce in
  let pad := buf.[4] in
  if (pad <? 4) || (packet_length <=? pad + 1) then (None, buf, w) else
  let payload_len := packet_length - pad - 1 in
  (Some (slice buf 5 payload_len), buf, w).

(** ** Transport *)

(** The connection, the socket and the static buffers of the four functions above. *)
Record ssh := mk_ssh {
  seq_send : Z; seq_recv : Z;
  strict : bool;
  enc_send_on : bool; enc_recv_on : bool;
  key_send : list Z; key_recv : list Z;
  wire : W;
  plain_out : list Z; plain_in : list Z; enc_out : list Z; enc_in : list Z
}.

Definition ssh_transport_init (w : W) (po pi eo ei : list Z) : ssh :=
  mk_ssh 0 0 false false false (replicate 64 0) (replicate 64 0) w po pi eo ei.

Definition ssh_send (payload : list Z) (t : ssh) : bool * ssh :=
  if enc_send_on t then
    let '(ok, b, w) := enc_send (enc_out t) (key_send t) (seq_send t) payload (wire t) in
    (ok, mk_ssh (if ok : bool then u32 (seq_send t + 1) else seq_send t) (seq_recv t) (strict t) (enc_send_on t) (enc_recv_on t) (key_send t) (key_recv t) w (plain_out t) (plain_in t) b (enc_in t))
  else
    let '(ok, b, w) := plain_send (plain_out t) payload (wire t) in
    (ok, mk_ssh (if ok : bool then u32 (seq_send t + 1) else seq_send t) (seq_recv t) (strict t) (enc_send_on t) (enc_recv_on t) (key_send t) (key_recv t) w b (plain_in t) (enc_out t) (enc_in t)).

Definition ssh_recv (t : ssh) : option (list Z) * ssh :=
  if enc_recv_on t then
    let '(r, b, w) := enc_recv (enc_in t) (key_recv t) (seq_recv t) (wire t) in
    (r, mk_ssh (seq_send t) (if r is Some _ then u32 (seq_recv t + 1) else seq_recv t) (strict t) (enc_send_on t) (enc_recv_on t) (key_send t) (key_recv t) w (plain_out t) (plain_in t) (enc_out t) b)
  else
    let '(r, b, w) := plain_recv (plain_in t) (wire t) in
    (r, mk_ssh (seq_send t) (if r is Some _ then u32 (seq_recv t + 1) else seq_recv t) (strict t) (enc_send_on t) (enc_recv_on t) (key_send t) (key_recv t) w (plain_out t) b (enc_out t) (enc_in t)).

Definition ssh_transport_start_send_crypto (key : list Z) (t : ssh) : ssh :=
  mk_ssh (if strict t then 0 else seq_send t) (seq_recv t) (strict t) true (enc_recv_on t) (take 64 key) (key_recv t) (wire t) (plain_out t) (plain_in t) (enc_out t) (enc_in t).
Definition ssh_transport_start_recv_crypto (key : list Z) (t : ssh) : ssh :=
  mk_ssh (seq_send t) (if strict t then 0 else seq_recv t) (strict t) (enc_send_on t) true (key_send t) (take 64 key) (wire t) (plain_out t) (plain_in t) (enc_out t) (enc_in t).

Definition ssh_transport_wipe (t : ssh) : ssh :=
  mk_ssh 0 0 false false false (replicate 64 0) (replicate 64 0) (wire t) (plain_out t) (plain_in t) (enc_out t) (enc_in t).

End Packets.
Arguments ssh : clear implicits.

(** ** Wire format *)

(** RFC 4253, section 6. *)
Definition plain_packet (payload padding : list Z) : list Z :=
  be_bytes 4 (1 + zlen payload + zlen padding) ++ zlen padding :: payload ++ padding.

(** chacha20-poly1305@openssh.com: length and body under their keys, and the tag. *)
Definition packet_tag (key : list Z) (seq : Z) (c : list Z) : list Z := poly1305_spec c (take 32 (chacha20_block key 0 (chacha_nonce seq))).
Definition enc_header (key : list Z) (seq len : Z) : list Z := chacha20_xor (be_bytes 4 len) (drop 32 key) 0 (chacha_nonce seq).
Definition enc_body (key : list Z) (seq : Z) (body : list Z) : list Z := chacha20_xor body key 1 (chacha_nonce seq).
Definition enc_packet (key : list Z) (seq : Z) (payload padding : list Z) : list Z :=
  let c := enc_header key seq (1 + zlen payload + zlen padding) ++ enc_body key seq (zlen padding :: payload ++ padding) in
  c ++ packet_tag key seq c.

(** ** Buffers *)

Lemma memcpy_app {A} (buf l l' : list A) pos : 0 <= pos -> pos + zlen l + zlen l' <= zlen buf -> memcpy (memcpy buf pos l) (pos + zlen l) l' = memcpy buf pos (l ++ l').
Proof.
  intros Hp Hl. unfold memcpy, zlen in *. rewrite length_app. assert (Ht : length (take (Z.to_nat pos) buf) = Z.to_nat pos) by (rewrite length_take; lia).
  replace (Z.to_nat (pos + Z.of_nat (length l))) with (Z.to_nat pos + length l)%nat by lia. rewrite (app_assoc (take _ _) l), take_app_length' by (rewrite length_app; lia). rewrite <- !app_assoc. do 3 f_equal.
  rewrite app_assoc, drop_app_ge by (rewrite length_app; lia). rewrite length_app, drop_drop. f_equal. lia.
Qed.

Lemma push_at {A} (buf pre src : list A) pos :
  take (Z.to_nat pos) buf = pre -> zlen pre = pos -> pos + zlen src <= zlen buf ->
  take (Z.to_nat (pos + zlen src)) (memcpy buf pos src) = pre ++ src /\ zlen (memcpy buf pos src) = zlen buf.
Proof. intros <- Hp Hl. pose proof (zlen_nonneg (take (Z.to_nat pos) buf)). split; [apply take_memcpy; lia|apply zlen_memcpy; lia]. Qed.

Lemma be_bytes_shift v : be_bytes 4 v = [u8 (Z.shiftr v 24); u8 (Z.shiftr v 16); u8 (Z.shiftr v 8); u8 v].
Proof.
  unfold be_bytes. cbn [le_bytes rev app]. unfold u8. rewrite !shiftr_div, !Z.div_div by lia. reflexivity.
Qed.

Lemma put_u32_memcpy buf p v : 0 <= p -> p + 4 <= zlen buf -> put_u32 buf p v = memcpy buf p (be_bytes 4 v).
Proof.
  intros Hp Hl. rewrite be_bytes_shift. unfold put_u32. change [u8 (Z.shiftr v 24); u8 (Z.shiftr v 16); u8 (Z.shiftr v 8); u8 v] with ((fun i => u8 (Z.shiftr v (8 * (3 - i)))) <$> seqZ 0 (Z.of_nat 4)).
  rewrite <- fill_loop by lia. cbn [for_loop]. by rewrite Z.add_0_r.
Qed.

Lemma get_u32_val a b c d l : byte a -> byte b -> byte c -> byte d -> get_u32 (a :: b :: c :: d :: l) 0 = le_val [d; c; b; a].
Proof.
  intros Ha Hb Hc Hd. rewrite <- le32_lor by done. unfold get_u32, zget. change (Z.to_nat (0 + 1)) with 1%nat. change (Z.to_nat (0 + 2)) with 2%nat. change (Z.to_nat (0 + 3)) with 3%nat. change (Z.to_nat 0) with 0%nat.
  cbn [lookup_total list_lookup_total]. rewrite (Z.lor_comm _ d), (Z.lor_comm (Z.lor _ _) (Z.shiftl c 8)), (Z.lor_comm (Z.shiftl a 24)), !Z.lor_assoc. done.
Qed.

Lemma get_u32_be v l : 0 <= v < 2 ^ 32 -> get_u32 (be_bytes 4 v ++ l) 0 = v.
Proof.
  intros Hv. pose proof (Forall_be_bytes 4 v) as F. rewrite be_bytes_4 in * by done. cbn [app]. rewrite !Forall_cons in F. destruct F as (F1 & F2 & F3 & F4 & _). rewrite get_u32_val by done. cbn [le_val]. Z.div_mod_to_equations. lia.
Qed.

(** ** Streams *)

Section Streams.
Context {W : Type} {WW : Wire W}.
Implicit Types w : W.

Lemma send_all_sent fuel buf off len w ok w' :
  0 <= off -> len <= zlen buf -> send_all fuel buf off len w = (ok, w') ->
  w_avail w' = w_avail w /\ (ok = true -> off <= len -> w_sent w' = w_sent w ++ slice buf off (len - off)).
Proof.
  revert off w. induction fuel as [|fuel IH]; intros off w Ho Hl; cbn [send_all]; destruct (Z.leb_spec len off).
  1,3: intros [= <- <-]; split; [done|]; intros _ Hle; unfold slice; replace (Z.to_nat (len - off)) with 0%nat by lia; by rewrite take_0, app_nil_r.
  1: by intros [= <- <-].
  set (chunk := if 4096 <? len - off then 4096 else len - off). assert (Hc : 0 < chunk <= len - off) by (unfold chunk; destruct (Z.ltb_spec 4096 (len - off)); lia).
  set (c := take (Z.to_nat chunk) (drop (Z.to_nat off) buf)). assert (Hlc : zlen c = chunk) by (unfold c, zlen in *; rewrite length_take, length_drop; lia).
  pose proof (xsend_spec c w) as S. destruct (xsend c w) as [n w1]. destruct S as (S1 & S2 & S3). destruct (Z.leb_spec n 0); [intros [= <- <-]; split; [done|discriminate]|].
  intros Hr. apply IH in Hr as [R1 R2]; [|lia|done]. split; [congruence|]. intros Hok Hle. rewrite (R2 Hok), S2 by lia. rewrite <- app_assoc. f_equal. unfold slice, c. rewrite take_take, Nat.min_l by lia.
  replace (Z.to_nat (len - off)) with (Z.to_nat n + Z.to_nat (len - (off + n)))%nat by lia.
  rewrite <- (take_drop (Z.to_nat n) (take (Z.to_nat n + Z.to_nat (len - (off + n))) (drop (Z.to_nat off) buf))), take_take, Nat.min_l by lia. f_equal.
  rewrite skipn_firstn_comm, drop_drop. f_equal; [lia|]. f_equal. lia.
Qed.

(** What was received is what had arrived. *)
Lemma recv_exact_got fuel buf base off len w :
  0 <= base -> 0 <= off <= len -> base + len <= zlen buf -> len - off <= Z.of_nat fuel ->
  match recv_exact fuel buf base off len w with
  | (true, buf', w') => exists l, zlen l = len - off /\ w_avail w = l ++ w_avail w' /\ buf' = memcpy buf (base + off) l /\ w_sent w' = w_sent w
  | (false, buf', w') => zlen (w_avail w) < len - off /\ w_sent w' = w_sent w /\ zlen buf' = zlen buf
  end.
Proof.
  revert buf off w. induction fuel as [|fuel IH]; intros buf off w Hb Ho Hl Hf; cbn [recv_exact]; destruct (Z.leb_spec len off).
  1,3: exists []; split; [unfold zlen; cbn; lia|]; split; [done|]; split; [by rewrite memcpy_nil|done].
  1: lia.
  set (chunk := if 4096 <? len - off then 4096 else len - off). assert (Hc : 0 < chunk <= len - off) by (unfold chunk; destruct (Z.ltb_spec 4096 (len - off)); lia).
  pose proof (xrecv_spec chunk w ltac:(lia)) as S. destruct (xrecv chunk w) as [[n l] w1]. destruct S as (S1 & -> & S3 & S4 & S5 & S6). destruct (Z.leb_spec n 0) as [Hn|Hn].
  { destruct (w_avail w) as [|x xs] eqn:E; [unfold zlen; cbn; split; [lia|by split]|]. specialize (S6 ltac:(done)). lia. }
  assert (Hlt : zlen (take (Z.to_nat n) (w_avail w)) = n) by (unfold zlen in *; rewrite length_take; lia).
  assert (Hlm : zlen (memcpy buf (base + off) (take (Z.to_nat n) (w_avail w))) = zlen buf) by (apply zlen_memcpy; lia).
  specialize (IH (memcpy buf (base + off) (take (Z.to_nat n) (w_avail w))) (off + n) w1 Hb). rewrite Hlm in IH. specialize (IH ltac:(lia) Hl ltac:(lia)). destruct (recv_exact _ _ _ _ _ w1) as [[[] buf'] w'].
  - destruct IH as (l & L1 & L2 & L3 & L4). exists (take (Z.to_nat n) (w_avail w) ++ l). split; [rewrite zlen_app; lia|]. split; [rewrite <- app_assoc, <- L2, S3; by rewrite take_drop|]. split; [|congruence].
    rewrite L3. replace (base + (off + n)) with (base + off + zlen (take (Z.to_nat n) (w_avail w))) by lia. apply memcpy_app; lia.
  - destruct IH as (L1 & L2 & L3). rewrite S3 in L1. unfold zlen in *. rewrite length_drop in L1. split; [lia|]. split; [congruence|congruence].
Qed.

Lemma recv_buf_got buf base len w :
  0 <= base -> 0 <= len -> base + len <= zlen buf ->
  match recv_buf buf base len w with
  | (true, buf', w') => exists l, zlen l = len /\ w_avail w = l ++ w_avail w' /\ buf' = memcpy buf base l /\ w_sent w' = w_sent w
  | (false, buf', w') => zlen (w_avail w) < len /\ w_sent w' = w_sent w /\ zlen buf' = zlen buf
  end.
Proof.
  intros Hb Hl Hs. pose proof (recv_exact_got (Z.to_nat len) buf base 0 len w Hb ltac:(lia) Hs ltac:(lia)) as R. unfold recv_buf. destruct (recv_exact _ _ _ _ _ w) as [[[] buf'] w'].
  - destruct R as (l & L1 & L2 & L3 & L4). exists l. rewrite Z.add_0_r in L3. rewrite Z.sub_0_r in L1. done.
  - by rewrite Z.sub_0_r in R.
Qed.

(** Enough has arrived. *)
Lemma recv_buf_ready buf base len w l rest :
  0 <= base -> zlen l = len -> base + len <= zlen buf -> w_avail w = l ++ rest ->
  exists w', recv_buf buf base len w = (true, memcpy buf base l, w') /\ w_avail w' = rest /\ w_sent w' = w_sent w.
Proof.
  intros Hb Hl Hs Ha. pose proof (zlen_nonneg l). pose proof (recv_buf_got buf base len w Hb ltac:(lia) Hs) as R. destruct (recv_buf buf base len w) as [[[] buf'] w'].
  - destruct R as (l' & L1 & L2 & L3 & L4). rewrite Ha in L2. apply app_inj_1 in L2 as [<- ->]; [|unfold zlen in *; lia]. exists w'. by rewrite L3.
  - destruct R as [R _]. rewrite Ha, zlen_app in R. pose proof (zlen_nonneg rest). lia.
Qed.

(** ** Plain packets *)

Lemma pad_loop_once buf pos pad w : 0 < pad <= 256 -> pad_loop (Z.to_nat pad) buf pos 0 pad w = (memcpy buf pos (getrandom pad w).1.2, (getrandom pad w).2).
Proof.
  intros Hp. destruct (Z.to_nat pad) as [|f] eqn:E; [lia|]. cbn [pad_loop]. destruct (Z.leb_spec pad 0); [lia|]. rewrite Z.sub_0_r. destruct (Z.ltb_spec 256 pad); [lia|]. destruct (getrandom pad w) as [[r l] w']. cbn [fst snd].
  rewrite Z.add_0_r, Z.add_0_l. destruct f; cbn [pad_loop]; (destruct (Z.leb_spec pad pad); [done|lia]).
Qed.

Lemma send_buf_sent buf len w ok w' : 0 <= len <= zlen buf -> send_buf buf len w = (ok, w') -> w_avail w' = w_avail w /\ (ok = true -> w_sent w' = w_sent w ++ take (Z.to_nat len) buf).
Proof.
  intros Hl Hr. apply send_all_sent in Hr as [R1 R2]; [|lia|lia]. split; [done|]. intros Hok. rewrite (R2 Hok) by lia. unfold slice. by rewrite Z.sub_0_r.
Qed.

(** The frame that both senders build: length, padding length, payload, padding. *)
Lemma frame_built buf payload padding len pad :
  zlen padding = pad -> 5 + zlen payload + pad <= zlen buf -> 0 <= pad < 256 ->
  let buf' := memcpy (memcpy (put_u32 buf 0 len).[4 <- u8 pad] 5 payload) (5 + zlen payload) padding in
  take (Z.to_nat (5 + zlen payload + pad)) buf' = be_bytes 4 len ++ pad :: payload ++ padding /\ zlen buf' = zlen buf.
Proof.
  intros Hp Hb Hpad. pose proof (zlen_nonneg payload). rewrite put_u32_memcpy by lia. assert (L4 : zlen (be_bytes 4 len) = 4) by apply zlen_be_bytes.
  destruct (push_buf buf [] (be_bytes 4 len) 0) as [T1 L1]; [done|lia|lia|]. rewrite L4 in T1. cbn [app] in T1.
  rewrite zset_memcpy by lia. destruct (push_buf _ _ [u8 pad] 4 T1 ltac:(lia)) as [T2 L2]; [change (zlen [u8 pad]) with 1; lia|]. change (4 + zlen [u8 pad]) with 5 in T2. rewrite u8_small in * by lia.
  destruct (push_buf _ _ payload 5 T2 ltac:(lia)) as [T3 L3]; [lia|]. destruct (push_buf _ _ padding (5 + zlen payload) T3 ltac:(lia)) as [T4 L4']; [lia|]. rewrite Hp in T4. cbn zeta. split; [|lia].
  rewrite T4. rewrite <- !app_assoc. done.
Qed.

Lemma plain_send_sent buf payload w ok buf' w' :
  zlen buf = SSH_PACKET_MAX + 64 -> plain_send buf payload w = (ok, buf', w') ->
  w_avail w' = w_avail w /\ zlen buf' = zlen buf /\
  (ok = true -> exists padding, 4 <= zlen padding < 12 /\ Forall byte padding /\ w_sent w' = w_sent w ++ plain_packet payload padding).
Proof.
  intros Hb. unfold plain_send, SSH_PACKET_MAX in *. pose proof (zlen_nonneg payload) as Hp. destruct (Z.ltb_spec 35000 (zlen payload)); [by intros [= <- <- <-]|].
  set (pad := if _ <? 4 then _ else _). assert (Hpad : 4 <= pad < 12) by (unfold pad; pose proof (Z.mod_pos_bound (4 + 1 + zlen payload) 8 ltac:(lia)); destruct (Z.ltb_spec (8 - (4 + 1 + zlen payload) mod 8) 4); lia). clearbody pad.
  destruct (Z.ltb_spec (35000 + 64) (4 + (1 + zlen payload + pad))); [lia|]. rewrite pad_loop_once by lia. pose proof (getrandom_spec pad w ltac:(lia)) as G. destruct (getrandom pad w) as [[r l] w1]. destruct G as (G1 & G2 & G3 & G4). cbn [fst snd].
  destruct (frame_built buf payload l (1 + zlen payload + pad) pad G1 ltac:(lia) ltac:(lia)) as [T L]. set (b := memcpy _ (5 + zlen payload) l) in *. replace (4 + (1 + zlen payload + pad)) with (5 + zlen payload + pad) by lia.
  destruct (send_buf b (5 + zlen payload + pad) w1) as [ok' w2] eqn:E. intros [= <- <- <-]. apply send_buf_sent in E as [S1 S2]; [|lia]. split; [congruence|]. split; [lia|]. intros Hok. exists l. split; [lia|]. split; [done|].
  rewrite (S2 Hok), T, G3. unfold plain_packet. by rewrite G1.
Qed.

Lemma slice_app (a b : list Z) off n : zlen a = off -> 0 <= n <= zlen b -> slice (a ++ b) off n = take (Z.to_nat n) b.
Proof. intros <- Hn. unfold slice. by rewrite drop_app_length' by (unfold zlen; lia). Qed.

Lemma plain_recv_got buf payload padding w rest :
  zlen buf = SSH_PACKET_MAX -> 4 <= zlen padding < 12 -> 1 + zlen payload + zlen padding <= SSH_PACKET_MAX -> w_avail w = plain_packet payload padding ++ rest ->
  exists buf' w', plain_recv buf w = (Some payload, buf', w') /\ w_avail w' = rest /\ zlen buf' = zlen buf.
Proof.
  intros Hb Hpad Hlen Ha. pose proof (zlen_nonneg payload). unfold plain_recv, plain_packet, SSH_PACKET_MAX in *. rewrite <- app_assoc in Ha. set (len := 1 + zlen payload + zlen padding) in *.
  destruct (recv_buf_ready (replicate 4 0) 0 4 w _ _ ltac:(lia) (zlen_be_bytes 4 len) ltac:(done) Ha) as (w1 & -> & A1 & _). cbn [negb].
  replace (memcpy (replicate 4 0) 0 (be_bytes 4 len)) with (be_bytes 4 len ++ []) by (unfold memcpy; change (Z.to_nat 0) with 0%nat; rewrite take_0, drop_ge by (rewrite length_replicate; pose proof (zlen_be_bytes 4 len); unfold zlen in *; lia); done).
  rewrite get_u32_be by lia. destruct (Z.ltb_spec len 5), (Z.ltb_spec 35000 len); try lia. cbn [orb].
  assert (Hbody : zlen (zlen padding :: payload ++ padding) = len) by (unfold len, zlen; cbn [length]; rewrite length_app; lia).
  destruct (recv_buf_ready buf 0 len w1 _ _ ltac:(lia) Hbody ltac:(lia) A1) as (w2 & -> & A2 & _). cbn [negb].
  assert (Hm : memcpy buf 0 (zlen padding :: payload ++ padding) = [zlen padding] ++ payload ++ padding ++ drop (Z.to_nat len) buf).
  { unfold memcpy. change (Z.to_nat 0) with 0%nat. rewrite take_0. cbn [app Nat.add]. rewrite <- app_assoc. do 4 f_equal. rewrite <- Hbody. unfold zlen. by rewrite Nat2Z.id. }
  rewrite Hm. change (([zlen padding] ++ payload ++ padding ++ drop (Z.to_nat len) buf).[0]) with (zlen padding). destruct (Z.ltb_spec len (zlen padding + 1)); [unfold len in *; lia|].
  exists (memcpy buf 0 (zlen padding :: payload ++ padding)), w2. rewrite <- Hm. rewrite Hm at 1. pose proof (zlen_nonneg (drop (Z.to_nat len) buf)).
  rewrite slice_app by (done || (rewrite !zlen_app; unfold len in *; lia)).
  split; [|split; [done|apply zlen_memcpy; lia]]. do 3 f_equal. replace (Z.to_nat (len - zlen padding - 1)) with (length payload) by (unfold len, zlen; lia). by rewrite take_app_length.
Qed.

(** ** Encrypted packets *)

Lemma memcpy_mid (a x y b : list Z) pos : zlen a = pos -> zlen x = zlen y -> memcpy (a ++ x ++ b) pos y = a ++ y ++ b.
Proof.
  intros <- Hx. unfold memcpy, zlen in *. rewrite Nat2Z.id, take_app_length. do 2 f_equal. rewrite app_assoc. apply drop_app_length'. rewrite length_app. lia.
Qed.

Lemma slice_mid (a x b : list Z) pos n : zlen a = pos -> zlen x = n -> slice (a ++ x ++ b) pos n = x.
Proof. intros <- <-. unfold slice, zlen. rewrite !Nat2Z.id. by rewrite drop_app_length, take_app_length. Qed.

Lemma crypt_mid (a x b : list Z) pos n key counter nonce :
  zlen a = pos -> zlen x = n -> 0 <= counter < 2 ^ 32 -> crypt_at (a ++ x ++ b) pos n key counter nonce = a ++ chacha20_xor x key counter nonce ++ b.
Proof. intros Ha Hx Hc. unfold crypt_at. rewrite (slice_mid a x b) by done. apply memcpy_mid; [done|]. symmetry. by apply chacha20_xor_get. Qed.

Lemma auth_tag_spec c b n key seq :
  zlen c = n -> Forall byte c -> auth_tag (c ++ b) n (chacha20_block key 0 (chacha_nonce seq)) = packet_tag key seq c.
Proof.
  intros <- Hc. unfold auth_tag, packet_tag. replace (slice (c ++ b) 0 (zlen c)) with c by (symmetry; apply (slice_mid [] c b); done).
  destruct (chacha20_block_bytes key 0 (chacha_nonce seq)) as [Hb Hl]. rewrite poly1305_auth_run; [done|done|by apply Forall_take|]. unfold zlen in *. rewrite length_take. lia.
Qed.

Lemma zlen_packet_tag key seq c : zlen (packet_tag key seq c) = 16.
Proof. apply zlen_le_bytes. Qed.

Lemma packet_tag_byte key seq c : Forall byte (packet_tag key seq c).
Proof. apply le_bytes_byte. Qed.

Lemma ct_equal16_spec a b : zlen a = 16 -> zlen b = 16 -> Forall byte a -> Forall byte b -> ct_equal16 a b = bool_decide (a = b).
Proof.
  intros La Lb Ha Hb. rewrite <- tags_equal_spec by done. unfold ct_equal16, tags_equal. cbn [for_loop].
  rewrite !u8_small by (apply lxor_byte; (apply byte_zget; [done|lia])). done.
Qed.

Lemma zlen_enc_header key seq len : zlen (enc_header key seq len) = 4.
Proof. unfold enc_header. destruct (chacha20_xor_get (be_bytes 4 len) (drop 32 key) 0 (chacha_nonce seq)) as [-> _]; [lia|]. apply zlen_be_bytes. Qed.

Lemma zlen_enc_body key seq b : zlen (enc_body key seq b) = zlen b.
Proof. unfold enc_body. by destruct (chacha20_xor_get b key 1 (chacha_nonce seq) ltac:(lia)) as [-> _]. Qed.

Lemma enc_send_sent buf key seq payload w ok buf' w' :
  zlen buf = 4 + SSH_PACKET_MAX + 16 -> Forall byte payload -> enc_send buf key seq payload w = (ok, buf', w') ->
  w_avail w' = w_avail w /\ zlen buf' = zlen buf /\
  (ok = true -> exists padding, 4 <= zlen padding < 12 /\ Forall byte padding /\ (1 + zlen payload + zlen padding) mod 8 = 0 /\ 1 + zlen payload + zlen padding <= SSH_PACKET_MAX /\
     w_sent w' = w_sent w ++ enc_packet key seq payload padding).
Proof.
  intros Hb Hpb. unfold enc_send, SSH_PACKET_MAX in *. pose proof (zlen_nonneg payload) as Hp. destruct (Z.ltb_spec 35000 (zlen payload)); [by intros [= <- <- <-]|]. cbn [orb]. rewrite (u32_small (1 + zlen payload)) by lia.
  set (pad := if _ <? 4 then _ else _). assert (Hpad : 4 <= pad < 12 /\ (1 + zlen payload + pad) mod 8 = 0) by (unfold pad; destruct (Z.ltb_spec (8 - (1 + zlen payload) mod 8) 4); Z.div_mod_to_equations; lia). clearbody pad. destruct Hpad as [Hpad Hm8].
  rewrite (u32_small (1 + zlen payload + pad)) by lia. set (len := 1 + zlen payload + pad) in *. destruct (Z.ltb_spec 35000 len); [by intros [= <- <- <-]|]. pose proof (getrandom_spec pad w ltac:(lia)) as G. destruct (getrandom pad w) as [[r l] w1]. destruct G as (G1 & G2 & G3 & G4).
  assert (Lp : zlen (memcpy (put_u32 buf 0 len).[4 <- u8 pad] 5 payload) = zlen buf) by (assert (Lq : zlen (put_u32 buf 0 len).[4 <- u8 pad] = zlen buf) by (rewrite zlen_zset, put_u32_memcpy, zlen_memcpy by (rewrite ?zlen_be_bytes; lia); done); rewrite zlen_memcpy; lia).
  destruct (Z.ltb_spec r 0); [intros [= <- <- <-]; split; [done|]; split; [done|discriminate]|].
  destruct (frame_built buf payload l len pad G1 ltac:(lia) ltac:(lia)) as [T L]. set (b := memcpy _ (5 + zlen payload) l) in *. clearbody b. set (body := pad :: payload ++ l) in *.
  assert (Lbody : zlen body = len) by (unfold body, len, zlen in *; cbn [length]; rewrite length_app; lia). set (tl := drop (Z.to_nat (5 + zlen payload + pad)) b).
  assert (Eb : b = be_bytes 4 len ++ body ++ tl) by (rewrite <- (take_drop (Z.to_nat (5 + zlen payload + pad)) b), T, <- app_assoc; done). assert (Ltl : zlen tl = zlen buf - 4 - len) by (rewrite <- L, Eb, !zlen_app, zlen_be_bytes; lia).
  rewrite Eb. rewrite (crypt_mid (be_bytes 4 len) body tl) by (done || lia || apply zlen_be_bytes). fold (enc_body key seq body). pose proof (zlen_be_bytes 4 len) as L4.
  rewrite (crypt_mid [] (be_bytes 4 len) (enc_body key seq body ++ tl) 0 4) by (done || lia). fold (enc_header key seq len). cbn [app]. rewrite (app_assoc (enc_header key seq len)).
  pose proof (zlen_enc_header key seq len) as Lh. pose proof (zlen_enc_body key seq body) as Lc. set (c := enc_header key seq len ++ enc_body key seq body).
  assert (Lcc : zlen c = 4 + len) by (unfold c; rewrite zlen_app; lia). assert (Hcb : Forall byte c).
  { unfold c. apply Forall_app. split; (apply chacha20_xor_bytes; [lia|]); [apply Forall_be_bytes|]. apply Forall_cons. split; [unfold byte; lia|]. by apply Forall_app. }
  rewrite (auth_tag_spec c tl (4 + len) key seq Lcc Hcb). set (tag := packet_tag key seq c) in *. assert (Lt : zlen tag = 16) by apply zlen_packet_tag. rewrite <- (take_drop 16 tl).
  rewrite (memcpy_mid c (take 16 tl) tag) by (done || (rewrite Lt; unfold zlen in *; rewrite length_take; lia)).
  assert (Lf : zlen (c ++ tag ++ drop 16 tl) = zlen buf) by (rewrite !zlen_app; unfold zlen in *; rewrite length_drop; lia).
  assert (Tf : take (Z.to_nat (4 + len + 16)) (c ++ tag ++ drop 16 tl) = c ++ tag) by (rewrite app_assoc; apply take_app_length'; rewrite length_app; unfold zlen in *; lia).
  assert (Ep : enc_packet key seq payload l = c ++ tag) by (unfold enc_packet; rewrite G1; reflexivity). set (fin := c ++ tag ++ drop 16 tl) in *. clearbody fin. rewrite <- Ep in Tf. clear Ep. clearbody c tag.
  destruct (send_buf fin _ w1) as [ok' w2] eqn:E. intros [= <- <- <-]. apply send_buf_sent in E as [S1 S2]; [|lia]. split; [congruence|]. split; [done|]. intros Hok. exists l. rewrite G1. fold len.
  split; [lia|]. split; [done|]. split; [done|]. split; [done|]. rewrite (S2 Hok), G3. f_equal. exact Tf.
Qed.

(** The decrypted body of a packet of [len] bytes. *)
Definition parse_body (len : Z) (body : list Z) : option (list Z) :=
  let pad := body.[0] in if (pad <? 4) || (len <=? pad + 1) then None else Some (slice body 1 (len - pad - 1)).

Lemma slice_shift (a b c : list Z) i n : zlen a = 4 -> 0 <= i -> 0 <= n -> i + n <= zlen b -> slice (a ++ b ++ c) (4 + i) n = slice b i n.
Proof.
  intros Ha Hi Hn Hb. unfold slice. rewrite drop_app_ge by (unfold zlen in *; lia). replace (Z.to_nat (4 + i) - length a)%nat with (Z.to_nat i) by (unfold zlen in *; lia).
  rewrite drop_app_le by (unfold zlen in *; lia). rewrite take_app_le; [done|]. rewrite length_drop. unfold zlen in *. lia.
Qed.

Lemma enc_recv_run buf key seq w hdr ct tag rest :
  let len := get_u32 (chacha20_xor hdr (drop 32 key) 0 (chacha_nonce seq)) 0 in
  zlen buf = 4 + SSH_PACKET_MAX + 16 -> Forall byte (hdr ++ ct ++ tag) -> zlen hdr = 4 -> zlen ct = len -> zlen tag = 16 ->
  8 <= len <= SSH_PACKET_MAX -> len mod 8 = 0 -> w_avail w = hdr ++ ct ++ tag ++ rest ->
  exists buf' w', enc_recv buf key seq w = (if bool_decide (tag = packet_tag key seq (hdr ++ ct)) then parse_body len (enc_body key seq ct) else None, buf', w') /\
    w_avail w' = rest /\ zlen buf' = zlen buf.
Proof.
  intros len Hb Hby Lh Lc Lt Hr Hm Ha. unfold SSH_PACKET_MAX in *. unfold enc_recv. rewrite !Forall_app in Hby. destruct Hby as (B1 & B2 & B3).
  destruct (recv_buf_ready buf 0 4 w hdr _ ltac:(lia) Lh ltac:(lia) Ha) as (w1 & -> & A1 & _). cbn [negb]. assert (E1 : memcpy buf 0 hdr = hdr ++ drop 4 buf).
  { unfold memcpy. change (Z.to_nat 0) with 0%nat. rewrite take_0. cbn [app Nat.add]. do 2 f_equal. unfold zlen in Lh. lia. }
  rewrite E1. replace (slice (hdr ++ drop 4 buf) 0 4) with hdr by (symmetry; apply (slice_mid [] hdr); [done|done]). fold len. destruct (Z.ltb_spec len 8), (Z.ltb_spec SSH_PACKET_MAX len); unfold SSH_PACKET_MAX in *; try lia. destruct (Z.eqb_spec (len mod 8) 0); [|done]. cbn [orb negb].
  assert (L2 : zlen (hdr ++ drop 4 buf) = zlen buf) by (rewrite zlen_app; unfold zlen in *; rewrite length_drop; lia). rewrite (app_assoc ct) in A1. assert (Lct : zlen (ct ++ tag) = len + 16) by (rewrite zlen_app; lia).
  destruct (recv_buf_ready (hdr ++ drop 4 buf) 4 (len + 16) w1 (ct ++ tag) rest ltac:(lia) Lct ltac:(lia) A1) as (w2 & -> & A2 & _). cbn [negb].
  set (tl := drop (Z.to_nat (len + 16)) (drop 4 buf)). assert (E2 : memcpy (hdr ++ drop 4 buf) 4 (ct ++ tag) = hdr ++ ct ++ tag ++ tl).
  { rewrite <- (take_drop (Z.to_nat (len + 16)) (drop 4 buf)). rewrite memcpy_mid; [by rewrite <- app_assoc|done|]. rewrite Lct. unfold zlen in *. rewrite length_take, length_drop. lia. }
  rewrite E2. pose proof (zlen_nonneg ct). assert (Lf : zlen (hdr ++ ct ++ tag ++ tl) = zlen buf) by (rewrite <- E2, zlen_memcpy; lia).
  assert (Et : auth_tag (hdr ++ ct ++ tag ++ tl) (4 + len) (chacha20_block key 0 (chacha_nonce seq)) = packet_tag key seq (hdr ++ ct)) by (rewrite app_assoc; apply auth_tag_spec; [rewrite zlen_app; lia|by apply Forall_app]). rewrite Et.
  replace (slice (hdr ++ ct ++ tag ++ tl) (4 + len) 16) with tag by (symmetry; rewrite app_assoc; apply slice_mid; [rewrite zlen_app; lia|done]).
  rewrite ct_equal16_spec by (apply zlen_packet_tag || done || apply packet_tag_byte). clear Et E1 E2. destruct (decide (tag = packet_tag key seq (hdr ++ ct))) as [Etag|Etag].
  - rewrite !bool_decide_true by congruence. cbn [negb]. rewrite (crypt_mid hdr ct (tag ++ tl) 4 len) by (done || lia). fold (enc_body key seq ct). pose proof (zlen_enc_body key seq ct) as Lb. set (body := enc_body key seq ct) in *. clearbody body. clear Etag.
    assert (H4 : (hdr ++ body ++ tag ++ tl).[4] = body.[0]) by (rewrite zget_app, Lh by lia; destruct (Z.ltb_spec 4 4); [lia|]; rewrite zget_app by lia; destruct (Z.ltb_spec (4 - 4) (zlen body)); [done|lia]). rewrite H4. unfold parse_body.
    assert (Lf' : zlen (hdr ++ body ++ tag ++ tl) = zlen buf) by (rewrite !zlen_app in *; lia). destruct ((body.[0] <? 4) || (len <=? body.[0] + 1)) eqn:G; [by eexists _, _|]. apply orb_false_iff in G as [G1 G2]. apply Z.ltb_ge in G1. apply Z.leb_gt in G2.
    eexists _, w2. split; [|by split]. do 3 f_equal. rewrite <- (slice_shift hdr body (tag ++ tl)) by lia. done.
  - rewrite !bool_decide_false by congruence. cbn [negb]. eexists _, w2. split; [done|]. by split.
Qed.

(** What was accepted is one packet. *)
Lemma enc_recv_split buf key seq w p buf' w' :
  zlen buf = 4 + SSH_PACKET_MAX + 16 -> enc_recv buf key seq w = (Some p, buf', w') ->
  exists hdr ct tag rest, let len := get_u32 (chacha20_xor hdr (drop 32 key) 0 (chacha_nonce seq)) 0 in
    zlen hdr = 4 /\ zlen ct = len /\ zlen tag = 16 /\ 8 <= len <= SSH_PACKET_MAX /\ len mod 8 = 0 /\ w_avail w = hdr ++ ct ++ tag ++ rest.
Proof.
  intros Hb. unfold enc_recv. pose proof (recv_buf_got buf 0 4 w ltac:(lia) ltac:(lia) ltac:(unfold SSH_PACKET_MAX in *; lia)) as R1. destruct (recv_buf buf 0 4 w) as [[[] b1] w1]; cbn [negb]; [|done]. destruct R1 as (hdr & Lh & A1 & -> & _).
  assert (E1 : memcpy buf 0 hdr = hdr ++ drop 4 buf). { unfold memcpy. change (Z.to_nat 0) with 0%nat. rewrite take_0. cbn [app Nat.add]. do 2 f_equal. unfold zlen in Lh. lia. }
  assert (L1 : zlen (memcpy buf 0 hdr) = zlen buf) by (apply zlen_memcpy; unfold SSH_PACKET_MAX in *; lia).
  replace (slice (memcpy buf 0 hdr) 0 4) with hdr by (rewrite E1; symmetry; apply (slice_mid [] hdr); done). set (len := get_u32 _ 0). destruct (Z.ltb_spec len 8); [done|]. destruct (Z.ltb_spec SSH_PACKET_MAX len); [done|]. destruct (Z.eqb_spec (len mod 8) 0) as [Hm|]; [|done]. cbn [orb negb].
  pose proof (recv_buf_got (memcpy buf 0 hdr) 4 (len + 16) w1 ltac:(lia) ltac:(lia) ltac:(lia)) as R2. destruct (recv_buf _ 4 (len + 16) w1) as [[[] b2] w2]; cbn [negb]; [|done]. destruct R2 as (l & Ll & A2 & _ & _). intros _.
  exists hdr, (take (Z.to_nat len) l), (drop (Z.to_nat len) l), (w_avail w2). fold len. split; [done|]. split; [unfold zlen in *; rewrite length_take; lia|]. split; [unfold zlen in *; rewrite length_drop; lia|]. split; [done|]. split; [done|].
  rewrite A1, A2. f_equal. by rewrite app_assoc, take_drop.
Qed.

End Streams.

(** ** Connections *)

Lemma be_bytes_get l : zlen l = 4 -> Forall byte l -> be_bytes 4 (get_u32 l 0) = l.
Proof.
  intros Hl Hb. destruct l as [|a [|b [|c [|d [|]]]]]; unfold zlen in Hl; cbn [length] in Hl; try lia. rewrite !Forall_cons in Hb. destruct Hb as (A & B & C & D & _). rewrite get_u32_val by done.
  unfold be_bytes. change 4%nat with (length [d; c; b; a]). rewrite le_bytes_val by (rewrite !Forall_cons; by split_and!). done.
Qed.

Section Channel.
Context {W V : Type} {WW : Wire W} {WV : Wire V}.
Implicit Types (a : ssh W) (b : ssh V).

Definition buffers_ok {X} (t : ssh X) : Prop :=
  zlen (plain_out t) = SSH_PACKET_MAX + 64 /\ zlen (plain_in t) = SSH_PACKET_MAX /\ zlen (enc_out t) = 4 + SSH_PACKET_MAX + 16 /\ zlen (enc_in t) = 4 + SSH_PACKET_MAX + 16.

(** [b] receives what [a] sends: the same mode, keys and sequence number. *)
Definition linked a b : Prop := enc_send_on a = enc_recv_on b /\ key_send a = key_recv b /\ seq_send a = seq_recv b /\ strict a = strict b.

Definition sendable (p : list Z) : Prop := Forall byte p /\ 1 <= zlen p /\ zlen p + 12 <= SSH_PACKET_MAX.

(** An encrypted packet is accepted with its payload. *)
Lemma enc_packet_accepted buf key seq p padding (v : V) rest :
  zlen buf = 4 + SSH_PACKET_MAX + 16 -> sendable p -> 4 <= zlen padding < 12 -> Forall byte padding -> (1 + zlen p + zlen padding) mod 8 = 0 -> w_avail v = enc_packet key seq p padding ++ rest ->
  exists buf' v', enc_recv buf key seq v = (Some p, buf', v') /\ w_avail v' = rest /\ zlen buf' = zlen buf.
Proof.
  intros Hb (Hp & Hp1 & Hp2) Hpad Hpb Hm Ha. unfold enc_packet in Ha. set (len := 1 + zlen p + zlen padding) in *. set (body := zlen padding :: p ++ padding) in *. set (hdr := enc_header key seq len) in *. set (ct := enc_body key seq body) in *.
  assert (Lb : zlen body = len) by (unfold body, len, zlen; cbn [length]; rewrite length_app; lia). assert (Bb : Forall byte body) by (apply Forall_cons; split; [unfold byte; lia|by apply Forall_app]).
  assert (El : get_u32 (chacha20_xor hdr (drop 32 key) 0 (chacha_nonce seq)) 0 = len).
  { unfold hdr, enc_header. rewrite chacha20_xor_twice by lia. rewrite <- (app_nil_r (be_bytes 4 len)). apply get_u32_be. unfold SSH_PACKET_MAX in *. lia. }
  assert (Eb : enc_body key seq ct = body) by (unfold ct, enc_body; apply chacha20_xor_twice; lia). assert (Bh : Forall byte hdr) by (apply chacha20_xor_bytes; [lia|apply Forall_be_bytes]). assert (Bc : Forall byte ct) by (apply chacha20_xor_bytes; [lia|done]).
  rewrite <- !app_assoc in Ha. destruct (enc_recv_run buf key seq v hdr ct (packet_tag key seq (hdr ++ ct)) rest) as (buf' & v' & R & A & L); rewrite ?El.
  - exact Hb.
  - rewrite !Forall_app. split; [done|]. split; [done|apply packet_tag_byte].
  - apply zlen_enc_header.
  - unfold ct. by rewrite zlen_enc_body.
  - apply zlen_packet_tag.
  - unfold SSH_PACKET_MAX in *. assert (6 <= len <= 35000) by (unfold len; lia). Z.div_mod_to_equations; lia.
  - exact Hm.
  - exact Ha.
  - exists buf', v'. split; [|by split]. rewrite R, El, Eb, bool_decide_true by done. f_equal. f_equal. unfold parse_body. change (body.[0]) with (zlen padding). destruct (Z.ltb_spec (zlen padding) 4), (Z.leb_spec len (zlen padding + 1)); unfold len in *; try lia. cbn [orb]. f_equal.
    apply (slice_mid [zlen padding] p padding); [done|lia].
Qed.

(** One message. *)
Lemma message_passes p a a' :
  buffers_ok a -> sendable p -> ssh_send p a = (true, a') ->
  buffers_ok a' /\ exists pkt, w_sent (wire a') = w_sent (wire a) ++ pkt /\
  forall b rest, buffers_ok b -> linked a b -> w_avail (wire b) = pkt ++ rest ->
    exists b', ssh_recv b = (Some p, b') /\ buffers_ok b' /\ linked a' b' /\ w_avail (wire b') = rest.
Proof.
  intros (B1 & B2 & B3 & B4) Hp. pose proof Hp as (Hpb & Hp1 & Hp2). unfold ssh_send. destruct (enc_send_on a) eqn:Ea.
  - destruct (enc_send _ _ _ p _) as [[ok eo] w'] eqn:E. intros [= -> <-]. destruct (enc_send_sent _ _ _ _ _ _ _ _ B3 Hpb E) as (_ & L & S). destruct (S eq_refl) as (padding & P1 & P2 & P3 & P4 & P5). split; [unfold buffers_ok; cbn; lia|].
    exists (enc_packet (key_send a) (seq_send a) p padding). split; [done|]. intros b rest (C1 & C2 & C3 & C4) (K1 & K2 & K3 & K4) Hav. rewrite K2, K3 in Hav. unfold ssh_recv. rewrite <- K1, Ea.
    destruct (enc_packet_accepted (enc_in b) (key_recv b) (seq_recv b) p padding (wire b) rest C4 Hp P1 P2 P3 Hav) as (buf' & v' & -> & A & L'). eexists. split; [done|]. split; [unfold buffers_ok; cbn; lia|]. split; [unfold linked; cbn; split_and!; congruence|done].
  - destruct (plain_send _ p _) as [[ok po] w'] eqn:E. intros [= -> <-]. destruct (plain_send_sent _ _ _ _ _ _ B1 E) as (_ & L & S). destruct (S eq_refl) as (padding & P1 & P2 & P5). split; [unfold buffers_ok; cbn; lia|].
    exists (plain_packet p padding). split; [done|]. intros b rest (C1 & C2 & C3 & C4) (K1 & K2 & K3 & K4) Hav. unfold ssh_recv. rewrite <- K1, Ea.
    destruct (plain_recv_got (plain_in b) p padding (wire b) rest C2 P1 ltac:(lia) Hav) as (buf' & v' & -> & A & L'). eexists. split; [done|]. split; [unfold buffers_ok; cbn; lia|]. split; [unfold linked; cbn; split_and!; congruence|done].
Qed.

(** A direction of a connection: messages and changes of key. *)
Inductive event := Msg (p : list Z) | NewKeys (key : list Z).

Fixpoint sender (es : list event) a : bool * ssh W :=
  match es with
  | [] => (true, a)
  | Msg p :: es' => let '(ok, a) := ssh_send p a in if ok then sender es' a else (false, a)
  | NewKeys k :: es' => sender es' (ssh_transport_start_send_crypto k a)
  end.

Fixpoint receiver (es : list event) b : option (list (list Z)) * ssh V :=
  match es with
  | [] => (Some [], b)
  | Msg _ :: es' =>
      match ssh_recv b with
      | (Some p, b) => let '(r, b) := receiver es' b in ((fun l => p :: l) <$> r, b)
      | (None, b) => (None, b)
      end
  | NewKeys k :: es' => receiver es' (ssh_transport_start_recv_crypto k b)
  end.

Definition messages (es : list event) : list (list Z) := omap (fun e => match e with Msg p => Some p | NewKeys _ => None end) es.

End Channel.

(** C38: an SSH connection delivers its messages.  For every sequence of key changes and of
    packets of 1 to 34988 bytes ([sendable]: what both framings accept at both ends) that one
    side sends without an error of its socket -- plain framing first, encrypted and
    authenticated after each change, random padding, any splitting of the byte stream by the
    sockets -- the linked peer reads back exactly the payloads, in order, consumes exactly
    the bytes sent, and both sequence numbers stay equal. *)
Theorem ssh_connection {W V} {WW : Wire W} {WV : Wire V} (es : list event) (a a' : ssh W) :
  buffers_ok a -> Forall (fun e => match e with Msg p => sendable p | NewKeys _ => True end) es -> sender es a = (true, a') ->
  exists stream, w_sent (wire a') = w_sent (wire a) ++ stream /\
  forall (b : ssh V) rest, buffers_ok b -> linked a b -> w_avail (wire b) = stream ++ rest ->
    exists b', receiver es b = (Some (messages es), b') /\ linked a' b' /\ w_avail (wire b') = rest.
Proof.
  revert a. induction es as [|e es IH]; intros a Ba Hes Hs.
  { injection Hs as <-. exists []. rewrite app_nil_r. split; [done|]. intros b rest _ Hl Ha. by exists b. }
  apply Forall_cons in Hes as [He Hes]. destruct e as [p|k]; cbn [sender] in Hs.
  - destruct (ssh_send p a) as [[] a1] eqn:E; [|done]. destruct (message_passes (V := V) p a a1 Ba He E) as (B1 & pkt & S1 & R1). destruct (IH a1 B1 Hes Hs) as (str & S2 & R2).
    exists (pkt ++ str). rewrite S2, S1, app_assoc. split; [done|]. intros b rest Bb Hl Ha. rewrite <- app_assoc in Ha. destruct (R1 b _ Bb Hl Ha) as (b1 & E1 & Bb1 & Hl1 & Ha1). destruct (R2 b1 rest Bb1 Hl1 Ha1) as (b' & E2 & Hl2 & Ha2).
    exists b'. cbn [receiver]. rewrite E1, E2. done.
  - destruct (IH (ssh_transport_start_send_crypto k a) Ba Hes Hs) as (str & S2 & R2). exists str. split; [done|]. intros b rest Bb (K1 & K2 & K3 & K4) Ha.
    apply (R2 (ssh_transport_start_recv_crypto k b) rest); [done| |done]. unfold linked. cbn. by rewrite K3, K4.
Qed.

(** C39: authenticity.  Once encryption is on, [ssh_recv] returns a payload only when the
    bytes that arrived are exactly the encrypted packet of that payload -- header, body and
    Poly1305 tag -- under this connection's key and for the sequence number expected next;
    the sequence number then advances, so a packet changed, replayed or taken from another
    position in the stream is refused (unless the tag of the altered bytes is the same). *)
Theorem ssh_recv_authentic {W} {WW : Wire W} (t t' : ssh W) p :
  buffers_ok t -> Forall byte (w_avail (wire t)) -> enc_recv_on t = true -> ssh_recv t = (Some p, t') ->
  exists padding, w_avail (wire t) = enc_packet (key_recv t) (seq_recv t) p padding ++ w_avail (wire t') /\
    4 <= zlen padding /\ 1 <= zlen p /\ seq_recv t' = u32 (seq_recv t + 1).
Proof.
  intros (_ & _ & _ & B4) Hby He. unfold ssh_recv. rewrite He. destruct (enc_recv _ _ _ _) as [[r ei] w'] eqn:E. intros [= -> <-]. cbn [wire seq_recv]. set (key := key_recv t) in *. set (seq := seq_recv t) in *.
  destruct (enc_recv_split _ _ _ _ _ _ _ B4 E) as (hdr & ct & tag & rest & Lh & Lc & Lt & Hr & Hm & Ha). set (len := get_u32 (chacha20_xor hdr (drop 32 key) 0 (chacha_nonce seq)) 0) in *.
  rewrite Ha, !Forall_app in Hby. destruct Hby as (B1 & B2 & B3 & _). assert (Hall : Forall byte (hdr ++ ct ++ tag)) by (by rewrite !Forall_app).
  destruct (enc_recv_run (enc_in t) key seq (wire t) hdr ct tag rest B4 Hall Lh Lc Lt Hr Hm Ha) as (buf' & w2 & R & A & _). rewrite E in R. fold len in R. case_bool_decide as Etag; [|discriminate R].
  assert (Hp : parse_body len (enc_body key seq ct) = Some p) by (injection R as R _ _; done). assert (w' = w2) as -> by (injection R as _ _ R; done). clear R E. pose proof (zlen_enc_body key seq ct) as Lb. set (body := enc_body key seq ct) in *.
  assert (Bb : Forall byte body) by (apply chacha20_xor_bytes; [lia|done]). unfold parse_body in Hp. destruct ((body.[0] <? 4) || (len <=? body.[0] + 1)) eqn:G; [done|]. apply orb_false_iff in G as [G1 G2]. apply Z.ltb_ge in G1. apply Z.leb_gt in G2. injection Hp as <-.
  set (pad := body.[0]) in *. set (p := slice body 1 (len - pad - 1)). set (padding := drop (Z.to_nat (len - pad)) body). assert (Lp : zlen p = len - pad - 1) by (unfold p, slice, zlen in *; rewrite length_take, length_drop; lia).
  assert (Lpd : zlen padding = pad) by (unfold padding, zlen in *; rewrite length_drop; lia). assert (Ebody : body = pad :: p ++ padding).
  { unfold p, padding, slice. replace (Z.to_nat (len - pad)) with (1 + Z.to_nat (len - pad - 1))%nat by lia. rewrite <- drop_drop, take_drop. destruct body as [|x l]; [rewrite Lc in Lb; unfold zlen in Lb; cbn in Lb; lia|]. done. }
  exists padding. split; [|split; [lia|]; split; [lia|done]]. rewrite Ha, A. unfold enc_packet. rewrite Lpd, Lp, <- Ebody. replace (1 + (len - pad - 1) + pad) with len by lia.
  assert (Eh : enc_header key seq len = hdr).
  { unfold enc_header, len. rewrite be_bytes_get; [apply chacha20_xor_twice; lia| |apply chacha20_xor_bytes; [lia|done]]. by destruct (chacha20_xor_get hdr (drop 32 key) 0 (chacha_nonce seq) ltac:(lia)) as [-> _]. }
  assert (Ec : enc_body key seq body = ct) by (unfold body, enc_body; apply chacha20_xor_twice; lia). rewrite Eh, Ec, <- Etag. by rewrite !app_assoc.
Qed.

(** ** Concrete wires *)

Module SshDemo.

(** Sockets that move at most seven bytes a call, and a constant random source. *)
Record loop := mk_loop { out : list Z; inp : list Z }.

#[export] Program Instance loop_wire : Wire loop := {
  xsend b w := let n := Z.min 7 (zlen b) in (n, mk_loop (out w ++ take (Z.to_nat n) b) (inp w));
  xrecv k w := let n := Z.min (Z.min 7 k) (zlen (inp w)) in (n, take (Z.to_nat n) (inp w), mk_loop (out w) (drop (Z.to_nat n) (inp w)));
  getrandom k w := (0, replicate (Z.to_nat k) 170, w);
  w_sent := out;
  w_avail := inp
}.
Next Obligation. intros b w. cbn. split; [lia|done]. Qed.
Next Obligation. intros k w Hk. cbn. split; [lia|]. do 3 (split; [done|]). split; [lia|]. intros Hne. destruct (inp w); [done|]. unfold zlen. cbn [length]. lia. Qed.
Next Obligation. intros k w Hk. cbn. split; [unfold zlen; rewrite length_replicate; lia|]. split; [|done]. apply Forall_replicate. unfold byte. lia. Qed.

Definition start (s : bool) (input : list Z) : ssh loop :=
  let t := ssh_transport_init (mk_loop [] input) (replicate (Z.to_nat (SSH_PACKET_MAX + 64)) 0) (replicate (Z.to_nat SSH_PACKET_MAX) 0) (replicate (Z.to_nat (4 + SSH_PACKET_MAX + 16)) 0) (replicate (Z.to_nat (4 + SSH_PACKET_MAX + 16)) 0) in
  mk_ssh (seq_send t) (seq_recv t) s (enc_send_on t) (enc_recv_on t) (key_send t) (key_recv t) (wire t) (plain_out t) (plain_in t) (enc_out t) (enc_in t).

Lemma start_buffers s input : buffers_ok (start s input).
Proof. unfold buffers_ok, start. cbn [plain_out plain_in enc_out enc_in ssh_transport_init]. unfold zlen. rewrite !length_replicate. unfold SSH_PACKET_MAX. lia. Qed.

Definition demo_key : list Z := seqZ 3 64.
Definition demo_events : list event := [Msg [20; 1; 2; 3]; NewKeys demo_key; Msg [5; 0; 0]; Msg (seqZ 50 20)].
Definition demo_sent : list Z := Eval vm_compute in w_sent (wire (sender demo_events (start true [])).2).

(** [sender] succeeds and the bytes are those of [demo_sent]. *)
Lemma demo_sender : sender demo_events (start true []) = (true, (sender demo_events (start true [])).2) /\ w_sent (wire (sender demo_events (start true [])).2) = demo_sent.
Proof.
  split; [|vm_compute; reflexivity]. assert (E : (sender demo_events (start true [])).1 = true) by (vm_compute; reflexivity). revert E. generalize (sender demo_events (start true [])). intros [x y] E. cbn [fst snd] in *. by rewrite E.
Qed.

Lemma demo_sendable : Forall (fun e => match e with Msg p => sendable p | NewKeys _ => True end) demo_events.
Proof.
  unfold demo_events, sendable. repeat constructor; try (unfold SSH_PACKET_MAX, zlen; rewrite ?length_seqZ; cbn [length]; lia).
Qed.

Lemma ssh_connection_witness : exists b', receiver demo_events (start true demo_sent) = (Some [[20; 1; 2; 3]; [5; 0; 0]; seqZ 50 20], b') /\ w_avail (wire b') = [].
Proof.
  destruct demo_sender as [Hs Hd]. destruct (ssh_connection (V := loop) demo_events (start true []) _ (start_buffers _ _) demo_sendable Hs) as (stream & S & R).
  rewrite Hd in S. change (w_sent (wire (start true []))) with (@nil Z) in S. cbn [app] in S. subst stream.
  destruct (R (start true demo_sent) [] (start_buffers _ _)) as (b' & E & _ & A); [split_and!; reflexivity|by rewrite app_nil_r|]. exists b'. split; [exact E|exact A].
Defined.

(** The state in which the encrypted messages arrive. *)
Definition keyed (input : list Z) : ssh loop := ssh_transport_start_recv_crypto demo_key (start true input).
Definition demo_packet : list Z := Eval vm_compute in enc_packet demo_key 0 [5; 0; 0] (replicate 4 170).

Lemma demo_received : ssh_recv (keyed demo_packet) = (Some [5; 0; 0], (ssh_recv (keyed demo_packet)).2).
Proof.
  assert (E : (ssh_recv (keyed demo_packet)).1 = Some [5; 0; 0]) by (vm_compute; reflexivity). revert E. generalize (ssh_recv (keyed demo_packet)). intros [x y] E. cbn [fst snd] in *. by rewrite E.
Qed.

Lemma ssh_recv_authentic_witness : exists padding, demo_packet = enc_packet demo_key 0 [5; 0; 0] padding ++ w_avail (wire (ssh_recv (keyed demo_packet)).2) /\ 4 <= zlen padding.
Proof.
  destruct (ssh_recv_authentic (keyed demo_packet) (ssh_recv (keyed demo_packet)).2 [5; 0; 0] (start_buffers true demo_packet)) as (padding & E & Hp & _).
  - apply (Forall_impl (fun x => (0 <=? x) && (x <? 256) = true)); [|intros x Hx; unfold byte; lia]. change (Forall (fun x => (0 <=? x) && (x <? 256) = true) demo_packet). repeat constructor.
  - reflexivity.
  - exact demo_received.
  - exists padding. split; [exact E|exact Hp].
Defined.

(** One changed byte and the packet is refused, as it is under the next sequence number. *)
Example tampered_packet : (ssh_recv (keyed demo_packet.[6 <- 0])).1 = None.
Proof. vm_compute. reflexivity. Qed.
Example replayed_packet : (ssh_recv (ssh_recv (keyed (demo_packet ++ demo_packet))).2).1 = None.
Proof. vm_compute. reflexivity. Qed.

End SshDemo.
