(* ===== verification/SshKex.v ===== *)
(** * SSH algorithm negotiation (userspace/bin/sshd_packet.c)

    SSH_MSG_KEXINIT: the message the server builds, and what it reads from the peer's.
    [None] is a read outside the message. *)

From Stdlib Require Import Strings.String.
From S2P Require Import Prelude ChaCha20 Poly1305 Aead Net Ssh.

Definition str (s : string) : list Z := (fun c => Z.of_N (Ascii.N_of_ascii c)) <$> list_ascii_of_string s.

Definition KEX_ALGORITHMS : list Z := str "curve25519-sha256".
Definition HOST_KEY_ALGORITHMS : list Z := str "ssh-ed25519".
Definition CIPHER_ALGORITHMS : list Z := str "chacha20-poly1305@openssh.com".
Definition KEX_STRICT_S : list Z := str "kex-strict-s-v00@openssh.com".
Definition KEX_STRICT_C : list Z := str "kex-strict-c-v00@openssh.com".
Definition MAC_ALGORITHMS : list Z := str "".
Definition COMPRESSION_ALGORITHMS : list Z := str "none".
Definition LANGUAGES : list Z := str "".
Definition COMMA : Z := 44.

(** ** The server's message *)

(** [pos] after the list is written to [out] at [pos]. *)
Definition put_namelist (s : list Z) (st : list Z * Z) : list Z * Z :=
  let '(out, pos) := st in
  let len := zlen s in
  (memcpy (put_u32 out pos len) (pos + 4) s, pos + (4 + len)).

Definition ssh_kexinit_build (out cookie : list Z) : list Z * Z :=
  let pos := 0 in
  let out := out.[pos <- SSH_MSG_KEXINIT] in
  let pos := pos + 1 in
  let out := memcpy out pos (take 16 cookie) in
  let pos := pos + 16 in
  let st := put_namelist (KEX_ALGORITHMS ++ [COMMA] ++ KEX_STRICT_S) (out, pos) in
  let st := put_namelist HOST_KEY_ALGORITHMS st in
  let st := put_namelist CIPHER_ALGORITHMS st in
  let st := put_namelist CIPHER_ALGORITHMS st in
  let st := put_namelist MAC_ALGORITHMS st in
  let st := put_namelist MAC_ALGORITHMS st in
  let st := put_namelist COMPRESSION_ALGORITHMS st in
  let st := put_namelist COMPRESSION_ALGORITHMS st in
  let st := put_namelist LANGUAGES st in
  let '(out, pos) := put_namelist LANGUAGES st in
  let out := out.[pos <- 0] in
  let pos := pos + 1 in
  let out := put_u32 out pos 0 in
  (out, pos + 4).

(** ** The peer's message *)

(** [None], here and below: a read outside the message. *)
Definition u32_at (data : list Z) (i : Z) : option Z := if i + 4 <=? zlen data then Some (get_u32 data i) else None.

(** Start, length and the position after the list; [Some None] is NULL. *)
Definition read_namelist (data : list Z) (pos : Z) : option (option (Z * Z * Z)) :=
  let len := zlen data in
  if len <? u32 (pos + 4) then Some None else
  match u32_at data pos with
  | None => None
  | Some n =>
      let pos := u32 (pos + 4) in
      if len <? u32 (pos + n) then Some None else
      Some (Some (pos, n, u32 (pos + n)))
  end.

Fixpoint mcompare (a b : list Z) : Z :=
  match a, b with
  | x :: a', y :: b' => if negb (x =? y) then x - y else mcompare a' b'
  | _, _ => 0
  end.

Definition byte_at (data : list Z) (i : Z) : option Z := if i <? zlen data then Some data.[i] else None.

(** The loop of [namelist_contains] on the list of [len] bytes at [base]: [i] next,
    [start] where the token began, [n] iterations left. *)
Fixpoint contains_loop (n : nat) (data : list Z) (base len : Z) (needle : list Z) (i start : Z) : option bool :=
  match n with
  | O => Some false
  | S n' =>
      match (if i =? len then Some true else (fun c => c =? COMMA) <$> byte_at data (base + i)) with
      | None => None
      | Some false => contains_loop n' data base len needle (i + 1) start
      | Some true =>
          let tok_len := i - start in
          if (tok_len =? zlen needle) && (mcompare (slice data (base + start) (zlen needle)) needle =? 0) then Some true
          else contains_loop n' data base len needle (i + 1) (i + 1)
      end
  end.
Definition namelist_contains (data : list Z) (base len : Z) (needle : list Z) : option bool :=
  contains_loop (Z.to_nat (len + 1)) data base len needle 0 0.

(** [while (tok < len && list[tok] != ',') tok++]. *)
Fixpoint first_comma (n : nat) (data : list Z) (base len tok : Z) : option Z :=
  match n with
  | O => Some tok
  | S n' =>
      if len <=? tok then Some tok else
      match byte_at data (base + tok) with
      | None => None
      | Some c => if c =? COMMA then Some tok else first_comma n' data base len (tok + 1)
      end
  end.
Definition namelist_first_is (data : list Z) (base len : Z) (needle : list Z) : option bool :=
  match first_comma (Z.to_nat len) data base len 0 with
  | None => None
  | Some tok => Some ((tok =? zlen needle) && (mcompare (slice data base (zlen needle)) needle =? 0))
  end.

(** [print_namelist] copies at most 511 bytes of the list. *)
Definition print_namelist (data : list Z) (base len : Z) : option unit := if base + Z.min len 511 <=? zlen data then Some tt else None.

(** [n] lists from [pos] on: [Some None] is a malformed message. *)
Fixpoint read_lists (n : nat) (data : list Z) (pos : Z) : option (option (list (Z * Z) * Z)) :=
  match n with
  | O => Some (Some ([], pos))
  | S n' =>
      match read_namelist data pos with
      | None => None
      | Some None => Some None
      | Some (Some (start, len, pos)) =>
          match print_namelist data start len with
          | None => None
          | Some _ =>
              match read_lists n' data pos with
              | None => None
              | Some None => Some None
              | Some (Some (ls, pos)) => Some (Some ((start, len) :: ls, pos))
              end
          end
      end
  end.

#[local] Notation "x <- m ;; k" := (match m with None => None | Some x => k end) (at level 100, m at next level, right associativity).

Definition ssh_kexinit_check (data : list Z) : option bool :=
  let len := zlen data in
  if len <? 1 + 16 then Some false else
  t <- byte_at data 0 ;;
  if negb (t =? SSH_MSG_KEXINIT) then Some false else
  r <- read_lists 10 data (1 + 16) ;;
  match r with
  | None => Some false
  | Some (lists, _) =>
      ok_kex <- namelist_contains data (lists.[0]).1 (lists.[0]).2 KEX_ALGORITHMS ;;
      ok_hostkey <- namelist_contains data (lists.[1]).1 (lists.[1]).2 HOST_KEY_ALGORITHMS ;;
      ok_cipher_cs <- namelist_contains data (lists.[2]).1 (lists.[2]).2 CIPHER_ALGORITHMS ;;
      ok_cipher_sc <- namelist_contains data (lists.[3]).1 (lists.[3]).2 CIPHER_ALGORITHMS ;;
      Some (ok_kex && ok_hostkey && ok_cipher_cs && ok_cipher_sc)
  end.

(** [n] lists passed over from [pos] on. *)
Fixpoint skip_lists (n : nat) (data : list Z) (pos : Z) : option (option (list (Z * Z) * Z)) :=
  match n with
  | O => Some (Some ([], pos))
  | S n' =>
      match read_namelist data pos with
      | None => None
      | Some None => Some None
      | Some (Some (start, len, pos)) =>
          match skip_lists n' data pos with
          | None => None
          | Some None => Some None
          | Some (Some (ls, pos)) => Some (Some ((start, len) :: ls, pos))
          end
      end
  end.

Definition ssh_kexinit_wrong_guess (data : list Z) : option bool :=
  let len := zlen data in
  let pos := 1 + 16 in
  if len <? pos then Some false else
  t <- byte_at data 0 ;;
  if negb (t =? SSH_MSG_KEXINIT) then Some false else
  r <- skip_lists 10 data pos ;;
  match r with
  | None => Some false
  | Some (lists, pos) =>
      if len <? u32 (pos + 1) then Some false else
      follows <- byte_at data pos ;;
      if follows =? 0 then Some false else
      a <- namelist_first_is data (lists.[0]).1 (lists.[0]).2 KEX_ALGORITHMS ;;
      if a then
        b <- namelist_first_is data (lists.[1]).1 (lists.[1]).2 HOST_KEY_ALGORITHMS ;;
        Some (negb b)
      else Some true
  end.

Definition ssh_kexinit_peer_strict (data : list Z) : option bool :=
  let len := zlen data in
  let pos := 1 + 16 in
  if len <? pos then Some false else
  t <- byte_at data 0 ;;
  if negb (t =? SSH_MSG_KEXINIT) then Some false else
  r <- read_namelist data pos ;;
  match r with
  | None => Some false
  | Some (start, n, _) => namelist_contains data start n KEX_STRICT_C
  end.

(** ** Specification *)

(** The comma-separated names of a list. *)
Fixpoint names (l : list Z) : list (list Z) :=
  match l with
  | [] => [[]]
  | c :: l' => if c =? COMMA then [] :: names l' else match names l' with t :: ts => (c :: t) :: ts | [] => [[c]] end
  end.

Definition name_list (l : list Z) : list Z := be_bytes 4 (zlen l) ++ l.

(** A KEXINIT message: cookie, the ten lists, the flag byte and what follows. *)
Definition kexinit (cookie : list Z) (ls : list (list Z)) (follows : Z) (rest : list Z) : list Z :=
  SSH_MSG_KEXINIT :: cookie ++ concat (name_list <$> ls) ++ follows :: rest.

(** The lengths of [n] lists, the first at [pos], as far as they can be read, do not
    take the position past [2^32]. *)
Fixpoint lengths_fit (n : nat) (data : list Z) (pos : Z) : bool :=
  match n with
  | O => true
  | S n' =>
      if zlen data <? pos + 4 then true else
      let next := pos + 4 + get_u32 data pos in
      (next <? 2 ^ 32) && ((zlen data <? next) || lengths_fit n' data next)
  end.

Definition offers (l name : list Z) : bool := bool_decide (name ∈ names l).
Definition prefers (l name : list Z) : bool := bool_decide (head (names l) = Some name).

(** ** Names *)

Lemma names_app t m : Forall (fun c => c <> COMMA) t -> exists x xs, names m = x :: xs /\ names (t ++ m) = (t ++ x) :: xs.
Proof.
  intros Ht. assert (Hm : exists x xs, names m = x :: xs).
  { destruct m as [|c m]; cbn [names]; [by eexists _, _|]. case_match; [by eexists _, _|]. destruct (names m); by eexists _, _. }
  destruct Hm as (x & xs & Hm). exists x, xs. split; [done|]. induction Ht as [|c t Hc Ht IH]; [done|]. cbn [app names]. destruct (Z.eqb_spec c COMMA); [done|]. by rewrite IH.
Qed.

Lemma names_nocomma t : Forall (fun c => c <> COMMA) t -> names t = [t].
Proof. intros Ht. destruct (names_app t [] Ht) as (x & xs & H1 & H2). injection H1 as <- <-. by rewrite !app_nil_r in H2. Qed.

Lemma names_comma t m : Forall (fun c => c <> COMMA) t -> names (t ++ COMMA :: m) = t :: names m.
Proof. intros Ht. destruct (names_app t (COMMA :: m) Ht) as (x & xs & H1 & H2). cbn [names] in H1. rewrite Z.eqb_refl in H1. injection H1 as <- <-. by rewrite app_nil_r in H2. Qed.

Lemma mcompare_eq a b : length a = length b -> (mcompare a b =? 0) = bool_decide (a = b).
Proof.
  revert b. induction a as [|x a IH]; intros [|y b] Hl; try done. injection Hl as Hl. cbn [mcompare]. destruct (Z.eqb_spec x y) as [->|Hne]; cbn [negb].
  - rewrite IH by done. apply bool_decide_ext. split; congruence.
  - rewrite bool_decide_false by congruence. apply Z.eqb_neq. lia.
Qed.

Section Names.
Context (data : list Z) (base len : Z) (needle : list Z).
Context (Hbase : 0 <= base) (Hlen : 0 <= len) (Hin : base + len <= zlen data).
#[local] Abbreviation l := (slice data base len).

Lemma zlen_slice : zlen l = len.
Proof. unfold slice, zlen in *. rewrite length_take, length_drop. lia. Qed.

Lemma slice_slice i n : 0 <= i -> 0 <= n -> i + n <= len -> slice data (base + i) n = slice l i n.
Proof.
  intros Hi Hn Hl. unfold slice. rewrite take_drop_take by lia. rewrite drop_drop. do 2 f_equal. lia.
Qed.

Lemma byte_at_list i : 0 <= i < len -> exists c, byte_at data (base + i) = Some c /\ drop (Z.to_nat i) l = c :: drop (Z.to_nat (i + 1)) l.
Proof.
  intros Hi. unfold byte_at. destruct (Z.ltb_spec (base + i) (zlen data)); [|lia]. exists l.[i]. split.
  - f_equal. unfold slice, zget. rewrite lookup_total_take, decide_True, lookup_total_drop by lia. f_equal. lia.
  - pose proof zlen_slice. replace (Z.to_nat (i + 1)) with (S (Z.to_nat i)) by lia. apply drop_S, zget_lookup. lia.
Qed.

Lemma token_is i start t :
  0 <= start <= i -> i <= len -> drop (Z.to_nat start) l = t ++ drop (Z.to_nat i) l -> zlen t = i - start ->
  (i - start =? zlen needle) && (mcompare (slice data (base + start) (zlen needle)) needle =? 0) = bool_decide (needle = t).
Proof.
  intros Hs Hi Ht Hl. destruct (Z.eqb_spec (i - start) (zlen needle)) as [E|E]; cbn [andb]; [|rewrite bool_decide_false; [done|]; intros ->; lia].
  pose proof (zlen_nonneg needle). rewrite slice_slice by lia. unfold slice at 1. rewrite Ht. rewrite take_app_length' by (unfold zlen in *; lia). rewrite mcompare_eq by (unfold zlen in *; lia). apply bool_decide_ext. split; congruence.
Qed.

Lemma contains_loop_spec n i start t :
  Z.of_nat n = len + 1 - i -> 0 <= start <= i -> i <= len -> drop (Z.to_nat start) l = t ++ drop (Z.to_nat i) l -> zlen t = i - start -> Forall (fun c => c <> COMMA) t ->
  contains_loop n data base len needle i start = Some (bool_decide (needle ∈ names (drop (Z.to_nat start) l))).
Proof.
  revert i start t. induction n as [|n IH]; intros i start t Hn Hs Hi Ht Hl Hc; [lia|]. cbn [contains_loop]. destruct (Z.eqb_spec i len) as [->|Hne].
  - rewrite (token_is len start t) by done. assert (Et : drop (Z.to_nat len) l = []) by (apply drop_ge; pose proof zlen_slice as Hz; unfold zlen in Hz; lia). rewrite Ht, Et, app_nil_r, names_nocomma by done.
    destruct n; [|lia]. cbn [contains_loop]. case_bool_decide as E; f_equal; symmetry; [apply bool_decide_true; rewrite E; by apply list_elem_of_here|apply bool_decide_false; by rewrite list_elem_of_singleton].
  - destruct (byte_at_list i ltac:(lia)) as (c & -> & Hd). cbn [fmap option_fmap option_map]. destruct (Z.eqb_spec c COMMA) as [->|Hcc].
    + rewrite (token_is i start t) by done. rewrite Ht, Hd, names_comma by done. case_bool_decide as E; [subst t; f_equal; symmetry; apply bool_decide_true, list_elem_of_here|].
      rewrite (IH (i + 1) (i + 1) []) by (solve [done | lia | constructor | unfold zlen; cbn [length]; lia]). f_equal. apply bool_decide_ext. rewrite elem_of_cons. tauto.
    + apply (IH (i + 1) start (t ++ [c])); [lia|lia|lia|by rewrite Ht, Hd, <- app_assoc|rewrite zlen_app; change (zlen [c]) with 1; lia|]. apply Forall_app. split; [done|]. by constructor.
Qed.

Lemma namelist_contains_spec : namelist_contains data base len needle = Some (offers l needle).
Proof. unfold namelist_contains, offers. apply (contains_loop_spec _ 0 0 []); (done || lia || constructor). Qed.

Lemma first_comma_spec n tok t :
  Z.of_nat n = len - tok -> 0 <= tok <= len -> l = t ++ drop (Z.to_nat tok) l -> zlen t = tok -> Forall (fun c => c <> COMMA) t ->
  exists t', first_comma n data base len tok = Some (zlen t') /\ head (names l) = Some t' /\ l = t' ++ drop (Z.to_nat (zlen t')) l /\ zlen t' <= len.
Proof.
  revert tok t. induction n as [|n IH]; intros tok t Hn Ht Hl Hz Hc; cbn [first_comma].
  - exists t. rewrite Hz. split; [done|]. split; [|split; [done|lia]]. rewrite Hl, drop_ge by (pose proof zlen_slice as Hzs; unfold zlen in Hzs; lia). by rewrite app_nil_r, names_nocomma.
  - destruct (Z.leb_spec len tok); [lia|]. destruct (byte_at_list tok ltac:(lia)) as (c & -> & Hd). destruct (Z.eqb_spec c COMMA) as [->|Hcc].
    + exists t. rewrite Hz. split; [done|]. split; [|split; [done|lia]]. by rewrite Hl, Hd, names_comma.
    + apply (IH (tok + 1) (t ++ [c])); [lia|lia|rewrite <- app_assoc; cbn [app]; by rewrite <- Hd|rewrite zlen_app; change (zlen [c]) with 1; lia|]. apply Forall_app. split; [done|]. by constructor.
Qed.

Lemma namelist_first_is_spec : namelist_first_is data base len needle = Some (prefers l needle).
Proof.
  unfold namelist_first_is, prefers. destruct (first_comma_spec (Z.to_nat len) 0 []) as (t & -> & Hh & Hl & Hz); [lia|lia|done|done|constructor|]. rewrite Hh. f_equal. pose proof (zlen_nonneg t) as Hn.
  pose proof (token_is (zlen t) 0 t ltac:(lia) Hz Hl ltac:(lia)) as T. rewrite Z.sub_0_r, Z.add_0_r in T. rewrite T. apply bool_decide_ext. split; congruence.
Qed.

End Names.

(** ** Reading the lists *)

(** Where the lists begin and how long they are, the first at [pos]. *)
Fixpoint spans (pos : Z) (ls : list (list Z)) : list (Z * Z) :=
  match ls with [] => [] | l :: ls' => (pos + 4, zlen l) :: spans (pos + 4 + zlen l) ls' end.

Lemma zget_at (pre b : list Z) i : 0 <= i -> (pre ++ b).[zlen pre + i] = b.[i].
Proof. intros Hi. pose proof (zlen_nonneg pre). rewrite zget_app by lia. destruct (Z.ltb_spec (zlen pre + i) (zlen pre)); [lia|]. f_equal. lia. Qed.

Lemma get_u32_at (pre post : list Z) v : 0 <= v < 2 ^ 32 -> get_u32 (pre ++ be_bytes 4 v ++ post) (zlen pre) = v.
Proof. intros Hv. rewrite <- (get_u32_be v post) at 2 by done. unfold get_u32. rewrite <- (Z.add_0_r (zlen pre)) at 1. by rewrite !zget_at by lia. Qed.

Lemma zlen_name_list l : zlen (name_list l) = 4 + zlen l.
Proof. unfold name_list. by rewrite zlen_app, zlen_be_bytes. Qed.

Section Lists.
Context (data : list Z) (Hdata : zlen data < 2 ^ 31).

Lemma read_namelist_spec pre l post : data = pre ++ name_list l ++ post -> read_namelist data (zlen pre) = Some (Some (zlen pre + 4, zlen l, zlen pre + 4 + zlen l)).
Proof.
  intros Hd. pose proof (zlen_nonneg pre). pose proof (zlen_nonneg l). pose proof (zlen_nonneg post). assert (Hz : zlen data = zlen pre + (4 + zlen l + zlen post)) by (rewrite Hd, !zlen_app, zlen_name_list; lia).
  unfold read_namelist, u32_at. rewrite (u32_small (zlen pre + 4)) by lia. destruct (Z.leb_spec (zlen pre + 4) (zlen data)); [|lia]. destruct (Z.ltb_spec (zlen data) (zlen pre + 4)); [lia|]. assert (E : get_u32 data (zlen pre) = zlen l) by (rewrite Hd; unfold name_list; rewrite <- app_assoc; apply get_u32_at; lia). rewrite E.
  rewrite u32_small by lia. by destruct (Z.ltb_spec (zlen data) (zlen pre + 4 + zlen l)); [lia|].
Qed.

Lemma skip_lists_spec ls pre post :
  data = pre ++ concat (name_list <$> ls) ++ post -> skip_lists (length ls) data (zlen pre) = Some (Some (spans (zlen pre) ls, zlen pre + zlen (concat (name_list <$> ls)))).
Proof.
  revert pre. induction ls as [|l ls IH]; intros pre Hd; [cbn; by rewrite Z.add_0_r|]. cbn [fmap list_fmap concat length skip_lists spans] in *. rewrite <- app_assoc in Hd. rewrite (read_namelist_spec pre l _ Hd).
  replace (zlen pre + 4 + zlen l) with (zlen (pre ++ name_list l)) by (rewrite zlen_app, zlen_name_list; lia). rewrite IH by (by rewrite <- app_assoc). do 3 f_equal. rewrite !zlen_app. unfold fmap. lia.
Qed.

Lemma read_lists_spec ls pre post :
  data = pre ++ concat (name_list <$> ls) ++ post -> read_lists (length ls) data (zlen pre) = Some (Some (spans (zlen pre) ls, zlen pre + zlen (concat (name_list <$> ls)))).
Proof.
  revert pre. induction ls as [|l ls IH]; intros pre Hd; [cbn; by rewrite Z.add_0_r|]. cbn [fmap list_fmap concat length read_lists spans] in *. rewrite <- app_assoc in Hd. rewrite (read_namelist_spec pre l _ Hd).
  assert (Hp : print_namelist data (zlen pre + 4) (zlen l) = Some tt).
  { unfold print_namelist. destruct (Z.leb_spec (zlen pre + 4 + Z.min (zlen l) 511) (zlen data)) as [|Hlt]; [done|]. rewrite Hd, !zlen_app, zlen_name_list in Hlt. pose proof (zlen_nonneg (concat (name_list <$> ls))). pose proof (zlen_nonneg post). unfold fmap in *. lia. }
  rewrite Hp. replace (zlen pre + 4 + zlen l) with (zlen (pre ++ name_list l)) by (rewrite zlen_app, zlen_name_list; lia). rewrite IH by (by rewrite <- app_assoc). do 3 f_equal. rewrite !zlen_app. unfold fmap. lia.
Qed.

Lemma spans_lookup ls pre post i :
  data = pre ++ concat (name_list <$> ls) ++ post -> 0 <= i < zlen ls ->
  let s := (spans (zlen pre) ls).[i] in 0 <= s.1 /\ 0 <= s.2 /\ s.1 + s.2 <= zlen data /\ slice data s.1 s.2 = ls.[i].
Proof.
  revert pre i. induction ls as [|l ls IH]; intros pre i Hd Hi; [unfold zlen in Hi; cbn in Hi; lia|]. cbn [fmap list_fmap concat spans] in *. rewrite <- app_assoc in Hd. destruct (decide (i = 0)) as [->|Hn].
  - change (((zlen pre + 4, zlen l) :: spans (zlen pre + 4 + zlen l) ls).[0]) with (zlen pre + 4, zlen l). change ((l :: ls).[0]) with l. cbn [fst snd]. pose proof (zlen_nonneg pre). pose proof (zlen_nonneg l). split; [lia|]. split; [lia|]. split.
    + rewrite Hd, !zlen_app, zlen_name_list. pose proof (zlen_nonneg (concat (name_list <$> ls))). pose proof (zlen_nonneg post). unfold fmap in *. lia.
    + rewrite Hd. unfold name_list. rewrite <- app_assoc, app_assoc. apply slice_mid; [rewrite zlen_app, zlen_be_bytes; lia|done].
  - assert (Hz : zlen (l :: ls) = 1 + zlen ls) by (unfold zlen; cbn; lia). replace (zlen pre + 4 + zlen l) with (zlen (pre ++ name_list l)) by (rewrite zlen_app, zlen_name_list; lia).
    pose proof (IH (pre ++ name_list l) (i - 1) ltac:(by rewrite <- app_assoc) ltac:(lia)) as R. unfold zget in *. replace (Z.to_nat i) with (S (Z.to_nat (i - 1))) by lia. exact R.
Qed.

(** Any bytes, as long as the lengths do not wrap. *)
Context (Hbytes : Forall byte data).

Definition inside (s : Z * Z) : Prop := 0 <= s.1 /\ 0 <= s.2 /\ s.1 + s.2 <= zlen data.

Lemma read_namelist_in n pos : 0 <= pos <= zlen data -> lengths_fit (S n) data pos = true ->
  read_namelist data pos = Some None \/
  exists l, read_namelist data pos = Some (Some (pos + 4, l, pos + 4 + l)) /\ inside (pos + 4, l) /\ lengths_fit n data (pos + 4 + l) = true.
Proof.
  intros Hp. cbn [lengths_fit]. unfold read_namelist, u32_at. rewrite (u32_small (pos + 4)) by lia. destruct (Z.ltb_spec (zlen data) (pos + 4)); [by left|].
  destruct (Z.leb_spec (pos + 4) (zlen data)); [|lia]. assert (Hn : 0 <= get_u32 data pos).
  { unfold get_u32. pose proof (byte_zget data pos Hbytes ltac:(lia)). pose proof (byte_zget data (pos + 1) Hbytes ltac:(lia)). pose proof (byte_zget data (pos + 2) Hbytes ltac:(lia)). pose proof (byte_zget data (pos + 3) Hbytes ltac:(lia)). unfold byte in *.
    rewrite !Z.lor_nonneg, !Z.shiftl_nonneg. lia. }
  rewrite andb_true_iff, Z.ltb_lt, orb_true_iff, Z.ltb_lt. intros [H1 H2]. rewrite u32_small by lia. destruct (Z.ltb_spec (zlen data) (pos + 4 + get_u32 data pos)) as [|Hin]; [by left|].
  right. exists (get_u32 data pos). split; [done|]. split; [unfold inside; cbn [fst snd]; lia|]. destruct H2; [lia|done].
Qed.

(** What either loop over the lists gives. *)
Definition lists_in (n : nat) (r : option (list (Z * Z) * Z)) : Prop :=
  match r with None => True | Some (ls, pos) => length ls = n /\ Forall inside ls /\ 0 <= pos <= zlen data end.

Lemma skip_lists_in n pos : 0 <= pos <= zlen data -> lengths_fit n data pos = true -> exists r, skip_lists n data pos = Some r /\ lists_in n r.
Proof.
  revert pos. induction n as [|n IH]; intros pos Hp Hf; [by eexists|]. cbn [skip_lists]. destruct (read_namelist_in n pos Hp Hf) as [->|(l & -> & Hi & Hf')]; [by eexists|].
  destruct (IH (pos + 4 + l)) as (r & -> & Hr); [unfold inside in Hi; cbn [fst snd] in Hi; lia|done|]. destruct r as [[ls pos']|]; [|by eexists]. eexists. split; [done|].
  destruct Hr as (Hl & Hls & Hq). split; [cbn; lia|]. split; [by constructor|done].
Qed.

Lemma read_lists_in n pos : 0 <= pos <= zlen data -> lengths_fit n data pos = true -> exists r, read_lists n data pos = Some r /\ lists_in n r.
Proof.
  revert pos. induction n as [|n IH]; intros pos Hp Hf; [by eexists|]. cbn [read_lists]. destruct (read_namelist_in n pos Hp Hf) as [->|(l & -> & Hi & Hf')]; [by eexists|].
  assert (Hpr : print_namelist data (pos + 4) l = Some tt) by (unfold print_namelist, inside in *; cbn [fst snd] in Hi; destruct (Z.leb_spec (pos + 4 + Z.min l 511) (zlen data)); [done|lia]). rewrite Hpr.
  destruct (IH (pos + 4 + l)) as (r & -> & Hr); [unfold inside in Hi; cbn [fst snd] in Hi; lia|done|]. destruct r as [[ls pos']|]; [|by eexists]. eexists. split; [done|].
  destruct Hr as (Hl & Hls & Hq). split; [cbn; lia|]. split; [by constructor|done].
Qed.

Lemma contains_inside n r i needle : lists_in n r -> 0 <= i < Z.of_nat n -> forall ls pos, r = Some (ls, pos) ->
  (exists b, namelist_contains data (ls.[i]).1 (ls.[i]).2 needle = Some b) /\ (exists b, namelist_first_is data (ls.[i]).1 (ls.[i]).2 needle = Some b).
Proof.
  intros Hr Hi ls pos ->. destruct Hr as (Hl & Hls & _). rewrite Forall_lookup in Hls. destruct (Hls _ _ (zget_lookup ls i ltac:(unfold zlen; lia))) as (A & B & C).
  rewrite namelist_contains_spec, namelist_first_is_spec by done. split; by eexists.
Qed.

Lemma checks_inside : lengths_fit 10 data (1 + 16) = true ->
  ssh_kexinit_check data <> None /\ ssh_kexinit_wrong_guess data <> None /\ ssh_kexinit_peer_strict data <> None.
Proof.
  intros Hf. unfold ssh_kexinit_check, ssh_kexinit_wrong_guess, ssh_kexinit_peer_strict. destruct (Z.ltb_spec (zlen data) (1 + 16)); [done|].
  assert (H0 : byte_at data 0 = Some data.[0]) by (unfold byte_at; destruct (Z.ltb_spec 0 (zlen data)); [done|lia]). rewrite H0. destruct (negb (data.[0] =? SSH_MSG_KEXINIT)); [done|].
  destruct (read_lists_in 10 (1 + 16) ltac:(lia) Hf) as (r & -> & Hr). destruct (skip_lists_in 10 (1 + 16) ltac:(lia) Hf) as (r' & -> & Hr'). split_and!.
  - destruct r as [[ls pos]|]; [|done]. destruct (proj1 (contains_inside 10 _ 0 KEX_ALGORITHMS Hr ltac:(lia) ls pos eq_refl)) as [? ->]. destruct (proj1 (contains_inside 10 _ 1 HOST_KEY_ALGORITHMS Hr ltac:(lia) ls pos eq_refl)) as [? ->].
    destruct (proj1 (contains_inside 10 _ 2 CIPHER_ALGORITHMS Hr ltac:(lia) ls pos eq_refl)) as [? ->]. by destruct (proj1 (contains_inside 10 _ 3 CIPHER_ALGORITHMS Hr ltac:(lia) ls pos eq_refl)) as [? ->].
  - destruct r' as [[ls pos]|]; [|done]. pose proof Hr' as (_ & _ & Hq). rewrite u32_small by lia. destruct (Z.ltb_spec (zlen data) (pos + 1)); [done|].
    unfold byte_at at 1. destruct (Z.ltb_spec pos (zlen data)); [|lia]. destruct (data.[pos] =? 0); [done|]. destruct (proj2 (contains_inside 10 _ 0 KEX_ALGORITHMS Hr' ltac:(lia) ls pos eq_refl)) as [[] ->]; [|done].
    by destruct (proj2 (contains_inside 10 _ 1 HOST_KEY_ALGORITHMS Hr' ltac:(lia) ls pos eq_refl)) as [? ->].
  - destruct (read_namelist_in 9 (1 + 16) ltac:(lia) Hf) as [->|(l & -> & (A & B & C) & _)]; [done|]. by rewrite namelist_contains_spec.
Qed.

End Lists.

(** A well-formed message. *)
Lemma well_formed_answers cookie ls follows rest :
  let msg := kexinit cookie ls follows rest in
  zlen cookie = 16 -> length ls = 10%nat -> zlen msg < 2 ^ 31 ->
  ssh_kexinit_check msg = Some (offers ls.[0] KEX_ALGORITHMS && offers ls.[1] HOST_KEY_ALGORITHMS && offers ls.[2] CIPHER_ALGORITHMS && offers ls.[3] CIPHER_ALGORITHMS) /\
  ssh_kexinit_wrong_guess msg = Some (negb (follows =? 0) && negb (prefers ls.[0] KEX_ALGORITHMS && prefers ls.[1] HOST_KEY_ALGORITHMS)) /\
  ssh_kexinit_peer_strict msg = Some (offers ls.[0] KEX_STRICT_C).
Proof.
  intros msg Hc Hl Hm. set (pre := SSH_MSG_KEXINIT :: cookie). assert (Hd : msg = pre ++ concat (name_list <$> ls) ++ follows :: rest) by done. assert (Hp : zlen pre = 1 + 16) by (unfold pre, zlen in *; cbn [length]; lia).
  assert (H0 : msg.[0] = SSH_MSG_KEXINIT) by done. pose proof (zlen_nonneg (concat (name_list <$> ls))) as Hcn. assert (Hlen : 1 + 16 + zlen (concat (name_list <$> ls)) + 1 <= zlen msg) by (rewrite Hd, !zlen_app, Hp; unfold zlen at 3; cbn [length]; lia).
  pose proof (spans_lookup msg ls pre _ 0 Hd ltac:(unfold zlen; lia)) as S0. pose proof (spans_lookup msg ls pre _ 1 Hd ltac:(unfold zlen; lia)) as S1. pose proof (spans_lookup msg ls pre _ 2 Hd ltac:(unfold zlen; lia)) as S2. pose proof (spans_lookup msg ls pre _ 3 Hd ltac:(unfold zlen; lia)) as S3.
  pose proof (read_lists_spec msg Hm ls pre _ Hd) as R. pose proof (skip_lists_spec msg Hm ls pre _ Hd) as K. rewrite Hl, Hp in R, K. rewrite Hp in S0, S1, S2, S3.
  destruct S0 as (A0 & B0 & C0 & E0), S1 as (A1 & B1 & C1 & E1), S2 as (A2 & B2 & C2 & E2), S3 as (A3 & B3 & C3 & E3).
  assert (Hnl : read_namelist msg (1 + 16) = Some (Some ((spans (1 + 16) ls).[0].1, (spans (1 + 16) ls).[0].2, (spans (1 + 16) ls).[0].1 + (spans (1 + 16) ls).[0].2))).
  { destruct ls as [|l ls']; [done|]. cbn [fmap list_fmap concat] in Hd. rewrite <- app_assoc in Hd. rewrite <- Hp. by rewrite (read_namelist_spec msg Hm pre l _ Hd). }
  unfold ssh_kexinit_check, ssh_kexinit_wrong_guess, ssh_kexinit_peer_strict. destruct (Z.ltb_spec (zlen msg) (1 + 16)); [lia|]. assert (Hb : byte_at msg 0 = Some SSH_MSG_KEXINIT) by (unfold byte_at; destruct (Z.ltb_spec 0 (zlen msg)); [by rewrite H0|lia]). rewrite Hb. change (negb (SSH_MSG_KEXINIT =? SSH_MSG_KEXINIT)) with false. cbv iota. rewrite R, K, Hnl. split; [|split].
  - rewrite !namelist_contains_spec by done. by rewrite E0, E1, E2, E3.
  - rewrite u32_small by lia. destruct (Z.ltb_spec (zlen msg) (1 + 16 + zlen (concat (name_list <$> ls)) + 1)); [lia|]. unfold byte_at at 1. destruct (Z.ltb_spec (1 + 16 + zlen (concat (name_list <$> ls))) (zlen msg)); [|lia]. replace (msg.[1 + 16 + zlen (concat (name_list <$> ls))]) with follows.
    + destruct (follows =? 0); [done|]. cbn [negb andb]. rewrite !namelist_first_is_spec, E0, E1 by done. by destruct (prefers ls.[0] KEX_ALGORITHMS).
    + rewrite Hd, app_assoc. rewrite <- Hp, <- zlen_app. rewrite <- (Z.add_0_r (zlen (pre ++ _))), zget_at by lia. done.
  - rewrite namelist_contains_spec by done. by rewrite E0.
Qed.

(** C40: algorithm negotiation.  The three checks read inside the message whatever bytes
    it holds -- truncated lists, garbage, no lists at all -- as long as no list length takes
    the 32-bit position past its end (one that does is read outside: [wrapping_length]).  A
    message as RFC 4253 defines it -- a 16-byte cookie, ten name-lists of any content, the
    guess flag and what follows -- is answered by whole names: required algorithms are
    offered in all four lists that matter, a guessed packet is to be dropped exactly when
    the flag is set and the first names differ from the server's, and strict key exchange
    is on exactly when the client's marker is among its key-exchange names. *)
Theorem kexinit_negotiation :
  (forall data, Forall byte data -> zlen data < 2 ^ 31 -> lengths_fit 10 data (1 + 16) = true ->
     ssh_kexinit_check data <> None /\ ssh_kexinit_wrong_guess data <> None /\ ssh_kexinit_peer_strict data <> None) /\
  (forall cookie ls follows rest, let msg := kexinit cookie ls follows rest in
     zlen cookie = 16 -> length ls = 10%nat -> zlen msg < 2 ^ 31 ->
     ssh_kexinit_check msg = Some (offers ls.[0] KEX_ALGORITHMS && offers ls.[1] HOST_KEY_ALGORITHMS && offers ls.[2] CIPHER_ALGORITHMS && offers ls.[3] CIPHER_ALGORITHMS) /\
     ssh_kexinit_wrong_guess msg = Some (negb (follows =? 0) && negb (prefers ls.[0] KEX_ALGORITHMS && prefers ls.[1] HOST_KEY_ALGORITHMS)) /\
     ssh_kexinit_peer_strict msg = Some (offers ls.[0] KEX_STRICT_C)).
Proof. split; [intros data F Hl; by apply checks_inside|exact well_formed_answers]. Qed.

Module SshKexDemo.

Definition client_lists : list (list Z) :=
  [str "sntrup761x25519-sha512,curve25519-sha256,kex-strict-c-v00@openssh.com"; str "ssh-ed25519-cert-v01@openssh.com,ssh-ed25519"; str "aes128-ctr,chacha20-poly1305@openssh.com"; str "chacha20-poly1305@openssh.com"; []; []; str "none"; str "none"; []; []].
Definition client_msg : list Z := kexinit (replicate 16 9) client_lists 1 [0; 0; 0; 0].

(** A message cut off in the middle of its second list. *)
Definition cut_msg : list Z := take 120 client_msg.

Lemma kexinit_negotiation_witness :
  ssh_kexinit_check cut_msg <> None /\
  ssh_kexinit_check client_msg = Some true /\ ssh_kexinit_wrong_guess client_msg = Some true /\ ssh_kexinit_peer_strict client_msg = Some true.
Proof.
  split.
  { apply (proj1 kexinit_negotiation); [|vm_compute; reflexivity|vm_compute; reflexivity].
    apply Forall_forall. intros b Hb. assert (H : forallb (fun b => (0 <=? b) && (b <? 256)) cut_msg = true) by (vm_compute; reflexivity).
    rewrite forallb_forall in H. apply list_elem_of_In, H in Hb. unfold byte. lia. }
  destruct (proj2 kexinit_negotiation (replicate 16 9) client_lists 1 [0; 0; 0; 0]) as (A & B & C); [reflexivity|reflexivity|vm_compute; reflexivity|]. split; [|split].
  - unfold client_msg. rewrite A. vm_compute. reflexivity.
  - unfold client_msg. rewrite B. vm_compute. reflexivity.
  - unfold client_msg. rewrite C. vm_compute. reflexivity.
Defined.

(** A name that only begins like the required one is not a match. *)
Example cert_is_not_key : offers (str "ssh-ed25519-cert-v01@openssh.com") HOST_KEY_ALGORITHMS = false.
Proof. vm_compute. reflexivity. Qed.

(** The server's own message is a KEXINIT message its check accepts. *)
Example server_kexinit :
  let '(out, n) := ssh_kexinit_build (replicate 256 7) (seqZ 1 16) in
  take (Z.to_nat n) out = kexinit (seqZ 1 16) [str "curve25519-sha256,kex-strict-s-v00@openssh.com"; str "ssh-ed25519"; str "chacha20-poly1305@openssh.com"; str "chacha20-poly1305@openssh.com"; []; []; str "none"; str "none"; []; []] 0 [0; 0; 0; 0] /\
  ssh_kexinit_check (take (Z.to_nat n) out) = Some true /\ ssh_kexinit_wrong_guess (take (Z.to_nat n) out) = Some false.
Proof. vm_compute. auto. Qed.

(** A list length of 2^32 - 21 wraps the position to 0: the bound passes and the list is read outside the message. *)
Definition wrapping_msg : list Z := SSH_MSG_KEXINIT :: replicate 16 0 ++ [255; 255; 255; 235] ++ replicate 40 0.
Example wrapping_length : read_namelist wrapping_msg 17 = Some (Some (21, 2 ^ 32 - 21, 0)) /\ lengths_fit 10 wrapping_msg 17 = false /\ ssh_kexinit_check wrapping_msg = None.
Proof. vm_compute. auto. Qed.

End SshKexDemo.
