(* ===== verification/Fork.v ===== *)
(** * fork, exec and waitpid (kernel/proc/fork_exec.c)

    [sys_fork_impl] copies the calling process: its page tables and pages frame by
    frame, its capabilities and its registers.  [free_user_address_space] gives an
    address space back, when a copy fails half way, when a program is replaced and
    when a child is reaped.  The frames come from any [FramePool], the allocator with
    [pmm_free]; the processes are those of the process table. *)

From S2P Require Import Prelude AuditRing Pmm Vmm Kmalloc Capability Proc Elf.

(** ** Frames that can be given back *)

(** [fp_owned f p]: the caller of [pmm_alloc] holds the only reference to [p]. *)
Class FramePool (F : Type) {FS : FrameSource F} := {
  fp_free : Z -> F -> F;
  fp_owned : F -> Z -> Prop;
  fp_owned_taken f p : fs_ok f -> fp_owned f p -> fs_taken f p;
  fp_alloc z f : fs_ok f ->
    let p := (fs_alloc z f).1 in
    let f' := (fs_alloc z f).2 in
    (forall q, fp_owned f q -> fp_owned f' q) /\ (p <> 0 -> fp_owned f' p) /\
    (forall q, fs_taken f' q -> fs_taken f q \/ p <> 0 /\ q = p);
  fp_free_spec p f : fs_ok f -> fp_owned f p ->
    fs_ok (fp_free p f) /\ (forall q, fs_taken (fp_free p f) q <-> fs_taken f q /\ q <> p) /\
    (forall q, fp_owned f q -> q <> p -> fp_owned (fp_free p f) q)
}.

(** [pmm.c] is one: a frame in use with one reference. *)
Definition pmm_owned (st : pmm) (p : Z) : Prop :=
  exists j, in_use st j /\ p = idx_to_phys st j /\ ref_count (g_frames st).[j] = 1.

Lemma pmm_owned_taken st p : pmm_ok st -> pmm_owned st p -> pmm_taken st p.
Proof. intros (I & _) (j & [Hj Hu] & -> & _). pose proof (pi_start _ I). exists j. split; [lia|]. split; [done|]. by rewrite Hu. Qed.

Lemma idx_phys_inj st i j : pmm_inv st -> 0 <= i < g_frame_count st -> 0 <= j < g_frame_count st -> idx_to_phys st i = idx_to_phys st j -> i = j.
Proof. intros I Hi Hj. rewrite !idx_to_phys_eq by (done || lia). unfold PAGE_SIZE. lia. Qed.

Lemma pmm_pool_alloc z st : pmm_ok st ->
  let p := (pmm_alloc_run z st).1 in
  let st' := (pmm_alloc_run z st).2 in
  (forall q, pmm_owned st q -> pmm_owned st' q) /\ (p <> 0 -> pmm_owned st' p) /\ (forall q, pmm_taken st' q -> pmm_taken st q \/ p <> 0 /\ q = p).
Proof.
  intros (I & _). pose proof (pi_start _ I). pose proof (pi_len _ I). destruct (pmm_alloc_run_cases z st I) as [->|(j & Hz & Hj & Ha & ->)]; cbn [fst snd]; [split_and!; [done|done|by left]|].
  destruct (take_frame_eq st z j I Hj Ha) as [Hfs Hfr]. pose proof (pmm_inv_nonzero st j I Hj) as Hnz. split_and!.
  - intros q (i & [Hi Hu] & -> & Hr). assert (i <> j) by (intros ->; by rewrite Hfr in Hu). exists i. unfold in_use. rewrite Hfs, zget_zset_ne by lia. done.
  - intros _. exists j. unfold in_use. rewrite Hfs, zget_zset_eq by lia. done.
  - intros q (i & Hi & -> & Hnf). rewrite Hfs in Hnf. destruct (decide (i = j)) as [->|]; [right; done|left]. exists i. rewrite zget_zset_ne in Hnf by lia. done.
Qed.

Lemma pmm_pool_free p st : pmm_ok st -> pmm_owned st p ->
  pmm_ok (pmm_free p st) /\ (forall q, pmm_taken (pmm_free p st) q <-> pmm_taken st q /\ q <> p) /\ (forall q, pmm_owned st q -> q <> p -> pmm_owned (pmm_free p st) q).
Proof.
  intros (I & Hb & Ht) (j & Hu & -> & Hr). pose proof (pi_start _ I). pose proof (pi_len _ I). destruct (pmm_free_geom (idx_to_phys st j) st) as (G2 & G3 & G1). destruct (pmm_free_in_use st j I Hu) as [Ef I']. rewrite Hr in Ef. cbn [Z.eqb Pos.eqb] in Ef. destruct Hu as [Hj Hu]. set (st' := pmm_free (idx_to_phys st j) st) in *.
  assert (Hphys : forall i, idx_to_phys st' i = idx_to_phys st i) by (intros i; unfold idx_to_phys; by rewrite G1). split_and!.
  - split; [done|]. by rewrite G1, G2.
  - intros q. unfold pmm_taken. setoid_rewrite Hphys. rewrite G2, Ef. split.
    + intros (i & Hi & -> & Hnf). destruct (decide (i = j)) as [->|Hne]; [rewrite zget_zset_eq in Hnf by lia; done|]. rewrite zget_zset_ne in Hnf by lia. split; [by exists i|]. intros E. apply Hne, (idx_phys_inj st); (done || lia).
    + intros [(i & Hi & -> & Hnf) Hne]. exists i. split; [done|]. split; [done|]. rewrite zget_zset_ne; [done|lia|lia|]. intros ->. done.
  - intros q (i & [Hi Hui] & -> & Hri) Hne. exists i. unfold in_use. rewrite Hphys, G2, G3, Ef. assert (i <> j) by (intros ->; done). rewrite zget_zset_ne by lia. done.
Qed.

#[export] Instance pmm_pool : FramePool pmm := {|
  fp_free := pmm_free;
  fp_owned := pmm_owned;
  fp_owned_taken := pmm_owned_taken;
  fp_alloc := pmm_pool_alloc;
  fp_free_spec := pmm_pool_free
|}.

(** [for (i = lo; i < lo + n; i++) f(i)], left at the first failure. *)
Fixpoint mloop {S} (n : nat) (i : Z) (f : Z -> M S unit) : M S unit :=
  match n with
  | O => mret tt
  | Datatypes.S n' => _ <-- f i ;; mloop n' (i + 1) f
  end.

Section Space.
Context {F : Type} {FS : FrameSource F} {FP : FramePool F}.
#[local] Abbreviation vmm := (vmm F).

(** ** Releasing an address space *)

Definition pmm_free_in (p : Z) (s : vmm) : vmm := with_frames s (fp_free p (vm_frames s)).

Definition free_pt (pt_phys : Z) (s : vmm) : vmm :=
  for_loop 512 0 (fun p1 s =>
    let e := rd (vm_mem s) (slot pt_phys p1) in
    if negb (has e 1) then s else pmm_free_in (Z.land e VMM_ADDR_MASK) s) s.

Definition free_pd (pd_phys : Z) (s : vmm) : vmm :=
  for_loop 512 0 (fun p2 s =>
    let e := rd (vm_mem s) (slot pd_phys p2) in
    if negb (has e 1) then s else
    if has e VMM_HUGE then s else
    let pt_phys := Z.land e VMM_ADDR_MASK in
    pmm_free_in pt_phys (free_pt pt_phys s)) s.

Definition free_pdpt (pdpt_phys : Z) (s : vmm) : vmm :=
  for_loop 512 0 (fun p3 s =>
    let e := rd (vm_mem s) (slot pdpt_phys p3) in
    if negb (has e 1) then s else
    if has e VMM_HUGE then s else
    let pd_phys := Z.land e VMM_ADDR_MASK in
    pmm_free_in pd_phys (free_pd pd_phys s)) s.

Definition free_user_address_space (pml4_phys : Z) (s : vmm) : vmm :=
  if pml4_phys =? 0 then s else
  let kpml4 := vmm_get_kernel_pml4 s in
  let s := for_loop 256 0 (fun p4 s =>
    let e := rd (vm_mem s) (slot pml4_phys p4) in
    if negb (has e 1) then s else
    if e =? rd (vm_mem s) (slot kpml4 p4) then s else
    let pdpt_phys := Z.land e VMM_ADDR_MASK in
    pmm_free_in pdpt_phys (free_pdpt pdpt_phys s)) s in
  pmm_free_in pml4_phys s.

(** ** Copying an address space *)

(** [memcpy] of a page: 512 words. *)
Definition copy_page (dst src : Z) (m : gmap Z Z) : gmap Z Z := copy_entries dst src 0 512 m.

Definition clone_pt (parent_pt child_pt : Z) : M vmm unit :=
  mloop 512 0 (fun p1 s =>
    let e := rd (vm_mem s) (slot parent_pt p1) in
    if negb (has e 1) then (Some tt, s) else
    let src_phys := Z.land e VMM_ADDR_MASK in
    (dst_phys <-- frame ZONE_RED ;;
     _ <-- mem_op (copy_page dst_phys src_phys) ;;
     mem_op (fun m => <[slot child_pt p1 := Z.lor dst_phys (Z.land (rd m (slot parent_pt p1)) 0xFFF)]> m)) s).

(** The loops over a page directory and over its parent are the same text. *)
Definition clone_level (deeper : Z -> Z -> M vmm unit) (parent child : Z) : M vmm unit :=
  mloop 512 0 (fun i s =>
    let e := rd (vm_mem s) (slot parent i) in
    if negb (has e 1) then (Some tt, s) else
    if has e VMM_HUGE then mem_op (fun m => <[slot child i := rd m (slot parent i)]> m) s else
    (t <-- frame ZONE_GREEN ;;
     _ <-- mem_op (zero_page t) ;;
     _ <-- mem_op (fun m => <[slot child i := Z.lor t (Z.land (rd m (slot parent i)) 0xFFF)]> m) ;;
     fun s => deeper (Z.land (rd (vm_mem s) (slot parent i)) VMM_ADDR_MASK) t s) s).
Definition clone_pd : Z -> Z -> M vmm unit := clone_level clone_pt.
Definition clone_pdpt : Z -> Z -> M vmm unit := clone_level clone_pd.

Definition clone_pml4 (parent_pml4 child_pml4 kpml4 : Z) : M vmm unit :=
  mloop 256 0 (fun p4 s =>
    let e := rd (vm_mem s) (slot parent_pml4 p4) in
    if negb (has e 1) then (Some tt, s) else
    if e =? rd (vm_mem s) (slot kpml4 p4) then (Some tt, s) else
    (t <-- frame ZONE_GREEN ;;
     _ <-- mem_op (zero_page t) ;;
     _ <-- mem_op (fun m => <[slot child_pml4 p4 := Z.lor t (Z.land (rd m (slot parent_pml4 p4)) 0xFFF)]> m) ;;
     fun s => clone_pdpt (Z.land (rd (vm_mem s) (slot parent_pml4 p4)) VMM_ADDR_MASK) t s) s).

(** How the copy ends: no frame for the root, out of frames later, or done. *)
Inductive fork_result := NoRoot | NoMemory | Forked (child_pml4 : Z).

(** The address-space part of [sys_fork_impl], the failure path included. *)
Definition fork_space (parent_pml4 : Z) (s : vmm) : fork_result * vmm :=
  let kpml4 := vmm_get_kernel_pml4 s in
  match frame ZONE_GREEN s with
  | (None, s) => (NoRoot, s)
  | (Some child_pml4, s) =>
      let s := with_mem s (copy_entries child_pml4 kpml4 0 512 (vm_mem s)) in
      match clone_pml4 parent_pml4 child_pml4 kpml4 s with
      | (None, s) => (NoMemory, free_user_address_space child_pml4 s)
      | (Some _, s) => (Forked child_pml4, s)
      end
  end.

End Space.

(** ** Processes *)

(** The system-call frame and the callee-saved registers. *)
Record syscall_frame := mk_sframe {
  f_r11 : Z; f_r10 : Z; f_r9 : Z; f_r8 : Z; f_rdi : Z; f_rsi : Z; f_rdx : Z; f_rcx : Z; f_user_rsp : Z;
  f_rbx : Z; f_rbp : Z; f_r12 : Z; f_r13 : Z; f_r14 : Z; f_r15 : Z
}.

Record interrupt_frame := mk_iframe {
  i_r15 : Z; i_r14 : Z; i_r13 : Z; i_r12 : Z; i_r11 : Z; i_r10 : Z; i_r9 : Z; i_r8 : Z; i_rbp : Z;
  i_rdi : Z; i_rsi : Z; i_rdx : Z; i_rcx : Z; i_rbx : Z; i_rax : Z;
  i_rip : Z; i_cs : Z; i_rflags : Z; i_rsp : Z; i_ss : Z
}.

Definition fork_regs (f : syscall_frame) : interrupt_frame :=
  mk_iframe (f_r15 f) (f_r14 f) (f_r13 f) (f_r12 f) (f_r11 f) (f_r10 f) (f_r9 f) (f_r8 f) (f_rbp f)
    (f_rdi f) (f_rsi f) (f_rdx f) (f_rcx f) (f_rbx f) 0 (f_rcx f) 0x23 (f_r11 f) (f_user_rsp f) 0x1B.

Definition set_cr3 (x : Z) (p : process) : process :=
  mk_proc (pid p) (parent_pid p) (pstate p) (intent p) (context p) x (kernel_stack p) (kernel_stack_top p)
    (caps p) (cap_count p) (ticks_used p) (exit_code p) (mmap_top p) (blocked_on_pid p) (wake_tick p)
    (sched_link p) (ipc p) (inbox p) (fs_base p) (fpu_state p) (fpu_stash p) (pending_signals p) (uid p) (gid p).
Definition set_context (x : cpu_context) (p : process) : process :=
  mk_proc (pid p) (parent_pid p) (pstate p) (intent p) x (Proc.cr3 p) (kernel_stack p) (kernel_stack_top p)
    (caps p) (cap_count p) (ticks_used p) (exit_code p) (mmap_top p) (blocked_on_pid p) (wake_tick p)
    (sched_link p) (ipc p) (inbox p) (fs_base p) (fpu_state p) (fpu_stash p) (pending_signals p) (uid p) (gid p).
Definition set_pid (x : Z) (p : process) : process :=
  mk_proc x (parent_pid p) (pstate p) (intent p) (context p) (Proc.cr3 p) (kernel_stack p) (kernel_stack_top p)
    (caps p) (cap_count p) (ticks_used p) (exit_code p) (mmap_top p) (blocked_on_pid p) (wake_tick p)
    (sched_link p) (ipc p) (inbox p) (fs_base p) (fpu_state p) (fpu_stash p) (pending_signals p) (uid p) (gid p).
Definition set_pending (x : Z) (p : process) : process :=
  mk_proc (pid p) (parent_pid p) (pstate p) (intent p) (context p) (Proc.cr3 p) (kernel_stack p) (kernel_stack_top p)
    (caps p) (cap_count p) (ticks_used p) (exit_code p) (mmap_top p) (blocked_on_pid p) (wake_tick p)
    (sched_link p) (ipc p) (inbox p) (fs_base p) (fpu_state p) (fpu_stash p) x (uid p) (gid p).

(** Fields of [process_t] that only these calls use. *)
Record user_state := mk_ustate { fork_frame : option interrupt_frame; user_entry : Z; user_stack_top : Z; sig_handlers : list Z; sig_in_progress : bool }.
#[export] Instance user_state_inhabited : Inhabited user_state := populate (mk_ustate None 0 0 (replicate 16 0) false).

(** Files as [sys_execve_impl] uses them. *)
Class Files (V : Type) := {
  vf_open : list Z -> V -> Z * V;
  vf_read : Z -> Z -> V -> Z * list Z * V;
  vf_close : Z -> V -> V
}.

Section Processes.
Context {F H V : Type} {FS : FrameSource F} {FP : FramePool F} {AL : Allocator H} {FD : FdTable V} {FI : Files V}.

(** The process table with its components, physical memory, and the rest by slot. *)
Record machine := mk_machine { mc_sys : ksys H V; mc_mem : vmm F; mc_user : gmap Z user_state }.

Definition on_sys (f : ksys H V -> ksys H V) (s : machine) : machine := mk_machine (f (mc_sys s)) (mc_mem s) (mc_user s).
Definition on_mem (f : vmm F -> vmm F) (s : machine) : machine := mk_machine (mc_sys s) (f (mc_mem s)) (mc_user s).
Definition on_user (i : Z) (f : user_state -> user_state) (s : machine) : machine :=
  mk_machine (mc_sys s) (mc_mem s) (<[i := f (default inhabitant (mc_user s !! i))]> (mc_user s)).

(** [fork_entry] and [idle] are the addresses of [fork_child_entry] and [proc_idle_loop]. *)
Definition sys_fork_impl (fork_entry idle : Z) (f : syscall_frame) (s : machine) : Z * machine :=
  let par := g_current_proc (mc_sys s) in
  if par =? NULL then (-1, s) else
  let '(child, sys) := proc_create (intent (proc_at (mc_sys s) par)) (pid (proc_at (mc_sys s) par)) (Vmm.cr3 (mc_mem s)) idle (mc_sys s) in
  let s := mk_machine sys (mc_mem s) (mc_user s) in
  if child =? NULL then (-1, s) else
  (* proc_create cleared the slot *)
  let s := on_user child (fun _ => mk_ustate (Some (fork_regs f)) 0 0 (replicate 16 0) false) s in
  let s := on_sys (upd child (fun p => set_context (mk_ctx 0 0 0 0 0 0 (rsp (context p)) fork_entry) p)) s in
  let cpid := pid (proc_at (mc_sys s) child) in
  let parent_pml4 := Z.land (Vmm.cr3 (mc_mem s)) VMM_ADDR_MASK in
  let s := on_mem (fun m => vmm_switch (vmm_get_kernel_pml4 m) m) s in
  let '(r, m) := fork_space parent_pml4 (mc_mem s) in
  let s := mk_machine (mc_sys s) (vmm_switch parent_pml4 m) (mc_user s) in
  match r with
  | NoRoot => (-1, on_sys (proc_exit cpid (-1)) s)
  | NoMemory => (-1, on_sys (fun k => proc_exit cpid (-1) (upd child (set_cr3 0) k)) s)
  | Forked child_pml4 =>
      let s := on_sys (upd child (set_cr3 child_pml4)) s in
      let p := proc_at (mc_sys s) par in
      let s := on_sys (upd child (fun c => set_caps (memcpy (caps c) 0 (take (Z.to_nat (cap_count p)) (caps p))) (cap_count p) c)) s in
      let s := on_sys (upd child (fun c => set_context (mk_ctx 0 0 0 0 0 0 (kernel_stack_top c) (rip (context c))) c)) s in
      let s := on_sys (upd child (set_state PROC_READY)) s in
      let s := on_sys (sched_enqueue child) s in
      let s := on_sys (fun k => with_audit (audit_record AUDIT_PROC_FORK cpid (pid (proc_at k par)) 0 (k_audit k)) k) s in
      (cpid, s)
  end.

(** The first part of [sys_waitpid_impl]: [None] when there is no such process, else
    whether the caller now waits in [sched_yield]. *)
Definition waitpid_block (pid_ : Z) (s : machine) : option (bool * machine) :=
  let i := proc_get (mc_sys s) pid_ in
  if i =? NULL then None else
  if negb (bool_decide (pstate (proc_at (mc_sys s) i) = PROC_ZOMBIE)) && negb (g_current_proc (mc_sys s) =? NULL) then
    Some (true, on_sys (fun k => upd (g_current_proc k) (fun p => set_state PROC_BLOCKED (set_blocked_on pid_ p)) k) s)
  else Some (false, s).

(** The part after it. *)
Definition waitpid_reap (pid_ : Z) (s : machine) : Z * machine :=
  let i := proc_get (mc_sys s) pid_ in
  if i =? NULL then (-1, s) else
  let code := exit_code (proc_at (mc_sys s) i) in
  let s :=
    if negb (Proc.cr3 (proc_at (mc_sys s) i) =? 0) then
      let caller_cr3 := if g_current_proc (mc_sys s) =? NULL then 0 else Proc.cr3 (proc_at (mc_sys s) (g_current_proc (mc_sys s))) in
      let s := on_mem (fun m => vmm_switch (vmm_get_kernel_pml4 m) m) s in
      let s := on_mem (free_user_address_space (Proc.cr3 (proc_at (mc_sys s) i))) s in
      let s := if caller_cr3 =? 0 then s else on_mem (vmm_switch caller_cr3) s in
      on_sys (upd i (set_cr3 0)) s
    else s in
  (code, on_sys (upd i (fun p => set_pid 0 (set_state PROC_UNUSED p))) s).

(** How [exec] leaves: an error code, a jump to user code, or one of the faults of
    [elf_load]. *)
Inductive exec_result := Error (code : Z) | Jump (entry stack_top new_pml4 : Z) | Crash.

(** [rnd1], [rnd2]: the random values of [elf_load]. *)
Definition load_image (rnd1 rnd2 : Z) (image : list Z) (argv envp : list (list Z)) (s : machine) : outcome (Z * Z * Z) * machine :=
  let '(r, m) := elf_load image fp_free rnd1 rnd2 argv envp (mc_mem s) in (r, mk_machine (mc_sys s) m (mc_user s)).

Definition sys_exec_impl (rnd1 rnd2 : Z) (image : list Z) (s : machine) : exec_result * machine :=
  let cur := g_current_proc (mc_sys s) in
  if cur =? NULL then (Error (-1), s) else
  let '(r, s) := load_image rnd1 rnd2 image [] [] s in
  match r with
  | Failed => (Error (-1), s)
  | Done (new_pml4, entry, stk_top) =>
      let s := on_sys (upd cur (set_cr3 new_pml4)) s in
      let s := on_sys (fun k => with_audit (audit_record AUDIT_PROC_EXEC (pid (proc_at k cur)) entry 0 (k_audit k)) k) s in
      (Jump entry stk_top new_pml4, s)
  | _ => (Crash, s)
  end.

Definition EXECVE_MAX_IMAGE : Z := 640 * 1024.

Definition sys_execve_impl (rnd1 rnd2 : Z) (path : list Z) (argv envp : list (list Z)) (s : machine) : exec_result * machine :=
  let cur := g_current_proc (mc_sys s) in
  if cur =? NULL then (Error (-1), s) else
  if bool_decide (path = []) then (Error (-1), s) else
  let old_cr3 := Proc.cr3 (proc_at (mc_sys s) cur) in
  let back := on_mem (vmm_switch old_cr3) in
  let s := on_mem (fun m => vmm_switch (vmm_get_kernel_pml4 m) m) s in
  let '(fd, v) := vf_open path (k_vfs (mc_sys s)) in
  let s := on_sys (with_vfs v) s in
  if fd <? 0 then (Error (-2), back s) else
  let '(buf, hp) := al_alloc EXECVE_MAX_IMAGE (k_heap (mc_sys s)) in
  let s := on_sys (with_heap hp) s in
  if buf =? 0 then (Error (-1), back (on_sys (fun k => with_vfs (vf_close fd (k_vfs k)) k) s)) else
  let '(sz, image, v) := vf_read fd EXECVE_MAX_IMAGE (k_vfs (mc_sys s)) in
  let s := on_sys (with_vfs (vf_close fd v)) s in
  let kfree := on_sys (fun k => with_heap (al_free buf (k_heap k)) k) in
  if sz <=? 0 then (Error (-1), back (kfree s)) else
  let '(r, s) := load_image rnd1 rnd2 (take (Z.to_nat sz) image) argv envp s in
  match r with
  | Failed => (Error (-1), back (kfree s))
  | Done (new_pml4, entry, stk_top) =>
      let s := kfree s in
      let s := on_mem (free_user_address_space old_cr3) s in
      let s := on_sys (upd cur (set_cr3 new_pml4)) s in
      let s := on_user cur (fun u => mk_ustate (fork_frame u) entry stk_top (replicate 16 0) false) s in
      let s := on_sys (upd cur (set_pending 0)) s in
      let s := on_sys (fun k => with_audit (audit_record AUDIT_PROC_EXEC (pid (proc_at k cur)) entry 0 (k_audit k)) k) s in
      (Jump entry stk_top new_pml4, s)
  | _ => (Crash, s)
  end.

End Processes.
