(* ===== verification/ForkSpace.v ===== *)
(** * fork: address spaces

    What [fork_space] builds and what [free_user_address_space] gives back.  The
    frames an address space owns are computed by [tree_frames]; copying adds exactly
    the frames of the child's tree and touches no page in use, whether it finishes or
    stops half way, so that releasing the child restores the pool. *)

From S2P Require Import Prelude Pmm Vmm Elf ElfMap Fork.

(** ** Trees *)

(** Entries that end the walk above the page tables. *)
Definition big (n : nat) (e : Z) : bool := (2 <=? n)%nat && (n <? 4)%nat && has e VMM_HUGE.
Definition inner (n : nat) (e : Z) : bool := has e VMM_PRESENT && negb (big n e).

(** Frames below the level-[n] table [t], in the order of release. *)
Fixpoint tree_frames (n : nat) (m : gmap Z Z) (t : Z) : list Z :=
  match n with
  | O => []
  | S n' => seqZ 0 512 ≫= fun i =>
      let e := rd m (slot t i) in
      if inner n e then tree_frames n' m (Z.land e VMM_ADDR_MASK) ++ [Z.land e VMM_ADDR_MASK] else []
  end.

Definition entry_frames (n : nat) (m : gmap Z Z) (t i : Z) : list Z :=
  let e := rd m (slot t i) in
  if inner (S n) e then tree_frames n m (Z.land e VMM_ADDR_MASK) ++ [Z.land e VMM_ADDR_MASK] else [].

(** Entry [i] of root [t] belongs to the process, not to the kernel root [k]. *)
Definition private (m : gmap Z Z) (k t i : Z) : bool :=
  (i <? 256) && has (rd m (slot t i)) VMM_PRESENT && negb (rd m (slot t i) =? rd m (slot k i)).
Definition root_frames (m : gmap Z Z) (k t i : Z) : list Z := if private m k t i then entry_frames 3 m t i else [].
Definition user_frames (m : gmap Z Z) (k t : Z) : list Z := seqZ 0 256 ≫= root_frames m k t.

(** The frame of the 4 KiB page behind [virt]. *)
Fixpoint page_of (n : nat) (m : gmap Z Z) (t virt : Z) : option Z :=
  match n with
  | O => Some t
  | S n' => let e := rd m (slot t (pt_idx n virt)) in if inner n e then page_of n' m (Z.land e VMM_ADDR_MASK) virt else None
  end.

(** [c] in [m] is a copy of [t] in [m0]: pages with equal words, tables whose
    entries have the same flags and lead to copies, large pages shared. *)
Fixpoint cloned (n : nat) (m0 : gmap Z Z) (t : Z) (m : gmap Z Z) (c : Z) : Prop :=
  match n with
  | O => forall j, 0 <= j < 512 -> rd m (slot c j) = rd m0 (slot t j)
  | S n' => forall i, 0 <= i < 512 ->
      let e := rd m0 (slot t i) in
      let e' := rd m (slot c i) in
      if inner n e then e' = Z.lor (Z.land e' VMM_ADDR_MASK) (Z.land e 0xFFF) /\ cloned n' m0 (Z.land e VMM_ADDR_MASK) m (Z.land e' VMM_ADDR_MASK)
      else if has e VMM_PRESENT then e' = e else has e' VMM_PRESENT = false
  end.

Definition cloned_entry (n : nat) (m0 : gmap Z Z) (m : gmap Z Z) (e e' : Z) : Prop :=
  if inner (S n) e then e' = Z.lor (Z.land e' VMM_ADDR_MASK) (Z.land e 0xFFF) /\ cloned n m0 (Z.land e VMM_ADDR_MASK) m (Z.land e' VMM_ADDR_MASK)
  else if has e VMM_PRESENT then e' = e else has e' VMM_PRESENT = false.

(** ** Lists over indices *)

Lemma seqZ_bind_split {A} (f : Z -> list A) N i : 0 <= i < N -> seqZ 0 N ≫= f = (seqZ 0 i ≫= f) ++ f i ++ (seqZ (i + 1) (N - i - 1) ≫= f).
Proof.
  intros Hi. replace N with (i + (1 + (N - i - 1))) at 1 by lia. rewrite seqZ_app, bind_app by lia. f_equal. rewrite Z.add_0_l, seqZ_app, bind_app by lia. f_equal. cbn. apply app_nil_r.
Qed.

Lemma seqZ_bind_ext {A} (f g : Z -> list A) a N : (forall j, a <= j < a + N -> g j = f j) -> seqZ a N ≫= g = seqZ a N ≫= f.
Proof. intros H. apply Forall_bind_ext, Forall_forall. intros x Hx. apply H. by apply elem_of_seqZ in Hx. Qed.

Lemma bind_update {A} (f g : Z -> list A) N i :
  0 <= i < N -> f i = [] -> (forall j, 0 <= j < N -> j <> i -> g j = f j) -> seqZ 0 N ≫= g ≡ₚ (seqZ 0 N ≫= f) ++ g i.
Proof.
  intros Hi Hf Hg. rewrite (seqZ_bind_split f N i), (seqZ_bind_split g N i), Hf by done. rewrite (seqZ_bind_ext f g 0), (seqZ_bind_ext f g (i + 1)) by (intros; apply Hg; lia).
  rewrite <- !app_assoc. apply Permutation_app_head. cbn [app]. apply Permutation_app_comm.
Qed.

Lemma elem_of_seqZ_bind {A} (f : Z -> list A) N x : x ∈ seqZ 0 N ≫= f <-> exists i, 0 <= i < N /\ x ∈ f i.
Proof. rewrite list_elem_of_bind. split; intros (i & H1 & H2); exists i; rewrite elem_of_seqZ in *; split; (done || lia). Qed.

(** ** Loops *)

Lemma mloop_ind {S} (P : Z -> S -> Prop) (Q : S -> Prop) n i f s :
  P i s -> (forall j s, i <= j < i + Z.of_nat n -> P j s -> match f j s with (Some _, s') => P (j + 1) s' | (None, s') => Q s' end) ->
  match mloop n i f s with (Some _, s') => P (i + Z.of_nat n) s' | (None, s') => Q s' end.
Proof.
  revert i s. induction n as [|n IH]; intros i s HP Hf; [by rewrite Z.add_0_r|]. cbn [mloop]. unfold mbind. pose proof (Hf i s ltac:(lia) HP) as H. destruct (f i s) as [[]s']; [|done].
  replace (i + Z.of_nat (Datatypes.S n)) with (i + 1 + Z.of_nat n) by lia. apply IH; [done|]. intros j s1 Hj. apply Hf. lia.
Qed.

Lemma tree_frames_entries n m t : tree_frames (S n) m t = seqZ 0 512 ≫= entry_frames n m t.
Proof. done. Qed.

Lemma cloned_entries n m0 t m c : cloned (S n) m0 t m c <-> forall i, 0 <= i < 512 -> cloned_entry n m0 m (rd m0 (slot t i)) (rd m (slot c i)).
Proof. done. Qed.

(** Words that agree. *)
Definition same_page (m m' : gmap Z Z) (q : Z) : Prop := forall j, 0 <= j < 512 -> rd m' (slot q j) = rd m (slot q j).

Lemma tree_frames_agree n m m' t : same_page m m' t -> (forall q, q ∈ tree_frames n m t -> same_page m m' q) -> tree_frames n m' t = tree_frames n m t.
Proof.
  revert t. induction n as [|n IH]; intros t Ht Hq; [done|]. rewrite !tree_frames_entries in *. apply seqZ_bind_ext. intros i Hi. unfold entry_frames. rewrite (Ht i) by lia. set (e := rd m (slot t i)). destruct (inner (S n) e) eqn:E; [|done].
  f_equal. apply IH; [|intros q Hin]; apply Hq, elem_of_seqZ_bind; exists i; (split; [lia|]); unfold entry_frames; fold e; rewrite E, elem_of_app, list_elem_of_singleton; [by right|by left].
Qed.

Lemma entry_frames_agree n m m' t i : 0 <= i < 512 -> rd m' (slot t i) = rd m (slot t i) -> (forall q, q ∈ entry_frames n m t i -> same_page m m' q) -> entry_frames n m' t i = entry_frames n m t i.
Proof.
  intros Hi He Hq. unfold entry_frames in *. rewrite He. set (e := rd m (slot t i)) in *. destruct (inner (S n) e) eqn:E; [|done]. f_equal. apply tree_frames_agree; [|intros q Hin]; apply Hq; rewrite elem_of_app, list_elem_of_singleton; [by right|by left].
Qed.

(** A copy stays one while its frames are left alone. *)
Lemma cloned_agree n m0 t m m' c : same_page m m' c -> (forall q, q ∈ tree_frames n m c -> same_page m m' q) -> cloned n m0 t m c -> cloned n m0 t m' c.
Proof.
  revert t c. induction n as [|n IH]; intros t c Hc Hq; [intros H j Hj; rewrite Hc by done; by apply H|]. rewrite !cloned_entries. intros H i Hi. specialize (H i Hi). unfold cloned_entry in *. rewrite Hc by done.
  set (e := rd m0 (slot t i)) in *. destruct (inner (S n) e) eqn:E; [|exact H]. destruct H as [He Hcl]. split; [exact He|]. set (e' := rd m (slot c i)) in *.
  assert (Hin : inner (S n) e' = true).
  { unfold inner, big in E |- *. rewrite He, !has_present, !has_huge in *. rewrite !Z.lor_spec, !Z.land_spec, !mask_bits by lia. rewrite !bool_decide_false by lia. rewrite !andb_false_r. cbn [orb]. change (Z.testbit 0xFFF 0) with true. change (Z.testbit 0xFFF 7) with true. by rewrite !andb_true_r. }
  assert (Hin' : forall q, q ∈ entry_frames n m c i -> same_page m m' q) by (intros q Hq'; apply Hq; rewrite tree_frames_entries; apply elem_of_seqZ_bind; by exists i). unfold entry_frames in Hin'. fold e' in Hin'. rewrite Hin in Hin'.
  apply IH; [| |exact Hcl]; [|intros q Hq']; apply Hin'; rewrite elem_of_app, list_elem_of_singleton; [by right|by left].
Qed.

Section Space.
Context {F : Type} {FS : FrameSource F} {FP : FramePool F}.
#[local] Abbreviation vmm := (vmm F).
Implicit Types (s : vmm) (T : gmap Z (nat * Z)).

(** ** Building a tree *)

(** From [s] to [s'], frames [l] were allocated and, of the pages in use before,
    only [c] was written. *)
Record built (c : Z) s s' (l : list Z) : Prop := {
  bt_taken q : fs_taken (vm_frames s') q <-> fs_taken (vm_frames s) q \/ q ∈ l;
  bt_nodup : NoDup l;
  bt_new q : q ∈ l -> ~ fs_taken (vm_frames s) q /\ fp_owned (vm_frames s') q /\ q mod 4096 = 0;
  bt_owned q : fp_owned (vm_frames s) q -> fp_owned (vm_frames s') q;
  bt_words q : q mod 4096 = 0 -> fs_taken (vm_frames s) q -> q <> c -> same_page (vm_mem s) (vm_mem s') q
}.

Lemma built_refl c s : built c s s [].
Proof. constructor; [intros q; rewrite elem_of_nil; tauto|constructor|intros q Hq; by apply not_elem_of_nil in Hq|done|done]. Qed.

Lemma built_perm c s s' l l' : l ≡ₚ l' -> built c s s' l -> built c s s' l'.
Proof. intros P [A B C D E]. constructor; [intros q; by rewrite <- P|by rewrite <- P|intros q; rewrite <- P; apply C|done|done]. Qed.

(** Then [d], a frame just built or [c] itself, is worked on. *)
Lemma built_trans c d s s1 s2 l l' : built c s s1 l -> built d s1 s2 l' -> d = c \/ d ∈ l -> built c s s2 (l ++ l').
Proof.
  intros [A B C D E] [A' B' C' D' E'] Hd. constructor.
  - intros q. rewrite A', A, elem_of_app. tauto.
  - apply NoDup_app. split; [done|]. split; [|done]. intros q Hq Hq'. destruct (C' q Hq') as (Hn & _). apply Hn, A. by right.
  - intros q [Hq|Hq]%elem_of_app.
    + destruct (C q Hq) as (? & ? & ?). auto.
    + destruct (C' q Hq) as (Hn & ? & ?). split; [|done]. intros Ht. apply Hn, A. by left.
  - auto.
  - intros q Ha Ht Hc j Hj. assert (q <> d) by (destruct Hd as [->|Hd]; [done|]; intros ->; by apply (C d Hd)). rewrite E' by (try done; apply A; by left). by apply E.
Qed.

(** The same frames with other contents. *)
Lemma built_change c s s1 s2 l :
  built c s s1 l -> vm_frames s2 = vm_frames s1 -> (forall q, q mod 4096 = 0 -> fs_taken (vm_frames s) q -> q <> c -> same_page (vm_mem s) (vm_mem s2) q) -> built c s s2 l.
Proof. intros [A B C D _] Hf Hw. constructor; rewrite ?Hf; done. Qed.

(** An allocation. *)
Lemma built_frame c z s : fs_ok (vm_frames s) ->
  match frame z s with
  | (Some p, s') => built c s s' [p] /\ p mod 4096 = 0 /\ 0 < p < 2 ^ 52 /\ ~ fs_taken (vm_frames s) p
  | (None, s') => built c s s' []
  end /\ vm_mem (frame z s).2 = vm_mem s /\ fs_ok (vm_frames (frame z s).2) /\ kernel_pml4 (frame z s).2 = kernel_pml4 s /\ Vmm.cr3 (frame z s).2 = Vmm.cr3 s.
Proof.
  intros Hok. pose proof (fs_alloc_spec z (vm_frames s) Hok) as (A1 & A2 & A3). pose proof (fp_alloc z (vm_frames s) Hok) as (B1 & B2 & B3). unfold frame, require. destruct (fs_alloc z (vm_frames s)) as [p f]. cbn [fst snd] in *.
  destruct (Z.eqb_spec p 0) as [->|Hp]; cbn [fst snd]; (split; [|by split_and!]).
  - constructor; cbn [with_frames vm_frames vm_mem]; [|constructor|intros q Hq; by apply not_elem_of_nil in Hq|done|done]. intros q. rewrite elem_of_nil. split; [intros Hq; destruct (B3 q Hq) as [|[]]; tauto|intros [|[]]; auto].
  - destruct (A3 Hp) as (P1 & P2 & P3 & P4). split; [|done]. constructor; cbn [with_frames vm_frames vm_mem]; [|by apply NoDup_singleton| |done|done].
    + intros q. rewrite list_elem_of_singleton. split; [intros Hq; destruct (B3 q Hq) as [|[]]; auto|intros [| ->]; auto].
    + intros q ->%list_elem_of_singleton. split; [done|]. split; [by apply B2|exact P1].
Qed.

(** ** The loop over a table *)

Section Loop.
Context (s0 : vmm) (T0 : gmap Z (nat * Z)) (W0 : pt_wf s0 T0).
Context (c : Z) (Hc : ~ fs_taken (vm_frames s0) c) (Hca : c mod 4096 = 0).
(** Frames under entry [i], what the entry is at first, when it is copied, and what
    copying it costs. *)
Context (N : nat) (HN : Z.of_nat N <= 512) (ef : gmap Z Z -> Z -> list Z) (init : Z -> Z) (ready : Z -> gmap Z Z -> Prop) (cost : Z -> list Z).
Context (act : Z -> M vmm unit).

(** [m'] keeps what [ef] and [ready] look at. *)
Definition keeps (m m' : gmap Z Z) (i : Z) : Prop :=
  rd m' (slot c i) = rd m (slot c i) /\ (forall q, q mod 4096 = 0 -> fs_taken (vm_frames s0) q -> same_page m m' q) /\ (forall q, q ∈ ef m i -> same_page m m' q).
Context (ef_keep : forall m m' i, 0 <= i < Z.of_nat N -> keeps m m' i -> ef m' i = ef m i).
Context (ready_keep : forall m m' i, 0 <= i < Z.of_nat N -> keeps m m' i -> ready i m -> ready i m').
Context (ef_init : forall s T i, fresh_only s0 T0 s T -> 0 <= i < Z.of_nat N -> rd (vm_mem s) (slot c i) = init i -> ef (vm_mem s) i = []).

(** What one iteration does. *)
Definition step_ok (i : Z) s T (r : option unit * vmm) : Prop :=
  exists T' l, fresh_only s0 T0 r.2 T' /\ T ⊆ T' /\ built c s r.2 l /\ l ≡ₚ ef (vm_mem r.2) i /\
    (forall j, 0 <= j < 512 -> j <> i -> rd (vm_mem r.2) (slot c j) = rd (vm_mem s) (slot c j)) /\
    (r.1 = Some tt -> ready i (vm_mem r.2)) /\
    (forall k, supplies (length (cost i) + k) (vm_frames s) -> r.1 = Some tt /\ supplies k (vm_frames r.2)).
Context (T : gmap Z (nat * Z)).
Context (act_ok : forall i s T', 0 <= i < Z.of_nat N -> fresh_only s0 T0 s T' -> T ⊆ T' -> fs_taken (vm_frames s) c -> rd (vm_mem s) (slot c i) = init i -> step_ok i s T' (act i s)).

Definition loop_inv s (i : Z) s' : Prop :=
  exists T', fresh_only s0 T0 s' T' /\ T ⊆ T' /\ built c s s' (seqZ 0 (Z.of_nat N) ≫= ef (vm_mem s')) /\
    (forall j, i <= j < 512 -> rd (vm_mem s') (slot c j) = rd (vm_mem s) (slot c j)) /\ (forall j, 0 <= j < i -> ready j (vm_mem s')).

(** One iteration keeps what the earlier ones built. *)
Lemma loop_step s i s' :
  fs_taken (vm_frames s) c -> 0 <= i < Z.of_nat N -> rd (vm_mem s) (slot c i) = init i -> loop_inv s i s' ->
  let r := act i s' in
  (exists T', fresh_only s0 T0 r.2 T' /\ T ⊆ T' /\ built c s r.2 (seqZ 0 (Z.of_nat N) ≫= ef (vm_mem r.2))) /\
  (r.1 = Some tt -> loop_inv s (i + 1) r.2) /\
  (forall k, supplies (length (cost i) + k) (vm_frames s') -> r.1 = Some tt /\ supplies k (vm_frames r.2)).
Proof.
  intros Hct Hi Hz (T1 & Fo & Hs & B & Hrest & Hd) r. assert (Hct' : fs_taken (vm_frames s') c) by (apply (bt_taken _ _ _ _ B); by left).
  destruct (act_ok i s' T1 Hi Fo Hs Hct' ltac:(rewrite Hrest by lia; exact Hz)) as (T2 & l & Fo2 & Hs2 & B2 & Hl & Hoth & Hrdy & Hsup). fold r in Fo2, B2, Hl, Hoth, Hrdy, Hsup.
  assert (Hkeep : forall j, 0 <= j < Z.of_nat N -> j <> i -> keeps (vm_mem s') (vm_mem r.2) j).
  { intros j Hj Hne. split; [apply Hoth; [lia|done]|]. split.
    - intros q Ha Hq. apply (bt_words _ _ _ _ B2 q Ha); [by apply (fo_taken _ _ _ _ Fo)|]. intros ->. by apply Hc.
    - intros q Hq. assert (Hin : q ∈ seqZ 0 (Z.of_nat N) ≫= ef (vm_mem s')) by (apply elem_of_seqZ_bind; by exists j). destruct (bt_new _ _ _ _ B q Hin) as (Hn & _ & Ha).
      apply (bt_words _ _ _ _ B2 q Ha); [apply (bt_taken _ _ _ _ B); by right|]. intros ->. by apply Hn. }
  assert (P : seqZ 0 (Z.of_nat N) ≫= ef (vm_mem r.2) ≡ₚ (seqZ 0 (Z.of_nat N) ≫= ef (vm_mem s')) ++ l).
  { rewrite Hl. apply bind_update; [done|apply (ef_init s' T1); [done|done|rewrite Hrest by lia; exact Hz]|]. intros j Hj Hne. apply ef_keep; [done|by apply Hkeep]. }
  assert (B3 : built c s r.2 (seqZ 0 (Z.of_nat N) ≫= ef (vm_mem r.2))) by (eapply built_perm; [symmetry; exact P|]; eapply built_trans; [exact B|exact B2|by left]).
  split; [exists T2; split; [done|]; split; [by etrans|done]|]. split; [|exact Hsup]. intros Hr. exists T2. split; [done|]. split; [by etrans|]. split; [done|]. split.
  - intros j Hj. rewrite Hoth by lia. apply Hrest. lia.
  - intros j Hj. destruct (decide (j = i)) as [->|Hne]; [by apply Hrdy|]. apply (ready_keep (vm_mem s')); [lia|apply Hkeep; [lia|done]|apply Hd; lia].
Qed.

Lemma loop_spec s :
  fresh_only s0 T0 s T -> fs_taken (vm_frames s) c -> (forall i, 0 <= i < Z.of_nat N -> rd (vm_mem s) (slot c i) = init i) ->
  let r := mloop N 0 act s in
  (exists T', fresh_only s0 T0 r.2 T' /\ T ⊆ T' /\ built c s r.2 (seqZ 0 (Z.of_nat N) ≫= ef (vm_mem r.2))) /\
  (r.1 = Some tt -> loop_inv s (Z.of_nat N) r.2) /\
  (forall k, supplies (length (seqZ 0 (Z.of_nat N) ≫= cost) + k) (vm_frames s) -> r.1 = Some tt /\ supplies k (vm_frames r.2)).
Proof.
  intros Fo Hct Hz r.
  assert (I0 : loop_inv s 0 s).
  { exists T. split; [done|]. split; [done|]. split; [|by split; [|lia]]. replace (seqZ 0 (Z.of_nat N) ≫= ef (vm_mem s)) with (@nil Z); [apply built_refl|]. symmetry. rewrite (seqZ_bind_ext (fun _ => []) (ef (vm_mem s)) 0).
    - induction (seqZ 0 (Z.of_nat N)) as [|x l IH]; [done|exact IH].
    - intros j Hj. apply (ef_init s T); [done|lia|]. apply Hz. lia. }
  set (sup := fun i s' => forall k, supplies (length (seqZ 0 (Z.of_nat N) ≫= cost) + k) (vm_frames s) -> supplies (length (seqZ i (Z.of_nat N - i) ≫= cost) + k) (vm_frames s')).
  pose proof (mloop_ind (fun i s' => loop_inv s i s' /\ sup i s')
    (fun s' => (exists T', fresh_only s0 T0 s' T' /\ T ⊆ T' /\ built c s s' (seqZ 0 (Z.of_nat N) ≫= ef (vm_mem s'))) /\ forall k, ~ supplies (length (seqZ 0 (Z.of_nat N) ≫= cost) + k) (vm_frames s)) N 0 act s) as L.
  fold r in L. assert (L' := L ltac:(split; [exact I0|]; unfold sup; intros k; by rewrite Z.sub_0_r)). clear L. match type of L' with ?P -> _ => assert (L0 : P); [|specialize (L' L0); clear L0] end.
  { intros j s1 Hj [I HS]. destruct (loop_step s j s1 Hct ltac:(lia) ltac:(apply Hz; lia) I) as (A & B & C).
    assert (Hsplit : length (seqZ j (Z.of_nat N - j) ≫= cost) = (length (cost j) + length (seqZ (j + 1) (Z.of_nat N - (j + 1)) ≫= cost))%nat).
    { replace (Z.of_nat N - j) with (1 + (Z.of_nat N - (j + 1))) by lia. rewrite seqZ_app, bind_app, length_app by lia. f_equal. rewrite (seqZ_cons j 1), (seqZ_nil (Z.succ j)) by lia. f_equal. apply app_nil_r. }
    unfold sup in *. rewrite Hsplit in HS. assert (HS' : forall k, supplies (length (seqZ 0 (Z.of_nat N) ≫= cost) + k) (vm_frames s) -> (act j s1).1 = Some tt /\ supplies (length (seqZ (j + 1) (Z.of_nat N - (j + 1)) ≫= cost) + k) (vm_frames (act j s1).2)).
    { intros k Hk. specialize (HS k Hk). rewrite <- Nat.add_assoc in HS. by apply C in HS. }
    destruct (act j s1) as [[[]|] s2]; cbn [fst snd] in *; [split; [by apply B|]|split; [exact A|]]; intros k Hk; by apply HS' in Hk as []. }
  destruct r as [[[]|] s']; cbn [fst snd].
  - destruct L' as [I HS]. rewrite Z.add_0_l in I, HS. split; [destruct I as (T' & ? & ? & ? & _); by exists T'|]. split; [done|]. intros k Hk. split; [done|]. specialize (HS k Hk). by rewrite Z.sub_diag in HS.
  - destruct L' as [I HS]. split; [exact I|]. split; [done|]. intros k Hk. by apply HS in Hk.
Qed.

End Loop.

(** ** Entries *)

#[local] Opaque zero_page copy_entries.

Lemma fresh_frames s0 T0 s T f : fresh_only s0 T0 s T -> fs_ok f -> (forall q, fs_taken (vm_frames s) q -> fs_taken f q) -> fresh_only s0 T0 (with_frames s f) T.
Proof.
  intros [A1 W A3 A4 A5] Hok Hm. constructor; cbn [with_frames vm_frames vm_mem kernel_pml4 Vmm.cr3]; [done| |auto|done|done]. constructor; cbn [with_frames vm_frames vm_mem]; [done| |apply W].
  intros p n v Hp. destruct (wf_page _ _ W _ _ _ Hp) as (? & ? & ? & ?). auto.
Qed.

(** A page that is no table and was free is written. *)
Lemma fresh_data s0 T0 s T p m' :
  fresh_only s0 T0 s T -> p mod 4096 = 0 -> ~ fs_taken (vm_frames s0) p -> T !! p = None -> (forall a, off_page p a -> rd m' a = rd (vm_mem s) a) -> fresh_only s0 T0 (with_mem s m') T.
Proof.
  intros [A1 W A3 A4 A5] Hp Hfr HT Hoff. assert (Hw : forall q j, q mod 4096 = 0 -> q <> p -> 0 <= j < 512 -> rd m' (slot q j) = rd (vm_mem s) (slot q j)) by (intros q j Hq Hne Hj; apply Hoff, off_page_slot; try done; congruence).
  constructor; cbn [with_mem vm_frames vm_mem kernel_pml4 Vmm.cr3]; [done| |done| |done].
  - constructor; cbn [with_mem vm_frames vm_mem]; [apply W|apply W|]. intros q n v i Hq Hn Hi. destruct (wf_page _ _ W _ _ _ Hq) as (Hqa & _). rewrite Hw by (done || congruence). by apply (wf_next _ _ W).
  - intros q Hq Ht. assert (q <> p) by congruence. destruct (A4 q Hq Ht) as [E1 E2]. split; [done|]. intros j Hj. rewrite Hw by done. by apply E2.
Qed.

(** The entry of a copy. *)
Lemma copy_entry n p e :
  p mod 4096 = 0 -> 0 < p < 2 ^ 52 -> inner n e = true -> let ne := Z.lor p (Z.land e 0xFFF) in
  inner n ne = true /\ Z.land ne VMM_ADDR_MASK = p /\ has ne VMM_PRESENT = true.
Proof.
  intros Ha Hp He ne. destruct (pd_entry_spec p e Ha ltac:(lia)) as (E1 & E2 & E3). fold ne in E1, E2, E3. unfold inner, big in *. rewrite E1, E2. apply andb_true_iff in He as [-> He]. by rewrite He.
Qed.

Lemma inner_huge n e : (1 <= n)%nat -> inner (S n) e = true -> huge_leaf (S n) e = false.
Proof. unfold inner, big, huge_leaf. intros Hn H. apply andb_true_iff in H as [_ H]. apply negb_true_iff in H. destruct (Nat.leb_spec 2 (S n)); [exact H|lia]. Qed.

(** What is promised of the function that copies a level-[n] table. *)
Definition clones (n : nat) (cl : Z -> Z -> M vmm unit) : Prop :=
  forall s0 T0 t c v s T, pt_wf s0 T0 -> T0 !! t = Some (n, v) -> (forall q, q ∈ tree_frames n (vm_mem s0) t -> fs_taken (vm_frames s0) q) ->
  fresh_only s0 T0 s T -> T !! c = Some (n, v) -> ~ fs_taken (vm_frames s0) c -> (forall j, 0 <= j < 512 -> rd (vm_mem s) (slot c j) = 0) ->
  let r := cl t c s in
  (exists T', fresh_only s0 T0 r.2 T' /\ T ⊆ T' /\ built c s r.2 (tree_frames n (vm_mem r.2) c)) /\
  (r.1 = Some tt -> cloned n (vm_mem s0) t (vm_mem r.2) c) /\
  (forall k, supplies (length (tree_frames n (vm_mem s0) t) + k) (vm_frames s) -> r.1 = Some tt /\ supplies k (vm_frames r.2)).

(** The new table of entry [i], and the copy below it. *)
Definition link_new (cl : Z -> Z -> M vmm unit) (t c i : Z) : M vmm unit :=
  p <-- frame ZONE_GREEN ;; _ <-- mem_op (zero_page p) ;;
  _ <-- mem_op (fun m => <[slot c i := Z.lor p (Z.land (rd m (slot t i)) 0xFFF)]> m) ;;
  fun s => cl (Z.land (rd (vm_mem s) (slot t i)) VMM_ADDR_MASK) p s.

Lemma link_new_eq cl t c i s : link_new cl t c i s =
  let '(p, f) := fs_alloc ZONE_GREEN (vm_frames s) in
  if p =? 0 then (None, with_frames s f) else
  let s1 := with_mem (with_frames s f) (<[slot c i := Z.lor p (Z.land (rd (zero_page p (vm_mem s)) (slot t i)) 0xFFF)]> (zero_page p (vm_mem s))) in
  cl (Z.land (rd (vm_mem s1) (slot t i)) VMM_ADDR_MASK) p s1.
Proof. unfold link_new, mbind, frame, require. destruct (fs_alloc ZONE_GREEN (vm_frames s)) as [p f]. by destruct (p =? 0). Qed.

Section Entry.
Context (n : nat) (Hn : (1 <= n <= 3)%nat) (s0 : vmm) (T0 : gmap Z (nat * Z)) (W0 : pt_wf s0 T0) (t c v i : Z).
Context (Ht : T0 !! t = Some (S n, v)) (Hc : ~ fs_taken (vm_frames s0) c) (Hi : 0 <= i < 512).
#[local] Abbreviation e := (rd (vm_mem s0) (slot t i)).
Context (He : inner (S n) e = true) (Hfr : forall q, q ∈ entry_frames n (vm_mem s0) t i -> fs_taken (vm_frames s0) q).
Context (s : vmm) (T : gmap Z (nat * Z)) (Fo : fresh_only s0 T0 s T) (HTc : T !! c = Some (S n, v)).

Lemma entry_word s1 T1 : fresh_only s0 T0 s1 T1 -> rd (vm_mem s1) (slot t i) = e.
Proof. intros Fo1. by apply (fresh_only_old s0 T0 s1 T1 t (S n, v) i W0 Fo1 Ht). Qed.

Lemma entry_table : T0 !! Z.land e VMM_ADDR_MASK = Some (n, v * 512 + i).
Proof. apply (wf_next _ _ W0 t n v i Ht); [lia|done| |apply inner_huge; [lia|done]]. by apply andb_true_iff in He as [He' _]. Qed.

(** The state once the new table is linked. *)
Lemma linked p f : fs_alloc ZONE_GREEN (vm_frames s) = (p, f) -> p <> 0 ->
  let s1 := with_mem (with_frames s f) (<[slot c i := Z.lor p (Z.land e 0xFFF)]> (zero_page p (vm_mem s))) in
  p mod 4096 = 0 /\ 0 < p < 2 ^ 52 /\ ~ fs_taken (vm_frames s0) p /\ p <> c /\ fresh_only s0 T0 s1 (<[p := (n, v * 512 + i)]> T) /\ T ⊆ <[p := (n, v * 512 + i)]> T /\
  built c s s1 [p] /\ (forall j, 0 <= j < 512 -> rd (vm_mem s1) (slot p j) = 0) /\ (forall j, 0 <= j < 512 -> j <> i -> rd (vm_mem s1) (slot c j) = rd (vm_mem s) (slot c j)) /\
  rd (vm_mem s1) (slot c i) = Z.lor p (Z.land e 0xFFF).
Proof.
  intros Ef Hp0 s1. pose proof (fo_wf _ _ _ _ Fo) as W. pose proof (built_frame c ZONE_GREEN s (wf_ok _ _ W)) as (Bf & _ & Hok & _). unfold frame, require in Bf, Hok. rewrite Ef in Bf, Hok. destruct (Z.eqb_spec p 0); [done|]. cbn [fst snd] in *. destruct Bf as (Bf & Ha & Hr & Hn').
  assert (Hp' : ~ fs_taken (vm_frames s0) p) by (intros Hx; by apply Hn', (fo_taken _ _ _ _ Fo)). destruct (wf_page _ _ W _ _ _ HTc) as (Hca & _ & _ & Hct). assert (Hpc : p <> c) by (intros ->; done). assert (Htp : T !! p = None) by (destruct (T !! p) as [[k w]|] eqn:E; [|done]; by destruct (wf_page _ _ W _ _ _ E) as (_ & _ & _ & ?)).
  destruct (copy_entry (S n) p e Ha Hr He) as (C1 & C2 & C3). set (ne := Z.lor p (Z.land e 0xFFF)) in *.
  assert (F1 : fresh_only s0 T0 (mk_vmm (zero_page p (vm_mem s)) f (kernel_pml4 s) (Vmm.cr3 s)) (<[p := (n, v * 512 + i)]> T)).
  { apply (fresh_add s0 T0 s T p n (v * 512 + i) f); try done; [| | |lia|].
    - intros q Hq. apply (bt_taken _ _ _ _ Bf). by left.
    - apply (bt_taken _ _ _ _ Bf). right. apply list_elem_of_here.
    - intros a Hoff. by apply zero_page_out.
    - intros n' j _ _ Hj. by rewrite zero_page_in. }
  assert (F2 : fresh_only s0 T0 s1 (<[p := (n, v * 512 + i)]> T)).
  { apply (fresh_store s0 T0 _ _ c n v i ne F1); [by rewrite lookup_insert_ne|done|done|]. intros _ _ _. rewrite C2. apply lookup_insert_eq. }
  assert (Hw : forall q j, q mod 4096 = 0 -> q <> p -> 0 <= j < 512 -> (q, j) <> (c, i) -> rd (vm_mem s1) (slot q j) = rd (vm_mem s) (slot q j)).
  { intros q j Hq Hqp Hj Hne. unfold s1. cbn [with_mem vm_mem]. rewrite rd_insert, decide_False by (intros E; apply slot_inj in E as [<- <-]; done). apply zero_page_out, off_page_slot; done || congruence. }
  split_and!; try done; try lia.
  - by apply insert_subseteq.
  - apply (built_change c s (with_frames s f)); [exact Bf|done|]. intros q Hq Hqt Hqc j Hj. apply Hw; try done; congruence.
  - intros j Hj. unfold s1. cbn [with_mem vm_mem]. rewrite rd_insert, decide_False by (intros E; apply slot_inj in E as [? _]; done). by apply zero_page_in.
  - intros j Hj Hne. apply Hw; try done. congruence.
  - unfold s1. cbn [with_mem vm_mem]. by rewrite rd_insert, decide_True.
Qed.

Lemma link_new_spec cl : clones n cl ->
  let r := link_new cl t c i s in
  exists T' l, fresh_only s0 T0 r.2 T' /\ T ⊆ T' /\ built c s r.2 l /\
    ((l ≡ₚ entry_frames n (vm_mem r.2) c i /\ exists p, ~ fs_taken (vm_frames s0) p /\ Z.land (rd (vm_mem r.2) (slot c i)) VMM_ADDR_MASK = p /\ has (rd (vm_mem r.2) (slot c i)) VMM_PRESENT = true) \/
     l = [] /\ r.1 = None /\ rd (vm_mem r.2) (slot c i) = rd (vm_mem s) (slot c i)) /\
    (forall j, 0 <= j < 512 -> j <> i -> rd (vm_mem r.2) (slot c j) = rd (vm_mem s) (slot c j)) /\
    (r.1 = Some tt -> cloned_entry n (vm_mem s0) (vm_mem r.2) e (rd (vm_mem r.2) (slot c i))) /\
    (forall k, supplies (length (entry_frames n (vm_mem s0) t i) + k) (vm_frames s) -> r.1 = Some tt /\ supplies k (vm_frames r.2)).
Proof.
  intros Hcl. rewrite link_new_eq. pose proof (fo_wf _ _ _ _ Fo) as W. pose proof (built_frame c ZONE_GREEN s (wf_ok _ _ W)) as (Bf & _ & Hok & _). unfold frame, require in Bf, Hok.
  pose proof (linked (fs_alloc ZONE_GREEN (vm_frames s)).1 (fs_alloc ZONE_GREEN (vm_frames s)).2 ltac:(apply surjective_pairing)) as L. assert (Hlen : length (entry_frames n (vm_mem s0) t i) = S (length (tree_frames n (vm_mem s0) (Z.land e VMM_ADDR_MASK)))) by (unfold entry_frames; rewrite He, length_app; cbn [length]; lia).
  assert (Hsup : forall k, supplies (length (entry_frames n (vm_mem s0) t i) + k) (vm_frames s) -> (fs_alloc ZONE_GREEN (vm_frames s)).1 <> 0 /\ supplies (length (tree_frames n (vm_mem s0) (Z.land e VMM_ADDR_MASK)) + k) (fs_alloc ZONE_GREEN (vm_frames s)).2) by (intros k; rewrite Hlen; intros Hk; by apply Hk).
  destruct (fs_alloc ZONE_GREEN (vm_frames s)) as [p f]. cbn [fst snd] in *. revert Bf Hok. destruct (Z.eqb_spec p 0) as [->|Hp0]; intros Bf Hok.
  { cbn [fst snd] in *. exists T, []. split; [apply fresh_frames; [done|done|intros q Hq; apply (bt_taken _ _ _ _ Bf); by left]|]. split; [done|]. split; [exact Bf|]. split; [by right|]. split; [done|]. split; [done|]. intros k Hk. by apply Hsup in Hk as []. }
  destruct (L Hp0) as (Ha & Hr & Hpf & Hpc & Fo1 & Hs1 & B1 & Hz & Hoth & Hent). clear L Bf Hok.
  assert (Ez : rd (zero_page p (vm_mem s)) (slot t i) = e).
  { rewrite <- (entry_word s T Fo). destruct (wf_page _ _ W0 _ _ _ Ht) as (Hta & _ & _ & Htt). apply zero_page_out, off_page_slot; try done. intros Ept. apply Hpf. by rewrite Ept. }
  rewrite Ez. set (s1 := with_mem (with_frames s f) _) in *. cbv zeta. rewrite (entry_word s1 _ Fo1). set (tt' := Z.land e VMM_ADDR_MASK) in *.
  assert (Hfr' : forall q, q ∈ tree_frames n (vm_mem s0) tt' -> fs_taken (vm_frames s0) q) by (intros q Hq; apply Hfr; unfold entry_frames; rewrite He, elem_of_app; by left).
  destruct (Hcl s0 T0 tt' p (v * 512 + i) s1 _ W0 entry_table Hfr' Fo1 ltac:(apply lookup_insert_eq) Hpf Hz) as ((T2 & Fo2 & Hs2 & B2) & Hd & Hs). set (r := cl tt' p s1) in *.
  destruct (wf_page _ _ W _ _ _ HTc) as (Hca & _ & _ & Hct). destruct (copy_entry (S n) p e Ha Hr He) as (C1 & C2 & C3).
  assert (Hcw : same_page (vm_mem s1) (vm_mem r.2) c) by (apply (bt_words _ _ _ _ B2); [done|apply (bt_taken _ _ _ _ B1); by left|congruence]).
  assert (Hcell : rd (vm_mem r.2) (slot c i) = Z.lor p (Z.land e 0xFFF)) by (by rewrite Hcw).
  exists T2, ([p] ++ tree_frames n (vm_mem r.2) p). split; [done|]. split; [by etrans|]. split; [eapply built_trans; [exact B1|exact B2|right; apply list_elem_of_here]|].
  split; [left; split|split; [|split]].
  - unfold entry_frames. cbv zeta. rewrite Hcell, C1, C2. apply Permutation_app_comm.
  - exists p. by rewrite Hcell.
  - intros j Hj Hne. rewrite Hcw by done. by apply Hoth.
  - intros Hr'. unfold cloned_entry. rewrite He, Hcell, C2. split; [done|by apply Hd].
  - intros k Hk. apply Hs. by apply Hsup in Hk as [_ Hk].
Qed.

End Entry.

(** ** Levels *)

Lemma inner_zero n : inner n 0 = false.
Proof. done. Qed.

Lemma cloned_inner n m0 m e e' : cloned_entry n m0 m e e' -> inner (S n) e = true -> inner (S n) e' = true.
Proof.
  unfold cloned_entry. intros H E. rewrite E in H. destruct H as [-> _]. revert E. unfold inner, big. rewrite !has_present, !has_huge, !Z.lor_spec, !Z.land_spec, !mask_bits, !bool_decide_false, !andb_false_r by lia.
  cbn [orb]. change (Z.testbit 0xFFF 0) with true. change (Z.testbit 0xFFF 7) with true. by rewrite !andb_true_r.
Qed.

Lemma cloned_entry_agree n m0 m m' c i e :
  rd m' (slot c i) = rd m (slot c i) -> (forall q, q ∈ entry_frames n m c i -> same_page m m' q) ->
  cloned_entry n m0 m e (rd m (slot c i)) -> cloned_entry n m0 m' e (rd m' (slot c i)).
Proof.
  intros Hc Hq H. rewrite Hc. unfold entry_frames in Hq. cbv zeta in Hq. pose proof (cloned_inner n m0 m e _ H) as Hi. unfold cloned_entry in *. destruct (inner (S n) e); [|exact H]. rewrite (Hi eq_refl) in Hq. destruct H as [He Hcl]. split; [exact He|].
  eapply cloned_agree; [| |exact Hcl]; [|intros q Hin]; apply Hq; rewrite elem_of_app, list_elem_of_singleton; [by right|by left].
Qed.

(** An entry that needs no frame. *)
Section Plain.
Context (n : nat) (s0 : vmm) (T0 : gmap Z (nat * Z)) (W0 : pt_wf s0 T0) (t c v i : Z).
Context (Ht : T0 !! t = Some (S n, v)) (Hc : ~ fs_taken (vm_frames s0) c) (Hi : 0 <= i < 512).
Context (s : vmm) (T : gmap Z (nat * Z)) (Fo : fresh_only s0 T0 s T) (HTc : T !! c = Some (S n, v)).
#[local] Abbreviation e := (rd (vm_mem s0) (slot t i)).

Lemma store_shared : (1 <= n)%nat -> has e VMM_PRESENT = true -> big (S n) e = true -> rd (vm_mem s) (slot t i) = e ->
  let s1 := with_mem s (<[slot c i := rd (vm_mem s) (slot t i)]> (vm_mem s)) in
  fresh_only s0 T0 s1 T /\ built c s s1 [] /\ entry_frames n (vm_mem s1) c i = [] /\ (forall j, 0 <= j < 512 -> j <> i -> rd (vm_mem s1) (slot c j) = rd (vm_mem s) (slot c j)) /\
  cloned_entry n (vm_mem s0) (vm_mem s1) e (rd (vm_mem s1) (slot c i)).
Proof.
  intros Hn Hp Hb -> s1. destruct (wf_page _ _ (fo_wf _ _ _ _ Fo) _ _ _ HTc) as (Hca & _). assert (Hin : inner (S n) e = false) by (unfold inner; by rewrite Hp, Hb).
  assert (Hcell : rd (vm_mem s1) (slot c i) = e) by (unfold s1; cbn [with_mem vm_mem]; by rewrite rd_insert, decide_True).
  split; [|split; [|split; [|split]]].
  - apply (fresh_store s0 T0 s T c n v i e Fo HTc Hc Hi). intros _ _ Hh. unfold big in Hb. apply andb_true_iff in Hb as [Hb1 Hb2]. apply andb_true_iff in Hb1 as [_ Hb1]. unfold huge_leaf in Hh. by rewrite Hb1, Hb2 in Hh.
  - apply (built_change c s s); [apply built_refl|done|]. intros q Hq _ Hqc j Hj. unfold s1. cbn [with_mem vm_mem]. rewrite rd_insert, decide_False; [done|]. intros E. apply slot_inj in E as [? _]; done.
  - unfold entry_frames. cbv zeta. by rewrite Hcell, Hin.
  - intros j Hj Hne. unfold s1. cbn [with_mem vm_mem]. rewrite rd_insert, decide_False; [done|]. intros E. apply slot_inj in E as [_ ?]; done.
  - unfold cloned_entry. by rewrite Hin, Hp, Hcell.
Qed.

End Plain.

Lemma clone_level_spec n cl : (1 <= n <= 2)%nat -> clones n cl -> clones (S n) (clone_level cl).
Proof.
  intros Hn Hcl s0 T0 t c v s T W0 Ht Hfr Fo HTc Hc Hz. destruct (wf_page _ _ (fo_wf _ _ _ _ Fo) _ _ _ HTc) as (Hca & _ & _ & Hct).
  unfold clone_level. match goal with |- context [mloop 512 0 ?a s] => set (act := a) end.
  set (ef := fun m => entry_frames n m c). set (ready := fun i m => cloned_entry n (vm_mem s0) m (rd (vm_mem s0) (slot t i)) (rd m (slot c i))).
  destruct (loop_spec s0 T0 c Hc 512 ltac:(lia) ef (fun _ => 0) ready (entry_frames n (vm_mem s0) t) act) with (T := T) (s := s) as (A & B & C); try done.
  - intros m m' i Hi (K1 & _ & K3). apply entry_frames_agree; [lia|done|done].
  - intros m m' i Hi (K1 & _ & K3). by apply cloned_entry_agree.
  - intros s1 T1 i _ _ E. unfold ef, entry_frames. cbv zeta. by rewrite E, inner_zero.
  - intros i s1 T1 Hi Fo1 Hs1 Hct1 E. pose proof (lookup_weaken _ _ _ _ HTc Hs1) as HTc1. unfold act. rewrite (entry_word n s0 T0 W0 t v i Ht ltac:(lia) s1 T1 Fo1). set (e := rd (vm_mem s0) (slot t i)).
    assert (Hef : entry_frames n (vm_mem s0) t i = if inner (S n) e then tree_frames n (vm_mem s0) (Z.land e VMM_ADDR_MASK) ++ [Z.land e VMM_ADDR_MASK] else []) by done. unfold step_ok. rewrite Hef.
    change (has e 1) with (has e VMM_PRESENT). destruct (has e VMM_PRESENT) eqn:Hp; cbn [negb].
    2: { assert (Hin : inner (S n) e = false) by (unfold inner; by rewrite Hp). rewrite Hin. exists T1, []. cbn [fst snd]. split; [done|]. split; [done|]. split; [apply built_refl|]. split; [unfold ef, entry_frames; cbv zeta; by rewrite E, inner_zero|]. split; [done|]. split; [|done].
         intros _. unfold ready, cloned_entry. fold e. by rewrite Hin, Hp, E. }
    assert (Hb : big (S n) e = has e VMM_HUGE) by (unfold big; destruct (Nat.leb_spec 2 (S n)), (Nat.ltb_spec (S n) 4); (done || lia)).
    destruct (has e VMM_HUGE) eqn:Hh.
    + pose proof (entry_word n s0 T0 W0 t v i Ht ltac:(lia) s1 T1 Fo1) as Ew. destruct (store_shared n s0 T0 t c v i Hc ltac:(lia) s1 T1 Fo1 HTc1 ltac:(lia) Hp Hb Ew) as (P1 & P2 & P3 & P4 & P5).
      assert (Hin : inner (S n) e = false) by (unfold inner; by rewrite Hp, Hb). rewrite Hin. exists T1, []. unfold mem_op. cbn [fst snd]. split; [done|]. split; [done|]. split; [done|]. split; [unfold ef; by rewrite P3|]. split; [done|]. by split.
    + assert (Hin : inner (S n) e = true) by (unfold inner; by rewrite Hp, Hb). rewrite <- Hef. fold (link_new cl t c i).
      destruct (link_new_spec n ltac:(lia) s0 T0 W0 t c v i Ht Hc ltac:(lia) Hin ltac:(intros q Hq; apply Hfr; rewrite tree_frames_entries; apply elem_of_seqZ_bind; by exists i) s1 T1 Fo1 HTc1 cl Hcl) as (T2 & l & R1 & R2 & R3 & R4 & R5 & R6 & R7).
      exists T2, l. split; [done|]. split; [done|]. split; [done|]. split; [|by split]. destruct R4 as [[? _]|(-> & _ & Ez)]; [done|]. unfold ef, entry_frames. cbv zeta. by rewrite Ez, E, inner_zero.
  - split; [exact A|]. split; [|exact C]. intros Hr. destruct (B Hr) as (_ & _ & _ & _ & _ & D). rewrite cloned_entries. intros i Hi. by apply D.
Qed.

Lemma copy_page_spec p src m :
  p mod 4096 = 0 -> src mod 4096 = 0 -> p <> src ->
  (forall j, 0 <= j < 512 -> rd (copy_page p src m) (slot p j) = rd m (slot src j)) /\ (forall a, off_page p a -> rd (copy_page p src m) a = rd m a).
Proof.
  intros Hp Hs Hne. unfold copy_page. destruct (copy_entries_spec p src 0 512 m) as [Ci Co]; [intros j k Hj Hk E; apply slot_inj in E as [? _]; (done || lia || congruence)|].
  split; [intros j Hj; apply Ci; lia|]. intros a Ha. apply Co. intros j Hj. apply Ha. lia.
Qed.

Lemma copy_root d k m : copy_entries d k 0 512 m = copy_page d k m.
Proof. unfold copy_page. reflexivity. Qed.

#[local] Opaque copy_page.

Lemma mask_aligned e : Z.land e VMM_ADDR_MASK mod 4096 = 0.
Proof. unfold VMM_ADDR_MASK. change 4096 with (2 ^ 12). rewrite <- land_low, <- Z.land_assoc by lia. apply Z.land_0_r. Qed.

(** A page copied to a new frame [p], giving memory [m1]. *)
Section Leaf.
Context (s0 : vmm) (T0 : gmap Z (nat * Z)) (t c v i : Z) (s : vmm) (T : gmap Z (nat * Z)) (p : Z) (f : F) (m1 : gmap Z Z).
Context (W0 : pt_wf s0 T0) (Ht : T0 !! t = Some (1%nat, v)) (Hc : ~ fs_taken (vm_frames s0) c) (Hi : 0 <= i < 512) (Fo : fresh_only s0 T0 s T) (HTc : T !! c = Some (1%nat, v)).
#[local] Abbreviation e := (rd (vm_mem s0) (slot t i)).
#[local] Abbreviation src := (Z.land e VMM_ADDR_MASK).
Context (Hp : has e VMM_PRESENT = true) (Hsrc : fs_taken (vm_frames s0) src) (Ef : fs_alloc ZONE_RED (vm_frames s) = (p, f)) (Hp0 : p <> 0).
Context (Ci : forall j, 0 <= j < 512 -> rd m1 (slot p j) = rd (vm_mem s) (slot src j)) (Co : forall a, off_page p a -> rd m1 a = rd (vm_mem s) a).

Lemma leaf_frame : built c s (with_frames s f) [p] /\ p mod 4096 = 0 /\ 0 < p < 2 ^ 52 /\ ~ fs_taken (vm_frames s) p /\ ~ fs_taken (vm_frames s0) p /\ fs_ok f.
Proof.
  pose proof (built_frame c ZONE_RED s (wf_ok _ _ (fo_wf _ _ _ _ Fo))) as (Bf & _ & Hok & _). unfold frame, require in Bf, Hok. rewrite Ef in Bf, Hok. destruct (Z.eqb_spec p 0); [done|]. cbn [fst snd] in *. destruct Bf as (Bf & Ha & Hr & Hn').
  do 4 (split; [done|]). split; [|done]. intros Hx. by apply Hn', (fo_taken _ _ _ _ Fo).
Qed.

Lemma copy_leaf :
  let s1 := with_mem (with_frames s f) (<[slot c i := Z.lor p (Z.land (rd m1 (slot t i)) 0xFFF)]> m1) in
  fresh_only s0 T0 s1 T /\ built c s s1 [p] /\ entry_frames 0 (vm_mem s1) c i = [p] /\ (forall j, 0 <= j < 512 -> j <> i -> rd (vm_mem s1) (slot c j) = rd (vm_mem s) (slot c j)) /\
  cloned_entry 0 (vm_mem s0) (vm_mem s1) e (rd (vm_mem s1) (slot c i)).
Proof.
  intros s1. destruct leaf_frame as (Bf & Ha & Hr & Hn' & Hp' & Hok). pose proof (fo_wf _ _ _ _ Fo) as W. destruct (wf_page _ _ W _ _ _ HTc) as (Hca & _ & _ & Hct). destruct (wf_page _ _ W0 _ _ _ Ht) as (Hta & _ & _ & Htt).
  assert (Hpc : p <> c) by (intros ->; done). assert (Htp : T !! p = None) by (destruct (T !! p) as [[k w]|] eqn:E; [|done]; by destruct (wf_page _ _ W _ _ _ E) as (_ & _ & _ & ?)). assert (Hpt : p <> t) by (intros E; apply Hp'; by rewrite E).
  assert (Ez : rd m1 (slot t i) = e) by (rewrite Co by (by apply off_page_slot); by apply (fresh_only_old s0 T0 s T t (1%nat, v) i W0 Fo Ht)). unfold s1. rewrite Ez. assert (Hin : inner 1 e = true) by (unfold inner, big; by rewrite Hp).
  destruct (copy_entry 1 p e Ha Hr Hin) as (C1 & C2 & C3). set (ne := Z.lor p (Z.land e 0xFFF)) in *. assert (Ene : ne = Z.lor p (Z.land e 0xFFF)) by done. clearbody ne.
  assert (Hw : forall q j, q mod 4096 = 0 -> q <> p -> 0 <= j < 512 -> (q, j) <> (c, i) -> rd (<[slot c i := ne]> m1) (slot q j) = rd (vm_mem s) (slot q j)).
  { intros q j Hq Hqp Hj Hne. rewrite rd_insert, decide_False by (intros E; apply slot_inj in E as [<- <-]; done). apply Co, off_page_slot; done || congruence. }
  assert (Hcell : rd (<[slot c i := ne]> m1) (slot c i) = ne) by (by rewrite rd_insert, decide_True). split; [|split; [|split; [|split]]].
  - apply (fresh_store s0 T0 (with_mem (with_frames s f) m1) T c 0 v i ne); [|done|done|done|lia]. apply (fresh_data s0 T0 (with_frames s f) T p); try done. apply fresh_frames; [done|done|]. intros q Hq. apply (bt_taken _ _ _ _ Bf). by left.
  - apply (built_change c s (with_frames s f)); [exact Bf|done|]. intros q Hq Hqt Hqc j Hj. apply Hw; try done; congruence.
  - cbn [with_mem vm_mem]. unfold entry_frames. cbv zeta. by rewrite Hcell, C1, C2.
  - intros j Hj Hne. apply Hw; try done; congruence.
  - cbn [with_mem vm_mem]. unfold cloned_entry. rewrite Hin, Hcell, C2. split; [exact Ene|]. intros j Hj. rewrite rd_insert, decide_False by (intros E; apply slot_inj in E as [? _]; done || congruence). rewrite Ci by lia. by apply (fo_words _ _ _ _ Fo src (mask_aligned e)).
Qed.

End Leaf.

Definition leaf_new (t c i src : Z) : M vmm unit :=
  dst_phys <-- frame ZONE_RED ;; _ <-- mem_op (copy_page dst_phys src) ;;
  mem_op (fun m => <[slot c i := Z.lor dst_phys (Z.land (rd m (slot t i)) 0xFFF)]> m).

Lemma leaf_new_eq t c i src s : leaf_new t c i src s =
  let '(p, f) := fs_alloc ZONE_RED (vm_frames s) in
  if p =? 0 then (None, with_frames s f) else
  let m1 := copy_page p src (vm_mem s) in
  (Some tt, with_mem (with_frames s f) (<[slot c i := Z.lor p (Z.land (rd m1 (slot t i)) 0xFFF)]> m1)).
Proof. unfold leaf_new, mbind, frame, require, mem_op. destruct (fs_alloc ZONE_RED (vm_frames s)) as [p f]. destruct (p =? 0); cbn [with_mem with_frames vm_mem vm_frames kernel_pml4 Vmm.cr3]; reflexivity. Qed.

Lemma clone_pt_spec : clones 1 clone_pt.
Proof.
  intros s0 T0 t c v s T W0 Ht Hfr Fo HTc Hc Hz. destruct (wf_page _ _ (fo_wf _ _ _ _ Fo) _ _ _ HTc) as (Hca & _ & _ & Hct).
  unfold clone_pt. match goal with |- context [mloop 512 0 ?a s] => set (act := a) end.
  set (ef := fun m => entry_frames 0 m c). set (ready := fun i m => cloned_entry 0 (vm_mem s0) m (rd (vm_mem s0) (slot t i)) (rd m (slot c i))).
  destruct (loop_spec s0 T0 c Hc 512 ltac:(lia) ef (fun _ => 0) ready (entry_frames 0 (vm_mem s0) t) act) with (T := T) (s := s) as (A & B & C); try done.
  - intros m m' i Hi (K1 & _ & K3). apply entry_frames_agree; [lia|done|done].
  - intros m m' i Hi (K1 & _ & K3). by apply cloned_entry_agree.
  - intros s1 T1 i _ _ E. unfold ef, entry_frames. cbv zeta. by rewrite E, inner_zero.
  - intros i s1 T1 Hi Fo1 Hs1 Hct1 E. pose proof (lookup_weaken _ _ _ _ HTc Hs1) as HTc1. unfold act. rewrite (fresh_only_old s0 T0 s1 T1 t (1%nat, v) i W0 Fo1 Ht ltac:(lia)). set (e := rd (vm_mem s0) (slot t i)).
    assert (Hin : inner 1 e = has e VMM_PRESENT) by (unfold inner, big; apply andb_true_r). assert (Hef : entry_frames 0 (vm_mem s0) t i = if inner 1 e then [Z.land e VMM_ADDR_MASK] else []) by done. unfold step_ok. rewrite Hef, Hin.
    change (has e 1) with (has e VMM_PRESENT). assert (Hz0 : ef (vm_mem s1) i = []) by (unfold ef, entry_frames; cbv zeta; by rewrite E, inner_zero). destruct (has e VMM_PRESENT) eqn:Hp; cbn [negb].
    2: { exists T1, []. cbn [fst snd]. split; [done|]. split; [done|]. split; [apply built_refl|]. split; [by rewrite Hz0|]. split; [done|]. split; [|done]. intros _. unfold ready, cloned_entry. fold e. by rewrite Hin, Hp, E. }
    assert (Hsrc : fs_taken (vm_frames s0) (Z.land e VMM_ADDR_MASK)) by (apply Hfr; rewrite tree_frames_entries; apply elem_of_seqZ_bind; exists i; rewrite Hef, Hin; split; [lia|apply list_elem_of_here]).
    pose proof (fun p f => copy_leaf s0 T0 t c v i s1 T1 p f (copy_page p (Z.land e VMM_ADDR_MASK) (vm_mem s1)) W0 Ht Hc ltac:(lia) Fo1 HTc1 Hp Hsrc) as L. pose proof (built_frame c ZONE_RED s1 (wf_ok _ _ (fo_wf _ _ _ _ Fo1))) as (Bf & _ & Hok & _). unfold frame, require in Bf, Hok. fold (leaf_new t c i (Z.land e VMM_ADDR_MASK)). rewrite leaf_new_eq.
    assert (Hsup : forall k, supplies (1 + k) (vm_frames s1) -> (fs_alloc ZONE_RED (vm_frames s1)).1 <> 0 /\ supplies k (fs_alloc ZONE_RED (vm_frames s1)).2) by (intros k Hk; by apply Hk).
    destruct (fs_alloc ZONE_RED (vm_frames s1)) as [p f]. cbn [fst snd] in Bf, Hok, Hsup. revert Bf Hok. destruct (Z.eqb_spec p 0) as [->|Hp0]; intros Bf Hok; cbn [fst snd] in Bf, Hok |- *.
    + exists T1, []. split; [apply fresh_frames; [done|done|intros q Hq; apply (bt_taken _ _ _ _ Bf); by left]|]. split; [done|]. split; [exact Bf|]. split; [by rewrite <- Hz0|]. split; [done|]. split; [done|]. intros k Hk. by apply Hsup in Hk as [].
    + destruct Bf as (Bf & Hpa & _ & Hpn). assert (Hps : p <> Z.land e VMM_ADDR_MASK) by (intros Eps; apply Hpn, (fo_taken _ _ _ _ Fo1); by rewrite Eps). destruct (copy_page_spec p _ (vm_mem s1) Hpa (mask_aligned e) Hps) as [Ci Co].
      destruct (L p f eq_refl Hp0 Ci Co) as (P1 & P2 & P3 & P4 & P5). exists T1, [p]. split; [exact P1|]. split; [done|]. split; [exact P2|]. split; [unfold ef; by rewrite <- P3|]. split; [exact P4|]. split; [intros _; exact P5|]. intros k Hk. split; [done|]. by apply Hsup in Hk as [].
  - split; [exact A|]. split; [|exact C]. intros Hr. destruct (B Hr) as (_ & _ & _ & _ & _ & D). rewrite cloned_entries. intros i Hi. by apply D.
Qed.

(** ** Roots *)

Lemma clone_pdpt_spec : clones 3 clone_pdpt.
Proof. apply clone_level_spec; [lia|]. apply clone_level_spec; [lia|]. apply clone_pt_spec. Qed.

Lemma inner_root e : inner 4 e = has e VMM_PRESENT.
Proof. unfold inner, big. apply andb_true_r. Qed.

Section Root.
Context (s0 : vmm) (T0 : gmap Z (nat * Z)) (W0 : pt_wf s0 T0) (t c : Z).
#[local] Abbreviation k := (kernel_pml4 s0).
#[local] Abbreviation m0 := (vm_mem s0).
Context (Ht : T0 !! t = Some (4%nat, 0)) (Hk : T0 !! k = Some (4%nat, 0)) (Hc : ~ fs_taken (vm_frames s0) c).
Context (Hfr : forall q, q ∈ user_frames m0 k t -> fs_taken (vm_frames s0) q).

Definition root_ready (i : Z) (m : gmap Z Z) : Prop :=
  if private m0 k t i then private m k c i = true /\ cloned_entry 3 m0 m (rd m0 (slot t i)) (rd m (slot c i))
  else rd m (slot c i) = rd m0 (slot k i).

Lemma kernel_word s T i : fresh_only s0 T0 s T -> 0 <= i < 512 -> rd (vm_mem s) (slot k i) = rd m0 (slot k i).
Proof. intros Fo Hi. by apply (fresh_only_old s0 T0 s T k (4%nat, 0) i W0 Fo Hk). Qed.

Lemma private_keep m m' i : 0 <= i < 256 -> rd m' (slot c i) = rd m (slot c i) -> rd m' (slot k i) = rd m (slot k i) -> private m' k c i = private m k c i.
Proof. intros Hi E1 E2. unfold private. by rewrite E1, E2. Qed.

Lemma private_init s T i : fresh_only s0 T0 s T -> 0 <= i < 256 -> rd (vm_mem s) (slot c i) = rd m0 (slot k i) -> root_frames (vm_mem s) k c i = [].
Proof. intros Fo Hi E. unfold root_frames, private. by rewrite E, (kernel_word s T i Fo ltac:(lia)), Z.eqb_refl, andb_false_r. Qed.

(** A fresh table is not the kernel's. *)
Lemma private_new s T i : fresh_only s0 T0 s T -> 0 <= i < 256 -> ~ fs_taken (vm_frames s0) (Z.land (rd (vm_mem s) (slot c i)) VMM_ADDR_MASK) -> has (rd (vm_mem s) (slot c i)) VMM_PRESENT = true -> private (vm_mem s) k c i = true.
Proof.
  intros Fo Hi Hn Hp. unfold private. rewrite Hp, (kernel_word s T i Fo ltac:(lia)). destruct (Z.ltb_spec i 256); [|lia]. cbn [andb]. apply negb_true_iff, Z.eqb_neq. intros E. rewrite E in Hn, Hp.
  pose proof (wf_next _ _ W0 k 3 0 i Hk ltac:(lia) ltac:(lia) Hp ltac:(done)) as Hkn. destruct (wf_page _ _ W0 _ _ _ Hkn) as (_ & _ & _ & ?). done.
Qed.

Lemma clone_pml4_spec s T :
  fresh_only s0 T0 s T -> T !! c = Some (4%nat, 0) -> (forall i, 0 <= i < 512 -> rd (vm_mem s) (slot c i) = rd m0 (slot k i)) ->
  let r := clone_pml4 t c k s in
  (exists T', fresh_only s0 T0 r.2 T' /\ T ⊆ T' /\ built c s r.2 (user_frames (vm_mem r.2) k c)) /\
  (r.1 = Some tt -> (forall i, 0 <= i < 256 -> root_ready i (vm_mem r.2)) /\ (forall i, 256 <= i < 512 -> rd (vm_mem r.2) (slot c i) = rd m0 (slot k i))) /\
  (forall k', supplies (length (user_frames m0 k t) + k') (vm_frames s) -> r.1 = Some tt /\ supplies k' (vm_frames r.2)).
Proof.
  intros Fo HTc Hz. destruct (wf_page _ _ (fo_wf _ _ _ _ Fo) _ _ _ HTc) as (Hca & _ & _ & Hct). destruct (wf_page _ _ W0 _ _ _ Hk) as (Hka & _ & _ & Hkt).
  unfold clone_pml4. match goal with |- context [mloop 256 0 ?a s] => set (act := a) end.
  destruct (loop_spec s0 T0 c Hc 256 ltac:(lia) (fun m => root_frames m k c) (fun i => rd m0 (slot k i)) root_ready (root_frames m0 k t) act) with (T := T) (s := s) as (A & B & C); try done.
  - intros m m' i Hi (K1 & K2 & K3). pose proof (private_keep m m' i ltac:(lia) K1 ltac:(apply K2; (done || lia))) as Hp. unfold root_frames in *. rewrite Hp. destruct (private m k c i); [|done]. apply entry_frames_agree; (done || lia).
  - intros m m' i Hi (K1 & K2 & K3). pose proof (private_keep m m' i ltac:(lia) K1 ltac:(apply K2; (done || lia))) as Hp. unfold root_ready. destruct (private m0 k t i); [|by rewrite K1]. intros [R1 R2]. rewrite Hp. split; [done|]. unfold root_frames in K3. rewrite R1 in K3. by apply (cloned_entry_agree 3 m0 m m' c i).
  - intros s1 T1 i Fo1 Hi E. by apply (private_init s1 T1).
  - intros i s1 T1 Hi Fo1 Hs1 Hct1 E. pose proof (lookup_weaken _ _ _ _ HTc Hs1) as HTc1. unfold act. rewrite (entry_word 3 s0 T0 W0 t 0 i Ht ltac:(lia) s1 T1 Fo1), (kernel_word s1 T1 i Fo1 ltac:(lia)). set (e := rd m0 (slot t i)).
    pose proof (private_init s1 T1 i Fo1 ltac:(lia) E) as Hz0. assert (Hpriv : private m0 k t i = has e VMM_PRESENT && negb (e =? rd m0 (slot k i))) by (unfold private; destruct (Z.ltb_spec i 256); [done|lia]).
    assert (Hskip : private m0 k t i = false -> step_ok s0 T0 c (fun m => root_frames m k c) root_ready (root_frames m0 k t) i s1 T1 (Some tt, s1)).
    { intros Hpf. exists T1, []. cbn [fst snd]. split; [done|]. split; [done|]. split; [apply built_refl|]. split; [by rewrite Hz0|]. split; [done|]. split; [intros _; unfold root_ready; by rewrite Hpf|]. unfold root_frames. by rewrite Hpf. }
    change (has e 1) with (has e VMM_PRESENT). destruct (has e VMM_PRESENT) eqn:Hp; cbn [negb]; [|by apply Hskip]. destruct (e =? rd m0 (slot k i)) eqn:Hek; [by apply Hskip|]. clear Hskip. cbn [negb andb] in Hpriv.
    fold (link_new clone_pdpt t c i). assert (Hin : inner 4 e = true) by (by rewrite inner_root).
    assert (Hfr' : forall q, q ∈ entry_frames 3 m0 t i -> fs_taken (vm_frames s0) q) by (intros q Hq; apply Hfr; unfold user_frames; apply elem_of_seqZ_bind; exists i; split; [lia|]; unfold root_frames; by rewrite Hpriv).
    destruct (link_new_spec 3 ltac:(lia) s0 T0 W0 t c 0 i Ht Hc ltac:(lia) Hin Hfr' s1 T1 Fo1 HTc1 clone_pdpt clone_pdpt_spec) as (T2 & l & R1 & R2 & R3 & R4 & R5 & R6 & R7). set (r := link_new clone_pdpt t c i s1) in *. clearbody r.
    assert (Hnew : l ≡ₚ root_frames (vm_mem r.2) k c i /\ (r.1 = Some tt -> private (vm_mem r.2) k c i = true)).
    { destruct R4 as [[Hl (p & Hpf & <- & Hpp)]|(-> & Hr1 & Ez)]; [|split; [|congruence]; by rewrite (private_init r.2 T2 i R1) by (lia || by rewrite Ez)]. pose proof (private_new r.2 T2 i R1 ltac:(lia) Hpf Hpp) as Hpn. unfold root_frames. by rewrite Hpn. }
    destruct Hnew as [Hl Hpn]. exists T2, l. do 5 (split; [done|]). unfold root_ready, root_frames. rewrite Hpriv. split; [intros Hr; split; [by apply Hpn|by apply R6]|exact R7].
  - intros i Hi. apply Hz. lia.
  - split; [exact A|]. split; [|exact C]. intros Hr. destruct (B Hr) as (_ & _ & _ & _ & D1 & D2). split; [intros i Hi; by apply D2|]. intros i Hi. rewrite D1 by lia. apply Hz. lia.
Qed.

End Root.

(** ** Release *)

Definition free_all (l : list Z) (f : F) : F := foldl (fun f p => fp_free p f) f l.

Lemma free_all_app l l' f : free_all (l ++ l') f = free_all l' (free_all l f).
Proof. apply foldl_app. Qed.

Lemma free_all_spec l f :
  fs_ok f -> NoDup l -> (forall q, q ∈ l -> fp_owned f q) -> fs_ok (free_all l f) /\ forall q, fs_taken (free_all l f) q <-> fs_taken f q /\ q ∉ l.
Proof.
  revert f. induction l as [|p l IH]; intros f Hok Hnd Ho; [split; [done|]; intros q; split; [|by intros []]; intros Hq; split; [done|apply not_elem_of_nil]|]. apply NoDup_cons in Hnd as [Hp Hnd].
  destruct (fp_free_spec p f Hok (Ho p (list_elem_of_here _ _))) as (F1 & F2 & F3). destruct (IH (fp_free p f) F1 Hnd) as [G1 G2]; [intros q Hq; apply F3; [apply Ho, elem_of_cons; by right|by intros ->]|].
  split; [exact G1|]. intros q. change (free_all (p :: l) f) with (free_all l (fp_free p f)). rewrite G2, F2, not_elem_of_cons. tauto.
Qed.

(** A loop of releases whose frames only depend on memory. *)
Lemma free_loop (body : Z -> vmm -> vmm) (g : gmap Z Z -> Z -> list Z) n i s :
  (forall j s, body j s = with_frames s (free_all (g (vm_mem s) j) (vm_frames s))) ->
  for_loop n i body s = with_frames s (free_all (seqZ i (Z.of_nat n) ≫= g (vm_mem s)) (vm_frames s)).
Proof.
  intros Hb. revert i s. induction n as [|n IH]; intros i s; [by destruct s|]. cbn [for_loop]. rewrite IH, Hb. cbn [with_frames vm_mem vm_frames kernel_pml4 Vmm.cr3].
  rewrite (seqZ_cons i (Z.of_nat (S n))) by lia. replace (Z.pred (Z.of_nat (S n))) with (Z.of_nat n) by lia. by rewrite bind_cons, free_all_app.
Qed.

Lemma with_frames_id s : with_frames s (vm_frames s) = s.
Proof. by destruct s. Qed.

Lemma free_sub s l p : pmm_free_in p (with_frames s (free_all l (vm_frames s))) = with_frames s (free_all (l ++ [p]) (vm_frames s)).
Proof. unfold pmm_free_in. cbn [with_frames vm_frames vm_mem kernel_pml4 Vmm.cr3]. by rewrite free_all_app. Qed.

Lemma free_pt_spec t s : free_pt t s = with_frames s (free_all (tree_frames 1 (vm_mem s) t) (vm_frames s)).
Proof.
  unfold free_pt. apply (free_loop _ (fun m => entry_frames 0 m t)). intros j s1. unfold entry_frames, inner, big. cbv zeta. change (has (rd (vm_mem s1) (slot t j)) 1) with (has (rd (vm_mem s1) (slot t j)) VMM_PRESENT). destruct (has (rd (vm_mem s1) (slot t j)) VMM_PRESENT); [done|]. cbn. by rewrite with_frames_id.
Qed.

Lemma free_level_spec n (sub : Z -> vmm -> vmm) t s :
  (1 <= n <= 2)%nat -> (forall t s, sub t s = with_frames s (free_all (tree_frames n (vm_mem s) t) (vm_frames s))) ->
  for_loop 512 0 (fun i s => let e := rd (vm_mem s) (slot t i) in if negb (has e 1) then s else if has e VMM_HUGE then s else let p := Z.land e VMM_ADDR_MASK in pmm_free_in p (sub p s)) s
  = with_frames s (free_all (tree_frames (S n) (vm_mem s) t) (vm_frames s)).
Proof.
  intros Hn Hsub. rewrite tree_frames_entries. apply (free_loop _ (fun m => entry_frames n m t)). intros j s1. unfold entry_frames. cbv zeta. set (e := rd (vm_mem s1) (slot t j)).
  assert (Hb : big (S n) e = has e VMM_HUGE) by (unfold big; destruct (Nat.leb_spec 2 (S n)), (Nat.ltb_spec (S n) 4); (done || lia)). unfold inner. rewrite Hb. change (has e 1) with (has e VMM_PRESENT).
  destruct (has e VMM_PRESENT); cbn [negb andb]; [|by rewrite with_frames_id]. destruct (has e VMM_HUGE); cbn [negb]; [by rewrite with_frames_id|]. by rewrite Hsub, free_sub.
Qed.

Lemma free_pd_spec t s : free_pd t s = with_frames s (free_all (tree_frames 2 (vm_mem s) t) (vm_frames s)).
Proof. apply (free_level_spec 1); [lia|apply free_pt_spec]. Qed.

Lemma free_pdpt_spec t s : free_pdpt t s = with_frames s (free_all (tree_frames 3 (vm_mem s) t) (vm_frames s)).
Proof. apply (free_level_spec 2); [lia|apply free_pd_spec]. Qed.

(** [free_user_address_space] releases the frames of the private part, then the root. *)
Lemma free_user_spec t s : t <> 0 -> free_user_address_space t s = with_frames s (free_all (user_frames (vm_mem s) (kernel_pml4 s) t ++ [t]) (vm_frames s)).
Proof.
  intros H0. unfold free_user_address_space. destruct (Z.eqb_spec t 0) as [|_]; [done|]. cbv zeta. unfold vmm_get_kernel_pml4. set (k := kernel_pml4 s).
  assert (G : forall n i s1, 0 <= i -> i + Z.of_nat n <= 256 -> for_loop n i (fun p4 s => if negb (has (rd (vm_mem s) (slot t p4)) 1) then s else if rd (vm_mem s) (slot t p4) =? rd (vm_mem s) (slot k p4) then s else pmm_free_in (Z.land (rd (vm_mem s) (slot t p4)) VMM_ADDR_MASK) (free_pdpt (Z.land (rd (vm_mem s) (slot t p4)) VMM_ADDR_MASK) s)) s1
    = with_frames s1 (free_all (seqZ i (Z.of_nat n) ≫= root_frames (vm_mem s1) k t) (vm_frames s1))).
  2: { unfold user_frames. rewrite (G 256%nat 0 s) by lia. by rewrite free_sub. }
  induction n as [|n IH]; intros i s1 Hi Hn; [by destruct s1|]. cbn [for_loop]. match goal with |- for_loop n (i + 1) _ ?x = _ => assert (Hx : x = with_frames s1 (free_all (root_frames (vm_mem s1) k t i) (vm_frames s1))) end.
  - unfold root_frames, private. destruct (Z.ltb_spec i 256); [|lia]. set (e := rd (vm_mem s1) (slot t i)). change (has e 1) with (has e VMM_PRESENT). destruct (has e VMM_PRESENT) eqn:He; cbn [negb andb]; [|by rewrite with_frames_id]. destruct (e =? rd (vm_mem s1) (slot k i)); cbn [negb]; [by rewrite with_frames_id|].
    rewrite free_pdpt_spec, free_sub. unfold entry_frames. cbv zeta. fold e. by rewrite inner_root, He.
  - rewrite Hx, IH by lia. cbn [with_frames vm_mem vm_frames kernel_pml4 Vmm.cr3]. rewrite (seqZ_cons i (Z.of_nat (S n))) by lia. replace (Z.pred (Z.of_nat (S n))) with (Z.of_nat n) by lia. by rewrite bind_cons, free_all_app.
Qed.

(** ** The whole copy *)

(** The child's root: the kernel's entries. *)
Lemma fork_root s T c s1 :
  pt_wf s T -> T !! kernel_pml4 s = Some (4%nat, 0) -> frame ZONE_GREEN s = (Some c, s1) ->
  let s2 := with_mem s1 (copy_entries c (kernel_pml4 s) 0 512 (vm_mem s1)) in
  fresh_only s T s2 (<[c := (4%nat, 0)]> T) /\ built c s s2 [c] /\ ~ fs_taken (vm_frames s) c /\ 0 < c /\ (forall i, 0 <= i < 512 -> rd (vm_mem s2) (slot c i) = rd (vm_mem s) (slot (kernel_pml4 s) i)) /\
  (forall n, supplies (S n) (vm_frames s) -> supplies n (vm_frames s2)).
Proof.
  intros W Hk Hf. cbv zeta. rewrite copy_root. pose proof (built_frame c ZONE_GREEN s (wf_ok _ _ W)) as (Bf & Em & Hok & _). unfold frame, require in Hf, Bf, Em, Hok. destruct (fs_alloc ZONE_GREEN (vm_frames s)) as [p f] eqn:Ef. destruct (Z.eqb_spec p 0); [done|]. assert (Ep : p = c) by congruence. assert (Es : s1 = with_frames s f) by congruence. subst p s1. clear Hf Em. cbn [fst snd] in *. destruct Bf as (Bf & Ha & Hr & Hfr).
  destruct (wf_page _ _ W _ _ _ Hk) as (Hka & _ & _ & Hkt). assert (Hck : c <> kernel_pml4 s) by (intros E; apply Hfr; by rewrite E). destruct (copy_page_spec c (kernel_pml4 s) (vm_mem s) Ha Hka Hck) as [Ci Co]. cbn [with_frames vm_mem]. set (m2 := copy_page c (kernel_pml4 s) (vm_mem s)) in *. clearbody m2.
  split; [|split; [|split; [done|split; [lia|split]]]].
  - apply (fresh_add s T s T c 4 0 f m2); [by apply fresh_only_refl|done|lia|done|exact Hok| | |exact Co|lia|].
    + intros q Hq. apply (bt_taken _ _ _ _ Bf). by left.
    + apply (bt_taken _ _ _ _ Bf). right. apply list_elem_of_here.
    + intros n' i [= <-] Hn' Hi. rewrite Ci by done. intros Hp Hh. by apply (wf_next _ _ W (kernel_pml4 s)).
  - apply (built_change c s (with_frames s f)); [exact Bf|done|]. intros q Hq _ Hqc j Hj. cbn [with_mem vm_mem]. apply Co, off_page_slot; done || congruence.
  - exact Ci.
  - intros n' Hn'. cbn [with_mem vm_frames with_frames]. destruct (Hn' ZONE_GREEN ltac:(done)) as [_ H2]. by rewrite Ef in H2.
Qed.

(** The state the copy leaves, finished or not. *)
Lemma fork_space_run s T t :
  pt_wf s T -> T !! kernel_pml4 s = Some (4%nat, 0) -> T !! t = Some (4%nat, 0) -> (forall q, q ∈ user_frames (vm_mem s) (kernel_pml4 s) t -> fs_taken (vm_frames s) q) ->
  let k := kernel_pml4 s in
  let copied c s' := exists T', fresh_only s T s' T' /\ T' !! c = Some (4%nat, 0) /\ ~ fs_taken (vm_frames s) c /\ 0 < c /\ built c s s' (c :: user_frames (vm_mem s') k c) in
  match fork_space t s with
  | (NoRoot, s') => (forall c, built c s s' []) /\ fs_ok (vm_frames s')
  | (NoMemory, s') => exists c s1, s' = free_user_address_space c s1 /\ copied c s1
  | (Forked c, s') => copied c s' /\ (forall i, 0 <= i < 256 -> root_ready s t c i (vm_mem s')) /\ (forall i, 256 <= i < 512 -> rd (vm_mem s') (slot c i) = rd (vm_mem s) (slot k i))
  end /\ (supplies (S (length (user_frames (vm_mem s) k t))) (vm_frames s) -> exists c s', fork_space t s = (Forked c, s')).
Proof.
  intros W Hk Ht Hfr k copied. unfold fork_space, vmm_get_kernel_pml4. fold k. pose proof (fun c => built_frame c ZONE_GREEN s (wf_ok _ _ W)) as Bf. pose proof (fork_root s T) as R. pose proof (fun n => frame_supplied ZONE_GREEN n s ltac:(done)) as Hsup.
  destruct (frame ZONE_GREEN s) as [[c|] s1]; [|split; [split; [intros c; by apply Bf|by apply (Bf 0)]|]; intros Hs; by destruct (Hsup _ Hs) as (? & ? & [=] & _)]. clear Bf Hsup. destruct (R c s1 W Hk eq_refl) as (Fo & B & Hfc & Hc0 & Hw & Hs). clear R. fold k in Fo, B, Hw, Hs. set (s2 := with_mem s1 (copy_entries c k 0 512 (vm_mem s1))) in *. clearbody s2.
  pose proof (lookup_insert_eq T c (4%nat, 0)) as HTc. destruct (clone_pml4_spec s T W t c Ht Hk Hfc Hfr s2 _ Fo HTc Hw) as ((T' & Fo' & Hs' & B') & Hd & Hsup). fold k in B', Hd, Hsup. set (r := clone_pml4 t c k s2) in *.
  assert (Hcop : copied c r.2). { exists T'. split; [done|]. split; [by eapply lookup_weaken|]. split; [done|]. split; [done|]. change (c :: _) with ([c] ++ user_frames (vm_mem r.2) k c). eapply built_trans; [exact B|exact B'|by left]. }
  assert (Hs2 : supplies (S (length (user_frames (vm_mem s) k t))) (vm_frames s) -> r.1 = Some tt) by (intros Hx; apply Hs in Hx; rewrite <- (Nat.add_0_r (length _)) in Hx; by apply Hsup in Hx as []).
  clearbody r. destruct r as [[[]|] s']; cbn [fst snd] in *.
  - split; [split; [done|by apply Hd]|]. intros _. by eexists _, _.
  - split; [by exists c, s'|]. intros Hx. by apply Hs2 in Hx.
Qed.

(** ** Translation *)

Lemma big_huge n e : big (S (S n)) e = huge_leaf (S (S n)) e.
Proof. done. Qed.

Lemma page_of_walk n m t virt p : page_of (S n) m t virt = Some p -> walk (S n) m t virt = Z.lor p (Z.land virt 0xFFF).
Proof.
  revert t. induction n as [|n IH]; intros t.
  - cbn [page_of walk]. unfold inner, big. set (e := rd m _). cbn [Nat.leb andb negb]. rewrite andb_true_r. destruct (has e VMM_PRESENT); [|done]. by intros [= <-].
  - cbn [page_of]. set (e := rd m (slot t (pt_idx (S (S n)) virt))). unfold inner. rewrite big_huge. destruct (has e VMM_PRESENT) eqn:Hp; [|done]. destruct (huge_leaf (S (S n)) e) eqn:Hh; [done|]. cbn [andb negb]. intros Hpo. rewrite (walk_link n m t (Z.land e VMM_ADDR_MASK)) by done. by apply IH.
Qed.

Lemma page_of_S n m t virt : page_of (S n) m t virt = if inner (S n) (rd m (slot t (pt_idx (S n) virt))) then page_of n m (Z.land (rd m (slot t (pt_idx (S n) virt))) VMM_ADDR_MASK) virt else None.
Proof. done. Qed.

Lemma cloned_walk n m0 t m c virt : cloned (S n) m0 t m c ->
  match page_of (S n) m0 t virt with
  | None => walk (S n) m c virt = walk (S n) m0 t virt /\ page_of (S n) m c virt = None
  | Some q => exists p, page_of (S n) m c virt = Some p /\ p ∈ tree_frames (S n) m c /\ cloned 0 m0 q m p
  end.
Proof.
  revert t c. induction n as [|n IH]; intros t c Hcl; rewrite cloned_entries in Hcl.
  - specialize (Hcl _ (pt_idx_range 1 virt)). cbn [page_of walk]. set (e := rd m0 (slot t (pt_idx 1 virt))) in *. set (e' := rd m (slot c (pt_idx 1 virt))) in *. pose proof (cloned_inner 0 m0 m e e' Hcl) as Hi. unfold cloned_entry in Hcl. destruct (inner 1 e) eqn:He.
    + rewrite (Hi eq_refl). destruct Hcl as [_ Hcl]. eexists. split; [done|]. split; [|done]. rewrite tree_frames_entries. apply elem_of_seqZ_bind. exists (pt_idx 1 virt). split; [apply pt_idx_range|]. unfold entry_frames. cbv zeta. fold e'. rewrite (Hi eq_refl). apply list_elem_of_here.
    + assert (Hp : has e VMM_PRESENT = false) by (unfold inner, big in He; cbn in He; by rewrite andb_true_r in He). rewrite Hp in Hcl. unfold inner. by rewrite Hp, Hcl.
  - specialize (Hcl _ (pt_idx_range (S (S n)) virt)). rewrite (page_of_S (S n) m0 t), (page_of_S (S n) m c). set (e := rd m0 (slot t (pt_idx (S (S n)) virt))) in *. set (e' := rd m (slot c (pt_idx (S (S n)) virt))) in *. pose proof (cloned_inner (S n) m0 m e e' Hcl) as Hi. unfold cloned_entry in Hcl. destruct (inner (S (S n)) e) eqn:He.
    + rewrite (Hi eq_refl). destruct Hcl as [_ Hcl]. assert (Lk : forall x, inner (S (S n)) x = true -> has x VMM_PRESENT = true /\ huge_leaf (S (S n)) x = false) by (intros x Hx; unfold inner in Hx; rewrite big_huge in Hx; destruct (has x VMM_PRESENT), (huge_leaf (S (S n)) x); done).
      destruct (Lk _ He), (Lk _ (Hi eq_refl)). rewrite (walk_link n m0 t (Z.land e VMM_ADDR_MASK)), (walk_link n m c (Z.land e' VMM_ADDR_MASK)) by done. specialize (IH _ _ Hcl). destruct (page_of (S n) m0 (Z.land e VMM_ADDR_MASK) virt); [|done]. destruct IH as (p & I1 & I2 & I3). exists p. split; [done|]. split; [|done].
      rewrite tree_frames_entries. apply elem_of_seqZ_bind. exists (pt_idx (S (S n)) virt). split; [apply pt_idx_range|]. unfold entry_frames. cbv zeta. fold e'. rewrite (Hi eq_refl). apply elem_of_app. by left.
    + cbn [walk]. fold e e'. destruct (has e VMM_PRESENT) eqn:Hp; [|unfold inner; by rewrite Hcl].
      assert (Hh : huge_leaf (S (S n)) e = true) by (unfold inner in He; rewrite big_huge, Hp in He; by destruct (huge_leaf (S (S n)) e)). rewrite Hcl, Hp, He, Hh. done.
Qed.

(** Two pages of a tree without sharing lie at one address. *)
Lemma bind_disjoint {A} (f : Z -> list A) N i j x : NoDup (seqZ 0 N ≫= f) -> 0 <= i < N -> 0 <= j < N -> x ∈ f i -> x ∈ f j -> i = j.
Proof.
  assert (G : forall i j, NoDup (seqZ 0 N ≫= f) -> 0 <= i < N -> i < j < N -> x ∈ f i -> x ∈ f j -> False).
  { clear i j. intros i j Hnd Hi Hj Hxi Hxj. rewrite (seqZ_bind_split f N i), !NoDup_app in Hnd by lia. destruct Hnd as (_ & _ & _ & Hd & _). apply (Hd x Hxi). apply list_elem_of_bind. exists j. split; [done|]. apply elem_of_seqZ. lia. }
  intros Hnd Hi Hj Hxi Hxj. destruct (Z.lt_trichotomy i j) as [Hlt|[?|Hlt]]; [exfalso; apply (G i j); (done || lia)|done|exfalso; apply (G j i); (done || lia)].
Qed.

Lemma NoDup_bind_part {A} (f : Z -> list A) N i : NoDup (seqZ 0 N ≫= f) -> 0 <= i < N -> NoDup (f i).
Proof. intros Hnd Hi. rewrite (seqZ_bind_split f N i), !NoDup_app in Hnd by lia. tauto. Qed.

Lemma page_of_frames n m t virt p : page_of (S n) m t virt = Some p -> p ∈ entry_frames n m t (pt_idx (S n) virt).
Proof.
  revert t. induction n as [|n IH]; intros t Hp; rewrite page_of_S in Hp; unfold entry_frames; cbv zeta; set (e := rd m _) in *; destruct (inner _ e); try done.
  - injection Hp as <-. apply list_elem_of_here.
  - apply elem_of_app. left. rewrite tree_frames_entries. apply elem_of_seqZ_bind. exists (pt_idx (S n) virt). split; [apply pt_idx_range|]. by apply IH.
Qed.

Lemma page_of_inj n m t v1 v2 p :
  NoDup (tree_frames n m t) -> page_of n m t v1 = Some p -> page_of n m t v2 = Some p -> forall i, (1 <= i <= n)%nat -> pt_idx i v1 = pt_idx i v2.
Proof.
  revert t. induction n as [|n IH]; intros t Hnd H1 H2 i Hi; [lia|]. assert (E : pt_idx (S n) v1 = pt_idx (S n) v2) by (eapply (bind_disjoint (entry_frames n m t)); [exact Hnd|apply pt_idx_range..|by apply page_of_frames|by apply page_of_frames]).
  destruct (decide (i = S n)) as [->|Hne]; [done|]. pose proof (NoDup_bind_part (entry_frames n m t) 512 (pt_idx (S n) v1) Hnd (pt_idx_range _ _)) as Hn1. unfold entry_frames in Hn1. cbv zeta in Hn1. rewrite page_of_S in H1, H2. rewrite <- E in H2. set (e := rd m (slot t (pt_idx (S n) v1))) in *. destruct (inner (S n) e); [|done]. apply NoDup_app in Hn1 as (Hn1 & _). apply (IH (Z.land e VMM_ADDR_MASK)); (done || lia).
Qed.

Lemma idx_vpage v1 v2 : (forall i, (1 <= i <= 4)%nat -> pt_idx i v1 = pt_idx i v2) -> vpage v1 = vpage v2.
Proof. intros H. unfold vpage. rewrite !(pfx_step 0), !(pfx_step 1), !(pfx_step 2), !(pfx_step 3), !H by lia. unfold pt_pfx. change (2 ^ (36 - 9 * Z.of_nat 4)) with 1. by rewrite !Z.mod_1_r. Qed.

(** Bytes of pages with equal words. *)
Lemma page_byte p q m0 m virt :
  p mod 4096 = 0 -> q mod 4096 = 0 -> cloned 0 m0 q m p -> load8 (Z.lor p (Z.land virt 0xFFF)) m = load8 (Z.lor q (Z.land virt 0xFFF)) m0.
Proof.
  intros Hp Hq Hw. pose proof (land_low 12 virt ltac:(lia)) as El. change (2 ^ 12 - 1) with 0xFFF in El. rewrite El. pose proof (Z.mod_pos_bound virt (2 ^ 12) ltac:(lia)) as Ho. set (o := virt mod 2 ^ 12) in *. clearbody o.
  assert (A : forall d, d mod 4096 = 0 -> Z.lor d o = d + o).
  { intros d Hd. rewrite Z.lor_comm. replace d with (d / 2 ^ 12 * 2 ^ 12) by (change (2 ^ 12) with 4096; Z.div_mod_to_equations; lia). rewrite lor_add_disjoint by lia. lia. }
  rewrite !A by done. unfold load8. assert (P : forall d, d mod 4096 = 0 -> d + o - (d + o) mod 8 = slot d (o / 8) /\ (d + o) mod 8 = o mod 8) by (intros d Hd; unfold slot; change (2 ^ 12) with 4096 in Ho; Z.div_mod_to_equations; lia).
  destruct (P p Hp) as [-> ->], (P q Hq) as [-> ->]. rewrite Hw; [done|]. change (2 ^ 12) with 4096 in Ho. Z.div_mod_to_equations; lia.
Qed.

Lemma page_of_aligned n m t virt p : page_of (S n) m t virt = Some p -> p mod 4096 = 0.
Proof.
  revert t. induction n as [|n IH]; intros t Hp; rewrite page_of_S in Hp; destruct (inner _ _); try done; [|by eapply IH]. injection Hp as <-. apply mask_aligned.
Qed.

End Space.

(** ** Properties *)

(** C36: [fork] gives the child a private copy of the parent's memory.  With one frame for
    the root and one for each table and page of the parent's private part, the copy
    succeeds; no page in use is written and no existing address space changes.  In the
    child, every 4 KiB page the parent has lies in a frame that was free, holds the parent's
    bytes, and shares that frame with no other page of the child; large pages and unmapped
    addresses translate as in the parent, and the rest as in the kernel. *)
Theorem fork_copies_memory {F} {FS : FrameSource F} {FP : FramePool F} (s : vmm F) T parent :
  let k := kernel_pml4 s in
  let m := vm_mem s in
  pt_wf s T -> T !! k = Some (4%nat, 0) -> T !! parent = Some (4%nat, 0) ->
  Forall (fs_taken (vm_frames s)) (user_frames m k parent) -> supplies (S (length (user_frames m k parent))) (vm_frames s) ->
  exists child s' T', fork_space parent s = (Forked child, s') /\ T ⊆ T' /\ pt_wf s' T' /\ T' !! child = Some (4%nat, 0) /\
  (forall q, q mod 4096 = 0 -> fs_taken (vm_frames s) q -> same_page m (vm_mem s') q) /\
  (forall root virt, T !! root = Some (4%nat, 0) -> vmm_get_phys_into root virt s' = vmm_get_phys_into root virt s) /\
  (forall virt, if private m k parent (pt_idx 4 virt) then
     match page_of 4 m parent virt with
     | Some _ => exists p, page_of 4 (vm_mem s') child virt = Some p /\ ~ fs_taken (vm_frames s) p /\ user_byte child virt s' = user_byte parent virt s
     | None => vmm_get_phys_into child virt s' = vmm_get_phys_into parent virt s
     end
   else vmm_get_phys_into child virt s' = vmm_get_phys_into k virt s) /\
  (forall v1 v2 p, private m k parent (pt_idx 4 v1) = true -> private m k parent (pt_idx 4 v2) = true ->
     page_of 4 (vm_mem s') child v1 = Some p -> page_of 4 (vm_mem s') child v2 = Some p -> vpage v1 = vpage v2).
Proof.
  intros k m W Hk Hp Hfr Hs. rewrite Forall_forall in Hfr. destruct (fork_space_run s T parent W Hk Hp) as [R Hok]; [done|]. destruct (Hok Hs) as (c & s' & E). rewrite E in R. destruct R as ((T' & Fo & HTc & Hfc & Hc0 & B) & Hready & Hhigh). fold k m in B, Hready, Hhigh.
  destruct (wf_page _ _ W _ _ _ Hp) as (_ & Hp0 & _). destruct (wf_page _ _ W _ _ _ Hk) as (_ & Hk0 & _). exists c, s', T'. split; [done|]. split; [apply (fo_sub _ _ _ _ Fo)|]. split; [apply (fo_wf _ _ _ _ Fo)|]. split; [done|].
  split; [intros q Ha Hq; exact (proj2 (fo_words _ _ _ _ Fo q Ha Hq))|]. split; [intros root virt Hr; by apply (fresh_only_phys s T s' T')|]. pose proof (pt_idx_range 4) as Hi. split.
  - intros virt. destruct (private m k parent (pt_idx 4 virt)) eqn:Hpr.
    + assert (Hlt : 0 <= pt_idx 4 virt < 256) by (split; [apply Hi|]; unfold private in Hpr; destruct (Z.ltb_spec (pt_idx 4 virt) 256); done). specialize (Hready _ Hlt). unfold root_ready in Hready. fold k m in Hready. rewrite Hpr in Hready. destruct Hready as [Hpc Hcl].
      set (e := rd m (slot parent (pt_idx 4 virt))) in *. set (e' := rd (vm_mem s') (slot c (pt_idx 4 virt))) in *. assert (Hin : inner 4 e = true) by (rewrite inner_root; unfold private in Hpr; fold e in Hpr; destruct (has e VMM_PRESENT); [done|by rewrite andb_false_r in Hpr]).
      pose proof (cloned_inner 3 m (vm_mem s') e e' Hcl Hin) as Hin'. unfold cloned_entry in Hcl. rewrite Hin in Hcl. destruct Hcl as [_ Hcl]. pose proof (cloned_walk 2 m _ (vm_mem s') _ virt Hcl) as Hw. unfold user_byte. rewrite !get_phys_walk by lia. change (vm_mem s) with m.
      assert (Lk : forall x, inner 4 x = true -> has x VMM_PRESENT = true /\ huge_leaf 4 x = false) by (intros x; rewrite inner_root; done). destruct (Lk _ Hin), (Lk _ Hin').
      rewrite (walk_link 2 _ c (Z.land e' VMM_ADDR_MASK)), (walk_link 2 _ parent (Z.land e VMM_ADDR_MASK)) by done. rewrite (page_of_S 3 m), (page_of_S 3 (vm_mem s')). fold e e'. rewrite Hin, Hin'.
      destruct (page_of 3 m (Z.land e VMM_ADDR_MASK) virt) as [q|] eqn:Hq; [|apply Hw]. destruct Hw as (p & P1 & P2 & P3). exists p. split; [exact P1|].
      assert (Hpn : p ∈ c :: user_frames (vm_mem s') k c). { apply elem_of_cons. right. apply elem_of_seqZ_bind. exists (pt_idx 4 virt). split; [lia|]. unfold root_frames. rewrite Hpc. unfold entry_frames. cbv zeta. fold e'. rewrite Hin'. apply elem_of_app. by left. }
      split; [by apply (bt_new _ _ _ _ B)|]. rewrite (page_of_walk 2 _ _ _ _ P1), (page_of_walk 2 _ _ _ _ Hq). apply page_byte; [by eapply page_of_aligned|by eapply page_of_aligned|done].
    + assert (Hw : rd (vm_mem s') (slot c (pt_idx 4 virt)) = rd m (slot k (pt_idx 4 virt))).
      { specialize (Hi virt). destruct (Z.lt_ge_cases (pt_idx 4 virt) 256); [|apply Hhigh; lia]. specialize (Hready (pt_idx 4 virt) ltac:(lia)). unfold root_ready in Hready. fold k m in Hready. by rewrite Hpr in Hready. }
      rewrite <- (fresh_only_phys s T s' T' k virt W Fo Hk). rewrite !get_phys_walk by lia. cbn [walk]. rewrite Hw. by rewrite (fresh_only_old s T s' T' k (4%nat, 0) (pt_idx 4 virt) W Fo Hk (Hi virt)).
  - intros v1 v2 p Hp1 Hp2 H1 H2. apply idx_vpage.
    assert (Hpart : forall v, private m k parent (pt_idx 4 v) = true -> page_of 4 (vm_mem s') c v = Some p -> 0 <= pt_idx 4 v < 256 /\ root_frames (vm_mem s') k c (pt_idx 4 v) = entry_frames 3 (vm_mem s') c (pt_idx 4 v)).
    { intros v Hpv _. assert (Hlt : 0 <= pt_idx 4 v < 256) by (split; [apply Hi|]; unfold private in Hpv; destruct (Z.ltb_spec (pt_idx 4 v) 256); done). split; [done|]. specialize (Hready _ Hlt). unfold root_ready in Hready. fold k m in Hready. rewrite Hpv in Hready. unfold root_frames. by destruct Hready as [-> _]. }
    destruct (Hpart v1 Hp1 H1) as [L1 F1], (Hpart v2 Hp2 H2) as [L2 F2]. pose proof (bt_nodup _ _ _ _ B) as Hnd. apply NoDup_cons in Hnd as [_ Hnd].
    assert (Ei : pt_idx 4 v1 = pt_idx 4 v2) by (eapply (bind_disjoint (root_frames (vm_mem s') k c) 256); [exact Hnd|done|done|rewrite F1; by apply page_of_frames|rewrite F2; by apply page_of_frames]).
    pose proof (NoDup_bind_part (root_frames (vm_mem s') k c) 256 _ Hnd L1) as Hn1. rewrite F1 in Hn1. unfold entry_frames in Hn1. cbv zeta in Hn1. rewrite page_of_S in H1, H2. rewrite <- Ei in H2. set (e := rd (vm_mem s') (slot c (pt_idx 4 v1))) in *. destruct (inner 4 e); [|done]. apply NoDup_app in Hn1 as (Hn1 & _).
    intros i Hi4. destruct (decide (i = 4%nat)) as [->|Hne]; [done|]. apply (page_of_inj 3 (vm_mem s') (Z.land e VMM_ADDR_MASK) v1 v2 p); (done || lia).
Qed.

(** C37: a copy leaks nothing.  Whether [fork] finds no frame at all, runs out of frames at
    any point of the copy (and then releases what it built), or succeeds and the child's
    address space is released, exactly the frames in use before are in use after -- none is
    lost, none is freed twice -- and no page in use was written. *)
Theorem fork_releases_memory {F} {FS : FrameSource F} {FP : FramePool F} (s : vmm F) T parent :
  pt_wf s T -> T !! kernel_pml4 s = Some (4%nat, 0) -> T !! parent = Some (4%nat, 0) ->
  Forall (fs_taken (vm_frames s)) (user_frames (vm_mem s) (kernel_pml4 s) parent) ->
  let s' := match fork_space parent s with
            | (Forked child, s') => free_user_address_space child s'
            | (_, s') => s'
            end in
  fs_ok (vm_frames s') /\ (forall q, fs_taken (vm_frames s') q <-> fs_taken (vm_frames s) q) /\
  (forall q, q mod 4096 = 0 -> fs_taken (vm_frames s) q -> same_page (vm_mem s) (vm_mem s') q).
Proof.
  intros W Hk Hp Hfr. rewrite Forall_forall in Hfr. destruct (fork_space_run s T parent W Hk Hp Hfr) as [R _]. set (k := kernel_pml4 s) in *.
  assert (G : forall c s1, (exists T', fresh_only s T s1 T' /\ T' !! c = Some (4%nat, 0) /\ ~ fs_taken (vm_frames s) c /\ 0 < c /\ built c s s1 (c :: user_frames (vm_mem s1) k c)) ->
    let s' := free_user_address_space c s1 in fs_ok (vm_frames s') /\ (forall q, fs_taken (vm_frames s') q <-> fs_taken (vm_frames s) q) /\ (forall q, q mod 4096 = 0 -> fs_taken (vm_frames s) q -> same_page (vm_mem s) (vm_mem s') q)).
  { intros c s1 (T' & Fo & _ & Hfc & Hc0 & B). cbv zeta. rewrite free_user_spec by lia. destruct (fo_root _ _ _ _ Fo) as [-> _]. fold k. cbn [with_frames vm_frames vm_mem]. set (l := user_frames (vm_mem s1) k c) in *.
    assert (P : c :: l ≡ₚ l ++ [c]) by apply Permutation_cons_append. apply (built_perm _ _ _ _ _ P) in B. destruct (free_all_spec (l ++ [c]) (vm_frames s1) (wf_ok _ _ (fo_wf _ _ _ _ Fo)) (bt_nodup _ _ _ _ B)) as [F1 F2]; [intros q Hq; by apply (bt_new _ _ _ _ B)|].
    split; [done|]. split.
    - intros q. rewrite F2, (bt_taken _ _ _ _ B). split; [tauto|]. intros Hq. split; [by left|]. intros Hin. by apply (bt_new _ _ _ _ B) in Hin as [? _].
    - intros q Ha Hq. apply (bt_words _ _ _ _ B); [done|done|]. by intros ->. }
  destruct (fork_space parent s) as [[| |c] s1]; [|destruct R as (c & s2 & -> & R); by apply G|destruct R as [R _]; by apply G].
  destruct R as [B Hok]. split; [done|]. split; [intros q; rewrite (bt_taken _ _ _ _ (B 0)), elem_of_nil; tauto|]. intros q Ha Hq. apply (bt_words _ _ _ _ (B (q + 1))); (done || lia).
Qed.

Module ForkDemo.

(** ** A process with one page *)

(** A page allocated and written. *)
Lemma data_page_wf {F} {FS : FrameSource F} (s : vmm F) T z j v :
  pt_wf s T -> (fs_alloc z (vm_frames s)).1 <> 0 -> 0 <= j < 512 ->
  pt_wf (with_mem (with_frames s (fs_alloc z (vm_frames s)).2) (<[slot (fs_alloc z (vm_frames s)).1 j := v]> (vm_mem s))) T.
Proof.
  intros W Hp Hj. destruct (fs_alloc_spec z (vm_frames s) (wf_ok _ _ W)) as (Hok & Hm & Hn). destruct (Hn Hp) as (Ha & _ & Hfr & _). destruct (fs_alloc z (vm_frames s)) as [p f]. cbn [fst snd] in *.
  assert (HT : T !! p = None) by (destruct (T !! p) as [[n w]|] eqn:ET; [|done]; by destruct (wf_page _ _ W _ _ _ ET) as (_ & _ & _ & ?)).
  apply (fo_wf s T _ T), (fresh_data s T (with_frames s f) T p); [apply fresh_frames; [by apply fresh_only_refl|exact Hok|exact Hm]|exact Ha|exact Hfr|exact HT|].
  intros a Hoff. rewrite rd_insert, decide_False; [done|]. intros <-. by apply (Hoff j).
Qed.

Definition parent : Z := (vmm_make_user_pml4 boot_vmm).1.
Definition with_root : vmm pmm := (vmm_make_user_pml4 boot_vmm).2.
Definition root_tables : gmap Z (nat * Z) := <[parent := (4%nat, 0)]> boot_tables.
Definition page : Z := (fs_alloc ZONE_RED (vm_frames with_root)).1.
Definition with_data : vmm pmm := with_mem (with_frames with_root (fs_alloc ZONE_RED (vm_frames with_root)).2) (<[slot page 3 := 0x1122]> (vm_mem with_root)).
Definition vaddr : Z := 0x400000.
Definition running : vmm pmm := (map_at parent page vaddr (Z.lor VMM_USER VMM_NX) with_data).2.

Lemma root_wf : pt_wf with_root root_tables.
Proof. assert (E : (vmm_make_user_pml4 boot_vmm).1 <> 0) by (vm_compute; discriminate). exact (proj1 (proj2 (make_user_ext boot_vmm boot_tables boot_vmm_wf eq_refl E))). Qed.

Lemma data_wf : pt_wf with_data root_tables.
Proof. refine (data_page_wf with_root root_tables ZONE_RED 3 0x1122 root_wf _ ltac:(lia)). vm_compute. discriminate. Qed.

Lemma data_clear : clear_path 4 (vm_mem with_data) parent vaddr.
Proof. vm_compute. congruence. Qed.

Lemma running_wf : exists T, pt_wf running T /\ T !! kernel_pml4 running = Some (4%nat, 0) /\ T !! parent = Some (4%nat, 0).
Proof.
  assert (Hf : Z.land (Z.lor VMM_USER VMM_NX) VMM_ADDR_MASK = 0) by (vm_compute; reflexivity). assert (Hr : root_tables !! parent = Some (4%nat, 0)) by apply lookup_insert_eq.
  destruct (map_at_spec with_data root_tables parent page vaddr (Z.lor VMM_USER VMM_NX) data_wf Hr data_clear Hf) as (T & Hs & W & _).
  exists T. split; [exact W|]. split; [|exact (lookup_weaken _ _ _ _ Hr Hs)]. assert (Hk : root_tables !! kernel_pml4 running = Some (4%nat, 0)) by (vm_compute; reflexivity). exact (lookup_weaken _ _ _ _ Hk Hs).
Qed.

Definition running_frames : list Z := Eval vm_compute in user_frames (vm_mem running) (kernel_pml4 running) parent.

Lemma running_frames_eq : user_frames (vm_mem running) (kernel_pml4 running) parent = running_frames.
Proof. vm_compute. reflexivity. Qed.

Definition takenb (st : pmm) (p : Z) : bool :=
  let j := phys_to_idx st p in (0 <=? j) && (j <? g_frame_count st) && (p =? idx_to_phys st j) && negb (pf_flags (g_frames st).[j] =? PF_FREE).
Lemma takenb_ok st l : forallb (takenb st) l = true -> Forall (fs_taken st) l.
Proof. rewrite forallb_forall, Forall_forall. intros Hl p Hp. apply list_elem_of_In, Hl in Hp. unfold takenb in Hp. exists (phys_to_idx st p). lia. Qed.

Lemma running_taken : Forall (fs_taken (vm_frames running)) running_frames.
Proof. apply takenb_ok. vm_compute. reflexivity. Qed.

(** Enough frames, decided. *)
Fixpoint suppliesb (n : nat) (f : pmm) : bool :=
  match n with
  | O => true
  | S n' => forallb (fun z => let '(p, f') := pmm_alloc_run z f in negb (p =? 0) && suppliesb n' f') [ZONE_GREEN; ZONE_YELLOW; ZONE_RED]
  end.
Lemma suppliesb_ok n f : suppliesb n f = true -> supplies n f.
Proof.
  revert f. induction n as [|n IH]; intros f; [done|]. cbn [suppliesb supplies]. rewrite forallb_forall. intros Hf z Hz. specialize (Hf z). change (fs_alloc z f) with (pmm_alloc_run z f). destruct (pmm_alloc_run z f) as [p f']. cbn [fst snd].
  assert (Hin : In z [ZONE_GREEN; ZONE_YELLOW; ZONE_RED]) by (destruct z; cbn; tauto). apply Hf, andb_true_iff in Hin as [H1 H2]. split; [|by apply IH]. intros ->. done.
Qed.

Lemma fork_copies_memory_witness : exists child s', fork_space parent running = (Forked child, s') /\ user_byte child (vaddr + 24) s' = 0x22.
Proof.
  destruct running_wf as (T & W & Hk & Hp). destruct (fork_copies_memory running T parent W Hk Hp) as (child & s' & T' & E & _ & _ & _ & _ & _ & V & _).
  - rewrite running_frames_eq. exact running_taken.
  - rewrite running_frames_eq. apply suppliesb_ok. vm_compute. reflexivity.
  - exists child, s'. split; [exact E|]. specialize (V (vaddr + 24)). replace (private (vm_mem running) (kernel_pml4 running) parent (pt_idx 4 (vaddr + 24))) with true in V by (vm_compute; reflexivity).
    replace (page_of 4 (vm_mem running) parent (vaddr + 24)) with (Some page) in V by (vm_compute; reflexivity). destruct V as (p & _ & _ & ->). vm_compute. reflexivity.
Defined.

Lemma fork_releases_memory_witness : exists s', s' = match fork_space parent running with (Forked child, s') => free_user_address_space child s' | (_, s') => s' end /\ fs_taken (vm_frames s') page.
Proof.
  destruct running_wf as (T & W & Hk & Hp). destruct (fork_releases_memory running T parent W Hk Hp) as (_ & Ht & _); [rewrite running_frames_eq; exact running_taken|].
  eexists. split; [reflexivity|]. apply Ht. pose proof running_taken as H. rewrite Forall_forall in H. apply H, list_elem_of_In. vm_compute. tauto.
Defined.

(** The copied entries lose bit 63: a page the parent cannot execute, the child can. *)
Example nx_lost :
  match fork_space parent running with
  | (Forked child, s') =>
      let leaf root (m : gmap Z Z) := let step t n := Z.land (rd m (slot t (pt_idx n vaddr))) VMM_ADDR_MASK in rd m (slot (step (step (step root 4%nat) 3%nat) 2%nat) (pt_idx 1 vaddr)) in
      has (leaf parent (vm_mem s')) VMM_NX = true /\ has (leaf child (vm_mem s')) VMM_NX = false
  | _ => False
  end.
Proof. vm_compute. split; reflexivity. Qed.

End ForkDemo.
