(* ===== verification/ForkProc.v ===== *)
(** * fork and waitpid on a whole machine

    [sys_fork_impl] and [waitpid_reap] run on concrete machines: what the child gets, and
    two cases the code does not handle. *)

From S2P Require Import Prelude AuditRing Pmm Vmm Kmalloc Capability Proc Elf ElfMap Fork ForkSpace.
Import ForkDemo.

#[local] Instance no_fds : FdTable unit := {| vfs_close_all_for_pid _ v := v |}.
#[local] Instance no_files : Files unit := {| vf_open _ v := (-1, v); vf_read _ _ v := (-1, [], v); vf_close _ v := v |}.

(** The process of [sys_run] on the memory above, all green frames gone. *)
Definition drained : vmm pmm := vmm_switch parent (with_frames running (for_loop 64 0 (fun _ f => (pmm_alloc_run ZONE_GREEN f).2) (vm_frames running))).
Definition demo_sys : ksys heap unit := upd 0 (fun p => set_mmap_top 0x7FEFFFFF0000 (set_pid 1 (set_cr3 parent p))) (with_next_pid 2 (with_heap (kmalloc_init 0x200000 0x10000 (mk_heap ∅ 0 0 0)) sys_run)).
Definition short_machine : machine := mk_machine demo_sys drained ∅.
Definition full_machine : machine := mk_machine demo_sys (vmm_switch parent running) ∅.
Definition no_regs : syscall_frame := mk_sframe 0 0 0 0 0 0 0 0 0 0 0 0 0 0 0.

(** When there is no frame for the child's root, the child keeps the parent's page
    tables; reaping it releases the parent's memory while the parent runs on it. *)
Example failed_fork_frees_parent :
  let '(r, s1) := sys_fork_impl 0x1000 0x2000 no_regs short_machine in
  let child := g_next_pid (mc_sys short_machine) in
  let '(code, s2) := waitpid_reap child s1 in
  r = -1 /\ code = -1 /\ takenb (vm_frames (mc_mem s1)) page = true /\ takenb (vm_frames (mc_mem s2)) page = false.
Proof. vm_compute. split_and!; reflexivity. Qed.

(** A fork that succeeds: the caller gets the child's pid, the child is ready with a zero
    in [rax] and its own root, and the caller is back on its own page tables. *)
Example fork_result_demo :
  let '(r, s1) := sys_fork_impl 0x1000 0x2000 (mk_sframe 1 2 3 4 5 6 7 8 9 10 11 12 13 14 15) full_machine in
  let c := proc_at (mc_sys s1) 1 in
  r = 2 /\ pid c = 2 /\ parent_pid c = 1 /\ pstate c = PROC_READY /\ Proc.cr3 c <> parent /\ Vmm.cr3 (mc_mem s1) = parent /\
  (i_rax <$> (mc_user s1 !! 1 ≫= fork_frame)) = Some 0 /\ (i_rip <$> (mc_user s1 !! 1 ≫= fork_frame)) = Some 8 /\ g_queues (mc_sys s1) = [1; NULL; NULL; NULL; NULL].
Proof. vm_compute. split_and!; reflexivity || discriminate. Qed.

(** The child maps from the top of the region again, over the mappings it inherited. *)
Example fork_resets_mmap_top :
  let '(_, s1) := sys_fork_impl 0x1000 0x2000 no_regs full_machine in
  mmap_top (proc_at (mc_sys s1) 0) = 0x7FEFFFFF0000 /\ mmap_top (proc_at (mc_sys s1) 1) = 0x7FF000000000.
Proof. vm_compute. split; reflexivity. Qed.
